(* ===== verification/_CoqProject ===== *)
-Q . S2P
Prelude.v
AiTypes.v
Transform.v
GoStrings.v
AgentTypes.v
EventBus.v
ControlQueue.v
Agent.v
AgentConc.v
AgentProps.v
NativeDriver.v
NativeDriverProps.v
AgentService.v
AgentServiceProps.v
DriverRegistry.v
GoText.v
GoFloat.v
GoPath.v
FleetTypes.v
FleetInstance.v
FleetRouter.v
Fleet.v
FleetSteps.v
FleetProps.v
FleetScaling.v
FleetDemo.v
Sse.v
Zfs.v
ZfsMock.v
ZfsMockProps.v
ZfsCli.v
ZfsCliProps.v
SandboxTypes.v
SandboxProcess.v
Sandbox.v
SandboxExecute.v
SandboxPaths.v
SandboxProps.v
SandboxDemo.v
SandboxConc.v
GoJson.v
GoJsonText.v
Coerce.v
Validation.v
Options.v
EventStream.v
Providers.v
Embedding.v
GoStruct.v
Monitor.v
Termmux.v
TermServer.v
DriverEvents.v
ToolJson.v
Anthropic.v
AnthropicProps.v
AnthropicStream.v
Rpc.v
Orchestrator.v
OrchestratorProps.v
OrchestratorSteps.v
OrchestratorMain.v
OrchestratorLoop.v
Direct.v
DirectProps.v
DirectWaits.v
DirectSteps.v
DirectDemo.v
AgentCodec.v
AgentCodecProps.v
OpenAI.v
OpenAIStream.v
GoFiles.v
Tools.v
ToolsSearch.v
ToolsExec.v
ToolsEffects.v
ToolsProps.v
ToolsGlob.v
ToolsBackend.v
