(* ===== verification/Prelude.v ===== *)
(** * flex-agent-runtime: a verification library

    The repository is a runtime for language-model agents, in Go.  An _agent_
    runs a _driver_ that alternates calls of a model provider and of tools; a
    _service_ keeps the sessions of a process and streams their events; an
    _orchestrator_ places sessions on sandboxes; a _sandbox host_ keeps the
    storage and the processes of its sessions; a _fleet_ places the sandboxes on
    cloud instances it launches, watches and drains.  This library models these
    parts and proves what each promises to the next.

    ** The program and the files

    - Go itself: [GoStrings], [GoText] and [GoFloat] are what the code uses of
      strings, strconv, regexp and float64; [GoJson],
      [GoJsonText] and [GoStruct] encoding/json (reading, writing, struct types);
      [GoPath] path/filepath; [GoFiles] a file system with
      symbolic links, the calls of package os on it and where paths lead.
    - internal/ai: [AiTypes] is the conversation data (types.go, models.go);
      [Transform] transform.go, which prepares a conversation for another model;
      [Sse] sse/sse.go, the scanner of the providers' event streams;
      [EventStream] events.go and event_stream.go; [Coerce] and [Validation]
      coerce.go and validation.go; [Options] options.go and errors.go;
      [Providers] the registries of models and providers; [Embedding] the
      embedding models and batches; [ToolJson] arguments.go and the parsers of
      partial arguments.
    - internal/ai/provider: [Anthropic] (theorems in [AnthropicProps],
      [AnthropicStream]) and [OpenAI] (in [OpenAIStream]) are the
      two clients, from the request to the delivered stream.
    - internal/agent: [AgentTypes] (types.go, errors.go, service_errors.go),
      [EventBus], [ControlQueue], [Agent] (agent.go), [NativeDriver] (loop.go),
      [DriverRegistry] (driver.go), [AgentService] (service.go,
      api/agent_types.go), [AgentCodec] (api/codec.go).  [AgentProps],
      [NativeDriverProps], [AgentServiceProps] and [AgentCodecProps] hold their
      theorems, and [AgentConc] the agent under all interleavings.
    - internal/tools: [Tools] (path.go, read.go, write.go, edit.go),
      [ToolsSearch] (glob.go, grep.go), [ToolsExec] (bash.go, git.go, factory.go,
      local_backend.go).  [ToolsEffects] has what the calls do to the tree;
      [ToolsProps], [ToolsGlob] and [ToolsBackend] hold the theorems.
    - internal/sandbox: [Zfs] is the storage interface, its validation and its
      contract (zfs.go, errors.go, validate.go), [ZfsMock] and [ZfsCli] its two
      implementations (mock.go; cli.go, dataset.go, snapshot.go, pool.go,
      transfer.go); [SandboxTypes], [SandboxProcess] (process.go), [Sandbox]
      (service.go, snapshot.go) and [SandboxExecute] (execute.go) are the host
      service over that interface.  [ZfsMockProps], [ZfsCliProps],
      [SandboxPaths], [SandboxProps], [SandboxConc] and [SandboxDemo] hold the
      theorems.
    - internal/sandbox/control: [FleetTypes], [FleetInstance], [FleetRouter] and
      [Fleet] are the fleet (control.go, instance/, fleet/), with [FleetSteps],
      [FleetProps], [FleetScaling] and [FleetDemo]; [Direct] is direct/, sandboxes
      that are cloud instances, with [DirectProps], [DirectWaits], [DirectSteps]
      and [DirectDemo].
    - internal/termmux, the terminals of external agents: [Monitor] is monitor/
      (the state machine, the event loop with its idle timer, the subscribers);
      [Termmux] terminal_subscription.go, client.go and session.go; [TermServer]
      session_manager.go and the stream pumps of rpc/server/terminal_server.go;
      [DriverEvents] the event handlers under driver/, the tailer of session
      logs and internal/agent/driver_termmux.go, the adapter to the agent's
      driver interface.
    - internal/rpc: [Rpc] has the errors, retries and versions of the wire.
    - internal/orchestrator: [Orchestrator], with [OrchestratorProps],
      [OrchestratorSteps], [OrchestratorMain] and [OrchestratorLoop].
    - This file is the shared ground: results and panics, the state monad with its
      frames and weakest preconditions, lists and counters.

    ** How the parts interact

    The service creates agents and hands them drivers; the native driver calls a
    provider through an [EventStream] and tools through the table of
    [ToolsExec]; the clients fill an [EventStream] from bytes that [Sse] cuts into
    events; [AgentCodec] is the record decoder of the service's resume.  The
    sandbox host is written against the type class [ZFSManager] of [Zfs], whose
    laws [ZfsMockProps] proves of the in-memory manager.  The orchestrator takes
    backends as functions; [OrchestratorLoop] gives it the modelled service.  The
    fleet is written against [FleetEnv], its cloud, nodes and clock.  A terminal
    session of [Termmux] has the monitor of [Monitor]; the handlers of
    [DriverEvents] make the monitor's events of what external agents log.

    ** How the code is modelled

    A Go function that returns (value, error) returns a [res]; one that may panic
    returns an [outcome]; a panic that nothing recovers ends the method where it
    is.  Code that changes state is a computation of the monad
    [M]; each stretch of code under a mutex is a definition of its own, and a
    method is the sequence of its stretches and of the calls between them, as in
    the source.  A Go string is its bytes.  An [int] is a [Z]; where the code can
    overflow the sum is wrapped ([wrap64], [u64]); float64 is the Standard
    Library's [spec_float] at 53 bits.  Objects that are shared by pointer
    (sessions, streams, turns, instances) live in stores under identities, values
    that are cloned on every hand-over are values.  Go visits maps in an
    unspecified order: it is an argument of the definitions, an arbitrary function
    or permutation.  Time is nanoseconds, 0 for the zero time; the agent's time
    stamps, which nothing reads, are left out.

    What is not in the repository or belongs to a part that is not modelled is a
    parameter: the servers behind the clients (functions of the request to a
    reply that may break off), random numbers and clocks, the lexer of partial
    JSON, the JSON Schema validator, external drivers, the cloud and the node
    clients, container runs, the runner of shell commands, the compiler of regular
    expressions.  Calls of the file system and of commands can fail by themselves
    at any point.  Other goroutines appear in three ways.  [AgentConc],
    [ControlQueue], [EventStream], [SandboxConc], [FleetSteps], [DirectSteps],
    [OrchestratorSteps], [Monitor] and [Termmux] have step relations over the
    critical sections.  The
    driver loop takes what other goroutines do between its steps as an argument of
    its environment.  The fleet's calls run on the whole state: [FleetLaw]
    restricts the environment to the steps of the other goroutines, [QuietEnv] to
    none.

    Loops that need not end take fuel.  [run] has one bound for the turns and one
    for the provider calls of a turn, and [run_returns] shows which bounds are
    enough once the provider stops asking for tools; the polling loops of [Direct]
    take a number of rounds, and [operations_return] shows that 151 are enough for
    the default timeouts.  Fuel that measures an input is enough by construction:
    [stripAll], [readLineLoop], [nextLoop] have the length of their text
    ([stripAll_done], [readLineLoop_cutLine], [nextLoop_spec]), [ancestorLoop] the
    length of the path ([ancestorLoop_lands]), [WalkDir] the size of the tree
    ([walk_files]), [splitSub] the length of the text ([splitSub_parts]),
    [matchLoop] that of the pattern; the readers of JSON have the nesting depth at
    which encoding/json gives up.  Symbolic links are followed 40 times by a
    system call and 255 times by filepath.EvalSymlinks, as in Linux and Go.

    ** What the theorems show

    - Conversation: [TransformMessages_noOrphans] (a transformed conversation
      answers every tool call); [record_roundtrip] and [saved_log_resumes] (what
      is persisted is what is resumed); [CoerceTypes_types], [validation_cached].
    - Providers: [stream_roundtrip] and [completion_roundtrip] (however a server
      cuts a reply into pieces, the message is delivered whole and in order, from
      the bytes on), [call_ends] and [completion_ends] (every call ends, with one
      result), [scanner_equivalence] (against a line-by-line reading of the format),
      [drain_faithful], [BatchEmbed_spec].
    - Queue: [enqueue_close_race] is the one way the queue of commands panics.
    - Agent: [session_record_faithful], [turn_exclusion], [exited_absorbing] for
      every interleaving; [Transition_spec], [Start_spec], [Stop_spec] on every
      branch; [prompt_lost_update] and [stop_start_race] are the interleavings
      that break what the agent means to keep.
    - Driver loop: [run_conversation] (the shape of the conversation a run leaves,
      for any provider, tools and interference), [run_ends_at_rest],
      [run_returns].
    - Service: [service_invariant] over all sequences of requests,
      [turn_stream_scoped], [CreateSession_spec], [DestroySession_spec].
    - Tools: [local_backend_contained], [read_file_blind] (nothing outside the root
      is changed or told, whatever links lead there and whatever fails),
      [write_file_contained], [edit_file_contained] (a file is replaced as a whole
      or not at all), [editContent_spec], [glob_complete].  The first four are
      about roots given by an absolute path; [relative_root_escapes] is a run
      with one that is not.
    - Storage and sandbox host: [MockManager_law], [cli_issues_requests],
      [snapshots_mirror], [rollback_exclusion], [executeTier1_contained].
    - Fleet: [fleet_lifecycle] for every interleaving; [SelectInstance_spread],
      [CreateSandbox_spec], [phaseScaleDown_spec], [phaseDrainCompletion_spec] for
      the operations; [max_instances_race], [scale_down_below_min] and
      [failed_destroy_kills_host] are runs that break the fleet's limits.
      [SelectInstance_spread] covers session limits up to 64, for which the float
      scores are computed.
    - Sandboxes on instances: [no_instance_lost], [kill_verified],
      [commands_keep_words], [operations_return].
    - Orchestrator: [sandboxes_accounted], [CreateSession_atomic],
      [entry_lifecycle], [forwarding]; [destroy_closes_shared_service] shows that
      with the in-process service one session's end closes all.
    - Terminals: [monitor_faithful] (the states follow the plan's diagram, each by
      its cause, and every event is counted), [subscriber_stream] (what a
      subscriber gets of the output), [tail_complete] (the lines of a session
      log), [stream_limits], [codex_totals].
    - RPC: [hops_code].

    ** What is not modelled

    Metrics, logs and time stamps of the agent; functional options; interleavings
    of two handlers of the agent service (its handlers run one after the other,
    drivers act in between).  The wire formats of Google and Cohere: two providers
    show the pattern.  The script tool embeds a Starlark interpreter.  The
    pseudo-terminals, gvisor, the hosted environments and the EC2 provisioner
    are drivers of external programs and services whose behaviour is not in the
    repository; the RPC handlers, clients and the programs under cmd convert
    fields and wire the modelled parts together. *)

From stdpp Require Export base tactics numbers list gmap sets strings pretty relations sorting.

(** ** Notation scope of the development *)

Declare Scope go_scope.
Delimit Scope go_scope with go.

(** ** Results: the pair (value, error) a Go function returns

    [Ok v] is the return of a nil error, [Err e] the return of a non-nil one. *)

Inductive res (E A : Type) : Type :=
  | Ok (v : A)
  | Err (e : E).
Arguments Ok {E A} v.
Arguments Err {E A} e.

#[export] Instance res_eq_dec `{EqDecision E, EqDecision A} : EqDecision (res E A).
Proof. solve_decision. Defined.

Definition is_Ok {E A} (r : res E A) : bool :=
  match r with Ok _ => true | Err _ => false end.

(** [x <-? r ; k] is [x, err := r; if err != nil { return err }; k]. *)
Notation "x <-? r ; k" :=
  (match r with Ok x => k | Err e => Err e end)
  (at level 100, r at next level, right associativity) : go_scope.

Lemma is_Ok_true {E A} (r : res E A) : is_Ok r = true <-> exists v, r = Ok v.
Proof. destruct r; simpl; naive_solver. Qed.

(** The end of a call that may also panic. *)
Inductive outcome (E A : Type) : Type :=
  | Return (r : res E A)
  | Panic (value : string).
Arguments Return {E A} r.
Arguments Panic {E A} value.

(** ** Stateful code

    [M S A] is code that reads and writes a state [S] and returns an [A].  The
    instances give it stdpp's notation [x ← m; k]. *)

Definition M (S A : Type) : Type := S -> A * S.

#[export] Instance M_ret S : MRet (M S) := fun A a s => (a, s).
#[export] Instance M_bind S : MBind (M S) := fun A B k m s => let '(a, s') := m s in k a s'.
#[export] Instance M_fmap S : FMap (M S) := fun A B f m s => let '(a, s') := m s in (f a, s').

Definition get {S} : M S S := fun s => (s, s).
Definition gets {S A} (f : S -> A) : M S A := fun s => (f s, s).
Definition modify {S} (f : S -> S) : M S () := fun s => ((), f s).

(** Go's early return: go on with the value, or return the error (or keep
    panicking) at once. *)
Definition obind {S E A B} (m : M S (outcome E A)) (k : A -> M S (outcome E B)) : M S (outcome E B) :=
  r ← m;
  match r with
  | Return (Ok v) => k v
  | Return (Err e) => mret (Return (Err e))
  | Panic v => mret (Panic v)
  end.
Notation "x ←! m ; k" := (obind m (fun x => k))
  (at level 20, m at level 100, k at level 200, only parsing) : stdpp_scope.
Notation "m ;;! k" := (obind m (fun _ => k))
  (at level 100, k at level 200, right associativity, only parsing) : stdpp_scope.

(** A [for range] loop whose body may return early. *)
Fixpoint for_range_try {S E A} (l : list A) (body : A -> M S (outcome E ())) : M S (outcome E ()) :=
  match l with
  | [] => mret (Return (Ok ()))
  | x :: l' => obind (body x) (fun _ => for_range_try l' body)
  end.

(** A [for range] loop whose body only has effects. *)
Fixpoint for_range {S A} (l : list A) (body : A -> M S ()) : M S () :=
  match l with
  | [] => mret ()
  | x :: l' => body x;; for_range l' body
  end.

Lemma M_bind_eq {S A B} (m : M S A) (k : A -> M S B) s :
  (x ← m; k x) s = k (m s).1 (m s).2.
Proof. unfold mbind, M_bind. by destruct (m s). Qed.

Lemma for_range_app {S A} (l1 l2 : list A) (body : A -> M S ()) s :
  for_range (l1 ++ l2) body s = for_range l2 body (for_range l1 body s).2.
Proof.
  revert s. induction l1 as [|x l1 IH]; intros s; [done|].
  simpl. rewrite !M_bind_eq. apply IH.
Qed.

(** A property of the state that every iteration keeps holds after the loop. *)
Lemma for_range_inv {S A} (P : S -> Prop) (l : list A) (body : A -> M S ()) s :
  (forall x s, x ∈ l -> P s -> P (body x s).2) -> P s -> P (for_range l body s).2.
Proof.
  revert s. induction l as [|x l IH]; intros s Hb Hs; [done|].
  simpl. rewrite M_bind_eq. apply IH; [set_solver|]. apply Hb; [set_solver|done].
Qed.

(** A reading of the state that no iteration changes is the same after it. *)
Lemma for_range_frame {S A B} (f : S -> B) (l : list A) (body : A -> M S ()) s :
  (forall x s, f (body x s).2 = f s) -> f (for_range l body s).2 = f s.
Proof. intros Hb. apply (for_range_inv (fun s' => f s' = f s)); [|done]. intros x s' _ <-. apply Hb. Qed.

(** ** Frames

    [keeps f m]: running [m] does not change what [f] reads of the state.  The
    database [keeps] has the frames of the monad's combinators and of the
    components' own operations; [keeps_tac] takes a program apart with it. *)

Definition keeps {S A B} (f : S -> B) (m : M S A) : Prop := forall s, f (m s).2 = f s.

Section Keeps.
Context {S B : Type} (f : S -> B).

Lemma keeps_ret {A} (a : A) : keeps f (mret a).
Proof. by intros s. Qed.

Lemma keeps_gets {A} (g : S -> A) : keeps f (gets g).
Proof. by intros s. Qed.

Lemma keeps_bind {A C} (m : M S A) (k : A -> M S C) :
  keeps f m -> (forall a, keeps f (k a)) -> keeps f (m ≫= k).
Proof. intros Hm Hk s. rewrite M_bind_eq. by rewrite Hk, Hm. Qed.

Lemma keeps_fmap {A C} (g : A -> C) (m : M S A) : keeps f m -> keeps f (g <$> m).
Proof. intros Hm s. rewrite <- (Hm s). unfold fmap, M_fmap. by destruct (m s). Qed.

Lemma keeps_obind {E A C} (m : M S (outcome E A)) (k : A -> M S (outcome E C)) :
  keeps f m -> (forall a, keeps f (k a)) -> keeps f (obind m k).
Proof.
  intros Hm Hk. apply keeps_bind; [done|].
  intros [[]|]; [apply Hk|apply keeps_ret..].
Qed.

Lemma keeps_for_range {A} (l : list A) (body : A -> M S ()) :
  (forall x, x ∈ l -> keeps f (body x)) -> keeps f (for_range l body).
Proof.
  induction l as [|x l IH]; intros Hb; simpl; [apply keeps_ret|].
  apply keeps_bind; [apply Hb; set_solver|]. intros _. apply IH. set_solver.
Qed.

Lemma keeps_modify (g : S -> S) : (forall s, f (g s) = f s) -> keeps f (modify g).
Proof. intros Hg s. apply Hg. Qed.
End Keeps.

(** [maintains P m]: [m] takes a state with [P] to a state with [P]. *)
Definition maintains {S A} (P : S -> Prop) (m : M S A) : Prop := forall s, P s -> P (m s).2.

Lemma keeps_maintains {S A B} (f : S -> B) (m : M S A) :
  (forall v, maintains (fun s => f s = v) m) -> keeps f m.
Proof. intros Hm s. by apply (Hm (f s)). Qed.

Section Maintains.
Context {S : Type} (P : S -> Prop).

Lemma maintains_ret {A} (a : A) : maintains P (mret a).
Proof. by intros s. Qed.

Lemma maintains_gets {A} (g : S -> A) : maintains P (gets g).
Proof. by intros s. Qed.

Lemma maintains_bind {A C} (m : M S A) (k : A -> M S C) :
  maintains P m -> (forall a, maintains P (k a)) -> maintains P (m ≫= k).
Proof. intros Hm Hk s Hs. rewrite M_bind_eq. by apply Hk, Hm. Qed.

Lemma maintains_fmap {A C} (g : A -> C) (m : M S A) : maintains P m -> maintains P (g <$> m).
Proof. intros Hm s Hs. specialize (Hm s Hs). unfold fmap, M_fmap. by destruct (m s). Qed.

Lemma maintains_obind {E A C} (m : M S (outcome E A)) (k : A -> M S (outcome E C)) :
  maintains P m -> (forall a, maintains P (k a)) -> maintains P (obind m k).
Proof.
  intros Hm Hk. apply maintains_bind; [done|].
  intros [[]|]; [apply Hk|apply maintains_ret..].
Qed.

Lemma maintains_for_range_try {E A} (l : list A) (body : A -> M S (outcome E ())) :
  (forall x, x ∈ l -> maintains P (body x)) -> maintains P (for_range_try l body).
Proof.
  induction l as [|x l IH]; intros Hb; [apply maintains_ret|].
  apply maintains_obind; [apply Hb; set_solver|]. intros _. apply IH. set_solver.
Qed.

Lemma maintains_for_range {A} (l : list A) (body : A -> M S ()) :
  (forall x, x ∈ l -> maintains P (body x)) -> maintains P (for_range l body).
Proof.
  induction l as [|x l IH]; intros Hb; simpl; [apply maintains_ret|].
  apply maintains_bind; [apply Hb; set_solver|]. intros _. apply IH. set_solver.
Qed.
End Maintains.

(** ** Weakest preconditions

    [wp m Q s]: run from [s], [m] ends with a result and a state in [Q].  [wp]
    takes a program apart from its first statement on. *)

Definition wp {S A} (m : M S A) (Q : A -> S -> Prop) (s : S) : Prop := Q (m s).1 (m s).2.

Section Wp.
Context {S : Type}.

Lemma wp_mono {A} (m : M S A) (Q Q' : A -> S -> Prop) s : wp m Q s -> (forall a s', Q a s' -> Q' a s') -> wp m Q' s.
Proof. intros H HQ. by apply HQ. Qed.

Lemma wp_bind {A B} (m : M S A) (k : A -> M S B) Q s : wp m (fun a s' => wp (k a) Q s') s -> wp (m ≫= k) Q s.
Proof. unfold wp. by rewrite M_bind_eq. Qed.

Lemma wp_ret {A} (a : A) (Q : A -> S -> Prop) s : Q a s -> wp (mret a) Q s.
Proof. done. Qed.

Lemma wp_maintains {A} (P : S -> Prop) (m : M S A) s : maintains P m -> P s -> wp m (fun _ s' => P s') s.
Proof. intros Hm Hs. by apply Hm. Qed.
End Wp.

Create HintDb keeps discriminated.
#[export] Hint Resolve keeps_ret keeps_gets : keeps.

Ltac keeps_step :=
  match goal with
  | |- keeps _ (mret _) => apply keeps_ret
  | |- keeps _ (gets _) => apply keeps_gets
  | |- keeps _ (obind _ _) => apply keeps_obind; [|intros ?]
  | |- keeps _ (_ ≫= _) => apply keeps_bind; [|intros ?]
  | |- keeps _ (_ <$> _) => apply keeps_fmap
  | |- keeps _ (for_range _ _) => apply keeps_for_range; intros ? ?
  | |- keeps _ (match ?x with _ => _ end) => destruct x eqn:?
  | |- keeps _ _ => solve [eauto 2 with keeps]
  end.
Ltac keeps_tac := repeat keeps_step.

Create HintDb maintains discriminated.
#[export] Hint Resolve maintains_ret maintains_gets : maintains.

Ltac maintains_step :=
  match goal with
  | |- maintains _ (mret _) => apply maintains_ret
  | |- maintains _ (gets _) => apply maintains_gets
  | |- maintains _ (_ ≫= _) => apply maintains_bind; [|intros ?]
  | |- maintains _ (_ <$> _) => apply maintains_fmap
  | |- maintains _ (for_range _ _) => apply maintains_for_range; intros ? ?
  | |- maintains _ (match ?x with _ => _ end) => destruct x eqn:?
  | |- maintains _ _ => solve [eauto 2 with maintains]
  end.
Ltac maintains_tac := repeat maintains_step.

(** ** Reachability

    Rule induction in the form the step relations use it: a property of the
    start that every step keeps holds in every reachable state. *)
Lemma rtc_invariant {A} (R : relation A) (P : A -> Prop) x y :
  P x -> (forall a b, P a -> R a b -> P b) -> rtc R x y -> P y.
Proof. intros Hx Hstep Hr. revert Hx. induction Hr; eauto. Qed.

(** ** Lists *)

Lemma last_cons_default {A} (x : A) xs d : List.last (x :: xs) d = List.last xs x.
Proof.
  revert x d. induction xs as [|y xs IH]; intros x d; [done|].
  change (List.last (y :: xs) d = List.last (y :: xs) x). by rewrite !IH.
Qed.

Lemma StronglySorted_sublist {A} (R : relation A) (l l' : list A) :
  sublist l l' -> StronglySorted R l' -> StronglySorted R l.
Proof.
  induction 1 as [|x l1 l2 Hsub IH|x l1 l2 Hsub IH]; intros Hs; [constructor| |].
  - apply StronglySorted_inv in Hs as [Hs Hx]. constructor; [by apply IH|].
    eapply Forall_forall. intros y Hy. rewrite Forall_forall in Hx. apply Hx. by eapply elem_of_sublist.
  - apply StronglySorted_inv in Hs as [Hs _]. by apply IH.
Qed.

Lemma StronglySorted_NoDup {A} (R : relation A) (l : list A) :
  (forall x, ~ R x x) -> StronglySorted R l -> NoDup l.
Proof.
  intros HR. induction 1 as [|x l Hl IH Hx]; constructor; [|done].
  intros Hin. rewrite Forall_forall in Hx. by apply (HR x), Hx.
Qed.

(** ** Machine integers *)

(** Go's [uint64] increment. *)
Definition u64 (n : Z) : Z := n mod 2 ^ 64.

Lemma u64_range n : (0 <= u64 n < 2 ^ 64)%Z.
Proof. unfold u64. apply Z.mod_pos_bound. lia. Qed.

Lemma u64_succ n : u64 (u64 n + 1) = u64 (n + 1).
Proof. unfold u64. by rewrite Zplus_mod_idemp_l. Qed.

(** ** Strings

    A Go string is its bytes; [String.le] is the bytewise order of [<=]. *)

(** sort.Strings.  The order is antisymmetric, so the sorted permutation is
    unique and the algorithm does not matter. *)
Definition sort_Strings (l : list string) : list string := merge_sort String.le l.

Lemma elem_of_sort_Strings x l : x ∈ sort_Strings l <-> x ∈ l.
Proof. unfold sort_Strings. by rewrite merge_sort_Permutation. Qed.

Lemma sort_Strings_NoDup l : NoDup l -> NoDup (sort_Strings l).
Proof. unfold sort_Strings. by rewrite merge_sort_Permutation. Qed.

Lemma sort_Strings_Sorted l : Sorted String.le (sort_Strings l).
Proof. apply (Sorted_merge_sort String.le). Qed.

Lemma sort_Strings_nil l : sort_Strings l = [] <-> l = [].
Proof.
  unfold sort_Strings. split; [|by intros ->].
  intros H. apply Permutation_nil_r. by rewrite <- (merge_sort_Permutation String.le l), H.
Qed.
