(* ===== verification/AiTypes.v ===== *)
(** * AiTypes: the message data of internal/ai/types.go

    Messages, content blocks and usage as the conversation log, the stream
    events and the message transformation use them.  A Go pointer to one of
    these values is the value itself: no code of the modelled files writes
    through such a pointer after the value is built.  A [map[string]any] is a
    [gmap]; the nil map and the empty map are the same ([len] is 0 for both
    and both read as empty). *)

From Stdlib Require Import Floats.SpecFloat.
From S2P Require Import Prelude.

Local Set Warnings "-register-all".
Local Open Scope string_scope.
Local Open Scope list_scope.

(** A JSON value as encoding/json builds it for the type [any]. *)
Inductive any : Type :=
  | ANil
  | ABool (b : bool)
  | AFloat (f : spec_float)
  | AInt (i : Z)
  | AString (s : string)
  | AArray (l : list any)
  | AMap (m : gmap string any).

(** types.go: [Role]. *)
Inductive Role : Type := RoleUser | RoleAssistant | RoleToolResult.

(** types.go: [ToolCall]. *)
Record ToolCall : Type := mkToolCall {
  tc_ID : string;
  tc_Name : string;
  tc_Arguments : gmap string any;
  tc_ThoughtSignature : string;
}.

(** types.go: the sealed interface [ContentBlock] and its four implementations. *)
Inductive ContentBlock : Type :=
  | TextContent (Text TextSignature : string)
  | ThinkingContent (Thinking ThinkingSignature : string) (Redacted : bool)
  | ImageContent (Data MimeType : string)
  | ToolCallBlock (tc : ToolCall).

(** types.go: [UsageCost], [Usage]. *)
Record UsageCost : Type := mkUsageCost {
  cost_Input : spec_float;
  cost_Output : spec_float;
  cost_CacheRead : spec_float;
  cost_CacheWrite : spec_float;
  cost_Total : spec_float;
}.

Record Usage : Type := mkUsage {
  us_Input : Z;
  us_Output : Z;
  us_CacheRead : Z;
  us_CacheWrite : Z;
  us_TotalTokens : Z;
  us_Cost : UsageCost;
}.

(** types.go: [StopReason] and its constants; the Go type is a string. *)
Definition StopReason : Type := string.
Definition StopReasonStop : StopReason := "stop".
Definition StopReasonLength : StopReason := "length".
Definition StopReasonToolUse : StopReason := "toolUse".
Definition StopReasonError : StopReason := "error".
Definition StopReasonAborted : StopReason := "aborted".

(** types.go: [UserMessage], [AssistantMessage], [ToolResultMessage]. *)
Record UserMessage : Type := mkUserMessage {
  um_Content : list ContentBlock;
  um_Timestamp : Z;
}.

Record AssistantMessage : Type := mkAssistantMessage {
  am_Content : list ContentBlock;
  am_API : string;
  am_Provider : string;
  am_Model : string;
  am_Usage : Usage;
  am_StopReason : StopReason;
  am_ErrorMessage : string;
  am_Timestamp : Z;
}.

Record ToolResultMessage : Type := mkToolResultMessage {
  tr_ToolCallID : string;
  tr_ToolName : string;
  tr_Content : list ContentBlock;
  tr_IsError : bool;
  tr_Timestamp : Z;
}.

(** types.go: the sealed interface [Message]. *)
Inductive Message : Type :=
  | MUser (m : UserMessage)
  | MAssistant (m : AssistantMessage)
  | MToolResult (m : ToolResultMessage).

Definition messageRole (m : Message) : Role :=
  match m with
  | MUser _ => RoleUser
  | MAssistant _ => RoleAssistant
  | MToolResult _ => RoleToolResult
  end.

Definition GetTimestamp (m : Message) : Z :=
  match m with
  | MUser u => um_Timestamp u
  | MAssistant a => am_Timestamp a
  | MToolResult r => tr_Timestamp r
  end.

(** models.go: [ModelCost], [ModelCompat], [Model].  A [*bool] is an option. *)
Record ModelCost : Type := mkModelCost {
  mc_Input : spec_float;
  mc_Output : spec_float;
  mc_CacheRead : spec_float;
  mc_CacheWrite : spec_float;
}.

Record ModelCompat : Type := mkModelCompat {
  SupportsStore : option bool;
  SupportsDeveloperRole : option bool;
  SupportsReasoningEffort : option bool;
  ReasoningEffortMap : gmap string string;
  SupportsUsageInStreaming : option bool;
  MaxTokensField : string;
  RequiresToolResultName : option bool;
  RequiresAssistantAfterToolResult : option bool;
  RequiresThinkingAsText : option bool;
  RequiresMistralToolIDs : option bool;
  ThinkingFormat : string;
  SupportsStrictMode : option bool;
}.

Record Model : Type := mkModel {
  mo_ID : string;
  mo_Name : string;
  mo_API : string;
  mo_Provider : string;
  mo_Reasoning : bool;
  mo_Input : list string;
  mo_Cost : ModelCost;
  mo_PricingKnown : bool;
  mo_ContextWindow : Z;
  mo_MaxTokens : Z;
  mo_Headers : gmap string (list string);
  mo_Compat : option ModelCompat;
}.

(** types.go: [Tool]; [tl_Parameters] is the text of a JSON Schema. *)
Record Tool : Type := mkTool {
  tl_Name : string;
  tl_Description : string;
  tl_Parameters : string;
}.

(** The zero values Go gives to a declared but unset variable. *)
Definition zeroCost : UsageCost :=
  mkUsageCost (S754_zero false) (S754_zero false) (S754_zero false) (S754_zero false) (S754_zero false).
Definition zeroUsage : Usage := mkUsage 0 0 0 0 0 zeroCost.

(** loop.go [extractToolCalls] and transform.go both select the tool calls of
    a content list, in order. *)
Fixpoint toolCalls (bs : list ContentBlock) : list ToolCall :=
  match bs with
  | [] => []
  | ToolCallBlock tc :: bs' => tc :: toolCalls bs'
  | _ :: bs' => toolCalls bs'
  end.

Lemma toolCalls_app bs1 bs2 : toolCalls (bs1 ++ bs2) = toolCalls bs1 ++ toolCalls bs2.
Proof. induction bs1 as [|[] bs1 IH]; simpl; by rewrite ?IH. Qed.
