(* ===== verification/Transform.v ===== *)
(** * Transform: replaying a conversation on a model (internal/ai/transform.go)

    [TransformMessages] copies a conversation for a provider call: it drops
    failed assistant messages, rewrites tool-call ids at a model boundary, and
    gives every tool call that was never answered a synthetic error result, so
    that the provider never sees a dangling call.  [time.Now()] of the flush at
    the end of an untimed conversation is the variable [now]. *)

From Stdlib Require Import Floats.SpecFloat.
From S2P Require Import Prelude AiTypes.

Local Open Scope stdpp_scope.

(** transform.go: [ToolCallIDNormalizer]; the nil function is [None]. *)
Definition ToolCallIDNormalizer : Type := string -> Model -> AssistantMessage -> string.

(** ** transformAssistantMessage *)

Section Transform.
Context (targetModel : Model) (normalizeID : option ToolCallIDNormalizer).

Definition sameModel (msg : AssistantMessage) : bool :=
  bool_decide (am_Provider msg = mo_Provider targetModel) &&
  bool_decide (am_API msg = mo_API targetModel) &&
  bool_decide (am_Model msg = mo_ID targetModel).

(** The [*ToolCall] arm of the block switch: the copied call and the id map
    with the entry the arm may add. *)
Definition transformToolCall (msg : AssistantMessage) (b : ToolCall) (idMap : gmap string string)
  : ToolCall * gmap string string :=
  let sig := if sameModel msg then tc_ThoughtSignature b else "" in
  let tc := mkToolCall (tc_ID b) (tc_Name b) (tc_Arguments b) sig in
  match normalizeID with
  | Some normalize =>
      if sameModel msg then (tc, idMap)
      else
        let newID := normalize (tc_ID b) targetModel msg in
        if bool_decide (newID = tc_ID b) then (tc, idMap)
        else (mkToolCall newID (tc_Name b) (tc_Arguments b) sig, <[tc_ID b := newID]> idMap)
  | None => (tc, idMap)
  end.

(** One iteration of the loop over [msg.Content]: the blocks appended to
    [newContent] (none or one) and the id map. *)
Definition transformBlock (msg : AssistantMessage) (b : ContentBlock) (idMap : gmap string string)
  : list ContentBlock * gmap string string :=
  match b with
  | TextContent text _ => ([if sameModel msg then b else TextContent text ""], idMap)
  | ThinkingContent thinking _ redacted =>
      if sameModel msg then ([b], idMap)
      else if redacted then ([], idMap)
      else if bool_decide (thinking = "") then ([], idMap)
      else ([TextContent thinking ""], idMap)
  | ToolCallBlock tc =>
      let '(tc', idMap') := transformToolCall msg tc idMap in ([ToolCallBlock tc'], idMap')
  | ImageContent _ _ => ([], idMap)
  end.

Fixpoint transformBlocks (msg : AssistantMessage) (bs : list ContentBlock) (idMap : gmap string string)
  : list ContentBlock * gmap string string :=
  match bs with
  | [] => ([], idMap)
  | b :: bs' =>
      let '(out, idMap1) := transformBlock msg b idMap in
      let '(rest, idMap2) := transformBlocks msg bs' idMap1 in
      (out ++ rest, idMap2)
  end.

Definition failed (msg : AssistantMessage) : bool :=
  bool_decide (am_StopReason msg = StopReasonError) || bool_decide (am_StopReason msg = StopReasonAborted).

Definition transformAssistantMessage (msg : AssistantMessage) (idMap : gmap string string)
  : option AssistantMessage * gmap string string :=
  if failed msg then (None, idMap)
  else
    let '(newContent, idMap') := transformBlocks msg (am_Content msg) idMap in
    (Some (mkAssistantMessage newContent (am_API msg) (am_Provider msg) (am_Model msg)
             (am_Usage msg) (am_StopReason msg) "" (am_Timestamp msg)), idMap').

(** ** transformToolResult *)

Definition transformToolResult (msg : ToolResultMessage) (idMap : gmap string string) : ToolResultMessage :=
  let newID := default (tr_ToolCallID msg) (idMap !! tr_ToolCallID msg) in
  if bool_decide (newID = tr_ToolCallID msg) then msg
  else mkToolResultMessage newID (tr_ToolName msg) (tr_Content msg) (tr_IsError msg) (tr_Timestamp msg).

(** The loop of [TransformMessages] over the input messages. *)
Fixpoint transformLoop (messages : list Message) (idMap : gmap string string) : list Message :=
  match messages with
  | [] => []
  | MUser m :: rest => MUser m :: transformLoop rest idMap
  | MAssistant m :: rest =>
      match transformAssistantMessage m idMap with
      | (Some t, idMap') => MAssistant t :: transformLoop rest idMap'
      | (None, idMap') => transformLoop rest idMap'
      end
  | MToolResult m :: rest => MToolResult (transformToolResult m idMap) :: transformLoop rest idMap
  end.
End Transform.

(** ** insertSyntheticToolResults *)

Definition syntheticResult (ts : Z) (id : string) (tc : ToolCall) : Message :=
  MToolResult (mkToolResultMessage id (tc_Name tc) [TextContent "No result provided" ""] true ts).

(** The closure [flush]: the messages it appends.  It leaves the pending map
    empty. *)
Definition flush (pending : gmap string ToolCall) (ts : Z) : list Message :=
  omap (fun id => syntheticResult ts id <$> pending !! id)
       (sort_Strings (map_to_list pending).*1).

(** The loop over an assistant message's blocks that records its calls. *)
Definition addPending (bs : list ContentBlock) (pending : gmap string ToolCall) : gmap string ToolCall :=
  foldl (fun p tc => <[tc_ID tc := tc]> p) pending (toolCalls bs).

Section Insert.
Context (now : Z).

(** The messages appended to [result] from the loop's state
    ([pendingToolCalls], [lastTimestamp]) on. *)
Fixpoint insertLoop (messages : list Message) (pending : gmap string ToolCall) (lastTimestamp : Z)
  : list Message :=
  match messages with
  | [] => flush pending (if bool_decide (lastTimestamp = 0%Z) then now else lastTimestamp)
  | MAssistant m :: rest =>
      flush pending (am_Timestamp m) ++
      MAssistant m :: insertLoop rest (addPending (am_Content m) ∅) (am_Timestamp m)
  | MToolResult m :: rest =>
      MToolResult m :: insertLoop rest (delete (tr_ToolCallID m) pending) (tr_Timestamp m)
  | MUser m :: rest => MUser m :: insertLoop rest pending (um_Timestamp m)
  end.

Definition insertSyntheticToolResults (messages : list Message) : list Message :=
  insertLoop messages ∅ 0.

Definition TransformMessages (messages : list Message) (targetModel : Model)
    (normalizeToolCallID : option ToolCallIDNormalizer) : list Message :=
  insertSyntheticToolResults (transformLoop targetModel normalizeToolCallID messages ∅).
End Insert.

(** ** What a provider requires: every call answered before the next turn *)

(** The messages up to the next assistant message. *)
Fixpoint segment (ms : list Message) : list Message :=
  match ms with
  | [] => []
  | MAssistant _ :: _ => []
  | m :: rest => m :: segment rest
  end.

Definition resultFor (id : string) (m : Message) : Prop :=
  match m with MToolResult r => tr_ToolCallID r = id | _ => False end.

(** The segment holds a result for [id]. *)
Definition answeredIn (id : string) (ms : list Message) : Prop := Exists (resultFor id) (segment ms).

Fixpoint noOrphans (ms : list Message) : Prop :=
  match ms with
  | [] => True
  | MAssistant m :: rest =>
      (forall tc, tc ∈ toolCalls (am_Content m) -> answeredIn (tc_ID tc) rest) /\ noOrphans rest
  | _ :: rest => noOrphans rest
  end.

Lemma segment_results_app l ms :
  (forall m, m ∈ l -> exists r, m = MToolResult r) -> segment (l ++ ms) = l ++ segment ms.
Proof.
  induction l as [|m l IH]; intros Hl; [done|].
  destruct (Hl m) as [r ->]; [set_solver|]. simpl. f_equal. apply IH. set_solver.
Qed.

Lemma noOrphans_results_app l ms :
  (forall m, m ∈ l -> exists r, m = MToolResult r) -> noOrphans (l ++ ms) <-> noOrphans ms.
Proof.
  induction l as [|m l IH]; intros Hl; [done|].
  destruct (Hl m) as [r ->]; [set_solver|]. simpl. apply IH. set_solver.
Qed.

Lemma elem_of_flush pending ts m :
  m ∈ flush pending ts <-> exists id tc, pending !! id = Some tc /\ m = syntheticResult ts id tc.
Proof.
  unfold flush. rewrite list_elem_of_omap. setoid_rewrite elem_of_sort_Strings. split.
  - intros (id & _ & (tc & Hp & ->)%fmap_Some). eauto.
  - intros (id & tc & Hp & ->). exists id. rewrite Hp. split; [|done].
    apply list_elem_of_fmap. exists (id, tc). split; [done|]. by apply elem_of_map_to_list.
Qed.

Lemma flush_results pending ts m : m ∈ flush pending ts -> exists r, m = MToolResult r.
Proof. rewrite elem_of_flush. unfold syntheticResult. naive_solver. Qed.

Lemma flush_empty ts : flush ∅ ts = [].
Proof. unfold flush. by rewrite map_to_list_empty. Qed.

(** A flush answers every pending call, whatever follows it. *)
Lemma flush_answers pending ts ms id tc :
  pending !! id = Some tc -> answeredIn id (flush pending ts ++ ms).
Proof.
  intros Hp. unfold answeredIn. rewrite segment_results_app by apply flush_results.
  apply Exists_exists. exists (syntheticResult ts id tc). split; [|done].
  apply elem_of_app. left. apply elem_of_flush. eauto.
Qed.

Lemma addPending_lookup bs pending id :
  (exists tc, tc ∈ toolCalls bs /\ tc_ID tc = id) \/ is_Some (pending !! id) <->
  is_Some (addPending bs pending !! id).
Proof.
  unfold addPending. revert pending.
  induction (toolCalls bs) as [|tc tcs IH]; intros pending; simpl.
  - set_solver.
  - rewrite <- IH, lookup_insert_is_Some.
    destruct (decide (tc_ID tc = id)); set_solver.
Qed.

Lemma insertLoop_noOrphans now ms pending ts :
  (forall id, is_Some (pending !! id) -> answeredIn id (insertLoop now ms pending ts)) /\
  noOrphans (insertLoop now ms pending ts).
Proof.
  revert pending ts. induction ms as [|[u|a|r] ms IH]; intros pending ts; cbn [insertLoop].
  - rewrite <- (app_nil_r (flush _ _)). split.
    + intros id [tc Hp]. by eapply flush_answers.
    + apply noOrphans_results_app; [apply flush_results|done].
  - destruct (IH pending (um_Timestamp u)) as [IH1 IH2]. split; [|done].
    intros id Hp. unfold answeredIn. simpl. apply Exists_cons_tl, IH1, Hp.
  - destruct (IH (addPending (am_Content a) ∅) (am_Timestamp a)) as [IH1 IH2]. split.
    + intros id [tc Hp]. by eapply flush_answers.
    + apply noOrphans_results_app; [apply flush_results|]. simpl. split; [|done].
      intros tc Htc. apply IH1, addPending_lookup. eauto.
  - destruct (IH (delete (tr_ToolCallID r) pending) (tr_Timestamp r)) as [IH1 IH2]. split; [|done].
    intros id Hp. unfold answeredIn. simpl. destruct (decide (tr_ToolCallID r = id)).
    + by apply Exists_cons_hd.
    + apply Exists_cons_tl, IH1. by rewrite lookup_delete_ne.
Qed.

(** C24: the messages handed to a provider never contain a dangling tool call.
    For every conversation, target model and id normalizer, each tool call of
    each assistant message that [TransformMessages] keeps is followed by a tool
    result carrying the call's (rewritten) id before the next assistant
    message. *)
Theorem TransformMessages_noOrphans now messages target normalize :
  noOrphans (TransformMessages now messages target normalize).
Proof. apply insertLoop_noOrphans. Qed.

(** ** Nothing is added to an answered conversation, nothing is lost *)

Lemma delete_keeps_answered (pending : gmap string ToolCall) r ms :
  (forall id, is_Some (pending !! id) -> answeredIn id (MToolResult r :: ms)) ->
  forall id, is_Some (delete (tr_ToolCallID r) pending !! id) -> answeredIn id ms.
Proof.
  intros Hp id [tc [Hne Hid]%lookup_delete_Some].
  by pose proof (Hp id (ex_intro _ _ Hid)) as [?|?]%Exists_cons.
Qed.

Lemma answered_pending_empty (pending : gmap string ToolCall) ms :
  (forall id, is_Some (pending !! id) -> answeredIn id ms) -> segment ms = [] -> pending = ∅.
Proof.
  intros Hp Hs. apply map_empty. intros id. apply eq_None_not_Some. intros Hid.
  specialize (Hp id Hid). unfold answeredIn in Hp. rewrite Hs in Hp. by apply Exists_nil in Hp.
Qed.

Lemma insertLoop_answered now ms pending ts :
  noOrphans ms -> (forall id, is_Some (pending !! id) -> answeredIn id ms) ->
  insertLoop now ms pending ts = ms.
Proof.
  revert pending ts. induction ms as [|[u|a|r] ms IH]; intros pending ts Hno Hp; cbn [insertLoop].
  - rewrite (answered_pending_empty pending []) by done. apply flush_empty.
  - f_equal. apply IH; [done|]. intros id Hid.
    by pose proof (Hp id Hid) as [?|?]%Exists_cons.
  - rewrite (answered_pending_empty pending (MAssistant a :: ms)), flush_empty by done. simpl.
    destruct Hno as [Ha Hno]. f_equal. apply IH; [done|].
    intros id [(tc & Htc & <-)|[? []%lookup_empty_Some]]%addPending_lookup. by apply Ha.
  - f_equal. apply IH; [done|]. by apply delete_keeps_answered.
Qed.

(** [ms] with synthetic error results put in, order kept. *)
Inductive withSynthetic : list Message -> list Message -> Prop :=
  | withSynthetic_nil : withSynthetic [] []
  | withSynthetic_keep m ms out : withSynthetic ms out -> withSynthetic (m :: ms) (m :: out)
  | withSynthetic_add ts id tc ms out :
      withSynthetic ms out -> withSynthetic ms (syntheticResult ts id tc :: out).

Lemma withSynthetic_flush pending ts ms out :
  withSynthetic ms out -> withSynthetic ms (flush pending ts ++ out).
Proof.
  intros H. assert (forall m, m ∈ flush pending ts -> exists id tc, m = syntheticResult ts id tc) as Hf.
  { intros m (id & tc & _ & ->)%elem_of_flush. eauto. }
  revert Hf. induction (flush pending ts) as [|m l IH]; intros Hf; [done|].
  destruct (Hf m) as (id & tc & ->); [set_solver|]. constructor. apply IH. set_solver.
Qed.

Lemma insertLoop_withSynthetic now ms pending ts : withSynthetic ms (insertLoop now ms pending ts).
Proof.
  revert pending ts. induction ms as [|[u|a|r] ms IH]; intros pending ts; cbn [insertLoop].
  - rewrite <- (app_nil_r (flush _ _)). apply withSynthetic_flush. constructor.
  - by constructor.
  - apply withSynthetic_flush. by constructor.
  - by constructor.
Qed.

(** [insertSyntheticToolResults] only adds synthetic error results: every
    message it is given comes out, unchanged and in order; and it adds none at
    all exactly when no call was left unanswered, so a second pass changes
    nothing. *)
Theorem insertSyntheticToolResults_spec now messages :
  withSynthetic messages (insertSyntheticToolResults now messages) /\
  (insertSyntheticToolResults now messages = messages <-> noOrphans messages) /\
  forall now', insertSyntheticToolResults now' (insertSyntheticToolResults now messages) =
               insertSyntheticToolResults now messages.
Proof.
  assert (forall n ms, noOrphans ms -> insertSyntheticToolResults n ms = ms) as Hnoop.
  { intros n ms Hno. apply insertLoop_answered; [done|]. by intros id [? []%lookup_empty_Some]. }
  assert (noOrphans (insertSyntheticToolResults now messages)) as Hno by apply insertLoop_noOrphans.
  split; [apply insertLoop_withSynthetic|]. split; [|by auto].
  split; [congruence|by apply Hnoop].
Qed.

(** ** Tool-call ids across a model boundary *)

Section Relink.
Context (target : Model) (normalize : option ToolCallIDNormalizer).

(** The id a call of [msg] carries in the transformed conversation. *)
Definition newCallID (msg : AssistantMessage) (tc : ToolCall) : string :=
  tc_ID (transformToolCall target normalize msg tc ∅).1.

(** The id a later tool result for [id] is given. *)
Definition linkID (idMap : gmap string string) (id : string) : string := default id (idMap !! id).

(** The ids of the calls of the assistant messages that are kept. *)
Fixpoint keptCallIDs (ms : list Message) : list string :=
  match ms with
  | [] => []
  | MAssistant m :: rest =>
      (if failed m then [] else tc_ID <$> toolCalls (am_Content m)) ++ keptCallIDs rest
  | _ :: rest => keptCallIDs rest
  end.

Definition mapAfterCall (msg : AssistantMessage) (idMap : gmap string string) (tc : ToolCall)
  : gmap string string := (transformToolCall target normalize msg tc idMap).2.

Fixpoint mapAfter (ms : list Message) (idMap : gmap string string) : gmap string string :=
  match ms with
  | [] => idMap
  | MAssistant m :: rest => mapAfter rest (transformAssistantMessage target normalize m idMap).2
  | _ :: rest => mapAfter rest idMap
  end.

Lemma transformToolCall_fst msg tc idMap :
  (transformToolCall target normalize msg tc idMap).1 = (transformToolCall target normalize msg tc ∅).1.
Proof. unfold transformToolCall. repeat case_match; done. Qed.

Lemma transformBlocks_calls msg bs idMap :
  toolCalls (transformBlocks target normalize msg bs idMap).1 =
    (fun tc => (transformToolCall target normalize msg tc ∅).1) <$> toolCalls bs /\
  (transformBlocks target normalize msg bs idMap).2 = foldl (mapAfterCall msg) idMap (toolCalls bs).
Proof.
  revert idMap. induction bs as [|b bs IH]; intros idMap; [done|].
  cbn [transformBlocks].
  destruct (transformBlock target normalize msg b idMap) as [out idMap1] eqn:Hb.
  destruct (IH idMap1) as [IH1 IH2].
  destruct (transformBlocks target normalize msg bs idMap1) as [rest idMap2].
  simpl in *. rewrite toolCalls_app, IH1, IH2.
  destruct b as [| | |tc]; cbn [transformBlock] in Hb.
  4: { pose proof (transformToolCall_fst msg tc idMap) as Hfst.
       assert (mapAfterCall msg idMap tc = (transformToolCall target normalize msg tc idMap).2) as Hsnd by done.
       destruct (transformToolCall target normalize msg tc idMap) as [tc' idMap'].
       by simplify_eq/=. }
  all: repeat case_match; by simplify_eq/=.
Qed.

Lemma mapAfterCall_other msg idMap tc id :
  tc_ID tc <> id -> mapAfterCall msg idMap tc !! id = idMap !! id.
Proof.
  intros Hne. unfold mapAfterCall, transformToolCall. repeat case_match; simpl; try done.
  by rewrite lookup_insert_ne.
Qed.

Lemma mapAfterCall_self msg idMap tc :
  idMap !! tc_ID tc = None -> linkID (mapAfterCall msg idMap tc) (tc_ID tc) = newCallID msg tc.
Proof.
  intros Hn. unfold linkID, newCallID, mapAfterCall, transformToolCall.
  repeat case_match; simpl; rewrite ?Hn, ?lookup_insert_eq; done.
Qed.

Lemma mapAfterCalls_other msg tcs idMap id :
  id ∉ (tc_ID <$> tcs) -> foldl (mapAfterCall msg) idMap tcs !! id = idMap !! id.
Proof.
  revert idMap. induction tcs as [|tc tcs IH]; intros idMap Hid; [done|].
  simpl. rewrite IH by set_solver. apply mapAfterCall_other. set_solver.
Qed.

Lemma mapAfterCalls_self msg tcs idMap tc :
  NoDup (tc_ID <$> tcs) -> tc ∈ tcs -> idMap !! tc_ID tc = None ->
  linkID (foldl (mapAfterCall msg) idMap tcs) (tc_ID tc) = newCallID msg tc.
Proof.
  revert idMap. induction tcs as [|tc' tcs IH]; intros idMap Hnd Hin Hn; [by apply not_elem_of_nil in Hin|].
  simpl in *. apply NoDup_cons in Hnd as [Hnin Hnd].
  apply elem_of_cons in Hin as [->|Hin].
  - unfold linkID. rewrite mapAfterCalls_other by done. by apply mapAfterCall_self.
  - apply IH; [done..|]. rewrite mapAfterCall_other; [done|].
    intros Heq. apply Hnin. rewrite Heq. by apply list_elem_of_fmap_2.
Qed.

Lemma transformAssistantMessage_kept msg idMap :
  failed msg = false ->
  exists t, (transformAssistantMessage target normalize msg idMap).1 = Some t /\
    tc_ID <$> toolCalls (am_Content t) = newCallID msg <$> toolCalls (am_Content msg) /\
    (transformAssistantMessage target normalize msg idMap).2 =
      foldl (mapAfterCall msg) idMap (toolCalls (am_Content msg)).
Proof.
  intros Hf. unfold transformAssistantMessage. rewrite Hf.
  destruct (transformBlocks_calls msg (am_Content msg) idMap) as [Hc Hm].
  destruct (transformBlocks target normalize msg (am_Content msg) idMap) as [out idMap'].
  simpl in *. eexists. split; [done|]. simpl. by rewrite Hc, <- list_fmap_compose.
Qed.

Lemma transformLoop_app ms1 ms2 idMap :
  transformLoop target normalize (ms1 ++ ms2) idMap =
  transformLoop target normalize ms1 idMap ++ transformLoop target normalize ms2 (mapAfter ms1 idMap).
Proof.
  revert idMap. induction ms1 as [|[u|a|r] ms1 IH]; intros idMap; simpl; rewrite ?IH; try done.
  destruct (transformAssistantMessage target normalize a idMap) as [[t|] idMap']; simpl; by rewrite IH.
Qed.

Lemma mapAfter_other ms idMap id : id ∉ keptCallIDs ms -> mapAfter ms idMap !! id = idMap !! id.
Proof.
  revert idMap. induction ms as [|[u|a|r] ms IH]; intros idMap Hid; simpl in *; [done|by apply IH| |by apply IH].
  rewrite not_elem_of_app in Hid. destruct Hid as [Ha Hid]. rewrite IH by done.
  destruct (failed a) eqn:Hf.
  - unfold transformAssistantMessage. by rewrite Hf.
  - destruct (transformAssistantMessage_kept a idMap Hf) as (t & _ & _ & ->).
    by apply mapAfterCalls_other.
Qed.

Lemma transformToolResult_link r idMap :
  tr_ToolCallID (transformToolResult r idMap) = linkID idMap (tr_ToolCallID r) /\
  tr_Content (transformToolResult r idMap) = tr_Content r /\
  tr_IsError (transformToolResult r idMap) = tr_IsError r.
Proof. unfold transformToolResult, linkID. case_bool_decide as H; simpl; by rewrite ?H. Qed.
End Relink.

Lemma keptCallIDs_app ms1 ms2 : keptCallIDs (ms1 ++ ms2) = keptCallIDs ms1 ++ keptCallIDs ms2.
Proof. induction ms1 as [|[] ms1 IH]; simpl; by rewrite ?IH, ?app_assoc. Qed.

Lemma withSynthetic_split l1 l2 out :
  withSynthetic (l1 ++ l2) out ->
  exists o1 o2, out = o1 ++ o2 /\ withSynthetic l1 o1 /\ withSynthetic l2 o2.
Proof.
  intros H. remember (l1 ++ l2) as l eqn:Hl. revert l1 Hl.
  induction H as [|m ms out H IH|ts id tc ms out H IH]; intros l1 Hl.
  - symmetry in Hl. apply app_nil in Hl as [-> ->]. exists [], []. by repeat constructor.
  - destruct l1 as [|m1 l1]; simplify_eq/=.
    + exists [], (m :: out). by repeat constructor.
    + destruct (IH l1 eq_refl) as (o1 & o2 & -> & ? & ?). exists (m1 :: o1), o2. by repeat constructor.
  - destruct (IH l1 Hl) as (o1 & o2 & -> & ? & ?).
    exists (syntheticResult ts id tc :: o1), o2. by repeat constructor.
Qed.

Lemma withSynthetic_cons m l out :
  withSynthetic (m :: l) out -> exists o1 o2, out = o1 ++ m :: o2 /\ withSynthetic l o2.
Proof.
  intros H. remember (m :: l) as l' eqn:Hl.
  induction H as [|m' ms out H IH|ts id tc ms out H IH]; simplify_eq.
  - by exists [], out.
  - destruct (IH eq_refl) as (o1 & o2 & -> & ?). by exists (syntheticResult ts id tc :: o1), o2.
Qed.

(** Renaming tool-call ids at a model boundary keeps calls and results
    together.  When the ids of the kept calls are distinct, a tool result that
    follows the assistant message holding its call still carries that call's
    id after the transformation, whatever the normalizer, with its content and
    error flag unchanged. *)
Theorem TransformMessages_relinks now target normalize pre m mid r post k tc :
  NoDup (keptCallIDs (pre ++ MAssistant m :: mid ++ MToolResult r :: post)) ->
  failed m = false ->
  toolCalls (am_Content m) !! k = Some tc ->
  tr_ToolCallID r = tc_ID tc ->
  exists o1 t o2 r' o3 tc',
    TransformMessages now (pre ++ MAssistant m :: mid ++ MToolResult r :: post) target normalize =
      o1 ++ MAssistant t :: o2 ++ MToolResult r' :: o3 /\
    toolCalls (am_Content t) !! k = Some tc' /\
    tr_ToolCallID r' = tc_ID tc' /\ tr_Content r' = tr_Content r /\ tr_IsError r' = tr_IsError r.
Proof.
  intros Hnd Hf Hk Hid. unfold TransformMessages, insertSyntheticToolResults.
  set (M0 := mapAfter target normalize pre ∅).
  destruct (transformAssistantMessage_kept target normalize m M0 Hf) as (t & Ht1 & Ht2 & Ht3).
  set (M1 := foldl (mapAfterCall target normalize m) M0 (toolCalls (am_Content m))) in Ht3.
  set (M2 := mapAfter target normalize mid M1).
  assert (transformLoop target normalize (pre ++ MAssistant m :: mid ++ MToolResult r :: post) ∅ =
    transformLoop target normalize pre ∅ ++ MAssistant t :: transformLoop target normalize mid M1 ++
    MToolResult (transformToolResult r M2) :: transformLoop target normalize post M2) as ->.
  { rewrite transformLoop_app. simpl. fold M0. destruct (transformAssistantMessage _ _ m M0).
    simplify_eq/=. by rewrite transformLoop_app. }
  pose proof (insertLoop_withSynthetic now (transformLoop target normalize pre ∅ ++
    MAssistant t :: transformLoop target normalize mid M1 ++
    MToolResult (transformToolResult r M2) :: transformLoop target normalize post M2) ∅ 0)
    as (o1 & oa & Ho & _ & Ha)%withSynthetic_split.
  apply withSynthetic_cons in Ha as (o1' & ob & -> & Hb).
  apply withSynthetic_split in Hb as (o2 & oc & -> & _ & Hc).
  apply withSynthetic_cons in Hc as (o2' & o3 & -> & _).
  rewrite keptCallIDs_app in Hnd. simpl in Hnd. rewrite Hf, keptCallIDs_app in Hnd. simpl in Hnd.
  apply NoDup_app in Hnd as (_ & Hpre & (Hm & Hpost & _)%NoDup_app).
  assert (tc ∈ toolCalls (am_Content m)) as Htc by (by eapply list_elem_of_lookup_2).
  assert (tc_ID tc ∈ tc_ID <$> toolCalls (am_Content m)) as Htcid by (by apply list_elem_of_fmap_2).
  assert (linkID M2 (tc_ID tc) = newCallID target normalize m tc) as Hlink.
  { unfold linkID, M2. rewrite mapAfter_other by (apply Hpost in Htcid; set_solver).
    apply mapAfterCalls_self; [done..|]. unfold M0. rewrite mapAfter_other; [done|].
    intros Hin. apply Hpre in Hin. set_solver. }
  assert (exists tc', toolCalls (am_Content t) !! k = Some tc' /\ tc_ID tc' = newCallID target normalize m tc)
    as (tc' & Htc' & Hnew).
  { assert ((tc_ID <$> toolCalls (am_Content t)) !! k = Some (newCallID target normalize m tc)) as Hl.
    { by rewrite Ht2, list_lookup_fmap, Hk. }
    rewrite list_lookup_fmap in Hl. apply fmap_Some in Hl as (tc' & ? & ?). eauto. }
  destruct (transformToolResult_link r M2) as (Hr1 & Hr2 & Hr3).
  exists (o1 ++ o1'), t, (o2 ++ o2'), (transformToolResult r M2), o3, tc'.
  split; [by rewrite Ho; repeat (rewrite <- ?app_assoc; simpl)|]. split; [done|]. split; [|done]. by rewrite Hr1, Hid, Hlink, Hnew.
Qed.

(** ** A concrete conversation *)

Module Examples.
Definition assistant (model : string) (bs : list ContentBlock) : AssistantMessage :=
  mkAssistantMessage bs "messages" "anthropic" model zeroUsage StopReasonToolUse "" 7.
Definition call (id : string) : ToolCall := mkToolCall id "bash" ∅ "sig".
Definition result (id : string) : ToolResultMessage :=
  mkToolResultMessage id "bash" [TextContent "ok" ""] false 8.
Definition target : Model :=
  mkModel "claude" "Claude" "messages" "anthropic" false []
    (mkModelCost (S754_zero false) (S754_zero false) (S754_zero false) (S754_zero false))
    false 0 0 ∅ None.
Definition normalize : ToolCallIDNormalizer := fun id _ _ => String.app "n_" id.

(** An answered call of another model: call and result are renamed together. *)
Example relinked :
  TransformMessages 1 [MAssistant (assistant "gpt" [ToolCallBlock (call "a")]); MToolResult (result "a")]
    target (Some normalize) =
  [MAssistant (assistant "gpt" [ToolCallBlock (mkToolCall "n_a" "bash" ∅ "")]); MToolResult (result "n_a")].
Proof. vm_compute. reflexivity. Qed.

(** The id map is never pruned: after a call ["a"] of another model was
    renamed, a later call ["a"] of the target model itself keeps its id but
    its result is renamed, so the call gets a synthetic error result and the
    real result dangles.  The distinctness hypothesis of the relinking
    theorem is needed. *)
Example stale_id :
  TransformMessages 1
    [MAssistant (assistant "gpt" [ToolCallBlock (call "a")]); MToolResult (result "a");
     MAssistant (assistant "claude" [ToolCallBlock (call "a")]); MToolResult (result "a")]
    target (Some normalize) =
  [MAssistant (assistant "gpt" [ToolCallBlock (mkToolCall "n_a" "bash" ∅ "")]); MToolResult (result "n_a");
   MAssistant (assistant "claude" [ToolCallBlock (call "a")]); MToolResult (result "n_a");
   syntheticResult 8 "a" (call "a")].
Proof. vm_compute. reflexivity. Qed.

Lemma TransformMessages_relinks_witness :
  exists o1 t o2 r' o3 tc',
    TransformMessages 1 ([] ++ MAssistant (assistant "gpt" [ToolCallBlock (call "a")]) ::
        [MUser (mkUserMessage [] 1)] ++ MToolResult (result "a") :: []) target (Some normalize) =
      o1 ++ MAssistant t :: o2 ++ MToolResult r' :: o3 /\
    toolCalls (am_Content t) !! 0%nat = Some tc' /\
    tr_ToolCallID r' = tc_ID tc' /\ tr_Content r' = [TextContent "ok" ""] /\ tr_IsError r' = false.
Proof.
  apply (TransformMessages_relinks 1 target (Some normalize) [] (assistant "gpt" [ToolCallBlock (call "a")])
           [MUser (mkUserMessage [] 1)] (result "a") [] 0%nat (call "a")).
  - simpl. apply NoDup_singleton.
  - reflexivity.
  - reflexivity.
  - reflexivity.
Defined.
End Examples.
