(* ===== verification/GoStrings.v ===== *)
(** * GoStrings: the functions of package strings the components use

    A Go string is its bytes.  Functions that look at runes read the UTF-8
    encoding of the white-space code points directly: UTF-8 is
    self-synchronizing, so a rune is a prefix or a suffix of a string exactly
    when its byte sequence is. *)

From Stdlib Require Import Ascii String.
From S2P Require Import Prelude.

Local Open Scope list_scope.

Definition bytes (s : string) : list Z := Z.of_nat ∘ nat_of_ascii <$> list_ascii_of_string s.
Definition of_bytes (bs : list Z) : string := string_of_list_ascii (ascii_of_nat ∘ Z.to_nat <$> bs).

Lemma of_bytes_bytes s : of_bytes (bytes s) = s.
Proof.
  unfold of_bytes, bytes, compose. induction s as [|c s IH]; [done|].
  cbn. rewrite Nat2Z.id, ascii_nat_embedding. f_equal. exact IH.
Qed.

(** The UTF-8 encodings of the code points [unicode.IsSpace] accepts. *)
Definition spaces : list (list Z) :=
  [[9]; [10]; [11]; [12]; [13]; [32]; [194; 133]; [194; 160]; [225; 154; 128];
   [226; 128; 128]; [226; 128; 129]; [226; 128; 130]; [226; 128; 131]; [226; 128; 132]; [226; 128; 133];
   [226; 128; 134]; [226; 128; 135]; [226; 128; 136]; [226; 128; 137]; [226; 128; 138];
   [226; 128; 168]; [226; 128; 169]; [226; 128; 175]; [226; 129; 159]; [227; 128; 128]]%Z.

(** The string without one leading space of [sps]. *)
Fixpoint stripOne (sps : list (list Z)) (bs : list Z) : option (list Z) :=
  match sps with
  | [] => None
  | sp :: sps' =>
      if bool_decide (take (length sp) bs = sp) then Some (drop (length sp) bs) else stripOne sps' bs
  end.

Fixpoint stripAll (fuel : nat) (sps : list (list Z)) (bs : list Z) : list Z :=
  match fuel with
  | O => bs
  | S fuel' => match stripOne sps bs with Some bs' => stripAll fuel' sps bs' | None => bs end
  end.

Definition trimLeft (bs : list Z) : list Z := stripAll (length bs) spaces bs.
Definition trimRight (bs : list Z) : list Z := reverse (stripAll (length bs) (reverse <$> spaces) (reverse bs)).

(** strings.TrimSpace. *)
Definition TrimSpace (s : string) : string := of_bytes (trimRight (trimLeft (bytes s))).

Lemma stripOne_shorter sps bs bs' :
  Forall (fun sp => sp <> []) sps -> stripOne sps bs = Some bs' -> (length bs' < length bs)%nat.
Proof.
  intros Hne. revert bs'. induction Hne as [|sp sps Hsp Hne IH]; intros bs' H; [done|].
  simpl in H. case_bool_decide as Ht; [|by apply IH]. simplify_eq.
  rewrite length_drop. assert (length sp <= length bs)%nat.
  { rewrite <- Ht at 1. rewrite length_take. lia. }
  destruct sp; [done|]. simpl in *. lia.
Qed.

(** With the fuel of [trimLeft] and [trimRight] nothing is left to strip. *)
Lemma stripAll_done sps fuel bs :
  Forall (fun sp => sp <> []) sps -> (length bs <= fuel)%nat -> stripOne sps (stripAll fuel sps bs) = None.
Proof.
  intros Hne. revert bs. induction fuel as [|fuel IH]; intros bs Hf; simpl.
  - destruct (stripOne sps bs) eqn:H; [|done]. apply stripOne_shorter in H; [lia|done].
  - destruct (stripOne sps bs) eqn:H; [|done]. apply IH. apply stripOne_shorter in H; [lia|done].
Qed.

Example TrimSpace_ascii : TrimSpace "  a b
	" = "a b"%string.
Proof. vm_compute. reflexivity. Qed.

(** ** fmt *)

(** %q: the quotes and the escapes of the quote and of the backslash; escapes
    of other characters are left out. *)
Definition dquote : string := String (Ascii.ascii_of_nat 34) EmptyString.
Definition backslash : string := String (Ascii.ascii_of_nat 92) EmptyString.
Fixpoint escape (s : string) : string :=
  match s with
  | EmptyString => EmptyString
  | String c rest =>
      let here := String c EmptyString in
      String.append (if bool_decide (here = dquote \/ here = backslash) then String.append backslash here else here)
        (escape rest)
  end.
Definition quote (s : string) : string := String.append dquote (String.append (escape s) dquote).

(** %x of a non-negative number. *)
Definition hexDigit (d : Z) : string :=
  String (Ascii.ascii_of_nat (Z.to_nat (if bool_decide (d < 10)%Z then 48 + d else 87 + d))) EmptyString.
Fixpoint hexLoop (fuel : nat) (n : Z) (acc : string) : string :=
  match fuel with
  | O => acc
  | S fuel' =>
      let acc' := String.append (hexDigit (n mod 16)) acc in
      if bool_decide (n < 16)%Z then acc' else hexLoop fuel' (n / 16) acc'
  end.
(** 16 digits hold every uint64. *)
Definition hex (n : Z) : string := hexLoop 16 n EmptyString.
Fixpoint repeatString (n : nat) (s : string) : string :=
  match n with O => EmptyString | S n' => String.append s (repeatString n' s) end.
(** %08x. *)
Definition hex08 (n : Z) : string :=
  String.append (repeatString (8 - String.length (hex n)) "0") (hex n).

Example hex08_ex : (hex08 1, hex08 48879, hex08 (2 ^ 64 - 1)) = ("00000001", "0000beef", "ffffffffffffffff")%string.
Proof. vm_compute. reflexivity. Qed.

(** ** Searching *)

Local Open Scope string_scope.

(** strings.HasPrefix, and the slice after the prefix. *)
Fixpoint CutPrefix (prefix s : string) : option string :=
  match prefix, s with
  | EmptyString, _ => Some s
  | String a prefix', String b s' => if bool_decide (a = b) then CutPrefix prefix' s' else None
  | String _ _, EmptyString => None
  end.

(** [idx := strings.Index(s, c)] for one byte, with [s[:idx]] and [s[idx+1:]];
    [None] when [idx < 0]. *)
Fixpoint CutByte (c : ascii) (s : string) : option (string * string) :=
  match s with
  | EmptyString => None
  | String a s' =>
      if bool_decide (a = c) then Some (EmptyString, s')
      else match CutByte c s' with Some (before, after) => Some (String a before, after) | None => None end
  end.

(** strings.Contains with one byte. *)
Definition ContainsByte (c : ascii) (s : string) : bool :=
  match CutByte c s with Some _ => true | None => false end.

Lemma append_cons a s t : String a s ++ t = String a (s ++ t).
Proof. done. Qed.

Lemma append_nil t : "" ++ t = t.
Proof. done. Qed.

Lemma CutPrefix_app prefix s : CutPrefix prefix (prefix ++ s) = Some s.
Proof. induction prefix as [|a p IH]; [done|]. rewrite append_cons. simpl. by rewrite bool_decide_eq_true_2. Qed.

Lemma CutPrefix_Some prefix s rest : CutPrefix prefix s = Some rest <-> s = prefix ++ rest.
Proof.
  split; [|intros ->; apply CutPrefix_app].
  revert s. induction prefix as [|a p IH]; intros s H; [by simplify_eq/=|].
  destruct s as [|b s]; [done|]. simpl in H. case_bool_decide; [|done]. subst. rewrite append_cons. f_equal. by apply IH.
Qed.

(** The first occurrence: the part before it has none. *)
Lemma CutByte_Some c s before after :
  CutByte c s = Some (before, after) <-> s = before ++ String c after /\ ContainsByte c before = false.
Proof.
  unfold ContainsByte. revert before. induction s as [|a s IH]; intros before; simpl.
  - split; [done|]. intros [H _]. by destruct before.
  - case_bool_decide as Ha; [subst|].
    + split; [by intros [= <- <-]|]. intros [H Hc]. destruct before as [|b before]; [rewrite append_nil in H; by simplify_eq|].
      rewrite append_cons in H. simplify_eq/=. by rewrite bool_decide_eq_true_2 in Hc.
    + split.
      * destruct (CutByte c s) as [[b' a']|]; [|done]. intros [= <- ->].
        destruct (proj1 (IH b') eq_refl) as [-> Hb]. split; [by rewrite append_cons|]. simpl.
        rewrite bool_decide_eq_false_2 by done. by destruct (CutByte c b') as [[]|].
      * intros [H Hc]. destruct before as [|b before]; [rewrite append_nil in H; by simplify_eq|].
        rewrite append_cons in H. simplify_eq/=. rewrite bool_decide_eq_false_2 in Hc by done.
        assert (match CutByte c before with Some _ => true | None => false end = false) as Hb
          by (by destruct (CutByte c before) as [[]|]).
        by rewrite (proj2 (IH before) (conj eq_refl Hb)).
Qed.

(** strings.Join. *)
Fixpoint Join (l : list string) (sep : string) : string :=
  match l with
  | [] => ""
  | [x] => x
  | x :: l' => x ++ sep ++ Join l' sep
  end.
