(* ===== verification/AgentTypes.v ===== *)
(** * AgentTypes: the data of internal/agent (types.go, errors.go, service_errors.go)

    States, sessions, metrics, tool results, events and errors of the agent
    runtime.  Values a Go struct holds behind a pointer or in a slice are copied
    by the code ([Session.Clone], [AgentEvent.clone], ...) before they are
    shared, so they are plain values here and the clone functions are the
    identity.  The time stamps [CreatedAt] and [At] are left out: they are
    written when an entry is made and no code of the component reads them. *)

From S2P Require Import Prelude AiTypes.

Local Set Warnings "-register-all".
Local Open Scope string_scope.
Local Open Scope list_scope.

(** types.go: [AgentState].  The unset string of an event is [None] of an option. *)
Inductive AgentState : Type :=
  | StateIdle
  | StateStreaming
  | StateToolExecution
  | StateWaitingFollowUp
  | StateExited.

#[export] Instance AgentState_eq_dec : EqDecision AgentState.
Proof. solve_decision. Defined.

Definition AgentState_string (s : AgentState) : string :=
  match s with
  | StateIdle => "idle"
  | StateStreaming => "streaming"
  | StateToolExecution => "tool_execution"
  | StateWaitingFollowUp => "waiting_follow_up"
  | StateExited => "exited"
  end.

(** types.go: [AgentMessage]. *)
Record AgentMessage : Type := mkAgentMessage {
  ag_Turn : Z;
  ag_Message : Message;
}.

(** types.go: [SessionMetrics]; every field is a uint64. *)
Record SessionMetrics : Type := mkSessionMetrics {
  TurnsStarted : Z;
  TurnsCompleted : Z;
  MessagesAppended : Z;
  ToolCallsStarted : Z;
  ToolCallsFinished : Z;
  Errors : Z;
}.

Definition zeroMetrics : SessionMetrics := mkSessionMetrics 0 0 0 0 0 0.

(** types.go: [Session]. *)
Record Session : Type := mkSession {
  ss_ID : string;
  ss_DriverSessionID : string;
  ConversationLog : list AgentMessage;
  StateHistory : list AgentState;
  Metrics : SessionMetrics;
}.

(** types.go: [AgentToolResult]. *)
Record AgentToolResult : Type := mkAgentToolResult {
  ar_Content : list ContentBlock;
  ar_SnapshotID : string;
  ar_ExitCode : option Z;
  ar_IsError : bool;
  ar_Metadata : gmap string any;
}.

(** types.go: [AgentEventType]. *)
Inductive AgentEventType : Type :=
  | EventSessionStarted
  | EventSessionEnded
  | EventTurnStarted
  | EventTurnCompleted
  | EventAgentMessageDelta
  | EventAgentMessageCompleted
  | EventThinkingDelta
  | EventToolStarted
  | EventToolUpdate
  | EventToolCompleted
  | EventStateChange
  | EventSteeringApplied
  | EventFollowUpEnqueued
  | EventAborted
  | EventDriverError
  | EventProviderError
  | EventToolError
  | EventTerminalToolCompleted.

#[export] Instance AgentEventType_eq_dec : EqDecision AgentEventType.
Proof. solve_decision. Defined.

(** service_errors.go: [ServiceCode]. *)
Inductive ServiceCode : Type :=
  | CodeInvalidArgument
  | CodeNotFound
  | CodeAlreadyExists
  | CodeFailedPrecondition
  | CodeResourceExhausted
  | CodeUnavailable
  | CodeDeadlineExceeded
  | CodeCanceled
  | CodeInternal.

#[export] Instance ServiceCode_eq_dec : EqDecision ServiceCode.
Proof. solve_decision. Defined.

Definition ServiceCode_string (c : ServiceCode) : string :=
  match c with
  | CodeInvalidArgument => "invalid_argument"
  | CodeNotFound => "not_found"
  | CodeAlreadyExists => "already_exists"
  | CodeFailedPrecondition => "failed_precondition"
  | CodeResourceExhausted => "resource_exhausted"
  | CodeUnavailable => "unavailable"
  | CodeDeadlineExceeded => "deadline_exceeded"
  | CodeCanceled => "canceled"
  | CodeInternal => "internal"
  end.

(** The errors the component makes, compares or wraps: the sentinels of
    errors.go and of package context, the typed errors of errors.go and
    service_errors.go, [errors.New]/[fmt.Errorf] texts ([ErrText]) and
    [fmt.Errorf] with [%w] ([ErrWrap]: the full text and the wrapped error). *)
Inductive error : Type :=
  | ErrBusy
  | ErrStopped
  | ErrInvalidState
  | ErrQueueFull
  | ContextCanceled
  | ContextDeadlineExceeded
  | BusyError (State : option AgentState)
  | StoppedError
  | InvalidStateError (From To : AgentState)
  | ServiceError (Code : ServiceCode) (Msg : string) (Cause : option error)
  | ErrText (text : string)
  | ErrWrap (text : string) (cause : error).

(** The [Error] methods. *)
Definition Error (e : error) : string :=
  match e with
  | ErrBusy => "agent is busy"
  | ErrStopped => "agent is stopped"
  | ErrInvalidState => "invalid agent state transition"
  | ErrQueueFull => "agent control queue is full"
  | ContextCanceled => "context canceled"
  | ContextDeadlineExceeded => "context deadline exceeded"
  | BusyError None => "agent is busy"
  | BusyError (Some s) => String.app "agent is busy: current state=" (AgentState_string s)
  | StoppedError => "agent is stopped"
  | InvalidStateError from to =>
      String.app "invalid agent state transition: "
        (String.app (AgentState_string from) (String.app " -> " (AgentState_string to)))
  | ServiceError c "" _ => String.app "service error: " (ServiceCode_string c)
  | ServiceError c msg _ =>
      String.app "service error: " (String.app (ServiceCode_string c) (String.app ": " msg))
  | ErrText text => text
  | ErrWrap text _ => text
  end.

(** The [Unwrap] methods. *)
Definition Unwrap (e : error) : option error :=
  match e with
  | BusyError _ => Some ErrBusy
  | StoppedError => Some ErrStopped
  | InvalidStateError _ _ => Some ErrInvalidState
  | ServiceError _ _ cause => cause
  | ErrWrap _ cause => Some cause
  | _ => None
  end.

(** [errors.Is] against the sentinels the component compares with. *)
Inductive sentinel : Type := IsBusy | IsStopped | IsInvalidState | IsCanceled | IsDeadlineExceeded.

Definition matches (t : sentinel) (e : error) : bool :=
  match t, e with
  | IsBusy, ErrBusy | IsStopped, ErrStopped | IsInvalidState, ErrInvalidState
  | IsCanceled, ContextCanceled | IsDeadlineExceeded, ContextDeadlineExceeded => true
  | _, _ => false
  end.

Fixpoint errors_Is (t : sentinel) (e : error) : bool :=
  matches t e ||
  match e with
  | BusyError _ => matches t ErrBusy
  | StoppedError => matches t ErrStopped
  | InvalidStateError _ _ => matches t ErrInvalidState
  | ServiceError _ _ (Some cause) => errors_Is t cause
  | ErrWrap _ cause => errors_Is t cause
  | _ => false
  end.

(** [errors.As] with a [*ServiceError] target: the first service error of the
    chain. *)
Fixpoint errors_As_ServiceError (e : error) : option error :=
  match e with
  | ServiceError _ _ _ => Some e
  | ErrWrap _ cause => errors_As_ServiceError cause
  | _ => None
  end.

(** What [errors.Is] means: some error of the unwrap chain is the sentinel. *)
Lemma errors_Is_unwrap t e :
  errors_Is t e = matches t e || match Unwrap e with Some c => errors_Is t c | None => false end.
Proof. destruct e as [| | | | | | | | |? ? []| |], t; simpl; by rewrite ?orb_false_r. Qed.

(** types.go: [AgentEvent], less [At]. *)
Record AgentEvent : Type := mkAgentEvent {
  ev_Type : AgentEventType;
  ev_SessionID : string;
  ev_DriverSessionID : string;
  ev_State : option AgentState;
  ev_Turn : Z;
  ev_Message : option AgentMessage;
  ev_Assistant : option AssistantMessage;
  ev_ToolName : string;
  ev_ToolCallID : string;
  ev_ToolResult : option AgentToolResult;
  ev_Delta : string;
  ev_ControlMessage : string;
  ev_Error : option error;
  ev_ErrorMessage : string;
  ev_Metadata : gmap string any;
}.

(** The composite literal [AgentEvent{Type: t}]; the other fields are set by
    the [with_] functions. *)
Definition event (t : AgentEventType) : AgentEvent :=
  mkAgentEvent t "" "" None 0 None None "" "" None "" "" None "" ∅.

#[global] Arguments event : simpl never.

Definition with_State (s : AgentState) (e : AgentEvent) : AgentEvent :=
  mkAgentEvent (ev_Type e) (ev_SessionID e) (ev_DriverSessionID e) (Some s) (ev_Turn e) (ev_Message e)
    (ev_Assistant e) (ev_ToolName e) (ev_ToolCallID e) (ev_ToolResult e) (ev_Delta e)
    (ev_ControlMessage e) (ev_Error e) (ev_ErrorMessage e) (ev_Metadata e).
Definition with_ids (sid dsid : string) (e : AgentEvent) : AgentEvent :=
  mkAgentEvent (ev_Type e) sid dsid (ev_State e) (ev_Turn e) (ev_Message e)
    (ev_Assistant e) (ev_ToolName e) (ev_ToolCallID e) (ev_ToolResult e) (ev_Delta e)
    (ev_ControlMessage e) (ev_Error e) (ev_ErrorMessage e) (ev_Metadata e).
Definition with_Turn (n : Z) (e : AgentEvent) : AgentEvent :=
  mkAgentEvent (ev_Type e) (ev_SessionID e) (ev_DriverSessionID e) (ev_State e) n (ev_Message e)
    (ev_Assistant e) (ev_ToolName e) (ev_ToolCallID e) (ev_ToolResult e) (ev_Delta e)
    (ev_ControlMessage e) (ev_Error e) (ev_ErrorMessage e) (ev_Metadata e).
Definition with_Message (m : AgentMessage) (a : AssistantMessage) (e : AgentEvent) : AgentEvent :=
  mkAgentEvent (ev_Type e) (ev_SessionID e) (ev_DriverSessionID e) (ev_State e) (ev_Turn e) (Some m)
    (Some a) (ev_ToolName e) (ev_ToolCallID e) (ev_ToolResult e) (ev_Delta e)
    (ev_ControlMessage e) (ev_Error e) (ev_ErrorMessage e) (ev_Metadata e).
Definition with_Tool (name id : string) (r : option AgentToolResult) (e : AgentEvent) : AgentEvent :=
  mkAgentEvent (ev_Type e) (ev_SessionID e) (ev_DriverSessionID e) (ev_State e) (ev_Turn e) (ev_Message e)
    (ev_Assistant e) name id r (ev_Delta e)
    (ev_ControlMessage e) (ev_Error e) (ev_ErrorMessage e) (ev_Metadata e).
Definition with_Delta (d : string) (e : AgentEvent) : AgentEvent :=
  mkAgentEvent (ev_Type e) (ev_SessionID e) (ev_DriverSessionID e) (ev_State e) (ev_Turn e) (ev_Message e)
    (ev_Assistant e) (ev_ToolName e) (ev_ToolCallID e) (ev_ToolResult e) d
    (ev_ControlMessage e) (ev_Error e) (ev_ErrorMessage e) (ev_Metadata e).
Definition with_ControlMessage (m : string) (e : AgentEvent) : AgentEvent :=
  mkAgentEvent (ev_Type e) (ev_SessionID e) (ev_DriverSessionID e) (ev_State e) (ev_Turn e) (ev_Message e)
    (ev_Assistant e) (ev_ToolName e) (ev_ToolCallID e) (ev_ToolResult e) (ev_Delta e)
    m (ev_Error e) (ev_ErrorMessage e) (ev_Metadata e).
(** [Error: err, ErrorMessage: err.Error()]. *)
Definition with_Error (err : error) (e : AgentEvent) : AgentEvent :=
  mkAgentEvent (ev_Type e) (ev_SessionID e) (ev_DriverSessionID e) (ev_State e) (ev_Turn e) (ev_Message e)
    (ev_Assistant e) (ev_ToolName e) (ev_ToolCallID e) (ev_ToolResult e) (ev_Delta e)
    (ev_ControlMessage e) (Some err) (Error err) (ev_Metadata e).
Definition with_ErrorMessage (m : string) (e : AgentEvent) : AgentEvent :=
  mkAgentEvent (ev_Type e) (ev_SessionID e) (ev_DriverSessionID e) (ev_State e) (ev_Turn e) (ev_Message e)
    (ev_Assistant e) (ev_ToolName e) (ev_ToolCallID e) (ev_ToolResult e) (ev_Delta e)
    (ev_ControlMessage e) (ev_Error e) m (ev_Metadata e).
