(* ===== verification/EventBus.v ===== *)
(** * EventBus: fan-out to subscribers (internal/agent/event_bus.go)

    [H] is the type of the subscribed handlers.  [subs] is the code's map from
    id to handler (nil once closed, which reads as empty); [publish] takes its
    handlers out under the read lock and calls them after it is released, so a
    handler may itself subscribe or unsubscribe. *)

From S2P Require Import Prelude.

Record eventBus (H : Type) : Type := mkEventBus {
  nextID : Z;
  subs : gmap Z H;
  bus_closed : bool;
}.
Arguments mkEventBus {H} _ _ _.
Arguments nextID {H} _.
Arguments subs {H} _.
Arguments bus_closed {H} _.

Section EventBus.
Context {H : Type}.

Definition newEventBus : eventBus H := mkEventBus 0 ∅ false.

(** The closure [subscribe] returns: the no-op one, or the one that deletes
    its id. *)
Inductive unsub : Type :=
  | UnsubNoop
  | UnsubID (id : Z).

Definition subscribe (fn : option H) (b : eventBus H) : (Z * unsub) * eventBus H :=
  match fn with
  | None => ((0%Z, UnsubNoop), b)
  | Some h =>
      if bus_closed b then ((0%Z, UnsubNoop), b)
      else ((nextID b, UnsubID (nextID b)), mkEventBus (nextID b + 1) (<[nextID b := h]> (subs b)) (bus_closed b))
  end.

Definition unsubscribe (u : unsub) (b : eventBus H) : eventBus H :=
  match u with
  | UnsubNoop => b
  | UnsubID id => mkEventBus (nextID b) (delete id (subs b)) (bus_closed b)
  end.

(** The locked part of [publish]: the handlers it will call, in the order of
    the map iteration [iter], which Go leaves open. *)
Definition handlers (iter : list (Z * H) -> list (Z * H)) (b : eventBus H) : list (Z * H) :=
  if bus_closed b then [] else iter (map_to_list (subs b)).

Definition bus_close (b : eventBus H) : eventBus H :=
  if bus_closed b then b else mkEventBus (nextID b) ∅ true.

(** ** Invariant: ids are never reused *)

Definition bus_wf (b : eventBus H) : Prop :=
  (0 <= nextID b)%Z /\
  (forall id h, subs b !! id = Some h -> (0 <= id < nextID b)%Z) /\
  (bus_closed b = true -> subs b = ∅).

Lemma newEventBus_wf : bus_wf newEventBus.
Proof. split; [done|]. split; [|done]. intros id h Hl. simpl in Hl. by rewrite lookup_empty in Hl. Qed.

Lemma subscribe_wf fn b : bus_wf b -> bus_wf (subscribe fn b).2.
Proof.
  intros Hwf. pose proof Hwf as (Hn & Hs & Hc). destruct fn as [h|]; [|done]. simpl.
  destruct (bus_closed b) eqn:Hcl; [done|]. unfold bus_wf. simpl. split; [lia|].
  split; [|done].
  intros id h'. rewrite lookup_insert_Some. intros [[<- _]|[_ Hid]]; [lia|].
  apply Hs in Hid. lia.
Qed.

Lemma unsubscribe_wf u b : bus_wf b -> bus_wf (unsubscribe u b).
Proof.
  intros Hwf. pose proof Hwf as (Hn & Hs & Hc). destruct u as [|uid]; [done|]. unfold bus_wf. simpl. split; [done|].
  split; [|intros Hcl; by rewrite Hc, delete_empty].
  intros id h. rewrite lookup_delete_Some. naive_solver.
Qed.

Lemma bus_close_wf b : bus_wf b -> bus_wf (bus_close b).
Proof.
  intros Hwf. pose proof Hwf as (Hn & Hs & Hc). unfold bus_close. destruct (bus_closed b) eqn:Hcl; [done|].
  unfold bus_wf. simpl. split; [done|]. split; [|done]. intros id h Hl. by rewrite lookup_empty in Hl.
Qed.

(** A subscription on an open bus adds exactly one handler under a fresh id,
    and its unsubscribe closure takes exactly that handler away. *)
Lemma subscribe_fresh h b :
  bus_wf b -> bus_closed b = false ->
  subs b !! (subscribe (Some h) b).1.1 = None /\
  subs (subscribe (Some h) b).2 = <[(subscribe (Some h) b).1.1 := h]> (subs b) /\
  subs (unsubscribe (subscribe (Some h) b).1.2 (subscribe (Some h) b).2) = subs b.
Proof.
  intros (Hn & Hs & _) Hcl. simpl. rewrite Hcl. simpl.
  assert (subs b !! nextID b = None) as Hfresh.
  { apply eq_None_not_Some. intros [h' Hh]. apply Hs in Hh. lia. }
  split; [done|]. split; [done|]. by apply delete_insert_id.
Qed.

Lemma elem_of_handlers iter b id h :
  (forall l, iter l ≡ₚ l) -> bus_wf b ->
  (id, h) ∈ handlers iter b <-> subs b !! id = Some h.
Proof.
  intros Hiter (_ & _ & Hc). unfold handlers. destruct (bus_closed b) eqn:Hcl.
  - rewrite (Hc eq_refl), lookup_empty. split; [by intros ?%not_elem_of_nil|done].
  - by rewrite Hiter, elem_of_map_to_list.
Qed.
End EventBus.
