(* ===== verification/ControlQueue.v ===== *)
(** * ControlQueue: the bounded queue of control commands (internal/agent/control_queue.go)

    The channel is its buffered contents and its capacity; [ch_closed] is set
    by [close(q.ch)] together with the flag of the same name, so one field
    stands for both.  A send to a closed channel panics, inside [select] too. *)

From S2P Require Import Prelude AgentTypes.

Local Open Scope string_scope.
Local Open Scope list_scope.

(** [ControlCommandType] is a Go string: a value other than the three
    constants is possible and is what [validate] refuses. *)
Inductive ControlCommandType : Type :=
  | ControlSteer
  | ControlFollowUp
  | ControlAbort
  | ControlOther (t : string).

#[export] Instance ControlCommandType_eq_dec : EqDecision ControlCommandType.
Proof. solve_decision. Defined.

Record ControlCommand : Type := mkControlCommand {
  cc_Type : ControlCommandType;
  cc_Message : string;
}.

#[export] Instance ControlCommand_eq_dec : EqDecision ControlCommand.
Proof. solve_decision. Defined.

(** The text quotes the type with %q; quoting is left out. *)
Definition validate (c : ControlCommand) : res error () :=
  match cc_Type c with
  | ControlSteer | ControlFollowUp | ControlAbort => Ok ()
  | ControlOther t => Err (ErrText (String.app "unsupported control command type " t))
  end.

Record ControlQueue : Type := mkControlQueue {
  ch : list ControlCommand;
  ch_cap : Z;
  ch_closed : bool;
}.

Definition NewControlQueue (buffer : Z) : ControlQueue :=
  mkControlQueue [] (if bool_decide (buffer <= 0)%Z then 64 else buffer) false.

(** [select { case ch <- cmd: return nil; default: return ErrQueueFull }]. *)
Definition trySend (cmd : ControlCommand) (q : ControlQueue) : outcome error () * ControlQueue :=
  if ch_closed q then (Panic "send on closed channel", q)
  else if bool_decide (Z.of_nat (length (ch q)) < ch_cap q)%Z
  then (Return (Ok ()), mkControlQueue (ch q ++ [cmd]) (ch_cap q) (ch_closed q))
  else (Return (Err ErrQueueFull), q).

(** [Enqueue] up to where it gives up the lock. *)
Definition beginEnqueue (cmd : ControlCommand) (q : ControlQueue) : res error () :=
  match validate cmd with
  | Err e => Err e
  | Ok _ => if ch_closed q then Err StoppedError else Ok ()
  end.

Definition Enqueue (cmd : ControlCommand) (q : ControlQueue) : outcome error () * ControlQueue :=
  match beginEnqueue cmd q with
  | Err e => (Return (Err e), q)
  | Ok _ => trySend cmd q
  end.

Definition EnqueueSteer (message : string) := Enqueue (mkControlCommand ControlSteer message).
Definition EnqueueFollowUp (message : string) := Enqueue (mkControlCommand ControlFollowUp message).
Definition EnqueueAbort (message : string) := Enqueue (mkControlCommand ControlAbort message).

(** [select { case cmd, ok := <-q.ch: ...; default: ... }]: [None] is either a
    closed and empty channel or an open and empty one; [Drain] returns on both. *)
Definition tryRecv (q : ControlQueue) : option (ControlCommand * ControlQueue) :=
  match ch q with
  | [] => None
  | cmd :: rest => Some (cmd, mkControlQueue rest (ch_cap q) (ch_closed q))
  end.

Fixpoint drainLoop (fuel : nat) (out : list ControlCommand) (q : ControlQueue)
  : option (list ControlCommand * ControlQueue) :=
  match fuel with
  | O => None
  | S fuel' =>
      match tryRecv q with
      | Some (cmd, q') => drainLoop fuel' (out ++ [cmd]) q'
      | None => Some (out, q)
      end
  end.

(** [Drain] with no other sender: as many receives as there are commands, and
    the one that finds none. *)
Definition Drain (q : ControlQueue) : list ControlCommand * ControlQueue :=
  default ([], q) (drainLoop (S (length (ch q))) [] q).

Definition Close (q : ControlQueue) : ControlQueue :=
  if ch_closed q then q else mkControlQueue (ch q) (ch_cap q) true.

(** ** Functional behaviour of one call *)

Lemma drainLoop_all fuel out q :
  (length (ch q) < fuel)%nat ->
  drainLoop fuel out q = Some (out ++ ch q, mkControlQueue [] (ch_cap q) (ch_closed q)).
Proof.
  revert fuel out. destruct q as [l c cl]. simpl.
  induction l as [|x l IH]; intros [|fuel] out Hf; simpl in *; try lia.
  - by rewrite app_nil_r.
  - unfold tryRecv. simpl. rewrite IH by lia. by rewrite <- app_assoc.
Qed.

Lemma Drain_all q : Drain q = (ch q, mkControlQueue [] (ch_cap q) (ch_closed q)).
Proof. unfold Drain. by rewrite drainLoop_all by lia. Qed.

Lemma validate_ok c :
  validate c = Ok () <-> cc_Type c = ControlSteer \/ cc_Type c = ControlFollowUp \/ cc_Type c = ControlAbort.
Proof. unfold validate. destruct (cc_Type c); naive_solver. Qed.

(** Called alone, [Enqueue] never panics: the flag it tests is the channel's. *)
Lemma Enqueue_returns cmd q : exists r, (Enqueue cmd q).1 = Return r.
Proof.
  unfold Enqueue, beginEnqueue, trySend. destruct (validate cmd); [|eauto].
  destruct (ch_closed q); [eauto|]. case_bool_decide; eauto.
Qed.

Lemma Enqueue_open cmd q :
  validate cmd = Ok () -> ch_closed q = false -> (Z.of_nat (length (ch q)) < ch_cap q)%Z ->
  Enqueue cmd q = (Return (Ok ()), mkControlQueue (ch q ++ [cmd]) (ch_cap q) false).
Proof. intros Hv Hc Hl. unfold Enqueue, beginEnqueue, trySend. by rewrite Hv, Hc, bool_decide_eq_true_2 by done. Qed.

(** ** All interleavings of producers, the consumer and Close

    A producer in [Enqueue] is between its two critical sections once it has
    seen the queue open: [inflight] holds the commands of those producers.
    [accepted] and [drained] record what sends and receives succeeded. *)

Record qcfg : Type := mkQcfg {
  qc_queue : ControlQueue;
  qc_inflight : list ControlCommand;
  qc_accepted : list ControlCommand;
  qc_drained : list ControlCommand;
  qc_panicked : bool;
}.

Inductive qstep : qcfg -> qcfg -> Prop :=
  | q_check c cmd :
      beginEnqueue cmd (qc_queue c) = Ok () ->
      qstep c (mkQcfg (qc_queue c) (cmd :: qc_inflight c) (qc_accepted c) (qc_drained c) (qc_panicked c))
  | q_send c cmd l1 l2 :
      qc_inflight c = l1 ++ cmd :: l2 ->
      qstep c
        match trySend cmd (qc_queue c) with
        | (Return (Ok _), q') => mkQcfg q' (l1 ++ l2) (qc_accepted c ++ [cmd]) (qc_drained c) (qc_panicked c)
        | (Return (Err _), q') => mkQcfg q' (l1 ++ l2) (qc_accepted c) (qc_drained c) (qc_panicked c)
        | (Panic _, q') => mkQcfg q' (l1 ++ l2) (qc_accepted c) (qc_drained c) true
        end
  | q_recv c cmd q' :
      tryRecv (qc_queue c) = Some (cmd, q') ->
      qstep c (mkQcfg q' (qc_inflight c) (qc_accepted c) (qc_drained c ++ [cmd]) (qc_panicked c))
  | q_close c :
      qstep c (mkQcfg (Close (qc_queue c)) (qc_inflight c) (qc_accepted c) (qc_drained c) (qc_panicked c)).

Definition qinit (buffer : Z) : qcfg := mkQcfg (NewControlQueue buffer) [] [] [] false.

Definition qinv (buffer : Z) (c : qcfg) : Prop :=
  qc_drained c ++ ch (qc_queue c) = qc_accepted c /\
  ch_cap (qc_queue c) = ch_cap (NewControlQueue buffer) /\
  (Z.of_nat (length (ch (qc_queue c))) <= ch_cap (qc_queue c))%Z /\
  Forall (fun cmd => validate cmd = Ok ()) (qc_accepted c ++ qc_inflight c) /\
  (qc_panicked c = true -> ch_closed (qc_queue c) = true).

Lemma qinv_init buffer : qinv buffer (qinit buffer).
Proof.
  unfold qinv, qinit. simpl. split_and!; try done.
  unfold NewControlQueue. simpl. case_bool_decide; lia.
Qed.

Lemma trySend_cases cmd q :
  (trySend cmd q = (Panic "send on closed channel", q) /\ ch_closed q = true) \/
  (trySend cmd q = (Return (Err ErrQueueFull), q) /\ ch_closed q = false /\ (ch_cap q <= Z.of_nat (length (ch q)))%Z) \/
  (trySend cmd q = (Return (Ok ()), mkControlQueue (ch q ++ [cmd]) (ch_cap q) (ch_closed q)) /\
   ch_closed q = false /\ (Z.of_nat (length (ch q)) < ch_cap q)%Z).
Proof.
  unfold trySend. destruct (ch_closed q); [by left|right].
  case_bool_decide; [right|left]; split_and!; (done || lia).
Qed.

Lemma qinv_step buffer c c' : qinv buffer c -> qstep c c' -> qinv buffer c'.
Proof.
  unfold qinv. intros (Hf & Hcap & Hlen & Hv & Hp) Hs.
  destruct Hs as [c cmd Hcmd|c cmd l1 l2 Hin|c cmd q' Hr|c]; simpl.
  - unfold beginEnqueue in Hcmd. destruct (validate cmd) as [[]|] eqn:E; [|done].
    split_and!; try done. rewrite Forall_app in *. rewrite Forall_cons. naive_solver.
  - rewrite Hin in Hv. rewrite !Forall_app, !Forall_cons in Hv. destruct Hv as (Ha & H1 & Hcmd & H2).
    destruct (trySend_cases cmd (qc_queue c)) as [(-> & ?)|[(-> & ? & ?)|(-> & ? & ?)]]; simpl;
      split_and!; rewrite ?Forall_app, ?Forall_singleton; try done.
    + by rewrite <- Hf, app_assoc.
    + rewrite length_app. simpl. lia.
  - unfold tryRecv in Hr. destruct (ch (qc_queue c)) as [|x rest] eqn:Hch; simplify_eq/=.
    split_and!; try done; [by rewrite <- Hf, <- app_assoc|lia].
  - unfold Close. destruct (ch_closed (qc_queue c)) eqn:Hcl; simpl; split_and!; rewrite ?Hcl; done.
Qed.

Lemma qinv_reachable buffer c : rtc qstep (qinit buffer) c -> qinv buffer c.
Proof. apply rtc_invariant; [apply qinv_init|]. intros a b. apply qinv_step. Qed.

(** The window between the two critical sections of [Enqueue] is real.
    Whatever the capacity, a producer that saw the queue open can lose the race
    with [Close] and panic with a send on a closed channel; a panic is
    impossible as long as the queue is open. *)
Theorem enqueue_close_race buffer :
  (exists c, rtc qstep (qinit buffer) c /\ qc_panicked c = true) /\
  (forall c, rtc qstep (qinit buffer) c -> ch_closed (qc_queue c) = false -> qc_panicked c = false).
Proof.
  split.
  - set (cmd := mkControlCommand ControlSteer "x").
    eexists. split.
    + eapply rtc_l; [by apply (q_check _ cmd)|].
      eapply rtc_l; [apply q_close|].
      eapply rtc_l; [by apply (q_send _ cmd [] [])|]. apply rtc_refl.
    + done.
  - intros c Hr Ho. assert (qinv buffer c) as (_ & _ & _ & _ & Hp) by (by eapply qinv_reachable).
    destruct (qc_panicked c); [|done]. rewrite Hp in Ho by done. done.
Qed.
