(* ===== verification/Agent.v ===== *)
(** * Agent: the state owner of one session (internal/agent/agent.go)

    The Go methods take [a.mu] for one or several critical sections and publish
    events between them.  Each critical section is a function on [Agent]
    (suffix [_locked], or the method itself when it is one section), and a
    method is the sequence of its sections and publications in the monad [AM],
    whose state is the agent and the rest of the world [W].

    A subscribed handler of type [H] runs through [call], which may change the
    bus (a handler can unsubscribe itself) and the world, never the agent's own
    fields: those are private to the package and no subscriber writes them.
    [safeCallSubscriber] turns a handler's panic into a normal return, so
    [call] is total.  The driver is a record of operations on the same state;
    the context argument it is handed is the driver's concern and left out. *)

From S2P Require Import Prelude AiTypes AgentTypes EventBus ControlQueue.

Local Open Scope string_scope.
Local Open Scope list_scope.

(** agent.go: [validTransitions]. *)
Definition validTransitions (from : AgentState) : list AgentState :=
  match from with
  | StateIdle => [StateStreaming; StateExited]
  | StateStreaming => [StateToolExecution; StateWaitingFollowUp; StateIdle; StateExited]
  | StateToolExecution => [StateStreaming; StateIdle; StateExited]
  | StateWaitingFollowUp => [StateStreaming; StateIdle; StateExited]
  | StateExited => []
  end.

Record Agent (H : Type) : Type := mkAgent {
  session : option Session;
  running : bool;
  state : AgentState;
  bus : eventBus H;
  control : ControlQueue;
}.
Arguments mkAgent {H} _ _ _ _ _.
Arguments session {H} _.
Arguments running {H} _.
Arguments state {H} _.
Arguments bus {H} _.
Arguments control {H} _.

Section Agent.
Context {H W : Type}.

Definition set_session (s : option Session) (a : Agent H) : Agent H :=
  mkAgent s (running a) (state a) (bus a) (control a).
Definition set_running (r : bool) (a : Agent H) : Agent H :=
  mkAgent (session a) r (state a) (bus a) (control a).
Definition set_state (st : AgentState) (a : Agent H) : Agent H :=
  mkAgent (session a) (running a) st (bus a) (control a).
Definition set_bus (b : eventBus H) (a : Agent H) : Agent H :=
  mkAgent (session a) (running a) (state a) b (control a).
Definition set_control (q : ControlQueue) (a : Agent H) : Agent H :=
  mkAgent (session a) (running a) (state a) (bus a) q.

Definition addHistory (st : AgentState) (s : Session) : Session :=
  mkSession (ss_ID s) (ss_DriverSessionID s) (ConversationLog s) (StateHistory s ++ [st]) (Metrics s).
Definition set_Metrics (m : SessionMetrics) (s : Session) : Session :=
  mkSession (ss_ID s) (ss_DriverSessionID s) (ConversationLog s) (StateHistory s) m.

(** ** Critical sections *)

(** [New], before the driver is subscribed to and bound. *)
Definition New : Agent H := mkAgent None false StateIdle newEventBus (NewControlQueue 64).

Definition ConversationLen (a : Agent H) : Z :=
  match session a with None => 0 | Some s => Z.of_nat (length (ConversationLog s)) end.

Definition SetSession (s : option Session) (a : Agent H) : Agent H :=
  match s with
  | None => set_session None a
  | Some cp =>
      set_session (Some (if bool_decide (StateHistory cp = []) then addHistory (state a) cp else cp)) a
  end.

(** The locked part of [Transition]: [Ok true] goes on to emit the state
    change, [Ok false] is the early nil return. *)
Definition Transition_locked (to : AgentState) (a : Agent H) : res error bool * Agent H :=
  let from := state a in
  if bool_decide (from = StateExited) then (Err StoppedError, a)
  else if bool_decide (from = to) then (Ok false, a)
  else if negb (bool_decide (to ∈ validTransitions from)) then (Err (InvalidStateError from to), a)
  else (Ok true, set_session (addHistory to <$> session a) (set_state to a)).

Definition Start_locked (s : option Session) (a : Agent H) : res error () * Agent H :=
  if bool_decide (state a = StateExited) then (Err StoppedError, a)
  else if running a then (Err (BusyError (Some (state a))), a)
  else
    (Ok (), match s with Some cp => set_session (Some cp) (set_running true a) | None => set_running true a end).

(** The locked part of [Continue]; it hands on the session it read. *)
Definition Continue_locked (a : Agent H) : res error Session * Agent H :=
  if bool_decide (state a = StateExited) then (Err StoppedError, a)
  else if running a then (Err (BusyError (Some (state a))), a)
  else
    match session a with
    | None => (Err (InvalidStateError (state a) (state a)), a)
    | Some sess => (Ok sess, set_running true a)
    end.

(** The locked part of [Stop]: [true] when the agent had exited already. *)
Definition Stop_locked (a : Agent H) : bool * Agent H :=
  if bool_decide (state a = StateExited) then (true, a) else (false, set_running false a).

Definition onDriverIdle (a : Agent H) : Agent H := set_running false a.

Definition AppendConversation (msg : AgentMessage) (a : Agent H) : res error () * Agent H :=
  match session a with
  | None => (Err (InvalidStateError (state a) (state a)), a)
  | Some s =>
      let m := Metrics s in
      (Ok (), set_session (Some (mkSession (ss_ID s) (ss_DriverSessionID s) (ConversationLog s ++ [msg])
        (StateHistory s)
        (mkSessionMetrics (TurnsStarted m) (TurnsCompleted m) (u64 (MessagesAppended m + 1))
           (ToolCallsStarted m) (ToolCallsFinished m) (Errors m)))) a)
  end.

Definition mapMetrics (f : SessionMetrics -> SessionMetrics) (a : Agent H) : Agent H :=
  match session a with
  | None => a
  | Some s => set_session (Some (set_Metrics (f (Metrics s)) s)) a
  end.

Definition MarkTurnStarted : Agent H -> Agent H := mapMetrics (fun m =>
  mkSessionMetrics (u64 (TurnsStarted m + 1)) (TurnsCompleted m) (MessagesAppended m)
    (ToolCallsStarted m) (ToolCallsFinished m) (Errors m)).
Definition MarkTurnCompleted : Agent H -> Agent H := mapMetrics (fun m =>
  mkSessionMetrics (TurnsStarted m) (u64 (TurnsCompleted m + 1)) (MessagesAppended m)
    (ToolCallsStarted m) (ToolCallsFinished m) (Errors m)).
Definition RecordToolStarted : Agent H -> Agent H := mapMetrics (fun m =>
  mkSessionMetrics (TurnsStarted m) (TurnsCompleted m) (MessagesAppended m)
    (u64 (ToolCallsStarted m + 1)) (ToolCallsFinished m) (Errors m)).
Definition RecordToolFinished : Agent H -> Agent H := mapMetrics (fun m =>
  mkSessionMetrics (TurnsStarted m) (TurnsCompleted m) (MessagesAppended m)
    (ToolCallsStarted m) (u64 (ToolCallsFinished m + 1)) (Errors m)).
Definition RecordError : Agent H -> Agent H := mapMetrics (fun m =>
  mkSessionMetrics (TurnsStarted m) (TurnsCompleted m) (MessagesAppended m)
    (ToolCallsStarted m) (ToolCallsFinished m) (u64 (Errors m + 1))).

(** ** Methods *)

Notation AM := (M (Agent H * W)).

(** A critical section run as a step of a method. *)
Definition locked {A} (f : Agent H -> A * Agent H) : AM A :=
  fun '(a, w) => let '(r, a') := f a in (r, (a', w)).
Definition locked_ (f : Agent H -> Agent H) : AM () := fun '(a, w) => ((), (f a, w)).

Context (iter : list (Z * H) -> list (Z * H)).
Context (call : H -> AgentEvent -> eventBus H * W -> eventBus H * W).

(** One call of [safeCallSubscriber] in [publish]. *)
Definition deliver (evt : AgentEvent) (h : Z * H) : AM () :=
  fun '(a, w) => let '(b, w') := call h.2 evt (bus a, w) in ((), (set_bus b a, w')).

Definition publish (evt : AgentEvent) : AM () :=
  hs ← gets (fun '(a, _) => handlers iter (bus a));
  for_range hs (deliver evt).

(** The event [emit] publishes: the unset fields filled from the agent. *)
Definition fillEvent (a : Agent H) (evt : AgentEvent) : AgentEvent :=
  let evt1 :=
    match session a with
    | None => evt
    | Some s =>
        with_ids (if bool_decide (ev_SessionID evt = "") then ss_ID s else ev_SessionID evt)
          (if bool_decide (ev_DriverSessionID evt = "") then ss_DriverSessionID s else ev_DriverSessionID evt) evt
    end in
  match ev_State evt1 with None => with_State (state a) evt1 | Some _ => evt1 end.

Definition emit (evt : AgentEvent) : AM () :=
  evt' ← gets (fun '(a, _) => fillEvent a evt);
  publish evt'.

Definition Subscribe (fn : option H) : AM unsub :=
  match fn with
  | None => mret UnsubNoop
  | Some h => locked (fun a => let '((_, u), b) := subscribe (Some h) (bus a) in (u, set_bus b a))
  end.

Definition Transition (to : AgentState) : AM (res error ()) :=
  r ← locked (Transition_locked to);
  match r with
  | Err e => mret (Err e)
  | Ok false => mret (Ok ())
  | Ok true => emit (with_State to (event EventStateChange));; mret (Ok ())
  end.

(** driver.go: the interface [AgentDriver], less [Subscribe]. *)
Record AgentDriver : Type := mkAgentDriver {
  drv_Start : option Session -> string -> AM (outcome error ());
  drv_Resume : Session -> AM (outcome error ());
  drv_Stop : AM (outcome error ());
}.

Context (driver : option AgentDriver).

Definition Start (s : option Session) (prompt : string) : AM (outcome error ()) :=
  r ← locked (Start_locked s);
  match r with
  | Err e => mret (Return (Err e))
  | Ok _ =>
      t ← Transition StateStreaming;
      match t with
      | Err e => locked_ (set_running false);; mret (Return (Err e))
      | Ok _ =>
          emit (event EventSessionStarted);;
          match driver with
          | None => mret (Return (Ok ()))
          | Some d =>
              sess ← gets (fun '(a, _) => session a);
              dr ← drv_Start d sess prompt;
              match dr with
              | Return (Err e) =>
                  locked_ RecordError;;
                  locked_ (set_running false);;
                  Transition StateIdle;;
                  mret (Return (Err e))
              | _ => mret dr
              end
          end
      end
  end.

Definition Prompt (prompt : string) : AM (outcome error ()) :=
  sess ← gets (fun '(a, _) => session a);
  Start sess prompt.

Definition Continue : AM (outcome error ()) :=
  r ← locked Continue_locked;
  match r with
  | Err e => mret (Return (Err e))
  | Ok sess =>
      match driver with
      | None => locked_ onDriverIdle;; mret (Return (Ok ()))
      | Some d =>
          dr ← drv_Resume d sess;
          match dr with
          | Return (Err e) => locked_ RecordError;; locked_ onDriverIdle;; mret (Return (Err e))
          | _ => mret dr
          end
      end
  end.

(** The end of [Stop], from the transition on. *)
Definition Stop_finish : AM (outcome error ()) :=
  t ← Transition StateExited;
  match t with
  | Err e => mret (Return (Err e))
  | Ok _ =>
      emit (event EventSessionEnded);;
      locked_ (fun a => set_control (Close (control a)) a);;
      locked_ (fun a => set_bus (bus_close (bus a)) a);;
      mret (Return (Ok ()))
  end.

Definition Stop : AM (outcome error ()) :=
  exited ← locked Stop_locked;
  if (exited : bool) then mret (Return (Ok ()))
  else
    match driver with
    | None => Stop_finish
    | Some d =>
        dr ← drv_Stop d;
        match dr with
        | Return (Ok _) => Stop_finish
        | _ => mret dr
        end
    end.

(** [Steer], [FollowUp] and [Abort]: enqueue, then announce. *)
Definition enqueueAndEmit (enq : ControlQueue -> outcome error () * ControlQueue) (evt : AgentEvent)
  : AM (outcome error ()) :=
  r ← locked (fun a => let '(r, q) := enq (control a) in (r, set_control q a));
  match r with
  | Return (Ok _) => emit evt;; mret (Return (Ok ()))
  | _ => mret r
  end.

Definition Steer (message : string) : AM (outcome error ()) :=
  enqueueAndEmit (EnqueueSteer message) (with_ControlMessage message (event EventSteeringApplied)).
Definition FollowUp (message : string) : AM (outcome error ()) :=
  enqueueAndEmit (EnqueueFollowUp message) (with_ControlMessage message (event EventFollowUpEnqueued)).
Definition Abort (reason : string) : AM (outcome error ()) :=
  enqueueAndEmit (EnqueueAbort reason) (with_ControlMessage reason (event EventAborted)).
End Agent.

Arguments AgentDriver : clear implicits.

Notation AM H W := (M (Agent H * W)).
