(* ===== verification/AgentConc.v ===== *)
(** * AgentConc: every interleaving of the agent's critical sections

    Goroutines calling the methods of one [Agent] interleave at the critical
    sections of [a.mu] (and at those of the bus and of the control queue).  A
    run is a list of such sections, in any order and with any arguments: an
    over-approximation of every schedule of every set of callers, so what
    holds of all runs holds of all programs that use the agent.

    [owners] counts the executions that were started (a [Start] or [Continue]
    whose first section succeeded) and have not reported back with the section
    that clears [running]; [snapshots] are the sessions that [Prompt] calls
    have read and not yet passed to [Start]. *)

From S2P Require Import Prelude AiTypes AgentTypes EventBus ControlQueue Agent.

Local Open Scope list_scope.

Section AgentConc.
Context {H : Type}.

Record cfg : Type := mkCfg {
  agent : Agent H;
  owners : nat;
  snapshots : list (option Session);
}.

Inductive region : Type :=
  | RPromptRead
  | RPromptStart (i : nat)
  | RStart (s : option Session)
  | RContinue
  | ROwnerDone
  | RStop
  | RSetSession (s : option Session)
  | RTransition (to : AgentState)
  | RAppend (m : AgentMessage)
  | RMarkTurnStarted | RMarkTurnCompleted | RRecordToolStarted | RRecordToolFinished | RRecordError
  | RSubscribe (fn : option H)
  | RUnsubscribe (u : unsub)
  | RBusClose
  | REnqueue (cmd : ControlCommand)
  | RDrain
  | RQueueClose.

(** A section whose first result is a success makes its caller an owner. *)
Definition begin {A} (r : res error A * Agent H) (c : cfg) : cfg :=
  mkCfg r.2 (if is_Ok r.1 then S (owners c) else owners c) (snapshots c).

Definition on_agent (f : Agent H -> Agent H) (c : cfg) : cfg := mkCfg (f (agent c)) (owners c) (snapshots c).

Definition rstep (r : region) (c : cfg) : cfg :=
  let a := agent c in
  match r with
  | RPromptRead => mkCfg a (owners c) (snapshots c ++ [session a])
  | RPromptStart i =>
      match snapshots c !! i with
      | Some s => begin (Start_locked s a) (mkCfg a (owners c) (delete i (snapshots c)))
      | None => c
      end
  | RStart s => begin (Start_locked s a) c
  | RContinue => begin (Continue_locked a) c
  | ROwnerDone =>
      match owners c with O => c | S n => mkCfg (onDriverIdle a) n (snapshots c) end
  | RStop => on_agent (fun a => (Stop_locked a).2) c
  | RSetSession s => on_agent (SetSession s) c
  | RTransition to => on_agent (fun a => (Transition_locked to a).2) c
  | RAppend m => on_agent (fun a => (AppendConversation m a).2) c
  | RMarkTurnStarted => on_agent MarkTurnStarted c
  | RMarkTurnCompleted => on_agent MarkTurnCompleted c
  | RRecordToolStarted => on_agent RecordToolStarted c
  | RRecordToolFinished => on_agent RecordToolFinished c
  | RRecordError => on_agent RecordError c
  | RSubscribe fn => on_agent (fun a => set_bus (subscribe fn (bus a)).2 a) c
  | RUnsubscribe u => on_agent (fun a => set_bus (unsubscribe u (bus a)) a) c
  | RBusClose => on_agent (fun a => set_bus (bus_close (bus a)) a) c
  | REnqueue cmd => on_agent (fun a => set_control (Enqueue cmd (control a)).2 a) c
  | RDrain => on_agent (fun a => set_control (Drain (control a)).2 a) c
  | RQueueClose => on_agent (fun a => set_control (Close (control a)) a) c
  end.

Definition run (rs : list region) (c : cfg) : cfg := foldl (fun c r => rstep r c) c rs.

Definition init : cfg := mkCfg New 0 [].

(** Sections that install a session in place of the agent's. *)
Definition replaces (r : region) : bool :=
  match r with
  | RPromptStart _ | RSetSession _ => true
  | RStart s => match s with Some _ => true | None => false end
  | _ => false
  end.

Definition is_stop (r : region) : bool := match r with RStop => true | _ => false end.

(** ** One section *)

(** A walk of the state machine. *)
Fixpoint valid_path (from : AgentState) (tr : list AgentState) : Prop :=
  match tr with
  | [] => True
  | st :: tr' => st ∈ validTransitions from /\ valid_path st tr'
  end.

Lemma valid_path_app from tr1 tr2 :
  valid_path from tr1 -> valid_path (List.last tr1 from) tr2 -> valid_path from (tr1 ++ tr2).
Proof.
  revert from. induction tr1 as [|st tr1 IH]; intros from H1 H2; [done|].
  destruct H1 as [Hin H1]. split; [done|]. apply IH; [done|]. by rewrite <- last_cons_default with (d := from).
Qed.

Lemma last_app_default (tr1 tr2 : list AgentState) from :
  List.last (tr1 ++ tr2) from = List.last tr2 (List.last tr1 from).
Proof.
  revert from. induction tr1 as [|st tr1 IH]; intros from; [done|].
  rewrite <- app_comm_cons, !last_cons_default. apply IH.
Qed.

(** Nothing leaves [StateExited]. *)
Lemma valid_path_exited tr : valid_path StateExited tr -> tr = [].
Proof. destruct tr as [|st tr]; [done|]. intros [Hin _]. by apply not_elem_of_nil in Hin. Qed.

(** What a section that does not replace the session does to the state and to
    the session: it walks [tr], appends [msgs] and moves no other history. *)
Definition extends (a a' : Agent H) (tr : list AgentState) (msgs : list AgentMessage) : Prop :=
  valid_path (state a) tr /\ state a' = List.last tr (state a) /\
  match session a, session a' with
  | Some s, Some s' =>
      ss_ID s' = ss_ID s /\ ss_DriverSessionID s' = ss_DriverSessionID s /\
      StateHistory s' = StateHistory s ++ tr /\
      ConversationLog s' = ConversationLog s ++ msgs /\
      u64 (MessagesAppended (Metrics s')) = u64 (MessagesAppended (Metrics s) + Z.of_nat (length msgs))
  | None, None => msgs = []
  | _, _ => False
  end.

Lemma extends_refl a a' :
  state a' = state a -> session a' = session a -> extends a a' [] [].
Proof.
  intros Hst Hss. unfold extends. rewrite Hst, Hss. split; [done|]. split; [done|].
  destruct (session a) as [s|]; [|done]. by rewrite !app_nil_r, Z.add_0_r.
Qed.

Lemma extends_trans a1 a2 a3 tr1 tr2 m1 m2 :
  extends a1 a2 tr1 m1 -> extends a2 a3 tr2 m2 -> extends a1 a3 (tr1 ++ tr2) (m1 ++ m2).
Proof.
  intros (P1 & S1 & E1) (P2 & S2 & E2). rewrite S1 in P2, S2.
  split; [by apply valid_path_app|]. split; [by rewrite S2, last_app_default|].
  destruct (session a1), (session a2), (session a3); try done; [|by subst].
  destruct E1 as (I1 & D1 & H1 & L1 & M1), E2 as (I2 & D2 & H2 & L2 & M2).
  rewrite I2, D2, H2, L2, I1, D1, H1, L1, <- !app_assoc, M2, length_app, Nat2Z.inj_add. split_and!; try done.
  unfold u64 in *. rewrite Zplus_mod, M1, <- Zplus_mod. f_equal. lia.
Qed.

Lemma mapMetrics_extends f a :
  (forall m, MessagesAppended (f m) = MessagesAppended m) -> extends a (mapMetrics f a) [] [].
Proof.
  intros Hf. unfold mapMetrics, extends. destruct (session a) as [s|] eqn:Hs; simpl; rewrite ?Hs; [|done].
  split; [done|]. split; [done|]. by rewrite !app_nil_r, Z.add_0_r, Hf.
Qed.

Lemma Transition_extends to a :
  exists tr, extends a (Transition_locked to a).2 tr [].
Proof.
  unfold Transition_locked. repeat case_bool_decide; simpl; try (exists []; by apply extends_refl).
  exists [to]. unfold extends. simpl. split; [done|]. split; [done|].
  destruct (session a) as [s|]; [|done]. simpl. by rewrite app_nil_r, Z.add_0_r.
Qed.

Lemma Append_extends m a : exists msgs, extends a (AppendConversation m a).2 [] msgs.
Proof.
  unfold AppendConversation, extends. destruct (session a) as [s|] eqn:Hs; simpl; rewrite ?Hs; [|by exists []].
  exists [m]. rewrite app_nil_r. split_and!; try done. simpl. unfold u64. by rewrite Zmod_mod.
Qed.

Lemma rstep_extends r c :
  replaces r = false -> exists tr msgs, extends (agent c) (agent (rstep r c)) tr msgs.
Proof.
  assert (forall a', state a' = state (agent c) -> session a' = session (agent c) ->
    exists tr msgs, extends (agent c) a' tr msgs) as Hrefl.
  { intros a' Hst Hss. exists [], []. by apply extends_refl. }
  intros Hr. destruct r as [|i|s| | | |s|to|m| | | | | |fn|u| |cmd| |]; try done; simpl; try (by apply Hrefl).
  - destruct s; [done|]. unfold Start_locked. case_bool_decide; simpl; [by apply Hrefl|].
    destruct (running (agent c)); by apply Hrefl.
  - unfold Continue_locked. case_bool_decide; simpl; [by apply Hrefl|].
    destruct (running (agent c)); [by apply Hrefl|]. destruct (session (agent c)) eqn:Hss; apply Hrefl; by rewrite ?Hss.
  - destruct (owners c); by apply Hrefl.
  - unfold Stop_locked. case_bool_decide; by apply Hrefl.
  - destruct (Transition_extends to (agent c)) as [tr ?]. eauto.
  - destruct (Append_extends m (agent c)) as [msgs ?]. eauto.
  - exists [], []. by apply mapMetrics_extends.
  - exists [], []. by apply mapMetrics_extends.
  - exists [], []. by apply mapMetrics_extends.
  - exists [], []. by apply mapMetrics_extends.
  - exists [], []. by apply mapMetrics_extends.
Qed.

(** ** Theorems over all runs *)

(** C9: the session record is faithful under every interleaving.  As long as
    no caller installs another session, the entries added to [StateHistory]
    are exactly the walk of the state machine that leads from the old state to
    the current one (every step allowed by [validTransitions]); the
    conversation log only grows, keeping its prefix; and [MessagesAppended]
    counts its growth modulo 2^64. *)
Theorem session_record_faithful rs c :
  Forall (fun r => replaces r = false) rs ->
  exists tr msgs, extends (agent c) (agent (run rs c)) tr msgs.
Proof.
  revert c. induction rs as [|r rs IH]; intros c Hrs.
  - exists [], []. by apply extends_refl.
  - apply Forall_cons in Hrs as [Hr Hrs]. destruct (rstep_extends r c Hr) as (tr1 & m1 & E1).
    destruct (IH (rstep r c) Hrs) as (tr2 & m2 & E2).
    exists (tr1 ++ tr2), (m1 ++ m2). by eapply extends_trans.
Qed.

Lemma rstep_exited r c : state (agent c) = StateExited -> state (agent (rstep r c)) = StateExited.
Proof.
  intros Hex. destruct (replaces r) eqn:Hr.
  - destruct r as [|i|s| | | |s|to|m| | | | | |fn|u| |cmd| |]; try done; simpl.
    + destruct (snapshots c !! i); [|done]. unfold Start_locked. by rewrite bool_decide_eq_true_2.
    + unfold Start_locked. by rewrite bool_decide_eq_true_2.
    + unfold SetSession. by destruct s.
  - destruct (rstep_extends r c Hr) as (tr & msgs & Hp & Hst & _).
    rewrite Hex in Hp, Hst. apply valid_path_exited in Hp. by subst.
Qed.

Lemma run_exited rs c : state (agent c) = StateExited -> state (agent (run rs c)) = StateExited.
Proof. revert c. induction rs as [|r rs IH]; intros c Hex; [done|]. by apply IH, rstep_exited. Qed.

(** Exit is final.  Once an agent has exited, no sequence of operations,
    session replacements included, brings it back to another state, and no
    [Start] or [Continue] ever becomes an owner again. *)
Theorem exited_absorbing rs c :
  state (agent c) = StateExited ->
  state (agent (run rs c)) = StateExited /\ (owners (run rs c) <= owners c)%nat.
Proof.
  intros Hex. split; [by apply run_exited|].
  revert c Hex. induction rs as [|r rs IH]; intros c Hex; [done|].
  etransitivity; [apply IH; by apply rstep_exited|].
  assert (forall s, (Start_locked s (agent c)).1 = Err StoppedError) as Hs.
  { intros s. unfold Start_locked. by rewrite bool_decide_eq_true_2. }
  assert ((Continue_locked (agent c)).1 = Err StoppedError) as Hc.
  { unfold Continue_locked. by rewrite bool_decide_eq_true_2. }
  destruct r as [|i|s| | | |s|to|m| | | | | |fn|u| |cmd| |]; simpl; try done.
  - destruct (snapshots c !! i) as [s|]; simpl; [|done]. by rewrite Hs.
  - by rewrite Hs.
  - by rewrite Hc.
  - destruct (owners c) as [|n] eqn:Ho; simpl; lia.
Qed.

(** ** Mutual exclusion of executions *)

Definition owner_inv (c : cfg) : Prop := owners c = if running (agent c) then 1%nat else 0%nat.

Lemma begin_Start_inv s c l : owner_inv c -> owner_inv (begin (Start_locked s (agent c)) (mkCfg (agent c) (owners c) l)).
Proof.
  unfold owner_inv. intros Hc. unfold Start_locked. case_bool_decide; [done|].
  destruct (running (agent c)) eqn:Hr; simpl; [by rewrite Hr|]. destruct s; simpl; by rewrite Hc.
Qed.

Lemma rstep_owner_inv r c : is_stop r = false -> owner_inv c -> owner_inv (rstep r c).
Proof.
  intros Hns Hc. destruct r as [|i|s| | | |s|to|m| | | | | |fn|u| |cmd| |]; try done; simpl.
  - destruct (snapshots c !! i); [|done]. by apply begin_Start_inv.
  - apply (begin_Start_inv s c (snapshots c) Hc).
  - unfold owner_inv in *. unfold Continue_locked. case_bool_decide; [done|].
    destruct (running (agent c)) eqn:Hr; simpl; [by rewrite Hr|].
    destruct (session (agent c)); simpl; [by rewrite Hc|]. by rewrite Hr.
  - unfold owner_inv in *. destruct (owners c) as [|n] eqn:Ho; simpl; [by rewrite Ho|].
    destruct (running (agent c)); lia.
  - unfold SetSession. by destruct s.
  - unfold owner_inv, on_agent, Transition_locked in *. simpl. by repeat case_bool_decide.
  - unfold owner_inv, on_agent, AppendConversation in *. simpl. by destruct (session (agent c)).
  - unfold owner_inv, on_agent, MarkTurnStarted, mapMetrics in *. simpl. by destruct (session (agent c)).
  - unfold owner_inv, on_agent, MarkTurnCompleted, mapMetrics in *. simpl. by destruct (session (agent c)).
  - unfold owner_inv, on_agent, RecordToolStarted, mapMetrics in *. simpl. by destruct (session (agent c)).
  - unfold owner_inv, on_agent, RecordToolFinished, mapMetrics in *. simpl. by destruct (session (agent c)).
  - unfold owner_inv, on_agent, RecordError, mapMetrics in *. simpl. by destruct (session (agent c)).
Qed.

(** C17: at most one execution owns the agent.  In every run that has not
    begun a [Stop], the number of executions between a successful
    [Start]/[Continue] and the section that reports it idle is 1 when
    [running] is set and 0 otherwise. *)
Theorem turn_exclusion rs :
  Forall (fun r => is_stop r = false) rs ->
  owners (run rs init) = if running (agent (run rs init)) then 1%nat else 0%nat.
Proof.
  intros Hrs. change (owner_inv (run rs init)).
  assert (owner_inv init) as Hinit by done. revert Hinit. generalize init.
  induction Hrs as [|r rs Hr Hrs IH]; intros c Hc; [done|]. by apply IH, rstep_owner_inv.
Qed.

End AgentConc.

Arguments cfg : clear implicits.
Arguments region : clear implicits.

(** ** Races the locking leaves open *)

Module Races.
Definition sess (log : list AgentMessage) (h : list AgentState) : Session :=
  mkSession "s" "s" log h zeroMetrics.
Definition hello : AgentMessage := mkAgentMessage 1 (MUser (mkUserMessage [] 1)).
Definition setup : list (region unit) := [RSetSession (Some (sess [] [StateIdle]))].

(** [Stop] clears [running] before the driver is stopped and the state is
    [StateExited]; a [Start] that runs in between succeeds, and two executions
    own the agent at once. *)
Theorem stop_start_race :
  exists rs : list (region unit),
    owners (run rs init) = 2%nat /\ running (agent (run rs init)) = true.
Proof.
  exists (setup ++ [RStart None; RTransition StateStreaming; RStop; RStart None]). by vm_compute.
Qed.

(** [Prompt] reads the session in one critical section and installs the
    copy in another.  Two overlapping calls lose a whole turn: the second one
    waits until the first turn is over and then puts back the session it read
    before it, so a logged message disappears; and when it read the session
    while the first turn was streaming, [StateHistory] is no longer a walk of
    the state machine. *)
Theorem prompt_lost_update :
  exists rs1 rs2 : list (region unit),
    (exists s, session (agent (run rs1 init)) = Some s /\ ConversationLog s = [hello]) /\
    (exists s, session (agent (run (rs1 ++ rs2) init)) = Some s /\ ConversationLog s = [] /\
       StateHistory s = [StateIdle; StateStreaming; StateStreaming]) /\
    Forall (fun r => match r with RSetSession _ | RStart (Some _) => false | _ => true end = true) rs2.
Proof.
  exists (setup ++ [RPromptRead; RPromptStart 0; RTransition StateStreaming; RPromptRead;
            RAppend hello; RTransition StateIdle; ROwnerDone]),
         [RPromptStart 0; RTransition StateStreaming].
  split; [eexists; split; vm_compute; reflexivity|].
  split; [eexists; split_and!; vm_compute; reflexivity|]. by repeat constructor.
Qed.

Lemma session_record_faithful_witness :
  let c := run setup (init (H := unit)) in
  exists tr msgs, extends (agent c) (agent (run [RStart None; RTransition StateStreaming; RAppend hello] c)) tr msgs.
Proof. apply session_record_faithful. repeat constructor. Defined.

Lemma exited_absorbing_witness :
  let c := run [RTransition StateExited] (init (H := unit)) in
  state (agent (run [RStart None; RTransition StateIdle] c)) = StateExited /\
  (owners (run [RStart None; RTransition StateIdle] c) <= owners c)%nat.
Proof. apply exited_absorbing. reflexivity. Defined.

Lemma turn_exclusion_witness :
  let rs : list (region unit) := setup ++ [RStart None; RContinue; RTransition StateStreaming] in
  owners (run rs init) = if running (agent (run rs init)) then 1%nat else 0%nat.
Proof. apply turn_exclusion. repeat constructor. Defined.
End Races.
