(* ===== verification/AgentProps.v ===== *)
(** * AgentProps: the agent's methods, one call at a time

    What each method of [Agent] returns and leaves behind, for any handlers,
    any iteration order of the subscriber map and any driver that keeps to the
    interface law [DriverLaw]; and what a sequence of method calls does to the
    session record. *)

From S2P Require Import Prelude AiTypes AgentTypes EventBus ControlQueue Agent AgentConc.

Local Open Scope string_scope.
Local Open Scope list_scope.

(** The fields a handler cannot reach. *)
Definition core {H} (a : Agent H) : option Session * bool * AgentState * ControlQueue :=
  (session a, running a, state a, control a).

(** The law a driver promises to the agent: [Start], [Resume] and [Stop] hand
    the work to the driver's own goroutine and leave the agent's fields alone
    (they may publish, so the bus and the world can change). *)
Class DriverLaw {H W} (d : AgentDriver H W) : Prop := {
  drv_Start_core sess p s : core (drv_Start d sess p s).2.1 = core s.1;
  drv_Resume_core sess s : core (drv_Resume d sess s).2.1 = core s.1;
  drv_Stop_core s : core (drv_Stop d s).2.1 = core s.1;
}.

Section Methods.
Context {H W : Type}.
Context (iter : list (Z * H) -> list (Z * H)).
Context (call : H -> AgentEvent -> eventBus H * W -> eventBus H * W).

Notation emit := (emit iter call).
Notation Transition := (Transition iter call).

(** ** Publication leaves the agent's fields alone *)

Lemma deliver_core evt h s : core (deliver call evt h s).2.1 = core s.1.
Proof. destruct s as [a w]. unfold deliver. by destruct (call _ _ _). Qed.

Lemma publish_core evt s : core (publish iter call evt s).2.1 = core s.1.
Proof.
  unfold publish. rewrite M_bind_eq. simpl.
  apply (for_range_frame (fun s => core s.1)). intros h s'. apply deliver_core.
Qed.

Lemma emit_core evt s : core (emit evt s).2.1 = core s.1.
Proof. unfold emit. rewrite M_bind_eq. simpl. apply publish_core. Qed.

Lemma emit_unit evt s : (emit evt s).1 = ().
Proof. by destruct (emit evt s).1. Qed.

(** On a closed bus nothing is delivered at all. *)
Lemma emit_closed evt a w : bus_closed (bus a) = true -> emit evt (a, w) = ((), (a, w)).
Proof.
  intros Hc. unfold emit, publish. rewrite !M_bind_eq. simpl. unfold handlers. by rewrite Hc.
Qed.

(** ** Transition *)

Lemma Transition_core to a w :
  (Transition to (a, w)).1 = match (Transition_locked to a).1 with Ok _ => Ok () | Err e => Err e end /\
  core (Transition to (a, w)).2.1 = core (Transition_locked to a).2.
Proof.
  unfold Transition, locked. rewrite M_bind_eq. simpl.
  destruct (Transition_locked to a) as [[[]|e] a'] eqn:Ht; simpl; [|done..].
  rewrite M_bind_eq. simpl. split; [done|]. by rewrite emit_core.
Qed.

Lemma Transition_exited (a : Agent H) :
  state a <> StateExited ->
  Transition_locked StateExited a =
    (Ok true, set_session (addHistory StateExited <$> session a) (set_state StateExited a)).
Proof.
  intros Hne. unfold Transition_locked. rewrite !bool_decide_eq_false_2 by done.
  assert (StateExited ∈ validTransitions (state a)) as Hv by (destruct (state a); set_solver).
  by rewrite bool_decide_eq_true_2.
Qed.

(** [Transition] on every branch.  From the exited state it fails with
    the stopped error, to the current state it succeeds without effect, along
    an edge of the table it moves the state and appends it to the history, and
    off the table it fails naming both states; a failure and a no-op change
    nothing and publish nothing, and a move changes no other field. *)
Theorem Transition_spec to a w :
  let '(r, (a', w')) := Transition to (a, w) in
  (state a = StateExited /\ r = Err StoppedError /\ (a', w') = (a, w)) \/
  (state a <> StateExited /\ state a = to /\ r = Ok () /\ (a', w') = (a, w)) \/
  (to ∈ validTransitions (state a) /\ r = Ok () /\
     core a' = (addHistory to <$> session a, running a, to, control a)) \/
  (state a <> StateExited /\ state a <> to /\ to ∉ validTransitions (state a) /\
     r = Err (InvalidStateError (state a) to) /\ (a', w') = (a, w)).
Proof.
  destruct (Transition_core to a w) as [Hr Hc]. unfold Transition, locked in *. rewrite M_bind_eq in *. simpl in *.
  unfold Transition_locked in *. repeat case_bool_decide; simpl in *.
  - by left.
  - by right; left.
  - rewrite M_bind_eq in *. simpl in *. destruct (Agent.emit _ _ _ _) as [u [a' w']]. simpl in *.
    right; right; left. by rewrite Hc.
  - by right; right; right.
Qed.

(** ** Session record of a sequence of calls *)

(** The state machine walked, and nothing was appended to the log. *)
Definition ext (s s' : Agent H * W) : Prop := exists tr, extends s.1 s'.1 tr [].

#[export] Instance ext_preorder : PreOrder ext.
Proof.
  split.
  - intros s. exists []. by apply extends_refl.
  - intros s1 s2 s3 (tr1 & E1) (tr2 & E2). exists (tr1 ++ tr2). by apply (extends_trans _ s2.1 _ tr1 tr2 [] []).
Qed.

Lemma core_ext s s' : core s'.1 = core s.1 -> ext s s'.
Proof. intros [= Hs _ Hst _]. exists []. by apply extends_refl. Qed.

Lemma Transition_ext to s : ext s (Transition to s).2.
Proof.
  destruct s as [a w]. destruct (Transition_core to a w) as [_ Hc].
  destruct (Transition_extends to a) as [tr (Hp & Hst & Hs)].
  revert Hc. unfold core. intros [= Hs' _ Hst' _]. exists tr. unfold extends. simpl.
  rewrite Hst', Hs'. by split_and!.
Qed.

Context (driver : option (AgentDriver H W)).
Context (Hdriver : forall d, driver = Some d -> DriverLaw d).

(** The calls another package can make on an agent, session replacement
    ([SetSession], [Start] with a session) apart. *)
Inductive api_call : Type :=
  | CPrompt (prompt : string)
  | CContinue
  | CStop
  | CSteer (message : string)
  | CFollowUp (message : string)
  | CAbort (reason : string)
  | CTransition (to : AgentState)
  | CAppend (m : AgentMessage)
  | CSubscribe (fn : option H).

Definition exec_api (c : api_call) : AM H W () :=
  match c with
  | CPrompt p => Prompt iter call driver p;; mret ()
  | CContinue => Continue driver;; mret ()
  | CStop => Stop iter call driver;; mret ()
  | CSteer m => Steer iter call m;; mret ()
  | CFollowUp m => FollowUp iter call m;; mret ()
  | CAbort m => Abort iter call m;; mret ()
  | CTransition to => Transition to;; mret ()
  | CAppend m => locked (AppendConversation m);; mret ()
  | CSubscribe fn => Subscribe fn;; mret ()
  end.

Lemma bind_snd {A B} (m : AM H W A) (k : A -> AM H W B) s : (m ≫= k) s = k (m s).1 (m s).2.
Proof. apply M_bind_eq. Qed.

Lemma mapMetrics_ext f s :
  (forall m, MessagesAppended (f m) = MessagesAppended m) -> ext s (locked_ (mapMetrics f) s).2.
Proof. destruct s as [a w]. intros Hf. exists []. by apply mapMetrics_extends. Qed.

Lemma RecordError_ext s : ext s (locked_ RecordError s).2.
Proof. by apply mapMetrics_ext. Qed.

Lemma set_running_ext b s : ext s (locked_ (set_running b) s).2.
Proof. destruct s as [a w]. exists []. by apply extends_refl. Qed.

Lemma enqueueAndEmit_ext enq evt s : ext s (enqueueAndEmit iter call enq evt s).2.
Proof.
  destruct s as [a w]. unfold enqueueAndEmit. rewrite M_bind_eq. simpl.
  destruct (enq (control a)) as [r q]. simpl.
  assert (ext (a, w) (set_control q a, w)) as Hq by (exists []; by apply extends_refl).
  destruct r as [[|]|]; simpl; try done.
  rewrite M_bind_eq. simpl. etransitivity; [exact Hq|]. apply core_ext, emit_core.
Qed.

Lemma Start_continue_ext prompt s :
  ext s ((t ← Transition StateStreaming;
      match t with
      | Err e => locked_ (set_running false);; mret (Return (Err e))
      | Ok _ =>
          emit (event EventSessionStarted);;
          match driver with
          | None => mret (Return (Ok ()))
          | Some d =>
              sess ← gets (fun '(a, _) => session a);
              dr ← drv_Start d sess prompt;
              match dr with
              | Return (Err e) =>
                  locked_ RecordError;;
                  locked_ (set_running false);;
                  Transition StateIdle;;
                  mret (Return (Err e))
              | _ => mret dr
              end
          end
      end) s).2.
Proof.
  rewrite bind_snd. etransitivity; [apply (Transition_ext StateStreaming)|].
  destruct (Transition StateStreaming s) as [[[]|e] s1]; cbn [fst snd]; clear s; rename s1 into s.
  - rewrite bind_snd. etransitivity; [apply core_ext, (emit_core (event EventSessionStarted))|].
    destruct (emit (event EventSessionStarted) s) as [u s1]. cbn [fst snd]. clear s u. rename s1 into s.
    destruct driver as [d|] eqn:Hd; [|reflexivity].
    rewrite bind_snd, bind_snd. pose proof (Hdriver d eq_refl) as Hl.
    destruct s as [a w]. unfold gets. cbn [fst snd].
    pose proof (drv_Start_core (session a) prompt (a, w)) as Hc.
    destruct (drv_Start d (session a) prompt (a, w)) as [[[|e]|] s2]; (transitivity s2; [by apply core_ext|]); try reflexivity.
    cbn [fst snd].
    rewrite bind_snd. etransitivity; [apply RecordError_ext|].
    rewrite bind_snd. etransitivity; [apply set_running_ext|].
    rewrite bind_snd. apply Transition_ext.
  - rewrite bind_snd. apply set_running_ext.
Qed.

Lemma Prompt_ext p s : ext s (Prompt iter call driver p s).2.
Proof.
  unfold Prompt. rewrite bind_snd. unfold Start. rewrite bind_snd.
  destruct s as [a w]. simpl. unfold Start_locked.
  case_bool_decide; simpl; [reflexivity|]. destruct (running a); simpl; [reflexivity|].
  etransitivity; [|apply Start_continue_ext].
  exists []. destruct (session a) as [se|] eqn:Hs; apply extends_refl; simpl; by rewrite ?Hs.
Qed.

Lemma Continue_ext s : ext s (Continue driver s).2.
Proof.
  unfold Continue. rewrite bind_snd. destruct s as [a w]. simpl. unfold Continue_locked.
  case_bool_decide; simpl; [reflexivity|]. destruct (running a); simpl; [reflexivity|].
  destruct (session a) as [se|] eqn:Hs; simpl; [|reflexivity].
  assert (ext (a, w) (set_running true a, w)) as Hrun by (exists []; by apply extends_refl).
  etransitivity; [exact Hrun|].
  destruct driver as [d|] eqn:Hd; [|rewrite bind_snd; apply set_running_ext].
  pose proof (Hdriver d eq_refl) as Hl. rewrite bind_snd. pose proof (drv_Resume_core se (set_running true a, w)) as Hc.
  destruct (drv_Resume d se _) as [[[|e]|] s2]; (transitivity s2; [by apply core_ext|]); try reflexivity.
  cbn [fst snd].
  rewrite bind_snd. etransitivity; [apply RecordError_ext|]. rewrite bind_snd. apply set_running_ext.
Qed.

Lemma Stop_finish_ext s : ext s (Stop_finish iter call s).2.
Proof.
  unfold Stop_finish. rewrite bind_snd. etransitivity; [apply (Transition_ext StateExited)|].
  destruct (Transition StateExited s) as [[[]|e] s1]; cbn [fst snd]; clear s; rename s1 into s; [|reflexivity].
  rewrite !bind_snd. transitivity (emit (event EventSessionEnded) s).2; [apply core_ext, emit_core|].
  destruct (emit (event EventSessionEnded) s) as [u [a w]]. simpl.
  exists []. by apply extends_refl.
Qed.

Lemma Stop_ext s : ext s (Stop iter call driver s).2.
Proof.
  unfold Stop. rewrite bind_snd. destruct s as [a w]. simpl. unfold Stop_locked.
  case_bool_decide; simpl; [reflexivity|].
  assert (ext (a, w) (set_running false a, w)) as Hrun by (exists []; by apply extends_refl).
  etransitivity; [exact Hrun|].
  destruct driver as [d|] eqn:Hd; [|apply Stop_finish_ext].
  pose proof (Hdriver d eq_refl) as Hl. rewrite bind_snd. pose proof (drv_Stop_core (set_running false a, w)) as Hc.
  destruct (drv_Stop d _) as [[[|e]|] s2]; (transitivity s2; [by apply core_ext|]); try reflexivity.
  apply Stop_finish_ext.
Qed.

Lemma Subscribe_core (fn : option H) (s : Agent H * W) : core (Subscribe fn s).2.1 = core s.1.
Proof.
  destruct s as [a w]. destruct fn as [h|]; [|done]. unfold Subscribe, locked. simpl.
  by destruct (bus_closed (bus a)).
Qed.

Definition is_append (c : api_call) : bool := match c with CAppend _ => true | _ => false end.

(** Only [AppendConversation] writes to the log. *)
Lemma exec_api_ext c s : is_append c = false -> ext s (exec_api c s).2.
Proof.
  intros Hc. destruct c; try done; unfold exec_api; rewrite bind_snd.
  - apply Prompt_ext.
  - apply Continue_ext.
  - apply Stop_ext.
  - apply enqueueAndEmit_ext.
  - apply enqueueAndEmit_ext.
  - apply enqueueAndEmit_ext.
  - apply Transition_ext.
  - apply core_ext, Subscribe_core.
Qed.

Lemma exec_api_extends c s : exists tr msgs, extends s.1 (exec_api c s).2.1 tr msgs.
Proof.
  destruct (is_append c) eqn:Hc.
  - destruct c; try done. unfold exec_api. rewrite bind_snd. destruct s as [a w].
    destruct (Append_extends m a) as [msgs Hm]. exists [], msgs. unfold locked. simpl.
    by destruct (AppendConversation m a).
  - destruct (exec_api_ext c s Hc) as [tr ?]. eauto.
Qed.

(** Called one at a time, the public methods keep the session record
    faithful.  Any sequence of [Prompt], [Continue], [Stop], [Steer],
    [FollowUp], [Abort], [Transition], [AppendConversation] and [Subscribe]
    calls, whatever the handlers do and for every driver that keeps the law,
    adds to [StateHistory] exactly a walk of the state machine from the old to
    the new state, only appends to the conversation log, and counts the
    appended messages modulo 2^64. *)
Theorem api_session_faithful cs s :
  exists tr msgs, extends s.1 (for_range cs exec_api s).2.1 tr msgs.
Proof.
  apply (for_range_inv (fun s' => exists tr msgs, extends s.1 s'.1 tr msgs)).
  - intros c s' _ (tr1 & m1 & E1). destruct (exec_api_extends c s') as (tr2 & m2 & E2).
    exists (tr1 ++ tr2), (m1 ++ m2). by eapply extends_trans.
  - exists [], []. by apply extends_refl.
Qed.

(** ** The world a sequence of calls leaves *)

(** A property of the world that handlers and driver maintain, all methods
    maintain; what they do not change, no method changes. *)
Section World.
Context (P : W -> Prop).
Context (Hcall : forall h e b w, P w -> P (call h e (b, w)).2).
Context (Hdrv : forall d, driver = Some d ->
  (forall sess p, maintains (P ∘ snd) (drv_Start d sess p)) /\
  (forall sess, maintains (P ∘ snd) (drv_Resume d sess)) /\ maintains (P ∘ snd) (drv_Stop d)).

Lemma maintains_locked {A} (g : Agent H -> A * Agent H) : maintains (P ∘ snd) (locked (W := W) g).
Proof. intros [a w]. unfold locked. simpl. by destruct (g a). Qed.

Lemma maintains_locked_ (g : Agent H -> Agent H) : maintains (P ∘ snd) (locked_ (W := W) g).
Proof. by intros [a w]. Qed.

Lemma maintains_deliver evt h : maintains (P ∘ snd) (deliver call evt h).
Proof.
  intros [a w] Hw. unfold deliver. simpl in *.
  pose proof (Hcall h.2 evt (bus a) w Hw) as Hc. by destruct (call _ _ _).
Qed.

#[local] Hint Resolve maintains_locked maintains_locked_ maintains_deliver : maintains.

Lemma maintains_emit evt : maintains (P ∘ snd) (emit evt).
Proof. unfold emit, publish. maintains_tac. Qed.

#[local] Hint Resolve maintains_emit : maintains.

Lemma maintains_Transition to : maintains (P ∘ snd) (Transition to).
Proof. unfold Transition. maintains_tac. Qed.

#[local] Hint Resolve maintains_Transition : maintains.

Lemma maintains_Subscribe (fn : option H) : maintains (P ∘ snd) (Subscribe (W := W) fn).
Proof. unfold Subscribe. maintains_tac. Qed.

Lemma maintains_Start sess p : maintains (P ∘ snd) (Start iter call driver sess p).
Proof. clear Hdriver. unfold Start. maintains_tac. by apply (Hdrv _ eq_refl). Qed.

#[local] Hint Resolve maintains_Start : maintains.

Lemma maintains_Prompt p : maintains (P ∘ snd) (Prompt iter call driver p).
Proof. clear Hdriver. unfold Prompt. maintains_tac. Qed.

Lemma maintains_Continue : maintains (P ∘ snd) (Continue driver).
Proof. clear Hdriver. unfold Continue. maintains_tac. by apply (Hdrv _ eq_refl). Qed.

Lemma maintains_Stop : maintains (P ∘ snd) (Stop iter call driver).
Proof. clear Hdriver. unfold Stop, Stop_finish. maintains_tac. by apply (Hdrv _ eq_refl). Qed.

Lemma maintains_enqueueAndEmit enq evt : maintains (P ∘ snd) (enqueueAndEmit iter call enq evt).
Proof. unfold enqueueAndEmit. maintains_tac. Qed.

#[local] Hint Resolve maintains_Subscribe maintains_Prompt maintains_Continue maintains_Stop
  maintains_enqueueAndEmit : maintains.

Lemma maintains_exec_api c : maintains (P ∘ snd) (exec_api c).
Proof. clear Hdriver. destruct c; unfold exec_api, Steer, FollowUp, Abort; maintains_tac. Qed.
End World.

Lemma keeps_emit {B} (f : W -> B) evt :
  (forall h e b w, f (call h e (b, w)).2 = f w) -> keeps (f ∘ snd) (emit evt).
Proof.
  intros Hf. apply keeps_maintains. intros v. apply (maintains_emit (fun w => f w = v)).
  intros h e b w Hw. by rewrite Hf.
Qed.

Lemma keeps_Transition {B} (f : W -> B) to :
  (forall h e b w, f (call h e (b, w)).2 = f w) -> keeps (f ∘ snd) (Transition to).
Proof.
  intros Hf. apply keeps_maintains. intros v. apply (maintains_Transition (fun w => f w = v)).
  intros h e b w Hw. by rewrite Hf.
Qed.

Lemma keeps_exec_api {B} (f : W -> B) c :
  (forall h e b w, f (call h e (b, w)).2 = f w) ->
  (forall d, driver = Some d ->
    (forall sess p, keeps (f ∘ snd) (drv_Start d sess p)) /\
    (forall sess, keeps (f ∘ snd) (drv_Resume d sess)) /\ keeps (f ∘ snd) (drv_Stop d)) ->
  keeps (f ∘ snd) (exec_api c).
Proof.
  clear Hdriver. intros Hf Hd. apply keeps_maintains. intros v. apply (maintains_exec_api (fun w => f w = v)).
  - intros h e b w Hw. by rewrite Hf.
  - intros d Hdr. destruct (Hd d Hdr) as (H1 & H2 & H3).
    split_and!; [intros sess p s Hs; specialize (H1 sess p s)|intros sess s Hs; specialize (H2 sess s)|
      intros s Hs; specialize (H3 s)]; simpl in *; congruence.
Qed.

(** ** Start *)

Definition countError (s : Session) : Session :=
  let m := Metrics s in
  set_Metrics (mkSessionMetrics (TurnsStarted m) (TurnsCompleted m) (MessagesAppended m)
    (ToolCallsStarted m) (ToolCallsFinished m) (u64 (Errors m + 1))) s.

(** The session [Start] leaves: the given one, or else the agent's, with the
    move to streaming in its history when there was a move. *)
Definition startedSession (s : option Session) (a : Agent H) : option Session :=
  let sess := match s with Some _ => s | None => session a end in
  if bool_decide (state a = StateStreaming) then sess else addHistory StateStreaming <$> sess.

Lemma Start_locked_ok s (a : Agent H) :
  state a <> StateExited -> running a = false ->
  Start_locked s a = (Ok (), set_running true (match s with Some _ => set_session s a | None => a end)).
Proof.
  intros Hne Hr. unfold Start_locked. rewrite bool_decide_eq_false_2, Hr by done. by destruct s.
Qed.

Lemma Transition_streaming_started s (a : Agent H) w :
  state a <> StateExited ->
  let a1 := set_running true (match s with Some _ => set_session s a | None => a end) in
  (Transition StateStreaming (a1, w)).1 = Ok () /\
  core (Transition StateStreaming (a1, w)).2.1 = (startedSession s a, true, StateStreaming, control a).
Proof.
  intros Hne a1. destruct (Transition_core StateStreaming a1 w) as [Hr Hc]. rewrite Hr, Hc.
  assert (state a1 = state a) as Hst by (by destruct s).
  assert (session a1 = match s with Some _ => s | None => session a end) as Hss by (by destruct s).
  assert (control a1 = control a /\ running a1 = true) as [Hct Hrn] by (by destruct s).
  clearbody a1.
  unfold Transition_locked, startedSession. rewrite Hst, bool_decide_eq_false_2 by done.
  case_bool_decide as Heq; simpl; [unfold core; by rewrite Hst, Hss, Hct, Hrn, Heq|].
  assert (StateStreaming ∈ validTransitions (state a)) as Hv by (destruct (state a); set_solver).
  rewrite bool_decide_eq_true_2 by done. unfold core. simpl. by rewrite Hss, Hct, Hrn.
Qed.

Lemma core_fields (a : Agent H) s r st q :
  core a = (s, r, st, q) -> session a = s /\ running a = r /\ state a = st /\ control a = q.
Proof. by intros [= -> -> -> ->]. Qed.

Lemma driver_refused sess q (a2 : Agent H) :
  core a2 = (sess, true, StateStreaming, q) ->
  core (Transition_locked StateIdle (set_running false (RecordError a2))).2 =
    (addHistory StateIdle ∘ countError <$> sess, false, StateIdle, q).
Proof.
  intros (Hs & Hr & Hst & Hq)%core_fields. unfold Transition_locked, RecordError, mapMetrics, core.
  rewrite Hs. destruct sess; simpl; rewrite Hst; simpl; by rewrite ?Hs, Hq.
Qed.

(** [Start] on every branch.  An exited agent refuses with the stopped
    error and a running one with a busy error naming its state, both without
    any effect.  Otherwise the agent is running and streaming on the given
    session, unless the driver refuses: then the driver's error is returned
    with the agent idle, not running, and the error counted, so that the next
    [Start] is accepted. *)
Theorem Start_spec s prompt a w :
  let '(r, (a', w')) := Start iter call driver s prompt (a, w) in
  (state a = StateExited /\ r = Return (Err StoppedError) /\ (a', w') = (a, w)) \/
  (state a <> StateExited /\ running a = true /\
     r = Return (Err (BusyError (Some (state a)))) /\ (a', w') = (a, w)) \/
  (state a <> StateExited /\ running a = false /\
     (r = Return (Ok ()) \/ exists v, r = Panic v) /\
     core a' = (startedSession s a, true, StateStreaming, control a)) \/
  (state a <> StateExited /\ running a = false /\ (exists e, r = Return (Err e)) /\
     core a' = (addHistory StateIdle ∘ countError <$> startedSession s a, false, StateIdle, control a)).
Proof.
  unfold Start. rewrite M_bind_eq. unfold locked. cbn [fst snd].
  destruct (decide (state a = StateExited)) as [Hex|Hne].
  { unfold Start_locked. rewrite bool_decide_eq_true_2 by done. by left. }
  destruct (running a) eqn:Hr.
  { unfold Start_locked. rewrite bool_decide_eq_false_2, Hr by done. by right; left. }
  rewrite Start_locked_ok by done. cbn [fst snd].
  destruct (Transition_streaming_started s a w Hne) as [Ht Hc].
  rewrite bind_snd, Ht. rewrite bind_snd.
  pose proof (emit_core (event EventSessionStarted) (Transition StateStreaming
    (set_running true match s with Some _ => set_session s a | None => a end, w)).2) as Hc1.
  rewrite Hc in Hc1. destruct (emit _ _) as [u [a1 w1]]. cbn [fst snd] in *. clear Ht Hc.
  destruct driver as [d|] eqn:Hd; [|right; right; left; eauto 6].
  pose proof (Hdriver d eq_refl) as Hl. rewrite bind_snd, bind_snd. unfold gets. cbn [fst snd].
  pose proof (drv_Start_core (session a1) prompt (a1, w1)) as Hc2. cbn [fst] in Hc2. rewrite Hc1 in Hc2.
  destruct (drv_Start d _ _ _) as [[[[]|e]|v] [a2 w2]]; simpl in Hc2;
    [right; right; left; eauto 8| |right; right; left; eauto 8].
  cbn [fst snd]. rewrite !bind_snd. unfold locked_. cbn [fst snd].
  destruct (Transition_core StateIdle (set_running false (RecordError a2)) w2) as [_ Ht2].
  destruct (Transition StateIdle _) as [r3 [a3 w3]]. simpl in Ht2.
  right; right; right. split_and!; eauto. rewrite Ht2. apply (driver_refused _ _ _ Hc2).
Qed.

(** ** Stop *)

(** An agent whose [Stop] has gone through. *)
Definition stopped (a : Agent H) : Prop :=
  state a = StateExited /\ bus_closed (bus a) = true /\ ch_closed (control a) = true.

Lemma Stop_finish_spec a w :
  state a <> StateExited ->
  let '(r, (a', w')) := Stop_finish iter call (a, w) in
  r = Return (Ok ()) /\ stopped a' /\
  session a' = addHistory StateExited <$> session a /\ running a' = running a.
Proof.
  intros Hne. unfold Stop_finish. rewrite M_bind_eq.
  destruct (Transition_core StateExited a w) as [Hr Hc].
  rewrite Transition_exited in Hr, Hc by done. simpl in *. rewrite Hr. rewrite !M_bind_eq.
  pose proof (emit_core (event EventSessionEnded) (Transition StateExited (a, w)).2) as He.
  rewrite Hc in He. apply core_fields in He as (Hs & Hrn & Hst & Hq). simpl in *.
  destruct (emit _ _) as [u [a2 w2]]. simpl in *.
  split; [done|]. unfold stopped, bus_close, Close. simpl.
  split_and!; try done; [by destruct (bus_closed (bus a2)) eqn:Hb|].
  by destruct (ch_closed (control a2)) eqn:Hb.
Qed.

(** On a stopped agent every call is refused or does nothing. *)
Lemma stopped_call_inert c a w : stopped a ->
  is_append c = false -> exec_api c (a, w) = ((), (a, w)).
Proof.
  intros (Hst & Hb & Hq) Hc.
  assert (forall m ty, (ty = ControlSteer \/ ty = ControlFollowUp \/ ty = ControlAbort) ->
    Enqueue (mkControlCommand ty m) (control a) = (Return (Err StoppedError), control a)) as Henq.
  { intros m ty Hty. unfold Enqueue, beginEnqueue, validate. simpl. rewrite Hq. by destruct Hty as [->|[->| ->]]. }
  assert (set_control (control a) a = a) as Hset by (by destruct a).
  destruct c; try done; unfold exec_api; rewrite M_bind_eq.
  - unfold Prompt, Start. rewrite !M_bind_eq. simpl. unfold Start_locked. by rewrite bool_decide_eq_true_2.
  - unfold Continue. rewrite !M_bind_eq. simpl. unfold Continue_locked. by rewrite bool_decide_eq_true_2.
  - unfold Stop. rewrite !M_bind_eq. simpl. unfold Stop_locked. by rewrite bool_decide_eq_true_2.
  - unfold Steer, enqueueAndEmit, EnqueueSteer. rewrite !M_bind_eq. simpl. rewrite Henq by auto. simpl. by rewrite Hset.
  - unfold FollowUp, enqueueAndEmit, EnqueueFollowUp. rewrite !M_bind_eq. simpl. rewrite Henq by auto. simpl. by rewrite Hset.
  - unfold Abort, enqueueAndEmit, EnqueueAbort. rewrite !M_bind_eq. simpl. rewrite Henq by auto. simpl. by rewrite Hset.
  - unfold Transition. rewrite !M_bind_eq. simpl. unfold Transition_locked. by rewrite bool_decide_eq_true_2.
  - destruct fn as [h|]; [|done]. unfold Subscribe. simpl. rewrite Hb. simpl. by destruct a.
Qed.

(** [Stop] is complete and final.  On an agent that has not exited it
    either returns the driver's refusal with the state, the bus and the queue
    as they were, or returns nil with the agent exited, the exit recorded in the
    history and the bus and the queue closed.  After that, any sequence of
    method calls (appending to the log apart) leaves agent and world exactly as
    they are: no state change, no event, no command. *)
Theorem Stop_spec a w :
  state a <> StateExited ->
  let '(r, (a', w')) := Stop iter call driver (a, w) in
  (r <> Return (Ok ()) /\ core a' = (session a, false, state a, control a)) \/
  (r = Return (Ok ()) /\ stopped a' /\ session a' = addHistory StateExited <$> session a /\ running a' = false /\
   forall cs, Forall (fun c => is_append c = false) cs ->
     for_range cs exec_api (a', w') = ((), (a', w'))).
Proof.
  intros Hne.
  assert (forall a2 w2, core a2 = (session a, false, state a, control a) ->
    let '(r, (a', w')) := Stop_finish iter call (a2, w2) in
    r = Return (Ok ()) /\ stopped a' /\ session a' = addHistory StateExited <$> session a /\ running a' = false /\
    forall cs, Forall (fun c => is_append c = false) cs ->
      for_range cs exec_api (a', w') = ((), (a', w'))) as Hfin.
  { intros a2 w2 (Hs & Hr & Hst & Hq)%core_fields.
    pose proof (Stop_finish_spec a2 w2) as Hf. rewrite Hst, Hs, Hr in Hf. specialize (Hf Hne).
    destruct (Stop_finish iter call (a2, w2)) as [r [a' w']]. destruct Hf as (-> & Hstop & -> & ->).
    split_and!; try done. intros cs Hcs. induction Hcs as [|c cs Hc Hcs IH]; [done|].
    simpl. rewrite M_bind_eq, stopped_call_inert by done. exact IH. }
  unfold Stop. rewrite M_bind_eq. simpl. unfold Stop_locked. rewrite bool_decide_eq_false_2 by done. simpl.
  destruct driver as [d|] eqn:Hd.
  - pose proof (Hdriver d eq_refl) as Hl. rewrite M_bind_eq.
    pose proof (drv_Stop_core (set_running false a, w)) as Hds.
    destruct (drv_Stop d (set_running false a, w)) as [[[[]|e]|v] [a2 w2]]; simpl in *.
    + specialize (Hfin a2 w2 Hds). destruct (Stop_finish _ _ _) as [r [a' w']]. by right.
    + by left.
    + by left.
  - specialize (Hfin (set_running false a) w eq_refl). destruct (Stop_finish _ _ _) as [r [a' w']]. by right.
Qed.
End Methods.

Arguments api_call : clear implicits.

(** ** Concrete agents *)

Module Concrete.
(** Handlers that record what they receive. *)
Definition record (h : nat) (e : AgentEvent) (bw : eventBus nat * list (nat * AgentEventType))
  : eventBus nat * list (nat * AgentEventType) := (bw.1, bw.2 ++ [(h, ev_Type e)]).
Definition iter_id (l : list (Z * nat)) : list (Z * nat) := l.

(** A driver that refuses to start and does nothing else. *)
Definition refusing : AgentDriver nat (list (nat * AgentEventType)) :=
  mkAgentDriver (fun _ _ => mret (Return (Err (ErrText "no"))))
    (fun _ => mret (Return (Ok ()))) (mret (Return (Ok ()))).

#[export] Instance refusing_law : DriverLaw refusing.
Proof. by split. Qed.

Lemma refusing_laws d : Some refusing = Some d -> DriverLaw d.
Proof. intros [= <-]. apply refusing_law. Qed.

Definition agent0 : Agent nat :=
  set_bus (subscribe (Some 7%nat) newEventBus).2
    (SetSession (Some (mkSession "s" "s" [] [StateIdle] zeroMetrics)) New).

Example refused_start :
  (Start iter_id record (Some refusing) None "hi" (agent0, [])).2.2 =
  [(7%nat, EventStateChange); (7%nat, EventSessionStarted); (7%nat, EventStateChange)].
Proof. vm_compute. reflexivity. Qed.

Example stop_events :
  (Stop iter_id record (Some refusing) (agent0, [])).2.2 =
  [(7%nat, EventStateChange); (7%nat, EventSessionEnded)].
Proof. vm_compute. reflexivity. Qed.

Lemma api_session_faithful_witness :
  exists tr msgs, extends agent0
    (for_range [CPrompt "a"; CSteer "b"; CStop; CContinue] (exec_api iter_id record (Some refusing)) (agent0, [])).2.1
    tr msgs.
Proof.
  apply (api_session_faithful iter_id record (Some refusing) refusing_laws
    [CPrompt "a"; CSteer "b"; CStop; CContinue] (agent0, [])).
Defined.

Lemma Start_spec_witness :
  let a := agent0 in let s := None in
  let '(r, (a', w')) := Start iter_id record (Some refusing) s "hi" (a, []) in
  (state a = StateExited /\ r = Return (Err StoppedError) /\ (a', w') = (a, [])) \/
  (state a <> StateExited /\ running a = true /\
     r = Return (Err (BusyError (Some (state a)))) /\ (a', w') = (a, [])) \/
  (state a <> StateExited /\ running a = false /\
     (r = Return (Ok ()) \/ exists v, r = Panic v) /\
     core a' = (startedSession s a, true, StateStreaming, control a)) \/
  (state a <> StateExited /\ running a = false /\ (exists e, r = Return (Err e)) /\
     core a' = (addHistory StateIdle ∘ countError <$> startedSession s a, false, StateIdle, control a)).
Proof. exact (Start_spec iter_id record (Some refusing) refusing_laws None "hi" agent0 []). Defined.

Lemma Stop_spec_witness :
  state agent0 <> StateExited /\
  let '(r, (a', w')) := Stop iter_id record (Some refusing) (agent0, []) in
  (r <> Return (Ok ()) /\ core a' = (session agent0, false, state agent0, control agent0)) \/
  (r = Return (Ok ()) /\ stopped a' /\ session a' = addHistory StateExited <$> session agent0 /\ running a' = false /\
   forall cs, Forall (fun c => is_append c = false) cs ->
     for_range cs (exec_api iter_id record (Some refusing)) (a', w') = ((), (a', w'))).
Proof.
  split; [discriminate|].
  apply (Stop_spec iter_id record (Some refusing) refusing_laws agent0 []). discriminate.
Defined.
End Concrete.
