(* ===== verification/NativeDriver.v ===== *)
(** * NativeDriver: the LLM - tools - LLM turn loop (internal/agent/loop.go)

    The driver runs its loop in a goroutine of its own, between a provider and
    tools that live in other packages.  Both are parameters: what the [n]-th
    provider or tool call of the driver streams and returns is a function of [n]
    and of its arguments, so replies may differ from call to call at will.  What other
    goroutines do to the agent meanwhile (steer, follow up, abort, stop, prompt,
    cancel the context) is part of the reply: each item of a stream is a delta or
    an action of another goroutine, carried out by the agent's own methods.

    The world of the agent is the driver's record and the rest [V]; handlers see
    only the bus and [V]. *)

From S2P Require Import Prelude GoStrings AiTypes Transform AgentTypes EventBus ControlQueue Agent AgentConc AgentProps.

Local Open Scope string_scope.
Local Open Scope list_scope.
Local Open Scope stdpp_scope.

(** ai/types.go: [Context]. *)
Record Context : Type := mkContext {
  cx_SystemPrompt : string;
  cx_Messages : list Message;
  cx_Tools : list Tool;
}.

Section NativeDriver.
Context {H V : Type}.

(** What another goroutine does while the driver waits: a call of the agent's
    public methods, or the end of the caller's context. *)
Inductive env_action : Type :=
  | EnvCall (c : api_call H)
  | EnvCancel (e : error).

(** An element of a provider's event stream; other event types are ignored by
    the driver. *)
Inductive stream_item : Type :=
  | SText (Delta : string)
  | SThinking (Delta : string)
  | SOther
  | SEnv (act : env_action).

Record provider_reply : Type := mkProviderReply {
  pr_stream : list stream_item;
  pr_result : outcome error AssistantMessage;
}.

(** What a tool's [Execute] does: it reports updates, and returns a result and
    an error, or panics. *)
Inductive tool_item : Type :=
  | TUpdate (r : AgentToolResult)
  | TEnv (act : env_action).

Record tool_reply : Type := mkToolReply {
  tk_stream : list tool_item;
  tk_end : (AgentToolResult * option error) + string;
}.

(** types.go: [AgentTool]. *)
Record AgentTool : Type := mkAgentTool {
  at_Tool : Tool;
  at_Label : string;
  at_Terminal : bool;
  at_Execute : nat -> string -> gmap string any -> tool_reply;
}.

(** driver.go: [DriverConfig]; the stream options only reach the provider. *)
Record DriverConfig : Type := mkDriverConfig {
  dc_Model : Model;
  dc_SystemPrompt : string;
  dc_Tools : list AgentTool;
  dc_EnvironmentTools : option (list AgentTool);
  dc_Metadata : gmap string any;
}.

(** [NativeDriver].  [d_bus] has one possible handler, the closure over the
    agent's [emit] that [New] subscribes.  [d_cancel] tells whether a cancel
    function is kept, [d_ctxErr] is [Err()] of the running loop's context 
    [d_providerCalls] and [d_toolCalls] count its external calls, and
    [d_launched] records the loops started with [go]. *)
Record NativeDriver : Type := mkNativeDriver {
  cfg : DriverConfig;
  bound : bool;
  d_bus : eventBus ();
  d_cancel : bool;
  d_running : bool;
  pendingSteer : string;
  followUps : list string;
  turn : Z;
  d_ctxErr : option error;
  d_providerCalls : nat;
  d_toolCalls : nat;
  d_launched : list (Session * string);
}.

Definition NewNativeDriver (c : DriverConfig) : NativeDriver :=
  let c' :=
    match dc_EnvironmentTools c with
    | Some ts =>
        if bool_decide (length (dc_Tools c) = 0%nat)
        then mkDriverConfig (dc_Model c) (dc_SystemPrompt c) ts (dc_EnvironmentTools c) (dc_Metadata c)
        else c
    | None => c
    end in
  mkNativeDriver c' false newEventBus false false "" [] 0 None 0 0 [].

(** What [New] does to the driver it is given. *)
Definition bindAgent (d : NativeDriver) : NativeDriver :=
  mkNativeDriver (cfg d) true (subscribe (Some ()) (d_bus d)).2 (d_cancel d) (d_running d)
    (pendingSteer d) (followUps d) (turn d) (d_ctxErr d) (d_providerCalls d) (d_toolCalls d) (d_launched d).

Definition set_loop (c r : bool) (err : option error) (l : list (Session * string)) (d : NativeDriver) : NativeDriver :=
  mkNativeDriver (cfg d) (bound d) (d_bus d) c r (pendingSteer d) (followUps d) (turn d) err
    (d_providerCalls d) (d_toolCalls d) l.
Definition set_pending (steer : string) (fus : list string) (d : NativeDriver) : NativeDriver :=
  mkNativeDriver (cfg d) (bound d) (d_bus d) (d_cancel d) (d_running d) steer fus (turn d) (d_ctxErr d)
    (d_providerCalls d) (d_toolCalls d) (d_launched d).
Definition set_turn (t : Z) (d : NativeDriver) : NativeDriver :=
  mkNativeDriver (cfg d) (bound d) (d_bus d) (d_cancel d) (d_running d) (pendingSteer d) (followUps d) t
    (d_ctxErr d) (d_providerCalls d) (d_toolCalls d) (d_launched d).
Definition set_calls (p t : nat) (d : NativeDriver) : NativeDriver :=
  mkNativeDriver (cfg d) (bound d) (d_bus d) (d_cancel d) (d_running d) (pendingSteer d) (followUps d) (turn d)
    (d_ctxErr d) p t (d_launched d).
Definition set_d_running (r : bool) (d : NativeDriver) : NativeDriver :=
  set_loop (d_cancel d) r (d_ctxErr d) (d_launched d) d.

(** The first reason a context is cancelled for stays. *)
Definition cancelCtx (e : error) (d : NativeDriver) : NativeDriver :=
  set_loop (d_cancel d) (d_running d) (Some (default e (d_ctxErr d))) (d_launched d) d.

Notation W := (NativeDriver * V)%type.
Notation SM := (M (Agent H * W)).

Definition dgets {A} (f : NativeDriver -> A) : SM A := gets (fun '(_, (d, _)) => f d).
Definition dmodify (f : NativeDriver -> NativeDriver) : SM () := modify (fun '(a, (d, v)) => (a, (f d, v))).

(** ** The driver interface *)

(** [startLoop]: the goroutine it launches runs [run] below. *)
Definition startLoop (sess : option Session) (prompt : string) : SM (outcome error ()) :=
  fun '(a, (d, v)) =>
    if d_running d then (Return (Err (BusyError (Some StateStreaming))), (a, (d, v)))
    else if negb (bound d) then (Return (Err (ErrText "native driver is not bound to agent")), (a, (d, v)))
    else
      match sess with
      | None => (Return (Err (ErrText "session is required")), (a, (d, v)))
      | Some s => (Return (Ok ()), (a, (set_loop true true None (d_launched d ++ [(s, prompt)]) d, v)))
      end.

Definition driverStop : SM (outcome error ()) :=
  fun '(a, (d, v)) =>
    let d1 := set_loop false false (d_ctxErr d) (d_launched d) d in
    (Return (Ok ()), (a, (if d_cancel d then cancelCtx ContextCanceled d1 else d1, v))).

Definition native : AgentDriver H W :=
  mkAgentDriver (fun sess prompt => startLoop sess prompt) (fun sess => startLoop (Some sess) "") driverStop.

#[export] Instance native_law : DriverLaw native.
Proof.
  split.
  - intros sess p [a [d v]]. simpl. by repeat case_match.
  - intros sess [a [d v]]. simpl. by repeat case_match.
  - intros [a [d v]]. done.
Qed.

(** ** The loop *)

Context (iter : list (Z * H) -> list (Z * H)).
Context (handle : H -> AgentEvent -> eventBus H * V -> eventBus H * V).
Context (provider : nat -> Context -> provider_reply).
Context (debug_Stack : string).

Definition call (h : H) (evt : AgentEvent) (s : eventBus H * W) : eventBus H * W :=
  let '(b, (d, v)) := s in let '(b', v') := handle h evt (b, v) in (b', (d, v')).

(** [NativeDriver.emit]: publish on the driver's bus. *)
Definition demit (evt : AgentEvent) : SM () :=
  hs ← dgets (fun d => handlers id (d_bus d));
  for_range hs (fun _ => emit iter call evt).

Definition api (c : api_call H) : SM () := exec_api iter call (Some native) c.

Definition exec_env (act : env_action) : SM () :=
  match act with
  | EnvCall c => api c
  | EnvCancel e => dmodify (cancelCtx e)
  end.

Definition agent_Transition (to : AgentState) : SM (outcome error ()) := Return <$> Transition iter call to.
Definition agent_Append (m : AgentMessage) : SM (outcome error ()) := Return <$> locked (AppendConversation m).

Definition nextProviderCall : SM nat :=
  n ← dgets d_providerCalls; dmodify (fun d => set_calls (S n) (d_toolCalls d) d);; mret n.
Definition nextToolCall : SM nat :=
  n ← dgets d_toolCalls; dmodify (fun d => set_calls (d_providerCalls d) (S n) d);; mret n.

Definition lookupTool (d : NativeDriver) (name : string) : option AgentTool :=
  List.find (fun t => bool_decide (tl_Name (at_Tool t) = name)) (dc_Tools (cfg d)).

Definition isTerminalTool (d : NativeDriver) (name : string) : bool :=
  match lookupTool d name with Some t => at_Terminal t | None => false end.

Definition toolSchemas (d : NativeDriver) : list Tool := at_Tool <$> dc_Tools (cfg d).

Definition extractToolCalls (msg : AssistantMessage) : list ToolCall := toolCalls (am_Content msg).

(** The body of [for ev := range es.C]. *)
Definition streamItem (it : stream_item) : SM () :=
  t ← dgets turn;
  match it with
  | SText delta => demit (with_Delta delta (with_Turn t (event EventAgentMessageDelta)))
  | SThinking delta => demit (with_Delta delta (with_Turn t (event EventThinkingDelta)))
  | SOther => mret ()
  | SEnv act => exec_env act
  end.

Context (now : Z).

Definition callProvider : SM (outcome error AssistantMessage) :=
  sess ← gets (fun '(a, _) => session a);
  match sess with
  | None => mret (Return (Err (ErrText "session missing")))
  | Some s =>
      llmCtx ← dgets (fun d =>
        mkContext (dc_SystemPrompt (cfg d))
          (TransformMessages now (ag_Message <$> ConversationLog s) (dc_Model (cfg d)) None)
          (toolSchemas d));
      n ← nextProviderCall;
      for_range (pr_stream (provider n llmCtx)) streamItem;;
      mret (pr_result (provider n llmCtx))
  end.

Definition appendToolResult (tc : ToolCall) (toolName : string) (result : AgentToolResult) (execErr : option error)
  : SM (outcome error ()) :=
  t ← dgets turn;
  agent_Append (mkAgentMessage t (MToolResult
    (mkToolResultMessage (tc_ID tc) toolName (ar_Content result) (ar_IsError result) now)));;!
  demit (with_Tool toolName (tc_ID tc) (Some result) (with_Turn t (event EventToolCompleted)));;
  match execErr with
  | None => mret (Return (Ok ()))
  | Some e =>
      demit (with_Error e (with_Tool toolName (tc_ID tc) None (with_Turn t (event EventToolError))));;
      mret (Return (Ok ()))
  end.

Definition toolItem (tc : ToolCall) (it : tool_item) : SM () :=
  t ← dgets turn;
  match it with
  | TUpdate r => demit (with_Tool (tc_Name tc) (tc_ID tc) (Some r) (with_Turn t (event EventToolUpdate)))
  | TEnv act => exec_env act
  end.

(** The result after an [Execute] that failed. *)
Definition markFailed (e : error) (r : AgentToolResult) : AgentToolResult :=
  mkAgentToolResult
    (if bool_decide (length (ar_Content r) = 0%nat) then [TextContent (Error e) ""] else ar_Content r)
    (ar_SnapshotID r) (ar_ExitCode r) true (ar_Metadata r).

Definition executeTool (tc : ToolCall) : SM (outcome error ()) :=
  tool ← dgets (fun d => lookupTool d (tc_Name tc));
  match tool with
  | None =>
      let text := String.app "tool not found: " (tc_Name tc) in
      appendToolResult tc (tc_Name tc) (mkAgentToolResult [TextContent text ""] "" None true ∅) (Some (ErrText text))
  | Some tool =>
      locked_ RecordToolStarted;;
      t ← dgets turn;
      demit (with_Tool (tc_Name tc) (tc_ID tc) None (with_Turn t (event EventToolStarted)));;
      n ← nextToolCall;
      let reply := at_Execute tool n (tc_ID tc) (tc_Arguments tc) in
      for_range (tk_stream reply) (toolItem tc);;
      match tk_end reply with
      | inr v => mret (Panic v)
      | inl (result0, err) =>
          let result := match err with None => result0 | Some e => markFailed e result0 end in
          locked_ RecordToolFinished;;
          appendToolResult tc (tc_Name tc) result err;;!
          if at_Terminal tool then
            demit (with_Tool (tc_Name tc) (tc_ID tc) (Some result) (with_Turn t (event EventTerminalToolCompleted)));;
            mret (Return (Ok ()))
          else mret (Return (Ok ()))
      end
  end.

(** The loop over one assistant message's calls: [true] when a terminal tool
    ended it. *)
Fixpoint toolLoop (tcs : list ToolCall) : SM (outcome error bool) :=
  match tcs with
  | [] => mret (Return (Ok false))
  | tc :: rest =>
      executeTool tc;;!
      term ← dgets (fun d => isTerminalTool d (tc_Name tc));
      if (term : bool) then mret (Return (Ok true)) else toolLoop rest
  end.

(** One iteration of the loop of [executeSingleTurn]: [true] goes round again,
    [false] leaves it by [break]. *)
Definition turnIteration : SM (outcome error bool) :=
  err ← dgets d_ctxErr;
  match err with
  | Some e => mret (Return (Err e))
  | None =>
      agent_Transition StateStreaming;;!
      asst ← callProvider;
      t ← dgets turn;
      match asst with
      | Panic v => mret (Panic v)
      | Return (Err e) =>
          demit (with_Error e (with_Turn t (event EventProviderError)));;
          mret (Return (Err e))
      | Return (Ok asst) =>
          let assistantMsg := mkAgentMessage t (MAssistant asst) in
          agent_Append assistantMsg;;!
          demit (with_Message assistantMsg asst (with_Turn t (event EventAgentMessageCompleted)));;
          if bool_decide (length (extractToolCalls asst) = 0%nat) then mret (Return (Ok false))
          else
            agent_Transition StateToolExecution;;!
            terminal ←! toolLoop (extractToolCalls asst);
            mret (Return (Ok (negb terminal)))
      end
  end.

Fixpoint turnLoop (fuel : nat) : SM (option (outcome error ())) :=
  match fuel with
  | O => mret None
  | S fuel' =>
      again ← turnIteration;
      match again with
      | Return (Ok true) => turnLoop fuel'
      | Return (Ok false) => mret (Some (Return (Ok ())))
      | Return (Err e) => mret (Some (Return (Err e)))
      | Panic v => mret (Some (Panic v))
      end
  end.

Definition executeSingleTurn (fuel : nat) : SM (option (outcome error ())) :=
  dmodify (fun d => set_turn (turn d + 1) d);;
  locked_ MarkTurnStarted;;
  t ← dgets turn;
  demit (with_Turn t (event EventTurnStarted));;
  r ← turnLoop fuel;
  match r with
  | Some (Return (Ok _)) =>
      locked_ MarkTurnCompleted;;
      demit (with_Turn t (event EventTurnCompleted));;
      mret r
  | _ => mret r
  end.

(** ** Between turns *)

(** The loop over the drained commands: the pending steer and follow-ups it
    leaves, and the message of the abort that ended it. *)
Fixpoint applyCommands (cmds : list ControlCommand) (steer : string) (fus : list string)
  : (string * list string) * option string :=
  match cmds with
  | [] => ((steer, fus), None)
  | cmd :: rest =>
      match cc_Type cmd with
      | ControlAbort => ((steer, fus), Some (cc_Message cmd))
      | ControlSteer => applyCommands rest (cc_Message cmd) fus
      | ControlFollowUp => applyCommands rest steer (fus ++ [cc_Message cmd])
      | ControlOther _ => applyCommands rest steer fus
      end
  end.

Definition nextPromptFromControlQueue : SM (string * bool) :=
  cmds ← locked (fun a => let '(cmds, q) := Drain (control a) in (cmds, set_control q a));
  steer ← dgets pendingSteer;
  fus ← dgets followUps;
  if bool_decide (length cmds = 0%nat) && bool_decide (length fus = 0%nat) && bool_decide (steer = "")
  then mret ("", true)
  else
    let '((steer', fus'), aborted) := applyCommands cmds steer fus in
    dmodify (set_pending steer' fus');;
    match aborted with
    | Some msg => demit (with_ControlMessage msg (event EventAborted));; mret ("", true)
    | None =>
        if negb (bool_decide (steer' = "")) then dmodify (set_pending "" fus');; mret (steer', false)
        else
          match fus' with
          | [] => mret ("", true)
          | prompt :: rest => dmodify (set_pending steer' rest);; mret (prompt, false)
          end
    end.

Definition appendUserMessage (prompt : string) : SM () :=
  let trimmed := TrimSpace prompt in
  if bool_decide (trimmed = "") then mret ()
  else
    t ← dgets turn;
    agent_Append (mkAgentMessage (t + 1) (MUser (mkUserMessage [TextContent trimmed ""] now)));;
    mret ().

(** How one iteration of the loop of [run] ends. *)
Inductive run_next : Type :=
  | RunAgain (prompt : string)
  | RunReturn
  | RunPanic (v : string)
  | RunNoFuel.

Definition driverError (err : error) : SM () :=
  locked_ RecordError;;
  demit (with_Error err (event EventDriverError));;
  agent_Transition StateIdle;;
  mret ().

Definition runIteration (fuel : nat) (nextPrompt : string) : SM run_next :=
  err ← dgets d_ctxErr;
  match err with
  | Some e =>
      demit (with_ErrorMessage (Error e) (event EventAborted));;
      agent_Transition StateIdle;;
      mret RunReturn
  | None =>
      (if bool_decide (nextPrompt = "") then mret () else appendUserMessage nextPrompt);;
      r ← executeSingleTurn fuel;
      match r with
      | None => mret RunNoFuel
      | Some (Panic v) => mret (RunPanic v)
      | Some (Return (Err e)) => driverError e;; mret RunReturn
      | Some (Return (Ok _)) =>
          '(prompt, done) ← nextPromptFromControlQueue;
          if (done : bool) then agent_Transition StateIdle;; mret RunReturn
          else mret (RunAgain prompt)
      end
  end.

Fixpoint runLoop (turns fuel : nat) (nextPrompt : string) : SM run_next :=
  match turns with
  | O => mret RunNoFuel
  | S turns' =>
      r ← runIteration fuel nextPrompt;
      match r with
      | RunAgain prompt => runLoop turns' fuel prompt
      | _ => mret r
      end
  end.

(** The deferred function of [run]. *)
Definition runDeferred (panicked : option string) : SM () :=
  match panicked with
  | Some v => driverError (ErrText (String.app "native driver panic: " (String.app v (String.app "
" debug_Stack))))
  | None => mret ()
  end;;
  dmodify (set_d_running false);;
  locked_ onDriverIdle.

(** [run]: [false] when the model's fuel (the number of turns, and of provider
    calls per turn) was too small. *)
Definition run (turns fuel : nat) (initialPrompt : string) : SM bool :=
  r ← runLoop turns fuel initialPrompt;
  match r with
  | RunPanic v => runDeferred (Some v);; mret true
  | RunNoFuel => mret false
  | _ => runDeferred None;; mret true
  end.
End NativeDriver.
