(* ===== verification/NativeDriverProps.v ===== *)
(** * NativeDriverProps: what a run of the native driver does

    The conversation a run writes, the prompt it takes next, how it ends and
    that it ends, for any handlers, iteration order, provider and tools, with
    other goroutines acting on the agent while the driver waits. *)

From S2P Require Import Prelude GoStrings AiTypes Transform AgentTypes EventBus ControlQueue Agent AgentConc AgentProps NativeDriver.

Local Open Scope string_scope.
Local Open Scope list_scope.

Section Props.
Context {H V : Type}.
Context (iter : list (Z * H) -> list (Z * H)).
Context (handle : H -> AgentEvent -> eventBus H * V -> eventBus H * V).
Context (provider : nat -> Context -> provider_reply (H := H)).
Context (debug_Stack : string) (now : Z).

Notation St := (Agent H * (NativeDriver (H := H) * V))%type.
Notation SM := (M St).
Notation demit := (demit iter handle).
Notation exec_env := (exec_env iter handle).
Notation agent_Transition := (agent_Transition iter handle).
Notation turnIteration := (turnIteration iter handle provider now).
Notation turnLoop := (turnLoop iter handle provider now).
Notation executeSingleTurn := (executeSingleTurn iter handle provider now).
Notation executeTool := (executeTool iter handle now).
Notation toolLoop := (toolLoop iter handle now).
Notation callProvider := (callProvider iter handle provider now).

Definition drv (s : St) : NativeDriver (H := H) := s.2.1.

(** The driver's own bookkeeping, which no other goroutine touches. *)
Definition dstat (d : NativeDriver (H := H)) :=
  (cfg d, turn d, pendingSteer d, followUps d, d_providerCalls d).

Definition logOf (s : St) : option (list AgentMessage) := ConversationLog <$> session s.1.

(** ** Frames *)

Lemma emit_drv evt s : drv (emit iter (call handle) evt s).2 = drv s.
Proof.
  apply (keeps_emit iter (call handle) (fst : NativeDriver * V -> _)).
  intros h e b [d v]. simpl. by destruct (handle h e (b, v)).
Qed.

Lemma keeps_demit {B} (f : St -> B) evt :
  (forall e, keeps f (emit iter (call handle) e)) -> keeps f (demit evt).
Proof. intros He. unfold demit, dgets. keeps_tac. Qed.

Lemma keeps_core_emit evt : keeps (core ∘ fst) (emit iter (call handle) evt).
Proof. intros s. apply emit_core. Qed.

Lemma keeps_core_demit evt : keeps (core ∘ fst) (demit evt).
Proof. apply keeps_demit, keeps_core_emit. Qed.

Lemma keeps_drv_demit evt : keeps drv (demit evt).
Proof. apply keeps_demit. intros e s. apply emit_drv. Qed.

Lemma keeps_log_core {A} (m : SM A) : keeps (core ∘ fst) m -> keeps logOf m.
Proof. intros Hm s. specialize (Hm s). simpl in Hm. injection Hm as Hs _ _ _. unfold logOf. by rewrite Hs. Qed.

Lemma keeps_log_ext {A} (m : SM A) : (forall s, ext s (m s).2) -> keeps logOf m.
Proof.
  intros Hm s. destruct (Hm s) as (tr & _ & _ & He). unfold logOf.
  destruct (session s.1), (session (m s).2.1); try done. simpl.
  destruct He as (_ & _ & _ & -> & _). by rewrite app_nil_r.
Qed.

Lemma keeps_log_demit evt : keeps logOf (demit evt).
Proof. apply keeps_log_core, keeps_core_demit. Qed.

Lemma keeps_dstat_demit evt : keeps (dstat ∘ drv) (demit evt).
Proof. intros s. simpl. by rewrite (keeps_drv_demit evt s). Qed.

Lemma keeps_log_Transition to : keeps logOf (agent_Transition to).
Proof. unfold agent_Transition. apply keeps_fmap, keeps_log_ext, Transition_ext. Qed.

Lemma call_drv h e b (w : NativeDriver * V) : (call handle h e (b, w)).2.1 = w.1.
Proof. destruct w as [d v]. simpl. by destruct (handle h e (b, v)). Qed.

Lemma keeps_dstat_Transition to : keeps (dstat ∘ drv) (agent_Transition to).
Proof.
  unfold agent_Transition. apply keeps_fmap.
  apply (keeps_Transition iter (call handle) (dstat ∘ fst)).
  intros h e b w. change (dstat (call handle h e (b, w)).2.1 = dstat w.1). by rewrite call_drv.
Qed.

Lemma keeps_dstat_native d :
  Some (native (H := H) (V := V)) = Some d ->
  (forall sess p, keeps ((dstat ∘ fst) ∘ snd) (drv_Start d sess p)) /\
  (forall sess, keeps ((dstat ∘ fst) ∘ snd) (drv_Resume d sess)) /\ keeps ((dstat ∘ fst) ∘ snd) (drv_Stop d).
Proof.
  intros [= <-].
  assert (forall sess p, keeps ((dstat ∘ fst) ∘ snd) (startLoop (H := H) (V := V) sess p)) as Hs.
  { intros sess p [a [d v]]. simpl. by repeat case_match. }
  split_and!; [apply Hs|intros sess; apply Hs|].
  intros [a [d v]]. simpl. by destruct (d_cancel d).
Qed.

Lemma keeps_dstat_env act : keeps (dstat ∘ drv) (exec_env act).
Proof.
  destruct act as [c|e]; [|by intros [a [d v]]]. unfold exec_env, api.
  apply (keeps_exec_api iter (call handle) (Some native) (dstat ∘ fst)); [|apply keeps_dstat_native].
  intros h e b w. change (dstat (call handle h e (b, w)).2.1 = dstat w.1). by rewrite call_drv.
Qed.

(** The other goroutines do everything but append to the log themselves. *)
Definition quiet_log (act : env_action (H := H)) : Prop :=
  match act with EnvCall c => is_append c = false | EnvCancel _ => True end.

Lemma native_laws d : Some (native (H := H) (V := V)) = Some d -> DriverLaw d.
Proof. intros [= <-]. apply native_law. Qed.

Lemma keeps_log_env act : quiet_log act -> keeps logOf (exec_env act).
Proof.
  destruct act as [c|e]; [|by intros _ [a [d v]]]. intros Hq. unfold exec_env, api.
  apply keeps_log_ext. intros s. by apply exec_api_ext; [apply native_laws|].
Qed.

Definition tools_do (P : env_action (H := H) -> Prop) (d : NativeDriver (H := H)) : Prop :=
  forall t n id args act, t ∈ dc_Tools (cfg d) -> TEnv act ∈ tk_stream (at_Execute t n id args) -> P act.
Definition provider_does (P : env_action (H := H) -> Prop) : Prop :=
  forall n cx act, SEnv act ∈ pr_stream (provider n cx) -> P act.

Lemma keeps_locked_dstat {A} (g : Agent H -> A * Agent H) : keeps (dstat ∘ drv) (locked g).
Proof. intros [a w]. unfold locked. simpl. by destruct (g a). Qed.

Lemma keeps_locked__dstat (g : Agent H -> Agent H) : keeps (dstat ∘ drv) (locked_ g).
Proof. by intros [a w]. Qed.

Lemma keeps_log_metrics f :
  (forall m, MessagesAppended (f m) = MessagesAppended m) -> keeps logOf (locked_ (mapMetrics f)).
Proof. intros Hf. apply keeps_log_ext. intros s. by apply mapMetrics_ext. Qed.

Lemma keeps_log_MarkTurnStarted : keeps logOf (locked_ MarkTurnStarted).
Proof. by apply keeps_log_metrics. Qed.
Lemma keeps_log_MarkTurnCompleted : keeps logOf (locked_ MarkTurnCompleted).
Proof. by apply keeps_log_metrics. Qed.
Lemma keeps_log_RecordError : keeps logOf (locked_ RecordError).
Proof. by apply keeps_log_metrics. Qed.

Lemma keeps_locked__drv (g : Agent H -> Agent H) : keeps drv (locked_ g).
Proof. by intros [a w]. Qed.
#[local] Hint Resolve keeps_log_demit keeps_dstat_demit keeps_drv_demit keeps_core_demit
  keeps_log_Transition keeps_dstat_Transition keeps_dstat_env keeps_locked_dstat keeps_locked__dstat
  keeps_locked__drv keeps_log_env : keeps.

(** ** One tool call *)

(** [m] is the log entry that answers the call [tc] in turn [t]. *)
Definition answers (t : Z) (tc : ToolCall) (m : AgentMessage) : Prop :=
  ag_Turn m = t /\
  exists r, ag_Message m = MToolResult r /\ tr_ToolCallID r = tc_ID tc /\ tr_ToolName r = tc_Name tc.

Lemma agent_Append_log m s l :
  logOf s = Some l ->
  (agent_Append m s).1 = Return (Ok ()) /\ logOf (agent_Append m s).2 = Some (l ++ [m]) /\
  drv (agent_Append m s).2 = drv s.
Proof.
  destruct s as [a w]. unfold logOf, agent_Append, fmap, M_fmap, locked, AppendConversation. simpl.
  destruct (session a); simpl; [|done]. by intros [= ->].
Qed.

Lemma appendToolResult_log tc r e s l :
  logOf s = Some l ->
  (appendToolResult iter handle now tc (tc_Name tc) r e s).1 = Return (Ok ()) /\
  exists m, answers (turn (drv s)) tc m /\
    logOf (appendToolResult iter handle now tc (tc_Name tc) r e s).2 = Some (l ++ [m]).
Proof.
  intros Hl. unfold appendToolResult. rewrite M_bind_eq. unfold obind. rewrite M_bind_eq.
  destruct s as [a [d v]]. unfold dgets, gets. cbn [fst snd].
  set (m := mkAgentMessage _ _). destruct (agent_Append_log m (a, (d, v)) l Hl) as (Hr & Hl' & _).
  destruct (agent_Append m (a, (d, v))) as [r1 s1]. cbn [fst snd] in *. rewrite Hr, M_bind_eq.
  assert (answers (turn (drv (a, (d, v)))) tc m) as Ha by (split; [done|eexists; by split_and!]).
  match goal with |- context [demit ?ev s1] => pose proof (keeps_log_demit ev s1) as Hk end.
  destruct (demit _ s1) as [u s2]. cbn [fst snd] in *. rewrite Hl' in Hk.
  destruct e as [e|]; cbn [fst snd]; [|split; [done|by exists m]].
  rewrite !M_bind_eq. split; [done|]. exists m. split; [done|].
  rewrite <- Hk. apply keeps_log_demit.
Qed.

Lemma keeps_dstat_appendToolResult tc n r e :
  keeps (dstat ∘ drv) (appendToolResult iter handle now tc n r e).
Proof. unfold appendToolResult, agent_Append, dgets. keeps_tac. Qed.

#[local] Hint Resolve keeps_dstat_appendToolResult : keeps.

Lemma keeps_log_toolItem P tc it :
  (forall act, P act -> quiet_log act) -> (forall act, it = TEnv act -> P act) ->
  keeps logOf (toolItem iter handle tc it).
Proof.
  intros HP Hit. unfold toolItem, dgets. keeps_tac. apply keeps_log_env. auto.
Qed.

Lemma keeps_dstat_toolItem tc it : keeps (dstat ∘ drv) (toolItem iter handle tc it).
Proof. unfold toolItem, dgets. keeps_tac. Qed.

#[local] Hint Resolve keeps_dstat_toolItem : keeps.

Lemma keeps_dstat_nextToolCall : keeps (dstat ∘ drv) (nextToolCall (H := H) (V := V)).
Proof.
  unfold nextToolCall, dgets, dmodify. keeps_tac. apply keeps_modify. by intros [a' [d v]].
Qed.

Lemma keeps_log_nextToolCall : keeps logOf (nextToolCall (H := H) (V := V)).
Proof. by intros [a [d v]]. Qed.

#[local] Hint Resolve keeps_dstat_nextToolCall keeps_log_nextToolCall : keeps.

Lemma keeps_dstat_executeTool tc : keeps (dstat ∘ drv) (executeTool tc).
Proof. unfold executeTool, dgets. keeps_tac. Qed.

#[local] Hint Resolve keeps_dstat_executeTool : keeps.

Lemma lookupTool_elem d name t : lookupTool (H := H) d name = Some t -> t ∈ dc_Tools (cfg d).
Proof. unfold lookupTool. intros Hf%List.find_some. apply list_elem_of_In. tauto. Qed.

(** Up to its last step, a tool call that finds its tool leaves the log alone. *)
Lemma executeTool_log tc s l :
  tools_do quiet_log (drv s) -> logOf s = Some l ->
  let '(r, s') := executeTool tc s in
  (r = Return (Ok ()) /\ exists m, answers (turn (drv s)) tc m /\ logOf s' = Some (l ++ [m])) \/
  ((exists v, r = Panic v) /\ logOf s' = Some l).
Proof.
  intros Hq Hl. destruct s as [a [d v]]. unfold executeTool. rewrite M_bind_eq.
  unfold dgets, gets. cbn [fst snd].
  destruct (lookupTool d (tc_Name tc)) as [tool|] eqn:Ht.
  2: { match goal with |- context [appendToolResult _ _ _ _ _ ?r ?e ?s] =>
         destruct (appendToolResult_log tc r e s l Hl) as [Hr Hm] end.
       destruct (appendToolResult _ _ _ _ _ _ _ _). by left. }
  apply lookupTool_elem in Ht.
  rewrite !M_bind_eq. cbn [fst snd].
  set (s1 := (locked_ RecordToolStarted (a, (d, v))).2).
  set (ev := with_Tool _ _ _ _). set (s2 := (demit ev _).2).
  set (n := (nextToolCall s2).1). set (s3 := (nextToolCall s2).2).
  set (items := tk_stream _). set (s4 := (for_range items _ s3).2).
  assert (logOf s4 = Some l /\ turn (drv s4) = turn d) as [Hl4 Ht4].
  { assert (keeps logOf (for_range items (toolItem iter handle tc))) as K1.
    { apply keeps_for_range. intros it Hit. apply (keeps_log_toolItem quiet_log); [done|].
      intros act ->. by apply (Hq tool n (tc_ID tc) (tc_Arguments tc)). }
    assert (keeps (dstat ∘ drv) (for_range items (toolItem iter handle tc))) as K2 by keeps_tac.
    unfold s4, s3, s2. split.
    - rewrite K1, keeps_log_nextToolCall, keeps_log_demit.
      rewrite <- Hl. by apply keeps_log_metrics.
    - assert ((dstat ∘ drv) s4 = dstat d) as E.
      { unfold s4. rewrite (K2 s3). unfold s3. rewrite (keeps_dstat_nextToolCall s2).
        unfold s2. by rewrite (keeps_dstat_demit ev). }
      unfold dstat in E. by injection E. }
  destruct (tk_end _) as [[result0 err]|pv]; [|right; split; [by eexists|done]].
  rewrite !M_bind_eq. unfold obind. rewrite !M_bind_eq.
  set (s5 := (locked_ RecordToolFinished s4).2).
  assert (logOf s5 = Some l) as Hl5.
  { rewrite <- Hl4. by apply keeps_log_metrics. }
  assert (turn (drv s5) = turn d) as Ht5 by (rewrite <- Ht4; unfold s5; by rewrite keeps_locked__drv).
  set (result := match err with None => _ | Some _ => _ end).
  destruct (appendToolResult_log tc result err s5 l Hl5) as (Hr & m & Ha & Hm).
  destruct (appendToolResult _ _ _ tc _ result err s5) as [r6 s6]. cbn [fst snd] in *. rewrite Hr.
  rewrite Ht5 in Ha. destruct (at_Terminal tool); [|left; split; [done|by exists m]].
  rewrite M_bind_eq. left. split; [done|]. exists m. split; [done|].
  rewrite <- Hm. apply keeps_log_demit.
Qed.
(** ** The calls of one assistant message *)

Lemma dstat_cfg s s' : dstat (drv s') = dstat (drv s) ->
  cfg (drv s') = cfg (drv s) /\ turn (drv s') = turn (drv s).
Proof. unfold dstat. by intros [= -> -> _ _ _]. Qed.

Lemma tools_do_cfg P (d d' : NativeDriver (H := H)) : cfg d' = cfg d -> tools_do P d -> tools_do P d'.
Proof. unfold tools_do. by intros ->. Qed.

Lemma isTerminalTool_cfg (d d' : NativeDriver (H := H)) name :
  cfg d' = cfg d -> isTerminalTool d' name = isTerminalTool d name.
Proof. unfold isTerminalTool, lookupTool. by intros ->. Qed.

(** Which calls were answered, by how the loop over them ended. *)
Definition loop_end (term : string -> bool) (r : outcome error bool) (done rest : list ToolCall) : Prop :=
  match r with
  | Return (Ok false) => rest = [] /\ Forall (fun tc => term (tc_Name tc) = false) done
  | Return (Ok true) => exists done' tc, done = done' ++ [tc] /\ term (tc_Name tc) = true
  | Return (Err _) => False
  | Panic _ => rest <> []
  end.

Lemma toolLoop_log tcs s l :
  tools_do quiet_log (drv s) -> logOf s = Some l ->
  let '(r, s') := toolLoop tcs s in
  dstat (drv s') = dstat (drv s) /\
  exists done rest ms, tcs = done ++ rest /\ Forall2 (answers (turn (drv s))) done ms /\
    logOf s' = Some (l ++ ms) /\ loop_end (isTerminalTool (drv s)) r done rest.
Proof.
  revert s l. induction tcs as [|tc tcs IH]; intros s l Hq Hl; simpl.
  { split; [done|]. exists [], [], []. rewrite (app_nil_r l). split_and!; done || constructor. }
  unfold obind. rewrite M_bind_eq. pose proof (executeTool_log tc s l Hq Hl) as Hx.
  pose proof (keeps_dstat_executeTool tc s) as Hd. simpl in Hd.
  destruct (executeTool tc s) as [r1 s1]. cbn [fst snd] in *.
  destruct (dstat_cfg _ _ Hd) as [Hcfg Hturn].
  destruct Hx as [(-> & m & Ha & Hl1)|[[v ->] Hl1]]; cycle 1.
  { split; [done|]. exists [], (tc :: tcs), []. by rewrite app_nil_r. }
  rewrite M_bind_eq. destruct s1 as [a1 [d1 v1]]. unfold dgets, gets. cbn [fst snd drv] in *.
  destruct (isTerminalTool d1 (tc_Name tc)) eqn:Hterm.
  - split; [done|]. exists [tc], tcs, [m]. split_and!; try done; [constructor; [done|constructor]|].
    exists [], tc. split; [done|]. by rewrite <- (isTerminalTool_cfg _ _ _ Hcfg).
  - specialize (IH (a1, (d1, v1)) (l ++ [m]) (tools_do_cfg _ _ _ Hcfg Hq) Hl1).
    destruct (toolLoop tcs (a1, (d1, v1))) as [r s']. destruct IH as (Hd' & done & rest & ms & -> & Hf & Hl' & He).
    split; [by rewrite Hd'|]. exists (tc :: done), rest, (m :: ms). split; [done|].
    split; [constructor; [done|]; by rewrite <- Hturn|]. split; [by rewrite Hl', <- app_assoc|].
    cbn [drv fst snd] in *. destruct r as [[[]|]|]; simpl in *; try done.
    + destruct He as (done' & tc' & -> & Ht). exists (tc :: done'), tc'. split; [done|].
      by rewrite <- (isTerminalTool_cfg _ _ _ Hcfg).
    + destruct He as [-> Hall]. split; [done|]. rewrite (isTerminalTool_cfg _ _ _ Hcfg) in Hterm.
      constructor; [done|]. eapply Forall_impl; [exact Hall|]. intros tc'. simpl.
      by rewrite (isTerminalTool_cfg _ _ _ Hcfg).
Qed.

(** ** One exchange with the provider *)

Lemma keeps_dstat_callProvider_cfg s :
  (cfg (drv (callProvider s).2), turn (drv (callProvider s).2)) = (cfg (drv s), turn (drv s)).
Proof.
  set (f := fun s : St => (cfg (drv s), turn (drv s))). change (f (callProvider s).2 = f s). revert s.
  assert (forall A (m : SM A), keeps (dstat ∘ drv) m -> keeps f m) as Hf.
  { intros A m Hm s. specialize (Hm s). unfold f. by injection Hm as -> -> _ _ _. }
  assert (keeps f nextProviderCall) as Hn by (by intros [a [d v]]).
  change (keeps f callProvider). unfold callProvider, dgets. keeps_tac; try done.
  apply Hf. unfold streamItem, dgets. keeps_tac.
Qed.

Lemma callProvider_log s :
  provider_does quiet_log -> logOf (callProvider s).2 = logOf s.
Proof.
  intros Hq. revert s. change (keeps logOf callProvider).
  assert (keeps logOf nextProviderCall) as Hn by (by intros [a [d v]]).
  unfold callProvider, dgets. keeps_tac; try done.
  unfold streamItem, dgets. keeps_tac. apply keeps_log_env. eapply Hq. by subst.
Qed.

(** The entry of an assistant message and the answers to [done]. *)
Definition exchange (t : Z) (a : AssistantMessage) (done : list ToolCall) (ms : list AgentMessage) : Prop :=
  exists rs, ms = mkAgentMessage t (MAssistant a) :: rs /\ Forall2 (answers t) done rs.

(** What one iteration appends, by how it ended. *)
Definition iteration_log (t : Z) (term : string -> bool) (r : outcome error bool) (ms : list AgentMessage) : Prop :=
  match r with
  | Return (Ok true) =>
      exists a, toolCalls (am_Content a) <> [] /\ exchange t a (toolCalls (am_Content a)) ms /\
        Forall (fun tc => term (tc_Name tc) = false) (toolCalls (am_Content a))
  | Return (Ok false) =>
      exists a, (toolCalls (am_Content a) = [] /\ exchange t a [] ms) \/
        (exists done tc rest, toolCalls (am_Content a) = done ++ tc :: rest /\
           exchange t a (done ++ [tc]) ms /\ term (tc_Name tc) = true)
  | Return (Err _) => ms = [] \/ exists a, toolCalls (am_Content a) <> [] /\ exchange t a [] ms
  | Panic _ => ms = [] \/ exists a done rest, toolCalls (am_Content a) = done ++ rest /\ rest <> [] /\ exchange t a done ms
  end.

Lemma agent_Transition_returns to s : exists r, (agent_Transition to s).1 = Return r.
Proof.
  unfold agent_Transition, fmap, M_fmap. destruct (Agent.Transition _ _ _ s) as [r s']. by exists r.
Qed.

Lemma turnIteration_log s l :
  provider_does quiet_log -> tools_do quiet_log (drv s) -> logOf s = Some l ->
  let '(r, s') := turnIteration s in
  (cfg (drv s') = cfg (drv s) /\ turn (drv s') = turn (drv s)) /\
  exists ms, logOf s' = Some (l ++ ms) /\ iteration_log (turn (drv s)) (isTerminalTool (drv s)) r ms.
Proof.
  intros Hp Hq Hl. unfold turnIteration. rewrite M_bind_eq.
  destruct ((dgets d_ctxErr s).1) as [e|].
  { split; [done|]. exists []. rewrite app_nil_r. split; [by destruct s as [? []]|]. by left. }
  assert ((dgets d_ctxErr s).2 = s) as -> by (by destruct s as [? []]).
  unfold obind at 1. rewrite M_bind_eq.
  pose proof (keeps_log_Transition StateStreaming s) as Hl1.
  pose proof (dstat_cfg _ _ (keeps_dstat_Transition StateStreaming s)) as [Hc1 Ht1].
  destruct (agent_Transition_returns StateStreaming s) as [r1 Hr1].
  destruct (agent_Transition StateStreaming s) as [r1' s1]. cbn [fst snd] in *. rewrite Hr1.
  rewrite Hl in Hl1. rewrite <- Hc1, <- Ht1.
  destruct r1 as [[]|e]; cycle 1.
  { split; [done|]. exists []. rewrite app_nil_r. split; [done|]. by left. }
  apply (tools_do_cfg _ _ (drv s1) Hc1) in Hq.
  assert (isTerminalTool (drv s) = isTerminalTool (drv s1)) as ->.
  { unfold isTerminalTool, lookupTool. by rewrite Hc1. }
  clear s Hl Hr1 Hc1 Ht1. rename s1 into s, Hl1 into Hl.
  rewrite M_bind_eq. pose proof (keeps_dstat_callProvider_cfg s) as [= Hc1 Ht1].
  pose proof (callProvider_log s Hp) as Hl1. rewrite Hl in Hl1.
  destruct (callProvider s) as [asst s1]. cbn [fst snd] in *. rewrite M_bind_eq.
  destruct s1 as [a1 [d1 v1]] eqn:Hs1. unfold dgets, gets. cbn [fst snd]. rewrite <- Hs1 in *.
  assert (drv s1 = d1) as Hd1 by (by subst). rewrite <- Hd1. clear d1 Hd1 Hs1 a1 v1.
  destruct asst as [[asst|e]|pv]; cycle 1.
  { rewrite M_bind_eq. set (ev := with_Error _ _).
    pose proof (keeps_log_demit ev s1) as Hl2. pose proof (dstat_cfg _ _ (keeps_dstat_demit ev s1)) as [Hc2 Ht2].
    destruct (demit ev s1) as [u s2]. cbn [fst snd] in *. split; [by rewrite Hc2, Ht2|].
    exists []. rewrite app_nil_r. split; [by rewrite Hl2|]. by left. }
  { split; [done|]. exists []. rewrite app_nil_r. split; [done|]. by left. }
  unfold obind at 1. rewrite M_bind_eq.
  set (m := mkAgentMessage (turn (drv s1)) (MAssistant asst)).
  destruct (agent_Append_log m s1 l Hl1) as (Hr2 & Hl2 & Hd2).
  destruct (agent_Append m s1) as [r2 s2]. cbn [fst snd] in *. rewrite Hr2, M_bind_eq.
  set (ev := with_Message _ _ _). pose proof (keeps_log_demit ev s2) as Hl3.
  pose proof (dstat_cfg _ _ (keeps_dstat_demit ev s2)) as [Hc3 Ht3].
  destruct (demit ev s2) as [u s3]. cbn [fst snd] in *. rewrite Hl2 in Hl3.
  rewrite Hd2, Hc1 in Hc3. rewrite Hd2, Ht1 in Ht3.
  assert (exchange (turn (drv s)) asst [] [m]) as Hex.
  { exists []. split; [|constructor]. by rewrite <- Ht1. }
  unfold extractToolCalls. case_bool_decide as Hcalls.
  { split; [done|]. exists [m]. split; [done|]. exists asst. left. by apply nil_length_inv in Hcalls. }
  assert (toolCalls (am_Content asst) <> []) as Hne by (intros E; by rewrite E in Hcalls).
  unfold obind at 1. rewrite M_bind_eq.
  pose proof (keeps_log_Transition StateToolExecution s3) as Hl4.
  pose proof (dstat_cfg _ _ (keeps_dstat_Transition StateToolExecution s3)) as [Hc4 Ht4].
  destruct (agent_Transition_returns StateToolExecution s3) as [r4 Hr4].
  destruct (agent_Transition StateToolExecution s3) as [r4' s4]. cbn [fst snd] in *. rewrite Hr4.
  rewrite Hl3 in Hl4. rewrite Hc3 in Hc4. rewrite Ht3 in Ht4.
  destruct r4 as [[]|e]; cycle 1.
  { split; [done|]. exists [m]. split; [done|]. right. by exists asst. }
  unfold obind. rewrite M_bind_eq.
  pose proof (toolLoop_log (toolCalls (am_Content asst)) s4 (l ++ [m])
    (tools_do_cfg _ _ _ Hc4 Hq) Hl4) as Hx.
  destruct (toolLoop _ s4) as [r5 s5]. cbn [fst snd].
  destruct Hx as ([Hc5 Ht5]%dstat_cfg & done & rest & ms & Htcs & Hf & Hl5 & He).
  rewrite Hc4 in Hc5. rewrite Ht4 in Ht5, Hf.
  assert (exchange (turn (drv s)) asst done (m :: ms)) as Hex'.
  { exists ms. split; [|done]. by rewrite <- Ht1. }
  assert (isTerminalTool (drv s4) = isTerminalTool (drv s)) as Hterm.
  { unfold isTerminalTool, lookupTool. by rewrite Hc4. }
  rewrite Hterm in He.
  destruct r5 as [[[]|]|pv]; simpl in He; try done; (split; [done|]); exists (m :: ms);
    (split; [by rewrite Hl5, <- app_assoc|]); simpl.
  - destruct He as (done' & tc & -> & Ht). exists asst. right. exists done', tc, rest.
    by rewrite Htcs, <- app_assoc.
  - destruct He as [-> Hall]. rewrite app_nil_r in Htcs. exists asst. rewrite Htcs in Hne |- *. done.
  - right. exists asst, done, rest. done.
Qed.
(** ** One turn *)

Inductive turn_end : Type := TurnFinished | TurnTerminal | TurnBroken.

(** The log a turn writes: full exchanges (an assistant message with calls, and
    the answer to every one of them, in order), closed by an assistant message
    without calls, or by an exchange whose last answer is a terminal tool's, or
    broken off anywhere by an error or a panic. *)
Inductive turn_log (t : Z) (term : string -> bool) : turn_end -> list AgentMessage -> Prop :=
  | tl_nothing : turn_log t term TurnBroken []
  | tl_broken a done rest ms :
      toolCalls (am_Content a) = done ++ rest -> rest <> [] -> exchange t a done ms ->
      turn_log t term TurnBroken ms
  | tl_final a ms : toolCalls (am_Content a) = [] -> exchange t a [] ms -> turn_log t term TurnFinished ms
  | tl_terminal a done tc rest ms :
      toolCalls (am_Content a) = done ++ tc :: rest -> term (tc_Name tc) = true ->
      exchange t a (done ++ [tc]) ms -> turn_log t term TurnTerminal ms
  | tl_more a ms e rest :
      toolCalls (am_Content a) <> [] -> Forall (fun tc => term (tc_Name tc) = false) (toolCalls (am_Content a)) ->
      exchange t a (toolCalls (am_Content a)) ms -> turn_log t term e rest -> turn_log t term e (ms ++ rest).

Definition turn_result_log (t : Z) (term : string -> bool) (r : option (outcome error ())) (ms : list AgentMessage)
  : Prop :=
  match r with
  | Some (Return (Ok _)) => turn_log t term TurnFinished ms \/ turn_log t term TurnTerminal ms
  | _ => turn_log t term TurnBroken ms
  end.

Lemma turn_result_more t term r ms rest a :
  toolCalls (am_Content a) <> [] -> Forall (fun tc => term (tc_Name tc) = false) (toolCalls (am_Content a)) ->
  exchange t a (toolCalls (am_Content a)) ms -> turn_result_log t term r rest ->
  turn_result_log t term r (ms ++ rest).
Proof.
  intros Hne Hall Hex. destruct r as [[[]|]|]; simpl; intros Hr; try by eapply tl_more.
  destruct Hr; [left|right]; by eapply tl_more.
Qed.

Lemma turnLoop_log fuel s l :
  provider_does quiet_log -> tools_do quiet_log (drv s) -> logOf s = Some l ->
  let '(r, s') := turnLoop fuel s in
  (cfg (drv s') = cfg (drv s) /\ turn (drv s') = turn (drv s)) /\
  exists ms, logOf s' = Some (l ++ ms) /\ turn_result_log (turn (drv s)) (isTerminalTool (drv s)) r ms.
Proof.
  intros Hp. revert s l. induction fuel as [|fuel IH]; intros s l Hq Hl; simpl.
  { split; [done|]. exists []. rewrite app_nil_r. split; [done|constructor]. }
  rewrite M_bind_eq. pose proof (turnIteration_log s l Hp Hq Hl) as Hx.
  destruct (turnIteration s) as [r s1]. cbn [fst snd]. destruct Hx as ([Hc Ht] & ms & Hl1 & Hi).
  destruct r as [[[]|e]|v]; simpl in Hi.
  - specialize (IH s1 (l ++ ms) (tools_do_cfg _ _ _ Hc Hq) Hl1).
    destruct (turnLoop fuel s1) as [r s2]. destruct IH as ([Hc2 Ht2] & rest & Hl2 & Hr).
    split; [by rewrite Hc2, Ht2|]. exists (ms ++ rest). split; [by rewrite Hl2, <- app_assoc|].
    destruct Hi as (a & Hne & Hex & Hall). rewrite Ht in Hr.
    assert (isTerminalTool (drv s1) = isTerminalTool (drv s)) as Hterm.
    { unfold isTerminalTool, lookupTool. by rewrite Hc. }
    rewrite Hterm in Hr. by eapply turn_result_more.
  - split; [done|]. exists ms. split; [done|].
    destruct Hi as (a & [[Hn Hex]|(done' & tc & rest & Htcs & Hex & Hterm)]).
    + left. by eapply tl_final.
    + right. by eapply tl_terminal.
  - split; [done|]. exists ms. split; [done|]. destruct Hi as [->|(a & Hne & Hex)]; [constructor|].
    by apply (tl_broken _ _ a [] (toolCalls (am_Content a))).
  - split; [done|]. exists ms. split; [done|].
    destruct Hi as [->|(a & done' & rest & Htcs & Hne & Hex)]; [constructor|]. by eapply tl_broken.
Qed.

Lemma executeSingleTurn_log fuel s l :
  provider_does quiet_log -> tools_do quiet_log (drv s) -> logOf s = Some l ->
  let '(r, s') := executeSingleTurn fuel s in
  (cfg (drv s') = cfg (drv s) /\ turn (drv s') = (turn (drv s) + 1)%Z) /\
  exists ms, logOf s' = Some (l ++ ms) /\
    turn_result_log (turn (drv s) + 1) (isTerminalTool (drv s)) r ms.
Proof.
  intros Hp Hq Hl. destruct s as [a [d v]]. unfold executeSingleTurn. rewrite !M_bind_eq.
  unfold dmodify, modify, dgets, gets. cbn [fst snd].
  set (s1 := (locked_ MarkTurnStarted _).2). set (ev := with_Turn _ _).
  assert (drv s1 = set_turn (turn d + 1) d) as Hd1 by (unfold s1; by rewrite keeps_locked__drv).
  assert (logOf s1 = Some l) as Hl1 by (rewrite <- Hl; exact (keeps_log_MarkTurnStarted _)).
  rewrite <- (keeps_log_demit ev) in Hl1. rewrite <- (keeps_drv_demit ev) in Hd1.
  set (s2 := (demit ev s1).2) in *. clearbody s2.
  assert (tools_do quiet_log (drv s2)) as Hq2 by (apply (tools_do_cfg _ d); [by rewrite Hd1|done]).
  pose proof (turnLoop_log fuel s2 l Hp Hq2 Hl1) as Hx.
  destruct (turnLoop fuel s2) as [r s3]. cbn [fst snd drv] in *.
  rewrite Hd1 in Hx. cbn in Hx. destruct Hx as (Hs3 & ms & Hl3 & Hr).
  destruct r as [[[[]|e]|pv]|]; try (split; [done|]; exists ms; done).
  rewrite !M_bind_eq. set (ev2 := with_Turn _ _).
  set (s4 := (locked_ MarkTurnCompleted s3).2).
  assert (logOf s4 = Some (l ++ ms)) as Hl4 by (rewrite <- Hl3; exact (keeps_log_MarkTurnCompleted _)).
  assert (drv s4 = drv s3) as Hd4 by (unfold s4; by rewrite keeps_locked__drv).
  pose proof (keeps_log_demit ev2 s4) as Hl5. pose proof (keeps_drv_demit ev2 s4) as Hd5.
  destruct (demit ev2 s4) as [u s5]. cbn [fst snd] in *. split.
  - by rewrite Hd5, Hd4.
  - exists ms. split; [by rewrite Hl5|done].
Qed.
(** ** Between turns *)

(** The commands before the first abort, and that abort's reason. *)
Fixpoint beforeAbort (cmds : list ControlCommand) : list ControlCommand * option string :=
  match cmds with
  | [] => ([], None)
  | cmd :: rest =>
      if bool_decide (cc_Type cmd = ControlAbort) then ([], Some (cc_Message cmd))
      else let '(pre, ab) := beforeAbort rest in (cmd :: pre, ab)
  end.

Definition steersOf (cmds : list ControlCommand) : list string :=
  cc_Message <$> filter (fun c => cc_Type c = ControlSteer) cmds.
Definition followUpsOf (cmds : list ControlCommand) : list string :=
  cc_Message <$> filter (fun c => cc_Type c = ControlFollowUp) cmds.

Lemma applyCommands_spec cmds steer fus :
  applyCommands cmds steer fus =
    ((List.last (steersOf (beforeAbort cmds).1) steer, fus ++ followUpsOf (beforeAbort cmds).1), (beforeAbort cmds).2).
Proof.
  revert steer fus. induction cmds as [|[ty msg] cmds IH]; intros steer fus; simpl.
  { by rewrite app_nil_r. }
  destruct ty; simpl; rewrite ?IH; try (by rewrite app_nil_r);
    destruct (beforeAbort cmds) as [pre ab]; cbn [fst snd].
  - change (steersOf (mkControlCommand ControlSteer msg :: pre)) with (msg :: steersOf pre).
    by rewrite last_cons_default.
  - change (followUpsOf (mkControlCommand ControlFollowUp msg :: pre)) with (msg :: followUpsOf pre).
    by rewrite <- app_assoc.
  - done.
Qed.

(** The last steer (the pending one when there is none) and the follow-ups,
    oldest first, that the drained commands leave. *)
Definition steerAfter (d : NativeDriver (H := H)) (cmds : list ControlCommand) : string :=
  List.last (steersOf (beforeAbort cmds).1) (pendingSteer d).
Definition followUpsAfter (d : NativeDriver (H := H)) (cmds : list ControlCommand) : list string :=
  followUps d ++ followUpsOf (beforeAbort cmds).1.

(** The prompt to run next ([None]: stop), the pending steer and the follow-ups kept. *)
Definition chooseNext (steer : string) (fus : list string) : option string * string * list string :=
  if bool_decide (steer = "") then
    match fus with [] => (None, "", []) | p :: rest => (Some p, "", rest) end
  else (Some steer, "", fus).

(** What the driver runs after a turn.  It takes every queued command.  If
    one is an abort, the run ends, the commands queued after it are thrown
    away, and those before it stay pending for a later run.  Otherwise the last
    steer wins over everything, and with no steer the oldest follow-up is next,
    one per turn in the order they were queued; the run ends exactly when
    neither is left.  The agent's session, state and running flag are not
    touched. *)
Theorem nextPrompt_spec a d v :
  let '((prompt, done), (a', (d', v'))) := nextPromptFromControlQueue iter handle (a, (d, v)) in
  let cmds := ch (control a) in
  (session a', running a', state a') = (session a, running a, state a) /\
  control a' = mkControlQueue [] (ch_cap (control a)) (ch_closed (control a)) /\
  match (beforeAbort cmds).2 with
  | Some _ => done = true /\ prompt = "" /\
      pendingSteer d' = steerAfter d cmds /\ followUps d' = followUpsAfter d cmds
  | None =>
      let '(next, steer, fus) := chooseNext (steerAfter d cmds) (followUpsAfter d cmds) in
      prompt = default "" next /\ done = bool_decide (next = None) /\
      pendingSteer d' = steer /\ followUps d' = fus
  end.
Proof.
  unfold nextPromptFromControlQueue. rewrite M_bind_eq. unfold locked. rewrite Drain_all. cbn [fst snd].
  rewrite !M_bind_eq. unfold dgets, gets. cbn [fst snd].
  set (cmds := ch (control a)). set (a1 := set_control _ a).
  destruct (_ && _) eqn:Hempty.
  { apply andb_true_iff in Hempty as [[Hc Hf]%andb_true_iff Hs].
    apply bool_decide_eq_true, nil_length_inv in Hc. apply bool_decide_eq_true, nil_length_inv in Hf.
    apply bool_decide_eq_true in Hs. unfold steerAfter, followUpsAfter. rewrite Hc. simpl.
    rewrite Hs, Hf. by split_and!. }
  rewrite applyCommands_spec. fold (steerAfter d cmds) (followUpsAfter d cmds).
  rewrite M_bind_eq. unfold dmodify, modify. cbn [fst snd].
  set (d1 := set_pending _ _ d).
  destruct (beforeAbort cmds).2 as [msg|].
  - rewrite M_bind_eq. set (ev := with_ControlMessage _ _).
    pose proof (keeps_core_demit ev (a1, (d1, v))) as Hc. pose proof (keeps_drv_demit ev (a1, (d1, v))) as Hd.
    destruct (demit ev (a1, (d1, v))) as [u [a2 [d2 v2]]]. cbn [fst snd drv compose] in *. subst d2.
    apply core_fields in Hc as (Hs & Hr & Hst & Hq). simpl. rewrite Hs, Hr, Hst, Hq. by split_and!.
  - unfold chooseNext. destruct (decide (steerAfter d cmds = "")) as [Hs|Hs].
    + rewrite !(bool_decide_eq_true_2 _ Hs). simpl.
      destruct (followUpsAfter d cmds) as [|p rest] eqn:Hfus; rewrite ?M_bind_eq; simpl; by split_and!.
    + rewrite !(bool_decide_eq_false_2 _ Hs). simpl. rewrite ?M_bind_eq. simpl. by split_and!.
Qed.
(** ** A whole run: the conversation *)

Notation runIteration := (runIteration iter handle provider now).
Notation runLoop := (runLoop iter handle provider now).
Notation run := (run iter handle provider debug_Stack now).

Definition ct (s : St) : DriverConfig (H := H) * Z := (cfg (drv s), turn (drv s)).

Lemma keeps_ct {A} (m : SM A) : keeps (dstat ∘ drv) m -> keeps ct m.
Proof. intros Hm s. specialize (Hm s). unfold ct. by injection Hm as -> -> _ _ _. Qed.

Lemma keeps_ct_nextPrompt : keeps ct (nextPromptFromControlQueue iter handle).
Proof.
  assert (forall st fu, keeps ct (dmodify (H := H) (V := V) (set_pending st fu))) as Hm by (by intros st fu [a [d v]]).
  unfold nextPromptFromControlQueue, dgets. keeps_tac; try apply Hm; apply keeps_ct, keeps_dstat_demit || apply keeps_ct, keeps_locked_dstat.
Qed.

Lemma keeps_log_nextPrompt : keeps logOf (nextPromptFromControlQueue iter handle).
Proof.
  assert (forall st fu, keeps logOf (dmodify (H := H) (V := V) (set_pending st fu))) as Hm by (by intros st fu [a [d v]]).
  unfold nextPromptFromControlQueue, dgets. keeps_tac; try apply Hm.
  intros [a w]. unfold locked. by destruct (Drain (control a)).
Qed.

Lemma keeps_log_driverError e : keeps logOf (driverError iter handle e).
Proof. unfold driverError. keeps_tac. apply keeps_log_RecordError. Qed.

Lemma keeps_ct_driverError e : keeps ct (driverError iter handle e).
Proof. apply keeps_ct. unfold driverError. keeps_tac. Qed.

(** The entry of a user prompt, which opens turn [t + 1]. *)
Definition user_entry (t : Z) (u : list AgentMessage) : Prop :=
  u = [] \/ exists text, text <> "" /\
    u = [mkAgentMessage (t + 1) (MUser (mkUserMessage [TextContent text ""] now))].

Lemma appendUserMessage_log prompt s l :
  logOf s = Some l ->
  let '(_, s') := appendUserMessage now prompt s in
  drv s' = drv s /\ exists u, logOf s' = Some (l ++ u) /\ user_entry (turn (drv s)) u.
Proof.
  intros Hl. unfold appendUserMessage. case_bool_decide as Ht.
  { split; [done|]. exists []. rewrite app_nil_r. split; [done|]. by left. }
  rewrite !M_bind_eq. destruct s as [a [d v]]. unfold dgets, gets. cbn [fst snd].
  set (m := mkAgentMessage _ _). destruct (agent_Append_log m (a, (d, v)) l Hl) as (_ & Hl1 & Hd1).
  destruct (agent_Append m _) as [r s1]. split; [done|]. exists [m]. split; [done|]. right. eauto.
Qed.

(** The log of a run that starts after turn [t]: prompts and turns, numbered
    consecutively; a broken turn is the last one. *)
Inductive run_log (term : string -> bool) : Z -> list AgentMessage -> Prop :=
  | rl_end t : run_log term t []
  | rl_turn t u ms e rest :
      user_entry t u -> turn_log (t + 1) term e ms ->
      (e = TurnBroken -> rest = []) -> run_log term (t + 1) rest ->
      run_log term t (u ++ ms ++ rest).

Lemma run_log_broken term t u ms :
  user_entry t u -> turn_log (t + 1) term TurnBroken ms -> run_log term t (u ++ ms).
Proof. intros Hu Ht. rewrite <- (app_nil_r ms). eapply rl_turn; [done..|constructor]. Qed.

Definition iteration_ended (term : string -> bool) (t : Z) (r : run_next) (ms : list AgentMessage) : Prop :=
  match r with
  | RunAgain _ => exists u ts e, ms = u ++ ts /\ user_entry t u /\ turn_log (t + 1) term e ts /\ e <> TurnBroken
  | _ => run_log term t ms
  end.

Lemma turn_result_ended term t r ms :
  turn_result_log t term r ms -> exists e, turn_log t term e ms /\
    (e = TurnBroken -> r <> Some (Return (Ok ()))).
Proof. destruct r as [[[[]|]|]|]; simpl; [intros []; by eexists|by eexists..]. Qed.

Lemma runIteration_log fuel prompt s l :
  provider_does quiet_log -> tools_do quiet_log (drv s) -> logOf s = Some l ->
  let '(r, s') := runIteration fuel prompt s in
  cfg (drv s') = cfg (drv s) /\
  exists ms, logOf s' = Some (l ++ ms) /\ iteration_ended (isTerminalTool (drv s)) (turn (drv s)) r ms /\
    ((exists p, r = RunAgain p) -> turn (drv s') = (turn (drv s) + 1)%Z).
Proof.
  intros Hp Hq Hl. unfold runIteration. rewrite M_bind_eq.
  assert ((dgets d_ctxErr s).2 = s) as -> by (by destruct s as [? []]).
  destruct ((dgets d_ctxErr s).1) as [e|].
  { rewrite !M_bind_eq. set (ev := with_ErrorMessage _ _).
    pose proof (keeps_log_Transition StateIdle (demit ev s).2) as H1.
    pose proof (keeps_ct _ (keeps_dstat_Transition StateIdle) (demit ev s).2) as H2.
    rewrite keeps_log_demit in H1. rewrite (keeps_ct _ (keeps_dstat_demit ev)) in H2.
    destruct (agent_Transition StateIdle _) as [r s2]. cbn [fst snd] in *. injection H2 as Hc Ht.
    split; [done|]. exists []. rewrite app_nil_r, H1. split_and!; [done|constructor|by intros [? ?]]. }
  rewrite M_bind_eq.
  set (pre := if bool_decide (prompt = "") then _ else _).
  assert (drv (pre s).2 = drv s /\ exists u, logOf (pre s).2 = Some (l ++ u) /\ user_entry (turn (drv s)) u)
    as (Hd1 & u & Hl1 & Hu).
  { unfold pre. case_bool_decide.
    - split; [done|]. exists []. rewrite app_nil_r. split; [done|]. by left.
    - pose proof (appendUserMessage_log prompt s l Hl) as Ha. by destruct (appendUserMessage now prompt s). }
  destruct (pre s) as [v1 s1]. cbn [fst snd] in *. clear pre v1. rewrite M_bind_eq. rewrite <- Hd1 in *.
  clear s Hl Hd1. rename s1 into s, Hl1 into Hl.
  pose proof (executeSingleTurn_log fuel s _ Hp Hq Hl) as Hx.
  destruct (executeSingleTurn fuel s) as [r s1]. destruct Hx as ([Hc Ht] & ms & Hl1 & Hr). cbn [fst snd].
  rewrite <- app_assoc in Hl1.
  assert (forall s2, (cfg (drv s2), turn (drv s2)) = (cfg (drv s1), turn (drv s1)) -> logOf s2 = logOf s1 ->
    cfg (drv s2) = cfg (drv s) /\ turn (drv s2) = (turn (drv s) + 1)%Z /\ logOf s2 = Some (l ++ u ++ ms)) as Hpost.
  { intros s2 [= -> ->] ->. done. }
  destruct r as [[[[]|e]|pv]|].
  - rewrite M_bind_eq.
    pose proof (keeps_log_nextPrompt s1) as H1. pose proof (keeps_ct_nextPrompt s1) as H2.
    destruct (nextPromptFromControlQueue iter handle s1) as [[p [|]] s2]; cbn [fst snd] in *.
    + rewrite M_bind_eq. pose proof (keeps_log_Transition StateIdle s2) as H3.
      pose proof (keeps_ct _ (keeps_dstat_Transition StateIdle) s2) as H4.
      destruct (agent_Transition StateIdle s2) as [r3 s3]. cbn [fst snd] in *.
      destruct (Hpost s3) as (Hc3 & Ht3 & Hl3); [by transitivity (ct s2)|by rewrite H3|].
      split; [done|]. exists (u ++ ms). split_and!; [done| |by intros [? ?]].
      apply turn_result_ended in Hr as (e & He & Hb). simpl. rewrite <- (app_nil_r ms).
      eapply rl_turn; [done..|constructor].
    + destruct (Hpost s2 H2 H1) as (Hc3 & Ht3 & Hl3). split; [done|]. exists (u ++ ms).
      split_and!; [done| |done]. apply turn_result_ended in Hr as (e & He & Hb). exists u, ms, e.
      split_and!; try done. intros ->. by apply Hb.
  - rewrite M_bind_eq.
    pose proof (keeps_log_driverError e s1) as H1. pose proof (keeps_ct_driverError e s1) as H2.
    destruct (driverError iter handle e s1) as [r2 s2]. cbn [fst snd] in *.
    destruct (Hpost s2 H2 H1) as (Hc3 & Ht3 & Hl3). split; [done|]. exists (u ++ ms).
    split_and!; [done| |by intros [? ?]]. by apply run_log_broken.
  - split; [done|]. exists (u ++ ms). split_and!; [done| |by intros [? ?]]. by apply run_log_broken.
  - split; [done|]. exists (u ++ ms). split_and!; [done| |by intros [? ?]]. by apply run_log_broken.
Qed.

Lemma runLoop_log turns fuel prompt s l :
  provider_does quiet_log -> tools_do quiet_log (drv s) -> logOf s = Some l ->
  exists ms, logOf (runLoop turns fuel prompt s).2 = Some (l ++ ms) /\
    run_log (isTerminalTool (drv s)) (turn (drv s)) ms.
Proof.
  intros Hp. revert prompt s l. induction turns as [|turns IH]; intros prompt s l Hq Hl; simpl.
  { exists []. rewrite app_nil_r. split; [done|constructor]. }
  rewrite M_bind_eq. pose proof (runIteration_log fuel prompt s l Hp Hq Hl) as Hx.
  destruct (runIteration fuel prompt s) as [r s1]. cbn [fst snd]. destruct Hx as (Hc & ms & Hl1 & He & Ht).
  destruct r as [p| | |]; [|by exists ms..].
  destruct (IH p s1 (l ++ ms) (tools_do_cfg _ _ _ Hc Hq) Hl1) as (rest & Hl2 & Hr).
  exists (ms ++ rest). split; [by rewrite Hl2, <- app_assoc|].
  rewrite Ht in Hr by eauto.
  assert (isTerminalTool (drv s1) = isTerminalTool (drv s)) as Hterm.
  { unfold isTerminalTool, lookupTool. by rewrite Hc. }
  rewrite Hterm in Hr. destruct He as (u & ts & e & -> & Hu & Hts & Hne).
  rewrite <- app_assoc. by eapply rl_turn.
Qed.

Lemma keeps_log_runDeferred p : keeps logOf (runDeferred iter handle debug_Stack p).
Proof.
  unfold runDeferred. keeps_tac; try apply keeps_log_driverError.
  - by intros [a' [d v]].
  - by intros [a' w].
Qed.

(** C1: the conversation a run writes.  Whatever the provider and the tools
    reply, and whatever other goroutines do to the agent meanwhile (short of
    appending to its log themselves), what the run appends is a sequence of
    turns with consecutive numbers: an optional non-blank user message, then
    exchanges in which an assistant message with tool calls is followed by the
    results of its calls, in the order of the calls and under their ids; every
    exchange but the turn's last is complete; a turn that completes ends with
    an assistant message without calls or with a terminal tool's result; and
    nothing follows a turn that broke off. *)
Theorem run_conversation turns fuel prompt s l :
  provider_does quiet_log -> tools_do quiet_log (drv s) -> logOf s = Some l ->
  exists ms, logOf (run turns fuel prompt s).2 = Some (l ++ ms) /\
    run_log (isTerminalTool (drv s)) (turn (drv s)) ms.
Proof.
  intros Hp Hq Hl. destruct (runLoop_log turns fuel prompt s l Hp Hq Hl) as (ms & Hl1 & Hr).
  exists ms. split; [|done]. rewrite <- Hl1. unfold NativeDriver.run. rewrite M_bind_eq.
  destruct (runLoop turns fuel prompt s) as [[p| |v|] s1]; cbn [fst snd]; rewrite ?M_bind_eq;
    [apply keeps_log_runDeferred..|done].
Qed.
(** ** How a run ends *)

Definition at_rest (s : St) : Prop := state s.1 = StateIdle \/ state s.1 = StateExited.

Lemma agent_Transition_idle s : at_rest (agent_Transition StateIdle s).2.
Proof.
  destruct s as [a w]. unfold at_rest, agent_Transition, fmap, M_fmap.
  destruct (Transition_core iter (call handle) StateIdle a w) as [_ Hc].
  destruct (Agent.Transition _ _ _ _) as [r [a' w']]. cbn [fst snd] in *.
  injection Hc as _ _ Hst _. rewrite Hst. unfold Transition_locked.
  case_bool_decide as Hex; simpl; [by right|]. case_bool_decide as Hid; simpl; [by left|].
  assert (StateIdle ∈ validTransitions (state a)) as Hv by (destruct (state a); set_solver).
  rewrite bool_decide_eq_true_2 by done. by left.
Qed.

Lemma driverError_rest e s : at_rest (driverError iter handle e s).2.
Proof. unfold driverError. rewrite !M_bind_eq. simpl. apply agent_Transition_idle. Qed.

Lemma runIteration_rest fuel prompt s :
  (runIteration fuel prompt s).1 = RunReturn -> at_rest (runIteration fuel prompt s).2.
Proof.
  unfold runIteration. rewrite M_bind_eq. destruct ((dgets d_ctxErr s).1) as [e|].
  { rewrite !M_bind_eq. intros _. apply agent_Transition_idle. }
  rewrite !M_bind_eq. destruct (executeSingleTurn fuel _) as [[[[[]|e]|pv]|] s1]; cbn [fst snd]; try done.
  - rewrite !M_bind_eq. destruct (nextPromptFromControlQueue iter handle s1) as [[p [|]] s2]; cbn [fst snd]; [|done].
    rewrite !M_bind_eq. intros _. apply agent_Transition_idle.
  - rewrite !M_bind_eq. intros _. apply driverError_rest.
Qed.

Lemma runLoop_rest turns fuel prompt s :
  (runLoop turns fuel prompt s).1 = RunReturn -> at_rest (runLoop turns fuel prompt s).2.
Proof.
  revert prompt s. induction turns as [|turns IH]; intros prompt s; simpl; [done|].
  rewrite M_bind_eq. pose proof (runIteration_rest fuel prompt s) as Hr.
  destruct (runIteration fuel prompt s) as [[p| |v|] s1]; cbn [fst snd] in *;
    [apply IH|intros _; by apply Hr|done|done].
Qed.

Lemma runLoop_never_again turns fuel prompt s p : (runLoop turns fuel prompt s).1 <> RunAgain p.
Proof.
  revert prompt s. induction turns as [|turns IH]; intros prompt s; simpl; [done|].
  rewrite M_bind_eq. destruct (runIteration fuel prompt s) as [[p'| |v|] s1]; simpl; by try apply IH.
Qed.

Lemma runDeferred_rest p s :
  (p = None -> at_rest s) ->
  let s' := (runDeferred iter handle debug_Stack p s).2 in
  at_rest s' /\ running s'.1 = false /\ d_running (drv s') = false.
Proof.
  intros Hr s'. subst s'. unfold runDeferred. rewrite !M_bind_eq.
  set (m := match p with Some _ => _ | None => _ end).
  assert (at_rest (m s).2) as Hm by (unfold m; destruct p; [apply driverError_rest|by apply Hr]).
  by destruct (m s) as [u [a [d v]]].
Qed.

(** C23: every end of a run leaves the agent free.  Whether the run was
    cancelled, ended after an abort or with nothing left to do, failed in the
    provider, in a tool or in the agent, or panicked, the agent is then idle
    (exited, if it was stopped meanwhile) and neither the agent nor the driver
    is marked running, so the next prompt is not refused as busy. *)
Theorem run_ends_at_rest turns fuel prompt s :
  let '(returned, s') := run turns fuel prompt s in
  returned = true ->
  (state s'.1 = StateIdle \/ state s'.1 = StateExited) /\ running s'.1 = false /\ d_running (drv s') = false.
Proof.
  unfold NativeDriver.run. rewrite M_bind_eq.
  pose proof (runLoop_rest turns fuel prompt s) as Hr. pose proof (runLoop_never_again turns fuel prompt s) as Hn.
  destruct (runLoop turns fuel prompt s) as [[p| |v|] s1]; cbn [fst snd] in *; [by destruct (Hn p)| | |done].
  - rewrite M_bind_eq. intros _. apply runDeferred_rest. by intros _; apply Hr.
  - rewrite M_bind_eq. intros _. by apply runDeferred_rest.
Qed.

(** ** A run ends *)

(** The control queue and what is pending. *)
Definition pend (s : St) := (control s.1, pendingSteer (drv s), followUps (drv s)).

Definition pendingCount (s : St) : nat :=
  length (ch (control s.1)) + length (followUps (drv s)) + (if bool_decide (pendingSteer (drv s) = "") then 0 else 1).

Definition no_env (act : env_action (H := H)) : Prop := False.

Lemma keeps_pend {A} (m : SM A) : keeps (fun s => control s.1) m -> keeps (dstat ∘ drv) m -> keeps pend m.
Proof. intros Hm Hd s. unfold pend. rewrite (Hm s). specialize (Hd s). by injection Hd as _ _ -> -> _. Qed.

Lemma keeps_control_core {A} (m : SM A) : keeps (core ∘ fst) m -> keeps (fun s => control s.1) m.
Proof. intros Hm s. specialize (Hm s). by injection Hm as _ _ _ ->. Qed.

Lemma keeps_pend_demit evt : keeps pend (demit evt).
Proof. apply keeps_pend; [apply keeps_control_core, keeps_core_demit|apply keeps_dstat_demit]. Qed.

Lemma keeps_pend_Transition to : keeps pend (agent_Transition to).
Proof.
  apply keeps_pend; [|apply keeps_dstat_Transition]. unfold agent_Transition. apply keeps_fmap. intros [a w].
  destruct (Transition_core iter (call handle) to a w) as [_ Hc]. apply core_fields in Hc as (_ & _ & _ & ->).
  unfold Transition_locked. by repeat case_bool_decide.
Qed.

Lemma keeps_pend_Append m : keeps pend (agent_Append m).
Proof.
  unfold agent_Append. apply keeps_fmap. intros [a [d v]]. unfold locked, AppendConversation, pend.
  by destruct (session a) eqn:E.
Qed.

Lemma keeps_pend_metrics f : keeps pend (locked_ (mapMetrics f)).
Proof. intros [a [d v]]. unfold locked_, mapMetrics, pend. simpl. by destruct (session a). Qed.

Lemma keeps_pend_nextToolCall : keeps pend (nextToolCall (H := H) (V := V)).
Proof. by intros [a [d v]]. Qed.
Lemma keeps_pend_nextProviderCall : keeps pend (nextProviderCall (H := H) (V := V)).
Proof. by intros [a [d v]]. Qed.

#[local] Hint Resolve keeps_pend_demit keeps_pend_Transition keeps_pend_Append keeps_pend_metrics
  keeps_pend_nextToolCall keeps_pend_nextProviderCall : keeps.

Lemma keeps_pend_appendToolResult tc n r e : keeps pend (appendToolResult iter handle now tc n r e).
Proof. unfold appendToolResult, dgets. keeps_tac. Qed.

#[local] Hint Resolve keeps_pend_appendToolResult : keeps.

Lemma executeTool_pend tc s : tools_do no_env (drv s) -> pend (executeTool tc s).2 = pend s.
Proof.
  intros Hq. destruct s as [a [d v]]. unfold executeTool. rewrite M_bind_eq. unfold dgets at 1, gets at 1. cbn [fst snd].
  destruct (lookupTool d (tc_Name tc)) as [tool|] eqn:Ht; [|apply keeps_pend_appendToolResult].
  apply lookupTool_elem in Ht. apply (keeps_bind pend).
  { apply keeps_pend_metrics. }
  intros _. unfold dgets. keeps_tac. unfold toolItem, dgets. keeps_tac. exfalso. by eapply Hq; [|subst].
Qed.

Lemma toolLoop_pend tcs s : tools_do no_env (drv s) -> pend (toolLoop tcs s).2 = pend s.
Proof.
  revert s. induction tcs as [|tc tcs IH]; intros s Hq; simpl; [done|].
  unfold obind. rewrite M_bind_eq. pose proof (executeTool_pend tc s Hq) as Hp.
  pose proof (keeps_dstat_executeTool tc s) as [Hc _]%dstat_cfg.
  destruct (executeTool tc s) as [[[[]|e]|pv] s1]; cbn [fst snd] in *; try done.
  rewrite M_bind_eq. destruct s1 as [a1 [d1 v1]]. unfold dgets, gets. cbn [fst snd].
  destruct (isTerminalTool d1 (tc_Name tc)); [done|]. rewrite IH; [done|]. by apply (tools_do_cfg _ _ _ Hc).
Qed.

Lemma keeps_pend_callProvider : provider_does no_env -> keeps pend callProvider.
Proof.
  intros Hq. unfold callProvider, dgets. keeps_tac. unfold streamItem, dgets. keeps_tac.
  exfalso. eapply Hq. by subst.
Qed.

(** From call number [N] on the provider asks for no more tools. *)
Definition provider_settles (N : nat) : Prop :=
  forall n cx a, (N <= n)%nat -> pr_result (provider n cx) = Return (Ok a) -> toolCalls (am_Content a) = [].

Definition pc (s : St) : nat := d_providerCalls (drv s).

Lemma keeps_pc {A} (m : SM A) : keeps (dstat ∘ drv) m -> keeps pc m.
Proof. intros Hm s. specialize (Hm s). unfold pc. by injection Hm as _ _ _ _ ->. Qed.

Lemma callProvider_count s a :
  (callProvider s).1 = Return (Ok a) ->
  pc (callProvider s).2 = S (pc s) /\ exists cx, pr_result (provider (pc s) cx) = Return (Ok a).
Proof.
  unfold callProvider. rewrite M_bind_eq. destruct s as [ag [d v]]. cbn [gets fst snd].
  destruct (session ag) as [se|]; [|done]. rewrite !M_bind_eq. unfold dgets, gets, dmodify, modify. cbn.
  intros Hr. split; [|by eexists].
  apply (keeps_for_range pc). intros it _. apply keeps_pc. unfold streamItem, dgets. keeps_tac.
Qed.

Lemma keeps_dstat_toolLoop tcs : keeps (dstat ∘ drv) (toolLoop tcs).
Proof. induction tcs as [|tc tcs IH]; simpl; unfold dgets; keeps_tac; done. Qed.

Lemma keeps_pc_Append m : keeps pc (agent_Append m).
Proof. apply keeps_pc. unfold agent_Append. keeps_tac. Qed.

(** An iteration that goes round again took one provider call, before the
    provider settled; and no iteration touches what is pending. *)
Lemma turnIteration_again N s :
  provider_does no_env -> tools_do no_env (drv s) -> provider_settles N ->
  let '(r, s') := turnIteration s in
  cfg (drv s') = cfg (drv s) /\ pend s' = pend s /\ (r = Return (Ok true) -> pc s' = S (pc s) /\ (pc s < N)%nat).
Proof.
  intros Hp Hq HN. unfold turnIteration. rewrite M_bind_eq.
  assert ((dgets d_ctxErr s).2 = s) as -> by (by destruct s as [? []]).
  destruct ((dgets d_ctxErr s).1) as [e|]; [done|].
  unfold obind at 1. rewrite M_bind_eq.
  pose proof (keeps_pend_Transition StateStreaming s) as P1.
  pose proof (keeps_pc _ (keeps_dstat_Transition StateStreaming) s) as C1.
  pose proof (keeps_ct _ (keeps_dstat_Transition StateStreaming) s) as [= T1 _].
  destruct (agent_Transition StateStreaming s) as [[[[]|e]|pv] s1]; cbn [fst snd] in *; try done.
  rewrite M_bind_eq. pose proof (keeps_pend_callProvider Hp s1) as P2.
  pose proof (callProvider_count s1) as C2. pose proof (keeps_dstat_callProvider_cfg s1) as [= T2 _].
  rewrite P1 in P2. rewrite T1 in T2. rewrite C1 in C2. clear P1 C1 T1.
  destruct (callProvider s1) as [asst s2]. cbn [fst snd] in *. rewrite M_bind_eq.
  assert ((dgets turn s2).2 = s2) as -> by (by destruct s2 as [? []]).
  destruct asst as [[asst|e]|pv]; [| |done].
  2: { rewrite M_bind_eq. set (ev := with_Error _ _). pose proof (keeps_pend_demit ev s2) as P3.
       pose proof (keeps_ct _ (keeps_dstat_demit ev) s2) as [= T3 _].
       destruct (demit ev s2) as [u s3]. cbn [fst snd] in *. split_and!; [by rewrite T3|by rewrite P3|done]. }
  destruct (C2 asst eq_refl) as [C3 [cx Hcx]]. clear C2.
  unfold obind at 1. rewrite M_bind_eq. set (m := mkAgentMessage _ _).
  pose proof (keeps_pend_Append m s2) as P4. pose proof (keeps_pc_Append m s2) as C4.
  assert (cfg (drv (agent_Append m s2).2) = cfg (drv s2)) as T4.
  { assert (keeps (dstat ∘ drv) (agent_Append (H := H) (V := V) m)) as K by (unfold agent_Append; keeps_tac).
    by apply (dstat_cfg _ _ (K s2)). }
  rewrite P2 in P4. rewrite C3 in C4. rewrite T2 in T4.
  destruct (agent_Append m s2) as [[[[]|e]|pv] s3]; cbn [fst snd] in *; try done.
  rewrite M_bind_eq. set (ev := with_Message _ _ _).
  pose proof (keeps_pend_demit ev s3) as P5. pose proof (keeps_pc _ (keeps_dstat_demit ev) s3) as C5.
  pose proof (keeps_ct _ (keeps_dstat_demit ev) s3) as [= T5 _].
  rewrite P4 in P5. rewrite C4 in C5. rewrite T4 in T5.
  destruct (demit ev s3) as [u s4]. cbn [fst snd] in *. unfold extractToolCalls. case_bool_decide as Hcalls; [done|].
  unfold obind at 1. rewrite M_bind_eq.
  pose proof (keeps_pend_Transition StateToolExecution s4) as P6.
  pose proof (keeps_pc _ (keeps_dstat_Transition StateToolExecution) s4) as C6.
  pose proof (keeps_ct _ (keeps_dstat_Transition StateToolExecution) s4) as [= T6 _].
  rewrite P5 in P6. rewrite C5 in C6. rewrite T5 in T6.
  destruct (agent_Transition StateToolExecution s4) as [[[[]|e]|pv] s5]; cbn [fst snd] in *; try done.
  unfold obind. rewrite M_bind_eq.
  pose proof (toolLoop_pend (toolCalls (am_Content asst)) s5 (tools_do_cfg _ _ _ T6 Hq)) as P7.
  pose proof (keeps_pc _ (keeps_dstat_toolLoop (toolCalls (am_Content asst))) s5) as C7.
  pose proof (keeps_ct _ (keeps_dstat_toolLoop (toolCalls (am_Content asst))) s5) as [= T7 _].
  rewrite P6 in P7. rewrite C6 in C7. rewrite T6 in T7.
  destruct (toolLoop _ s5) as [[[b|e]|pv] s6]; cbn [fst snd] in *; split_and!; try done.
  intros _. split; [done|]. apply Nat.nle_gt. intros Hle. apply Hcalls. by rewrite (HN _ _ _ Hle Hcx).
Qed.
Lemma turnLoop_ends N fuel s :
  provider_does no_env -> tools_do no_env (drv s) -> provider_settles N -> (N - pc s < fuel)%nat ->
  let '(r, s') := turnLoop fuel s in is_Some r /\ cfg (drv s') = cfg (drv s) /\ pend s' = pend s.
Proof.
  intros Hp. revert s. induction fuel as [|fuel IH]; intros s Hq HN Hf; [lia|]. simpl.
  rewrite M_bind_eq. pose proof (turnIteration_again N s Hp Hq HN) as Hx.
  destruct (turnIteration s) as [r s1]. cbn [fst snd]. destruct Hx as (Hc & Hpd & Hagain).
  destruct r as [[[]|e]|pv]; try done.
  destruct (Hagain eq_refl) as [Hpc Hlt].
  specialize (IH s1 (tools_do_cfg _ _ _ Hc Hq) HN). rewrite Hpc in IH.
  destruct (turnLoop fuel s1) as [r s2]. destruct IH as (Hr & Hc2 & Hp2); [lia|].
  split_and!; [done|by rewrite Hc2|by rewrite Hp2].
Qed.

Lemma executeSingleTurn_ends N fuel s :
  provider_does no_env -> tools_do no_env (drv s) -> provider_settles N -> (N < fuel)%nat ->
  let '(r, s') := executeSingleTurn fuel s in is_Some r /\ cfg (drv s') = cfg (drv s) /\ pend s' = pend s.
Proof.
  intros Hp Hq HN Hf. destruct s as [a [d v]]. unfold executeSingleTurn. rewrite !M_bind_eq.
  unfold dmodify, modify, dgets, gets. cbn [fst snd].
  set (s1 := (locked_ MarkTurnStarted _).2). set (ev := with_Turn _ _).
  assert (pend s1 = pend (a, (d, v)) /\ cfg (drv s1) = cfg d) as [P1 T1].
  { unfold s1. split; [exact (keeps_pend_metrics _ _)|]. by rewrite keeps_locked__drv. }
  rewrite <- (keeps_pend_demit ev) in P1. pose proof (keeps_ct _ (keeps_dstat_demit ev) s1) as [= T2 _].
  set (s2 := (demit ev s1).2) in *. clearbody s2.
  pose proof (turnLoop_ends N fuel s2 Hp (tools_do_cfg _ d _ T2 Hq) HN) as Hx.
  destruct (turnLoop fuel s2) as [r s3]. cbn [fst snd]. destruct Hx as (Hr & T3 & P3); [lia|].
  rewrite T2 in T3. rewrite P1 in P3.
  destruct r as [[[[]|e]|pv]|]; try done. rewrite !M_bind_eq. set (ev2 := with_Turn _ _).
  set (s4 := (locked_ MarkTurnCompleted s3).2).
  assert (pend s4 = pend (a, (d, v)) /\ cfg (drv s4) = cfg d) as [P4 T4].
  { unfold s4. split; [rewrite <- P3; exact (keeps_pend_metrics _ _)|]. by rewrite keeps_locked__drv. }
  pose proof (keeps_pend_demit ev2 s4) as P5. pose proof (keeps_ct _ (keeps_dstat_demit ev2) s4) as [= T5 _].
  destruct (demit ev2 s4) as [u s5]. cbn [fst snd] in *. split_and!; [done|by rewrite T5|by rewrite P5].
Qed.

Lemma applyCommands_count cmds steer fus :
  let '((steer', fus'), _) := applyCommands cmds steer fus in
  (length fus' + (if bool_decide (steer' = "") then 0 else 1) <=
   length cmds + length fus + (if bool_decide (steer = "") then 0 else 1))%nat.
Proof.
  revert steer fus. induction cmds as [|[ty msg] cmds IH]; intros steer fus; simpl; [lia|].
  destruct ty; simpl.
  - specialize (IH msg fus). destruct (applyCommands cmds msg fus) as [[st' fus'] ab].
    repeat case_bool_decide; lia.
  - specialize (IH steer (fus ++ [msg])). destruct (applyCommands cmds steer (fus ++ [msg])) as [[st' fus'] ab].
    rewrite length_app in IH. simpl in IH. lia.
  - lia.
  - specialize (IH steer fus). destruct (applyCommands cmds steer fus) as [[st' fus'] ab]. lia.
Qed.

(** Every prompt the driver takes uses up a command or something pending. *)
Lemma nextPrompt_uses s :
  let '((prompt, done), s') := nextPromptFromControlQueue iter handle s in
  done = false -> (pendingCount s' < pendingCount s)%nat /\ cfg (drv s') = cfg (drv s).
Proof.
  destruct s as [a [d v]]. unfold nextPromptFromControlQueue. rewrite M_bind_eq. unfold locked.
  rewrite Drain_all. cbn [fst snd]. rewrite !M_bind_eq. unfold dgets, gets. cbn [fst snd].
  destruct (_ && _) eqn:Hempty; [done|].
  pose proof (applyCommands_count (ch (control a)) (pendingSteer d) (followUps d)) as Hcount.
  destruct (applyCommands _ _ _) as [[steer fus] [msg|]]; rewrite M_bind_eq; [by rewrite M_bind_eq|].
  unfold pendingCount. unfold dmodify, modify. destruct (bool_decide (steer = "")) eqn:Hs; rewrite ?Hs in Hcount; simpl in *.
  - destruct fus as [|p rest]; rewrite ?M_bind_eq; simpl; [done|]. intros _.
    rewrite Hs. unfold drv. simpl in *. split; [lia|done].
  - rewrite ?M_bind_eq. simpl. intros _. unfold drv. simpl in *. split; [lia|done].
Qed.

Lemma runIteration_ends N fuel prompt s :
  provider_does no_env -> tools_do no_env (drv s) -> provider_settles N -> (N < fuel)%nat ->
  let '(r, s') := runIteration fuel prompt s in
  r <> RunNoFuel /\
  ((exists p, r = RunAgain p) -> cfg (drv s') = cfg (drv s) /\ (pendingCount s' < pendingCount s)%nat).
Proof.
  intros Hp Hq HN Hf. unfold runIteration. rewrite M_bind_eq.
  assert ((dgets d_ctxErr s).2 = s) as -> by (by destruct s as [? []]).
  destruct ((dgets d_ctxErr s).1) as [e|].
  { rewrite !M_bind_eq. split; [done|]. by intros [? ?]. }
  rewrite M_bind_eq. set (pre := if bool_decide (prompt = "") then _ else _).
  assert (keeps pend pre /\ keeps (dstat ∘ drv) pre) as [P0 D0].
  { unfold pre, appendUserMessage, dgets. split; keeps_tac. unfold agent_Append. keeps_tac. }
  pose proof (P0 s) as P1. pose proof (keeps_ct _ D0 s) as [= T1 _].
  destruct (pre s) as [u s1]. cbn [fst snd] in *. rewrite M_bind_eq.
  pose proof (executeSingleTurn_ends N fuel s1 Hp (tools_do_cfg _ _ _ T1 Hq) HN Hf) as Hx.
  destruct (executeSingleTurn fuel s1) as [r s2]. cbn [fst snd]. destruct Hx as ([r' ->] & T2 & P2).
  rewrite T1 in T2. rewrite P1 in P2.
  destruct r' as [[[]|e]|pv]; rewrite ?M_bind_eq; [|split; [done|by intros [? ?]]..].
  pose proof (nextPrompt_uses s2) as Hn.
  destruct (nextPromptFromControlQueue iter handle s2) as [[p [|]] s3]; cbn [fst snd]; rewrite ?M_bind_eq.
  - split; [done|by intros [? ?]].
  - destruct (Hn eq_refl) as [Hlt T3]. split; [done|]. intros _. split; [by rewrite T3|].
    assert (pendingCount s2 = pendingCount s) as <-; [|done].
    unfold pendingCount. unfold pend in P2. injection P2 as -> -> ->. done.
Qed.

Lemma runLoop_ends N turns fuel prompt s :
  provider_does no_env -> tools_do no_env (drv s) -> provider_settles N -> (N < fuel)%nat ->
  (pendingCount s < turns)%nat -> (runLoop turns fuel prompt s).1 <> RunNoFuel.
Proof.
  intros Hp. revert prompt s. induction turns as [|turns IH]; intros prompt s Hq HN Hf Ht; [lia|]. simpl.
  rewrite M_bind_eq. pose proof (runIteration_ends N fuel prompt s Hp Hq HN Hf) as Hx.
  destruct (runIteration fuel prompt s) as [[p| |v|] s1]; cbn [fst snd]; destruct Hx as [Hr Ha]; try done.
  destruct Ha as [Hc Hlt]; [by eexists|]. apply IH; [|done..|lia]. by apply (tools_do_cfg _ _ _ Hc).
Qed.

(** C29: a run comes to an end.  If from some call on the provider asks for no
    more tools, and no other goroutine interferes, the run returns: one turn
    for the prompt and at most one for each queued command, follow-up and
    pending steer, each with no more provider calls than it takes to settle. *)
Theorem run_returns N prompt s :
  provider_does no_env -> tools_do no_env (drv s) -> provider_settles N ->
  (run (S (pendingCount s)) (S N) prompt s).1 = true.
Proof.
  intros Hp Hq HN. unfold NativeDriver.run. rewrite M_bind_eq.
  pose proof (runLoop_ends N (S (pendingCount s)) (S N) prompt s Hp Hq HN) as Hr.
  destruct (runLoop _ _ prompt s) as [[p| |v|] s1]; cbn [fst snd] in *; rewrite ?M_bind_eq; try done.
  exfalso. apply Hr; [lia|lia|done].
Qed.
End Props.

#[export] Hint Resolve keeps_log_demit keeps_dstat_demit keeps_drv_demit keeps_core_demit
  keeps_log_Transition keeps_dstat_Transition keeps_dstat_env keeps_locked_dstat keeps_locked__dstat
  keeps_locked__drv : keeps.

(** ** A concrete run *)

Module Scripted.
Definition asst (bs : list ContentBlock) : AssistantMessage :=
  mkAssistantMessage bs "messages" "anthropic" "claude" zeroUsage StopReasonToolUse "" 5.
Definition bash (id : string) : ToolCall := mkToolCall id "bash" ∅ "".

(** The first call asks for a tool, the later ones do not. *)
Definition provider (n : nat) (cx : Context) : provider_reply (H := ()) :=
  match n with
  | O => mkProviderReply [SText "let me look"] (Return (Ok (asst [TextContent "let me look" ""; ToolCallBlock (bash "c1")])))
  | _ => mkProviderReply [SThinking "hm"; SText "done"] (Return (Ok (asst [TextContent "done" ""])))
  end.

Definition bashTool : AgentTool (H := ()) :=
  mkAgentTool (mkTool "bash" "run" "{}") "bash" false
    (fun _ _ _ => mkToolReply [TUpdate (mkAgentToolResult [] "" None false ∅)]
       (inl (mkAgentToolResult [] "" (Some 1%Z) false ∅, Some (ErrText "exit status 1")))).

Definition config : DriverConfig (H := ()) :=
  mkDriverConfig Transform.Examples.target "system" [bashTool] None ∅.

Definition record (h : ()) (e : AgentEvent) (bv : eventBus () * list AgentEventType)
  : eventBus () * list AgentEventType := (bv.1, bv.2 ++ [ev_Type e]).
Definition iter_id (l : list (Z * ())) : list (Z * ()) := l.

Definition agent0 : Agent () :=
  set_bus (subscribe (Some ()) newEventBus).2 (SetSession (Some (mkSession "s" "s" [] [StateIdle] zeroMetrics)) New).

Definition start : Agent () * (NativeDriver * list AgentEventType) :=
  (agent0, (bindAgent (NewNativeDriver config), [])).

(** Prompt the agent, queue a follow-up, and run the loop the driver launched. *)
Definition prompted : Agent () * (NativeDriver * list AgentEventType) :=
  (FollowUp iter_id (call record) "and again"
    (Prompt iter_id (call record) (Some native) "hello" start).2).2.

Definition ran : bool * (Agent () * (NativeDriver * list AgentEventType)) :=
  run iter_id record provider "stack" 9 3 3 "hello" prompted.

Example prompted_launched : (length (d_launched (drv prompted)), d_running (drv prompted), running prompted.1) = (1%nat, true, true).
Proof. vm_compute. reflexivity. Qed.

(** Two turns: the prompt's, with a failed tool call, and the follow-up's. *)
Example ran_log :
  ran.1 = true /\
  logOf ran.2 = Some
    [mkAgentMessage 1 (MUser (mkUserMessage [TextContent "hello" ""] 9));
     mkAgentMessage 1 (MAssistant (asst [TextContent "let me look" ""; ToolCallBlock (bash "c1")]));
     mkAgentMessage 1 (MToolResult (mkToolResultMessage "c1" "bash" [TextContent "exit status 1" ""] true 9));
     mkAgentMessage 1 (MAssistant (asst [TextContent "done" ""]));
     mkAgentMessage 2 (MUser (mkUserMessage [TextContent "and again" ""] 9));
     mkAgentMessage 2 (MAssistant (asst [TextContent "done" ""]))].
Proof. vm_compute. split; reflexivity. Qed.

Lemma no_env_provider (P : env_action -> Prop) : provider_does provider P.
Proof.
  intros [|n] cx act Hin; simpl in Hin.
  - apply list_elem_of_singleton in Hin. discriminate.
  - repeat (apply elem_of_cons in Hin as [Hin|Hin]; [discriminate|]). by apply not_elem_of_nil in Hin.
Defined.

Lemma no_env_tools (P : env_action -> Prop) : tools_do P (drv prompted).
Proof.
  intros t n id args act Ht Hin. change (dc_Tools (cfg (drv prompted))) with [bashTool] in Ht.
  apply list_elem_of_singleton in Ht. subst t. simpl in Hin.
  apply list_elem_of_singleton in Hin. discriminate.
Defined.

Lemma run_conversation_witness :
  exists ms, logOf (run iter_id record provider "stack" 9 3 3 "hello" prompted).2 = Some ([] ++ ms) /\
    run_log 9 (isTerminalTool (drv prompted)) (turn (drv prompted)) ms.
Proof.
  exact (run_conversation iter_id record provider "stack" 9 3 3 "hello" prompted []
    (no_env_provider quiet_log) (no_env_tools quiet_log) eq_refl).
Defined.

Lemma run_ends_at_rest_witness :
  let '(returned, s') := run iter_id record provider "stack" 9 3 3 "hello" prompted in
  returned = true ->
  (state s'.1 = StateIdle \/ state s'.1 = StateExited) /\ running s'.1 = false /\ d_running (drv s') = false.
Proof. exact (run_ends_at_rest iter_id record provider "stack" 9 3 3 "hello" prompted). Defined.

Lemma settles : provider_settles provider 1.
Proof. intros [|n] cx a Hn [= <-]; [by apply Nat.nle_succ_0 in Hn|reflexivity]. Defined.

Lemma run_returns_witness :
  (run iter_id record provider "stack" 9 (S (pendingCount prompted)) 2 "hello" prompted).1 = true.
Proof.
  exact (run_returns iter_id record provider "stack" 9 1 "hello" prompted
    (no_env_provider no_env) (no_env_tools no_env) settles).
Defined.
End Scripted.
