(* ===== verification/AgentService.v ===== *)
(** * AgentService: the in-process session service (internal/agent/service.go)

    [AgentLoopService] owns the sessions of one process.  Objects the code
    shares by pointer live in stores: managed sessions, event receivers and
    turns (a turn is the [sync.Once] and the counter slot behind one [doneTurn]
    closure) have an identity, and a map of session ids points at them, so an id
    that is reused does not bring an old object back.

    The closures the service subscribes are the constructors of [subscriber],
    with what they capture; [handle] runs them.  A close hook is a [hook].

    Drivers, the tool catalogue and the model table are parameters.  A driver is
    what it publishes and returns when it is started, resumed and stopped; its
    own goroutine acts on the agent between requests ([driver_act]).  Sending to
    a full stream blocks until its reader takes an event, so [push] on a full
    buffer hands the oldest event to the reader first. *)

From S2P Require Import Prelude GoStrings AiTypes AgentTypes EventBus ControlQueue Agent AgentConc AgentProps.

Local Set Warnings "-register-all".
Local Open Scope string_scope.
Local Open Scope list_scope.
Local Open Scope stdpp_scope.

(** ** Data *)

Definition turnStreamBufferSize : Z := 256.
Definition sessionStreamBufferSize : Z := 512.

(** api/agent_types.go: [ToolEnvironmentConfig] and [SessionConfig].  The
    environment type is a Go string. *)
Inductive ToolEnvironmentType : Type := ToolEnvUnset | ToolEnvLocal | ToolEnvSandbox | ToolEnvOther (t : string).

Record ToolEnvironmentConfig : Type := mkToolEnvironmentConfig {
  te_Type : ToolEnvironmentType;
  te_SandboxHostAddr : string;
  te_SandboxSessionID : string;
  te_LocalRootDir : string;
}.

Record SessionConfig : Type := mkSessionConfig {
  sc_SessionID : string;
  sc_Driver : string;
  sc_Model : string;
  sc_Provider : string;
  sc_SystemPrompt : string;
  sc_Tools : list string;
  sc_Metadata : gmap string any;
  sc_ToolEnvironment : ToolEnvironmentConfig;
}.

Definition set_SessionID (id : string) (c : SessionConfig) : SessionConfig :=
  mkSessionConfig id (sc_Driver c) (sc_Model c) (sc_Provider c) (sc_SystemPrompt c) (sc_Tools c)
    (sc_Metadata c) (sc_ToolEnvironment c).

(** The subscribed closures: the publisher's, a turn's tracker, a turn
    stream's and a session stream's. *)
Inductive subscriber : Type :=
  | SubPublisher (sessionID : string)
  | SubTracker (ms : nat) (turn : nat)
  | SubTurn (ms : nat) (receiver : nat) (turn : nat)
  | SubSession (sessionID : string) (receiver : nat).

Inductive hook : Type :=
  | HookUnsub (us : list unsub)
  | HookRemoveStream (ms : nat) (receiver : nat).

(** [serviceEventReceiver]: [rc_received] is what its reader took out. *)
Record serviceEventReceiver : Type := mkReceiver {
  rc_ch : list AgentEvent;
  rc_cap : Z;
  rc_closed : bool;
  rc_terminalErr : option error;
  rc_closeHooks : list hook;
  rc_received : list AgentEvent;
}.

(** [managedSession], less its agent, context and creation time. *)
Record managedSession : Type := mkManagedSession {
  ms_config : SessionConfig;
  ms_cancelled : bool;
  ms_started : bool;
  ms_destroyed : bool;
  ms_streams : gset nat;
  ms_turnDone : option nat;
  ms_unsubscribe : option unsub;
}.

(** What a driver publishes and returns. *)
Record driver_spec : Type := mkDriverSpec {
  on_start : option Session -> string -> list AgentEvent * outcome error ();
  on_resume : Session -> list AgentEvent * outcome error ();
  on_stop : list AgentEvent * outcome error ();
}.

(** The service and the stores, less the agents.  A turn maps to whether its
    [once] has fired. *)
Record world : Type := mkWorld {
  sessions : gmap string nat;
  objs : gmap nat managedSession;
  receivers : gmap nat serviceEventReceiver;
  turns : gmap nat bool;
  drivers : gmap nat driver_spec;
  wg : Z;
  published : list (string * AgentEvent);
  maxSess : Z;
  svc_closed : bool;
  publisherSet : bool;
  idCounter : Z;
}.

Definition set_sessions (m : gmap string nat) (w : world) : world :=
  mkWorld m (objs w) (receivers w) (turns w) (drivers w) (wg w) (published w) (maxSess w) (svc_closed w) (publisherSet w) (idCounter w).
Definition set_objs (m : gmap nat managedSession) (w : world) : world :=
  mkWorld (sessions w) m (receivers w) (turns w) (drivers w) (wg w) (published w) (maxSess w) (svc_closed w) (publisherSet w) (idCounter w).
Definition set_receivers (m : gmap nat serviceEventReceiver) (w : world) : world :=
  mkWorld (sessions w) (objs w) m (turns w) (drivers w) (wg w) (published w) (maxSess w) (svc_closed w) (publisherSet w) (idCounter w).
Definition set_turns (m : gmap nat bool) (n : Z) (w : world) : world :=
  mkWorld (sessions w) (objs w) (receivers w) m (drivers w) n (published w) (maxSess w) (svc_closed w) (publisherSet w) (idCounter w).
Definition set_drivers (m : gmap nat driver_spec) (w : world) : world :=
  mkWorld (sessions w) (objs w) (receivers w) (turns w) m (wg w) (published w) (maxSess w) (svc_closed w) (publisherSet w) (idCounter w).
Definition set_published (l : list (string * AgentEvent)) (w : world) : world :=
  mkWorld (sessions w) (objs w) (receivers w) (turns w) (drivers w) (wg w) l (maxSess w) (svc_closed w) (publisherSet w) (idCounter w).
Definition set_svc_closed (b : bool) (w : world) : world :=
  mkWorld (sessions w) (objs w) (receivers w) (turns w) (drivers w) (wg w) (published w) (maxSess w) b (publisherSet w) (idCounter w).
Definition set_idCounter (n : Z) (w : world) : world :=
  mkWorld (sessions w) (objs w) (receivers w) (turns w) (drivers w) (wg w) (published w) (maxSess w) (svc_closed w) (publisherSet w) n.

Definition modify_ms (f : managedSession -> managedSession) (i : nat) (w : world) : world :=
  set_objs (alter f i (objs w)) w.
Definition modify_receiver (f : serviceEventReceiver -> serviceEventReceiver) (i : nat) (w : world) : world :=
  set_receivers (alter f i (receivers w)) w.

(** ** Managed sessions *)

Definition markDestroyed : nat -> world -> world := modify_ms (fun ms =>
  mkManagedSession (ms_config ms) (ms_cancelled ms) (ms_started ms) true (ms_streams ms) (ms_turnDone ms) (ms_unsubscribe ms)).
Definition markStarted : nat -> world -> world := modify_ms (fun ms =>
  mkManagedSession (ms_config ms) (ms_cancelled ms) true (ms_destroyed ms) (ms_streams ms) (ms_turnDone ms) (ms_unsubscribe ms)).
Definition cancel : nat -> world -> world := modify_ms (fun ms =>
  mkManagedSession (ms_config ms) true (ms_started ms) (ms_destroyed ms) (ms_streams ms) (ms_turnDone ms) (ms_unsubscribe ms)).
Definition setTurnDone (fn : option nat) : nat -> world -> world := modify_ms (fun ms =>
  mkManagedSession (ms_config ms) (ms_cancelled ms) (ms_started ms) (ms_destroyed ms) (ms_streams ms) fn (ms_unsubscribe ms)).
Definition clearTurnDone : nat -> world -> world := setTurnDone None.
Definition set_streams (f : gset nat -> gset nat) : nat -> world -> world := modify_ms (fun ms =>
  mkManagedSession (ms_config ms) (ms_cancelled ms) (ms_started ms) (ms_destroyed ms) (f (ms_streams ms)) (ms_turnDone ms) (ms_unsubscribe ms)).
Definition addStream (receiver : nat) : nat -> world -> world := set_streams (fun s => s ∪ {[receiver]}).
Definition removeStream (receiver : nat) : nat -> world -> world := set_streams (fun s => s ∖ {[receiver]}).

Definition isDestroyed (i : nat) (w : world) : bool :=
  match objs w !! i with Some ms => ms_destroyed ms | None => false end.

(** The closure [doneTurn] of [newTurnScopedReceiver]. *)
Definition doneTurn (ms turn : nat) (w : world) : world :=
  match turns w !! turn with
  | Some false => clearTurnDone ms (set_turns (<[turn := true]> (turns w)) (wg w - 1) w)
  | _ => w
  end.

Definition completeActiveTurn (i : nat) (w : world) : world :=
  match objs w !! i with
  | Some ms =>
      let w1 := clearTurnDone i w in
      match ms_turnDone ms with Some t => doneTurn i t w1 | None => w1 end
  | None => w
  end.

(** ** Events *)

Definition normalizeSessionEvent (sessionID : string) (evt : AgentEvent) : AgentEvent :=
  if bool_decide (ev_SessionID evt = "") then with_ids sessionID (ev_DriverSessionID evt) evt else evt.

Definition isTerminalTurnEvent (evt : AgentEvent) : bool :=
  match ev_Type evt with
  | EventTurnCompleted | EventDriverError | EventProviderError | EventAborted => true
  | _ => false
  end.

(** [toAPIEvent]: the API's event has every field but [Error]. *)
Definition toAPIEvent (evt : AgentEvent) : AgentEvent :=
  mkAgentEvent (ev_Type evt) (ev_SessionID evt) (ev_DriverSessionID evt) (ev_State evt) (ev_Turn evt)
    (ev_Message evt) (ev_Assistant evt) (ev_ToolName evt) (ev_ToolCallID evt) (ev_ToolResult evt)
    (ev_Delta evt) (ev_ControlMessage evt) None (ev_ErrorMessage evt) (ev_Metadata evt).

Definition EOF : error := ErrText "EOF".

Definition newServiceEventReceiver (buffer : Z) : serviceEventReceiver :=
  mkReceiver [] (if bool_decide (buffer <= 0)%Z then 1 else buffer) false None [] [].

(** [push]: [false] when the receiver is closed. *)
Definition push (i : nat) (evt : AgentEvent) (w : world) : bool * world :=
  match receivers w !! i with
  | None => (false, w)
  | Some r =>
      if rc_closed r then (false, w)
      else
        let '(taken, rest) :=
          if bool_decide (Z.of_nat (length (rc_ch r)) < rc_cap r)%Z then ([], rc_ch r)
          else (take 1 (rc_ch r), drop 1 (rc_ch r)) in
        (true, modify_receiver (fun r => mkReceiver (rest ++ [toAPIEvent evt]) (rc_cap r) (rc_closed r)
                 (rc_terminalErr r) (rc_closeHooks r) (rc_received r ++ taken)) i w)
  end.

(** [Recv] with an event to return or a closed stream; [None]: it blocks. *)
Definition Recv (i : nat) (w : world) : option (res error AgentEvent) * world :=
  match receivers w !! i with
  | None => (None, w)
  | Some r =>
      match rc_ch r with
      | evt :: rest =>
          (Some (Ok evt), modify_receiver (fun r => mkReceiver rest (rc_cap r) (rc_closed r)
             (rc_terminalErr r) (rc_closeHooks r) (rc_received r ++ [evt])) i w)
      | [] => if rc_closed r then (Some (Err (default EOF (rc_terminalErr r))), w) else (None, w)
      end
  end.

(** ** Hooks and handlers

    They run on the bus of the session's agent and the world. *)

Definition runHook (h : hook) (s : eventBus subscriber * world) : eventBus subscriber * world :=
  let '(b, w) := s in
  match h with
  | HookUnsub us => (foldl (fun b u => unsubscribe u b) b us, w)
  | HookRemoveStream ms r => (b, removeStream r ms w)
  end.

Definition closeWithError (i : nat) (err : error) (s : eventBus subscriber * world)
  : eventBus subscriber * world :=
  let '(b, w) := s in
  match receivers w !! i with
  | None => (b, w)
  | Some r =>
      if rc_closed r then (b, w)
      else
        foldl (fun s h => runHook h s)
          (b, modify_receiver (fun r => mkReceiver (rc_ch r) (rc_cap r) true (Some err) [] (rc_received r)) i w)
          (rc_closeHooks r)
  end.

Definition setCloseHook (i : nat) (h : hook) (s : eventBus subscriber * world) : eventBus subscriber * world :=
  let '(b, w) := s in
  match receivers w !! i with
  | None => (b, w)
  | Some r =>
      if rc_closed r then runHook h (b, w)
      else (b, modify_receiver (fun r => mkReceiver (rc_ch r) (rc_cap r) (rc_closed r) (rc_terminalErr r)
                  (rc_closeHooks r ++ [h]) (rc_received r)) i w)
  end.

Definition sessionIDOf (ms : nat) (w : world) : string :=
  match objs w !! ms with Some m => sc_SessionID (ms_config m) | None => "" end.

Definition handle (h : subscriber) (evt : AgentEvent) (s : eventBus subscriber * world)
  : eventBus subscriber * world :=
  let '(b, w) := s in
  match h with
  | SubPublisher sid => (b, set_published (published w ++ [(sid, normalizeSessionEvent sid evt)]) w)
  | SubTracker ms turn =>
      if isTerminalTurnEvent (normalizeSessionEvent (sessionIDOf ms w) evt) then (b, doneTurn ms turn w) else (b, w)
  | SubTurn ms r turn =>
      let event := normalizeSessionEvent (sessionIDOf ms w) evt in
      let '(pushed, w1) := push r event w in
      if negb pushed then (b, w1)
      else if isTerminalTurnEvent event then
        let '(b2, w2) := closeWithError r EOF (b, w1) in (b2, doneTurn ms turn w2)
      else (b, w1)
  | SubSession sid r => (b, (push r (normalizeSessionEvent sid evt) w).2)
  end.

(** ** Errors *)

Definition newServiceError (code : ServiceCode) (msg : string) (cause : option error) : error :=
  ServiceError code msg cause.

Definition mapServiceError (err : error) : error :=
  match errors_As_ServiceError err with
  | Some svcErr => svcErr
  | None =>
      if errors_Is IsBusy err then newServiceError CodeFailedPrecondition (Error err) (Some err)
      else if errors_Is IsInvalidState err then newServiceError CodeFailedPrecondition (Error err) (Some err)
      else if errors_Is IsStopped err then newServiceError CodeFailedPrecondition (Error err) (Some err)
      else if errors_Is IsCanceled err then newServiceError CodeCanceled (Error err) (Some err)
      else if errors_Is IsDeadlineExceeded err then newServiceError CodeDeadlineExceeded (Error err) (Some err)
      else newServiceError CodeInternal (Error err) (Some err)
  end.

(** [safeCall]: a panic becomes an error. *)
Definition safeCall (r : outcome error ()) : res error () :=
  match r with
  | Return r => r
  | Panic v => Err (ErrText (String.app "agent driver panic: " v))
  end.

(** ** Resume log *)

(** api/agent_types.go: [AgentMessageRecord]; the content is opaque JSON. *)
Record AgentMessageRecord : Type := mkAgentMessageRecord {
  re_Turn : Z;
  re_Role : string;
  re_Content : string;
}.

Definition AgentMessageRoleUser : string := "user".
Definition AgentMessageRoleAssistant : string := "assistant".
Definition AgentMessageRoleToolResult : string := "tool_result".
Definition CurrentConversationSchemaVersion : Z := 1.

(** The warnings of [validateAndDecodeResumeLog]. *)
Inductive warning : Type :=
  | NonContiguousTurns (index from to : Z)
  | SameRole (role : string) (index : Z)
  | UnknownTool (tool : string) (index : Z).

Section Resume.
Context (RecordToAgentMessage : AgentMessageRecord -> res error AgentMessage).
Context (toolSet : gset string).

(** The checks of the loop body against the previous record, for [i > 0]. *)
Definition turnWarnings (i : Z) (rec : AgentMessageRecord) (prevTurn : Z) (prevRole : string) : list warning :=
  (if bool_decide (re_Turn rec > prevTurn + 1)%Z then [NonContiguousTurns (i - 1) prevTurn (re_Turn rec)] else []) ++
  (if bool_decide (prevRole = re_Role rec) then [SameRole (re_Role rec) i] else []).

Definition toolWarnings (i : Z) (msg : AgentMessage) : list warning :=
  match ag_Message msg with
  | MToolResult r => if bool_decide (tr_ToolName r ∈ toolSet) then [] else [UnknownTool (tr_ToolName r) i]
  | _ => []
  end.

Definition knownRole (role : string) : bool :=
  bool_decide (role = AgentMessageRoleUser) || bool_decide (role = AgentMessageRoleAssistant) ||
  bool_decide (role = AgentMessageRoleToolResult).

Fixpoint resumeLoop (i : Z) (records : list AgentMessageRecord) (prevTurn : Z) (prevRole : string)
  : res error (list AgentMessage * list warning) :=
  match records with
  | [] => Ok ([], [])
  | rec :: rest =>
      if negb (knownRole (re_Role rec)) then
        Err (newServiceError CodeInvalidArgument
          (String.app "unknown role " (String.app (quote (re_Role rec)) (String.app " at index " (pretty i)))) None)
      else
        match RecordToAgentMessage rec with
        | Err e =>
            Err (newServiceError CodeInvalidArgument
              (String.app "invalid record at index " (String.app (pretty i) (String.app ": " (Error e)))) (Some e))
        | Ok msg =>
            if bool_decide (i > 0)%Z && bool_decide (re_Turn rec < prevTurn)%Z then
              Err (newServiceError CodeInvalidArgument
                (String.app "turn number decreased at index " (String.app (pretty i) (String.app ": "
                  (String.app (pretty (re_Turn rec)) (String.app " < " (pretty prevTurn)))))) None)
            else
              match resumeLoop (i + 1) rest (re_Turn rec) (re_Role rec) with
              | Err e => Err e
              | Ok (msgs, warns) =>
                  Ok (msg :: msgs,
                      (if bool_decide (i > 0)%Z then turnWarnings i rec prevTurn prevRole else []) ++
                      toolWarnings i msg ++ warns)
              end
        end
  end.

Definition validateAndDecodeResumeLog (records : list AgentMessageRecord)
  : res error (list AgentMessage * list warning) :=
  match records with
  | [] => Ok ([], [])
  | first :: _ => resumeLoop 0 records (re_Turn first) ""
  end.
End Resume.

(** ** Tool catalogue *)

Definition validateToolEnvironment (cfg : ToolEnvironmentConfig) : res error () :=
  match te_Type cfg with
  | ToolEnvUnset | ToolEnvLocal => Ok ()
  | ToolEnvSandbox =>
      Err (newServiceError CodeFailedPrecondition "sandbox tool environment is not configured in AgentLoopService" None)
  | ToolEnvOther t =>
      Err (newServiceError CodeInvalidArgument (String.app "unknown tool environment type " (quote t)) None)
  end.

(** [buildNoopTools]: the name, and what [Execute] returns. *)
Record noopTool : Type := mkNoopTool {
  nt_Name : string;
  nt_Result : AgentToolResult;
  nt_Err : error;
}.

Definition buildNoopTools (names : list string) : list noopTool :=
  (fun name => mkNoopTool name
     (mkAgentToolResult [TextContent "tool execution not configured" ""] "" None true ∅)
     (ErrText (String.app "tool " (String.app (quote name) " execution not configured")))) <$> names.

Definition defaultToolCatalogFactory (cfg : SessionConfig) : res error (list noopTool) :=
  match validateToolEnvironment (sc_ToolEnvironment cfg) with
  | Err e => Err e
  | Ok _ => Ok (buildNoopTools (sc_Tools cfg))
  end.

Definition matchesLabelFilter (cfg : SessionConfig) (labels : gmap string string) : bool :=
  if bool_decide (labels = ∅) then true
  else if bool_decide (sc_Metadata cfg = ∅) then false
  else forallb (fun '(key, expected) =>
    match sc_Metadata cfg !! key with
    | Some (AString got) => bool_decide (got = expected)
    | _ => false
    end) (map_to_list labels).

(** [generateSessionID]: the atomic counter wraps at 64 bits. *)
Definition generateSessionID (w : world) : string * world :=
  let n := u64 (idCounter w + 1) in
  (String.app "agent-" (hex08 n), set_idCounter n w).

(** ** The service *)

Record service : Type := mkService {
  agents : gmap nat (Agent subscriber);
  wd : world;
}.

Notation AM' := (M (Agent subscriber * world)).
Notation SV := (M service).

(** An act of a session's driver goroutine on its agent. *)
Inductive driver_act : Type :=
  | DEmit (evt : AgentEvent)
  | DTransition (to : AgentState)
  | DAppend (m : AgentMessage)
  | DIdle.

Record SessionSummary : Type := mkSessionSummary {
  su_SessionID : string;
  su_State : AgentState;
}.

Record GetSessionResponse : Type := mkGetSessionResponse {
  gs_SessionID : string;
  gs_State : AgentState;
  gs_Metrics : SessionMetrics;
  gs_ConversationLen : Z;
}.

Record ResumeSessionRequest : Type := mkResumeSessionRequest {
  rr_Config : SessionConfig;
  rr_SchemaVersion : Z;
  rr_ConversationLog : list AgentMessageRecord;
}.

Section Service.
Context (iter : list (Z * subscriber) -> list (Z * subscriber)).
Context (order_sessions : list (string * nat) -> list (string * nat)).
Context (order_streams : list nat -> list nat).
Context {Tools : Type}.
Context (GetModel : string -> string -> res error Model).
Context (toolFactory : SessionConfig -> res error Tools).
Context (driverFactory : string -> Model -> Tools -> SessionConfig -> res error driver_spec).
Context (RecordToAgentMessage : AgentMessageRecord -> res error AgentMessage).

Notation emitA := (emit iter handle).

(** The driver a specification stands for: it publishes and returns. *)
Definition mkDriver (sp : driver_spec) : AgentDriver subscriber world :=
  mkAgentDriver
    (fun s p => for_range (on_start sp s p).1 emitA;; mret (on_start sp s p).2)
    (fun s => for_range (on_resume sp s).1 emitA;; mret (on_resume sp s).2)
    (for_range (on_stop sp).1 emitA;; mret (on_stop sp).2).

Definition driverOf (i : nat) (w : world) : option (AgentDriver subscriber world) := mkDriver <$> drivers w !! i.

Definition wgets {A} (f : world -> A) : SV A := gets (fun s => f (wd s)).
Definition wmodify (f : world -> world) : SV () := modify (fun s => mkService (agents s) (f (wd s))).
Definition wrun {A} (f : world -> A * world) : SV A :=
  fun s => let '(r, w) := f (wd s) in (r, mkService (agents s) w).

(** Run a method of the agent of object [i]; objects keep their agent. *)
Definition onAgent {A} (i : nat) (dflt : A) (m : AM' A) : SV A :=
  fun s =>
    match agents s !! i with
    | None => (dflt, s)
    | Some a => let '(r, (a', w')) := m (a, wd s) in (r, mkService (<[i := a']> (agents s)) w')
    end.

(** Run a change of the agent's bus and of the world. *)
Definition onBus (i : nat) (f : eventBus subscriber * world -> eventBus subscriber * world) : SV () :=
  onAgent i () (fun '(a, w) => let '(b, w') := f (bus a, w) in ((), (set_bus b a, w'))).

Definition agentState (i : nat) : SV AgentState :=
  gets (fun s => match agents s !! i with Some a => state a | None => StateExited end).
Definition agentSession (i : nat) : SV (option Session) :=
  gets (fun s => match agents s !! i with Some a => session a | None => None end).
Definition agentConversationLen (i : nat) : SV Z :=
  gets (fun s => match agents s !! i with Some a => ConversationLen a | None => 0%Z end).

Definition notFound (id : string) : error :=
  newServiceError CodeNotFound (String.app "session " (String.app (quote id) " not found")) None.

Definition getSession (id : string) : SV (res error nat) :=
  wgets (fun w =>
    match sessions w !! id with
    | Some i => if isDestroyed i w then Err (notFound id) else Ok i
    | None => Err (notFound id)
    end).

(** [newManagedSessionLocked]. *)
Definition newManagedSessionLocked (cfg : SessionConfig) (conversation : list AgentMessage) : SV (res error nat) :=
  match GetModel (sc_Provider cfg) (sc_Model cfg) with
  | Err e => mret (Err (newServiceError CodeInvalidArgument (Error e) (Some e)))
  | Ok model =>
      match toolFactory cfg with
      | Err e =>
          mret (Err match errors_As_ServiceError e with
                    | Some svcErr => svcErr
                    | None => newServiceError CodeInvalidArgument (Error e) (Some e)
                    end)
      | Ok tools =>
          match driverFactory (sc_Driver cfg) model tools cfg with
          | Err e => mret (Err (newServiceError CodeInvalidArgument (Error e) (Some e)))
          | Ok driver => fun s =>
              let w := wd s in
              let i := fresh (dom (objs w)) in
              let a0 := SetSession (Some (mkSession (sc_SessionID cfg) (sc_SessionID cfg) conversation
                          [StateIdle] zeroMetrics)) New in
              let '(unsubscribe, b) :=
                if publisherSet w
                then let '((_, u), b) := subscribe (Some (SubPublisher (sc_SessionID cfg))) (bus a0) in (Some u, b)
                else (None, bus a0) in
              let ms := mkManagedSession cfg false false false ∅ None unsubscribe in
              (Ok i, mkService (<[i := set_bus b a0]> (agents s))
                       (set_drivers (<[i := driver]> (drivers w)) (set_objs (<[i := ms]> (objs w)) w)))
          end
      end
  end.

(** The shared part of [CreateSession] and [ResumeSession] up to the id. *)
Definition admit_session (cfg : SessionConfig) : SV (res error SessionConfig) :=
  closed ← wgets svc_closed;
  if (closed : bool) then mret (Err (newServiceError CodeUnavailable "service is closing" None))
  else
    full ← wgets (fun w => bool_decide (maxSess w > 0)%Z && bool_decide (Z.of_nat (size (sessions w)) >= maxSess w)%Z);
    if (full : bool) then mret (Err (newServiceError CodeResourceExhausted "max sessions reached" None))
    else
      sessionID ← (if bool_decide (sc_SessionID cfg = "") then wrun generateSessionID else mret (sc_SessionID cfg));
      exists_ ← wgets (fun w => bool_decide (is_Some (sessions w !! sessionID)));
      if (exists_ : bool)
      then mret (Err (newServiceError CodeAlreadyExists
             (String.app "session " (String.app (quote sessionID) " already exists")) None))
      else mret (Ok (set_SessionID sessionID cfg)).

Definition CreateSession (req : option SessionConfig) : SV (outcome error SessionSummary) :=
  match req with
  | None => mret (Return (Err (newServiceError CodeInvalidArgument "nil request" None)))
  | Some cfg0 =>
      ok ← admit_session cfg0;
      match ok with
      | Err e => mret (Return (Err e))
      | Ok cfg =>
          ms ← newManagedSessionLocked cfg [];
          match ms with
          | Err e => mret (Return (Err e))
          | Ok i =>
              wmodify (fun w => set_sessions (<[sc_SessionID cfg := i]> (sessions w)) w);;
              st ← agentState i;
              mret (Return (Ok (mkSessionSummary (sc_SessionID cfg) st)))
          end
      end
  end.

Definition GetSession (req : option string) : SV (outcome error GetSessionResponse) :=
  match req with
  | None | Some "" => mret (Return (Err (newServiceError CodeInvalidArgument "session_id is required" None)))
  | Some id =>
      ms ← getSession id;
      match ms with
      | Err e => mret (Return (Err e))
      | Ok i =>
          sess ← agentSession i;
          match sess with
          | None => mret (Return (Err (newServiceError CodeInternal "session state unavailable" None)))
          | Some s =>
              st ← agentState i;
              n ← agentConversationLen i;
              mret (Return (Ok (mkGetSessionResponse id st (Metrics s) n)))
          end
      end
  end.

Definition ListSessions (filter : gmap string string) : SV (outcome error (list SessionSummary)) :=
  l ← gets (fun s =>
    omap (fun '(id, i) =>
      match objs (wd s) !! i, agents s !! i with
      | Some ms, Some a =>
          if negb (matchesLabelFilter (ms_config ms) filter) then None
          else if ms_destroyed ms then None
          else Some (mkSessionSummary id (state a))
      | _, _ => None
      end) (order_sessions (map_to_list (sessions (wd s)))));
  mret (Return (Ok l)).

(** [newTurnScopedReceiver]: the receiver and the [doneTurn] closure's turn. *)
Definition newTurnScopedReceiver (i : nat) : SV (nat * nat) :=
  r ← wrun (fun w => let r := fresh (dom (receivers w)) in
    (r, set_receivers (<[r := newServiceEventReceiver turnStreamBufferSize]> (receivers w)) w));
  t ← wrun (fun w => let t := fresh (dom (turns w)) in
    (t, set_turns (<[t := false]> (turns w)) (wg w + 1) w));
  wmodify (setTurnDone (Some t) i);;
  unsubTracker ← onAgent i UnsubNoop (Subscribe (Some (SubTracker i t)));
  unsubTurn ← onAgent i UnsubNoop (Subscribe (Some (SubTurn i r t)));
  onBus i (setCloseHook r (HookUnsub [unsubTurn; unsubTracker]));;
  wmodify (addStream r i);;
  onBus i (setCloseHook r (HookRemoveStream i r));;
  mret (r, t).

(** [safeCallStartOrPrompt]; a prompt is a start on the agent's own session. *)
Definition safeCallStartOrPrompt (i : nat) (message : string) : SV (res error ()) :=
  started ← wgets (fun w => match objs w !! i with Some ms => ms_started ms | None => false end);
  d ← wgets (driverOf i);
  r ← (if negb started
       then sess ← agentSession i; onAgent i (Return (Ok ())) (Start iter handle d sess message)
       else onAgent i (Return (Ok ())) (Prompt iter handle d message));
  mret (safeCall r).

(** The end of [SendMessage] and [Continue]. *)
Definition finishTurnCall (i r t : nat) (callErr : res error ()) : SV (outcome error nat) :=
  match callErr with
  | Err e =>
      wmodify (doneTurn i t);;
      onBus i (closeWithError r EOF);;
      mret (Return (Err (mapServiceError e)))
  | Ok _ => wmodify (markStarted i);; mret (Return (Ok r))
  end.

Definition withSession {A} (id : option string) (k : string -> nat -> SV (outcome error A)) : SV (outcome error A) :=
  match id with
  | None => mret (Return (Err (newServiceError CodeInvalidArgument "nil request" None)))
  | Some sid =>
      if bool_decide (sid = "") then mret (Return (Err (newServiceError CodeInvalidArgument "session_id is required" None)))
      else
        ms ← getSession sid;
        match ms with
        | Err e => mret (Return (Err e))
        | Ok i => k sid i
        end
  end.

Definition SendMessage (id : option string) (message : string) : SV (outcome error nat) :=
  withSession id (fun _ i =>
    '(r, t) ← newTurnScopedReceiver i;
    callErr ← safeCallStartOrPrompt i message;
    finishTurnCall i r t callErr).

Definition ContinueSession (id : option string) : SV (outcome error nat) :=
  withSession id (fun _ i =>
    '(r, t) ← newTurnScopedReceiver i;
    d ← wgets (driverOf i);
    callErr ← onAgent i (Return (Ok ())) (Continue d);
    finishTurnCall i r t (safeCall callErr)).

(** [if err := ms.agent.X(...); err != nil { return nil, mapServiceError(err) }]. *)
Definition mapOutcome (r : outcome error ()) : outcome error () :=
  match r with Return (Err e) => Return (Err (mapServiceError e)) | _ => r end.

Definition SteerSession (id : option string) (message : string) : SV (outcome error ()) :=
  withSession id (fun _ i =>
    st ← agentState i;
    if bool_decide (st = StateIdle)
    then mret (Return (Err (newServiceError CodeFailedPrecondition "cannot steer while idle" None)))
    else mapOutcome <$> onAgent i (Return (Ok ())) (Steer iter handle message)).

Definition FollowUpSession (id : option string) (message : string) : SV (outcome error ()) :=
  withSession id (fun _ i => mapOutcome <$> onAgent i (Return (Ok ())) (FollowUp iter handle message)).

Definition AbortSession (id : option string) (reason : string) : SV (outcome error ()) :=
  withSession id (fun _ i => mapOutcome <$> onAgent i (Return (Ok ())) (Abort iter handle reason)).

Definition SubscribeEvents (id : option string) : SV (outcome error nat) :=
  withSession id (fun sid i =>
    r ← wrun (fun w => let r := fresh (dom (receivers w)) in
      (r, set_receivers (<[r := newServiceEventReceiver sessionStreamBufferSize]> (receivers w)) w));
    st ← agentState i;
    wmodify (fun w => (push r (normalizeSessionEvent sid (with_State st (event EventStateChange))) w).2);;
    u ← onAgent i UnsubNoop (Subscribe (Some (SubSession sid r)));
    onBus i (setCloseHook r (HookUnsub [u]));;
    wmodify (addStream r i);;
    onBus i (setCloseHook r (HookRemoveStream i r));;
    mret (Return (Ok r))).

Definition ResumeSession (req : option ResumeSessionRequest) : SV (outcome error (string * AgentState * Z * list warning)) :=
  match req with
  | None => mret (Return (Err (newServiceError CodeInvalidArgument "nil request" None)))
  | Some rq =>
      if negb (bool_decide (rr_SchemaVersion rq = CurrentConversationSchemaVersion)) then
        mret (Return (Err (newServiceError CodeInvalidArgument
          (String.app "schema version " (String.app (pretty (rr_SchemaVersion rq))
            (String.app " unsupported, expected " (pretty CurrentConversationSchemaVersion)))) None)))
      else
        ok ← admit_session (rr_Config rq);
        match ok with
        | Err e => mret (Return (Err e))
        | Ok cfg =>
            match validateAndDecodeResumeLog RecordToAgentMessage (list_to_set (sc_Tools cfg)) (rr_ConversationLog rq) with
            | Err e => mret (Return (Err e))
            | Ok (conversation, warnings) =>
                ms ← newManagedSessionLocked cfg conversation;
                match ms with
                | Err e => mret (Return (Err e))
                | Ok i =>
                    wmodify (markStarted i);;
                    wmodify (fun w => set_sessions (<[sc_SessionID cfg := i]> (sessions w)) w);;
                    st ← agentState i;
                    n ← agentConversationLen i;
                    mret (Return (Ok (sc_SessionID cfg, st, n, warnings)))
                end
            end
        end
  end.

Definition closeAllStreams (i : nat) : SV () :=
  streams ← wgets (fun w => match objs w !! i with Some ms => elements (ms_streams ms) | None => [] end);
  wmodify (set_streams (fun _ => ∅) i);;
  for_range (order_streams streams) (fun r => onBus i (closeWithError r EOF)).

(** The teardown both [DestroySession] and [Close] run on a session.  A driver
    whose [Stop] panics takes the caller with it: nothing after it runs. *)
Definition teardown (i : nat) : SV (outcome error ()) :=
  u ← wgets (fun w => match objs w !! i with Some ms => ms_unsubscribe ms | None => None end);
  match u with
  | Some u => onBus i (fun '(b, w) => (unsubscribe u b, w))
  | None => mret ()
  end;;
  d ← wgets (driverOf i);
  r ← onAgent i (Return (Ok ())) (Stop iter handle d);
  match r with
  | Panic v => mret (Panic v)
  | Return _ =>
      wmodify (cancel i);;
      wmodify (completeActiveTurn i);;
      closeAllStreams i;;
      mret r
  end.

(** [_ = ms.agent.Stop(...)]: the error is dropped, a panic is not. *)
Definition dropError (r : outcome error ()) : outcome error () :=
  match r with Return _ => Return (Ok ()) | Panic v => Panic v end.

Definition DestroySession (id : option string) : SV (outcome error ()) :=
  match id with
  | None => mret (Return (Err (newServiceError CodeInvalidArgument "nil request" None)))
  | Some sid =>
      if bool_decide (sid = "") then mret (Return (Err (newServiceError CodeInvalidArgument "session_id is required" None)))
      else
        ms ← wgets (fun w => sessions w !! sid);
        match ms with
        | None => mret (Return (Err (notFound sid)))
        | Some i =>
            wmodify (markDestroyed i);;
            r ← teardown i;
            match r with
            | Panic v => mret (Panic v)
            | Return r =>
                wmodify (fun w => set_sessions (delete sid (sessions w)) w);;
                mret (mapOutcome (Return r))
            end
        end
  end.

(** What drivers do while [Close] waits for the turns to drain. *)
Definition driverAct (i : nat) (act : driver_act) : SV () :=
  match act with
  | DEmit evt => onAgent i () (emitA evt)
  | DTransition to => onAgent i () (Transition iter handle to;; mret ())
  | DAppend m => onAgent i () (locked (AppendConversation m);; mret ())
  | DIdle => onAgent i () (locked_ onDriverIdle)
  end.

(** [Close], with what the drivers do in its two waits. *)
Definition CloseService (wait1 wait2 : list (nat * driver_act)) : SV (outcome error ()) :=
  closed ← wgets svc_closed;
  if (closed : bool) then mret (Return (Ok ()))
  else
    wmodify (set_svc_closed true);;
    sess ← wgets (fun w => order_sessions (map_to_list (sessions w)));
    for_range_try sess (fun '(_, i) => wmodify (markDestroyed i);; dropError <$> teardown i);;!
    wmodify (fun w => set_sessions (foldr (fun '(id, _) m => delete id m) (sessions w) sess) w);;
    for_range wait1 (fun '(i, act) => driverAct i act);;
    drained ← wgets (fun w => bool_decide (wg w = 0%Z));
    if (drained : bool) then mret (Return (Ok ()))
    else
      for_range sess (fun '(_, i) => wmodify (cancel i);; wmodify (completeActiveTurn i));;
      for_range wait2 (fun '(i, act) => driverAct i act);;
      drained2 ← wgets (fun w => bool_decide (wg w = 0%Z));
      if (drained2 : bool) then mret (Return (Ok ()))
      else mret (Return (Err (newServiceError CodeDeadlineExceeded "close drain timeout exceeded" None))).

(** [NewAgentLoopService] with its options. *)
Definition NewAgentLoopService (publisher : bool) (maxSessions : Z) : service :=
  mkService ∅ (mkWorld ∅ ∅ ∅ ∅ ∅ 0 [] (if bool_decide (maxSessions < 0)%Z then 0 else maxSessions) false publisher 0).

(** ** Requests, in any order *)

Inductive request : Type :=
  | ReqCreate (req : option SessionConfig)
  | ReqGet (id : option string)
  | ReqList (filter : gmap string string)
  | ReqSend (id : option string) (message : string)
  | ReqContinue (id : option string)
  | ReqSteer (id : option string) (message : string)
  | ReqFollowUp (id : option string) (message : string)
  | ReqAbort (id : option string) (reason : string)
  | ReqSubscribe (id : option string)
  | ReqResume (req : option ResumeSessionRequest)
  | ReqDestroy (id : option string)
  | ReqClose (wait1 wait2 : list (nat * driver_act))
  | ReqRecv (receiver : nat)
  | ReqCloseReceiver (i receiver : nat)
  | ReqDriver (i : nat) (act : driver_act).

Definition serve (q : request) : SV () :=
  match q with
  | ReqCreate req => CreateSession req;; mret ()
  | ReqGet id => GetSession id;; mret ()
  | ReqList f => ListSessions f;; mret ()
  | ReqSend id m => SendMessage id m;; mret ()
  | ReqContinue id => ContinueSession id;; mret ()
  | ReqSteer id m => SteerSession id m;; mret ()
  | ReqFollowUp id m => FollowUpSession id m;; mret ()
  | ReqAbort id m => AbortSession id m;; mret ()
  | ReqSubscribe id => SubscribeEvents id;; mret ()
  | ReqResume req => ResumeSession req;; mret ()
  | ReqDestroy id => DestroySession id;; mret ()
  | ReqClose w1 w2 => CloseService w1 w2;; mret ()
  | ReqRecv r => wrun (Recv r);; mret ()
  | ReqCloseReceiver i r => onBus i (closeWithError r EOF)
  | ReqDriver i act => driverAct i act
  end.
End Service.
