(* ===== verification/AgentServiceProps.v ===== *)
(** * AgentServiceProps: what the session service guarantees *)

From S2P Require Import Prelude GoStrings AiTypes Transform AgentTypes EventBus ControlQueue Agent AgentConc AgentProps AgentService.

Local Open Scope string_scope.
Local Open Scope list_scope.

(** ** Errors *)

Lemma errors_As_chain e svc t : errors_As_ServiceError e = Some svc -> errors_Is t svc = true -> errors_Is t e = true.
Proof.
  induction e as [| | | | | | | | |c msg cause| |text e IH]; simpl; try done.
  - by intros [= <-].
  - intros Hs Ht. specialize (IH Hs Ht). destruct t; by rewrite IH.
Qed.

Definition sentinel_code (t : sentinel) : ServiceCode :=
  match t with
  | IsBusy | IsStopped | IsInvalidState => CodeFailedPrecondition
  | IsCanceled => CodeCanceled
  | IsDeadlineExceeded => CodeDeadlineExceeded
  end.

(** Every error a client of the service sees is a service error.  One that
    is already in the chain is passed on as it is; otherwise the code tells the
    first sentinel of the chain in the order busy, invalid state, stopped,
    cancelled, deadline (internal when there is none), the text is the error's
    and the error itself is kept as the cause, so that [errors.Is] gives the
    same answers on the mapped error as on the original. *)
Theorem mapServiceError_spec e :
  (exists code msg cause, mapServiceError e = ServiceError code msg cause) /\
  (forall svc, errors_As_ServiceError e = Some svc -> mapServiceError e = svc) /\
  (errors_As_ServiceError e = None ->
     (forall t, errors_Is t (mapServiceError e) = errors_Is t e) /\
     exists code, mapServiceError e = ServiceError code (Error e) (Some e) /\
       ((exists t, errors_Is t e = true /\ code = sentinel_code t) \/
        ((forall t, errors_Is t e = false) /\ code = CodeInternal))).
Proof.
  assert (forall svc, errors_As_ServiceError e = Some svc -> exists c m ca, svc = ServiceError c m ca) as Has.
  { clear. induction e; simpl; try done; intros svc [= <-]; eauto. }
  unfold mapServiceError. split_and!.
  - destruct (errors_As_ServiceError e) as [svc|]; [by apply Has|].
    unfold newServiceError. repeat case_match; eauto.
  - by intros svc ->.
  - intros ->. unfold newServiceError.
    destruct (errors_Is IsBusy e) eqn:H1;
      [|destruct (errors_Is IsInvalidState e) eqn:H2;
        [|destruct (errors_Is IsStopped e) eqn:H3;
          [|destruct (errors_Is IsCanceled e) eqn:H4;
            [|destruct (errors_Is IsDeadlineExceeded e) eqn:H5]]]];
      (split; [intros []; simpl; by rewrite ?orb_false_r|]); eexists; (split; [done|]).
    + left. by exists IsBusy.
    + left. by exists IsInvalidState.
    + left. by exists IsStopped.
    + left. by exists IsCanceled.
    + left. by exists IsDeadlineExceeded.
    + right. split; [by intros []|done].
Qed.

(** ** Turn streams *)

Definition stream_events (r : serviceEventReceiver) : list AgentEvent := rc_received r ++ rc_ch r.

(** The events up to the first terminal one, that one included. *)
Fixpoint uptoTerminal (evts : list AgentEvent) : list AgentEvent :=
  match evts with
  | [] => []
  | e :: rest => if isTerminalTurnEvent e then [e] else e :: uptoTerminal rest
  end.

Definition hasTerminal (evts : list AgentEvent) : bool := existsb isTerminalTurnEvent evts.

Lemma normalize_terminal sid e : isTerminalTurnEvent (normalizeSessionEvent sid e) = isTerminalTurnEvent e.
Proof. unfold normalizeSessionEvent. by case_bool_decide. Qed.

Lemma push_open i evt w r :
  receivers w !! i = Some r -> rc_closed r = false ->
  exists r', push i evt w = (true, set_receivers (<[i := r']> (receivers w)) w) /\
    stream_events r' = stream_events r ++ [toAPIEvent evt] /\ rc_closed r' = false /\
    rc_closeHooks r' = rc_closeHooks r.
Proof.
  intros Hr Hc. unfold push. rewrite Hr, Hc.
  destruct (if bool_decide _ then _ else _) as [taken rest] eqn:Ht.
  assert (rc_ch r = taken ++ rest) as Hch.
  { destruct (bool_decide _); injection Ht as <- <-; [done|]. by rewrite take_drop. }
  eexists. split; [|split_and!].
  - f_equal. unfold modify_receiver. f_equal. apply map_eq; intros j.
    destruct (decide (i = j)) as [->|Hne]; [by rewrite lookup_alter_eq, lookup_insert_eq, Hr|].
    by rewrite lookup_alter_ne, lookup_insert_ne.
  - unfold stream_events. simpl. by rewrite Hch, <- !app_assoc.
  - done.
  - done.
Qed.

Lemma runHooks_receivers hs b w : receivers (foldl (fun s h => runHook h s) (b, w) hs).2 = receivers w /\
  turns (foldl (fun s h => runHook h s) (b, w) hs).2 = turns w.
Proof. revert b w. induction hs as [|[us|ms r] hs IH]; intros b w; simpl; [done|apply IH|]. by apply (IH b (removeStream r ms w)). Qed.

(** The turn stream's handler over a sequence of events. *)
Definition feed (ms r t : nat) (evts : list AgentEvent) (s : eventBus subscriber * world) :=
  foldl (fun s e => handle (SubTurn ms r t) e s) s evts.

Lemma feed_closed ms r t evts b w rec :
  receivers w !! r = Some rec -> rc_closed rec = true -> feed ms r t evts (b, w) = (b, w).
Proof.
  intros Hr Hc. induction evts as [|e evts IH]; simpl; [done|].
  unfold push. by rewrite Hr, Hc.
Qed.

Lemma feed_uptoTerminal ms r t evts b w rec :
  receivers w !! r = Some rec -> rc_closed rec = false -> turns w !! t = Some false ->
  exists rec' evts',
    receivers (feed ms r t evts (b, w)).2 !! r = Some rec' /\
    stream_events rec' = stream_events rec ++ (toAPIEvent <$> evts') /\
    Forall2 (fun e e' => exists sid, e' = normalizeSessionEvent sid e) (uptoTerminal evts) evts' /\
    rc_closed rec' = hasTerminal evts /\
    turns (feed ms r t evts (b, w)).2 !! t = Some (hasTerminal evts) /\
    (hasTerminal evts = true -> rc_terminalErr rec' = Some EOF).
Proof.
  revert b w rec. induction evts as [|e evts IH]; intros b w rec Hr Hc Ht; simpl.
  { exists rec, []. rewrite app_nil_r. by split_and!. }
  set (sid := sessionIDOf ms w).
  destruct (push_open r (normalizeSessionEvent sid e) w rec Hr Hc) as (r' & -> & Hev & Hc' & Hh). simpl.
  rewrite normalize_terminal. destruct (isTerminalTurnEvent e) eqn:Hterm; simpl.
  - rewrite lookup_insert_eq, Hc'.
    set (w2 := modify_receiver _ r _).
    destruct (foldl _ (b, w2) (rc_closeHooks r')) as [b3 w3] eqn:Hfold.
    pose proof (runHooks_receivers (rc_closeHooks r') b w2) as (Hrec3 & Htur3).
    rewrite Hfold in Hrec3, Htur3. simpl in Hrec3, Htur3.
    set (w4 := doneTurn ms t w3).
    assert (turns w4 !! t = Some true /\ receivers w4 = receivers w3) as [Ht4 Hr4].
    { unfold w4, doneTurn. rewrite Htur3. simpl. rewrite Ht. simpl. by rewrite lookup_insert_eq. }
    set (rec4 := mkReceiver (rc_ch r') (rc_cap r') true (Some EOF) [] (rc_received r')).
    assert (receivers w4 !! r = Some rec4) as Hr5.
    { rewrite Hr4, Hrec3. unfold w2. simpl. by rewrite lookup_alter_eq, lookup_insert_eq. }
    fold (feed ms r t evts (b3, w4)). rewrite (feed_closed ms r t evts b3 w4 rec4 Hr5 eq_refl).
    exists rec4, [normalizeSessionEvent sid e]. split_and!; try done.
    constructor; [by exists sid|constructor].
  - fold (feed ms r t evts (b, set_receivers (<[r:=r']> (receivers w)) w)).
    destruct (IH b (set_receivers (<[r:=r']> (receivers w)) w) r') as (rec' & evts' & H1 & H2 & H3 & H4 & H5 & H6);
      [by simpl; rewrite lookup_insert_eq|done|done|].
    exists rec', (normalizeSessionEvent sid e :: evts'). split_and!; try done.
    + by rewrite H2, Hev, <- app_assoc.
    + constructor; [by exists sid|done].
Qed.

(** C28: a turn stream is exactly its turn.  Whatever events the agent
    publishes, the stream of an open turn receives them in order, each under the
    session's id and without the error value, up to and including the first one
    that ends the turn; there the stream closes with end-of-file and the turn is
    counted off, and nothing that comes later reaches it.  Until then it stays
    open and the turn is not done. *)
Theorem turn_stream_scoped ms r t evts b w :
  receivers w !! r = Some (newServiceEventReceiver turnStreamBufferSize) -> turns w !! t = Some false ->
  exists rec evts',
    receivers (feed ms r t evts (b, w)).2 !! r = Some rec /\
    stream_events rec = toAPIEvent <$> evts' /\
    Forall2 (fun e e' => exists sid, e' = normalizeSessionEvent sid e) (uptoTerminal evts) evts' /\
    rc_closed rec = hasTerminal evts /\
    turns (feed ms r t evts (b, w)).2 !! t = Some (hasTerminal evts) /\
    (hasTerminal evts = true -> rc_terminalErr rec = Some EOF).
Proof.
  intros Hr Ht. destruct (feed_uptoTerminal ms r t evts b w _ Hr eq_refl Ht) as (rec & evts' & H).
  by exists rec, evts'.
Qed.

(** ** Resume *)

Section ResumeProps.
Context (RecordToAgentMessage : AgentMessageRecord -> res error AgentMessage) (toolSet : gset string).

(** No turn number goes down. *)
Fixpoint turnsAscend (prev : Z) (records : list AgentMessageRecord) : Prop :=
  match records with
  | [] => True
  | r :: rest => (prev <= re_Turn r)%Z /\ turnsAscend (re_Turn r) rest
  end.

Lemma resumeLoop_ok i records prevTurn prevRole msgs warns :
  (0 <= i)%Z -> (i = 0%Z -> exists r rest, records = r :: rest /\ prevTurn = re_Turn r) ->
  resumeLoop RecordToAgentMessage toolSet i records prevTurn prevRole = Ok (msgs, warns) ->
  turnsAscend prevTurn records /\
  Forall2 (fun rec m => knownRole (re_Role rec) = true /\ RecordToAgentMessage rec = Ok m) records msgs.
Proof.
  revert i prevTurn prevRole msgs warns. induction records as [|rec rest IH]; intros i pt pr msgs warns Hi H0; simpl.
  { intros [= <- <-]. by split; [|constructor]. }
  destruct (knownRole (re_Role rec)) eqn:Hk; [simpl|done].
  destruct (RecordToAgentMessage rec) as [msg|e] eqn:Hm; [|done].
  destruct (bool_decide (i > 0)%Z && bool_decide (re_Turn rec < pt)%Z) eqn:Hb; [done|].
  destruct (resumeLoop _ _ _ rest _ _) as [[msgs' warns']|e] eqn:Hrest; [|done]. intros [= <- _].
  apply IH in Hrest as [Hasc Hf]; [|lia|lia].
  assert (pt <= re_Turn rec)%Z as Hle.
  { destruct (decide (i = 0)%Z) as [Hz|Hz].
    - destruct (H0 Hz) as (r & rest' & [= <- <-] & ->). lia.
    - apply andb_false_iff in Hb as [Hb|Hb]; apply bool_decide_eq_false in Hb; lia. }
  split; [done|]. by constructor.
Qed.

Lemma resumeLoop_complete i records prevTurn prevRole msgs :
  turnsAscend prevTurn records ->
  Forall2 (fun rec m => knownRole (re_Role rec) = true /\ RecordToAgentMessage rec = Ok m) records msgs ->
  exists warns, resumeLoop RecordToAgentMessage toolSet i records prevTurn prevRole = Ok (msgs, warns).
Proof.
  intros Hasc Hf. revert i prevTurn prevRole Hasc. induction Hf as [|rec m records msgs [Hk Hm] Hf IH];
    intros i pt pr Hasc; simpl; [by eexists|].
  destruct Hasc as [Hle Hasc]. rewrite Hk, Hm. simpl.
  rewrite (bool_decide_eq_false_2 (re_Turn rec < pt)%Z) by lia. rewrite andb_false_r.
  destruct (IH (i + 1)%Z (re_Turn rec) (re_Role rec) Hasc) as [warns ->]. by eexists.
Qed.

Lemma resumeLoop_invalid i records prevTurn prevRole e :
  resumeLoop RecordToAgentMessage toolSet i records prevTurn prevRole = Err e ->
  exists msg cause, e = ServiceError CodeInvalidArgument msg cause.
Proof.
  revert i prevTurn prevRole. induction records as [|rec rest IH]; intros i pt pr; simpl; [done|].
  unfold newServiceError. repeat case_match; intros ?; simplify_eq; eauto.
Qed.

(** A saved conversation is accepted exactly when it is well formed.  The
    log decodes to the records' messages, one for one and in order, if and only
    if every role is known, every record decodes and no turn number decreases;
    any other log is refused with an invalid-argument error.  Gaps in the turn
    numbers, repeated roles and unknown tools never refuse it. *)
Theorem resume_log_spec records :
  (forall msgs,
    (exists warns, validateAndDecodeResumeLog RecordToAgentMessage toolSet records = Ok (msgs, warns)) <->
    turnsAscend (match records with r :: _ => re_Turn r | [] => 0%Z end) records /\
    Forall2 (fun rec m => knownRole (re_Role rec) = true /\ RecordToAgentMessage rec = Ok m) records msgs) /\
  (forall e, validateAndDecodeResumeLog RecordToAgentMessage toolSet records = Err e ->
     exists msg cause, e = ServiceError CodeInvalidArgument msg cause).
Proof.
  split.
  - intros msgs. destruct records as [|rec rest].
    { simpl. split; [intros [warns [= <- _]]; by split; [|constructor]|].
      intros [_ Hf]. apply Forall2_nil_inv_l in Hf as ->. by eexists. }
    unfold validateAndDecodeResumeLog. split.
    + intros [warns H]. eapply resumeLoop_ok; [done| |exact H]. intros _. by exists rec, rest.
    + intros [Hasc Hf]. by apply resumeLoop_complete.
  - intros e. destruct records as [|rec rest]; [done|]. apply resumeLoop_invalid.
Qed.
End ResumeProps.

(** ** Every sequence of requests *)

Section Reachable.
Context (iter : list (Z * subscriber) -> list (Z * subscriber)).
Context (order_sessions : list (string * nat) -> list (string * nat)).
Context (order_streams : list nat -> list nat).
Context {Tools : Type}.
Context (GetModel : string -> string -> res error Model).
Context (toolFactory : SessionConfig -> res error Tools).
Context (driverFactory : string -> Model -> Tools -> SessionConfig -> res error driver_spec).
Context (RecordToAgentMessage : AgentMessageRecord -> res error AgentMessage).

Notation SV := (M service).
Notation serve := (serve iter order_sessions order_streams GetModel toolFactory driverFactory RecordToAgentMessage).
Notation newManaged := (newManagedSessionLocked GetModel toolFactory driverFactory).

(** A property of the world that nothing but the creation and removal of
    sessions can break. *)
Record stable (P : world -> Prop) : Prop := {
  st_ms f i w : (forall ms, ms_config (f ms) = ms_config ms) -> P w -> P (modify_ms f i w);
  st_receivers m w : P w -> P (set_receivers m w);
  st_published l w : P w -> P (set_published l w);
  st_done ms t w : P w -> P (doneTurn ms t w);
  st_turn t w : turns w !! t = None -> P w -> P (set_turns (<[t := false]> (turns w)) (wg w + 1) w);
  st_idCounter n w : P w -> P (set_idCounter n w);
  st_closed w : P w -> P (set_svc_closed true w);
}.

Section Stable.
Context (P : world -> Prop) (HP : stable P).

Lemma push_stable i e w : P w -> P (push i e w).2.
Proof. intros Hw. unfold push. repeat case_match; simpl; try done; by apply (st_receivers P HP). Qed.

Lemma runHook_stable h b w : P w -> P (runHook h (b, w)).2.
Proof. intros Hw. destruct h as [us|ms r]; simpl; [done|]. by apply (st_ms P HP). Qed.

Lemma runHooks_stable hs b w : P w -> P (foldl (fun s h => runHook h s) (b, w) hs).2.
Proof.
  revert b w. induction hs as [|h hs IH]; intros b w Hw; [done|]. cbn [foldl].
  pose proof (runHook_stable h b w Hw) as Hh. destruct (runHook h (b, w)) as [b' w']. by apply IH.
Qed.

Lemma close_stable r e b w : P w -> P (closeWithError r e (b, w)).2.
Proof.
  intros Hw. unfold closeWithError. repeat case_match; try done.
  apply runHooks_stable. by apply (st_receivers P HP).
Qed.

Lemma setCloseHook_stable r h b w : P w -> P (setCloseHook r h (b, w)).2.
Proof.
  intros Hw. unfold setCloseHook. destruct (receivers w !! r) as [rec|]; [|done].
  destruct (rc_closed rec); [by apply runHook_stable|]. by apply (st_receivers P HP).
Qed.

Lemma handle_stable h e b w : P w -> P (handle h e (b, w)).2.
Proof.
  intros Hw. destruct h as [sid|ms t|ms r t|sid r]; cbn [handle].
  - by apply (st_published P HP).
  - case_match; [by apply (st_done P HP)|done].
  - pose proof (push_stable r (normalizeSessionEvent (sessionIDOf ms w) e) w Hw) as Hp.
    destruct (push r _ w) as [ok w1]. cbn [snd] in *. destruct (negb ok); [done|].
    destruct (isTerminalTurnEvent _); [|done].
    pose proof (close_stable r EOF b w1 Hp) as Hc. destruct (closeWithError r EOF (b, w1)) as [b2 w2].
    by apply (st_done P HP).
  - by apply push_stable.
Qed.

Notation wm m := (maintains (fun s => P (wd s)) m).

Lemma wm_onAgent {A} i (d : A) m : maintains (P ∘ snd) m -> wm (onAgent i d m).
Proof.
  intros Hm [ags w] Hw. unfold onAgent. simpl. destruct (ags !! i) as [a|]; [|done].
  specialize (Hm (a, w) Hw). destruct (m (a, w)) as [r [a' w']]. done.
Qed.

Lemma wm_onBus i f : (forall b w, P w -> P (f (b, w)).2) -> wm (onBus i f).
Proof.
  intros Hf. apply wm_onAgent. intros [a w] Hw. simpl in *. specialize (Hf (bus a) w Hw).
  by destruct (f (bus a, w)).
Qed.

Lemma wm_wmodify f : (forall w, P w -> P (f w)) -> wm (wmodify f).
Proof. intros Hf [ags w] Hw. by apply Hf. Qed.

Lemma wm_wrun {A} (f : world -> A * world) : (forall w, P w -> P (f w).2) -> wm (wrun f).
Proof. intros Hf [ags w] Hw. unfold wrun. specialize (Hf w Hw). simpl in *. by destruct (f w). Qed.

Lemma wm_ms f i : (forall ms, ms_config (f ms) = ms_config ms) -> wm (wmodify (modify_ms f i)).
Proof. intros Hf. apply wm_wmodify. intros w. by apply (st_ms P HP). Qed.

Lemma driver_stable sp :
  (forall sess p, maintains (P ∘ snd) (drv_Start (mkDriver iter sp) sess p)) /\
  (forall sess, maintains (P ∘ snd) (drv_Resume (mkDriver iter sp) sess)) /\
  maintains (P ∘ snd) (drv_Stop (mkDriver iter sp)).
Proof.
  pose proof (maintains_emit iter handle P handle_stable) as He.
  split_and!; [intros sess p|intros sess|]; simpl; maintains_tac; apply He.
Qed.

Lemma driverOf_stable i w d : driverOf iter i w = Some d ->
  (forall sess p, maintains (P ∘ snd) (drv_Start d sess p)) /\
  (forall sess, maintains (P ∘ snd) (drv_Resume d sess)) /\ maintains (P ∘ snd) (drv_Stop d).
Proof.
  unfold driverOf. intros H. destruct (drivers w !! i) as [sp|]; [|done]. injection H as <-. apply driver_stable.
Qed.

Lemma wm_markStarted i : wm (wmodify (markStarted i)).
Proof. by apply wm_ms. Qed.
Lemma wm_markDestroyed i : wm (wmodify (markDestroyed i)).
Proof. by apply wm_ms. Qed.
Lemma wm_cancel i : wm (wmodify (cancel i)).
Proof. by apply wm_ms. Qed.
Lemma wm_setTurnDone t i : wm (wmodify (setTurnDone t i)).
Proof. by apply wm_ms. Qed.
Lemma wm_addStream r i : wm (wmodify (addStream r i)).
Proof. by apply wm_ms. Qed.
Lemma wm_set_streams f i : wm (wmodify (set_streams f i)).
Proof. by apply wm_ms. Qed.
Lemma wm_doneTurn i t : wm (wmodify (doneTurn i t)).
Proof. apply wm_wmodify. intros w. by apply (st_done P HP). Qed.
Lemma wm_completeActiveTurn i : wm (wmodify (completeActiveTurn i)).
Proof.
  apply wm_wmodify. intros w Hw. unfold completeActiveTurn. destruct (objs w !! i) as [ms|]; [|done].
  assert (P (clearTurnDone i w)) by (by apply (st_ms P HP)).
  destruct (ms_turnDone ms); [by apply (st_done P HP)|done].
Qed.
Lemma wm_setCloseHook i r h : wm (onBus i (setCloseHook r h)).
Proof. apply wm_onBus. intros b w. apply setCloseHook_stable. Qed.
Lemma wm_close i r e : wm (onBus i (closeWithError r e)).
Proof. apply wm_onBus. intros b w. apply close_stable. Qed.
Lemma wm_Subscribe i fn : wm (onAgent i UnsubNoop (Subscribe fn)).
Proof. apply wm_onAgent, maintains_Subscribe. Qed.
Lemma wm_enqueue i d enq evt : wm (onAgent i d (enqueueAndEmit iter handle enq evt)).
Proof. apply wm_onAgent, maintains_enqueueAndEmit, handle_stable. Qed.
Lemma wm_newReceiver n : wm (wrun (fun w => let r := fresh (dom (receivers w)) in
    (r, set_receivers (<[r := newServiceEventReceiver n]> (receivers w)) w))).
Proof. apply wm_wrun. intros w Hw. by apply (st_receivers P HP). Qed.
Lemma wm_newTurn : wm (wrun (fun w => let t := fresh (dom (turns w)) in
    (t, set_turns (<[t := false]> (turns w)) (wg w + 1) w))).
Proof.
  apply wm_wrun. intros w Hw. apply (st_turn P HP); [|done]. apply not_elem_of_dom, is_fresh.
Qed.
Lemma wm_generate : wm (wrun generateSessionID).
Proof. apply wm_wrun. intros w Hw. by apply (st_idCounter P HP). Qed.

#[local] Hint Resolve wm_markStarted wm_markDestroyed wm_cancel wm_setTurnDone wm_addStream wm_set_streams
  wm_doneTurn wm_completeActiveTurn wm_setCloseHook wm_close wm_Subscribe wm_enqueue wm_newReceiver wm_newTurn
  wm_generate : maintains.

Lemma wm_newTurnScopedReceiver i : wm (newTurnScopedReceiver i).
Proof. unfold newTurnScopedReceiver. maintains_tac. Qed.

Lemma wm_start i w s m : wm (onAgent i (Return (Ok ())) (Start iter handle (driverOf iter i w) s m)).
Proof. apply wm_onAgent, maintains_Start; [apply handle_stable|apply driverOf_stable]. Qed.
Lemma wm_prompt i w m : wm (onAgent i (Return (Ok ())) (Prompt iter handle (driverOf iter i w) m)).
Proof. apply wm_onAgent, maintains_Prompt; [apply handle_stable|apply driverOf_stable]. Qed.
Lemma wm_continue i w : wm (onAgent i (Return (Ok ())) (Continue (driverOf iter i w))).
Proof. apply wm_onAgent, maintains_Continue, driverOf_stable. Qed.
Lemma wm_stop i w : wm (onAgent i (Return (Ok ())) (Stop iter handle (driverOf iter i w))).
Proof. apply wm_onAgent, maintains_Stop; [apply handle_stable|apply driverOf_stable]. Qed.

Lemma maintains_wgets_bind {A C} (f : world -> A) (k : A -> SV C) :
  (forall w, wm (k (f w))) -> wm (wgets f ≫= k).
Proof. intros Hk s Hs. rewrite M_bind_eq. by apply Hk. Qed.

Lemma wm_safeCallStartOrPrompt i m : wm (safeCallStartOrPrompt iter i m).
Proof.
  unfold safeCallStartOrPrompt. apply maintains_wgets_bind. intros w1. apply maintains_wgets_bind. intros w2.
  maintains_tac; unfold agentSession; maintains_tac; [apply wm_start|apply wm_prompt].
Qed.

Lemma wm_withSession {A} id (k : string -> nat -> SV (outcome error A)) :
  (forall sid i, wm (k sid i)) -> wm (withSession id k).
Proof. intros Hk. unfold withSession, getSession, wgets. maintains_tac. Qed.

Lemma wm_finish i r t e : wm (finishTurnCall i r t e).
Proof. unfold finishTurnCall. maintains_tac. Qed.

Lemma wm_teardown i : wm (teardown iter order_streams i).
Proof.
  unfold teardown. apply maintains_wgets_bind. intros w1. apply maintains_bind.
  { case_match; [|maintains_tac]. by apply wm_onBus. }
  intros _. apply maintains_wgets_bind. intros w2. apply maintains_bind; [apply wm_stop|]. intros [r|v]; [|by intros s].
  unfold closeAllStreams, wgets. maintains_tac.
Qed.

Lemma wm_driverAct i act : wm (driverAct iter i act).
Proof.
  destruct act; simpl; apply wm_onAgent.
  - apply maintains_emit, handle_stable.
  - apply maintains_bind; [apply maintains_Transition, handle_stable|]. intros ?. apply maintains_ret.
  - apply maintains_bind; [apply maintains_locked|]. intros ?. apply maintains_ret.
  - apply maintains_locked_.
Qed.

Lemma wm_admit cfg : wm (admit_session cfg).
Proof. unfold admit_session, wgets. maintains_tac. Qed.

(** Requests that neither create nor remove a session. *)
Lemma serve_stable q :
  match q with ReqCreate _ | ReqResume _ | ReqDestroy _ | ReqClose _ _ => True | _ => wm (serve q) end.
Proof.
  destruct q; try done; unfold AgentService.serve; (apply maintains_bind; [|intros ?; apply maintains_ret]) || idtac.
  - unfold GetSession, getSession, agentSession, agentState, agentConversationLen, wgets. maintains_tac.
  - unfold ListSessions. maintains_tac.
  - apply wm_withSession. intros sid i. apply maintains_bind; [apply wm_newTurnScopedReceiver|]. intros [r t].
    apply maintains_bind; [apply wm_safeCallStartOrPrompt|]. intros e. apply wm_finish.
  - apply wm_withSession. intros sid i. apply maintains_bind; [apply wm_newTurnScopedReceiver|]. intros [r t].
    apply maintains_wgets_bind. intros w. apply maintains_bind; [apply wm_continue|]. intros e. apply wm_finish.
  - apply wm_withSession. intros sid i. unfold agentState. maintains_tac.
  - apply wm_withSession. intros sid i. maintains_tac.
  - apply wm_withSession. intros sid i. maintains_tac.
  - apply wm_withSession. intros sid i. unfold agentState. maintains_tac.
    apply wm_wmodify. intros w. apply push_stable.
  - apply wm_wrun. intros w Hw. unfold Recv. repeat case_match; simpl; try done; by apply (st_receivers P HP).
  - apply wm_close.
  - apply wm_driverAct.
Qed.
(** [CloseService] keeps what is stable; it may start from a state that has it
    only once the service is marked closed. *)
Lemma close_keeps w1 w2 s :
  (forall (l : list (string * nat)) w, P w -> P (set_sessions (foldr (fun '(id, _) m => delete id m) (sessions w) l) w)) ->
  (svc_closed (wd s) = true -> P (wd s)) -> (svc_closed (wd s) = false -> P (set_svc_closed true (wd s))) ->
  P (wd (CloseService iter order_sessions order_streams w1 w2 s).2).
Proof.
  intros Hdel H1 H2. unfold CloseService. rewrite M_bind_eq. cbn [wgets gets fst snd].
  destruct (svc_closed (wd s)); [by apply H1|]. rewrite M_bind_eq. cbn [snd].
  specialize (H2 eq_refl). change (set_svc_closed true (wd s)) with (wd ((wmodify (set_svc_closed true) : SV ()) s).2) in H2.
  revert H2. generalize ((wmodify (set_svc_closed true) : SV ()) s).2. clear s H1.
  refine (maintains_wgets_bind _ _ _). intros wb. set (sess := order_sessions _).
  apply maintains_obind.
  { apply maintains_for_range_try. intros [id i] _. apply maintains_bind; [by apply wm_markDestroyed|]. intros _.
    by apply maintains_fmap, wm_teardown. }
  intros _. apply maintains_bind; [apply wm_wmodify; intros w; apply Hdel|]. intros _.
  apply maintains_bind.
  { apply maintains_for_range. intros [i act] _. by apply wm_driverAct. }
  intros _. apply maintains_wgets_bind. intros wc. case_bool_decide; [by intros s|].
  apply maintains_bind.
  { apply maintains_for_range. intros [id i] _. apply maintains_bind; [by apply wm_cancel|]. intros _.
    by apply wm_completeActiveTurn. }
  intros _. apply maintains_bind.
  { apply maintains_for_range. intros [i act] _. by apply wm_driverAct. }
  intros _. apply maintains_wgets_bind. intros wd. case_bool_decide; by intros s.
Qed.
End Stable.

(** ** The service invariant *)

Definition openTurns (m : gmap nat bool) : gmap nat bool := filter (fun '(_, done) => done = false) m.

Definition wg_ok (w : world) : Prop := wg w = Z.of_nat (size (openTurns (turns w))).

Definition sessions_ok (w : world) : Prop :=
  (0 < maxSess w -> Z.of_nat (size (sessions w)) <= maxSess w)%Z /\
  forall id i, sessions w !! id = Some i ->
    exists ms, objs w !! i = Some ms /\ sc_SessionID (ms_config ms) = id.

Lemma openTurns_insert_false m t : openTurns (<[t := false]> m) = <[t := false]> (openTurns m).
Proof. unfold openTurns. by rewrite map_filter_insert_True. Qed.

Lemma openTurns_insert_true m t : openTurns (<[t := true]> m) = delete t (openTurns m).
Proof. unfold openTurns. by rewrite map_filter_insert_False, map_filter_delete by done. Qed.

Lemma doneTurn_frame ms t w :
  sessions (doneTurn ms t w) = sessions w /\ maxSess (doneTurn ms t w) = maxSess w.
Proof. unfold doneTurn. by repeat case_match. Qed.

Lemma wg_ok_stable : stable wg_ok.
Proof.
  split; try done.
  - intros ms t w Hw. unfold doneTurn. destruct (turns w !! t) as [[]|] eqn:Ht; [done| |done].
    unfold wg_ok in *. simpl. rewrite openTurns_insert_true.
    assert (openTurns (turns w) !! t = Some false) as Ho by (apply map_lookup_filter_Some; done).
    rewrite map_size_delete_Some by (by rewrite Ho).
    assert (size (openTurns (turns w)) <> 0%nat) as Hne.
    { intros Hz. apply map_size_empty_inv in Hz. by rewrite Hz, lookup_empty in Ho. }
    rewrite Hw. lia.
  - intros t w Ht Hw. unfold wg_ok in *. simpl. rewrite openTurns_insert_false, map_size_insert_None; [lia|].
    apply map_lookup_filter_None. by left.
Qed.

Lemma sessions_ok_ms f i w :
  (forall ms, ms_config (f ms) = ms_config ms) -> sessions_ok w -> sessions_ok (modify_ms f i w).
Proof.
  intros Hf [Hc Hs]. split; [done|]. intros id j Hj. destruct (Hs id j Hj) as (ms & Hms & Hid). simpl.
  destruct (decide (i = j)) as [->|Hne].
  - exists (f ms). by rewrite lookup_alter_eq, Hms, Hf.
  - exists ms. by rewrite lookup_alter_ne.
Qed.

Lemma sessions_ok_stable : stable sessions_ok.
Proof.
  split; try done; [apply sessions_ok_ms|].
  intros ms t w Hw. unfold doneTurn. destruct (turns w !! t) as [[]|]; try done.
  unfold clearTurnDone, setTurnDone. by apply sessions_ok_ms.
Qed.

Definition service_ok (w : world) : Prop := wg_ok w /\ sessions_ok w.

Lemma stable_and P Q : stable P -> stable Q -> stable (fun w => P w /\ Q w).
Proof.
  intros [p1 p2 p3 p4 p5 p6 p7] [q1 q2 q3 q4 q5 q6 q7].
  split; intros; match goal with H : _ /\ _ |- _ => destruct H end; split; eauto.
Qed.

Lemma service_ok_stable : stable service_ok.
Proof. apply (stable_and wg_ok sessions_ok); [apply wg_ok_stable|apply sessions_ok_stable]. Qed.

(** What [admit_session] leaves when it lets a configuration in. *)
Lemma admit_spec cfg0 s :
  let '(r, s') := admit_session cfg0 s in
  sessions (wd s') = sessions (wd s) /\ objs (wd s') = objs (wd s) /\ maxSess (wd s') = maxSess (wd s) /\
  turns (wd s') = turns (wd s) /\ wg (wd s') = wg (wd s) /\
  forall cfg, r = Ok cfg ->
    svc_closed (wd s) = false /\ sessions (wd s) !! sc_SessionID cfg = None /\
    (0 < maxSess (wd s) -> Z.of_nat (size (sessions (wd s))) < maxSess (wd s))%Z.
Proof.
  unfold admit_session. rewrite M_bind_eq. simpl. destruct (svc_closed (wd s)) eqn:Hcl; [by split_and!|].
  rewrite M_bind_eq. simpl. destruct (_ && _) eqn:Hfull; [by split_and!|].
  assert (0 < maxSess (wd s) -> Z.of_nat (size (sessions (wd s))) < maxSess (wd s))%Z as Hroom.
  { intros Hm. apply andb_false_iff in Hfull as [Hf|Hf]; apply bool_decide_eq_false in Hf; lia. }
  rewrite M_bind_eq. set (m := if bool_decide (sc_SessionID cfg0 = "") then _ else _).
  assert (exists n, (m s).2 = mkService (agents s) (set_idCounter n (wd s))) as [n Hn].
  { unfold m. destruct (bool_decide (sc_SessionID cfg0 = "")); [exists (u64 (idCounter (wd s) + 1)); reflexivity|].
    exists (idCounter (wd s)). by destruct s as [? []]. }
  destruct (m s) as [id s1]. simpl in Hn. subst s1. cbn [fst snd]. rewrite M_bind_eq. simpl.
  destruct (bool_decide (is_Some _)) eqn:Hex; simpl; [split_and!; done|].
  apply bool_decide_eq_false in Hex. split_and!; try done.
  intros cfg [= <-]. split_and!; try done. simpl. by apply eq_None_not_Some.
Qed.

(** What [newManagedSessionLocked] adds. *)
Lemma newManaged_spec cfg conv s :
  let '(r, s') := newManaged cfg conv s in
  sessions (wd s') = sessions (wd s) /\ maxSess (wd s') = maxSess (wd s) /\
  turns (wd s') = turns (wd s) /\ wg (wd s') = wg (wd s) /\
  match r with
  | Ok i => objs (wd s) !! i = None /\
      (exists ms, objs (wd s') = <[i := ms]> (objs (wd s)) /\ ms_config ms = cfg /\ ms_destroyed ms = false) /\
      exists a, agents s' !! i = Some a /\ state a = StateIdle /\ running a = false /\
        session a = Some (mkSession (sc_SessionID cfg) (sc_SessionID cfg) conv [StateIdle] zeroMetrics)
  | Err _ => objs (wd s') = objs (wd s)
  end.
Proof.
  unfold newManagedSessionLocked.
  destruct (GetModel _ _) as [model|e]; [|by split_and!].
  destruct (toolFactory cfg) as [tools|e]; [|by split_and!].
  destruct (driverFactory _ _ _ _) as [driver|e]; [|by split_and!].
  assert (objs (wd s) !! fresh (dom (objs (wd s))) = None) as Hfr by apply not_elem_of_dom, is_fresh.
  destruct (publisherSet (wd s)); simpl; split_and!; try done; eexists; rewrite ?lookup_insert_eq; by split_and!.
Qed.

Lemma newManaged_ok cfg conv s :
  service_ok (wd s) -> sessions (wd s) !! sc_SessionID cfg = None ->
  (0 < maxSess (wd s) -> Z.of_nat (size (sessions (wd s))) < maxSess (wd s))%Z ->
  let '(r, s') := newManaged cfg conv s in
  service_ok (wd s') /\
  forall i, r = Ok i -> service_ok (set_sessions (<[sc_SessionID cfg := i]> (sessions (wd s'))) (wd s')).
Proof.
  intros [Hwg [Hcap Hids]] Hnew Hroom. pose proof (newManaged_spec cfg conv s) as Hs.
  destruct (newManaged cfg conv s) as [r s']. destruct Hs as (H1 & H2 & H3 & H4 & H5).
  assert (wg_ok (wd s')) as Hwg' by (unfold wg_ok; by rewrite H3, H4).
  assert (sessions_ok (wd s')) as Hok.
  { split; [by rewrite H1, H2|]. intros id j Hj. rewrite H1 in Hj.
    destruct (Hids id j Hj) as (ms & Hms & Hid). exists ms. split; [|done].
    destruct r as [i|e]; [|by rewrite H5]. destruct H5 as (Hfr & (ms' & -> & _) & _).
    rewrite lookup_insert_ne; [done|]. intros ->. by rewrite Hfr in Hms. }
  split; [done|]. intros i ->. split; [done|]. destruct Hok as [Hcap' Hids']. destruct H5 as (Hfr & (ms & Hobjs & Hcfg & _) & _).
  split; simpl.
  - rewrite H2. intros Hm. rewrite map_size_insert_None by (by rewrite H1). rewrite H1. specialize (Hroom Hm). lia.
  - intros id j [[<- <-]|[_ Hj]]%lookup_insert_Some; [|by apply Hids'].
    exists ms. by rewrite Hobjs, lookup_insert_eq, Hcfg.
Qed.

Notation wm P m := (maintains (fun s => P (wd s)) m).

Lemma delete_sessions_ok (l : list (string * nat)) w :
  service_ok w -> service_ok (set_sessions (foldr (fun '(id, _) m => delete id m) (sessions w) l) w).
Proof.
  intros [Hwg [Hcap Hids]]. split; [done|].
  assert (foldr (fun '(id, _) m => delete id m) (sessions w) l ⊆ sessions w) as Hsub.
  { induction l as [|[id i] l IH]; simpl; [done|]. etransitivity; [apply delete_subseteq|done]. }
  split; simpl.
  - intros Hm. specialize (Hcap Hm). pose proof (map_subseteq_size _ _ Hsub). lia.
  - intros id i Hi. apply Hids. by eapply lookup_weaken.
Qed.

Lemma wm_Create req : wm service_ok (CreateSession GetModel toolFactory driverFactory req).
Proof.
  intros s Hs. destruct req as [cfg0|]; [|done]. unfold CreateSession. rewrite M_bind_eq.
  pose proof (admit_spec cfg0 s) as Ha. pose proof (wm_admit service_ok service_ok_stable cfg0 s Hs) as Hs1.
  destruct (admit_session cfg0 s) as [[cfg|e] s1]; cbn [fst snd] in *; [|done].
  destruct Ha as (E1 & E2 & E3 & _ & _ & Hok). destruct (Hok cfg eq_refl) as (_ & Hnew & Hroom).
  rewrite <- E1 in Hnew. rewrite <- E1, <- E3 in Hroom.
  rewrite M_bind_eq. pose proof (newManaged_ok cfg [] s1 Hs1 Hnew Hroom) as Hn.
  destruct (newManaged cfg [] s1) as [[i|e] s2]; cbn [fst snd]; [|by destruct Hn].
  rewrite !M_bind_eq. simpl. destruct Hn as [_ Hn]. by apply Hn.
Qed.

Lemma wm_Resume req :
  wm service_ok (ResumeSession GetModel toolFactory driverFactory RecordToAgentMessage req).
Proof.
  intros s Hs. destruct req as [rq|]; [|done]. unfold ResumeSession. destruct (negb _); [done|]. rewrite M_bind_eq.
  pose proof (admit_spec (rr_Config rq) s) as Ha.
  pose proof (wm_admit service_ok service_ok_stable (rr_Config rq) s Hs) as Hs1.
  destruct (admit_session (rr_Config rq) s) as [[cfg|e] s1]; cbn [fst snd] in *; [|done].
  destruct Ha as (E1 & E2 & E3 & _ & _ & Hok). destruct (Hok cfg eq_refl) as (_ & Hnew & Hroom).
  rewrite <- E1 in Hnew. rewrite <- E1, <- E3 in Hroom.
  destruct (validateAndDecodeResumeLog _ _ _) as [[conv warns]|e]; [|done].
  rewrite M_bind_eq. pose proof (newManaged_ok cfg conv s1 Hs1 Hnew Hroom) as Hn.
  destruct (newManaged cfg conv s1) as [[i|e] s2]; cbn [fst snd]; [|by destruct Hn].
  rewrite !M_bind_eq. simpl. destruct Hn as [_ Hn].
  change (service_ok (markStarted i (set_sessions (<[sc_SessionID cfg := i]> (sessions (wd s2))) (wd s2)))).
  apply (st_ms service_ok service_ok_stable); [done|by apply Hn].
Qed.

Lemma wm_Destroy id : wm service_ok (DestroySession iter order_streams id).
Proof.
  destruct id as [sid|]; [|by intros s]. unfold DestroySession. case_bool_decide; [by intros s|].
  apply maintains_wgets_bind. intros w. destruct (sessions w !! sid) as [i|]; [|by intros s].
  apply maintains_bind; [apply wm_markDestroyed, service_ok_stable|]. intros _.
  apply maintains_bind; [apply wm_teardown, service_ok_stable|]. intros [r|v]; [|by intros s].
  apply maintains_bind; [|intros _; by intros s]. apply wm_wmodify. intros w' Hw'.
  apply (delete_sessions_ok [(sid, i)] w' Hw').
Qed.

Lemma wm_Close w1 w2 : wm service_ok (CloseService iter order_sessions order_streams w1 w2).
Proof.
  intros s Hs. apply (close_keeps service_ok service_ok_stable); [apply delete_sessions_ok|done|].
  intros _. by apply (st_closed _ service_ok_stable).
Qed.

(** A service that has been closed stays closed, whatever it is asked. *)
Notation closed := (fun w : world => svc_closed w = true).

Lemma closed_stable : stable closed.
Proof. split; try done. intros ms t w Hw. unfold doneTurn. by destruct (turns w !! t) as [[]|]. Qed.

Lemma CloseService_closed w1 w2 s : svc_closed (wd (CloseService iter order_sessions order_streams w1 w2 s).2) = true.
Proof. by apply (close_keeps closed closed_stable). Qed.

Lemma admit_closed cfg s : svc_closed (wd s) = true ->
  admit_session cfg s = (Err (newServiceError CodeUnavailable "service is closing" None), s).
Proof. intros H. unfold admit_session. rewrite M_bind_eq. cbn. by rewrite H. Qed.

Lemma CreateSession_closed req s : svc_closed (wd s) = true ->
  CreateSession GetModel toolFactory driverFactory req s =
    (Return (Err (if req then newServiceError CodeUnavailable "service is closing" None
                  else newServiceError CodeInvalidArgument "nil request" None)), s).
Proof. intros H. unfold CreateSession. destruct req as [cfg|]; [|done]. rewrite M_bind_eq, admit_closed by done. done. Qed.

Lemma serve_closed q s : svc_closed (wd s) = true -> svc_closed (wd (serve q s).2) = true.
Proof.
  intros H. pose proof (serve_stable closed closed_stable q) as Hq.
  destruct q as [req| | | | | | | | |req|id|w1 w2| | |]; try by apply Hq.
  - unfold AgentService.serve. rewrite M_bind_eq, CreateSession_closed by done. done.
  - unfold AgentService.serve, ResumeSession. rewrite M_bind_eq. destruct req as [rq|]; [|done].
    destruct (negb _); [done|]. rewrite M_bind_eq, admit_closed by done. done.
  - unfold AgentService.serve. rewrite M_bind_eq. cbn [snd mret M_ret]. revert s H.
    change (wm closed (DestroySession iter order_streams id)). unfold DestroySession.
    destruct id as [sid|]; [|by intros s]. case_bool_decide; [by intros s|].
    apply (maintains_wgets_bind closed). intros w. destruct (sessions w !! sid) as [i|]; [|by intros s].
    apply maintains_bind; [by apply (wm_markDestroyed closed), closed_stable|]. intros _.
    apply maintains_bind; [by apply (wm_teardown closed), closed_stable|]. intros [r|v]; [|by intros s].
    apply maintains_bind; [by apply (wm_wmodify closed)|]. intros _. by intros s.
  - unfold AgentService.serve. rewrite M_bind_eq. apply CloseService_closed.
Qed.

(** C10: the service's books balance after any sequence of requests and driver
    activity.  The wait group counts exactly the turns that are not done (so it
    never goes negative and no turn is counted off twice), a session limit is
    never exceeded, and every id in the table names a live object configured
    with that very id, so two ids never share a session. *)
Theorem service_invariant publisher maxSessions qs :
  let w := wd (for_range qs serve (NewAgentLoopService publisher maxSessions)).2 in
  wg w = Z.of_nat (size (openTurns (turns w))) /\
  (0 < maxSess w -> Z.of_nat (size (sessions w)) <= maxSess w)%Z /\
  (forall id i, sessions w !! id = Some i -> exists ms, objs w !! i = Some ms /\ sc_SessionID (ms_config ms) = id) /\
  (forall id1 id2 i, sessions w !! id1 = Some i -> sessions w !! id2 = Some i -> id1 = id2).
Proof.
  intros w. assert (service_ok w) as (Hwg & Hcap & Hids).
  { apply (for_range_inv (fun s => service_ok (wd s))).
    - intros q s _. pose proof (serve_stable service_ok service_ok_stable q) as Hq.
      destruct q; try (intros Hs; by apply Hq); clear Hq; unfold AgentService.serve; rewrite M_bind_eq; intros Hs.
      + by apply wm_Create.
      + by apply wm_Resume.
      + by apply wm_Destroy.
      + by apply wm_Close.
    - split; [done|]. split; simpl; [|intros id i Hi; by rewrite lookup_empty in Hi].
      rewrite map_size_empty. case_bool_decide; lia. }
  split_and!; try done. intros id1 id2 i H1 H2.
  destruct (Hids id1 i H1) as (ms & Hms & <-), (Hids id2 i H2) as (ms' & Hms' & <-). congruence.
Qed.

(** ** Creating and destroying a session *)

Lemma getSession_read id s : (getSession id s).2 = s.
Proof. done. Qed.

(** What [CreateSession] promises.  When it succeeds, the service was open,
    below its limit and did not know the id; exactly that id is added to the
    table, and asking for it returns an idle session with an empty conversation
    and zero counters.  When it fails, the error is returned and the table is
    unchanged. *)
Theorem CreateSession_spec req s :
  let '(r, s') := CreateSession GetModel toolFactory driverFactory req s in
  match r with
  | Return (Ok sum) =>
      let id := su_SessionID sum in
      svc_closed (wd s) = false /\ sessions (wd s) !! id = None /\
      (0 < maxSess (wd s) -> Z.of_nat (size (sessions (wd s))) < maxSess (wd s))%Z /\
      su_State sum = StateIdle /\
      (exists i, sessions (wd s') = <[id := i]> (sessions (wd s))) /\
      (id <> "" -> GetSession (Some id) s' = (Return (Ok (mkGetSessionResponse id StateIdle zeroMetrics 0)), s'))
  | Return (Err _) => sessions (wd s') = sessions (wd s)
  | Panic _ => False
  end.
Proof.
  destruct req as [cfg0|]; [|done]. unfold CreateSession. rewrite M_bind_eq.
  pose proof (admit_spec cfg0 s) as Ha.
  destruct (admit_session cfg0 s) as [[cfg|e] s1]; cbn [fst snd] in *; [|by destruct Ha].
  destruct Ha as (E1 & E2 & E3 & _ & _ & Hok). destruct (Hok cfg eq_refl) as (Hcl & Hnew & Hroom).
  rewrite M_bind_eq. pose proof (newManaged_spec cfg [] s1) as Hn.
  destruct (newManaged cfg [] s1) as [[i|e] s2]; cbn [fst snd]; destruct Hn as (N1 & N2 & _ & _ & N5);
    [|simpl; by rewrite N1].
  destruct N5 as (Hfr & (ms & Hobjs & Hcfg & Hdes) & a & Hag & Hst & Hrun & Hss).
  rewrite !M_bind_eq. simpl. rewrite Hag. split_and!; try done.
  - exists i. by rewrite N1, E1.
  - intros Hne. unfold GetSession. destruct (sc_SessionID cfg) as [|c id] eqn:Hid; [done|].
    rewrite M_bind_eq. unfold getSession, wgets, gets, isDestroyed. simpl.
    rewrite lookup_insert_eq, Hobjs, lookup_insert_eq, Hdes. rewrite !M_bind_eq. simpl. rewrite Hag, Hss.
    rewrite !M_bind_eq. simpl. rewrite Hag, Hst. unfold ConversationLen. by rewrite Hss.
Qed.

(** What destroying object [i] settles, and nothing undoes. *)
Definition torn (i : nat) (w : world) : Prop :=
  exists ms, objs w !! i = Some ms /\ ms_destroyed ms = true /\ ms_cancelled ms = true /\
    ms_turnDone ms = None /\ ms_streams ms = ∅.

Lemma torn_modify f i j w :
  (forall ms, ms_destroyed (f ms) = ms_destroyed ms /\ ms_cancelled (f ms) = ms_cancelled ms /\
    (ms_turnDone ms = None -> ms_turnDone (f ms) = None) /\ (ms_streams ms = ∅ -> ms_streams (f ms) = ∅)) ->
  torn i w -> torn i (modify_ms f j w).
Proof.
  intros Hf (ms & Hms & Hd & Hc & Ht & Hs). destruct (Hf ms) as (F1 & F2 & F3 & F4).
  unfold torn, modify_ms. simpl. destruct (decide (j = i)) as [->|Hne].
  - exists (f ms). rewrite lookup_alter_eq, Hms, F1, F2. split_and!; auto.
  - exists ms. by rewrite lookup_alter_ne.
Qed.

Lemma runHooks_torn i hs b w : torn i w -> torn i (foldl (fun s h => runHook h s) (b, w) hs).2.
Proof.
  revert b w. induction hs as [|h hs IH]; intros b w Hw; [done|]. cbn [foldl].
  destruct h as [us|ms r]; cbn [runHook]; apply IH; [done|].
  apply torn_modify; [|done]. intros m. simpl. split_and!; try done. set_solver.
Qed.

Lemma closeStream_torn i j r e : maintains (fun s => torn i (wd s)) (onBus j (closeWithError r e)).
Proof.
  apply (wm_onBus (torn i)). intros b w Hw. unfold closeWithError.
  destruct (receivers w !! r) as [rec|]; [|done]. destruct (rc_closed rec); [done|]. by apply runHooks_torn.
Qed.

(** Object [i] is destroyed in [w]; kept by everything until it is torn. *)
Definition doomed (i : nat) (w : world) : Prop := exists ms, objs w !! i = Some ms /\ ms_destroyed ms = true.

Lemma doomed_modify f i j w :
  (forall ms, ms_destroyed ms = true -> ms_destroyed (f ms) = true) -> doomed i w -> doomed i (modify_ms f j w).
Proof.
  intros Hf (ms & Hms & Hd). unfold doomed, modify_ms. simpl. destruct (decide (j = i)) as [->|Hne].
  - exists (f ms). rewrite lookup_alter_eq, Hms. auto.
  - exists ms. by rewrite lookup_alter_ne.
Qed.

Lemma doomed_done i ms t w : doomed i w -> doomed i (doneTurn ms t w).
Proof.
  intros Hw. unfold doneTurn. destruct (turns w !! t) as [[]|]; try done. by apply doomed_modify.
Qed.

Lemma doomed_close i r e b w : doomed i w -> doomed i (closeWithError r e (b, w)).2.
Proof.
  intros Hw. unfold closeWithError. destruct (receivers w !! r) as [rec|]; [|done].
  destruct (rc_closed rec); [done|].
  assert (forall hs b w, doomed i w -> doomed i (foldl (fun s h => runHook h s) (b, w) hs).2) as Hh; [|by apply Hh].
  clear. induction hs as [|[us|ms r] hs IH]; intros b w Hw; cbn [foldl runHook]; [done|by apply IH|].
  apply IH. by apply doomed_modify.
Qed.

Lemma doomed_handle i h e b w : doomed i w -> doomed i (handle h e (b, w)).2.
Proof.
  intros Hw. assert (forall r ev, doomed i (push r ev w).2) as Hpush.
  { intros r ev. unfold push. by repeat case_match. }
  destruct h as [sid|ms t|ms r t|sid r]; cbn [handle]; [done| | |apply Hpush].
  - destruct (isTerminalTurnEvent _); [by apply doomed_done|done].
  - specialize (Hpush r (normalizeSessionEvent (sessionIDOf ms w) e)).
    destruct (push r _ w) as [ok w1]. cbn [snd] in *. destruct (negb ok); [done|].
    destruct (isTerminalTurnEvent _); [|done].
    pose proof (doomed_close i r EOF b w1 Hpush) as Hc. destruct (closeWithError r EOF (b, w1)) as [b2 w2].
    by apply doomed_done.
Qed.

(** What [teardown] does to a session marked destroyed.  If the driver stops,
    with an error or without, the session ends up torn; if it panics the
    session is left marked.  The table of sessions is not its business. *)
Lemma teardown_torn i s1 : doomed i (wd s1) ->
  let '(r, s2) := teardown iter order_streams i s1 in
  sessions (wd s2) = sessions (wd s1) /\
  match r with Return _ => torn i (wd s2) | Panic _ => doomed i (wd s2) end.
Proof.
  intros Hd.
  assert (sessions (wd (teardown iter order_streams i s1).2) = sessions (wd s1)) as Hss.
  { apply (wm_teardown (fun w => sessions w = sessions (wd s1))); [|done].
    split; try done. intros m t w Hw. by rewrite (proj1 (doneTurn_frame m t w)). }
  destruct (teardown iter order_streams i s1) as [r s2] eqn:E. split; [done|]. clear Hss. revert E.
  unfold teardown, wgets. rewrite M_bind_eq. cbn [gets fst snd].
  set (pre := match _ with Some u => onBus i _ | None => mret () end). rewrite M_bind_eq.
  assert (doomed i (wd (pre s1).2)) as H1.
  { unfold pre. destruct (match objs (wd s1) !! i with Some ms => ms_unsubscribe ms | None => None end) as [u|];
      [by apply (wm_onBus (doomed i))|done]. }
  revert H1. generalize (pre s1).2. clear pre s1 Hd. intros s1 H1. rewrite M_bind_eq. cbn [gets fst snd].
  rewrite M_bind_eq. set (stop := onAgent i _ (Stop _ _ _)).
  assert (doomed i (wd (stop s1).2)) as H2.
  { apply (wm_onAgent (doomed i)); [|done]. apply maintains_Stop; [intros; by apply doomed_handle|].
    intros d Hd'. unfold driverOf in Hd'. destruct (drivers (wd s1) !! i) as [sp|]; [|done]. injection Hd' as <-.
    pose proof (maintains_emit iter handle (doomed i) (fun h e b w => doomed_handle i h e b w)) as He.
    split_and!; [intros sess p|intros sess|]; simpl; maintains_tac; apply He. }
  destruct (stop s1) as [[r0|v] s3]; cbn [fst snd] in *; [|by intros [= <- <-]].
  rewrite !M_bind_eq. cbn [wmodify modify fst snd].
  intros [= <- <-].
  assert (torn i (set_streams (fun _ => ∅) i (completeActiveTurn i (cancel i (wd s3))))) as H3.
  { destruct H2 as (ms3 & Hms3 & Hd3). unfold completeActiveTurn, cancel, modify_ms. simpl.
    rewrite lookup_alter_eq, Hms3. simpl.
    destruct (ms_turnDone ms3) as [t|]; [unfold doneTurn; simpl; destruct (turns (wd s3) !! t) as [[]|]|];
      (eexists; split; [simpl; rewrite ?lookup_alter_eq, Hms3; simpl; reflexivity|done]). }
  unfold closeAllStreams, wgets. rewrite !M_bind_eq. simpl.
  apply (maintains_for_range (fun s => torn i (wd s))); [|exact H3].
  intros r _. apply closeStream_torn.
Qed.

(** A destroyed session is gone.  When [DestroySession] finds the id it marks
    the session destroyed; then, even if the driver fails to stop, it removes
    exactly that id from the table, the session's context is cancelled, no turn
    of it is left for a later completion and no stream stays registered, and
    asking for the id again reports that it is not found.  A driver that panics
    takes the request with it before any of that: the session stays in the
    table, marked destroyed. *)
Theorem DestroySession_spec sid i s :
  sid <> "" -> sessions (wd s) !! sid = Some i -> is_Some (objs (wd s) !! i) ->
  let '(r, s') := DestroySession iter order_streams (Some sid) s in
  match r with
  | Panic _ => doomed i (wd s') /\ sessions (wd s') = sessions (wd s)
  | Return _ =>
      torn i (wd s') /\ sessions (wd s') = delete sid (sessions (wd s)) /\
      (GetSession (Some sid) s').1 = Return (Err (notFound sid))
  end.
Proof.
  intros Hne Hsid [ms Hms]. unfold DestroySession.
  rewrite bool_decide_eq_false_2 by done. rewrite M_bind_eq. unfold wgets. cbn [gets fst snd].
  rewrite Hsid, M_bind_eq.
  set (s1 := (wmodify (markDestroyed i) s).2).
  assert (doomed i (wd s1)) as Hd.
  { eexists. simpl. unfold markDestroyed, modify_ms. simpl. by rewrite lookup_alter_eq, Hms. }
  change (sessions (wd s)) with (sessions (wd s1)).
  pose proof (teardown_torn i s1 Hd) as Ht. rewrite M_bind_eq.
  destruct (teardown iter order_streams i s1) as [[r|v] s2]; cbn [fst snd] in *; destruct Ht as [Hss Ht]; [|done].
  rewrite M_bind_eq. cbn [wmodify modify fst snd mret M_ret mapOutcome].
  destruct r; (split; [done|]; split; [by rewrite <- Hss|];
    destruct sid as [|c sid]; [done|]; unfold GetSession; rewrite M_bind_eq; unfold getSession, wgets; simpl;
    by rewrite lookup_delete_eq).
Qed.
End Reachable.

(** ** A concrete service *)

Module Demo.
(** A driver that starts at once and says nothing yet, as the native one. *)
Definition quiet : driver_spec :=
  mkDriverSpec (fun _ _ => ([], Return (Ok ()))) (fun _ => ([], Return (Ok ()))) ([], Return (Ok ())).

Definition iter_id (l : list (Z * subscriber)) : list (Z * subscriber) := l.
Definition sessions_id (l : list (string * nat)) : list (string * nat) := l.
Definition streams_id (l : list nat) : list nat := l.
Definition GetModel (provider model : string) : res error Model := Ok Transform.Examples.target.
Definition newDriver (name : string) (m : Model) (tools : list noopTool) (c : SessionConfig) : res error driver_spec := Ok quiet.
Definition decode (r : AgentMessageRecord) : res error AgentMessage :=
  if bool_decide (re_Content r = "bad") then Err (ErrText "bad json")
  else Ok (mkAgentMessage (re_Turn r) (MUser (mkUserMessage [TextContent (re_Content r) ""] 0))).

Definition config (id : string) : SessionConfig :=
  mkSessionConfig id "native" "claude" "anthropic" "" ["bash"] ∅ (mkToolEnvironmentConfig ToolEnvLocal "" "" "").

Definition run (qs : list request) : service :=
  (for_range qs (serve iter_id sessions_id streams_id GetModel defaultToolCatalogFactory newDriver decode)
    (NewAgentLoopService true 2)).2.

Definition closeResult (qs : list request) : outcome error () :=
  (CloseService iter_id sessions_id streams_id [] [] (run qs)).1.

(** A refused message loses the active turn.  [SendMessage] registers its
    own turn before it tries to start; when the session is busy it completes
    that turn and clears the session's record of the one still running.  A
    session with one accepted message is closed cleanly, but after a second,
    refused message the first turn can no longer be completed by the teardown:
    its slot in the wait group is never given back and [Close] runs into its
    deadline. *)
Theorem busy_send_leaks_turn :
  closeResult [ReqCreate (Some (config "a")); ReqSend (Some "a") "one"] = Return (Ok ()) /\
  (SendMessage iter_id (Some "a") "two" (run [ReqCreate (Some (config "a")); ReqSend (Some "a") "one"])).1 =
    Return (Err (ServiceError CodeFailedPrecondition "agent is busy: current state=streaming"
      (Some (BusyError (Some StateStreaming))))) /\
  closeResult [ReqCreate (Some (config "a")); ReqSend (Some "a") "one"; ReqSend (Some "a") "two"] =
    Return (Err (ServiceError CodeDeadlineExceeded "close drain timeout exceeded" None)).
Proof. split_and!; vm_compute; reflexivity. Qed.

(** The same two messages with the turn finished in between. *)
Example sequential_turns_close :
  closeResult [ReqCreate (Some (config "a")); ReqSend (Some "a") "one";
    ReqDriver 0 (DEmit (event EventTurnCompleted)); ReqDriver 0 (DTransition StateIdle); ReqDriver 0 DIdle;
    ReqSend (Some "a") "two"] = Return (Ok ()).
Proof. vm_compute. reflexivity. Qed.

Example limit : (CreateSession GetModel defaultToolCatalogFactory newDriver (Some (config ""))
    (run [ReqCreate (Some (config "a")); ReqCreate (Some (config "b"))])).1 =
  Return (Err (ServiceError CodeResourceExhausted "max sessions reached" None)).
Proof. vm_compute. reflexivity. Qed.

Example generated : (CreateSession GetModel defaultToolCatalogFactory newDriver (Some (config "")) (run [])).1 =
  Return (Ok (mkSessionSummary "agent-00000001" StateIdle)).
Proof. vm_compute. reflexivity. Qed.

Definition started : world :=
  set_turns {[0%nat := false]} 1 (set_receivers {[0%nat := newServiceEventReceiver turnStreamBufferSize]}
    (wd (run [ReqCreate (Some (config "a"))]))).
Definition turnEvents : list AgentEvent :=
  [event EventTurnStarted; event EventTurnCompleted; event EventStateChange].

Lemma turn_stream_scoped_witness :
  exists rec evts',
    receivers (feed 0 0 0 turnEvents (newEventBus, started)).2 !! 0%nat = Some rec /\
    stream_events rec = toAPIEvent <$> evts' /\
    Forall2 (fun e e' => exists sid, e' = normalizeSessionEvent sid e) (uptoTerminal turnEvents) evts' /\
    rc_closed rec = hasTerminal turnEvents /\
    turns (feed 0 0 0 turnEvents (newEventBus, started)).2 !! 0%nat = Some (hasTerminal turnEvents) /\
    (hasTerminal turnEvents = true -> rc_terminalErr rec = Some EOF).
Proof. apply turn_stream_scoped; vm_compute; reflexivity. Defined.

Lemma DestroySession_spec_witness :
  let s := run [ReqCreate (Some (config "a")); ReqSend (Some "a") "one"] in
  let '(r, s') := DestroySession iter_id streams_id (Some "a") s in
  match r with
  | Panic _ => doomed 0 (wd s') /\ sessions (wd s') = sessions (wd s)
  | Return _ =>
      torn 0 (wd s') /\ sessions (wd s') = delete "a" (sessions (wd s)) /\
      (GetSession (Some "a") s').1 = Return (Err (notFound "a"))
  end.
Proof.
  apply (DestroySession_spec iter_id streams_id "a" 0
    (run [ReqCreate (Some (config "a")); ReqSend (Some "a") "one"])).
  - discriminate.
  - vm_compute. reflexivity.
  - vm_compute. eexists. reflexivity.
Defined.
End Demo.
