(* ===== verification/DriverRegistry.v ===== *)
(** * DriverRegistry: driver factories by name (internal/agent/driver.go)

    The process-wide table behind [RegisterDriver], [NewDriver] and
    [RegisteredDrivers], with its mutex taken for each call.  A factory is an
    opaque function from a configuration to a driver or an error. *)

From S2P Require Import Prelude AgentTypes.

Local Open Scope string_scope.
Local Open Scope list_scope.

Section DriverRegistry.
Context {Config Driver : Type}.

Definition DriverFactory : Type := Config -> res error Driver.
Definition driverRegistry : Type := gmap string DriverFactory.

Definition RegisterDriver (name : string) (factory : option DriverFactory) (reg : driverRegistry)
  : res error () * driverRegistry :=
  if bool_decide (name = "") then (Err (ErrText "driver name is required"), reg)
  else
    match factory with
    | None => (Err (ErrText "driver factory is required"), reg)
    | Some f =>
        if bool_decide (is_Some (reg !! name))
        then (Err (ErrText (String.app "driver already registered: " name)), reg)
        else (Ok (), <[name := f]> reg)
    end.

Definition NewDriver (name : string) (cfg : Config) (reg : driverRegistry) : res error Driver :=
  match reg !! name with
  | None => Err (ErrText (String.app "unknown driver: " name))
  | Some factory => factory cfg
  end.

Definition RegisteredDrivers (reg : driverRegistry) : list string := sort_Strings (map_to_list reg).*1.

(** A registration never replaces another one, and a factory that was taken
    is the one later calls use. *)
Lemma RegisterDriver_keeps name factory reg other :
  other <> name -> (RegisterDriver name factory reg).2 !! other = reg !! other.
Proof.
  intros Hne. unfold RegisterDriver. case_bool_decide; [done|]. destruct factory as [f|]; [|done].
  destruct (bool_decide (is_Some (reg !! name))); [done|]. simpl. by apply lookup_insert_ne.
Qed.

Lemma RegisterDriver_NewDriver name f cfg reg :
  (RegisterDriver name (Some f) reg).1 = Ok () ->
  NewDriver name cfg (RegisterDriver name (Some f) reg).2 = f cfg.
Proof.
  unfold RegisterDriver, NewDriver. case_bool_decide; [done|]. destruct (bool_decide (is_Some (reg !! name))); [done|].
  intros _. cbn [snd].
  assert (E : (<[name := f]> reg : driverRegistry) !! name = Some f) by apply lookup_insert_eq.
  destruct ((<[name := f]> reg : driverRegistry) !! name) as [g|]; by simplify_eq.
Qed.

Lemma RegisteredDrivers_spec reg :
  (forall name, name ∈ RegisteredDrivers reg <-> is_Some (reg !! name)) /\
  NoDup (RegisteredDrivers reg) /\ Sorted String.le (RegisteredDrivers reg).
Proof.
  unfold RegisteredDrivers. split_and!.
  - intros name. rewrite elem_of_sort_Strings, list_elem_of_fmap. split.
    + intros ((n & f) & -> & Hin). apply elem_of_map_to_list in Hin. by exists f.
    + intros [f Hf]. exists (name, f). split; [done|]. by apply elem_of_map_to_list.
  - apply sort_Strings_NoDup, NoDup_fst_map_to_list.
  - apply sort_Strings_Sorted.
Qed.
End DriverRegistry.
