(* ===== verification/GoText.v ===== *)
(** * GoText: more of packages strings and strconv

    Splitting, prefixes and suffixes, searching, ASCII classes, and the decimal
    numbers of strconv, at 64 bits; the regular expressions the sources write. *)

From Stdlib Require Import Ascii String.
From S2P Require Import Prelude GoStrings.

Local Open Scope list_scope.
Local Open Scope string_scope.

(** ** Bytes *)

Definition byteOf (c : ascii) : Z := Z.of_nat (nat_of_ascii c).
Definition inRange (lo hi : Z) (c : ascii) : bool := bool_decide (lo <= byteOf c <= hi)%Z.
Definition isDigit : ascii -> bool := inRange 48 57.
Definition isLower : ascii -> bool := inRange 97 122.
Definition isUpper : ascii -> bool := inRange 65 90.
Definition isAlnum (c : ascii) : bool := isDigit c || isLower c || isUpper c.

(** The byte [c] is one of the bytes of [set]. *)
Definition oneOf (set : string) (c : ascii) : bool := ContainsByte c set.

Definition newline : ascii := ascii_of_nat 10.
Definition tab : ascii := ascii_of_nat 9.
Definition cr : ascii := ascii_of_nat 13.

Fixpoint allBytes (p : ascii -> bool) (s : string) : bool :=
  match s with EmptyString => true | String c s' => p c && allBytes p s' end.

(** A regular expression [^[first][rest]*$]. *)
Definition matchClass (first rest : ascii -> bool) (s : string) : bool :=
  match s with EmptyString => false | String c s' => first c && allBytes rest s' end.

Lemma append_assoc_l (s t u : string) : s ++ t ++ u = (s ++ t) ++ u.
Proof. induction s as [|c s IH]; [done|]. rewrite !append_cons. by rewrite IH. Qed.

Lemma append_nil_r s : s ++ "" = s.
Proof. induction s as [|c s IH]; [done|]. by rewrite append_cons, IH. Qed.

Lemma append_inj_l (s t u : string) : s ++ t = s ++ u -> t = u.
Proof. induction s as [|c s IH]; [done|]. rewrite !append_cons. intros H. by simplify_eq. Qed.

Lemma allBytes_app p s t : allBytes p (s ++ t) = allBytes p s && allBytes p t.
Proof. induction s as [|c s IH]; [done|]. rewrite append_cons. simpl. by rewrite IH, andb_assoc. Qed.

Lemma allBytes_impl (p q : ascii -> bool) s :
  (forall c, p c = true -> q c = true) -> allBytes p s = true -> allBytes q s = true.
Proof. intros Hpq. induction s as [|c s IH]; simpl; [done|]. rewrite !andb_true_iff. naive_solver. Qed.

Lemma ContainsByte_cons c a s : ContainsByte c (String a s) = bool_decide (a = c) || ContainsByte c s.
Proof. unfold ContainsByte. simpl. case_bool_decide; [done|]. by destruct (CutByte c s) as [[]|]. Qed.

Lemma ContainsByte_app c s t : ContainsByte c (s ++ t) = ContainsByte c s || ContainsByte c t.
Proof.
  induction s as [|a s IH]; [done|]. by rewrite append_cons, !ContainsByte_cons, IH, orb_assoc.
Qed.

Lemma allBytes_no_byte p c s : allBytes p s = true -> p c = false -> ContainsByte c s = false.
Proof.
  intros Hs Hc. induction s as [|a s IH]; [done|]. simpl in Hs. apply andb_true_iff in Hs as [Ha Hs].
  rewrite ContainsByte_cons, IH by done. rewrite bool_decide_eq_false_2; [done|]. by intros ->; rewrite Ha in Hc.
Qed.

(** ** Splitting *)

Lemma CutByte_length c s before after :
  CutByte c s = Some (before, after) -> (String.length after < String.length s)%nat.
Proof.
  revert before. induction s as [|a s IH]; intros before; [done|]. simpl.
  case_bool_decide; [intros [= <- <-]; lia|].
  destruct (CutByte c s) as [[b a']|]; [|done]. intros [= <- <-]. specialize (IH _ eq_refl). lia.
Qed.

Fixpoint splitLoop (fuel : nat) (c : ascii) (s : string) : list string :=
  match fuel with
  | O => [s]
  | S fuel' =>
      match CutByte c s with
      | None => [s]
      | Some (before, after) => before :: splitLoop fuel' c after
      end
  end.
(** strings.Split with a separator of one byte. *)
Definition SplitByte (c : ascii) (s : string) : list string := splitLoop (String.length s) c s.

(** strings.SplitN with a separator of one byte and [n = 2]. *)
Definition SplitN2 (c : ascii) (s : string) : list string :=
  match CutByte c s with Some (before, after) => [before; after] | None => [s] end.

(** Joining with the separator is undone by splitting at it. *)
Fixpoint JoinByte (c : ascii) (l : list string) : string :=
  match l with
  | [] => ""
  | [x] => x
  | x :: l' => x ++ String c (JoinByte c l')
  end.

Lemma CutByte_None c s : CutByte c s = None <-> ContainsByte c s = false.
Proof. unfold ContainsByte. by destruct (CutByte c s) as [[]|]. Qed.

Lemma splitLoop_fuel fuel1 fuel2 c s :
  (String.length s <= fuel1)%nat -> (String.length s <= fuel2)%nat -> splitLoop fuel1 c s = splitLoop fuel2 c s.
Proof.
  revert fuel2 s. induction fuel1 as [|f1 IH]; intros [|f2] s H1 H2; simpl; try done.
  - destruct (CutByte c s) as [[b a]|] eqn:E; [|done]. apply CutByte_length in E. lia.
  - destruct (CutByte c s) as [[b a]|] eqn:E; [|done]. apply CutByte_length in E. lia.
  - destruct (CutByte c s) as [[b a]|] eqn:E; [|done]. apply CutByte_length in E. f_equal. apply IH; lia.
Qed.

Lemma SplitByte_unfold c s :
  SplitByte c s = match CutByte c s with
                  | None => [s]
                  | Some (before, after) => before :: SplitByte c after
                  end.
Proof.
  unfold SplitByte. destruct (String.length s) as [|n] eqn:Hn; simpl.
  - destruct (CutByte c s) as [[b a]|] eqn:E; [|done]. apply CutByte_length in E. lia.
  - destruct (CutByte c s) as [[b a]|] eqn:E; [|done]. apply CutByte_length in E. f_equal.
    apply splitLoop_fuel; lia.
Qed.

Lemma CutByte_app c before after :
  ContainsByte c before = false -> CutByte c (before ++ String c after) = Some (before, after).
Proof. intros H. by apply CutByte_Some. Qed.

Lemma SplitByte_JoinByte c l :
  l <> [] -> Forall (fun x => ContainsByte c x = false) l -> SplitByte c (JoinByte c l) = l.
Proof.
  intros Hne Hl. induction Hl as [|x l Hx Hl IH]; [done|]. rewrite SplitByte_unfold.
  destruct l as [|y l]; simpl.
  - by rewrite (proj2 (CutByte_None _ _) Hx).
  - rewrite CutByte_app by done. f_equal. by apply IH.
Qed.

Lemma JoinByte_SplitByte c s : JoinByte c (SplitByte c s) = s.
Proof.
  remember (String.length s) as n eqn:Hn. revert s Hn. induction n as [n IH] using (well_founded_induction lt_wf).
  intros s ->. rewrite SplitByte_unfold. destruct (CutByte c s) as [[b a]|] eqn:E; [|done].
  pose proof (CutByte_length _ _ _ _ E) as Hlt. apply CutByte_Some in E as [-> _].
  specialize (IH _ Hlt a eq_refl). simpl.
  destruct (SplitByte c a) as [|y l] eqn:Ha; [|by rewrite IH].
  rewrite SplitByte_unfold in Ha. by destruct (CutByte c a) as [[]|].
Qed.

Lemma SplitByte_no_byte c s : Forall (fun x => ContainsByte c x = false) (SplitByte c s).
Proof.
  remember (String.length s) as n eqn:Hn. revert s Hn. induction n as [n IH] using (well_founded_induction lt_wf).
  intros s ->. rewrite SplitByte_unfold. destruct (CutByte c s) as [[b a]|] eqn:E.
  - pose proof (CutByte_length _ _ _ _ E) as Hlt. apply CutByte_Some in E as [_ Hb].
    constructor; [done|]. by eapply IH.
  - apply CutByte_None in E. by constructor.
Qed.

Lemma SplitByte_ne c s : SplitByte c s <> [].
Proof. rewrite SplitByte_unfold. by destruct (CutByte c s) as [[]|]. Qed.

(** ** Prefixes, suffixes, substrings *)

Definition HasPrefix (s prefix : string) : bool :=
  match CutPrefix prefix s with Some _ => true | None => false end.
Definition TrimPrefix (s prefix : string) : string := default s (CutPrefix prefix s).

(** The string before the suffix. *)
Fixpoint CutSuffix (suffix s : string) : option string :=
  if bool_decide (s = suffix) then Some ""
  else match s with
       | EmptyString => None
       | String c s' => String c <$> CutSuffix suffix s'
       end.
Definition HasSuffix (s suffix : string) : bool :=
  match CutSuffix suffix s with Some _ => true | None => false end.
Definition TrimSuffix (s suffix : string) : string := default s (CutSuffix suffix s).

(** strings.Contains. *)
Fixpoint Contains (s sub : string) : bool :=
  HasPrefix s sub || match s with EmptyString => false | String _ s' => Contains s' sub end.

Lemma HasPrefix_spec s p : HasPrefix s p = true <-> exists t, s = p ++ t.
Proof.
  unfold HasPrefix. destruct (CutPrefix p s) as [t|] eqn:E.
  - apply CutPrefix_Some in E. naive_solver.
  - split; [done|]. intros [t ->]. by rewrite CutPrefix_app in E.
Qed.

Lemma HasPrefix_app p t : HasPrefix (p ++ t) p = true.
Proof. apply HasPrefix_spec. eauto. Qed.

Lemma Contains_spec s sub : Contains s sub = true <-> exists u v, s = u ++ sub ++ v.
Proof.
  induction s as [|c s IH]; simpl; rewrite orb_true_iff, HasPrefix_spec.
  - split; [|intros (u & v & H); left; exists v; by destruct u].
    intros [[t H]|]; [|done]. by exists "", t.
  - rewrite IH. split.
    + intros [[t H]|(u & v & ->)]; [by exists "", t|]. exists (String c u), v. by rewrite append_cons.
    + intros (u & v & H). destruct u as [|d u]; [left; exists v; by rewrite H|right].
      rewrite append_cons in H. simplify_eq. eauto.
Qed.

Lemma CutSuffix_Some suf s t : CutSuffix suf s = Some t -> s = t ++ suf.
Proof.
  revert t. induction s as [|c s IH]; intros t; simpl.
  { case_bool_decide; [intros [= <-]; by subst|done]. }
  case_bool_decide; [intros [= <-]; by subst|].
  destruct (CutSuffix suf s) as [u|]; [|done]. intros [= <-]. rewrite append_cons. f_equal. by apply IH.
Qed.

(** ** Letter case

    strings.ToLower goes byte by byte when the string is ASCII, and over the
    runes, with [unicode.ToLower], otherwise: the tables of package unicode are
    an argument. *)
Definition lowerByte (c : ascii) : ascii := if isUpper c then ascii_of_nat (nat_of_ascii c + 32) else c.
Fixpoint mapBytes (f : ascii -> ascii) (s : string) : string :=
  match s with EmptyString => EmptyString | String c s' => String (f c) (mapBytes f s') end.
Definition isASCII (s : string) : bool := allBytes (inRange 0 127) s.
Definition ToLower (unicodeToLower : string -> string) (s : string) : string :=
  if isASCII s then mapBytes lowerByte s else unicodeToLower s.

(** ** Fields *)

(** The bytes up to the first white space, and what follows it. *)
Fixpoint fieldsLoop (fuel : nat) (cur bs : list Z) : list (list Z) :=
  let flush (l : list (list Z)) := match cur with [] => l | _ => reverse cur :: l end in
  match fuel with
  | O => flush []
  | S fuel' =>
      match bs with
      | [] => flush []
      | b :: bs' =>
          match stripOne spaces bs with
          | Some rest => flush (fieldsLoop fuel' [] rest)
          | None => fieldsLoop fuel' (b :: cur) bs'
          end
      end
  end.
(** strings.Fields. *)
Definition Fields (s : string) : list string := of_bytes <$> fieldsLoop (S (length (bytes s))) [] (bytes s).

Example Fields_ex : Fields "  size	12 x " = ["size"; "12"; "x"].
Proof. vm_compute. reflexivity. Qed.

(** ** Numbers *)

Inductive numError : Type := ErrSyntax | ErrRange.
#[export] Instance numError_eq_dec : EqDecision numError.
Proof. solve_decision. Defined.

Definition maxUint64 : Z := 2 ^ 64 - 1.

(** The loop of strconv.ParseUint in base 10. *)
Fixpoint parseUintLoop (s : string) (n : Z) : res numError Z :=
  match s with
  | EmptyString => Ok n
  | String c s' =>
      if negb (isDigit c) then Err ErrSyntax
      else let n' := (n * 10 + (byteOf c - 48))%Z in
           if bool_decide (maxUint64 < n')%Z then Err ErrRange else parseUintLoop s' n'
  end.
Definition ParseUint (s : string) : res numError Z :=
  match s with EmptyString => Err ErrSyntax | _ => parseUintLoop s 0 end.

(** strconv.ParseInt(s, 10, 64), and strconv.Atoi. *)
Definition ParseInt (s : string) : res numError Z :=
  let signed (neg : bool) (rest : string) : res numError Z :=
    match ParseUint rest with
    | Err e => Err e
    | Ok un =>
        if neg then (if bool_decide (2 ^ 63 < un)%Z then Err ErrRange else Ok (- un)%Z)
        else (if bool_decide (2 ^ 63 <= un)%Z then Err ErrRange else Ok un)
    end in
  match s with
  | EmptyString => Err ErrSyntax
  | String c rest =>
      if bool_decide (c = "+"%char) then signed false rest
      else if bool_decide (c = "-"%char) then signed true rest
      else signed false s
  end.

Definition int64 (n : Z) : Prop := (- 2 ^ 63 <= n < 2 ^ 63)%Z.

(** The wrap-around of Go's int. *)
Definition wrap64 (n : Z) : Z := ((n + 2 ^ 63) mod 2 ^ 64 - 2 ^ 63)%Z.

Lemma wrap64_range n : int64 (wrap64 n).
Proof. unfold wrap64, int64. pose proof (Z.mod_pos_bound (n + 2 ^ 63) (2 ^ 64) ltac:(lia)). lia. Qed.

Lemma wrap64_id n : int64 n -> wrap64 n = n.
Proof. unfold wrap64, int64. intros. rewrite Z.mod_small; lia. Qed.

Lemma parseUintLoop_range s n v : (0 <= n)%Z -> parseUintLoop s n = Ok v -> (0 <= v)%Z.
Proof.
  revert n. induction s as [|c s IH]; intros n Hn; simpl; [intros; by simplify_eq|].
  destruct (negb _) eqn:Hd; [done|]. case_bool_decide; [done|]. apply IH.
  apply negb_false_iff in Hd. unfold isDigit, inRange in Hd. apply bool_decide_eq_true in Hd. lia.
Qed.

(** No result leaves the 64-bit range. *)
Lemma ParseInt_int64 s n : ParseInt s = Ok n -> int64 n.
Proof.
  unfold ParseInt, int64. destruct s as [|c s]; [done|]. intros H.
  assert (forall t u, ParseUint t = Ok u -> (0 <= u)%Z) as Hpos.
  { intros [|d t] u; [done|]. by apply parseUintLoop_range. }
  repeat case_bool_decide; destruct (ParseUint _) as [u|] eqn:E; try done;
    specialize (Hpos _ _ E); case_bool_decide; simplify_eq; lia.
Qed.

(** The digits [pretty] writes are read back. *)
Lemma pretty_N_char_digit (d : N) :
  (d < 10)%N -> isDigit (pretty_N_char d) = true /\ byteOf (pretty_N_char d) = (48 + Z.of_N d)%Z.
Proof.
  intros Hd. assert (d = 0 \/ d = 1 \/ d = 2 \/ d = 3 \/ d = 4 \/ d = 5 \/ d = 6 \/ d = 7 \/ d = 8 \/ d = 9)%N as Hc by lia.
  repeat destruct Hc as [->|Hc]; try subst d; vm_compute; done.
Qed.

Lemma parseUintLoop_pretty (x : N) s :
  (Z.of_N x <= maxUint64)%Z -> parseUintLoop (pretty_N_go x s) 0 = parseUintLoop s (Z.of_N x).
Proof.
  revert s. induction (N.lt_wf_0 x) as [x _ IH]. intros s Hx.
  destruct (decide (x = 0)%N) as [->|Hne]; [by rewrite pretty_N_go_0|].
  rewrite pretty_N_go_step by lia.
  pose proof (N.div_lt x 10 ltac:(lia) ltac:(lia)) as Hlt.
  rewrite IH by (done || (rewrite N2Z.inj_div; lia)). simpl.
  destruct (pretty_N_char_digit (x `mod` 10)) as [-> ->]; [by apply N.mod_lt|]. simpl.
  assert (Z.of_N (x `div` 10) * 10 + (48 + Z.of_N (x `mod` 10) - 48) = Z.of_N x)%Z as ->.
  { pose proof (N.div_mod x 10 ltac:(lia)). lia. }
  by rewrite bool_decide_eq_false_2 by lia.
Qed.

(** Only digits, at least one. *)
Lemma pretty_N_go_digits (x : N) s : allBytes isDigit s = true -> allBytes isDigit (pretty_N_go x s) = true.
Proof.
  revert s. induction (N.lt_wf_0 x) as [x _ IH]. intros s Hs.
  destruct (decide (x = 0)%N) as [->|Hne]; [by rewrite pretty_N_go_0|].
  rewrite pretty_N_go_step by lia. apply IH; [apply N.div_lt; lia|]. simpl.
  destruct (pretty_N_char_digit (x `mod` 10)) as [-> _]; [by apply N.mod_lt|done].
Qed.

Lemma pretty_N_go_length (x : N) s : (String.length s <= String.length (pretty_N_go x s))%nat.
Proof.
  revert s. induction (N.lt_wf_0 x) as [x _ IH]. intros s.
  destruct (decide (x = 0)%N) as [->|Hne]; [by rewrite pretty_N_go_0|].
  rewrite pretty_N_go_step by lia. etrans; [|apply IH; apply N.div_lt; lia]. simpl. lia.
Qed.

Lemma pretty_N_digits (x : N) : allBytes isDigit (pretty x) = true /\ pretty x <> "".
Proof.
  unfold pretty, pretty_N. case_decide; [done|]. split; [by apply pretty_N_go_digits|].
  rewrite pretty_N_go_step by lia. intros H'.
  pose proof (pretty_N_go_length (x `div` 10) (String (pretty_N_char (x `mod` 10)) "")) as Hl.
  rewrite H' in Hl. simpl in Hl. lia.
Qed.

Lemma ParseUint_pretty (x : N) : (Z.of_N x <= maxUint64)%Z -> ParseUint (pretty x) = Ok (Z.of_N x).
Proof.
  intros Hx. unfold ParseUint. destruct (pretty_N_digits x) as [_ Hne].
  destruct (pretty x) as [|c s] eqn:E; [done|]. rewrite <- E. unfold pretty, pretty_N.
  case_decide; [by subst|]. by rewrite parseUintLoop_pretty.
Qed.

Lemma digit_not_sign c : isDigit c = true -> c <> "+"%char /\ c <> "-"%char.
Proof. by split; intros ->. Qed.

(** Printing and reading back a 64-bit integer. *)
Lemma ParseInt_pretty (n : Z) : int64 n -> ParseInt (pretty n) = Ok n.
Proof.
  unfold int64. intros Hn. assert (forall x : N, (Z.of_N x < 2 ^ 63)%Z -> ParseInt (pretty x) = Ok (Z.of_N x)) as Hpos.
  { intros x Hx. unfold ParseInt. destruct (pretty_N_digits x) as [Hd Hne].
    pose proof (ParseUint_pretty x ltac:(unfold maxUint64; lia)) as Hp.
    destruct (pretty x) as [|c s] eqn:E; [done|]. simpl in Hd. apply andb_true_iff in Hd as [Hc _].
    destruct (digit_not_sign c Hc). rewrite !bool_decide_eq_false_2 by done.
    rewrite Hp. by rewrite bool_decide_eq_false_2 by lia. }
  destruct n as [|p|p].
  - done.
  - apply (Hpos (N.pos p)). simpl. lia.
  - change (ParseInt (String "-" (pretty (N.pos p))) = Ok (Z.neg p)). unfold ParseInt.
    rewrite (bool_decide_eq_false_2 ("-"%char = "+"%char)), (bool_decide_eq_true_2 ("-"%char = "-"%char)) by done.
    rewrite ParseUint_pretty by (unfold maxUint64; simpl; lia). rewrite bool_decide_eq_false_2; [done|]. simpl. lia.
Qed.

(** ** Trimming text without white space *)

Definition graphic : ascii -> bool := inRange 33 126.

Lemma bytes_append s t : bytes (s ++ t) = app (bytes s) (bytes t).
Proof. unfold bytes. induction s as [|c s IH]; [done|]. rewrite append_cons. cbn. by rewrite IH. Qed.

Lemma bytes_cons c s : bytes (String c s) = byteOf c :: bytes s.
Proof. done. Qed.

Definition noGraphicHead (sp : list Z) : bool :=
  match sp with [] => false | x :: _ => bool_decide (x <= 32)%Z || bool_decide (127 <= x)%Z end.

Lemma stripOne_graphic sps b bs :
  forallb noGraphicHead sps = true -> (33 <= b <= 126)%Z -> stripOne sps (b :: bs) = None.
Proof.
  intros Hs Hb. induction sps as [|sp sps IH]; [done|]. simpl in Hs. apply andb_true_iff in Hs as [Hsp Hs].
  simpl. rewrite bool_decide_eq_false_2; [by apply IH|]. destruct sp as [|x sp]; [done|].
  simpl in Hsp. rewrite orb_true_iff, !bool_decide_eq_true in Hsp. intros [= -> _]. lia.
Qed.

Lemma stripAll_graphic fuel sps b bs :
  forallb noGraphicHead sps = true -> (33 <= b <= 126)%Z -> stripAll fuel sps (b :: bs) = b :: bs.
Proof. intros Hs Hb. destruct fuel; [done|]. simpl. by rewrite stripOne_graphic. Qed.

Lemma graphic_byte c : graphic c = true -> (33 <= byteOf c <= 126)%Z.
Proof. unfold graphic, inRange. apply bool_decide_eq_true. Qed.

Lemma trimRight_graphic bs b : (33 <= b <= 126)%Z -> trimRight (app bs [b]) = app bs [b].
Proof.
  intros Hb. unfold trimRight. rewrite reverse_snoc, stripAll_graphic by done.
  by rewrite reverse_cons, reverse_involutive.
Qed.

Lemma trimRight_newline bs b : (33 <= b <= 126)%Z -> trimRight (app (app bs [b]) [10%Z]) = app bs [b].
Proof.
  intros Hb. unfold trimRight. rewrite !reverse_snoc. rewrite !length_app. simpl.
  rewrite Nat.add_1_r. simpl. rewrite stripAll_graphic by done. by rewrite reverse_cons, reverse_involutive.
Qed.

(** A line whose first and last bytes are graphic, with and without its
    newline. *)
Definition solid (s : string) : Prop :=
  exists a z u v, graphic a = true /\ graphic z = true /\ s = String a u /\ s = v ++ String z "".

Lemma TrimSpace_solid s : solid s -> TrimSpace s = s.
Proof.
  intros (a & z & u & v & Ha%graphic_byte & Hz%graphic_byte & E1 & E2). unfold TrimSpace, trimLeft.
  rewrite E1 at 2. rewrite bytes_cons, stripAll_graphic by done. rewrite <- bytes_cons, <- E1.
  rewrite E2 at 1. rewrite bytes_append, bytes_cons. change (bytes "") with (@nil Z).
  rewrite trimRight_graphic by done. change [byteOf z] with (bytes (String z "")).
  rewrite <- bytes_append, <- E2. apply of_bytes_bytes.
Qed.

Lemma TrimSpace_solid_newline s : solid s -> TrimSpace (s ++ String newline "") = s.
Proof.
  intros (a & z & u & v & Ha%graphic_byte & Hz%graphic_byte & E1 & E2). unfold TrimSpace, trimLeft.
  rewrite bytes_append. rewrite E1 at 2. rewrite (bytes_cons a u). cbn [app].
  rewrite stripAll_graphic by done. change (byteOf a :: app (bytes u) ?x) with (app (byteOf a :: bytes u) x).
  rewrite <- bytes_cons, <- E1. change (bytes (String newline "")) with [10%Z].
  rewrite E2 at 1. rewrite bytes_append. change (bytes (String z "")) with [byteOf z].
  rewrite trimRight_newline by done. change [byteOf z] with (bytes (String z "")).
  rewrite <- bytes_append, <- E2. apply of_bytes_bytes.
Qed.

Lemma allBytes_snoc p s : s <> "" -> allBytes p s = true -> exists v z, s = v ++ String z "" /\ p z = true.
Proof.
  induction s as [|c s IH]; [done|]. intros _ H. simpl in H. apply andb_true_iff in H as [Hc Hs].
  destruct s as [|d s]; [by exists "", c|]. destruct (IH ltac:(done) Hs) as (v & z & -> & Hz).
  exists (String c v), z. by rewrite append_cons.
Qed.

(** A word of graphic bytes. *)
Lemma solid_word s : s <> "" -> allBytes graphic s = true -> solid s.
Proof.
  intros Hne Hs. destruct (allBytes_snoc _ _ Hne Hs) as (v & z & E & Hz). destruct s as [|a u]; [done|].
  simpl in Hs. apply andb_true_iff in Hs as [Ha _]. by exists a, z, u, v.
Qed.

Lemma solid_app s m t : solid s -> solid t -> solid (s ++ m ++ t).
Proof.
  intros (a & _ & u & _ & Ha & _ & -> & _) (_ & z & _ & v & _ & Hz & _ & ->).
  exists a, z, (u ++ m ++ v ++ String z ""), (String a u ++ m ++ v). split_and!; [done|done|by rewrite append_cons|].
  by rewrite <- !append_assoc_l.
Qed.

(** The number [pretty] prints is such a word. *)
Lemma pretty_graphic (n : Z) : pretty n <> "" /\ allBytes graphic (pretty n) = true.
Proof.
  assert (forall x : N, pretty x <> "" /\ allBytes graphic (pretty x) = true) as Hpos.
  { intros x. destruct (pretty_N_digits x) as [Hd Hne]. split; [done|]. apply (allBytes_impl isDigit); [|done].
    unfold isDigit, graphic, inRange. intros c. rewrite !bool_decide_eq_true. lia. }
  destruct n as [|p|p]; [done|apply (Hpos (N.pos p))|]. destruct (Hpos (N.pos p)) as [_ Hg]. split; [done|].
  change (allBytes graphic (String "-" (pretty (N.pos p))) = true). simpl. by rewrite Hg.
Qed.

Inductive re : Type :=
  | RNone
  | REps
  | RByte (p : ascii -> bool)
  | RAlt (r1 r2 : re)
  | RCat (r1 r2 : re)
  | RStar (r : re).

Definition RPlus (r : re) : re := RCat r (RStar r).
Definition ROpt (r : re) : re := RAlt REps r.
Fixpoint RLit (s : string) : re :=
  match s with
  | EmptyString => REps
  | String c s' => RCat (RByte (fun d => bool_decide (d = c))) (RLit s')
  end.
Definition RSeq (l : list re) : re := foldr RCat REps l.

(** [.], [\d], [\s]. *)
Definition RDot : re := RByte (fun c => negb (bool_decide (byteOf c = 10)%Z)).
Definition RDigit : re := RByte isDigit.
Definition RSpace : re := RByte (fun c => bool_decide (byteOf c ∈ [9; 10; 12; 13; 32]%Z)).

Fixpoint nullable (r : re) : bool :=
  match r with
  | RNone | RByte _ => false
  | REps | RStar _ => true
  | RAlt r1 r2 => nullable r1 || nullable r2
  | RCat r1 r2 => nullable r1 && nullable r2
  end.

(** Concatenation and alternation that drop [RNone] and [REps]. *)
Definition cat (r1 r2 : re) : re := match r1 with RNone => RNone | REps => r2 | _ => RCat r1 r2 end.
Definition alt (r1 r2 : re) : re := match r1, r2 with RNone, _ => r2 | _, RNone => r1 | _, _ => RAlt r1 r2 end.

Fixpoint deriv (c : ascii) (r : re) : re :=
  match r with
  | RNone | REps => RNone
  | RByte p => if p c then REps else RNone
  | RAlt r1 r2 => alt (deriv c r1) (deriv c r2)
  | RCat r1 r2 => if nullable r1 then alt (cat (deriv c r1) r2) (deriv c r2) else cat (deriv c r1) r2
  | RStar r => cat (deriv c r) (RStar r)
  end.

(** A prefix of the text matches. *)
Fixpoint matchPrefix (r : re) (s : string) : bool :=
  nullable r || match s with EmptyString => false | String c s' => matchPrefix (deriv c r) s' end.

(** Regexp.MatchString: some substring matches. *)
Fixpoint MatchString (r : re) (s : string) : bool :=
  matchPrefix r s || match s with EmptyString => false | String _ s' => MatchString r s' end.

(** ** The language of an expression *)

Inductive lang : re -> string -> Prop :=
  | l_eps : lang REps ""
  | l_byte p c : p c = true -> lang (RByte p) (String c "")
  | l_alt1 r1 r2 s : lang r1 s -> lang (RAlt r1 r2) s
  | l_alt2 r1 r2 s : lang r2 s -> lang (RAlt r1 r2) s
  | l_cat r1 r2 s t : lang r1 s -> lang r2 t -> lang (RCat r1 r2) (s ++ t)
  | l_star0 r : lang (RStar r) ""
  | l_star r c s t : lang r (String c s) -> lang (RStar r) t -> lang (RStar r) (String c s ++ t).

Local Hint Constructors lang : core.

Lemma nullable_spec r : nullable r = true <-> lang r "".
Proof.
  induction r as [| |p|r1 IH1 r2 IH2|r1 IH1 r2 IH2|r IH]; simpl.
  - split; [done|]. intros H. inversion H.
  - by split.
  - split; [done|]. intros H. inversion H.
  - rewrite orb_true_iff, IH1, IH2. split; [intros []; auto|]. intros H. inversion H; auto.
  - rewrite andb_true_iff, IH1, IH2. split; [intros []; by apply (l_cat r1 r2 "" "")|].
    intros H. inversion H as [| | | |? ? s t H1 H2 E He| |]; subst. by destruct s, t.
  - by split.
Qed.

Lemma lang_cat r1 r2 s : lang (cat r1 r2) s <-> lang (RCat r1 r2) s.
Proof.
  destruct r1; try done; simpl; split; intros H; try by inversion H.
  - inversion H as [| | | |? ? u v H1| |]; subst. inversion H1.
  - by apply (l_cat REps r2 "" s).
  - inversion H as [| | | |? ? u v H1| |]; subst. by inversion H1; subst.
Qed.

Lemma lang_alt r1 r2 s : lang (alt r1 r2) s <-> lang r1 s \/ lang r2 s.
Proof.
  assert (forall r, lang RNone r -> False) as Hn by (intros r H; inversion H).
  destruct r1, r2; simpl; split; intros H; try (inversion H; subst; by auto); try (by destruct H; auto; exfalso; eauto); by auto.
Qed.

Lemma deriv_spec c r s : lang (deriv c r) s <-> lang r (String c s).
Proof.
  revert s. induction r as [| |p|r1 IH1 r2 IH2|r1 IH1 r2 IH2|r IH]; intros s; simpl.
  - split; intros H; inversion H.
  - split; intros H; inversion H.
  - destruct (p c) eqn:E; split; intros H; inversion H; subst; by auto || congruence.
  - rewrite lang_alt, IH1, IH2. split; [intros []; auto|]. intros H. inversion H; auto.
  - assert (lang (RCat (deriv c r1) r2) s <-> exists u v, s = u ++ v /\ lang r1 (String c u) /\ lang r2 v) as Hc.
    { split; [intros H; inversion H as [| | | |? ? u v H1| |]; subst; exists u, v; by rewrite <- IH1|].
      intros (u & v & -> & H1 & H2). apply l_cat; [by apply IH1|done]. }
    destruct (nullable r1) eqn:E.
    + rewrite lang_alt, lang_cat, Hc, IH2. split.
      * intros [(u & v & -> & H1 & H2)|H]; [by apply (l_cat r1 r2 (String c u))|].
        apply (l_cat r1 r2 "" (String c s)); [by apply nullable_spec|done].
      * intros H. inversion H as [| | | |? ? u v H1 H2 E1 E2| |]; subst. destruct u as [|d u]; simpl in *; [by right|].
        injection E2 as -> <-. left. by exists u, v.
    + rewrite lang_cat, Hc. split; [intros (u & v & -> & H1 & H2); by apply (l_cat r1 r2 (String c u))|].
      intros H. inversion H as [| | | |? ? u v H1 H2 E1 E2| |]; subst. destruct u as [|d u]; simpl in *; [by apply nullable_spec in H1; congruence|].
      injection E2 as -> <-. by exists u, v.
  - rewrite lang_cat. split.
    + intros H. inversion H as [| | | |? ? u v H1| |]; subst. apply (l_star r c u); [by apply IH|done].
    + intros H. inversion H as [| | | | | |? d u v H1 H2]; subst. apply l_cat; [by apply IH|done].
Qed.

Lemma matchPrefix_spec r s : matchPrefix r s = true <-> exists u v, s = u ++ v /\ lang r u.
Proof.
  revert r. induction s as [|c s IH]; intros r; simpl; rewrite orb_true_iff, nullable_spec.
  - split; [intros [H|]; [by exists "", ""|done]|]. intros (u & v & E & H). destruct u; [by left|done].
  - rewrite IH. split.
    + intros [H|(u & v & -> & H)]; [by exists "", (String c s)|]. exists (String c u), v. by rewrite <- deriv_spec.
    + intros (u & v & E & H). destruct u as [|d u]; [by left|]. injection E as -> ->. right. exists u, v. by rewrite deriv_spec.
Qed.

(** The matcher finds a substring of the expression's language, or there is none. *)
Lemma MatchString_spec r s : MatchString r s = true <-> exists u v w, s = u ++ v ++ w /\ lang r v.
Proof.
  induction s as [|c s IH]; cbn [MatchString]; rewrite orb_true_iff, matchPrefix_spec.
  - split; [intros [(u & v & E & H)|]; [by exists "", u, v|done]|]. intros (u & v & w & E & H). left. destruct u; [|done]. by exists v, w.
  - rewrite IH. split.
    + intros [(u & v & E & H)|(u & v & w & -> & H)]; [by exists "", u, v|by exists (String c u), v, w].
    + intros (u & v & w & E & H). destruct u as [|d u]; [left; by exists v, w|]. injection E as -> ->. right. by exists u, v, w.
Qed.
