(* ===== verification/GoFloat.v ===== *)
(** * GoFloat: float64

    The operations of IEEE 754 binary64 the components use, on the Standard
    Library's [spec_float] with 53 bits of precision and round-to-nearest-even,
    as Go's compiler evaluates them; strconv.ParseBool and strconv.ParseFloat. *)

From Stdlib Require Import Ascii String SpecFloat.
From S2P Require Import Prelude GoStrings GoText.

Local Open Scope Z_scope.
Local Open Scope string_scope.

Definition float64 : Type := spec_float.

#[export] Instance float64_eq_dec : EqDecision spec_float.
Proof. solve_decision. Defined.

(** float64(n) of an integer, rounded to the nearest. *)
Definition float_of (n : Z) : float64 := binary_normalize 53 1024 n 0 false.
Definition fsub : float64 -> float64 -> float64 := SFsub 53 1024.
Definition fadd : float64 -> float64 -> float64 := SFadd 53 1024.
Definition fmul : float64 -> float64 -> float64 := SFmul 53 1024.
Definition fdiv : float64 -> float64 -> float64 := SFdiv 53 1024.
Definition fltb : float64 -> float64 -> bool := SFltb.
Definition fleb : float64 -> float64 -> bool := SFleb.

(** A decimal literal n/d: the operands are exact and division rounds once, so
    this is the float64 nearest to the literal. *)
Definition literal (n d : Z) : float64 := fdiv (float_of n) (float_of d).

(** 0.1 is 0x3FB999999999999A: mantissa 0x1999999999999A, exponent -56. *)
Example literal_tenth : literal 1 10 = S754_finite false 7205759403792794 (-56).
Proof. vm_compute. reflexivity. Qed.

(** ** fmt *)

(** A digit string padded with zeros to [n] places. *)
Fixpoint zeroPad (n : nat) (s : string) : string :=
  match n with
  | O => s
  | S n' => if bool_decide (String.length s < S n')%nat then String.append "0" (zeroPad n' s) else s
  end.

(** %f: six decimals of the exact value, rounded to nearest even. *)
Definition Sprintf_f (x : float64) : string :=
  let sign (s : bool) := if s then "-"%string else ""%string in
  match x with
  | S754_nan => "NaN"
  | S754_infinity s => if s then "-Inf" else "+Inf"
  | S754_zero s => String.append (sign s) "0.000000"
  | S754_finite s m e =>
      let micros :=
        if bool_decide (0 <= e) then Zpos m * 1000000 * 2 ^ e
        else
          let '(n, d) := (Zpos m * 1000000, 2 ^ (- e)) in
          let '(q, r) := (n / d, n mod d) in
          if bool_decide (2 * r < d) then q
          else if bool_decide (d < 2 * r) then q + 1
          else if Z.even q then q else q + 1 in
      String.append (sign s) (String.append (pretty (micros / 1000000))
        (String.append "." (zeroPad 6 (pretty (micros mod 1000000)))))
  end.

Example Sprintf_f_ex :
  (Sprintf_f (literal 8 10), Sprintf_f (float_of (-3)), Sprintf_f (literal 1 3), Sprintf_f (literal 15000005 10000000)) =
  ("0.800000", "-3.000000", "0.333333", "1.500001")%string.
Proof. vm_compute. reflexivity. Qed.

(** ** strconv.ParseBool *)

Definition ParseBool (s : string) : option bool :=
  if bool_decide (s ∈ ["1"; "t"; "T"; "TRUE"; "true"; "True"]) then Some true
  else if bool_decide (s ∈ ["0"; "f"; "F"; "FALSE"; "false"; "False"]) then Some false
  else None.

(** ** The scan of a mantissa *)

(** [b | ('x' - 'X')] of an ASCII letter. *)
Definition isX (c : ascii) : bool := bool_decide (lowerByte c = "x"%char).
Definition hexValue (c : ascii) : option Z :=
  let b := byteOf (lowerByte c) in
  if bool_decide (48 <= b <= 57) then Some (b - 48)
  else if bool_decide (97 <= b <= 102) then Some (b - 87)
  else None.
Definition digitIn (base : Z) (c : ascii) : option Z :=
  v ← hexValue c; if bool_decide (v < base) then Some v else None.

(** What the scan of the mantissa has seen: its value without the point, the
    digits after the point, a point, a digit, an underscore. *)
Record mantissa : Type := mkMantissa { ma_value : Z; ma_frac : Z; ma_dot : bool; ma_digits : bool; ma_under : bool }.

Fixpoint scanMantissa (base : Z) (m : mantissa) (s : string) : mantissa * string :=
  match s with
  | EmptyString => (m, s)
  | String c s' =>
      if bool_decide (c = "_"%char) then
        scanMantissa base (mkMantissa (ma_value m) (ma_frac m) (ma_dot m) (ma_digits m) true) s'
      else if bool_decide (c = "."%char) then
        if ma_dot m then (m, s)
        else scanMantissa base (mkMantissa (ma_value m) (ma_frac m) true (ma_digits m) (ma_under m)) s'
      else
        match digitIn base c with
        | Some d =>
            scanMantissa base
              (mkMantissa (ma_value m * base + d) (if ma_dot m then ma_frac m + 1 else ma_frac m) (ma_dot m) true (ma_under m)) s'
        | None => (m, s)
        end
  end.

(** The digits of the exponent; it stops growing at 10000. *)
Fixpoint scanExponent (e : Z) (under : bool) (s : string) : Z * bool * string :=
  match s with
  | EmptyString => (e, under, s)
  | String c s' =>
      if bool_decide (c = "_"%char) then scanExponent e true s'
      else if isDigit c then scanExponent (if bool_decide (e < 10000) then e * 10 + (byteOf c - 48) else e) under s'
      else (e, under, s)
  end.

(** strconv: [underscoreOK], with the kind of the byte before. *)
Inductive before : Type := AtStart | AfterDigit | AfterUnder | AfterOther.
#[export] Instance before_eq_dec : EqDecision before.
Proof. solve_decision. Defined.

Fixpoint underscoreLoop (hex : bool) (i : before) (s : string) : bool :=
  match s with
  | EmptyString => negb (bool_decide (i = AfterUnder))
  | String c s' =>
      if bool_decide (c = "_"%char) then bool_decide (i = AfterDigit) && underscoreLoop hex AfterUnder s'
      else if isDigit c || (hex && bool_decide (is_Some (hexValue c))) then underscoreLoop hex AfterDigit s'
      else negb (bool_decide (i = AfterUnder)) && underscoreLoop hex AfterOther s'
  end.

Definition dropSign (s : string) : bool * string :=
  match s with
  | String "-" s' => (true, s')
  | String "+" s' => (false, s')
  | _ => (false, s)
  end.

Definition underscoreOK (s : string) : bool :=
  match (dropSign s).2 with
  | String "0" (String p s') as t =>
      if bool_decide (lowerByte p ∈ ["b"; "o"; "x"]%char) then underscoreLoop (isX p) AfterDigit s'
      else underscoreLoop false AtStart t
  | t => underscoreLoop false AtStart t
  end.

(** ** strconv.ParseFloat(s, 64) *)

(** The exact value [(-1)^neg * value * base^exp]. *)
Record exactFloat : Type := mkExactFloat { xf_neg : bool; xf_value : Z; xf_base : Z; xf_exp : Z }.

Definition readFloat (s : string) : option exactFloat :=
  let '(neg, t) := dropSign s in
  let '(hex, t) :=
    match t with
    | String "0" (String x (String d t')) => if isX x then (true, String d t') else (false, t)
    | _ => (false, t)
    end in
  let base := if hex then 16 else 10 in
  let '(m, t) := scanMantissa base (mkMantissa 0 0 false false false) t in
  if negb (ma_digits m) then None
  else
    let unit := if hex then -4 * ma_frac m else - ma_frac m in
    let finish (exp : Z) (under : bool) (rest : string) : option exactFloat :=
      if negb (bool_decide (rest = "")) then None
      else if under && negb (underscoreOK s) then None
      else Some (mkExactFloat neg (ma_value m) (if hex then 2 else 10) (unit + exp)) in
    match t with
    | String c t' =>
        if bool_decide (lowerByte c = (if hex then "p" else "e")%char) then
          let '(eneg, t') := dropSign t' in
          match t' with
          | String d _ =>
              if isDigit d then
                let '(e, under, rest) := scanExponent 0 (ma_under m) t' in
                finish (if eneg then - e else e) under rest
              else None
          | EmptyString => None
          end
        else None
    | EmptyString => if hex then None else finish 0 (ma_under m) t
    end.

(** The float64 nearest to an exact value, ties to even. *)
Definition roundFloat (x : exactFloat) : float64 :=
  match xf_value x with
  | Zpos p =>
      if bool_decide (xf_base x = 2) then
        binary_normalize 53 1024 (if xf_neg x then Zneg p else Zpos p) (xf_exp x) (xf_neg x)
      else if bool_decide (0 <= xf_exp x) then
        binary_normalize 53 1024 ((if xf_neg x then Zneg p else Zpos p) * 10 ^ xf_exp x) 0 (xf_neg x)
      else
        match 10 ^ (- xf_exp x) with
        | Zpos q => SFdiv 53 1024 (S754_finite (xf_neg x) p 0) (S754_finite false q 0)
        | _ => S754_nan
        end
  | _ => S754_zero (xf_neg x)
  end.

(** strconv: [special], the words for infinities and NaN in any case. *)
Definition special (s : string) : option float64 :=
  let '(neg, t) := dropSign s in
  let w := mapBytes lowerByte t in
  if bool_decide (w = "inf") || bool_decide (w = "infinity") then Some (S754_infinity neg)
  else if bool_decide (t = s) && bool_decide (w = "nan") then Some S754_nan
  else None.

Definition ParseFloat (s : string) : res numError float64 :=
  match special s with
  | Some f => Ok f
  | None =>
      match readFloat s with
      | None => Err ErrSyntax
      | Some x => match roundFloat x with S754_infinity _ => Err ErrRange | f => Ok f end
      end
  end.

Example ParseFloat_ex :
  (ParseFloat "0.1", ParseFloat "-12.50e1", ParseFloat "1_000", ParseFloat "0x1p-2", ParseFloat "1e400", ParseFloat "1__0",
   ParseFloat "+Inf", ParseFloat "-nan", ParseFloat "") =
  (Ok (literal 1 10), Ok (float_of (-125)), Ok (float_of 1000), Ok (literal 1 4), Err ErrRange, Err ErrSyntax,
   Ok (S754_infinity false), Err ErrSyntax, Err ErrSyntax).
Proof. vm_compute. reflexivity. Qed.

(** The smallest subnormal, and the largest value below it that is not zero. *)
Example ParseFloat_tiny : (ParseFloat "4.9e-324", ParseFloat "2.4e-324") = (Ok (S754_finite false 1 (-1074)), Ok (S754_zero false)).
Proof. vm_compute. reflexivity. Qed.
