(* ===== verification/GoPath.v ===== *)
(** * GoPath: package path/filepath on Unix

    [Clean] reads a path as its elements between slashes; [Rel] and [Join] are
    defined from it.  The lemmas describe cleaned absolute paths by their
    elements. *)

From Stdlib Require Import Ascii String.
From S2P Require Import Prelude GoStrings GoText.

Local Open Scope string_scope.
Local Open Scope list_scope.

Definition slash : ascii := "/"%char.
Definition isAbs (path : string) : bool := HasPrefix path "/".

(** One element; the stack holds the elements kept so far, the last on top.
    ".." takes the last one off, stays at the root, and is kept where there is
    nothing to take off a relative path. *)
Definition cleanStep (rooted : bool) (stack : list string) (elem : string) : list string :=
  if bool_decide (elem = "") || bool_decide (elem = ".") then stack
  else if bool_decide (elem = "..") then
    match stack with
    | top :: rest => if bool_decide (top = "..") then ".." :: stack else rest
    | [] => if rooted then [] else [".."]
    end
  else elem :: stack.

Definition cleanElems (rooted : bool) (elems : list string) : list string := reverse (foldl (cleanStep rooted) [] elems).

(** The elements of a path once cleaned. *)
Definition elemsOf (path : string) : list string := cleanElems (isAbs path) (SplitByte slash path).

Definition renderPath (rooted : bool) (elems : list string) : string :=
  if rooted then "/" +:+ JoinByte slash elems
  else if bool_decide (elems = []) then "." else JoinByte slash elems.

Definition Clean (path : string) : string :=
  if bool_decide (path = "") then "." else renderPath (isAbs path) (elemsOf path).

(** filepath.Join: the empty leading elements are skipped. *)
Fixpoint JoinPath (elems : list string) : string :=
  match elems with
  | [] => ""
  | e :: rest => if bool_decide (e = "") then JoinPath rest else Clean (JoinByte slash elems)
  end.

(** filepath.Rel.  A cleaned base of "." has no elements; a base that still goes
    up where the target has left it cannot be resolved lexically. *)
Fixpoint dropCommon (base targ : list string) : list string * list string :=
  match base, targ with
  | b :: base', t :: targ' => if bool_decide (b = t) then dropCommon base' targ' else (base, targ)
  | _, _ => (base, targ)
  end.

Definition relElems (clean : string) (elems : list string) : list string :=
  if bool_decide (clean = ".") then ["."] else elems.

Definition Rel (basepath targpath : string) : res string string :=
  let base := Clean basepath in
  let targ := Clean targpath in
  let fail : res string string := Err ("Rel: can't make " +:+ targpath +:+ " relative to " +:+ basepath) in
  if bool_decide (targ = base) then Ok "."
  else if negb (Bool.eqb (isAbs base) (isAbs targ)) then fail
  else
    let '(up, down) := dropCommon (elemsOf base) (relElems targ (elemsOf targ)) in
    if bool_decide (head up = Some "..") then fail
    else Ok (JoinByte slash (((fun _ => "..") <$> up) ++ down)).

Example Clean_ex :
  Clean <$> ["a//b/../c/."; "/../a"; "../../x/.."; ""; "/"; "a/.."; "//a/./b/"] =
  ["a/c"; "/a"; "../.."; "."; "/"; "."; "/a/b"].
Proof. vm_compute. reflexivity. Qed.

Example Rel_ex :
  [Rel "/a/b" "/a/b/c/d"; Rel "/a/b" "/a/c"; Rel "a/b/c" "a/c/d"; Rel "/" "/x"; Rel "." "a/b"; Rel ".." "a"; Rel "/a" "/a/."; Rel "/a" "/"] =
  [Ok "c/d"; Ok "../c"; Ok "../../c/d"; Ok "x"; Ok "a/b"; Err "Rel: can't make a relative to .."; Ok "."; Ok ".."].
Proof. vm_compute. reflexivity. Qed.

(** ** Elements of cleaned paths *)

(** An element that names something. *)
Definition plain (e : string) : Prop := e <> "" /\ e <> "." /\ e <> ".." /\ ContainsByte slash e = false.

Lemma cleanStep_plain_rooted stack e :
  Forall plain stack -> ContainsByte slash e = false -> Forall plain (cleanStep true stack e).
Proof.
  intros Hs He. unfold cleanStep. destruct (bool_decide_reflect (e = "")); [done|].
  destruct (bool_decide_reflect (e = ".")); [done|]. simpl. destruct (bool_decide_reflect (e = "..")).
  - destruct Hs as [|top rest Htop Hs]; [constructor|]. destruct (bool_decide_reflect (top = "..")); [|done].
    by destruct Htop as (_ & _ & ? & _).
  - constructor; [|done]. by split_and!.
Qed.

Lemma foldl_clean_plain elems stack :
  Forall plain stack -> Forall (fun e => ContainsByte slash e = false) elems ->
  Forall plain (foldl (cleanStep true) stack elems).
Proof.
  intros Hs He. revert stack Hs. induction He as [|e elems He Hel IH]; intros stack Hs; [done|].
  simpl. by apply IH, cleanStep_plain_rooted.
Qed.

Lemma foldl_clean_app_plain rooted stack elems :
  Forall plain elems -> foldl (cleanStep rooted) stack elems = reverse elems ++ stack.
Proof.
  intros He. revert stack. induction He as [|e elems (H1 & H2 & H3 & _) Hel IH]; intros stack; [done|].
  simpl. unfold cleanStep at 2. rewrite !bool_decide_eq_false_2 by done. simpl. rewrite IH.
  by rewrite reverse_cons, <- app_assoc.
Qed.

Lemma cleanElems_plain elems : Forall plain elems -> forall rooted, cleanElems rooted elems = elems.
Proof. intros He rooted. unfold cleanElems. rewrite foldl_clean_app_plain by done. by rewrite app_nil_r, reverse_involutive. Qed.

(** The elements of an absolute path, once cleaned, name something each. *)
Lemma elemsOf_plain path : isAbs path = true -> Forall plain (elemsOf path).
Proof.
  intros H. unfold elemsOf, cleanElems. rewrite H. apply Forall_reverse.
  apply foldl_clean_plain; [constructor|apply SplitByte_no_byte].
Qed.

Lemma SplitByte_cons_slash s : SplitByte slash ("/" +:+ s) = "" :: SplitByte slash s.
Proof. rewrite SplitByte_unfold. done. Qed.

(** Splitting joined plain elements; the root has one empty element. *)
Lemma SplitByte_elems elems :
  Forall plain elems -> SplitByte slash (JoinByte slash elems) = if elems is [] then [""] else elems.
Proof.
  intros He. destruct elems as [|e elems]; [done|]. apply SplitByte_JoinByte; [done|].
  eapply Forall_impl; [exact He|]. by intros x (_ & _ & _ & ?).
Qed.

Lemma isAbs_render elems : isAbs ("/" +:+ JoinByte slash elems) = true.
Proof. apply HasPrefix_app. Qed.

Lemma elemsOf_render elems : Forall plain elems -> elemsOf ("/" +:+ JoinByte slash elems) = elems.
Proof.
  intros He. unfold elemsOf. rewrite isAbs_render, SplitByte_cons_slash, SplitByte_elems by done.
  unfold cleanElems. simpl. change (cleanStep true [] "") with (@nil string).
  destruct elems as [|e elems]; [done|]. by apply cleanElems_plain.
Qed.

Lemma Clean_abs path : isAbs path = true -> Clean path = "/" +:+ JoinByte slash (elemsOf path).
Proof. intros H. unfold Clean. rewrite bool_decide_eq_false_2 by by intros ->. by rewrite H. Qed.

Lemma elemsOf_Clean path : isAbs path = true -> elemsOf (Clean path) = elemsOf path.
Proof. intros H. rewrite Clean_abs by done. by apply elemsOf_render, elemsOf_plain. Qed.

Lemma isAbs_Clean path : isAbs path = true -> isAbs (Clean path) = true.
Proof. intros H. rewrite Clean_abs by done. apply isAbs_render. Qed.

(** Clean is idempotent on absolute paths. *)
Lemma Clean_Clean path : isAbs path = true -> Clean (Clean path) = Clean path.
Proof. intros H. rewrite (Clean_abs (Clean path)) by by apply isAbs_Clean. by rewrite elemsOf_Clean, <- Clean_abs. Qed.

(** ** Rel on absolute paths *)

Lemma dropCommon_spec base targ :
  exists common, base = common ++ (dropCommon base targ).1 /\ targ = common ++ (dropCommon base targ).2.
Proof.
  revert targ. induction base as [|b base IH]; intros targ; [by exists []|]. destruct targ as [|t targ]; [by exists []|].
  simpl. case_bool_decide; [|by exists []]. subst. destruct (IH targ) as (c & H1 & H2).
  exists (t :: c). simpl. by rewrite <- H1, <- H2.
Qed.

Lemma dropCommon_prefix base rest : dropCommon base (base ++ rest) = ([], rest).
Proof. induction base as [|b base IH]; [by destruct rest|]. simpl. by rewrite bool_decide_eq_true_2. Qed.

Lemma dropCommon_up base targ : (dropCommon base targ).1 = [] <-> base `prefix_of` targ.
Proof.
  split.
  - intros H. destruct (dropCommon_spec base targ) as (c & H1 & H2). rewrite H, app_nil_r in H1. subst c. by eexists.
  - intros [rest ->]. by rewrite dropCommon_prefix.
Qed.

(** What is relative to an absolute base: the way up, then the way down. *)
Lemma Rel_abs base targ :
  isAbs base = true -> isAbs targ = true ->
  Rel base targ =
  let '(up, down) := dropCommon (elemsOf base) (elemsOf targ) in
  Ok (if bool_decide (Clean targ = Clean base) then "." else JoinByte slash (((fun _ => "..") <$> up) ++ down)).
Proof.
  intros Hb Ht. unfold Rel. rewrite !isAbs_Clean, !elemsOf_Clean by done. simpl.
  assert (relElems (Clean targ) (elemsOf targ) = elemsOf targ) as ->.
  { unfold relElems. rewrite bool_decide_eq_false_2; [done|]. by rewrite Clean_abs. }
  destruct (dropCommon (elemsOf base) (elemsOf targ)) as [up down] eqn:E.
  destruct (bool_decide_reflect (Clean targ = Clean base)); [done|].
  rewrite bool_decide_eq_false_2; [done|]. intros Hup. destruct (dropCommon_spec (elemsOf base) (elemsOf targ)) as (c & H1 & _).
  rewrite E in H1. simpl in H1. pose proof (elemsOf_plain base Hb) as Hp. rewrite H1 in Hp.
  destruct up as [|u up]; [done|]. simplify_eq/=. apply Forall_app in Hp as [_ [(_ & _ & ? & _) _]%Forall_cons]. done.
Qed.
