(* ===== verification/FleetTypes.v ===== *)
(** * FleetTypes: data of the sandbox fleet

    The contract of [SandboxControl] (internal/sandbox/control/control.go), the
    provisioner's data (instance/provisioner.go), the node client's
    (fleet/node_client.go), the error sentinels (fleet/errors.go), the
    configuration with [Validate] (fleet/config.go) and the sandbox ids
    (fleet/sandbox_id.go).

    Durations are nanoseconds; a [time.Time] is nanoseconds too, with 0 for the
    zero time.  A Go [int] or [int64] is a [Z]. *)

From Stdlib Require Import Ascii SpecFloat.
From S2P Require Import Prelude GoStrings GoFloat.

Local Open Scope Z_scope.
Local Open Scope string_scope.

(** ** Errors *)

Inductive fleetSentinel : Type :=
  | NoCapacity | FleetClosed | InstanceNotFound | InvalidStateTransition | InstanceDrainingErr.

#[export] Instance fleetSentinel_eq_dec : EqDecision fleetSentinel.
Proof. solve_decision. Defined.

(** A sentinel, an error of its own text (those of clients and provisioners
    too), or an [Errorf] with one %w. *)
Inductive ferror : Type :=
  | Sentinel (s : fleetSentinel)
  | Text (msg : string)
  | Wrap (before : string) (cause : ferror) (after : string).

#[export] Instance ferror_eq_dec : EqDecision ferror.
Proof. solve_decision. Defined.

Definition ErrNoCapacity : ferror := Sentinel NoCapacity.
Definition ErrFleetClosed : ferror := Sentinel FleetClosed.
Definition ErrInstanceNotFound : ferror := Sentinel InstanceNotFound.
Definition ErrInvalidStateTransition : ferror := Sentinel InvalidStateTransition.
Definition ErrInstanceDraining : ferror := Sentinel InstanceDrainingErr.

Fixpoint ErrorText (e : ferror) : string :=
  match e with
  | Sentinel NoCapacity => "fleet: no capacity available"
  | Sentinel FleetClosed => "fleet: adapter is closed"
  | Sentinel InstanceNotFound => "fleet: instance not found"
  | Sentinel InvalidStateTransition => "fleet: invalid state transition"
  | Sentinel InstanceDrainingErr => "fleet: instance is draining"
  | Text msg => msg
  | Wrap before cause after => before ++ ErrorText cause ++ after
  end.

(** errors.Is for the sentinels. *)
Fixpoint isSentinel (s : fleetSentinel) (e : ferror) : bool :=
  match e with
  | Sentinel s' => bool_decide (s = s')
  | Text _ => false
  | Wrap _ cause _ => isSentinel s cause
  end.

(** ** Time *)

(** [t.Sub(u)] saturates at the range of a duration. *)
Definition time_Sub (t u : Z) : Z := Z.max (- 2 ^ 63) (Z.min (2 ^ 63 - 1) (t - u)).
Definition IsZero (t : Z) : bool := bool_decide (t = 0).
Definition Before (t u : Z) : bool := bool_decide (t < u).

Definition Second : Z := 1000000000.
Definition Minute : Z := 60 * Second.

(** ** The SandboxControl contract *)

Record ResourceSpec : Type := mkResourceSpec { CPUs : float64; MemMB : Z }.

Record CreateSandboxRequest : Type := mkCreateSandboxRequest {
  cr_Labels : gmap string string;
  cr_Template : string;
  cr_Resources : ResourceSpec;
}.

Record SandboxCapabilities : Type := mkSandboxCapabilities {
  cap_Snapshots : bool;
  cap_Rollback : bool;
  cap_Pause : bool;
  cap_LaunchProcess : bool;
  cap_DeepPause : bool;
  cap_ConcurrentSandboxes : Z;
  cap_MaxSandboxDuration : Z;
}.

Record CreateSandboxResponse : Type := mkCreateSandboxResponse {
  rs_SandboxID : string;
  rs_Address : string;
  rs_Capabilities : SandboxCapabilities;
}.

Record LaunchProcessRequest : Type := mkLaunchProcessRequest {
  lp_SandboxID : string;
  lp_Binary : string;
  lp_Args : list string;
  lp_Env : gmap string string;
  lp_ExposePort : Z;
}.

Inductive ProcessStatus : Type := ProcessStarting | ProcessRunning | ProcessExited.

Record LaunchProcessResponse : Type := mkLaunchProcessResponse {
  lr_ProcessID : string;
  lr_Address : string;
  lr_Status : ProcessStatus;
}.

Record KillProcessRequest : Type := mkKillProcessRequest {
  kp_SandboxID : string;
  kp_ProcessID : string;
  kp_Signal : Z;
}.

Record GetProcessStatusRequest : Type := mkGetProcessStatusRequest {
  ps_SandboxID : string;
  ps_ProcessID : string;
}.

Record GetProcessStatusResponse : Type := mkGetProcessStatusResponse {
  pr_Status : ProcessStatus;
  pr_ExitCode : option Z;
}.

Definition AddressToURL (addr : string) : string := "http://" ++ addr.

(** ** The provisioner's and the node's data *)

Record InstanceConfig : Type := mkInstanceConfig {
  ic_Image : string;
  ic_InstanceType : string;
  ic_UserData : string;
  ic_Tags : gmap string string;
  ic_DiskSizeGB : Z;
}.

Inductive CloudInstanceState : Type :=
  | CloudInstancePending | CloudInstanceRunning | CloudInstanceStopping
  | CloudInstanceStopped | CloudInstanceTerminating | CloudInstanceTerminated.

#[export] Instance CloudInstanceState_eq_dec : EqDecision CloudInstanceState.
Proof. solve_decision. Defined.

Definition AllCloudInstanceStates : list CloudInstanceState :=
  [CloudInstancePending; CloudInstanceRunning; CloudInstanceStopping;
   CloudInstanceStopped; CloudInstanceTerminating; CloudInstanceTerminated].

Record InstanceInfo : Type := mkInstanceInfo {
  if_InstanceID : string;
  if_PrivateIP : string;
  if_PublicIP : string;
  if_State : CloudInstanceState;
  if_LaunchTime : Z;
  if_Tags : gmap string string;
}.

Record InstanceFilter : Type := mkInstanceFilter {
  fl_Tags : gmap string string;
  fl_States : list CloudInstanceState;
}.

Record HealthCheckResult : Type := mkHealthCheckResult {
  hc_Status : string;
  hc_SessionCount : Z;
  hc_ActiveTools : Z;
  hc_Uptime : Z;
  hc_Errors : list string;
}.

(** ** Sandbox ids *)

Definition colon : ascii := ":".
Definition sandboxIDPrefix : string := "fleet:".

Definition encodeSandboxID (instanceID sessionID : string) : res ferror string :=
  if bool_decide (instanceID = "") || bool_decide (sessionID = "") then
    Err (Text ("invalid sandbox ID components: instanceID=" ++ quote instanceID ++ " sessionID=" ++ quote sessionID))
  else if ContainsByte colon instanceID then
    Err (Text ("invalid instance ID: contains colon: " ++ quote instanceID))
  else Ok (sandboxIDPrefix ++ instanceID ++ ":" ++ sessionID).

Definition parseSandboxID (sandboxID : string) : res ferror (string * string) :=
  match CutPrefix sandboxIDPrefix sandboxID with
  | None => Err (Text ("invalid fleet sandbox ID: missing prefix: " ++ quote sandboxID))
  | Some rest =>
      match CutByte colon rest with
      | None => Err (Text ("invalid fleet sandbox ID: missing session separator: " ++ quote sandboxID))
      | Some (instanceID, sessionID) =>
          if bool_decide (instanceID = "") || bool_decide (sessionID = "") then
            Err (Text ("invalid fleet sandbox ID: empty component: " ++ quote sandboxID))
          else Ok (instanceID, sessionID)
      end
  end.

Definition ParseSandboxID : string -> res ferror (string * string) := parseSandboxID.

(** ** Configuration *)

Record FleetConfig : Type := mkFleetConfig {
  InstanceTemplate : InstanceConfig;
  MinInstances : Z;
  MaxInstances : Z;
  WarmPoolTarget : Z;
  MaxSessionsPerInstance : Z;
  CapacityHeadroom : float64;
  HealthCheckInterval : Z;
  UnhealthyThreshold : Z;
  HealthyThreshold : Z;
  IdleCooldown : Z;
  DrainTimeout : Z;
  ProvisionTimeout : Z;
  MaxConcurrentProvisions : Z;
  MaxTerminateRetries : Z;
  LeaveInstancesOnClose : bool;
  SandboxHostPort : Z;
}.

Definition zeroInstanceConfig : InstanceConfig := mkInstanceConfig "" "" "" ∅ 0.

Definition DefaultFleetConfig : FleetConfig :=
  mkFleetConfig zeroInstanceConfig 1 50 2 10 (literal 8 10) (15 * Second) 3 3
    (10 * Minute) (30 * Minute) (5 * Minute) 3 5 false 9100.

Definition joinErrors (errs : list string) : string := Join errs "; ".

(** The checks of [Validate] in order, with their messages. *)
Definition validations (c : FleetConfig) : list (bool * string) :=
  [(bool_decide (MinInstances c < 0), "MinInstances must be >= 0");
   (bool_decide (MaxInstances c < 1), "MaxInstances must be >= 1");
   (bool_decide (MinInstances c > MaxInstances c),
     "MinInstances (" ++ pretty (MinInstances c) ++ ") must be <= MaxInstances (" ++ pretty (MaxInstances c) ++ ")");
   (bool_decide (MaxSessionsPerInstance c < 1), "MaxSessionsPerInstance must be >= 1");
   (fleb (CapacityHeadroom c) (float_of 0) || fltb (float_of 1) (CapacityHeadroom c),
     "CapacityHeadroom must be in (0, 1.0], got " ++ Sprintf_f (CapacityHeadroom c));
   (bool_decide (WarmPoolTarget c < 0), "WarmPoolTarget must be >= 0");
   (bool_decide (HealthCheckInterval c <= 0), "HealthCheckInterval must be > 0");
   (bool_decide (UnhealthyThreshold c < 1), "UnhealthyThreshold must be >= 1");
   (bool_decide (HealthyThreshold c < 1), "HealthyThreshold must be >= 1");
   (bool_decide (IdleCooldown c <= 0), "IdleCooldown must be > 0");
   (bool_decide (DrainTimeout c <= 0), "DrainTimeout must be > 0");
   (bool_decide (ProvisionTimeout c <= 0), "ProvisionTimeout must be > 0");
   (bool_decide (MaxConcurrentProvisions c < 1), "MaxConcurrentProvisions must be >= 1");
   (bool_decide (MaxTerminateRetries c < 1), "MaxTerminateRetries must be >= 1");
   (bool_decide (SandboxHostPort c <= 0) || bool_decide (SandboxHostPort c > 65535),
     "SandboxHostPort must be in [1, 65535], got " ++ pretty (SandboxHostPort c))].

Definition violations (c : FleetConfig) : list string :=
  (filter (fun v => v.1 = true) (validations c)).*2.

Definition Validate (c : FleetConfig) : res ferror () :=
  match violations c with
  | [] => Ok ()
  | errs => Err (Text ("invalid FleetConfig: " ++ joinErrors errs))
  end.

(** ** Round trip of sandbox ids *)

(** What may be joined into a sandbox id. *)
Definition encodable (instanceID sessionID : string) : Prop :=
  instanceID <> "" /\ sessionID <> "" /\ ContainsByte colon instanceID = false.

Lemma encodeSandboxID_Ok instanceID sessionID id :
  encodeSandboxID instanceID sessionID = Ok id <->
  encodable instanceID sessionID /\ id = sandboxIDPrefix ++ instanceID ++ ":" ++ sessionID.
Proof.
  unfold encodeSandboxID, encodable. repeat case_bool_decide; simpl; [naive_solver..|].
  destruct (ContainsByte colon instanceID); naive_solver.
Qed.

Lemma parseSandboxID_Ok id instanceID sessionID :
  parseSandboxID id = Ok (instanceID, sessionID) <->
  encodable instanceID sessionID /\ id = sandboxIDPrefix ++ instanceID ++ ":" ++ sessionID.
Proof.
  unfold parseSandboxID, encodable.
  destruct (CutPrefix sandboxIDPrefix id) as [rest|] eqn:Hp.
  - apply CutPrefix_Some in Hp as ->.
    destruct (CutByte colon rest) as [[i s]|] eqn:Hc.
    + apply CutByte_Some in Hc as [-> Hi]. split.
      * repeat case_bool_decide; simpl; try done. intros [= <- <-]. done.
      * intros ((Hi' & Hs & Hcol) & Heq).
        assert (CutByte colon (i ++ String colon s) = Some (instanceID, sessionID)) as Hcut.
        { apply CutByte_Some. split; [|done].
          assert (CutPrefix sandboxIDPrefix (sandboxIDPrefix ++ i ++ String colon s) =
                  CutPrefix sandboxIDPrefix (sandboxIDPrefix ++ instanceID ++ String colon sessionID)) as H by (by rewrite Heq).
          rewrite !CutPrefix_app in H. by simplify_eq. }
        assert (CutByte colon (i ++ String colon s) = Some (i, s)) as Hcut' by (by apply CutByte_Some).
        rewrite Hcut' in Hcut. simplify_eq. by rewrite !bool_decide_eq_false_2 by done.
    + split; [done|]. intros ((Hi & Hs & Hcol) & Heq).
      assert (CutPrefix sandboxIDPrefix (sandboxIDPrefix ++ rest) = Some (instanceID ++ String colon sessionID)) as H
        by (rewrite Heq; apply CutPrefix_app).
      rewrite CutPrefix_app in H. simplify_eq.
      by rewrite (proj2 (CutByte_Some colon _ instanceID sessionID) (conj eq_refl Hcol)) in Hc.
  - split; [done|]. intros (_ & ->). by rewrite CutPrefix_app in Hp.
Qed.

(** Sandbox ids are a faithful encoding.  [parseSandboxID] accepts exactly
    the strings [encodeSandboxID] produces and gives back the two parts it was
    given, so distinct pairs have distinct ids, whatever colons the session
    part has; encoding fails exactly when a part is empty or the instance id
    has a colon. *)
Theorem sandboxID_roundtrip :
  (forall id i s, parseSandboxID id = Ok (i, s) <-> encodeSandboxID i s = Ok id) /\
  (forall i s, is_Ok (encodeSandboxID i s) = true <-> i <> "" /\ s <> "" /\ ContainsByte colon i = false) /\
  (forall i1 s1 i2 s2 id, encodeSandboxID i1 s1 = Ok id -> encodeSandboxID i2 s2 = Ok id -> (i1, s1) = (i2, s2)).
Proof.
  split_and!.
  - intros id i s. by rewrite parseSandboxID_Ok, encodeSandboxID_Ok.
  - intros i s. rewrite is_Ok_true. setoid_rewrite encodeSandboxID_Ok. unfold encodable. naive_solver.
  - intros i1 s1 i2 s2 id H1 H2.
    apply encodeSandboxID_Ok, parseSandboxID_Ok in H1. apply encodeSandboxID_Ok, parseSandboxID_Ok in H2. congruence.
Qed.

(** ** Configurations that validate *)

(** The constraints of the configuration. *)
Record valid_config (c : FleetConfig) : Prop := mkValidConfig {
  vc_min : 0 <= MinInstances c <= MaxInstances c;
  vc_max : 1 <= MaxInstances c;
  vc_sessions : 1 <= MaxSessionsPerInstance c;
  vc_headroom : fleb (CapacityHeadroom c) (float_of 0) = false /\ fltb (float_of 1) (CapacityHeadroom c) = false;
  vc_warm : 0 <= WarmPoolTarget c;
  vc_durations : 0 < HealthCheckInterval c /\ 0 < IdleCooldown c /\ 0 < DrainTimeout c /\ 0 < ProvisionTimeout c;
  vc_thresholds : 1 <= UnhealthyThreshold c /\ 1 <= HealthyThreshold c;
  vc_limits : 1 <= MaxConcurrentProvisions c /\ 1 <= MaxTerminateRetries c;
  vc_port : 1 <= SandboxHostPort c <= 65535;
}.

Lemma violations_nil c : violations c = [] <-> Forall (fun v => v.1 = false) (validations c).
Proof.
  unfold violations. generalize (validations c) as l. intros l.
  induction l as [|[[] m] l IH]; [done| |].
  - rewrite filter_cons_True by done. split; [done|]. by intros []%Forall_cons.
  - rewrite filter_cons_False by done. rewrite Forall_cons, IH. naive_solver.
Qed.

Lemma Validate_Ok c : Validate c = Ok () <-> valid_config c.
Proof.
  assert (Validate c = Ok () <-> violations c = []) as ->.
  { unfold Validate. by destruct (violations c). }
  rewrite violations_nil. unfold validations. rewrite !Forall_cons. simpl.
  rewrite !orb_false_iff, !bool_decide_eq_false. split.
  - intros. destruct_and!. split; split_and?; try done; lia.
  - intros []. destruct_and!. split_and!; try done; lia.
Qed.

Lemma DefaultFleetConfig_valid : valid_config DefaultFleetConfig.
Proof. apply Validate_Ok. vm_compute. reflexivity. Qed.

Example Validate_messages :
  Validate (mkFleetConfig zeroInstanceConfig 3 2 0 1 (literal 3 2) 1 1 1 1 1 1 1 1 false 0) =
  Err (Text ("invalid FleetConfig: MinInstances (3) must be <= MaxInstances (2); " ++
    "CapacityHeadroom must be in (0, 1.0], got 1.500000; SandboxHostPort must be in [1, 65535], got 0")).
Proof. vm_compute. reflexivity. Qed.
