(* ===== verification/FleetInstance.v ===== *)
(** * FleetInstance: one managed instance (fleet/instance_state.go)

    The record behind a [*ManagedInstance], its state machine, and every
    critical section the fleet runs on it under [mi.mu]: the claim-slot protocol
    and the instance part of each phase of the control loop
    (fleet/control_loop.go).  The client is an abstract handle; a section reads
    the clock once ([now]). *)

From S2P Require Import Prelude GoStrings GoFloat FleetTypes.

Local Open Scope Z_scope.
Local Open Scope string_scope.
Local Open Scope stdpp_scope.

Inductive InstanceState : Type :=
  | InstanceProvisioning | InstanceReady | InstanceActive | InstanceDraining | InstanceTerminating.

#[export] Instance InstanceState_eq_dec : EqDecision InstanceState.
Proof. solve_decision. Defined.

Definition InstanceState_string (s : InstanceState) : string :=
  match s with
  | InstanceProvisioning => "provisioning" | InstanceReady => "ready" | InstanceActive => "active"
  | InstanceDraining => "draining" | InstanceTerminating => "terminating"
  end.

(** [DrainNone] is the empty string. *)
Inductive DrainReason : Type := DrainNone | DrainHealth | DrainScaleDown | DrainShutdown.

#[export] Instance DrainReason_eq_dec : EqDecision DrainReason.
Proof. solve_decision. Defined.

Definition DrainReason_string (r : DrainReason) : string :=
  match r with DrainNone => "" | DrainHealth => "health" | DrainScaleDown => "scale-down" | DrainShutdown => "shutdown" end.

Definition validTransitions (s : InstanceState) : list InstanceState :=
  match s with
  | InstanceProvisioning => [InstanceReady; InstanceTerminating]
  | InstanceReady => [InstanceActive; InstanceDraining]
  | InstanceActive => [InstanceReady; InstanceDraining]
  | InstanceDraining => [InstanceReady; InstanceTerminating]
  | InstanceTerminating => []
  end.

Definition routable (s : InstanceState) : bool := bool_decide (s = InstanceReady) || bool_decide (s = InstanceActive).

Lemma routable_spec s : routable s = true <-> s = InstanceReady \/ s = InstanceActive.
Proof. unfold routable. rewrite orb_true_iff, !bool_decide_eq_true. done. Qed.

Section ManagedInstance.
Context {C : Type}.

Record ManagedInstance : Type := mkManagedInstance {
  InstanceID : string;
  State : InstanceState;
  Client : option C;
  SessionCount : Z;
  MaxSessions : Z;
  IP : string;
  ConsecutiveHealthSuccesses : Z;
  ConsecutiveHealthFailures : Z;
  mi_DrainReason : DrainReason;
  IdleSince : Z;
  ProvisionStarted : Z;
  DrainStarted : Z;
  TerminateRetries : Z;
}.

Definition set_State (s : InstanceState) (m : ManagedInstance) : ManagedInstance :=
  mkManagedInstance (InstanceID m) s (Client m) (SessionCount m) (MaxSessions m) (IP m) (ConsecutiveHealthSuccesses m)
    (ConsecutiveHealthFailures m) (mi_DrainReason m) (IdleSince m) (ProvisionStarted m) (DrainStarted m) (TerminateRetries m).
Definition set_SessionCount (n : Z) (m : ManagedInstance) : ManagedInstance :=
  mkManagedInstance (InstanceID m) (State m) (Client m) n (MaxSessions m) (IP m) (ConsecutiveHealthSuccesses m)
    (ConsecutiveHealthFailures m) (mi_DrainReason m) (IdleSince m) (ProvisionStarted m) (DrainStarted m) (TerminateRetries m).
Definition set_health (successes failures : Z) (m : ManagedInstance) : ManagedInstance :=
  mkManagedInstance (InstanceID m) (State m) (Client m) (SessionCount m) (MaxSessions m) (IP m) successes
    failures (mi_DrainReason m) (IdleSince m) (ProvisionStarted m) (DrainStarted m) (TerminateRetries m).
Definition set_drain (r : DrainReason) (started : Z) (m : ManagedInstance) : ManagedInstance :=
  mkManagedInstance (InstanceID m) (State m) (Client m) (SessionCount m) (MaxSessions m) (IP m) (ConsecutiveHealthSuccesses m)
    (ConsecutiveHealthFailures m) r (IdleSince m) (ProvisionStarted m) started (TerminateRetries m).
Definition set_IdleSince (t : Z) (m : ManagedInstance) : ManagedInstance :=
  mkManagedInstance (InstanceID m) (State m) (Client m) (SessionCount m) (MaxSessions m) (IP m) (ConsecutiveHealthSuccesses m)
    (ConsecutiveHealthFailures m) (mi_DrainReason m) t (ProvisionStarted m) (DrainStarted m) (TerminateRetries m).
Definition set_TerminateRetries (n : Z) (m : ManagedInstance) : ManagedInstance :=
  mkManagedInstance (InstanceID m) (State m) (Client m) (SessionCount m) (MaxSessions m) (IP m) (ConsecutiveHealthSuccesses m)
    (ConsecutiveHealthFailures m) (mi_DrainReason m) (IdleSince m) (ProvisionStarted m) (DrainStarted m) n.

(** ** The state machine *)

Definition TransitionTo (newState : InstanceState) (mi : ManagedInstance) : res ferror () * ManagedInstance :=
  let arrow := InstanceState_string (State mi) ++ " -> " ++ InstanceState_string newState in
  if negb (bool_decide (newState ∈ validTransitions (State mi))) then
    (Err (Wrap "" ErrInvalidStateTransition (": " ++ arrow ++ " for instance " ++ InstanceID mi)), mi)
  else if bool_decide (State mi = InstanceDraining) && bool_decide (newState = InstanceReady) &&
          negb (bool_decide (mi_DrainReason mi = DrainHealth)) then
    (Err (Wrap "" ErrInvalidStateTransition (": " ++ arrow ++ " not permitted for drain reason " ++
       quote (DrainReason_string (mi_DrainReason mi)) ++ " (instance " ++ InstanceID mi ++ ")")), mi)
  else (Ok (), set_State newState mi).

Definition ClaimSession (mi : ManagedInstance) : res ferror () * ManagedInstance :=
  if negb (routable (State mi)) then
    (Err (Wrap "" ErrInstanceDraining (": cannot claim session on instance " ++ InstanceID mi ++ " in state " ++
       InstanceState_string (State mi))), mi)
  else if bool_decide (SessionCount mi >= MaxSessions mi) then
    (Err (Wrap "" ErrNoCapacity (": instance " ++ InstanceID mi ++ " at capacity (" ++ pretty (SessionCount mi) ++
       "/" ++ pretty (MaxSessions mi) ++ ")")), mi)
  else
    let mi1 := set_SessionCount (SessionCount mi + 1) mi in
    (Ok (), if bool_decide (State mi = InstanceReady) then set_IdleSince 0 (set_State InstanceActive mi1) else mi1).

Definition ReleaseSession (now : Z) (mi : ManagedInstance) : res ferror () * ManagedInstance :=
  if bool_decide (SessionCount mi <= 0) then
    (Err (Text ("fleet: cannot release session on instance " ++ InstanceID mi ++ ": session count already 0")), mi)
  else
    let mi1 := set_SessionCount (SessionCount mi - 1) mi in
    (Ok (), if bool_decide (SessionCount mi1 = 0) && bool_decide (State mi1 = InstanceActive)
            then set_IdleSince now (set_State InstanceReady mi1) else mi1).

(** ** Sections of the control loop *)

(** [phaseHealthCheck] after the check failed. *)
Definition healthFailed (mi : ManagedInstance) : ManagedInstance :=
  set_health 0 (ConsecutiveHealthFailures mi + 1) mi.

(** [phaseHealthCheck] after it passed: the session count is reconciled. *)
Definition healthPassed (now remoteCount : Z) (mi : ManagedInstance) : ManagedInstance :=
  let mi1 := set_health (ConsecutiveHealthSuccesses mi + 1) 0 mi in
  if bool_decide (remoteCount = SessionCount mi1) then mi1
  else
    let mi2 := set_SessionCount remoteCount mi1 in
    if bool_decide (SessionCount mi2 = 0) && bool_decide (State mi2 = InstanceActive) then
      set_IdleSince now (set_State InstanceReady mi2)
    else if bool_decide (SessionCount mi2 > 0) && bool_decide (State mi2 = InstanceReady) then
      set_IdleSince 0 (set_State InstanceActive mi2)
    else mi2.

(** [phaseHandleUnhealthy]. *)
Definition drainUnhealthy (cfg : FleetConfig) (now : Z) (mi : ManagedInstance) : ManagedInstance :=
  if routable (State mi) && bool_decide (ConsecutiveHealthFailures mi >= UnhealthyThreshold cfg) then
    match TransitionTo InstanceDraining mi with
    | (Ok _, mi') => set_drain DrainHealth now mi'
    | (Err _, mi') => mi'
    end
  else mi.

Definition recoverDrained (cfg : FleetConfig) (now : Z) (mi : ManagedInstance) : ManagedInstance :=
  if bool_decide (State mi = InstanceDraining) && bool_decide (mi_DrainReason mi = DrainHealth) &&
     bool_decide (ConsecutiveHealthSuccesses mi >= HealthyThreshold cfg) then
    match TransitionTo InstanceReady mi with
    | (Ok _, mi') => set_IdleSince now (set_drain DrainNone 0 mi')
    | (Err _, mi') => mi'
    end
  else mi.

Definition handleUnhealthy (cfg : FleetConfig) (now : Z) (mi : ManagedInstance) : ManagedInstance :=
  recoverDrained cfg now (drainUnhealthy cfg now mi).

Definition idle (mi : ManagedInstance) : bool :=
  bool_decide (State mi = InstanceReady) && bool_decide (SessionCount mi = 0).

(** [phaseScaleDown]: is the instance a candidate, and its drain, which tells
    whether it happened. *)
Definition idleTooLong (cfg : FleetConfig) (now : Z) (mi : ManagedInstance) : bool :=
  idle mi && negb (IsZero (IdleSince mi)) && bool_decide (time_Sub now (IdleSince mi) > IdleCooldown cfg).

Definition drainIdle (now : Z) (mi : ManagedInstance) : bool * ManagedInstance :=
  if idle mi then
    match TransitionTo InstanceDraining mi with
    | (Ok _, mi') => (true, set_drain DrainScaleDown now mi')
    | (Err _, mi') => (false, mi')
    end
  else (false, mi).

(** [phaseDrainCompletion] and [phaseProvisioningCompletion]. *)
Definition drainTimedOut (cfg : FleetConfig) (now : Z) (mi : ManagedInstance) : bool :=
  negb (IsZero (DrainStarted mi)) && bool_decide (time_Sub now (DrainStarted mi) > DrainTimeout cfg).

Definition terminateFailed (mi : ManagedInstance) : ManagedInstance :=
  set_TerminateRetries (TerminateRetries mi + 1) mi.

Definition provisionTimedOut (cfg : FleetConfig) (now : Z) (mi : ManagedInstance) : bool :=
  negb (IsZero (ProvisionStarted mi)) && bool_decide (time_Sub now (ProvisionStarted mi) > ProvisionTimeout cfg).

Definition provisioned (now : Z) (mi : ManagedInstance) : ManagedInstance :=
  match TransitionTo InstanceReady mi with
  | (Ok _, mi') => set_IdleSince now mi'
  | (Err _, mi') => mi'
  end.

(** ** The sections as steps

    [istep cfg a mi mi']: a critical section takes the instance from [mi] to
    [mi'].  Callers of the fleet run those of [Caller], the one control loop
    goroutine those of [Loop].  A remote session count is not negative, and the
    loop completes a provisioning it saw, which only [Close] can have ended in
    between. *)
Inductive actor : Type := Caller | Loop.

Inductive istep (cfg : FleetConfig) : actor -> ManagedInstance -> ManagedInstance -> Prop :=
  | Step_claim mi : istep cfg Caller mi (ClaimSession mi).2
  | Step_release now mi : istep cfg Caller mi (ReleaseSession now mi).2
  | Step_terminate a mi : istep cfg a mi (set_State InstanceTerminating mi)
  | Step_healthFailed mi : istep cfg Loop mi (healthFailed mi)
  | Step_healthPassed now remote mi : 0 <= remote -> istep cfg Loop mi (healthPassed now remote mi)
  | Step_handleUnhealthy now mi : istep cfg Loop mi (handleUnhealthy cfg now mi)
  | Step_drainIdle now mi : istep cfg Loop mi (drainIdle now mi).2
  | Step_terminateFailed mi : istep cfg Loop mi (terminateFailed mi)
  | Step_provisioned now mi :
      State mi = InstanceProvisioning \/ State mi = InstanceTerminating -> istep cfg Loop mi (provisioned now mi).

(** What holds of every instance: an active one has sessions and no idle time
    running, the drain reason tells the drains apart, counters are natural. *)
Record instance_ok (mi : ManagedInstance) : Prop := mkInstanceOk {
  io_count : 0 <= SessionCount mi;
  io_active : State mi = InstanceActive -> 0 < SessionCount mi /\ IdleSince mi = 0;
  io_drain : State mi = InstanceDraining -> mi_DrainReason mi = DrainHealth \/ mi_DrainReason mi = DrainScaleDown;
  io_routable : routable (State mi) = true -> mi_DrainReason mi = DrainNone /\ DrainStarted mi = 0;
  io_provisioning : State mi = InstanceProvisioning -> mi_DrainReason mi = DrainNone /\ DrainStarted mi = 0;
  io_streak : (0 <= ConsecutiveHealthSuccesses mi /\ 0 <= ConsecutiveHealthFailures mi) /\
    (ConsecutiveHealthSuccesses mi = 0 \/ ConsecutiveHealthFailures mi = 0);
}.
End ManagedInstance.

Arguments ManagedInstance C : clear implicits.

(** ** The claim-slot protocol *)

Section InstanceProps.
Context {C : Type} (cfg : FleetConfig).
Implicit Types mi : ManagedInstance C.

Lemma TransitionTo_state s mi :
  (TransitionTo s mi).2 = mi \/
  (TransitionTo s mi) = (Ok (), set_State s mi) /\ s ∈ validTransitions (State mi).
Proof.
  unfold TransitionTo. destruct (bool_decide (s ∈ validTransitions (State mi))) eqn:Hv; simpl; [|by left].
  apply bool_decide_eq_true in Hv. case_match; [by left|by right].
Qed.

Lemma TransitionTo_valid s mi :
  (State mi = InstanceDraining -> s = InstanceReady -> mi_DrainReason mi = DrainHealth) ->
  s ∈ validTransitions (State mi) -> TransitionTo s mi = (Ok (), set_State s mi).
Proof.
  intros Hd Hv. unfold TransitionTo. rewrite bool_decide_eq_true_2 by done. simpl.
  repeat case_bool_decide; simpl; try done. naive_solver.
Qed.

Lemma ClaimSession_Ok mi :
  (ClaimSession mi).1 = Ok () <-> routable (State mi) = true /\ SessionCount mi < MaxSessions mi.
Proof.
  unfold ClaimSession. destruct (routable (State mi)); simpl; [|naive_solver].
  case_bool_decide; simpl; [|by split; [split; [done|lia]|]]. split; [done|lia].
Qed.

Lemma ClaimSession_result mi :
  (ClaimSession mi).1 = Ok () ->
  State (ClaimSession mi).2 = InstanceActive /\ SessionCount (ClaimSession mi).2 = SessionCount mi + 1.
Proof.
  intros H. pose proof (proj1 (ClaimSession_Ok mi) H) as [Hr Hc]. unfold ClaimSession.
  rewrite Hr. simpl. rewrite bool_decide_eq_false_2 by lia. apply routable_spec in Hr as [Hr|Hr]; simpl; rewrite Hr; by simpl.
Qed.

Lemma ClaimSession_err mi e : (ClaimSession mi).1 = Err e -> (ClaimSession mi).2 = mi.
Proof. unfold ClaimSession. repeat case_match; naive_solver. Qed.

(** The error a claim gives tells the two refusals apart. *)
Lemma ClaimSession_error mi e :
  (ClaimSession mi).1 = Err e ->
  (isSentinel InstanceDrainingErr e = true <-> routable (State mi) = false) /\
  (isSentinel NoCapacity e = true <-> routable (State mi) = true /\ MaxSessions mi <= SessionCount mi) /\
  e <> ErrNoCapacity.
Proof.
  unfold ClaimSession. destruct (routable (State mi)); simpl; [case_bool_decide; [|done]|];
    intros [= <-]; simpl; split_and!; try done; naive_solver lia.
Qed.

Lemma ReleaseSession_Ok now mi : (ReleaseSession now mi).1 = Ok () <-> 0 < SessionCount mi.
Proof. unfold ReleaseSession. case_bool_decide; simpl; split; (done || lia). Qed.

Lemma ReleaseSession_count now mi :
  0 < SessionCount mi -> SessionCount (ReleaseSession now mi).2 = SessionCount mi - 1.
Proof.
  intros. unfold ReleaseSession. rewrite bool_decide_eq_false_2 by lia. simpl. by case_match.
Qed.

(** Releasing a claimed slot gives the count back, and the state unless other
    sessions remain. *)
Lemma Release_Claim now mi :
  (ClaimSession mi).1 = Ok () -> 0 <= SessionCount mi ->
  let '(r, mi') := ReleaseSession now (ClaimSession mi).2 in
  r = Ok () /\ SessionCount mi' = SessionCount mi /\
  State mi' = (if bool_decide (SessionCount mi = 0) then InstanceReady else InstanceActive).
Proof.
  intros H Hc. destruct (ClaimSession_result mi H) as [Hs Hn].
  unfold ReleaseSession. rewrite Hn. rewrite bool_decide_eq_false_2 by lia. simpl.
  rewrite Hs. replace (SessionCount mi + 1 - 1) with (SessionCount mi) by lia.
  rewrite (bool_decide_eq_true_2 (InstanceActive = InstanceActive)) by done. rewrite andb_true_r.
  case_bool_decide; simpl; by rewrite ?Hs.
Qed.

(** ** Every section keeps the instance well formed *)

Ltac section_cases := repeat (case_match; simplify_eq/=; try done).

Lemma drainUnhealthy_eq now mi :
  drainUnhealthy cfg now mi =
  if routable (State mi) && bool_decide (ConsecutiveHealthFailures mi >= UnhealthyThreshold cfg)
  then set_drain DrainHealth now (set_State InstanceDraining mi) else mi.
Proof.
  unfold drainUnhealthy. destruct (routable (State mi)) eqn:Hr; [|done]. simpl.
  case_bool_decide; [|done]. rewrite TransitionTo_valid; [done| |].
  - intros _. done.
  - apply routable_spec in Hr as [-> | ->]; simpl; set_solver.
Qed.

Lemma recoverDrained_eq now mi :
  recoverDrained cfg now mi =
  if bool_decide (State mi = InstanceDraining) && bool_decide (mi_DrainReason mi = DrainHealth) &&
     bool_decide (ConsecutiveHealthSuccesses mi >= HealthyThreshold cfg)
  then set_IdleSince now (set_drain DrainNone 0 (set_State InstanceReady mi)) else mi.
Proof.
  unfold recoverDrained. repeat case_bool_decide; simpl; try done.
  rewrite TransitionTo_valid; [done|done|]. rewrite H. simpl. set_solver.
Qed.

Lemma drainIdle_eq now mi :
  drainIdle now mi =
  if idle mi then (true, set_drain DrainScaleDown now (set_State InstanceDraining mi)) else (false, mi).
Proof.
  unfold drainIdle, idle. case_bool_decide as Hs; [|done]. case_bool_decide; [|done]. simpl.
  rewrite TransitionTo_valid; [done|done|]. rewrite Hs. simpl. set_solver.
Qed.

Lemma provisioned_eq now mi :
  State mi = InstanceProvisioning \/ State mi = InstanceTerminating ->
  provisioned now mi =
  if bool_decide (State mi = InstanceProvisioning) then set_IdleSince now (set_State InstanceReady mi) else mi.
Proof. unfold provisioned, TransitionTo. by intros [-> | ->]. Qed.

(** Case analysis on an instance: its state, then every guard of the section. *)
Ltac instance_cases mi :=
  destruct mi as [? st ? ? ? ? ? ? r ? ? ? ?]; destruct st; simpl;
  repeat (case_bool_decide; simplify_eq/=; try done).

Lemma ClaimSession_ok mi : instance_ok mi -> instance_ok (ClaimSession mi).2.
Proof. intros []. unfold ClaimSession. instance_cases mi; split; naive_solver lia. Qed.

Lemma ReleaseSession_ok now mi : instance_ok mi -> instance_ok (ReleaseSession now mi).2.
Proof. intros []. unfold ReleaseSession. instance_cases mi; split; naive_solver lia. Qed.

Lemma healthPassed_ok now remote mi : 0 <= remote -> instance_ok mi -> instance_ok (healthPassed now remote mi).
Proof. intros ? []. unfold healthPassed. instance_cases mi; split; naive_solver lia. Qed.

Lemma drainUnhealthy_ok now mi : instance_ok mi -> instance_ok (drainUnhealthy cfg now mi).
Proof. rewrite drainUnhealthy_eq. intros []. instance_cases mi; split; naive_solver lia. Qed.

Lemma recoverDrained_ok now mi : instance_ok mi -> instance_ok (recoverDrained cfg now mi).
Proof. rewrite recoverDrained_eq. intros []. instance_cases mi; split; naive_solver lia. Qed.

Lemma istep_ok a mi mi' : istep cfg a mi mi' -> instance_ok mi -> instance_ok mi'.
Proof.
  intros []; eauto using ClaimSession_ok, ReleaseSession_ok, healthPassed_ok.
  - intros []. by split.
  - intros []. split; naive_solver lia.
  - intros. by apply recoverDrained_ok, drainUnhealthy_ok.
  - rewrite drainIdle_eq. unfold idle. intros []. instance_cases mi; split; naive_solver lia.
  - intros []. by split.
  - intros Hok. rewrite provisioned_eq by done. destruct Hok. instance_cases mi; split; naive_solver lia.
Qed.

(** Identity, limit and address never change. *)
Lemma istep_identity a mi mi' :
  istep cfg a mi mi' ->
  (InstanceID mi', Client mi', MaxSessions mi', IP mi') = (InstanceID mi, Client mi, MaxSessions mi, IP mi).
Proof.
  intros []; try done.
  - unfold ClaimSession. by repeat case_match.
  - unfold ReleaseSession. by repeat case_match.
  - unfold healthPassed. by repeat case_match.
  - unfold handleUnhealthy. rewrite recoverDrained_eq, drainUnhealthy_eq. by repeat case_match.
  - rewrite drainIdle_eq. by case_match.
  - rewrite provisioned_eq by done. by case_match.
Qed.

(** The life cycle: what a step may turn a state into.  A drained instance only
    comes back from a health drain. *)
Definition lifecycle (mi mi' : ManagedInstance C) : Prop :=
  State mi' = State mi /\ (State mi = InstanceDraining -> mi_DrainReason mi' = mi_DrainReason mi) \/
  State mi' = InstanceTerminating \/
  State mi' ∈ validTransitions (State mi) /\
    (State mi = InstanceDraining -> State mi' = InstanceReady -> mi_DrainReason mi = DrainHealth).

(** One pass drains or recovers, never both: the streaks exclude each other. *)
Lemma handleUnhealthy_cases now mi :
  valid_config cfg -> instance_ok mi ->
  handleUnhealthy cfg now mi = mi \/
  routable (State mi) = true /\ UnhealthyThreshold cfg <= ConsecutiveHealthFailures mi /\
    handleUnhealthy cfg now mi = set_drain DrainHealth now (set_State InstanceDraining mi) \/
  State mi = InstanceDraining /\ mi_DrainReason mi = DrainHealth /\
    HealthyThreshold cfg <= ConsecutiveHealthSuccesses mi /\
    handleUnhealthy cfg now mi = set_IdleSince now (set_drain DrainNone 0 (set_State InstanceReady mi)).
Proof.
  intros [] []. unfold handleUnhealthy. rewrite recoverDrained_eq, drainUnhealthy_eq. destruct_and!.
  instance_cases mi; try (by left); try (right; left; split_and!; (done || lia)); try lia.
  right; right. split_and!; (done || lia).
Qed.

Lemma istep_lifecycle a mi mi' : valid_config cfg -> instance_ok mi -> istep cfg a mi mi' -> lifecycle mi mi'.
Proof.
  intros Hcfg Hok Hstep. unfold lifecycle. destruct Hstep; try (by left); try (by right; left).
  - unfold ClaimSession. instance_cases mi; naive_solver set_solver.
  - unfold ReleaseSession. instance_cases mi; naive_solver set_solver.
  - unfold healthPassed. instance_cases mi; naive_solver set_solver.
  - destruct (handleUnhealthy_cases now mi) as [-> |[(Hr & _ & ->)|(Hs & Hd & _ & ->)]]; [done..|by left| |].
    + apply routable_spec in Hr as [Hr|Hr]; rewrite Hr; simpl; right; right; (split; [set_solver|done]).
    + rewrite Hs. simpl. right; right. split; [set_solver|done].
  - rewrite drainIdle_eq. unfold idle. instance_cases mi; naive_solver set_solver.
  - rewrite provisioned_eq by done. instance_cases mi; naive_solver set_solver.
Qed.

(** ** Steps in sequence *)

Definition isteps : relation (ManagedInstance C) := rtc (fun mi mi' => exists a, istep cfg a mi mi').

(** A caller never changes an instance that is still provisioning, but to end
    it. *)
Lemma istep_provisioning mi mi' :
  istep cfg Caller mi mi' -> State mi = InstanceProvisioning ->
  State mi' = InstanceProvisioning \/ State mi' = InstanceTerminating.
Proof.
  intros Hstep Hs. inversion Hstep; subst; simpl; auto; left.
  - unfold ClaimSession. by rewrite Hs.
  - unfold ReleaseSession. case_bool_decide; [done|]. simpl. rewrite Hs. by rewrite andb_false_r.
Qed.
End InstanceProps.
