(* ===== verification/FleetRouter.v ===== *)
(** * FleetRouter: capacity-aware routing (fleet/routing.go)

    [SelectInstance] on a list of snapshots, with its float64 scores, the
    epsilon, the idle-time tie-break and the 64-bit round-robin counter.  An
    index out of range panics. *)

From S2P Require Import Prelude GoFloat FleetTypes FleetInstance.

Local Open Scope Z_scope.

Section Router.
Context {C : Type} (cfg : FleetConfig).
Implicit Types inst : ManagedInstance C.

Definition epsilon : float64 := literal 1 1000.

Record candidate : Type := mkCandidate { inst : ManagedInstance C; score : float64 }.

Definition headroom (sessionCount maxSessions : Z) : float64 :=
  fsub (float_of 1) (fdiv (float_of sessionCount) (float_of maxSessions)).

(** The body of the first loop: the three [continue]s. *)
Definition candidateOf (i : ManagedInstance C) : option candidate :=
  if negb (routable (State i)) then None
  else if bool_decide (SessionCount i >= MaxSessions i) then None
  else
    let h := headroom (SessionCount i) (MaxSessions i) in
    if fltb h (fsub (float_of 1) (CapacityHeadroom cfg)) then None else Some (mkCandidate i h).

Definition bestScoreOf (first : candidate) (rest : list candidate) : float64 :=
  foldl (fun bestScore c => if fltb bestScore (score c) then score c else bestScore) (score first) rest.

Definition tiedWith (bestScore : float64) (candidates : list candidate) : list candidate :=
  filter (fun c => fltb (fsub bestScore (score c)) epsilon = true) candidates.

(** The tie-break loop: [allZero] and [best]. *)
Definition tieBreak (first : candidate) (rest : list candidate) : bool * candidate :=
  foldl (fun '(allZero, best) c =>
    if negb (IsZero (IdleSince (inst c))) then
      (false, if IsZero (IdleSince (inst best)) || Before (IdleSince (inst c)) (IdleSince (inst best)) then c else best)
    else (allZero, best)) (IsZero (IdleSince (inst first)), first) rest.

(** [SelectInstance], with the router's counter. *)
Definition SelectInstance (roundRobin : Z) (instances : list (ManagedInstance C))
  : outcome ferror (ManagedInstance C) * Z :=
  match omap candidateOf instances with
  | [] => (Return (Err ErrNoCapacity), roundRobin)
  | c0 :: rest =>
      match tiedWith (bestScoreOf c0 rest) (c0 :: rest) with
      | [] => (Panic "index out of range", roundRobin)
      | [t] => (Return (Ok (inst t)), roundRobin)
      | t0 :: ts =>
          let '(allZero, best) := tieBreak t0 ts in
          if allZero then
            let rr := u64 (roundRobin + 1) in
            match (t0 :: ts) !! Z.to_nat (rr mod Z.of_nat (length (t0 :: ts))) with
            | Some t => (Return (Ok (inst t)), rr)
            | None => (Panic "index out of range", rr)
            end
          else (Return (Ok (inst best)), roundRobin)
      end
  end.

(** ** Candidates *)

(** What the router may pick. *)
Definition admissible (i : ManagedInstance C) : Prop :=
  routable (State i) = true /\ SessionCount i < MaxSessions i /\
  fltb (headroom (SessionCount i) (MaxSessions i)) (fsub (float_of 1) (CapacityHeadroom cfg)) = false.

Lemma candidateOf_Some i c :
  candidateOf i = Some c <-> admissible i /\ c = mkCandidate i (headroom (SessionCount i) (MaxSessions i)).
Proof.
  unfold candidateOf, admissible. destruct (routable (State i)); simpl; [|naive_solver].
  case_bool_decide; [naive_solver lia|]. destruct (fltb _ _); [naive_solver|].
  split; [intros [= <-]; split_and!; (done || lia)|by intros [_ ->]].
Qed.

Lemma elem_of_candidates (c : candidate) (instances : list (ManagedInstance C)) :
  c ∈ omap candidateOf instances <->
  inst c ∈ instances /\ admissible (inst c) /\ score c = headroom (SessionCount (inst c)) (MaxSessions (inst c)).
Proof.
  rewrite list_elem_of_omap. setoid_rewrite candidateOf_Some. destruct c as [i s]; simpl. split.
  - intros (x & Hx & Ha & [= -> ->]). done.
  - intros (? & ? & ->). by exists i.
Qed.

(** Among the candidates, the one idle longest; the flag tells that none is
    idle. *)
Lemma tieBreak_spec first rest :
  let '(allZero, best) := tieBreak first rest in
  best ∈ first :: rest /\
  (allZero = true <-> Forall (fun c => IdleSince (inst c) = 0) (first :: rest)) /\
  (allZero = false -> IdleSince (inst best) <> 0 /\
     Forall (fun c => IdleSince (inst c) = 0 \/ IdleSince (inst best) <= IdleSince (inst c)) (first :: rest)).
Proof.
  unfold tieBreak. induction rest as [|c rest IH] using rev_ind; simpl.
  - unfold IsZero. rewrite !Forall_singleton. split; [set_solver|]. case_bool_decide; naive_solver.
  - rewrite foldl_snoc. destruct (foldl _ _ rest) as [allZero best] eqn:Hf. clear Hf. destruct IH as (IH0 & IH1 & IH2).
    change (first :: rest ++ [c]) with ((first :: rest) ++ [c]).
    unfold IsZero, Before in *. case_bool_decide as Hc; simpl negb; cbn iota; rewrite !Forall_app, !Forall_singleton.
    + split; [set_solver|]. split; [naive_solver|]. intros Hz. destruct (IH2 Hz) as [Hne Hall].
      split; [done|]. rewrite ?Forall_app, ?Forall_singleton. by split; [|left].
    + split; [case_match; set_solver|]. split; [naive_solver|]. intros _.
      destruct allZero.
      * pose proof (proj1 IH1 eq_refl) as Hz. rewrite Forall_forall in Hz.
        rewrite (bool_decide_eq_true_2 (IdleSince (inst best) = 0)) by (by apply Hz). simpl. split; [done|].
        rewrite ?Forall_app, ?Forall_singleton. split; [|right; lia]. apply Forall_forall. intros x Hx. left. by apply Hz.
      * destruct (IH2 eq_refl) as [Hne Hall]. rewrite (bool_decide_eq_false_2 (IdleSince (inst best) = 0)) by done. simpl.
        case_bool_decide as Hb; rewrite ?Forall_app, ?Forall_singleton.
        -- split; [done|]. split; [|right; lia]. eapply Forall_impl; [done|]. intros x [?|?]; [by left|right; lia].
        -- split; [done|]. split; [done|]. right. lia.
Qed.

(** ** Scores of a uniform fleet

    With one session limit up to 64, computing every score shows that the
    floats order the instances exactly as their session counts do, and that
    only equal counts are within the epsilon. *)

Definition limits : list Z := Z.of_nat <$> seq 1 64.
Definition counts (m : Z) : list Z := Z.of_nat <$> seq 0 (Z.to_nat m).

Definition scores_ordered (m : Z) : bool :=
  let table := (fun a => (a, headroom a m)) <$> counts m in
  forallb (fun '(a, sa) => forallb (fun '(b, sb) =>
    Bool.eqb (fltb sa sb) (b <? a) &&
    implb (a <=? b) (Bool.eqb (fltb (fsub sa sb) epsilon) (a =? b))) table) table.

Lemma scores_ordered_limits : forallb scores_ordered limits = true.
Proof. vm_compute. reflexivity. Qed.

Lemma headroom_order m a b :
  1 <= m <= 64 -> 0 <= a < m -> 0 <= b < m ->
  fltb (headroom a m) (headroom b m) = (b <? a) /\
  (a <= b -> fltb (fsub (headroom a m) (headroom b m)) epsilon = (a =? b)).
Proof.
  intros Hm Ha Hb. pose proof scores_ordered_limits as H. rewrite forallb_forall in H.
  assert (forall n k : Z, 0 <= k < n -> In (k, headroom k n) ((fun a => (a, headroom a n)) <$> counts n)) as Hin.
  { intros n k Hk. apply list_elem_of_In, list_elem_of_fmap. exists k. split; [done|].
    unfold counts. apply list_elem_of_fmap. exists (Z.to_nat k). split; [lia|]. apply elem_of_seq. lia. }
  assert (In m limits) as Hml.
  { apply list_elem_of_In. unfold limits. apply list_elem_of_fmap. exists (Z.to_nat m). split; [lia|]. apply elem_of_seq. lia. }
  specialize (H m Hml). unfold scores_ordered in H. cbv zeta in H. rewrite forallb_forall in H.
  specialize (H _ (Hin m a Ha)). simpl in H. rewrite forallb_forall in H. specialize (H _ (Hin m b Hb)). simpl in H.
  apply andb_true_iff in H as [H1%eqb_prop H2]. split; [done|]. intros Hab.
  rewrite (proj2 (Z.leb_le a b) Hab) in H2. simpl in H2. by apply eqb_prop in H2.
Qed.

(** The candidates of a fleet whose routable instances share the limit [m]. *)
Section Uniform.
Context (m : Z) (Hm : 1 <= m <= 64).

Definition uniform (c : candidate) : Prop :=
  0 <= SessionCount (inst c) < m /\ score c = headroom (SessionCount (inst c)) m.

Lemma bestScoreOf_least c0 rest :
  Forall uniform (c0 :: rest) ->
  exists k, bestScoreOf c0 rest = headroom k m /\ Forall (fun c => k <= SessionCount (inst c)) (c0 :: rest) /\
    exists c, c ∈ c0 :: rest /\ SessionCount (inst c) = k.
Proof.
  unfold bestScoreOf. induction rest as [|c rest IH] using rev_ind; intros Hu.
  - apply Forall_singleton in Hu as [_ Hs]. exists (SessionCount (inst c0)). simpl. split; [done|].
    rewrite Forall_singleton. split; [lia|]. exists c0. split; [set_solver|done].
  - change (c0 :: rest ++ [c]) with ((c0 :: rest) ++ [c]) in *. apply Forall_app in Hu as [Hu Hc].
    apply Forall_singleton in Hc as [Hc Hs]. destruct (IH Hu) as (k & Hk & Hmin & x & Hx & Hxk).
    rewrite foldl_snoc, Hk, Hs. rewrite Forall_forall in Hu. pose proof (proj1 (Hu _ Hx)) as Hr. rewrite Hxk in Hr.
    rewrite (proj1 (headroom_order m k (SessionCount (inst c)) Hm Hr Hc)).
    destruct (Z.ltb_spec (SessionCount (inst c)) k).
    + exists (SessionCount (inst c)). split; [done|]. rewrite Forall_app, Forall_singleton. split.
      * split; [|lia]. eapply Forall_impl; [exact Hmin|]. simpl. lia.
      * exists c. split; [set_solver|done].
    + exists k. split; [done|]. rewrite Forall_app, Forall_singleton. split; [by split|].
      exists x. split; [set_solver|done].
Qed.

(** The tied candidates are those with the fewest sessions. *)
Lemma tiedWith_least c0 rest :
  Forall uniform (c0 :: rest) ->
  exists k, Forall (fun c => k <= SessionCount (inst c)) (c0 :: rest) /\
    (forall c, c ∈ tiedWith (bestScoreOf c0 rest) (c0 :: rest) <-> c ∈ c0 :: rest /\ SessionCount (inst c) = k) /\
    tiedWith (bestScoreOf c0 rest) (c0 :: rest) <> [].
Proof.
  intros Hu. destruct (bestScoreOf_least c0 rest Hu) as (k & -> & Hmin & x & Hx & Hxk).
  assert (forall c, c ∈ tiedWith (headroom k m) (c0 :: rest) <-> c ∈ c0 :: rest /\ SessionCount (inst c) = k) as Ht.
  { intros c. unfold tiedWith. rewrite list_elem_of_filter. rewrite Forall_forall in Hu, Hmin.
    split.
    - intros [Hf Hc]. split; [done|]. destruct (Hu _ Hc) as [Hr Hs]. pose proof (proj1 (Hu _ Hx)) as Hxr.
      rewrite Hs, (proj2 (headroom_order m k (SessionCount (inst c)) Hm ltac:(lia) Hr)) in Hf by (by apply Hmin). lia.
    - intros [Hc Hk]. split; [|done]. destruct (Hu _ Hc) as [Hr Hs].
      rewrite Hs, (proj2 (headroom_order m k (SessionCount (inst c)) Hm ltac:(lia) Hr)); lia. }
  exists k. split_and!; [done|done|]. intros Hnil. specialize (proj2 (Ht x) (conj Hx Hxk)). rewrite Hnil. set_solver.
Qed.
End Uniform.

Lemma omap_candidateOf_nil (instances : list (ManagedInstance C)) :
  omap candidateOf instances = [] <-> Forall (fun i => ~ admissible i) instances.
Proof.
  rewrite Forall_forall. split.
  - intros Hnil i Hi Ha.
    assert (mkCandidate i (headroom (SessionCount i) (MaxSessions i)) ∈ omap candidateOf instances) as H
      by (by apply elem_of_candidates). rewrite Hnil in H. set_solver.
  - intros H. destruct (omap candidateOf instances) as [|c l] eqn:Hl; [done|].
    assert (c ∈ omap candidateOf instances) as (Hi & Ha & _)%elem_of_candidates by (rewrite Hl; set_solver).
    by destruct (H _ Hi).
Qed.

(** The instances the router may choose between when it spreads the load: the
    admissible ones with the fewest sessions. *)
Definition leastLoaded (instances : list (ManagedInstance C)) (i : ManagedInstance C) : Prop :=
  i ∈ instances /\ admissible i /\ forall j, j ∈ instances -> admissible j -> SessionCount i <= SessionCount j.

Lemma tied_leastLoaded (cands : list candidate) (instances : list (ManagedInstance C)) k (tied : list candidate) :
  (forall c, c ∈ cands <-> inst c ∈ instances /\ admissible (inst c) /\
     score c = headroom (SessionCount (inst c)) (MaxSessions (inst c))) ->
  Forall (fun c => k <= SessionCount (inst c)) cands ->
  (forall c, c ∈ tied <-> c ∈ cands /\ SessionCount (inst c) = k) -> tied <> [] ->
  forall i, leastLoaded instances i <-> exists c, c ∈ tied /\ inst c = i.
Proof.
  intros Hin Hmin Ht Hne i. rewrite Forall_forall in Hmin. setoid_rewrite Ht. split.
  - intros (Hi & Ha & Hle). exists (mkCandidate i (headroom (SessionCount i) (MaxSessions i))).
    assert (mkCandidate i (headroom (SessionCount i) (MaxSessions i)) ∈ cands) as Hci by (by apply Hin).
    split; [|done]. split; [done|]. simpl. apply Z.le_antisymm; [|by apply (Hmin _ Hci)].
    destruct tied as [|x tied]; [done|]. destruct (proj1 (Ht x) ltac:(set_solver)) as [Hx <-].
    apply Hin in Hx as (? & ? & _). by apply Hle.
  - intros (c & [Hc Hk] & <-). pose proof Hc as Hc'. apply Hin in Hc' as (Hi & Ha & _). split_and!; [done|done|].
    intros j Hj Haj. rewrite Hk. apply (Hmin (mkCandidate j (headroom (SessionCount j) (MaxSessions j)))). by apply Hin.
Qed.

Lemma roundRobin_pick rr (tied : list candidate) :
  tied <> [] -> exists t, tied !! Z.to_nat (rr mod Z.of_nat (length tied)) = Some t /\ t ∈ tied.
Proof.
  intros Hne. assert (0 < Z.of_nat (length tied)) by (destruct tied; simpl in *; [done|lia]).
  pose proof (Z.mod_pos_bound rr (Z.of_nat (length tied))).
  destruct (lookup_lt_is_Some_2 tied (Z.to_nat (rr mod Z.of_nat (length tied)))) as [t Ht]; [lia|].
  exists t. split; [done|]. by eapply list_elem_of_lookup_2.
Qed.

Lemma SelectInstance_spread_lemma m rr instances :
  1 <= m <= 64 ->
  Forall (fun i => routable (State i) = true -> MaxSessions i = m /\ 0 <= SessionCount i) instances ->
  let '(r, rr') := SelectInstance rr instances in
  match r with
  | Panic _ => False
  | Return (Err e) => e = ErrNoCapacity /\ Forall (fun i => ~ admissible i) instances /\ rr' = rr
  | Return (Ok i) =>
      leastLoaded instances i /\
      ((exists j, leastLoaded instances j /\ IdleSince j <> 0) ->
        IdleSince i <> 0 /\ rr' = rr /\
        forall j, leastLoaded instances j -> IdleSince j = 0 \/ IdleSince i <= IdleSince j) /\
      (rr' = rr \/ rr' = u64 (rr + 1) /\ forall j, leastLoaded instances j -> IdleSince j = 0)
  end.
Proof.
  intros Hm Hall. rewrite Forall_forall in Hall. unfold SelectInstance.
  destruct (omap candidateOf instances) as [|c0 rest] eqn:Hc; [by apply omap_candidateOf_nil in Hc|].
  assert (forall c, c ∈ c0 :: rest <-> inst c ∈ instances /\ admissible (inst c) /\
    score c = headroom (SessionCount (inst c)) (MaxSessions (inst c))) as Hin
    by (intros c; rewrite <- Hc; apply elem_of_candidates).
  assert (Forall (uniform m) (c0 :: rest)) as Hu.
  { apply Forall_forall. intros c (Hi & (Hr & Hlt & _) & Hs)%Hin. destruct (Hall _ Hi Hr) as [Heq ?].
    split; [lia|]. by rewrite <- Heq. }
  destruct (tiedWith_least m Hm c0 rest Hu) as (k & Hmin & Ht & Hne).
  pose proof (tied_leastLoaded _ instances k _ Hin Hmin Ht Hne) as Hleast.
  set (tied := tiedWith (bestScoreOf c0 rest) (c0 :: rest)) in *. clearbody tied.
  destruct tied as [|t0 [|t1 ts]]; [done| |].
  - split; [apply Hleast; exists t0; set_solver|]. split; [|by left].
    intros (j & Hj & Hidle). apply Hleast in Hj as (c & ->%list_elem_of_singleton & <-). split_and!; [done|done|].
    intros j' (c & ->%list_elem_of_singleton & <-)%Hleast. right. lia.
  - pose proof (tieBreak_spec t0 (t1 :: ts)) as Hb. destruct (tieBreak t0 (t1 :: ts)) as [allZero best].
    destruct Hb as (Hbin & Hz & Hidle). destruct allZero.
    + pose proof (proj1 Hz eq_refl) as Hzero. rewrite Forall_forall in Hzero.
      assert (forall j, leastLoaded instances j -> IdleSince j = 0) as Hzero' by (intros j (c & Hcin & <-)%Hleast; by apply Hzero).
      destruct (roundRobin_pick (u64 (rr + 1)) (t0 :: t1 :: ts)) as (t & -> & Htin); [done|].
      split; [apply Hleast; by exists t|]. split; [|by right].
      intros (j & Hj & Hne'). by destruct Hne'; apply Hzero'.
    + destruct (Hidle eq_refl) as [Hne' Hle]. rewrite Forall_forall in Hle.
      split; [apply Hleast; by exists best|]. split; [|by left].
      intros _. split_and!; [done|done|]. intros j (c & Hcin & <-)%Hleast. by apply Hle.
Qed.

(** C27: the router spreads the load.  On a fleet whose routable instances share
    a session limit of at most 64, [SelectInstance] never panics; it reports no
    capacity exactly when no instance is routable with a free slot below the
    headroom limit; otherwise it picks, among those, one with the fewest
    sessions, in spite of the rounding of the float scores and of the epsilon.
    Between equally loaded instances, the one idle longest is taken when any is
    idle, and the round-robin counter moves only when none is. *)
Theorem SelectInstance_spread m rr instances :
  1 <= m <= 64 ->
  Forall (fun i => routable (State i) = true -> MaxSessions i = m /\ 0 <= SessionCount i) instances ->
  let '(r, rr') := SelectInstance rr instances in
  match r with
  | Panic _ => False
  | Return (Err e) => e = ErrNoCapacity /\ Forall (fun i => ~ admissible i) instances /\ rr' = rr
  | Return (Ok i) =>
      leastLoaded instances i /\
      ((exists j, leastLoaded instances j /\ IdleSince j <> 0) ->
        IdleSince i <> 0 /\ rr' = rr /\
        forall j, leastLoaded instances j -> IdleSince j = 0 \/ IdleSince i <= IdleSince j) /\
      (rr' = rr \/ rr' = u64 (rr + 1) /\ forall j, leastLoaded instances j -> IdleSince j = 0)
  end.
Proof. apply SelectInstance_spread_lemma. Qed.
End Router.

(** ** A fleet of five *)

Module RouterDemo.
Definition instance (id : string) (st : InstanceState) (n idleSince : Z) : ManagedInstance nat :=
  mkManagedInstance id st None n 10 "10.0.0.1" 0 0 DrainNone idleSince 0 0 0.

Definition fleet : list (ManagedInstance nat) :=
  [instance "i-1" InstanceActive 4 0; instance "i-2" InstanceActive 2 0; instance "i-3" InstanceDraining 0 0;
   instance "i-4" InstanceActive 2 0; instance "i-5" InstanceActive 9 0].

Example spread : (fun r => (InstanceID <$> match r.1 with Return (Ok i) => Some i | _ => None end, r.2)) <$>
    [SelectInstance DefaultFleetConfig 0 fleet; SelectInstance DefaultFleetConfig 1 fleet;
     SelectInstance DefaultFleetConfig 7 (instance "i-6" InstanceReady 0 50 :: instance "i-7" InstanceReady 0 40 :: fleet)] =
  [(Some "i-4"%string, 1); (Some "i-2"%string, 2); (Some "i-7"%string, 7)].
Proof. vm_compute. reflexivity. Qed.

(** With the default headroom of 0.8 an instance with eight of ten slots taken
    is still picked, one with nine is not. *)
Example headroom_limit :
  (fun n => (SelectInstance DefaultFleetConfig 0 [instance "i-1" InstanceActive n 0]).1) <$> [8; 9] =
  [Return (Ok (instance "i-1" InstanceActive 8 0)); Return (Err ErrNoCapacity)].
Proof. vm_compute. reflexivity. Qed.

Lemma SelectInstance_spread_witness :
  let '(r, rr') := SelectInstance DefaultFleetConfig 0 fleet in
  match r with
  | Panic _ => False
  | Return (Err e) => e = ErrNoCapacity /\ Forall (fun i => ~ admissible DefaultFleetConfig i) fleet /\ rr' = 0
  | Return (Ok i) =>
      leastLoaded DefaultFleetConfig fleet i /\
      ((exists j, leastLoaded DefaultFleetConfig fleet j /\ IdleSince j <> 0) ->
        IdleSince i <> 0 /\ rr' = 0 /\
        forall j, leastLoaded DefaultFleetConfig fleet j -> IdleSince j = 0 \/ IdleSince i <= IdleSince j) /\
      (rr' = 0 \/ rr' = u64 (0 + 1) /\ forall j, leastLoaded DefaultFleetConfig fleet j -> IdleSince j = 0)
  end.
Proof.
  apply (SelectInstance_spread DefaultFleetConfig 10 0 fleet).
  - lia.
  - repeat constructor; simpl; lia.
Defined.
End RouterDemo.
