(* ===== verification/Fleet.v ===== *)
(** * Fleet: the fleet of sandbox hosts (fleet/fleet.go, fleet/control_loop.go)

    [FleetSandboxControl] over a store of managed instances: the code keeps
    pointers to instances across unlocked stretches, so an instance has an
    identity and the fleet's map points at it.

    The cloud provisioner, the node clients and the clock are the operations of
    a [FleetEnv].  They run on the whole state, because other goroutines of the
    fleet may run while a call is outstanding; [preempt] is what they do between
    two critical sections with no call in between.  Metrics and logs are left
    out. *)

From S2P Require Import Prelude GoStrings GoFloat FleetTypes FleetInstance FleetRouter.

Local Open Scope Z_scope.
Local Open Scope string_scope.
Local Open Scope list_scope.
Local Open Scope stdpp_scope.

Record Fleet {C : Type} : Type := mkFleet {
  instances : gmap string nat;
  heap : gmap nat (ManagedInstance C);
  closed : bool;
  pendingLaunches : Z;
  roundRobin : Z;
}.
Arguments Fleet C : clear implicits.

Section FleetState.
Context {C : Type}.

Definition set_instances (m : gmap string nat) (f : Fleet C) : Fleet C :=
  mkFleet C m (heap f) (closed f) (pendingLaunches f) (roundRobin f).
Definition set_heap (h : gmap nat (ManagedInstance C)) (f : Fleet C) : Fleet C :=
  mkFleet C (instances f) h (closed f) (pendingLaunches f) (roundRobin f).
Definition set_closed (b : bool) (f : Fleet C) : Fleet C :=
  mkFleet C (instances f) (heap f) b (pendingLaunches f) (roundRobin f).
Definition set_pending (n : Z) (f : Fleet C) : Fleet C :=
  mkFleet C (instances f) (heap f) (closed f) n (roundRobin f).
Definition set_roundRobin (n : Z) (f : Fleet C) : Fleet C :=
  mkFleet C (instances f) (heap f) (closed f) (pendingLaunches f) n.

(** [f.instances[mi.InstanceID] = mi] for a new [mi]. *)
Definition addInstance (mi : ManagedInstance C) (f : Fleet C) : Fleet C :=
  let p := fresh (dom (heap f)) in
  set_instances (<[InstanceID mi := p]> (instances f)) (set_heap (<[p := mi]> (heap f)) f).

Definition updateInstance (p : nat) (mi : ManagedInstance C) (f : Fleet C) : Fleet C :=
  set_heap (<[p := mi]> (heap f)) f.
End FleetState.

(** ** The environment *)

Class FleetEnv (C W : Type) : Type := {
  Now : M (Fleet C * W) Z;
  preempt : M (Fleet C * W) ();
  LaunchInstance : InstanceConfig -> M (Fleet C * W) (res ferror InstanceInfo);
  TerminateInstance : string -> M (Fleet C * W) (res ferror ());
  ListInstances : InstanceFilter -> M (Fleet C * W) (res ferror (list InstanceInfo));
  clientFactory : string -> M (Fleet C * W) (res ferror C);
  node_CreateSandbox : C -> CreateSandboxRequest -> M (Fleet C * W) (res ferror CreateSandboxResponse);
  node_DestroySandbox : C -> string -> M (Fleet C * W) (res ferror ());
  node_LaunchProcess : C -> LaunchProcessRequest -> M (Fleet C * W) (res ferror LaunchProcessResponse);
  node_KillProcess : C -> KillProcessRequest -> M (Fleet C * W) (res ferror ());
  node_GetProcessStatus : C -> GetProcessStatusRequest -> M (Fleet C * W) (res ferror GetProcessStatusResponse);
  node_PauseSandbox : C -> string -> M (Fleet C * W) (res ferror ());
  node_ResumeSandbox : C -> string -> M (Fleet C * W) (res ferror ());
  node_HealthCheck : C -> M (Fleet C * W) (res ferror HealthCheckResult);
}.

Section FleetOps.
Context {C W : Type} `{!FleetEnv C W}.
Context (order : list (string * nat) -> list (string * nat)).
Context (cfg : FleetConfig).

Notation FM := (M (Fleet C * W)).

Definition fget {A} (g : Fleet C -> A) : FM A := gets (fun s => g s.1).
Definition fmod (g : Fleet C -> Fleet C) : FM () := modify (fun s => (g s.1, s.2)).

(** A critical section on the instance at [p], under its lock. *)
Definition onInstance {A} (p : nat) (dflt : A) (g : ManagedInstance C -> A * ManagedInstance C) : FM A :=
  fun s => match heap s.1 !! p with
           | None => (dflt, s)
           | Some mi => let '(r, mi') := g mi in (r, (updateInstance p mi' s.1, s.2))
           end.
Definition modInstance (p : nat) (g : ManagedInstance C -> ManagedInstance C) : FM () :=
  onInstance p () (fun mi => ((), g mi)).
Definition readInstance (p : nat) : FM (option (ManagedInstance C)) := fget (fun f => heap f !! p).

(** The fleet's map, as [for range] visits it. *)
Definition fleetEntries (f : Fleet C) : list (string * nat) := order (map_to_list (instances f)).
Definition fleetTargets (f : Fleet C) : list nat := (fleetEntries f).*2.
Definition fleetInstances (f : Fleet C) : list (nat * ManagedInstance C) :=
  omap (fun p => pair p <$> heap f !! p) (fleetTargets f).
Definition fleetTotal (f : Fleet C) : Z := Z.of_nat (size (instances f)).

Definition nilPointer {A} : outcome ferror A := Panic "nil pointer dereference".

(** ** Constructor, capabilities, lookup *)

Definition NewFleetSandboxControl : res ferror (Fleet C) :=
  match Validate cfg with
  | Err e => Err e
  | Ok _ => Ok (mkFleet C ∅ ∅ false 0 0)
  end.

Definition Capabilities : SandboxCapabilities :=
  mkSandboxCapabilities true true true true false (MaxInstances cfg * MaxSessionsPerInstance cfg) 0.

Definition getInstance (instanceID : string) : FM (res ferror nat) :=
  fget (fun f => match instances f !! instanceID with
                 | None => Err (Wrap "" ErrInstanceNotFound (String.app ": " instanceID))
                 | Some p => Ok p
                 end).

(** ** CreateSandbox *)

(** The copy [selectAndClaim] hands to the router. *)
Definition snapshot (mi : ManagedInstance C) : ManagedInstance C :=
  mkManagedInstance (InstanceID mi) (State mi) None (SessionCount mi) (MaxSessions mi) "" 0 0 DrainNone (IdleSince mi) 0 0 0.

Definition route : FM (outcome ferror (option nat)) := fun s =>
  let l := fleetInstances s.1 in
  let real := foldl (fun m '(p, mi) => <[InstanceID mi := p]> m) (∅ : gmap string nat) l in
  let '(r, rr) := SelectInstance cfg (roundRobin s.1) ((fun '(_, mi) => snapshot mi) <$> l) in
  (match r with
   | Panic v => Panic v
   | Return (Err e) => Return (Err e)
   | Return (Ok selected) => Return (Ok (real !! InstanceID selected))
   end, (set_roundRobin rr s.1, s.2)).

Definition selectAndClaim : FM (outcome ferror nat) :=
  selected ←! route;
  match selected with
  | None => mret nilPointer
  | Some p =>
      preempt;;
      err ← onInstance p (Ok ()) ClaimSession;
      mret (Return (match err with Ok _ => Ok p | Err e => Err e end))
  end.

Definition hostAddr (ip : string) : string := String.app ip (String.app ":" (pretty (SandboxHostPort cfg))).

(** Take a provisioning slot: the compare-and-swap loop of [provisionInstance]. *)
Definition acquireLaunch : FM bool := fun s =>
  if bool_decide (pendingLaunches s.1 >= MaxConcurrentProvisions cfg) then (false, s)
  else (true, (set_pending (pendingLaunches s.1 + 1) s.1, s.2)).
Definition releaseLaunch : FM () := fmod (fun f => set_pending (pendingLaunches f - 1) f).

(** What [provisionInstance] and [provisionWarmInstance] share; [mk] makes the
    record from the time launching started and the time it is made. *)
Definition launch (what : string) (mk : InstanceInfo -> C -> Z -> Z -> ManagedInstance C) : FM (res ferror ()) :=
  total ← fget fleetTotal;
  if bool_decide (total >= MaxInstances cfg) then mret (Err ErrNoCapacity)
  else
    preempt;;
    got ← acquireLaunch;
    if negb got then mret (Err ErrNoCapacity)
    else
      start ← Now;
      info ← LaunchInstance (InstanceTemplate cfg);
      match info with
      | Err e => releaseLaunch;; mret (Err (Wrap what e ""))
      | Ok info =>
          client ← clientFactory (hostAddr (if_PrivateIP info));
          match client with
          | Err e =>
              releaseLaunch;;
              mret (Err (Wrap (String.app "fleet: client creation failed for " (String.app (if_InstanceID info) ": ")) e ""))
          | Ok client =>
              now ← Now;
              fmod (addInstance (mk info client start now));;
              preempt;;
              releaseLaunch;;
              mret (Ok ())
          end
      end.

Definition provisionInstance : FM (res ferror ()) :=
  launch "fleet: provision failed: " (fun info client _ now =>
    mkManagedInstance (if_InstanceID info) InstanceReady (Some client) 0 (MaxSessionsPerInstance cfg) (if_PrivateIP info)
      0 0 DrainNone now 0 0 0).

(** The roll-back of a claimed slot, with the error to return. *)
Definition rollback {A} (p : nat) (e : ferror) : FM (outcome ferror A) :=
  now ← Now;
  onInstance p (Ok ()) (ReleaseSession now);;
  mret (Return (Err e)).

(** [CreateSandbox] once a slot is claimed on the instance at [p]. *)
Definition createOn (p : nat) (req : CreateSandboxRequest) : FM (outcome ferror CreateSandboxResponse) :=
  mi ← readInstance p;
  match mi with
  | None => mret nilPointer
  | Some mi =>
      match Client mi with
      | None => mret nilPointer
      | Some client =>
          resp ← node_CreateSandbox client req;
          match resp with
          | Err rpcErr => rollback p rpcErr
          | Ok resp =>
              match encodeSandboxID (InstanceID mi) (rs_SandboxID resp) with
              | Err encErr => rollback p (Wrap "fleet: encode sandbox ID: " encErr "")
              | Ok fleetID => mret (Return (Ok (mkCreateSandboxResponse fleetID (hostAddr (IP mi)) Capabilities)))
              end
          end
      end
  end.

Fixpoint createAttempts (attempts : nat) (req : CreateSandboxRequest) : FM (outcome ferror CreateSandboxResponse) :=
  match attempts with
  | O => mret (Return (Err ErrNoCapacity))
  | S attempts' =>
      mi ← selectAndClaim;
      match mi with
      | Panic v => mret (Panic v)
      | Return (Ok p) => createOn p req
      | Return (Err e) =>
          if bool_decide (e = ErrNoCapacity) then
            provErr ← provisionInstance;
            match provErr with
            | Err _ => mret (Return (Err ErrNoCapacity))
            | Ok _ => createAttempts attempts' req
            end
          else createAttempts attempts' req
      end
  end.

Definition maxAttempts : nat := 3.

Definition CreateSandbox (req : CreateSandboxRequest) : FM (outcome ferror CreateSandboxResponse) :=
  c ← fget closed;
  if (c : bool) then mret (Return (Err ErrFleetClosed)) else createAttempts maxAttempts req.

(** ** DestroySandbox and the delegating methods *)

(** Parse the id, look the instance up, go on with it. *)
Definition withSandbox {A} (sandboxID : string) (k : nat -> string -> FM (outcome ferror A)) : FM (outcome ferror A) :=
  match parseSandboxID sandboxID with
  | Err e => mret (Return (Err e))
  | Ok (instanceID, sessionID) =>
      mi ← getInstance instanceID;
      match mi with
      | Err e => mret (Return (Err e))
      | Ok p => k p sessionID
      end
  end.

Definition withClient {A} (p : nat) (k : C -> FM (res ferror A)) : FM (outcome ferror A) :=
  mi ← readInstance p;
  match mi ≫= Client with
  | None => mret nilPointer
  | Some client => Return <$> k client
  end.

Definition DestroySandbox (sandboxID : string) : FM (outcome ferror ()) :=
  withSandbox sandboxID (fun p sessionID =>
    now ← Now;
    releaseErr ← onInstance p (Ok ()) (ReleaseSession now);
    rpcErr ← withClient p (fun client => node_DestroySandbox client sessionID);
    match rpcErr with
    | Panic v => mret (Panic v)
    | Return (Err e) =>
        (if is_Ok releaseErr then onInstance p (Ok ()) ClaimSession;; mret () else mret ());;
        mret (Return (Err e))
    | Return (Ok _) => mret (Return (Ok ()))
    end).

Definition LaunchProcess (req : LaunchProcessRequest) : FM (outcome ferror LaunchProcessResponse) :=
  withSandbox (lp_SandboxID req) (fun p sessionID => withClient p (fun client =>
    node_LaunchProcess client (mkLaunchProcessRequest sessionID (lp_Binary req) (lp_Args req) (lp_Env req) (lp_ExposePort req)))).

Definition KillProcess (req : KillProcessRequest) : FM (outcome ferror ()) :=
  withSandbox (kp_SandboxID req) (fun p sessionID => withClient p (fun client =>
    node_KillProcess client (mkKillProcessRequest sessionID (kp_ProcessID req) (kp_Signal req)))).

Definition GetProcessStatus (req : GetProcessStatusRequest) : FM (outcome ferror GetProcessStatusResponse) :=
  withSandbox (ps_SandboxID req) (fun p sessionID => withClient p (fun client =>
    node_GetProcessStatus client (mkGetProcessStatusRequest sessionID (ps_ProcessID req)))).

Definition PauseSandbox (sandboxID : string) : FM (outcome ferror ()) :=
  withSandbox sandboxID (fun p sessionID => withClient p (fun client => node_PauseSandbox client sessionID)).

Definition ResumeSandbox (sandboxID : string) : FM (outcome ferror ()) :=
  withSandbox sandboxID (fun p sessionID => withClient p (fun client => node_ResumeSandbox client sessionID)).

(** ** Close *)

Definition terminateAll (targets : list nat) : FM () :=
  for_range targets (fun p =>
    modInstance p (set_State InstanceTerminating);;
    mi ← readInstance p;
    match mi with
    | None => mret ()
    | Some mi => TerminateInstance (InstanceID mi);; mret ()
    end).

(** [Close]; the control loop has stopped once [loopDone] is closed. *)
Definition CloseFleet : FM (res ferror ()) :=
  c ← fget closed;
  if (c : bool) then mret (Ok ())
  else
    fmod (set_closed true);;
    preempt;;
    if LeaveInstancesOnClose cfg then mret (Ok ())
    else
      targets ← fget fleetTargets;
      terminateAll targets;;
      fmod (set_instances ∅);;
      mret (Ok ()).

(** ** FleetStatus *)

Record FleetStatusReport : Type := mkFleetStatusReport {
  TotalInstances : Z;
  InstancesByState : InstanceState -> Z;
  TotalSessions : Z;
  WarmPoolSize : Z;
  PendingProvisions : Z;
  Healthy : bool;
  Closed : bool;
}.

Definition countIf (g : ManagedInstance C -> bool) (l : list (nat * ManagedInstance C)) : Z :=
  Z.of_nat (length (filter (fun x => g x.2 = true) l)).

Definition FleetStatus : FM FleetStatusReport := fget (fun f =>
  let l := fleetInstances f in
  let warm := countIf idle l in
  let healthy := countIf (fun mi => routable (State mi)) l in
  mkFleetStatusReport (fleetTotal f) (fun st => countIf (fun mi => bool_decide (State mi = st)) l)
    (foldr (fun x n => SessionCount x.2 + n) 0 l) warm (pendingLaunches f)
    (bool_decide (warm >= MinInstances cfg) && bool_decide (healthy > 0)) (closed f)).

Definition terminationReasonLabel (reason : DrainReason) (timedOut : bool) : string :=
  if timedOut then "drain_timeout"
  else match reason with
       | DrainHealth => "unhealthy" | DrainScaleDown => "scale_down" | DrainShutdown => "shutdown" | DrainNone => "unknown"
       end.

(** ** The control loop *)

Definition phaseHealthCheck : FM () :=
  targets ← fget fleetTargets;
  for_range targets (fun p =>
    mi ← readInstance p;
    match mi with
    | None => mret ()
    | Some mi =>
        if negb (routable (State mi) || bool_decide (State mi = InstanceDraining)) then mret ()
        else
          match Client mi with
          | None => mret ()
          | Some client =>
              result ← node_HealthCheck client;
              match result with
              | Err _ => modInstance p healthFailed
              | Ok r => now ← Now; modInstance p (healthPassed now (hc_SessionCount r))
              end
          end
    end).

Definition phaseHandleUnhealthy : FM () :=
  targets ← fget fleetTargets;
  for_range targets (fun p => now ← Now; modInstance p (handleUnhealthy cfg now)).

Definition provisionWarmInstance : FM (res ferror ()) :=
  launch "fleet: warm provision failed: " (fun info client start _ =>
    mkManagedInstance (if_InstanceID info) InstanceProvisioning (Some client) 0 (MaxSessionsPerInstance cfg)
      (if_PrivateIP info) 0 0 DrainNone 0 start 0 0).

Definition hasCapacity (mi : ManagedInstance C) : bool :=
  routable (State mi) && bool_decide (SessionCount mi < MaxSessions mi).

Definition phaseScaleUp : FM () :=
  total ← fget fleetTotal;
  readyCount ← fget (fun f => countIf hasCapacity (fleetInstances f));
  if bool_decide (readyCount >= WarmPoolTarget cfg) || bool_decide (total >= MaxInstances cfg) then mret ()
  else
    preempt;;
    pending ← fget pendingLaunches;
    if bool_decide (pending >= MaxConcurrentProvisions cfg) then mret ()
    else preempt;; provisionWarmInstance;; mret ().

(** The second loop of [phaseScaleDown], with its two counters. *)
Fixpoint scaleDownLoop (candidates : list nat) (total idleCount : Z) : FM () :=
  match candidates with
  | [] => mret ()
  | p :: rest =>
      if bool_decide (total <= MinInstances cfg) then mret ()
      else if bool_decide (idleCount <= WarmPoolTarget cfg) then mret ()
      else
        now ← Now;
        drained ← onInstance p false (drainIdle now);
        if (drained : bool) then scaleDownLoop rest (total - 1) (idleCount - 1)
        else scaleDownLoop rest total idleCount
  end.

Definition phaseScaleDown : FM () :=
  now ← Now;
  total ← fget fleetTotal;
  l ← fget fleetInstances;
  scaleDownLoop (filter (fun x => idleTooLong cfg now x.2 = true) l).*1 total (countIf idle l).

(** One instance of [phaseDrainCompletion]: the ids to remove. *)
Definition completeDrain (p : nat) : FM (list string) :=
  mi ← readInstance p;
  match mi with
  | None => mret []
  | Some mi =>
      match State mi with
      | InstanceDraining =>
          now ← Now;
          if drainTimedOut cfg now mi then
            err ← TerminateInstance (InstanceID mi);
            match err with
            | Ok _ => modInstance p (set_State InstanceTerminating);; mret [InstanceID mi]
            | Err _ => mret []
            end
          else if bool_decide (SessionCount mi = 0) then
            err ← TerminateInstance (InstanceID mi);
            match err with
            | Ok _ => modInstance p (set_State InstanceTerminating);; mret [InstanceID mi]
            | Err _ => modInstance p terminateFailed;; mret []
            end
          else mret []
      | InstanceTerminating =>
          err ← TerminateInstance (InstanceID mi);
          mret (if is_Ok err then [InstanceID mi] else [])
      | _ => mret []
      end
  end.

(** One instance of [phaseProvisioningCompletion]. *)
Definition completeProvisioning (p : nat) : FM (list string) :=
  mi ← readInstance p;
  match mi with
  | None => mret []
  | Some mi =>
      if negb (bool_decide (State mi = InstanceProvisioning)) then mret []
      else
        now ← Now;
        if provisionTimedOut cfg now mi then
          err ← TerminateInstance (InstanceID mi);
          match err with
          | Ok _ => modInstance p (set_State InstanceTerminating);; mret [InstanceID mi]
          | Err _ => mret []
          end
        else
          match Client mi with
          | None => mret []
          | Some client =>
              result ← node_HealthCheck client;
              match result with
              | Ok _ => now ← Now; modInstance p (provisioned now);; mret []
              | Err _ => mret []
              end
          end
  end.

(** The loop of both phases: [toRemove] collects. *)
Fixpoint collect (body : nat -> FM (list string)) (targets : list nat) : FM (list string) :=
  match targets with
  | [] => mret []
  | p :: rest => ids ← body p; ids' ← collect body rest; mret (ids ++ ids')
  end.

Definition removeInstances (ids : list string) : FM () :=
  fmod (fun f => set_instances (foldl (fun m id => delete id m) (instances f) ids) f).

Definition phaseDrainCompletion : FM () :=
  targets ← fget fleetTargets;
  toRemove ← collect completeDrain targets;
  removeInstances toRemove.

Definition phaseProvisioningCompletion : FM () :=
  targets ← fget fleetTargets;
  toRemove ← collect completeProvisioning targets;
  removeInstances toRemove.

Definition runIteration : FM () :=
  phaseHealthCheck;;
  phaseHandleUnhealthy;;
  phaseScaleUp;;
  phaseScaleDown;;
  phaseDrainCompletion;;
  phaseProvisioningCompletion.

(** ** Crash recovery *)

Definition recoverFilter : InstanceFilter :=
  mkInstanceFilter (ic_Tags (InstanceTemplate cfg)) [CloudInstanceRunning; CloudInstancePending].

Definition recoverOne (info : InstanceInfo) : FM () :=
  exists_ ← fget (fun f => bool_decide (is_Some (instances f !! if_InstanceID info)));
  if (exists_ : bool) then mret ()
  else
    client ← clientFactory (hostAddr (if_PrivateIP info));
    match client with
    | Err _ => mret ()
    | Ok client =>
        now ← Now;
        fmod (addInstance (mkManagedInstance (if_InstanceID info) InstanceProvisioning (Some client) 0
          (MaxSessionsPerInstance cfg) (if_PrivateIP info) 0 0 DrainNone 0 now 0 0))
    end.

Definition RecoverInstances : FM (res ferror ()) :=
  infos ← ListInstances recoverFilter;
  match infos with
  | Err e => mret (Err (Wrap "fleet: crash recovery list failed: " e ""))
  | Ok infos => for_range infos recoverOne;; mret (Ok ())
  end.
End FleetOps.
