(* ===== verification/FleetSteps.v ===== *)
(** * FleetSteps: the fleet's operations as sequences of atomic steps

    [fstep] lists the atomic changes goroutines of the fleet make, by actor.
    Every operation of [Fleet] is a sequence of such steps, whatever steps other
    goroutines take during its calls and between its critical sections
    ([FleetLaw]); so what every step keeps holds under every interleaving. *)

From S2P Require Import Prelude GoFloat FleetTypes FleetInstance FleetRouter Fleet.

Local Open Scope Z_scope.
Local Open Scope list_scope.
Local Open Scope stdpp_scope.

Section Steps.
Context {C : Type} (cfg : FleetConfig).
Implicit Types (f : Fleet C) (mi : ManagedInstance C).

(** A record as the fleet makes it. *)
Definition newborn mi : Prop :=
  (State mi = InstanceReady \/ State mi = InstanceProvisioning) /\ is_Some (Client mi) /\ SessionCount mi = 0 /\
  MaxSessions mi = MaxSessionsPerInstance cfg /\ ConsecutiveHealthSuccesses mi = 0 /\ ConsecutiveHealthFailures mi = 0 /\
  mi_DrainReason mi = DrainNone /\ DrainStarted mi = 0.

Inductive fstep : actor -> Fleet C -> Fleet C -> Prop :=
  | F_instance a p mi mi' f :
      heap f !! p = Some mi -> istep cfg a mi mi' -> fstep a f (updateInstance p mi' f)
  | F_add a mi f : newborn mi -> fstep a f (addInstance mi f)
  | F_remove ids f : fstep Loop f (set_instances (foldl (fun m id => delete id m) (instances f) ids) f)
  | F_clear f : fstep Caller f (set_instances ∅ f)
  | F_close f : fstep Caller f (set_closed true f)
  | F_pending a n f : fstep a f (set_pending n f)
  | F_roundRobin n f : fstep Caller f (set_roundRobin n f).

(** Steps of the given actors. *)
Definition by_actors (who : actor -> Prop) : relation (Fleet C) := rtc (fun f f' => exists a, who a /\ fstep a f f').
Definition anyone (a : actor) : Prop := True.
Definition callers (a : actor) : Prop := a = Caller.

Lemma by_actors_mono (who who' : actor -> Prop) f f' :
  (forall a, who a -> who' a) -> by_actors who f f' -> by_actors who' f f'.
Proof. intros Hw. apply rtc_subrel. intros x y (a & Ha & H). eauto. Qed.

Lemma by_actors_one who a f f' : who a -> fstep a f f' -> by_actors who f f'.
Proof. intros. apply rtc_once. eauto. Qed.

(** ** What every step keeps *)

Record fleet_ok f : Prop := mkFleetOk {
  fo_entries : forall id p, instances f !! id = Some p -> exists mi, heap f !! p = Some mi /\ InstanceID mi = id;
  fo_instances : forall p mi, heap f !! p = Some mi ->
    instance_ok mi /\ is_Some (Client mi) /\ MaxSessions mi = MaxSessionsPerInstance cfg;
}.

Lemma newborn_ok mi : newborn mi -> instance_ok mi.
Proof.
  intros (Hs & _ & Hc & _ & H1 & H2 & H3 & H4). split; rewrite ?Hc, ?H1, ?H2, ?H3, ?H4; try lia; auto;
    intros H; rewrite H in Hs; by destruct Hs.
Qed.

Lemma foldl_delete_lookup (ids : list string) (m : gmap string nat) id :
  foldl (fun m id => delete id m) m ids !! id = if bool_decide (id ∈ ids) then None else m !! id.
Proof.
  revert m. induction ids as [|x ids IH]; intros m; simpl; [done|]. rewrite IH.
  repeat case_bool_decide; try done; try set_solver.
  - assert (id = x) as -> by set_solver. apply lookup_delete_eq.
  - apply lookup_delete_ne. set_solver.
Qed.

Lemma fstep_ok a f f' : fstep a f f' -> fleet_ok f -> fleet_ok f'.
Proof.
  intros Hstep [He Hi]. destruct Hstep as [a p mi mi' f Hp Hs|a mi f Hn|ids f|f|f|a n f|n f].
  - destruct (Hi _ _ Hp) as (Hok & Hcl & Hmax). pose proof (istep_identity cfg _ _ _ Hs) as [= Hid Hcl' Hmax' _].
    split; simpl.
    + intros id q Hq. destruct (He _ _ Hq) as (mi0 & Hmi0 & Hid0).
      destruct (decide (p = q)) as [->|]; [|rewrite lookup_insert_ne by done; eauto].
      rewrite lookup_insert_eq. exists mi'. split; [done|congruence].
    + intros q mi0 Hq. destruct (decide (p = q)) as [->|]; [|rewrite lookup_insert_ne in Hq by done; eauto].
      rewrite lookup_insert_eq in Hq. simplify_eq. split; [by eapply istep_ok|]. by rewrite Hcl', Hmax'.
  - split; simpl.
    + intros id q Hq. destruct (decide (InstanceID mi = id)) as [<-|].
      * rewrite lookup_insert_eq in Hq. simplify_eq. exists mi. by rewrite lookup_insert_eq.
      * rewrite lookup_insert_ne in Hq by done. destruct (He _ _ Hq) as (mi0 & Hmi0 & Hid0).
        exists mi0. split; [|done]. rewrite lookup_insert_ne; [done|].
        intros <-. apply (is_fresh (dom (heap f))). by apply elem_of_dom_2 in Hmi0.
    + intros q mi0 Hq. destruct (decide (fresh (dom (heap f)) = q)) as [<-|].
      * rewrite lookup_insert_eq in Hq. simplify_eq. split; [by apply newborn_ok|]. by destruct Hn as (_ & ? & _ & ? & _).
      * rewrite lookup_insert_ne in Hq by done. eauto.
  - split; simpl; [|done]. intros id p. rewrite foldl_delete_lookup. case_bool_decide; [done|]. apply He.
  - split; simpl; [|done]. intros id p Hq. by rewrite lookup_empty in Hq.
  - by split.
  - by split.
  - by split.
Qed.

(** Instances never leave the store, and change by the steps of their life
    cycle only. *)
Lemma fstep_instance a f f' p mi :
  fstep a f f' -> heap f !! p = Some mi ->
  exists mi', heap f' !! p = Some mi' /\ (mi' = mi \/ istep cfg a mi mi').
Proof.
  intros Hstep Hp. destruct Hstep as [a q mi0 mi' f Hq Hs|a mi0 f Hn|ids f|f|f|a n f|n f]; simpl; eauto.
  - destruct (decide (q = p)) as [->|]; [|rewrite lookup_insert_ne by done; eauto].
    rewrite lookup_insert_eq. simplify_eq. eauto.
  - exists mi. split; [|by left]. rewrite lookup_insert_ne; [done|].
    intros <-. apply (is_fresh (dom (heap f))). by apply elem_of_dom_2 in Hp.
Qed.

Lemma by_actors_ok who f f' : by_actors who f f' -> fleet_ok f -> fleet_ok f'.
Proof. intros Hr Hf. revert Hr. apply rtc_invariant; [done|]. intros x y Hx (a & _ & Hs). by eapply fstep_ok. Qed.

Lemma by_actors_instance who f f' p mi :
  by_actors who f f' -> heap f !! p = Some mi -> exists mi', heap f' !! p = Some mi' /\ isteps cfg mi mi'.
Proof.
  intros Hr Hp. refine (rtc_invariant _ (fun g => exists mi', heap g !! p = Some mi' /\ isteps cfg mi mi') f f' _ _ Hr);
    [exists mi; split; [done|apply rtc_refl]|].
  intros x y (mi1 & Hx & Hs1) (a & _ & Hxy). destruct (fstep_instance _ _ _ _ _ Hxy Hx) as (mi2 & Hy & [->|Hs]); [by exists mi1|].
  exists mi2. split; [done|]. eapply rtc_r; [done|]. by exists a.
Qed.

(** While only callers run, a provisioning instance stays one or is ended. *)
Lemma by_callers_provisioning f f' p mi :
  by_actors callers f f' -> heap f !! p = Some mi ->
  State mi = InstanceProvisioning \/ State mi = InstanceTerminating ->
  exists mi', heap f' !! p = Some mi' /\ (State mi' = InstanceProvisioning \/ State mi' = InstanceTerminating).
Proof.
  intros Hr Hp Hst.
  refine (rtc_invariant _ (fun g => exists mi', heap g !! p = Some mi' /\
    (State mi' = InstanceProvisioning \/ State mi' = InstanceTerminating)) f f' _ _ Hr); [eauto|].
  intros x y (mi1 & Hx & Hs1) (a & -> & Hxy). destruct (fstep_instance _ _ _ _ _ Hxy Hx) as (mi2 & Hy & [->|Hs]); [by exists mi1|].
  exists mi2. split; [done|]. destruct Hs1 as [H|H]; [by eapply istep_provisioning|].
  right. inversion Hs; subst; simpl; try done.
  - unfold ClaimSession. by rewrite H.
  - unfold ReleaseSession. case_bool_decide; [done|]. simpl. rewrite H. by rewrite andb_false_r.
Qed.
End Steps.

(** ** Life cycles *)

Section Lifecycles.
Context {C : Type} (cfg : FleetConfig) (Hcfg : valid_config cfg).
Implicit Types mi : ManagedInstance C.

Lemma isteps_ok mi mi' : isteps cfg mi mi' -> instance_ok mi -> instance_ok mi'.
Proof. intros Hr Hok. revert Hr. apply rtc_invariant; [done|]. intros x y Hx (a & Hs). by eapply istep_ok. Qed.

Lemma isteps_identity mi mi' :
  isteps cfg mi mi' ->
  (InstanceID mi', Client mi', MaxSessions mi', IP mi') = (InstanceID mi, Client mi, MaxSessions mi, IP mi).
Proof.
  apply (rtc_invariant _ (fun m => (InstanceID m, Client m, MaxSessions m, IP m) =
    (InstanceID mi, Client mi, MaxSessions mi, IP mi))); [done|].
  intros x y <- (a & Hs). by eapply istep_identity.
Qed.

(** The states an instance does not come back from. *)
Definition doomed mi : Prop :=
  State mi = InstanceTerminating \/ State mi = InstanceDraining /\ mi_DrainReason mi = DrainScaleDown.

Lemma isteps_doomed mi mi' : isteps cfg mi mi' -> instance_ok mi -> doomed mi -> doomed mi' /\
  (State mi = InstanceTerminating -> State mi' = InstanceTerminating).
Proof.
  intros Hr Hok Hd.
  assert (instance_ok mi' /\ doomed mi' /\ (State mi = InstanceTerminating -> State mi' = InstanceTerminating)) as (_ & ?); [|done].
  revert Hr. apply (rtc_invariant _ (fun m => instance_ok m /\ doomed m /\
    (State mi = InstanceTerminating -> State m = InstanceTerminating))); [done|].
  clear mi'. intros x y (Hx & Hdx & Ht) (a & Hs).
  split; [by eapply istep_ok|].
  destruct (istep_lifecycle cfg a x y Hcfg Hx Hs) as [[Hst Hre]|[Hst|[Hv Hre]]].
  - rewrite Hst. split; [|done]. destruct Hdx as [H|[H1 H2]]; [left; congruence|right]. rewrite Hst, Hre by done. done.
  - split; [by left|]. by rewrite Hst.
  - destruct Hdx as [H|[H1 H2]].
    + rewrite H in Hv. by apply not_elem_of_nil in Hv.
    + rewrite H1 in Hv. simpl in Hv. apply list_elem_of_In in Hv as [Hy|[Hy|[]]].
      * specialize (Hre H1 (eq_sym Hy)). congruence.
      * split; [by left|done].
Qed.
End Lifecycles.

(** ** Operations as steps *)

Section Guarantee.
Context {C W : Type}.

(** What a computation does to the fleet is a sequence of steps of [who]. *)
Definition guarantees {A} (cfg : FleetConfig) (who : actor -> Prop) (m : M (Fleet C * W) A) : Prop :=
  forall s, by_actors cfg who s.1 (m s).2.1.

(** The contract of an environment whose other goroutines are [who]. *)
Class FleetLaw (cfg : FleetConfig) (who : actor -> Prop) (E : FleetEnv C W) : Prop := {
  law_Now : guarantees cfg who Now;
  law_preempt : guarantees cfg who preempt;
  law_LaunchInstance ic : guarantees cfg who (LaunchInstance ic);
  law_TerminateInstance id : guarantees cfg who (TerminateInstance id);
  law_ListInstances fl : guarantees cfg who (ListInstances fl);
  law_clientFactory addr : guarantees cfg who (clientFactory addr);
  law_CreateSandbox c req : guarantees cfg who (node_CreateSandbox c req);
  law_DestroySandbox c id : guarantees cfg who (node_DestroySandbox c id);
  law_LaunchProcess c req : guarantees cfg who (node_LaunchProcess c req);
  law_KillProcess c req : guarantees cfg who (node_KillProcess c req);
  law_GetProcessStatus c req : guarantees cfg who (node_GetProcessStatus c req);
  law_PauseSandbox c id : guarantees cfg who (node_PauseSandbox c id);
  law_ResumeSandbox c id : guarantees cfg who (node_ResumeSandbox c id);
  law_HealthCheck c : guarantees cfg who (node_HealthCheck c);
  law_SessionCount c s r : (node_HealthCheck c s).1 = Ok r -> 0 <= hc_SessionCount r;
}.

Context (cfg : FleetConfig) (who : actor -> Prop).

Lemma guarantees_ret {A} (a : A) : guarantees cfg who (mret a).
Proof. intros s. apply rtc_refl. Qed.

Lemma guarantees_gets {A} (g : Fleet C * W -> A) : guarantees cfg who (gets g).
Proof. intros s. apply rtc_refl. Qed.

Lemma guarantees_bind {A B} (m : M (Fleet C * W) A) (k : A -> M (Fleet C * W) B) :
  guarantees cfg who m -> (forall a, guarantees cfg who (k a)) -> guarantees cfg who (m ≫= k).
Proof. intros Hm Hk s. rewrite M_bind_eq. etrans; [apply Hm|apply Hk]. Qed.

Lemma guarantees_fmap {A B} (g : A -> B) (m : M (Fleet C * W) A) :
  guarantees cfg who m -> guarantees cfg who (g <$> m).
Proof. intros Hm s. specialize (Hm s). unfold fmap, M_fmap. by destruct (m s). Qed.

Lemma guarantees_for_range {A} (l : list A) (body : A -> M (Fleet C * W) ()) :
  (forall x, guarantees cfg who (body x)) -> guarantees cfg who (for_range l body).
Proof.
  intros Hb. induction l as [|x l IH]; simpl; [apply guarantees_ret|].
  apply guarantees_bind; [apply Hb|intros _; apply IH].
Qed.

Lemma guarantees_fmod a (g : Fleet C -> Fleet C) :
  who a -> (forall f, fstep cfg a f (g f)) -> guarantees cfg who (fmod g : M (Fleet C * W) ()).
Proof. intros Ha Hg s. by eapply by_actors_one. Qed.

Lemma guarantees_onInstance {A} a p (d : A) (g : ManagedInstance C -> A * ManagedInstance C) :
  who a -> (forall mi, istep cfg a mi (g mi).2) -> guarantees cfg who (onInstance p d g : M (Fleet C * W) A).
Proof.
  intros Ha Hg s. unfold onInstance. destruct (heap s.1 !! p) as [mi|] eqn:Hp; [|apply rtc_refl].
  specialize (Hg mi). destruct (g mi) as [r mi']. simpl. eapply by_actors_one; [done|]. by econstructor.
Qed.

Lemma guarantees_modInstance a p (g : ManagedInstance C -> ManagedInstance C) :
  who a -> (forall mi, istep cfg a mi (g mi)) -> guarantees cfg who (modInstance p g : M (Fleet C * W) ()).
Proof. intros. by eapply guarantees_onInstance. Qed.

Lemma guarantees_mono (who' : actor -> Prop) {A} (m : M (Fleet C * W) A) :
  (forall a, who a -> who' a) -> guarantees cfg who m -> guarantees cfg who' m.
Proof. intros Hw Hm s. by eapply by_actors_mono. Qed.
End Guarantee.

Create HintDb guarantee discriminated.
#[export] Hint Resolve guarantees_ret guarantees_gets : guarantee.
#[export] Hint Resolve law_Now law_preempt law_LaunchInstance law_TerminateInstance law_ListInstances law_clientFactory
  law_CreateSandbox law_DestroySandbox law_LaunchProcess law_KillProcess law_GetProcessStatus law_PauseSandbox
  law_ResumeSandbox law_HealthCheck : guarantee.

Ltac guarantee_step :=
  match goal with
  | |- guarantees _ _ (mret _) => apply guarantees_ret
  | |- guarantees _ _ (gets _) => apply guarantees_gets
  | |- guarantees _ _ (fget _) => apply guarantees_gets
  | |- guarantees _ _ (readInstance _) => apply guarantees_gets
  | |- guarantees _ _ (getInstance _) => apply guarantees_gets
  | |- guarantees _ _ (obind _ _) => unfold obind; apply guarantees_bind; [|intros ?]
  | |- guarantees _ _ (_ ≫= _) => apply guarantees_bind; [|intros ?]
  | |- guarantees _ _ (_ <$> _) => apply guarantees_fmap
  | |- guarantees _ _ (for_range _ _) => apply guarantees_for_range; intros ?
  | |- guarantees _ _ (match ?x with _ => _ end) => destruct x
  | |- guarantees _ _ _ => solve [eauto 3 with guarantee typeclass_instances]
  end.
Ltac guarantee_tac := repeat guarantee_step.

(** ** Operations of callers *)

Section CallerOps.
Context {C W : Type} (order : list (string * nat) -> list (string * nat)) (cfg : FleetConfig).
Context {E : FleetEnv C W}.

Section Any.
Context (who : actor -> Prop) (Hc : who Caller) `{!FleetLaw cfg who E}.

Lemma g_claim p d : guarantees cfg who (onInstance p d ClaimSession : M (Fleet C * W) _).
Proof. apply (guarantees_onInstance _ _ Caller); [done|]. intros. constructor. Qed.

Lemma g_release p d now : guarantees cfg who (onInstance p d (ReleaseSession now) : M (Fleet C * W) _).
Proof. apply (guarantees_onInstance _ _ Caller); [done|]. intros. constructor. Qed.

Lemma g_terminate p : guarantees cfg who (modInstance p (set_State InstanceTerminating) : M (Fleet C * W) _).
Proof. apply (guarantees_modInstance _ _ Caller); [done|]. intros. constructor. Qed.

Lemma g_acquire : guarantees cfg who (acquireLaunch cfg : M (Fleet C * W) bool).
Proof. intros s. unfold acquireLaunch. case_bool_decide; [apply rtc_refl|]. eapply by_actors_one; [done|]. constructor. Qed.

Lemma g_releaseLaunch : guarantees cfg who (releaseLaunch : M (Fleet C * W) ()).
Proof. apply (guarantees_fmod _ _ Caller); [done|]. intros. constructor. Qed.

Lemma g_add mi : newborn cfg mi -> guarantees cfg who (fmod (addInstance mi) : M (Fleet C * W) ()).
Proof. intros. apply (guarantees_fmod _ _ Caller); [done|]. intros. by constructor. Qed.

Lemma g_route : guarantees cfg who (route order cfg : M (Fleet C * W) _).
Proof.
  intros s. unfold route. destruct (SelectInstance _ _ _) as [r rr]. simpl. eapply by_actors_one; [done|]. constructor.
Qed.

Lemma g_launch what mk :
  (forall info c start now, newborn cfg (mk info c start now)) -> guarantees cfg who (launch cfg what mk).
Proof.
  intros Hmk. unfold launch. guarantee_tac; try (by apply g_acquire); try (by apply g_releaseLaunch).
  by apply g_add.
Qed.

Lemma newborn_ready info (c : C) now :
  newborn cfg (mkManagedInstance (if_InstanceID info) InstanceReady (Some c) 0 (MaxSessionsPerInstance cfg)
    (if_PrivateIP info) 0 0 DrainNone now 0 0 0).
Proof. unfold newborn. simpl. split_and!; eauto. Qed.

Lemma newborn_provisioning info (c : C) start :
  newborn cfg (mkManagedInstance (if_InstanceID info) InstanceProvisioning (Some c) 0 (MaxSessionsPerInstance cfg)
    (if_PrivateIP info) 0 0 DrainNone 0 start 0 0).
Proof. unfold newborn. simpl. split_and!; eauto. Qed.

Lemma g_provision : guarantees cfg who (provisionInstance cfg).
Proof. apply g_launch. intros. apply newborn_ready. Qed.

Lemma g_provisionWarm : guarantees cfg who (provisionWarmInstance cfg).
Proof. apply g_launch. intros. apply newborn_provisioning. Qed.

Lemma g_selectAndClaim : guarantees cfg who (selectAndClaim order cfg).
Proof. unfold selectAndClaim. guarantee_tac; auto using g_route, g_claim. Qed.

Lemma g_createOn p req : guarantees cfg who (createOn cfg p req).
Proof. unfold createOn, rollback. guarantee_tac; auto using g_release. Qed.

Lemma g_createAttempts n req : guarantees cfg who (createAttempts order cfg n req).
Proof.
  induction n as [|n IH]; simpl; guarantee_tac; auto using g_selectAndClaim, g_createOn, g_provision.
Qed.

Lemma g_CreateSandbox req : guarantees cfg who (CreateSandbox order cfg req).
Proof. unfold CreateSandbox. guarantee_tac; apply g_createAttempts. Qed.

Lemma g_withSandbox {A} id (k : nat -> string -> M (Fleet C * W) (outcome ferror A)) :
  (forall p sid, guarantees cfg who (k p sid)) -> guarantees cfg who (withSandbox id k).
Proof. intros Hk. unfold withSandbox. guarantee_tac; apply Hk. Qed.

Lemma g_withClient {A} p (k : C -> M (Fleet C * W) (res ferror A)) :
  (forall c, guarantees cfg who (k c)) -> guarantees cfg who (withClient p k).
Proof. intros Hk. unfold withClient. guarantee_tac; apply Hk. Qed.

Lemma g_DestroySandbox id : guarantees cfg who (DestroySandbox id).
Proof.
  apply g_withSandbox. intros p sid. guarantee_tac; try (by apply g_release); try (by apply g_claim).
  apply g_withClient. intros c. apply law_DestroySandbox.
Qed.

Lemma g_CloseFleet : guarantees cfg who (CloseFleet order cfg).
Proof.
  assert (forall l, guarantees cfg who (terminateAll l)) as Ht.
  { intros l. unfold terminateAll. guarantee_tac; by apply g_terminate. }
  unfold CloseFleet. guarantee_tac; (apply (guarantees_fmod _ _ Caller); [done|]; intros; constructor).
Qed.

Lemma g_LaunchProcess req : guarantees cfg who (LaunchProcess req).
Proof. apply g_withSandbox. intros p sid. apply g_withClient. intros c. apply law_LaunchProcess. Qed.

Lemma g_KillProcess req : guarantees cfg who (KillProcess req).
Proof. apply g_withSandbox. intros p sid. apply g_withClient. intros c. apply law_KillProcess. Qed.

Lemma g_GetProcessStatus req : guarantees cfg who (GetProcessStatus req).
Proof. apply g_withSandbox. intros p sid. apply g_withClient. intros c. apply law_GetProcessStatus. Qed.

Lemma g_PauseSandbox id : guarantees cfg who (PauseSandbox id).
Proof. apply g_withSandbox. intros p sid. apply g_withClient. intros c. apply law_PauseSandbox. Qed.

Lemma g_ResumeSandbox id : guarantees cfg who (ResumeSandbox id).
Proof. apply g_withSandbox. intros p sid. apply g_withClient. intros c. apply law_ResumeSandbox. Qed.

Lemma g_RecoverInstances : guarantees cfg who (RecoverInstances cfg).
Proof.
  unfold RecoverInstances. guarantee_tac. unfold recoverOne. guarantee_tac; apply g_add, newborn_provisioning.
Qed.
End Any.
End CallerOps.

(** ** The control loop

    Its goroutine is the only one that takes steps of [Loop]: during its calls
    and between its sections, callers run. *)

Section LoopOps.
Context {C W : Type} (order : list (string * nat) -> list (string * nat)) (cfg : FleetConfig).
Context {E : FleetEnv C W} {HE : FleetLaw cfg callers E}.

#[local] Instance law_anyone : FleetLaw cfg anyone E.
Proof.
  destruct HE. split; intros; try (by eapply guarantees_mono; [|done]); by eapply law_SessionCount0.
Qed.

Lemma g_loop p (g : ManagedInstance C -> ManagedInstance C) :
  (forall mi, istep cfg Loop mi (g mi)) -> guarantees cfg anyone (modInstance p g : M (Fleet C * W) ()).
Proof. intros. by apply (guarantees_modInstance _ _ Loop). Qed.

Lemma g_remove ids : guarantees cfg anyone (removeInstances ids : M (Fleet C * W) ()).
Proof. apply (guarantees_fmod _ _ Loop); [done|]. intros. constructor. Qed.

Lemma g_healthPassed c p :
  guarantees cfg anyone (result ← node_HealthCheck c;
    match result with
    | Err _ => modInstance p healthFailed
    | Ok r => now ← Now; modInstance p (healthPassed now (hc_SessionCount r))
    end : M (Fleet C * W) ()).
Proof.
  intros s. rewrite M_bind_eq. pose proof (law_HealthCheck c s : by_actors cfg anyone _ _) as H1. etrans; [exact H1|].
  clear H1. destruct (node_HealthCheck c s) as [[r|e] s1] eqn:Hr; simpl; [|apply g_loop; constructor].
  rewrite M_bind_eq. pose proof (law_Now s1 : by_actors cfg anyone _ _) as H2. etrans; [exact H2|].
  apply g_loop. intros mi. constructor. eapply law_SessionCount. by rewrite Hr.
Qed.

Lemma g_phaseHealthCheck : guarantees cfg anyone (phaseHealthCheck order).
Proof.
  apply guarantees_bind; [apply guarantees_gets|]. intros targets. apply guarantees_for_range. intros p.
  apply guarantees_bind; [apply guarantees_gets|].
  intros [mi|]; [|apply guarantees_ret]. case_match; [apply guarantees_ret|].
  destruct (Client mi); [apply g_healthPassed|apply guarantees_ret].
Qed.

Lemma g_phaseHandleUnhealthy : guarantees cfg anyone (phaseHandleUnhealthy order cfg).
Proof. unfold phaseHandleUnhealthy. guarantee_tac. apply g_loop. intros. constructor. Qed.

Lemma g_phaseScaleUp : guarantees cfg anyone (phaseScaleUp order cfg).
Proof. unfold phaseScaleUp. guarantee_tac. by apply (g_provisionWarm cfg anyone I). Qed.

Lemma g_scaleDownLoop l total idleCount : guarantees cfg anyone (scaleDownLoop cfg l total idleCount).
Proof.
  revert total idleCount. induction l as [|p l IH]; intros total idleCount; simpl; guarantee_tac.
  apply (guarantees_onInstance _ _ Loop); [done|]. intros. constructor.
Qed.

Lemma g_phaseScaleDown : guarantees cfg anyone (phaseScaleDown order cfg).
Proof. unfold phaseScaleDown. guarantee_tac; apply g_scaleDownLoop. Qed.

Lemma g_collect body l : (forall p, guarantees cfg anyone (body p)) -> guarantees cfg anyone (collect (W := W) (C := C) body l).
Proof. intros Hb. induction l as [|p l IH]; simpl; guarantee_tac. Qed.

Lemma g_completeDrain p : guarantees cfg anyone (completeDrain cfg p).
Proof. unfold completeDrain. guarantee_tac; apply g_loop; intros; constructor. Qed.

(** The provisioning it completes is the one it saw. *)
Lemma g_completeProvisioning p : guarantees cfg anyone (completeProvisioning cfg p).
Proof.
  intros s. unfold completeProvisioning. rewrite M_bind_eq. unfold readInstance at 1. simpl.
  destruct (heap s.1 !! p) as [mi|] eqn:Hp; [|apply rtc_refl].
  case_bool_decide as Hst; [|apply rtc_refl]. simpl. rewrite M_bind_eq.
  assert (by_actors cfg callers s.1 (Now s).2.1) as Hnow by apply law_Now.
  etrans; [by eapply by_actors_mono|]. destruct (Now s) as [now s1]. simpl in *.
  destruct (provisionTimedOut cfg now mi).
  { revert s1 Hnow. intros s1 _. revert s1. change (guarantees cfg anyone
      (err ← TerminateInstance (InstanceID mi);
       match err with Ok _ => modInstance p (set_State InstanceTerminating);; mret [InstanceID mi] | Err _ => mret [] end)).
    guarantee_tac; apply g_loop; intros; constructor. }
  destruct (Client mi) as [client|]; [|apply rtc_refl]. rewrite M_bind_eq.
  assert (by_actors cfg callers s1.1 (node_HealthCheck client s1).2.1) as Hhc by apply law_HealthCheck.
  etrans; [by eapply by_actors_mono|]. destruct (node_HealthCheck client s1) as [[r|e] s2]; simpl in *; [|apply rtc_refl].
  rewrite M_bind_eq. assert (by_actors cfg callers s2.1 (Now s2).2.1) as Hnow2 by apply law_Now.
  etrans; [by eapply by_actors_mono|]. destruct (Now s2) as [now2 s3]. simpl in *. rewrite M_bind_eq.
  assert (by_actors cfg callers s.1 s3.1) as Hall by (etrans; [done|]; by etrans).
  destruct (by_callers_provisioning cfg _ _ _ _ Hall Hp (or_introl Hst)) as (mi' & Hp' & Hst').
  unfold modInstance, onInstance. rewrite Hp'. simpl. eapply (by_actors_one _ _ Loop); [done|].
  econstructor; [done|]. by constructor.
Qed.

Lemma g_phaseDrainCompletion : guarantees cfg anyone (phaseDrainCompletion order cfg).
Proof. unfold phaseDrainCompletion. guarantee_tac; [apply g_collect, g_completeDrain|apply g_remove]. Qed.

Lemma g_phaseProvisioningCompletion : guarantees cfg anyone (phaseProvisioningCompletion order cfg).
Proof. unfold phaseProvisioningCompletion. guarantee_tac; [apply g_collect, g_completeProvisioning|apply g_remove]. Qed.

Lemma g_runIteration : guarantees cfg anyone (runIteration order cfg).
Proof.
  unfold runIteration. guarantee_tac; auto using g_phaseHealthCheck, g_phaseHandleUnhealthy, g_phaseScaleUp,
    g_phaseScaleDown, g_phaseDrainCompletion, g_phaseProvisioningCompletion.
Qed.
End LoopOps.
