(* ===== verification/FleetProps.v ===== *)
(** * FleetProps: what the fleet guarantees

    Under every interleaving, the invariant and the life cycle of instances;
    for calls that are not disturbed, what each operation does. *)

From S2P Require Import Prelude GoStrings GoFloat FleetTypes FleetInstance FleetRouter Fleet FleetSteps.

Local Open Scope Z_scope.
Local Open Scope list_scope.
Local Open Scope stdpp_scope.

(** ** Requests *)

Inductive fleet_request : Type :=
  | ReqCreate (req : CreateSandboxRequest)
  | ReqDestroy (id : string)
  | ReqLaunch (req : LaunchProcessRequest)
  | ReqKill (req : KillProcessRequest)
  | ReqStatus (req : GetProcessStatusRequest)
  | ReqPause (id : string)
  | ReqResume (id : string)
  | ReqFleetStatus
  | ReqClose
  | ReqRecover
  | ReqIteration.

(** Who else runs during a request: one goroutine runs the control loop. *)
Definition others (q : fleet_request) : actor -> Prop :=
  match q with ReqIteration => callers | _ => anyone end.

Section Served.
Context {C W : Type} (order : list (string * nat) -> list (string * nat)) (cfg : FleetConfig).

Definition serve_request (E : FleetEnv C W) (q : fleet_request) : M (Fleet C * W) () :=
  match q with
  | ReqCreate req => CreateSandbox order cfg req;; mret ()
  | ReqDestroy id => DestroySandbox id;; mret ()
  | ReqLaunch req => LaunchProcess req;; mret ()
  | ReqKill req => KillProcess req;; mret ()
  | ReqStatus req => GetProcessStatus req;; mret ()
  | ReqPause id => PauseSandbox id;; mret ()
  | ReqResume id => ResumeSandbox id;; mret ()
  | ReqFleetStatus => FleetStatus order cfg;; mret ()
  | ReqClose => CloseFleet order cfg;; mret ()
  | ReqRecover => RecoverInstances cfg;; mret ()
  | ReqIteration => runIteration order cfg
  end.

(** A run: requests, each in an environment whose other goroutines take any of
    their steps during it. *)
Definition served : relation (Fleet C * W) :=
  rtc (fun s s' => exists E q, FleetLaw cfg (others q) E /\ s' = (serve_request E q s).2).

Lemma serve_guarantee (E : FleetEnv C W) q :
  FleetLaw cfg (others q) E -> guarantees cfg anyone (serve_request E q).
Proof.
  intros HE. destruct q; simpl in *;
    try (apply guarantees_bind; [|intros; apply guarantees_ret]); try apply guarantees_gets;
    eauto using g_CreateSandbox, g_DestroySandbox, g_LaunchProcess, g_KillProcess, g_GetProcessStatus, g_PauseSandbox,
      g_ResumeSandbox, g_CloseFleet, g_RecoverInstances, g_runIteration, I.
  - by apply (g_CreateSandbox _ _ anyone I).
  - by apply (g_DestroySandbox _ anyone I).
  - by apply (g_CloseFleet _ _ anyone I).
  - by apply (g_RecoverInstances _ anyone I).
Qed.

Lemma served_steps s s' : served s s' -> by_actors cfg anyone s.1 s'.1.
Proof.
  apply (rtc_invariant _ (fun x => by_actors cfg anyone s.1 x.1)); [apply rtc_refl|].
  intros x y Hx (E & q & HE & ->). etrans; [exact Hx|]. by apply serve_guarantee.
Qed.

(** C5: no instance is lost or misused, however the fleet's operations
    interleave.  In every run every entry of the map is a live instance with
    that id, no two ids share one, and every instance is well formed: its count
    is natural, an active instance has sessions and no idle clock, a drained one
    has its reason.  Between any two moments of a run an instance keeps its
    identity, address and limit; one that is terminating stays so, and one
    drained for scale-down never serves again: it stays drained or terminates,
    and claims on it fail. *)
Theorem fleet_lifecycle f0 w0 s s' :
  valid_config cfg -> NewFleetSandboxControl cfg = Ok f0 -> served (f0, w0) s -> served s s' ->
  fleet_ok cfg s'.1 /\
  (forall id1 id2 p, instances s'.1 !! id1 = Some p -> instances s'.1 !! id2 = Some p -> id1 = id2) /\
  (forall p mi, heap s.1 !! p = Some mi -> exists mi', heap s'.1 !! p = Some mi' /\ instance_ok mi' /\
     (InstanceID mi', Client mi', MaxSessions mi', IP mi') = (InstanceID mi, Client mi, MaxSessions mi, IP mi) /\
     (State mi = InstanceTerminating -> State mi' = InstanceTerminating) /\
     (doomed mi -> doomed mi' /\ is_Ok (ClaimSession mi').1 = false)).
Proof.
  intros Hcfg Hnew H0 H1. apply served_steps in H0, H1.
  assert (fleet_ok cfg f0) as Hok0.
  { unfold NewFleetSandboxControl in Hnew. rewrite (proj2 (Validate_Ok cfg) Hcfg) in Hnew. simplify_eq.
    split; simpl; [intros id p H|intros p mi H]; by rewrite lookup_empty in H. }
  pose proof (by_actors_ok _ _ _ _ H0 Hok0) as Hok. pose proof (by_actors_ok _ _ _ _ H1 Hok) as Hok'.
  split_and!; [done| |].
  - intros id1 id2 p Hi1 Hi2. destruct (fo_entries _ _ Hok' _ _ Hi1) as (mi1 & Hm1 & <-).
    destruct (fo_entries _ _ Hok' _ _ Hi2) as (mi2 & Hm2 & <-). congruence.
  - intros p mi Hp. destruct (by_actors_instance _ _ _ _ _ _ H1 Hp) as (mi' & Hp' & Hs).
    destruct (fo_instances _ _ Hok _ _ Hp) as (Hmi & _).
    exists mi'. split_and!; [done|by eapply isteps_ok|by apply isteps_identity in Hs| |].
    + intros Ht. apply (isteps_doomed cfg Hcfg _ _ Hs Hmi (or_introl Ht)). done.
    + intros Hd. destruct (isteps_doomed cfg Hcfg _ _ Hs Hmi Hd) as [Hd' _]. split; [done|].
      destruct Hd' as [Hst|[Hst _]]; unfold ClaimSession; by rewrite Hst.
Qed.
End Served.

(** Step over a call that leaves the fleet alone. *)
Ltac quiet lem :=
  rewrite M_bind_eq;
  lazymatch type of lem with
  | (?m ?s).2.1 = _ =>
      let Hq := fresh "Hq" in let r := fresh "r" in let s1 := fresh "s" in
      pose proof lem as Hq; destruct (m s) as [r s1]; simpl in Hq; cbn [fst snd]
  end.

(** ** Undisturbed calls

    In a quiet environment no other goroutine touches the fleet during a call. *)

Class QuietEnv {C W : Type} (E : FleetEnv C W) : Prop := {
  quiet_Now s : (Now s).2.1 = s.1;
  quiet_preempt s : (preempt s).2.1 = s.1;
  quiet_Launch ic s : (LaunchInstance ic s).2.1 = s.1;
  quiet_Terminate id s : (TerminateInstance id s).2.1 = s.1;
  quiet_List fl s : (ListInstances fl s).2.1 = s.1;
  quiet_factory addr s : (clientFactory addr s).2.1 = s.1;
  quiet_Create c req s : (node_CreateSandbox c req s).2.1 = s.1;
  quiet_Destroy c id s : (node_DestroySandbox c id s).2.1 = s.1;
  quiet_LaunchProcess c req s : (node_LaunchProcess c req s).2.1 = s.1;
  quiet_Kill c req s : (node_KillProcess c req s).2.1 = s.1;
  quiet_Status c req s : (node_GetProcessStatus c req s).2.1 = s.1;
  quiet_Pause c id s : (node_PauseSandbox c id s).2.1 = s.1;
  quiet_Resume c id s : (node_ResumeSandbox c id s).2.1 = s.1;
  quiet_Health c s : (node_HealthCheck c s).2.1 = s.1;
  quiet_SessionCount c s r : (node_HealthCheck c s).1 = Ok r -> 0 <= hc_SessionCount r;
}.

Section Quiet.
Context {C W : Type} {E : FleetEnv C W} {HQ : QuietEnv E}.

Lemma quiet_law cfg who : FleetLaw cfg who E.
Proof.
  destruct HQ. split; intros; try (intros s; match goal with |- by_actors _ _ _ (?m ?s).2.1 =>
    replace (m s).2.1 with s.1 by auto; apply rtc_refl end). eauto.
Qed.

#[local] Instance quiet_law_instance cfg who : FleetLaw cfg who E := quiet_law cfg who.

(** The invariant after an operation. *)
Lemma quiet_ok {A} cfg (m : M (Fleet C * W) A) s :
  guarantees cfg anyone m -> fleet_ok cfg s.1 -> fleet_ok cfg (m s).2.1.
Proof. intros Hm. by apply (by_actors_ok cfg anyone). Qed.

Lemma fget_bind {A B} (g : Fleet C -> A) (k : A -> M (Fleet C * W) B) s : (fget g ≫= k) s = k (g s.1) s.
Proof. done. Qed.

Lemma readInstance_bind {B} p (k : _ -> M (Fleet C * W) B) s : (readInstance p ≫= k) s = k (heap s.1 !! p) s.
Proof. done. Qed.

Lemma fmod_bind {B} (g : Fleet C -> Fleet C) (k : () -> M (Fleet C * W) B) s : (fmod g ≫= k) s = k () (g s.1, s.2).
Proof. done. Qed.

Lemma onInstance_bind {A B} p (d : A) g mi (k : A -> M (Fleet C * W) B) s :
  heap s.1 !! p = Some mi -> (onInstance p d g ≫= k) s = k (g mi).1 (updateInstance p (g mi).2 s.1, s.2).
Proof. intros Hp. rewrite M_bind_eq. unfold onInstance. rewrite Hp. by destruct (g mi). Qed.

(** The sessions counted on the instance at [p]. *)
Definition count (f : Fleet C) (p : nat) : Z := from_option SessionCount 0 (heap f !! p).

(** [p] has [d] more sessions in [f'] than in [f], every other instance as many
    as before; an instance that is new in [f'] counts as empty in [f]. *)
Definition counts_plus (p : nat) (d : Z) (f f' : Fleet C) : Prop :=
  forall q, count f' q = count f q + (if bool_decide (q = p) then d else 0).

Definition counts_same (f f' : Fleet C) : Prop := forall q, count f' q = count f q.

Lemma counts_plus_update p mi mi' (f : Fleet C) :
  heap f !! p = Some mi -> counts_plus p (SessionCount mi' - SessionCount mi) f (updateInstance p mi' f).
Proof.
  intros Hp q. unfold count, updateInstance. simpl. case_bool_decide as Hq; [subst|].
  - rewrite lookup_insert_eq, Hp. simpl. lia.
  - rewrite lookup_insert_ne by done. lia.
Qed.

Section CreateSpec.
Context (order : list (string * nat) -> list (string * nat)) (Horder : forall l, order l ≡ₚ l).
Context (cfg : FleetConfig).

Lemma elem_of_fleetInstances (f : Fleet C) p mi :
  (p, mi) ∈ fleetInstances order f <-> (exists id, instances f !! id = Some p) /\ heap f !! p = Some mi.
Proof.
  unfold fleetInstances, fleetTargets, fleetEntries. rewrite list_elem_of_omap.
  setoid_rewrite list_elem_of_fmap. setoid_rewrite Horder. split.
  - intros (q & ((id & q') & -> & Hin) & Hq). apply elem_of_map_to_list in Hin. simpl in *.
    destruct (heap f !! q') eqn:Hh; simplify_eq/=. eauto.
  - intros [[id Hid] Hp]. exists p. split; [exists (id, p); split; [done|by apply elem_of_map_to_list]|]. by rewrite Hp.
Qed.

(** The map [real] finds the pointer of every instance in the snapshot. *)
Lemma real_lookup (f : Fleet C) p mi :
  fleet_ok cfg f -> (p, mi) ∈ fleetInstances order f ->
  foldl (fun m '(p, mi) => <[InstanceID mi := p]> m) (∅ : gmap string nat) (fleetInstances order f) !! InstanceID mi = Some p.
Proof.
  intros Hok Hin.
  assert (forall l : list (nat * ManagedInstance C), (forall x, x ∈ l -> x ∈ fleetInstances order f) ->
    let m := foldl (fun m '(p, mi) => <[InstanceID mi := p]> m) (∅ : gmap string nat) l in
    ((p, mi) ∈ l -> m !! InstanceID mi = Some p) /\ (forall q, m !! InstanceID mi = Some q -> q = p)) as H; [|by apply H].
  induction l as [|[q mq] l IH] using rev_ind; intros Hl; simpl.
  - split; [set_solver|]. intros q. by rewrite lookup_empty.
  - rewrite foldl_snoc. destruct IH as [IH1 IH2]; [set_solver|].
    destruct (decide (InstanceID mq = InstanceID mi)) as [Heq|Hne].
    + assert (q = p) as ->.
      { assert ((q, mq) ∈ fleetInstances order f) as Hq by set_solver.
        apply elem_of_fleetInstances in Hq as [[id1 H1] Hq], Hin as [[id2 H2] Hp].
        destruct (fo_entries _ _ Hok _ _ H1) as (m1 & Hm1 & <-). destruct (fo_entries _ _ Hok _ _ H2) as (m2 & Hm2 & <-).
        congruence. }
      rewrite Heq, lookup_insert_eq. split; [done|]. by intros ? [= <-].
    + rewrite lookup_insert_ne by done. split; [|done]. intros Hin'. apply IH1.
      apply elem_of_app in Hin' as [?|Hs]; [done|]. apply list_elem_of_singleton in Hs. congruence.
Qed.

Context (Hmax : 1 <= MaxSessionsPerInstance cfg <= 64).

Lemma route_spec (s : Fleet C * W) :
  fleet_ok cfg s.1 ->
  exists r rr, route order cfg s = (Return r, (set_roundRobin rr s.1, s.2)) /\
  match r with
  | Ok p => exists q mi, p = Some q /\ (q, mi) ∈ fleetInstances order s.1 /\
      routable (State mi) = true /\ SessionCount mi < MaxSessions mi
  | Err e => e = ErrNoCapacity /\ forall p mi, (p, mi) ∈ fleetInstances order s.1 -> ~ admissible cfg (snapshot mi)
  end.
Proof.
  intros Hok. unfold route. set (l := fleetInstances order s.1).
  assert (Forall (fun i => routable (State i) = true -> MaxSessions i = MaxSessionsPerInstance cfg /\ 0 <= SessionCount i)
    ((fun '(_, mi) => snapshot mi) <$> l)) as Hall.
  { apply Forall_fmap, Forall_forall. intros [p mi] Hin _. apply elem_of_fleetInstances in Hin as [_ Hp].
    destruct (fo_instances _ _ Hok _ _ Hp) as ([] & _ & ?). simpl. done. }
  pose proof (SelectInstance_spread_lemma cfg (MaxSessionsPerInstance cfg) (roundRobin s.1) _ Hmax Hall) as H.
  destruct (SelectInstance cfg (roundRobin s.1) _) as [[[i|e]|v] rr]; [| |done].
  - destruct H as ((Hi & (Hr & Hlt & _) & _) & _). apply list_elem_of_fmap in Hi as ((p & mi) & -> & Hin).
    eexists _, _. split; [done|]. exists p, mi. split_and!; try done. simpl. by apply real_lookup.
  - destruct H as (-> & Hna & _). eexists _, _. split; [done|]. split; [done|].
    intros p mi Hin. rewrite Forall_forall in Hna. apply Hna. apply list_elem_of_fmap. by exists (p, mi).
Qed.

(** One claim, on an instance of the map. *)
Lemma selectAndClaim_spec (s : Fleet C * W) :
  fleet_ok cfg s.1 ->
  let '(r, s') := selectAndClaim order cfg s in
  pendingLaunches s'.1 = pendingLaunches s.1 /\
  match r with
  | Return (Ok p) => counts_plus p 1 s.1 s'.1 /\
      exists mi, (p, mi) ∈ fleetInstances order s'.1 /\ State mi = InstanceActive /\ SessionCount mi <= MaxSessions mi
  | Return (Err e) => e = ErrNoCapacity /\ counts_same s.1 s'.1
  | Panic _ => False
  end.
Proof.
  intros Hok. unfold selectAndClaim, obind. rewrite M_bind_eq.
  destruct (route_spec s Hok) as (r & rr & -> & Hr). cbn [fst snd]. destruct r as [sel|e]; [|by destruct Hr as [-> _]].
  destruct Hr as (q & mi & -> & Hin & Hrt & Hlt). pose proof (proj1 (elem_of_fleetInstances _ _ _) Hin) as [[id Hid] Hq].
  rewrite M_bind_eq. set (s1 := (set_roundRobin rr s.1, s.2)). pose proof (quiet_preempt s1) as Hp.
  destruct (preempt s1) as [[] s2]. simpl in Hp. cbn [fst snd]. rewrite M_bind_eq. unfold onInstance. rewrite Hp.
  unfold s1. cbn [fst snd]. change (heap (set_roundRobin rr s.1)) with (heap s.1). rewrite Hq.
  pose proof (proj2 (ClaimSession_Ok mi) (conj Hrt Hlt)) as Hc. destruct (ClaimSession_result mi Hc) as [Hst Hn].
  pose proof (istep_identity cfg Caller mi _ (Step_claim cfg mi)) as Hid'.
  destruct (ClaimSession mi) as [c mi'] eqn:Hcl. simpl in *. subst c. simplify_eq. cbn [fst snd].
  split; [done|]. split.
  - replace 1 with (SessionCount mi' - SessionCount mi) by lia. exact (counts_plus_update q mi mi' s.1 Hq).
  - exists mi'. split_and!; [|done|lia]. apply elem_of_fleetInstances. simpl. split; [by exists id|]. apply lookup_insert_eq.
Qed.

(** One launch: a new empty instance, or nothing; the launch slot is given
    back. *)
Lemma launch_spec what mk (s : Fleet C * W) :
  (forall info c start now, newborn cfg (mk info c start now)) ->
  let '(r, s') := launch cfg what mk s in
  match r with
  | Err _ => s'.1 = s.1
  | Ok _ => fleetTotal s.1 < MaxInstances cfg /\ exists mi, newborn cfg mi /\ s'.1 = addInstance mi s.1
  end.
Proof.
  intros Hmk. unfold launch. rewrite fget_bind.
  case_bool_decide; [done|]. assert (fleetTotal s.1 < MaxInstances cfg) as Htotal by lia.
  quiet (quiet_preempt s). rewrite M_bind_eq. unfold acquireLaunch. rewrite Hq.
  case_bool_decide; cbn [fst snd negb]; [by cbn; rewrite Hq|].
  set (s1 := (set_pending (pendingLaunches s.1 + 1) s.1, s0.2)).
  assert (forall s2 : Fleet C * W, s2.1 = s1.1 -> set_pending (pendingLaunches s2.1 - 1) s2.1 = s.1) as Hback.
  { intros s2 ->. unfold s1, set_pending. destruct s as [[] ?]; simpl. f_equal. lia. }
  assert (s1.1 = set_pending (pendingLaunches s.1 + 1) s.1) as Hs1 by done. clearbody s1.
  quiet (quiet_Now s1). quiet (quiet_Launch (InstanceTemplate cfg) s2). destruct r1 as [info|e]; [|cbn; apply Hback; congruence].
  quiet (quiet_factory (hostAddr cfg (if_PrivateIP info)) s3). destruct r1 as [client|e]; [|cbn; apply Hback; congruence].
  quiet (quiet_Now s4). rewrite fmod_bind.
  match goal with |- context [(preempt;; _) ?x] => quiet (quiet_preempt x) end.
  cbn. split; [exact Htotal|].
  match type of Hq4 with _ = addInstance ?m _ => exists m end. split; [apply Hmk|]. rewrite Hq4.
  assert (s5.1 = s1.1) as -> by congruence. rewrite Hs1. unfold set_pending, addInstance, set_instances, set_heap.
  destruct s as [[] ?]; simpl. f_equal. lia.
Qed.

Lemma addInstance_counts mi (f : Fleet C) : newborn cfg mi -> counts_same f (addInstance mi f).
Proof.
  intros Hn q. unfold count, addInstance. simpl. destruct (decide (fresh (dom (heap f)) = q)) as [<-|].
  - rewrite lookup_insert_eq. rewrite (proj1 (not_elem_of_dom _ _) (is_fresh (dom (heap f)))). simpl. apply Hn.
  - by rewrite lookup_insert_ne.
Qed.

Lemma rollback_spec {A} p mi e (s : Fleet C * W) :
  heap s.1 !! p = Some mi -> 0 < SessionCount mi ->
  let '(r, s') := (rollback p e : M (Fleet C * W) (outcome ferror A)) s in
  r = Return (Err e) /\ pendingLaunches s'.1 = pendingLaunches s.1 /\ counts_plus p (-1) s.1 s'.1.
Proof.
  intros Hp Hpos. unfold rollback. quiet (quiet_Now s). rewrite M_bind_eq. unfold onInstance. rewrite Hq, Hp.
  pose proof (ReleaseSession_count r mi Hpos) as Hc. destruct (ReleaseSession r mi) as [e' mi']. simpl in Hc. cbn.
  split_and!; [done|done|]. replace (-1) with (SessionCount mi' - SessionCount mi) by lia. by apply counts_plus_update.
Qed.

(** The call on the instance: a sandbox of it, or the slot given back. *)
Lemma createOn_spec p mi req (s : Fleet C * W) :
  heap s.1 !! p = Some mi -> is_Some (Client mi) -> 0 < SessionCount mi ->
  let '(r, s') := createOn cfg p req s in
  pendingLaunches s'.1 = pendingLaunches s.1 /\
  match r with
  | Return (Ok resp) => s'.1 = s.1 /\ exists sid, parseSandboxID (rs_SandboxID resp) = Ok (InstanceID mi, sid)
  | Return (Err _) => counts_plus p (-1) s.1 s'.1
  | Panic _ => False
  end.
Proof.
  intros Hp [client Hcl] Hpos. unfold createOn. rewrite readInstance_bind, Hp, Hcl.
  quiet (quiet_Create client req s). rewrite <- Hq in Hp |- *.
  pose proof (fun e => rollback_spec (A := CreateSandboxResponse) p mi e s0 Hp Hpos) as Hrb.
  destruct r as [resp|e]; [destruct (encodeSandboxID (InstanceID mi) (rs_SandboxID resp)) as [id|e] eqn:He|].
  - cbn. split_and!; try done. exists (rs_SandboxID resp). by apply parseSandboxID_Ok, encodeSandboxID_Ok.
  - specialize (Hrb (Wrap "fleet: encode sandbox ID: " e "")). destruct (rollback p _ s0) as [r s']. by destruct Hrb as (-> & ? & ?).
  - specialize (Hrb e). destruct (rollback p _ s0) as [r s']. by destruct Hrb as (-> & ? & ?).
Qed.

(** What [CreateSandbox] promises of a try. *)
Definition created (s : Fleet C * W) (r : outcome ferror CreateSandboxResponse) (s' : Fleet C * W) : Prop :=
  pendingLaunches s'.1 = pendingLaunches s.1 /\
  match r with
  | Return (Ok resp) => exists p mi sid,
      heap s'.1 !! p = Some mi /\ instances s'.1 !! InstanceID mi = Some p /\
      parseSandboxID (rs_SandboxID resp) = Ok (InstanceID mi, sid) /\
      State mi = InstanceActive /\ SessionCount mi <= MaxSessionsPerInstance cfg /\ counts_plus p 1 s.1 s'.1
  | Return (Err _) => counts_same s.1 s'.1
  | Panic _ => False
  end.

Lemma created_from s1 s2 r s' :
  pendingLaunches s2.1 = pendingLaunches s1.1 -> counts_same s1.1 s2.1 -> created s2 r s' -> created s1 r s'.
Proof.
  intros Hp Hc [Hp' H]. split; [congruence|]. destruct r as [[resp|e]|v]; [| |done].
  - destruct H as (p & mi & sid & ? & ? & ? & ? & ? & Hplus). exists p, mi, sid. split_and!; try done.
    intros q. by rewrite Hplus, Hc.
  - intros q. by rewrite H, Hc.
Qed.

Lemma createAttempts_spec n req (s : Fleet C * W) :
  fleet_ok cfg s.1 -> let '(r, s') := createAttempts order cfg n req s in created s r s'.
Proof.
  revert s. induction n as [|n IH]; intros s Hok; [by split|]. simpl. rewrite M_bind_eq.
  pose proof (selectAndClaim_spec s Hok) as Hsel.
  pose proof (quiet_ok cfg (selectAndClaim order cfg) s (g_selectAndClaim order cfg anyone I) Hok) as Hok1.
  destruct (selectAndClaim order cfg s) as [[[p|e]|v] s1]; cbn [fst snd] in *; [| |by destruct Hsel].
  - destruct Hsel as (Hpend & Hplus & mi & [[id Hid] Hp]%elem_of_fleetInstances & Hst & Hmaxc).
    destruct (fo_instances _ _ Hok1 _ _ Hp) as (Hmi & Hcl & Hm). destruct (fo_entries _ _ Hok1 _ _ Hid) as (mi' & Hp' & <-).
    assert (mi' = mi) as -> by congruence.
    pose proof (createOn_spec p mi req s1 Hp Hcl (proj1 (io_active mi Hmi Hst))) as H.
    destruct (createOn cfg p req s1) as [[[resp|e]|v] s']; destruct H as [Hpend' H]; [| |done].
    + destruct H as [Heq [sid Hsid]]. split; [congruence|]. exists p, mi, sid. rewrite Heq. split_and!; try done. lia.
    + split; [congruence|]. intros q. rewrite H, Hplus. case_bool_decide; lia.
  - destruct Hsel as (Hpend & -> & Hsame). rewrite bool_decide_eq_true_2 by done. rewrite M_bind_eq.
    pose proof (launch_spec "fleet: provision failed: " _ s1 (fun info c _ now => newborn_ready cfg info c now)) as Hl.
    pose proof (quiet_ok cfg (provisionInstance cfg) s1 (g_provision cfg anyone I) Hok1) as Hok2.
    change (launch cfg _ _ s1) with (provisionInstance cfg s1) in Hl.
    destruct (provisionInstance cfg s1) as [[[]|e] s2]; cbn [fst snd] in *.
    + destruct Hl as (_ & mi & Hn & Heq). specialize (IH s2 Hok2).
      destruct (createAttempts order cfg n req s2) as [r s'].
      apply (created_from s s2); [rewrite Heq; simpl; congruence| |done].
      intros q. by rewrite Heq, addInstance_counts, Hsame.
    + cbn. split; simpl; [congruence|]. intros q. by rewrite Hl, Hsame.
Qed.

(** C20: CreateSandbox takes exactly one slot or none.  On success the sandbox id
    names an instance of the fleet, which is now active and within its limit, and
    that instance has exactly one session more than before, every other exactly
    as many, even if instances had to be launched on the way; on any error every
    count is what it was: a slot claimed for a call that failed is given back.
    A launch slot never leaks, nothing panics, and a closed fleet refuses. *)
Theorem CreateSandbox_spec req (s : Fleet C * W) :
  fleet_ok cfg s.1 ->
  let '(r, s') := CreateSandbox order cfg req s in
  created s r s' /\ (closed s.1 = true -> r = Return (Err ErrFleetClosed) /\ s' = s).
Proof.
  intros Hok. unfold CreateSandbox. rewrite fget_bind. destruct (closed s.1) eqn:Hc; [by split|].
  pose proof (createAttempts_spec maxAttempts req s Hok). by destruct (createAttempts order cfg maxAttempts req s).
Qed.

(** ** Destroying *)

(** The count after a failed destroy: restored while the instance may be
    claimed again. *)
Lemma Claim_Release_count now (mi : ManagedInstance C) :
  instance_ok mi -> 0 < SessionCount mi ->
  SessionCount (ClaimSession (ReleaseSession now mi).2).2 =
  if routable (State mi) && bool_decide (SessionCount mi <= MaxSessions mi) then SessionCount mi else SessionCount mi - 1.
Proof.
  intros Hok Hpos. pose proof (ReleaseSession_count now mi Hpos) as Hn.
  pose proof (istep_identity cfg Caller mi _ (Step_release cfg now mi)) as [= _ _ Hmx _].
  assert (routable (State (ReleaseSession now mi).2) = routable (State mi)) as Hr.
  { unfold ReleaseSession. rewrite bool_decide_eq_false_2 by lia. simpl. case_match eqn:Hcase; [|done].
    apply andb_true_iff in Hcase as [_ Hs%bool_decide_eq_true]. simpl in *. by rewrite Hs. }
  unfold ClaimSession. rewrite Hr, Hn, Hmx. destruct (routable (State mi)); simpl; [|done].
  repeat case_bool_decide; simpl; rewrite ?Hn; lia.
Qed.

(** What DestroySandbox does to the counts.  A malformed id or an unknown
    instance changes nothing.  When the node destroys the sandbox, its instance
    has one session less (an empty one stays empty).  When the node fails, its
    error is returned and the slot is taken back, but only if the instance can
    be claimed: on an instance that is draining, or above its limit, the session
    that still runs is no longer counted. *)
Theorem DestroySandbox_spec id (s : Fleet C * W) :
  fleet_ok cfg s.1 ->
  let '(r, s') := DestroySandbox id s in
  match parseSandboxID id with
  | Err e => r = Return (Err e) /\ s' = s
  | Ok (instanceID, sid) =>
      match instances s.1 !! instanceID with
      | None => (exists e, r = Return (Err e) /\ isSentinel InstanceNotFound e = true) /\ s' = s
      | Some p => exists mi, heap s.1 !! p = Some mi /\ InstanceID mi = instanceID /\
          match r with
          | Return (Ok _) => counts_plus p (if bool_decide (0 < SessionCount mi) then -1 else 0) s.1 s'.1
          | Return (Err _) =>
              counts_plus p (if bool_decide (0 < SessionCount mi) &&
                  negb (routable (State mi) && bool_decide (SessionCount mi <= MaxSessions mi)) then -1 else 0) s.1 s'.1
          | Panic _ => False
          end
      end
  end.
Proof.
  intros Hok. unfold DestroySandbox, withSandbox. destruct (parseSandboxID id) as [[instanceID sid]|e]; [|done].
  unfold getInstance. rewrite fget_bind. destruct (instances s.1 !! instanceID) as [p|] eqn:Hid; [|by simpl; eauto].
  destruct (fo_entries _ _ Hok _ _ Hid) as (mi & Hp & Hmid). destruct (fo_instances _ _ Hok _ _ Hp) as (Hmi & [cl Hcl] & _).
  quiet (quiet_Now s). rewrite (onInstance_bind _ _ _ mi) by (by rewrite Hq). rewrite Hq, Hp.
  pose proof (ReleaseSession_Ok r mi) as Hrel. pose proof (ReleaseSession_count r mi) as Hn.
  pose proof (istep_identity cfg Caller mi _ (Step_release cfg r mi)) as [= _ Hcl' _ _].
  pose proof (Claim_Release_count r mi Hmi) as Hcr.
  assert (~ 0 < SessionCount mi -> ReleaseSession r mi = (Err (Text (String.app "fleet: cannot release session on instance "
    (String.app (InstanceID mi) ": session count already 0"))), mi)) as Hzero.
  { intros. unfold ReleaseSession. by rewrite bool_decide_eq_true_2 by lia. }
  destruct (ReleaseSession r mi) as [relErr mi1]. cbn [fst snd] in *.
  set (s1 := (updateInstance p mi1 s.1, s0.2) : Fleet C * W). assert (heap s1.1 !! p = Some mi1) as Hp1 by apply lookup_insert_eq.
  assert (counts_plus p (SessionCount mi1 - SessionCount mi) s.1 s1.1) as Hplus by (by apply counts_plus_update).
  clearbody s1. rewrite M_bind_eq. unfold withClient. rewrite readInstance_bind, Hp1. simpl. rewrite Hcl', Hcl.
  pose proof (quiet_Destroy cl sid s1) as Hq1. unfold fmap, M_fmap. destruct (node_DestroySandbox cl sid s1) as [rpc s2].
  cbn [fst snd] in *. destruct rpc as [[]|e]; cbn [fst snd].
  - exists mi. split_and!; [done..|]. simpl. rewrite Hq1. intros q. rewrite Hplus.
    destruct (decide (0 < SessionCount mi)) as [Hpos|Hpos].
    + rewrite Hn, (bool_decide_eq_true_2 (0 < _)) by done. destruct (bool_decide (q = p)); lia.
    + specialize (Hzero Hpos). simplify_eq. rewrite (bool_decide_eq_false_2 (0 < _)) by done. destruct (bool_decide (q = p)); lia.
  - destruct (decide (0 < SessionCount mi)) as [Hpos|Hpos].
    + rewrite (proj2 Hrel Hpos). cbn [is_Ok]. rewrite M_bind_eq, (onInstance_bind _ _ _ mi1) by (by rewrite Hq1).
      rewrite Hq1. specialize (Hcr Hpos). destruct (ClaimSession mi1) as [c mi2]. cbn [fst snd] in *. cbn.
      exists mi. split_and!; try done. rewrite (bool_decide_eq_true_2 (0 < _)) by done. intros q.
      rewrite (counts_plus_update p mi1 mi2 s1.1 Hp1 q), Hplus, Hcr. destruct (bool_decide (q = p)); [|lia].
      destruct (routable (State mi) && bool_decide (SessionCount mi <= MaxSessions mi)); simpl; lia.
    + specialize (Hzero Hpos). simplify_eq. cbn. eexists. split_and!; try done. rewrite Hq1. intros q. rewrite Hplus.
      rewrite (bool_decide_eq_false_2 (0 < _)) by done. simpl. destruct (bool_decide (q = p)); lia.
Qed.
End CreateSpec.
End Quiet.
