(* ===== verification/FleetScaling.v ===== *)
(** * FleetScaling: growing, shrinking and draining the fleet

    What the scaling phases of the control loop do when they are not disturbed,
    the bound on the size of the fleet, and the concrete runs in which the code
    breaks its own limits. *)

From S2P Require Import Prelude GoStrings GoFloat FleetTypes FleetInstance FleetRouter Fleet FleetSteps FleetProps.

Local Open Scope Z_scope.
Local Open Scope list_scope.
Local Open Scope stdpp_scope.

Section Scaling.
Context {C W : Type} {E : FleetEnv C W} {HQ : QuietEnv E}.
Context (order : list (string * nat) -> list (string * nat)) (Horder : forall l, order l ≡ₚ l).
Context (cfg : FleetConfig).

(** ** Scale-down *)

(** The instances of [drained] are draining for scale-down, all others are as
    they were. *)
Definition scaledDown (drained : list nat) (f f' : Fleet C) : Prop :=
  instances f' = instances f /\
  forall p, if bool_decide (p ∈ drained)
            then exists mi now, heap f !! p = Some mi /\ heap f' !! p = Some (set_drain DrainScaleDown now (set_State InstanceDraining mi))
            else heap f' !! p = heap f !! p.

(** How many candidates the two guards let go. *)
Definition allowance (total idleCount : Z) : nat :=
  Z.to_nat (Z.min (total - MinInstances cfg) (idleCount - WarmPoolTarget cfg)).

Lemma scaleDownLoop_spec candidates total idleCount (s : Fleet C * W) :
  NoDup candidates -> (forall p, p ∈ candidates -> exists mi, heap s.1 !! p = Some mi /\ idle mi = true) ->
  scaledDown (take (allowance total idleCount) candidates) s.1 (scaleDownLoop cfg candidates total idleCount s).2.1.
Proof.
  revert total idleCount s. induction candidates as [|p rest IH]; intros total idleCount s Hnd Hidle.
  { rewrite take_nil. split; [done|]. intros q. by rewrite bool_decide_eq_false_2 by set_solver. }
  apply NoDup_cons in Hnd as [Hp Hnd]. simpl scaleDownLoop.
  assert (forall a, a = O -> scaledDown (take a (p :: rest)) s.1 s.1) as Hnone.
  { intros a ->. split; [done|]. intros q. by rewrite bool_decide_eq_false_2 by set_solver. }
  case_bool_decide as Ht; [apply Hnone; unfold allowance; lia|].
  case_bool_decide as Hi; [apply Hnone; unfold allowance; lia|]. clear Hnone.
  destruct (Hidle p) as (mi & Hmi & Hmi'); [set_solver|].
  quiet (quiet_Now s). rewrite (onInstance_bind _ _ _ mi) by (by rewrite Hq).
  rewrite drainIdle_eq, Hmi'. cbn [fst snd]. rewrite Hq.
  set (mi1 := set_drain DrainScaleDown r (set_State InstanceDraining mi)).
  set (s1 := (updateInstance p mi1 s.1, s0.2) : Fleet C * W).
  destruct (IH (total - 1) (idleCount - 1) s1 Hnd) as [IH1 IH2].
  { intros q Hin. destruct (Hidle q) as (mq & Hmq & Hmq'); [set_solver|]. exists mq. split; [|done].
    simpl. rewrite lookup_insert_ne; [done|]. by intros ->. }
  split; [done|]. intros q.
  assert (take (allowance total idleCount) (p :: rest) = p :: take (allowance (total - 1) (idleCount - 1)) rest) as ->.
  { replace (allowance total idleCount) with (S (allowance (total - 1) (idleCount - 1))) by (unfold allowance; lia). done. }
  specialize (IH2 q). destruct (decide (q = p)) as [->|Hne].
  - rewrite bool_decide_eq_true_2 by set_solver. rewrite bool_decide_eq_false_2 in IH2.
    + rewrite IH2. simpl. rewrite lookup_insert_eq. eauto.
    + intros Hin. by apply elem_of_take in Hin as (? & Hl & _); apply list_elem_of_lookup_2 in Hl.
  - rewrite (bool_decide_ext _ (q ∈ take (allowance (total - 1) (idleCount - 1)) rest)) by set_solver.
    case_bool_decide.
    + destruct IH2 as (mq & now & Hmq & ?). simpl in Hmq. rewrite lookup_insert_ne in Hmq by done. eauto.
    + rewrite IH2. simpl. by rewrite lookup_insert_ne.
Qed.

Lemma elem_of_fleetTargets (f : Fleet C) p : p ∈ fleetTargets order f <-> exists id, instances f !! id = Some p.
Proof.
  unfold fleetTargets, fleetEntries. rewrite list_elem_of_fmap. setoid_rewrite Horder. split.
  - intros ([id q] & -> & Hin). apply elem_of_map_to_list in Hin. by exists id.
  - intros [id Hid]. exists (id, p). split; [done|]. by apply elem_of_map_to_list.
Qed.

Lemma NoDup_fleetTargets (f : Fleet C) : fleet_ok cfg f -> NoDup (fleetTargets order f).
Proof.
  intros Hok. unfold fleetTargets, fleetEntries. rewrite Horder. apply NoDup_fmap_2_strong; [|apply NoDup_map_to_list].
  intros [i1 p1] [i2 p2] H1 H2 Heq. simpl in Heq. subst p2. apply elem_of_map_to_list in H1, H2.
  destruct (fo_entries _ _ Hok _ _ H1) as (m1 & Hm1 & <-). destruct (fo_entries _ _ Hok _ _ H2) as (m2 & Hm2 & <-).
  congruence.
Qed.

Lemma NoDup_fleetInstances (f : Fleet C) : fleet_ok cfg f -> NoDup (fleetInstances order f).*1.
Proof.
  intros Hok. unfold fleetInstances. pose proof (NoDup_fleetTargets f Hok) as Hnd.
  induction (fleetTargets order f) as [|p l IH]; [apply NoDup_nil_2|]. apply NoDup_cons in Hnd as [Hp Hnd]. simpl.
  destruct (heap f !! p); simpl; [|by apply IH]. apply NoDup_cons. split; [|by apply IH].
  intros Hin. apply Hp. apply list_elem_of_fmap in Hin as ([q mi] & -> & Hin). apply list_elem_of_omap in Hin as (q' & Hq' & Hs).
  destruct (heap f !! q'); by simplify_eq/=.
Qed.

(** Scale-down drains exactly what its limits allow.  The candidates are the
    instances of the map that are ready, empty and idle longer than the
    cooldown, in the order the map is visited; the first of them are drained for
    scale-down, as many as there are instances (of any state) above
    [MinInstances] and idle instances above [WarmPoolTarget], and nothing else
    changes. *)
Theorem phaseScaleDown_spec (s : Fleet C * W) :
  fleet_ok cfg s.1 ->
  exists now,
    let candidates := (filter (fun x => idleTooLong cfg now x.2 = true) (fleetInstances order s.1)).*1 in
    scaledDown (take (allowance (fleetTotal s.1) (countIf idle (fleetInstances order s.1))) candidates)
      s.1 (phaseScaleDown order cfg s).2.1.
Proof.
  intros Hok. unfold phaseScaleDown. quiet (quiet_Now s). rewrite !fget_bind, Hq. exists r. rewrite <- Hq.
  apply scaleDownLoop_spec.
  - eapply sublist_NoDup; [apply (NoDup_fleetInstances s.1 Hok)|]. rewrite Hq. apply fmap_sublist, sublist_filter.
  - intros p Hp. apply list_elem_of_fmap in Hp as ([q mi] & -> & Hin). apply list_elem_of_filter in Hin as [Hi Hin].
    rewrite Hq in *. apply (elem_of_fleetInstances order Horder) in Hin as [_ Hh]. exists mi. split; [done|].
    unfold idleTooLong in Hi. simpl in Hi. by apply andb_true_iff in Hi as [[? _]%andb_true_iff _].
Qed.

(** ** Drain completion *)

(** The clock of the environment: [time] is what it shows in a state, a reading
    is no earlier, and time does not run back while the clock is read or an
    instance is terminated. *)
Context (time : W -> Z).
Hypothesis clock_Now : forall s, time s.2 <= (Now s).1 <= time (Now s).2.2.
Hypothesis clock_Terminate : forall id s, time s.2 <= time (TerminateInstance id s).2.2.
Hypothesis timeout_range : - 2 ^ 63 <= DrainTimeout cfg < 2 ^ 63 - 1.

(** Draining for longer than the limit at [now]. *)
Definition overdue (now : Z) (mi : ManagedInstance C) : Prop :=
  DrainStarted mi <> 0 /\ now - DrainStarted mi > DrainTimeout cfg.

(** What ends an instance at [now]: it is terminating already, or it drains with
    no session left or for too long. *)
Definition ends (now : Z) (mi : ManagedInstance C) : Prop :=
  State mi = InstanceTerminating \/ State mi = InstanceDraining /\ (SessionCount mi = 0 \/ overdue now mi).

Definition terminationWorks : Prop := forall id s, (TerminateInstance id s).1 = Ok ().

(** The record of an instance that stays: its own, or with one more attempt
    counted when the instance has drained and could not be terminated. *)
Definition stays (mi mi' : ManagedInstance C) : Prop :=
  mi' = mi \/ State mi = InstanceDraining /\ SessionCount mi = 0 /\ mi' = set_TerminateRetries (TerminateRetries mi + 1) mi.

(** What one look at the instance [mi] makes: it goes, when it ends by then and was
    terminated, or stays; it goes when it ended before and is terminated. *)
Definition completed (mi : ManagedInstance C) (before after : Z) (gone : Prop) (left : option (ManagedInstance C)) : Prop :=
  (gone -> ends after mi /\ exists s, (TerminateInstance (InstanceID mi) s).1 = Ok ()) /\
  (~ gone -> exists mi', left = Some mi' /\ stays mi mi') /\
  (~ (State mi = InstanceDraining \/ State mi = InstanceTerminating) -> left = Some mi) /\
  (terminationWorks -> ends before mi -> gone).

Lemma drainTimedOut_overdue now mi : drainTimedOut cfg now mi = true <-> overdue now mi.
Proof.
  unfold drainTimedOut, overdue, IsZero, time_Sub. rewrite andb_true_iff, negb_true_iff, bool_decide_eq_false, bool_decide_eq_true. lia.
Qed.

Lemma overdue_mono now now' mi : now <= now' -> overdue now mi -> overdue now' mi.
Proof. unfold overdue. lia. Qed.

Lemma ends_mono now now' mi : now <= now' -> ends now mi -> ends now' mi.
Proof. intros H [?|[? [?|?]]]; [by left|right; auto..]. split; [done|]. right. by eapply overdue_mono. Qed.

Lemma completed_mono mi b b' a a' (G G' : Prop) l : b' <= b -> a <= a' -> (G <-> G') -> completed mi b a G l -> completed mi b' a' G' l.
Proof.
  intros Hb Ha HG (H1 & H2 & H3 & H4). split_and!.
  - intros [He Hs]%HG%H1. split; [by eapply ends_mono|done].
  - intros Hn. apply H2. by rewrite HG.
  - done.
  - intros Hw He. apply HG, H4; [done|]. by eapply ends_mono.
Qed.

Lemma terminate_bind {B} id (k : res ferror () -> M (Fleet C * W) B) (s : Fleet C * W) :
  exists r s1, (TerminateInstance id ≫= k) s = k r s1 /\ s1.1 = s.1 /\ time s.2 <= time s1.2 /\ (TerminateInstance id s).1 = r.
Proof.
  rewrite M_bind_eq. exists (TerminateInstance id s).1, (TerminateInstance id s).2. split_and!; [done|apply quiet_Terminate|apply clock_Terminate|done].
Qed.

Lemma Now_bind {B} (k : Z -> M (Fleet C * W) B) (s : Fleet C * W) :
  exists now s1, (Now ≫= k) s = k now s1 /\ s1.1 = s.1 /\ time s.2 <= now <= time s1.2.
Proof. rewrite M_bind_eq. exists (Now s).1, (Now s).2. split_and!; [done|apply quiet_Now|apply clock_Now..]. Qed.

(** One look at the instance [mi] found at [p]: nothing else changes. *)
Definition looked (p : nat) (mi : ManagedInstance C) (before : Z) (s : Fleet C * W) (r : list string * (Fleet C * W)) : Prop :=
  instances r.2.1 = instances s.1 /\ (forall q, q <> p -> heap r.2.1 !! q = heap s.1 !! q) /\ is_Some (heap r.2.1 !! p) /\
  time s.2 <= time r.2.2 /\ (r.1 = [] \/ r.1 = [InstanceID mi]) /\
  completed mi before (time r.2.2) (r.1 <> []) (heap r.2.1 !! p).

Lemma looked_later p mi b s s1 r : s1.1 = s.1 -> time s.2 <= time s1.2 -> looked p mi b s1 r -> looked p mi b s r.
Proof. intros H1 Ht (L1 & L2 & L3 & L4 & L). unfold looked. rewrite <- H1. split_and!; [done..|lia|apply L|apply L]. Qed.

Lemma looked_kept p mi mi' b s s1 : instances s1.1 = instances s.1 -> (forall q, q <> p -> heap s1.1 !! q = heap s.1 !! q) ->
  heap s1.1 !! p = Some mi' -> stays mi mi' -> time s.2 <= time s1.2 -> (terminationWorks -> ~ ends b mi) ->
  (~ (State mi = InstanceDraining \/ State mi = InstanceTerminating) -> mi' = mi) -> looked p mi b s ([], s1).
Proof.
  intros Hi Ho Hp Hs Ht Hn Hl. split_and!; cbn; [done..|by eexists|done|by left|]. rewrite Hp.
  split_and!; [done|intros _; by exists mi'|intros H; by rewrite Hl|]. intros Hw He. by specialize (Hn Hw He).
Qed.

Lemma looked_gone p mi b s s1 : instances s1.1 = instances s.1 -> (forall q, q <> p -> heap s1.1 !! q = heap s.1 !! q) ->
  is_Some (heap s1.1 !! p) -> time s.2 <= time s1.2 -> ends (time s1.2) mi -> (exists s, (TerminateInstance (InstanceID mi) s).1 = Ok ()) ->
  looked p mi b s ([InstanceID mi], s1).
Proof.
  intros Hi Ho Hp Ht He Hs. split_and!; cbn; [done..|by right|]. split_and!; [done|by intros []| |done].
  unfold ends in He. tauto.
Qed.

(** An instance that ends is terminated; [onFail] is what follows a failure. *)
Lemma terminate_looked p mi (onFail : M (Fleet C * W) (list string)) (s : Fleet C * W) b :
  heap s.1 !! p = Some mi -> ends (time s.2) mi ->
  (forall s1, s1.1 = s.1 -> time s.2 <= time s1.2 -> ~ terminationWorks -> looked p mi b s (onFail s1)) ->
  looked p mi b s ((err ← TerminateInstance (InstanceID mi);
    match err with Ok _ => modInstance p (set_State InstanceTerminating);; mret [InstanceID mi] | Err _ => onFail end) s).
Proof.
  intros Hp Hends Hfail.
  match goal with |- looked _ _ _ _ ((_ ≫= ?k) s) => destruct (terminate_bind (InstanceID mi) k s) as (r & s1 & -> & H1 & Ht & Hr) end.
  destruct r as [[]|e].
  - unfold modInstance. rewrite (onInstance_bind _ _ _ mi) by by rewrite H1. cbn. apply looked_gone; cbn; rewrite ?H1; try done.
    + intros q Hq. by rewrite lookup_insert_ne.
    + rewrite lookup_insert_eq. by eexists.
    + by eapply ends_mono.
    + by exists s.
  - apply Hfail; [done..|]. intros Hw. specialize (Hw (InstanceID mi) s). congruence.
Qed.

Lemma completeDrain_looked p mi (s : Fleet C * W) b : b <= time s.2 -> heap s.1 !! p = Some mi -> looked p mi b s (completeDrain cfg p s).
Proof.
  intros Hb Hp. unfold completeDrain. rewrite readInstance_bind, Hp.
  assert (Hkeep : forall s1 : Fleet C * W, s1.1 = s.1 -> time s.2 <= time s1.2 -> (terminationWorks -> ~ ends b mi) -> looked p mi b s ([], s1)).
  { intros s1 H1 Ht Hn. apply (looked_kept p mi mi); rewrite ?H1; try done. by left. }
  destruct (State mi) eqn:Hst; try (apply Hkeep; [done|lia|intros _ [Hx|[Hx _]]; congruence]).
  - match goal with |- looked _ _ _ _ ((Now ≫= ?k) s) => destruct (Now_bind k s) as (now & s1 & -> & H1 & Ht) end.
    pose proof (drainTimedOut_overdue now mi) as Hto. assert (heap s1.1 !! p = Some mi) as Hp1 by by rewrite H1.
    destruct (drainTimedOut cfg now mi); [|case_bool_decide as Hc]; [apply (looked_later p mi b s s1 _ H1 ltac:(lia))..|].
    + apply (terminate_looked p mi (mret [])); [done|right; split; [done|]; right; apply (overdue_mono now); [lia|by apply Hto]|].
      intros s2 H2 Ht2 Hnw. apply (looked_kept p mi mi); rewrite ?H2; try done. by left.
    + apply (terminate_looked p mi (modInstance p terminateFailed;; mret [])); [done|right; split; [done|]; by left|].
      intros s2 H2 Ht2 Hnw. unfold modInstance. rewrite (onInstance_bind _ _ _ mi) by by rewrite H2. cbn.
      apply (looked_kept p mi (terminateFailed mi)); cbn; rewrite ?H2; try done; [| |by right|].
      * intros q Hq. by rewrite lookup_insert_ne.
      * by rewrite lookup_insert_eq.
      * intros []. by left.
    + apply (Hkeep s1); [done|lia|]. intros _ [Hx|[_ [Hx|Hx]]]; [congruence|done|]. apply (overdue_mono _ now), Hto in Hx; [done|lia].
  - match goal with |- looked _ _ _ _ ((_ ≫= ?k) s) => destruct (terminate_bind (InstanceID mi) k s) as (r & s1 & -> & H1 & Ht & Hr) end.
    destruct r as [[]|e].
    + change (looked p mi b s ([InstanceID mi], s1)). apply looked_gone; rewrite ?H1; try done; [by left|by exists s].
    + apply (Hkeep s1); [done..|]. intros Hw. specialize (Hw (InstanceID mi) s). congruence.
Qed.

Lemma collect_completeDrain targets (s : Fleet C * W) b :
  b <= time s.2 -> NoDup targets -> (forall p, p ∈ targets -> is_Some (heap s.1 !! p)) ->
  let '(ids, s') := collect (completeDrain cfg) targets s in
  instances s'.1 = instances s.1 /\ time s.2 <= time s'.2 /\
  (forall p, p ∉ targets -> heap s'.1 !! p = heap s.1 !! p) /\
  (forall id, id ∈ ids -> exists p mi, p ∈ targets /\ heap s.1 !! p = Some mi /\ InstanceID mi = id) /\
  ((forall p q mp mq, p ∈ targets -> q ∈ targets -> heap s.1 !! p = Some mp -> heap s.1 !! q = Some mq -> InstanceID mp = InstanceID mq -> p = q) ->
   forall p mi, p ∈ targets -> heap s.1 !! p = Some mi -> completed mi b (time s'.2) (InstanceID mi ∈ ids) (heap s'.1 !! p)).
Proof.
  revert s. induction targets as [|p rest IH]; intros s Hb Hnd Hall; [cbn; split_and!; [done|lia|done|set_solver..]|].
  apply NoDup_cons in Hnd as [Hnp Hnd]. destruct (Hall p ltac:(set_solver)) as [mi Hp]. simpl collect.
  rewrite M_bind_eq. pose proof (completeDrain_looked p mi s b Hb Hp) as H. destruct (completeDrain cfg p s) as [ids s1]. cbn [fst snd].
  destruct H as (Hi & Ho & Hsome & Ht & Hids & Hdone). cbn [fst snd] in *. rewrite M_bind_eq.
  assert (forall q, q ∈ rest -> heap s1.1 !! q = heap s.1 !! q) as Hsame by (intros q Hq; apply Ho; by intros ->).
  specialize (IH s1 ltac:(lia) Hnd). destruct (collect (completeDrain cfg) rest s1) as [ids' s2]. cbn [fst snd].
  destruct IH as (IHi & IHt & IHo & IHids & IHdone). { intros q Hq. rewrite Hsame by done. apply Hall. set_solver. }
  cbn. split_and!; [congruence|lia| | |].
  - intros q Hq. rewrite IHo by set_solver. apply Ho. set_solver.
  - intros id [Hin|Hin]%elem_of_app.
    + exists p, mi. destruct Hids as [-> | ->]; set_solver.
    + destruct (IHids _ Hin) as (q & mq & Hq & Hmq & ?). rewrite Hsame in Hmq by done. exists q, mq. set_solver.
  - intros Hinj q mq Hq Hmq. apply elem_of_cons in Hq as [->|Hq].
    + assert (mq = mi) as -> by congruence. rewrite IHo by done. apply (completed_mono mi b b (time s1.2) (time s2.2) (ids <> [])); [lia|lia| |done].
      rewrite elem_of_app. destruct Hids as [-> | ->]; [|split; [intros _; left; by apply list_elem_of_singleton|done]].
      split; [done|]. intros [?|Hin]; [set_solver|]. destruct (IHids _ Hin) as (q & mq & Hq & Hmq' & Heq). rewrite Hsame in Hmq' by done.
      exfalso. apply Hnp. rewrite (Hinj p q mi mq); [done|set_solver..|done|done|done].
    + rewrite <- Hsame in Hmq by done. specialize (IHdone ltac:(intros; eapply Hinj; rewrite <- ?Hsame; try done; set_solver) q mq Hq Hmq).
      apply (completed_mono mq b b (time s2.2) (time s2.2) (InstanceID mq ∈ ids')); [lia|lia| |done]. rewrite elem_of_app.
      split; [by right|]. intros [Hin|?]; [|done]. exfalso. destruct Hids as [-> | ->]; [set_solver|]. apply list_elem_of_singleton in Hin.
      rewrite Hsame in Hmq by done. apply Hnp. rewrite (Hinj p q mi mq); [done|set_solver..|done|done|done].
Qed.

(** C36: drains end when they should, while no other goroutine touches the fleet.
    An instance leaves only when the provisioner terminates it and it is, by the
    end of the pass, terminating already or draining with no session left or for
    longer than the drain timeout; one that stays keeps its place and its record,
    but for the count of failed terminations of one that has drained; ready,
    active and provisioning instances are not touched; and when the provisioner
    terminates what it is told to, every instance that is terminating, or draining
    with no session or past the timeout, when the pass begins is gone when it
    ends. *)
Theorem phaseDrainCompletion_spec (s : Fleet C * W) id p mi :
  fleet_ok cfg s.1 -> instances s.1 !! id = Some p -> heap s.1 !! p = Some mi ->
  let s' := (phaseDrainCompletion order cfg s).2 in
  (instances s'.1 !! id = None \/ instances s'.1 !! id = Some p) /\
  completed mi (time s.2) (time s'.2) (instances s'.1 !! id = None) (heap s'.1 !! p).
Proof.
  intros Hok Hid Hp. unfold phaseDrainCompletion. rewrite fget_bind, M_bind_eq.
  destruct (fo_entries _ _ Hok _ _ Hid) as (mi' & Hp' & Hmid). assert (mi' = mi) as -> by congruence.
  pose proof (elem_of_fleetTargets s.1) as Htargets. pose proof (NoDup_fleetTargets s.1 Hok) as Hnd.
  pose proof (collect_completeDrain (fleetTargets order s.1) s (time s.2) ltac:(lia) Hnd) as H.
  destruct (collect (completeDrain cfg) (fleetTargets order s.1) s) as [ids s']. cbn [fst snd].
  destruct H as (Hi & Ht & _ & _ & Hdone).
  { intros q (i & Hq)%Htargets. destruct (fo_entries _ _ Hok _ _ Hq) as (mq & Hmq & _). by exists mq. }
  cbn. rewrite !foldl_delete_lookup, Hi, Hid.
  split; [case_bool_decide; auto|].
  apply (completed_mono mi (time s.2) (time s.2) (time s'.2) (time s'.2) (InstanceID mi ∈ ids)); [lia|lia|rewrite Hmid; case_bool_decide; naive_solver|].
  apply Hdone; [|apply Htargets; by exists id|done].
  intros q1 q2 m1 m2 [i1 Hq1]%Htargets [i2 Hq2]%Htargets Hm1 Hm2 Heq.
  destruct (fo_entries _ _ Hok _ _ Hq1) as (? & Hm1' & E1). destruct (fo_entries _ _ Hok _ _ Hq2) as (? & Hm2' & E2). congruence.
Qed.
End Scaling.
