(* ===== verification/FleetDemo.v ===== *)
(** * FleetDemo: a small cloud, and the runs in which limits break

    A concrete environment: a cloud that launches and terminates on demand and
    nodes that answer.  On it the fleet's theorems apply, and three runs show
    where the code does not keep its own limits. *)

From S2P Require Import Prelude GoStrings GoFloat FleetTypes FleetInstance FleetRouter Fleet FleetSteps FleetProps FleetScaling.

Local Open Scope Z_scope.
Local Open Scope string_scope.
Local Open Scope list_scope.
Local Open Scope stdpp_scope.

Record cloud : Type := mkCloud { clock : Z; launched : Z; terminated : list string; nodesFail : bool }.

Notation demo := (Fleet string * cloud)%type.

Definition answer {A} (a : A) : M demo (res ferror A) :=
  fun s => (if nodesFail s.2 then Err (Text "node unreachable") else Ok a, s).

Definition launchNext : M demo (res ferror InstanceInfo) := fun s =>
  let n := launched s.2 + 1 in
  (Ok (mkInstanceInfo (String.app "i-" (pretty n)) (String.app "10.0.0." (pretty n)) "" CloudInstanceRunning 0 ∅),
   (s.1, mkCloud (clock s.2) n (terminated s.2) (nodesFail s.2))).

Definition terminateOne (id : string) : M demo (res ferror ()) := fun s =>
  (Ok (), (s.1, mkCloud (clock s.2) (launched s.2) (terminated s.2 ++ [id]) (nodesFail s.2))).

Definition cloudEnv : FleetEnv string cloud := {|
  Now := fun s => (clock s.2, s);
  preempt := mret ();
  LaunchInstance _ := launchNext;
  TerminateInstance := terminateOne;
  ListInstances _ := mret (Ok []);
  clientFactory addr := mret (Ok addr);
  node_CreateSandbox _ _ := answer (mkCreateSandboxResponse "s-1" "" (Capabilities DefaultFleetConfig));
  node_DestroySandbox _ _ := answer ();
  node_LaunchProcess _ _ := answer (mkLaunchProcessResponse "p-1" "" ProcessStarting);
  node_KillProcess _ _ := answer ();
  node_GetProcessStatus _ _ := answer (mkGetProcessStatusResponse ProcessRunning None);
  node_PauseSandbox _ _ := answer ();
  node_ResumeSandbox _ _ := answer ();
  node_HealthCheck _ := answer (mkHealthCheckResult "ok" 0 0 0 []);
|}.

Lemma cloudEnv_quiet : QuietEnv cloudEnv.
Proof. split; try done. intros c s r. simpl. unfold answer. destruct (nodesFail s.2); [done|]. by intros [= <-]. Qed.
#[local] Existing Instance cloudEnv.

Definition order_id (l : list (string * nat)) : list (string * nat) := l.
Lemma order_id_perm l : order_id l ≡ₚ l.
Proof. done. Qed.

Definition config (minInstances maxInstances warm : Z) : FleetConfig :=
  mkFleetConfig zeroInstanceConfig minInstances maxInstances warm 10 (literal 8 10) (15 * Second) 3 3
    (10 * Minute) (30 * Minute) (5 * Minute) 3 5 false 9100.

Definition request : CreateSandboxRequest := mkCreateSandboxRequest ∅ "" (mkResourceSpec (float_of 1) 512).

Definition host (id : string) (st : InstanceState) (sessions : Z) (r : DrainReason) (idleSince drainStarted : Z)
  : ManagedInstance string :=
  mkManagedInstance id st (Some "10.0.0.9:9100") sessions 10 "10.0.0.9" 0 0 r idleSince 0 drainStarted 0.

Definition fleetOf (l : list (ManagedInstance string)) : Fleet string :=
  mkFleet string (list_to_map (imap (fun i mi => (InstanceID mi, i)) l)) (list_to_map (imap (fun i mi => (i, mi)) l)) false 0 0.

Definition noon : Z := 60 * Minute.
Definition upcloud : cloud := mkCloud noon 0 [] false.

(** ** A failed destroy on a draining host *)

Definition drainingHost : Fleet string := fleetOf [host "i-1" InstanceDraining 1 DrainHealth 0 noon].

(** A sandbox can lose its host because destroying it failed.  One session
    runs on a draining instance; DestroySandbox gives its slot back before the
    call, the node does not answer, and the roll-back is refused because the
    instance drains.  The sandbox still exists but is no longer counted, and the
    next pass of the drain phase terminates the instance under it. *)
Theorem failed_destroy_kills_host :
  let '(r, s1) := DestroySandbox "fleet:i-1:s-1" (drainingHost, mkCloud noon 1 [] true) in
  let '(_, s2) := phaseDrainCompletion order_id (config 1 50 2) s1 in
  r = Return (Err (Text "node unreachable")) /\ count s1.1 0 = 0 /\
  terminated s2.2 = ["i-1"] /\ instances s2.1 = ∅.
Proof. vm_compute. split_and!; reflexivity. Qed.

(** On an active host the same failure keeps the slot. *)
Example failed_destroy_active :
  let '(_, s1) := DestroySandbox "fleet:i-1:s-1" (fleetOf [host "i-1" InstanceActive 1 DrainNone 0 0], mkCloud noon 1 [] true) in
  count s1.1 0 = 1 /\ State <$> heap s1.1 !! 0%nat = Some InstanceActive.
Proof. vm_compute. split; reflexivity. Qed.

(** ** The ceiling *)

(** While the first caller waits for its launch, another goroutine's
    CreateSandbox runs. *)
Definition racingEnv (cfg : FleetConfig) : FleetEnv string cloud := {|
  Now := Now;
  preempt := preempt;
  LaunchInstance ic := CreateSandbox order_id cfg request;; LaunchInstance ic;
  TerminateInstance := TerminateInstance;
  ListInstances := ListInstances;
  clientFactory := clientFactory;
  node_CreateSandbox := node_CreateSandbox;
  node_DestroySandbox := node_DestroySandbox;
  node_LaunchProcess := node_LaunchProcess;
  node_KillProcess := node_KillProcess;
  node_GetProcessStatus := node_GetProcessStatus;
  node_PauseSandbox := node_PauseSandbox;
  node_ResumeSandbox := node_ResumeSandbox;
  node_HealthCheck := node_HealthCheck;
|}.

(** Its interference is that of a caller. *)
Lemma racingEnv_law cfg : FleetLaw cfg callers (racingEnv cfg).
Proof.
  pose proof (quiet_law (HQ := cloudEnv_quiet) cfg callers) as Hlaw.
  split; try apply Hlaw. intros ic. apply guarantees_bind.
  - by apply (g_CreateSandbox order_id cfg callers).
  - intros _. apply Hlaw.
Qed.

(** The ceiling can be broken.  Two callers find an empty fleet that may
    have one instance; each sees no instance, and each launches one: the check
    against [MaxInstances] is made before the launch and not again when the
    instance is added. *)
Theorem max_instances_race :
  let cfg := config 0 1 0 in
  Validate cfg = Ok () /\
  let '(r, s) := @CreateSandbox _ _ (racingEnv cfg) order_id cfg request (fleetOf [], upcloud) in
  is_Ok (match r with Return r => r | Panic _ => Err ErrNoCapacity end) = true /\
  fleetTotal s.1 = 2 /\ MaxInstances cfg = 1.
Proof. vm_compute. split_and!; reflexivity. Qed.

(** One after the other, the second caller uses the first one's instance. *)
Example sequential_callers :
  let cfg := config 0 1 0 in
  fleetTotal ((CreateSandbox order_id cfg request;; CreateSandbox order_id cfg request) (fleetOf [], upcloud)).2.1 = 1.
Proof. vm_compute. reflexivity. Qed.

(** ** The floor *)

Definition twoIdleOneDraining : Fleet string :=
  fleetOf [host "i-1" InstanceReady 0 DrainNone 1 0; host "i-2" InstanceReady 0 DrainNone 1 0;
           host "i-3" InstanceDraining 1 DrainHealth 0 noon].

(** The floor can be broken.  Scale-down compares [MinInstances] with the
    number of all instances, the draining ones included.  With a floor of two,
    one of two idle instances is drained because a third one is still draining;
    when both drains are done one instance is left, and the next iteration does
    not launch another, because scale-up looks at the warm pool only. *)
Theorem scale_down_below_min :
  let cfg := config 2 50 0 in
  Validate cfg = Ok () /\
  let '(_, s1) := runIteration order_id cfg (twoIdleOneDraining, upcloud) in
  let '(_, s2) := runIteration order_id cfg s1 in
  fleetTotal s1.1 = 1 /\ fleetTotal s2.1 = 1 /\ launched s2.2 = 0 /\ MinInstances cfg = 2.
Proof. vm_compute. split_and!; reflexivity. Qed.

(** ** Witnesses *)

Lemma fleetOf_ok cfg l :
  MaxSessionsPerInstance cfg = 10 -> NoDup (InstanceID <$> l) ->
  Forall (fun mi => instance_ok mi /\ is_Some (Client mi) /\ MaxSessions mi = 10) l -> fleet_ok cfg (fleetOf l).
Proof.
  intros Hcfg Hnd Hall. rewrite Forall_forall in Hall.
  assert (forall p mi, heap (fleetOf l) !! p = Some mi <-> l !! p = Some mi) as Hheap.
  { intros p mi. simpl. split; intros H.
    - apply elem_of_list_to_map_2 in H. apply elem_of_lookup_imap in H as (i & x & [= -> ->] & ?). done.
    - apply elem_of_list_to_map_1'.
      + intros y Hy. apply elem_of_lookup_imap in Hy as (i & x & [= -> ->] & ?). congruence.
      + apply elem_of_lookup_imap. by exists p, mi. }
  split.
  - intros id p H. simpl in H. apply elem_of_list_to_map_2, elem_of_lookup_imap in H as (i & mi & [= -> ->] & Hl).
    exists mi. split; [by apply Hheap|done].
  - intros p mi H%Hheap. rewrite Hcfg. apply Hall. by eapply list_elem_of_lookup_2.
Qed.

Lemma host_ok id st n r t d :
  (st = InstanceReady /\ n = 0 /\ r = DrainNone /\ d = 0) \/ (st = InstanceActive /\ 0 < n /\ r = DrainNone /\ t = 0 /\ d = 0) \/
  (st = InstanceDraining /\ 0 <= n /\ (r = DrainHealth \/ r = DrainScaleDown)) ->
  instance_ok (host id st n r t d) /\ is_Some (Client (host id st n r t d)) /\ MaxSessions (host id st n r t d) = 10.
Proof.
  intros H. split; [|split; [by eexists|done]]. split; simpl; try lia; intros Hs; destruct H as [H|[H|H]]; destruct_and!; subst; naive_solver.
Qed.

Definition threeHosts : Fleet string :=
  fleetOf [host "i-1" InstanceActive 4 DrainNone 0 0; host "i-2" InstanceReady 0 DrainNone 1 0; host "i-3" InstanceDraining 0 DrainHealth 0 noon].

Lemma threeHosts_ok cfg : MaxSessionsPerInstance cfg = 10 -> fleet_ok cfg threeHosts.
Proof.
  intros Hcfg. apply fleetOf_ok; [done| |].
  - vm_compute. repeat constructor; set_solver.
  - repeat (apply Forall_cons_2; [apply host_ok; naive_solver lia|]). by apply Forall_nil_2.
Qed.

Lemma CreateSandbox_spec_witness :
  let s := (threeHosts, upcloud) in
  let '(r, s') := CreateSandbox order_id DefaultFleetConfig request s in
  created DefaultFleetConfig s r s' /\ (closed s.1 = true -> r = Return (Err ErrFleetClosed) /\ s' = s).
Proof.
  apply (CreateSandbox_spec (HQ := cloudEnv_quiet) order_id order_id_perm DefaultFleetConfig ltac:(vm_compute; split; discriminate)
    request (threeHosts, upcloud)).
  apply threeHosts_ok. reflexivity.
Defined.

Lemma DestroySandbox_spec_witness :
  let s := (threeHosts, upcloud) in
  let '(r, s') := DestroySandbox "fleet:i-1:s-1" s in
  match parseSandboxID "fleet:i-1:s-1" with
  | Err e => r = Return (Err e) /\ s' = s
  | Ok (instanceID, sid) =>
      match instances s.1 !! instanceID with
      | None => (exists e, r = Return (Err e) /\ isSentinel InstanceNotFound e = true) /\ s' = s
      | Some p => exists mi, heap s.1 !! p = Some mi /\ InstanceID mi = instanceID /\
          match r with
          | Return (Ok _) => counts_plus p (if bool_decide (0 < SessionCount mi) then -1 else 0) s.1 s'.1
          | Return (Err _) =>
              counts_plus p (if bool_decide (0 < SessionCount mi) &&
                  negb (routable (State mi) && bool_decide (SessionCount mi <= MaxSessions mi)) then -1 else 0) s.1 s'.1
          | Panic _ => False
          end
      end
  end.
Proof.
  apply (DestroySandbox_spec (HQ := cloudEnv_quiet) DefaultFleetConfig "fleet:i-1:s-1" (threeHosts, upcloud)).
  apply threeHosts_ok. reflexivity.
Defined.

Lemma phaseScaleDown_spec_witness :
  let s := (threeHosts, upcloud) in
  exists now,
    let candidates := (filter (fun x => idleTooLong DefaultFleetConfig now x.2 = true) (fleetInstances order_id s.1)).*1 in
    scaledDown (take (allowance DefaultFleetConfig (fleetTotal s.1) (countIf idle (fleetInstances order_id s.1))) candidates)
      s.1 (phaseScaleDown order_id DefaultFleetConfig s).2.1.
Proof.
  apply (phaseScaleDown_spec (HQ := cloudEnv_quiet) order_id order_id_perm DefaultFleetConfig (threeHosts, upcloud)).
  apply threeHosts_ok. reflexivity.
Defined.

Lemma phaseDrainCompletion_spec_witness :
  let mi := host "i-3" InstanceDraining 0 DrainHealth 0 noon in
  let s' := (phaseDrainCompletion order_id DefaultFleetConfig (threeHosts, upcloud)).2 in
  (instances s'.1 !! "i-3" = None \/ instances s'.1 !! "i-3" = Some 2%nat) /\
  completed DefaultFleetConfig mi noon noon (instances s'.1 !! "i-3" = None) (heap s'.1 !! 2%nat).
Proof.
  refine (phaseDrainCompletion_spec (HQ := cloudEnv_quiet) order_id order_id_perm DefaultFleetConfig clock _ _ _ (threeHosts, upcloud) "i-3" 2
    (host "i-3" InstanceDraining 0 DrainHealth 0 noon) _ _ _).
  - intros s. split; reflexivity.
  - intros id s. reflexivity.
  - split; vm_compute; [discriminate|reflexivity].
  - apply threeHosts_ok. reflexivity.
  - reflexivity.
  - reflexivity.
Defined.

Lemma fleet_lifecycle_witness :
  let f0 := mkFleet string ∅ ∅ false 0 0 in
  let s := (CreateSandbox order_id DefaultFleetConfig request;; mret ()) (f0, upcloud) in
  fleet_ok DefaultFleetConfig s.2.1 /\
  (forall id1 id2 p, instances s.2.1 !! id1 = Some p -> instances s.2.1 !! id2 = Some p -> id1 = id2) /\
  (forall p mi, heap s.2.1 !! p = Some mi -> exists mi', heap s.2.1 !! p = Some mi' /\ instance_ok mi' /\
     (InstanceID mi', Client mi', MaxSessions mi', IP mi') = (InstanceID mi, Client mi, MaxSessions mi, IP mi) /\
     (State mi = InstanceTerminating -> State mi' = InstanceTerminating) /\
     (doomed mi -> doomed mi' /\ is_Ok (ClaimSession mi').1 = false)).
Proof.
  intros f0 s. apply (fleet_lifecycle order_id DefaultFleetConfig f0 upcloud s.2 s.2).
  - apply DefaultFleetConfig_valid.
  - reflexivity.
  - apply rtc_once. exists cloudEnv, (ReqCreate request). split; [apply (quiet_law (HQ := cloudEnv_quiet))|reflexivity].
  - apply rtc_refl.
Defined.
