(* ===== verification/Sse.v ===== *)
(** * Sse: the server-sent-events scanner (internal/ai/sse/sse.go)

    [Scanner] over a buffered reader: [ReadSlice] of bufio with its bounded
    buffer, [readLine] that joins the pieces, [Next] with the two size limits,
    the byte-order mark and the end of the input, and [Event].  The reader
    delivers a string of bytes and then end-of-file or an error. *)

From Stdlib Require Import Ascii String.
From S2P Require Import Prelude GoStrings.

Local Open Scope Z_scope.
Local Open Scope string_scope.
Local Open Scope list_scope.

Definition defaultMaxLineBytes : Z := Z.shiftl 1 20.
Definition defaultMaxEventBytes : Z := Z.shiftl 4 20.

Definition LF : ascii := "010".
Definition CR : ascii := "013".
Definition bomPrefix : string := of_bytes [239; 187; 191].

Definition len (s : string) : Z := Z.of_nat (String.length s).

Record Event : Type := mkEvent {
  ev_type : string;
  ev_data : string;
  ev_id : string;
  ev_retry : string;
}.

#[export] Instance Event_eq_dec : EqDecision Event.
Proof. solve_decision. Defined.

Inductive sseError : Type :=
  | ReadError (msg : string)
  | ErrLineTooLarge (got limit : Z)
  | ErrEventTooLarge (got limit : Z).

(** [rd_rest] and [rd_end] are what the reader still delivers: bytes, then
    end-of-file or an error. *)
Record Scanner : Type := mkScanner {
  rd_rest : string;
  rd_end : option string;
  sc_event : Event;
  sc_err : option sseError;
  sc_dataConverted : bool;
  sc_maxLineBytes : Z;
  sc_maxEventBytes : Z;
  sc_bomStripped : bool;
  sc_dataBuf : string;
}.

Definition zeroEvent : Event := mkEvent "" "" "" "".

Definition NewScanner (input : string) (rdErr : option string) : Scanner :=
  mkScanner input rdErr zeroEvent None false defaultMaxLineBytes defaultMaxEventBytes false "".

Definition SetLimits (maxLineBytes maxEventBytes : Z) (s : Scanner) : Scanner :=
  mkScanner (rd_rest s) (rd_end s) (sc_event s) (sc_err s) (sc_dataConverted s)
    (if bool_decide (maxLineBytes > 0) then maxLineBytes else sc_maxLineBytes s)
    (if bool_decide (maxEventBytes > 0) then maxEventBytes else sc_maxEventBytes s)
    (sc_bomStripped s) (sc_dataBuf s).

(** ** Reading lines *)

Inductive sliceEnd : Type := Found | BufferFull | AtEnd.

(** bufio's [ReadSlice] of a newline with [n] bytes of buffer: the slice, what
    is left, and why it ended. *)
Fixpoint ReadSlice (n : nat) (rest : string) : string * string * sliceEnd :=
  match n, rest with
  | O, _ => ("", rest, BufferFull)
  | S _, EmptyString => ("", "", AtEnd)
  | S n', String c rest' =>
      if bool_decide (c = LF) then (String c "", rest', Found)
      else let '(line, rest'', e) := ReadSlice n' rest' in (String c line, rest'', e)
  end.

Definition bufSize : nat := Z.to_nat 4096.

(** The loop of [readLine] that joins the slices of a long line. *)
Fixpoint readLineLoop (fuel size : nat) (lineBuf rest : string) : string * string * sliceEnd :=
  let '(line, rest', e) := ReadSlice size rest in
  match e, fuel with
  | BufferFull, S fuel' => readLineLoop fuel' size (String.append lineBuf line) rest'
  | _, _ => (String.append lineBuf line, rest', e)
  end.

Definition readLine (rest : string) : string * string * sliceEnd :=
  readLineLoop (String.length rest) bufSize "" rest.

(** bytes.TrimRight of carriage returns and newlines. *)
Fixpoint TrimRightCRLF (s : string) : string :=
  match s with
  | EmptyString => ""
  | String c s' =>
      let t := TrimRightCRLF s' in
      if bool_decide (t = "") && (bool_decide (c = CR) || bool_decide (c = LF)) then "" else String c t
  end.

(** ** Next *)

(** The local variables of [Next]; [a_data] is [s.dataBuf]. *)
Record eventAcc : Type := mkAcc {
  a_data : string;
  a_dataCount : Z;
  a_type : string;
  a_id : string;
  a_retry : string;
  a_bytes : Z;
}.

Definition emptyAcc : eventAcc := mkAcc "" 0 "" "" "" 0.

(** [field] and [value] of a line that is neither empty nor a comment. *)
Definition splitField (line : string) : string * string :=
  match CutByte ":" line with
  | None => (line, "")
  | Some (field, value) =>
      (field, match value with String c value' => if bool_decide (c = " "%char) then value' else value | "" => "" end)
  end.

(** The [switch] on the field's name. *)
Definition setField (field value : string) (a : eventAcc) : eventAcc :=
  if bool_decide (field = "event") then mkAcc (a_data a) (a_dataCount a) value (a_id a) (a_retry a) (a_bytes a)
  else if bool_decide (field = "data") then
    mkAcc (String.append (a_data a) (String.append (if bool_decide (a_dataCount a > 0) then String LF "" else "") value))
      (a_dataCount a + 1) (a_type a) (a_id a) (a_retry a) (a_bytes a)
  else if bool_decide (field = "id") then mkAcc (a_data a) (a_dataCount a) (a_type a) value (a_retry a) (a_bytes a)
  else if bool_decide (field = "retry") then mkAcc (a_data a) (a_dataCount a) (a_type a) (a_id a) value (a_bytes a)
  else a.

Definition addBytes (n : Z) (a : eventAcc) : eventAcc :=
  mkAcc (a_data a) (a_dataCount a) (a_type a) (a_id a) (a_retry a) (a_bytes a + n).

(** The closure [dispatch] tells whether there is an event. *)
Definition dispatch (a : eventAcc) : bool :=
  negb (bool_decide (a_dataCount a = 0) && bool_decide (a_type a = "") && bool_decide (a_id a = "") && bool_decide (a_retry a = "")).

Definition set_reader (rest : string) (s : Scanner) : Scanner :=
  mkScanner rest (rd_end s) (sc_event s) (sc_err s) (sc_dataConverted s) (sc_maxLineBytes s) (sc_maxEventBytes s)
    (sc_bomStripped s) (sc_dataBuf s).
Definition set_err (e : sseError) (a : eventAcc) (s : Scanner) : Scanner :=
  mkScanner (rd_rest s) (rd_end s) (sc_event s) (Some e) false (sc_maxLineBytes s) (sc_maxEventBytes s)
    (sc_bomStripped s) (a_data a).
Definition set_bomStripped (s : Scanner) : Scanner :=
  mkScanner (rd_rest s) (rd_end s) (sc_event s) (sc_err s) (sc_dataConverted s) (sc_maxLineBytes s) (sc_maxEventBytes s)
    true (sc_dataBuf s).
(** [return dispatch()]. *)
Definition finish (a : eventAcc) (s : Scanner) : bool * Scanner :=
  if dispatch a
  then (true, mkScanner (rd_rest s) (rd_end s) (mkEvent (a_type a) "" (a_id a) (a_retry a)) (sc_err s) false
          (sc_maxLineBytes s) (sc_maxEventBytes s) (sc_bomStripped s) (a_data a))
  else (false, mkScanner (rd_rest s) (rd_end s) (sc_event s) (sc_err s) false
          (sc_maxLineBytes s) (sc_maxEventBytes s) (sc_bomStripped s) (a_data a)).

(** The loop of [Next]; [None]: the fuel is too small. *)
Fixpoint nextLoop (fuel : nat) (a : eventAcc) (s : Scanner) : option (bool * Scanner) :=
  match fuel with
  | O => None
  | S fuel' =>
      let '(line, rest, e) := readLine (rd_rest s) in
      let s := set_reader rest s in
      let eof := match e with AtEnd => true | _ => false end in
      match (if eof then rd_end s else None) with
      | Some msg => Some (false, set_err (ReadError msg) a s)
      | None =>
          if bool_decide (len line > sc_maxLineBytes s) then
            Some (false, set_err (ErrLineTooLarge (len line) (sc_maxLineBytes s)) a s)
          else
            let line := if sc_bomStripped s then line else default line (CutPrefix bomPrefix line) in
            let s := set_bomStripped s in
            let line := TrimRightCRLF line in
            match line with
            | EmptyString => if dispatch a || eof then Some (finish a s) else nextLoop fuel' a s
            | String c _ =>
                if bool_decide (c = ":"%char) then (if eof then Some (finish a s) else nextLoop fuel' a s)
                else
                  let '(field, value) := splitField line in
                  let a := addBytes (len field + len value) a in
                  if bool_decide (a_bytes a > sc_maxEventBytes s) then
                    Some (false, set_err (ErrEventTooLarge (a_bytes a) (sc_maxEventBytes s)) a s)
                  else
                    let a := setField field value a in
                    if eof then Some (finish a s) else nextLoop fuel' a s
            end
      end
  end.

(** One more round than there are bytes. *)
Definition nextFuel (s : Scanner) : nat := S (String.length (rd_rest s)).

Definition Next (s : Scanner) : option (bool * Scanner) :=
  match sc_err s with
  | Some _ => Some (false, s)
  | None => nextLoop (nextFuel s) emptyAcc s
  end.

(** [Event], with the conversion it caches. *)
Definition scannerEvent (s : Scanner) : Event * Scanner :=
  let ev := if sc_dataConverted s then sc_event s
            else mkEvent (ev_type (sc_event s)) (sc_dataBuf s) (ev_id (sc_event s)) (ev_retry (sc_event s)) in
  (ev, mkScanner (rd_rest s) (rd_end s) ev (sc_err s) true (sc_maxLineBytes s) (sc_maxEventBytes s)
         (sc_bomStripped s) (sc_dataBuf s)).

Definition UnsafeEvent (s : Scanner) : Event :=
  if bool_decide (0 < len (sc_dataBuf s))
  then mkEvent (ev_type (sc_event s)) (sc_dataBuf s) (ev_id (sc_event s)) (ev_retry (sc_event s))
  else sc_event s.

(** [for s.Next() { use(s.Event()) }], with the events used; [None]: the fuel
    is too small. *)
Fixpoint scanAll (fuel : nat) (s : Scanner) : option (list Event * Scanner) :=
  match fuel with
  | O => None
  | S fuel' =>
      match Next s with
      | Some (true, s1) =>
          let '(ev, s2) := scannerEvent s1 in
          match scanAll fuel' s2 with Some (evs, s3) => Some (ev :: evs, s3) | None => None end
      | Some (false, s1) => Some ([], s1)
      | None => None
      end
  end.

Example scan_example :
  fst <$> scanAll 5 (NewScanner (of_bytes [239; 187; 191] +:+ ": hi
event: message
data: a
data:b
id: 7

data
retry") None) =
  Some [mkEvent "message" ("a" +:+ String LF "b") "7" ""; mkEvent "" "" "" ""].
Proof. vm_compute. reflexivity. Qed.

(** ** Reading a line does not depend on the buffer *)

Fixpoint cutLine (s : string) : string * string * sliceEnd :=
  match s with
  | EmptyString => ("", "", AtEnd)
  | String c s' =>
      if bool_decide (c = LF) then (String c "", s', Found)
      else let '(l, r, e) := cutLine s' in (String c l, r, e)
  end.

Lemma append_assoc (a b c : string) : (a +:+ b) +:+ c = a +:+ (b +:+ c).
Proof. induction a as [|x a IH]; [done|]. rewrite !append_cons. by rewrite IH. Qed.

Lemma append_empty_r (a : string) : a +:+ "" = a.
Proof. induction a as [|x a IH]; [done|]. rewrite append_cons. by rewrite IH. Qed.

Lemma ReadSlice_cutLine n rest :
  let '(l, r, e) := ReadSlice n rest in
  match e with
  | BufferFull => cutLine rest = (let '(l', r', e') := cutLine r in (l +:+ l', r', e')) /\
      (String.length r + n = String.length rest)%nat
  | _ => cutLine rest = (l, r, e)
  end.
Proof.
  revert rest. induction n as [|n IH]; intros rest; simpl.
  - split; [|lia]. by destruct (cutLine rest) as [[l r] e].
  - destruct rest as [|c rest]; [done|]. simpl. case_bool_decide as Hc; [done|]. specialize (IH rest).
    destruct (ReadSlice n rest) as [[l r] []]; [by rewrite IH| |by rewrite IH].
    destruct IH as [-> Hl]. split; [|simpl; lia]. by destruct (cutLine r) as [[l' r'] e'].
Qed.

Lemma cutLine_not_full s l r e : cutLine s = (l, r, e) -> e <> BufferFull.
Proof.
  revert l r e. induction s as [|c s IH]; intros l r e; simpl; [by intros [= <- <- <-]|].
  case_bool_decide; [by intros [= <- <- <-]|]. destruct (cutLine s) as [[l' r'] e'] eqn:Hc. intros [= <- <- <-]. by eapply IH.
Qed.

Lemma readLineLoop_cutLine fuel size buf rest :
  (0 < size)%nat -> (String.length rest <= fuel)%nat ->
  readLineLoop fuel size buf rest = let '(l, r, e) := cutLine rest in (buf +:+ l, r, e).
Proof.
  intros Hsize. revert buf rest. induction fuel as [|fuel IH]; intros buf rest Hf; simpl.
  - assert (rest = "") as -> by (destruct rest; simpl in *; [done|lia]). by destruct size; [lia|].
  - pose proof (ReadSlice_cutLine size rest) as H. destruct (ReadSlice size rest) as [[l r] []]; [by rewrite H| |by rewrite H].
    destruct H as [-> Hl]. rewrite IH by lia. destruct (cutLine r) as [[l' r'] e']. by rewrite append_assoc.
Qed.

Lemma readLine_cutLine rest : readLine rest = cutLine rest.
Proof.
  unfold readLine. rewrite readLineLoop_cutLine; [|unfold bufSize; lia|done].
  destruct (cutLine rest) as [[l r] e]. by rewrite append_nil.
Qed.

Lemma cutLine_app s : let '(l, r, e) := cutLine s in s = l +:+ r /\
  match e with Found => (String.length r < String.length s)%nat | _ => r = "" end.
Proof.
  induction s as [|c s IH]; simpl; [done|]. case_bool_decide; [simpl; split; [done|lia]|].
  destruct (cutLine s) as [[l r] e]. destruct IH as [-> IH]. split; [by rewrite append_cons|]. destruct e; simpl; [lia|done..].
Qed.

(** ** The reference: lines, fields, blank lines *)

(** The complete lines and what follows the last newline. *)
Fixpoint splitLines (s : string) : list string * string :=
  match s with
  | EmptyString => ([], "")
  | String c s' =>
      let '(ls, tail) := splitLines s' in
      if bool_decide (c = LF) then ("" :: ls, tail)
      else match ls with [] => ([], String c tail) | l :: ls' => (String c l :: ls', tail) end
  end.

Definition isComment (line : string) : bool :=
  match line with String c _ => bool_decide (c = ":"%char) | "" => false end.

(** A line of the event being read: a comment says nothing, a field sets. *)
Definition feedLine (line : string) (a : eventAcc) : eventAcc :=
  if bool_decide (line = "") || isComment line then a
  else let '(field, value) := splitField line in setField field value (addBytes (len field + len value) a).

Definition eventOf (a : eventAcc) : Event := mkEvent (a_type a) (a_data a) (a_id a) (a_retry a).

(** Blank lines end events; so does the end of the input. *)
Fixpoint groupLines (a : eventAcc) (ls : list string) (tail : string) : list Event :=
  match ls with
  | [] => let a' := feedLine (TrimRightCRLF tail) a in if dispatch a' then [eventOf a'] else []
  | l :: ls' =>
      let l := TrimRightCRLF l in
      if bool_decide (l = "") && dispatch a then eventOf a :: groupLines emptyAcc ls' tail
      else groupLines (feedLine l a) ls' tail
  end.

Definition groupInput (a : eventAcc) (input : string) : list Event :=
  let '(ls, tail) := splitLines input in groupLines a ls tail.

(** The events of an input. *)
Definition eventsOf (input : string) : list Event := groupInput emptyAcc (default input (CutPrefix bomPrefix input)).

Lemma splitLines_cutLine s :
  match cutLine s with
  | (l, r, Found) => exists l0, l = l0 +:+ String LF "" /\ splitLines s = (let '(ls, tail) := splitLines r in (l0 :: ls, tail))
  | (l, r, _) => splitLines s = ([], l) /\ l = s
  end.
Proof.
  induction s as [|c s IH]; simpl; [done|]. case_bool_decide as Hc.
  - subst. exists "". split; [done|]. by destruct (splitLines s).
  - destruct (cutLine s) as [[l r] []].
    + destruct IH as (l0 & -> & ->). exists (String c l0). split; [done|]. by destruct (splitLines r).
    + by destruct IH as [-> ->].
    + by destruct IH as [-> ->].
Qed.

Lemma TrimRightCRLF_LF s : TrimRightCRLF (s +:+ String LF "") = TrimRightCRLF s.
Proof. induction s as [|c s IH]; [done|]. rewrite append_cons. simpl. by rewrite IH. Qed.

(** Stripping the mark from the first line strips it from the input. *)
Lemma cutLine_bom s :
  cutLine (default s (CutPrefix bomPrefix s)) = let '(l, r, e) := cutLine s in (default l (CutPrefix bomPrefix l), r, e).
Proof.
  destruct (CutPrefix bomPrefix s) as [t|] eqn:Hs; cbn [from_option id].
  - apply CutPrefix_Some in Hs as ->.
    assert (cutLine (bomPrefix +:+ t) = let '(l, r, e) := cutLine t in (bomPrefix +:+ l, r, e)) as ->.
    { change (bomPrefix +:+ t) with (String "239" (String "187" (String "191" t))). simpl.
      by destruct (cutLine t) as [[l r] e]. }
    destruct (cutLine t) as [[l r] e]. by rewrite CutPrefix_app.
  - pose proof (cutLine_app s) as Happ. destruct (cutLine s) as [[l r] e]. destruct Happ as [Heq _].
    destruct (CutPrefix bomPrefix l) as [x|] eqn:Hl; [|done]. apply CutPrefix_Some in Hl as ->.
    rewrite Heq, append_assoc, CutPrefix_app in Hs. done.
Qed.

Lemma cutLine_strip (bom : bool) s :
  let strip (x : string) := if bom then x else default x (CutPrefix bomPrefix x) in
  cutLine (strip s) = let '(l, r, e) := cutLine s in (strip l, r, e).
Proof. destruct bom; simpl; [by destruct (cutLine s) as [[l r] e]|apply cutLine_bom]. Qed.

(** ** The scanner against the reference *)

#[local] Arguments CutPrefix : simpl never.

(** What the scanner has still to deliver. *)
Definition remaining (s : Scanner) (a : eventAcc) : list Event :=
  groupInput a (if sc_bomStripped s then rd_rest s else default (rd_rest s) (CutPrefix bomPrefix (rd_rest s))).

(** Outcomes of [Next] in a scanner without a read error. *)
Definition nextResult (s : Scanner) (a : eventAcc) (b : bool) (s' : Scanner) : Prop :=
  rd_end s' = rd_end s /\ sc_maxLineBytes s' = sc_maxLineBytes s /\ sc_maxEventBytes s' = sc_maxEventBytes s /\
  match sc_err s' with
  | Some _ => b = false
  | None =>
      if b
      then remaining s a = (scannerEvent s').1 :: remaining s' emptyAcc /\
           ((String.length (rd_rest s') < String.length (rd_rest s))%nat \/ rd_rest s = "" /\ rd_rest s' = "")
      else remaining s a = []
  end.

Lemma finish_true a s :
  dispatch a = true -> sc_err s = None ->
  exists s', finish a s = (true, s') /\ sc_err s' = None /\ rd_rest s' = rd_rest s /\ rd_end s' = rd_end s /\
    sc_maxLineBytes s' = sc_maxLineBytes s /\ sc_maxEventBytes s' = sc_maxEventBytes s /\
    sc_bomStripped s' = sc_bomStripped s /\ (scannerEvent s').1 = eventOf a.
Proof. intros Hd He. unfold finish. rewrite Hd. eexists. by split_and!. Qed.

(** One line of the reference. *)
Lemma groupInput_step a x l r e :
  cutLine x = (l, r, e) ->
  groupInput a x =
  match e with
  | Found => if bool_decide (TrimRightCRLF l = "") && dispatch a then eventOf a :: groupInput emptyAcc r
             else groupInput (feedLine (TrimRightCRLF l) a) r
  | _ => let a' := feedLine (TrimRightCRLF l) a in if dispatch a' then [eventOf a'] else []
  end.
Proof.
  intros Hc. pose proof (splitLines_cutLine x) as H. rewrite Hc in H. unfold groupInput. destruct e.
  - destruct H as (l0 & -> & ->). rewrite TrimRightCRLF_LF. by destruct (splitLines r).
  - by destruct H as [-> ->].
  - by destruct H as [-> ->].
Qed.

(** [Next] at the end of the input, or at a blank line with an event. *)
Lemma nextResult_finish s a a' s1 :
  sc_err s1 = None -> rd_end s1 = rd_end s -> sc_maxLineBytes s1 = sc_maxLineBytes s ->
  sc_maxEventBytes s1 = sc_maxEventBytes s -> sc_bomStripped s1 = true ->
  remaining s a = (if dispatch a' then eventOf a' :: groupInput emptyAcc (rd_rest s1) else []) ->
  ((String.length (rd_rest s1) < String.length (rd_rest s))%nat \/ rd_rest s = "" /\ rd_rest s1 = "") ->
  nextResult s a (finish a' s1).1 (finish a' s1).2.
Proof.
  intros He H1 H2 H3 Hb Hrem Hlen. destruct (dispatch a') eqn:Hd.
  - destruct (finish_true a' s1 Hd He) as (s' & -> & He' & Hr & ? & ? & ? & Hb' & Hev). cbn [fst snd].
    unfold nextResult. rewrite He'. split_and!; [congruence..| |by rewrite Hr].
    rewrite Hrem, Hev. unfold remaining. by rewrite Hb', Hb, Hr.
  - unfold finish, nextResult. rewrite Hd. simpl. rewrite He. by split_and!.
Qed.

Lemma nextResult_err s a e a' s1 :
  rd_end s1 = rd_end s -> sc_maxLineBytes s1 = sc_maxLineBytes s -> sc_maxEventBytes s1 = sc_maxEventBytes s ->
  nextResult s a false (set_err e a' s1).
Proof. intros. unfold nextResult. by split_and!. Qed.

Lemma nextResult_step s a s1 a1 b s' :
  nextResult s1 a1 b s' -> remaining s1 a1 = remaining s a ->
  rd_end s1 = rd_end s -> sc_maxLineBytes s1 = sc_maxLineBytes s -> sc_maxEventBytes s1 = sc_maxEventBytes s ->
  (String.length (rd_rest s1) < String.length (rd_rest s))%nat -> nextResult s a b s'.
Proof.
  intros (H1 & H2 & H3 & H4) Hrem He1 He2 He3 Hlen. unfold nextResult. split_and!; try congruence.
  destruct (sc_err s'); [done|]. destruct b; [|congruence]. destruct H4 as [H4 H5]. split; [congruence|].
  left. destruct H5 as [H5|[H5 ->]]; [lia|]. rewrite H5 in Hlen. done.
Qed.

Lemma nextLoop_spec fuel a s :
  rd_end s = None -> sc_err s = None -> (String.length (rd_rest s) < fuel)%nat ->
  exists b s', nextLoop fuel a s = Some (b, s') /\ nextResult s a b s'.
Proof.
  revert a s. induction fuel as [|fuel IH]; intros a s Hend Herr Hf; [lia|]. simpl nextLoop.
  rewrite readLine_cutLine. pose proof (cutLine_app (rd_rest s)) as Happ.
  pose proof (cutLine_strip (sc_bomStripped s) (rd_rest s)) as Hstrip. cbv zeta in Hstrip.
  destruct (cutLine (rd_rest s)) as [[line rest] e] eqn:Hcut. destruct Happ as [Hsplit Hlen].
  pose proof (cutLine_not_full _ _ _ _ Hcut) as Hnf.
  pose proof (groupInput_step a _ _ _ _ Hstrip) as Hgroup. fold (remaining s a) in Hgroup.
  assert (forall b : bool, (if b then rd_end (set_reader rest s) else None) = None) as Heof by (intros []; [exact Hend|done]).
  rewrite Heof. clear Heof.
  destruct (bool_decide (len line > _)); [eexists _, _; split; [done|by apply nextResult_err]|].
  change (sc_bomStripped (set_reader rest s)) with (sc_bomStripped s).
  set (sl := if sc_bomStripped s then line else default line (CutPrefix bomPrefix line)) in *.
  set (s1 := set_bomStripped (set_reader rest s)) in *.
  assert (forall a', e = Found -> groupInput a' rest = remaining s a ->
    exists b s', nextLoop fuel a' s1 = Some (b, s') /\ nextResult s a b s') as Hnext.
  { intros a' -> Hrem. simpl in Hlen. destruct (IH a' s1) as (b & s' & Hn & Hres); [exact Hend|exact Herr|simpl; lia|].
    exists b, s'. split; [done|]. by apply (nextResult_step _ _ _ _ _ _ Hres). }
  assert (forall a', e = AtEnd -> remaining s a = (if dispatch a' then [eventOf a'] else []) ->
    exists b s', Some (finish a' s1) = Some (b, s') /\ nextResult s a b s') as Hfin.
  { intros a' -> Hrem. eexists _, _. split; [by rewrite <- surjective_pairing|].
    subst rest. apply nextResult_finish; [exact Herr|done..|].
    destruct (rd_rest s); [by right|left; simpl; lia]. }
  destruct (TrimRightCRLF sl) as [|c t] eqn:Htrim.
  - destruct e; [|done|].
    + simpl in Hgroup. rewrite orb_false_r. destruct (dispatch a) eqn:Hd; [|by apply Hnext].
      eexists _, _. split; [by rewrite <- surjective_pairing|]. apply nextResult_finish; [exact Herr|done..| |by left].
      by rewrite Hd.
    + rewrite orb_true_r. by apply Hfin.
  - rewrite bool_decide_eq_false_2 in Hgroup by done. simpl in Hgroup. unfold feedLine in Hgroup.
    rewrite (bool_decide_eq_false_2 (String c t = "")) in Hgroup by done. simpl in Hgroup.
    destruct (bool_decide (c = ":"%char)).
    + destruct e; [by apply Hnext|done|by apply Hfin].
    + destruct (splitField (String c t)) as [field value].
      destruct (bool_decide (_ > _)); [eexists _, _; split; [done|by apply nextResult_err]|]. destruct e; [by apply Hnext|done|by apply Hfin].
Qed.

Lemma Next_spec s :
  rd_end s = None -> sc_err s = None -> exists b s', Next s = Some (b, s') /\ nextResult s emptyAcc b s'.
Proof. intros Hend Herr. unfold Next. rewrite Herr. apply nextLoop_spec; [done|done|unfold nextFuel; lia]. Qed.

(** A true [Next] leaves the data in the buffer, and less input. *)
Definition delivered (a : eventAcc) (s s' : Scanner) : Prop :=
  sc_err s' = None /\ sc_dataConverted s' = false /\ ev_data (sc_event s') = "" /\
  ((String.length (rd_rest s') < String.length (rd_rest s))%nat \/ rd_rest s = "" /\ rd_rest s' = "" /\ dispatch a = true).

(** [Next] ends on every input, also on one that breaks off with an error. *)
Lemma nextLoop_total fuel a s :
  sc_err s = None -> (String.length (rd_rest s) < fuel)%nat ->
  exists b s', nextLoop fuel a s = Some (b, s') /\ rd_end s' = rd_end s /\ (b = true -> delivered a s s').
Proof.
  revert a s. induction fuel as [|fuel IH]; intros a s Herr Hf; [lia|]. simpl nextLoop.
  rewrite readLine_cutLine. pose proof (cutLine_app (rd_rest s)) as Happ.
  destruct (cutLine (rd_rest s)) as [[line rest] e] eqn:Hcut. destruct Happ as [Hsplit Hlen].
  pose proof (cutLine_not_full _ _ _ _ Hcut) as Hnf.
  set (eof := match e with AtEnd => true | _ => false end).
  change (rd_end (set_reader rest s)) with (rd_end s). destruct (if eof then rd_end s else None); [by eexists _, _|].
  destruct (bool_decide (len line > _)); [by eexists _, _|].
  change (sc_bomStripped (set_reader rest s)) with (sc_bomStripped s).
  set (s1 := set_bomStripped (set_reader rest s)).
  assert (forall a', e = Found -> exists b s', nextLoop fuel a' s1 = Some (b, s') /\ rd_end s' = rd_end s /\
    (b = true -> delivered a s s')) as Hnext.
  { intros a' ->. cbn iota in Hlen. destruct (IH a' s1) as (b & s' & Hn & He & Hb); [exact Herr|simpl; lia|]. exists b, s'. split_and!; [done..|].
    intros Hb'. destruct (Hb Hb') as (H1 & H2 & H3 & H4). unfold delivered. split_and!; [done..|]. left.
    simpl in H4. destruct H4 as [H4|(H4 & -> & _)]; [lia|]. rewrite H4 in Hlen. exact Hlen. }
  assert (forall a', (String.length rest < String.length (rd_rest s))%nat \/ rd_rest s = "" /\ a' = a ->
    exists b s', Some (finish a' s1) = Some (b, s') /\ rd_end s' = rd_end s /\
    (b = true -> delivered a s s')) as Hfin.
  { intros a' Hl. unfold finish. destruct (dispatch a') eqn:Hd; eexists _, _; (split_and!; [reflexivity|done|]); [|done].
    intros _. unfold delivered. split_and!; [done..|]. destruct Hl as [Hl|[Hr ->]]; [by left|right]. split_and!; [done| |done].
    simpl. rewrite Hr in Hsplit. by destruct line. }
  assert (e = AtEnd -> rd_rest s <> "" -> (String.length rest < String.length (rd_rest s))%nat) as Hend.
  { intros -> Hne. subst rest. destruct (rd_rest s); [done|simpl; lia]. }
  assert (rd_rest s = "" -> line = "") as Hempty.
  { intros Hr. rewrite Hr in Hsplit. by destruct line. }
  set (sl := if sc_bomStripped s then line else default line (CutPrefix bomPrefix line)).
  assert (rd_rest s = "" -> TrimRightCRLF sl = "") as Htrim by (intros Hr; unfold sl; rewrite (Hempty Hr); by destruct (sc_bomStripped s)).
  destruct (TrimRightCRLF sl) as [|c t].
  - unfold eof. destruct (dispatch a || _) eqn:Hd; [|destruct e; [by apply Hnext|done|by rewrite orb_true_r in Hd]].
    apply Hfin. destruct (decide (rd_rest s = "")) as [Hr|Hr]; [by right|left]. destruct e; [done|done|by apply Hend].
  - assert (rd_rest s <> "") as Hr by (intros Hr; by specialize (Htrim Hr)).
    assert (forall a', exists b s', (if eof then Some (finish a' s1) else nextLoop fuel a' s1) =
      Some (b, s') /\ rd_end s' = rd_end s /\ (b = true -> delivered a s s')) as Hgo.
    { intros a'. destruct e; [by apply Hnext|done|apply Hfin; left; by apply Hend]. }
    destruct (bool_decide (c = ":"%char)); [apply Hgo|]. destruct (splitField (String c t)) as [field value].
    destruct (bool_decide (_ > _)); [by eexists _, _|]. apply Hgo.
Qed.

Lemma Next_total s : sc_err s = None ->
  exists b s', Next s = Some (b, s') /\ rd_end s' = rd_end s /\
    (b = true -> sc_err s' = None /\ sc_dataConverted s' = false /\ ev_data (sc_event s') = "" /\
       (String.length (rd_rest s') < String.length (rd_rest s))%nat).
Proof.
  intros Herr. unfold Next. rewrite Herr. destruct (nextLoop_total (nextFuel s) emptyAcc s Herr) as (b & s' & Hn & He & Hb).
  - unfold nextFuel. lia.
  - exists b, s'. split_and!; [done..|]. intros Hb'. destruct (Hb Hb') as (H1 & H2 & H3 & [H4|(_ & _ & [=])]). by split_and!.
Qed.

(** ** All events *)

Lemma remaining_empty s : rd_rest s = "" -> remaining s emptyAcc = [].
Proof. intros H. unfold remaining. rewrite H. by destruct (sc_bomStripped s). Qed.

Lemma scanAll_spec fuel s :
  rd_end s = None -> sc_err s = None -> (String.length (rd_rest s) < fuel)%nat ->
  exists evs s', scanAll fuel s = Some (evs, s') /\
    (sc_err s' = None -> evs = remaining s emptyAcc) /\ exists later, remaining s emptyAcc = evs ++ later.
Proof.
  revert s. induction fuel as [|fuel IH]; intros s Hend Herr Hf; [lia|]. cbn [scanAll].
  destruct (Next_spec s Hend Herr) as (b & s1 & -> & H1 & H2 & H3 & H4). destruct b; cbv iota beta.
  - destruct (sc_err s1) eqn:He1; [done|]. destruct H4 as [Hrem Hlen].
    destruct (IH (scannerEvent s1).2) as (evs & s' & Hs & Hevs & later & Hlater).
    + simpl. congruence.
    + exact He1.
    + simpl. destruct Hlen as [Hlen|[Hr _]]; [lia|]. by rewrite remaining_empty in Hrem.
    + rewrite (surjective_pairing (scannerEvent s1)), Hs. eexists _, _. split; [done|]. rewrite Hrem.
      change (remaining (scannerEvent s1).2 emptyAcc) with (remaining s1 emptyAcc) in *. split.
      * intros He. by rewrite Hevs.
      * exists later. by rewrite Hlater.
  - eexists _, _. split; [done|]. split; [|by eexists]. intros He. by rewrite He in H4.
Qed.

Lemma len_app a b : len (a +:+ b) = len a + len b.
Proof. unfold len. induction a as [|c a IH]; [done|]. rewrite append_cons. simpl. lia. Qed.

Lemma len_nonneg a : 0 <= len a.
Proof. unfold len. lia. Qed.

Lemma TrimRightCRLF_len s : len (TrimRightCRLF s) <= len s.
Proof.
  unfold len. induction s as [|c s IH]; [done|]. simpl. destruct (bool_decide _ && _); simpl; lia.
Qed.

Lemma strip_len s : len (default s (CutPrefix bomPrefix s)) <= len s.
Proof.
  destruct (CutPrefix bomPrefix s) as [t|] eqn:H; [|done]. apply CutPrefix_Some in H as ->. simpl.
  rewrite len_app. pose proof (len_nonneg bomPrefix). lia.
Qed.

Lemma splitField_len line : let '(f, v) := splitField line in len f + len v <= len line.
Proof.
  unfold splitField. destruct (CutByte ":" line) as [[f v]|] eqn:H; [|unfold len; simpl; lia].
  apply CutByte_Some in H as [-> _]. rewrite len_app. unfold len. destruct v as [|c v]; simpl; [lia|].
  case_bool_decide; simpl; lia.
Qed.

(** Within both limits nothing is refused. *)
Lemma nextLoop_small fuel a s b s' :
  nextLoop fuel a s = Some (b, s') -> rd_end s = None -> sc_err s = None ->
  len (rd_rest s) <= sc_maxLineBytes s -> a_bytes a + len (rd_rest s) <= sc_maxEventBytes s ->
  sc_err s' = None /\ len (rd_rest s') <= len (rd_rest s).
Proof.
  revert a s. induction fuel as [|fuel IH]; intros a s H Hend Herr Hl Hb; [done|]. simpl nextLoop in H.
  rewrite readLine_cutLine in H. pose proof (cutLine_app (rd_rest s)) as Happ.
  destruct (cutLine (rd_rest s)) as [[line rest] e]. destruct Happ as [Hsplit _].
  assert (len line + len rest = len (rd_rest s)) as Hlen by (rewrite Hsplit; by rewrite len_app).
  assert (forall b : bool, (if b then rd_end (set_reader rest s) else None) = None) as Heof by (intros []; [exact Hend|done]).
  rewrite Heof in H. clear Heof. change (sc_maxLineBytes (set_reader rest s)) with (sc_maxLineBytes s) in H.
  pose proof (len_nonneg rest). pose proof (len_nonneg line).
  rewrite bool_decide_eq_false_2 in H by lia. change (sc_bomStripped (set_reader rest s)) with (sc_bomStripped s) in H.
  set (sl := if sc_bomStripped s then line else default line (CutPrefix bomPrefix line)) in *.
  assert (len (TrimRightCRLF sl) <= len line) as Hsl.
  { etrans; [apply TrimRightCRLF_len|]. unfold sl. destruct (sc_bomStripped s); [done|apply strip_len]. }
  set (s1 := set_bomStripped (set_reader rest s)) in *. clearbody sl.
  assert (forall a', nextLoop fuel a' s1 = Some (b, s') -> a_bytes a' <= a_bytes a + len line ->
    sc_err s' = None /\ len (rd_rest s') <= len (rd_rest s)) as Hnext.
  { intros a' Hn Ha'. destruct (IH a' s1 Hn) as [? Hr]; simpl in *; [done|done|lia|lia|]. split; [done|lia]. }
  assert (forall a', Some (finish a' s1) = Some (b, s') -> sc_err s' = None /\ len (rd_rest s') <= len (rd_rest s)) as Hfin.
  { intros a' [= Hf]. unfold finish in Hf. destruct (dispatch a'); simplify_eq; simpl; (split; [done|lia]). }
  destruct (TrimRightCRLF sl) as [|c t].
  - destruct (dispatch a || _); [by apply (Hfin a)|]. apply (Hnext a); [done|lia].
  - destruct (bool_decide (c = ":"%char)).
    + destruct e; [apply (Hnext a); [done|lia]| |by apply (Hfin a)]. apply (Hnext a); [done|lia].
    + pose proof (splitField_len (String c t)) as Hsf. destruct (splitField (String c t)) as [f v].
      rewrite bool_decide_eq_false_2 in H by (simpl; lia).
      assert (a_bytes (setField f v (addBytes (len f + len v) a)) = a_bytes a + (len f + len v)) as Hab.
      { unfold setField. repeat (destruct (bool_decide _); [done|]). done. }
      destruct e; [apply (Hnext _ H); lia| |by apply (Hfin _ H)]. apply (Hnext _ H); lia.
Qed.

(** ** Writing events *)

Definition hasLF (s : string) : bool := ContainsByte LF s.

(** The last byte is a carriage return. *)
Fixpoint endsCR (s : string) : bool :=
  match s with
  | EmptyString => false
  | String c "" => bool_decide (c = CR)
  | String _ s' => endsCR s'
  end.

Definition plain (s : string) : Prop := hasLF s = false /\ endsCR s = false.

(** The lines of the data, joined again by newlines. *)
Definition dataLines (data : string) : list string := let '(ls, tail) := splitLines data in ls ++ [tail].

Definition renderField (name value : string) : string := name +:+ ": " +:+ value +:+ String LF "".

Definition renderOptional (name value : string) : string :=
  if bool_decide (value = "") then "" else renderField name value.

Definition renderData (data : string) : string :=
  if bool_decide (data = "") then "" else foldr (fun l s => renderField "data" l +:+ s) "" (dataLines data).

Definition renderEvent (ev : Event) : string :=
  renderOptional "event" (ev_type ev) +:+ renderOptional "id" (ev_id ev) +:+ renderOptional "retry" (ev_retry ev) +:+
  renderData (ev_data ev) +:+ String LF "".

Definition renderEvents (evs : list Event) : string := foldr (fun ev s => renderEvent ev +:+ s) "" evs.

(** What the format can carry: an event that says something, without newlines
    outside the data and without a carriage return at the end of a line. *)
Definition writable (ev : Event) : Prop :=
  ev <> zeroEvent /\ plain (ev_type ev) /\ plain (ev_id ev) /\ plain (ev_retry ev) /\
  Forall (fun l => endsCR l = false) (dataLines (ev_data ev)).

Lemma hasLF_cons c s : hasLF (String c s) = bool_decide (c = LF) || hasLF s.
Proof. unfold hasLF, ContainsByte. simpl. case_bool_decide; [done|]. by destruct (CutByte LF s) as [[]|]. Qed.

Lemma hasLF_app a b : hasLF (a +:+ b) = hasLF a || hasLF b.
Proof. induction a as [|c a IH]; [done|]. by rewrite append_cons, !hasLF_cons, IH, orb_assoc. Qed.

Lemma cutLine_line l rest : hasLF l = false -> cutLine (l +:+ String LF rest) = (l +:+ String LF "", rest, Found).
Proof.
  induction l as [|c l IH]; [done|]. rewrite hasLF_cons. intros [Hc Hl]%orb_false_iff.
  rewrite !append_cons. simpl. rewrite Hc, IH by done. done.
Qed.

Lemma TrimRightCRLF_plain l : plain l -> TrimRightCRLF l = l.
Proof.
  intros [Hl Hc]. induction l as [|c l IH]; [done|]. rewrite hasLF_cons in Hl. apply orb_false_iff in Hl as [Hn Hl].
  simpl. destruct l as [|d l].
  - simpl in *. by rewrite Hc, Hn.
  - rewrite IH; [|done|done]. simpl. done.
Qed.

Lemma endsCR_app a c b : endsCR (a +:+ String c b) = endsCR (String c b).
Proof.
  induction a as [|d a IH]; [done|]. rewrite append_cons. rewrite <- IH. simpl. by destruct a.
Qed.

(** The names of the fields. *)
Definition fieldName (n : string) : Prop := n = "event" \/ n = "data" \/ n = "id" \/ n = "retry".

Lemma groupInput_field a name value rest :
  fieldName name -> plain value ->
  groupInput a (renderField name value +:+ rest) =
  groupInput (setField name value (addBytes (len name + len value) a)) rest.
Proof.
  intros Hname [Hlf Hcr]. unfold renderField. set (line := name +:+ ": " +:+ value).
  assert (hasLF line = false) as Hl.
  { unfold line. rewrite !hasLF_app, Hlf. by destruct Hname as [->|[->|[->| ->]]]. }
  assert (endsCR line = false) as Hc.
  { unfold line. change (": " +:+ value) with (String ":" (String " " value)). rewrite endsCR_app.
    by destruct value. }
  replace ((name +:+ ": " +:+ value +:+ String LF "") +:+ rest) with (line +:+ String LF rest)
    by (unfold line; by rewrite !append_assoc).
  rewrite (groupInput_step a _ _ _ _ (cutLine_line line rest Hl)), TrimRightCRLF_LF, (TrimRightCRLF_plain line) by done.
  assert (exists c t, line = String c t /\ isComment line = false) as (c & t & Hct & Hcom).
  { unfold line. destruct Hname as [->|[->|[->| ->]]]; by eexists _, _. }
  rewrite (bool_decide_eq_false_2 (line = "")) by (by rewrite Hct). simpl. f_equal. unfold feedLine.
  rewrite (bool_decide_eq_false_2 (line = "")) by (by rewrite Hct). rewrite Hcom. simpl.
  assert (splitField line = (name, value)) as ->; [|done].
  unfold splitField. rewrite (proj2 (CutByte_Some ":" line name (String " " value))); [done|].
  split; [done|]. by destruct Hname as [->|[->|[->| ->]]].
Qed.

(** The blank line. *)
Lemma groupInput_blank a rest : dispatch a = true -> groupInput a (String LF rest) = eventOf a :: groupInput emptyAcc rest.
Proof.
  intros Hd. change (String LF rest) with ("" +:+ String LF rest).
  rewrite (groupInput_step a _ _ _ _ (cutLine_line "" rest eq_refl)). simpl. by rewrite Hd.
Qed.

Definition feedField (name value : string) (a : eventAcc) : eventAcc :=
  setField name value (addBytes (len name + len value) a).

Lemma groupInput_optional a name value rest :
  fieldName name -> plain value ->
  groupInput a (renderOptional name value +:+ rest) =
  groupInput (if bool_decide (value = "") then a else feedField name value a) rest.
Proof. intros. unfold renderOptional. case_bool_decide; [by rewrite append_nil|by apply groupInput_field]. Qed.

Lemma groupInput_data a ls rest :
  Forall plain ls ->
  groupInput a (foldr (fun l s => renderField "data" l +:+ s) "" ls +:+ rest) =
  groupInput (foldl (fun a l => feedField "data" l a) a ls) rest.
Proof.
  intros Hls. revert a. induction Hls as [|l ls Hl Hls IH]; intros a; simpl; [by rewrite append_nil|].
  rewrite append_assoc, groupInput_field; [|right; by left|done]. apply IH.
Qed.

(** Lines joined by newlines after [d]. *)
Definition joined (d : string) (ls : list string) : string := foldl (fun d l => d +:+ String LF l) d ls.

Lemma joined_app x d ls : joined (x +:+ d) ls = x +:+ joined d ls.
Proof. unfold joined. revert d. induction ls as [|l ls IH]; intros d; simpl; [done|]. by rewrite append_assoc, IH. Qed.

Lemma dataLines_spec data :
  match dataLines data with l :: ls => joined l ls = data | [] => False end /\ Forall (fun l => hasLF l = false) (dataLines data).
Proof.
  unfold dataLines. induction data as [|c s IH]; simpl; [split; [done|by repeat constructor]|].
  destruct (splitLines s) as [ls tail]. destruct IH as [IH1 IH2]. case_bool_decide as Hc.
  - subst. simpl. destruct (ls ++ [tail]) as [|l rest] eqn:He; [done|]. split; [|by constructor].
    unfold joined in *. simpl. rewrite append_nil. rewrite <- IH1.
    change (String LF l) with (String LF "" +:+ l). apply (joined_app (String LF "") l rest).
  - destruct ls as [|l ls]; simpl in *.
    + split; [by rewrite IH1|]. constructor; [|done]. rewrite hasLF_cons, bool_decide_eq_false_2 by done.
      by inversion IH2.
    + split; [rewrite <- IH1; apply (joined_app (String c "") l)|]. inversion IH2. constructor; [|done].
      rewrite hasLF_cons, bool_decide_eq_false_2; done.
Qed.

(** What the data fields make of the fields read so far. *)
Lemma feed_data_more ls a :
  0 < a_dataCount a ->
  let a' := foldl (fun a l => feedField "data" l a) a ls in
  a_data a' = joined (a_data a) ls /\ 0 < a_dataCount a' /\
  (a_type a', a_id a', a_retry a') = (a_type a, a_id a, a_retry a).
Proof.
  revert a. induction ls as [|l ls IH]; intros a Ha; [done|]. simpl.
  destruct (IH (feedField "data" l a)) as (H1 & H2 & H3).
  - unfold feedField, setField. simpl. lia.
  - split_and!; [|done|done]. rewrite H1. unfold joined. simpl. f_equal. unfold feedField, setField. simpl.
    by rewrite bool_decide_eq_true_2 by lia.
Qed.

Lemma feed_data data a :
  a_dataCount a = 0 -> a_data a = "" ->
  let a' := foldl (fun a l => feedField "data" l a) a (dataLines data) in
  a_data a' = data /\ 0 < a_dataCount a' /\ (a_type a', a_id a', a_retry a') = (a_type a, a_id a, a_retry a).
Proof.
  intros Hc Hd. pose proof (proj1 (dataLines_spec data)) as H. destruct (dataLines data) as [|l ls]; [done|]. simpl.
  destruct (feed_data_more ls (feedField "data" l a)) as (H1 & H2 & H3).
  - unfold feedField, setField. simpl. lia.
  - split_and!; [|done|done]. rewrite H1. unfold feedField, setField. simpl. by rewrite Hd, Hc.
Qed.

Lemma setField_event v a : setField "event" v a = mkAcc (a_data a) (a_dataCount a) v (a_id a) (a_retry a) (a_bytes a).
Proof. done. Qed.
Lemma setField_id v a : setField "id" v a = mkAcc (a_data a) (a_dataCount a) (a_type a) v (a_retry a) (a_bytes a).
Proof. done. Qed.
Lemma setField_retry v a : setField "retry" v a = mkAcc (a_data a) (a_dataCount a) (a_type a) (a_id a) v (a_bytes a).
Proof. done. Qed.

Lemma groupInput_event ev rest :
  writable ev -> groupInput emptyAcc (renderEvent ev +:+ rest) = ev :: groupInput emptyAcc rest.
Proof.
  destruct ev as [t d i r]. intros (Hne & Ht & Hi & Hr & Hd). simpl in *. unfold renderEvent. simpl.
  rewrite !append_assoc. rewrite !groupInput_optional by (unfold fieldName; auto).
  set (a1 := if bool_decide (t = "") then emptyAcc else feedField "event" t emptyAcc).
  set (a2 := if bool_decide (i = "") then a1 else feedField "id" i a1).
  set (a3 := if bool_decide (r = "") then a2 else feedField "retry" r a2).
  assert (a_data a3 = "" /\ a_dataCount a3 = 0 /\ a_type a3 = t /\ a_id a3 = i /\ a_retry a3 = r) as (H1 & H2 & H3 & H4 & H5).
  { unfold a3, a2, a1, feedField. destruct (bool_decide_reflect (t = "")), (bool_decide_reflect (i = "")),
      (bool_decide_reflect (r = "")); subst; rewrite ?setField_event, ?setField_id, ?setField_retry; simpl; by split_and!. }
  clearbody a3. clear a1 a2. unfold renderData. change (String LF "" +:+ rest) with (String LF rest).
  destruct (bool_decide_reflect (d = "")) as [Hdata|Hdata].
  - rewrite append_nil, groupInput_blank.
    + unfold eventOf. congruence.
    + unfold dispatch. rewrite H2, H3, H4, H5. apply negb_true_iff.
      destruct (bool_decide_reflect (t = "")), (bool_decide_reflect (i = "")), (bool_decide_reflect (r = "")); try done.
      exfalso. apply Hne. unfold zeroEvent. congruence.
  - rewrite groupInput_data by (apply Forall_and; split; [apply dataLines_spec|done]).
    destruct (feed_data d a3 H2 H1) as (D1 & D2 & [= D3 D4 D5]). rewrite groupInput_blank.
    + unfold eventOf. congruence.
    + unfold dispatch. by rewrite (bool_decide_eq_false_2 (_ = 0)) by lia.
Qed.

(** A rendered event starts with a field name or the final newline. *)
Lemma renderEvents_bom evs : CutPrefix bomPrefix (renderEvents evs) = None.
Proof.
  destruct evs as [|[t d i r] evs]; [done|]. simpl. unfold renderEvent, renderOptional, renderData. simpl.
  destruct (bool_decide (t = "")), (bool_decide (i = "")), (bool_decide (r = "")), (bool_decide (d = "")); try done.
  pose proof (proj1 (dataLines_spec d)) as H. by destruct (dataLines d).
Qed.

Lemma eventsOf_render evs : Forall writable evs -> eventsOf (renderEvents evs) = evs.
Proof.
  intros Hw. unfold eventsOf. rewrite renderEvents_bom. simpl. induction Hw as [|ev evs Hev Hevs IH]; [done|].
  simpl. rewrite groupInput_event by done. by rewrite IH.
Qed.

(** ** The scanner *)

Lemma scanAll_small fuel s evs s' :
  scanAll fuel s = Some (evs, s') -> rd_end s = None -> sc_err s = None ->
  len (rd_rest s) <= sc_maxLineBytes s -> len (rd_rest s) <= sc_maxEventBytes s -> sc_err s' = None.
Proof.
  revert s evs. induction fuel as [|fuel IH]; intros s evs H Hend Herr Hl He; [done|]. cbn [scanAll] in H.
  destruct (Next_spec s Hend Herr) as (b & s1 & Hn & H1 & H2 & H3 & _).
  pose proof Hn as Hn'. unfold Next in Hn'. rewrite Herr in Hn'. apply nextLoop_small in Hn' as [Herr1 Hlen]; [|done..].
  rewrite Hn in H. destruct b; [|by simplify_eq].
  rewrite (surjective_pairing (scannerEvent s1)) in H.
  destruct (scanAll fuel (scannerEvent s1).2) as [[evs2 s2]|] eqn:Hs; [|done]. simplify_eq.
  eapply IH; [exact Hs|..]; simpl; try congruence; lia.
Qed.

(** ** The format

    A definition of the format that shares nothing with the scanner: an input is
    a list of lines; blank lines cut it into blocks; the lines of a block are
    fields; and an event has the last value of each of its fields, and the values
    of its data fields as lines. *)
Module Format.
Fixpoint dropBreaks (l : list ascii) : list ascii :=
  match l with c :: l' => if bool_decide (c = CR) || bool_decide (c = LF) then dropBreaks l' else l | [] => [] end.
Definition clean (line : string) : string :=
  string_of_list_ascii (reverse (dropBreaks (reverse (list_ascii_of_string line)))).

(** The lines of an input; what follows the last newline is one too. *)
Definition lines (input : string) : list string := clean <$> dataLines input.

Fixpoint blocks (block : list string) (ls : list string) : list (list string) :=
  match ls with
  | [] => [block]
  | l :: ls' => if bool_decide (l = "") then block :: blocks [] ls' else blocks (block ++ [l]) ls'
  end.

(** The name of a field is what stands before the first colon; one blank after
    the colon does not belong to the value. *)
Fixpoint field (line : string) : string * string :=
  match line with
  | EmptyString => ("", "")
  | String ":" rest => ("", match rest with String " " value => value | _ => rest end)
  | String c rest => let '(name, value) := field rest in (String c name, value)
  end.
Definition comment (line : string) : Prop := exists rest, line = String ":" rest.
#[export] Instance comment_dec line : Decision (comment line).
Proof. destruct line as [|c rest]; [right; by intros []|]. destruct (decide (c = ":"%char)) as [->|]; [left; by exists rest|right; intros [? [= ]]; congruence]. Defined.

Definition fields (block : list string) : list (string * string) := field <$> filter (fun l => ~ comment l) block.
Definition values (name : string) (fs : list (string * string)) : list string := snd <$> filter (fun f => f.1 = name) fs.
Definition lastValue (name : string) (fs : list (string * string)) : string := default "" (last (values name fs)).

Fixpoint unlines (ls : list string) : string :=
  match ls with [] => "" | [l] => l | l :: ls' => l +:+ String LF (unlines ls') end.

(** A block without data and without a value of the other fields is no event. *)
Definition event (block : list string) : option Event :=
  let fs := fields block in
  let ev := mkEvent (lastValue "event" fs) (unlines (values "data" fs)) (lastValue "id" fs) (lastValue "retry" fs) in
  if bool_decide (values "data" fs = [] /\ ev_type ev = "" /\ ev_id ev = "" /\ ev_retry ev = "") then None else Some ev.

Definition events (input : string) : list Event :=
  omap event (blocks [] (lines (default input (CutPrefix bomPrefix input)))).

Example events_ex :
  events (of_bytes [239; 187; 191] +:+ ": hi" +:+ String LF ("data:a" +:+ String CR (String LF ("data:  b" +:+ String LF (String LF ("id:" +:+ String LF (String LF "retry: 5"))))))) =
  [mkEvent "" ("a" +:+ String LF " b") "" ""; mkEvent "" "" "" "5"].
Proof. vm_compute. reflexivity. Qed.

Lemma dropBreaks_snoc l c : dropBreaks (l ++ [c]) = match dropBreaks l with [] => dropBreaks [c] | l' => l' ++ [c] end.
Proof. induction l as [|d l IH]; [done|]. simpl. destruct (bool_decide (d = CR) || bool_decide (d = LF)); [exact IH|done]. Qed.

Lemma clean_cons c s : clean (String c s) = if bool_decide (clean s = "") && (bool_decide (c = CR) || bool_decide (c = LF)) then "" else String c (clean s).
Proof.
  unfold clean. cbn [list_ascii_of_string]. rewrite reverse_cons, dropBreaks_snoc.
  destruct (dropBreaks (reverse (list_ascii_of_string s))) as [|d l] eqn:E.
  - simpl. by destruct (bool_decide (c = CR) || bool_decide (c = LF)).
  - rewrite reverse_snoc. cbn [string_of_list_ascii]. rewrite bool_decide_false; [done|].
    rewrite reverse_cons. by destruct (reverse l).
Qed.

Lemma TrimRightCRLF_clean s : TrimRightCRLF s = clean s.
Proof. induction s as [|c s IH]; [done|]. rewrite clean_cons, <- IH. done. Qed.

Lemma splitField_field line : splitField line = field line.
Proof.
  unfold splitField. induction line as [|c line IH]; [done|]. cbn [CutByte]. case_bool_decide as Hc.
  - subst c. cbn [field]. f_equal. destruct line as [|d line]; [done|]. case_bool_decide as Hd; [by subst d|].
    destruct d as [[] [] [] [] [] [] [] []]; done.
  - assert (field (String c line) = let '(name, value) := field line in (String c name, value)) as ->.
    { destruct c as [[] [] [] [] [] [] [] []]; done. }
    rewrite <- IH. destruct (CutByte ":" line) as [[n v]|]; done.
Qed.

(** What the fields read so far have left in the accumulator. *)
Record holds (a : eventAcc) (fs : list (string * string)) : Prop := {
  ho_data : a_data a = unlines (values "data" fs);
  ho_count : a_dataCount a = Z.of_nat (length (values "data" fs));
  ho_type : a_type a = lastValue "event" fs;
  ho_id : a_id a = lastValue "id" fs;
  ho_retry : a_retry a = lastValue "retry" fs;
}.

Lemma values_snoc name fs f : values name (fs ++ [f]) = values name fs ++ (if bool_decide (f.1 = name) then [f.2] else []).
Proof. unfold values. rewrite filter_app, fmap_app, filter_cons, filter_nil. case_decide; case_bool_decide; done. Qed.

Lemma lastValue_snoc name fs f : lastValue name (fs ++ [f]) = if bool_decide (f.1 = name) then f.2 else lastValue name fs.
Proof. unfold lastValue. rewrite values_snoc. case_bool_decide; [by rewrite last_snoc|by rewrite app_nil_r]. Qed.

Lemma unlines_snoc ls l : unlines (ls ++ [l]) = unlines ls +:+ (if bool_decide (ls = []) then "" else String LF "") +:+ l.
Proof.
  induction ls as [|x ls IH]; [done|]. destruct ls as [|y ls]; [done|].
  rewrite (bool_decide_false (y :: ls = [])) in IH by done. rewrite (bool_decide_false (x :: y :: ls = [])) by done.
  change (unlines ((x :: y :: ls) ++ [l])) with (x +:+ String LF (unlines ((y :: ls) ++ [l]))). rewrite IH.
  change (unlines (x :: y :: ls)) with (x +:+ String LF (unlines (y :: ls))). by rewrite append_assoc, append_cons.
Qed.

Lemma holds_set a fs name value n : holds a fs -> holds (setField name value (addBytes n a)) (fs ++ [(name, value)]).
Proof.
  intros []. unfold setField, addBytes. repeat case_bool_decide; subst; split; cbn;
    rewrite ?lastValue_snoc, ?values_snoc; cbn; repeat case_bool_decide; rewrite ?app_nil_r; try done; try congruence.
  all: try (rewrite length_app; cbn; lia).
  all: rewrite unlines_snoc, ho_data0; destruct (values "data" fs); [try done; cbn in *; lia|rewrite bool_decide_false by done; try done; cbn in *; lia].
Qed.

Lemma holds_dispatch a fs : holds a fs ->
  dispatch a = negb (bool_decide (values "data" fs = [] /\ lastValue "event" fs = "" /\ lastValue "id" fs = "" /\ lastValue "retry" fs = "")).
Proof.
  intros []. unfold dispatch. f_equal. rewrite ho_count0, ho_type0, ho_id0, ho_retry0.
  rewrite (bool_decide_ext (Z.of_nat (length (values "data" fs)) = 0) (values "data" fs = [])) by (destruct (values "data" fs); [done|split; [intros H; exfalso; cbn in H; lia|done]]).
  repeat case_bool_decide; naive_solver.
Qed.

Lemma holds_event a block : holds a (fields block) -> event block = if dispatch a then Some (eventOf a) else None.
Proof.
  intros H. pose proof (holds_dispatch _ _ H) as ->. destruct H. unfold event. cbn [ev_type ev_id ev_retry].
  case_bool_decide; cbn [negb]; [done|]. unfold eventOf. congruence.
Qed.

Lemma holds_empty : holds emptyAcc (fields []).
Proof. by split. Qed.

(** Nothing to dispatch is nothing held. *)
Lemma holds_none a block : holds a (fields block) -> dispatch a = false -> holds a (fields []).
Proof.
  intros H Hd. pose proof (holds_dispatch _ _ H) as E. rewrite Hd in E. symmetry in E. apply negb_false_iff, bool_decide_eq_true in E.
  destruct E as (E1 & E2 & E3 & E4). destruct H. split; [by rewrite ho_data0, E1|by rewrite ho_count0, E1|by rewrite ho_type0, E2|by rewrite ho_id0, E3|by rewrite ho_retry0, E4].
Qed.

Lemma holds_feed a block line : line <> "" -> holds a (fields block) -> holds (feedLine line a) (fields (block ++ [line])).
Proof.
  intros Hne H. unfold feedLine, fields. rewrite (bool_decide_false (line = "")) by done. rewrite filter_app, filter_cons, filter_nil. cbn [orb].
  destruct (isComment line) eqn:Hc; destruct (decide (~ comment line)) as [Hn|Hn].
  - exfalso. apply Hn. destruct line as [|c rest]; [done|]. cbn in Hc. apply bool_decide_eq_true in Hc as ->. by exists rest.
  - by rewrite app_nil_r.
  - rewrite fmap_app. cbn. pose proof (splitField_field line) as <-. destruct (splitField line) as [name value]. by apply holds_set.
  - exfalso. apply Hn. intros [rest ->]. done.
Qed.

Lemma blocks_all block ls tail a : holds a (fields block) ->
  groupLines a ls tail = omap event (blocks block (clean <$> (ls ++ [tail]))).
Proof.
  revert a block. induction ls as [|l ls IH]; intros a block H; cbn [groupLines app fmap list_fmap blocks].
  - rewrite TrimRightCRLF_clean. case_bool_decide as E.
    + rewrite E. change (feedLine "" a) with a. cbn [omap list_omap]. rewrite (holds_event a block H). change (event []) with (@None Event). by destruct (dispatch a).
    + cbn [omap list_omap]. rewrite (holds_event _ _ (holds_feed a block _ E H)). by destruct (dispatch _).
  - rewrite TrimRightCRLF_clean. case_bool_decide as E.
    + cbn [andb omap list_omap]. rewrite (holds_event a block H). destruct (dispatch a) eqn:Hd.
      * f_equal. apply IH, holds_empty.
      * rewrite E. apply IH. by apply (holds_none a block).
    + apply IH. by apply holds_feed.
Qed.

Lemma eventsOf_events input : eventsOf input = events input.
Proof.
  unfold eventsOf, groupInput, events, lines, dataLines. destruct (splitLines _) as [ls tail]. apply blocks_all, holds_empty.
Qed.
End Format.

(** C34: the scanner implements the event-stream format ([Format.events]).  On
    any input, and with any limits, the loop over [Next] ends; what it delivers is
    always an initial part of the input's events: the mark at the start dropped,
    lines cut at newlines whatever the size of the read buffer and freed of the
    carriage returns at their end, comments skipped, the fields split at the first
    colon, the last value of each field kept, data fields joined as lines, an
    event at every blank line and at the end of the input.  It is all of them
    unless a limit is reported, and no limit is reported on an input no longer
    than both. *)
Theorem scanner_equivalence input maxLine maxEvent :
  let s := SetLimits maxLine maxEvent (NewScanner input None) in
  exists evs s', scanAll (S (String.length input)) s = Some (evs, s') /\
    (exists later, Format.events input = evs ++ later) /\
    (sc_err s' = None -> evs = Format.events input) /\
    (len input <= sc_maxLineBytes s -> len input <= sc_maxEventBytes s -> sc_err s' = None).
Proof.
  intros s. destruct (scanAll_spec (S (String.length input)) s) as (evs & s' & Hs & Hall & Hpre); [done|done|simpl; lia|].
  rewrite <- Format.eventsOf_events. exists evs, s'. split_and!; [done|done|done|]. intros Hl He. by apply (scanAll_small _ _ _ _ Hs).
Qed.

(** What is written is read back.  Any list of events the format can carry,
    with data of any number of lines, is scanned as exactly that list from its
    rendering, without an error, if the rendering is within the default limits. *)
Theorem scanner_roundtrip evs :
  Forall writable evs -> len (renderEvents evs) <= defaultMaxLineBytes ->
  exists s', scanAll (S (String.length (renderEvents evs))) (NewScanner (renderEvents evs) None) = Some (evs, s') /\
    sc_err s' = None.
Proof.
  intros Hw Hl. set (s := NewScanner (renderEvents evs) None).
  destruct (scanAll_spec (S (String.length (renderEvents evs))) s) as (evs' & s' & Hs & Hall & _); [done|done|simpl; lia|].
  assert (sc_err s' = None) as He.
  { apply (scanAll_small _ _ _ _ Hs); [done|done|exact Hl|]. etrans; [exact Hl|]. by vm_compute. }
  exists s'. split; [|done]. rewrite Hs, (Hall He).
  change (remaining s emptyAcc) with (eventsOf (renderEvents evs)). by rewrite eventsOf_render.
Qed.

Definition sampleEvents : list Event :=
  [mkEvent "message" ("first" +:+ String LF ("" +:+ String LF " second")) "1" ""; mkEvent "" "x: y" "" "1500"].

Lemma scanner_roundtrip_witness :
  exists s', scanAll (S (String.length (renderEvents sampleEvents))) (NewScanner (renderEvents sampleEvents) None) =
    Some (sampleEvents, s') /\ sc_err s' = None.
Proof.
  apply (scanner_roundtrip sampleEvents).
  - repeat constructor; vm_compute; discriminate.
  - vm_compute. discriminate.
Defined.
