(* ===== verification/Zfs.v ===== *)
(** * Zfs: storage datasets (internal/sandbox/zfs: zfs.go, errors.go, validate.go)

    The data and errors of the storage layer, the validation of names, and the
    interface [ZFSManager] with the contract its users rely on: a store of
    datasets, each with its snapshots in the order they were taken. *)

From Stdlib Require Import Ascii String.
From S2P Require Import Prelude GoStrings GoText GoFloat.

Local Open Scope string_scope.
Local Open Scope list_scope.

(** ** Errors (errors.go) *)

Inductive zfsSentinel : Type :=
  | InvalidName | DatasetNotFound | DatasetExists | SnapshotNotFound | SnapshotExists | SnapshotHeld | HasClones
  | PoolNotFound | PoolFaultedErr | Permission | Busy | PoolFull | NoSpace | CommandNotFound | NotFound | AlreadyExists.
#[export] Instance zfsSentinel_eq_dec : EqDecision zfsSentinel.
Proof. solve_decision. Defined.

(** [ZInvalid] is fmt.Errorf("%w: ...", ErrInvalidName) with the argument of
    its %q; [ZErrorf] an error that wraps none, [ZContext] that of a context. *)
Inductive zerror : Type :=
  | ZSentinel (s : zfsSentinel)
  | ZInvalid (reason : string) (arg : option string)
  | ZJoin (e1 e2 : zerror)
  | ZParse (what input : string) (cause : numError)
  | ZErrorf (message : string)
  | ZContext (message : string)
  | ZFSError (Op Command : string) (ExitCode : Z) (Stderr : string) (Err : zerror).

Definition ErrInvalidName := ZSentinel InvalidName.
Definition ErrDatasetNotFound := ZSentinel DatasetNotFound.
Definition ErrDatasetExists := ZSentinel DatasetExists.
Definition ErrSnapshotNotFound := ZSentinel SnapshotNotFound.
Definition ErrSnapshotExists := ZSentinel SnapshotExists.
Definition ErrSnapshotHeld := ZSentinel SnapshotHeld.
Definition ErrHasClones := ZSentinel HasClones.
Definition ErrPoolNotFound := ZSentinel PoolNotFound.
Definition ErrPoolFaulted := ZSentinel PoolFaultedErr.
Definition ErrPermission := ZSentinel Permission.
Definition ErrBusy := ZSentinel Busy.
Definition ErrPoolFull := ZSentinel PoolFull.
Definition ErrNoSpace := ZSentinel NoSpace.
Definition ErrCommandNotFound := ZSentinel CommandNotFound.
Definition ErrNotFound := ZSentinel NotFound.
Definition ErrAlreadyExists := ZSentinel AlreadyExists.

(** errors.Is against one of the package's sentinels. *)
Fixpoint zIs (s : zfsSentinel) (e : zerror) : bool :=
  match e with
  | ZSentinel s' => bool_decide (s = s')
  | ZInvalid _ _ => bool_decide (s = InvalidName)
  | ZJoin e1 e2 => zIs s e1 || zIs s e2
  | ZFSError _ _ _ _ e => zIs s e
  | ZParse _ _ _ | ZErrorf _ | ZContext _ => false
  end.

Definition wrapNotFound (specific : zerror) : zerror := ZJoin ErrNotFound specific.
Definition wrapExists (specific : zerror) : zerror := ZJoin ErrAlreadyExists specific.

Section Classify.
Context (unicodeToLower : string -> string).

(** [None] is the nil error: a hold that already exists. *)
Definition classifyError (op stderr : string) (exitCode : Z) : option zerror :=
  let has (sub : string) := Contains (ToLower unicodeToLower stderr) sub in
  if has "tag already exists on this dataset" then None
  else Some (
    if has "dataset does not exist" then wrapNotFound ErrDatasetNotFound
    else if has "snapshot does not exist" || has "could not find any snapshots" || has "no such tag on this dataset"
    then wrapNotFound ErrSnapshotNotFound
    else if has "no such pool" then wrapNotFound ErrPoolNotFound
    else if has "dataset already exists" then wrapExists ErrDatasetExists
    else if has "snapshot already exists" then wrapExists ErrSnapshotExists
    else if has "already exists" then ErrAlreadyExists
    else if has "dataset has dependent clones" then ErrHasClones
    else if has "snapshot has holds" then ErrSnapshotHeld
    else if has "dataset is busy" || has "resource busy" then ErrBusy
    else if has "permission denied" || has "operation not permitted" then ErrPermission
    else if has "pool is faulted" || has "state is faulted" then ErrPoolFaulted
    else if has "pool is full" then ErrPoolFull
    else if has "no space left" || has "out of space" then ErrNoSpace
    else if bool_decide (exitCode = 127)%Z then ErrCommandNotFound
    else ZErrorf ("zfs " +:+ op +:+ " failed: " +:+ TrimSpace stderr)).
End Classify.

(** ** Data (zfs.go); times are nanoseconds since 1970 *)

Record DatasetInfo : Type := mkDatasetInfo {
  di_Name : string; di_Mountpoint : string; di_Used : Z; di_Available : Z; di_Referenced : Z;
  di_Origin : string; di_Creation : Z;
}.

Record SnapshotInfo : Type := mkSnapshotInfo {
  si_Name : string; si_Dataset : string; si_Used : Z; si_Refer : Z; si_Creation : Z; si_Holds : Z;
}.

Definition PoolState : Type := string.
Definition PoolOnline : PoolState := "ONLINE".
Definition PoolDegraded : PoolState := "DEGRADED".
Definition PoolFaulted : PoolState := "FAULTED".
Definition PoolOffline : PoolState := "OFFLINE".
Definition PoolRemoved : PoolState := "REMOVED".
Definition PoolUnavail : PoolState := "UNAVAIL".

Record PoolStatus : Type := mkPoolStatus {
  ps_Name : string; ps_State : PoolState; ps_Scan : string; ps_Errors : string;
}.

Record PoolSpace : Type := mkPoolSpace {
  sp_Pool : string; sp_Size : Z; sp_Allocated : Z; sp_Free : Z; sp_Capacity : float64; sp_Fragmentation : float64;
}.

Record DatasetOptions : Type := mkDatasetOptions {
  do_Mountpoint : string; do_Properties : gmap string string; do_Quota : Z;
}.
Record DestroyOptions : Type := mkDestroyOptions { Recursive : bool; Force : bool; DependentClones : bool }.
Record RollbackOptions : Type := mkRollbackOptions { DestroyLater : bool }.
Record SendOptions : Type := mkSendOptions { Incremental : string; Raw : bool; Compressed : bool; LargeBlocks : bool }.

(** ** Validation (validate.go) *)

Definition datasetNamePattern : string -> bool := matchClass isAlnum (fun c => isAlnum c || oneOf "_.-:/" c).
Definition snapshotNamePattern : string -> bool := matchClass isAlnum (fun c => isAlnum c || oneOf "_.-" c).
Definition holdTagPattern : string -> bool := matchClass isAlnum (fun c => isAlnum c || oneOf "_.-" c).
Definition propertyNamePattern : string -> bool :=
  matchClass (fun c => isLower c || isDigit c) (fun c => isLower c || isDigit c || oneOf ":_.-" c).

Definition invalid {A} (reason : string) : res zerror A := Err (ZInvalid reason None).
Definition invalidq {A} (reason arg : string) : res zerror A := Err (ZInvalid reason (Some arg)).
Definition len (s : string) : Z := Z.of_nat (String.length s).

Fixpoint validateComponents (parts : list string) : res zerror () :=
  match parts with
  | [] => Ok ()
  | part :: parts' =>
      if bool_decide (part = "") then invalid "empty path component"
      else if bool_decide (len part > 255)%Z then invalid "component exceeds 255 characters"
      else validateComponents parts'
  end.

Definition ValidateName (name : string) : res zerror () :=
  if bool_decide (name = "") then invalid "empty name"
  else if bool_decide (len name > 1024)%Z then invalid "name exceeds 1024 characters"
  else if Contains name ".." then invalid "path traversal not allowed"
  else if HasPrefix name "/" || HasSuffix name "/" then invalid "name cannot start or end with '/'"
  else if negb (datasetNamePattern name) then invalidq "invalid characters in" name
  else validateComponents (SplitByte "/" name).

Definition ValidateSnapshotName (name : string) : res zerror () :=
  if bool_decide (name = "") then invalid "empty snapshot name"
  else if bool_decide (len name > 255)%Z then invalid "snapshot name exceeds 255 characters"
  else if negb (snapshotNamePattern name) then invalidq "invalid snapshot name" name
  else Ok ().

Definition ValidateSnapshotFullName (name : string) : res zerror () :=
  match SplitN2 "@" name with
  | [dataset; snap] =>
      match ValidateName dataset with
      | Err e => Err e
      | Ok _ => ValidateSnapshotName snap
      end
  | _ => invalid "full snapshot name must contain one '@'"
  end.

Definition ValidatePoolName (name : string) : res zerror () :=
  if ContainsByte "/" name then invalid "pool name cannot contain '/'" else ValidateName name.

Definition ValidateHoldTag (tag : string) : res zerror () :=
  if bool_decide (tag = "") then invalid "empty hold tag"
  else if bool_decide (len tag > 255)%Z then invalid "hold tag exceeds 255 characters"
  else if negb (holdTagPattern tag) then invalidq "invalid hold tag" tag
  else Ok ().

Definition dangerousProperties : gset string := {["exec"; "setuid"; "devices"]}.

Definition ValidatePropertyName (name : string) : res zerror () :=
  if bool_decide (name = "") then invalid "empty property name"
  else if negb (propertyNamePattern name) then invalidq "invalid property name" name
  else if bool_decide (name ∈ dangerousProperties) then invalidq "restricted property" name
  else Ok ().

(** filepath.IsAbs. *)
Definition IsAbs (path : string) : bool := HasPrefix path "/".

Definition ValidateMountpoint (path : string) : res zerror () :=
  if bool_decide (path = "") then invalid "empty mountpoint"
  else if negb (IsAbs path) then invalid "mountpoint must be absolute"
  else if Contains path ".." then invalid "mountpoint traversal not allowed"
  else Ok ().

Definition ValidateDevicePath (path : string) : res zerror () :=
  if bool_decide (path = "") then invalid "empty device path"
  else if negb (IsAbs path) then invalid "device path must be absolute"
  else Ok ().

(** strings.ContainsAny(value, "\n\r"). *)
Definition hasNewline (value : string) : bool := ContainsByte newline value || ContainsByte cr value.

(** ** Reading sizes (cli.go) *)

Definition parseSize (s : string) : res zerror Z :=
  match ParseInt (TrimSpace s) with
  | Ok v => Ok v
  | Err e => Err (ZParse "size" s e)
  end.

(** ** The interface (zfs.go)

    Contexts are left to the implementation.  A writer is a computation that
    takes the bytes; a reader the outcome of reading it to its end; [None] is
    nil. *)

Class ZFSManager (W : Type) : Type := {
  zfs_CreateDataset : string -> DatasetOptions -> M W (res zerror ());
  zfs_CloneFromSnapshot : string -> string -> M W (res zerror ());
  zfs_DestroyDataset : string -> DestroyOptions -> M W (res zerror ());
  zfs_GetMountpoint : string -> M W (res zerror string);
  zfs_SetMountpoint : string -> string -> M W (res zerror ());
  zfs_SetProperty : string -> string -> string -> M W (res zerror ());
  zfs_GetDatasetInfo : string -> M W (res zerror DatasetInfo);
  zfs_ListDatasets : string -> M W (res zerror (list DatasetInfo));
  zfs_DatasetExists : string -> M W (res zerror bool);
  zfs_CreateSnapshot : string -> string -> M W (res zerror SnapshotInfo);
  zfs_Rollback : string -> string -> RollbackOptions -> M W (res zerror ());
  zfs_ListSnapshots : string -> M W (res zerror (list SnapshotInfo));
  zfs_DestroySnapshot : string -> string -> M W (res zerror ());
  zfs_HoldSnapshot : string -> string -> string -> M W (res zerror ());
  zfs_ReleaseSnapshot : string -> string -> string -> M W (res zerror ());
  zfs_SnapshotExists : string -> string -> M W (res zerror bool);
  zfs_PoolStatus : string -> M W (res zerror PoolStatus);
  zfs_PoolSpace : string -> M W (res zerror PoolSpace);
  zfs_ImportPool : string -> string -> M W (res zerror ());
  zfs_ExportPool : string -> M W (res zerror ());
  zfs_EstimateSendSize : string -> SendOptions -> M W (res zerror Z);
  zfs_Send : string -> SendOptions -> option (string -> M W (res zerror ())) -> M W (res zerror ());
  zfs_Receive : string -> option (res zerror string) -> M W (res zerror ());
}.

(** ** The contract

    A store maps every dataset to its snapshots, oldest first.  Each operation
    has a specification: what its result says about the stores before and
    after.  [refines view spec m] is the simulation: [m] started in a world
    that shows [v] ends in one that shows a [v'] the specification allows. *)

Notation Store := (gmap string (list string)).

(** The snapshots up to and including [s]. *)
Fixpoint upto (s : string) (l : list string) : list string :=
  match l with
  | [] => []
  | x :: l' => if bool_decide (x = s) then [x] else x :: upto s l'
  end.

Definition below (d d' : string) : bool := HasPrefix d' (d +:+ "/").

Definition spec_read {A} (v : Store) (r : res zerror A) (v' : Store) : Prop := v' = v.

Definition spec_CloneFromSnapshot (d : string) (v : Store) (r : res zerror ()) (v' : Store) : Prop :=
  match r with
  | Ok _ => v !! d = None /\ v' = <[d := []]> v
  | Err _ => v' = v
  end.

Definition spec_DestroyDataset (d : string) (v : Store) (r : res zerror ()) (v' : Store) : Prop :=
  match r with
  | Ok _ => v' !! d = None /\ forall d', d' <> d -> below d d' = false -> v' !! d' = v !! d'
  | Err _ => v' = v
  end.

Definition spec_CreateSnapshot (d s : string) (v : Store) (r : res zerror SnapshotInfo) (v' : Store) : Prop :=
  match r with
  | Ok info => exists l, v !! d = Some l /\ s ∉ l /\ si_Name info = s /\ v' = <[d := l ++ [s]]> v
  | Err _ => v' = v
  end.

Definition spec_Rollback (d s : string) (v : Store) (r : res zerror ()) (v' : Store) : Prop :=
  match r with
  | Ok _ => exists l, v !! d = Some l /\ s ∈ l /\ v' = <[d := upto s l]> v
  | Err _ => v' = v
  end.

Definition spec_DestroySnapshot (d s : string) (v : Store) (r : res zerror ()) (v' : Store) : Prop :=
  match r with
  | Ok _ => exists l, v !! d = Some l /\ s ∈ l /\ v' = <[d := filter (fun x => x <> s) l]> v
  | Err _ => v' = v
  end.

Definition spec_ListSnapshots (d : string) (v : Store) (r : res zerror (list SnapshotInfo)) (v' : Store) : Prop :=
  v' = v /\ match r with Ok infos => (si_Name <$> infos) ≡ₚ default [] (v !! d) | Err _ => True end.

Definition spec_CreateDataset (d : string) (v : Store) (r : res zerror ()) (v' : Store) : Prop :=
  match r with
  | Ok _ => v !! d = None /\ v' = <[d := []]> v
  | Err _ => v' = v
  end.

(** Receiving into an existing dataset adds no snapshot of its own. *)
Definition spec_Receive (d : string) (v : Store) (r : res zerror ()) (v' : Store) : Prop :=
  match r with
  | Ok _ => v' = <[d := default [] (v !! d)]> v
  | Err _ => v' = v
  end.

Definition spec_SnapshotExists (d s : string) (v : Store) (r : res zerror bool) (v' : Store) : Prop :=
  v' = v /\ match r with Ok b => b = true <-> s ∈ default [] (v !! d) | Err _ => True end.

Definition refines {W A} (view : W -> Store -> Prop) (spec : Store -> res zerror A -> Store -> Prop)
    (m : M W (res zerror A)) : Prop :=
  forall w v, view w v -> exists v', spec v (m w).1 v' /\ view (m w).2 v'.

(** The contract, for the operations that read or change what a store shows. *)
Class ZFSLaw (W : Type) `{!ZFSManager W} (view : W -> Store -> Prop) : Prop := {
  law_CloneFromSnapshot o d : refines view (spec_CloneFromSnapshot d) (zfs_CloneFromSnapshot o d);
  law_DestroyDataset d opts : refines view (spec_DestroyDataset d) (zfs_DestroyDataset d opts);
  law_GetMountpoint d : refines view spec_read (zfs_GetMountpoint d);
  law_SetProperty d p x : refines view spec_read (zfs_SetProperty d p x);
  law_CreateSnapshot d s : refines view (spec_CreateSnapshot d s) (zfs_CreateSnapshot d s);
  law_Rollback d s : refines view (spec_Rollback d s) (zfs_Rollback d s (mkRollbackOptions true));
  law_ListSnapshots d : refines view (spec_ListSnapshots d) (zfs_ListSnapshots d);
  law_DestroySnapshot d s : refines view (spec_DestroySnapshot d s) (zfs_DestroySnapshot d s);
  law_CreateDataset d opts : refines view (spec_CreateDataset d) (zfs_CreateDataset d opts);
  law_SetMountpoint d p : refines view spec_read (zfs_SetMountpoint d p);
  law_GetDatasetInfo d : refines view spec_read (zfs_GetDatasetInfo d);
  law_ListDatasets d : refines view spec_read (zfs_ListDatasets d);
  law_DatasetExists d : refines view spec_read (zfs_DatasetExists d);
  law_SnapshotExists d s : refines view (spec_SnapshotExists d s) (zfs_SnapshotExists d s);
  law_HoldSnapshot d s t : refines view spec_read (zfs_HoldSnapshot d s t);
  law_ReleaseSnapshot d s t : refines view spec_read (zfs_ReleaseSnapshot d s t);
  law_Receive d r : refines view (spec_Receive d) (zfs_Receive d r);
  law_PoolStatus p : refines view spec_read (zfs_PoolStatus p);
  law_PoolSpace p : refines view spec_read (zfs_PoolSpace p);
}.

(** ** What validation guarantees *)

Lemma matchClass_allBytes first rest s :
  (forall c, first c = true -> rest c = true) -> matchClass first rest s = true -> allBytes rest s = true.
Proof.
  intros Hfr. destruct s as [|c s]; [done|]. simpl. rewrite !andb_true_iff. naive_solver.
Qed.

(** A text that is no command-line option and stays one argument: it starts
    with a letter or a digit. *)
Definition startsAlnum (s : string) : bool :=
  match s with EmptyString => false | String c _ => isAlnum c end.

Lemma matchClass_startsAlnum rest s : matchClass isAlnum rest s = true -> startsAlnum s = true.
Proof. destruct s as [|c s]; [done|]. simpl. rewrite andb_true_iff. naive_solver. Qed.

Ltac invert_validation :=
  repeat match goal with
  | H : context [if ?b then _ else _] |- _ => destruct b eqn:?; try discriminate H
  | H : negb _ = false |- _ => apply negb_false_iff in H
  | H : bool_decide _ = true |- _ => apply bool_decide_eq_true in H
  | H : bool_decide _ = false |- _ => apply bool_decide_eq_false in H
  end.

Lemma ValidateName_pattern n : ValidateName n = Ok () -> datasetNamePattern n = true.
Proof. unfold ValidateName. intros H. by invert_validation. Qed.

Lemma ValidateSnapshotName_pattern n : ValidateSnapshotName n = Ok () -> snapshotNamePattern n = true.
Proof. unfold ValidateSnapshotName. intros H. by invert_validation. Qed.

Lemma ValidateName_startsAlnum n : ValidateName n = Ok () -> startsAlnum n = true.
Proof. intros H. eapply matchClass_startsAlnum, ValidateName_pattern, H. Qed.

Lemma ValidateSnapshotName_startsAlnum n : ValidateSnapshotName n = Ok () -> startsAlnum n = true.
Proof. intros H. eapply matchClass_startsAlnum, ValidateSnapshotName_pattern, H. Qed.

Lemma ValidateName_no_at n : ValidateName n = Ok () -> ContainsByte "@" n = false.
Proof.
  intros H%ValidateName_pattern%matchClass_allBytes; [|by intros c ->].
  by apply (allBytes_no_byte _ _ _ H).
Qed.

Lemma ValidateSnapshotName_no_at n : ValidateSnapshotName n = Ok () -> ContainsByte "@" n = false.
Proof.
  intros H%ValidateSnapshotName_pattern%matchClass_allBytes; [|by intros c ->].
  by apply (allBytes_no_byte _ _ _ H).
Qed.

(** dataset@snapshot, for a dataset without '@', determines both. *)
Lemma fullName_inj d d' s s' :
  ContainsByte "@" d = false -> ContainsByte "@" d' = false ->
  d +:+ "@" +:+ s = d' +:+ "@" +:+ s' -> d = d' /\ s = s'.
Proof.
  intros Hd Hd' H. apply (f_equal (CutByte "@")) in H.
  change (d +:+ "@" +:+ s) with (d +:+ String "@" s) in H. change (d' +:+ "@" +:+ s') with (d' +:+ String "@" s') in H.
  rewrite !CutByte_app in H by done. by simplify_eq.
Qed.

Lemma SplitN2_full d s : ContainsByte "@" d = false -> SplitN2 "@" (d +:+ "@" +:+ s) = [d; s].
Proof. intros Hd. unfold SplitN2. change (d +:+ "@" +:+ s) with (d +:+ String "@" s). by rewrite CutByte_app. Qed.

Lemma ValidateSnapshotFullName_spec n :
  ValidateSnapshotFullName n = Ok () <->
  exists d s, n = d +:+ "@" +:+ s /\ ValidateName d = Ok () /\ ValidateSnapshotName s = Ok ().
Proof.
  unfold ValidateSnapshotFullName. split.
  - unfold SplitN2. destruct (CutByte "@" n) as [[d s]|] eqn:E; [|done]. apply CutByte_Some in E as [-> _].
    destruct (ValidateName d) as [[]|] eqn:Hd; [|done]. eauto.
  - intros (d & s & -> & Hd & Hs). by rewrite SplitN2_full, Hd by by apply ValidateName_no_at.
Qed.

(** The prefix test of the code finds exactly the snapshots of the dataset. *)
Lemma HasPrefix_full d d' s :
  ContainsByte "@" d = false -> ContainsByte "@" d' = false ->
  HasPrefix (d' +:+ "@" +:+ s) (d +:+ "@") = bool_decide (d = d').
Proof.
  intros Hd Hd'. case_bool_decide as E.
  - subst. rewrite HasPrefix_spec. exists s. by rewrite append_assoc_l.
  - apply not_true_iff_false. rewrite HasPrefix_spec. intros [t H]. apply E.
    rewrite <- append_assoc_l in H. by apply fullName_inj in H as [-> _].
Qed.

(** ** Lists of snapshots *)

Lemma upto_prefix s l : upto s l `prefix_of` l.
Proof.
  induction l as [|x l IH]; [done|]. simpl. case_bool_decide; [by exists l|]. by apply prefix_cons.
Qed.

Lemma upto_elem s l : s ∈ l -> s ∈ upto s l.
Proof.
  induction l as [|x l IH]; [done|]. simpl. case_bool_decide; [set_solver|].
  rewrite !elem_of_cons. naive_solver.
Qed.

Lemma upto_split s l : s ∈ l -> exists l1 l2, l = l1 ++ s :: l2 /\ s ∉ l1 /\ upto s l = l1 ++ [s].
Proof.
  induction l as [|x l IH]; [set_solver|]. simpl. case_bool_decide as E.
  - subst. intros _. exists [], l. set_solver.
  - rewrite elem_of_cons. intros [->|H]; [done|]. destruct (IH H) as (l1 & l2 & -> & Hn & ->).
    exists (x :: l1), l2. split; [done|]. split; [set_solver|done].
Qed.
