(* ===== verification/ZfsMock.v ===== *)
(** * ZfsMock: the in-memory storage manager (internal/sandbox/zfs/mock.go)

    [MockManager] keeps datasets and snapshots in two flat maps, the snapshots
    under "dataset@snapshot" with a sequence number.  The second half shows
    that it implements the contract of [Zfs].

    Each method is one critical section; the injected error is read before it.
    The clock is a list of readings to come; [order] is the order in which Go
    visits the snapshot map. *)

From Stdlib Require Import Ascii String.
From S2P Require Import Prelude GoStrings GoText Zfs.

Local Open Scope string_scope.
Local Open Scope list_scope.

Record mockDataset : Type := mkMockDataset { md_info : DatasetInfo }.

Record mockSnapshot : Type := mkMockSnapshot { ms_info : SnapshotInfo; ms_tags : gset string; ms_seq : Z }.

Record MockManager : Type := mkMockManager {
  datasets : gmap string mockDataset;
  snapshots : gmap string mockSnapshot;
  errors : gmap string zerror;
  seq : Z;
}.

Definition NewMockManager : MockManager := mkMockManager ∅ ∅ ∅ 0.

Record MockWorld : Type := mkMockWorld { mock : MockManager; clock : list Z }.

Definition set_datasets (d : gmap string mockDataset) (m : MockManager) : MockManager :=
  mkMockManager d (snapshots m) (errors m) (seq m).
Definition set_snapshots (s : gmap string mockSnapshot) (m : MockManager) : MockManager :=
  mkMockManager (datasets m) s (errors m) (seq m).

Notation MM := (M MockWorld).

Definition mget {A} (f : MockManager -> A) : MM A := gets (fun w => f (mock w)).
Definition mmod (f : MockManager -> MockManager) : MM () := modify (fun w => mkMockWorld (f (mock w)) (clock w)).

(** time.Now().UTC(): the next reading. *)
Definition Now : MM Z := fun w =>
  match clock w with
  | [] => (0%Z, w)
  | t :: ts => (t, mkMockWorld (mock w) ts)
  end.

(** [if err := e; err != nil { return err }]. *)
Definition guard {A} (e : res zerror ()) (k : MM (res zerror A)) : MM (res zerror A) :=
  match e with Ok _ => k | Err e => mret (Err e) end.

Definition injected (op : string) : MM (option zerror) := mget (fun m => errors m !! op).

Definition unlessInjected {A} (op : string) (k : MM (res zerror A)) : MM (res zerror A) :=
  e ← injected op;
  match e with Some e => mret (Err e) | None => k end.

Definition SetError (op : string) (err : option zerror) : MM () :=
  mmod (fun m => mkMockManager (datasets m) (snapshots m)
                   (match err with None => delete op (errors m) | Some e => <[op := e]> (errors m) end) (seq m)).
Definition ClearError (op : string) : MM () := SetError op None.

Definition notFound {A} (e : zerror) : res zerror A := Err (ZJoin ErrNotFound e).
Definition exists_ {A} (e : zerror) : res zerror A := Err (ZJoin ErrAlreadyExists e).
Definition full (dataset snapName : string) : string := dataset +:+ "@" +:+ snapName.

(** The dataset, or the error of a missing one. *)
Definition withDataset {A} (name : string) (k : mockDataset -> MM (res zerror A)) : MM (res zerror A) :=
  ds ← mget (fun m => datasets m !! name);
  match ds with None => mret (notFound ErrDatasetNotFound) | Some ds => k ds end.
Definition withSnapshot {A} (key : string) (k : mockSnapshot -> MM (res zerror A)) : MM (res zerror A) :=
  s ← mget (fun m => snapshots m !! key);
  match s with None => mret (notFound ErrSnapshotNotFound) | Some s => k s end.

Definition putDataset (name : string) (info : DatasetInfo) : MM () :=
  mmod (fun m => set_datasets (<[name := mkMockDataset info]> (datasets m)) m).
Definition putSnapshot (key : string) (s : mockSnapshot) : MM () :=
  mmod (fun m => set_snapshots (<[key := s]> (snapshots m)) m).

(** ** Datasets *)

Definition CreateDataset (name : string) (opts : DatasetOptions) : MM (res zerror ()) :=
  unlessInjected "CreateDataset" (
  guard (ValidateName name) (
  guard (if bool_decide (do_Mountpoint opts = "") then Ok () else ValidateMountpoint (do_Mountpoint opts)) (
  known ← mget (fun m => datasets m !! name);
  match known with
  | Some _ => mret (exists_ ErrDatasetExists)
  | None =>
      let mountpoint := if bool_decide (do_Mountpoint opts = "") then "/" +:+ name else do_Mountpoint opts in
      now ← Now;
      putDataset name (mkDatasetInfo name mountpoint 0 (do_Quota opts) 0 "" now);;
      mret (Ok ())
  end))).

Definition CloneFromSnapshot (snapshot newDataset : string) : MM (res zerror ()) :=
  unlessInjected "CloneFromSnapshot" (
  guard (ValidateSnapshotFullName snapshot) (
  guard (ValidateName newDataset) (
  known ← mget (fun m => datasets m !! newDataset);
  match known with
  | Some _ => mret (exists_ ErrDatasetExists)
  | None =>
      withSnapshot snapshot (fun ms =>
      now ← Now;
      let refer := si_Refer (ms_info ms) in
      putDataset newDataset (mkDatasetInfo newDataset ("/" +:+ newDataset) refer 0 refer snapshot now);;
      mret (Ok ()))
  end))).

(** The snapshots of another dataset than [name]. *)
Definition withoutDataset (name : string) (snaps : gmap string mockSnapshot) : gmap string mockSnapshot :=
  filter (fun '(key, _) => HasPrefix key (name +:+ "@") = false) snaps.

Definition DestroyDataset (name : string) (opts : DestroyOptions) : MM (res zerror ()) :=
  unlessInjected "DestroyDataset" (
  guard (ValidateName name) (
  withDataset name (fun _ =>
  hasChild ← mget (fun m => bool_decide (map_Exists (fun dataset _ => HasPrefix dataset (name +:+ "/") = true) (datasets m)));
  if negb (Recursive opts) && hasChild then mret (Err ErrBusy)
  else
    mmod (fun m => set_snapshots (withoutDataset name (snapshots m)) (set_datasets (delete name (datasets m)) m));;
    mret (Ok ())))).

Definition GetMountpoint (dataset : string) : MM (res zerror string) :=
  unlessInjected "GetMountpoint" (
  guard (ValidateName dataset) (
  withDataset dataset (fun ds => mret (Ok (di_Mountpoint (md_info ds)))))).

Definition SetMountpoint (dataset mountpoint : string) : MM (res zerror ()) :=
  unlessInjected "SetMountpoint" (
  guard (ValidateName dataset) (
  guard (ValidateMountpoint mountpoint) (
  withDataset dataset (fun ds =>
    let i := md_info ds in
    putDataset dataset (mkDatasetInfo (di_Name i) mountpoint (di_Used i) (di_Available i) (di_Referenced i) (di_Origin i) (di_Creation i));;
    mret (Ok ()))))).

Definition SetProperty (dataset property value : string) : MM (res zerror ()) :=
  unlessInjected "SetProperty" (
  guard (ValidateName dataset) (
  guard (ValidatePropertyName property) (
  guard (if hasNewline value then invalid "property value contains newline" else Ok ()) (
  withDataset dataset (fun ds =>
    let i := md_info ds in
    if bool_decide (di_Available i = 0%Z) && bool_decide (property = "quota") then
      match parseSize value with
      | Ok quota =>
          putDataset dataset (mkDatasetInfo (di_Name i) (di_Mountpoint i) (di_Used i) quota (di_Referenced i) (di_Origin i) (di_Creation i));;
          mret (Ok ())
      | Err _ => mret (Ok ())
      end
    else mret (Ok ())))))).

Definition GetDatasetInfo (name : string) : MM (res zerror DatasetInfo) :=
  unlessInjected "GetDatasetInfo" (
  guard (ValidateName name) (
  withDataset name (fun ds => mret (Ok (md_info ds))))).

Definition byName (a b : DatasetInfo) : Prop := String.le (di_Name a) (di_Name b).
#[export] Instance byName_dec a b : Decision (byName a b) := String.le_dec (di_Name a) (di_Name b).

Definition ListDatasets (parent : string) : MM (res zerror (list DatasetInfo)) :=
  unlessInjected "ListDatasets" (
  guard (ValidateName parent) (
  items ← mget (fun m =>
    md_info ∘ snd <$> filter (fun '(name, _) => name = parent \/ HasPrefix name (parent +:+ "/") = true) (map_to_list (datasets m)));
  mret (Ok (merge_sort byName items)))).

Definition DatasetExists (name : string) : MM (res zerror bool) :=
  unlessInjected "DatasetExists" (
  r ← GetDatasetInfo name;
  mret (match r with
        | Ok _ => Ok true
        | Err e => if zIs DatasetNotFound e || zIs NotFound e then Ok false else Err e
        end)).

(** ** Snapshots *)

Definition CreateSnapshot (dataset snapName : string) : MM (res zerror SnapshotInfo) :=
  unlessInjected "CreateSnapshot" (
  guard (ValidateName dataset) (
  guard (ValidateSnapshotName snapName) (
  withDataset dataset (fun ds =>
  known ← mget (fun m => snapshots m !! full dataset snapName);
  match known with
  | Some _ => mret (exists_ ErrSnapshotExists)
  | None =>
      now ← Now;
      n ← mget seq;
      let info := mkSnapshotInfo snapName dataset 0 (di_Referenced (md_info ds)) now 0 in
      mmod (fun m => mkMockManager (datasets m) (<[full dataset snapName := mkMockSnapshot info ∅ n]> (snapshots m))
                       (errors m) (n + 1));;
      mret (Ok info)
  end)))).

(** The snapshots of [dataset] younger than [targetSeq] removed. *)
Definition rolledBack (dataset : string) (targetSeq : Z) (snaps : gmap string mockSnapshot) : gmap string mockSnapshot :=
  filter (fun '(key, snap) => HasPrefix key (dataset +:+ "@") = false \/ (ms_seq snap <= targetSeq)%Z) snaps.

Definition Rollback (dataset snapName : string) (opts : RollbackOptions) : MM (res zerror ()) :=
  unlessInjected "Rollback" (
  guard (ValidateName dataset) (
  guard (ValidateSnapshotName snapName) (
  withSnapshot (full dataset snapName) (fun target =>
  if negb (DestroyLater opts) then mret (Ok ())
  else
    mmod (fun m => set_snapshots (rolledBack dataset (ms_seq target) (snapshots m)) m);;
    mret (Ok ()))))).

Definition byCreation (a b : SnapshotInfo) : Prop := (si_Creation a <= si_Creation b)%Z.
#[export] Instance byCreation_dec a b : Decision (byCreation a b) := Z.le_dec (si_Creation a) (si_Creation b).

Definition withHolds (snap : mockSnapshot) : SnapshotInfo :=
  let i := ms_info snap in
  mkSnapshotInfo (si_Name i) (si_Dataset i) (si_Used i) (si_Refer i) (si_Creation i) (Z.of_nat (size (ms_tags snap))).

Section Order.
Context (order : list (string * mockSnapshot) -> list (string * mockSnapshot)).

Definition ListSnapshots (dataset : string) : MM (res zerror (list SnapshotInfo)) :=
  unlessInjected "ListSnapshots" (
  guard (ValidateName dataset) (
  items ← mget (fun m =>
    withHolds ∘ snd <$> filter (fun '(key, _) => HasPrefix key (dataset +:+ "@") = true) (order (map_to_list (snapshots m))));
  mret (Ok (merge_sort byCreation items)))).
End Order.

Definition DestroySnapshot (dataset snapName : string) : MM (res zerror ()) :=
  unlessInjected "DestroySnapshot" (
  guard (ValidateName dataset) (
  guard (ValidateSnapshotName snapName) (
  withSnapshot (full dataset snapName) (fun snap =>
  if bool_decide (0 < size (ms_tags snap))%nat then mret (Err ErrSnapshotHeld)
  else
    mmod (fun m => set_snapshots (delete (full dataset snapName) (snapshots m)) m);;
    mret (Ok ()))))).

(** What [HoldSnapshot] and [ReleaseSnapshot] do to the tags. *)
Definition retag (op dataset snapName tag : string) (f : gset string -> gset string) : MM (res zerror ()) :=
  unlessInjected op (
  guard (ValidateName dataset) (
  guard (ValidateSnapshotName snapName) (
  guard (ValidateHoldTag tag) (
  withSnapshot (full dataset snapName) (fun snap =>
    putSnapshot (full dataset snapName) (mkMockSnapshot (ms_info snap) (f (ms_tags snap)) (ms_seq snap));;
    mret (Ok ())))))).
Definition HoldSnapshot (dataset snapName tag : string) : MM (res zerror ()) :=
  retag "HoldSnapshot" dataset snapName tag (fun tags => tags ∪ {[tag]}).
Definition ReleaseSnapshot (dataset snapName tag : string) : MM (res zerror ()) :=
  retag "ReleaseSnapshot" dataset snapName tag (fun tags => tags ∖ {[tag]}).

Definition SnapshotExists (dataset snapName : string) : MM (res zerror bool) :=
  unlessInjected "SnapshotExists" (
  guard (ValidateName dataset) (
  guard (ValidateSnapshotName snapName) (
  known ← mget (fun m => snapshots m !! full dataset snapName);
  mret (Ok (bool_decide (is_Some known)))))).

(** ** Pools and transfers *)

Definition withPool {A} (op pool : string) (k : MM (res zerror A)) : MM (res zerror A) :=
  unlessInjected op (
  guard (ValidatePoolName pool) (
  if bool_decide (pool = "missing") then mret (notFound ErrPoolNotFound) else k)).

Definition PoolStatus (pool : string) : MM (res zerror Zfs.PoolStatus) :=
  withPool "PoolStatus" pool (mret (Ok (mkPoolStatus pool PoolOnline "" ""))).

Definition zeroFloat : GoFloat.float64 := GoFloat.float_of 0.
Definition PoolSpace (pool : string) : MM (res zerror Zfs.PoolSpace) :=
  withPool "PoolSpace" pool (mret (Ok (mkPoolSpace pool 0 0 0 zeroFloat zeroFloat))).

Definition ImportPool (pool device : string) : MM (res zerror ()) :=
  unlessInjected "ImportPool" (guard (ValidatePoolName pool) (mret (ValidateDevicePath device))).
Definition ExportPool (pool : string) : MM (res zerror ()) :=
  unlessInjected "ExportPool" (mret (ValidatePoolName pool)).

(** The checks [EstimateSendSize] and [Send] share. *)
Definition withSendable {A} (op snapshot : string) (opts : SendOptions) (k : MM (res zerror A)) : MM (res zerror A) :=
  unlessInjected op (
  guard (ValidateSnapshotFullName snapshot) (
  guard (if bool_decide (Incremental opts = "") then Ok () else ValidateSnapshotFullName (Incremental opts)) (
  withSnapshot snapshot (fun _ => k)))).

Definition EstimateSendSize (snapshot : string) (opts : SendOptions) : MM (res zerror Z) :=
  withSendable "EstimateSendSize" snapshot opts (mret (Ok 0%Z)).

Definition Send (snapshot : string) (opts : SendOptions) (w : option (string -> MM (res zerror ()))) : MM (res zerror ()) :=
  withSendable "Send" snapshot opts (
  match w with
  | None => mret (Err (ZErrorf "writer is nil"))
  | Some write => write "mock-zfs-stream"
  end).

Definition Receive (dataset : string) (r : option (res zerror string)) : MM (res zerror ()) :=
  unlessInjected "Receive" (
  guard (ValidateName dataset) (
  match r with
  | None => mret (Err (ZErrorf "reader is nil"))
  | Some (Err e) => mret (Err e)
  | Some (Ok _) =>
      known ← mget (fun m => datasets m !! dataset);
      match known with
      | Some _ => mret (Ok ())
      | None =>
          now ← Now;
          putDataset dataset (mkDatasetInfo dataset ("/" +:+ dataset) 0 0 0 "" now);;
          mret (Ok ())
      end
  end)).

#[export] Instance MockManager_ZFSManager (order : list (string * mockSnapshot) -> list (string * mockSnapshot)) :
    ZFSManager MockWorld := {
  zfs_CreateDataset := CreateDataset; zfs_CloneFromSnapshot := CloneFromSnapshot; zfs_DestroyDataset := DestroyDataset;
  zfs_GetMountpoint := GetMountpoint; zfs_SetMountpoint := SetMountpoint; zfs_SetProperty := SetProperty;
  zfs_GetDatasetInfo := GetDatasetInfo; zfs_ListDatasets := ListDatasets; zfs_DatasetExists := DatasetExists;
  zfs_CreateSnapshot := CreateSnapshot; zfs_Rollback := Rollback; zfs_ListSnapshots := ListSnapshots order;
  zfs_DestroySnapshot := DestroySnapshot; zfs_HoldSnapshot := HoldSnapshot; zfs_ReleaseSnapshot := ReleaseSnapshot;
  zfs_SnapshotExists := SnapshotExists; zfs_PoolStatus := PoolStatus; zfs_PoolSpace := PoolSpace;
  zfs_ImportPool := ImportPool; zfs_ExportPool := ExportPool; zfs_EstimateSendSize := EstimateSendSize;
  zfs_Send := Send; zfs_Receive := Receive;
}.
