(* ===== verification/ZfsMockProps.v ===== *)
(** * ZfsMockProps: the in-memory manager implements the storage contract

    [mock_view w v]: the two flat maps of the world [w] show the store [v].
    The keys of a dataset's snapshots are found by a prefix test on
    "dataset@"; no dataset name contains '@', so the test is exact, and the
    sequence numbers give each dataset's snapshots their order. *)

From Stdlib Require Import Ascii String.
From S2P Require Import Prelude GoStrings GoText Zfs ZfsMock.

Local Open Scope string_scope.
Local Open Scope list_scope.

(** Every snapshot lies under the key of its dataset, which exists, and has a
    number of its own below the next one; dataset names have no '@'. *)
Record mock_ok (m : MockManager) : Prop := {
  ok_dataset n : is_Some (datasets m !! n) -> ContainsByte "@" n = false;
  ok_snapshot key s : snapshots m !! key = Some s ->
    key = full (si_Dataset (ms_info s)) (si_Name (ms_info s)) /\
    is_Some (datasets m !! si_Dataset (ms_info s)) /\ (ms_seq s < seq m)%Z;
  ok_seq k1 k2 s1 s2 : snapshots m !! k1 = Some s1 -> snapshots m !! k2 = Some s2 ->
    ms_seq s1 = ms_seq s2 -> k1 = k2;
}.

(** The snapshots [l] of [d], oldest first: the names along increasing numbers. *)
Definition shows (m : MockManager) (d : string) (l : list string) : Prop :=
  exists ps : list (string * Z),
    ps.*1 = l /\ StronglySorted (fun a b => (a.2 < b.2)%Z) ps /\
    forall s q, (s, q) ∈ ps <-> exists sn, snapshots m !! full d s = Some sn /\ ms_seq sn = q.

Definition mock_view (w : MockWorld) (v : Store) : Prop :=
  mock_ok (mock w) /\
  (forall d, is_Some (v !! d) <-> is_Some (datasets (mock w) !! d)) /\
  forall d l, v !! d = Some l -> shows (mock w) d l.

(** ** Taking a method apart *)

Definition sim {A} (spec : Store -> res zerror A -> Store -> Prop) (w : MockWorld) (v : Store) (m : MM (res zerror A)) : Prop :=
  exists v', spec v (m w).1 v' /\ mock_view (m w).2 v'.

Class ErrSame {A} (spec : Store -> res zerror A -> Store -> Prop) : Prop := err_same v e : spec v (Err e) v.
#[export] Instance spec_read_err A : ErrSame (A := A) spec_read := fun v e => eq_refl.
#[export] Instance spec_Clone_err d : ErrSame (spec_CloneFromSnapshot d) := fun v e => eq_refl.
#[export] Instance spec_Destroy_err d : ErrSame (spec_DestroyDataset d) := fun v e => eq_refl.
#[export] Instance spec_Create_err d s : ErrSame (spec_CreateSnapshot d s) := fun v e => eq_refl.
#[export] Instance spec_Rollback_err d s : ErrSame (spec_Rollback d s) := fun v e => eq_refl.
#[export] Instance spec_DestroySnap_err d s : ErrSame (spec_DestroySnapshot d s) := fun v e => eq_refl.
#[export] Instance spec_List_err d : ErrSame (spec_ListSnapshots d) := fun v e => conj eq_refl I.

#[export] Instance spec_CreateDataset_err d : ErrSame (spec_CreateDataset d) := fun v e => eq_refl.
#[export] Instance spec_Receive_err d : ErrSame (spec_Receive d) := fun v e => eq_refl.
#[export] Instance spec_Exists_err d s : ErrSame (spec_SnapshotExists d s) := fun v e => conj eq_refl I.

Section Sim.
Context {A : Type} (spec : Store -> res zerror A -> Store -> Prop) `{!ErrSame spec}.
Context (w : MockWorld) (v : Store) (Hv : mock_view w v).

Lemma sim_err e : sim spec w v (mret (Err e)).
Proof. exists v. split; [apply err_same|done]. Qed.

Lemma sim_unlessInjected op k : sim spec w v k -> sim spec w v (unlessInjected op k).
Proof.
  intros Hk. unfold sim, unlessInjected, injected, mget. rewrite M_bind_eq. simpl.
  destruct (errors (mock w) !! op); [apply sim_err|apply Hk].
Qed.

Lemma sim_guard e k : (e = Ok () -> sim spec w v k) -> sim spec w v (guard e k).
Proof. destruct e as [[]|e]; [naive_solver|intros; apply sim_err]. Qed.

Lemma sim_withDataset name k :
  (forall ds, datasets (mock w) !! name = Some ds -> sim spec w v (k ds)) -> sim spec w v (withDataset name k).
Proof.
  intros Hk. unfold sim, withDataset, mget. rewrite M_bind_eq. simpl.
  destruct (datasets (mock w) !! name) eqn:E; [by apply Hk|apply sim_err].
Qed.

Lemma sim_withSnapshot key k :
  (forall s, snapshots (mock w) !! key = Some s -> sim spec w v (k s)) -> sim spec w v (withSnapshot key k).
Proof.
  intros Hk. unfold sim, withSnapshot, mget. rewrite M_bind_eq. simpl.
  destruct (snapshots (mock w) !! key) eqn:E; [by apply Hk|apply sim_err].
Qed.

Lemma sim_mget {B} (f : MockManager -> B) (k : B -> MM (res zerror A)) :
  sim spec w v (k (f (mock w))) -> sim spec w v (b ← mget f; k b).
Proof. intros Hk. unfold sim. rewrite !M_bind_eq. apply Hk. Qed.
End Sim.

Ltac sim_step :=
  match goal with
  | |- sim _ _ _ (unlessInjected _ _) => apply sim_unlessInjected; [apply _|done|]
  | |- sim _ _ _ (guard _ _) => apply sim_guard; [apply _|done|]; intros ?
  | |- sim _ _ _ (withDataset _ _) => apply sim_withDataset; [apply _|done|]; intros ? ?
  | |- sim _ _ _ (withSnapshot _ _) => apply sim_withSnapshot; [apply _|done|]; intros ? ?
  | |- sim _ _ _ (mbind _ (mget _)) => apply sim_mget
  | |- sim _ _ _ (mret (Err _)) => by apply sim_err
  | |- sim _ _ _ (mret (exists_ _)) => by apply sim_err
  | |- sim _ _ _ (match ?x with _ => _ end) => destruct x eqn:?
  end.
Ltac sim_tac := repeat sim_step.

(** ** Changes of the world *)

Lemma Now_mock w : mock (Now w).2 = mock w.
Proof. unfold Now. by destruct (clock w). Qed.

(** What is shown depends on the datasets' names, the snapshots and the counter. *)
Lemma mock_view_same w w' v :
  mock_view w v ->
  (forall d, is_Some (datasets (mock w') !! d) <-> is_Some (datasets (mock w) !! d)) ->
  snapshots (mock w') = snapshots (mock w) -> seq (mock w') = seq (mock w) ->
  mock_view w' v.
Proof.
  intros (Hok & Hdom & Hl) Hd Hs Hq. split; [|split].
  - destruct Hok as [H1 H2 H3]. split; rewrite ?Hs, ?Hq.
    + intros n Hn. apply H1, Hd, Hn.
    + intros key s Hk. rewrite Hd. by apply H2.
    + done.
  - intros d. by rewrite Hd.
  - intros d l Hv. destruct (Hl d l Hv) as (ps & ? & ? & Hps). exists ps. by rewrite Hs.
Qed.

Lemma mock_view_put w w' v n info :
  mock_view w v -> is_Some (datasets (mock w) !! n) ->
  mock w' = set_datasets (<[n := mkMockDataset info]> (datasets (mock w))) (mock w) -> mock_view w' v.
Proof.
  intros Hv Hn Hw. eapply mock_view_same; [done| |by rewrite Hw..].
  intros d. rewrite Hw. simpl. rewrite lookup_insert_is_Some. destruct (decide (n = d)) as [->|]; naive_solver.
Qed.

Lemma full_inj w v d d' s s' :
  mock_view w v -> is_Some (v !! d) -> is_Some (v !! d') -> full d s = full d' s' -> d = d' /\ s = s'.
Proof.
  intros (Hok & Hdom & _) Hd Hd'. apply fullName_inj; eapply ok_dataset; try done; by apply Hdom.
Qed.

(** The snapshots under [d] have [d] as their dataset. *)
Lemma ok_snapshot_of w v d s sn :
  mock_view w v -> is_Some (v !! d) -> snapshots (mock w) !! full d s = Some sn ->
  si_Dataset (ms_info sn) = d /\ si_Name (ms_info sn) = s.
Proof.
  intros Hv Hd Hs. pose proof Hv as (Hok & Hdom & _). destruct (ok_snapshot _ Hok _ _ Hs) as (Hk & Hds & _).
  apply Hdom in Hds. destruct (full_inj _ _ _ _ _ _ Hv Hd Hds Hk). done.
Qed.

Lemma view_None w v d : mock_view w v -> datasets (mock w) !! d = None -> v !! d = None.
Proof. intros (_ & Hdom & _) Hd. apply eq_None_not_Some. rewrite Hdom, Hd. by intros []. Qed.

Lemma mock_view_new w w' v d info :
  mock_view w v -> ContainsByte "@" d = false -> datasets (mock w) !! d = None ->
  mock w' = set_datasets (<[d := mkMockDataset info]> (datasets (mock w))) (mock w) ->
  mock_view w' (<[d := []]> v).
Proof.
  intros Hv Hat Hd Hw. pose proof Hv as (Hok & Hdom & Hl). split; [|split].
  - rewrite Hw. destruct Hok as [H1 H2 H3]. split; simpl; [| |done].
    + intros n. rewrite lookup_insert_is_Some. intros [->|[_ ?]]; [done|by apply H1].
    + intros key s Hk. destruct (H2 _ _ Hk) as (-> & ? & ?). split_and!; try done.
      rewrite lookup_insert_is_Some. destruct (decide (d = si_Dataset (ms_info s))); auto.
  - intros n. rewrite Hw. simpl. rewrite !lookup_insert_is_Some'. by rewrite Hdom.
  - intros n l. rewrite lookup_insert_Some. intros [[<- <-]|[Hn Hvn]].
    + exists []. split; [done|]. split; [constructor|]. intros s q. split; [by intros ?%not_elem_of_nil|].
      intros (sn & Hs & _). rewrite Hw in Hs. simpl in Hs. destruct (ok_snapshot _ Hok _ _ Hs) as (Hk & Hds & _).
      apply fullName_inj in Hk as [Hdd _]; [|done|by eapply ok_dataset]. rewrite <- Hdd, Hd in Hds. by destruct Hds.
    + destruct (Hl _ _ Hvn) as (ps & ? & ? & Hps). exists ps. rewrite Hw. done.
Qed.

(** Removing snapshots: [keep] says which of [d] stay, and all of the others do. *)
Lemma mock_view_filter w w' v d l (keep : string -> mockSnapshot -> Prop) `{!forall k s, Decision (keep k s)} l' :
  mock_view w v -> v !! d = Some l ->
  mock w' = set_snapshots (filter (fun '(k, s) => keep k s) (snapshots (mock w))) (mock w) ->
  (forall d' s sn, d' <> d -> is_Some (v !! d') -> snapshots (mock w) !! full d' s = Some sn -> keep (full d' s) sn) ->
  (forall ps, ps.*1 = l -> StronglySorted (fun a b => (a.2 < b.2)%Z) ps ->
     (forall s q, (s, q) ∈ ps <-> exists sn, snapshots (mock w) !! full d s = Some sn /\ ms_seq sn = q) ->
     exists ps', ps'.*1 = l' /\ sublist ps' ps /\
       forall s q, (s, q) ∈ ps' <-> exists sn, snapshots (mock w) !! full d s = Some sn /\ ms_seq sn = q /\ keep (full d s) sn) ->
  mock_view w' (<[d := l']> v).
Proof.
  intros Hv Hd Hw Hother Hthis. pose proof Hv as (Hok & Hdom & Hl).
  assert (forall k s, snapshots (mock w') !! k = Some s <-> snapshots (mock w) !! k = Some s /\ keep k s) as Hsn.
  { intros k s. rewrite Hw. simpl. by rewrite map_lookup_filter_Some. }
  assert (datasets (mock w') = datasets (mock w)) as Hds by (by rewrite Hw).
  assert (seq (mock w') = seq (mock w)) as Hsq by (by rewrite Hw).
  split; [|split].
  - destruct Hok as [H1 H2 H3]. split; rewrite ?Hds, ?Hsq; [done| |].
    + intros k s [Hk _]%Hsn. by apply H2.
    + intros k1 k2 s1 s2 [Hk1 _]%Hsn [Hk2 _]%Hsn. by apply (H3 _ _ _ _ Hk1 Hk2).
  - intros n. rewrite Hds, lookup_insert_is_Some', Hdom. assert (is_Some (datasets (mock w) !! d)) by (apply Hdom; by rewrite Hd).
    destruct (decide (d = n)) as [->|]; naive_solver.
  - intros n l0. rewrite lookup_insert_Some. intros [[<- <-]|[Hn Hvn]].
    + destruct (Hl _ _ Hd) as (ps & Hps1 & Hps2 & Hps3). destruct (Hthis _ Hps1 Hps2 Hps3) as (ps' & <- & Hsub & Hps').
      exists ps'. split; [done|]. split; [by eapply StronglySorted_sublist|]. intros s q. rewrite Hps'.
      setoid_rewrite Hsn. naive_solver.
    + destruct (Hl _ _ Hvn) as (ps & ? & ? & Hps). exists ps. split; [done|]. split; [done|]. intros s q. rewrite Hps.
      setoid_rewrite Hsn. split; [|naive_solver]. intros (sn & Hs & <-). exists sn. split_and!; try done.
      eapply Hother; [done| |done]. by rewrite Hvn.
Qed.

(** ** The methods *)

Lemma mock_clone o d : refines mock_view (spec_CloneFromSnapshot d) (CloneFromSnapshot o d).
Proof.
  intros w v Hv. change (sim (spec_CloneFromSnapshot d) w v (CloneFromSnapshot o d)).
  unfold CloneFromSnapshot. sim_tac. unfold sim. rewrite !M_bind_eq. simpl.
  exists (<[d := []]> v). split; [split; [by eapply view_None|done]|].
  eapply mock_view_new; [done|by apply ValidateName_no_at|done|]. simpl. by rewrite !Now_mock.
Qed.

Lemma withoutDataset_keep w v d d' s sn :
  mock_view w v -> is_Some (v !! d) -> is_Some (v !! d') -> snapshots (mock w) !! full d' s = Some sn ->
  HasPrefix (full d' s) (d +:+ "@") = bool_decide (d = d').
Proof.
  intros (Hok & Hdom & _) Hd Hd' _. apply HasPrefix_full; eapply ok_dataset; try done; by apply Hdom.
Qed.

Lemma mock_destroy d opts : refines mock_view (spec_DestroyDataset d) (DestroyDataset d opts).
Proof.
  intros w v Hv. change (sim (spec_DestroyDataset d) w v (DestroyDataset d opts)).
  unfold DestroyDataset. sim_tac. unfold sim. rewrite !M_bind_eq. simpl.
  exists (delete d v). split.
  { split; [by rewrite lookup_delete_eq|]. intros d' Hne _. by rewrite lookup_delete_ne. }
  pose proof Hv as (Hok & Hdom & Hl). assert (is_Some (v !! d)) as Hd by (apply Hdom; eauto).
  assert (forall k s, withoutDataset d (snapshots (mock w)) !! k = Some s <->
            snapshots (mock w) !! k = Some s /\ si_Dataset (ms_info s) <> d) as Hsn.
  { intros k s. unfold withoutDataset. rewrite map_lookup_filter_Some.
    split; intros [Hk Hp]; split; try done; destruct (ok_snapshot _ Hok _ _ Hk) as (-> & Hds & _);
      apply Hdom in Hds; rewrite (withoutDataset_keep w v d _ _ s) in * by done.
    - apply bool_decide_eq_false in Hp. naive_solver.
    - apply bool_decide_eq_false_2. naive_solver. }
  split; [|split]; simpl.
  - destruct Hok as [H1 H2 H3]. split; simpl.
    + intros n Hn. apply H1. rewrite lookup_delete_is_Some in Hn. naive_solver.
    + intros k s [Hk Hne]%Hsn. destruct (H2 _ _ Hk) as (? & ? & ?). split_and!; try done.
      rewrite lookup_delete_is_Some. naive_solver.
    + intros k1 k2 s1 s2 [Hk1 _]%Hsn [Hk2 _]%Hsn. by apply (H3 _ _ _ _ Hk1 Hk2).
  - intros n. by rewrite !lookup_delete_is_Some, Hdom.
  - intros n l [Hne Hvn]%lookup_delete_Some. destruct (Hl _ _ Hvn) as (ps & ? & ? & Hps).
    exists ps. split; [done|]. split; [done|]. intros s q. rewrite Hps. simpl. setoid_rewrite Hsn.
    split; [|naive_solver]. intros (sn & Hs & <-). exists sn. split_and!; try done.
    by destruct (ok_snapshot_of _ _ n s sn Hv ltac:(by rewrite Hvn) Hs) as [-> _].
Qed.

Lemma mock_read_state {A} (m : MM (res zerror A)) w v :
  mock_view w v -> (m w).2 = w -> sim spec_read w v m.
Proof. intros Hv Hm. exists v. split; [done|]. by rewrite Hm. Qed.

Lemma mock_mountpoint d : refines mock_view spec_read (GetMountpoint d).
Proof.
  intros w v Hv. change (sim spec_read w v (GetMountpoint d)). unfold GetMountpoint. sim_tac. by apply mock_read_state.
Qed.

Lemma mock_setproperty d p x : refines mock_view spec_read (SetProperty d p x).
Proof.
  intros w v Hv. change (sim spec_read w v (SetProperty d p x)). unfold SetProperty. sim_tac; try by apply mock_read_state.
  exists v. split; [done|]. eapply mock_view_put; [done| |by rewrite M_bind_eq]. eauto.
Qed.

Lemma StronglySorted_snoc {A} (R : relation A) l x :
  StronglySorted R l -> Forall (fun y => R y x) l -> StronglySorted R (l ++ [x]).
Proof.
  induction 1 as [|y l Hl IH Hy]; intros Hx; simpl; [by repeat constructor|].
  apply Forall_cons in Hx as [Hyx Hx]. constructor; [by apply IH|]. apply Forall_app. by split; [|constructor].
Qed.

Lemma mock_create d s : refines mock_view (spec_CreateSnapshot d s) (CreateSnapshot d s).
Proof.
  intros w v Hv. change (sim (spec_CreateSnapshot d s) w v (CreateSnapshot d s)).
  unfold CreateSnapshot. sim_tac. unfold sim. rewrite !M_bind_eq. simpl. rewrite Now_mock.
  pose proof Hv as (Hok & Hdom & Hl). assert (is_Some (v !! d)) as [l Hd] by (apply Hdom; eauto).
  destruct (Hl _ _ Hd) as (ps & Hps1 & Hps2 & Hps3).
  set (n := seq (mock w)).
  assert (forall s' q, (s', q) ∈ ps -> s' <> s /\ (q < n)%Z) as Hold.
  { intros s' q (sn & Hs & <-)%Hps3. split; [intros ->; congruence|]. by apply (ok_snapshot _ Hok _ _ Hs). }
  eexists. split; [exists l; split_and!; [done| |done|done]|].
  { rewrite <- Hps1. intros ([s' q] & -> & Hin)%list_elem_of_fmap. by apply Hold in Hin as [? _]. }
  set (sn0 := mkMockSnapshot _ ∅ n).
  split; [|split]; simpl.
  - destruct Hok as [K1 K2 K3]. split; simpl; [done| |].
    + intros k sn [[<- <-]|[Hk Hsn]]%lookup_insert_Some; simpl; [split_and!; [done|by apply Hdom|unfold n; lia]|].
      destruct (K2 _ _ Hsn) as (? & ? & ?). split_and!; [done..|]. unfold n. lia.
    + intros k1 k2 s1 s2 Hk1 Hk2. rewrite lookup_insert_Some in Hk1, Hk2.
      destruct Hk1 as [[<- <-]|[_ Hk1]], Hk2 as [[<- <-]|[_ Hk2]]; try done; simpl.
      * apply K2 in Hk2 as (_ & _ & ?). unfold n. lia.
      * apply K2 in Hk1 as (_ & _ & ?). unfold n. lia.
      * by apply K3.
  - intros d'. rewrite lookup_insert_is_Some', Hdom. split; [intros [<-|]; [by apply Hdom|done]|auto].
  - intros d' l' [[<- <-]|[Hne Hd']]%lookup_insert_Some.
    + exists (ps ++ [(s, n)]). split; [by rewrite fmap_app, Hps1|]. split.
      { apply StronglySorted_snoc; [done|]. apply Forall_forall. intros [s' q] Hin. simpl. by apply Hold in Hin as [_ ?]. }
      intros s' q. simpl. rewrite elem_of_app, list_elem_of_singleton, Hps3. split.
      * intros [(sn & Hs & <-)|[= -> ->]].
        -- exists sn. split; [|done]. rewrite lookup_insert_ne; [done|]. intros E. rewrite <- E in Hs. congruence.
        -- exists sn0. by rewrite lookup_insert_eq.
      * intros (sn & Hs & <-). apply lookup_insert_Some in Hs as [[E <-]|[_ Hs]]; [right|left; eauto].
        by destruct (full_inj _ _ _ _ _ _ Hv (mk_is_Some _ _ Hd) (mk_is_Some _ _ Hd) E) as [_ <-].
    + destruct (Hl _ _ Hd') as (ps' & ? & ? & Hps'). exists ps'. split; [done|]. split; [done|]. intros s' q. rewrite Hps'.
      simpl. rewrite lookup_insert_ne; [done|]. intros E. apply Hne. by destruct (full_inj _ _ _ _ _ _ Hv (mk_is_Some _ _ Hd) (mk_is_Some _ _ Hd') E).
Qed.

(** A snapshot that is found belongs to a dataset that is shown with it. *)
Lemma shown_snapshot w v d s sn :
  mock_view w v -> ValidateName d = Ok () -> snapshots (mock w) !! full d s = Some sn ->
  exists l, v !! d = Some l /\ s ∈ l.
Proof.
  intros Hv Hd Hs. pose proof Hv as (Hok & Hdom & Hl).
  destruct (ok_snapshot _ Hok _ _ Hs) as (E & Hds & _). unfold full in E.
  apply fullName_inj in E as [E _]; [|by apply ValidateName_no_at|by eapply ok_dataset].
  rewrite <- E in Hds. apply Hdom in Hds as [l Hvd]. exists l. split; [done|].
  destruct (Hl _ _ Hvd) as (ps & <- & _ & Hps). apply list_elem_of_fmap. exists (s, ms_seq sn).
  split; [done|]. apply Hps. eauto.
Qed.

Lemma mock_rollback d s : refines mock_view (spec_Rollback d s) (Rollback d s (mkRollbackOptions true)).
Proof.
  intros w v Hv. change (sim (spec_Rollback d s) w v (Rollback d s (mkRollbackOptions true))).
  unfold Rollback. sim_tac; [done|]. unfold sim. rewrite !M_bind_eq. simpl.
  rename s0 into target. destruct (shown_snapshot w v d s target) as (l & Hd & Hsl); [done..|].
  exists (<[d := upto s l]> v). split; [by exists l|].
  eapply (mock_view_filter _ _ _ _ _ (fun key snap => HasPrefix key (d +:+ "@") = false \/ (ms_seq snap <= ms_seq target)%Z));
    [done|done|done| |].
  - intros d' s' sn Hne Hd' Hs. left. rewrite (withoutDataset_keep w v d d' s' sn) by (done || eauto).
    by apply bool_decide_eq_false_2.
  - intros ps Hps1 Hps2 Hps3.
    destruct (upto_split _ _ Hsl) as (l1 & l2 & El & Hn & ->). rewrite El in Hps1.
    apply fmap_app_inv in Hps1 as (p1 & p2' & -> & Ep2 & ->). symmetry in Ep2.
    apply fmap_cons_inv in Ep2 as ([s0 q0] & p2 & -> & -> & ->). simpl in *.
    assert (q0 = ms_seq target) as ->.
    { destruct (proj1 (Hps3 s0 q0) ltac:(set_solver)) as (sn & Hs & <-). congruence. }
    apply StronglySorted_app in Hps2 as (Hbefore & _ & [_ Hafter]%StronglySorted_inv).
    exists (p1 ++ [(s0, ms_seq target)]). split; [by rewrite fmap_app|]. split.
    { apply sublist_app; [done|]. apply sublist_skip, sublist_nil_l. }
    intros s' q. split.
    + intros Hin. destruct (proj1 (Hps3 s' q) ltac:(set_solver)) as (sn & Hs & <-). exists sn. split_and!; [done..|right].
      apply elem_of_app in Hin as [Hin|Hin%list_elem_of_singleton]; [|by simplify_eq].
      specialize (Hbefore _ (s0, ms_seq target) Hin ltac:(set_solver)). simpl in Hbefore. lia.
    + intros (sn & Hs & <- & Hk). destruct Hk as [Hk|Hk].
      { rewrite (withoutDataset_keep w v d d s' sn) in Hk by (done || eauto). by apply bool_decide_eq_false in Hk. }
      assert ((s', ms_seq sn) ∈ p1 ++ (s0, ms_seq target) :: p2) as Hin by (apply Hps3; eauto).
      rewrite elem_of_app, elem_of_cons in Hin. destruct Hin as [?|[?|Hin]]; [set_solver..|].
      rewrite Forall_forall in Hafter. specialize (Hafter _ Hin). simpl in Hafter. lia.
Qed.

Lemma filter_fst_sublist (s : string) (ps : list (string * Z)) :
  (filter (fun p => p.1 <> s) ps).*1 = filter (fun x => x <> s) ps.*1.
Proof.
  induction ps as [|[x q] ps IH]; [done|]. rewrite fmap_cons, !filter_cons. simpl.
  destruct (decide (x <> s)); [by rewrite fmap_cons, IH|done].
Qed.

Lemma mock_destroySnapshot d s : refines mock_view (spec_DestroySnapshot d s) (DestroySnapshot d s).
Proof.
  intros w v Hv. change (sim (spec_DestroySnapshot d s) w v (DestroySnapshot d s)).
  unfold DestroySnapshot. sim_tac. unfold sim. rewrite !M_bind_eq. simpl.
  destruct (shown_snapshot w v d s s0) as (l & Hd & Hsl); [done..|].
  exists (<[d := filter (fun x => x <> s) l]> v). split; [by exists l|].
  eapply (mock_view_filter _ _ _ _ _ (fun key _ => key <> full d s)); [done|done| | |].
  - unfold set_snapshots. simpl. f_equal. apply map_eq. intros k. rewrite map_lookup_filter.
    destruct (decide (k = full d s)) as [->|Hne].
    + rewrite lookup_delete_eq. destruct (snapshots _ !! _); [|done]. simpl. by rewrite option_guard_False by naive_solver.
    + rewrite lookup_delete_ne by done. destruct (snapshots _ !! k); [|done]. simpl. by rewrite option_guard_True.
  - intros d' s' sn Hne Hd' _ E. by destruct (full_inj _ _ _ _ _ _ Hv Hd' (mk_is_Some _ _ Hd) E).
  - intros ps <- Hps2 Hps3. exists (filter (fun p => p.1 <> s) ps).
    split; [apply filter_fst_sublist|]. split; [apply sublist_filter|].
    intros s' q. rewrite list_elem_of_filter, Hps3. simpl. split.
    + intros (Hne & sn & Hs & <-). exists sn. split_and!; [done..|]. intros E.
      by destruct (full_inj _ _ _ _ _ _ Hv (mk_is_Some _ _ Hd) (mk_is_Some _ _ Hd) E).
    + intros (sn & Hs & <- & Hne). split; [naive_solver|eauto].
Qed.

Lemma mock_createDataset d opts : refines mock_view (spec_CreateDataset d) (CreateDataset d opts).
Proof.
  intros w v Hv. change (sim (spec_CreateDataset d) w v (CreateDataset d opts)).
  unfold CreateDataset. sim_tac; unfold sim; rewrite !M_bind_eq; simpl; exists (<[d := []]> v);
    (split; [split; [by eapply view_None|done]|]);
    (eapply mock_view_new; [done|by apply ValidateName_no_at|done|]); simpl; by rewrite !Now_mock.
Qed.

Lemma mock_setMountpoint d p : refines mock_view spec_read (SetMountpoint d p).
Proof.
  intros w v Hv. change (sim spec_read w v (SetMountpoint d p)). unfold SetMountpoint. sim_tac.
  exists v. split; [done|]. eapply mock_view_put; [done| |by rewrite M_bind_eq]. eauto.
Qed.

Lemma mock_receive d r : refines mock_view (spec_Receive d) (Receive d r).
Proof.
  intros w v Hv. change (sim (spec_Receive d) w v (Receive d r)). pose proof Hv as (_ & Hdom & _).
  unfold Receive. sim_tac.
  - exists v. split; [|done]. simpl. destruct (proj2 (Hdom d) (mk_is_Some _ _ Heqo0)) as [l Hl].
    rewrite Hl. simpl. by rewrite insert_id.
  - unfold sim. rewrite !M_bind_eq. simpl. exists (<[d := []]> v). rewrite (view_None w v d) by done.
    split; [done|]. eapply mock_view_new; [done|by apply ValidateName_no_at|done|]. simpl. by rewrite !Now_mock.
Qed.

(** Tags are not shown. *)
Lemma mock_view_retag w w' v key s tags :
  mock_view w v -> snapshots (mock w) !! key = Some s ->
  mock w' = set_snapshots (<[key := mkMockSnapshot (ms_info s) tags (ms_seq s)]> (snapshots (mock w))) (mock w) ->
  mock_view w' v.
Proof.
  intros (Hok & Hdom & Hl) Hs Hw.
  assert (forall k sn, snapshots (mock w') !! k = Some sn ->
            exists sn0, snapshots (mock w) !! k = Some sn0 /\ ms_info sn0 = ms_info sn /\ ms_seq sn0 = ms_seq sn) as H1.
  { intros k sn. rewrite Hw. simpl. intros [[<- <-]|[_ ?]]%lookup_insert_Some; eauto. }
  assert (forall k sn0, snapshots (mock w) !! k = Some sn0 ->
            exists sn, snapshots (mock w') !! k = Some sn /\ ms_seq sn = ms_seq sn0) as H2.
  { intros k sn0 Hk. rewrite Hw. simpl. destruct (decide (key = k)) as [<-|]; [|rewrite lookup_insert_ne by done; eauto].
    rewrite lookup_insert_eq. simplify_eq. eauto. }
  assert (datasets (mock w') = datasets (mock w) /\ seq (mock w') = seq (mock w)) as [Hds Hq] by (by rewrite Hw).
  split; [|split].
  - destruct Hok as [K1 K2 K3]. split; rewrite ?Hds, ?Hq; [done| |].
    + intros k sn (sn0 & Hk & <- & <-)%H1. by apply K2.
    + intros k1 k2 s1 s2 (s1' & Hk1 & _ & <-)%H1 (s2' & Hk2 & _ & <-)%H1. by eapply K3.
  - by rewrite Hds.
  - intros d l Hd. destruct (Hl _ _ Hd) as (ps & ? & ? & Hps). exists ps. split; [done|]. split; [done|].
    intros n q. rewrite Hps. split.
    + intros (sn0 & Hk & <-). destruct (H2 _ _ Hk) as (sn & ? & ?). eauto.
    + intros (sn & (sn0 & ? & _ & ?)%H1 & <-). eauto.
Qed.

Lemma mock_retag op d s t f : refines mock_view spec_read (retag op d s t f).
Proof.
  intros w v Hv. change (sim spec_read w v (retag op d s t f)). unfold retag. sim_tac.
  exists v. split; [done|]. by eapply mock_view_retag; [done|done|rewrite M_bind_eq].
Qed.

Lemma mock_snapshotExists d s : refines mock_view (spec_SnapshotExists d s) (SnapshotExists d s).
Proof.
  intros w v Hv. change (sim (spec_SnapshotExists d s) w v (SnapshotExists d s)). unfold SnapshotExists. sim_tac.
  exists v. split; [|done]. split; [done|]. simpl. rewrite bool_decide_eq_true. split.
  - intros [sn Hs]. by destruct (shown_snapshot w v d s sn) as (l & -> & ?).
  - intros Hin. destruct (v !! d) as [l|] eqn:Hd; simpl in Hin; [|set_solver].
    destruct Hv as (_ & _ & Hl). destruct (Hl _ _ Hd) as (ps & <- & _ & Hps).
    apply list_elem_of_fmap in Hin as ([s' q] & -> & (sn & ? & _)%Hps). eauto.
Qed.

Lemma mock_getDatasetInfo d : refines mock_view spec_read (GetDatasetInfo d).
Proof.
  intros w v Hv. change (sim spec_read w v (GetDatasetInfo d)). unfold GetDatasetInfo. sim_tac. by apply mock_read_state.
Qed.

Lemma mock_listDatasets d : refines mock_view spec_read (ListDatasets d).
Proof.
  intros w v Hv. change (sim spec_read w v (ListDatasets d)). unfold ListDatasets. sim_tac. by apply mock_read_state.
Qed.

Lemma mock_datasetExists d : refines mock_view spec_read (DatasetExists d).
Proof.
  intros w v Hv. change (sim spec_read w v (DatasetExists d)). unfold DatasetExists. sim_tac.
  destruct (mock_getDatasetInfo d w v Hv) as (v' & -> & Hv'). exists v. split; [done|]. by rewrite M_bind_eq.
Qed.

Lemma mock_poolStatus p : refines mock_view spec_read (PoolStatus p).
Proof.
  intros w v Hv. change (sim spec_read w v (PoolStatus p)). unfold PoolStatus, withPool. sim_tac; by apply mock_read_state.
Qed.

Lemma mock_poolSpace p : refines mock_view spec_read (PoolSpace p).
Proof.
  intros w v Hv. change (sim spec_read w v (PoolSpace p)). unfold PoolSpace, withPool. sim_tac; by apply mock_read_state.
Qed.

Section Listing.
Context (order : list (string * mockSnapshot) -> list (string * mockSnapshot)).
Context (order_perm : forall l, order l ≡ₚ l).

(** The entries of [d] that the listing visits. *)
Definition listed (m : MockManager) (d : string) : list (string * mockSnapshot) :=
  filter (fun '(key, _) => HasPrefix key (d +:+ "@") = true) (order (map_to_list (snapshots m))).

Lemma listed_elem w v d k sn :
  mock_view w v -> is_Some (v !! d) ->
  (k, sn) ∈ listed (mock w) d <->
  snapshots (mock w) !! k = Some sn /\ k = full d (si_Name (ms_info sn)).
Proof.
  intros Hv Hd. unfold listed. rewrite list_elem_of_filter, order_perm, elem_of_map_to_list.
  pose proof Hv as (Hok & Hdom & _). split; intros [H1 H2].
  - split; [done|]. destruct (ok_snapshot _ Hok _ _ H2) as (E & Hds & _). apply Hdom in Hds. rewrite E in H1.
    rewrite (withoutDataset_keep w v d _ _ sn) in H1 by (done || by rewrite <- E).
    apply bool_decide_eq_true in H1. by rewrite H1.
  - split; [|done]. rewrite H2, (withoutDataset_keep w v d d _ sn) by (done || by rewrite <- H2). by apply bool_decide_eq_true_2.
Qed.

Lemma listed_names w v d l :
  mock_view w v -> v !! d = Some l -> (si_Name ∘ ms_info ∘ snd <$> listed (mock w) d) ≡ₚ l.
Proof.
  intros Hv Hd. pose proof Hv as (_ & _ & Hl). destruct (Hl _ _ Hd) as (ps & <- & Hsorted & Hps).
  assert (is_Some (v !! d)) as Hsome by eauto.
  apply NoDup_Permutation.
  - apply NoDup_fmap_2_strong.
    + intros [k1 s1] [k2 s2] [Hs1 ->]%(listed_elem w v) [Hs2 ->]%(listed_elem w v) E; [|done..].
      unfold compose in E. simpl in E. rewrite E in *. congruence.
    + apply NoDup_filter. rewrite order_perm. apply NoDup_map_to_list.
  - apply NoDup_fmap_2_strong.
    + intros [s1 q1] [s2 q2] (sn1 & Hs1 & <-)%Hps (sn2 & Hs2 & <-)%Hps E. simpl in E. subst. congruence.
    + eapply StronglySorted_NoDup, Hsorted. intros x. simpl. lia.
  - intros s. rewrite !list_elem_of_fmap. split.
    + intros ([k sn] & -> & [Hs ->]%(listed_elem w v)); [|done..]. unfold compose. simpl.
      exists (si_Name (ms_info sn), ms_seq sn). split; [done|]. apply Hps. eauto.
    + intros ([s' q] & -> & (sn & Hs & <-)%Hps). simpl. exists (full d s', sn).
      destruct (ok_snapshot_of w v d s' sn Hv Hsome Hs) as [_ Hn]. split; [done|].
      apply (listed_elem w v); [done..|]. by rewrite Hn.
Qed.

Lemma listed_none w v d :
  mock_view w v -> ValidateName d = Ok () -> v !! d = None -> listed (mock w) d = [].
Proof.
  intros Hv Hn Hd. pose proof Hv as (Hok & Hdom & _). destruct (listed (mock w) d) as [|[k sn] l] eqn:E; [done|].
  assert ((k, sn) ∈ listed (mock w) d) as Hin by (rewrite E; set_solver).
  unfold listed in Hin. rewrite list_elem_of_filter, order_perm, elem_of_map_to_list in Hin. destruct Hin as [Hp Hs].
  destruct (ok_snapshot _ Hok _ _ Hs) as (-> & Hds & _). unfold full in Hp.
  rewrite HasPrefix_full in Hp; [|by apply ValidateName_no_at|by eapply ok_dataset]. apply bool_decide_eq_true in Hp.
  apply Hdom in Hds. rewrite <- Hp, Hd in Hds. by destruct Hds.
Qed.

Lemma mock_listSnapshots d : refines mock_view (spec_ListSnapshots d) (ListSnapshots order d).
Proof.
  intros w v Hv. change (sim (spec_ListSnapshots d) w v (ListSnapshots order d)). unfold ListSnapshots. sim_tac.
  exists v. split; [|done]. split; [done|]. simpl.
  rewrite (fmap_Permutation _ _ _ (merge_sort_Permutation byCreation _)), <- list_fmap_compose.
  change (si_Name ∘ ms_info ∘ snd <$> listed (mock w) d ≡ₚ default [] (v !! d)).
  destruct (v !! d) as [l|] eqn:Hd; simpl; [by apply listed_names with v|by rewrite (listed_none w v)].
Qed.
End Listing.

Lemma MockManager_law order : (forall l, order l ≡ₚ l) -> @ZFSLaw MockWorld (MockManager_ZFSManager order) mock_view.
Proof.
  intros Horder. split; intros; first [apply mock_clone | apply mock_destroy | apply mock_mountpoint | apply mock_setproperty
      | apply mock_create | apply mock_rollback | by apply mock_listSnapshots | apply mock_destroySnapshot
      | apply mock_createDataset | apply mock_setMountpoint | apply mock_getDatasetInfo | apply mock_listDatasets
      | apply mock_datasetExists | apply mock_snapshotExists | apply mock_retag | apply mock_receive
      | apply mock_poolStatus | apply mock_poolSpace].
Qed.

Lemma mock_view_empty ts : mock_view (mkMockWorld NewMockManager ts) ∅.
Proof.
  split; [|split].
  - split; simpl; [intros n []|intros ? ?|intros ? ? ? ?]; by rewrite ?lookup_empty in *.
  - intros d. simpl. by rewrite !lookup_empty.
  - intros d l. by rewrite lookup_empty.
Qed.
