(* ===== verification/ZfsCli.v ===== *)
(** * ZfsCli: storage through the zfs and zpool commands
    (internal/sandbox/zfs: cli.go, dataset.go, snapshot.go, pool.go, transfer.go)

    [CLIManager] builds command lines and reads tables.  Running a command is
    an argument: [run] takes the time limit that applies when the caller's
    context has no deadline, the binary and its arguments; [runStream] also
    the standard input and output.  A result holds what the process wrote, its
    exit code, whether running it failed, and the error of the context, if it
    was over by then.  Logging is left out. *)

From Stdlib Require Import Ascii String.
From S2P Require Import Prelude GoStrings GoText GoFloat Zfs.

Local Open Scope string_scope.
Local Open Scope list_scope.

Record runResult : Type := mkRunResult {
  rr_stdout : string; rr_stderr : string; rr_exitCode : Z; rr_failed : bool; rr_ctxErr : option string;
}.

Record CLIManager : Type := mkCLIManager {
  zfsPath : string; zpoolPath : string; sudo : bool; pool : string;
  defaultTimeout : Z; metadataTimeout : Z; transferTimeout : Z;
}.

Definition second : Z := 1000000000.
Definition defaultCommandTimeout : Z := 30 * second.
Definition metadataCommandTimeout : Z := 30 * second.
Definition transferCommandTimeout : Z := 600 * second.

(** ** Options and constructor (cli.go) *)

Definition CLIOption : Type := CLIManager -> CLIManager.

Definition WithZFSPath (path : string) : CLIOption := fun m =>
  mkCLIManager path (zpoolPath m) (sudo m) (pool m) (defaultTimeout m) (metadataTimeout m) (transferTimeout m).
Definition WithZPoolPath (path : string) : CLIOption := fun m =>
  mkCLIManager (zfsPath m) path (sudo m) (pool m) (defaultTimeout m) (metadataTimeout m) (transferTimeout m).
Definition WithSudo (b : bool) : CLIOption := fun m =>
  mkCLIManager (zfsPath m) (zpoolPath m) b (pool m) (defaultTimeout m) (metadataTimeout m) (transferTimeout m).
Definition WithPool (p : string) : CLIOption := fun m =>
  mkCLIManager (zfsPath m) (zpoolPath m) (sudo m) p (defaultTimeout m) (metadataTimeout m) (transferTimeout m).
Definition WithDefaultCommandTimeout (t : Z) : CLIOption := fun m =>
  if bool_decide (t > 0)%Z then mkCLIManager (zfsPath m) (zpoolPath m) (sudo m) (pool m) t (metadataTimeout m) (transferTimeout m) else m.
Definition WithMetadataCommandTimeout (t : Z) : CLIOption := fun m =>
  if bool_decide (t > 0)%Z then mkCLIManager (zfsPath m) (zpoolPath m) (sudo m) (pool m) (defaultTimeout m) t (transferTimeout m) else m.
Definition WithTransferCommandTimeout (t : Z) : CLIOption := fun m =>
  if bool_decide (t > 0)%Z then mkCLIManager (zfsPath m) (zpoolPath m) (sudo m) (pool m) (defaultTimeout m) (metadataTimeout m) t else m.

(** [LookPath] tells whether a command is found. *)
Definition NewCLIManager (LookPath : string -> bool) (opts : list CLIOption) : res zerror CLIManager :=
  let m := foldl (fun m opt => opt m)
             (mkCLIManager "zfs" "zpool" false "" defaultCommandTimeout metadataCommandTimeout transferCommandTimeout) opts in
  if negb (LookPath (zfsPath m)) then Err ErrCommandNotFound
  else if negb (LookPath (zpoolPath m)) then Err ErrCommandNotFound
  else Ok m.

Definition timeoutFor (m : CLIManager) (op : string) : Z :=
  if bool_decide (op ∈ ["EstimateSendSize"; "Send"; "Receive"]) then transferTimeout m else metadataTimeout m.

Definition command (m : CLIManager) (binary : string) (args : list string) : string * list string :=
  if sudo m then ("sudo", binary :: args) else (binary, args).

(** ** Reading tables *)

Fixpoint parseRows (expectedCols : nat) (lines : list string) : res zerror (list (list string)) :=
  match lines with
  | [] => Ok []
  | line :: lines' =>
      if bool_decide (TrimSpace line = "") then parseRows expectedCols lines'
      else
        let cols := SplitByte tab line in
        if bool_decide (length cols = expectedCols) then
          match parseRows expectedCols lines' with Ok rows => Ok (cols :: rows) | Err e => Err e end
        else Err (ZErrorf ("expected " +:+ pretty (Z.of_nat expectedCols) +:+ " columns, got " +:+
                           pretty (Z.of_nat (length cols)) +:+ " in " +:+ quote line))
  end.

Definition parseTabular (output : string) (expectedCols : nat) : res zerror (list (list string)) :=
  let lines := SplitByte newline (TrimSpace output) in
  if bool_decide (lines = [""]) then Ok [] else parseRows expectedCols lines.

Definition parseTimestamp (s : string) : res zerror Z :=
  match ParseInt (TrimSpace s) with
  | Ok v => Ok (v * second)%Z
  | Err e => Err (ZParse "timestamp" s e)
  end.

Local Open Scope go_scope.

Definition originOf (s : string) : string :=
  let origin := TrimSpace s in if bool_decide (origin = "-") then "" else origin.

Definition parseDatasetInfo (name : string) (out : string) : res zerror DatasetInfo :=
  match SplitByte newline (TrimSpace out) with
  | [mountpoint; used; avail; refer; origin; created] =>
      used <-? parseSize used; avail <-? parseSize avail; refer <-? parseSize refer;
      created <-? parseTimestamp created;
      Ok (mkDatasetInfo name (TrimSpace mountpoint) used avail refer (originOf origin) created)
  | values => Err (ZErrorf ("expected 6 values for dataset info, got " +:+ pretty (Z.of_nat (length values))))
  end.

Definition nth_col (row : list string) (i : nat) : string := default "" (row !! i).

Definition parseDatasetRow (row : list string) : res zerror DatasetInfo :=
  used <-? parseSize (nth_col row 2); avail <-? parseSize (nth_col row 3); refer <-? parseSize (nth_col row 4);
  created <-? parseTimestamp (nth_col row 6);
  Ok (mkDatasetInfo (TrimSpace (nth_col row 0)) (TrimSpace (nth_col row 1)) used avail refer (originOf (nth_col row 5)) created).

(** The loop of a parser over its rows, which stops at the first error. *)
Fixpoint mapRows {A} (f : list string -> res zerror A) (rows : list (list string)) : res zerror (list A) :=
  match rows with
  | [] => Ok []
  | row :: rows' => x <-? f row; xs <-? mapRows f rows'; Ok (x :: xs)
  end.

Definition parseDatasetInfoList (out : string) : res zerror (list DatasetInfo) :=
  rows <-? parseTabular out 7; mapRows parseDatasetRow rows.

(** int(holds64) keeps every int64. *)
Definition parseSnapshotRow (row : list string) : res zerror SnapshotInfo :=
  used <-? parseSize (nth_col row 1); refer <-? parseSize (nth_col row 2);
  created <-? parseTimestamp (nth_col row 3); holds <-? parseSize (nth_col row 4);
  let full := TrimSpace (nth_col row 0) in
  match SplitN2 "@" full with
  | [dataset; name] => Ok (mkSnapshotInfo name dataset used refer created holds)
  | _ => Err (ZErrorf ("invalid snapshot full name " +:+ quote full))
  end.
Definition parseSnapshotRows (rows : list (list string)) : res zerror (list SnapshotInfo) := mapRows parseSnapshotRow rows.

Definition fillDataset (dataset : string) (i : SnapshotInfo) : SnapshotInfo :=
  if bool_decide (si_Dataset i = "") then mkSnapshotInfo (si_Name i) dataset (si_Used i) (si_Refer i) (si_Creation i) (si_Holds i) else i.

Definition olderFirst (a b : SnapshotInfo) : Prop := (si_Creation a <= si_Creation b)%Z.
#[export] Instance olderFirst_dec a b : Decision (olderFirst a b) := Z.le_dec (si_Creation a) (si_Creation b).

(** sort.Slice leaves the order of entries of the same age open: every outcome
    is the stable sort of some permutation, [ties]. *)
Definition parseSnapshotList (ties : list SnapshotInfo -> list SnapshotInfo) (dataset : string) (out : string) :
    res zerror (list SnapshotInfo) :=
  rows <-? parseTabular out 5; infos <-? parseSnapshotRows rows;
  Ok (merge_sort olderFirst (ties (fillDataset dataset <$> infos))).

Fixpoint statusLines (lines : list string) (st : PoolStatus) : PoolStatus :=
  match lines with
  | [] => st
  | line :: lines' =>
      let trim := TrimSpace line in
      statusLines lines' (
        if HasPrefix trim "state:" then mkPoolStatus (ps_Name st) (TrimSpace (TrimPrefix trim "state:")) (ps_Scan st) (ps_Errors st)
        else if HasPrefix trim "scan:" then mkPoolStatus (ps_Name st) (ps_State st) (TrimSpace (TrimPrefix trim "scan:")) (ps_Errors st)
        else if HasPrefix trim "errors:" then mkPoolStatus (ps_Name st) (ps_State st) (ps_Scan st) (TrimSpace (TrimPrefix trim "errors:"))
        else st)
  end.
Definition parsePoolStatus (p : string) (out : string) : res zerror PoolStatus :=
  let st := statusLines (SplitByte newline out) (mkPoolStatus p "" "" "") in
  if bool_decide (ps_State st = "") then Err (ZErrorf "pool status parse: missing state") else Ok st.

Fixpoint sizeLine (lines : list string) : res zerror (option Z) :=
  match lines with
  | [] => Ok None
  | line :: lines' =>
      let trim := TrimSpace line in
      if HasPrefix trim "size" then
        match Fields trim with
        | [_; n] => match ParseInt n with Ok v => Ok (Some v) | Err e => Err (ZParse "estimate" trim e) end
        | _ => sizeLine lines'
        end
      else sizeLine lines'
  end.
Definition parseEstimatedSize (stderr : string) : res zerror Z :=
  v <-? sizeLine (SplitByte newline stderr);
  match v with
  | Some v => Ok v
  | None => Err (ZErrorf ("no size line found in output: " +:+ quote (TrimSpace stderr)))
  end.

Section Ratio.
(** strconv.ParseFloat. *)
Context (ParseFloat : string -> res numError float64).

Definition parseRatio (s : string) : res zerror float64 :=
  match ParseFloat (TrimSpace (TrimSuffix s "%")) with
  | Ok v => Ok (fdiv v (float_of 100))
  | Err e => Err (ZParse "ratio" s e)
  end.

Definition parsePoolSpace (out : string) : res zerror PoolSpace :=
  rows <-? parseTabular out 6;
  match rows with
  | [row] =>
      sz <-? parseSize (nth_col row 1); alloc <-? parseSize (nth_col row 2); free <-? parseSize (nth_col row 3);
      capRatio <-? parseRatio (nth_col row 4); fragRatio <-? parseRatio (nth_col row 5);
      Ok (mkPoolSpace (nth_col row 0) sz alloc free capRatio fragRatio)
  | _ => Err (ZErrorf ("expected exactly one pool row, got " +:+ pretty (Z.of_nat (length rows))))
  end.
End Ratio.

(** ** Running commands *)

Section Commands.
Context {W : Type}.
Definition Reader : Type := res zerror string.
Definition Writer : Type := string -> M W (res zerror ()).
Context (run : Z -> string -> list string -> M W runResult).
Context (runStream : Z -> string -> list string -> option Reader -> option Writer -> M W runResult).
Context (unicodeToLower : string -> string).
Context (ParseFloat : string -> res numError float64).
Context (ties : list SnapshotInfo -> list SnapshotInfo).
Context (m : CLIManager).

Definition noArgs {A} (op : string) : res zerror A := Err (ZFSError op "" 0 "" (ZErrorf "missing command args")).

(** The binary an argument list is for, and its own arguments. *)
Definition split (args : list string) : option (string * list string) :=
  match args with
  | [] => None
  | a :: rest => Some (if bool_decide (a = "zpool") then command m (zpoolPath m) rest else command m (zfsPath m) args)
  end.

(** What [exec] and [execStream] make of a result; [out] is what they return. *)
Definition settle (op binary : string) (cmdArgs : list string) (out : string) (r : runResult) : res zerror string :=
  if negb (rr_failed r) then Ok out
  else
    let stderr := TrimSpace (rr_stderr r) in
    match classifyError unicodeToLower op stderr (rr_exitCode r) with
    | None => Ok out
    | Some wrapped =>
        Err (ZFSError op (binary +:+ " " +:+ Join cmdArgs " ") (rr_exitCode r) stderr
               (match rr_ctxErr r with Some e => ZContext e | None => wrapped end))
    end.

Definition exec (op : string) (args : list string) : M W (res zerror string) :=
  match split args with
  | None => mret (noArgs op)
  | Some (binary, cmdArgs) =>
      r ← run (timeoutFor m op) binary cmdArgs;
      mret (settle op binary cmdArgs (rr_stdout r) r)
  end.

Definition execStream (op : string) (args : list string) (stdin : option Reader) (stdout : option Writer) : M W (res zerror string) :=
  match split args with
  | None => mret (noArgs op)
  | Some (binary, cmdArgs) =>
      r ← runStream (timeoutFor m op) binary cmdArgs stdin stdout;
      mret (settle op binary cmdArgs (rr_stderr r) r)
  end.

(** io.Discard. *)
Definition Discard : Writer := fun _ => mret (Ok ()).

(** [if err := e; err != nil { return err }], and [_, err := m.exec(...); return err]. *)
Definition check {A} (e : res zerror ()) (k : M W (res zerror A)) : M W (res zerror A) :=
  match e with Ok _ => k | Err e => mret (Err e) end.
Definition ignore (c : M W (res zerror string)) : M W (res zerror ()) :=
  r ← c; mret (match r with Ok _ => Ok () | Err e => Err e end).
(** [out, err := m.exec(...); if err != nil { return err }; return parse(out)]. *)
Definition parsed {A} (c : M W (res zerror string)) (parse : string -> res zerror A) : M W (res zerror A) :=
  r ← c; mret (match r with Ok out => parse out | Err e => Err e end).

(** *** dataset.go *)

(** The -o arguments of the sorted properties, up to an invalid one. *)
Fixpoint propertyArgs (props : gmap string string) (keys : list string) : res zerror (list string) :=
  match keys with
  | [] => Ok []
  | k :: keys' =>
      _x <-? ValidatePropertyName k; rest <-? propertyArgs props keys';
      Ok ("-o" :: (k +:+ "=" +:+ default "" (props !! k)) :: rest)
  end.

Definition createArgs (name : string) (opts : DatasetOptions) : res zerror (list string) :=
  _x <-? ValidateName name;
  mp <-? (if bool_decide (do_Mountpoint opts = "") then Ok []
          else _y <-? ValidateMountpoint (do_Mountpoint opts); Ok ["-o"; "mountpoint=" +:+ do_Mountpoint opts]);
  props <-? propertyArgs (do_Properties opts) (sort_Strings (elements (dom (do_Properties opts))));
  Ok ("create" :: mp ++ (if bool_decide (do_Quota opts > 0)%Z then ["-o"; "quota=" +:+ pretty (do_Quota opts)] else [])
        ++ props ++ [name]).

Definition CreateDataset (name : string) (opts : DatasetOptions) : M W (res zerror ()) :=
  match createArgs name opts with
  | Err e => mret (Err e)
  | Ok args => ignore (exec "CreateDataset" args)
  end.

Definition CloneFromSnapshot (snapshot newDataset : string) : M W (res zerror ()) :=
  check (ValidateSnapshotFullName snapshot) (
  check (ValidateName newDataset) (
  ignore (exec "CloneFromSnapshot" ["clone"; snapshot; newDataset]))).

Definition destroyFlags (opts : DestroyOptions) : list string :=
  (if Recursive opts then ["-r"] else []) ++ (if Force opts then ["-f"] else []) ++
  (if DependentClones opts then ["-R"] else []).
Definition DestroyDataset (name : string) (opts : DestroyOptions) : M W (res zerror ()) :=
  check (ValidateName name) (ignore (exec "DestroyDataset" ("destroy" :: destroyFlags opts ++ [name]))).

Definition GetMountpoint (dataset : string) : M W (res zerror string) :=
  check (ValidateName dataset) (
  parsed (exec "GetMountpoint" ["get"; "-H"; "-o"; "value"; "mountpoint"; dataset]) (fun out => Ok (TrimSpace out))).

Definition SetMountpoint (dataset mountpoint : string) : M W (res zerror ()) :=
  check (ValidateName dataset) (
  check (ValidateMountpoint mountpoint) (
  ignore (exec "SetMountpoint" ["set"; "mountpoint=" +:+ mountpoint; dataset]))).

Definition SetProperty (dataset property value : string) : M W (res zerror ()) :=
  check (ValidateName dataset) (
  check (ValidatePropertyName property) (
  check (if hasNewline value then invalid "property value contains newline" else Ok ()) (
  ignore (exec "SetProperty" ["set"; property +:+ "=" +:+ value; dataset])))).

Definition GetDatasetInfo (name : string) : M W (res zerror DatasetInfo) :=
  check (ValidateName name) (
  parsed (exec "GetDatasetInfo" ["get"; "-H"; "-p"; "-o"; "value"; "mountpoint,used,available,referenced,origin,creation"; name])
    (parseDatasetInfo name)).

Definition ListDatasets (parent : string) : M W (res zerror (list DatasetInfo)) :=
  check (ValidateName parent) (
  parsed (exec "ListDatasets"
            ["list"; "-H"; "-p"; "-r"; "-t"; "filesystem"; "-o"; "name,mountpoint,used,available,referenced,origin,creation"; parent])
    parseDatasetInfoList).

(** [if err != nil { if errors.Is(err, ErrNotFound) { return false, nil }; return false, err }; return true, nil]. *)
Definition existence {A} (r : res zerror A) : res zerror bool :=
  match r with
  | Ok _ => Ok true
  | Err e => if zIs NotFound e then Ok false else Err e
  end.
Definition DatasetExists (name : string) : M W (res zerror bool) := existence <$> GetDatasetInfo name.

(** *** snapshot.go *)

Definition full (dataset snapName : string) : string := dataset +:+ "@" +:+ snapName.
Definition snapshotColumns : string := "name,used,referenced,creation,userrefs".

Definition oneSnapshot (out : string) : res zerror SnapshotInfo :=
  rows <-? parseTabular out 5;
  if negb (bool_decide (length rows = 1%nat)) then
    Err (ZErrorf ("expected 1 snapshot row, got " +:+ pretty (Z.of_nat (length rows))))
  else
    infos <-? parseSnapshotRows rows;
    match infos with
    | [i] => Ok i
    | _ => Err (ZErrorf ("expected 1 snapshot info, got " +:+ pretty (Z.of_nat (length infos))))
    end.

Definition getSnapshotInfo (dataset snapName : string) : M W (res zerror SnapshotInfo) :=
  parsed (exec "GetSnapshotInfo" ["list"; "-H"; "-p"; "-t"; "snapshot"; "-o"; snapshotColumns; full dataset snapName]) oneSnapshot.

Definition CreateSnapshot (dataset snapName : string) : M W (res zerror SnapshotInfo) :=
  check (ValidateName dataset) (
  check (ValidateSnapshotName snapName) (
  r ← exec "CreateSnapshot" ["snapshot"; full dataset snapName];
  match r with
  | Err e => mret (Err e)
  | Ok _ => getSnapshotInfo dataset snapName
  end)).

Definition Rollback (dataset snapName : string) (opts : RollbackOptions) : M W (res zerror ()) :=
  check (ValidateName dataset) (
  check (ValidateSnapshotName snapName) (
  ignore (exec "Rollback" ("rollback" :: (if DestroyLater opts then ["-r"] else []) ++ [full dataset snapName])))).

Definition ListSnapshots (dataset : string) : M W (res zerror (list SnapshotInfo)) :=
  check (ValidateName dataset) (
  parsed (exec "ListSnapshots" ["list"; "-H"; "-p"; "-t"; "snapshot"; "-o"; snapshotColumns; "-s"; "creation"; dataset])
    (parseSnapshotList ties dataset)).

Definition DestroySnapshot (dataset snapName : string) : M W (res zerror ()) :=
  check (ValidateName dataset) (
  check (ValidateSnapshotName snapName) (
  ignore (exec "DestroySnapshot" ["destroy"; full dataset snapName]))).

Definition HoldSnapshot (dataset snapName tag : string) : M W (res zerror ()) :=
  check (ValidateName dataset) (
  check (ValidateSnapshotName snapName) (
  check (ValidateHoldTag tag) (
  ignore (exec "HoldSnapshot" ["hold"; tag; full dataset snapName])))).

Definition ReleaseSnapshot (dataset snapName tag : string) : M W (res zerror ()) :=
  check (ValidateName dataset) (
  check (ValidateSnapshotName snapName) (
  check (ValidateHoldTag tag) (
  ignore (exec "ReleaseSnapshot" ["release"; tag; full dataset snapName])))).

(** No name is validated here: the command line goes out as it is. *)
Definition SnapshotExists (dataset snapName : string) : M W (res zerror bool) := existence <$> getSnapshotInfo dataset snapName.

(** *** pool.go *)

Definition PoolStatus (pool : string) : M W (res zerror Zfs.PoolStatus) :=
  check (ValidatePoolName pool) (
  parsed (exec "PoolStatus" ["zpool"; "status"; "-p"; pool]) (parsePoolStatus pool)).

Definition PoolSpace (pool : string) : M W (res zerror Zfs.PoolSpace) :=
  check (ValidatePoolName pool) (
  parsed (exec "PoolSpace" ["zpool"; "list"; "-H"; "-p"; "-o"; "name,size,allocated,free,capacity,fragmentation"; pool])
    (parsePoolSpace ParseFloat)).

Definition ImportPool (pool device : string) : M W (res zerror ()) :=
  check (ValidatePoolName pool) (
  check (ValidateDevicePath device) (
  ignore (exec "ImportPool" ["zpool"; "import"; "-d"; device; pool]))).

Definition ExportPool (pool : string) : M W (res zerror ()) :=
  check (ValidatePoolName pool) (ignore (exec "ExportPool" ["zpool"; "export"; pool])).

(** *** transfer.go *)

Definition sendFlags (opts : SendOptions) : list string :=
  (if Raw opts then ["-w"] else []) ++ (if Compressed opts then ["-c"] else []) ++
  (if LargeBlocks opts then ["-L"] else []) ++
  (if bool_decide (Incremental opts = "") then [] else ["-i"; Incremental opts]).
Definition buildSendArgs (snapshot : string) (opts : SendOptions) : list string := "send" :: sendFlags opts ++ [snapshot].

Definition validateSend (snapshot : string) (opts : SendOptions) : res zerror () :=
  _x <-? ValidateSnapshotFullName snapshot;
  if bool_decide (Incremental opts = "") then Ok () else ValidateSnapshotFullName (Incremental opts).

(** The arguments of a dry run: -n and -P after the verb. *)
Definition estimateArgs (args : list string) : list string := take 1 args ++ ["-n"; "-P"] ++ drop 1 args.

Definition EstimateSendSize (snapshot : string) (opts : SendOptions) : M W (res zerror Z) :=
  check (validateSend snapshot opts) (
  parsed (execStream "EstimateSendSize" (estimateArgs (buildSendArgs snapshot opts)) None (Some Discard)) parseEstimatedSize).

Definition Send (snapshot : string) (opts : SendOptions) (w : option Writer) : M W (res zerror ()) :=
  match w with
  | None => mret (Err (ZErrorf "writer is nil"))
  | Some w =>
      check (validateSend snapshot opts) (ignore (execStream "Send" (buildSendArgs snapshot opts) None (Some w)))
  end.

Definition Receive (dataset : string) (r : option Reader) : M W (res zerror ()) :=
  match r with
  | None => mret (Err (ZErrorf "reader is nil"))
  | Some r => check (ValidateName dataset) (ignore (execStream "Receive" ["receive"; dataset] (Some r) (Some Discard)))
  end.

Definition CLIManager_ZFSManager : ZFSManager W := {|
  zfs_CreateDataset := CreateDataset; zfs_CloneFromSnapshot := CloneFromSnapshot; zfs_DestroyDataset := DestroyDataset;
  zfs_GetMountpoint := GetMountpoint; zfs_SetMountpoint := SetMountpoint; zfs_SetProperty := SetProperty;
  zfs_GetDatasetInfo := GetDatasetInfo; zfs_ListDatasets := ListDatasets; zfs_DatasetExists := DatasetExists;
  zfs_CreateSnapshot := CreateSnapshot; zfs_Rollback := Rollback; zfs_ListSnapshots := ListSnapshots;
  zfs_DestroySnapshot := DestroySnapshot; zfs_HoldSnapshot := HoldSnapshot; zfs_ReleaseSnapshot := ReleaseSnapshot;
  zfs_SnapshotExists := SnapshotExists; zfs_PoolStatus := PoolStatus; zfs_PoolSpace := PoolSpace;
  zfs_ImportPool := ImportPool; zfs_ExportPool := ExportPool; zfs_EstimateSendSize := EstimateSendSize;
  zfs_Send := Send; zfs_Receive := Receive;
|}.
End Commands.
