(* ===== verification/ZfsCliProps.v ===== *)
(** * ZfsCliProps: what the command lines say, and what the tables said

    [reading] is how zfs and zpool read their arguments: a verb, options up to
    the first argument that is none, operands.  Every validated call is read as
    exactly the request it stands for.  The tables printed for a list of
    snapshots are read back as that list, oldest first. *)

From Stdlib Require Import Ascii String.
From S2P Require Import Prelude GoStrings GoText GoFloat Zfs ZfsCli.

Local Open Scope string_scope.
Local Open Scope list_scope.

(** ** The reader's side: POSIX option syntax *)

(** The options that take a value, in the verbs that are used. *)
Definition valueFlags : list string := ["-o"; "-t"; "-s"; "-d"; "-i"].

Record request : Type := mkRequest {
  rq_zpool : bool; rq_verb : string; rq_flags : list (string * option string); rq_operands : list string;
}.

Fixpoint getopt (args : list string) : list (string * option string) * list string :=
  match args with
  | [] => ([], [])
  | a :: rest =>
      if negb (HasPrefix a "-") then ([], args)
      else if bool_decide (a ∈ valueFlags) then
        match rest with
        | v :: rest' => let '(flags, operands) := getopt rest' in ((a, Some v) :: flags, operands)
        | [] => ([(a, None)], [])
        end
      else let '(flags, operands) := getopt rest in ((a, None) :: flags, operands)
  end.

Definition reading (m : CLIManager) (cmd : string * list string) : option request :=
  let read (binary : string) (args : list string) : option request :=
    match args with
    | [] => None
    | verb :: rest =>
        let '(flags, operands) := getopt rest in
        Some (mkRequest (bool_decide (binary = zpoolPath m)) verb flags operands)
    end in
  if sudo m then
    match cmd with
    | (_, binary :: args) => read binary args
    | _ => None
    end
  else read cmd.1 cmd.2.

(** ** The calls *)

Inductive cli_call : Type :=
  | CCreateDataset (name : string) (opts : DatasetOptions)
  | CClone (snapshot newDataset : string)
  | CDestroyDataset (name : string) (opts : DestroyOptions)
  | CGetMountpoint (dataset : string)
  | CSetMountpoint (dataset mountpoint : string)
  | CSetProperty (dataset property value : string)
  | CGetDatasetInfo (name : string)
  | CListDatasets (parent : string)
  | CCreateSnapshot (dataset snapName : string)
  | CRollback (dataset snapName : string) (opts : RollbackOptions)
  | CListSnapshots (dataset : string)
  | CDestroySnapshot (dataset snapName : string)
  | CHold (dataset snapName tag : string)
  | CRelease (dataset snapName tag : string)
  | CPoolStatus (pool : string)
  | CPoolSpace (pool : string)
  | CImport (pool device : string)
  | CExport (pool : string)
  | CEstimate (snapshot : string) (opts : SendOptions)
  | CSend (snapshot : string) (opts : SendOptions)
  | CReceive (dataset : string) (r : option Reader).

Definition flag (b : bool) (f : string) : list (string * option string) := if b then [(f, None)] else [].

Definition listFlags (columns : string) : list (string * option string) :=
  [("-H", None); ("-p", None); ("-t", Some "snapshot"); ("-o", Some columns)].

Definition sendRequest (dry : bool) (snapshot : string) (opts : SendOptions) : request :=
  mkRequest false "send"
    (flag dry "-n" ++ flag dry "-P" ++ flag (Raw opts) "-w" ++ flag (Compressed opts) "-c" ++ flag (LargeBlocks opts) "-L" ++
     (if bool_decide (Incremental opts = "") then [] else [("-i", Some (Incremental opts))])) [snapshot].

(** The request a call stands for: one command, or two for a new snapshot,
    which is then looked up. *)
Definition requests_of (c : cli_call) : list request :=
  match c with
  | CCreateDataset name opts =>
      [mkRequest false "create"
         ((if bool_decide (do_Mountpoint opts = "") then [] else [("-o", Some ("mountpoint=" +:+ do_Mountpoint opts))]) ++
          (if bool_decide (do_Quota opts > 0)%Z then [("-o", Some ("quota=" +:+ pretty (do_Quota opts)))] else []) ++
          ((fun k => ("-o", Some (k +:+ "=" +:+ default "" (do_Properties opts !! k)))) <$>
             sort_Strings (elements (dom (do_Properties opts))))) [name]]
  | CClone snapshot newDataset => [mkRequest false "clone" [] [snapshot; newDataset]]
  | CDestroyDataset name opts =>
      [mkRequest false "destroy" (flag (Recursive opts) "-r" ++ flag (Force opts) "-f" ++ flag (DependentClones opts) "-R") [name]]
  | CGetMountpoint dataset => [mkRequest false "get" [("-H", None); ("-o", Some "value")] ["mountpoint"; dataset]]
  | CSetMountpoint dataset mp => [mkRequest false "set" [] ["mountpoint=" +:+ mp; dataset]]
  | CSetProperty dataset property value => [mkRequest false "set" [] [property +:+ "=" +:+ value; dataset]]
  | CGetDatasetInfo name =>
      [mkRequest false "get" [("-H", None); ("-p", None); ("-o", Some "value")]
         ["mountpoint,used,available,referenced,origin,creation"; name]]
  | CListDatasets parent =>
      [mkRequest false "list"
         [("-H", None); ("-p", None); ("-r", None); ("-t", Some "filesystem");
          ("-o", Some "name,mountpoint,used,available,referenced,origin,creation")] [parent]]
  | CCreateSnapshot dataset snap =>
      [mkRequest false "snapshot" [] [full dataset snap];
       mkRequest false "list" (listFlags snapshotColumns) [full dataset snap]]
  | CRollback dataset snap opts => [mkRequest false "rollback" (flag (DestroyLater opts) "-r") [full dataset snap]]
  | CListSnapshots dataset =>
      [mkRequest false "list" (listFlags snapshotColumns ++ [("-s", Some "creation")]) [dataset]]
  | CDestroySnapshot dataset snap => [mkRequest false "destroy" [] [full dataset snap]]
  | CHold dataset snap tag => [mkRequest false "hold" [] [tag; full dataset snap]]
  | CRelease dataset snap tag => [mkRequest false "release" [] [tag; full dataset snap]]
  | CPoolStatus pool => [mkRequest true "status" [("-p", None)] [pool]]
  | CPoolSpace pool =>
      [mkRequest true "list" [("-H", None); ("-p", None); ("-o", Some "name,size,allocated,free,capacity,fragmentation")] [pool]]
  | CImport pool device => [mkRequest true "import" [("-d", Some device)] [pool]]
  | CExport pool => [mkRequest true "export" [] [pool]]
  | CEstimate snapshot opts => [sendRequest true snapshot opts]
  | CSend snapshot opts => [sendRequest false snapshot opts]
  | CReceive dataset _ => [mkRequest false "receive" [] [dataset]]
  end.

Section Issued.
Context (oracle : list (string * list string) -> runResult).
Context (lower : string -> string) (ParseFloat : string -> res numError float64).
Context (ties : list SnapshotInfo -> list SnapshotInfo).
Context (m : CLIManager).

(** A system that writes down the commands it runs; their results are those
    of any program at all. *)
Notation Log := (list (string * list string)).
Definition logRun (_ : Z) (binary : string) (args : list string) : M Log runResult :=
  fun log => (oracle (log ++ [(binary, args)]), log ++ [(binary, args)]).
Definition logStream (t : Z) (binary : string) (args : list string) (_ : option Reader) (_ : option (Writer (W := Log))) :
    M Log runResult := logRun t binary args.

Definition log_of {A} (c : M Log A) : Log := (c []).2.

Definition issued (c : cli_call) : Log :=
  match c with
  | CCreateDataset name opts => log_of (CreateDataset logRun lower m name opts)
  | CClone s d => log_of (CloneFromSnapshot logRun lower m s d)
  | CDestroyDataset name opts => log_of (DestroyDataset logRun lower m name opts)
  | CGetMountpoint d => log_of (GetMountpoint logRun lower m d)
  | CSetMountpoint d mp => log_of (SetMountpoint logRun lower m d mp)
  | CSetProperty d p v => log_of (SetProperty logRun lower m d p v)
  | CGetDatasetInfo n => log_of (GetDatasetInfo logRun lower m n)
  | CListDatasets p => log_of (ListDatasets logRun lower m p)
  | CCreateSnapshot d s => log_of (CreateSnapshot logRun lower m d s)
  | CRollback d s o => log_of (Rollback logRun lower m d s o)
  | CListSnapshots d => log_of (ListSnapshots logRun lower ties m d)
  | CDestroySnapshot d s => log_of (DestroySnapshot logRun lower m d s)
  | CHold d s t => log_of (HoldSnapshot logRun lower m d s t)
  | CRelease d s t => log_of (ReleaseSnapshot logRun lower m d s t)
  | CPoolStatus p => log_of (PoolStatus logRun lower m p)
  | CPoolSpace p => log_of (PoolSpace logRun lower ParseFloat m p)
  | CImport p d => log_of (ImportPool logRun lower m p d)
  | CExport p => log_of (ExportPool logRun lower m p)
  | CEstimate s o => log_of (EstimateSendSize logStream lower m s o)
  | CSend s o => log_of (Send logStream lower m s o (Some (@Discard Log)))
  | CReceive d r => log_of (Receive logStream lower m d r)
  end.

(** The calls whose arguments pass validation. *)
Definition valid_call (c : cli_call) : bool :=
  match c with
  | CCreateDataset name opts =>
      is_Ok (ValidateName name) &&
      (bool_decide (do_Mountpoint opts = "") || is_Ok (ValidateMountpoint (do_Mountpoint opts))) &&
      forallb (fun k => is_Ok (ValidatePropertyName k)) (sort_Strings (elements (dom (do_Properties opts))))
  | CClone s d => is_Ok (ValidateSnapshotFullName s) && is_Ok (ValidateName d)
  | CDestroyDataset n _ | CGetMountpoint n | CGetDatasetInfo n | CListDatasets n | CListSnapshots n => is_Ok (ValidateName n)
  | CSetMountpoint d mp => is_Ok (ValidateName d) && is_Ok (ValidateMountpoint mp)
  | CSetProperty d p v => is_Ok (ValidateName d) && is_Ok (ValidatePropertyName p) && negb (hasNewline v)
  | CCreateSnapshot d s | CRollback d s _ | CDestroySnapshot d s => is_Ok (ValidateName d) && is_Ok (ValidateSnapshotName s)
  | CHold d s t | CRelease d s t => is_Ok (ValidateName d) && is_Ok (ValidateSnapshotName s) && is_Ok (ValidateHoldTag t)
  | CPoolStatus p | CPoolSpace p | CExport p => is_Ok (ValidatePoolName p)
  | CImport p d => is_Ok (ValidatePoolName p) && is_Ok (ValidateDevicePath d)
  | CEstimate s o | CSend s o =>
      is_Ok (ValidateSnapshotFullName s) && (bool_decide (Incremental o = "") || is_Ok (ValidateSnapshotFullName (Incremental o)))
  | CReceive d r => match r with Some _ => is_Ok (ValidateName d) | None => false end
  end.

(** ** Reading back rendered options *)

Definition render (f : string * option string) : list string :=
  f.1 :: match f.2 with Some v => [v] | None => [] end.

Definition good_flag (f : string * option string) : Prop :=
  HasPrefix f.1 "-" && Bool.eqb (match f.2 with Some _ => true | None => false end) (bool_decide (f.1 ∈ valueFlags)) = true.

Lemma getopt_render fl ops :
  Forall good_flag fl -> match ops with [] => True | o :: _ => HasPrefix o "-" = false end ->
  getopt (flat_map render fl ++ ops) = (fl, ops).
Proof.
  intros Hfl Hops. induction Hfl as [|[f v] fl [Hf Hv%Bool.eqb_prop]%andb_true_iff Hfl IH]; simpl in *.
  - destruct ops as [|o ops]; [done|]. simpl. by rewrite Hops.
  - rewrite Hf. simpl. destruct v as [v|]; simpl.
    + by rewrite <- Hv, IH.
    + by rewrite <- Hv, IH.
Qed.

Lemma startsAlnum_no_dash s : startsAlnum s = true -> HasPrefix s "-" = false.
Proof.
  destruct s as [|c s]; [done|]. simpl. unfold HasPrefix. simpl. intros Hc.
  case_bool_decide as E; [|done]. by rewrite <- E in Hc.
Qed.

Lemma startsAlnum_app s t : startsAlnum s = true -> startsAlnum (s +:+ t) = true.
Proof. by destruct s. Qed.

Lemma fullName_startsAlnum s : ValidateSnapshotFullName s = Ok () -> startsAlnum s = true.
Proof. intros (d & n & -> & Hd & _)%ValidateSnapshotFullName_spec. by apply startsAlnum_app, ValidateName_startsAlnum. Qed.

Lemma poolName_startsAlnum s : ValidatePoolName s = Ok () -> startsAlnum s = true.
Proof. unfold ValidatePoolName. destruct (ContainsByte _ s); [done|]. apply ValidateName_startsAlnum. Qed.

Lemma tag_startsAlnum s : ValidateHoldTag s = Ok () -> startsAlnum s = true.
Proof. unfold ValidateHoldTag. intros H. invert_validation. by eapply matchClass_startsAlnum. Qed.

Lemma property_startsAlnum s : ValidatePropertyName s = Ok () -> startsAlnum s = true.
Proof.
  unfold ValidatePropertyName. intros H. destruct (propertyNamePattern s) eqn:Hp; [|by invert_validation]. clear H.
  destruct s as [|c s]; [done|]. apply andb_true_iff in Hp as [Hc _]. simpl. unfold isAlnum.
  apply orb_true_iff in Hc as [->| ->]; by rewrite ?orb_true_r.
Qed.

Lemma is_Ok_unit (r : res zerror ()) : is_Ok r = true -> r = Ok ().
Proof. by destruct r as [[]|]. Qed.

Create HintDb operand discriminated.
#[local] Hint Resolve startsAlnum_no_dash startsAlnum_app fullName_startsAlnum poolName_startsAlnum tag_startsAlnum
  property_startsAlnum ValidateName_startsAlnum : operand.

(** ** The log of a call *)

Lemma log_check {A} e (k : M Log (res zerror A)) : log_of (check e k) = if is_Ok e then log_of k else [].
Proof. by destruct e. Qed.

Definition split_cmd (args : list string) : Log := match split m args with Some cmd => [cmd] | None => [] end.

Lemma log_exec op args : log_of (exec logRun lower m op args) = split_cmd args.
Proof. unfold log_of, exec, split_cmd. by destruct (split m args) as [[b a]|]. Qed.

Lemma log_execStream op args i o : log_of (execStream logStream lower m op args i o) = split_cmd args.
Proof. unfold log_of, execStream, split_cmd. by destruct (split m args) as [[b a]|]. Qed.

Lemma log_ignore c : log_of (ignore c) = log_of c.
Proof. unfold log_of, ignore. by rewrite M_bind_eq. Qed.

Lemma log_parsed {A} c (p : string -> res zerror A) : log_of (parsed c p) = log_of c.
Proof. unfold log_of, parsed. by rewrite M_bind_eq. Qed.

Lemma log_fmap {A B} (f : A -> B) (c : M Log A) : log_of (f <$> c) = log_of c.
Proof. unfold log_of, fmap, M_fmap. by destruct (c []). Qed.

Context (Hpaths : zfsPath m <> zpoolPath m).

(** One command with the given shape is read as the request. *)
Lemma reading_split (zp : bool) verb fl ops :
  verb <> "zpool" -> Forall good_flag fl -> match ops with [] => True | o :: _ => HasPrefix o "-" = false end ->
  reading m <$> split_cmd ((if zp then ["zpool"] else []) ++ verb :: flat_map render fl ++ ops) =
  [Some (mkRequest zp verb fl ops)].
Proof.
  intros Hverb Hfl Hops. pose proof (getopt_render fl ops Hfl Hops) as Hg.
  unfold split_cmd, split, command, reading. destruct zp; simpl.
  - destruct (sudo m); simpl; rewrite Hg; by rewrite bool_decide_eq_true_2.
  - rewrite (bool_decide_eq_false_2 (verb = _)) by done.
    destruct (sudo m); simpl; rewrite Hg; by rewrite bool_decide_eq_false_2.
Qed.

Lemma one_command log r :
  reading m <$> log = [Some r] -> exists k, (1 <= k)%nat /\ reading m <$> log = Some <$> take k [r].
Proof. intros H. by exists 1%nat. Qed.

Lemma render_flag (b : bool) f : flat_map render (flag b f) = if b then [f] else [].
Proof. by destruct b. Qed.

Lemma good_flag_flag (b : bool) f : good_flag (f, None) -> Forall good_flag (flag b f).
Proof. destruct b; repeat constructor; done. Qed.

(** The properties that validate become their -o options. *)
Lemma propertyArgs_spec props keys :
  if forallb (fun k => is_Ok (ValidatePropertyName k)) keys
  then propertyArgs props keys =
       Ok (flat_map render ((fun k => ("-o", Some (k +:+ "=" +:+ default "" (props !! k)))) <$> keys))
  else is_Ok (propertyArgs props keys) = false.
Proof.
  induction keys as [|k keys IH]; [done|]. simpl. destruct (ValidatePropertyName k); simpl; [|done].
  destruct (forallb _ keys); [by rewrite IH|]. by destruct (propertyArgs props keys).
Qed.

Lemma log_createDataset name opts :
  log_of (CreateDataset logRun lower m name opts) =
  match createArgs name opts with Ok args => split_cmd args | Err _ => [] end.
Proof. unfold CreateDataset. destruct (createArgs name opts); [by rewrite log_ignore, log_exec|done]. Qed.

(** The logs of the methods, down to their commands. *)
Ltac log_simpl := rewrite ?log_check, ?log_ignore, ?log_parsed, ?log_exec, ?log_execStream.

(** Split the tests of the arguments; what is left is a call that passes all. *)
Ltac split_valid :=
  repeat match goal with
  | |- context [is_Ok ?r] => destruct (is_Ok r) eqn:?; cbn [andb]; try done
  end;
  repeat match goal with H : is_Ok _ = true |- _ => apply is_Ok_unit in H end.

Ltac good_flags :=
  rewrite ?Forall_app; repeat split; try (by apply good_flag_flag); repeat (constructor; [reflexivity|]); try constructor.

Lemma CreateDataset_issues name opts :
  if valid_call (CCreateDataset name opts)
  then exists k, (1 <= k)%nat /\
       reading m <$> issued (CCreateDataset name opts) = Some <$> take k (requests_of (CCreateDataset name opts))
  else issued (CCreateDataset name opts) = [].
Proof.
  simpl. rewrite log_createDataset. unfold createArgs.
  pose proof (propertyArgs_spec (do_Properties opts) (sort_Strings (elements (dom (do_Properties opts))))) as Hprops.
  destruct (ValidateName name) eqn:Hname; simpl; [|done]. destruct v. case_bool_decide as Hmp; simpl.
  2: destruct (ValidateMountpoint (do_Mountpoint opts)); simpl; [|done].
  all: destruct (forallb _ _); rewrite ?Hprops; [|by destruct (propertyArgs _ _)].
  all: apply one_command; rewrite <- (reading_split false "create"); [|done| |by apply startsAlnum_no_dash, ValidateName_startsAlnum].
  all: try (simpl; rewrite !flat_map_app; by destruct (bool_decide (do_Quota opts > 0)%Z)).
  all: destruct (bool_decide (do_Quota opts > 0)%Z); simpl; repeat (constructor; [reflexivity|]); by apply Forall_fmap, Forall_true.
Qed.

Lemma sendFlags_render opts :
  sendFlags opts = flat_map render (flag (Raw opts) "-w" ++ flag (Compressed opts) "-c" ++ flag (LargeBlocks opts) "-L" ++
     (if bool_decide (Incremental opts = "") then [] else [("-i", Some (Incremental opts))])).
Proof. unfold sendFlags. rewrite !flat_map_app, !render_flag. by case_bool_decide. Qed.

Lemma send_reading (dry : bool) snapshot opts args :
  args = (if dry then estimateArgs (buildSendArgs snapshot opts) else buildSendArgs snapshot opts) ->
  ValidateSnapshotFullName snapshot = Ok () ->
  reading m <$> split_cmd args = [Some (sendRequest dry snapshot opts)].
Proof.
  intros -> Hs. unfold sendRequest. rewrite <- (reading_split false "send"); [|done| |by eauto with operand].
  - unfold estimateArgs, buildSendArgs. rewrite sendFlags_render. by destruct dry.
  - rewrite !Forall_app. split_and!; try (by apply good_flag_flag). case_bool_decide; repeat constructor.
Qed.

Lemma exec_log op args log : (exec logRun lower m op args log).2 = log ++ split_cmd args.
Proof. unfold exec, split_cmd. destruct (split m args) as [[b a]|]; [done|]. simpl. by rewrite app_nil_r. Qed.

Lemma log_createSnapshot d s :
  exists found : bool,
  log_of (r ← exec logRun lower m "CreateSnapshot" ["snapshot"; full d s];
          match r with Err e => mret (Err e) | Ok _ => getSnapshotInfo logRun lower m d s end) =
  split_cmd ["snapshot"; full d s] ++
  if found then split_cmd ["list"; "-H"; "-p"; "-t"; "snapshot"; "-o"; snapshotColumns; full d s] else [].
Proof.
  unfold log_of. rewrite M_bind_eq, exec_log. destruct (exec _ _ _ _ _ []).1 as [out|e].
  - exists true. unfold getSnapshotInfo, parsed. by rewrite M_bind_eq, exec_log.
  - exists false. by rewrite app_nil_r.
Qed.

Lemma validateSend_is_Ok s o :
  is_Ok (validateSend s o) =
  is_Ok (ValidateSnapshotFullName s) && (bool_decide (Incremental o = "") || is_Ok (ValidateSnapshotFullName (Incremental o))).
Proof. unfold validateSend. destruct (ValidateSnapshotFullName s); simpl; [|done]. by destruct (bool_decide _). Qed.

(** What each method does once its arguments have passed. *)
Ltac one verb fl ops zp :=
  apply one_command; etrans; [|apply (reading_split zp verb fl ops)];
  [ try reflexivity | done | good_flags | eauto using startsAlnum_no_dash with operand ].

(** C26: command lines say what the caller said.  Whatever strings a caller
    passes, a call whose arguments fail validation runs no command, and any
    other call runs only commands that zfs and zpool read, by their own option
    syntax, as exactly the request it stands for: the flags are those the
    method and its options name, and each caller's name is an operand or the
    value of the option it was meant for, never an option; through sudo or not. *)
Theorem cli_issues_requests c :
  if valid_call c
  then exists k, (1 <= k)%nat /\ reading m <$> issued c = Some <$> take k (requests_of c)
  else issued c = [].
Proof using Hpaths.
  destruct c; [apply CreateDataset_issues|..]; simpl;
    try (unfold CloneFromSnapshot, DestroyDataset, GetMountpoint, SetMountpoint, SetProperty, GetDatasetInfo, ListDatasets,
           CreateSnapshot, Rollback, ListSnapshots, DestroySnapshot, HoldSnapshot, ReleaseSnapshot, PoolStatus, PoolSpace,
           ImportPool, ExportPool, EstimateSendSize, Send); repeat (progress log_simpl).
  - split_valid. one "clone" (@nil (string * option string)) [snapshot; newDataset] false.
  - split_valid. one "destroy" (flag (Recursive opts) "-r" ++ flag (Force opts) "-f" ++ flag (DependentClones opts) "-R") [name] false.
    simpl. unfold destroyFlags. by rewrite !flat_map_app, !render_flag.
  - split_valid. one "get" [("-H", @None string); ("-o", Some "value")] ["mountpoint"; dataset] false.
  - split_valid. one "set" (@nil (string * option string)) ["mountpoint=" +:+ mountpoint; dataset] false.
  - destruct (hasNewline value); cbn [negb is_Ok invalid]; split_valid.
    one "set" (@nil (string * option string)) [property +:+ "=" +:+ value; dataset] false.
  - split_valid. one "get" [("-H", @None string); ("-p", None); ("-o", Some "value")]
      ["mountpoint,used,available,referenced,origin,creation"; name] false.
  - split_valid. one "list" [("-H", @None string); ("-p", None); ("-r", None); ("-t", Some "filesystem");
      ("-o", Some "name,mountpoint,used,available,referenced,origin,creation")] [parent] false.
  - split_valid. destruct (log_createSnapshot dataset snapName) as [found ->].
    assert (startsAlnum (full dataset snapName) = true) by (apply startsAlnum_app; eauto with operand).
    exists (if found then 2 else 1)%nat. split; [destruct found; lia|]. rewrite fmap_app.
    assert (HasPrefix (full dataset snapName) "-" = false) by by apply startsAlnum_no_dash.
    assert (reading m <$> split_cmd ["snapshot"; full dataset snapName] =
            [Some (mkRequest false "snapshot" [] [full dataset snapName])]) as ->
      by (apply (reading_split false "snapshot" [] [_]); [done|constructor|done]).
    destruct found; [|done]. apply (f_equal (cons _)).
    apply (reading_split false "list" (listFlags snapshotColumns) [_]); [done|good_flags|done].
  - split_valid. one "rollback" (flag (DestroyLater opts) "-r") [full dataset snapName] false. by rewrite render_flag.
  - split_valid. one "list" (listFlags snapshotColumns ++ [("-s", Some "creation")]) [dataset] false.
  - split_valid. one "destroy" (@nil (string * option string)) [full dataset snapName] false.
  - split_valid. one "hold" (@nil (string * option string)) [tag; full dataset snapName] false.
  - split_valid. one "release" (@nil (string * option string)) [tag; full dataset snapName] false.
  - split_valid. one "status" [("-p", @None string)] [pool] true.
  - split_valid. one "list" [("-H", @None string); ("-p", None); ("-o", Some "name,size,allocated,free,capacity,fragmentation")] [pool] true.
  - split_valid. one "import" [("-d", Some device)] [pool] true.
  - split_valid. one "export" (@nil (string * option string)) [pool] true.
  - rewrite validateSend_is_Ok. destruct (bool_decide _ || _); rewrite ?andb_false_r, ?andb_true_r; [|done].
    split_valid. apply one_command. by apply (send_reading true).
  - rewrite validateSend_is_Ok. destruct (bool_decide _ || _); rewrite ?andb_false_r, ?andb_true_r; [|done].
    split_valid. apply one_command. by apply (send_reading false).
  - destruct r; [|done]. simpl. log_simpl. split_valid. one "receive" (@nil (string * option string)) [dataset] false.
Qed.
End Issued.

Lemma cli_issues_requests_witness :
  (valid_call (CRollback "tank/s1" "turn-0001" (mkRollbackOptions true)) = true) /\
  exists k, (1 <= k)%nat /\
  reading (mkCLIManager "zfs" "zpool" true "" 0 0 0) <$>
    issued (fun _ => mkRunResult "" "" 0 false None) id (fun _ => Err ErrSyntax) id (mkCLIManager "zfs" "zpool" true "" 0 0 0)
      (CRollback "tank/s1" "turn-0001" (mkRollbackOptions true)) =
  Some <$> take k (requests_of (CRollback "tank/s1" "turn-0001" (mkRollbackOptions true))).
Proof.
  split; [vm_compute; reflexivity|].
  exact (cli_issues_requests (fun _ => mkRunResult "" "" 0 false None) id (fun _ => Err ErrSyntax) id
    (mkCLIManager "zfs" "zpool" true "" 0 0 0) ltac:(discriminate)
    (CRollback "tank/s1" "turn-0001" (mkRollbackOptions true))).
Defined.

(** [SnapshotExists] validates nothing: a dataset that starts with a dash is
    read as an option, and the command has no operand at all. *)
Example SnapshotExists_option :
  let m := mkCLIManager "zfs" "zpool" false "" 0 0 0 in
  fmap rq_operands ∘ reading m <$>
    log_of (SnapshotExists (logRun (fun _ => mkRunResult "" "" 0 false None)) id m "-rHp" "x") = [Some []].
Proof. vm_compute. reflexivity. Qed.

(** ** The tables *)

(** A snapshot as zfs list -H -p prints it, and the whole table. *)
Definition snapshotRow (i : SnapshotInfo) : string :=
  JoinByte tab [full (si_Dataset i) (si_Name i); pretty (si_Used i); pretty (si_Refer i);
                pretty (si_Creation i / second)%Z; pretty (si_Holds i)].
Fixpoint snapshotTable (infos : list SnapshotInfo) : string :=
  match infos with [] => "" | i :: infos' => snapshotRow i +:+ String newline (snapshotTable infos') end.

(** What zfs can report: valid names, 64-bit numbers, whole seconds. *)
Record reportable (i : SnapshotInfo) : Prop := {
  rep_dataset : ValidateName (si_Dataset i) = Ok ();
  rep_name : ValidateSnapshotName (si_Name i) = Ok ();
  rep_used : int64 (si_Used i);
  rep_refer : int64 (si_Refer i);
  rep_holds : int64 (si_Holds i);
  rep_creation : int64 (si_Creation i / second) /\ (si_Creation i mod second = 0)%Z;
}.

Definition word (s : string) : Prop := s <> "" /\ allBytes graphic s = true.

Lemma word_solid s : word s -> solid s.
Proof. intros [? ?]. by apply solid_word. Qed.

Lemma word_no_byte s c : word s -> graphic c = false -> ContainsByte c s = false.
Proof. intros [_ H]. by apply allBytes_no_byte. Qed.

Lemma pattern_word set s :
  (forall c, oneOf set c = true -> graphic c = true) ->
  matchClass isAlnum (fun c => isAlnum c || oneOf set c) s = true -> word s.
Proof.
  intros Hset H. split; [by destruct s|]. apply matchClass_allBytes in H; [|by intros c ->].
  eapply allBytes_impl; [|exact H]. intros c [Hc|Hc]%orb_true_iff; [|by apply Hset].
  unfold isAlnum, isDigit, isLower, isUpper, graphic, inRange in *.
  rewrite !orb_true_iff, !bool_decide_eq_true in Hc. rewrite bool_decide_eq_true. lia.
Qed.

Lemma oneOf_graphic set c : allBytes graphic set = true -> oneOf set c = true -> graphic c = true.
Proof.
  unfold oneOf. intros Hset Hc. destruct (graphic c) eqn:E; [done|].
  by rewrite (allBytes_no_byte _ _ _ Hset E) in Hc.
Qed.

Lemma dataset_word n : ValidateName n = Ok () -> word n.
Proof. intros H%ValidateName_pattern. eapply pattern_word; [|exact H]. intros c. by apply oneOf_graphic. Qed.

Lemma snapshot_word n : ValidateSnapshotName n = Ok () -> word n.
Proof. intros H%ValidateSnapshotName_pattern. eapply pattern_word; [|exact H]. intros c. by apply oneOf_graphic. Qed.

Lemma word_append s t : word s -> word t -> word (s +:+ t).
Proof. intros [H1 H2] [H3 H4]. split; [by destruct s|]. by rewrite allBytes_app, H2, H4. Qed.

Lemma full_word i : reportable i -> word (full (si_Dataset i) (si_Name i)).
Proof.
  intros []. apply word_append; [by apply dataset_word|]. apply word_append; [by split|by apply snapshot_word].
Qed.

Lemma row_fields i :
  reportable i -> Forall word [full (si_Dataset i) (si_Name i); pretty (si_Used i); pretty (si_Refer i);
                               pretty (si_Creation i / second)%Z; pretty (si_Holds i)].
Proof. intros Hi. repeat (constructor; [by apply full_word || apply pretty_graphic|]). constructor. Qed.

(** Words joined by tabs make a solid line without newlines. *)
Lemma joined_solid l : l <> [] -> Forall word l -> solid (JoinByte tab l).
Proof.
  intros Hne Hl. induction Hl as [|x l Hx Hl IH]; [done|]. destruct l as [|y l]; [by apply word_solid|].
  apply (solid_app x (String tab "")); [by apply word_solid|by apply IH].
Qed.

Lemma joined_no_newline l : Forall word l -> ContainsByte newline (JoinByte tab l) = false.
Proof.
  induction 1 as [|x l Hx Hl IH]; [done|]. destruct l as [|y l]; [by apply word_no_byte|].
  change (JoinByte tab (x :: y :: l)) with (x +:+ String tab (JoinByte tab (y :: l))).
  rewrite ContainsByte_app, ContainsByte_cons, IH. by rewrite (word_no_byte x).
Qed.

Lemma row_solid i : reportable i -> solid (snapshotRow i).
Proof. intros Hi. by apply joined_solid, row_fields. Qed.

Lemma parseSize_pretty n : int64 n -> parseSize (pretty n) = Ok n.
Proof.
  intros Hn. unfold parseSize. rewrite TrimSpace_solid by apply word_solid, pretty_graphic. by rewrite ParseInt_pretty.
Qed.

Lemma parseSnapshotRow_fields i :
  reportable i ->
  parseSnapshotRow [full (si_Dataset i) (si_Name i); pretty (si_Used i); pretty (si_Refer i);
                    pretty (si_Creation i / second)%Z; pretty (si_Holds i)] = Ok i.
Proof.
  intros Hi. pose proof Hi as [Hd Hn Hu Hr Hh [Hc Hm]].
  assert (parseTimestamp (pretty (si_Creation i / second)%Z) = Ok (si_Creation i)) as Ht.
  { unfold parseTimestamp. rewrite TrimSpace_solid by apply word_solid, pretty_graphic. rewrite ParseInt_pretty by done.
    f_equal. pose proof (Z.div_mod (si_Creation i) second ltac:(done)). lia. }
  assert (TrimSpace (full (si_Dataset i) (si_Name i)) = full (si_Dataset i) (si_Name i)) as Hf
    by by apply TrimSpace_solid, word_solid, full_word.
  unfold parseSnapshotRow. change (nth_col _ 0) with (full (si_Dataset i) (si_Name i)).
  change (nth_col _ 1) with (pretty (si_Used i)). change (nth_col _ 2) with (pretty (si_Refer i)).
  change (nth_col _ 3) with (pretty (si_Creation i / second)%Z). change (nth_col _ 4) with (pretty (si_Holds i)).
  rewrite !parseSize_pretty, Ht, Hf by done. unfold full. rewrite SplitN2_full by by apply ValidateName_no_at.
  by destruct i.
Qed.

(** The table is its rows, one line each; the trailing newline is trimmed. *)
Lemma snapshotTable_join infos :
  snapshotTable infos = (if infos is [] then "" else JoinByte newline (snapshotRow <$> infos) +:+ String newline "").
Proof.
  induction infos as [|i infos IH]; [done|]. simpl snapshotTable. rewrite IH. destruct infos as [|j infos]; [done|].
  change (JoinByte newline (snapshotRow <$> i :: j :: infos)) with
    (snapshotRow i +:+ String newline (JoinByte newline (snapshotRow <$> j :: infos))).
  by rewrite <- append_assoc_l.
Qed.

Lemma table_solid infos : infos <> [] -> Forall reportable infos -> solid (JoinByte newline (snapshotRow <$> infos)).
Proof.
  intros Hne Hl. induction Hl as [|i infos Hi Hl IH]; [done|]. destruct infos as [|j infos]; [by apply row_solid|].
  apply (solid_app (snapshotRow i) (String newline "")); [by apply row_solid|by apply IH].
Qed.

Lemma splitRow i :
  reportable i ->
  SplitByte tab (snapshotRow i) = [full (si_Dataset i) (si_Name i); pretty (si_Used i); pretty (si_Refer i);
                                   pretty (si_Creation i / second)%Z; pretty (si_Holds i)].
Proof.
  intros Hi. unfold snapshotRow. apply SplitByte_JoinByte; [done|].
  apply (Forall_impl _ _ _ (row_fields i Hi)). intros x Hx. by apply word_no_byte.
Qed.

Lemma parseRows_table infos :
  Forall reportable infos ->
  parseRows 5 (snapshotRow <$> infos) =
  Ok ((fun i => [full (si_Dataset i) (si_Name i); pretty (si_Used i); pretty (si_Refer i);
                 pretty (si_Creation i / second)%Z; pretty (si_Holds i)]) <$> infos).
Proof.
  induction 1 as [|i infos Hi Hl IH]; [done|]. rewrite fmap_cons. cbn [parseRows].
  rewrite TrimSpace_solid by by apply row_solid.
  destruct (row_solid i Hi) as (a & _ & u & _ & _ & _ & E & _). rewrite bool_decide_eq_false_2 by by rewrite E.
  rewrite (splitRow i) by done. rewrite bool_decide_eq_true_2 by done. by rewrite IH.
Qed.

Lemma parseTabular_table infos :
  Forall reportable infos ->
  parseTabular (snapshotTable infos) 5 =
  Ok ((fun i => [full (si_Dataset i) (si_Name i); pretty (si_Used i); pretty (si_Refer i);
                 pretty (si_Creation i / second)%Z; pretty (si_Holds i)]) <$> infos).
Proof.
  intros Hl. unfold parseTabular. rewrite snapshotTable_join. destruct infos as [|i infos]; [done|].
  rewrite TrimSpace_solid_newline by by apply table_solid.
  rewrite SplitByte_JoinByte; [|done|].
  - rewrite bool_decide_eq_false_2; [by apply parseRows_table|].
    intros [= E _]. apply Forall_cons in Hl as [Hi _]. destruct (row_solid i Hi) as (a & _ & u & _ & _ & _ & E' & _).
    by rewrite E' in E.
  - apply Forall_fmap. apply (Forall_impl _ _ _ Hl). intros j Hj. by apply joined_no_newline, row_fields.
Qed.

Lemma mapRows_fields infos :
  Forall reportable infos ->
  mapRows parseSnapshotRow ((fun i => [full (si_Dataset i) (si_Name i); pretty (si_Used i); pretty (si_Refer i);
                 pretty (si_Creation i / second)%Z; pretty (si_Holds i)]) <$> infos) = Ok infos.
Proof.
  induction 1 as [|i infos Hi Hl IH]; [done|]. rewrite fmap_cons. cbn [mapRows].
  rewrite parseSnapshotRow_fields by done. by rewrite IH.
Qed.

(** Every number of a parsed row is a 64-bit integer. *)
Lemma parseSize_int64 s n : parseSize s = Ok n -> int64 n.
Proof. unfold parseSize. destruct (ParseInt _) eqn:E; [|done]. intros [= <-]. by eapply ParseInt_int64. Qed.

Lemma parseSnapshotRow_int64 row i :
  parseSnapshotRow row = Ok i -> int64 (si_Used i) /\ int64 (si_Refer i) /\ int64 (si_Holds i).
Proof.
  unfold parseSnapshotRow. destruct (parseSize (nth_col row 1)) eqn:E1; [|done].
  destruct (parseSize (nth_col row 2)) eqn:E2; [|done]. destruct (parseTimestamp _); [|done].
  destruct (parseSize (nth_col row 4)) eqn:E4; [|done]. destruct (SplitN2 _ _) as [|d [|n [|]]]; try done.
  intros [= <-]. simpl. split_and!; by eapply parseSize_int64.
Qed.

Lemma mapRows_Forall {A} (f : list string -> res zerror A) (P : A -> Prop) rows xs :
  (forall row x, f row = Ok x -> P x) -> mapRows f rows = Ok xs -> Forall P xs.
Proof.
  intros Hf. revert xs. induction rows as [|row rows IH]; intros xs; simpl; [intros [= <-]; constructor|].
  destruct (f row) eqn:E; [|done]. destruct (mapRows f rows); [|done]. intros [= <-]. constructor; eauto.
Qed.

#[local] Instance olderFirst_total : Total olderFirst.
Proof. intros a b. unfold olderFirst. lia. Qed.

(** Listings round-trip within 64 bits.  The table zfs prints for any
    snapshots it can report is read back as those snapshots, oldest first;
    and whatever the command printed, every number of an accepted listing is
    a 64-bit integer. *)
Theorem snapshot_listing_roundtrip ties dataset infos out :
  (forall l, ties l ≡ₚ l) -> Forall reportable infos ->
  (exists l, parseSnapshotList ties dataset (snapshotTable infos) = Ok l /\ l ≡ₚ infos /\ Sorted olderFirst l) /\
  (forall l, parseSnapshotList ties dataset out = Ok l ->
     Forall (fun i => int64 (si_Used i) /\ int64 (si_Refer i) /\ int64 (si_Holds i)) l).
Proof.
  intros Hties Hl. unfold parseSnapshotList. split.
  - rewrite parseTabular_table by done. unfold parseSnapshotRows. rewrite mapRows_fields by done.
    eexists. split; [done|]. split.
    + rewrite merge_sort_Permutation, Hties. clear Hties. induction Hl as [|i l Hi Hl IH]; [done|].
      rewrite fmap_cons, IH. unfold fillDataset. rewrite bool_decide_eq_false_2; [done|].
      destruct (dataset_word _ (rep_dataset i Hi)). done.
    + apply (Sorted_merge_sort olderFirst).
  - intros l. destruct (parseTabular out 5) as [rows|]; [|done]. unfold parseSnapshotRows.
    destruct (mapRows parseSnapshotRow rows) as [found|] eqn:E; [|done]. intros [= <-].
    apply (mapRows_Forall _ _ _ _ parseSnapshotRow_int64) in E.
    rewrite merge_sort_Permutation, Hties. apply Forall_fmap. apply (Forall_impl _ _ _ E). intros i Hi.
    unfold fillDataset. simpl. by destruct (bool_decide _).
Qed.

Lemma snapshot_listing_roundtrip_witness :
  let i := mkSnapshotInfo "turn-0001" "tank/s1" 0 4096 (1700000000 * second) 1 in
  exists l, parseSnapshotList (@reverse _) "tank/s1" (snapshotTable [i]) = Ok l /\ l ≡ₚ [i] /\ Sorted olderFirst l.
Proof.
  intros i. destruct (snapshot_listing_roundtrip (@reverse _) "tank/s1" [i] "") as [H _].
  - intros l. apply reverse_Permutation.
  - constructor; [|constructor]. split; try (vm_compute; reflexivity); try (unfold int64; vm_compute; split; [discriminate|reflexivity]).
    split; [unfold int64; vm_compute; split; [discriminate|reflexivity]|vm_compute; reflexivity].
  - exact H.
Defined.
