(* ===== verification/SandboxTypes.v ===== *)
(** * SandboxTypes: the data of the sandbox host service
    (internal/sandbox: types.go, config.go, ids.go, gvisor/types.go)

    Errors, configuration, sessions and processes.  A session and a process are
    shared by pointer: [Svc] keeps them in stores under identities.  Durations
    and times are nanoseconds, 0 for the zero time. *)

From Stdlib Require Import Ascii String.
From S2P Require Import Prelude GoStrings GoText GoPath GoFloat Zfs.

Local Open Scope string_scope.
Local Open Scope list_scope.

(** ** Errors (types.go) *)

Inductive sandboxSentinel : Type :=
  | SessionNotFound | SessionExists | SessionPausedErr | SessionDestroyingErr | ProcessNotFound | RollbackInProgress
  | InvalidState | MaxSessionsReached | ToolsInFlight | SnapshotsNotAvailable.
#[export] Instance sandboxSentinel_eq_dec : EqDecision sandboxSentinel.
Proof. solve_decision. Defined.

(** [SWrap s d] is fmt.Errorf("%w: ...", s) with the rest of its text, [SZfs]
    wraps an error of the storage layer, [SCtx] is that of a context and
    [SMsg] any other error. *)
Inductive serror : Type :=
  | SSentinel (s : sandboxSentinel)
  | SWrap (s : sandboxSentinel) (detail : string)
  | SZfs (what : string) (e : zerror)
  | SCtx (message : string)
  | SMsg (message : string).

Definition ErrSessionNotFound := SSentinel SessionNotFound.
Definition ErrSessionExists := SSentinel SessionExists.
Definition ErrSessionPaused := SSentinel SessionPausedErr.
Definition ErrSessionDestroying := SSentinel SessionDestroyingErr.
Definition ErrProcessNotFound := SSentinel ProcessNotFound.
Definition ErrRollbackInProgress := SSentinel RollbackInProgress.
Definition ErrInvalidState := SSentinel InvalidState.
Definition ErrMaxSessionsReached := SSentinel MaxSessionsReached.
Definition ErrToolsInFlight := SSentinel ToolsInFlight.
Definition ErrSnapshotsNotAvailable := SSentinel SnapshotsNotAvailable.

(** errors.Is against one of the package's sentinels. *)
Definition sIs (s : sandboxSentinel) (e : serror) : bool :=
  match e with
  | SSentinel s' | SWrap s' _ => bool_decide (s = s')
  | _ => false
  end.

(** ** Session states *)

Inductive SessionState : Type := SessionCreating | SessionActive | SessionPaused | SessionDestroying | SessionFailed.
#[export] Instance SessionState_eq_dec : EqDecision SessionState.
Proof. solve_decision. Defined.

Definition SessionState_string (s : SessionState) : string :=
  match s with
  | SessionCreating => "creating" | SessionActive => "active" | SessionPaused => "paused"
  | SessionDestroying => "destroying" | SessionFailed => "failed"
  end.

(** ** Containers (gvisor/types.go): what the service sets *)

Record ResourceSpec : Type := mkResourceSpec {
  rs_CPUs : float64; rs_MemoryMB : Z; rs_MaxPIDs : Z; rs_Timeout : Z; rs_MaxOutputBytes : Z;
}.
Inductive NetworkMode : Type := NetworkNone | NetworkSandbox | NetworkHost.
Record ContainerOptions : Type := mkContainerOptions {
  co_Command : list string; co_WorkDir : string; co_Env : gmap string string; co_RootFS : string;
  co_Resources : ResourceSpec; co_Network : NetworkMode;
}.
Record ContainerResult : Type := mkContainerResult { cr_ExitCode : Z; cr_Stdout : string; cr_Stderr : string }.

(** ** Configuration (types.go, config.go) *)

Definition StorageBackend : Type := string.
Definition StorageBackendZFS : StorageBackend := "zfs".
Definition StorageBackendLocalDisk : StorageBackend := "local-disk".
Definition ContainerRuntime : Type := string.
Definition ContainerRuntimeGVisor : ContainerRuntime := "gvisor".
Definition ContainerRuntimeNone : ContainerRuntime := "none".

Record ServiceConfig : Type := mkServiceConfig {
  c_StorageBackend : StorageBackend;
  c_ContainerRuntime : ContainerRuntime;
  c_AdvertiseAddr : string;
  c_PoolName : string;
  c_BasesDataset : string;
  c_SessionsDataset : string;
  c_SessionsRootDir : string;
  c_MaxSessions : Z;
  c_DefaultSessionQuota : Z;
  c_SnapshotPrefix : string;
  c_MaxSnapshotsPerSession : Z;
  c_DefaultResources : ResourceSpec;
  c_ToolTimeout : Z;
  c_PoolSpaceWarnThreshold : float64;
  c_PoolSpaceCritThreshold : float64;
  c_HealthCheckInterval : Z;
  c_PauseDrainTimeout : Z;
  c_ShutdownTimeout : Z;
  c_PerToolSnapshots : bool;
}.

Definition secondsNs (n : Z) : Z := n * 1000000000.
Definition noResources : ResourceSpec := mkResourceSpec (float_of 0) 0 0 0 0.

Definition DefaultServiceConfig : ServiceConfig :=
  mkServiceConfig StorageBackendZFS ContainerRuntimeGVisor "127.0.0.1" "" "" "" "" 0 0 "turn" 0 noResources
    (secondsNs 300) (literal 85 100) (literal 95 100) (secondsNs 30) (secondsNs 30) (secondsNs 30) false.

Definition isZero (f : float64) : bool := match f with SpecFloat.S754_zero _ => true | _ => false end.
Definition orString (a b : string) : string := if bool_decide (a = "") then b else a.
Definition orInt (a b : Z) : Z := if bool_decide (a = 0%Z) then b else a.
Definition orFloat (a b : float64) : float64 := if isZero a then b else a.

Definition mergeDefaultConfig (cfg : ServiceConfig) : ServiceConfig :=
  let d := DefaultServiceConfig in
  mkServiceConfig (c_StorageBackend cfg) (c_ContainerRuntime cfg) (orString (c_AdvertiseAddr cfg) (c_AdvertiseAddr d))
    (c_PoolName cfg) (c_BasesDataset cfg) (c_SessionsDataset cfg) (c_SessionsRootDir cfg) (c_MaxSessions cfg)
    (c_DefaultSessionQuota cfg) (orString (c_SnapshotPrefix cfg) (c_SnapshotPrefix d)) (c_MaxSnapshotsPerSession cfg)
    (c_DefaultResources cfg) (orInt (c_ToolTimeout cfg) (c_ToolTimeout d))
    (orFloat (c_PoolSpaceWarnThreshold cfg) (c_PoolSpaceWarnThreshold d))
    (orFloat (c_PoolSpaceCritThreshold cfg) (c_PoolSpaceCritThreshold d))
    (orInt (c_HealthCheckInterval cfg) (c_HealthCheckInterval d))
    (orInt (c_PauseDrainTimeout cfg) (c_PauseDrainTimeout d))
    (orInt (c_ShutdownTimeout cfg) (c_ShutdownTimeout d)) (c_PerToolSnapshots cfg).

(** ** Session ids and paths (config.go, ids.go) *)

Definition sessionIDPattern (s : string) : bool :=
  matchClass isAlnum (fun c => isAlnum c || oneOf "._-" c) s && bool_decide (String.length s <= 128)%nat.

Definition sessionIDPatternText : string := "^[a-zA-Z0-9][a-zA-Z0-9._-]{0,127}$".

Definition ValidateSessionID (sessionID : string) : res serror () :=
  if negb (sessionIDPattern sessionID) then
    Err (SMsg ("invalid session_id " +:+ quote sessionID +:+ ": must match " +:+ sessionIDPatternText))
  else if Contains sessionID ".." then
    Err (SMsg ("invalid session_id " +:+ quote sessionID +:+ ": path traversal segment"))
  else Ok ().

Definition safeSessionPath (rootDir sessionID : string) : res serror string :=
  match ValidateSessionID sessionID with
  | Err e => Err e
  | Ok _ =>
      let cleanRoot := Clean rootDir in
      let target := Clean (JoinPath [cleanRoot; sessionID]) in
      match Rel cleanRoot target with
      | Err e => Err (SMsg ("resolve session path: " +:+ e))
      | Ok rel =>
          if HasPrefix rel ".." then Err (SMsg ("session path escapes sessions root: " +:+ quote sessionID))
          else Ok target
      end
  end.

(** [idCounter] has been incremented to [n]. *)
Definition sessionIDOf (n : Z) : string := "sess-" +:+ hex08 n.

(** ** Sessions and processes (types.go, process.go) *)

Record SnapshotEntry : Type := mkSnapshotEntry { se_Name : string; se_IsTurnSnapshot : bool }.

Record Session : Type := mkSession {
  s_id : string;
  s_state : SessionState;
  s_dataset : string;
  s_mountpoint : string;
  s_turnCount : Z;
  s_created : Z;
  s_labels : gmap string string;
  s_activeTools : Z;
  s_rollingBack : bool;
  s_snapshots : list SnapshotEntry;
  s_processes : gmap string nat;
  s_processSeq : Z;
}.

Inductive ProcessStatus : Type := ProcessStatusStarting | ProcessStatusRunning | ProcessStatusExited.
#[export] Instance ProcessStatus_eq_dec : EqDecision ProcessStatus.
Proof. solve_decision. Defined.

Record portProxy : Type := mkPortProxy { pp_address : string; pp_targetAddr : string; pp_closed : bool }.

(** [mp_cmd] is the started command, [mp_cancel] whether there is a cancel
    function and [mp_canceled] whether it was called; [mp_gvisor] the options of
    a container run.  [mp_done] counts the closes of the channel [done]: a
    second one would panic. *)
Record ManagedProcess : Type := mkManagedProcess {
  mp_id : string;
  mp_status : ProcessStatus;
  mp_exitCode : option Z;
  mp_pid : Z;
  mp_cmd : option nat;
  mp_cancel : bool;
  mp_canceled : bool;
  mp_killSignal : Z;
  mp_gvisor : option ContainerOptions;
  mp_proxy : option portProxy;
  mp_startedAt : Z;
  mp_exitedAt : Z;
  mp_done : nat;
}.

Record serviceMetrics : Type := mkServiceMetrics {
  sessionsCreated : Z; sessionsPaused : Z; sessionsResumed : Z; sessionsDestroyed : Z;
  toolExecutions : Z; snapshotsTaken : Z; rollbacks : Z;
}.

(** [SandboxHostService]: the map of sessions, the sessions and processes it
    reaches, the counter of generated ids, the monitors that were started with
    [go] and have not run yet, and the counters. *)
Record Svc : Type := mkSvc {
  sessions : gmap string nat;
  sheap : gmap nat Session;
  pheap : gmap nat ManagedProcess;
  idCounter : Z;
  monitors : list (nat * nat);
  metrics : serviceMetrics;
}.

Definition initSvc : Svc := mkSvc ∅ ∅ ∅ 0 [] (mkServiceMetrics 0 0 0 0 0 0 0).

Definition set_sessions (m : gmap string nat) (s : Svc) : Svc := mkSvc m (sheap s) (pheap s) (idCounter s) (monitors s) (metrics s).
Definition set_sheap (h : gmap nat Session) (s : Svc) : Svc := mkSvc (sessions s) h (pheap s) (idCounter s) (monitors s) (metrics s).
Definition set_pheap (h : gmap nat ManagedProcess) (s : Svc) : Svc := mkSvc (sessions s) (sheap s) h (idCounter s) (monitors s) (metrics s).
Definition set_idCounter (n : Z) (s : Svc) : Svc := mkSvc (sessions s) (sheap s) (pheap s) n (monitors s) (metrics s).
Definition set_monitors (l : list (nat * nat)) (s : Svc) : Svc := mkSvc (sessions s) (sheap s) (pheap s) (idCounter s) l (metrics s).
Definition set_metrics (m : serviceMetrics) (s : Svc) : Svc := mkSvc (sessions s) (sheap s) (pheap s) (idCounter s) (monitors s) m.

Definition set_state (st : SessionState) (s : Session) : Session :=
  mkSession (s_id s) st (s_dataset s) (s_mountpoint s) (s_turnCount s) (s_created s) (s_labels s) (s_activeTools s)
    (s_rollingBack s) (s_snapshots s) (s_processes s) (s_processSeq s).
Definition set_turnCount (n : Z) (s : Session) : Session :=
  mkSession (s_id s) (s_state s) (s_dataset s) (s_mountpoint s) n (s_created s) (s_labels s) (s_activeTools s)
    (s_rollingBack s) (s_snapshots s) (s_processes s) (s_processSeq s).
Definition set_activeTools (n : Z) (s : Session) : Session :=
  mkSession (s_id s) (s_state s) (s_dataset s) (s_mountpoint s) (s_turnCount s) (s_created s) (s_labels s) n
    (s_rollingBack s) (s_snapshots s) (s_processes s) (s_processSeq s).
Definition set_rollingBack (b : bool) (s : Session) : Session :=
  mkSession (s_id s) (s_state s) (s_dataset s) (s_mountpoint s) (s_turnCount s) (s_created s) (s_labels s) (s_activeTools s)
    b (s_snapshots s) (s_processes s) (s_processSeq s).
Definition set_snapshots (l : list SnapshotEntry) (s : Session) : Session :=
  mkSession (s_id s) (s_state s) (s_dataset s) (s_mountpoint s) (s_turnCount s) (s_created s) (s_labels s) (s_activeTools s)
    (s_rollingBack s) l (s_processes s) (s_processSeq s).
Definition set_processes (m : gmap string nat) (s : Session) : Session :=
  mkSession (s_id s) (s_state s) (s_dataset s) (s_mountpoint s) (s_turnCount s) (s_created s) (s_labels s) (s_activeTools s)
    (s_rollingBack s) (s_snapshots s) m (s_processSeq s).
Definition set_processSeq (n : Z) (s : Session) : Session :=
  mkSession (s_id s) (s_state s) (s_dataset s) (s_mountpoint s) (s_turnCount s) (s_created s) (s_labels s) (s_activeTools s)
    (s_rollingBack s) (s_snapshots s) (s_processes s) n.

(** A placeholder: the session a creation stores before its storage exists. *)
Definition placeholder (id : string) : Session := mkSession id SessionCreating "" "" 0 0 ∅ 0 false [] ∅ 0.

(** ** Requests *)

Record LaunchProcessRequest : Type := mkLaunchProcessRequest {
  lp_SessionID : string; lp_Binary : string; lp_Args : list string; lp_Env : gmap string string; lp_ExposePort : Z;
}.
Record LaunchProcessResponse : Type := mkLaunchProcessResponse {
  lr_ProcessID : string; lr_Address : string; lr_Status : ProcessStatus;
}.
Record KillProcessRequest : Type := mkKillProcessRequest { kp_SessionID : string; kp_ProcessID : string; kp_Signal : Z }.
Record GetProcessStatusRequest : Type := mkGetProcessStatusRequest { gp_SessionID : string; gp_ProcessID : string }.
Record GetProcessStatusResponse : Type := mkGetProcessStatusResponse { gr_Status : ProcessStatus; gr_ExitCode : option Z }.

(** ** The rest of the world

    [preempt] is what other goroutines of the service do to the state where
    the running one does not hold the lock it needs.  [patience] says how long
    a wait lasts: the number of ticks before its deadline, or the end of the
    context ([inl]), ends it. *)

Inductive waitEnd : Type := CtxDone (err : string) | Deadline.

Class SandboxEnv (W : Type) : Type := {
  preempt : M (Svc * W) ();
  Now : M W Z;
  patience : M W (nat * waitEnd);
  MkdirAll : string -> M W (res string ());
  RemoveAll : string -> M W (res string ());
  Environ : M W (list string);
  (** [exec.Cmd.Start] with binary, arguments, directory and environment: a
      handle and the process id. *)
  cmd_Start : string -> list string -> string -> list string -> M W (res string (nat * Z));
  (** [Process.Signal]: an error, and whether it is [os.ErrProcessDone]. *)
  cmd_Signal : nat -> Z -> M W (option (string * bool));
  (** [net.Listen] on a free port of the loopback address: the port. *)
  Listen : M W (res string Z);
  (** The wait for [proc.done] while a session is destroyed, for two seconds:
      whether the channel or the context came first. *)
  awaitDone : nat -> M (Svc * W) bool;
  (** [Cmd.Wait]: nil, the code of an [ExitError], or another error. *)
  cmd_Wait : nat -> M W (res (option Z) ());
  (** An error with whether it is [context.Canceled]; the result may be nil. *)
  gvisor_Run : ContainerOptions -> M W (res (string * bool) (option ContainerResult));
  gvisor_Close : M W (res string ());
}.

Notation SM W := (M (Svc * W)).

Section SvcMonad.
Context {W : Type}.

Definition sget {A} (f : Svc -> A) : SM W A := gets (fun s => f s.1).
Definition smod (f : Svc -> Svc) : SM W () := modify (fun s => (f s.1, s.2)).
Definition lift {A} (m : M W A) : SM W A := fun s => let '(r, w) := m s.2 in (r, (s.1, w)).

(** A critical section on the session at [p]. *)
Definition onSession {A} (p : nat) (dflt : A) (f : Session -> A * Session) : SM W A := fun s =>
  match sheap s.1 !! p with
  | None => (dflt, s)
  | Some sess => let '(r, sess') := f sess in (r, (set_sheap (<[p := sess']> (sheap s.1)) s.1, s.2))
  end.
Definition modSession (p : nat) (f : Session -> Session) : SM W () := onSession p () (fun sess => ((), f sess)).
Definition readSession (p : nat) : SM W (option Session) := sget (fun s => sheap s !! p).

Definition modProcess (p : nat) (f : ManagedProcess -> ManagedProcess) : SM W () :=
  smod (fun s => match pheap s !! p with
                 | None => s
                 | Some mp => set_pheap (<[p := f mp]> (pheap s)) s
                 end).
(** A critical section on the process at [p]. *)
Definition onProcess {A} (p : nat) (dflt : A) (f : ManagedProcess -> A * ManagedProcess) : SM W A := fun s =>
  match pheap s.1 !! p with
  | None => (dflt, s)
  | Some mp => let '(r, mp') := f mp in (r, (set_pheap (<[p := mp']> (pheap s.1)) s.1, s.2))
  end.
Definition readProcess (p : nat) : SM W (option ManagedProcess) := sget (fun s => pheap s !! p).

Definition count (f : serviceMetrics -> serviceMetrics) : SM W () := smod (fun s => set_metrics (f (metrics s)) s).

Definition getSession (sessionID : string) : SM W (res serror nat) :=
  sget (fun s => match sessions s !! sessionID with
                 | None => Err (SWrap SessionNotFound (": " +:+ sessionID))
                 | Some p => Ok p
                 end).
End SvcMonad.
