(* ===== verification/SandboxProcess.v ===== *)
(** * SandboxProcess: the processes of a sandbox (internal/sandbox/process.go)

    A process is launched into the map of its session, watched by a monitor
    that runs as a goroutine of its own, and killed by a signal or by cancelling
    its container.  The copying of the port proxies is left out: a proxy is
    its addresses and whether it was closed. *)

From Stdlib Require Import Ascii String.
From S2P Require Import Prelude GoStrings GoText GoPath GoFloat Zfs SandboxTypes.

Local Open Scope string_scope.
Local Open Scope list_scope.
Local Open Scope stdpp_scope.

Definition exitedProcessRetention : Z := secondsNs 600.
Definition SIGTERM : Z := 15.
Definition SIGKILL : Z := 9.

Definition shortSessionID (sessionID : string) : string :=
  if bool_decide (String.length sessionID <= 8)%nat then sessionID else String.substring 0 8 sessionID.

Definition processIDOf (sessionID : string) (seq : Z) : string :=
  "proc-" +:+ shortSessionID sessionID +:+ "-" +:+ pretty seq.

(** [order] is the order in which Go visits a map. *)
Definition buildProcessEnv (order : list (string * string) -> list (string * string)) (base : list string)
    (env : gmap string string) : list string :=
  if bool_decide (size env = 0%nat) then base
  else base ++ ((fun '(k, v) => k +:+ "=" +:+ v) <$> order (map_to_list env)).

(** net.JoinHostPort. *)
Definition JoinHostPort (host port : string) : string :=
  if ContainsByte ":" host then "[" +:+ host +:+ "]:" +:+ port else host +:+ ":" +:+ port.

(** ** Processes *)

Definition newProcess (id : string) (now : Z) : ManagedProcess :=
  mkManagedProcess id ProcessStatusStarting None 0 None false false 0 None None now 0 0.

Definition set_proxy (px : option portProxy) (mp : ManagedProcess) : ManagedProcess :=
  mkManagedProcess (mp_id mp) (mp_status mp) (mp_exitCode mp) (mp_pid mp) (mp_cmd mp) (mp_cancel mp) (mp_canceled mp)
    (mp_killSignal mp) (mp_gvisor mp) px (mp_startedAt mp) (mp_exitedAt mp) (mp_done mp).
Definition set_canceled (mp : ManagedProcess) : ManagedProcess :=
  mkManagedProcess (mp_id mp) (mp_status mp) (mp_exitCode mp) (mp_pid mp) (mp_cmd mp) (mp_cancel mp) true
    (mp_killSignal mp) (mp_gvisor mp) (mp_proxy mp) (mp_startedAt mp) (mp_exitedAt mp) (mp_done mp).
Definition set_killSignal (sig : Z) (mp : ManagedProcess) : ManagedProcess :=
  mkManagedProcess (mp_id mp) (mp_status mp) (mp_exitCode mp) (mp_pid mp) (mp_cmd mp) (mp_cancel mp) (mp_canceled mp)
    sig (mp_gvisor mp) (mp_proxy mp) (mp_startedAt mp) (mp_exitedAt mp) (mp_done mp).
Definition set_started (handle : nat) (pid : Z) (mp : ManagedProcess) : ManagedProcess :=
  mkManagedProcess (mp_id mp) ProcessStatusRunning (mp_exitCode mp) pid (Some handle) true (mp_canceled mp)
    (mp_killSignal mp) (mp_gvisor mp) (mp_proxy mp) (mp_startedAt mp) (mp_exitedAt mp) (mp_done mp).
Definition set_container (opts : ContainerOptions) (mp : ManagedProcess) : ManagedProcess :=
  mkManagedProcess (mp_id mp) ProcessStatusStarting (mp_exitCode mp) (mp_pid mp) (mp_cmd mp) true (mp_canceled mp)
    (mp_killSignal mp) (Some opts) (mp_proxy mp) (mp_startedAt mp) (mp_exitedAt mp) (mp_done mp).
Definition set_running (mp : ManagedProcess) : ManagedProcess :=
  if bool_decide (mp_status mp = ProcessStatusStarting) then
    mkManagedProcess (mp_id mp) ProcessStatusRunning (mp_exitCode mp) (mp_pid mp) (mp_cmd mp) (mp_cancel mp) (mp_canceled mp)
      (mp_killSignal mp) (mp_gvisor mp) (mp_proxy mp) (mp_startedAt mp) (mp_exitedAt mp) (mp_done mp)
  else mp.
Definition set_exited (exitCode now : Z) (mp : ManagedProcess) : ManagedProcess :=
  mkManagedProcess (mp_id mp) ProcessStatusExited (Some exitCode) (mp_pid mp) (mp_cmd mp) (mp_cancel mp) (mp_canceled mp)
    (mp_killSignal mp) (mp_gvisor mp) (mp_proxy mp) (mp_startedAt mp) now (mp_done mp).
Definition set_done (mp : ManagedProcess) : ManagedProcess :=
  mkManagedProcess (mp_id mp) (mp_status mp) (mp_exitCode mp) (mp_pid mp) (mp_cmd mp) (mp_cancel mp) (mp_canceled mp)
    (mp_killSignal mp) (mp_gvisor mp) (mp_proxy mp) (mp_startedAt mp) (mp_exitedAt mp) (S (mp_done mp)).

(** [proxy.close()] on the proxy of a process, if it has one. *)
Definition closeProxy (mp : ManagedProcess) : ManagedProcess :=
  match mp_proxy mp with
  | None => mp
  | Some px => set_proxy (Some (mkPortProxy (pp_address px) (pp_targetAddr px) true)) mp
  end.

(** The section of [markProcessExited]; only the first call does something. *)
Definition exit_locked (exitCode now : Z) (mp : ManagedProcess) : bool * ManagedProcess :=
  if bool_decide (mp_status mp = ProcessStatusExited) then (false, mp) else (true, set_exited exitCode now mp).

(** The section of [killManagedProcess]: what to signal or cancel, if anything. *)
Definition kill_locked (sig : Z) (mp : ManagedProcess) : option (option nat * bool) * ManagedProcess :=
  if bool_decide (mp_status mp = ProcessStatusExited) then (None, mp)
  else (Some (mp_cmd mp, mp_cancel mp), set_killSignal sig mp).

(** An exited process is forgotten ten minutes later. *)
Definition expired (now : Z) (mp : ManagedProcess) : bool :=
  bool_decide (mp_status mp = ProcessStatusExited) && negb (bool_decide (mp_exitedAt mp = 0%Z)) &&
  bool_decide (now - mp_exitedAt mp > exitedProcessRetention)%Z.

Definition pruneExitedProcessesLocked (now : Z) (procs : gmap nat ManagedProcess) (sess : Session) : Session :=
  set_processes (filter (fun '(_, p) => negb (from_option (expired now) false (procs !! p))) (s_processes sess)) sess.

Section Process.
Context {W : Type} `{!SandboxEnv W}.
Context (order : forall A, list (string * A) -> list (string * A)).
Context (cfg : ServiceConfig).
(** Whether the service has a gVisor manager. *)
Context (hasGVisor : bool).

Notation SO A := (SM W (res serror A)).

Definition fail {A} (e : serror) : SO A := mret (Err e).
Definition notActive (st : SessionState) (rest : string) : serror := SWrap InvalidState (": session is " +:+ SessionState_string st +:+ rest).

Definition createPortProxy (targetPort : Z) : SM W (res string portProxy) :=
  l ← lift Listen;
  mret (match l with
        | Err e => Err e
        | Ok port =>
            let host := if bool_decide (c_AdvertiseAddr cfg = "") then "127.0.0.1" else c_AdvertiseAddr cfg in
            Ok (mkPortProxy (JoinHostPort host (pretty port)) (JoinHostPort "127.0.0.1" (pretty targetPort)) false)
        end).

Definition launchDirect (proc : nat) (req : LaunchProcessRequest) (mountpoint : string) : SM W (res string ()) :=
  base ← lift Environ;
  r ← lift (cmd_Start (lp_Binary req) (lp_Args req) mountpoint (buildProcessEnv (order string) base (lp_Env req)));
  match r with
  | Err e => mret (Err e)
  | Ok (handle, pid) => modProcess proc (set_started handle pid);; mret (Ok ())
  end.

Definition launchInGVisor (proc : nat) (req : LaunchProcessRequest) (mountpoint : string) : SM W (res string ()) :=
  if negb hasGVisor then mret (Err "gvisor runtime requested but manager is nil")
  else
    let network := if bool_decide (lp_ExposePort req > 0)%Z then NetworkHost else NetworkNone in
    modProcess proc (set_container (mkContainerOptions (lp_Binary req :: lp_Args req) "/workspace" (lp_Env req) mountpoint
                                      (c_DefaultResources cfg) network));;
    mret (Ok ()).

(** The section of [LaunchProcess] that enters the new process. *)
Definition launch_locked (p : nat) (sessionID : string) (now : Z) : SM W (res serror (nat * string * string)) := fun s =>
  match sheap s.1 !! p with
  | None => (Err (SMsg "nil pointer dereference"), s)
  | Some sess =>
      if negb (bool_decide (s_state sess = SessionActive)) then (Err (notActive (s_state sess) ""), s)
      else
        let sess := pruneExitedProcessesLocked now (pheap s.1) sess in
        let seq := u64 (s_processSeq sess + 1) in
        let id := processIDOf sessionID seq in
        let proc := fresh (dom (pheap s.1)) in
        let sess := set_processSeq seq (set_processes (<[id := proc]> (s_processes sess)) sess) in
        (Ok (proc, id, s_mountpoint sess),
         (set_pheap (<[proc := newProcess id now]> (pheap s.1)) (set_sheap (<[p := sess]> (sheap s.1)) s.1), s.2))
  end.

(** Take a process that did not start out of its session again. *)
Definition abandon (p proc : nat) (id : string) : SM W () :=
  modSession p (fun sess => set_processes (delete id (s_processes sess)) sess);;
  modProcess proc set_done.

Definition LaunchProcess (req : LaunchProcessRequest) : SO LaunchProcessResponse :=
  if bool_decide (lp_SessionID req = "") then fail (SMsg "session_id is required")
  else if bool_decide (lp_Binary req = "") then fail (SMsg "binary is required")
  else if bool_decide (lp_ExposePort req < 0)%Z || bool_decide (lp_ExposePort req > 65535)%Z then
    fail (SMsg "expose_port must be in range [0,65535]")
  else
    found ← getSession (lp_SessionID req);
    match found with
    | Err e => fail e
    | Ok p =>
        preempt;;
        now ← lift Now;
        entered ← launch_locked p (lp_SessionID req) now;
        match entered with
        | Err e => fail e
        | Ok (proc, id, mountpoint) =>
            preempt;;
            px ← (if bool_decide (lp_ExposePort req > 0)%Z then Some <$> createPortProxy (lp_ExposePort req) else mret None);
            match px with
            | Some (Err e) => abandon p proc id;; fail (SMsg ("setup port proxy: " +:+ e))
            | _ =>
                match px with Some (Ok x) => modProcess proc (set_proxy (Some x)) | _ => mret () end;;
                preempt;;
                started ← (if bool_decide (c_ContainerRuntime cfg = ContainerRuntimeGVisor)
                           then launchInGVisor proc req mountpoint else launchDirect proc req mountpoint);
                preempt;;
                match started with
                | Err e =>
                    modProcess proc closeProxy;;
                    preempt;;
                    abandon p proc id;;
                    fail (SMsg ("launch process: " +:+ e))
                | Ok _ =>
                    mp ← readProcess proc;
                    smod (fun s => set_monitors (monitors s ++ [(p, proc)]) s);;
                    mret (Ok (mkLaunchProcessResponse id
                                (from_option (fun mp => from_option pp_address "" (mp_proxy mp)) "" mp)
                                (from_option mp_status ProcessStatusStarting mp)))
                end
            end
        end
    end.

(** ** Monitors *)

(** What follows the section of [markProcessExited]: closing the proxy. *)
Definition markProcessExited (proc : nat) (exitCode : Z) : SM W () :=
  now ← lift Now;
  first ← onProcess proc false (exit_locked exitCode now);
  if first : bool then preempt;; modProcess proc closeProxy else mret ().

Definition monitorDirectProcess (proc handle : nat) : SM W () :=
  preempt;;
  r ← lift (cmd_Wait handle);
  preempt;;
  markProcessExited proc (match r with Ok _ => 0 | Err (Some code) => code | Err None => -1 end)%Z.

Definition monitorGVisorProcess (proc : nat) (opts : ContainerOptions) : SM W () :=
  preempt;;
  r ← lift (gvisor_Run opts);
  preempt;;
  mp ← readProcess proc;
  markProcessExited proc (
    match r with
    | Ok (Some result) => cr_ExitCode result
    | Ok None => 0
    | Err (_, true) =>
        let sig := from_option mp_killSignal 0%Z mp in
        128 + (if bool_decide (sig = 0)%Z then SIGTERM else sig)
    | Err (_, false) => -1
    end)%Z.

Definition monitorProcess (proc : nat) : SM W () :=
  mp ← readProcess proc;
  match mp with
  | None => mret ()
  | Some mp =>
      match mp_cmd mp, mp_gvisor mp with
      | Some handle, _ => monitorDirectProcess proc handle
      | None, Some opts =>
          if bool_decide (co_Command opts = []) then mret ()
          else modProcess proc set_running;; monitorGVisorProcess proc opts
      | None, None => mret ()
      end;;
      modProcess proc set_done
  end.

(** The first monitor that was started and has not run. *)
Definition runMonitor : SM W () :=
  ms ← sget monitors;
  match ms with
  | [] => mret ()
  | (_, proc) :: rest => smod (set_monitors rest);; monitorProcess proc
  end.

(** ** Killing and asking *)

Definition killManagedProcess (proc : nat) (sig : Z) : SO () :=
  target ← onProcess proc (Some (None, false)) (kill_locked sig);
  match target with
  | None => mret (Ok ())
  | Some (cmd, cancel) =>
      preempt;;
      match cmd with
      | Some handle =>
          r ← lift (cmd_Signal handle sig);
          mret (match r with Some (e, false) => Err (SMsg e) | _ => Ok () end)
      | None => (if cancel : bool then modProcess proc set_canceled else mret ());; mret (Ok ())
      end
  end.

(** The process of a request: [what] guards its ids. *)
Definition findProcess (sessionID processID : string) : SO nat :=
  if bool_decide (sessionID = "") then fail (SMsg "session_id is required")
  else if bool_decide (processID = "") then fail (SMsg "process_id is required")
  else
    found ← getSession sessionID;
    match found with
    | Err e => fail e
    | Ok p =>
        preempt;;
        sess ← readSession p;
        mret (match sess ≫= (fun sess => s_processes sess !! processID) with
              | None => Err (SWrap ProcessNotFound (": " +:+ processID))
              | Some proc => Ok proc
              end)
    end.

Definition KillProcess (req : KillProcessRequest) : SO () :=
  r ← findProcess (kp_SessionID req) (kp_ProcessID req);
  match r with
  | Err e => fail e
  | Ok proc => preempt;; killManagedProcess proc (if bool_decide (kp_Signal req = 0)%Z then SIGTERM else kp_Signal req)
  end.

Definition GetProcessStatus (req : GetProcessStatusRequest) : SO GetProcessStatusResponse :=
  r ← findProcess (gp_SessionID req) (gp_ProcessID req);
  match r with
  | Err e => fail e
  | Ok proc =>
      preempt;;
      mp ← readProcess proc;
      mret (match mp with
            | None => Err (SMsg "nil pointer dereference")
            | Some mp => Ok (mkGetProcessStatusResponse (mp_status mp) (mp_exitCode mp))
            end)
  end.

(** ** Destroying the processes of a session *)

(** Two seconds after SIGTERM, SIGKILL; two seconds later, go on. *)
Definition reap (proc : nat) : SM W () :=
  finished ← awaitDone proc;
  (if finished : bool then mret ()
   else _x ← killManagedProcess proc SIGKILL; _y ← awaitDone proc; mret ());;
  modProcess proc closeProxy.

Definition destroySessionProcesses (p : nat) : SM W () :=
  sess ← readSession p;
  match sess with
  | None => mret ()
  | Some sess =>
      if bool_decide (size (s_processes sess) = 0%nat) then mret ()
      else
        let processes := (order nat (map_to_list (s_processes sess))).*2 in
        preempt;;
        for_range processes (fun proc => _x ← killManagedProcess proc SIGTERM; mret ());;
        for_range processes reap;;
        modSession p (set_processes ∅)
  end.
End Process.
