(* ===== verification/Sandbox.v ===== *)
(** * Sandbox: the sandbox host service (internal/sandbox: service.go, snapshot.go)

    [SandboxHostService] over the interface [ZFSManager]: creating, pausing,
    resuming and destroying sessions, snapshots of their storage, health.  Each
    method is the sequence of its critical sections; [preempt] stands between
    two of them, and before and after a call that leaves the service.  The
    ticker of [Start] only logs and is left out. *)

From Stdlib Require Import Ascii String.
From S2P Require Import Prelude GoStrings GoText GoPath GoFloat Zfs SandboxTypes SandboxProcess.

Local Open Scope string_scope.
Local Open Scope list_scope.
Local Open Scope stdpp_scope.

(** ** Requests and results (service.go) *)

Record CreateSessionRequest : Type := mkCreateSessionRequest {
  cs_BaseSnapshot : string; cs_SessionID : string; cs_Quota : Z; cs_Labels : gmap string string;
}.

Record SessionInfo : Type := mkSessionInfo {
  in_ID : string; in_State : SessionState; in_Mountpoint : string; in_TurnCount : Z; in_SnapCount : Z;
  in_Created : Z; in_Labels : gmap string string;
}.

Record SnapshotResult : Type := mkSnapshotResult { sr_SnapshotID : string; sr_TurnNumber : Z; sr_SpaceUsed : Z }.

Record HealthStatus : Type := mkHealthStatus {
  h_Status : string; h_PoolState : PoolState; h_PoolSpace : option PoolSpace; h_SessionCount : Z; h_ActiveTools : Z;
  h_Uptime : Z; h_Errors : list zerror;
}.

Record Capabilities_t : Type := mkCapabilities {
  cap_Snapshots : bool; cap_Rollback : bool; cap_Pause : bool; cap_TierRouting : bool; cap_StreamingProgress : bool;
}.

(** fmt's %04d: padded with zeros to four places, the sign included. *)
Definition pad4 (n : Z) : string :=
  if bool_decide (0 <= n)%Z then zeroPad 4 (pretty n) else "-" +:+ zeroPad 3 (pretty (- n)%Z).

Definition snapNameOf (cfg : ServiceConfig) (turn : Z) : string := c_SnapshotPrefix cfg +:+ "-" +:+ pad4 turn.

Definition Info (s : Session) : SessionInfo :=
  mkSessionInfo (s_id s) (s_state s) (s_mountpoint s) (s_turnCount s) (Z.of_nat (length (s_snapshots s))) (s_created s) (s_labels s).

(** The constructor's checks, on the merged configuration. *)
Definition NewSandboxHostService (cfg : ServiceConfig) (hasZFS hasGVisor : bool) : res serror ServiceConfig :=
  let cfg := mergeDefaultConfig cfg in
  if negb (bool_decide (c_StorageBackend cfg ∈ [StorageBackendZFS; StorageBackendLocalDisk])) then
    Err (SMsg ("sandbox: unknown storage_backend: " +:+ quote (c_StorageBackend cfg)))
  else if negb (bool_decide (c_ContainerRuntime cfg ∈ [ContainerRuntimeGVisor; ContainerRuntimeNone])) then
    Err (SMsg ("sandbox: unknown container_runtime: " +:+ quote (c_ContainerRuntime cfg)))
  else if bool_decide (c_StorageBackend cfg = StorageBackendZFS) && negb hasZFS then
    Err (SMsg ("sandbox: storage_backend is " +:+ quote (c_StorageBackend cfg) +:+ " but ZFSManager is nil"))
  else if bool_decide (c_ContainerRuntime cfg = ContainerRuntimeGVisor) && negb hasGVisor then
    Err (SMsg ("sandbox: container_runtime is " +:+ quote (c_ContainerRuntime cfg) +:+ " but GVisorManager is nil"))
  else if bool_decide (c_StorageBackend cfg = StorageBackendLocalDisk) && bool_decide (c_SessionsRootDir cfg = "") then
    Err (SMsg ("sandbox: storage_backend is " +:+ quote (c_StorageBackend cfg) +:+ " but sessions_root_dir is empty"))
  else Ok cfg.

Definition Capabilities (cfg : ServiceConfig) : Capabilities_t :=
  let isZFS := bool_decide (c_StorageBackend cfg = StorageBackendZFS) in
  mkCapabilities isZFS isZFS true (bool_decide (c_ContainerRuntime cfg = ContainerRuntimeGVisor)) true.

Definition addCreated (m : serviceMetrics) : serviceMetrics :=
  mkServiceMetrics (sessionsCreated m + 1) (sessionsPaused m) (sessionsResumed m) (sessionsDestroyed m) (toolExecutions m) (snapshotsTaken m) (rollbacks m).
Definition addPaused (m : serviceMetrics) : serviceMetrics :=
  mkServiceMetrics (sessionsCreated m) (sessionsPaused m + 1) (sessionsResumed m) (sessionsDestroyed m) (toolExecutions m) (snapshotsTaken m) (rollbacks m).
Definition addResumed (m : serviceMetrics) : serviceMetrics :=
  mkServiceMetrics (sessionsCreated m) (sessionsPaused m) (sessionsResumed m + 1) (sessionsDestroyed m) (toolExecutions m) (snapshotsTaken m) (rollbacks m).
Definition addDestroyed (m : serviceMetrics) : serviceMetrics :=
  mkServiceMetrics (sessionsCreated m) (sessionsPaused m) (sessionsResumed m) (sessionsDestroyed m + 1) (toolExecutions m) (snapshotsTaken m) (rollbacks m).
Definition addExecution (m : serviceMetrics) : serviceMetrics :=
  mkServiceMetrics (sessionsCreated m) (sessionsPaused m) (sessionsResumed m) (sessionsDestroyed m) (toolExecutions m + 1) (snapshotsTaken m) (rollbacks m).
Definition addSnapshot (m : serviceMetrics) : serviceMetrics :=
  mkServiceMetrics (sessionsCreated m) (sessionsPaused m) (sessionsResumed m) (sessionsDestroyed m) (toolExecutions m) (snapshotsTaken m + 1) (rollbacks m).
Definition addRollback (m : serviceMetrics) : serviceMetrics :=
  mkServiceMetrics (sessionsCreated m) (sessionsPaused m) (sessionsResumed m) (sessionsDestroyed m) (toolExecutions m) (snapshotsTaken m) (rollbacks m + 1).

(** ** Pure parts of the snapshot code *)

Definition isTurn (e : SnapshotEntry) : Prop := se_IsTurnSnapshot e = true.
#[export] Instance isTurn_dec e : Decision (isTurn e).
Proof. unfold isTurn. apply _. Defined.

Definition countTurns (l : list SnapshotEntry) : Z := Z.of_nat (length (filter isTurn l)).

(** The entries up to the first one with the name. *)
Fixpoint entriesUpto (name : string) (l : list SnapshotEntry) : option (list SnapshotEntry) :=
  match l with
  | [] => None
  | e :: l' => if bool_decide (se_Name e = name) then Some [e] else (fun r => e :: r) <$> entriesUpto name l'
  end.

(** The last section of [RollbackSession]. *)
Definition afterRollback (name : string) (s : Session) : Session :=
  let s := set_rollingBack false s in
  match entriesUpto name (s_snapshots s) with
  | None => s
  | Some kept => set_turnCount (countTurns kept) (set_snapshots kept s)
  end.

(** The locked section of [cleanupOldSnapshots]: what to delete. *)
Definition retire (max : Z) (s : Session) : list SnapshotEntry * Session :=
  let n := Z.of_nat (length (s_snapshots s)) in
  if bool_decide (max <= 0)%Z || bool_decide (n <= max)%Z then ([], s)
  else let k := Z.to_nat (n - max) in (take k (s_snapshots s), set_snapshots (drop k (s_snapshots s)) s).

Section Service.
Context {W : Type} `{!ZFSManager W} `{!SandboxEnv W}.
Context (order : forall A, list (string * A) -> list (string * A)).
Context (cfg : ServiceConfig) (hasGVisor : bool).
Context (started : Z).

Notation SO A := (SM W (res serror A)).

(** A call of the storage layer: other goroutines run before and after it. *)
Definition zcall {A} (m : M W A) : SM W A := preempt;; r ← lift m; preempt;; mret r.

Definition sessionCount (s : Svc) : Z := Z.of_nat (size (sessions s)).
Definition isZFS : bool := bool_decide (c_StorageBackend cfg = StorageBackendZFS).

Definition nilSession : serror := SMsg "nil pointer dereference".

(** A new session object under [id]. *)
Definition storeSession (sess : Session) : SM W nat := fun s =>
  let p := fresh (dom (sheap s.1)) in
  (p, (set_sessions (<[s_id sess := p]> (sessions s.1)) (set_sheap (<[p := sess]> (sheap s.1)) s.1), s.2)).
Definition deleteSession (id : string) : SM W () := smod (fun s => set_sessions (delete id (sessions s)) s).

(** ** CreateSession *)

Definition generateSessionID : SM W string := fun s =>
  let n := u64 (idCounter s.1 + 1) in (sessionIDOf n, (set_idCounter n s.1, s.2)).

(** The section under [sessionsMu]: reserve the id with a placeholder. *)
Definition reserve (id : string) : SO () := fun s =>
  if bool_decide (0 < c_MaxSessions cfg)%Z && bool_decide (c_MaxSessions cfg <= sessionCount s.1)%Z then
    (Err ErrMaxSessionsReached, s)
  else match sessions s.1 !! id with
       | Some _ => (Err (SWrap SessionExists (": " +:+ id)), s)
       | None => let '(_, s') := storeSession (placeholder id) s in (Ok (), s')
       end.

Definition destroyForced : DestroyOptions := mkDestroyOptions true true false.

(** Give up a creation: take the placeholder out, with the error to return. *)
Definition giveUp {A} (id : string) (e : serror) : SO A := deleteSession id;; mret (Err e).
(** The same after the dataset was made. *)
Definition giveUpDataset {A} (id dataset : string) (e : serror) : SO A :=
  _r ← zcall (zfs_DestroyDataset dataset destroyForced); giveUp id e.

(** The storage of a new session: its dataset and its mountpoint. *)
Definition provisionZFS (id : string) (req : CreateSessionRequest) : SO (string * string) :=
  if bool_decide (cs_BaseSnapshot req = "") then giveUp id (SMsg "base snapshot is required for ZFS backend")
  else
    let dataset := c_SessionsDataset cfg +:+ "/" +:+ id in
    cloned ← zcall (zfs_CloneFromSnapshot (cs_BaseSnapshot req) dataset);
    match cloned with
    | Err e => giveUp id (SZfs "clone base snapshot: " e)
    | Ok _ =>
        let quota := orInt (cs_Quota req) (c_DefaultSessionQuota cfg) in
        limited ← (if bool_decide (quota > 0)%Z then zcall (zfs_SetProperty dataset "quota" (pretty quota)) else mret (Ok ()));
        match limited with
        | Err e => giveUpDataset id dataset (SZfs "set quota: " e)
        | Ok _ =>
            mp ← zcall (zfs_GetMountpoint dataset);
            match mp with
            | Err e => giveUpDataset id dataset (SZfs "get mountpoint: " e)
            | Ok mp => mret (Ok (dataset, mp))
            end
        end
    end.

Definition provisionLocal (id : string) : SO (string * string) :=
  match safeSessionPath (c_SessionsRootDir cfg) id with
  | Err e => giveUp id e
  | Ok mp =>
      preempt;;
      made ← lift (MkdirAll mp);
      preempt;;
      match made with
      | Err e => giveUp id (SMsg ("create session directory: " +:+ e))
      | Ok _ => mret (Ok ("", mp))
      end
  end.

Definition CreateSession (req : CreateSessionRequest) : SO SessionInfo :=
  id ← (if bool_decide (cs_SessionID req = "") then generateSessionID else mret (cs_SessionID req));
  preempt;;
  reserved ← reserve id;
  match reserved with
  | Err e => mret (Err e)
  | Ok _ =>
      preempt;;
      storage ← (if isZFS then provisionZFS id req
                 else if bool_decide (c_StorageBackend cfg = StorageBackendLocalDisk) then provisionLocal id
                 else giveUp id (SMsg ("unsupported storage backend: " +:+ quote (c_StorageBackend cfg))));
      match storage with
      | Err e => mret (Err e)
      | Ok (dataset, mountpoint) =>
          now ← lift Now;
          let sess := mkSession id SessionActive dataset mountpoint 0 now (cs_Labels req) 0 false [] ∅ 0 in
          p ← storeSession sess;
          count addCreated;;
          preempt;;
          found ← readSession p;
          mret (Ok (Info (default sess found)))
      end
  end.

(** ** Lookups *)

Definition activeError (st : SessionState) : option serror :=
  match st with
  | SessionActive => None
  | SessionPaused => Some ErrSessionPaused
  | SessionDestroying => Some ErrSessionDestroying
  | _ => Some (SWrap InvalidState (": " +:+ SessionState_string st))
  end.

Definition getActiveSession (sessionID : string) : SO nat :=
  found ← getSession sessionID;
  match found with
  | Err e => mret (Err e)
  | Ok p =>
      preempt;;
      sess ← readSession p;
      mret (match sess with
            | None => Err nilSession
            | Some sess => match activeError (s_state sess) with Some e => Err e | None => Ok p end
            end)
  end.

Definition GetSession (sessionID : string) : SO SessionInfo :=
  found ← getSession sessionID;
  match found with
  | Err e => mret (Err e)
  | Ok p =>
      preempt;;
      sess ← readSession p;
      mret (match sess with None => Err nilSession | Some sess => Ok (Info sess) end)
  end.

(** The sessions in the order in which [sync.Map.Range] visits them. *)
Definition listed (s : Svc) : list (nat * Session) :=
  omap (fun p => pair p <$> sheap s !! p) (order nat (map_to_list (sessions s))).*2.
Definition ListSessions : SM W (list SessionInfo) := sget (fun s => Info ∘ snd <$> listed s).

Definition totalActiveTools (s : Svc) : Z := foldr Z.add 0%Z (s_activeTools ∘ snd <$> listed s).

(** ** Waiting for tools *)

(** At most [n] more ticks; the reason why waiting ended, if tools still run. *)
Fixpoint drainLoop (p : nat) (n : nat) (e : waitEnd) : SM W (option waitEnd) :=
  sess ← readSession p;
  if bool_decide (0 < from_option s_activeTools 0 sess)%Z then
    match n with
    | O => mret (Some e)
    | S n' => preempt;; drainLoop p n' e
    end
  else mret None.
Definition drainTools (p : nat) : SM W (option waitEnd) :=
  limit ← lift patience;
  drainLoop p limit.1 limit.2.

Definition pauseSection (s : Session) : res serror () * Session :=
  if negb (bool_decide (s_state s = SessionActive)) then
    (Err (SWrap InvalidState (": session is " +:+ SessionState_string (s_state s) +:+ ", not active")), s)
  else (Ok (), set_state SessionPaused s).

Definition PauseSession (sessionID : string) : SO () :=
  found ← getActiveSession sessionID;
  match found with
  | Err e => mret (Err e)
  | Ok p =>
      preempt;;
      waited ← drainTools p;
      match waited with
      | Some (CtxDone e) => mret (Err (SCtx e))
      | Some Deadline =>
          sess ← readSession p;
          mret (Err (SWrap ToolsInFlight (": timed out waiting for " +:+ pretty (from_option s_activeTools 0%Z sess) +:+ " in-flight tools")))
      | None =>
          preempt;;
          r ← onSession p (Err nilSession) pauseSection;
          match r with
          | Err e => mret (Err e)
          | Ok _ => count addPaused;; mret (Ok ())
          end
      end
  end.

Definition resumeSection (s : Session) : res serror () * Session :=
  if negb (bool_decide (s_state s = SessionPaused)) then
    (Err (SWrap InvalidState (": session is " +:+ SessionState_string (s_state s) +:+ ", not paused")), s)
  else (Ok (), set_state SessionActive s).

Definition ResumeSession (sessionID : string) : SO () :=
  found ← getSession sessionID;
  match found with
  | Err e => mret (Err e)
  | Ok p =>
      preempt;;
      r ← onSession p (Err nilSession) resumeSection;
      match r with
      | Err e => mret (Err e)
      | Ok _ => count addResumed;; mret (Ok ())
      end
  end.

Definition DestroySession (sessionID : string) : SO () :=
  found ← getSession sessionID;
  match found with
  | Err e => mret (Err e)
  | Ok p =>
      preempt;;
      modSession p (set_state SessionDestroying);;
      preempt;;
      waited ← drainTools p;
      match waited with
      | Some (CtxDone e) => mret (Err (SCtx e))
      | _ =>
          preempt;;
          destroySessionProcesses order p;;
          preempt;;
          sess ← readSession p;
          (if isZFS then _r ← zcall (zfs_DestroyDataset (from_option s_dataset "" sess) destroyForced); mret ()
           else if bool_decide (c_StorageBackend cfg = StorageBackendLocalDisk)
                then _r ← zcall (RemoveAll (from_option s_mountpoint "" sess)); mret ()
                else mret ());;
          deleteSession sessionID;;
          count addDestroyed;;
          mret (Ok ())
      end
  end.

Definition HealthCheck : SM W HealthStatus :=
  let report status state space errs : SM W HealthStatus :=
    now ← lift Now;
    sget (fun s => mkHealthStatus status state space (sessionCount s) (totalActiveTools s) (now - started)%Z errs) in
  if negb isZFS then report "healthy" "" None []
  else
    ps ← zcall (zfs_PoolSpace (c_PoolName cfg));
    match ps with
    | Err e => report "unhealthy" "" None [e]
    | Ok ps =>
        st ← zcall (zfs_PoolStatus (c_PoolName cfg));
        match st with
        | Err e => report "unhealthy" "" (Some ps) [e]
        | Ok st =>
            let status :=
              if fleb (c_PoolSpaceCritThreshold cfg) (sp_Capacity ps) || bool_decide (ps_State st = PoolFaulted) then "unhealthy"
              else if fleb (c_PoolSpaceWarnThreshold cfg) (sp_Capacity ps) || bool_decide (ps_State st = PoolDegraded) then "degraded"
              else "healthy" in
            report status (ps_State st) (Some ps) []
        end
    end.

Definition Shutdown : SM W (res string ()) :=
  l ← ListSessions;
  for_range l (fun i => preempt;; _r ← DestroySession (in_ID i); mret ());;
  if hasGVisor then zcall gvisor_Close else mret (Ok ()).

(** ** Snapshots (snapshot.go) *)

Definition turnSection (s : Session) : res serror (Z * string * string) * Session :=
  if negb (bool_decide (s_state s = SessionActive)) || s_rollingBack s then
    (Err (SWrap InvalidState (": session is " +:+ SessionState_string (s_state s))), s)
  else let n := (s_turnCount s + 1)%Z in (Ok (n, snapNameOf cfg n, s_dataset s), s).

Definition recordTurn (n : Z) (name : string) (s : Session) : Session :=
  set_snapshots (s_snapshots s ++ [mkSnapshotEntry name true]) (set_turnCount n s).
Definition recordNamed (name : string) (s : Session) : Session :=
  set_snapshots (s_snapshots s ++ [mkSnapshotEntry name false]) s.

Definition cleanupOldSnapshots (p : nat) : SM W () :=
  toDelete ← onSession p [] (retire (c_MaxSnapshotsPerSession cfg));
  for_range toDelete (fun snap =>
    sess ← readSession p;
    _r ← zcall (zfs_DestroySnapshot (from_option s_dataset "" sess) (se_Name snap));
    mret ()).

(** [Ok None] is the nil result of a service without snapshots. *)
Definition TurnComplete (sessionID : string) : SO (option SnapshotResult) :=
  if negb isZFS then mret (Ok None)
  else
    found ← getSession sessionID;
    match found with
    | Err e => mret (Err e)
    | Ok p =>
        preempt;;
        r ← onSession p (Err nilSession) turnSection;
        match r with
        | Err e => mret (Err e)
        | Ok (n, name, dataset) =>
            snap ← zcall (zfs_CreateSnapshot dataset name);
            match snap with
            | Err e => mret (Err (SZfs ("snapshot turn " +:+ pretty n +:+ ": ") e))
            | Ok info =>
                modSession p (recordTurn n name);;
                count addSnapshot;;
                preempt;;
                (if bool_decide (0 < c_MaxSnapshotsPerSession cfg)%Z then cleanupOldSnapshots p else mret ());;
                mret (Ok (Some (mkSnapshotResult name n (si_Used info))))
            end
        end
    end.

Definition CreateSnapshot (sessionID name : string) : SO SnapshotResult :=
  if negb isZFS then mret (Err ErrSnapshotsNotAvailable)
  else
    found ← getSession sessionID;
    match found with
    | Err e => mret (Err e)
    | Ok p =>
        preempt;;
        sess ← readSession p;
        snap ← zcall (zfs_CreateSnapshot (from_option s_dataset "" sess) name);
        match snap with
        | Err e => mret (Err (SZfs ("snapshot " +:+ name +:+ ": ") e))
        | Ok info =>
            modSession p (recordNamed name);;
            mret (Ok (mkSnapshotResult name 0 (si_Used info)))
        end
    end.

Definition rollbackSection (s : Session) : res serror string * Session :=
  if negb (bool_decide (s_state s = SessionActive)) then
    (Err (SWrap InvalidState (": session is " +:+ SessionState_string (s_state s))), s)
  else if bool_decide (0 < s_activeTools s)%Z then (Err ErrToolsInFlight, s)
  else (Ok (s_dataset s), set_rollingBack true s).

Definition RollbackSession (sessionID snapshotID : string) : SO () :=
  if negb isZFS then mret (Err ErrSnapshotsNotAvailable)
  else
    found ← getSession sessionID;
    match found with
    | Err e => mret (Err e)
    | Ok p =>
        preempt;;
        r ← onSession p (Err nilSession) rollbackSection;
        match r with
        | Err e => mret (Err e)
        | Ok dataset =>
            rolled ← zcall (zfs_Rollback dataset snapshotID (mkRollbackOptions true));
            match rolled with
            | Err e =>
                modSession p (fun s => set_state SessionFailed (set_rollingBack false s));;
                mret (Err (SZfs ("rollback to " +:+ snapshotID +:+ ": ") e))
            | Ok _ =>
                modSession p (afterRollback snapshotID);;
                count addRollback;;
                mret (Ok ())
            end
        end
    end.

Definition ListSnapshots (sessionID : string) : SO (list SnapshotInfo) :=
  if negb isZFS then mret (Err ErrSnapshotsNotAvailable)
  else
    found ← getSession sessionID;
    match found with
    | Err e => mret (Err e)
    | Ok p =>
        preempt;;
        sess ← readSession p;
        l ← zcall (zfs_ListSnapshots (from_option s_dataset "" sess));
        mret (match l with Ok l => Ok l | Err e => Err (SZfs "" e) end)
    end.
End Service.
