(* ===== verification/SandboxExecute.v ===== *)
(** * SandboxExecute: running tools in a sandbox
    (internal/sandbox/execute.go; ClassifyTool of internal/tools/iface.go)

    A tool of the first tier runs in the process of the service, under the
    session's mountpoint, after its path parameters were checked; one of the
    second tier runs as a command in a container.  The local tools, the
    container run with its output writers, json.Marshal and the time format are
    parameters. *)

From Stdlib Require Import Ascii String.
From S2P Require Import Prelude AiTypes GoStrings GoText GoPath GoFloat Zfs SandboxTypes SandboxProcess Sandbox.

Local Open Scope string_scope.
Local Open Scope list_scope.
Local Open Scope stdpp_scope.

(** ** Tiers (internal/tools/iface.go) *)

Definition ToolTier : Type := Z.
Definition Tier1 : ToolTier := 1%Z.
Definition Tier2 : ToolTier := 2%Z.

Definition ClassifyTool (name : string) : ToolTier :=
  if bool_decide (name ∈ ["read_file"; "write_file"; "edit_file"; "grep"; "glob";
                          "git_status"; "git_diff"; "git_log"; "git_show"]) then Tier1
  else if bool_decide (name ∈ ["bash"; "git_add"; "git_commit"; "git_push"; "git_clone"; "git_fetch"; "git_pull"]) then Tier2
  else Tier2.

Record ToolRequest : Type := mkToolRequest {
  tq_ToolName : string; tq_ToolCallID : string; tq_Params : gmap string any;
}.
Record ToolResponse : Type := mkToolResponse {
  tp_Content : list ContentBlock; tp_SnapshotID : string; tp_ExitCode : option Z;
}.

(** ** Commands of the second tier *)

(** [v, _ := params[key].(string)]. *)
Definition stringParam (params : gmap string any) (key : string) : string :=
  match params !! key with Some (AString s) => s | _ => "" end.

(** The non-empty strings of an array. *)
Definition stringArgs (params : gmap string any) : list string :=
  match params !! "args" with
  | Some (AArray l) => omap (fun a => match a with AString s => if bool_decide (s = "") then None else Some s | _ => None end) l
  | _ => []
  end.

Definition buildTier2Command (toolName : string) (params : gmap string any) : res serror (list string) :=
  if bool_decide (toolName = "bash") then
    let cmd := stringParam params "cmd" in
    if bool_decide (TrimSpace cmd = "") then Err (SMsg "bash cmd is required") else Ok ["/bin/bash"; "-c"; cmd]
  else if bool_decide (toolName = "git_add") then
    let path := stringParam params "path" in
    Ok ["git"; "add"; if bool_decide (path = "") then "." else path]
  else if bool_decide (toolName = "git_commit") then
    let msg := stringParam params "message" in
    if bool_decide (TrimSpace msg = "") then Err (SMsg "git_commit message is required") else Ok ["git"; "commit"; "-m"; msg]
  else if bool_decide (toolName ∈ ["git_push"; "git_clone"; "git_fetch"; "git_pull"]) then
    Ok ("git" :: TrimPrefix toolName "git_" :: stringArgs params)
  else Err (SMsg ("unknown Tier 2 tool: " +:+ toolName)).

(** ** Path parameters of the first tier *)

(** The absolute path a parameter stands for. *)
Definition resolvePath (rootDir requested : string) : string :=
  Clean (if isAbs requested then requested else JoinPath [rootDir; requested]).

Definition validatePath (rootDir requested : string) : res serror () :=
  match Rel rootDir (resolvePath rootDir requested) with
  | Err e => Err (SMsg ("path escape: cannot compute relative path: " +:+ e))
  | Ok rel =>
      if HasPrefix rel ".." then Err (SMsg ("path escape: " +:+ quote requested +:+ " resolves outside session root"))
      else Ok ()
  end.

Definition pathKeys : list string := ["path"; "file_path"; "directory"].

(** One iteration of the loop of [validatePathParams]. *)
Definition validateParam (rootDir : string) (kv : string * any) : res serror () :=
  if negb (bool_decide (kv.1 ∈ pathKeys)) then Ok ()
  else match kv.2 with AString p => validatePath rootDir p | _ => Ok () end.

Fixpoint validateParams (rootDir : string) (params : list (string * any)) : res serror () :=
  match params with
  | [] => Ok ()
  | kv :: rest => match validateParam rootDir kv with Err e => Err e | Ok _ => validateParams rootDir rest end
  end.

(** ** Results as text *)

Section Text.
(** json.Marshal of a map, as far as it succeeds. *)
Context (Marshal : gmap string any -> string).

Definition blockPart (b : ContentBlock) : option string :=
  match b with
  | TextContent text _ => if bool_decide (text = "") then None else Some text
  | ThinkingContent thinking _ _ => if bool_decide (thinking = "") then None else Some thinking
  | ToolCallBlock tc => Some ("tool_call:" +:+ tc_Name tc +:+ " " +:+ Marshal (tc_Arguments tc))
  | ImageContent data mimeType => Some ("image:" +:+ mimeType +:+ " bytes=" +:+ pretty (Z.of_nat (String.length data)))
  end.

Definition blocksToText (blocks : list ContentBlock) : string := JoinByte newline (omap blockPart blocks).
End Text.

(** ** Executing a tool *)

Section Execute.
Context {W : Type} `{!ZFSManager W} `{!SandboxEnv W}.
Context (order : forall A, list (string * A) -> list (string * A)).
Context (cfg : ServiceConfig) (hasGVisor : bool).
Context (Marshal : gmap string any -> string).
(** time.Time.Format with the layout 20060102-150405. *)
Context (FormatTime : Z -> string).
(** [tools.NewLocalBackend(root).ExecuteTool] with the progress callback. *)
Context (LocalBackend : string -> ToolRequest -> (string -> bool -> M W ()) -> M W (res string ToolResponse)).
(** A container run; the writers receive chunks of its output. *)
Context (gvisor_RunStreaming : ContainerOptions -> option ((string -> M W Z) * (string -> M W Z)) ->
                               M W (res string ContainerResult)).

Notation SO A := (SM W (res serror A)).

Record ExecuteToolRequest : Type := mkExecuteToolRequest {
  et_SessionID : string; et_ToolName : string; et_ToolCallID : string; et_Params : gmap string any;
  et_Resources : option ResourceSpec; et_OnProgress : option (string -> bool -> M W ());
}.

Record ExecuteToolResponse : Type := mkExecuteToolResponse {
  er_Content : string; er_ContentBlocks : list ContentBlock; er_ExitCode : option Z; er_SnapshotID : string;
  er_Duration : Z; er_Tier : Z;
}.

Definition validatePathParams (rootDir : string) (params : gmap string any) : res serror () :=
  validateParams rootDir (order any (map_to_list params)).

(** [progressWriter.Write]. *)
Definition progressWrite (onChunk : option (string -> M W ())) (p : string) : M W Z :=
  let n := Z.of_nat (String.length p) in
  match onChunk with
  | None => mret n
  | Some f => if bool_decide (n = 0%Z) then mret n else f p;; mret n
  end.

Definition executeTier1 (mountpoint : string) (req : ExecuteToolRequest) : SO ExecuteToolResponse :=
  match validatePathParams mountpoint (et_Params req) with
  | Err e => mret (Err e)
  | Ok _ =>
      resp ← lift (LocalBackend mountpoint (mkToolRequest (et_ToolName req) (et_ToolCallID req) (et_Params req))
                    (fun content isError => match et_OnProgress req with None => mret () | Some f => f content isError end));
      mret (match resp with
            | Err e => Err (SMsg e)
            | Ok resp => Ok (mkExecuteToolResponse (blocksToText Marshal (tp_Content resp)) (tp_Content resp) (tp_ExitCode resp)
                               (tp_SnapshotID resp) 0 0)
            end)
  end.

(** The text of a container's two outputs. *)
Definition outputText (stdout stderr : string) : string :=
  let content := TrimSpace stdout in
  let stderr := TrimSpace stderr in
  if bool_decide (stderr = "") then content
  else (if bool_decide (content = "") then content else content +:+ String newline "") +:+ stderr.

Definition executeTier2 (mountpoint : string) (req : ExecuteToolRequest) : SO ExecuteToolResponse :=
  if negb hasGVisor then
    mret (Err (SMsg ("tier2 execution unavailable: container runtime is " +:+ quote (c_ContainerRuntime cfg))))
  else
    let resources := default (c_DefaultResources cfg) (et_Resources req) in
    match buildTier2Command (et_ToolName req) (et_Params req) with
    | Err e => mret (Err e)
    | Ok cmd =>
        let opts := mkContainerOptions cmd "/workspace" ∅ mountpoint resources NetworkNone in
        let writers := (fun f : string -> bool -> M W () =>
                          (progressWrite (Some (fun chunk => f chunk false)), progressWrite (Some (fun chunk => f chunk true))))
                       <$> et_OnProgress req in
        result ← lift (gvisor_RunStreaming opts writers);
        mret (match result with
              | Err e => Err (SMsg e)
              | Ok result =>
                  let content := outputText (cr_Stdout result) (cr_Stderr result) in
                  Ok (mkExecuteToolResponse content [TextContent content ""] (Some (cr_ExitCode result)) "" 0 0)
              end)
    end.

(** The 32-bit counter of running tools. *)
Definition int32 (n : Z) : Z := ((n + 2 ^ 31) mod 2 ^ 32 - 2 ^ 31)%Z.
Definition addActiveTools (d : Z) (s : Session) : Session := set_activeTools (int32 (s_activeTools s + d)%Z) s.

(** The section that admits a tool. *)
Definition admitTool (s : Session) : res serror string * Session :=
  if negb (bool_decide (s_state s = SessionActive)) then (Err (notActive (s_state s) ""), s)
  else if s_rollingBack s then (Err ErrRollbackInProgress, s)
  else (Ok (s_mountpoint s), addActiveTools 1 s).

Definition with_Timing (duration tier : Z) (r : ExecuteToolResponse) : ExecuteToolResponse :=
  mkExecuteToolResponse (er_Content r) (er_ContentBlocks r) (er_ExitCode r) (er_SnapshotID r) duration tier.
Definition with_SnapshotID (id : string) (r : ExecuteToolResponse) : ExecuteToolResponse :=
  mkExecuteToolResponse (er_Content r) (er_ContentBlocks r) (er_ExitCode r) id (er_Duration r) (er_Tier r).

Definition tierOf (toolName : string) : ToolTier :=
  if bool_decide (c_ContainerRuntime cfg = ContainerRuntimeNone) then Tier1 else ClassifyTool toolName.

Definition toolSnapshotName (callID : string) (now : Z) : string := "tool-" +:+ callID +:+ "-" +:+ FormatTime now.

(** The snapshot after a tool; a failure to take it is not reported. *)
Definition snapshotTool (p : nat) (req : ExecuteToolRequest) (resp : ExecuteToolResponse) : SM W ExecuteToolResponse :=
  if c_PerToolSnapshots cfg && isZFS cfg && negb (bool_decide (et_ToolCallID req = "")) then
    now ← lift Now;
    sess ← readSession p;
    snap ← zcall (zfs_CreateSnapshot (from_option s_dataset "" sess) (toolSnapshotName (et_ToolCallID req) now));
    match snap with
    | Err _ => mret resp
    | Ok snap => modSession p (recordNamed (si_Name snap));; mret (with_SnapshotID (si_Name snap) resp)
    end
  else mret resp.

(** What runs between the admission of the tool and the deferred release. *)
Definition runTool (p : nat) (mountpoint : string) (req : ExecuteToolRequest) : SO ExecuteToolResponse :=
  let tier := tierOf (et_ToolName req) in
  start ← lift Now;
  preempt;;
  resp ← (if bool_decide (tier = Tier1) then executeTier1 mountpoint req
          else if bool_decide (tier = Tier2) then executeTier2 mountpoint req
          else mret (Err (SMsg "unknown tier")));
  preempt;;
  match resp with
  | Err e => mret (Err e)
  | Ok resp =>
      count addExecution;;
      now ← lift Now;
      resp ← snapshotTool p req (with_Timing (now - start)%Z tier resp);
      mret (Ok resp)
  end.

Definition ExecuteTool (req : ExecuteToolRequest) : SO ExecuteToolResponse :=
  found ← getActiveSession (et_SessionID req);
  match found with
  | Err e => mret (Err e)
  | Ok p =>
      preempt;;
      admitted ← onSession p (Err nilSession) admitTool;
      match admitted with
      | Err e => mret (Err e)
      | Ok mountpoint =>
          r ← runTool p mountpoint req;
          preempt;;
          modSession p (addActiveTools (-1));;
          mret r
      end
  end.
End Execute.
