(* ===== verification/SandboxPaths.v ===== *)
(** * SandboxPaths: what the path checks of the sandbox guarantee

    [validatePath] and [safeSessionPath] (internal/sandbox: execute.go,
    config.go) against the meaning of paths: the elements that a cleaned
    absolute path goes through.  Symbolic links are not looked at here. *)

From Stdlib Require Import Ascii String.
From S2P Require Import Prelude AiTypes GoStrings GoText GoPath GoFloat Zfs SandboxTypes SandboxProcess Sandbox SandboxExecute.

Local Open Scope string_scope.
Local Open Scope list_scope.
Local Open Scope stdpp_scope.

(** The name at the top of a relative path starts with two dots. *)
Definition dotted (rest : list string) : bool :=
  match rest with e :: _ => HasPrefix e ".." | [] => false end.

Lemma dots_slash a e t : plain e -> HasPrefix (e +:+ String slash t) (String a (String a "")) = true -> a = "."%char ->
  HasPrefix e (String a (String a "")) = true.
Proof.
  intros (H1 & H2 & _) H ->. unfold HasPrefix in *. destruct e as [|c e]; [done|].
  simpl in *. case_bool_decide; [|done]. subst. destruct e as [|c' e]; [done|]. simpl in *. by case_bool_decide.
Qed.

Lemma HasPrefix_app_l s t p : HasPrefix s p = true -> HasPrefix (s +:+ t) p = true.
Proof. rewrite !HasPrefix_spec. intros [u ->]. exists (u +:+ t). by rewrite append_assoc_l. Qed.

Lemma JoinByte_dotted rest : Forall plain rest -> HasPrefix (JoinByte slash rest) ".." = dotted rest.
Proof.
  intros H. destruct H as [|e rest He _]; [done|]. simpl. destruct rest as [|x rest]; [done|].
  apply eq_true_iff_eq. split; [|apply HasPrefix_app_l]. intros H. by eapply dots_slash.
Qed.

Lemma JoinByte_up u up down : HasPrefix (JoinByte slash (((fun _ : string => "..") <$> u :: up) ++ down)) ".." = true.
Proof.
  change (((fun _ : string => "..") <$> u :: up) ++ down) with (".." :: (((fun _ : string => "..") <$> up) ++ down)).
  destruct (((fun _ : string => "..") <$> up) ++ down) as [|e l]; [done|]. apply (HasPrefix_app "..").
Qed.

(** What [Rel] tells: a target is below a base, not through a dotted name. *)
Lemma Rel_below base targ :
  isAbs base = true -> isAbs targ = true ->
  exists rel, Rel base targ = Ok rel /\
  (HasPrefix rel ".." = false <-> exists rest, elemsOf targ = elemsOf base ++ rest /\ dotted rest = false).
Proof.
  intros Hb Ht. rewrite Rel_abs by done. pose proof (dropCommon_spec (elemsOf base) (elemsOf targ)) as (c & E1 & E2).
  pose proof (dropCommon_up (elemsOf base) (elemsOf targ)) as Hup.
  destruct (dropCommon (elemsOf base) (elemsOf targ)) as [up down]. simpl in *. eexists. split; [reflexivity|].
  destruct (bool_decide_reflect (Clean targ = Clean base)) as [E|E].
  - split; [|done]. intros _. exists []. rewrite app_nil_r. split; [|done].
    by rewrite <- (elemsOf_Clean targ), <- (elemsOf_Clean base), E.
  - destruct up as [|u up].
    + rewrite app_nil_r in E1. subst c. simpl. rewrite JoinByte_dotted.
      * split; [by exists down|]. intros (rest & Hr & Hd). rewrite E2 in Hr. by apply app_inv_head in Hr as <-.
      * pose proof (elemsOf_plain targ Ht) as Hp. rewrite E2 in Hp. by apply Forall_app in Hp as [_ ?].
    + rewrite JoinByte_up. split; [done|]. intros (rest & Hr & _).
      assert (u :: up = []); [|done]. apply Hup. by exists rest.
Qed.

(** ** Path parameters *)

Lemma isAbs_join root p : isAbs root = true -> isAbs (JoinPath [root; p]) = true.
Proof.
  intros H. simpl. rewrite bool_decide_eq_false_2 by by intros ->. apply isAbs_Clean.
  unfold isAbs in *. by apply HasPrefix_app_l.
Qed.

Lemma isAbs_resolve root p : isAbs root = true -> isAbs (resolvePath root p) = true.
Proof. intros H. unfold resolvePath. apply isAbs_Clean. destruct (isAbs p) eqn:E; [done|]. by apply isAbs_join. Qed.

(** [p] stays in [root]: the way to it is the way to the root, then on, and
    not through a name that starts with two dots. *)
Definition inside (root p : string) : Prop :=
  exists rest, elemsOf (resolvePath root p) = elemsOf root ++ rest /\ dotted rest = false.

Lemma validatePath_inside root p : isAbs root = true -> is_Ok (validatePath root p) = true <-> inside root p.
Proof.
  intros H. unfold validatePath. destruct (Rel_below root (resolvePath root p) H (isAbs_resolve root p H)) as (rel & -> & Hrel).
  unfold inside. rewrite <- Hrel. by destruct (HasPrefix rel "..").
Qed.

(** The path parameters of a request are the strings under the three keys. *)
Definition inside_params (root : string) (params : gmap string any) : Prop :=
  forall key p, key ∈ pathKeys -> params !! key = Some (AString p) -> inside root p.

Lemma validateParam_inside root kv :
  isAbs root = true ->
  is_Ok (validateParam root kv) = true <-> (kv.1 ∈ pathKeys -> forall p, kv.2 = AString p -> inside root p).
Proof.
  intros H. unfold validateParam. destruct kv as [key v]. simpl. case_bool_decide; simpl; [|naive_solver].
  destruct v; simpl; [naive_solver..| |naive_solver|naive_solver]. rewrite validatePath_inside by done. naive_solver.
Qed.

Lemma validateParams_inside root l :
  isAbs root = true ->
  is_Ok (validateParams root l) = true <-> forall key p, (key, AString p) ∈ l -> key ∈ pathKeys -> inside root p.
Proof.
  intros H. induction l as [|[key v] l IH]; simpl; [set_solver|].
  pose proof (validateParam_inside root (key, v) H) as Hp. simpl in Hp.
  destruct (validateParam root (key, v)) as [[]|e]; simpl in *.
  - rewrite IH. split.
    + intros Hl k p [[= -> <-]|Hin]%elem_of_cons Hk; [|by eapply Hl]. by apply Hp.
    + intros Hl k p Hin Hk. eapply Hl; [by right|done].
  - split; [done|]. intros Hl. apply Hp. intros Hk p ->. eapply Hl; [by left|done].
Qed.

Section Tier1.
Context {W : Type} `{!ZFSManager W} `{!SandboxEnv W}.
Context (order : forall A, list (string * A) -> list (string * A)).
Context (Marshal : gmap string any -> string).
Context (LocalBackend : string -> ToolRequest -> (string -> bool -> M W ()) -> M W (res string ToolResponse)).

Lemma validatePathParams_inside root params :
  (forall A l, order A l ≡ₚ l) -> isAbs root = true ->
  is_Ok (validatePathParams order root params) = true <-> inside_params root params.
Proof.
  intros Ho H. unfold validatePathParams, inside_params. rewrite validateParams_inside by done.
  setoid_rewrite (Ho any (map_to_list params)). setoid_rewrite elem_of_map_to_list. naive_solver.
Qed.

(** A tool of the first tier never leaves the session's root by its
    parameters.  Under an absolute mountpoint, whatever order Go visits the
    parameters in, [executeTier1] runs the local tools exactly when every string
    under [path], [file_path] and [directory] stays inside the mountpoint once
    the path is made absolute and cleaned, so that no sequence of ".." climbs
    out of it; otherwise it fails before any tool runs and nothing changes. *)
Theorem executeTier1_contained (root : string) (req : ExecuteToolRequest) (s : Svc * W)
    (Horder : forall A l, order A l ≡ₚ l) (Habs : isAbs root = true) :
  let '(r, s') := executeTier1 order Marshal LocalBackend root req s in
  (inside_params root (et_Params req) /\
   exists resp, resp = LocalBackend root (mkToolRequest (et_ToolName req) (et_ToolCallID req) (et_Params req))
                         (fun content isError => match et_OnProgress req with None => mret () | Some f => f content isError end) s.2 /\
   s' = (s.1, resp.2) /\ is_Ok r = is_Ok resp.1) \/
  (~ inside_params root (et_Params req) /\ is_Ok r = false /\ s' = s).
Proof.
  pose proof (validatePathParams_inside root (et_Params req) Horder Habs) as Hv. unfold executeTier1.
  destruct (validatePathParams order root (et_Params req)) as [[]|e]; simpl in Hv.
  - rewrite M_bind_eq. unfold lift. destruct (LocalBackend _ _ _ _) as [resp w] eqn:E.
    left. split; [naive_solver|]. exists (resp, w). split; [done|]. split; [done|]. by destruct resp.
  - right. split; [|done]. intros Hin%Hv. done.
Qed.
End Tier1.

(** ** Session directories *)

Lemma Contains_sub s u sub v : s = u +:+ sub +:+ v -> Contains s sub = true.
Proof. intros ->. apply Contains_spec. eauto. Qed.

Lemma sessionID_plain id : ValidateSessionID id = Ok () -> plain id /\ HasPrefix id ".." = false.
Proof.
  unfold ValidateSessionID. destruct (sessionIDPattern id) eqn:Hp; [|done]. simpl.
  destruct (Contains id "..") eqn:Hc; [done|]. intros _. unfold sessionIDPattern in Hp.
  apply andb_true_iff in Hp as [Hp _]. assert (HasPrefix id ".." = false) as Hd.
  { destruct (HasPrefix id "..") eqn:E; [|done]. apply HasPrefix_spec in E as [t ->].
    by rewrite (Contains_sub _ "" ".." t) in Hc. }
  split; [|done]. split_and!.
  - by intros ->.
  - by intros ->.
  - by intros ->.
  - apply (allBytes_no_byte (fun c => isAlnum c || oneOf "._-" c)); [|done].
    apply matchClass_allBytes in Hp; [done|]. intros c Hcc. by rewrite Hcc.
Qed.

Lemma JoinByte_app l1 l2 :
  l1 <> [] -> l2 <> [] -> JoinByte slash (l1 ++ l2) = JoinByte slash l1 +:+ String slash (JoinByte slash l2).
Proof.
  intros H1 H2. induction l1 as [|x l1 IH]; [done|]. destruct l1 as [|y l1].
  - by destruct l2.
  - change (x +:+ String slash (JoinByte slash ((y :: l1) ++ l2)) =
            (x +:+ String slash (JoinByte slash (y :: l1))) +:+ String slash (JoinByte slash l2)).
    rewrite IH by done. by rewrite <- append_assoc_l.
Qed.

Lemma SplitByte_app_slash a b : SplitByte slash (a +:+ String slash b) = SplitByte slash a ++ SplitByte slash b.
Proof.
  pose proof (SplitByte_ne slash a) as Ha. pose proof (SplitByte_ne slash b) as Hb.
  rewrite <- (JoinByte_SplitByte slash a), <- (JoinByte_SplitByte slash b) at 1. rewrite <- JoinByte_app by done.
  apply SplitByte_JoinByte; [by destruct (SplitByte slash a)|]. apply Forall_app. split; apply SplitByte_no_byte.
Qed.

(** Going on from an absolute path by a plain name. *)
Lemma elemsOf_child root id : isAbs root = true -> plain id -> elemsOf (JoinPath [Clean root; id]) = elemsOf root ++ [id].
Proof.
  intros Hr Hi. pose proof (isAbs_Clean root Hr) as Hc. simpl. rewrite bool_decide_eq_false_2 by by intros E; rewrite E in Hc.
  assert (isAbs (Clean root +:+ String slash id) = true) as Ha by (unfold isAbs in *; by apply HasPrefix_app_l).
  rewrite elemsOf_Clean by done. unfold elemsOf at 1. rewrite Ha, SplitByte_app_slash.
  destruct Hi as (I1 & I2 & I3 & I4). assert (SplitByte slash id = [id]) as ->.
  { apply (SplitByte_JoinByte slash [id]); [done|by constructor]. }
  unfold cleanElems. rewrite foldl_app. simpl. unfold cleanStep at 1. rewrite !bool_decide_eq_false_2 by done. simpl.
  rewrite reverse_cons. f_equal. pose proof (elemsOf_Clean root Hr) as E. unfold elemsOf, cleanElems in E. by rewrite Hc in E.
Qed.

(** Where a session of the local-disk backend lives.  Under an absolute
    root, the directory of an accepted session id is the child of the root with
    that name: ids of different sessions never share a directory or lie in one
    another, and no id leads out of the root.  Every valid id is accepted. *)
Theorem safeSessionPath_child (root id target : string) (Habs : isAbs root = true) :
  safeSessionPath root id = Ok target <->
  ValidateSessionID id = Ok () /\ target = Clean target /\ elemsOf target = elemsOf root ++ [id] /\ isAbs target = true.
Proof.
  assert (forall t, isAbs t = true -> t = Clean t -> Clean t = "/" +:+ JoinByte slash (elemsOf t)) as Hrender.
  { intros t Ht _. by apply Clean_abs. }
  unfold safeSessionPath. destruct (ValidateSessionID id) as [[]|e] eqn:Hv; [|naive_solver].
  destruct (sessionID_plain id Hv) as [Hi Hd]. pose proof (isAbs_Clean root Habs) as Hc.
  pose proof (elemsOf_child root id Habs Hi) as Hel. pose proof (isAbs_join (Clean root) id Hc) as Hj.
  set (target0 := Clean (JoinPath [Clean root; id])).
  assert (elemsOf target0 = elemsOf root ++ [id]) as E0 by by unfold target0; rewrite elemsOf_Clean.
  assert (isAbs target0 = true) as A0 by by apply isAbs_Clean.
  destruct (Rel_below (Clean root) target0 Hc A0) as (rel & -> & Hrel).
  assert (HasPrefix rel ".." = false) as ->.
  { apply Hrel. exists [id]. rewrite elemsOf_Clean by done. split; [done|]. simpl. done. }
  split.
  - intros [= <-]. split_and!; try done. unfold target0. by rewrite Clean_Clean.
  - intros (_ & Ht & He & Ha). f_equal. rewrite Ht, Hrender by done.
    rewrite He, <- E0. unfold target0. rewrite elemsOf_Clean by done. by apply Clean_abs.
Qed.

(** ** Concrete cases *)

Module Paths.
Example validatePath_ex :
  is_Ok ∘ validatePath "/sessions/s1" <$> ["a/b"; "../s2/x"; "/sessions/s1/../s1/x"; "/etc/passwd"; "a/../../s1"; "."; "..data"] =
  [true; false; true; false; true; true; false].
Proof. vm_compute. reflexivity. Qed.

Definition backend : string -> ToolRequest -> (string -> bool -> M Z ()) -> M Z (res string ToolResponse) :=
  fun _ _ _ n => (Ok (mkToolResponse [] "" None), (n + 1)%Z).
Definition request : ExecuteToolRequest (W := Z) :=
  mkExecuteToolRequest "s" "read_file" "c" {[ "path" := AString "../other" ]} None None.

Lemma executeTier1_contained_witness :
  let '(r, s') := executeTier1 (fun _ l => reverse l) (fun _ => "") backend "/sessions/s1" request (initSvc, 0%Z) in
  is_Ok r = false /\ s' = (initSvc, 0%Z).
Proof.
  pose proof (executeTier1_contained (fun _ l => reverse l) (fun _ => "") backend "/sessions/s1" request (initSvc, 0%Z)
    (fun A l => reverse_Permutation l) eq_refl) as H.
  destruct (executeTier1 _ _ _ _ _ _) as [r s'] eqn:E. destruct H as [[_ (resp & -> & -> & Hr)]|(_ & H1 & H2)].
  - vm_compute in E. by simplify_eq.
  - by split.
Defined.

Lemma safeSessionPath_child_witness :
  ValidateSessionID "s-1" = Ok () /\ elemsOf "/srv/sessions/s-1" = elemsOf "/srv/sessions/" ++ ["s-1"].
Proof.
  destruct (proj1 (safeSessionPath_child "/srv/sessions/" "s-1" "/srv/sessions/s-1" eq_refl)) as (H1 & _ & H2 & _); [by vm_compute|].
  by split.
Defined.
End Paths.
