(* ===== verification/SandboxProps.v ===== *)
(** * SandboxProps: sessions and the storage they own

    The theorems of the sandbox service over any storage that keeps the
    contract [ZFSLaw], for requests that run one after the other: the snapshots
    a session records are those its dataset has, and what creating and
    destroying a session does. *)

From Stdlib Require Import Ascii String.
From S2P Require Import Prelude AiTypes GoStrings GoText GoPath GoFloat Zfs SandboxTypes SandboxProcess Sandbox SandboxExecute.

Local Open Scope string_scope.
Local Open Scope list_scope.
Local Open Scope stdpp_scope.

(** ** The world of an undisturbed service

    No other goroutine acts at a preemption, and nothing but the storage
    operations touches the storage. *)

Definition showing {W A} (view : W -> Store -> Prop) (m : M W A) : Prop := forall w v, view w v -> view (m w).2 v.

Class QuietSandbox (W : Type) `{!SandboxEnv W} (view : W -> Store -> Prop) : Prop := {
  quiet_preempt s : preempt s = ((), s);
  quiet_awaitDone n s : sessions (awaitDone n s).2.1 = sessions s.1 /\ sheap (awaitDone n s).2.1 = sheap s.1 /\
    forall v, view s.2 v -> view (awaitDone n s).2.2 v;
  quiet_Now : showing view Now;
  quiet_patience : showing view patience;
  quiet_MkdirAll p : showing view (MkdirAll p);
  quiet_RemoveAll p : showing view (RemoveAll p);
  quiet_Environ : showing view Environ;
  quiet_Start b a d e : showing view (cmd_Start b a d e);
  quiet_Signal h sig : showing view (cmd_Signal h sig);
  quiet_Listen : showing view Listen;
  quiet_Wait h : showing view (cmd_Wait h);
  quiet_Run o : showing view (gvisor_Run o);
  quiet_Close : showing view gvisor_Close;
}.

(** ** Sessions mirror their datasets *)

Section Mirror.
Context (cfg : ServiceConfig).

Definition datasetOf (id : string) : string := c_SessionsDataset cfg +:+ "/" +:+ id.

(** The names of the turn snapshots 1 to [n]. *)
Definition turnNames (n : Z) : list string := snapNameOf cfg <$> seqZ 1 n.

(** The record of a session agrees with a store: its snapshots are those of
    its dataset, in order, and its turns are numbered from 1 to its count. *)
Record session_ok (v : Store) (id : string) (sess : Session) : Prop := {
  ok_id : s_id sess = id;
  ok_flat : ContainsByte "/" id = false;
  ok_dataset : s_dataset sess = datasetOf id;
  ok_snapshots : v !! datasetOf id = Some (se_Name <$> s_snapshots sess);
  ok_count : (0 <= s_turnCount sess)%Z;
  ok_turns : se_Name <$> filter isTurn (s_snapshots sess) = turnNames (s_turnCount sess);
}.

(** Every session but [except] is so. *)
Definition mirror_but (except : option string) (s : Svc) (v : Store) : Prop :=
  forall id p, sessions s !! id = Some p -> except <> Some id ->
  exists sess, sheap s !! p = Some sess /\ session_ok v id sess.
Definition mirror : Svc -> Store -> Prop := mirror_but None.

(** What of a session its mirror depends on. *)
Definition recordOf (s : Session) : string * string * Z * list SnapshotEntry :=
  (s_id s, s_dataset s, s_turnCount s, s_snapshots s).

Lemma session_ok_record v id sess sess' : recordOf sess' = recordOf sess -> session_ok v id sess -> session_ok v id sess'.
Proof. unfold recordOf. intros [= E1 E2 E3 E4] [H1 H2 H3 H4 H5 H6]. split; by rewrite ?E1, ?E2, ?E3, ?E4. Qed.

Lemma mirror_but_weaken e s v : mirror s v -> mirror_but e s v.
Proof. intros H id p Hp _. by apply (H id p). Qed.

(** Two datasets of sessions are different, and none lies below another. *)
Lemma datasetOf_inj id id' : datasetOf id = datasetOf id' -> id = id'.
Proof. unfold datasetOf. intros H. by apply append_inj_l, append_inj_l in H. Qed.

Lemma datasetOf_below id id' : ContainsByte "/" id' = false -> below (datasetOf id) (datasetOf id') = false.
Proof.
  intros H. unfold below. destruct (HasPrefix (datasetOf id') (datasetOf id +:+ "/")) eqn:E; [|done].
  apply HasPrefix_spec in E as [t E]. unfold datasetOf in E. rewrite <- !append_assoc_l in E.
  apply append_inj_l, append_inj_l in E. subst id'. by rewrite !ContainsByte_app, orb_true_r in H.
Qed.

(** A session stays right when its dataset keeps its snapshots. *)
Lemma mirror_but_store e s v v' :
  mirror_but e s v ->
  (forall id, e <> Some id -> ContainsByte "/" id = false -> is_Some (v !! datasetOf id) -> v' !! datasetOf id = v !! datasetOf id) ->
  mirror_but e s v'.
Proof.
  intros H Hv id p Hp He. destruct (H id p Hp He) as (sess & Hs & [H1 H2 H3 H4 H5 H6]). exists sess. split; [done|].
  split; try done. rewrite Hv by (try done; by eexists). done.
Qed.

(** Only the sessions and their records matter. *)
Lemma mirror_but_frame e s s' v :
  sessions s' = sessions s -> (forall p sess, sheap s !! p = Some sess -> exists sess', sheap s' !! p = Some sess' /\ recordOf sess' = recordOf sess) ->
  mirror_but e s v -> mirror_but e s' v.
Proof.
  intros Hs Hh H id p Hp He. rewrite Hs in Hp. destruct (H id p Hp He) as (sess & Hl & Hok).
  destruct (Hh p sess Hl) as (sess' & Hl' & Hr). exists sess'. split; [done|]. by eapply session_ok_record.
Qed.

(** Changing the session of an id. *)
Lemma mirror_but_set s v id p sess0 sess :
  sessions s !! id = Some p -> sheap s !! p = Some sess0 -> s_id sess0 = id ->
  mirror_but (Some id) s v -> session_ok v id sess -> mirror (set_sheap (<[p := sess]> (sheap s)) s) v.
Proof.
  intros Hid Hp0 Hid0 H Hok id' p' Hp _. simpl in *. destruct (decide (id' = id)) as [->|Hne].
  - simplify_eq. exists sess. by rewrite lookup_insert_eq.
  - destruct (H id' p' Hp) as (sess' & Hl & Hok'); [congruence|]. exists sess'. split; [|done].
    rewrite lookup_insert_ne; [done|]. intros <-. simplify_eq. by destruct Hok' as [? _ _ _ _ _].
Qed.

Lemma mirror_but_delete s v id : mirror_but (Some id) s v -> mirror (set_sessions (delete id (sessions s)) s) v.
Proof. intros H id' p Hp _. simpl in *. apply lookup_delete_Some in Hp as [Hne Hp]. apply (H id' p); [done|congruence]. Qed.

(** A new object under an id. *)
Lemma mirror_but_store_session W e s v (w : W) sess :
  mirror_but (Some (s_id sess)) s v -> (e = Some (s_id sess) \/ session_ok v (s_id sess) sess) ->
  mirror_but e (storeSession sess (s, w)).2.1 v.
Proof.
  intros H Hok id p Hp He. simpl in *. destruct (decide (id = s_id sess)) as [->|Hne].
  - rewrite lookup_insert_eq in Hp. simplify_eq. destruct Hok as [->|Hok]; [done|]. exists sess. by rewrite lookup_insert_eq.
  - rewrite lookup_insert_ne in Hp by done. destruct (H id p Hp) as (sess' & Hl & Hok'); [congruence|]. exists sess'.
    split; [|done]. rewrite lookup_insert_ne; [done|]. intros <-. eapply (is_fresh (dom (sheap s))), elem_of_dom_2, Hl.
Qed.

(** *** The parts of the operations on one session *)

Lemma pauseSection_record s : recordOf (pauseSection s).2 = recordOf s.
Proof. unfold pauseSection. by case_bool_decide. Qed.
Lemma resumeSection_record s : recordOf (resumeSection s).2 = recordOf s.
Proof. unfold resumeSection. by case_bool_decide. Qed.
Lemma turnSection_same s : (turnSection cfg s).2 = s.
Proof. unfold turnSection. by destruct (_ || _). Qed.
Lemma rollbackSection_record s : recordOf (rollbackSection s).2 = recordOf s.
Proof. unfold rollbackSection. case_bool_decide; [|done]. simpl. by case_bool_decide. Qed.
Lemma admitTool_record s : recordOf (admitTool s).2 = recordOf s.
Proof. unfold admitTool. case_bool_decide; [|done]. simpl. by destruct (s_rollingBack s). Qed.

(** Changing a session together with its dataset. *)
Lemma mirror_update s v id p sess sess' l :
  mirror s v -> sessions s !! id = Some p -> sheap s !! p = Some sess -> session_ok (<[datasetOf id := l]> v) id sess' ->
  mirror (set_sheap (<[p := sess']> (sheap s)) s) (<[datasetOf id := l]> v).
Proof.
  intros Hm Hid Hp Hok. destruct (Hm id p Hid) as (sess0 & Hp' & [Hid0 _ _ _ _ _]); [done|]. simplify_eq.
  eapply mirror_but_set; [done..| |exact Hok]. apply (mirror_but_store _ _ v); [by apply mirror_but_weaken|].
  intros id' Hne _ _. apply lookup_insert_ne. intros E%datasetOf_inj. congruence.
Qed.

(** *** Snapshot entries *)

Lemma session_ok_named v id sess name l :
  session_ok v id sess -> v !! datasetOf id = Some l -> session_ok (<[datasetOf id := l ++ [name]]> v) id (recordNamed name sess).
Proof.
  intros [H1 H2 H3 H4 H5 H6] Hl. rewrite H4 in Hl. simplify_eq. split; simpl; try done.
  - by rewrite lookup_insert_eq, fmap_app.
  - rewrite filter_app, filter_cons_False, filter_nil by done. by rewrite app_nil_r.
Qed.

Lemma turnNames_succ n : (0 <= n)%Z -> turnNames (n + 1) = turnNames n ++ [snapNameOf cfg (n + 1)].
Proof.
  intros Hn. unfold turnNames. rewrite seqZ_app by lia. rewrite fmap_app. f_equal. simpl. by rewrite (Z.add_comm 1 n).
Qed.

Lemma session_ok_turn v id sess l :
  session_ok v id sess -> v !! datasetOf id = Some l ->
  session_ok (<[datasetOf id := l ++ [snapNameOf cfg (s_turnCount sess + 1)]]> v) id
    (recordTurn (s_turnCount sess + 1) (snapNameOf cfg (s_turnCount sess + 1)) sess).
Proof.
  intros [H1 H2 H3 H4 H5 H6] Hl. rewrite H4 in Hl. simplify_eq. split; simpl; try done; [|lia|].
  - by rewrite lookup_insert_eq, fmap_app.
  - rewrite filter_app, filter_cons_True, filter_nil by done. by rewrite fmap_app, H6, turnNames_succ.
Qed.

(** Rolling back keeps the entries the store keeps; the turns kept are the
    first ones. *)
Lemma entriesUpto_names name l :
  name ∈ (se_Name <$> l) -> exists kept rest, entriesUpto name l = Some kept /\ l = kept ++ rest /\
    se_Name <$> kept = upto name (se_Name <$> l).
Proof.
  induction l as [|e l IH]; [by intros ?%elem_of_nil|]. intros Hin. simpl. case_bool_decide as He.
  - exists [e], l. simpl. by rewrite He.
  - destruct IH as (kept & rest & E1 & E2 & E3); [set_solver|]. exists (e :: kept), rest.
    rewrite E1. split_and!; [done|by rewrite E2|]. change (se_Name e :: (se_Name <$> kept) = se_Name e :: upto name (se_Name <$> l)).
    by rewrite E3.
Qed.

Lemma turnNames_prefix n l rest : (0 <= n)%Z -> turnNames n = l ++ rest -> l = turnNames (Z.of_nat (length l)).
Proof.
  intros Hn H. assert (Z.of_nat (length l) <= n)%Z as Hle.
  { apply (f_equal length) in H. unfold turnNames in H. rewrite length_fmap, length_seqZ, length_app in H. lia. }
  unfold turnNames in *. replace n with (Z.of_nat (length l) + (n - Z.of_nat (length l)))%Z in H by lia.
  rewrite seqZ_app in H by lia. rewrite fmap_app in H. apply app_inj_1 in H as [H _]; [by symmetry|].
  rewrite length_fmap, length_seqZ. lia.
Qed.

Lemma session_ok_rollback v id sess name l :
  session_ok v id sess -> v !! datasetOf id = Some l -> name ∈ l ->
  session_ok (<[datasetOf id := upto name l]> v) id (afterRollback name sess).
Proof.
  intros [H1 H2 H3 H4 H5 H6] Hl Hin. rewrite H4 in Hl. simplify_eq.
  destruct (entriesUpto_names name _ Hin) as (kept & rest & E1 & E2 & E3).
  unfold afterRollback. simpl. rewrite E1. split; simpl; try done.
  - by rewrite lookup_insert_eq, E3.
  - unfold countTurns. lia.
  - rewrite E2, filter_app, fmap_app in H6. symmetry in H6. apply turnNames_prefix in H6; [|done].
    rewrite H6 at 1. unfold countTurns. by rewrite length_fmap.
Qed.
End Mirror.

(** ** The state that mirrors *)

Section Sandbox.
Context {W : Type} `{!ZFSManager W} `{!SandboxEnv W} (view : W -> Store -> Prop).
Context `{!ZFSLaw W view} `{!QuietSandbox W view}.
Context (order : forall A, list (string * A) -> list (string * A)).
Context (cfg : ServiceConfig) (hasGVisor : bool).
Context (started : Z).
Context (Marshal : gmap string any -> string).
Context (FormatTime : Z -> string).
Context (LocalBackend : string -> ToolRequest -> (string -> bool -> M W ()) -> M W (res string ToolResponse)).
Context (gvisor_RunStreaming : ContainerOptions -> option ((string -> M W Z) * (string -> M W Z)) ->
                               M W (res string ContainerResult)).

(** The store mirrors every session but [e]. *)
Definition Inv (e : option string) (x : Svc * W) : Prop := exists v, view x.2 v /\ mirror_but cfg e x.1 v.

Lemma Inv_lift {A} e (m : M W A) : showing view m -> maintains (Inv e) (lift m).
Proof. intros Hm [s w] (v & Hv & H). unfold lift. simpl in *. specialize (Hm w v Hv). destruct (m w) as [r w']. by exists v. Qed.

Lemma Inv_preempt e : maintains (Inv e) (preempt (W := W)).
Proof. intros s H. by rewrite quiet_preempt. Qed.

Lemma Inv_sget {A} e (f : Svc -> A) : maintains (Inv e) (sget (W := W) f).
Proof. by intros s. Qed.

Lemma Inv_smod e f : (forall s, sessions (f s) = sessions s) -> (forall s, sheap (f s) = sheap s) -> maintains (Inv e) (smod (W := W) f).
Proof.
  intros H1 H2 [s w] (v & Hv & H). exists v. split; [done|]. simpl. apply (mirror_but_frame cfg e s); [apply H1| |done].
  intros p sess Hp. exists sess. by rewrite H2.
Qed.

Lemma Inv_onSession {A} e p (d : A) f : (forall s, recordOf (f s).2 = recordOf s) -> maintains (Inv e) (onSession (W := W) p d f).
Proof.
  intros Hf [s w] (v & Hv & H). unfold onSession. simpl. destruct (sheap s !! p) as [sess|] eqn:Hp; [|by exists v].
  specialize (Hf sess). destruct (f sess) as [r sess']. exists v. split; [done|]. simpl in *.
  apply (mirror_but_frame cfg e s); [done| |done]. intros q sq Hq. simpl. destruct (decide (p = q)) as [<-|Hne].
  - assert (sq = sess) as -> by congruence. exists sess'. by rewrite lookup_insert_eq.
  - exists sq. by rewrite lookup_insert_ne.
Qed.

Lemma Inv_modSession e p f : (forall s, recordOf (f s) = recordOf s) -> maintains (Inv e) (modSession (W := W) p f).
Proof. intros Hf. by apply Inv_onSession. Qed.

Lemma Inv_modProcess e p f : maintains (Inv e) (modProcess (W := W) p f).
Proof. apply Inv_smod; intros s; by destruct (pheap s !! p). Qed.

Lemma Inv_onProcess {A} e p (d : A) f : maintains (Inv e) (onProcess (W := W) p d f).
Proof.
  intros [s w] (v & Hv & H). unfold onProcess. simpl. destruct (pheap s !! p) as [mp|]; [|by exists v].
  destruct (f mp) as [r mp']. by exists v.
Qed.

Lemma Inv_readSession e p : maintains (Inv e) (readSession (W := W) p).
Proof. apply Inv_sget. Qed.
Lemma Inv_readProcess e p : maintains (Inv e) (readProcess (W := W) p).
Proof. apply Inv_sget. Qed.
Lemma Inv_count e f : maintains (Inv e) (count (W := W) f).
Proof. by apply Inv_smod. Qed.
Lemma Inv_getSession e id : maintains (Inv e) (getSession (W := W) id).
Proof. apply Inv_sget. Qed.

Lemma Inv_awaitDone e n : maintains (Inv e) (awaitDone (W := W) n).
Proof.
  intros [s w] (v & Hv & H). destruct (quiet_awaitDone n (s, w)) as (H1 & H2 & H3). exists v. split; [by apply H3|].
  eapply mirror_but_frame; [exact H1| |exact H]. intros p sess Hp. exists sess. by rewrite H2.
Qed.

Lemma showing_read {A} (m : M W (res zerror A)) : refines view spec_read m -> showing view m.
Proof. intros Hm w v Hv. by destruct (Hm w v Hv) as (v' & -> & ?). Qed.

Lemma Inv_zcall {A} e (m : M W A) : showing view m -> maintains (Inv e) (zcall m).
Proof.
  intros Hm. unfold zcall. apply maintains_bind; [apply Inv_preempt|]. intros _. apply maintains_bind; [by apply Inv_lift|].
  intros r. apply maintains_bind; [apply Inv_preempt|]. intros _. apply maintains_ret.
Qed.

(** A quiet call of the storage. *)
Lemma zcall_eq {A} (m : M W A) s : zcall m s = ((m s.2).1, (s.1, (m s.2).2)).
Proof. unfold zcall. rewrite M_bind_eq, quiet_preempt, M_bind_eq, M_bind_eq, quiet_preempt. unfold lift. simpl. by destruct (m s.2). Qed.

Create HintDb sandbox discriminated.
Hint Resolve Inv_preempt Inv_onProcess Inv_readSession Inv_readProcess Inv_count Inv_getSession Inv_awaitDone Inv_modProcess
  Inv_sget maintains_ret : sandbox.
Hint Extern 2 (maintains (Inv _) (lift _)) => apply Inv_lift; first [apply quiet_Now | apply quiet_patience
  | apply quiet_MkdirAll | apply quiet_RemoveAll | apply quiet_Environ | apply quiet_Start | apply quiet_Signal
  | apply quiet_Listen | apply quiet_Wait | apply quiet_Run | apply quiet_Close | assumption] : sandbox.
Hint Extern 2 (maintains (Inv _) (zcall _)) => apply Inv_zcall; first [apply quiet_MkdirAll | apply quiet_RemoveAll
  | apply quiet_Close | apply showing_read; first [apply law_GetMountpoint | apply law_SetProperty
      | apply law_PoolStatus | apply law_PoolSpace]] : sandbox.
Hint Extern 2 (maintains (Inv _) (modSession _ _)) => apply Inv_modSession; done : sandbox.
Hint Extern 2 (maintains (Inv _) (smod _)) => apply Inv_smod; done : sandbox.

Ltac inv_tac := repeat first [progress simpl | maintains_step | solve [eauto 2 with sandbox]].

(** *** Processes *)

Lemma Inv_kill e proc sig : maintains (Inv e) (killManagedProcess (W := W) proc sig).
Proof. unfold killManagedProcess, fail. inv_tac. Qed.

Lemma prune_record now procs s : recordOf (pruneExitedProcessesLocked now procs s) = recordOf s.
Proof. done. Qed.

Lemma Inv_launch_locked e p id now : maintains (Inv e) (launch_locked (W := W) p id now).
Proof.
  intros [s w] (v & Hv & H). unfold launch_locked. simpl. destruct (sheap s !! p) as [sess|] eqn:Hp; [|by exists v].
  destruct (negb _); [by exists v|]. exists v. split; [done|]. simpl. apply (mirror_but_frame cfg e s); [done| |done].
  intros q sq Hq. simpl. destruct (decide (p = q)) as [<-|Hne].
  - assert (sq = sess) as -> by congruence. eexists. rewrite lookup_insert_eq. by split.
  - exists sq. by rewrite lookup_insert_ne.
Qed.

Lemma Inv_launchDirect e proc req mp : maintains (Inv e) (launchDirect order proc req mp).
Proof. unfold launchDirect. inv_tac. Qed.
Lemma Inv_launchInGVisor e proc req mp : maintains (Inv e) (launchInGVisor (W := W) cfg hasGVisor proc req mp).
Proof. unfold launchInGVisor. inv_tac. Qed.
Lemma Inv_abandon e p proc id : maintains (Inv e) (abandon (W := W) p proc id).
Proof. unfold abandon. inv_tac. Qed.
Lemma Inv_createPortProxy e port : maintains (Inv e) (createPortProxy (W := W) cfg port).
Proof. unfold createPortProxy. inv_tac. Qed.
Hint Resolve Inv_kill Inv_launch_locked Inv_launchDirect Inv_launchInGVisor Inv_abandon Inv_createPortProxy : sandbox.

Lemma Inv_LaunchProcess e req : maintains (Inv e) (LaunchProcess order cfg hasGVisor req).
Proof. unfold LaunchProcess, fail. inv_tac. Qed.

Lemma Inv_markProcessExited e proc code : maintains (Inv e) (markProcessExited (W := W) proc code).
Proof. unfold markProcessExited. inv_tac. Qed.
Hint Resolve Inv_LaunchProcess Inv_markProcessExited : sandbox.

Lemma Inv_runMonitor e : maintains (Inv e) (runMonitor (W := W)).
Proof. unfold runMonitor, monitorProcess, monitorDirectProcess, monitorGVisorProcess. inv_tac. Qed.

Lemma Inv_findProcess e id pid : maintains (Inv e) (findProcess (W := W) id pid).
Proof. unfold findProcess, fail. inv_tac. Qed.
Hint Resolve Inv_findProcess : sandbox.

Lemma Inv_KillProcess e req : maintains (Inv e) (KillProcess (W := W) req).
Proof. unfold KillProcess, fail. inv_tac. Qed.
Lemma Inv_GetProcessStatus e req : maintains (Inv e) (GetProcessStatus (W := W) req).
Proof. unfold GetProcessStatus, fail. inv_tac. Qed.

Lemma Inv_destroyProcesses e p : maintains (Inv e) (destroySessionProcesses (W := W) order p).
Proof. unfold destroySessionProcesses, reap. inv_tac. Qed.

(** *** Calls on one session *)

Lemma modSession_eq p f (s : Svc) (w : W) sess :
  sheap s !! p = Some sess -> modSession p f (s, w) = ((), (set_sheap (<[p := f sess]> (sheap s)) s, w)).
Proof. intros H. unfold modSession, onSession. simpl. by rewrite H. Qed.

Lemma Inv_then {A B} e (m : SM W A) (k : A -> SM W B) x :
  Inv e (m x).2 -> (forall a, maintains (Inv e) (k a)) -> Inv e ((m ≫= k) x).2.
Proof. intros Hm Hk. rewrite M_bind_eq. by apply Hk. Qed.

(** A call on a session that is there starts with its record. *)
Lemma with_session {A} id (k : nat -> SM W (res serror A)) s w :
  Inv None (s, w) ->
  (forall p v sess, sessions s !! id = Some p -> view w v -> mirror cfg s v -> sheap s !! p = Some sess -> session_ok cfg v id sess ->
    Inv None (k p (s, w)).2) ->
  Inv None ((found ← getSession id; match found with Err e => mret (Err e) | Ok p => k p end) (s, w)).2.
Proof.
  intros H Hk. rewrite M_bind_eq. unfold getSession, sget, gets. simpl. destruct (sessions s !! id) as [p|] eqn:Hp; [|done].
  destruct H as (v & Hv & Hm). destruct (Hm id p Hp) as (sess & Hs & Hok); [done|]. by eapply Hk.
Qed.

(** Taking a snapshot of the session's dataset, then recording it. *)
Lemma Inv_zfs_CreateSnapshot id p name s w v sess :
  view w v -> mirror cfg s v -> sessions s !! id = Some p -> sheap s !! p = Some sess -> session_ok cfg v id sess ->
  let '(r, w') := zfs_CreateSnapshot (s_dataset sess) name w in
  match r with
  | Err _ => Inv None (s, w')
  | Ok info => si_Name info = name /\ forall f,
      (forall l, v !! datasetOf cfg id = Some l -> session_ok cfg (<[datasetOf cfg id := l ++ [name]]> v) id (f sess)) ->
      Inv None (modSession p f (s, w')).2
  end.
Proof.
  intros Hv Hm Hid Hp Hok. destruct (law_CreateSnapshot (s_dataset sess) name w v Hv) as (v' & Hspec & Hv').
  destruct (zfs_CreateSnapshot (s_dataset sess) name w) as [[info|e] w']; simpl in *.
  - destruct Hspec as (l & Hl & _ & Hname & ->). split; [done|]. intros f Hf. rewrite (modSession_eq _ _ _ _ sess) by done.
    rewrite (ok_dataset _ _ _ _ Hok) in *. eexists. split; [exact Hv'|]. simpl. eapply mirror_update; eauto.
  - subst v'. by exists v.
Qed.

Lemma Inv_CreateSnapshot id name : maintains (Inv None) (CreateSnapshot cfg id name).
Proof.
  intros [s w] H. unfold CreateSnapshot. destruct (negb (isZFS cfg)); [done|]. apply with_session; [done|].
  intros p v sess Hid Hv Hm Hp Hok. rewrite M_bind_eq, quiet_preempt, M_bind_eq, M_bind_eq, zcall_eq. simpl. rewrite Hp. simpl.
  pose proof (Inv_zfs_CreateSnapshot id p name s w v sess Hv Hm Hid Hp Hok) as Hz.
  destruct (zfs_CreateSnapshot (s_dataset sess) name w) as [[info|e] w']; simpl; [|done].
  rewrite M_bind_eq. apply Hz. intros l Hl. by apply session_ok_named.
Qed.

Lemma Inv_TurnComplete id : (c_MaxSnapshotsPerSession cfg <= 0)%Z -> maintains (Inv None) (TurnComplete cfg id).
Proof.
  intros Hmax [s w] H. unfold TurnComplete. destruct (negb (isZFS cfg)); [done|]. apply with_session; [done|].
  intros p v sess Hid Hv Hm Hp Hok. rewrite M_bind_eq, quiet_preempt, M_bind_eq. cbn [fst snd].
  assert (onSession p (Err nilSession) (turnSection cfg) (s, w) = ((turnSection cfg sess).1, (s, w))) as ->.
  { unfold onSession. simpl. rewrite Hp. pose proof (turnSection_same cfg sess) as E. destruct (turnSection cfg sess) as [r sess'].
    simpl in *. subst. rewrite insert_id by done. by destruct s. }
  unfold turnSection. destruct (_ || _); simpl; [by exists v|]. rewrite M_bind_eq, zcall_eq. simpl.
  pose proof (Inv_zfs_CreateSnapshot id p (snapNameOf cfg (s_turnCount sess + 1)) s w v sess Hv Hm Hid Hp Hok) as Hz.
  destruct (zfs_CreateSnapshot (s_dataset sess) _ w) as [[info|e] w']; simpl; [|done].
  apply Inv_then.
  - apply Hz. intros l Hl. by apply session_ok_turn.
  - intros _. rewrite (bool_decide_eq_false_2 (0 < c_MaxSnapshotsPerSession cfg)%Z) by lia. inv_tac.
Qed.

Lemma onSession_eq {A} p (d : A) f (s : Svc) (w : W) sess :
  sheap s !! p = Some sess -> onSession p d f (s, w) = ((f sess).1, (set_sheap (<[p := (f sess).2]> (sheap s)) s, w)).
Proof. intros H. unfold onSession. simpl. rewrite H. by destruct (f sess). Qed.

(** A section that keeps the record leaves a session to go on with. *)
Lemma mirror_section s v id p sess sess' :
  mirror cfg s v -> sessions s !! id = Some p -> sheap s !! p = Some sess -> session_ok cfg v id sess ->
  recordOf sess' = recordOf sess ->
  let s' := set_sheap (<[p := sess']> (sheap s)) s in
  mirror cfg s' v /\ sessions s' !! id = Some p /\ sheap s' !! p = Some sess' /\ session_ok cfg v id sess'.
Proof.
  intros Hm Hid Hp Hok Hr s'. split_and!; [|done|apply lookup_insert_eq|by eapply session_ok_record].
  eapply mirror_but_set; [done..| |by eapply mirror_but_weaken|by eapply session_ok_record].
  apply (ok_id _ _ _ _ Hok).
Qed.

Lemma rollbackSection_dataset s d : (rollbackSection s).1 = Ok d -> d = s_dataset s.
Proof. unfold rollbackSection. case_bool_decide; [|done]. simpl. case_bool_decide; [done|]. by intros [= ->]. Qed.

Lemma Inv_RollbackSession id name : maintains (Inv None) (RollbackSession cfg id name).
Proof.
  intros [s w] H. unfold RollbackSession. destruct (negb (isZFS cfg)); [done|]. apply with_session; [done|].
  intros p v sess Hid Hv Hm Hp Hok. rewrite M_bind_eq, quiet_preempt, M_bind_eq. cbn [fst snd].
  rewrite (onSession_eq _ _ _ _ _ sess) by done. cbn [fst snd].
  destruct (mirror_section s v id p sess _ Hm Hid Hp Hok (rollbackSection_record sess)) as (Hm1 & Hid1 & Hp1 & Hok1).
  set (s1 := set_sheap _ s) in *. destruct (rollbackSection sess).1 as [d|e] eqn:E; [|by exists v].
  apply rollbackSection_dataset in E. rewrite (ok_dataset _ _ _ _ Hok) in E. subst d. rewrite M_bind_eq, zcall_eq. cbn [fst snd].
  destruct (law_Rollback (datasetOf cfg id) name w v Hv) as (v' & Hspec & Hv').
  destruct (zfs_Rollback (datasetOf cfg id) name (mkRollbackOptions true) w) as [[[]|e] w'];
    simpl in Hspec, Hv'; cbn [fst snd]; apply Inv_then; try (intros ?; inv_tac).
  - destruct Hspec as (l & Hl & Hin & ->). rewrite (modSession_eq _ _ _ _ _ Hp1). eexists. split; [exact Hv'|].
    eapply mirror_update; [done..|]. by apply session_ok_rollback.
  - apply Inv_modSession; [done|]. subst v'. by exists v.
Qed.

Lemma Inv_getActiveSession e id : maintains (Inv e) (getActiveSession (W := W) id).
Proof. unfold getActiveSession. inv_tac. Qed.
Lemma Inv_drainLoop e p n r : maintains (Inv e) (drainLoop (W := W) p n r).
Proof. induction n as [|n IH]; simpl; inv_tac. Qed.
Lemma Inv_drainTools e p : maintains (Inv e) (drainTools (W := W) p).
Proof. unfold drainTools. apply maintains_bind; [inv_tac|]. intros [n r]. apply Inv_drainLoop. Qed.
Hint Resolve Inv_getActiveSession Inv_drainTools : sandbox.

Lemma Inv_PauseSession e id : maintains (Inv e) (PauseSession (W := W) id).
Proof. unfold PauseSession. inv_tac. apply Inv_onSession, pauseSection_record. Qed.
Lemma Inv_ResumeSession e id : maintains (Inv e) (ResumeSession (W := W) id).
Proof. unfold ResumeSession. inv_tac. apply Inv_onSession, resumeSection_record. Qed.
Lemma Inv_GetSession e id : maintains (Inv e) (GetSession (W := W) id).
Proof. unfold GetSession. inv_tac. Qed.
Lemma Inv_HealthCheck e : maintains (Inv e) (HealthCheck order cfg started).
Proof. unfold HealthCheck. inv_tac. Qed.

Lemma showing_ListSnapshots d : showing view (zfs_ListSnapshots d).
Proof. intros w v Hv. by destruct (law_ListSnapshots d w v Hv) as (v' & [-> _] & ?). Qed.
Lemma Inv_ListSnapshots e id : maintains (Inv e) (ListSnapshots cfg id).
Proof. unfold ListSnapshots. inv_tac. apply Inv_zcall, showing_ListSnapshots. Qed.

(** *** Tools *)

Lemma Inv_snapshotTool id p req resp s w :
  Inv None (s, w) -> sessions s !! id = Some p -> Inv None (snapshotTool cfg FormatTime p req resp (s, w)).2.
Proof.
  intros H Hid. unfold snapshotTool. destruct (_ && _); [|done]. rewrite M_bind_eq.
  pose proof (Inv_lift None Now quiet_Now (s, w) H) as H1. unfold lift in *. simpl in *. destruct (Now w) as [now w1]. simpl in *.
  rewrite M_bind_eq. simpl. destruct H1 as (v & Hv & Hm). destruct (Hm id p Hid) as (sess & Hp & Hok); [done|]. simpl in Hp, Hv, Hm. rewrite Hp. simpl.
  rewrite M_bind_eq, zcall_eq. simpl.
  pose proof (Inv_zfs_CreateSnapshot id p (toolSnapshotName FormatTime (et_ToolCallID req) now) s w1 v sess Hv Hm Hid Hp Hok) as Hz.
  destruct (zfs_CreateSnapshot (s_dataset sess) _ w1) as [[info|e] w']; simpl; [|done]. destruct Hz as [Hname Hz].
  rewrite Hname. apply Inv_then; [|intros _; inv_tac]. apply Hz. intros l Hl. by apply session_ok_named.
Qed.

(** Tools and their progress callbacks leave the storage operations alone. *)
Definition quiet_callback (f : string -> bool -> M W ()) : Prop := forall content isError, showing view (f content isError).
Definition quiet_request (req : ExecuteToolRequest (W := W)) : Prop := from_option quiet_callback True (et_OnProgress req).
Context (HLocal : forall root req f, quiet_callback f -> showing view (LocalBackend root req f)).
Context (HStream : forall opts ws,
  from_option (fun '(a, b) => forall chunk, showing view (a chunk) /\ showing view (b chunk)) True ws ->
  showing view (gvisor_RunStreaming opts ws)).

(** The invariant with the session map held fixed. *)
Definition At (ses : gmap string nat) (x : Svc * W) : Prop := Inv None x /\ sessions x.1 = ses.

Lemma At_lift {A} ses (m : M W A) : showing view m -> maintains (At ses) (lift m).
Proof.
  intros Hm x [H1 H2]. split; [by apply Inv_lift|]. destruct x as [s w]. unfold lift. simpl in *. by destruct (m w).
Qed.

Lemma showing_ret {A} (a : A) : showing view (mret a).
Proof. by intros w v. Qed.
Lemma showing_bind {A B} (m : M W A) (k : A -> M W B) : showing view m -> (forall a, showing view (k a)) -> showing view (m ≫= k).
Proof. intros Hm Hk w v Hv. rewrite M_bind_eq. by apply Hk, Hm. Qed.

Lemma At_executeTier1 ses mp req : quiet_request req -> maintains (At ses) (executeTier1 order Marshal LocalBackend mp req).
Proof.
  intros Hr. unfold executeTier1. destruct (validatePathParams _ _ _); [|apply maintains_ret].
  apply maintains_bind; [|intros ?; apply maintains_ret]. apply At_lift, HLocal. intros content isError.
  unfold quiet_request in Hr. destruct (et_OnProgress req) as [f|]; [apply Hr|apply showing_ret].
Qed.

Lemma showing_progress f chunk : (forall c, showing view (f c)) -> showing view (progressWrite (Some f) chunk).
Proof.
  intros Hf. unfold progressWrite. case_bool_decide; [apply showing_ret|]. apply showing_bind; [apply Hf|]. intros _. apply showing_ret.
Qed.

Lemma At_executeTier2 ses mp req : quiet_request req -> maintains (At ses) (executeTier2 cfg hasGVisor gvisor_RunStreaming mp req).
Proof.
  intros Hr. unfold executeTier2. destruct (negb hasGVisor); [apply maintains_ret|].
  destruct (buildTier2Command _ _); [|apply maintains_ret]. apply maintains_bind; [|intros ?; apply maintains_ret].
  apply At_lift, HStream. unfold quiet_request in Hr. destruct (et_OnProgress req) as [f|]; [|done].
  intros chunk. split.
  - exact (showing_progress (fun c => f c false) chunk (fun c => Hr c false)).
  - exact (showing_progress (fun c => f c true) chunk (fun c => Hr c true)).
Qed.

Lemma Inv_runTool id p mp req s w :
  quiet_request req -> Inv None (s, w) -> sessions s !! id = Some p ->
  Inv None (runTool order cfg hasGVisor Marshal FormatTime LocalBackend gvisor_RunStreaming p mp req (s, w)).2.
Proof.
  intros Hr H Hid. unfold runTool. assert (At (sessions s) (s, w)) as Hat by done.
  rewrite M_bind_eq. pose proof (At_lift (sessions s) Now quiet_Now _ Hat) as H1. destruct (lift Now (s, w)) as [start x1].
  simpl in H1. rewrite M_bind_eq, quiet_preempt. cbn [fst snd]. rewrite M_bind_eq.
  match goal with |- context [?m x1] => assert (At (sessions s) (m x1).2) as H2 end.
  { repeat case_bool_decide; [by apply At_executeTier1|by apply At_executeTier2|done]. }
  destruct (_ x1) as [[resp|e] x2]; simpl in H2; rewrite M_bind_eq, quiet_preempt; cbn [fst snd]; [|apply H2].
  rewrite M_bind_eq. destruct x2 as [s2 w2]. unfold count, smod, modify. cbn [fst snd].
  destruct H2 as [H2 Hs2]. simpl in Hs2. set (s3 := set_metrics _ s2).
  assert (At (sessions s) (s3, w2)) as H3.
  { split; [|done]. by apply (Inv_count None addExecution (s2, w2)). }
  rewrite M_bind_eq. pose proof (At_lift (sessions s) Now quiet_Now _ H3) as H4. destruct (lift Now (s3, w2)) as [now [s4 w4]].
  cbn [fst snd] in *. destruct H4 as [H4 Hs4]. apply Inv_then; [|intros ?; apply maintains_ret].
  apply (Inv_snapshotTool id); [done|]. simpl in Hs4. by rewrite Hs4.
Qed.

Lemma getActiveSession_found id p s (w : W) :
  (getActiveSession id (s, w)).1 = Ok p -> sessions s !! id = Some p /\ (getActiveSession id (s, w)).2 = (s, w).
Proof.
  unfold getActiveSession, getSession, sget, gets. rewrite M_bind_eq. simpl. destruct (sessions s !! id) as [q|]; [|done].
  rewrite M_bind_eq, quiet_preempt, M_bind_eq. simpl. destruct (sheap s !! q); [|done].
  destruct (activeError _); [done|]. by intros [= ->].
Qed.

Lemma Inv_ExecuteTool req :
  quiet_request req -> maintains (Inv None) (ExecuteTool order cfg hasGVisor Marshal FormatTime LocalBackend gvisor_RunStreaming req).
Proof.
  intros Hr [s w] H. unfold ExecuteTool. rewrite M_bind_eq.
  pose proof (getActiveSession_found (et_SessionID req)) as Hf. pose proof (Inv_getActiveSession None (et_SessionID req) _ H) as H1.
  destruct (getActiveSession (et_SessionID req) (s, w)) as [[p|e] x1] eqn:E; [|done].
  destruct (Hf p s w) as [Hid E2]; [by rewrite E|]. rewrite E in E2. simpl in E2. subst x1.
  cbn [fst snd]. rewrite M_bind_eq, quiet_preempt. cbn [fst snd]. rewrite M_bind_eq.
  assert (At (sessions s) (onSession p (Err nilSession) admitTool (s, w)).2) as Ha.
  { split; [by apply Inv_onSession; [apply admitTool_record|]|]. unfold onSession. simpl. destruct (sheap s !! p); [|done]. by destruct (admitTool _). }
  destruct (onSession p (Err nilSession) admitTool (s, w)) as [[mp|e] [s2 w2]]; simpl in Ha; cbn [fst snd]; [|apply Ha].
  destruct Ha as [Ha Hs2]. simpl in Hs2. apply Inv_then.
  - apply (Inv_runTool (et_SessionID req)); [done..|]. by rewrite Hs2.
  - intros r. inv_tac.
Qed.

(** *** Creating and destroying *)

Lemma hexLoop_alnum fuel n acc : allBytes isAlnum acc = true -> allBytes isAlnum (hexLoop fuel n acc) = true.
Proof.
  revert n acc. induction fuel as [|fuel IH]; intros n acc H; [done|]. simpl.
  assert (allBytes isAlnum (hexDigit (n mod 16)%Z +:+ acc) = true) as Ha.
  { rewrite allBytes_app, H, andb_true_r. pose proof (Z.mod_pos_bound n 16 ltac:(lia)) as Hb.
    assert ((n mod 16)%Z ∈ seqZ 0 16) as Hin by (apply elem_of_seqZ; lia). revert Hin. generalize (n mod 16)%Z. apply Forall_forall.
    apply (bool_decide_unpack _). by vm_compute. }
  case_bool_decide; [done|]. by apply IH.
Qed.

Lemma sessionIDOf_flat n : ContainsByte "/" (sessionIDOf n) = false.
Proof.
  unfold sessionIDOf, hex08. rewrite !ContainsByte_app. assert (forall k, ContainsByte "/" (repeatString k "0") = false) as Hz.
  { induction k as [|k IH]; [done|]. change (ContainsByte "/" (String "0" (repeatString k "0")) = false). by rewrite ContainsByte_cons. }
  rewrite Hz. simpl. eapply allBytes_no_byte; [by apply hexLoop_alnum|done].
Qed.

(** A creation in progress: the store mirrors every other session, and the
    dataset has no snapshot yet. *)
Definition Made (id : string) (x : Svc * W) : Prop :=
  exists v, view x.2 v /\ mirror_but cfg (Some id) x.1 v /\ v !! datasetOf cfg id = Some [].

Lemma Made_zcall {A} id (m : M W A) : showing view m -> maintains (Made id) (zcall m).
Proof. intros Hm [s w] (v & Hv & H). rewrite zcall_eq. exists v. split; [by apply Hm|done]. Qed.

Lemma Made_Inv id x : Made id x -> Inv (Some id) x.
Proof. intros (v & Hv & H & _). by exists v. Qed.

Lemma Inv_deleteSession id x : Inv (Some id) x -> Inv None (deleteSession id x).2.
Proof. intros (v & Hv & H). exists v. split; [done|]. by apply mirror_but_delete. Qed.

Lemma Inv_giveUp {A} id e x : Inv (Some id) x -> Inv None (giveUp (A := A) id e x).2.
Proof. intros H. unfold giveUp. apply Inv_then; [by apply Inv_deleteSession|]. intros _. inv_tac. Qed.

(** Destroying the dataset of one session leaves the others alone. *)
Lemma destroy_others id o :
  forall s w v, view w v -> mirror_but cfg (Some id) s v ->
  exists v', view (zfs_DestroyDataset (datasetOf cfg id) o w).2 v' /\ mirror_but cfg (Some id) s v'.
Proof.
  intros s w v Hv Hm. destruct (law_DestroyDataset (datasetOf cfg id) o w v Hv) as (v' & Hspec & Hv'). exists v'. split; [done|].
  destruct (zfs_DestroyDataset (datasetOf cfg id) o w) as [[[]|e] w']; simpl in Hspec; [|by subst v'].
  apply (mirror_but_store _ _ _ v); [done|]. intros id' Hne Hflat _. apply Hspec; [|by apply datasetOf_below].
  intros E%datasetOf_inj. congruence.
Qed.

Lemma Inv_zcall_destroy id o : maintains (Inv (Some id)) (zcall (zfs_DestroyDataset (datasetOf cfg id) o)).
Proof.
  intros [s w] (v & Hv & H). rewrite zcall_eq. destruct (destroy_others id o s w v Hv H) as (v' & Hv' & H'). by exists v'.
Qed.

Lemma Inv_giveUpDataset {A} id e x : Inv (Some id) x -> Inv None (giveUpDataset (A := A) id (datasetOf cfg id) e x).2.
Proof. intros H. unfold giveUpDataset. rewrite M_bind_eq. by apply Inv_giveUp, Inv_zcall_destroy. Qed.

(** What a provision ends with. *)
Definition provisioned (id : string) (r : res serror (string * string)) (x : Svc * W) : Prop :=
  match r with
  | Err _ => Inv None x
  | Ok (dataset, _) => dataset = datasetOf cfg id /\ Made id x
  end.

Lemma giveUp_err {A} id e x : (giveUp (W := W) (A := A) id e x).1 = Err e.
Proof. done. Qed.
Lemma giveUpDataset_err {A} id d e x : (giveUpDataset (W := W) (A := A) id d e x).1 = Err e.
Proof. unfold giveUpDataset. by rewrite M_bind_eq. Qed.

Lemma provisioned_giveUp id e x : Inv (Some id) x -> wp (giveUp id e) (provisioned id) x.
Proof. intros H. unfold wp. rewrite giveUp_err. by apply Inv_giveUp. Qed.
Lemma provisioned_giveUpDataset id e x : Made id x -> wp (giveUpDataset id (datasetOf cfg id) e) (provisioned id) x.
Proof. intros H%Made_Inv. unfold wp. rewrite giveUpDataset_err. by apply Inv_giveUpDataset. Qed.

Lemma wp_provisionZFS id req x :
  Inv (Some id) x -> wp (provisionZFS cfg id req) (provisioned id) x.
Proof.
  intros H. unfold provisionZFS. case_bool_decide; [by apply provisioned_giveUp|]. change (c_SessionsDataset cfg +:+ "/" +:+ id) with (datasetOf cfg id).
  cbv zeta. apply wp_bind. destruct x as [s w], H as (v & Hv & Hm). unfold wp at 1. rewrite zcall_eq. cbn [fst snd].
  destruct (law_CloneFromSnapshot (cs_BaseSnapshot req) (datasetOf cfg id) w v Hv) as (v' & Hspec & Hv').
  destruct (zfs_CloneFromSnapshot _ _ w) as [[[]|e] w']; simpl in Hspec, Hv'; cbn [fst snd].
  2:{ apply provisioned_giveUp. exists v. subst v'. done. }
  destruct Hspec as [Hnone ->]. assert (Made id (s, w')) as HM.
  { eexists. split; [exact Hv'|]. split; [|by rewrite lookup_insert_eq]. apply (mirror_but_store _ _ _ v); [done|].
    intros id' Hne _ _. apply lookup_insert_ne. intros E%datasetOf_inj. congruence. }
  apply wp_bind. apply (wp_mono _ (fun _ x => Made id x)).
  { apply wp_maintains; [|done]. case_bool_decide; [apply Made_zcall, showing_read, law_SetProperty|apply maintains_ret]. }
  intros [[]|e] x HM1; [|by apply provisioned_giveUpDataset]. apply wp_bind. apply (wp_mono _ (fun _ x => Made id x)).
  { apply wp_maintains; [|done]. apply Made_zcall, showing_read, law_GetMountpoint. }
  intros [mp|e] y HM2; [by apply wp_ret|by apply provisioned_giveUpDataset].
Qed.

(** *** The map of sessions alone *)

Definition ids (x : Svc * W) : gmap string nat := sessions x.1.

Lemma ids_lift {A} (m : M W A) : keeps ids (lift m).
Proof. intros [s w]. unfold lift. simpl. by destruct (m w). Qed.
Lemma ids_preempt : keeps ids (preempt (W := W)).
Proof. intros s. by rewrite quiet_preempt. Qed.
Lemma ids_sget {A} (f : Svc -> A) : keeps ids (sget (W := W) f).
Proof. by intros s. Qed.
Lemma ids_smod f : (forall s, sessions (f s) = sessions s) -> keeps ids (smod (W := W) f).
Proof. intros H [s w]. apply H. Qed.
Lemma ids_onSession {A} p (d : A) f : keeps ids (onSession (W := W) p d f).
Proof. intros [s w]. unfold onSession. simpl. destruct (sheap s !! p); [|done]. by destruct (f _). Qed.
Lemma ids_modProcess p f : keeps ids (modProcess (W := W) p f).
Proof. apply ids_smod. intros s. by destruct (pheap s !! p). Qed.
Lemma ids_onProcess {A} p (d : A) f : keeps ids (onProcess (W := W) p d f).
Proof. intros [s w]. unfold onProcess. simpl. destruct (pheap s !! p); [|done]. by destruct (f _). Qed.
Lemma ids_awaitDone n : keeps ids (awaitDone (W := W) n).
Proof. intros s. apply quiet_awaitDone. Qed.
Hint Resolve ids_onProcess ids_lift ids_preempt ids_sget ids_onSession ids_modProcess ids_awaitDone keeps_ret : keeps.

Lemma ids_readSession p : keeps ids (readSession (W := W) p).
Proof. apply ids_sget. Qed.
Lemma ids_readProcess p : keeps ids (readProcess (W := W) p).
Proof. apply ids_sget. Qed.
Lemma ids_modSession p f : keeps ids (modSession (W := W) p f).
Proof. apply ids_onSession. Qed.
Hint Resolve ids_readSession ids_readProcess ids_modSession : keeps.

Lemma ids_kill proc sig : keeps ids (killManagedProcess (W := W) proc sig).
Proof. unfold killManagedProcess, fail. keeps_tac. Qed.
Hint Resolve ids_kill : keeps.
Lemma ids_destroyProcesses p : keeps ids (destroySessionProcesses (W := W) order p).
Proof. unfold destroySessionProcesses, reap. keeps_tac. Qed.
Lemma ids_drainTools p : keeps ids (drainTools (W := W) p).
Proof.
  unfold drainTools. apply keeps_bind; [apply ids_lift|]. intros [n r]. simpl.
  induction n as [|n IH]; simpl; keeps_tac.
Qed.
Hint Resolve ids_destroyProcesses ids_drainTools : keeps.

(** A step that keeps the invariant and the map. *)
Lemma wp_At_bind {A B} ses (m : SM W A) (k : A -> SM W B) Q x :
  maintains (Inv None) m -> keeps ids m -> At ses x -> (forall a y, At ses y -> wp (k a) Q y) -> wp (m ≫= k) Q x.
Proof. intros H1 H2 [Ha Hb] Hk. apply wp_bind, Hk. split; [by apply H1|]. rewrite <- Hb. apply (H2 x). Qed.

Lemma wp_getSession {B} id (k : res serror nat -> SM W B) Q x :
  wp (k (match sessions x.1 !! id with None => Err (SWrap SessionNotFound (": " +:+ id)) | Some p => Ok p end)) Q x ->
  wp (found ← getSession id; k found) Q x.
Proof. intros H. by apply wp_bind. Qed.

(** The end of a destruction: the storage, then the entry. *)
Lemma wp_destroyStorage {B} id p (k : SM W B) x :
  At (sessions x.1) x -> sessions x.1 !! id = Some p -> (forall e, maintains (Inv e) k) ->
  wp (sess ← readSession p;
      (if isZFS cfg then _r ← zcall (zfs_DestroyDataset (from_option s_dataset "" sess) destroyForced); mret ()
       else if bool_decide (c_StorageBackend cfg = StorageBackendLocalDisk)
            then _r ← zcall (RemoveAll (from_option s_mountpoint "" sess)); mret () else mret ());;
      deleteSession id;; k) (fun _ y => Inv None y) x.
Proof.
  destruct x as [s w]. intros [(v & Hv & Hm) _] Hid Hk. simpl in *. destruct (Hm id p Hid) as (sess & Hp & Hok); [done|].
  apply wp_bind. unfold wp at 1. simpl. rewrite Hp. simpl. rewrite (ok_dataset _ _ _ _ Hok).
  apply wp_bind, (wp_mono _ (fun _ y => Inv (Some id) y)).
  - assert (Inv (Some id) (s, w)) as Hi by (exists v; split; [done|]; by apply mirror_but_weaken).
    destruct (isZFS cfg).
    + apply wp_bind. eapply wp_mono; [apply wp_maintains; [apply Inv_zcall_destroy|exact Hi]|]. by intros r y Hy.
    + case_bool_decide; [|done]. apply wp_maintains; [inv_tac|done].
  - intros _ y Hy. apply wp_bind, (wp_maintains (Inv None)); [apply Hk|]. by apply Inv_deleteSession.
Qed.

Lemma Inv_DestroySession id : maintains (Inv None) (DestroySession order cfg id).
Proof.
  intros x H. change (wp (DestroySession order cfg id) (fun _ y => Inv None y) x). unfold DestroySession. apply wp_getSession.
  destruct (sessions x.1 !! id) as [p|] eqn:Hid; [|done].
  assert (At (sessions x.1) x) as Hat by done.
  eapply wp_At_bind; [inv_tac|keeps_tac|exact Hat|]. intros _ x1 H1.
  eapply wp_At_bind; [inv_tac|keeps_tac|exact H1|]. intros _ x2 H2.
  eapply wp_At_bind; [inv_tac|keeps_tac|exact H2|]. intros _ x3 H3.
  eapply wp_At_bind; [inv_tac|keeps_tac|exact H3|]. intros waited x4 H4.
  destruct waited as [[e|]|]; [apply H4|..].
  all: eapply wp_At_bind; [inv_tac|keeps_tac|exact H4|]; intros _ x5 H5.
  all: eapply wp_At_bind; [apply Inv_destroyProcesses|keeps_tac|exact H5|]; intros _ x6 H6.
  all: eapply wp_At_bind; [inv_tac|keeps_tac|exact H6|]; intros _ x7 [H7 E7].
  all: apply wp_destroyStorage; [done|by rewrite E7|]; intros e; inv_tac.
Qed.

Lemma Inv_Shutdown : maintains (Inv None) (Shutdown order cfg hasGVisor).
Proof.
  unfold Shutdown. apply maintains_bind; [apply Inv_sget|]. intros l. apply maintains_bind.
  - apply maintains_for_range. intros i _. apply maintains_bind; [inv_tac|]. intros _.
    apply maintains_bind; [apply Inv_DestroySession|]. intros _. inv_tac.
  - intros _. inv_tac.
Qed.

Lemma reserve_spec id s w :
  Inv None (s, w) -> wp (reserve cfg id) (fun r y => Inv (if is_Ok r then Some id else None) y) (s, w).
Proof.
  intros (v & Hv & Hm). unfold wp, reserve. cbn [fst snd]. destruct (_ && _); [by exists v|].
  destruct (sessions s !! id) as [q|] eqn:Hid; [by exists v|].
  pose proof (mirror_but_store_session cfg W (Some id) s v w (placeholder id)) as Hst.
  destruct (storeSession (placeholder id) (s, w)) as [q [s' w']] eqn:E. unfold storeSession in E. simplify_eq.
  exists v. split; [done|]. simpl. apply Hst; [|by left]. simpl. by apply mirror_but_weaken.
Qed.

Lemma wp_Inv_bind {A B} e (m : SM W A) (k : A -> SM W B) Q x :
  maintains (Inv e) m -> Inv e x -> (forall a y, Inv e y -> wp (k a) Q y) -> wp (m ≫= k) Q x.
Proof. intros Hm Hx Hk. apply wp_bind, Hk. by apply Hm. Qed.

(** A fresh session on a dataset without snapshots. *)
Lemma session_ok_new v id mp now labels :
  ContainsByte "/" id = false -> v !! datasetOf cfg id = Some [] ->
  session_ok cfg v id (mkSession id SessionActive (datasetOf cfg id) mp 0 now labels 0 false [] ∅ 0).
Proof. intros Hf Hv. by split. Qed.

Definition flat_request (req : CreateSessionRequest) : Prop := ContainsByte "/" (cs_SessionID req) = false.

Lemma Inv_CreateSession req : isZFS cfg = true -> flat_request req -> maintains (Inv None) (CreateSession cfg req).
Proof.
  intros Hz Hreq x H. change (wp (CreateSession cfg req) (fun _ y => Inv None y) x). unfold CreateSession. apply wp_bind.
  apply (wp_mono _ (fun id y => ContainsByte "/" id = false /\ Inv None y)).
  { case_bool_decide; [|by apply wp_ret]. split; [apply sessionIDOf_flat|]. by apply (Inv_smod None (set_idCounter (u64 (idCounter x.1 + 1)))). }
  intros id y [Hflat Hy]. eapply wp_Inv_bind; [inv_tac|exact Hy|]. intros _ [s w] Hs. apply wp_bind.
  eapply wp_mono; [by apply reserve_spec|]. intros [[]|e] z Hz0; simpl in Hz0; [|done].
  eapply wp_Inv_bind; [inv_tac|exact Hz0|]. intros _ u Hu. rewrite Hz. apply wp_bind.
  eapply wp_mono; [by apply wp_provisionZFS|]. intros [[d mp]|e] t Ht; [|done]. destruct Ht as [-> HM].
  apply wp_bind. apply (wp_mono _ (fun _ => Made id)).
  { destruct HM as (v & Hv & HM), t as [s1 w1]. unfold wp, lift. simpl. pose proof (quiet_Now w1 v Hv) as Hn. destruct (Now w1). by exists v. }
  intros now [s2 w2] (v & Hv & Hm & Hl). apply wp_bind.
  apply (wp_mono _ (fun _ => Inv None)).
  - exists v. split; [done|]. apply mirror_but_store_session; [done|]. right. by apply session_ok_new.
  - intros q r Hr. apply (wp_maintains (Inv None)); [inv_tac|done].
Qed.

(** ** Any sequence of requests *)

Inductive sandbox_op : Type :=
  | OpCreateSession (req : CreateSessionRequest)
  | OpPauseSession (id : string)
  | OpResumeSession (id : string)
  | OpDestroySession (id : string)
  | OpGetSession (id : string)
  | OpExecuteTool (req : ExecuteToolRequest (W := W))
  | OpTurnComplete (id : string)
  | OpCreateSnapshot (id name : string)
  | OpRollbackSession (id name : string)
  | OpListSnapshots (id : string)
  | OpHealthCheck
  | OpLaunchProcess (req : LaunchProcessRequest)
  | OpKillProcess (req : KillProcessRequest)
  | OpGetProcessStatus (req : GetProcessStatusRequest)
  | OpMonitor
  | OpShutdown.

Definition perform (op : sandbox_op) : SM W () :=
  match op with
  | OpCreateSession req => _r ← CreateSession cfg req; mret ()
  | OpPauseSession id => _r ← PauseSession id; mret ()
  | OpResumeSession id => _r ← ResumeSession id; mret ()
  | OpDestroySession id => _r ← DestroySession order cfg id; mret ()
  | OpGetSession id => _r ← GetSession id; mret ()
  | OpExecuteTool req =>
      _r ← ExecuteTool order cfg hasGVisor Marshal FormatTime LocalBackend gvisor_RunStreaming req; mret ()
  | OpTurnComplete id => _r ← TurnComplete cfg id; mret ()
  | OpCreateSnapshot id name => _r ← CreateSnapshot cfg id name; mret ()
  | OpRollbackSession id name => _r ← RollbackSession cfg id name; mret ()
  | OpListSnapshots id => _r ← ListSnapshots cfg id; mret ()
  | OpHealthCheck => _r ← HealthCheck order cfg started; mret ()
  | OpLaunchProcess req => _r ← LaunchProcess order cfg hasGVisor req; mret ()
  | OpKillProcess req => _r ← KillProcess req; mret ()
  | OpGetProcessStatus req => _r ← GetProcessStatus req; mret ()
  | OpMonitor => runMonitor
  | OpShutdown => _r ← Shutdown order cfg hasGVisor; mret ()
  end.

Definition good_op (op : sandbox_op) : Prop :=
  match op with
  | OpCreateSession req => flat_request req
  | OpExecuteTool req => quiet_request req
  | _ => True
  end.

Lemma Inv_perform op :
  isZFS cfg = true -> (c_MaxSnapshotsPerSession cfg <= 0)%Z -> good_op op -> maintains (Inv None) (perform op).
Proof.
  intros Hz Hmax Hop. destruct op; simpl; try (apply maintains_bind; [|intros ?; apply maintains_ret]).
  - by apply Inv_CreateSession.
  - apply Inv_PauseSession.
  - apply Inv_ResumeSession.
  - apply Inv_DestroySession.
  - apply Inv_GetSession.
  - by apply Inv_ExecuteTool.
  - by apply Inv_TurnComplete.
  - apply Inv_CreateSnapshot.
  - apply Inv_RollbackSession.
  - apply Inv_ListSnapshots.
  - apply Inv_HealthCheck.
  - apply Inv_LaunchProcess.
  - apply Inv_KillProcess.
  - apply Inv_GetProcessStatus.
  - apply Inv_runMonitor.
  - apply Inv_Shutdown.
Qed.

(** C11: the snapshots of sessions are those of their datasets.  Start the
    service on any storage that keeps the contract, with the ZFS backend and
    retention off, and run any sequence of requests one after the other, tools,
    processes, failures of the storage and rollbacks included, where no session
    id asked for has a slash in it.  Then every session of the table owns the
    dataset of its id, the snapshots the service records for it are exactly
    those the dataset has, in order, and its turn snapshots are the ones
    numbered from 1 to its turn count. *)
Theorem snapshots_mirror (ops : list sandbox_op) (w : W) (v : Store)
    (Hzfs : isZFS cfg = true) (Hretention : (c_MaxSnapshotsPerSession cfg <= 0)%Z)
    (Hview : view w v) (Hops : Forall good_op ops) :
  let '(s', w') := (for_range ops perform (initSvc, w)).2 in
  exists v', view w' v' /\
  forall id p, sessions s' !! id = Some p ->
  exists sess, sheap s' !! p = Some sess /\ s_id sess = id /\ s_dataset sess = datasetOf cfg id /\
    v' !! datasetOf cfg id = Some (se_Name <$> s_snapshots sess) /\
    (0 <= s_turnCount sess)%Z /\ se_Name <$> filter isTurn (s_snapshots sess) = turnNames cfg (s_turnCount sess).
Proof.
  assert (Inv None (for_range ops perform (initSvc, w)).2) as H.
  { apply for_range_inv; [|by exists v]. intros op x Hin. apply Inv_perform; [done..|]. by eapply Forall_forall in Hops. }
  destruct (for_range ops perform (initSvc, w)).2 as [s' w']. destruct H as (v' & Hv' & Hm). exists v'. split; [done|].
  intros id p Hp. destruct (Hm id p Hp) as (sess & Hs & [H1 H2 H3 H4 H5 H6]); [done|]. by exists sess.
Qed.
End Sandbox.
