(* ===== verification/SandboxDemo.v ===== *)
(** * SandboxDemo: the sandbox service on the in-memory storage

    A concrete, quiet world for the theorems of [SandboxProps], and runs that
    show what retention does to the numbering of turns. *)

From Stdlib Require Import Ascii String.
From S2P Require Import Prelude AiTypes GoStrings GoText GoPath GoFloat Zfs ZfsMock ZfsMockProps SandboxTypes SandboxProcess Sandbox SandboxExecute SandboxProps.

Local Open Scope string_scope.
Local Open Scope list_scope.
Local Open Scope stdpp_scope.

Definition order : forall A, list (string * A) -> list (string * A) := fun A l => l.
#[local] Instance storage : ZFSManager MockWorld := MockManager_ZFSManager (order _).

#[local] Instance quietEnv : SandboxEnv MockWorld := {
  preempt := mret ();
  Now := ZfsMock.Now;
  patience := mret (0%nat, Deadline);
  MkdirAll _ := mret (Ok ());
  RemoveAll _ := mret (Ok ());
  Environ := mret [];
  cmd_Start _ _ _ _ := mret (Ok (1%nat, 4711%Z));
  cmd_Signal _ _ := mret None;
  Listen := mret (Ok 40001%Z);
  awaitDone _ := mret true;
  cmd_Wait _ := mret (Ok ());
  gvisor_Run _ := mret (Ok None);
  gvisor_Close := mret (Ok ());
}.

Lemma showing_Now : showing mock_view ZfsMock.Now.
Proof. intros w v Hv. unfold ZfsMock.Now. by destruct (clock w). Qed.

#[local] Instance quietSandbox : QuietSandbox MockWorld mock_view.
Proof. split; intros; first [apply showing_Now | by intros ? ? | done]. Qed.

#[local] Instance storageLaw : ZFSLaw MockWorld mock_view.
Proof. by apply MockManager_law. Qed.

Definition config (retain : Z) : ServiceConfig :=
  mkServiceConfig StorageBackendZFS ContainerRuntimeNone "" "pool" "" "pool/sessions" "" 0 0 "turn" retain noResources
    0 (float_of 0) (float_of 0) 0 0 0 false.

Definition backend : string -> ToolRequest -> (string -> bool -> M MockWorld ()) -> M MockWorld (res string ToolResponse) :=
  fun _ _ _ => mret (Ok (mkToolResponse [] "" None)).
Definition container : ContainerOptions -> option ((string -> M MockWorld Z) * (string -> M MockWorld Z)) -> M MockWorld (res string ContainerResult) :=
  fun _ _ => mret (Err "no container").

(** A pool with a base dataset and one snapshot of it. *)
Definition base : MockWorld :=
  (ZfsMock.CreateSnapshot "pool/base" "v1"
    (ZfsMock.CreateDataset "pool/base" (mkDatasetOptions "" ∅ 0) (mkMockWorld NewMockManager (seqZ 1 100))).2).2.

Lemma base_view : mock_view base {["pool/base" := ["v1"]]}.
Proof.
  unfold base. set (w0 := mkMockWorld NewMockManager (seqZ 1 100)).
  destruct (law_CreateDataset "pool/base" (mkDatasetOptions "" ∅ 0) w0 ∅ (mock_view_empty _)) as (v1 & Hs & Hv).
  simpl in Hs, Hv. set (w1 := (ZfsMock.CreateDataset _ _ w0).2) in *.
  assert ((ZfsMock.CreateDataset "pool/base" (mkDatasetOptions "" ∅ 0) w0).1 = Ok ()) as E by by vm_compute. rewrite E in Hs.
  destruct Hs as [_ ->]. destruct (law_CreateSnapshot "pool/base" "v1" w1 _ Hv) as (v2 & Hs & Hv2). simpl in Hs, Hv2.
  assert (is_Ok (ZfsMock.CreateSnapshot "pool/base" "v1" w1).1 = true) as E2 by by vm_compute.
  destruct (ZfsMock.CreateSnapshot "pool/base" "v1" w1) as [[info|e] w2]; [|done]. simpl in *. destruct Hs as (l & Hl & _ & _ & ->).
  rewrite insert_empty, lookup_singleton_eq in Hl. simplify_eq. simpl in Hv2. by rewrite insert_empty, insert_singleton_eq in Hv2.
Qed.

Definition create : sandbox_op (W := MockWorld) := OpCreateSession (mkCreateSessionRequest "pool/base@v1" "s1" 0 ∅).
Definition run (retain : Z) (ops : list (sandbox_op (W := MockWorld))) : Svc * MockWorld :=
  (for_range ops (perform order (config retain) false 0 (fun _ => "") (fun _ => "") backend container) (initSvc, base)).2.

(** The recorded snapshots, the turn count and the stored snapshots of s1. *)
Definition report (x : Svc * MockWorld) : option (list string * Z) * list string :=
  ((fun s => (se_Name <$> s_snapshots s, s_turnCount s)) <$> (sessions x.1 !! "s1" ≫= fun p => sheap x.1 !! p),
   match (ZfsMock.ListSnapshots (order _) "pool/sessions/s1" x.2).1 with Ok l => si_Name <$> l | Err _ => [] end).

Definition day : list (sandbox_op (W := MockWorld)) :=
  [create; OpTurnComplete "s1"; OpCreateSnapshot "s1" "keep"; OpTurnComplete "s1"; OpRollbackSession "s1" "keep"; OpTurnComplete "s1";
   OpExecuteTool (mkExecuteToolRequest "s1" "read_file" "c1" ∅ None None)].

Example day_ex : report (run 0 day) = (Some (["turn-0001"; "keep"; "turn-0002"], 2%Z), ["turn-0001"; "keep"; "turn-0002"]).
Proof. vm_compute. reflexivity. Qed.

Lemma snapshots_mirror_witness :
  exists v', mock_view (run 0 day).2 v' /\
  forall p, sessions (run 0 day).1 !! "s1" = Some p -> exists sess, sheap (run 0 day).1 !! p = Some sess /\
    v' !! "pool/sessions/s1" = Some (se_Name <$> s_snapshots sess).
Proof.
  pose proof (snapshots_mirror mock_view order (config 0) false 0 (fun _ => "") (fun _ => "") backend container
    ltac:(by intros ? ? ? ? ? ?) ltac:(by intros ? ? ? ? ?) day base _ eq_refl (Z.le_refl 0) base_view
    ltac:(by repeat constructor)) as H.
  fold (run 0 day) in H. destruct (run 0 day) as [s' w']. destruct H as (v' & Hv & H). exists v'. split; [exact Hv|].
  intros p Hp. destruct (H "s1" p Hp) as (sess & Hs & _ & _ & Hl & _). exists sess. split; [exact Hs|exact Hl].
Defined.

(** ** Retention and rollback *)

Definition turns (n : nat) : list (sandbox_op (W := MockWorld)) := replicate n (OpTurnComplete "s1").

(** With retention a rollback can stop a session from ever completing a
    turn again.  The count of turns after a rollback is the number of turn
    snapshots still recorded, not the number of the last one: with three
    snapshots kept, five turns and a rollback to the last of them, the next
    turn is numbered 4, whose snapshot exists, and every further
    [TurnComplete] fails and leaves everything as it is. *)
Theorem retention_rollback_stuck :
  let x := run 3 (create :: turns 5 ++ [OpRollbackSession "s1" "turn-0005"]) in
  report x = (Some (["turn-0003"; "turn-0004"; "turn-0005"], 3%Z), ["turn-0003"; "turn-0004"; "turn-0005"]) /\
  forall n, let y := run 3 (create :: turns 5 ++ [OpRollbackSession "s1" "turn-0005"] ++ turns n) in
    y = x /\ is_Ok (TurnComplete (config 3) "s1" y).1 = false.
Proof.
  cbv zeta. set (x := run 3 (create :: turns 5 ++ [OpRollbackSession "s1" "turn-0005"])).
  split; [by vm_compute|].
  assert (TurnComplete (config 3) "s1" x = ((TurnComplete (config 3) "s1" x).1, x)) as E by by vm_compute.
  assert (is_Ok (TurnComplete (config 3) "s1" x).1 = false) as Hfail by by vm_compute.
  intros n. assert (run 3 (create :: turns 5 ++ [OpRollbackSession "s1" "turn-0005"] ++ turns n) = x) as Hy.
  { unfold run. rewrite app_comm_cons, app_assoc, for_range_app. fold (run 3 ((create :: turns 5) ++ [OpRollbackSession "s1" "turn-0005"])).
    change ((create :: turns 5) ++ [OpRollbackSession "s1" "turn-0005"]) with (create :: turns 5 ++ [OpRollbackSession "s1" "turn-0005"]).
    fold x. induction n as [|n IH]; [done|]. simpl. rewrite M_bind_eq. simpl. rewrite M_bind_eq, E. simpl. exact IH. }
  rewrite Hy. by split.
Qed.
