(* ===== verification/SandboxConc.v ===== *)
(** * SandboxConc: sessions and processes under all interleavings

    The critical sections of the sandbox service on one session, in any order:
    tools that run, rollbacks, pauses and the end of a session.  Counters
    of the tools and rollbacks in flight stand beside the session, as the
    goroutines that are between two of their sections.  Then the sections on one
    process, by its launcher, its monitor and whoever kills it. *)

From Stdlib Require Import Ascii String.
From S2P Require Import Prelude AiTypes GoStrings GoText GoPath GoFloat Zfs SandboxTypes SandboxProcess Sandbox SandboxExecute.

Local Open Scope string_scope.
Local Open Scope list_scope.

(** ** One session *)

Section Session.
Context (cfg : ServiceConfig).

Record scfg : Type := mkScfg { sess : Session; tools : nat; rolling : nat }.

Definition on_sess (f : Session -> Session) (c : scfg) : scfg := mkScfg (f (sess c)) (tools c) (rolling c).

(** The critical sections (service.go, snapshot.go, execute.go). *)
Inductive sregion : Type :=
  | SAdmit                        (* ExecuteTool: the tool is let in *)
  | SToolDone                     (* ExecuteTool: the deferred release *)
  | SSnapshotRecorded (name : string)
  | SRollback                     (* RollbackSession: the first section *)
  | SRollbackOk (name : string)
  | SRollbackFailed
  | SPause | SResume | SDestroy
  | STurnRecorded (n : Z) (name : string)
  | SRetire.

(** A tool or a rollback that is not in flight cannot finish. *)
Definition sstep (r : sregion) (c : scfg) : scfg :=
  match r with
  | SAdmit =>
      let '(res, s) := admitTool (sess c) in mkScfg s (if is_Ok res then S (tools c) else tools c) (rolling c)
  | SToolDone =>
      match tools c with O => c | S n => mkScfg (addActiveTools (-1) (sess c)) n (rolling c) end
  | SSnapshotRecorded name => on_sess (recordNamed name) c
  | SRollback =>
      let '(res, s) := rollbackSection (sess c) in mkScfg s (tools c) (if is_Ok res then S (rolling c) else rolling c)
  | SRollbackOk name =>
      match rolling c with O => c | S n => mkScfg (afterRollback name (sess c)) (tools c) n end
  | SRollbackFailed =>
      match rolling c with O => c | S n => mkScfg (set_state SessionFailed (set_rollingBack false (sess c))) (tools c) n end
  | SPause => on_sess (fun s => (pauseSection s).2) c
  | SResume => on_sess (fun s => (resumeSection s).2) c
  | SDestroy => on_sess (set_state SessionDestroying) c
  | STurnRecorded n name => on_sess (recordTurn n name) c
  | SRetire => on_sess (fun s => (retire (c_MaxSnapshotsPerSession cfg) s).2) c
  end.

Definition srun (rs : list sregion) (c : scfg) : scfg := foldl (fun c r => sstep r c) c rs.

(** A session as [CreateSession] leaves it. *)
Definition sinit (id dataset mountpoint : string) (now : Z) (labels : gmap string string) : scfg :=
  mkScfg (mkSession id SessionActive dataset mountpoint 0 now labels 0 false [] ∅ 0) 0 0.

(** No rollback begins while another is in flight. *)
Fixpoint one_rollback (rs : list sregion) (c : scfg) : Prop :=
  match rs with
  | [] => True
  | r :: rs' => (r = SRollback -> rolling c = 0%nat) /\ one_rollback rs' (sstep r c)
  end.

(** The counter of the session counts the tools in flight. *)
Definition counted (c : scfg) : Prop := s_activeTools (sess c) = Z.of_nat (tools c).

(** The flag says whether a rollback is in flight, and no tool is then. *)
Definition exclusive (c : scfg) : Prop :=
  (rolling c <= 1)%nat /\ s_rollingBack (sess c) = bool_decide (0 < rolling c)%nat /\ (0 < rolling c -> tools c = 0)%nat.

Lemma int32_small n : (-2 ^ 31 <= n < 2 ^ 31)%Z -> int32 n = n.
Proof. intros H. unfold int32. rewrite Z.mod_small; lia. Qed.

Definition keeps_gate (f : Session -> Session) : Prop :=
  forall s, s_activeTools (f s) = s_activeTools s /\ s_rollingBack (f s) = s_rollingBack s.

Lemma gate_pause : keeps_gate (fun s => (pauseSection s).2).
Proof. intros s. unfold pauseSection. by case_bool_decide. Qed.
Lemma gate_resume : keeps_gate (fun s => (resumeSection s).2).
Proof. intros s. unfold resumeSection. by case_bool_decide. Qed.
Lemma gate_retire n : keeps_gate (fun s => (retire n s).2).
Proof. intros s. unfold retire. by destruct (_ || _). Qed.
Lemma gate_afterRollback name s :
  s_activeTools (afterRollback name s) = s_activeTools s /\ s_rollingBack (afterRollback name s) = false.
Proof. unfold afterRollback. simpl. by destruct (entriesUpto name (s_snapshots s)). Qed.

Lemma sstep_tools r c : (tools (sstep r c) <= S (tools c))%nat.
Proof.
  destruct r; simpl; try lia.
  - destruct (admitTool (sess c)) as [[]?]; simpl; lia.
  - destruct (tools c) eqn:E; simpl; lia.
  - destruct (rollbackSection (sess c)); simpl; lia.
  - destruct (rolling c); simpl; lia.
  - destruct (rolling c); simpl; lia.
Qed.

Lemma sstep_counted r c : (Z.of_nat (tools c) < 2 ^ 31 - 1)%Z -> counted c -> counted (sstep r c).
Proof.
  intros Hb H. destruct c as [s t k]. unfold counted in *. destruct r; simpl in *; try done.
  - unfold admitTool. case_bool_decide; simpl; [|done]. destruct (s_rollingBack s); simpl; [done|]. rewrite H, int32_small; lia.
  - destruct t as [|n]; simpl; [done|]. rewrite H, int32_small; lia.
  - unfold rollbackSection. case_bool_decide; simpl; [|done]. by case_bool_decide.
  - destruct k; simpl; [done|]. by rewrite (proj1 (gate_afterRollback name s)).
  - by destruct k.
  - by rewrite (proj1 (gate_pause s)).
  - by rewrite (proj1 (gate_resume s)).
  - by rewrite (proj1 (gate_retire _ s)).
Qed.

Lemma sstep_exclusive r c :
  counted c -> (r = SRollback -> rolling c = 0%nat) -> exclusive c -> exclusive (sstep r c).
Proof.
  intros Hc Hone (H0 & H1 & H2). destruct c as [s t k]. unfold exclusive, counted in *. destruct r; simpl in *; try by split_and!.
  - unfold admitTool. destruct (bool_decide (s_state s = SessionActive)); simpl; [|by split_and!]. destruct (s_rollingBack s) eqn:E; simpl; [by rewrite E|].
    symmetry in H1. apply bool_decide_eq_false in H1. rewrite E, bool_decide_eq_false_2 by done. split_and!; [done..|lia].
  - destruct t as [|n]; simpl; [by split_and!|]. split_and!; [done..|lia].
  - specialize (Hone eq_refl). unfold rollbackSection. destruct (bool_decide (s_state s = SessionActive)); simpl; [|by split_and!].
    destruct (bool_decide_reflect (0 < s_activeTools s)%Z) as [Ht|Ht]; simpl; [by split_and!|]. rewrite Hone. split_and!; [lia|done|lia].
  - destruct k as [|n]; simpl in *; [by split_and!|]. rewrite (proj2 (gate_afterRollback name s)).
    assert (n = 0%nat) as -> by lia. split_and!; [lia|done|lia].
  - destruct k as [|n]; simpl in *; [by split_and!|]. assert (n = 0%nat) as -> by lia. split_and!; [lia|done|lia].
  - by rewrite (proj2 (gate_pause s)).
  - by rewrite (proj2 (gate_resume s)).
  - by rewrite (proj2 (gate_retire _ s)).
Qed.

Lemma srun_invariant rs c :
  (Z.of_nat (tools c) + Z.of_nat (length rs) < 2 ^ 31)%Z -> one_rollback rs c -> counted c -> exclusive c ->
  counted (srun rs c) /\ exclusive (srun rs c).
Proof.
  revert c. induction rs as [|r rs IH]; intros c Hb Hone Hc He; [done|]. destruct Hone as [Hr Hone]. simpl in *.
  pose proof (sstep_tools r c). apply IH; [lia|done|apply sstep_counted; [lia|done]|by apply sstep_exclusive].
Qed.

(** C22: no tool runs while a session is rolled back.  In any interleaving of
    fewer than 2^31 critical sections on a session in which callers do not
    start a rollback while another is in flight, the counter of the session is
    the number of tools in flight, the flag [rollingBack] is set exactly while
    a rollback is in flight, and no tool is in flight then. *)
Theorem rollback_exclusion (rs : list sregion) (id dataset mountpoint : string) (now : Z) (labels : gmap string string)
    (Hlen : (Z.of_nat (length rs) < 2 ^ 31)%Z) (Hone : one_rollback rs (sinit id dataset mountpoint now labels)) :
  let c := srun rs (sinit id dataset mountpoint now labels) in
  s_activeTools (sess c) = Z.of_nat (tools c) /\
  s_rollingBack (sess c) = bool_decide (0 < rolling c)%nat /\
  (0 < rolling c -> tools c = 0)%nat.
Proof.
  destruct (srun_invariant rs (sinit id dataset mountpoint now labels)) as [Hc (_ & H1 & H2)]; [simpl; lia|done|done| |by split_and!].
  split_and!; [simpl; lia|done|simpl; lia].
Qed.
End Session.

(** *** Where the sections leave room *)

Module Overlap.
Definition cfg0 : ServiceConfig := mergeDefaultConfig DefaultServiceConfig.
Definition start : scfg := sinit "s" "d" "/d" 0 ∅.

Lemma rollback_exclusion_witness :
  let c := srun cfg0 [SAdmit; SToolDone; SRollback; SAdmit] start in rolling c = 1%nat /\ tools c = 0%nat.
Proof.
  split; [by vm_compute|].
  refine (proj2 (proj2 (rollback_exclusion cfg0 [SAdmit; SToolDone; SRollback; SAdmit] "s" "d" "/d" 0 ∅ _ _)) _);
    [done|by split_and!|by apply bool_decide_unpack with (decide (0 < 1)%nat)].
Defined.

(** Two rollbacks at once let a tool in.  The first rollback to finish
    clears the flag of both, and the next tool runs during the second. *)
Theorem rollback_overlap :
  let c := srun cfg0 [SRollback; SRollback; SRollbackOk "a"; SAdmit] start in
  rolling c = 1%nat /\ tools c = 1%nat /\ s_rollingBack (sess c) = false.
Proof. by vm_compute. Qed.

(** A session can be paused with a tool in flight: [PauseSession] looks at
    the counter before its critical section, which does not look again. *)
Theorem pause_with_tool :
  let c := srun cfg0 [SAdmit] start in let c' := srun cfg0 [SPause] c in
  s_activeTools (sess start) = 0%Z /\ s_state (sess c') = SessionPaused /\ tools c' = 1%nat.
Proof. by vm_compute. Qed.
End Overlap.

(** ** One process *)

Section Process.

(** Where the goroutine that owns the process is: in [LaunchProcess], in the
    monitor before and after it reported the exit, or at its end. *)
Inductive pphase : Type := PLaunching | PStarted | PMonitored | PReported | PAbandoned | POver.

Record pcfg : Type := mkPcfg { proc : ManagedProcess; phase : pphase }.

(** The critical sections of process.go.  Those of the owner take place in its
    phase only; anybody may kill, cancel or close the proxy at any time. *)
Inductive pregion : Type :=
  | PProxy (x : portProxy)               (* LaunchProcess *)
  | PStartDirect (handle : nat) (pid : Z) (* launchDirect *)
  | PStartContainer (opts : ContainerOptions) (* launchInGVisor *)
  | PAbandon                             (* LaunchProcess, when the start failed *)
  | PGo                                  (* the monitor begins *)
  | PRunning                             (* markProcessRunning *)
  | PExited (code now : Z)               (* markProcessExited *)
  | PDone                                (* monitorProcess ends *)
  | PKill (sig : Z)                      (* killManagedProcess *)
  | PCancel
  | PCloseProxy.

Definition on_proc (f : ManagedProcess -> ManagedProcess) (c : pcfg) : pcfg := mkPcfg (f (proc c)) (phase c).

Definition pstep (r : pregion) (c : pcfg) : pcfg :=
  match r, phase c with
  | PProxy x, PLaunching => on_proc (set_proxy (Some x)) c
  | PStartDirect handle pid, PLaunching => mkPcfg (set_started handle pid (proc c)) PStarted
  | PStartContainer opts, PLaunching => mkPcfg (set_container opts (proc c)) PStarted
  | PAbandon, PLaunching => mkPcfg (set_done (proc c)) PAbandoned
  | PGo, PStarted => mkPcfg (proc c) PMonitored
  | PRunning, PMonitored => on_proc set_running c
  | PExited code now, PMonitored => mkPcfg (exit_locked code now (proc c)).2 PReported
  | PDone, PReported => mkPcfg (set_done (proc c)) POver
  | PKill sig, _ => on_proc (fun mp => (kill_locked sig mp).2) c
  | PCancel, _ => on_proc set_canceled c
  | PCloseProxy, _ => on_proc closeProxy c
  | _, _ => c
  end.

Definition prun (rs : list pregion) (c : pcfg) : pcfg := foldl (fun c r => pstep r c) c rs.
Definition pinit (id : string) (now : Z) : pcfg := mkPcfg (newProcess id now) PLaunching.

Definition rank (s : ProcessStatus) : nat :=
  match s with ProcessStatusStarting => 0 | ProcessStatusRunning => 1 | ProcessStatusExited => 2 end.

(** What a process is like where its owner is: status, exit code, closes of [done]. *)
Definition proc_at (ph : pphase) (status : ProcessStatus) (code : option Z) (closes : nat) : Prop :=
  match ph with
  | PLaunching => status = ProcessStatusStarting /\ code = None /\ closes = 0%nat
  | PAbandoned => status = ProcessStatusStarting /\ code = None /\ closes = 1%nat
  | PStarted | PMonitored => status <> ProcessStatusExited /\ code = None /\ closes = 0%nat
  | PReported => status = ProcessStatusExited /\ is_Some code /\ closes = 0%nat
  | POver => status = ProcessStatusExited /\ is_Some code /\ closes = 1%nat
  end.
Definition proc_ok (c : pcfg) : Prop := proc_at (phase c) (mp_status (proc c)) (mp_exitCode (proc c)) (mp_done (proc c)).

Definition same_report (mp mp' : ManagedProcess) : Prop :=
  mp_status mp' = mp_status mp /\ mp_exitCode mp' = mp_exitCode mp /\ mp_done mp' = mp_done mp.

Lemma kill_locked_same sig mp : same_report mp (kill_locked sig mp).2.
Proof. unfold kill_locked. by case_bool_decide. Qed.
Lemma closeProxy_same mp : same_report mp (closeProxy mp).
Proof. unfold closeProxy. by destruct (mp_proxy mp). Qed.

Lemma proc_ok_same c mp : same_report (proc c) mp -> proc_ok c -> proc_ok (mkPcfg mp (phase c)).
Proof. intros (E1 & E2 & E3). unfold proc_ok. simpl. by rewrite E1, E2, E3. Qed.

(** A step keeps the process right, the status never goes back, and a code
    that was reported stays. *)
Definition forward (c c' : pcfg) : Prop :=
  (rank (mp_status (proc c)) <= rank (mp_status (proc c')))%nat /\
  (is_Some (mp_exitCode (proc c)) -> mp_exitCode (proc c') = mp_exitCode (proc c)).

Lemma forward_same c mp : same_report (proc c) mp -> forward c (mkPcfg mp (phase c)).
Proof. intros (E1 & E2 & _). unfold forward. simpl. by rewrite E1, E2. Qed.

Lemma same_step c mp : proc_ok c -> same_report (proc c) mp -> proc_ok (mkPcfg mp (phase c)) /\ forward c (mkPcfg mp (phase c)).
Proof. intros H E. split; [by apply proc_ok_same|by apply forward_same]. Qed.

Lemma pstep_spec r c : proc_ok c -> proc_ok (pstep r c) /\ forward c (pstep r c).
Proof.
  intros H. destruct r as [x|h pid|opts| | | |code now| |sig| |]; simpl.
  9: apply same_step; [done|apply kill_locked_same].
  9: by apply same_step.
  9: apply same_step; [done|apply closeProxy_same].
  all: destruct c as [mp ph]; destruct ph; simpl; try (split; [exact H|by split]); unfold proc_ok, proc_at, forward in *; simpl in *;
    destruct H as (E1 & E2 & E3).
  - rewrite E1, E2. split_and!; [done..|simpl; lia|by intros []].
  - rewrite E1, E2. split_and!; [done..|simpl; lia|by intros []].
  - rewrite E3. split_and!; first [done|lia].
  - unfold set_running. case_bool_decide as Hs; simpl; [|split_and!; first [done|lia]]. rewrite Hs, E2.
    split_and!; [done..|simpl; lia|by intros []].
  - unfold exit_locked. rewrite bool_decide_eq_false_2 by done. simpl. split_and!; [done|by eexists|done| |rewrite E2; by intros []].
    destruct (mp_status mp); simpl; lia.
  - rewrite E3. split_and!; first [done|lia].
Qed.

Lemma forward_trans c1 c2 c3 : forward c1 c2 -> forward c2 c3 -> forward c1 c3.
Proof.
  intros [H1 H2] [H3 H4]. split; [lia|]. intros Hs. rewrite <- (H2 Hs). apply H4. by rewrite (H2 Hs).
Qed.

Lemma prun_spec rs c : proc_ok c -> proc_ok (prun rs c) /\ forward c (prun rs c).
Proof.
  revert c. induction rs as [|r rs IH]; intros c H; [by split; [|split]|]. destruct (pstep_spec r c H) as [H1 F1].
  destruct (IH _ H1) as [H2 F2]. split; [done|]. by eapply forward_trans.
Qed.

(** The life of a process.  However its launcher, its monitor and any
    number of killers, readers and destroyers interleave: the status only goes
    from starting to running to exited, the exit code appears with the exit and
    never changes after, the channel [done] is closed at most once, and when it
    is closed the process either was abandoned before it started or has reported
    its exit. *)
Theorem process_lifecycle (rs1 rs2 : list pregion) (id : string) (now : Z) :
  let p1 := proc (prun rs1 (pinit id now)) in
  let p2 := proc (prun (rs1 ++ rs2) (pinit id now)) in
  (rank (mp_status p1) <= rank (mp_status p2))%nat /\
  (is_Some (mp_exitCode p1) -> mp_exitCode p2 = mp_exitCode p1) /\
  (is_Some (mp_exitCode p1) <-> mp_status p1 = ProcessStatusExited) /\
  (mp_done p1 <= 1)%nat /\
  (mp_done p1 = 1%nat -> mp_status p1 = ProcessStatusStarting \/ mp_status p1 = ProcessStatusExited).
Proof.
  assert (proc_ok (pinit id now)) as H0 by done. destruct (prun_spec rs1 _ H0) as [H1 _].
  destruct (prun_spec rs2 _ H1) as [_ [F1 F2]]. unfold prun in F1, F2 |- *. rewrite foldl_app. fold (prun rs1 (pinit id now)) in *.
  unfold proc_ok in H1. set (p := proc (prun rs1 (pinit id now))) in *. cbv zeta.
  split; [done|]. split; [done|]. revert H1. generalize (phase (prun rs1 (pinit id now))). intros ph H1.
  destruct ph; destruct H1 as (E1 & E2 & E3); (split; [|split; [lia|naive_solver lia]]).
  all: split; [intros Hs|intros Hs]; try done; try (by rewrite E2 in Hs; destruct Hs); by rewrite Hs in E1.
Qed.
End Process.
