(* ===== verification/GoJson.v ===== *)
(** * GoJson: the reading half of encoding/json

    JSON texts as values with their members in order ([Unmarshal] of a text),
    and what decoding a value into a Go type does where the components use it:
    the match of a member name with a field, a value of type [any], a string
    field, a [json.RawMessage] field and a map of raw messages.  A raw message
    is the value its bytes spell.  A number keeps its spelling. *)

From Stdlib Require Import Ascii String.
From S2P Require Import Prelude GoStrings GoText GoFloat AiTypes.

Local Open Scope list_scope.
Local Open Scope string_scope.

Inductive json : Type :=
  | JNull
  | JBool (b : bool)
  | JNumber (literal : string)
  | JString (s : string)
  | JArray (l : list json)
  | JObject (members : list (string * json)).

(** ** Runes *)

Definition byteStr (b : Z) : string := String (ascii_of_nat (Z.to_nat b)) "".
Definition runeError : Z := 65533.

(** utf8.AppendRune for a rune that is not a surrogate. *)
Definition encodeRune (r : Z) : string :=
  if bool_decide (r < 128)%Z then byteStr r
  else if bool_decide (r < 2048)%Z then byteStr (192 + r / 64) ++ byteStr (128 + r mod 64)
  else if bool_decide (r < 65536)%Z then
    byteStr (224 + r / 4096) ++ byteStr (128 + r / 64 mod 64) ++ byteStr (128 + r mod 64)
  else
    byteStr (240 + r / 262144) ++ byteStr (128 + r / 4096 mod 64) ++ byteStr (128 + r / 64 mod 64) ++ byteStr (128 + r mod 64).

(** utf8.DecodeRune: the rune at the head of [c s], or RuneError after one
    byte where the bytes are not valid UTF-8. *)
Definition decodeRune (c : ascii) (s : string) : Z * string :=
  let b := byteOf c in
  let cont (lo hi : Z) (s : string) : option (Z * string) :=
    match s with
    | String d s' => if inRange lo hi d then Some (byteOf d - 128, s')%Z else None
    | EmptyString => None
    end in
  let tail (r : option (Z * string)) : Z * string := default (runeError, s) r in
  if bool_decide (b < 128)%Z then (b, s)
  else if inRange 194 223 c then
    tail ('(x, s1) ← cont 128 191 s; Some ((b - 192) * 64 + x, s1))%Z
  else if inRange 224 239 c then
    tail ('(x, s1) ← cont (if bool_decide (b = 224) then 160 else 128) (if bool_decide (b = 237) then 159 else 191) s;
          '(y, s2) ← cont 128 191 s1; Some (((b - 224) * 64 + x) * 64 + y, s2))%Z
  else if inRange 240 244 c then
    tail ('(x, s1) ← cont (if bool_decide (b = 240) then 144 else 128) (if bool_decide (b = 244) then 143 else 191) s;
          '(y, s2) ← cont 128 191 s1; '(z, s3) ← cont 128 191 s2;
          Some ((((b - 240) * 64 + x) * 64 + y) * 64 + z, s3))%Z
  else (runeError, s).

(** ** The text *)

Definition isSpace (c : ascii) : bool := oneOf (" " ++ String tab (String cr (String newline ""))) c.
Fixpoint skipSpace (s : string) : string :=
  match s with String c s' => if isSpace c then skipSpace s' else s | EmptyString => s end.

(** The four hexadecimal digits of a [\u] escape. *)
Definition getu4 (s : string) : option (Z * string) :=
  match s with
  | String a (String b (String c (String d s'))) =>
      x ← hexValue a; y ← hexValue b; z ← hexValue c; w ← hexValue d;
      Some (((x * 16 + y) * 16 + z) * 16 + w, s')%Z
  | _ => None
  end.

(** utf16.DecodeRune of an escape that is a surrogate and the escape after it. *)
Definition surrogates (hi lo : Z) : option Z :=
  if bool_decide (55296 <= hi < 56320 /\ 56320 <= lo < 57344)%Z
  then Some (65536 + (hi - 55296) * 1024 + (lo - 56320))%Z else None.

(** A string after its opening quote: what it spells, and the rest. *)
Fixpoint stringBody (fuel : nat) (s : string) : option (string * string) :=
  match fuel with
  | O => None
  | S fuel =>
      let emit (out rest : string) : option (string * string) := '(t, rest') ← stringBody fuel rest; Some (out ++ t, rest') in
      match s with
      | EmptyString => None
      | String c s' =>
          if bool_decide (byteOf c = 34)%Z then Some ("", s')
          else if bool_decide (byteOf c = 92)%Z then
            match s' with
            | EmptyString => None
            | String e s'' =>
                if bool_decide (e = "u"%char) then
                  '(r, rest) ← getu4 s'';
                  if bool_decide (55296 <= r < 57344)%Z then
                    let pair : option (Z * string) :=
                      match rest with
                      | String b (String "u" rest') =>
                          if bool_decide (byteOf b = 92)%Z then
                            '(r2, rest2) ← getu4 rest'; full ← surrogates r r2; Some (full, rest2)
                          else None
                      | _ => None
                      end in
                    match pair with
                    | Some (full, rest2) => emit (encodeRune full) rest2
                    | None => emit (encodeRune runeError) rest
                    end
                  else emit (encodeRune r) rest
                else if bool_decide (e = "n"%char) then emit (byteStr 10) s''
                else if bool_decide (e = "t"%char) then emit (byteStr 9) s''
                else if bool_decide (e = "r"%char) then emit (byteStr 13) s''
                else if bool_decide (e = "b"%char) then emit (byteStr 8) s''
                else if bool_decide (e = "f"%char) then emit (byteStr 12) s''
                else if bool_decide (e = "/"%char) || bool_decide (byteOf e = 34 \/ byteOf e = 92)%Z then emit (String e "") s''
                else None
            end
          else if bool_decide (byteOf c < 32)%Z then None
          else let '(r, rest) := decodeRune c s' in emit (encodeRune r) rest
      end
  end.

(** The longest run of digits. *)
Fixpoint spanDigits (s : string) : string * string :=
  match s with
  | String c s' => if isDigit c then let '(d, r) := spanDigits s' in (String c d, r) else ("", s)
  | EmptyString => ("", "")
  end.

(** A number: the literal and the rest, part by part. *)
Definition scanSign (s : string) : string * string :=
  match s with String c t => if bool_decide (c = "-"%char) then ("-", t) else ("", s) | EmptyString => ("", s) end.

Definition scanDigits (s : string) : option (string * string) :=
  match spanDigits s with (EmptyString, _) => None | p => Some p end.

Definition scanInt (s : string) : option (string * string) :=
  match s with String c t => if bool_decide (c = "0"%char) then Some ("0", t) else scanDigits s | EmptyString => None end.

Definition scanFrac (s : string) : option (string * string) :=
  match s with
  | String c t => if bool_decide (c = "."%char) then '(d, r) ← scanDigits t; Some (String c d, r) else Some ("", s)
  | EmptyString => Some ("", s)
  end.

Definition scanExpSign (s : string) : string * string :=
  match s with
  | String c t => if bool_decide (c = "-"%char) || bool_decide (c = "+"%char) then (String c "", t) else ("", s)
  | EmptyString => ("", s)
  end.

Definition scanExp (s : string) : option (string * string) :=
  match s with
  | String e t =>
      if bool_decide (lowerByte e = "e"%char) then
        let '(esign, t) := scanExpSign t in '(d, r) ← scanDigits t; Some (String e (esign ++ d), r)
      else Some ("", s)
  | EmptyString => Some ("", s)
  end.

Definition scanNumber (s : string) : option (string * string) :=
  let '(sign, s) := scanSign s in
  '(int, s) ← scanInt s; '(frac, s) ← scanFrac s; '(exp, s) ← scanExp s;
  Some (sign ++ int ++ frac ++ exp, s).

(** The members of an object and the elements of an array, over the parser of
    a value. *)
Fixpoint parseMembers (parse : string -> option (json * string)) (fuel : nat) (s : string) : option (list (string * json) * string) :=
  match fuel with
  | O => None
  | S fuel =>
      match skipSpace s with
      | String q s1 =>
          if bool_decide (byteOf q = 34)%Z then
            '(k, s2) ← stringBody (S (String.length s1)) s1;
            match skipSpace s2 with
            | String colon s3 =>
                if bool_decide (colon = ":"%char) then
                  '(v, s4) ← parse s3;
                  match skipSpace s4 with
                  | String c s5 =>
                      if bool_decide (c = ","%char) then '(ms, rest) ← parseMembers parse fuel s5; Some ((k, v) :: ms, rest)
                      else if bool_decide (c = "}"%char) then Some ([(k, v)], s5)
                      else None
                  | EmptyString => None
                  end
                else None
            | EmptyString => None
            end
          else None
      | EmptyString => None
      end
  end.

Fixpoint parseElements (parse : string -> option (json * string)) (fuel : nat) (s : string) : option (list json * string) :=
  match fuel with
  | O => None
  | S fuel =>
      '(v, s1) ← parse s;
      match skipSpace s1 with
      | String c s2 =>
          if bool_decide (c = ","%char) then '(vs, rest) ← parseElements parse fuel s2; Some (v :: vs, rest)
          else if bool_decide (c = "]"%char) then Some ([v], s2)
          else None
      | EmptyString => None
      end
  end.

(** A literal or a number. *)
Definition parseWord (t : string) : option (json * string) :=
  match CutPrefix "null" t, CutPrefix "true" t, CutPrefix "false" t with
  | Some rest, _, _ => Some (JNull, rest)
  | _, Some rest, _ => Some (JBool true, rest)
  | _, _, Some rest => Some (JBool false, rest)
  | None, None, None => '(n, rest) ← scanNumber t; Some (JNumber n, rest)
  end.

(** A value; [depth] is the nesting encoding/json still allows. *)
Fixpoint parseValue (depth : nat) (s : string) : option (json * string) :=
  match skipSpace s with
  | EmptyString => None
  | String c s' as t =>
      if bool_decide (c = "{"%char) then
        match depth with
        | O => None
        | S depth =>
            let t := skipSpace s' in
            match t with
            | String d rest =>
                if bool_decide (d = "}"%char) then Some (JObject [], rest)
                else '(ms, rest) ← parseMembers (parseValue depth) (String.length t) t; Some (JObject ms, rest)
            | EmptyString => None
            end
        end
      else if bool_decide (c = "["%char) then
        match depth with
        | O => None
        | S depth =>
            let t := skipSpace s' in
            match t with
            | String d rest =>
                if bool_decide (d = "]"%char) then Some (JArray [], rest)
                else '(vs, rest) ← parseElements (parseValue depth) (String.length t) t; Some (JArray vs, rest)
            | EmptyString => None
            end
        end
      else if bool_decide (byteOf c = 34)%Z then '(v, rest) ← stringBody (S (String.length s')) s'; Some (JString v, rest)
      else parseWord t
  end.

Definition maxNestingDepth : nat := 10000.

(** The value of a whole text; [None] is a syntax error. *)
Definition parse (s : string) : option json :=
  '(v, rest) ← parseValue maxNestingDepth s;
  if bool_decide (skipSpace rest = "") then Some v else None.

(** ** Decoding into Go types *)

(** encoding/json folds the letters of a member name when no field has the
    exact name; two letters outside ASCII fold to K and S. *)
Fixpoint foldName (s : string) : string :=
  match s with
  | String c s' =>
      match s' with
      | String d s'' =>
          if bool_decide (byteOf c = 197 /\ byteOf d = 191)%Z then String "s" (foldName s'')
          else
            match s'' with
            | String e s3 =>
                if bool_decide (byteOf c = 226 /\ byteOf d = 132 /\ byteOf e = 170)%Z then String "k" (foldName s3)
                else String (lowerByte c) (foldName s')
            | EmptyString => String (lowerByte c) (foldName s')
            end
      | EmptyString => String (lowerByte c) ""
      end
  | EmptyString => ""
  end.
Definition matchesField (name key : string) : bool := bool_decide (foldName key = foldName name).

(** The values decoded into the field, in the order of the text. *)
Definition fieldValues (name : string) (ms : list (string * json)) : list json :=
  snd <$> filter (fun kv => matchesField name kv.1 = true) ms.

(** A string field: null leaves it, a value that is no string is an error. *)
Definition stringField (name : string) (ms : list (string * json)) : option string :=
  foldl (fun acc v => s ← acc; match v with JString t => Some t | JNull => Some s | _ => None end) (Some "") (fieldValues name ms).

(** A raw message: the last value, null included; [None] is nil. *)
Definition rawField (name : string) (ms : list (string * json)) : option json := last (fieldValues name ms).

(** A field of type [map[string]json.RawMessage]: the outer [None] is a type
    error, the inner one the nil map.  A second object is merged. *)
Definition rawMapField (name : string) (ms : list (string * json)) : option (option (gmap string json)) :=
  foldl (fun acc v =>
    m ← acc;
    match v with
    | JNull => Some None
    | JObject kvs => Some (Some (foldl (fun m kv => <[kv.1 := kv.2]> m) (default ∅ m) kvs))
    | _ => None
    end) (Some None) (fieldValues name ms).

(** A value of type [any]; [None] is a number out of float64's range. *)
Fixpoint toAny (v : json) : option any :=
  match v with
  | JNull => Some ANil
  | JBool b => Some (ABool b)
  | JNumber n => match ParseFloat n with Ok f => Some (AFloat f) | Err _ => None end
  | JString s => Some (AString s)
  | JArray l =>
      let fix go (l : list json) : option (list any) :=
        match l with [] => Some [] | x :: l' => a ← toAny x; r ← go l'; Some (a :: r) end in
      AArray <$> go l
  | JObject ms =>
      let fix go (ms : list (string * json)) (m : gmap string any) : option (gmap string any) :=
        match ms with [] => Some m | (k, x) :: ms' => a ← toAny x; go ms' (<[k := a]> m) end in
      AMap <$> go ms ∅
  end.

(** The nesting of a value. *)
Fixpoint depth (v : json) : nat :=
  match v with
  | JArray l => S (foldr (fun x n => Nat.max (depth x) n) O l)
  | JObject ms => S (foldr (fun kv n => Nat.max (depth kv.2) n) O ms)
  | _ => O
  end.

Lemma depth_member k v ms : (k, v) ∈ ms -> (depth v < depth (JObject ms))%nat.
Proof.
  simpl. induction ms as [|kv ms IH]; intros Hin; simpl; [by apply elem_of_nil in Hin|].
  apply elem_of_cons in Hin as [<-|Hin]; [simpl; lia|]. specialize (IH Hin). lia.
Qed.

Lemma depth_element v l : v ∈ l -> (depth v < depth (JArray l))%nat.
Proof.
  simpl. induction l as [|x l IH]; intros Hin; simpl; [by apply elem_of_nil in Hin|].
  apply elem_of_cons in Hin as [<-|Hin]; [lia|]. specialize (IH Hin). lia.
Qed.

Lemma rawField_depth name ms v : rawField name ms = Some v -> (depth v < depth (JObject ms))%nat.
Proof.
  unfold rawField, fieldValues. intros H. apply last_Some_elem_of in H.
  apply list_elem_of_fmap in H as ([k x] & -> & H). apply list_elem_of_filter in H as [_ H]. by apply depth_member with k.
Qed.

Lemma rawMapField_depth name ms m k v :
  rawMapField name ms = Some (Some m) -> m !! k = Some v -> (S (depth v) < depth (JObject ms))%nat.
Proof.
  unfold rawMapField. intros Hf. revert m k v Hf.
  enough (forall acc vs (m : gmap string json),
    (forall x, x ∈ vs -> (depth x < depth (JObject ms))%nat) ->
    (forall m' : gmap string json, acc = Some (Some m') -> map_Forall (fun _ v => (S (depth v) < depth (JObject ms))%nat) m') ->
    foldl (fun acc v => m ← acc; match v with JNull => Some None
      | JObject kvs => Some (Some (foldl (fun m kv => <[kv.1 := kv.2]> m) (default ∅ m) kvs)) | _ => None end) acc vs = Some (Some m) ->
    map_Forall (fun _ v => (S (depth v) < depth (JObject ms))%nat) m) as H.
  { intros m k v Hf. refine (H _ _ m _ _ Hf k v); [|done].
    intros x Hx. unfold fieldValues in Hx. apply list_elem_of_fmap in Hx as ([k' x'] & -> & Hx).
    apply list_elem_of_filter in Hx as [_ Hx]. by apply depth_member with k'. }
  intros acc vs. revert acc. induction vs as [|v vs IH]; intros acc m Hvs Hacc; simpl; [intros ->; by apply Hacc|].
  apply IH; [set_solver|]. intros m' Hm'. destruct acc as [m0|]; [|done]. simpl in Hm'.
  destruct v as [| | | |l|kvs]; simplify_eq/=.
  assert (map_Forall (fun _ v => (S (depth v) < depth (JObject ms))%nat) (default ∅ m0)) as H0.
  { destruct m0 as [m0|]; [by apply Hacc|]. apply map_Forall_empty. }
  assert (forall k v, (k, v) ∈ kvs -> (S (depth v) < depth (JObject ms))%nat) as Hk.
  { intros k v Hk. pose proof (depth_member _ _ _ Hk) as H1.
    pose proof (Hvs (JObject kvs) (list_elem_of_here _ _)) as H2. simpl in *. lia. }
  clear -H0 Hk. revert H0 Hk. generalize (default ∅ m0). induction kvs as [|[k v] kvs IH]; intros m1 H1 Hk; simpl; [done|].
  apply IH; [|intros k0 v0 Hk0; apply (Hk k0); set_solver]. apply map_Forall_insert_2; [|done]. apply Hk with k. set_solver.
Qed.

(** Texts of the examples are written with single quotes for double ones. *)
Definition quoted (s : string) : string :=
  mapBytes (fun c => if bool_decide (byteOf c = 39)%Z then ascii_of_nat 34 else c) s.

Example parse_ex :
  parse (quoted " { 'a' : [1, -2.5e3, null , true], '\u00e9\ud83d\ude00\n':'' } ") =
  Some (JObject [("a", JArray [JNumber "1"; JNumber "-2.5e3"; JNull; JBool true]); ("é😀" ++ byteStr 10, JString "")]).
Proof. vm_compute. reflexivity. Qed.

Example parse_errors :
  parse <$> [quoted "{'a':1,}"; "01"; quoted "'\x'"; "[1 2]"; "1 2"; ""; quoted "{'a' 1}"; "nul"; quoted "'a"; "+1"; ".5"] =
  replicate 11 None.
Proof. vm_compute. reflexivity. Qed.
