(* ===== verification/GoJsonText.v ===== *)
(** * GoJsonText: the writing half of encoding/json

    [render] writes a value as json.Marshal does (no spaces, HTML letters and
    line separators escaped, bytes that are not UTF-8 replaced), and
    [parse_render] shows that [GoJson.parse] reads it back.  [FormatFloat] is
    the spelling of a float64. *)

From Stdlib Require Import Ascii String SpecFloat.
From S2P Require Import Prelude GoStrings GoText GoFloat AiTypes GoJson.

Local Open Scope list_scope.
Local Open Scope string_scope.
Local Open Scope Z_scope.

(** ** Strings *)

(** [\u] and four hexadecimal digits. *)
Definition hexChar (d : Z) : string := byteStr (if bool_decide (d < 10) then 48 + d else 87 + d).
Definition unicodeEscape (r : Z) : string :=
  (backslash ++ "u" ++ hexChar (r / 4096) ++ hexChar (r / 256 mod 16) ++ hexChar (r / 16 mod 16) ++ hexChar (r mod 16))%string.

(** appendString on one rune. *)
Definition encodeChar (r : Z) : string :=
  if bool_decide (r = 34 \/ r = 92) then (backslash ++ byteStr r)%string
  else if bool_decide (r = 8) then (backslash ++ "b")%string
  else if bool_decide (r = 9) then (backslash ++ "t")%string
  else if bool_decide (r = 10) then (backslash ++ "n")%string
  else if bool_decide (r = 12) then (backslash ++ "f")%string
  else if bool_decide (r = 13) then (backslash ++ "r")%string
  else if bool_decide (r < 32 \/ r ∈ [38; 60; 62; 8232; 8233]) then unicodeEscape r
  else encodeRune r.

(** A byte that is not UTF-8 is written as the escape of U+FFFD. *)
Definition isInvalid (c : ascii) (r : Z) (s rest : string) : bool := bool_decide (128 <= byteOf c /\ r = runeError /\ rest = s).

Fixpoint encodeString (fuel : nat) (s : string) : string :=
  match fuel, s with
  | S fuel, String c s' =>
      let '(r, rest) := decodeRune c s' in
      ((if isInvalid c r s' rest then unicodeEscape runeError else encodeChar r) ++ encodeString fuel rest)%string
  | _, _ => ""
  end.

(** The string with every byte that is not UTF-8 replaced by U+FFFD. *)
Fixpoint validLoop (fuel : nat) (s : string) : string :=
  match fuel, s with
  | S fuel, String c s' => let '(r, rest) := decodeRune c s' in (encodeRune r ++ validLoop fuel rest)%string
  | _, _ => ""
  end.
Definition ToValidUTF8 (s : string) : string := validLoop (String.length s) s.
Definition quoteJson (s : string) : string := (byteStr 34 ++ encodeString (String.length s) s ++ byteStr 34)%string.

Lemma byteOf_byte b : 0 <= b < 256 -> byteOf (ascii_of_nat (Z.to_nat b)) = b.
Proof. intros H. unfold byteOf. rewrite nat_ascii_embedding; lia. Qed.

Lemma byteOf_range c : 0 <= byteOf c < 256.
Proof. unfold byteOf. pose proof (nat_ascii_bounded c). lia. Qed.

Lemma byteOf_inj c d : byteOf c = byteOf d -> c = d.
Proof. unfold byteOf. intros H. rewrite <- (ascii_nat_embedding c), <- (ascii_nat_embedding d). f_equal. lia. Qed.

Lemma byteStr_byteOf c : byteStr (byteOf c) = String c "".
Proof. unfold byteStr, byteOf. by rewrite Nat2Z.id, ascii_nat_embedding. Qed.

(** A rune that is a Unicode scalar value. *)
Definition scalar (r : Z) : Prop := 0 <= r < 55296 \/ 57344 <= r < 1114112.

(** The four shapes of UTF-8, and a byte that is none. *)
Inductive utf8 (c : ascii) : string -> Z -> Prop :=
  | u1 : byteOf c < 128 -> utf8 c "" (byteOf c)
  | u2 d : 194 <= byteOf c <= 223 -> 128 <= byteOf d <= 191 -> utf8 c (String d "") ((byteOf c - 192) * 64 + (byteOf d - 128))
  | u3 d e : 224 <= byteOf c <= 239 -> (if bool_decide (byteOf c = 224) then 160 else 128) <= byteOf d <= (if bool_decide (byteOf c = 237) then 159 else 191) ->
      128 <= byteOf e <= 191 -> utf8 c (String d (String e "")) (((byteOf c - 224) * 64 + (byteOf d - 128)) * 64 + (byteOf e - 128))
  | u4 d e f : 240 <= byteOf c <= 244 -> (if bool_decide (byteOf c = 240) then 144 else 128) <= byteOf d <= (if bool_decide (byteOf c = 244) then 143 else 191) ->
      128 <= byteOf e <= 191 -> 128 <= byteOf f <= 191 ->
      utf8 c (String d (String e (String f ""))) ((((byteOf c - 240) * 64 + (byteOf d - 128)) * 64 + (byteOf e - 128)) * 64 + (byteOf f - 128)).

Lemma inRange_spec lo hi c : inRange lo hi c = true <-> lo <= byteOf c <= hi.
Proof. unfold inRange. apply bool_decide_eq_true. Qed.

Lemma inRange_false lo hi c : inRange lo hi c = false <-> ~ lo <= byteOf c <= hi.
Proof. unfold inRange. apply bool_decide_eq_false. Qed.

Lemma decodeRune_utf8 c u r t : utf8 c u r -> decodeRune c (u ++ t)%string = (r, t).
Proof.
  intros []; unfold decodeRune; simpl.
  - by rewrite bool_decide_true.
  - rewrite bool_decide_false by lia. by rewrite !(proj2 (inRange_spec _ _ _)).
  - rewrite bool_decide_false by lia. rewrite (proj2 (inRange_false 194 223 c)), (proj2 (inRange_spec 224 239 c)) by lia.
    rewrite (proj2 (inRange_spec _ _ d)) by (repeat case_bool_decide; lia). simpl. by rewrite (proj2 (inRange_spec _ _ e)).
  - rewrite bool_decide_false by lia. rewrite (proj2 (inRange_false 194 223 c)), (proj2 (inRange_false 224 239 c)), (proj2 (inRange_spec 240 244 c)) by lia.
    rewrite (proj2 (inRange_spec _ _ d)) by (repeat case_bool_decide; lia). simpl.
    rewrite (proj2 (inRange_spec _ _ e)) by done. simpl. by rewrite (proj2 (inRange_spec _ _ f)).
Qed.

(** Every step of [decodeRune] reads one of the shapes, or one invalid byte. *)
Lemma decodeRune_step c s r rest : decodeRune c s = (r, rest) ->
  (exists u, s = (u ++ rest)%string /\ utf8 c u r) \/ (128 <= byteOf c /\ r = runeError /\ rest = s).
Proof.
  unfold decodeRune. destruct (bool_decide_reflect (byteOf c < 128)) as [Hc|Hc].
  { intros [= <- <-]. left. exists "". split; [done|by constructor]. }
  destruct (inRange 194 223 c) eqn:E2; [apply inRange_spec in E2|].
  { destruct s as [|d s]; simpl; [intros [= <- <-]; right; split_and!; [lia|done..]|].
    destruct (inRange 128 191 d) eqn:Ed; simpl; [|intros [= <- <-]; right; split_and!; [lia|done..]].
    intros [= <- <-]. left. exists (String d ""). split; [done|]. apply inRange_spec in Ed. by constructor. }
  destruct (inRange 224 239 c) eqn:E3; [apply inRange_spec in E3|].
  { destruct s as [|d s]; simpl; [intros [= <- <-]; right; split_and!; [lia|done..]|].
    destruct (inRange _ _ d) eqn:Ed; simpl; [|intros [= <- <-]; right; split_and!; [lia|done..]].
    destruct s as [|e s]; simpl; [intros [= <- <-]; right; split_and!; [lia|done..]|].
    destruct (inRange 128 191 e) eqn:Ee; simpl; [|intros [= <- <-]; right; split_and!; [lia|done..]].
    intros [= <- <-]. left. exists (String d (String e "")). split; [done|]. apply inRange_spec in Ed, Ee. by constructor. }
  destruct (inRange 240 244 c) eqn:E4; [apply inRange_spec in E4|intros [= <- <-]; right; split_and!; [lia|done..]].
  destruct s as [|d s]; simpl; [intros [= <- <-]; right; split_and!; [lia|done..]|].
  destruct (inRange _ _ d) eqn:Ed; simpl; [|intros [= <- <-]; right; split_and!; [lia|done..]].
  destruct s as [|e s]; simpl; [intros [= <- <-]; right; split_and!; [lia|done..]|].
  destruct (inRange 128 191 e) eqn:Ee; simpl; [|intros [= <- <-]; right; split_and!; [lia|done..]].
  destruct s as [|f s]; simpl; [intros [= <- <-]; right; split_and!; [lia|done..]|].
  destruct (inRange 128 191 f) eqn:Ef; simpl; [|intros [= <- <-]; right; split_and!; [lia|done..]].
  intros [= <- <-]. left. exists (String d (String e (String f ""))). split; [done|]. apply inRange_spec in Ed, Ee, Ef.
  by constructor.
Qed.

Lemma utf8_scalar c u r : utf8 c u r -> scalar r.
Proof. pose proof (byteOf_range c). unfold scalar. intros []; repeat case_bool_decide; lia. Qed.

Lemma utf8_high c u r : utf8 c u r -> 128 <= byteOf c -> 128 <= r.
Proof. intros []; repeat case_bool_decide; lia. Qed.

(** [lia] with quotients and remainders by constants. *)
Ltac divlia := Z.to_euclidean_division_equations; lia.

(** The bytes of a rune are those [encodeRune] writes. *)
Lemma encodeRune_utf8 c u r : utf8 c u r -> encodeRune r = String c u.
Proof.
  pose proof (byteOf_range c) as Hc. intros [H1|d H1 H2|d e H1 H2 H3|d e f H1 H2 H3 H4]; unfold encodeRune.
  - rewrite bool_decide_true by done. apply byteStr_byteOf.
  - set (x := byteOf c) in *. set (y := byteOf d) in *. rewrite bool_decide_false, bool_decide_true by lia.
    replace (192 + ((x - 192) * 64 + (y - 128)) / 64) with x by divlia. replace (128 + ((x - 192) * 64 + (y - 128)) mod 64) with y by divlia.
    unfold x, y. by rewrite !byteStr_byteOf.
  - assert (128 <= byteOf d <= 191) by (repeat case_bool_decide; lia).
    set (x := byteOf c) in *. set (y := byteOf d) in *. set (z := byteOf e) in *.
    rewrite bool_decide_false, bool_decide_false, bool_decide_true by (repeat case_bool_decide; lia).
    replace (224 + (((x - 224) * 64 + (y - 128)) * 64 + (z - 128)) / 4096) with x by divlia.
    replace (128 + (((x - 224) * 64 + (y - 128)) * 64 + (z - 128)) / 64 mod 64) with y by divlia.
    replace (128 + (((x - 224) * 64 + (y - 128)) * 64 + (z - 128)) mod 64) with z by divlia.
    unfold x, y, z. by rewrite !byteStr_byteOf.
  - assert (128 <= byteOf d <= 191) by (repeat case_bool_decide; lia).
    set (x := byteOf c) in *. set (y := byteOf d) in *. set (z := byteOf e) in *. set (w := byteOf f) in *.
    rewrite bool_decide_false, bool_decide_false, bool_decide_false by (repeat case_bool_decide; lia).
    replace (240 + ((((x - 240) * 64 + (y - 128)) * 64 + (z - 128)) * 64 + (w - 128)) / 262144) with x by divlia.
    replace (128 + ((((x - 240) * 64 + (y - 128)) * 64 + (z - 128)) * 64 + (w - 128)) / 4096 mod 64) with y by divlia.
    replace (128 + ((((x - 240) * 64 + (y - 128)) * 64 + (z - 128)) * 64 + (w - 128)) / 64 mod 64) with z by divlia.
    replace (128 + ((((x - 240) * 64 + (y - 128)) * 64 + (z - 128)) * 64 + (w - 128)) mod 64) with w by divlia.
    unfold x, y, z, w. by rewrite !byteStr_byteOf.
Qed.

(** ** Strings are read back *)

Definition emitted (r : Z) (o : option (string * string)) : option (string * string) := '(t, rest) ← o; Some ((encodeRune r ++ t)%string, rest).

(** The runes that are written as [\u] escapes. *)
Definition escapedRunes : list Z := (Z.of_nat <$> seq 0 32) ++ [38; 60; 62; 8232; 8233; runeError].

Lemma stringBody_unicode r fuel t : r ∈ escapedRunes -> stringBody (S fuel) (unicodeEscape r ++ t)%string = emitted r (stringBody fuel t).
Proof.
  intros Hr. assert (Forall (fun r => forall fuel t, stringBody (S fuel) (unicodeEscape r ++ t)%string = emitted r (stringBody fuel t)) escapedRunes) as H.
  { unfold escapedRunes. simpl. repeat (constructor; [intros; reflexivity|]). constructor. }
  rewrite Forall_forall in H. by apply H.
Qed.

Lemma stringBody_plain c u r fuel t : utf8 c u r -> byteOf c <> 34 -> byteOf c <> 92 -> 32 <= byteOf c ->
  stringBody (S fuel) (String c u ++ t)%string = emitted r (stringBody fuel t).
Proof.
  intros Hu H1 H2 H3. change (String c u ++ t)%string with (String c (u ++ t)%string). cbn [stringBody]. rewrite !bool_decide_false by lia. by rewrite (decodeRune_utf8 c u r t Hu).
Qed.

Lemma stringBody_char c u r fuel t : utf8 c u r -> stringBody (S fuel) (encodeChar r ++ t)%string = emitted r (stringBody fuel t).
Proof.
  intros Hu. pose proof (byteOf_range c) as Hc. pose proof (utf8_scalar _ _ _ Hu) as Hs. unfold encodeChar.
  destruct (bool_decide_reflect (r = 34 \/ r = 92)) as [[->| ->]|H1]; [reflexivity..|].
  do 5 (case_bool_decide; [subst r; reflexivity|]).
  destruct (bool_decide_reflect (r < 32 \/ r ∈ [38; 60; 62; 8232; 8233])) as [H7|H7].
  { apply stringBody_unicode. unfold escapedRunes. destruct H7 as [H7|H7]; apply elem_of_app; [left|right; rewrite !elem_of_cons in *; tauto].
    apply list_elem_of_fmap. exists (Z.to_nat r).
    unfold scalar in Hs. split; [lia|]. apply elem_of_seq. lia. }
  rewrite (encodeRune_utf8 c u r Hu). apply stringBody_plain; [done|..].
  all: destruct (decide (byteOf c < 128)) as [Hlt|Hge]; [|lia].
  all: assert (r = byteOf c) as -> by (destruct Hu; done || lia); lia.
Qed.

Lemma length_append (s t : string) : String.length (s ++ t)%string = (String.length s + String.length t)%nat.
Proof. induction s as [|c s IH]; [done|]. change (S (String.length (s ++ t)%string) = (S (String.length s) + String.length t)%nat). by rewrite IH. Qed.

Lemma decodeRune_shorter c s r rest : decodeRune c s = (r, rest) -> (String.length rest <= String.length s)%nat.
Proof. intros H. destruct (decodeRune_step _ _ _ _ H) as [(u & -> & _)|(_ & _ & ->)]; [|done]. rewrite length_append. lia. Qed.

Lemma encodeChar_length r : (0 < String.length (encodeChar r))%nat.
Proof. unfold encodeChar, encodeRune, unicodeEscape. repeat case_bool_decide; simpl; lia. Qed.

Lemma stringBody_encode n s fuel rest :
  (String.length s <= n)%nat -> (String.length (encodeString n s) < fuel)%nat ->
  stringBody fuel (encodeString n s ++ byteStr 34 ++ rest)%string = Some (validLoop n s, rest).
Proof.
  revert s fuel. induction n as [|n IH]; intros [|c s] [|fuel] Hn Hf; simpl in Hn; try lia; try reflexivity.
  cbn [encodeString validLoop] in *. destruct (decodeRune c s) as [r s'] eqn:Hd. pose proof (decodeRune_shorter _ _ _ _ Hd) as Hlen.
  rewrite <- append_assoc_l. cbn [String.length] in Hf. rewrite length_append in Hf.
  set (piece := if isInvalid c r s s' then unicodeEscape runeError else encodeChar r) in *.
  assert (0 < String.length piece)%nat as Hpos by (unfold piece; destruct (isInvalid _ _ _ _); [vm_compute; lia|apply encodeChar_length]).
  assert (forall t, stringBody (S fuel) (piece ++ t)%string = emitted r (stringBody fuel t)) as ->.
  { intros t. unfold piece, isInvalid. case_bool_decide as Hi.
    - destruct Hi as (_ & -> & _). apply stringBody_unicode. apply elem_of_app. right. rewrite !elem_of_cons. tauto.
    - destruct (decodeRune_step _ _ _ _ Hd) as [(u & Hs & Hu)|H]; [|tauto]. by eapply stringBody_char. }
  rewrite IH by lia. done.
Qed.

Lemma stringBody_quote s rest :
  let body := (encodeString (String.length s) s ++ byteStr 34 ++ rest)%string in
  stringBody (S (String.length body)) body = Some (ToValidUTF8 s, rest).
Proof. intros body. apply stringBody_encode; [done|]. unfold body. rewrite length_append. lia. Qed.

(** ASCII text is valid. *)
Lemma validLoop_ascii n s : (String.length s <= n)%nat -> isASCII s = true -> validLoop n s = s.
Proof.
  revert s. induction n as [|n IH]; intros [|c s] Hn Ha; simpl in Hn; try lia; try done.
  cbn [validLoop]. apply andb_true_iff in Ha as [Hc Ha]. apply inRange_spec in Hc.
  assert (utf8 c "" (byteOf c)) as Hu by (constructor; lia). pose proof (decodeRune_utf8 c "" (byteOf c) s Hu) as Hd.
  rewrite append_nil in Hd. rewrite Hd, IH by (done || lia). by rewrite (encodeRune_utf8 c "" _ Hu).
Qed.

Lemma ToValidUTF8_ascii s : isASCII s = true -> ToValidUTF8 s = s.
Proof. by apply validLoop_ascii. Qed.

(** A replacement leaves nothing to replace. *)
Definition validText (s : string) : Prop := ToValidUTF8 s = s.

(** ** Numbers *)

(** What may follow a value. *)
Definition delimited (rest : string) : Prop :=
  match rest with EmptyString => True | String c _ => c ∈ [","; "]"; "}"]%char end.

(** A literal of the grammar of numbers. *)
Definition numberText (lit : string) : Prop := scanNumber lit = Some (lit, "").

Lemma delimited_not rest c t : delimited rest -> rest = String c t -> c ∉ [","; "]"; "}"]%char -> False.
Proof. intros H -> Hc. done. Qed.

Lemma spanDigits_app s rest : delimited rest -> spanDigits (s ++ rest)%string = ((spanDigits s).1, (spanDigits s).2 ++ rest)%string.
Proof.
  intros Hd. induction s as [|c s IH].
  - destruct rest as [|c t]; [done|]. simpl. destruct (isDigit c) eqn:E; [|done].
    simpl in Hd. rewrite !elem_of_cons in Hd. by destruct Hd as [->|[->|[->|Hd]]]; [..|apply elem_of_nil in Hd].
  - change ((String c s ++ rest)%string) with (String c (s ++ rest)). simpl. destruct (isDigit c); [|done]. rewrite IH. by destruct (spanDigits s).
Qed.

(** A scanner that reads the same before any delimiter. *)
Definition local (scan : string -> option (string * string)) : Prop :=
  forall s x r rest, delimited rest -> scan s = Some (x, r) -> scan (s ++ rest)%string = Some (x, r ++ rest)%string.

Lemma scanDigits_local : local scanDigits.
Proof.
  intros s x r rest Hd. unfold scanDigits. rewrite spanDigits_app by done. destruct (spanDigits s) as [[|c d] t]; [done|]. simpl. by intros [= <- <-].
Qed.

Lemma scanInt_local : local scanInt.
Proof.
  intros [|c s] x r rest Hd; [done|]. change ((String c s ++ rest)%string) with (String c (s ++ rest)). simpl. case_bool_decide; [by intros [= <- <-]|].
  apply (scanDigits_local (String c s)), Hd.
Qed.

Lemma scanFrac_local : local scanFrac.
Proof.
  intros [|c s] x r rest Hd.
  - intros [= <- <-]. destruct rest as [|c t]; [done|]. simpl. rewrite bool_decide_false; [done|]. intros ->. simpl in Hd. set_solver.
  - change ((String c s ++ rest)%string) with (String c (s ++ rest)). simpl. case_bool_decide; [|by intros [= <- <-]].
    destruct (scanDigits s) as [[d t]|] eqn:E; [|done]. rewrite (scanDigits_local s d t rest Hd E). simpl. by intros [= <- <-].
Qed.

Lemma scanExp_local : local scanExp.
Proof.
  intros [|c s] x r rest Hd.
  - intros [= <- <-]. destruct rest as [|c t]; [done|]. simpl. rewrite bool_decide_false; [done|].
    simpl in Hd. rewrite !elem_of_cons in Hd. by destruct Hd as [->|[->|[->|Hd]]]; [..|apply elem_of_nil in Hd].
  - change ((String c s ++ rest)%string) with (String c (s ++ rest)). simpl. case_bool_decide; [|by intros [= <- <-]].
    assert (forall sg t, scanExpSign s = (sg, t) -> (exists d t', scanDigits t = Some (d, t')) -> scanExpSign (s ++ rest)%string = (sg, (t ++ rest)%string)) as Hs.
    { intros sg t. destruct s as [|e s]; [intros [= <- <-] (d & t' & [=])|]. change ((String e s ++ rest)%string) with (String e (s ++ rest)).
      simpl. destruct (_ || _); by intros [= <- <-]. }
    destruct (scanExpSign s) as [sg t] eqn:Esg. destruct (scanDigits t) as [[d t']|] eqn:E; [|done].
    rewrite (Hs sg t eq_refl) by eauto. rewrite (scanDigits_local t d t' rest Hd E). simpl. by intros [= <- <-].
Qed.

Lemma scanNumber_local : local scanNumber.
Proof.
  intros s x r rest Hd. unfold scanNumber.
  assert (forall sg t, scanSign s = (sg, t) -> t <> "" -> scanSign (s ++ rest)%string = (sg, (t ++ rest)%string)) as Hs.
  { intros sg t. destruct s as [|c s]; [by intros [= <- <-]|]. change ((String c s ++ rest)%string) with (String c (s ++ rest)).
    simpl. case_bool_decide; by intros [= <- <-]. }
  destruct (scanSign s) as [sg t] eqn:Esg. destruct (scanInt t) as [[i s1]|] eqn:Ei; [|done]. simpl.
  rewrite (Hs sg t eq_refl) by (by intros ->). rewrite (scanInt_local t i s1 rest Hd Ei). simpl.
  destruct (scanFrac s1) as [[f s2]|] eqn:Ef; [|done]. rewrite (scanFrac_local s1 f s2 rest Hd Ef). simpl.
  destruct (scanExp s2) as [[e s3]|] eqn:Ee; [|done]. rewrite (scanExp_local s2 e s3 rest Hd Ee). simpl. by intros [= <- <-].
Qed.

(** ** Values *)

Definition quoteMember (kv : string * string) : string := (quoteJson kv.1 ++ ":" ++ kv.2)%string.

Fixpoint render (v : json) : string :=
  match v with
  | JNull => "null"
  | JBool b => if b then "true" else "false"
  | JNumber lit => lit
  | JString s => quoteJson s
  | JArray l => ("[" ++ Join (map render l) "," ++ "]")%string
  | JObject ms => ("{" ++ Join (map (fun '(k, v) => quoteMember (k, render v)) ms) "," ++ "}")%string
  end.

(** The value with its strings made valid, which is what a reader gets. *)
Fixpoint validJson (v : json) : json :=
  match v with
  | JString s => JString (ToValidUTF8 s)
  | JArray l => JArray (map validJson l)
  | JObject ms => JObject (map (fun '(k, v) => (ToValidUTF8 k, validJson v)) ms)
  | _ => v
  end.

Fixpoint numbersOk (v : json) : Prop :=
  match v with
  | JNumber lit => numberText lit
  | JArray l => Forall (fun p => p) (map numbersOk l)
  | JObject ms => Forall (fun p => p) (map (fun '(_, v) => numbersOk v) ms)
  | _ => True
  end.

Lemma json_ind2 (Q : json -> Prop) :
  Q JNull -> (forall b, Q (JBool b)) -> (forall lit, Q (JNumber lit)) -> (forall s, Q (JString s)) ->
  (forall l, Forall Q l -> Q (JArray l)) -> (forall ms, Forall (fun kv => Q kv.2) ms -> Q (JObject ms)) -> forall v, Q v.
Proof.
  intros H1 H2 H3 H4 H5 H6. fix IH 1. intros [|b|lit|s|l|ms]; [done|apply H2|apply H3|apply H4|apply H5|apply H6].
  - induction l as [|x l IHl]; constructor; [apply IH|done].
  - induction ms as [|[k x] ms IHl]; constructor; [apply IH|done].
Qed.

(** The first byte of a value is neither white space nor a delimiter. *)
Definition starter (c : ascii) : Prop := c ∈ ["n"; "t"; "f"; "["; "{"; "-"]%char \/ isDigit c = true \/ byteOf c = 34.

Lemma starter_not c : starter c -> isSpace c = false /\ c ∉ [","; "]"; "}"; ":"]%char.
Proof.
  intros [H|[H|H]].
  - rewrite !elem_of_cons in H. destruct H as [->|[->|[->|[->|[->|[->|H]]]]]]; [split; [reflexivity|set_solver]..|by apply elem_of_nil in H].
  - revert H. assert (forall c, isDigit c = true -> isSpace c = false /\ bool_decide (c ∉ [","; "]"; "}"; ":"]%char) = true) as Hall.
    { intros [[] [] [] [] [] [] [] []]; vm_compute; done. }
    intros H. destruct (Hall c H) as [H1 H2]. split; [done|]. by apply bool_decide_eq_true in H2.
  - assert (c = ascii_of_nat 34) as -> by (apply byteOf_inj; by rewrite H). split; [reflexivity|set_solver].
Qed.

Lemma numberText_head lit : numberText lit -> exists c t, lit = String c t /\ (c = "-"%char \/ isDigit c = true).
Proof.
  unfold numberText, scanNumber. destruct lit as [|c t]; [done|]. simpl. case_bool_decide as Hc; [exists c, t; by auto|]. simpl.
  case_bool_decide as H0; [subst; exists "0"%char, t; by auto|]. unfold scanDigits. simpl. destruct (isDigit c) eqn:E; [exists c, t; by auto|done].
Qed.

Lemma render_head v : numbersOk v -> exists c t, render v = String c t /\ starter c.
Proof.
  destruct v as [|[]|lit|s|l|ms]; simpl; intros H; try (eexists _, _; split; [reflexivity|left; set_solver]).
  - destruct (numberText_head lit H) as (c & t & -> & Hc). exists c, t. split; [done|]. destruct Hc as [->|Hc]; [left; set_solver|by right; left].
  - eexists _, _. split; [reflexivity|]. right. right. reflexivity.
Qed.

Lemma skipSpace_starter c t : starter c -> skipSpace (String c t) = String c t.
Proof. intros H. simpl. by rewrite (proj1 (starter_not c H)). Qed.

Lemma parseValue_number d lit rest : numberText lit -> delimited rest -> parseValue d (lit ++ rest)%string = Some (JNumber lit, rest).
Proof.
  intros Hl Hd. destruct (numberText_head lit Hl) as (c & t & -> & Hc).
  assert (starter c) as Hst by (destruct Hc as [->|Hc]; [left; set_solver|by right; left]).
  pose proof (scanNumber_local _ _ _ rest Hd Hl) as Hn. change ((String c t ++ rest)%string) with (String c (t ++ rest)) in *.
  assert (forall x : ascii, isDigit x = false -> x <> "-"%char -> c <> x) as Hne by (intros x H1 H2 ->; destruct Hc; congruence).
  assert (parseWord (String c (t ++ rest)) = Some (JNumber (String c t), rest)) as Hw.
  { unfold parseWord. cbn [CutPrefix]. rewrite !bool_decide_false; [by rewrite Hn|..]; apply not_eq_sym || idtac; by apply Hne. }
  assert (byteOf c <> 34) as H34 by (destruct Hc as [->|Hc]; [done|]; unfold isDigit in Hc; apply inRange_spec in Hc; lia).
  destruct d as [|d]; unfold parseValue; fold parseValue; rewrite (skipSpace_starter c _ Hst);
    rewrite (bool_decide_false (c = "{"%char)), (bool_decide_false (c = "["%char)), (bool_decide_false (byteOf c = 34)) by (done || by apply Hne); exact Hw.
Qed.

(** [parse] reads back a rendered value before any delimiter. *)
Definition reads (d : nat) (v : json) : Prop :=
  forall rest, delimited rest -> parseValue d (render v ++ rest)%string = Some (validJson v, rest).

Lemma append_cons_r (c : ascii) (s t : string) : (String c s ++ t)%string = String c (s ++ t)%string.
Proof. done. Qed.

Lemma Join_cons2 x y l sep : Join (x :: y :: l) sep = (x ++ sep ++ Join (y :: l) sep)%string.
Proof. done. Qed.

Lemma parseElements_render d l rest fuel :
  l <> [] -> (length l <= fuel)%nat -> Forall (reads d) l ->
  parseElements (parseValue d) fuel (Join (map render l) "," ++ "]" ++ rest)%string = Some (map validJson l, rest).
Proof.
  revert fuel. induction l as [|x l IH]; intros fuel Hne Hf Hl; [done|]. destruct fuel as [|fuel]; simpl in Hf; [lia|].
  apply Forall_cons in Hl as [Hx Hl]. cbn [parseElements]. destruct l as [|y l].
  - cbn [map Join]. rewrite (Hx ("]" ++ rest)%string) by (simpl; set_solver). reflexivity.
  - change (map render (x :: y :: l)) with (render x :: render y :: map render l). rewrite Join_cons2, <- !append_assoc_l.
    rewrite (Hx ("," ++ _)%string) by (simpl; set_solver). cbn [mbind option_bind].
    change (skipSpace ("," ++ Join (render y :: map render l) "," ++ "]" ++ rest)%string) with
      (String ","%char (Join (map render (y :: l)) "," ++ "]" ++ rest)%string). cbn [mbind option_bind].
    rewrite bool_decide_true by done. rewrite IH; [done|done|simpl in *; lia|done].
Qed.

Lemma parseMembers_render d ms rest fuel :
  ms <> [] -> (length ms <= fuel)%nat -> Forall (fun kv => reads d kv.2) ms -> Forall (fun kv => numbersOk kv.2) ms ->
  parseMembers (parseValue d) fuel (Join (map (fun '(k, v) => quoteMember (k, render v)) ms) "," ++ "}" ++ rest)%string =
  Some (map (fun '(k, v) => (ToValidUTF8 k, validJson v)) ms, rest).
Proof.
  revert fuel. induction ms as [|[k v] ms IH]; intros fuel Hne Hf Hl Hn; [done|]. destruct fuel as [|fuel]; simpl in Hf; [lia|].
  apply Forall_cons in Hl as [Hx Hl]. apply Forall_cons in Hn as [Hnx Hn]. simpl in Hx, Hnx.
  assert (forall tail, parseMembers (parseValue d) (S fuel) (quoteMember (k, render v) ++ tail)%string =
    '(v', s4) ← parseValue d (render v ++ tail)%string;
    match skipSpace s4 with
    | String c s5 =>
        if bool_decide (c = ","%char) then '(ms, rest) ← parseMembers (parseValue d) fuel s5; Some ((ToValidUTF8 k, v') :: ms, rest)
        else if bool_decide (c = "}"%char) then Some ([(ToValidUTF8 k, v')], s5) else None
    | EmptyString => None
    end) as Hstep.
  { intros tail. unfold quoteMember, quoteJson. cbn [fst snd]. rewrite <- !append_assoc_l.
    set (body := (encodeString (String.length k) k ++ byteStr 34 ++ ":" ++ render v ++ tail)%string).
    change (byteStr 34 ++ body)%string with (String (ascii_of_nat 34) body). cbn [parseMembers].
    change (skipSpace (String (ascii_of_nat 34) body)) with (String (ascii_of_nat 34) body). cbn iota.
    rewrite bool_decide_true by done. unfold body at 2. rewrite stringBody_encode; [|done|unfold body; rewrite length_append; lia].
    reflexivity. }
  destruct ms as [|[k2 v2] ms].
  - cbn [map Join]. rewrite Hstep. rewrite (Hx ("}" ++ rest)%string) by (simpl; set_solver). reflexivity.
  - cbn [map]. rewrite Join_cons2, <- !append_assoc_l. rewrite Hstep. rewrite (Hx ("," ++ _)%string) by (simpl; set_solver).
    cbn [mbind option_bind]. cbn [map] in IH.
    change (skipSpace ("," ++ ?x)%string) with (String ","%char x).
    cbn iota. rewrite bool_decide_true by done. rewrite IH; [done|done|simpl in *; lia|done..].
Qed.

Lemma Join_length (l : list string) sep : Forall (fun s => s <> "") l -> (length l <= String.length (Join l sep))%nat.
Proof.
  induction 1 as [|x l Hx _ IH]; [simpl; lia|]. destruct l as [|y l]; [destruct x; simpl; [done|lia]|].
  rewrite Join_cons2, !length_append. destruct x; [done|]. simpl in *. lia.
Qed.

Lemma Join_head (x : string) l sep c t : x = String c t -> exists t', Join (x :: l) sep = String c t'.
Proof. intros ->. destruct l; simpl; by eexists. Qed.

Lemma parseValue_open_array d s : parseValue (S d) (String "[" s) =
  match skipSpace s with
  | String e rest =>
      if bool_decide (e = "]"%char) then Some (JArray [], rest)
      else '(vs, rest) ← parseElements (parseValue d) (String.length (skipSpace s)) (skipSpace s); Some (JArray vs, rest)
  | EmptyString => None
  end.
Proof. reflexivity. Qed.

Lemma parseValue_open_object d s : parseValue (S d) (String "{" s) =
  match skipSpace s with
  | String e rest =>
      if bool_decide (e = "}"%char) then Some (JObject [], rest)
      else '(ms, rest) ← parseMembers (parseValue d) (String.length (skipSpace s)) (skipSpace s); Some (JObject ms, rest)
  | EmptyString => None
  end.
Proof. reflexivity. Qed.

(** A rendered value is read back before any delimiter. *)
Lemma reads_render v d : numbersOk v -> (depth v <= d)%nat -> reads d v.
Proof.
  revert d. induction v as [|b|lit|s|l IH|ms IH] using json_ind2; intros d Hn Hd rest Hrest.
  - destruct d; reflexivity.
  - destruct b, d; reflexivity.
  - by apply parseValue_number.
  - simpl. unfold quoteJson. rewrite <- !append_assoc_l.
    set (body := (encodeString (String.length s) s ++ byteStr 34 ++ rest)%string).
    assert (parseValue d (String (ascii_of_nat 34) body) = '(v, rest) ← stringBody (S (String.length body)) body; Some (JString v, rest)) as E
      by (destruct d; reflexivity).
    change (byteStr 34 ++ body)%string with (String (ascii_of_nat 34) body). rewrite E. unfold body. by rewrite stringBody_quote.
  - destruct d as [|d]; [simpl in Hd; lia|]. cbn [render]. rewrite <- !append_assoc_l.
    change ("[" ++ ?x)%string with (String "[" x). rewrite parseValue_open_array.
    simpl in Hn. rewrite Forall_map in Hn. unfold compose in Hn.
    destruct l as [|x l]; [reflexivity|]. set (t := (Join (map render (x :: l)) "," ++ "]" ++ rest)%string).
    destruct (render_head x) as (c & u & Hx & Hc); [by apply Forall_cons in Hn as [? _]|].
    destruct (Join_head (render x) (map render l) "," c u Hx) as [u' Hu].
    assert (t = String c (u' ++ "]" ++ rest)) as Ht by (unfold t; cbn [map]; by rewrite Hu).
    rewrite Ht, skipSpace_starter by done. cbn iota. rewrite bool_decide_false by (intros ->; by destruct (starter_not _ Hc) as [_ []]; set_solver).
    rewrite <- Ht. unfold t at 2. rewrite parseElements_render; [reflexivity|done| |].
    + unfold t. rewrite length_append. transitivity (length (map render (x :: l))); [by rewrite length_map|].
      pose proof (Join_length (map render (x :: l)) ",") as HJ. etransitivity; [apply HJ|lia].
      apply Forall_map. eapply Forall_impl; [exact Hn|]. intros y Hy. destruct (render_head y Hy) as (c' & u2 & -> & _). done.
    + rewrite Forall_forall in IH, Hn |- *. intros y Hy. apply IH; [done|by apply Hn|].
      apply (depth_element y (x :: l)) in Hy. lia.
  - destruct d as [|d]; [simpl in Hd; lia|]. cbn [render]. rewrite <- !append_assoc_l.
    change ("{" ++ ?x)%string with (String "{" x). rewrite parseValue_open_object.
    assert (Forall (fun kv => numbersOk kv.2) ms) as Hn'.
    { simpl in Hn. rewrite Forall_map in Hn. eapply Forall_impl; [exact Hn|]. by intros [k v]. }
    destruct ms as [|[k v] ms]; [reflexivity|]. set (members := map (fun '(k, v) => quoteMember (k, render v)) ((k, v) :: ms)).
    set (t := (Join members "," ++ "}" ++ rest)%string).
    destruct (Join_head (quoteMember (k, render v)) (map (fun '(k, v) => quoteMember (k, render v)) ms) "," (ascii_of_nat 34) _ eq_refl) as [u' Hu].
    assert (t = String (ascii_of_nat 34) (u' ++ "}" ++ rest)) as Ht by (unfold t, members; cbn [map]; by rewrite Hu).
    rewrite Ht, skipSpace_starter by (by right; right). cbn iota. rewrite bool_decide_false by done.
    rewrite <- Ht. unfold t at 2, members. rewrite parseMembers_render; [reflexivity|done| | |done].
    + unfold t. rewrite length_append. transitivity (length members); [by unfold members; rewrite length_map|].
      pose proof (Join_length members ",") as HJ. etransitivity; [apply HJ|lia].
      apply Forall_map, Forall_true. by intros [].
    + rewrite Forall_forall in IH, Hn' |- *. intros [k' y] Hy. apply (IH (k', y)); [done|by apply (Hn' (k', y))|].
      apply depth_member in Hy. simpl in *. lia.
Qed.

(** json.Unmarshal reads what json.Marshal writes, with every byte that is not
    UTF-8 replaced. *)
Lemma parse_render v : numbersOk v -> (depth v <= maxNestingDepth)%nat -> parse (render v) = Some (validJson v).
Proof.
  intros Hn Hd. unfold parse. pose proof (reads_render v maxNestingDepth Hn Hd "" I) as H.
  rewrite append_nil_r in H. rewrite H. reflexivity.
Qed.

(** ** Numbers of Go values *)

Lemma spanDigits_digits s : allBytes isDigit s = true -> spanDigits s = (s, "").
Proof. induction s as [|c s IH]; simpl; [done|]. intros [Hc Hs]%andb_true_iff. by rewrite Hc, IH. Qed.

(** The digits of an integer. *)
Definition FormatInt (n : Z) : string := pretty n.

(** strconv.FormatFloat as encoding/json calls it: the shortest decimal that
    reads back as the same float64, in the 'f' form between 1e-6 and 1e21 and in
    the 'e' form outside.  [digits n N D] are the first n decimal digits of N/D,
    rounded to nearest even, and the exponent of the first. *)
Definition roundDiv (n d : Z) : Z :=
  let '(q, r) := (n / d, n mod d) in
  if bool_decide (2 * r < d) then q else if bool_decide (d < 2 * r) then q + 1 else if Z.even q then q else q + 1.

Fixpoint exponentUp (fuel : nat) (k N D : Z) : Z :=
  match fuel with O => k | S fuel => if bool_decide (10 * D <= N) then exponentUp fuel (k + 1) N (10 * D) else k end.
Fixpoint exponentDown (fuel : nat) (k N D : Z) : Z :=
  match fuel with O => k | S fuel => if bool_decide (N < D) then exponentDown fuel (k - 1) (10 * N) D else k end.
Definition exponent10 (N D : Z) : Z := if bool_decide (D <= N) then exponentUp 400 0 N D else exponentDown 400 0 N D.

Definition digits (n : nat) (N D : Z) : Z * Z :=
  let k := exponent10 N D in
  let s := Z.of_nat n - 1 - k in
  let q := if bool_decide (0 <= s) then roundDiv (N * 10 ^ s) D else roundDiv N (D * 10 ^ (- s)) in
  if bool_decide (q = 10 ^ Z.of_nat n) then (10 ^ (Z.of_nat n - 1), k + 1) else (q, k).

Fixpoint zeros (n : nat) : string := match n with O => "" | S n => String "0" (zeros n) end.

(** The text of the digits [q], the first of which has exponent [k]. *)
Definition layoutE (q k : Z) : string :=
  let ds := pretty q in
  let mant := match ds with String c "" => ds | String c t => (String c "" ++ "." ++ t)%string | EmptyString => "" end in
  (mant ++ "e" ++ (if bool_decide (k < 0) then "-" else "+") ++ (if bool_decide (Z.abs k < 10 /\ 0 <= k) then "0" else "") ++ pretty (Z.abs k))%string.
Definition layoutF (q k : Z) : string :=
  let ds := pretty q in
  let len := Z.of_nat (String.length ds) in
  if bool_decide (k < 0) then ("0." ++ zeros (Z.to_nat (- k - 1)) ++ ds)%string
  else if bool_decide (len <= k + 1) then (ds ++ zeros (Z.to_nat (k + 1 - len)))%string
  else (String.substring 0 (Z.to_nat (k + 1)) ds ++ "." ++ String.substring (Z.to_nat (k + 1)) (String.length ds) ds)%string.

Definition signText (neg : bool) : string := if neg then "-" else "".

(** The first spelling of up to 17 digits that reads back. *)
Fixpoint shortest (fuel n : nat) (x : float64) (N D : Z) (neg : bool) : string :=
  let '(q, k) := digits n N D in
  let text := (signText neg ++ (if bool_decide (-7 < k < 21) then layoutF q k else layoutE q k))%string in
  match fuel with
  | O => text
  | S fuel => if bool_decide (ParseFloat text = Ok x) then text else shortest fuel (S n) x N D neg
  end.

(** [None] is the error of json.Marshal for infinities and NaN. *)
Definition FormatFloat (x : float64) : option string :=
  match x with
  | S754_zero neg => Some (signText neg ++ "0")%string
  | S754_finite neg m e =>
      let '(N, D) := if bool_decide (0 <= e) then (Zpos m * 2 ^ e, 1) else (Zpos m, 2 ^ (- e)) in
      Some (shortest 16 1 x N D neg)
  | _ => None
  end.

Example FormatFloat_ex :
  FormatFloat <$> [literal 1 10; float_of (-125); literal 1 3; float_of (10 ^ 21); literal 1 10000000; float_of 0; float_of 123456789; S754_nan; literal 3 2] =
  [Some "0.1"; Some "-125"; Some "0.3333333333333333"; Some "1e+21"; Some "1e-7"; Some "0"; Some "123456789"; None; Some "1.5"].
Proof. vm_compute. reflexivity. Qed.
