(* ===== verification/Coerce.v ===== *)
(** * Coerce: argument coercion and validation

    internal/ai/coerce.go and validation.go.  Models sometimes spell a number or
    a boolean of a tool's arguments as a string; [CoerceTypes] reads such
    strings at the type the tool's JSON Schema gives the property, before the
    schema library validates the arguments. *)

From Stdlib Require Import Ascii String SpecFloat.
From S2P Require Import Prelude GoStrings GoText GoFloat AiTypes GoJson.

Local Open Scope list_scope.
Local Open Scope string_scope.

(** ** coerce.go *)

(** [propInfo]; a nil raw message is [None]. *)
Record propInfo : Type := mkPropInfo {
  pi_typ : string;
  pi_subSchema : option json;
  pi_itemSchema : option json;
}.

(** The type and the item schema of one property; [None] where decoding the
    property fails, and the loop skips it. *)
Definition propOf (raw : json) : option propInfo :=
  match raw with
  | JObject ms => typ ← stringField "type" ms; Some (mkPropInfo typ (Some raw) (rawField "items" ms))
  | JNull => Some (mkPropInfo "" (Some raw) None)
  | _ => None
  end.

(** [extractProps]; [None] is the nil map. *)
Definition extractProps (schema : json) : option (gmap string propInfo) :=
  match schema with
  | JObject ms => match rawMapField "properties" ms with Some (Some props) => Some (omap propOf props) | _ => None end
  | _ => None
  end.

Definition coerceToInteger (val : any) : any :=
  match val with
  | AString s => match ParseInt s with Ok i => AInt i | Err _ => val end
  | _ => val
  end.

Definition coerceToNumber (val : any) : any :=
  match val with
  | AString s => match ParseFloat s with Ok f => AFloat f | Err _ => val end
  | _ => val
  end.

Definition coerceToBoolean (val : any) : any :=
  match val with
  | AString s => match ParseBool s with Some b => ABool b | None => val end
  | _ => val
  end.

Definition coerceToNull (val : any) : any :=
  match val with
  | AString s => if bool_decide (s = "null") then ANil else val
  | _ => val
  end.

(** [coerceToObject] and [coerceToArray] call back [CoerceTypes] and
    [coerceValue], which are their first argument. *)
Definition coerceToObject (CoerceTypes : json -> gmap string any -> gmap string any) (val : any) (subSchema : option json) : any :=
  match val, subSchema with
  | AMap m, Some sub => AMap (CoerceTypes sub m)
  | _, _ => val
  end.

(** The type of an item schema; [None] where decoding it fails. *)
Definition itemType (item : json) : option string :=
  match item with JObject ms => stringField "type" ms | JNull => Some "" | _ => None end.

Definition coerceToArray (coerceValue : any -> propInfo -> any) (val : any) (itemSchema : option json) : any :=
  match val, itemSchema with
  | AArray arr, Some item =>
      match itemType item with
      | Some typ => AArray ((fun elem => coerceValue elem (mkPropInfo typ (Some item) None)) <$> arr)
      | None => val
      end
  | _, _ => val
  end.

(** The loop of [CoerceTypes] over the properties, in the order Go visits them. *)
Definition coerceLoop (coerceValue : any -> propInfo -> any) (props : list (string * propInfo)) (args : gmap string any) : gmap string any :=
  foldl (fun args '(name, info) =>
    match args !! name with
    | None => args
    | Some val => <[name := coerceValue val info]> args
    end) args props.

(** [CoerceTypes] and [coerceValue]: each level of the schema uses one unit of
    fuel, so the nesting of the schema is enough. *)
Fixpoint coerceValue (fuel : nat) (val : any) (info : propInfo) : any :=
  match fuel with
  | O => val
  | S fuel =>
      let CoerceTypes (schema : json) (args : gmap string any) : gmap string any :=
        match extractProps schema with
        | None => args
        | Some props => coerceLoop (coerceValue fuel) (map_to_list props) args
        end in
      if bool_decide (pi_typ info = "integer") then coerceToInteger val
      else if bool_decide (pi_typ info = "number") then coerceToNumber val
      else if bool_decide (pi_typ info = "boolean") then coerceToBoolean val
      else if bool_decide (pi_typ info = "null") then coerceToNull val
      else if bool_decide (pi_typ info = "object") then coerceToObject CoerceTypes val (pi_subSchema info)
      else if bool_decide (pi_typ info = "array") then coerceToArray (coerceValue fuel) val (pi_itemSchema info)
      else val
  end.

Definition CoerceTypesAt (fuel : nat) (schema : json) (args : gmap string any) : gmap string any :=
  match extractProps schema with
  | None => args
  | Some props => coerceLoop (coerceValue fuel) (map_to_list props) args
  end.
Definition CoerceTypes (schema : json) : gmap string any -> gmap string any := CoerceTypesAt (depth schema) schema.

(** The same on a schema as text; a text that is no JSON gives no properties. *)
Definition CoerceTypesText (schema : string) (args : gmap string any) : gmap string any :=
  match parse schema with Some j => CoerceTypes j args | None => args end.

(** ** The loop *)

Lemma coerceLoop_lookup f props args k : NoDup props.*1 ->
  coerceLoop f props args !! k =
  (v ← args !! k; Some (match list_to_map (M := gmap string propInfo) props !! k with Some info => f v info | None => v end)).
Proof.
  revert args. induction props as [|[name info] props IH]; intros args Hnd; simpl.
  { rewrite lookup_empty. by destruct (args !! k). }
  apply NoDup_cons in Hnd as [Hni Hnd]. unfold coerceLoop in *. simpl. rewrite IH by done.
  destruct (decide (name = k)) as [->|Hne].
  - rewrite lookup_insert_eq. rewrite not_elem_of_list_to_map_1 by done.
    destruct (args !! k) as [v|] eqn:E; [by rewrite lookup_insert_eq|by rewrite E].
  - rewrite lookup_insert_ne by done. destruct (args !! name); [by rewrite lookup_insert_ne|done].
Qed.

(** The order of Go's map iteration does not matter. *)
Lemma coerceLoop_Permutation f props props' args :
  NoDup props.*1 -> props ≡ₚ props' -> coerceLoop f props args = coerceLoop f props' args.
Proof.
  intros Hnd Hp. apply map_eq. intros k. rewrite !coerceLoop_lookup; [|by rewrite <- Hp|done].
  by rewrite (list_to_map_proper props props').
Qed.

Lemma CoerceTypesAt_lookup fuel schema args k :
  CoerceTypesAt fuel schema args !! k =
  (v ← args !! k;
   Some (match props ← extractProps schema; props !! k with Some info => coerceValue fuel v info | None => v end)).
Proof.
  unfold CoerceTypesAt. destruct (extractProps schema) as [props|]; simpl; [|by destruct (args !! k)].
  rewrite coerceLoop_lookup by apply NoDup_fst_map_to_list. by rewrite list_to_map_to_list.
Qed.

(** ** The schema bounds the recursion *)

Lemma propOf_sub raw info : propOf raw = Some info -> pi_subSchema info = Some raw.
Proof. unfold propOf. destruct raw as [| | | | |ms]; intros; simplify_eq/=; [done|]. by destruct (stringField _ _); simplify_eq/=. Qed.

Lemma propOf_item raw info item : propOf raw = Some info -> pi_itemSchema info = Some item -> (depth item < depth raw)%nat.
Proof.
  unfold propOf. destruct raw as [| | | | |ms]; intros H Hi; simplify_eq/=.
  destruct (stringField _ _); simplify_eq/=. by apply rawField_depth in Hi.
Qed.

Lemma extractProps_prop schema props k info :
  extractProps schema = Some props -> props !! k = Some info -> exists raw, propOf raw = Some info /\ (S (depth raw) < depth schema)%nat.
Proof.
  unfold extractProps. destruct schema as [| | | | |ms]; try done.
  destruct (rawMapField "properties" ms) as [[m|]|] eqn:E; intros H Hk; simplify_eq.
  apply lookup_omap_Some in Hk as (raw & Hraw & Hk). exists raw. split; [done|]. by eapply rawMapField_depth.
Qed.

(** [n] units of fuel are enough for a value of a property. *)
Definition enough (n : nat) (info : propInfo) : Prop :=
  (0 < n)%nat /\ (forall sub, pi_subSchema info = Some sub -> depth sub < n)%nat /\
  (forall item, pi_itemSchema info = Some item -> S (depth item) < n)%nat.

Lemma enough_prop n schema props k info :
  extractProps schema = Some props -> props !! k = Some info -> (depth schema <= n)%nat -> enough n info.
Proof.
  intros Hp Hk Hn. destruct (extractProps_prop _ _ _ _ Hp Hk) as (raw & Hraw & Hd). split_and!; [lia|..].
  - intros sub Hs. rewrite (propOf_sub _ _ Hraw) in Hs. simplify_eq. lia.
  - intros item Hi. pose proof (propOf_item _ _ _ Hraw Hi). lia.
Qed.

Lemma enough_item n info item typ :
  enough (S n) info -> pi_itemSchema info = Some item -> enough n (mkPropInfo typ (Some item) None).
Proof. intros (_ & _ & H) Hi. specialize (H item Hi). split_and!; [lia| |done]. intros sub [= <-]. lia. Qed.

(** Two loops agree when their bodies agree on the properties present. *)
Lemma CoerceTypesAt_ext f g schema args :
  (forall props k info v, extractProps schema = Some props -> props !! k = Some info -> args !! k = Some v ->
    coerceValue f v info = coerceValue g v info) ->
  CoerceTypesAt f schema args = CoerceTypesAt g schema args.
Proof.
  intros H. apply map_eq. intros k. rewrite !CoerceTypesAt_lookup. destruct (args !! k) as [v|] eqn:Hv; simpl; [|done].
  destruct (extractProps schema) as [props|]; simpl; [|done]. destruct (props !! k) as [info|] eqn:Hk; [|done].
  f_equal. by apply (H props k).
Qed.

(** The cases of [coerceValue]: a scalar type, an object or an array. *)
Definition coerceScalar (val : any) (typ : string) : any :=
  if bool_decide (typ = "integer") then coerceToInteger val
  else if bool_decide (typ = "number") then coerceToNumber val
  else if bool_decide (typ = "boolean") then coerceToBoolean val
  else if bool_decide (typ = "null") then coerceToNull val
  else val.

Lemma coerceValue_unfold fuel val info :
  coerceValue (S fuel) val info =
  if bool_decide (pi_typ info = "object") then coerceToObject (CoerceTypesAt fuel) val (pi_subSchema info)
  else if bool_decide (pi_typ info = "array") then coerceToArray (coerceValue fuel) val (pi_itemSchema info)
  else coerceScalar val (pi_typ info).
Proof.
  cbn [coerceValue]. unfold coerceScalar. repeat case_bool_decide; congruence || reflexivity.
Qed.

Lemma coerceValue_fuel n f g val info :
  enough n info -> (n <= f)%nat -> (n <= g)%nat -> coerceValue f val info = coerceValue g val info.
Proof.
  revert f g val info. induction n as [|n IH]; intros f g val info Hi Hf Hg; [destruct Hi; lia|].
  destruct f as [|f]; [lia|]. destruct g as [|g]; [lia|]. rewrite !coerceValue_unfold. case_bool_decide as Ho; [|case_bool_decide; [|done]].
  - destruct Hi as (_ & Hs & _). destruct val, (pi_subSchema info) as [sub|]; try done. simpl. f_equal.
    apply CoerceTypesAt_ext. intros props k info' v Hp Hk _. apply IH; [|lia..].
    eapply enough_prop; [done..|]. specialize (Hs sub eq_refl). lia.
  - destruct val, (pi_itemSchema info) as [item|] eqn:Hit; try done. simpl. destruct (itemType item); [|done]. f_equal.
    apply list_fmap_ext. intros _ x _. apply IH; [|lia..]. by eapply enough_item.
Qed.

Lemma CoerceTypesAt_fuel fuel schema args : (depth schema <= fuel)%nat -> CoerceTypesAt fuel schema args = CoerceTypes schema args.
Proof.
  intros Hf. apply CoerceTypesAt_ext. intros props k info v Hp Hk _.
  apply (coerceValue_fuel (depth schema)); [|lia..]. by eapply enough_prop.
Qed.

(** ** What coercion does to a value

    The reference reads the schema itself: the type a schema asks for, the
    schemas of an object's members and the schema of an array's elements. *)

Definition typeOf (schema : json) : option string := match schema with JObject ms => stringField "type" ms | _ => None end.
Definition itemsOf (schema : json) : option json := match schema with JObject ms => rawField "items" ms | _ => None end.
Definition declares (schema : json) (k : string) (sub : json) : Prop :=
  exists ms props, schema = JObject ms /\ rawMapField "properties" ms = Some (Some props) /\ props !! k = Some sub.

(** What a string is read as at a type. *)
Inductive readAs : string -> string -> any -> Prop :=
  | read_integer s i : ParseInt s = Ok i -> readAs "integer" s (AInt i)
  | read_number s f : ParseFloat s = Ok f -> readAs "number" s (AFloat f)
  | read_boolean s b : ParseBool s = Some b -> readAs "boolean" s (ABool b)
  | read_null : readAs "null" "null" ANil.

(** Values that are kept at a type. *)
Definition kept (schema : json) (v : any) : Prop :=
  match v with
  | AString s => forall typ w, typeOf schema = Some typ -> ~ readAs typ s w
  | AMap _ => typeOf schema <> Some "object"
  | AArray _ => typeOf schema = Some "array" -> forall item, itemsOf schema = Some item -> typeOf item = None
  | _ => True
  end.

(** [v'] is [v] read by the schema: a string at a scalar type is the scalar it
    spells, if it spells one; the members of an object are read by their own
    schemas, when they have one, and the elements of an array by the schema of
    its items, unless that is again a schema of arrays; all else is kept. *)
Inductive refined : json -> any -> any -> Prop :=
  | refined_read schema typ s v : typeOf schema = Some typ -> readAs typ s v -> refined schema (AString s) v
  | refined_kept schema v : kept schema v -> refined schema v v
  | refined_object schema m m' : typeOf schema = Some "object" ->
      (forall k, m !! k = None -> m' !! k = None) ->
      (forall k v, m !! k = Some v -> exists v', m' !! k = Some v' /\
         (forall sub, declares schema k sub -> refined sub v v') /\ ((forall sub, ~ declares schema k sub) -> v' = v)) ->
      refined schema (AMap m) (AMap m')
  | refined_array schema item typ l l' : typeOf schema = Some "array" -> itemsOf schema = Some item -> typeOf item = Some typ ->
      Forall2 (fun v v' => (typ = "array" /\ v' = v) \/ (typ <> "array" /\ refined item v v')) l l' ->
      refined schema (AArray l) (AArray l').

Definition refinedArgs (schema : json) (m m' : gmap string any) : Prop :=
  (forall k, m !! k = None -> m' !! k = None) /\
  (forall k v, m !! k = Some v -> exists v', m' !! k = Some v' /\
     (forall sub, declares schema k sub -> refined sub v v') /\ ((forall sub, ~ declares schema k sub) -> v' = v)).

(** [typed strings n schema v]: the value has the type its schema asks for, at
    every level.  With [strings] a string that spells a scalar may stand for it,
    except in an array within an array. *)
Definition integral (f : float64) : bool :=
  match f with
  | S754_zero _ => true
  | S754_finite _ m e => bool_decide (0 <= e)%Z || bool_decide (Z.pos m mod 2 ^ (- e) = 0)%Z
  | _ => false
  end.
Definition hasScalar (typ : string) (v : any) : Prop :=
  match v with
  | AInt _ => typ = "integer" \/ typ = "number"
  | AFloat f => typ = "number" \/ typ = "integer" /\ integral f = true
  | ABool _ => typ = "boolean"
  | ANil => typ = "null"
  | AString _ => ~ typ ∈ ["integer"; "number"; "boolean"; "null"]
  | AArray _ | AMap _ => ~ typ ∈ ["integer"; "number"; "boolean"; "null"; "string"]
  end.

Fixpoint typed (strings : bool) (n : nat) (schema : json) (v : any) : Prop :=
  match n with
  | O => True
  | S n => forall typ, typeOf schema = Some typ ->
      if bool_decide (typ = "object") then
        exists m, v = AMap m /\ forall k sub w, declares schema k sub -> m !! k = Some w -> typed strings n sub w
      else if bool_decide (typ = "array") then
        exists l, v = AArray l /\ forall item, itemsOf schema = Some item ->
          Forall (typed (strings && negb (bool_decide (typeOf item = Some "array"))) n item) l
      else hasScalar typ v \/ (strings = true /\ exists s w, v = AString s /\ readAs typ s w)
  end.
Definition typedArgs (strings : bool) (n : nat) (schema : json) (args : gmap string any) : Prop :=
  forall k sub v, declares schema k sub -> args !! k = Some v -> typed strings n sub v.

(** ** The reference and the code *)

(** What [coerceValue] is given for a schema. *)
Record describes (info : propInfo) (schema : json) : Prop := {
  de_typ : pi_typ info = default "" (typeOf schema);
  de_sub : pi_subSchema info = Some schema;
  de_item : pi_itemSchema info = itemsOf schema \/ pi_itemSchema info = None /\ pi_typ info <> "array";
}.

Lemma propOf_describes raw info : propOf raw = Some info -> describes info raw.
Proof.
  unfold propOf. destruct raw as [| | | | |ms]; intros; simplify_eq/=; [split; auto|].
  destruct (stringField "type" ms) as [typ|] eqn:E; simplify_eq/=. split; cbn; rewrite ?E; auto.
Qed.

Lemma propOf_None raw : propOf raw = None -> typeOf raw = None.
Proof. unfold propOf. destruct raw as [| | | | |ms]; try done. cbn. by destruct (stringField "type" ms). Qed.

Lemma extractProps_declares schema k :
  match (props ← extractProps schema; props !! k) with
  | Some info => exists sub, declares schema k sub /\ propOf sub = Some info
  | None => forall sub, declares schema k sub -> propOf sub = None
  end.
Proof.
  unfold extractProps, declares. destruct schema as [| | | | |ms]; try (intros sub (ms' & props & ? & _); done).
  destruct (rawMapField "properties" ms) as [[props|]|] eqn:E; cbn; try (intros sub (ms' & props' & [= <-] & Hp & _); congruence).
  destruct (omap propOf props !! k) as [info|] eqn:Hk.
  - apply lookup_omap_Some in Hk as (sub & Hs & Hk). exists sub. split; [|done]. by exists ms, props.
  - rewrite lookup_omap in Hk. intros sub (ms' & props' & [= <-] & Hp & Hl). assert (props' = props) as -> by congruence.
    rewrite Hl in Hk. done.
Qed.

Lemma declared schema k : (exists sub, declares schema k sub) \/ (forall sub, ~ declares schema k sub).
Proof.
  unfold declares. destruct schema as [| | | | |ms]; try (right; intros sub (ms' & props & ? & _); done).
  destruct (rawMapField "properties" ms) as [[props|]|] eqn:E; try (right; intros sub (ms' & props' & [= <-] & Hp & _); congruence).
  destruct (props !! k) as [sub|] eqn:Hk; [left; by exists sub, ms, props|].
  right. intros sub (ms' & props' & [= <-] & Hp & Hl). congruence.
Qed.

Lemma declares_unique schema k sub sub' : declares schema k sub -> declares schema k sub' -> sub = sub'.
Proof. intros (ms & props & -> & H1 & H2) (ms' & props' & [= <-] & H3 & H4). congruence. Qed.

Lemma declares_depth schema k sub : declares schema k sub -> (S (depth sub) < depth schema)%nat.
Proof. intros (ms & props & -> & H1 & H2). by eapply rawMapField_depth. Qed.

Lemma itemsOf_depth schema item : itemsOf schema = Some item -> (depth item < depth schema)%nat.
Proof. unfold itemsOf. destruct schema as [| | | | |ms]; try done. by intros ?%rawField_depth. Qed.

Lemma itemType_typeOf item : default "" (itemType item) = default "" (typeOf item) /\ (itemType item = None -> typeOf item = None).
Proof. unfold itemType, typeOf. by destruct item. Qed.

(** Every string is read as its type says. *)
Lemma readAs_scalar typ s w : readAs typ s w -> typ ∈ ["integer"; "number"; "boolean"; "null"] /\ hasScalar typ w /\ (forall s', w <> AString s').
Proof. destruct 1; cbn; split_and!; try done; try set_solver; by left. Qed.

Lemma coerceScalar_string typ s :
  readAs typ s (coerceScalar (AString s) typ) \/ (coerceScalar (AString s) typ = AString s /\ forall w, ~ readAs typ s w).
Proof.
  unfold coerceScalar, coerceToInteger, coerceToNumber, coerceToBoolean, coerceToNull.
  repeat case_bool_decide; subst; repeat case_match; try case_bool_decide; subst; try (left; by constructor);
    right; (split; [done|]); intros w H'; inversion H'; simplify_eq; congruence.
Qed.

Lemma coerceScalar_other typ v : (forall s, v <> AString s) -> coerceScalar v typ = v.
Proof. intros H. destruct v as [| | | |s| |]; [..|by destruct (H s)| |]; unfold coerceScalar; repeat case_bool_decide; done. Qed.

(** The members of an object, when the values are read right. *)
Lemma CoerceTypesAt_refined fuel schema m :
  (forall k sub info v, declares schema k sub -> describes info sub -> refined sub v (coerceValue fuel v info)) ->
  refinedArgs schema m (CoerceTypesAt fuel schema m).
Proof.
  intros H. split; intros k; rewrite CoerceTypesAt_lookup; [by intros ->|]. intros v ->. cbn. eexists. split; [done|].
  pose proof (extractProps_declares schema k) as Hd. destruct (props ← extractProps schema; props !! k) as [info|].
  - destruct Hd as (sub & Hsub & Hp). split; [|by intros []%(fun F => F sub)]. intros sub' Hsub'.
    assert (sub' = sub) as -> by by eapply declares_unique. by apply (H k), propOf_describes.
  - split; [|done]. intros sub Hsub. apply refined_kept. assert (typeOf sub = None) as Ht by by apply propOf_None, Hd.
    unfold kept. rewrite Ht. by destruct v.
Qed.

Lemma coerceValue_refined n fuel info schema v : (depth schema < n)%nat -> (n <= fuel)%nat -> describes info schema ->
  refined schema v (coerceValue fuel v info).
Proof.
  revert fuel info schema v. induction n as [|n IH]; intros fuel info schema v Hn Hf [Ht Hs Hi]; [lia|].
  destruct fuel as [|fuel]; [lia|]. rewrite coerceValue_unfold, Hs.
  assert (Htyp : forall typ, typ <> "" -> pi_typ info = typ -> typeOf schema = Some typ).
  { intros typ Hne Heq. rewrite Heq in Ht. destruct (typeOf schema); cbn in Ht; congruence. }
  case_bool_decide as Ho; [|case_bool_decide as Ha].
  - assert (typeOf schema = Some "object") as Hts by by apply Htyp. destruct v; try (apply refined_kept; cbn; intros; simplify_eq; (done || (intros Hr; inversion Hr))).
    cbn. apply refined_object; [done|..]; apply CoerceTypesAt_refined; intros k sub info' v' Hd; apply IH; try lia; apply declares_depth in Hd; lia.
  - assert (typeOf schema = Some "array") as Hts by by apply Htyp.
    destruct Hi as [Hi|[_ Hi]]; [|done]. rewrite Hi.
    destruct v as [| | | |s|l|m]; try (apply refined_kept; cbn; intros; simplify_eq; (done || congruence || (intros Hr; inversion Hr))).
    cbn. destruct (itemsOf schema) as [item|] eqn:Hit; [|apply refined_kept; cbn; intros; congruence].
    pose proof (itemType_typeOf item) as [Hd Hnone]. destruct (itemType item) as [typ|]; [|apply refined_kept; cbn; intros; simplify_eq; by apply Hnone].
    cbn in Hd. destruct (typeOf item) as [typ'|] eqn:Hti.
    + cbn in Hd. subst typ'. eapply refined_array; [done..|]. apply Forall2_fmap_r, Forall_Forall2_diag, Forall_true. intros x.
      destruct (decide (typ = "array")) as [->|Hne]; [left; split; [done|]; destruct fuel; [done|]; rewrite coerceValue_unfold; cbn; by destruct x|].
      right. split; [done|]. apply (IH fuel _ item); [apply itemsOf_depth in Hit; lia|lia|]. split; cbn; [by rewrite Hti|done|by right].
    + cbn in Hd. subst typ. assert ((fun elem => coerceValue fuel elem (mkPropInfo "" (Some item) None)) <$> l = l) as ->.
      { rewrite <- (list_fmap_id l) at 2. apply list_fmap_ext. intros _ x _. destruct fuel; [done|]. rewrite coerceValue_unfold. cbn. unfold coerceScalar. repeat case_bool_decide; done. }
      apply refined_kept. cbn. intros; congruence.
  - destruct (typeOf schema) as [typ|] eqn:Hts; cbn in Ht.
    + destruct v as [| | | |s| |]; try (rewrite coerceScalar_other by done; apply refined_kept; cbn; (done || (intros; congruence))).
      rewrite <- Ht in Hts. destruct (coerceScalar_string (pi_typ info) s) as [Hr|[-> Hr]]; [by eapply refined_read|].
      apply refined_kept. cbn. intros typ' w E. rewrite Hts in E. injection E as <-. apply Hr.
    + assert (coerceScalar v (pi_typ info) = v) as -> by (rewrite Ht; unfold coerceScalar; repeat case_bool_decide; done).
      apply refined_kept. unfold kept. rewrite Hts. by destruct v.
Qed.

Lemma CoerceTypes_refined schema args : refinedArgs schema args (CoerceTypes schema args).
Proof.
  apply CoerceTypesAt_refined. intros k sub info v Hd Hi. apply declares_depth in Hd.
  apply (coerceValue_refined (depth schema)); [lia|lia|done].
Qed.

(** ** Types and the reference *)

Lemma refined_typed n schema v v' : refined schema v v' -> typed true n schema v -> typed false n schema v'.
Proof.
  revert schema v v'. induction n as [|n IH]; intros schema v v' Hr Hv; [done|]. cbn [typed] in *. intros typ Ht. specialize (Hv typ Ht).
  destruct Hr as [schema typ' s w Ht' Hs|schema v Hk|schema m m' Ho Hn Hm|schema item typ' l l' Ha Hi Hit Hl].
  - assert (typ' = typ) as -> by congruence. apply readAs_scalar in Hs as (Hin & Hs & _).
    rewrite !bool_decide_false in Hv |- * by (intros ->; set_solver). by left.
  - case_bool_decide; [|case_bool_decide].
    + destruct Hv as (m & -> & Hm). subst typ. by destruct Hk.
    + destruct Hv as (l & -> & Hl). subst typ. exists l. split; [done|]. intros item Hi. specialize (Hk Ht item Hi).
      apply Forall_forall. intros x _. destruct n; [done|]. cbn. intros typ. rewrite Hk. done.
    + destruct Hv as [|(_ & s & w & -> & Hw)]; [by left|]. by destruct (Hk typ w Ht).
  - assert (typ = "object") as -> by congruence. cbn in *. destruct Hv as (m0 & [= <-] & Hv). exists m'. split; [done|].
    intros k sub w' Hd Hw'. destruct (m !! k) as [w|] eqn:Hw; [|rewrite Hn in Hw' by done; done].
    destruct (Hm k w Hw) as (w2 & Hw2 & Href & _). assert (w2 = w') as -> by congruence. apply (IH sub w w'); [by apply Href|by apply (Hv k)].
  - assert (typ = "array") as -> by congruence. cbn in *. destruct Hv as (l0 & [= <-] & Hv). exists l'. split; [done|].
    intros item' Hi'. assert (item' = item) as -> by congruence. specialize (Hv item Hi). rewrite Hit in Hv.
    destruct (decide (typ' = "array")) as [->|Hne].
    + rewrite !bool_decide_true in Hv by done. cbn in Hv. assert (l' = l) as ->; [|done].
      clear -Hl. induction Hl as [|v v' l l' [[_ ->]|[? _]] _ IH]; [done|by rewrite IH|done].
    + rewrite !bool_decide_false in Hv by congruence. cbn in Hv. clear -Hl Hv IH Hne.
      induction Hl as [|v v' l l' [[? _]|[_ Hr]] _ IHl]; [done..|]. apply Forall_cons in Hv as [Hv Hvs]. constructor; [by eapply IH|by apply IHl].
Qed.

Lemma refined_id n schema v v' : (depth schema < n)%nat -> refined schema v v' -> typed false n schema v -> v' = v.
Proof.
  revert schema v v'. induction n as [|n IH]; intros schema v v' Hn Hr Hv; [lia|]. cbn [typed] in Hv.
  destruct Hr as [schema typ s w Ht Hs|schema v Hk|schema m m' Ho Hnone Hm|schema item typ l l' Ha Hi Hit Hl]; [|done| |].
  - specialize (Hv typ Ht). apply readAs_scalar in Hs as (Hin & _ & _).
    rewrite !bool_decide_false in Hv by (intros ->; set_solver). destruct Hv as [Hv|[? _]]; [|done]. by destruct Hv.
  - specialize (Hv "object" Ho). cbn in Hv. destruct Hv as (m0 & [= <-] & Hv). f_equal. apply map_eq. intros k.
    destruct (m !! k) as [w|] eqn:Hw; [|by apply Hnone]. destruct (Hm k w Hw) as (w' & Hw' & Href & Hother). rewrite Hw'. f_equal.
    destruct (declared schema k) as [[sub Hsub]|Hno].
    + apply (IH sub); [apply declares_depth in Hsub; lia|by apply Href|by apply (Hv k)].
    + by apply Hother.
  - specialize (Hv "array" Ha). cbn in Hv. destruct Hv as (l0 & [= <-] & Hv). specialize (Hv item Hi). f_equal. apply itemsOf_depth in Hi.
    clear -Hl Hv IH Hi Hn. induction Hl as [|v v' l l' Hvv _ IHl]; [done|]. apply Forall_cons in Hv as [Hv Hvs]. f_equal; [|by apply IHl].
    destruct Hvv as [[_ ->]|[_ Hr]]; [done|]. apply (IH item v v'); [lia|done|done].
Qed.

Lemma refinedArgs_id schema args args' : refinedArgs schema args args' -> typedArgs false (depth schema) schema args -> args' = args.
Proof.
  intros [Hnone Hm] Hv. apply map_eq. intros k. destruct (args !! k) as [w|] eqn:Hw; [|by apply Hnone].
  destruct (Hm k w Hw) as (w' & Hw' & Href & Hother). rewrite Hw'. f_equal.
  destruct (declared schema k) as [[sub Hsub]|Hno].
  - apply (refined_id (depth schema) sub); [apply declares_depth in Hsub; lia|by apply Href|by apply (Hv k)].
  - by apply Hother.
Qed.

Lemma CoerceTypesAt_id fuel schema args :
  (forall props k info v, extractProps schema = Some props -> props !! k = Some info -> args !! k = Some v ->
    coerceValue fuel v info = v) -> CoerceTypesAt fuel schema args = args.
Proof.
  intros H. apply map_eq. intros k. rewrite CoerceTypesAt_lookup. destruct (args !! k) as [v|] eqn:Hv; simpl; [|done].
  destruct (extractProps schema) as [props|]; simpl; [|done]. destruct (props !! k) as [info|] eqn:Hk; [|done].
  f_equal. by apply (H props k).
Qed.

Lemma coerceScalar_idemp v typ : coerceScalar (coerceScalar v typ) typ = coerceScalar v typ.
Proof.
  assert ((exists s, v = AString s) \/ forall s, v <> AString s) as [[s ->]|H] by (destruct v; naive_solver).
  - destruct (coerceScalar_string typ s) as [Hr|[E _]]; [|by rewrite E]. apply readAs_scalar in Hr as (_ & _ & Hr). by apply coerceScalar_other.
  - by rewrite (coerceScalar_other typ v H), (coerceScalar_other typ v H).
Qed.

Lemma coerceValue_idemp fuel v info : coerceValue fuel (coerceValue fuel v info) info = coerceValue fuel v info.
Proof.
  revert v info. induction fuel as [|fuel IH]; intros v info; [done|].
  rewrite !coerceValue_unfold. case_bool_decide; [|case_bool_decide; [|apply coerceScalar_idemp]].
  - destruct v, (pi_subSchema info); try done. simpl. f_equal. apply CoerceTypesAt_id. intros props k info' v Hp Hk.
    rewrite CoerceTypesAt_lookup, Hp. simpl. rewrite Hk. destruct (m !! k); [|done]. intros [= <-]. apply IH.
  - destruct v as [| | | | |l|], (pi_itemSchema info) as [item|]; try done. simpl. destruct (itemType item) eqn:Ht; [|simpl; by rewrite Ht].
    simpl. rewrite Ht. f_equal. rewrite <- list_fmap_compose. apply list_fmap_ext. intros _ x _. apply IH.
Qed.

(** C21: coercion and types.  Coercion reads each string as its own schema says:
    a string that spells a scalar of the type asked for becomes that scalar, in
    the members of objects and the elements of arrays at any depth, the elements
    of an array within an array apart; every other value stays, and no key appears
    or disappears.  So arguments in which every value has the type the schema
    gives it, except that a string may spell a scalar, become arguments in which
    every value has its type (elements of an array within an array must have
    theirs from the start); arguments that have their types already do not
    change, and a second coercion changes nothing.  The nesting of the schema
    bounds the recursion: more fuel gives the same result. *)
Theorem CoerceTypes_types (schema : json) (args : gmap string any) :
  let n := depth schema in
  refinedArgs schema args (CoerceTypes schema args) /\
  dom (CoerceTypes schema args) = dom args /\
  (typedArgs true n schema args -> typedArgs false n schema (CoerceTypes schema args)) /\
  (typedArgs false n schema args -> CoerceTypes schema args = args) /\
  CoerceTypes schema (CoerceTypes schema args) = CoerceTypes schema args /\
  (forall fuel, (n <= fuel)%nat -> CoerceTypesAt fuel schema args = CoerceTypes schema args).
Proof.
  intros n. pose proof (CoerceTypes_refined schema args) as [Hnone Hm]. split_and!.
  - by split.
  - apply set_eq. intros k. rewrite !elem_of_dom. unfold CoerceTypes. rewrite CoerceTypesAt_lookup.
    destruct (args !! k); simpl; split; intros []; by eauto.
  - intros Ht k sub v' Hd Hv'. destruct (args !! k) as [v|] eqn:Hv; [|rewrite Hnone in Hv' by done; done].
    destruct (Hm k v Hv) as (w & Hw & Href & _). assert (w = v') as -> by congruence. by apply (refined_typed n sub v); [apply Href|apply (Ht k)].
  - apply refinedArgs_id. by split.
  - apply CoerceTypesAt_id. intros props k info v Hp Hk. unfold CoerceTypes. rewrite CoerceTypesAt_lookup, Hp. simpl. rewrite Hk.
    destruct (args !! k); [|done]. intros [= <-]. apply coerceValue_idemp.
  - intros fuel. apply CoerceTypesAt_fuel.
Qed.

(** ** A concrete schema *)

Module Examples.

Definition schema : string := quoted
  "{'type':'object','properties':{'n':{'type':'integer'},'x':{'type':'number'},'b':{'type':'boolean'},
    'o':{'type':'object','properties':{'z':{'type':'null'}}},'l':{'type':'array','items':{'type':'integer'}},
    'm':{'type':'array','items':{'type':'array','items':{'type':'integer'}}},'s':{'type':['string','null']}}}".

Definition args : gmap string any := list_to_map
  [("n", AString "-42"); ("x", AString "2.5"); ("b", AString "T"); ("o", AMap {["z" := AString "null"]});
   ("l", AArray [AString "1"; AInt 2; AString "two"]); ("m", AArray [AArray [AString "1"]]); ("s", AString "1"); ("other", AString "7")].

(** Elements of an array are coerced, those of an array in an array are not. *)
Example coerced :
  (fun k => CoerceTypesText schema args !! k) <$> ["n"; "x"; "b"; "o"; "l"; "m"; "s"; "other"] =
  [Some (AInt (-42)); Some (AFloat (literal 5 2)); Some (ABool true); Some (AMap {["z" := ANil]});
   Some (AArray [AInt 1; AInt 2; AString "two"]); Some (AArray [AArray [AString "1"]]); Some (AString "1"); Some (AString "7")].
Proof. vm_compute. reflexivity. Qed.
End Examples.
