(* ===== verification/Validation.v ===== *)
(** * Validation: tool calls against their schema

    internal/ai/validation.go: the cache of compiled schemas, the validation of
    a tool call and the text of its errors.  The hash and the schema library are
    arguments; [OutputUnit] has the fields of the library's type the code reads. *)

From Stdlib Require Import Ascii String.
From S2P Require Import Prelude GoStrings GoText GoFloat AiTypes GoJson Coerce.

Local Open Scope list_scope.
Local Open Scope string_scope.

Inductive OutputUnit : Type := mkOutputUnit {
  ou_InstanceLocation : string;
  ou_Error : option string;
  ou_Errors : list OutputUnit;
}.

(** [collectOutputErrors]: the messages it appends, in order. *)
Fixpoint collectOutputErrors (unit : OutputUnit) : list string :=
  let '(mkOutputUnit loc err errs) := unit in
  (match err with
   | Some e => [("at " ++ (if bool_decide (loc = "") then "/" else loc) ++ ": " ++ e)%string]
   | None => []
   end ++ flat_map collectOutputErrors errs)%list.

Section Validation.
(** The schema library: documents become compilers, compilers schemas, a schema
    validates a value; its errors are its own type or others. *)
Context {Compiler Schema ValidationError E : Type}.
(** xxhash.Sum64String; [hashOf] is its result, a uint64. *)
Context (Sum64 : string -> Z).
Context (AddResource : any -> res E Compiler) (Compile : Compiler -> res E Schema).
Context (Validate : Schema -> any -> option (ValidationError + E)).
Context (BasicOutput : ValidationError -> OutputUnit) (Error : ValidationError -> string) (errorText : E -> string).

Inductive verror : Type :=
  | ErrSchemaJSON
  | ErrSchemaDocument (e : E)
  | ErrInvalidSchema (tool : string) (e : verror)
  | ErrValidation (tool detail : string)
  | ErrUnknownTool (tool : string).

(** The package's variables. *)
Record cacheState : Type := mkCache {
  schemaCache : gmap Z Schema;
  schemaCacheHits : Z;
  schemaCacheMisses : Z;
}.

(** atomic.Int64.Add(1). *)
Definition inc (n : Z) : Z := wrap64 (n + 1).

Definition SchemaCacheStats (c : cacheState) : Z * Z := (schemaCacheHits c, schemaCacheMisses c).
Definition ClearSchemaCache : M cacheState () := modify (fun _ => mkCache ∅ 0 0).

Definition unmarshalToAny (raw : string) : res verror any :=
  match parse raw ≫= toAny with Some v => Ok v | None => Err ErrSchemaJSON end.

Definition hashOf (raw : string) : Z := u64 (Sum64 raw).

Definition lib {A} (r : res E A) : res verror A := match r with Ok v => Ok v | Err e => Err (ErrSchemaDocument e) end.

(** The work of a cache miss outside the lock. *)
Definition compileRaw (raw : string) : res verror Schema :=
  (doc <-? unmarshalToAny raw; c <-? lib (AddResource doc); lib (Compile c))%go.

(** The two critical sections of [compileSchema] and the counters. *)
Definition cacheLookup (h : Z) : M cacheState (option Schema) := gets (fun c => schemaCache c !! h).
Definition countHit : M cacheState () := modify (fun c => mkCache (schemaCache c) (inc (schemaCacheHits c)) (schemaCacheMisses c)).
Definition countMiss : M cacheState () := modify (fun c => mkCache (schemaCache c) (schemaCacheHits c) (inc (schemaCacheMisses c))).
Definition cacheStore (h : Z) (s : Schema) : M cacheState Schema :=
  cached ← cacheLookup h;
  match cached with
  | Some existing => mret existing
  | None =>
      modify (fun c => mkCache (<[h := s]> (schemaCache c)) (schemaCacheHits c) (schemaCacheMisses c));;
      mret s
  end.

(** [compileSchema]; [others] is what other goroutines do to the cache while
    this one compiles. *)
Definition compileSchema (others : cacheState -> cacheState) (raw : string) : M cacheState (res verror Schema) :=
  let h := hashOf raw in
  cached ← cacheLookup h;
  match cached with
  | Some s => countHit;; mret (Ok s)
  | None =>
      countMiss;;
      modify others;;
      match compileRaw raw with
      | Err e => mret (Err e)
      | Ok s => s' ← cacheStore h s; mret (Ok s')
      end
  end.

Definition formatValidationError (toolName : string) (err : ValidationError + E) : verror :=
  match err with
  | inr e => ErrValidation toolName (errorText e)
  | inl ve =>
      match collectOutputErrors (BasicOutput ve) with
      | [] => ErrValidation toolName (Error ve)
      | msgs => ErrValidation toolName (String newline "  " ++ Join msgs (String newline "  "))
      end
  end.

(** [ValidateToolArguments] writes the coerced values into the caller's map:
    the arguments after the call are part of the result. *)
Definition ValidateToolArguments (others : cacheState -> cacheState) (tool : Tool) (args : gmap string any)
  : M cacheState (res verror () * gmap string any) :=
  if bool_decide (tl_Parameters tool = "") then mret (Ok (), args)
  else
    let args := CoerceTypesText (tl_Parameters tool) args in
    schema ← compileSchema others (tl_Parameters tool);
    match schema with
    | Err e => mret (Err (ErrInvalidSchema (tl_Name tool) e), args)
    | Ok s =>
        match Validate s (AMap args) with
        | Some err => mret (Err (formatValidationError (tl_Name tool) err), args)
        | None => mret (Ok (), args)
        end
    end.

Definition ValidateToolCall (others : cacheState -> cacheState) (tools : list Tool) (tc : ToolCall)
  : M cacheState (res verror () * gmap string any) :=
  match List.find (fun tool => bool_decide (tl_Name tool = tc_Name tc)) tools with
  | Some tool => ValidateToolArguments others tool (tc_Arguments tc)
  | None => mret (Err (ErrUnknownTool (tc_Name tc)), tc_Arguments tc)
  end.

(** ** The cache *)

(** The schema texts in play: those of the tools called and of the schemas the
    process compiles besides. *)
Section Cache.
Context (inPlay : string -> Prop).

(** Every schema of the cache was compiled from a text in play with its hash. *)
Definition cacheOk (c : cacheState) : Prop :=
  map_Forall (fun h s => exists raw, inPlay raw /\ hashOf raw = h /\ compileRaw raw = Ok s) (schemaCache c).

(** Other goroutines only add entries, which are good. *)
Definition adds (others : cacheState -> cacheState) : Prop :=
  forall c, cacheOk c -> cacheOk (others c) /\ schemaCache c ⊆ schemaCache (others c).

(** No two texts in play share a hash, unless they have the same schema. *)
Context (Hhash : forall raw raw', inPlay raw -> inPlay raw' -> hashOf raw' = hashOf raw -> compileRaw raw' = compileRaw raw).

(** The schema of a call, without a cache. *)
Definition validateUncached (tool : Tool) (args : gmap string any) : res verror () * gmap string any :=
  if bool_decide (tl_Parameters tool = "") then (Ok (), args)
  else
    let args := CoerceTypesText (tl_Parameters tool) args in
    match compileRaw (tl_Parameters tool) with
    | Err e => (Err (ErrInvalidSchema (tl_Name tool) e), args)
    | Ok s => (match Validate s (AMap args) with Some err => Err (formatValidationError (tl_Name tool) err) | None => Ok () end, args)
    end.

Lemma compileSchema_law others raw c :
  adds others -> cacheOk c -> inPlay raw ->
  let '(r, c') := compileSchema others raw c in
  r = compileRaw raw /\ cacheOk c' /\ schemaCache c ⊆ schemaCache c' /\
  (forall s, r = Ok s -> schemaCache c' !! hashOf raw = Some s).
Proof.
  intros Hadds Hok Hin. unfold compileSchema. rewrite M_bind_eq. cbn [cacheLookup gets fst snd].
  assert (forall c : cacheState, cacheOk c -> forall s, schemaCache c !! hashOf raw = Some s -> compileRaw raw = Ok s) as Hget.
  { intros c1 H1 s Hs. destruct (H1 _ _ Hs) as (raw' & Hin' & Heq & <-). symmetry. by apply Hhash. }
  destruct (schemaCache c !! hashOf raw) as [s|] eqn:Hs.
  { cbn. split_and!; [by rewrite (Hget c Hok s)|done..|by intros ? [= <-]]. }
  rewrite M_bind_eq. cbn [countMiss modify fst snd]. set (c1 := mkCache _ _ _). assert (cacheOk c1) as H1 by done.
  rewrite M_bind_eq. cbn [modify fst snd]. destruct (Hadds c1 H1) as [H2 Hsub]. set (c2 := others c1) in *.
  destruct (compileRaw raw) as [s|e] eqn:Hc; [|cbn; by split_and!].
  rewrite M_bind_eq. unfold cacheStore. rewrite M_bind_eq. cbn [cacheLookup gets fst snd].
  destruct (schemaCache c2 !! hashOf raw) as [s'|] eqn:Hs'.
  - pose proof (Hget c2 H2 s' Hs') as E0. cbn. split_and!; [congruence|done..|]. intros ? [= <-]. done.
  - cbn. split_and!; [done| | |].
    + apply map_Forall_insert_2; [by exists raw|done].
    + transitivity (schemaCache c2); [done|]. by apply insert_subseteq.
    + intros ? [= <-]. apply lookup_insert_eq.
Qed.

(** C39: the cache is transparent.  While other goroutines compile schemas at
    the same time, and no two of the schema texts in play with different schemas
    share a 64-bit hash, validating a call gives the errors and the coerced
    arguments that validating without a cache gives; a compiled schema stays in
    the cache, so every later call gets the same one; and the cache stays good. *)
Theorem validation_cached (others : cacheState -> cacheState) (tools : list Tool) (tc : ToolCall) (c : cacheState)
    (Hothers : adds others) (Hcache : cacheOk c) (Htools : forall tool, tool ∈ tools -> inPlay (tl_Parameters tool)) :
  let '(r, c') := ValidateToolCall others tools tc c in
  r = match List.find (fun tool => bool_decide (tl_Name tool = tc_Name tc)) tools with
      | Some tool => validateUncached tool (tc_Arguments tc)
      | None => (Err (ErrUnknownTool (tc_Name tc)), tc_Arguments tc)
      end /\
  cacheOk c' /\ schemaCache c ⊆ schemaCache c'.
Proof.
  unfold ValidateToolCall. destruct (List.find _ tools) as [tool|] eqn:Hf; [|done].
  apply List.find_some in Hf as [Hf%list_elem_of_In _].
  unfold ValidateToolArguments, validateUncached. case_bool_decide; [done|]. rewrite M_bind_eq.
  pose proof (compileSchema_law others (tl_Parameters tool) c Hothers Hcache (Htools _ Hf)) as H1.
  destruct (compileSchema _ _ _) as [r c']. destruct H1 as (-> & H1 & H2 & _). cbn [fst snd].
  destruct (compileRaw _); [|done]. by destruct (Validate _ _).
Qed.
End Cache.
End Validation.

(** ** A small schema library *)

Module Demo.

(** Documents must be objects; the value of [n] must not be a string. *)
Definition Sum64 (raw : string) : Z := Z.of_nat (String.length raw).
Definition AddResource (doc : any) : res string any := Ok doc.
Definition Compile (doc : any) : res string any := match doc with AMap _ => Ok doc | _ => Err "not an object" end.
Definition leaf (loc e : string) : OutputUnit := mkOutputUnit loc (Some e) [].
Definition Validate (s v : any) : option (OutputUnit + string) :=
  match v with
  | AMap m =>
      match m !! "n" with
      | Some (AString _) => Some (inl (mkOutputUnit "" (Some "invalid") [leaf "/n" "got string"; mkOutputUnit "/m" None [leaf "/m/0" "odd"]]))
      | _ => None
      end
  | _ => Some (inr "no object")
  end.

Definition tools : list Tool :=
  [mkTool "count" "counts" (quoted "{'properties':{'n':{'type':'integer'}}}"); mkTool "free" "" ""; mkTool "bad" "" "[]"; mkTool "worse" "" "{"].
Definition call (name n : string) : ToolCall := mkToolCall "c1" name {["n" := AString n]} "".
Definition validate (tc : ToolCall) : M (cacheState (Schema := any)) (res (verror (E := string)) () * gmap string any) :=
  ValidateToolCall Sum64 AddResource Compile Validate (fun u => u) (fun _ => "error") (fun e => e) (fun c => c) tools tc.
Definition empty : cacheState (Schema := any) := mkCache ∅ 0 0.

(** A call that coercion repairs, one it does not, a tool without a schema,
    two with bad schemas and no tool; the schema is compiled once. *)
Example calls :
  let run := fold_left (fun '(rs, c) tc => let '((r, args), c') := validate tc c in (rs ++ [(r, args !! "n")], c')%list)
    [call "count" "7"; call "count" "seven"; call "free" "7"; call "bad" "7"; call "worse" "7"; call "none" "7"] ([], empty) in
  fst run =
    [(Ok (), Some (AInt 7));
     (Err (ErrValidation "count"
        (String newline "  at /: invalid" ++ String newline "  at /n: got string" ++ String newline "  at /m/0: odd")), Some (AString "seven"));
     (Ok (), Some (AString "7"));
     (Err (ErrInvalidSchema "bad" (ErrSchemaDocument "not an object")), Some (AString "7"));
     (Err (ErrInvalidSchema "worse" ErrSchemaJSON), Some (AString "7"));
     (Err (ErrUnknownTool "none"), Some (AString "7"))] /\
  SchemaCacheStats (snd run) = (1, 3)%Z.
Proof. vm_compute. split; reflexivity. Qed.

(** The texts of the tools; their lengths, which are the hashes, differ. *)
Definition inPlay (raw : string) : Prop := raw ∈ tl_Parameters <$> tools.

Lemma no_collision raw raw' : inPlay raw -> inPlay raw' -> hashOf Sum64 raw' = hashOf Sum64 raw ->
  compileRaw AddResource Compile raw' = compileRaw AddResource Compile raw.
Proof.
  unfold inPlay. cbn [tools fmap list_fmap tl_Parameters]. intros H1 H2. rewrite !elem_of_cons in H1, H2.
  destruct H1 as [->|[->|[->|[->|[]%not_elem_of_nil]]]], H2 as [->|[->|[->|[->|[]%not_elem_of_nil]]]]; done.
Qed.

Lemma validation_cached_witness :
  (validate (call "count" "7") empty).1 = validateUncached AddResource Compile Validate (fun u => u) (fun _ => "error") (fun e => e)
    (mkTool "count" "counts" (quoted "{'properties':{'n':{'type':'integer'}}}")) {["n" := AString "7"]} /\
  (validate (call "count" "7") empty).1.1 = Ok ().
Proof.
  split; [|by vm_compute].
  pose proof (validation_cached Sum64 AddResource Compile Validate (fun u => u) (fun _ => "error") (fun e => e) inPlay no_collision (fun c => c) tools
    (call "count" "7") empty ltac:(by intros c Hc) ltac:(done) ltac:(intros tool Ht; by apply list_elem_of_fmap_2)) as H.
  unfold validate. destruct (ValidateToolCall _ _ _ _ _ _ _ _ _ _ _) as [r c']. exact (proj1 H).
Defined.
End Demo.
