(* ===== verification/Options.v ===== *)
(** * Options: token budgets and provider errors

    internal/ai/options.go (the limits and thinking budgets of a request),
    overflow.go and errors.go (which provider messages mean that the context is
    full). *)

From Stdlib Require Import Ascii String.
From S2P Require Import Prelude GoStrings GoText GoFloat AiTypes GoJson.

Local Open Scope list_scope.
Local Open Scope string_scope.
Local Open Scope Z_scope.

(** ** options.go *)

(** A Go string with named constants. *)
Definition ThinkingLevel : Type := string.
Definition ThinkingMinimal : ThinkingLevel := "minimal".
Definition ThinkingLow : ThinkingLevel := "low".
Definition ThinkingMedium : ThinkingLevel := "medium".
Definition ThinkingHigh : ThinkingLevel := "high".
Definition ThinkingXHigh : ThinkingLevel := "xhigh".

Definition CacheRetention : Type := string.

(** The callback is a function of the provider's payload. *)
Record StreamOptions : Type := mkStreamOptions {
  so_Temperature : option float64;
  so_TopP : option float64;
  so_TopK : option Z;
  so_MaxTokens : option Z;
  so_APIKey : string;
  so_SessionID : string;
  so_CacheRetention : CacheRetention;
  so_Headers : gmap string (list string);
  so_MaxRetryDelayMs : Z;
  so_Metadata : gmap string any;
  so_OnPayload : option (any -> ());
}.

Record ThinkingBudgets : Type := mkThinkingBudgets {
  tb_Minimal : option Z;
  tb_Low : option Z;
  tb_Medium : option Z;
  tb_High : option Z;
}.

Record SimpleStreamOptions : Type := mkSimpleStreamOptions {
  sso_StreamOptions : StreamOptions;
  sso_Reasoning : ThinkingLevel;
  sso_ThinkingBudgets : option ThinkingBudgets;
}.

Definition zeroStreamOptions : StreamOptions := mkStreamOptions None None None None "" "" "" ∅ 0 ∅ None.

Definition minInt (a b : Z) : Z := if bool_decide (a < b) then a else b.
Definition maxInt (a b : Z) : Z := if bool_decide (a > b) then a else b.

Definition BuildBaseOptions (model : Model) (opts : option SimpleStreamOptions) : StreamOptions :=
  let so := match opts with Some o => sso_StreamOptions o | None => zeroStreamOptions end in
  match so_MaxTokens so with
  | Some _ => so
  | None =>
      mkStreamOptions (so_Temperature so) (so_TopP so) (so_TopK so) (Some (minInt (mo_MaxTokens model) 32000)) (so_APIKey so)
        (so_SessionID so) (so_CacheRetention so) (so_Headers so) (so_MaxRetryDelayMs so) (so_Metadata so) (so_OnPayload so)
  end.

Definition ClampReasoning (level : ThinkingLevel) : ThinkingLevel :=
  if bool_decide (level ∈ [ThinkingMinimal; ThinkingLow; ThinkingMedium; ThinkingHigh]) then level
  else if bool_decide (level = ThinkingXHigh) then ThinkingHigh
  else ThinkingMedium.

(** The budget of a level: the caller's, or the default. *)
Definition defaultBudget (clamped : ThinkingLevel) : Z :=
  if bool_decide (clamped = ThinkingMinimal) then 1024
  else if bool_decide (clamped = ThinkingLow) then 2048
  else if bool_decide (clamped = ThinkingMedium) then 8192
  else if bool_decide (clamped = ThinkingHigh) then 16384
  else 0.
Definition budgetOf (clamped : ThinkingLevel) (budgets : option ThinkingBudgets) : Z :=
  default (defaultBudget clamped)
    (b ← budgets;
     if bool_decide (clamped = ThinkingMinimal) then tb_Minimal b
     else if bool_decide (clamped = ThinkingLow) then tb_Low b
     else if bool_decide (clamped = ThinkingMedium) then tb_Medium b
     else if bool_decide (clamped = ThinkingHigh) then tb_High b
     else None).

Definition minOutputTokens : Z := 1024.

(** [AdjustMaxTokensForThinking]: (maxTokens, thinkingBudget). *)
Definition AdjustMaxTokensForThinking (baseMaxTokens modelMaxTokens : Z) (level : ThinkingLevel) (budgets : option ThinkingBudgets) : Z * Z :=
  let thinkingBudget := budgetOf (ClampReasoning level) budgets in
  let maxTokens := minInt (wrap64 (baseMaxTokens + thinkingBudget)) modelMaxTokens in
  if bool_decide (maxTokens <= thinkingBudget) then (maxTokens, maxInt 0 (wrap64 (maxTokens - minOutputTokens)))
  else (maxTokens, thinkingBudget).

(** The whole budget stays when the model leaves one token for the output, and
    it is cut to leave 1024 when the model leaves none. *)
Example thinking_cliff :
  AdjustMaxTokensForThinking 4096 16385 "xhigh" None = (16385, 16384) /\
  AdjustMaxTokensForThinking 4096 16384 "xhigh" None = (16384, 15360).
Proof. vm_compute. done. Qed.

(** A base near the end of the 64-bit range wraps. *)
Example thinking_wraps : AdjustMaxTokensForThinking (2 ^ 63 - 1) 64000 "minimal" None = (- 2 ^ 63 + 1023, 2 ^ 63 - 1).
Proof. vm_compute. done. Qed.

(** ** overflow.go *)

Definition overflowPatterns : list re :=
  [RLit "prompt is too long";
   RLit "input is too long for requested model";
   RLit "exceeds the context window";
   RSeq [RLit "input token count"; RStar RDot; RLit "exceeds the maximum"];
   RSeq [RLit "maximum prompt length is "; RPlus RDigit];
   RLit "reduce the length of the messages";
   RSeq [RLit "maximum context length is "; RPlus RDigit; RLit " tokens"];
   RSeq [RLit "exceeds the limit of "; RPlus RDigit];
   RLit "exceeds the available context size";
   RLit "greater than the context length";
   RLit "context window exceeds limit";
   RLit "exceeded model token limit";
   RSeq [RLit "context"; RByte (oneOf "_ "); RLit "length"; RByte (oneOf "_ "); RLit "exceeded"];
   RLit "too many tokens";
   RLit "token limit exceeded"].

(** The pattern is anchored at the start and its case matters. *)
Definition emptyBody4xxPattern : re :=
  RSeq [RLit "4"; RAlt (RLit "00") (RLit "13"); RStar RSpace; ROpt (RLit "status code"); RStar RSpace; RLit "(no body)"].

Definition matchesOverflow (errMsg : string) : bool := existsb (fun p => MatchString p (foldName errMsg)) overflowPatterns.

Definition IsContextOverflow (msg : option AssistantMessage) (contextWindow : Z) : bool :=
  match msg with
  | None => false
  | Some msg =>
      (bool_decide (am_StopReason msg = StopReasonError) && negb (bool_decide (am_ErrorMessage msg = "")) &&
       (matchesOverflow (am_ErrorMessage msg) || matchPrefix emptyBody4xxPattern (am_ErrorMessage msg))) ||
      (bool_decide (contextWindow > 0) && bool_decide (am_StopReason msg = StopReasonStop) &&
       bool_decide (wrap64 (us_Input (am_Usage msg) + us_CacheRead (am_Usage msg)) > contextWindow))
  end.

(** ** errors.go *)

Definition ProviderErrorCode : Type := string.
Definition ErrContextOverflow : ProviderErrorCode := "context_overflow".
Definition ErrRateLimit : ProviderErrorCode := "rate_limit".
Definition ErrAuth : ProviderErrorCode := "auth".
Definition ErrServerError : ProviderErrorCode := "server_error".
Definition ErrUnknown : ProviderErrorCode := "unknown".

Record ProviderError : Type := mkProviderError {
  pe_Code : ProviderErrorCode;
  pe_Message : string;
  pe_StatusCode : Z;
  pe_Provider : string;
  pe_RetryAfter : Z;
}.

Definition ProviderError_Error (e : ProviderError) : string :=
  (pe_Code e ++ " error from " ++ pe_Provider e ++ ": " ++ pe_Message e)%string.

Definition classifyErrorMessage (errMsg : string) : ProviderErrorCode :=
  if bool_decide (errMsg = "") then ErrUnknown
  else if matchesOverflow errMsg then ErrContextOverflow
  else ErrUnknown.

Definition providerErrorFromMessage (msg : option AssistantMessage) : option ProviderError :=
  match msg with
  | Some m =>
      if bool_decide (am_StopReason m = StopReasonError)
      then Some (mkProviderError (classifyErrorMessage (am_ErrorMessage m)) (am_ErrorMessage m) 0 (am_Provider m) 0)
      else None
  | None => None
  end.

Example overflow_ex :
  matchesOverflow <$> ["Prompt Is Too Long: 9 tokens"; "MAXIMUM CONTEXT LENGTH IS 128 TOKENS"; "maximum context length is  tokens";
    "input token count (5) exceeds the maximum"; "context_length exceeded"; "exceeds the limit of x"; "toKen limit exceeded"] =
  [true; true; false; true; true; false; true].
Proof. vm_compute. reflexivity. Qed.

(** A reply without a body is an overflow for [IsContextOverflow] only. *)
Example no_body :
  let m := mkAssistantMessage [] "" "openai" "m" zeroUsage StopReasonError "413 status code (no body)" 0 in
  IsContextOverflow (Some m) 0 = true /\ providerErrorFromMessage (Some m) = Some (mkProviderError ErrUnknown "413 status code (no body)" 0 "openai" 0).
Proof. vm_compute. done. Qed.
