(* ===== verification/EventStream.v ===== *)
(** * EventStream: the stream of a provider call

    internal/ai/events.go and event_stream.go: a channel of events with room for
    32, and a channel for the one terminal result.  Goroutines that send, close,
    receive and wait are programs whose steps are the channel and atomic
    operations of the methods, in any order. *)

From Stdlib Require Import Ascii String.
From S2P Require Import Prelude GoStrings GoText AiTypes GoJson Options.

Local Open Scope string_scope.
Local Open Scope list_scope.

(** ** events.go *)

Inductive EventType : Type :=
  | EventStart | EventTextStart | EventTextDelta | EventTextEnd | EventThinkingStart | EventThinkingDelta | EventThinkingEnd
  | EventToolCallStart | EventToolCallDelta | EventToolCallEnd | EventDone | EventError.
#[export] Instance EventType_eq_dec : EqDecision EventType.
Proof. solve_decision. Defined.

Record AssistantMessageEvent : Type := mkEvent {
  ae_Type : EventType;
  ae_ContentIndex : Z;
  ae_Delta : string;
  ae_Content : string;
  ae_ToolCall : option ToolCall;
  ae_Partial : option AssistantMessage;
  ae_Message : option AssistantMessage;
  ae_Error : option AssistantMessage;
  ae_Reason : StopReason;
}.

(** ** event_stream.go *)

Definition defaultEventBufferSize : nat := 32.

(** The errors of a result: the provider's, a plain one for a message whose
    stop reason is not an error, and the one of a stream closed too early. *)
Inductive streamError : Type :=
  | Provider (e : ProviderError)
  | ErrProvider
  | ErrStreamClosedWithoutTerminalEvent.

Record resultOrError : Type := mkResult {
  re_Message : AssistantMessage;
  re_Err : option streamError;
}.

Inductive once : Type := OnceNew | OnceRunning | OnceDone.

(** [EventStream]: the channel of events with its closed state, the result
    channel of one place, the flags, and the once of [Close]. *)
Record EventStream : Type := mkEventStream {
  es_ch : list AssistantMessageEvent;
  es_chClosed : bool;
  es_result : list resultOrError;
  es_closeOnce : once;
  es_terminated : bool;
  es_closed : bool;
}.

Definition NewEventStream : EventStream := mkEventStream [] false [] OnceNew false false.

Definition set_ch f s := mkEventStream (f (es_ch s)) (es_chClosed s) (es_result s) (es_closeOnce s) (es_terminated s) (es_closed s).
Definition close_ch s := mkEventStream (es_ch s) true (es_result s) (es_closeOnce s) (es_terminated s) (es_closed s).
Definition set_result f s := mkEventStream (es_ch s) (es_chClosed s) (f (es_result s)) (es_closeOnce s) (es_terminated s) (es_closed s).
Definition set_once o s := mkEventStream (es_ch s) (es_chClosed s) (es_result s) o (es_terminated s) (es_closed s).
Definition set_terminated s := mkEventStream (es_ch s) (es_chClosed s) (es_result s) (es_closeOnce s) true (es_closed s).
Definition set_closed s := mkEventStream (es_ch s) (es_chClosed s) (es_result s) (es_closeOnce s) (es_terminated s) true.

Section EventStream.
(** time.Now in milliseconds, when a stream is closed too early. *)
Context (now : Z).

(** The result an event publishes, if it is a terminal event with its message. *)
Definition terminal (event : AssistantMessageEvent) : option resultOrError :=
  match ae_Type event with
  | EventDone => (fun m => mkResult m None) <$> ae_Message event
  | EventError =>
      (fun m => mkResult m (Some match providerErrorFromMessage (Some m) with Some e => Provider e | None => ErrProvider end))
        <$> ae_Error event
  | _ => None
  end.

Definition closedEarly : resultOrError :=
  mkResult
    (mkAssistantMessage [] "" "" "" zeroUsage StopReasonError "event stream closed without terminal done/error event" now)
    (Some ErrStreamClosedWithoutTerminalEvent).

(** The atomic steps: a call of [Send], [Close] or [Result], a [for range] over
    [C], and what is left of a call in progress. *)
Inductive instr : Type :=
  | Send (event : AssistantMessageEvent)
  | SendCAS (r : resultOrError)
  | SendPublish (r : resultOrError)
  | Close
  | CloseChannel
  | CloseCAS
  | ClosePublish
  | Range
  | Result
  | Panicked.

(** [Drain] as a program. *)
Definition Drain : list instr := [Range; Result].

(** A goroutine: what it has left to do, the events and results it received. *)
Record thread : Type := mkThread {
  th_prog : list instr;
  th_events : list AssistantMessageEvent;
  th_results : list resultOrError;
}.

(** One step of a goroutine; [None] when it is blocked or at its end. *)
Definition exec (t : thread) (s : EventStream) : option (thread * EventStream) :=
  let continue (k : list instr) : thread := mkThread k (th_events t) (th_results t) in
  match th_prog t with
  | [] | Panicked :: _ => None
  | Send event :: k =>
      if es_chClosed s then Some (continue (Panicked :: k), s)
      else if bool_decide (length (es_ch s) < defaultEventBufferSize)%nat then
        Some (continue (match terminal event with Some r => SendCAS r :: k | None => k end), set_ch (fun l => l ++ [event]) s)
      else None
  | SendCAS r :: k => if es_terminated s then Some (continue k, s) else Some (continue (SendPublish r :: k), set_terminated s)
  | SendPublish r :: k => match es_result s with [] => Some (continue k, set_result (fun _ => [r]) s) | _ => None end
  | Close :: k =>
      match es_closeOnce s with
      | OnceDone => Some (continue k, s)
      | OnceRunning => None
      | OnceNew => Some (continue (CloseChannel :: k), set_closed (set_once OnceRunning s))
      end
  | CloseChannel :: k => Some (continue (CloseCAS :: k), close_ch s)
  | CloseCAS :: k =>
      if es_terminated s then Some (continue k, set_once OnceDone s) else Some (continue (ClosePublish :: k), set_terminated s)
  | ClosePublish :: k =>
      match es_result s with [] => Some (continue k, set_once OnceDone (set_result (fun _ => [closedEarly]) s)) | _ => None end
  | Range :: k =>
      match es_ch s with
      | e :: l => Some (mkThread (Range :: k) (th_events t ++ [e]) (th_results t), set_ch (fun _ => l) s)
      | [] => if es_chClosed s then Some (continue k, s) else None
      end
  | Result :: k =>
      match es_result s with
      | r :: l => Some (mkThread k (th_events t) (th_results t ++ [r]), set_result (fun _ => l) s)
      | [] => None
      end
  end.

Definition config : Type := EventStream * list thread.

Inductive step : config -> config -> Prop :=
  | step_thread i t t' s s' ts : ts !! i = Some t -> exec t s = Some (t', s') -> step (s, ts) (s', <[i := t']> ts).

(** ** The result channel, for any goroutines *)

Definition publishing (i : instr) : bool := match i with SendPublish _ | ClosePublish => true | _ => false end.
Definition pending (t : thread) : nat := length (List.filter publishing (th_prog t)).
Definition received (t : thread) : nat := length (th_results t).
Definition total (f : thread -> nat) (ts : list thread) : nat := sum_list_with f ts.
Definition flag (b : bool) : nat := if b then 1 else 0.

(** Publications under way, results waiting and results received add up to
    one from the moment the stream is terminated, and to none before. *)
Definition accounted (c : config) : Prop :=
  flag (es_terminated c.1) = (total pending c.2 + length (es_result c.1) + total received c.2)%nat.

Lemma total_insert f ts i t t' : ts !! i = Some t -> (total f (<[i := t']> ts) + f t = total f ts + f t')%nat.
Proof.
  revert i. unfold total. induction ts as [|u ts IH]; intros [|i]; simpl; intros; simplify_eq; [lia|]. specialize (IH i H). lia.
Qed.

Lemma total_le f ts i t : ts !! i = Some t -> (f t <= total f ts)%nat.
Proof. revert i. unfold total. induction ts as [|u ts IH]; intros [|i]; simpl; intros; simplify_eq; [lia|]. specialize (IH i H). lia. Qed.

Definition closeTerminates (c : config) : Prop := es_closeOnce c.1 = OnceDone -> es_terminated c.1 = true.

(** What one step does to the account of a goroutine and the stream. *)
Lemma exec_account t s t' s' : exec t s = Some (t', s') ->
  (flag (es_terminated s') + pending t + length (es_result s) + received t =
   flag (es_terminated s) + pending t' + length (es_result s') + received t')%nat /\
  (es_terminated s = true -> es_terminated s' = true) /\
  (es_closeOnce s' = OnceDone -> es_closeOnce s = OnceDone \/ es_terminated s' = true \/ (0 < pending t)%nat).
Proof.
  unfold exec, pending, received. destruct t as [prog evs rs], s as [ch cl res o te c]. simpl.
  destruct prog as [|[] k]; simpl; try done; intros H; repeat case_match; simplify_eq/=;
    rewrite ?length_app; simpl; split_and!; try done; try lia; intros; first [by left|by right; left|right; right; lia].
Qed.

Lemma step_account c c' : accounted c /\ closeTerminates c -> step c c' -> accounted c' /\ closeTerminates c'.
Proof.
  intros Hac Hs. destruct Hs as [i t t' s s' ts Hi He]. destruct Hac as [Ha Hc]. unfold accounted, closeTerminates in *. simpl in *.
  destruct (exec_account _ _ _ _ He) as (H1 & H2 & H3).
  pose proof (total_insert pending ts i t t' Hi). pose proof (total_insert received ts i t t' Hi).
  pose proof (total_le pending ts i t Hi). pose proof (total_le received ts i t Hi). split; [lia|].
  intros Hd. destruct (H3 Hd) as [Ho|[Ht|Hp]]; [auto|done|]. apply H2. destruct (es_terminated s); [done|]. simpl in Ha. lia.
Qed.

(** A goroutine at the start of its calls. *)
Definition idle (t : thread) : Prop := Forall (fun i => publishing i = false) (th_prog t) /\ th_results t = [].

Lemma idle_account ts : Forall idle ts -> accounted (NewEventStream, ts) /\ closeTerminates (NewEventStream, ts).
Proof.
  intros H. split; [|done]. unfold accounted, total. simpl. symmetry.
  assert (sum_list_with pending ts = 0 /\ sum_list_with received ts = 0)%nat as [-> ->]; [|done].
  induction H as [|t ts [Hp Hr] _ [IH1 IH2]]; [done|]. simpl. rewrite IH1, IH2. unfold pending, received. rewrite Hr.
  split; [|done]. rewrite Nat.add_0_r. clear IH1 IH2 Hr. induction Hp as [|i k Hi _ IH]; [done|]. simpl. by rewrite Hi.
Qed.

(** One terminal result.  Whatever goroutines send, close, receive and wait,
    in any order, at most one result is ever published and at most one
    goroutine receives it; a publication under way never waits; and once
    [Close] has returned, the result is published, or being published by the
    one goroutine that claimed it, so a wait for it ends unless another has
    already taken it. *)
Theorem result_once (ts : list thread) (c : config) (Hidle : Forall idle ts) (Hrun : rtc step (NewEventStream, ts) c) :
  (total pending c.2 + length (es_result c.1) + total received c.2 <= 1)%nat /\
  (forall i t, c.2 !! i = Some t -> publishing (default Panicked (head (th_prog t))) = true -> is_Some (exec t c.1)) /\
  (es_closeOnce c.1 = OnceDone -> total pending c.2 + length (es_result c.1) + total received c.2 = 1)%nat /\
  (forall i t, c.2 !! i = Some t -> head (th_prog t) = Some Result -> exec t c.1 = None ->
    es_terminated c.1 = false \/ (total pending c.2 = 1)%nat \/ (total received c.2 = 1)%nat).
Proof.
  destruct (rtc_invariant step (fun c => accounted c /\ closeTerminates c) _ _ (idle_account ts Hidle) step_account Hrun) as [Ha Hc].
  unfold accounted, closeTerminates in *. destruct c as [s us]. simpl in *.
  assert (flag (es_terminated s) <= 1)%nat by (destruct (es_terminated s); simpl; lia). split_and!.
  - lia.
  - intros i t Hi Hp. pose proof (total_le pending us i t Hi) as Hle. unfold exec.
    assert (0 < pending t)%nat as H0.
    { unfold pending. destruct (th_prog t) as [|j k]; [done|]. simpl in *. rewrite Hp. simpl. lia. }
    assert (es_result s = []) as -> by (destruct (es_result s); [done|simpl in Ha; lia]).
    destruct (th_prog t) as [|[] k]; try done; by eexists.
  - intros Hd. specialize (Hc Hd). rewrite Hc in Ha. simpl in Ha. lia.
  - intros i t Hi Hh He. unfold exec in He. destruct (th_prog t) as [|j k]; [done|]. simplify_eq/=.
    destruct (es_result s); [|done]. simpl in Ha. destruct (es_terminated s); [right; simpl in Ha; lia|by left].
Qed.

(** ** A provider and a reader *)

(** A provider's goroutine sends its events and closes; the reader drains. *)
Definition producer (evs : list AssistantMessageEvent) : list instr := map Send evs ++ [Close].

Definition firstTerminal (evs : list AssistantMessageEvent) : option resultOrError := head (omap terminal evs).
Definition finalResult (evs : list AssistantMessageEvent) : resultOrError := default closedEarly (firstTerminal evs).

Lemma firstTerminal_snoc evs e :
  firstTerminal (evs ++ [e]) = match firstTerminal evs with Some r => Some r | None => terminal e end.
Proof.
  unfold firstTerminal. rewrite omap_app. simpl. destruct (omap terminal evs); simpl; [|done]. by destruct (terminal e).
Qed.

(** The phases of the producer: what it has left, given the events it has sent;
    [results] are those of the result channel and the reader. *)
Inductive phase (evs sent : list AssistantMessageEvent) (s : EventStream) (results : list resultOrError) : list instr -> Prop :=
  | ph_send rest : evs = sent ++ rest -> es_chClosed s = false -> es_closeOnce s = OnceNew ->
      es_terminated s = bool_decide (is_Some (firstTerminal sent)) -> results = option_list (firstTerminal sent) ->
      phase evs sent s results (producer rest)
  | ph_cas sent0 e r rest : evs = sent ++ rest -> sent = sent0 ++ [e] -> terminal e = Some r -> es_chClosed s = false ->
      es_closeOnce s = OnceNew -> es_terminated s = bool_decide (is_Some (firstTerminal sent0)) ->
      results = option_list (firstTerminal sent0) -> phase evs sent s results (SendCAS r :: producer rest)
  | ph_publish r rest : evs = sent ++ rest -> firstTerminal sent = Some r -> es_chClosed s = false -> es_closeOnce s = OnceNew ->
      es_terminated s = true -> results = [] -> phase evs sent s results (SendPublish r :: producer rest)
  | ph_closing b : evs = sent -> es_chClosed s = b ->
      es_terminated s = bool_decide (is_Some (firstTerminal sent)) -> results = option_list (firstTerminal sent) ->
      phase evs sent s results (if b then [CloseCAS] else [CloseChannel])
  | ph_closePublish : evs = sent -> es_chClosed s = true -> firstTerminal sent = None -> es_terminated s = true -> results = [] ->
      phase evs sent s results [ClosePublish]
  | ph_done : evs = sent -> es_chClosed s = true -> results = [finalResult evs] -> phase evs sent s results [].

(** The reader's program and what it has received. *)
Inductive reading (s : EventStream) (t : thread) : Prop :=
  | rd_range : th_prog t = Drain -> th_results t = [] -> reading s t
  | rd_result : th_prog t = [Result] -> th_results t = [] -> es_ch s = [] -> es_chClosed s = true -> reading s t
  | rd_done r : th_prog t = [] -> th_results t = [r] -> es_ch s = [] -> es_chClosed s = true -> es_result s = [] -> reading s t.

Definition streaming (evs : list AssistantMessageEvent) (c : config) : Prop :=
  exists p t, c.2 = [p; t] /\ phase evs (th_events t ++ es_ch c.1) c.1 (es_result c.1 ++ th_results t) (th_prog p) /\ reading c.1 t /\
    (length (es_ch c.1) <= defaultEventBufferSize)%nat.

Lemma streaming_start evs : streaming evs (NewEventStream, [mkThread (producer evs) [] []; mkThread Drain [] []]).
Proof. exists (mkThread (producer evs) [] []), (mkThread Drain [] []). split_and!; [done|by apply ph_send|by apply rd_range|simpl; lia]. Qed.

(** Until the channel is closed the reader is at its loop. *)
Lemma reading_open s t : reading s t -> es_chClosed s = false -> th_prog t = Drain /\ th_results t = [].
Proof. intros []; by auto || congruence. Qed.

Lemma reading_range s t : th_prog t = Drain -> th_results t = [] -> reading s t.
Proof. apply rd_range. Qed.

(** The producer's step: the next phase, on a stream the reader keeps reading. *)
Lemma producer_exec evs t p p' s s' :
  phase evs (th_events t ++ es_ch s) s (es_result s ++ th_results t) (th_prog p) -> reading s t ->
  (length (es_ch s) <= defaultEventBufferSize)%nat -> exec p s = Some (p', s') ->
  phase evs (th_events t ++ es_ch s') s' (es_result s' ++ th_results t) (th_prog p') /\ reading s' t /\
  (length (es_ch s') <= defaultEventBufferSize)%nat.
Proof.
  destruct p as [prog pe pr], s as [ch cl res o te c]. unfold exec. simpl.
  intros Hp Hr Hl. pose proof (reading_open _ _ Hr) as Hopen. simpl in Hopen.
  inversion Hp as [rest H1 H2 H3 H4 H5|sent0 e r rest H1 H2 Ht H3 H4 H5 H6|r rest H1 H2 H3 H4 H5 H6|b H1 H2 H3 H4|H1 H2 H3 H4 H5|H1 H2 H3];
    simpl in *; subst.
  - destruct (Hopen eq_refl) as [Hd Hn]. rewrite Hn, app_nil_r in *. destruct rest as [|e rest]; simpl.
    + intros [= <- <-]. split_and!; [|by apply rd_range|done]. simpl in *. rewrite app_nil_r. by apply (ph_closing _ _ _ _ false).
    + destruct (bool_decide_reflect (length ch < defaultEventBufferSize)%nat) as [Hb|Hb]; [|done]. intros [= <- <-]. simpl. split_and!; [|by apply rd_range|rewrite length_app; simpl; lia].
      rewrite (assoc_L app). destruct (terminal e) as [r|] eqn:E.
      * apply (ph_cas _ _ _ _ (th_events t ++ ch) e r); try done. by rewrite <- !app_assoc.
      * apply ph_send; simpl; rewrite ?firstTerminal_snoc, ?E; [by rewrite <- !app_assoc|done..| |]; by destruct (firstTerminal _).
  - destruct (Hopen eq_refl) as [Hd Hn]. rewrite Hn, app_nil_r in *. destruct (firstTerminal sent0) as [r0|] eqn:E; simpl; intros [= <- <-]; simpl.
    + split_and!; [|by apply rd_range|done]. rewrite H2. apply ph_send; simpl; rewrite ?firstTerminal_snoc, ?E; done.
    + split_and!; [|by apply rd_range|done]. rewrite H2. apply ph_publish; rewrite ?firstTerminal_snoc, ?E; done.
  - destruct (Hopen eq_refl) as [Hd Hn]. rewrite Hn, app_nil_r in *. subst res. intros [= <- <-]. simpl.
    split_and!; [|by apply rd_range|done]. apply ph_send; simpl; rewrite ?H2; done.
  - destruct b.
    + destruct (firstTerminal (th_events t ++ ch)) as [r|] eqn:E; simpl; intros [= <- <-]; simpl.
      * split_and!; [apply ph_done; simpl; [done..|]; unfold finalResult; by rewrite E| |done].
        destruct Hr; [by apply rd_range|by apply rd_result|by eapply rd_done].
      * apply app_eq_nil in H4 as [-> Hn]. rewrite Hn. split_and!; [by apply ph_closePublish| |done].
        destruct Hr; [by apply rd_range|by apply rd_result|congruence].
    + destruct (Hopen eq_refl) as [Hd Hn]. rewrite Hn, app_nil_r in *. intros [= <- <-]. simpl.
      split_and!; [by apply (ph_closing _ _ _ _ true)|by apply rd_range|done].
  - apply app_eq_nil in H5 as [-> Hn]. rewrite Hn. intros [= <- <-]. simpl. split_and!; [|destruct Hr; [by apply rd_range|by apply rd_result|congruence]|done].
    apply ph_done; simpl; [done..|]. unfold finalResult. by rewrite H3.
  - done.
Qed.

Lemma option_list_cons {A} (x : A) l o : x :: l = option_list o -> l = [].
Proof. destruct o; by intros [= -> ->] || done. Qed.

(** The reader's step: the producer is where it was. *)
Lemma reader_exec evs prog t t' s s' :
  phase evs (th_events t ++ es_ch s) s (es_result s ++ th_results t) prog -> reading s t ->
  (length (es_ch s) <= defaultEventBufferSize)%nat -> exec t s = Some (t', s') ->
  phase evs (th_events t' ++ es_ch s') s' (es_result s' ++ th_results t') prog /\ reading s' t' /\
  (length (es_ch s') <= defaultEventBufferSize)%nat.
Proof.
  assert (forall sent s s' results, es_chClosed s' = es_chClosed s -> es_closeOnce s' = es_closeOnce s -> es_terminated s' = es_terminated s ->
    phase evs sent s results prog -> phase evs sent s' results prog) as Hext.
  { intros sent s1 s2 results E1 E2 E3 []; [apply ph_send|eapply ph_cas|eapply ph_publish|eapply ph_closing|apply ph_closePublish|apply ph_done]; by eauto || congruence. }
  destruct t as [tp te tr], s as [ch cl res o ter c]. unfold exec. simpl. intros Hp Hr Hl.
  inversion Hr as [H1 H2|H1 H2 H3 H4|r H1 H2 H3 H4 H5]; simpl in *; subst; simpl; [| |done].
  - destruct ch as [|e ch]; simpl.
    + destruct cl; [|done]. intros [= <- <-]. simpl. split_and!; [done|by apply rd_result|done].
    + intros [= <- <-]. simpl in *. split_and!; [|by apply rd_range|lia]. rewrite <- (assoc_L app). simpl. by eapply Hext; [..|exact Hp].
  - destruct res as [|r res]; [done|]. intros [= <- <-]. simpl in *.
    assert (res = []) as ->.
    { rewrite !app_nil_r in Hp. inversion Hp; solve [congruence|by eapply option_list_cons]. }
    simpl. split_and!; [by eapply Hext; [..|exact Hp]|by eapply rd_done|done].
Qed.

Lemma streaming_step evs c c' : streaming evs c -> step c c' -> streaming evs c'.
Proof.
  intros (p & t & Hts & Hp & Hr & Hl) Hs. destruct Hs as [i u u' s s' ts Hi He]. simpl in *. subst ts.
  destruct i as [|[|i]]; simplify_eq/=.
  - exists u', t. split; [done|]. by eapply producer_exec.
  - exists p, u'. split; [done|]. by eapply reader_exec.
Qed.

(** The work left in a program; every step of a goroutine does some. *)
Definition weight (i : instr) : nat :=
  match i with
  | Send _ | Close => 4
  | CloseChannel | Panicked => 3
  | SendCAS _ | CloseCAS => 2
  | SendPublish _ | ClosePublish | Range | Result => 1
  end.
Definition work (t : thread) : nat := sum_list_with weight (th_prog t).
Definition workload (c : config) : nat := (total work c.2 + length (es_ch c.1))%nat.

Lemma exec_work t s t' s' : exec t s = Some (t', s') -> (work t' + length (es_ch s') < work t + length (es_ch s))%nat.
Proof.
  unfold exec, work. destruct t as [prog evs rs], s as [ch cl res o te c]. simpl.
  destruct prog as [|[] k]; simpl; try done; intros H; repeat case_match; simplify_eq/=; rewrite ?length_app; simpl; lia.
Qed.

Lemma step_work c c' : step c c' -> (workload c' < workload c)%nat.
Proof.
  intros Hs. destruct Hs as [i t t' s s' ts Hi He]. unfold workload. simpl.
  pose proof (exec_work _ _ _ _ He). pose proof (total_insert work ts i t t' Hi). pose proof (total_le work ts i t Hi). lia.
Qed.

Lemma nsteps_work n c c' : nsteps step n c c' -> (n + workload c' <= workload c)%nat.
Proof. induction 1 as [|n x y z Hs _ IH]; [done|]. pose proof (step_work _ _ Hs). lia. Qed.

(** While the producer or the reader has something to do, one of them can. *)
Lemma streaming_progress evs c : streaming evs c -> (forall c', ~ step c c') ->
  exists p t, c.2 = [p; t] /\ th_prog p = [] /\ th_prog t = [] /\ th_events t = evs /\ th_results t = [finalResult evs].
Proof.
  intros (p & t & Hts & Hp & Hr & Hl) Hno. destruct c as [s ts]. simpl in *. subst ts. exists p, t. split; [done|].
  assert (exec p s = None) as Hep.
  { destruct (exec p s) as [[p' s']|] eqn:E; [|done]. destruct (Hno _ (step_thread 0 p p' s s' [p; t] eq_refl E)). }
  assert (exec t s = None) as Het.
  { destruct (exec t s) as [[t' s']|] eqn:E; [|done]. destruct (Hno _ (step_thread 1 t t' s s' [p; t] eq_refl E)). }
  unfold exec in Hep, Het. destruct Hr as [Hd Hn|Hd Hn Hc Hcl|r Hd Hn Hc Hcl Hres]; rewrite Hd in Het; simpl in Het.
  - exfalso. destruct (es_ch s) as [|e l] eqn:Ech; [|done]. destruct (es_chClosed s) eqn:Ecl; [done|].
    rewrite Hn, !app_nil_r in Hp.
    inversion Hp as [rest E1 E2 E3 E4 E5 E6|sent0 e r' rest E1 E2 Et E3 E4 E5 E6 E7|r' rest E1 E2 E3 E4 E5 E6 E7|b E1 E2 E3 E4 E5|E1 E2 E3 E4 E5|E1 E2 E3]; try congruence.
    + rewrite <- E6 in Hep. destruct rest as [|e rest]; simpl in Hep; [by rewrite E3 in Hep|]. by rewrite ?E2, ?Ech in Hep.
    + rewrite <- E7 in Hep. simpl in Hep. by destruct (es_terminated s).
    + rewrite <- E7 in Hep. simpl in Hep. by rewrite E6 in Hep.
    + rewrite <- E5, <- E2, Ecl in Hep. done.
  - exfalso. destruct (es_result s) as [|r l] eqn:Eres; [|done]. rewrite Hn in Hp. simpl in Hp.
    inversion Hp as [rest E1 E2 E3 E4 E5 E6|sent0 e r' rest E1 E2 Et E3 E4 E5 E6 E7|r' rest E1 E2 E3 E4 E5 E6 E7|b E1 E2 E3 E4 E5|E1 E2 E3 E4 E5 E6|E1 E2 E3]; try congruence.
    + rewrite <- E5, <- E2, Hcl in Hep. simpl in Hep. by destruct (es_terminated s).
    + rewrite <- E6 in Hep. simpl in Hep. by rewrite ?Eres in Hep.
  - rewrite Hc, Hn, Hres, app_nil_r in Hp; simpl in Hp. rewrite Hn.
    inversion Hp as [rest E1 E2 E3 E4 E5 E6|sent0 e r' rest E1 E2 Et E3 E4 E5 E6 E7|r' rest E1 E2 E3 E4 E5 E6 E7|b E1 E2 E3 E4 E5|E1 E2 E3 E4 E5|E1 E2 E3 E4]; try congruence.
    + exfalso. rewrite <- E5, <- E2, Hcl in Hep. simpl in Hep. by destruct (es_terminated s).
    + split_and!; congruence.
Qed.

Lemma producer_weight evs : sum_list_with weight (producer evs) = (4 * length evs + 4)%nat.
Proof. induction evs as [|e l IH]; [done|]. unfold producer in *. simpl. lia. Qed.

(** C19: a provider's stream reaches its reader.  One goroutine sends events
    and closes the stream, another drains it.  In every interleaving of their
    steps the reader has received a prefix of the events in order, with at most
    32 more in the channel; no run is longer than four steps for an event
    and six more; and a run that cannot go on has ended both goroutines, with
    the reader holding exactly the events and the result of the first terminal
    one, or the error of a stream closed without one. *)
Theorem drain_faithful (evs : list AssistantMessageEvent) :
  let start := (NewEventStream, [mkThread (producer evs) [] []; mkThread Drain [] []]) in
  (forall n c, nsteps step n start c -> (n <= 4 * length evs + 6)%nat) /\
  forall c, rtc step start c ->
    exists p t, c.2 = [p; t] /\ th_events t ++ es_ch c.1 `prefix_of` evs /\ (length (es_ch c.1) <= 32)%nat /\
      ((forall c', ~ step c c') -> th_prog p = [] /\ th_prog t = [] /\ th_events t = evs /\ th_results t = [finalResult evs]).
Proof.
  intros start. split.
  - intros n c Hn. apply nsteps_work in Hn. unfold workload, total, work, start in Hn. simpl in Hn.
    pose proof (producer_weight evs). lia.
  - intros c Hc. pose proof (rtc_invariant step (streaming evs) _ _ (streaming_start evs) (streaming_step evs) Hc) as Hs.
    pose proof (streaming_progress evs c Hs) as Hend. destruct Hs as (p & t & Hts & Hp & Hr & Hl). exists p, t.
    split_and!; [done| |done|].
    + inversion Hp; subst; first [done|by eexists].
    + intros Hno. destruct (Hend Hno) as (p' & t' & E & H). rewrite Hts in E. by simplify_eq.
Qed.
End EventStream.

(** ** Small streams *)

Module Runs.

Definition delta (s : string) : AssistantMessageEvent := mkEvent EventTextDelta 0 s "" None None None None "".
Definition msg (stop err : string) : AssistantMessage := mkAssistantMessage [] "" "openai" "m" zeroUsage stop err 0.
Definition finished : AssistantMessageEvent := mkEvent EventDone 0 "" "" None None (Some (msg StopReasonStop "")) None StopReasonStop.
Definition failing : AssistantMessageEvent :=
  mkEvent EventError 0 "" "" None None None (Some (msg StopReasonError "too many tokens")) StopReasonError.

(** The goroutines whose turns are listed take their steps in that order. *)
Fixpoint runs (turns : list nat) (c : config) : option config :=
  match turns with
  | [] => Some c
  | i :: turns' =>
      t ← c.2 !! i; '(t', s') ← exec 0 t c.1; runs turns' (s', <[i := t']> c.2)
  end.

Lemma runs_steps turns c c' : runs turns c = Some c' -> rtc (step 0) c c'.
Proof.
  revert c. induction turns as [|i turns IH]; intros c; simpl; [by intros [= ->]|].
  destruct (c.2 !! i) as [t|] eqn:Hi; [|done]. simpl. destruct (exec 0 t c.1) as [[t' s']|] eqn:He; [|done]. simpl. intros H.
  apply rtc_l with (s', <[i := t']> c.2); [|by apply IH]. destruct c as [s ts]. by eapply step_thread.
Qed.

Definition start (progs : list (list instr)) : config := (NewEventStream, (fun p => mkThread p [] []) <$> progs).

(** A stream whose owner closes it in the middle of a Send: the reader sees
    the final event, and its result is the error of an unfinished stream. *)
Example close_during_send :
  (fun c => th_results <$> c.2 !! 2%nat) <$>
    runs [0; 1; 1; 1; 1; 0; 2; 2; 2]%nat (start [[Send finished]; [Close]; Drain]) = Some (Some [closedEarly 0]).
Proof. vm_compute. reflexivity. Qed.

(** A Send after Close panics; a second wait blocks. *)
Example send_after_close :
  (fun c : config => map th_prog c.2) <$> runs [0; 0; 0; 0; 0]%nat (start [[Close; Send finished]]) = Some [[Panicked]].
Proof. vm_compute. reflexivity. Qed.
Example second_result :
  (fun c : config => map (fun t => exec 0 t c.1) c.2) <$> runs [0; 0; 0; 0]%nat (start [[Send failing; Result; Result]]) = Some [None].
Proof. vm_compute. reflexivity. Qed.

(** The reader of a failed call gets the classified error. *)
Example failed :
  (fun c : config => map re_Err (flat_map th_results (option_list (c.2 !! 1%nat)))) <$>
    runs [0; 0; 0; 0; 1; 0; 0; 0; 1; 1; 1]%nat (start [producer [delta "a"; failing]; Drain]) =
  Some [Some (Provider (mkProviderError ErrContextOverflow "too many tokens" 0 "openai" 0))].
Proof. vm_compute. reflexivity. Qed.

(** Two readers of one result: the second waits for ever. *)
Lemma result_once_witness :
  let c := start [[Send finished; Close]; Drain; [Result]] in
  exists s ts, runs [0; 0; 0; 1; 0; 0; 0; 1; 1]%nat c = Some (s, ts) /\ total received ts = 1%nat /\ ts !! 2%nat = Some (mkThread [Result] [] []) /\
    es_result s = [].
Proof.
  intros c. destruct (runs [0; 0; 0; 1; 0; 0; 0; 1; 1]%nat c) as [[s ts]|] eqn:E; [|by vm_compute in E].
  assert (Forall idle c.2) as Hidle.
  { simpl. repeat apply Forall_cons_2; [..|apply Forall_nil_2]; (split; [repeat constructor|done]). }
  destruct (result_once 0 c.2 (s, ts) Hidle (runs_steps _ _ _ E)) as (H & _ & Hd & _).
  clear H Hd. exists s, ts. vm_compute in E. injection E as <- <-. by vm_compute.
Defined.
End Runs.
