(* ===== verification/Providers.v ===== *)
(** * Providers: models, providers and their endpoints

    internal/ai/models.go, provider.go, provider_registry.go, custom_provider.go,
    resolve.go, api_client.go, api_client_registry.go and stream.go: the
    registries of the package, the endpoint of a call with its key, and the
    start of a call.  The registries hold values: the code copies every value
    on its way in and out.  The clients and the environment are arguments. *)

From Stdlib Require Import Ascii String.
From S2P Require Import Prelude GoStrings GoText GoFloat AiTypes GoJson Options EventStream.

Local Open Scope string_scope.
Local Open Scope list_scope.
Local Open Scope stdpp_scope.

(** ** models.go: cost and comparison *)

(** [CalculateCost] writes [usage.Cost]; the result is that field. *)
Definition million : float64 := float_of 1000000.
Definition CalculateCost (model : Model) (usage : Usage) : UsageCost :=
  let part (price : float64) (tokens : Z) : float64 := fmul (fdiv price million) (float_of tokens) in
  let input := part (mc_Input (mo_Cost model)) (us_Input usage) in
  let output := part (mc_Output (mo_Cost model)) (us_Output usage) in
  let cacheRead := part (mc_CacheRead (mo_Cost model)) (us_CacheRead usage) in
  let cacheWrite := part (mc_CacheWrite (mo_Cost model)) (us_CacheWrite usage) in
  mkUsageCost input output cacheRead cacheWrite (fadd (fadd (fadd input output) cacheRead) cacheWrite).

(** The arguments are pointers; [None] is nil. *)
Definition ModelsEqual (a b : option Model) : bool :=
  match a, b with
  | Some a, Some b => bool_decide (mo_ID a = mo_ID b) && bool_decide (mo_Provider a = mo_Provider b)
  | None, None => true
  | _, _ => false
  end.

Definition SupportsXHigh (model : Model) : bool :=
  if bool_decide (mo_API model = "anthropic-messages") then Contains (mo_ID model) "opus-4-6" || Contains (mo_ID model) "opus-4.6"
  else if bool_decide (mo_API model = "openai-completions") then Contains (mo_ID model) "gpt-5.2" || Contains (mo_ID model) "gpt-5.3"
  else false.

(** ** provider.go *)

Record ProviderConfig : Type := mkProviderConfig {
  pc_Name : string;
  pc_APIClientType : string;
  pc_EmbeddingAPIClientType : string;
  pc_BaseURL : string;
  pc_KeyEnvVars : list string;
  pc_Headers : gmap string (list string);
  pc_ProviderSpecific : gmap string string;
}.

Record ProviderEndpoint : Type := mkProviderEndpoint {
  ep_ProviderName : string;
  ep_BaseURL : string;
  ep_APIKey : string;
  ep_Headers : gmap string (list string);
  ep_ProviderSpecific : gmap string string;
}.

Record CustomProviderConfig : Type := mkCustomProviderConfig {
  cp_ProviderConfig : ProviderConfig;
  cp_APIKey : string;
}.

Record CustomModelOpts : Type := mkCustomModelOpts {
  cm_Name : string;
  cm_Reasoning : bool;
  cm_Input : list string;
  cm_Cost : ModelCost;
  cm_PricingKnown : bool;
  cm_ContextWindow : Z;
  cm_MaxTokens : Z;
  cm_Compat : option ModelCompat;
}.

Inductive provError : Type :=
  | ErrNoModels (provider : string)
  | ErrModelNotFound (modelID provider : string)
  | ErrNoProvider (name : string)
  | ErrNoAPIClient (clientType : string)
  | ErrCustomName
  | ErrCustomClientType (name : string)
  | ErrCustomBaseURL (name : string)
  | ErrRegisterModel (e : provError)
  | ErrNoProviderConfig (provider : string) (e : provError)
  | ErrNoClientFor (clientType provider : string) (e : provError).

(** error.Error(). *)
Fixpoint provError_Error (e : provError) : string :=
  match e with
  | ErrNoModels p => ("no models registered for provider: " ++ p)%string
  | ErrModelNotFound m p => ("model " ++ quote m ++ " not found for provider " ++ quote p)%string
  | ErrNoProvider n => ("no provider registered: " ++ n)%string
  | ErrNoAPIClient t => ("no API client registered for type: " ++ t)%string
  | ErrCustomName => "custom provider name is required"
  | ErrCustomClientType n => ("custom provider " ++ quote n ++ ": apiClientType is required")%string
  | ErrCustomBaseURL n => ("custom provider " ++ quote n ++ ": baseURL is required")%string
  | ErrRegisterModel e => ("register custom model: " ++ provError_Error e)%string
  | ErrNoProviderConfig p e => ("no provider config for " ++ quote p ++ ": " ++ provError_Error e)%string
  | ErrNoClientFor t p e =>
      ("no API client for type " ++ quote t ++ " (provider " ++ quote p ++ "): " ++ provError_Error e)%string
  end.

Section Providers.
(** An API client and its type; the environment of the process. *)
Context {C : Type} (ClientType : C -> string) (Getenv : string -> string).

(** The package's variables. *)
Record registries : Type := mkRegistries {
  modelRegistry : gmap string (gmap string Model);
  providerConfigRegistry : gmap string ProviderConfig;
  directAPIKeys : gmap string string;
  apiClientRegistry : gmap string C;
}.

Definition set_models f r := mkRegistries (f (modelRegistry r)) (providerConfigRegistry r) (directAPIKeys r) (apiClientRegistry r).
Definition set_providers f r := mkRegistries (modelRegistry r) (f (providerConfigRegistry r)) (directAPIKeys r) (apiClientRegistry r).
Definition set_keys f r := mkRegistries (modelRegistry r) (providerConfigRegistry r) (f (directAPIKeys r)) (apiClientRegistry r).
Definition set_clients f r := mkRegistries (modelRegistry r) (providerConfigRegistry r) (directAPIKeys r) (f (apiClientRegistry r)).

Local Notation P := (M registries).

(** ** models.go: the registry of models *)

Definition RegisterModel (m : Model) : P () :=
  modify (set_models (fun reg => <[mo_Provider m := <[mo_ID m := m]> (default ∅ (reg !! mo_Provider m))]> reg)).

Definition GetModel (provider modelID : string) : P (res provError Model) :=
  gets (fun r =>
    match modelRegistry r !! provider with
    | None => Err (ErrNoModels provider)
    | Some ms => match ms !! modelID with None => Err (ErrModelNotFound modelID provider) | Some m => Ok m end
    end).

(** Go visits a map in any order: [order] arranges the models. *)
Definition GetModels (order : list Model -> list Model) (provider : string) : P (list Model) :=
  gets (fun r => order (snd <$> map_to_list (default ∅ (modelRegistry r !! provider)))).

Definition GetModelProviders : P (list string) := gets (fun r => sort_Strings (elements (dom (modelRegistry r)))).
Definition ClearModels : P () := modify (set_models (fun _ => ∅)).

(** ** provider_registry.go *)

Definition RegisterProviderConfig (cfg : ProviderConfig) : P () := modify (set_providers <[pc_Name cfg := cfg]>).

Definition GetProviderConfig (name : string) : P (res provError ProviderConfig) :=
  gets (fun r => match providerConfigRegistry r !! name with Some cfg => Ok cfg | None => Err (ErrNoProvider name) end).

Definition ListProviderConfigs : P (list string) := gets (fun r => sort_Strings (elements (dom (providerConfigRegistry r)))).

Definition UnregisterProviderConfig (name : string) : P () :=
  modify (set_providers (delete name));; modify (set_keys (delete name)).

Definition ClearProviderConfigs : P () := modify (set_providers (fun _ => ∅));; modify (set_keys (fun _ => ∅)).

(** ** api_client_registry.go *)

Definition RegisterAPIClient (c : C) : P () := modify (set_clients <[ClientType c := c]>).
Definition GetAPIClient (clientType : string) : P (res provError C) :=
  gets (fun r => match apiClientRegistry r !! clientType with Some c => Ok c | None => Err (ErrNoAPIClient clientType) end).
Definition ClearAPIClients : P () := modify (set_clients (fun _ => ∅)).

(** ** custom_provider.go *)

Definition RegisterCustomProvider (cfg : CustomProviderConfig) : P (res provError ()) :=
  let pc := cp_ProviderConfig cfg in
  if bool_decide (pc_Name pc = "") then mret (Err ErrCustomName)
  else if bool_decide (pc_APIClientType pc = "") then mret (Err (ErrCustomClientType (pc_Name pc)))
  else if bool_decide (pc_BaseURL pc = "") then mret (Err (ErrCustomBaseURL (pc_Name pc)))
  else
    RegisterProviderConfig pc;;
    (if bool_decide (cp_APIKey cfg <> "") then modify (set_keys <[pc_Name pc := cp_APIKey cfg]>) else mret ());;
    mret (Ok ()).

Definition RegisterCustomModel (providerName modelID : string) (opts : CustomModelOpts) : P (res provError ()) :=
  r ← GetProviderConfig providerName;
  match r with
  | Err e => mret (Err (ErrRegisterModel e))
  | Ok cfg =>
      RegisterModel
        (mkModel modelID (if bool_decide (cm_Name opts = "") then modelID else cm_Name opts) (pc_APIClientType cfg) providerName
          (cm_Reasoning opts) (cm_Input opts) (cm_Cost opts) (cm_PricingKnown opts) (cm_ContextWindow opts) (cm_MaxTokens opts) ∅
          (cm_Compat opts));;
      mret (Ok ())
  end.

(** ** resolve.go *)

(** The first of the variables that is set. *)
Fixpoint firstEnv (vars : list string) : string :=
  match vars with
  | [] => ""
  | v :: vars' => if bool_decide (Getenv v <> "") then Getenv v else firstEnv vars'
  end.

Definition directKey (r : registries) (name : string) : string := default "" (directAPIKeys r !! name).

Definition ResolveEmbeddingEndpoint (endpoint : ProviderEndpoint) : P ProviderEndpoint :=
  if bool_decide (ep_APIKey endpoint <> "") then mret endpoint
  else
    r ← GetProviderConfig (ep_ProviderName endpoint);
    match r with
    | Err _ => mret endpoint
    | Ok cfg =>
        direct ← gets (fun r => directKey r (pc_Name cfg));
        let apiKey := if bool_decide (direct = "") then firstEnv (pc_KeyEnvVars cfg) else direct in
        let key := if bool_decide (apiKey <> "") then apiKey else ep_APIKey endpoint in
        let url := if bool_decide (ep_BaseURL endpoint = "") && bool_decide (pc_BaseURL cfg <> "") then pc_BaseURL cfg else ep_BaseURL endpoint in
        mret (mkProviderEndpoint (ep_ProviderName endpoint) url key (ep_Headers endpoint) (ep_ProviderSpecific endpoint))
    end.

(** The values of both maps, the provider's first. *)
Definition mergeHeaders (provider call : gmap string (list string)) : gmap string (list string) :=
  union_with (fun a b => Some (a ++ b)) provider call.

Definition ResolveEndpoint (cfg : ProviderConfig) (opts : StreamOptions) : P ProviderEndpoint :=
  direct ← gets (fun r => directKey r (pc_Name cfg));
  let explicit := TrimSpace (so_APIKey opts) in
  let apiKey := if bool_decide (explicit = "") then direct else explicit in
  let apiKey := if bool_decide (apiKey = "") then firstEnv (pc_KeyEnvVars cfg) else apiKey in
  mret (mkProviderEndpoint (pc_Name cfg) (pc_BaseURL cfg) apiKey (mergeHeaders (pc_Headers cfg) (so_Headers opts)) (pc_ProviderSpecific cfg)).

(** ** stream.go *)

(** The event the goroutine of [errorStream] sends before it closes. *)
Definition errorStream (now : Z) (err : provError) : list AssistantMessageEvent :=
  [mkEvent EventError 0 "" "" None None None
    (Some (mkAssistantMessage [] "" "" "" zeroUsage StopReasonError (provError_Error err) now)) StopReasonError].

(** [Stream] up to the client's own: the client to call and its endpoint, or
    the error whose stream is returned. *)
Definition resolveCall (model : Model) (opts : StreamOptions) : P (res provError (C * ProviderEndpoint)) :=
  r ← GetProviderConfig (mo_Provider model);
  match r with
  | Err e => mret (Err (ErrNoProviderConfig (mo_Provider model) e))
  | Ok cfg =>
      c ← GetAPIClient (pc_APIClientType cfg);
      match c with
      | Err e => mret (Err (ErrNoClientFor (pc_APIClientType cfg) (mo_Provider model) e))
      | Ok client => endpoint ← ResolveEndpoint cfg opts; mret (Ok (client, endpoint))
      end
  end.

Definition Stream {A} (now : Z) (clientStream : C -> ProviderEndpoint -> Model -> StreamOptions -> A)
    (model : Model) (opts : StreamOptions) : P (A + list AssistantMessageEvent) :=
  r ← resolveCall model opts;
  mret match r with
       | Ok (client, endpoint) => inl (clientStream client endpoint model opts)
       | Err e => inr (errorStream now e)
       end.

Definition StreamSimple {A} (now : Z) (clientStreamSimple : C -> ProviderEndpoint -> Model -> SimpleStreamOptions -> A)
    (model : Model) (opts : SimpleStreamOptions) : P (A + list AssistantMessageEvent) :=
  r ← resolveCall model (sso_StreamOptions opts);
  mret match r with
       | Ok (client, endpoint) => inl (clientStreamSimple client endpoint model opts)
       | Err e => inr (errorStream now e)
       end.

(** ** models.go: init *)

Record catalogFile : Type := mkCatalogFile {
  cf_Providers : gmap string ProviderConfig;
  cf_Models : gmap string (gmap string Model);
}.

Definition named (name : string) (cfg : ProviderConfig) : ProviderConfig :=
  mkProviderConfig name (pc_APIClientType cfg) (pc_EmbeddingAPIClientType cfg) (pc_BaseURL cfg) (pc_KeyEnvVars cfg) (pc_Headers cfg)
    (pc_ProviderSpecific cfg).
Definition catalogModel (provider : string) (api : string) (id : string) (m : Model) : Model :=
  mkModel id (mo_Name m) api provider (mo_Reasoning m) (mo_Input m) (mo_Cost m) true (mo_ContextWindow m) (mo_MaxTokens m) (mo_Headers m)
    (mo_Compat m).

(** The models of one provider of the catalog. *)
Definition registerModels (catalog : catalogFile) '(providerName, models) : P (outcome provError ()) :=
  match cf_Providers catalog !! providerName with
  | None => mret (Panic ("model catalog: provider " ++ quote providerName ++ " not in providers section"))
  | Some provCfg =>
      for_range (map_to_list models) (fun '(id, m) => RegisterModel (catalogModel providerName (pc_APIClientType provCfg) id m));;
      mret (Return (Ok ()))
  end.

(** The first two phases of [init] on the decoded catalog; the maps' orders
    do not matter to what is registered. *)
Definition loadCatalog (catalog : catalogFile) : P (outcome provError ()) :=
  for_range (map_to_list (cf_Providers catalog)) (fun '(name, cfg) => RegisterProviderConfig (named name cfg));;
  for_range_try (map_to_list (cf_Models catalog)) (registerModels catalog).

(** ** The registries *)

(** Models and providers are filed under their own names. *)
Definition filed (r : registries) : Prop :=
  (forall p ms id m, modelRegistry r !! p = Some ms -> ms !! id = Some m -> mo_Provider m = p /\ mo_ID m = id) /\
  (forall name cfg, providerConfigRegistry r !! name = Some cfg -> pc_Name cfg = name).

(** Every model's provider is registered, and the model's API is its client type. *)
Definition provided (r : registries) : Prop :=
  forall p ms id m, modelRegistry r !! p = Some ms -> ms !! id = Some m ->
    exists cfg, providerConfigRegistry r !! p = Some cfg /\ mo_API m = pc_APIClientType cfg.

Lemma RegisterModel_lookup m r p ms id m' :
  modelRegistry (RegisterModel m r).2 !! p = Some ms -> ms !! id = Some m' ->
  (m' = m /\ p = mo_Provider m /\ id = mo_ID m) \/ (exists ms0, modelRegistry r !! p = Some ms0 /\ ms0 !! id = Some m').
Proof.
  simpl. intros Hp Hid. apply lookup_insert_Some in Hp as [[<- <-]|[_ Hp]]; [|by right; exists ms].
  apply lookup_insert_Some in Hid as [[<- <-]|[_ Hid]]; [by left|]. right.
  destruct (modelRegistry r !! mo_Provider m) as [ms0|]; [by exists ms0|]. simpl in Hid. by rewrite lookup_empty in Hid.
Qed.

Lemma RegisterModel_filed m r : filed r -> filed (RegisterModel m r).2.
Proof.
  intros [Hm Hp]. split; [|done]. intros p ms id m' H1 H2.
  destruct (RegisterModel_lookup _ _ _ _ _ _ H1 H2) as [(-> & -> & ->)|(ms0 & H3 & H4)]; [done|by eapply Hm].
Qed.

Lemma RegisterModel_provided m r cfg :
  providerConfigRegistry r !! mo_Provider m = Some cfg -> mo_API m = pc_APIClientType cfg -> provided r -> provided (RegisterModel m r).2.
Proof.
  intros Hcfg Hapi Hr p ms id m' H1 H2.
  destruct (RegisterModel_lookup _ _ _ _ _ _ H1 H2) as [(-> & -> & ->)|(ms0 & H3 & H4)]; [by exists cfg|by eapply Hr].
Qed.

Lemma RegisterProviderConfig_filed cfg r : filed r -> filed (RegisterProviderConfig cfg r).2.
Proof. intros [Hm Hp]. split; [done|]. intros name c H. simpl in H. apply lookup_insert_Some in H as [[<- <-]|[_ H]]; [done|by apply Hp]. Qed.

(** The first phase of [init]: the providers of the catalog are registered. *)
Lemma load_providers (l : list (string * ProviderConfig)) r : NoDup l.*1 ->
  let r' := (for_range l (fun '(name, cfg) => RegisterProviderConfig (named name cfg)) r).2 in
  modelRegistry r' = modelRegistry r /\
  forall name, providerConfigRegistry r' !! name =
    match list_to_map (M := gmap string ProviderConfig) l !! name with Some cfg => Some (named name cfg) | None => providerConfigRegistry r !! name end.
Proof.
  revert r. induction l as [|[name cfg] l IH]; intros r Hnd; [done|]. apply NoDup_cons in Hnd as [Hni Hnd]. simpl. rewrite M_bind_eq.
  destruct (IH (RegisterProviderConfig (named name cfg) r).2 Hnd) as [H1 H2]. split; [by rewrite H1|]. intros k. rewrite H2. simpl.
  destruct (decide (name = k)) as [->|Hne].
  - rewrite not_elem_of_list_to_map_1 by done. simpl. by rewrite !lookup_insert_eq.
  - rewrite (lookup_insert_ne (list_to_map l)) by done. simpl. by rewrite lookup_insert_ne.
Qed.

(** The models of one provider. *)
Lemma load_models providerName cfg (l : list (string * Model)) r :
  providerConfigRegistry r !! providerName = Some cfg -> filed r /\ provided r ->
  let r' := (for_range l (fun '(id, m) => RegisterModel (catalogModel providerName (pc_APIClientType cfg) id m)) r).2 in
  (filed r' /\ provided r') /\ providerConfigRegistry r' = providerConfigRegistry r.
Proof.
  revert r. induction l as [|[id m] l IH]; intros r Hcfg [Hf Hp]; [done|]. simpl. rewrite M_bind_eq.
  apply (IH (RegisterModel (catalogModel providerName (pc_APIClientType cfg) id m) r).2); [done|].
  split; [by apply RegisterModel_filed|by apply RegisterModel_provided with cfg].
Qed.

Lemma named_api name cfg : pc_APIClientType (named name cfg) = pc_APIClientType cfg.
Proof. done. Qed.

Lemma load_all catalog l r :
  (forall name cfg, cf_Providers catalog !! name = Some cfg -> providerConfigRegistry r !! name = Some (named name cfg)) ->
  filed r /\ provided r ->
  let '(o, r') := for_range_try l (registerModels catalog) r in
  (filed r' /\ provided r') /\ providerConfigRegistry r' = providerConfigRegistry r /\
  (o = Return (Ok ()) <-> Forall (fun kv => is_Some (cf_Providers catalog !! kv.1)) l).
Proof.
  revert r. induction l as [|[p ms] l IH]; intros r Hc Hr; simpl; [split_and!; [apply Hr..|done|]; split; [constructor|done]|].
  unfold obind. rewrite M_bind_eq. destruct (cf_Providers catalog !! p) as [cfg|] eqn:Hp.
  - rewrite M_bind_eq. cbn [mret M_ret fst snd].
    destruct (load_models p (named p cfg) (map_to_list ms) r (Hc _ _ Hp) Hr) as [H1 H2]. rewrite named_api in *.
    match goal with |- context [for_range_try l _ ?x] => set (r1 := x) in * end.
    specialize (IH r1). destruct (for_range_try l (registerModels catalog) r1) as [o r2].
    destruct IH as (H3 & H4 & H5); [intros name c Hname; rewrite H2; by apply Hc|done|]. split_and!; [apply H3..|congruence|].
    rewrite H5, Forall_cons. simpl. rewrite Hp. split; [by split; [eexists|]|by intros []].
  - cbn [mret M_ret fst snd]. split_and!; [apply Hr..|done|]. rewrite Forall_cons. simpl. rewrite Hp. split; [done|]. by intros [[? H] _].
Qed.

Lemma RegisterCustomProvider_filed cfg r : filed r -> filed (RegisterCustomProvider cfg r).2.
Proof.
  intros Hr. unfold RegisterCustomProvider. repeat case_bool_decide; try done; simpl; by apply RegisterProviderConfig_filed.
Qed.

Lemma RegisterCustomModel_ok p id opts r :
  filed r /\ provided r -> filed (RegisterCustomModel p id opts r).2 /\ provided (RegisterCustomModel p id opts r).2.
Proof.
  intros [Hf Hp]. unfold RegisterCustomModel. rewrite M_bind_eq. cbn [GetProviderConfig gets fst snd].
  destruct (providerConfigRegistry r !! p) as [cfg|] eqn:E; [|done]. rewrite M_bind_eq. cbn [mret M_ret snd].
  split; [by apply RegisterModel_filed|by apply RegisterModel_provided with cfg].
Qed.

Definition emptyRegistries : registries := mkRegistries ∅ ∅ ∅ ∅.

(** The catalog at start-up.  Loading the catalog panics exactly when it
    has models for a provider it does not configure.  Afterwards every model is
    filed under its own provider and id, its provider is registered, and its
    API is that provider's client type; registering custom providers keeps
    the models filed, and registering a custom model keeps both. *)
Theorem catalog_consistent (catalog : catalogFile) :
  let '(o, r) := loadCatalog catalog emptyRegistries in
  (o = Return (Ok ()) <-> dom (cf_Models catalog) ⊆ dom (cf_Providers catalog)) /\
  filed r /\ provided r /\
  (forall name cfg, cf_Providers catalog !! name = Some cfg -> providerConfigRegistry r !! name = Some (named name cfg)) /\
  (forall r cfg, filed r -> filed (RegisterCustomProvider cfg r).2) /\
  (forall r p id opts, filed r /\ provided r -> filed (RegisterCustomModel p id opts r).2 /\ provided (RegisterCustomModel p id opts r).2).
Proof.
  unfold loadCatalog. rewrite M_bind_eq.
  destruct (load_providers (map_to_list (cf_Providers catalog)) emptyRegistries (NoDup_fst_map_to_list _)) as [H1 H2].
  set (r1 := (for_range (map_to_list (cf_Providers catalog)) _ emptyRegistries).2) in *. rewrite list_to_map_to_list in H2.
  assert (forall name cfg, cf_Providers catalog !! name = Some cfg -> providerConfigRegistry r1 !! name = Some (named name cfg)) as Hc.
  { intros name cfg Hn. by rewrite H2, Hn. }
  assert (filed r1 /\ provided r1) as Hr.
  { split; [split|]; intros p ms; rewrite ?H1; try done. rewrite H2. destruct (cf_Providers catalog !! p); [by intros [= <-]|done]. }
  pose proof (load_all catalog (map_to_list (cf_Models catalog)) r1 Hc Hr) as H.
  destruct (for_range_try _ (registerModels catalog) r1) as [o r2]. destruct H as ([Hf Hp] & H4 & H5). split_and!; try done.
  - rewrite H5, Forall_forall. split.
    + intros Hall p (ms & Hms)%elem_of_dom. apply elem_of_dom. by apply (Hall (p, ms)), elem_of_map_to_list.
    + intros Hsub [p ms] Hms%elem_of_map_to_list. apply elem_of_dom, Hsub, elem_of_dom. by exists ms.
  - intros name cfg Hn. rewrite H4. by apply Hc.
  - intros r cfg Hr'. apply RegisterCustomProvider_filed, Hr'.
  - intros r p id opts Hr'. by apply RegisterCustomModel_ok.
Qed.

(** ** The endpoint of a call *)

(** The first non-empty string. *)
Definition firstSet (l : list string) : string := default "" (head (filter (fun s => s <> "") l)).

Lemma firstSet_cons s l : firstSet (s :: l) = if bool_decide (s = "") then firstSet l else s.
Proof.
  unfold firstSet. case_bool_decide; [by rewrite filter_cons_False by tauto|by rewrite filter_cons_True by done].
Qed.

Lemma firstEnv_firstSet vars : firstEnv vars = firstSet (Getenv <$> vars).
Proof.
  induction vars as [|v vars IH]; [done|]. cbn [firstEnv fmap list_fmap]. rewrite firstSet_cons, IH.
  repeat case_bool_decide; done.
Qed.

Lemma ResolveEndpoint_key cfg opts r :
  ep_APIKey (ResolveEndpoint cfg opts r).1 =
  firstSet (TrimSpace (so_APIKey opts) :: directKey r (pc_Name cfg) :: (Getenv <$> pc_KeyEnvVars cfg)).
Proof.
  rewrite !firstSet_cons, <- firstEnv_firstSet. unfold ResolveEndpoint. rewrite M_bind_eq. cbn [gets fst snd mret M_ret ep_APIKey].
  repeat case_bool_decide; congruence.
Qed.

(** Where a call goes.  A call for a model reaches the client of its
    provider's type exactly when the provider and the client are registered, and
    otherwise ends in a stream with one error event that names what is missing;
    nothing is changed.  The client gets the provider's URL; the first non-empty
    key among the call's, trimmed, the direct one and the environment's, in that
    order; and for every header the provider's values followed by the call's. *)
Theorem resolution_spec {A} (now : Z) (clientStream : C -> ProviderEndpoint -> Model -> StreamOptions -> A)
    (model : Model) (opts : StreamOptions) (r : registries) :
  let '(x, r') := Stream now clientStream model opts r in
  r' = r /\
  match providerConfigRegistry r !! mo_Provider model with
  | None => x = inr (errorStream now (ErrNoProviderConfig (mo_Provider model) (ErrNoProvider (mo_Provider model))))
  | Some cfg =>
      match apiClientRegistry r !! pc_APIClientType cfg with
      | None => x = inr (errorStream now (ErrNoClientFor (pc_APIClientType cfg) (mo_Provider model) (ErrNoAPIClient (pc_APIClientType cfg))))
      | Some client =>
          exists endpoint, x = inl (clientStream client endpoint model opts) /\
            ep_ProviderName endpoint = pc_Name cfg /\ ep_BaseURL endpoint = pc_BaseURL cfg /\
            ep_APIKey endpoint = firstSet (TrimSpace (so_APIKey opts) :: directKey r (pc_Name cfg) :: (Getenv <$> pc_KeyEnvVars cfg)) /\
            forall k, default [] (ep_Headers endpoint !! k) = default [] (pc_Headers cfg !! k) ++ default [] (so_Headers opts !! k)
      end
  end.
Proof.
  unfold Stream, resolveCall. rewrite !M_bind_eq. cbn [GetProviderConfig gets fst snd].
  destruct (providerConfigRegistry r !! mo_Provider model) as [cfg|]; [|done].
  rewrite !M_bind_eq. cbn [GetAPIClient gets fst snd]. destruct (apiClientRegistry r !! pc_APIClientType cfg) as [client|]; [|done].
  rewrite M_bind_eq. cbn [mret M_ret fst snd]. split; [done|]. eexists. split; [done|]. split; [done|]. split; [done|].
  split; [apply ResolveEndpoint_key|]. intros k. simpl. unfold mergeHeaders. rewrite lookup_union_with.
  destruct (pc_Headers cfg !! k), (so_Headers opts !! k); simpl; by rewrite ?app_nil_r.
Qed.

Lemma RegisterCustomProvider_Ok cfg r :
  pc_Name (cp_ProviderConfig cfg) <> "" -> pc_APIClientType (cp_ProviderConfig cfg) <> "" -> pc_BaseURL (cp_ProviderConfig cfg) <> "" ->
  (RegisterCustomProvider cfg r).2 =
  let r' := set_providers <[pc_Name (cp_ProviderConfig cfg) := cp_ProviderConfig cfg]> r in
  if bool_decide (cp_APIKey cfg = "") then r' else set_keys <[pc_Name (cp_ProviderConfig cfg) := cp_APIKey cfg]> r'.
Proof.
  intros H1 H2 H3. unfold RegisterCustomProvider. rewrite !bool_decide_false by done. rewrite !M_bind_eq. simpl.
  case_bool_decide as Hk; case_bool_decide; done || congruence.
Qed.

(** A provider registered again without a key keeps the key of the one it
    replaces, which is then sent to the new URL. *)
Lemma stale_direct_key name url1 url2 api key opts r :
  name <> "" -> url1 <> "" -> url2 <> "" -> api <> "" -> key <> "" -> TrimSpace (so_APIKey opts) = "" ->
  let cfg url := mkProviderConfig name api "" url [] ∅ ∅ in
  let r' := (RegisterCustomProvider (mkCustomProviderConfig (cfg url2) "") (RegisterCustomProvider (mkCustomProviderConfig (cfg url1) key) r).2).2 in
  let endpoint := (ResolveEndpoint (cfg url2) opts r').1 in
  providerConfigRegistry r' !! name = Some (cfg url2) /\ ep_BaseURL endpoint = url2 /\ ep_APIKey endpoint = key.
Proof.
  intros Hn H1 H2 Ha Hk Ho cfg r' endpoint.
  assert (providerConfigRegistry r' !! name = Some (cfg url2) /\ directKey r' name = key) as [Hc Hd].
  { unfold r'. rewrite !RegisterCustomProvider_Ok by done. simpl. rewrite (bool_decide_false (key = "")) by done.
    unfold directKey. simpl. by rewrite !lookup_insert_eq. }
  split_and!; [done..|]. unfold endpoint. rewrite ResolveEndpoint_key, !firstSet_cons. simpl. rewrite Hd, Ho.
  by rewrite (bool_decide_false (key = "")).
Qed.
End Providers.
