(* ===== verification/Embedding.v ===== *)
(** * Embedding: embedding models and batches

    internal/ai/embedding.go, embedding_api.go, embedding_batch.go,
    embedding_models.go and embedding_api_client_registry.go. *)

From Stdlib Require Import Ascii String SpecFloat.
From S2P Require Import Prelude GoStrings GoText GoFloat AiTypes GoJson Options EventStream Providers.

Local Open Scope string_scope.
Local Open Scope list_scope.
Local Open Scope Z_scope.
Local Open Scope stdpp_scope.

(** ** embedding.go *)

(** The callback is the function itself; what it is called with is recorded by
    [BatchEmbed]. *)
Record EmbeddingRequest : Type := mkEmbeddingRequest {
  er_Texts : list string;
  er_TaskType : string;
  er_Dimensions : Z;
  er_Encoding : string;
  er_OnProgress : option (Z -> Z -> ());
}.

(** [float32] values and raw encodings pass through as they are. *)
Record Embedding : Type := mkEmbedding {
  em_Index : Z;
  em_Values : list spec_float;
  em_Raw : any;
}.

Record EmbeddingUsage : Type := mkEmbeddingUsage { eu_Tokens : Z; eu_Cost : float64 }.

Record EmbeddingResponse : Type := mkEmbeddingResponse {
  rs_Embeddings : list Embedding;
  rs_Model : string;
  rs_Usage : EmbeddingUsage;
}.

Record EmbeddingModel : Type := mkEmbeddingModel {
  eb_ID : string;
  eb_Name : string;
  eb_API : string;
  eb_Provider : string;
  eb_MaxInputTokens : Z;
  eb_DefaultDims : Z;
  eb_MaxDims : Z;
  eb_MinDims : Z;
  eb_MaxBatchSize : Z;
  eb_SupportsDimCtrl : bool;
  eb_SupportsTaskType : bool;
  eb_Headers : gmap string (list string);
  eb_PerMTok : float64;
  eb_PricingKnown : bool;
}.

(** ** embedding_batch.go *)

Section Batch.
Context {E : Type}.

Inductive batchError : Type :=
  | ErrNoEmbedFunc
  | ErrContext (e : E)
  | ErrBatch (start end_ : Z) (e : E)
  | ErrEmbed (e : E).

(** What one call of [BatchEmbed] does: its result, the requests it makes of
    the provider and the progress it reports. *)
Record batchRun : Type := mkBatchRun {
  br_resp : option EmbeddingResponse;
  br_err : option batchError;
  br_requests : list EmbeddingRequest;
  br_progress : list (Z * Z);
}.

Definition wantsProgress (req : EmbeddingRequest) : bool := bool_decide (is_Some (er_OnProgress req)).

(** The request of one batch. *)
Definition batchReq (req : EmbeddingRequest) (start end_ : nat) : EmbeddingRequest :=
  mkEmbeddingRequest (take (end_ - start) (drop start (er_Texts req))) (er_TaskType req) (er_Dimensions req) (er_Encoding req) None.

Definition shift (start : nat) (emb : Embedding) : Embedding :=
  mkEmbedding (wrap64 (em_Index emb + Z.of_nat start)) (em_Values emb) (em_Raw emb).

(** [embedFn n] and [ctxErr n] are the provider's answer to the n-th request
    and the state of the context before it. *)
Context (embedFn : nat -> EmbeddingRequest -> res E (option EmbeddingResponse)) (ctxErr : nat -> option E).

(** The loop; the lengths of Go slices leave room for the sums.  [fuel] bounds
    the batches, of which there are at most as many as texts. *)
Fixpoint batchLoop (fuel : nat) (model : EmbeddingModel) (req : EmbeddingRequest) (batchSize n start : nat)
    (all : list Embedding) (usage : EmbeddingUsage) : batchRun :=
  let total := length (er_Texts req) in
  let response := Some (mkEmbeddingResponse all (eb_ID model) usage) in
  match fuel with
  | O => mkBatchRun response None [] []
  | S fuel =>
      if bool_decide (total <= start)%nat then mkBatchRun response None [] []
      else
        match ctxErr n with
        | Some e => mkBatchRun response (Some (ErrContext e)) [] []
        | None =>
            let end_ := Nat.min (start + batchSize) total in
            let request := batchReq req start end_ in
            match embedFn n request with
            | Err e => mkBatchRun response (Some (ErrBatch (Z.of_nat start) (Z.of_nat end_) e)) [request] []
            | Ok resp =>
                let all := match resp with Some r => all ++ (shift start <$> rs_Embeddings r) | None => all end in
                let usage :=
                  match resp with
                  | Some r => mkEmbeddingUsage (wrap64 (eu_Tokens usage + eu_Tokens (rs_Usage r))) (fadd (eu_Cost usage) (eu_Cost (rs_Usage r)))
                  | None => usage
                  end in
                let rest := batchLoop fuel model req batchSize (S n) (start + batchSize) all usage in
                mkBatchRun (br_resp rest) (br_err rest) (request :: br_requests rest)
                  (if wantsProgress req then (Z.of_nat end_, Z.of_nat total) :: br_progress rest else br_progress rest)
            end
        end
  end.

(** [BatchEmbed]; [hasFn] tells whether the function is not nil. *)
Definition BatchEmbed (hasFn : bool) (model : EmbeddingModel) (req : EmbeddingRequest) : batchRun :=
  if negb hasFn then mkBatchRun None (Some ErrNoEmbedFunc) [] []
  else
    let total := length (er_Texts req) in
    let batchSize := if bool_decide (eb_MaxBatchSize model <= 0) then Nat.max total 1 else Z.to_nat (eb_MaxBatchSize model) in
    if bool_decide (total <= batchSize)%nat then
      match embedFn 0 req with
      | Ok resp => mkBatchRun resp None [req] []
      | Err e => mkBatchRun None (Some (ErrEmbed e)) [req] []
      end
    else batchLoop total model req batchSize 0 0 [] (mkEmbeddingUsage 0 (S754_zero false)).

(** ** Batches and single requests *)

(** What a provider answers to a list of texts: an embedding for each, in
    order, and their tokens. *)
Section Faithful.
Context (embed : string -> list spec_float) (tokens : string -> Z).

Definition embedded (start : nat) (texts : list string) : list Embedding :=
  imap (fun i t => mkEmbedding (Z.of_nat (start + i)) (embed t) ANil) texts.
Definition tokensOf (texts : list string) : Z := foldr (fun t n => tokens t + n) 0 texts.

Lemma embedded_app start l1 l2 : embedded start (l1 ++ l2) = embedded start l1 ++ embedded (start + length l1) l2.
Proof.
  unfold embedded. rewrite imap_app. f_equal. apply imap_ext. intros i x _. simpl. f_equal. lia.
Qed.

Lemma tokensOf_app l1 l2 : tokensOf (l1 ++ l2) = tokensOf l1 + tokensOf l2.
Proof. induction l1 as [|x l1 IH]; simpl; [lia|]. unfold tokensOf in *. simpl. lia. Qed.

Lemma shift_embedded start texts : Z.of_nat (start + length texts) < 2 ^ 63 -> shift start <$> embedded 0 texts = embedded start texts.
Proof.
  intros H. unfold embedded. rewrite fmap_imap. apply imap_ext. intros i x Hi. apply lookup_lt_Some in Hi.
  unfold shift, compose. simpl. f_equal. rewrite wrap64_id; [lia|]. unfold int64. lia.
Qed.

Lemma take_batch (texts : list string) start end_ : (start <= end_)%nat -> take start texts ++ take (end_ - start) (drop start texts) = take end_ texts.
Proof. intros H. rewrite <- (take_drop start (take end_ texts)). rewrite take_take, skipn_firstn_comm. by rewrite Nat.min_l. Qed.

(** Requests of a run: within the batch size, for consecutive texts from
    [start] to [stop], with the other fields of the caller's request. *)
Definition covers (req : EmbeddingRequest) (batchSize start stop : nat) (requests : list EmbeddingRequest) : Prop :=
  concat (er_Texts <$> requests) = take (stop - start) (drop start (er_Texts req)) /\
  Forall (fun r => (0 < length (er_Texts r) <= batchSize)%nat /\
    r = mkEmbeddingRequest (er_Texts r) (er_TaskType req) (er_Dimensions req) (er_Encoding req) None) requests.

(** Reports of a run: growing counts up to [stop], out of the whole. *)
Fixpoint reports (total start stop : nat) (progress : list (Z * Z)) : Prop :=
  match progress with
  | [] => stop = start
  | (c, t) :: progress' => t = Z.of_nat total /\ exists c', c = Z.of_nat c' /\ (start < c')%nat /\ reports total c' stop progress'
  end.

(** The end of a run that embedded the first [k] texts. *)
Definition stopped (total batchSize k : nat) (err : option batchError) (asked : nat) : Prop :=
  match err with
  | None => k = total /\ asked = total
  | Some (ErrContext _) => (k < total)%nat /\ asked = k
  | Some (ErrBatch a b _) => (k < total)%nat /\ a = Z.of_nat k /\ b = Z.of_nat asked /\ asked = Nat.min (k + batchSize) total
  | _ => False
  end.

Definition embedsFirst (model : EmbeddingModel) (req : EmbeddingRequest) (k : nat) (resp : option EmbeddingResponse) : Prop :=
  exists cost, resp = Some (mkEmbeddingResponse (embedded 0 (take k (er_Texts req))) (eb_ID model)
    (mkEmbeddingUsage (tokensOf (take k (er_Texts req))) cost)).

(** A provider that embeds the texts of a request or fails. *)
Definition mayAnswer : Prop :=
  forall n req, (exists e, embedFn n req = Err e) \/
    exists cost model, embedFn n req = Ok (Some (mkEmbeddingResponse (embedded 0 (er_Texts req)) model (mkEmbeddingUsage (tokensOf (er_Texts req)) cost))).

Lemma batch_covers req batchSize start end_ stop requests :
  (start < end_ <= length (er_Texts req))%nat -> (end_ - start <= batchSize)%nat -> (end_ <= stop)%nat ->
  covers req batchSize end_ stop requests -> covers req batchSize start stop (batchReq req start end_ :: requests).
Proof.
  intros H1 H2 H3 [Hc Hf]. split.
  - cbn [fmap list_fmap concat]. rewrite Hc. simpl. rewrite <- (take_drop (end_ - start) (take (stop - start) _)).
    rewrite take_take, skipn_firstn_comm, drop_drop. f_equal; [f_equal; lia|]. f_equal; [lia|f_equal; lia].
  - constructor; [|done]. simpl. split; [|done]. rewrite length_take, length_drop. lia.
Qed.

Lemma covers_nil req batchSize start : covers req batchSize start start [].
Proof. split; [|constructor]. by rewrite Nat.sub_diag. Qed.

(** A run of the loop from the first [start] texts on. *)
Definition goodRun (model : EmbeddingModel) (req : EmbeddingRequest) (batchSize start : nat) (run : batchRun) : Prop :=
  let total := length (er_Texts req) in
  exists k asked, (start <= k <= asked)%nat /\ (asked <= total)%nat /\
    embedsFirst model req k (br_resp run) /\ stopped total batchSize k (br_err run) asked /\
    covers req batchSize start asked (br_requests run) /\
    (if wantsProgress req then reports total start k (br_progress run) else br_progress run = []).

Lemma goodRun_stop model req batchSize start err cost :
  (start <= length (er_Texts req))%nat -> stopped (length (er_Texts req)) batchSize start err start ->
  goodRun model req batchSize start
    (mkBatchRun (Some (mkEmbeddingResponse (embedded 0 (take start (er_Texts req))) (eb_ID model)
      (mkEmbeddingUsage (tokensOf (take start (er_Texts req))) cost))) err [] []).
Proof.
  intros Hs Hst. exists start, start. split; [lia|]. split; [lia|]. split; [by eexists|]. split; [done|].
  split; [apply covers_nil|]. simpl. by destruct (wantsProgress req).
Qed.

(** The same after one more request, which failed. *)
Lemma goodRun_fail model req batchSize start e cost :
  let total := length (er_Texts req) in let end_ := Nat.min (start + batchSize) total in
  (0 < batchSize)%nat -> (start < total)%nat ->
  goodRun model req batchSize start
    (mkBatchRun (Some (mkEmbeddingResponse (embedded 0 (take start (er_Texts req))) (eb_ID model)
      (mkEmbeddingUsage (tokensOf (take start (er_Texts req))) cost))) (Some (ErrBatch (Z.of_nat start) (Z.of_nat end_) e))
      [batchReq req start end_] []).
Proof.
  intros total end_ Hb Hs. exists start, end_. split; [lia|]. split; [lia|]. split; [by eexists|]. split; [by repeat split|].
  split; [apply batch_covers; [lia|lia|lia|apply covers_nil]|]. simpl. by destruct (wantsProgress req).
Qed.

Lemma goodRun_cons model req batchSize start run :
  let total := length (er_Texts req) in let end_ := Nat.min (start + batchSize) total in
  (0 < batchSize)%nat -> (start < total)%nat -> goodRun model req batchSize end_ run ->
  goodRun model req batchSize start
    (mkBatchRun (br_resp run) (br_err run) (batchReq req start end_ :: br_requests run)
      (if wantsProgress req then (Z.of_nat end_, Z.of_nat total) :: br_progress run else br_progress run)).
Proof.
  intros total end_ Hb Hs (k & asked & H1 & H2 & H3 & H4 & H5 & H6). exists k, asked.
  split; [lia|]. split; [done|]. split; [done|]. split; [done|]. split; [apply batch_covers; [lia..|done]|].
  simpl. destruct (wantsProgress req); [|done]. split; [done|]. exists end_. split_and!; [done|lia|done].
Qed.

Lemma batchLoop_step start batchSize (texts : list string) :
  Z.of_nat (length texts) < 2 ^ 62 -> (forall l, l `prefix_of` texts -> int64 (tokensOf l)) ->
  let end_ := Nat.min (start + batchSize) (length texts) in
  let batch := take (end_ - start) (drop start texts) in
  (start <= end_)%nat ->
  embedded 0 (take start texts) ++ (shift start <$> embedded 0 batch) = embedded 0 (take end_ texts) /\
  wrap64 (tokensOf (take start texts) + tokensOf batch) = tokensOf (take end_ texts).
Proof.
  intros Hlen Htok end_ batch He. unfold batch. rewrite <- (take_batch texts start end_) by done. split.
  - rewrite embedded_app, length_take. rewrite Nat.min_l by lia. simpl. f_equal. apply shift_embedded.
    rewrite length_take, length_drop. lia.
  - rewrite tokensOf_app. apply wrap64_id. rewrite <- tokensOf_app. apply Htok. rewrite take_batch by done.
    exists (drop end_ texts). by rewrite take_drop.
Qed.

Lemma batchLoop_done fuel model req batchSize n start all usage :
  (length (er_Texts req) <= start)%nat ->
  batchLoop fuel model req batchSize n start all usage = mkBatchRun (Some (mkEmbeddingResponse all (eb_ID model) usage)) None [] [].
Proof. intros H. destruct fuel; [done|]. cbn [batchLoop]. by rewrite bool_decide_true. Qed.

Lemma batchLoop_min fuel model req batchSize n start all usage :
  batchLoop fuel model req batchSize n start all usage =
  batchLoop fuel model req batchSize n (Nat.min start (length (er_Texts req))) all usage.
Proof.
  destruct (decide (start <= length (er_Texts req))%nat); [by rewrite Nat.min_l|]. by rewrite !batchLoop_done by lia.
Qed.

Lemma batchLoop_spec fuel model req batchSize n start cost :
  mayAnswer -> (0 < batchSize)%nat -> Z.of_nat (length (er_Texts req)) < 2 ^ 62 ->
  (forall l, l `prefix_of` er_Texts req -> int64 (tokensOf l)) ->
  (length (er_Texts req) - start <= fuel)%nat -> (start <= length (er_Texts req))%nat ->
  goodRun model req batchSize start
    (batchLoop fuel model req batchSize n start (embedded 0 (take start (er_Texts req)))
      (mkEmbeddingUsage (tokensOf (take start (er_Texts req))) cost)).
Proof.
  intros Hans Hb Hlen Htok. revert n start cost. induction fuel as [|fuel IH]; intros n start cost Hf Hs.
  - apply goodRun_stop; [done|]. by assert (start = length (er_Texts req)) as <- by lia.
  - cbn [batchLoop]. destruct (bool_decide_reflect (length (er_Texts req) <= start)%nat) as [Hdone|Hmore].
    { apply goodRun_stop; [done|]. by assert (start = length (er_Texts req)) as <- by lia. }
    destruct (ctxErr n) as [e|]; [apply goodRun_stop; [done|]; split; [lia|done]|].
    set (end_ := Nat.min (start + batchSize) (length (er_Texts req))).
    destruct (Hans n (batchReq req start end_)) as [[e ->]|(c & m & ->)]; [apply goodRun_fail; [done|lia]|].
    simpl. destruct (batchLoop_step start batchSize (er_Texts req) Hlen Htok ltac:(lia)) as [E1 E2]. fold end_ in E1, E2. rewrite E1, E2.
    apply goodRun_cons; [done|lia|]. fold end_. rewrite (batchLoop_min fuel model req batchSize (S n) (start + batchSize)). apply IH; lia.
Qed.

(** Batches.  With a provider that embeds the texts it is given or fails, a
    request of any size gives the embeddings of its texts in order, with their
    positions in the whole request, and the tokens of all of them: what the
    provider would answer to the whole request.  Every request made of the
    provider has at most the model's batch size, and together they are the texts
    in order.  After a failure the response holds the embeddings of the batches
    before it, and the error names the batch that failed.  Progress is reported
    after every batch, as growing counts out of the whole. *)
Theorem BatchEmbed_spec (model : EmbeddingModel) (req : EmbeddingRequest)
    (Hanswer : mayAnswer) (Hlen : Z.of_nat (length (er_Texts req)) < 2 ^ 62)
    (Htokens : forall l, l `prefix_of` er_Texts req -> int64 (tokensOf l))
    (Hsize : 0 < eb_MaxBatchSize model < Z.of_nat (length (er_Texts req))) :
  let run := BatchEmbed true model req in let total := length (er_Texts req) in let size := Z.to_nat (eb_MaxBatchSize model) in
  exists k asked, (k <= asked <= total)%nat /\
    (exists cost, br_resp run = Some (mkEmbeddingResponse (embedded 0 (take k (er_Texts req))) (eb_ID model)
      (mkEmbeddingUsage (tokensOf (take k (er_Texts req))) cost))) /\
    match br_err run with
    | None => k = total
    | Some (ErrContext _) => (k < total)%nat /\ asked = k
    | Some (ErrBatch a b _) => (k < total)%nat /\ a = Z.of_nat k /\ b = Z.of_nat asked /\ asked = Nat.min (k + size) total
    | Some _ => False
    end /\
    concat (er_Texts <$> br_requests run) = take asked (er_Texts req) /\
    Forall (fun r => (0 < length (er_Texts r) <= size)%nat /\
      r = mkEmbeddingRequest (er_Texts r) (er_TaskType req) (er_Dimensions req) (er_Encoding req) None) (br_requests run) /\
    (if wantsProgress req then reports total 0 k (br_progress run) else br_progress run = []).
Proof.
  intros run total size.
  assert (goodRun model req size 0 run) as (k & asked & H1 & H2 & H3 & H4 & [H5 H6] & H7).
  { unfold run, BatchEmbed. simpl. rewrite (bool_decide_false (_ <= 0)) by lia. fold size total. rewrite bool_decide_false by lia.
    apply (batchLoop_spec total model req size 0 0 (S754_zero false)); (done || lia). }
  exists k, asked. split; [lia|]. split; [done|]. split_and!; [|by rewrite H5, drop_0, Nat.sub_0_r|done..].
  destruct (br_err run) as [[]|]; simpl in H4; [done..|apply H4].
Qed.
End Faithful.
End Batch.

(** ** embedding_models.go, embedding_api_client_registry.go and embedding_api.go *)

Inductive embedError {E : Type} : Type :=
  | ErrNoTexts
  | ErrUnknownEmbeddingModel (modelID : string)
  | ErrNoDimCtrl (modelID : string)
  | ErrBelowMinDims (dims min : Z) (modelID : string)
  | ErrAboveMaxDims (dims max : Z) (modelID : string)
  | ErrNoEmbeddingProvider (modelID provider : string) (e : provError)
  | ErrNoEmbeddingClient (clientType provider : string)
  | ErrNilResponse (modelID : string)
  | ErrFromClient (e : E).
Arguments embedError : clear implicits.

Section Embed.
Context {E C : Type} (ClientType : C -> string) (Getenv : string -> string).

(** The package's variables for embeddings. *)
Record embeddingRegistries : Type := mkEmbeddingRegistries {
  embeddingModelRegistry : gmap string EmbeddingModel;
  embeddingAPIClientRegistry : gmap string C;
}.
Local Notation G := (M embeddingRegistries).

Definition set_embeddingModels f r := mkEmbeddingRegistries (f (embeddingModelRegistry r)) (embeddingAPIClientRegistry r).
Definition set_embeddingClients f r := mkEmbeddingRegistries (embeddingModelRegistry r) (f (embeddingAPIClientRegistry r)).

Definition RegisterEmbeddingModel (m : EmbeddingModel) : G () := modify (set_embeddingModels <[eb_ID m := m]>).
Definition GetEmbeddingModel (id : string) : G (option EmbeddingModel) := gets (fun r => embeddingModelRegistry r !! id).

(** sort.Slice by id; the ids of a registry are distinct, so the sorted slice
    is the same for every order Go visits the map in. *)
Definition byID (a b : EmbeddingModel) : Prop := String.le (eb_ID a) (eb_ID b).
#[export] Instance byID_dec a b : Decision (byID a b) := _.
Definition ListEmbeddingModels : G (list EmbeddingModel) :=
  gets (fun r => merge_sort byID (snd <$> map_to_list (embeddingModelRegistry r))).
Definition ListEmbeddingModelsByProvider (provider : string) : G (list EmbeddingModel) :=
  gets (fun r => merge_sort byID (filter (fun m => eb_Provider m = provider) (snd <$> map_to_list (embeddingModelRegistry r)))).
Definition ClearEmbeddingModels : G () := modify (set_embeddingModels (fun _ => ∅)).

Definition RegisterEmbeddingAPIClient (c : C) : G () := modify (set_embeddingClients <[ClientType c := c]>).
Definition GetEmbeddingAPIClient (clientType : string) : G (option C) := gets (fun r => embeddingAPIClientRegistry r !! clientType).
Definition ClearEmbeddingAPIClients : G () := modify (set_embeddingClients (fun _ => ∅)).

(** The models of the embedding catalog, with what the loop fills in. *)
Definition catalogEmbedding (provCfg : ProviderConfig) (m : EmbeddingModel) : EmbeddingModel :=
  mkEmbeddingModel (eb_ID m) (eb_Name m)
    (if bool_decide (eb_API m = "") && bool_decide (pc_EmbeddingAPIClientType provCfg <> "") then pc_EmbeddingAPIClientType provCfg else eb_API m)
    (eb_Provider m) (eb_MaxInputTokens m) (eb_DefaultDims m) (eb_MaxDims m) (eb_MinDims m) (eb_MaxBatchSize m) (eb_SupportsDimCtrl m)
    (eb_SupportsTaskType m) (eb_Headers m) (eb_PerMTok m) true.
Definition loadEmbeddingCatalog (models : list EmbeddingModel) (providers : gmap string ProviderConfig) : G (outcome (embedError E) ()) :=
  for_range_try models (fun m =>
    match providers !! eb_Provider m with
    | None => mret (Panic ("embedding catalog: provider " ++ quote (eb_Provider m) ++ " not in providers section"))
    | Some provCfg => RegisterEmbeddingModel (catalogEmbedding provCfg m);; mret (Return (Ok ()))
    end).

(** [resp.Usage.Cost == 0] holds of both zeros. *)
Definition finalizeEmbeddingResponse (resp : option EmbeddingResponse) (model : EmbeddingModel) : res (embedError E) EmbeddingResponse :=
  match resp with
  | None => Err (ErrNilResponse (eb_ID model))
  | Some resp =>
      let usage := rs_Usage resp in
      let zero := S754_zero false in
      let cost :=
        if fleb (eu_Cost usage) zero && fleb zero (eu_Cost usage) && fltb zero (eb_PerMTok model) && bool_decide (eu_Tokens usage > 0)
        then fdiv (fmul (float_of (eu_Tokens usage)) (eb_PerMTok model)) million
        else eu_Cost usage in
      Ok (mkEmbeddingResponse (rs_Embeddings resp) (if bool_decide (rs_Model resp = "") then eb_ID model else rs_Model resp)
        (mkEmbeddingUsage (eu_Tokens usage) cost))
  end.

(** The checks of [Embed] on the dimensions of a request. *)
Definition checkDims (modelID : string) (model : EmbeddingModel) (req : EmbeddingRequest) : res (embedError E) () :=
  let dims := er_Dimensions req in
  if bool_decide (dims > 0) && negb (eb_SupportsDimCtrl model) then Err (ErrNoDimCtrl modelID)
  else if bool_decide (dims > 0 /\ eb_MinDims model > 0 /\ dims < eb_MinDims model) then Err (ErrBelowMinDims dims (eb_MinDims model) modelID)
  else if bool_decide (dims > 0 /\ eb_MaxDims model > 0 /\ dims > eb_MaxDims model) then Err (ErrAboveMaxDims dims (eb_MaxDims model) modelID)
  else Ok ().

(** [Embed]; [clientEmbed] is the client's own method, [pr] the registries of
    the providers. *)
Definition Embed {C'} (clientEmbed : C -> ProviderEndpoint -> EmbeddingModel -> EmbeddingRequest -> res E (option EmbeddingResponse))
    (pr : registries (C := C')) (modelID : string) (req : EmbeddingRequest) : G (res (embedError E) EmbeddingResponse) :=
  if bool_decide (er_Texts req = []) then mret (Err ErrNoTexts)
  else
    m ← GetEmbeddingModel modelID;
    match m with
    | None => mret (Err (ErrUnknownEmbeddingModel modelID))
    | Some model =>
        match checkDims modelID model req, fst (GetProviderConfig (eb_Provider model) pr) with
        | Err e, _ => mret (Err e)
        | Ok _, Err e => mret (Err (ErrNoEmbeddingProvider modelID (eb_Provider model) e))
        | Ok _, Ok cfg =>
            let clientType := if bool_decide (pc_EmbeddingAPIClientType cfg = "") then eb_API model else pc_EmbeddingAPIClientType cfg in
            c ← GetEmbeddingAPIClient clientType;
            match c with
            | None => mret (Err (ErrNoEmbeddingClient clientType (eb_Provider model)))
            | Some client =>
                let endpoint := fst (ResolveEndpoint Getenv cfg zeroStreamOptions pr) in
                mret match clientEmbed client endpoint model req with
                     | Err e => Err (ErrFromClient e)
                     | Ok resp => finalizeEmbeddingResponse resp model
                     end
            end
        end
    end.
End Embed.

(** ** A small provider *)

Module Demo.

Definition embed (t : string) : list spec_float := [float_of (Z.of_nat (String.length t))].
Definition tokens (t : string) : Z := Z.of_nat (String.length t).
Definition provider (broken : nat) (n : nat) (req : EmbeddingRequest) : res string (option EmbeddingResponse) :=
  if bool_decide (n = broken) then Err "timeout"
  else Ok (Some (mkEmbeddingResponse (embedded embed 0 (er_Texts req)) "p" (mkEmbeddingUsage (tokensOf tokens (er_Texts req)) (literal 1 4)))).
Definition model : EmbeddingModel :=
  mkEmbeddingModel "m" "M" "api" "prov" 100 8 0 0 2 false false ∅ (literal 1 10) true.
Definition req : EmbeddingRequest := mkEmbeddingRequest ["a"; "bb"; "ccc"; "dddd"; "eeeee"] "query" 0 "" (Some (fun _ _ => ())).

Example batches :
  let run := BatchEmbed (provider 9) (fun _ => None) true model req in
  br_resp run = Some (mkEmbeddingResponse (embedded embed 0 (er_Texts req)) "m" (mkEmbeddingUsage 15 (literal 3 4))) /\ br_err run = None /\
  br_progress run = [(2, 5); (4, 5); (5, 5)].
Proof. vm_compute. done. Qed.

Example second_fails :
  let run := BatchEmbed (provider 1) (fun _ => None) true model req in
  map em_Index (flat_map rs_Embeddings (option_list (br_resp run))) = [0; 1] /\ br_err run = Some (ErrBatch 2 4 "timeout").
Proof. vm_compute. done. Qed.

Lemma BatchEmbed_spec_witness :
  concat (er_Texts <$> br_requests (BatchEmbed (provider 1) (fun _ => None) true model req)) = take 4 (er_Texts req).
Proof.
  destruct (BatchEmbed_spec (provider 1) (fun _ => None) embed tokens model req) as (k & asked & _ & _ & He & Hc & _).
  - intros n r. unfold provider. case_bool_decide; [left|right]; eauto.
  - done.
  - intros l Hl. assert (l ∈ (fun n => take n (er_Texts req)) <$> seq 0 6) as Hin.
    { destruct Hl as [u Hu]. apply list_elem_of_fmap. exists (length l). split; [rewrite Hu; by rewrite take_app_length|].
      apply elem_of_seq. apply (f_equal length) in Hu. rewrite length_app in Hu. simpl in Hu. lia. }
    simpl in Hin. rewrite !elem_of_cons in Hin. unfold int64. destruct Hin as [->|[->|[->|[->|[->|[->|Hin]]]]]]; try done. by apply elem_of_nil in Hin.
  - done.
  - rewrite Hc. f_equal. assert (br_err (BatchEmbed (provider 1) (fun _ => None) true model req) = Some (ErrBatch 2 4 "timeout")) as E by by vm_compute.
    rewrite E in He. destruct He as (_ & _ & He & _). lia.
Defined.
End Demo.
