(* ===== verification/GoStruct.v ===== *)
(** * GoStruct: encoding/json and Go structs

    [json.Unmarshal] into the struct types of the wire formats.  A decoder takes
    a value and what the variable holds, and gives what it holds afterwards;
    [None] is a type error, after which the callers use nothing of the variable.
    A member goes to the field its name matches; a member that comes twice is
    decoded into what the first one left; [null] changes no string, number,
    boolean or struct and makes pointers, maps and slices nil.  At the end,
    [http.Header] with its canonical keys, and requests of net/http. *)

From Stdlib Require Import Ascii String.
From S2P Require Import Prelude GoStrings GoText GoFloat AiTypes GoJson GoJsonText.

Local Open Scope string_scope.
Local Open Scope list_scope.
Local Open Scope stdpp_scope.

Definition decoder (A : Type) : Type := json -> A -> option A.

(** ** Decoders of the basic types *)

Definition dString : decoder string := fun v x => match v with JString s => Some s | JNull => Some x | _ => None end.
Definition dBool : decoder bool := fun v x => match v with JBool b => Some b | JNull => Some x | _ => None end.

(** int and int64: a literal with a fraction or an exponent, or one that does
    not fit, is an error. *)
Definition dInt : decoder Z := fun v x =>
  match v with
  | JNumber lit => match ParseInt lit with Ok n => Some n | Err _ => None end
  | JNull => Some x
  | _ => None
  end.

Definition dFloat : decoder float64 := fun v x =>
  match v with
  | JNumber lit => match ParseFloat lit with Ok f => Some f | Err _ => None end
  | JNull => Some x
  | _ => None
  end.

(** A pointer: a nil one gets a new zero value to decode into. *)
Definition dPtr {A} (zero : A) (d : decoder A) : decoder (option A) := fun v x =>
  match v with JNull => Some None | _ => Some <$> d v (default zero x) end.

(** [map[string]any]; [None] is the nil map. *)
Definition dMapAny : decoder (option (gmap string any)) := fun v x =>
  match v with
  | JNull => Some None
  | JObject ms => Some <$> foldl (fun acc kv => m ← acc; a ← toAny kv.2; Some (<[kv.1 := a]> m)) (Some (default ∅ x)) ms
  | _ => None
  end.

(** A slice: the elements it has are decoded into, the rest are new; [None] is
    the nil slice. *)
Fixpoint dElems {A} (zero : A) (d : decoder A) (l : list json) (xs : list A) : option (list A) :=
  match l with
  | [] => Some []
  | v :: l' => x ← d v (default zero (head xs)); r ← dElems zero d l' (tail xs); Some (x :: r)
  end.
Definition dSlice {A} (zero : A) (d : decoder A) : decoder (option (list A)) := fun v x =>
  match v with
  | JNull => Some None
  | JArray l => Some <$> dElems zero d l (default [] x)
  | _ => None
  end.

(** [any], and a raw message ([None]: nil). *)
Definition dAny : decoder any := fun v _ => toAny v.
Definition dRaw : decoder (option json) := fun v _ => Some (Some v).

(** ** Structs

    The fields of a struct are independent: each takes the members its name
    matches, in the order of the text. *)

Fixpoint field {A} (name : string) (d : decoder A) (ms : list (string * json)) (x : A) : option A :=
  match ms with
  | [] => Some x
  | (k, v) :: ms' => if matchesField name k then x' ← d v x; field name d ms' x' else field name d ms' x
  end.

Definition dStruct {A} (fields : list (string * json) -> A -> option A) : decoder A := fun v x =>
  match v with
  | JNull => Some x
  | JObject ms => fields ms x
  | _ => None
  end.

(** json.Unmarshal([]byte(data), &x) for a variable that holds [zero]. *)
Definition Unmarshal {A} (d : decoder A) (zero : A) (data : string) : option A := v ← parse data; d v zero.

(** json.NewDecoder(r).Decode(&x): the first value of the input; what follows
    it is not read. *)
Definition Decode {A} (d : decoder A) (zero : A) (data : string) : option A :=
  '(v, _) ← parseValue maxNestingDepth data; d v zero.

(** ** Marshalling values of type [any]

    json.Marshal writes the keys of a map in order; [None] is its error, for
    infinities and NaN. *)

Fixpoint insertMember (kv : string * json) (ms : list (string * json)) : list (string * json) :=
  match ms with
  | [] => [kv]
  | kv' :: ms' => if bool_decide (String.le kv.1 kv'.1) then kv :: ms else kv' :: insertMember kv ms'
  end.

Fixpoint ofAny (v : any) : option json :=
  match v with
  | ANil => Some JNull
  | ABool b => Some (JBool b)
  | AFloat f => JNumber <$> FormatFloat f
  | AInt n => Some (JNumber (FormatInt n))
  | AString s => Some (JString s)
  | AArray l =>
      let fix go (l : list any) : option (list json) :=
        match l with [] => Some [] | x :: l' => j ← ofAny x; r ← go l'; Some (j :: r) end in
      JArray <$> go l
  | AMap m => JObject <$> map_fold (fun k x acc => ms ← acc; j ← ofAny x; Some (insertMember (k, j) ms)) (Some []) m
  end.

Definition ofMap (m : gmap string any) : option json := ofAny (AMap m).

Example ofAny_ex :
  render <$> ofMap {["b" := AArray [AFloat (float_of 1); AString "<"]; "a" := AMap ∅; "c" := ANil]} =
  Some (quoted "{'a':{},'b':[1,'\u003c'],'c':null}").
Proof. vm_compute. reflexivity. Qed.

(** ** What is decoded from what was written *)

Definition numLit (n : Z) : json := JNumber (FormatInt n).

Lemma dString_str s x : dString (JString s) x = Some s.
Proof. done. Qed.
Lemma dInt_lit n x : int64 n -> dInt (numLit n) x = Some n.
Proof. intros H. unfold dInt, numLit, FormatInt. by rewrite ParseInt_pretty. Qed.

Lemma field_app {A} name (d : decoder A) ms1 ms2 x : field name d (ms1 ++ ms2) x = x' ← field name d ms1 x; field name d ms2 x'.
Proof.
  revert x. induction ms1 as [|[k v] ms1 IH]; intros x; simpl; [done|]. destruct (matchesField name k); [|apply IH].
  destruct (d v x); simpl; [apply IH|done].
Qed.

(** The value of a text that is all of the input, and of one with more after it. *)
Lemma Unmarshal_render {A} (d : decoder A) zero v :
  numbersOk v -> (depth v <= maxNestingDepth)%nat -> Unmarshal d zero (render v) = d (validJson v) zero.
Proof. intros Hn Hd. unfold Unmarshal. by rewrite parse_render. Qed.

Lemma Decode_render {A} (d : decoder A) zero v rest :
  numbersOk v -> (depth v <= maxNestingDepth)%nat -> delimited rest -> Decode d zero (render v ++ rest)%string = d (validJson v) zero.
Proof. intros Hn Hd Hr. unfold Decode. by rewrite reads_render. Qed.

(** A whole text is also read as the first value of the input. *)
Lemma Decode_Unmarshal {A} (d : decoder A) zero data x : Unmarshal d zero data = Some x -> Decode d zero data = Some x.
Proof.
  unfold Unmarshal, Decode, parse. destruct (parseValue maxNestingDepth data) as [[v rest]|]; simpl; [|done].
  by case_bool_decide.
Qed.

(** ** Struct fields as json.Marshal writes them *)

Definition omitempty (name s : string) : list (string * json) := if bool_decide (s = "") then [] else [(name, JString s)].
Definition omitzero (name : string) (n : Z) : list (string * json) := if bool_decide (n = 0)%Z then [] else [(name, numLit n)].
Definition omitfalse (name : string) (b : bool) : list (string * json) := if b then [(name, JBool true)] else [].
Definition omitnil (name : string) (v : option json) : list (string * json) := match v with Some j => [(name, j)] | None => [] end.
Definition floatLit (f : float64) : option json := JNumber <$> FormatFloat f.
Definition sliceJson {A} (f : A -> json) (l : option (list A)) : json := match l with Some l => JArray (map f l) | None => JNull end.

(** ** The members of a struct *)

Definition valid1 : string * json -> string * json := fun '(k, v) => (ToValidUTF8 k, validJson v).

Lemma validJson_object ms : validJson (JObject ms) = JObject (map valid1 ms).
Proof. reflexivity. Qed.

(** Members of other fields are passed over. *)
Definition keyed (k : string) (l : list (string * json)) : Prop := Forall (fun kv => kv.1 = k) l.

Lemma field_skip {A} name (d : decoder A) k l ms x :
  keyed k l -> matchesField name (ToValidUTF8 k) = false -> field name d (map valid1 l ++ ms) x = field name d ms x.
Proof. intros Hl Hk. induction Hl as [|[k' v] l Hkv _ IH]; [done|]. simpl in *. subst. by rewrite Hk. Qed.

Lemma keyed_one k v : keyed k [(k, v)].
Proof. by repeat constructor. Qed.
Lemma keyed_empty k s : keyed k (omitempty k s).
Proof. unfold omitempty. case_bool_decide; by repeat constructor. Qed.
Lemma keyed_zero k n : keyed k (omitzero k n).
Proof. unfold omitzero. case_bool_decide; by repeat constructor. Qed.
Lemma keyed_false k b : keyed k (omitfalse k b).
Proof. destruct b; by repeat constructor. Qed.
Lemma keyed_nil k o : keyed k (omitnil k o).
Proof. destruct o; by repeat constructor. Qed.

(** The members of a field are read. *)
Lemma field_one {A} name (d : decoder A) k v ms x :
  matchesField name (ToValidUTF8 k) = true -> field name d (map valid1 [(k, v)] ++ ms) x = x' ← d (validJson v) x; field name d ms x'.
Proof. intros Hk. simpl. by rewrite Hk. Qed.

Lemma field_empty name k s ms :
  matchesField name (ToValidUTF8 k) = true -> field name dString (map valid1 (omitempty k s) ++ ms) "" = field name dString ms (ToValidUTF8 s).
Proof. intros Hk. unfold omitempty. case_bool_decide as Hs; [by rewrite Hs|]. simpl. by rewrite Hk. Qed.

Lemma field_zero name k n ms :
  matchesField name (ToValidUTF8 k) = true -> int64 n -> field name dInt (map valid1 (omitzero k n) ++ ms) 0%Z = field name dInt ms n.
Proof.
  intros Hk Hn. unfold omitzero. case_bool_decide as Hz; [by rewrite Hz|]. change (field name dInt ((ToValidUTF8 k, numLit n) :: ms) 0%Z = field name dInt ms n).
  cbn [field]. by rewrite Hk, dInt_lit.
Qed.

Lemma field_false name k b ms :
  matchesField name (ToValidUTF8 k) = true -> field name dBool (map valid1 (omitfalse k b) ++ ms) false = field name dBool ms b.
Proof. intros Hk. destruct b; [|done]. simpl. by rewrite Hk. Qed.

Lemma field_nil name k o ms :
  matchesField name (ToValidUTF8 k) = true -> field name dRaw (map valid1 (omitnil k o) ++ ms) None = field name dRaw ms (validJson <$> o).
Proof. intros Hk. destruct o; [|done]. simpl. by rewrite Hk. Qed.

Lemma field_int name k n ms x :
  matchesField name (ToValidUTF8 k) = true -> int64 n -> field name dInt (map valid1 [(k, numLit n)] ++ ms) x = field name dInt ms n.
Proof.
  intros Hk Hn. change (field name dInt ((ToValidUTF8 k, numLit n) :: ms) x = field name dInt ms n). cbn [field]. by rewrite Hk, dInt_lit.
Qed.

Create HintDb struct discriminated.
#[export] Hint Resolve keyed_one keyed_empty keyed_zero keyed_false keyed_nil : struct.

(** Reading the fields of a struct out of the members it was written as. *)
Ltac struct_step :=
  first [ erewrite field_skip by (first [solve [eauto 1 with struct] | vm_compute; reflexivity])
        | rewrite field_empty by (vm_compute; reflexivity)
        | rewrite field_false by (vm_compute; reflexivity)
        | rewrite field_nil by (vm_compute; reflexivity)
        | rewrite field_zero by (first [assumption | vm_compute; reflexivity])
        | rewrite field_int by (first [assumption | vm_compute; reflexivity])
        | rewrite field_one by (vm_compute; reflexivity) ];
  cbn [mbind option_bind dString dBool dRaw validJson].
Ltac struct_tac := repeat struct_step; cbn [field mbind option_bind].


(** ** Rendered values on a line *)

(** No control character. *)
Definition printable (s : string) : Prop := allBytes (inRange 32 255) s = true.

Lemma printable_app s t : printable s -> printable t -> printable (s ++ t)%string.
Proof. unfold printable. intros Hs Ht. induction s as [|c s IH]; [done|]. simpl in *. apply andb_true_iff in Hs as [-> Hs]. by apply IH. Qed.

Lemma printable_byte b : (32 <= b < 256)%Z -> printable (byteStr b).
Proof. intros H. unfold printable, byteStr. simpl. rewrite andb_true_r. apply inRange_spec. rewrite byteOf_byte; lia. Qed.

Lemma printable_digits d : (0 <= d < 16)%Z -> printable (hexChar d).
Proof. intros H. apply printable_byte. case_bool_decide; lia. Qed.

Lemma printable_escape r : (0 <= r < 65536)%Z -> printable (unicodeEscape r).
Proof.
  intros H. unfold unicodeEscape. apply printable_app; [by vm_compute|]. apply printable_app; [by vm_compute|].
  repeat apply printable_app; apply printable_digits;
    [split; [apply Z.div_pos; lia|apply Z.div_lt_upper_bound; lia]|apply Z.mod_pos_bound; lia..].
Qed.

Lemma printable_rune r : (32 <= r)%Z -> scalar r -> printable (encodeRune r).
Proof.
  intros Hr Hs. unfold encodeRune. assert (r < 1114112)%Z as Hlt by (unfold scalar in Hs; lia). clear Hs.
  assert (forall x, printable (byteStr (128 + x mod 64))) as Hm.
  { intros x. apply printable_byte. pose proof (Z.mod_pos_bound x 64). lia. }
  assert (forall k d n, 32 <= k -> 0 < d -> r < d * n -> k + n <= 256 -> printable (byteStr (k + r / d)))%Z as Hd.
  { intros k d n Hk Hd Hn Hkn. apply printable_byte. pose proof (Z.div_pos r d). pose proof (Z.div_lt_upper_bound r d n). lia. }
  repeat case_bool_decide; repeat apply printable_app; try apply Hm.
  - apply printable_byte. lia.
  - apply (Hd _ _ 32)%Z; lia.
  - apply (Hd _ _ 16)%Z; lia.
  - apply (Hd _ _ 6)%Z; lia.
Qed.

Lemma printable_char r : scalar r -> printable (encodeChar r).
Proof.
  intros Hs. unfold encodeChar. case_bool_decide as H1; [destruct H1 as [-> | ->]; by vm_compute|].
  do 5 (case_bool_decide; [by vm_compute|]). case_bool_decide as Hc.
  - apply printable_escape. destruct Hc as [Hc|Hc]; [unfold scalar in Hs; lia|].
    rewrite !elem_of_cons, elem_of_nil in Hc. unfold scalar in Hs. lia.
  - apply printable_rune; [|done]. destruct (decide (r < 32)%Z); [by destruct Hc; left|lia].
Qed.

Lemma printable_string n s : printable (encodeString n s).
Proof.
  revert s. induction n as [|n IH]; intros [|c s]; try done. simpl. destruct (decodeRune c s) as [r rest] eqn:E.
  apply printable_app; [|apply IH]. unfold isInvalid. case_bool_decide as Hi; [by vm_compute|].
  destruct (decodeRune_step _ _ _ _ E) as [(u & _ & Hu)|Hu]; [apply printable_char, (utf8_scalar _ _ _ Hu)|done].
Qed.

Lemma printable_quote s : printable (quoteJson s).
Proof. unfold quoteJson. repeat apply printable_app; [by vm_compute|apply printable_string|by vm_compute]. Qed.

Lemma printable_join l sep : Forall printable l -> printable sep -> printable (Join l sep).
Proof.
  intros Hl Hs. induction Hl as [|x l Hx _ IH]; [done|]. destruct l as [|y l]; [done|]. rewrite Join_cons2. by repeat apply printable_app.
Qed.

Fixpoint numbersPrint (v : json) : Prop :=
  match v with
  | JNumber lit => printable lit
  | JArray l => Forall (fun p => p) (map numbersPrint l)
  | JObject ms => Forall (fun p => p) (map (fun '(_, v) => numbersPrint v) ms)
  | _ => True
  end.

Lemma printable_render v : numbersPrint v -> printable (render v).
Proof.
  induction v as [|b|lit|s|l IH|ms IH] using json_ind2; simpl; intros Hn; [by vm_compute|by destruct b|done|apply printable_quote| |].
  - repeat apply printable_app; [by vm_compute| |by vm_compute]. apply printable_join; [|by vm_compute].
    rewrite Forall_map in Hn |- *. rewrite Forall_forall in IH, Hn |- *. intros x Hx. by apply IH, Hn.
  - repeat apply printable_app; [by vm_compute| |by vm_compute]. apply printable_join; [|by vm_compute].
    rewrite Forall_map in Hn |- *. rewrite Forall_forall in IH, Hn |- *. intros [k x] Hx. unfold quoteMember.
    apply printable_app; [apply printable_quote|]. apply printable_app; [by vm_compute|]. apply (IH (k, x) Hx), (Hn (k, x) Hx).
Qed.

Lemma printable_int n : printable (FormatInt n).
Proof.
  pose proof (proj2 (pretty_graphic n)) as H. unfold FormatInt, printable. revert H. generalize (pretty n). intros s.
  induction s as [|c s IH]; [done|]. simpl. intros [Hc Hs]%andb_true_iff. rewrite (IH Hs), andb_true_r.
  apply inRange_spec. apply graphic_byte in Hc. lia.
Qed.

(** ** Integers as JSON numbers *)

Lemma pretty_N_go_head (x : N) s : (0 < x)%N -> exists c t, pretty_N_go x s = String c t /\ c <> "0"%char.
Proof.
  revert s. induction (N.lt_wf_0 x) as [x _ IH]. intros s Hx. rewrite pretty_N_go_step by done.
  destruct (decide (x `div` 10 = 0)%N) as [Hd|Hd].
  - rewrite Hd, pretty_N_go_0. eexists _, _. split; [done|]. intros Hc.
    destruct (pretty_N_char_digit (x `mod` 10)) as [_ Hb]; [by apply N.mod_lt|]. rewrite Hc in Hb. change (byteOf "0") with 48%Z in Hb.
    pose proof (N.div_mod x 10 ltac:(lia)). lia.
  - apply IH; [apply N.div_lt; lia|]. apply N.neq_0_lt_0. exact Hd.
Qed.

Lemma pretty_N_scan (x : N) : scanInt (pretty x) = Some (pretty x, "").
Proof.
  destruct (pretty_N_digits x) as [Hd Hne]. destruct (decide (x = 0)%N) as [->|Hx]; [done|].
  assert (exists c t, pretty x = String c t /\ c <> "0"%char) as (c & t & E & Hc).
  { unfold pretty, pretty_N. rewrite decide_False by done. apply pretty_N_go_head. lia. }
  unfold scanInt, scanDigits. rewrite E, bool_decide_false by done. rewrite <- E, spanDigits_digits by done. by destruct (pretty x).
Qed.

Lemma FormatInt_number n : numberText (FormatInt n).
Proof.
  unfold numberText, FormatInt, scanNumber.
  assert (forall x : N, scanSign (pretty x) = ("", pretty x)) as Hs.
  { intros x. destruct (pretty_N_digits x) as [Hd Hne]. destruct (pretty x) as [|c t]; [done|]. simpl in *.
    apply andb_true_iff in Hd as [Hc _]. destruct (digit_not_sign c Hc) as [_ Hm]. by rewrite bool_decide_false. }
  assert (forall sg (x : N), ('(int, s) ← scanInt (pretty x); '(frac, s) ← scanFrac s; '(exp, s) ← scanExp s; Some ((sg ++ int ++ frac ++ exp)%string, s)) =
    Some ((sg ++ pretty x)%string, "")) as Hn.
  { intros sg x. rewrite pretty_N_scan. simpl. by rewrite append_nil_r. }
  destruct n as [|p|p]; [done| |].
  - change (pretty (Z.pos p)) with (pretty (N.pos p)). rewrite Hs. apply (Hn "").
  - change (pretty (Z.neg p)) with (String "-" (pretty (N.pos p))). unfold scanSign. rewrite bool_decide_true by done. apply (Hn "-").
Qed.

Lemma numLit_ok n : numbersOk (numLit n).
Proof. apply FormatInt_number. Qed.

(** An object is its own trimming. *)
Lemma render_object_solid ms : solid (render (JObject ms)).
Proof.
  cbn [render]. set (body := Join _ _). exists "{"%char, "}"%char, (body ++ "}")%string, ("{" ++ body)%string.
  split_and!; [reflexivity|reflexivity|reflexivity|]. by rewrite <- append_assoc_l.
Qed.

Example decoded_twice :
  let d := dStruct (fun ms (x : string * Z) => t ← field "type" dString ms x.1; i ← field "index" dInt ms x.2; Some (t, i)) in
  (fun s => Unmarshal d ("", 7%Z) (quoted s)) <$>
  ["{'index': 3, 'TYPE': 'a', 'other': [1], 'index': null}"; "{'index': 1.0}"; "[]"; "null"; "{'index': '3'}"; "{'type': 'x'"] =
  [Some ("a", 3%Z); None; None; Some ("", 7%Z); None; None].
Proof. vm_compute. reflexivity. Qed.

Definition Header : Type := gmap string (list string).

(** textproto.validHeaderFieldByte. *)
Definition validHeaderFieldByte (c : ascii) : bool := isAlnum c || oneOf "!#$%&'*+-.^_`|~" c.

Fixpoint canonicalLoop (upper : bool) (s : string) : string :=
  match s with
  | EmptyString => ""
  | String c s' =>
      let c' := if upper && isLower c then ascii_of_nat (nat_of_ascii c - 32)
                else if negb upper && isUpper c then ascii_of_nat (nat_of_ascii c + 32) else c in
      String c' (canonicalLoop (bool_decide (c = "-"%char)) s')
  end.

(** textproto.CanonicalMIMEHeaderKey. *)
Definition CanonicalHeaderKey (s : string) : string := if allBytes validHeaderFieldByte s then canonicalLoop true s else s.

Definition header_Set (k v : string) (h : Header) : Header := <[CanonicalHeaderKey k := [v]]> h.
Definition header_Add (k v : string) (h : Header) : Header :=
  <[CanonicalHeaderKey k := default [] (h !! CanonicalHeaderKey k) ++ [v]]> h.
Definition header_Get (k : string) (h : Header) : string :=
  default "" (head (default [] (h !! CanonicalHeaderKey k))).

(** [for k, vs := range m { for _, v := range vs { h.Add(k, v) } }]; the
    entries in the order the range visits them. *)
Definition addAll (entries : list (string * list string)) (h : Header) : Header :=
  foldl (fun h kv => foldl (fun h v => header_Add kv.1 v h) h kv.2) h entries.

Record httpRequest : Type := mkRequest {
  rq_Method : string;
  rq_URL : string;
  rq_Header : Header;
  rq_Body : string;
}.

(** What http.NewRequest and Client.Do come to: the URL is refused, the request
    fails ([canceled]: by a canceled context), or there is a response whose body
    ends or breaks off with an error. *)
Inductive httpOutcome : Type :=
  | BadRequest (err : string)
  | DoFailed (err : string) (canceled : bool)
  | Responds (status : Z) (body : string) (readErr : option string).

(** strings.TrimRight(s, "/"). *)
Fixpoint trimSlashes (s : string) : string :=
  match s with
  | EmptyString => ""
  | String c s' => match trimSlashes s' with
                   | EmptyString => if bool_decide (c = "/"%char) then "" else String c ""
                   | t => String c t
                   end
  end.

Example headers_ex :
  CanonicalHeaderKey <$> ["x-api-KEY"; "content-type"; "x y"; "ETag"] = ["X-Api-Key"; "Content-Type"; "x y"; "Etag"].
Proof. reflexivity. Qed.

Example trimSlashes_ex : trimSlashes <$> ["https://h/"; "a//b//"; "/"; ""] = ["https://h"; "a//b"; ""; ""].
Proof. reflexivity. Qed.
