(* ===== verification/Monitor.v ===== *)
(** * Monitor: the state of a terminal session

    internal/termmux/monitor: the state machine of state.go, and AgentMonitor of
    monitor.go, whose loop, idle timer, subscribers and callers interleave at the
    points where the code takes or leaves a lock.  What a session reports is
    compared with what happened. *)

From Stdlib Require Import Ascii String.
From S2P Require Import Prelude GoStrings GoText GoFloat AiTypes GoJson.

Local Open Scope string_scope.
Local Open Scope list_scope.
Local Open Scope stdpp_scope.
Local Open Scope go_scope.

(** ** state.go *)

Inductive State : Type := StateInitialized | StateActive | StateIdle | StateExited.

Inductive SubState : Type :=
  SubStateNone | SubStateThinking | SubStateToolUse | SubStateWaitingForPermission | SubStateCompacting.

Inductive TransitionEvent : Type :=
  | TransitionSessionStarted | TransitionToolStarted | TransitionToolCompleted
  | TransitionApprovalRequested | TransitionPermissionGranted | TransitionPermissionDenied
  | TransitionCompactionStarted | TransitionCompactionCompleted
  | TransitionIdleTimeout | TransitionActivity | TransitionSessionEnded | TransitionProcessExit.

#[export] Instance State_eq_dec : EqDecision State.
Proof. solve_decision. Defined.
#[export] Instance SubState_eq_dec : EqDecision SubState.
Proof. solve_decision. Defined.

Definition transition (current : State) (currentSub : SubState) (event : TransitionEvent) : State * SubState * bool :=
  let no := (current, currentSub, false) in
  let active := bool_decide (current = StateActive) in
  let sub s := bool_decide (currentSub = s) in
  match event with
  | TransitionSessionStarted =>
      if bool_decide (current = StateInitialized) then (StateActive, SubStateThinking, true) else no
  | TransitionToolStarted =>
      if active && (sub SubStateThinking || sub SubStateNone) then (StateActive, SubStateToolUse, true) else no
  | TransitionToolCompleted =>
      if active && sub SubStateToolUse then (StateActive, SubStateThinking, true) else no
  | TransitionApprovalRequested =>
      if active && sub SubStateThinking then (StateActive, SubStateWaitingForPermission, true) else no
  | TransitionPermissionGranted =>
      if active && sub SubStateWaitingForPermission then (StateActive, SubStateToolUse, true) else no
  | TransitionPermissionDenied =>
      if active && sub SubStateWaitingForPermission then (StateActive, SubStateThinking, true) else no
  | TransitionCompactionStarted =>
      if active && sub SubStateThinking then (StateActive, SubStateCompacting, true) else no
  | TransitionCompactionCompleted =>
      if active && sub SubStateCompacting then (StateActive, SubStateThinking, true) else no
  | TransitionIdleTimeout => if active then (StateIdle, SubStateNone, true) else no
  | TransitionActivity =>
      if bool_decide (current = StateIdle) then (StateActive, SubStateThinking, true) else no
  | TransitionSessionEnded | TransitionProcessExit =>
      if active || bool_decide (current = StateIdle) then (StateExited, SubStateNone, true) else no
  end.

(** ** events.go: the events *)

Inductive AgentEventType : Type :=
  | EventSessionStarted | EventSessionEnded | EventTurnCompleted | EventToolStarted | EventToolCompleted
  | EventApprovalRequested | EventPermissionGranted | EventPermissionDenied
  | EventCompactionStarted | EventCompactionCompleted | EventAgentMessage | EventStateChange
  | EventOther (name : string).

Record SessionStartedData : Type := mkSessionStarted { ss_SessionID : string; ss_Model : string }.
Record SessionEndedData : Type := mkSessionEnded { se_Reason : string }.
Record TurnCompletedData : Type := mkTurnCompleted {
  tc_TurnID : string; tc_InputTokens : Z; tc_OutputTokens : Z; tc_CachedTokens : Z; tc_CostUSD : float64 }.
Record ToolStartedData : Type := mkToolStarted { ts_ToolName : string; ts_CallID : string }.
Record ToolCompletedData : Type := mkToolCompleted {
  td_ToolName : string; td_CallID : string; td_DurationMs : Z; td_Success : bool }.
Record ApprovalRequestedData : Type := mkApproval { ar_ToolName : string; ar_CallID : string; ar_Payload : option json }.
Record AgentMessageData : Type := mkAgentMessage { am_Content : string }.
Record StateChangeData : Type := mkStateChange { sc_State : State; sc_SubState : SubState }.

(** The field Data of type any, with what the code puts there. *)
Inductive EventData : Type :=
  | NoData
  | DSessionStarted (d : SessionStartedData)
  | DSessionEnded (d : SessionEndedData)
  | DTurnCompleted (d : TurnCompletedData)
  | DToolStarted (d : ToolStartedData)
  | DToolCompleted (d : ToolCompletedData)
  | DApprovalRequested (d : ApprovalRequestedData)
  | DAgentMessage (d : AgentMessageData)
  | DStateChange (d : StateChangeData)
  | DMap (m : option (gmap string any)).

Record AgentEvent : Type := mkAgentEvent { ev_Type : AgentEventType; ev_Timestamp : Z; ev_Data : EventData }.

(** ** The counters *)

Record Metrics : Type := mkMetrics {
  me_InputTokens : Z; me_OutputTokens : Z; me_TotalCostUSD : float64; me_TurnCount : Z; me_ToolCounts : gmap string Z }.
Definition zeroMetrics : Metrics := mkMetrics 0 0 (float_of 0) 0 ∅.

Definition updateMetrics (evt : AgentEvent) (m : Metrics) : Metrics :=
  match ev_Type evt, ev_Data evt with
  | EventTurnCompleted, DTurnCompleted d =>
      mkMetrics (wrap64 (me_InputTokens m + tc_InputTokens d)) (wrap64 (me_OutputTokens m + tc_OutputTokens d))
        (fadd (me_TotalCostUSD m) (tc_CostUSD d)) (wrap64 (me_TurnCount m + 1)) (me_ToolCounts m)
  | EventToolStarted, DToolStarted d =>
      mkMetrics (me_InputTokens m) (me_OutputTokens m) (me_TotalCostUSD m) (me_TurnCount m)
        (<[ts_ToolName d := wrap64 (default 0%Z (me_ToolCounts m !! ts_ToolName d) + 1)]> (me_ToolCounts m))
  | _, _ => m
  end.

(** ** monitor.go: the monitor *)

Definition defaultEventBufferSize : nat := 256.

Record subscriber : Type := mkSubscriber { sub_id : nat; sub_ch : nat }.

(** [m_stateCh] counts the channels closed so far; the timer is nil, pending or
    past its time. *)
Record AgentMonitor : Type := mkMonitor {
  m_events : list AgentEvent;
  m_state : State;
  m_subState : SubState;
  m_stateChangedAt : Z;
  m_stateCh : nat;
  m_metrics : Metrics;
  m_subscribers : list subscriber;
  m_idleTimer : option bool;
  m_done : bool;
}.

Definition NewAgentMonitor (now : Z) : AgentMonitor :=
  mkMonitor [] StateInitialized SubStateNone now 0 zeroMetrics [] None false.

Definition set_events es (m : AgentMonitor) := mkMonitor es (m_state m) (m_subState m) (m_stateChangedAt m) (m_stateCh m) (m_metrics m) (m_subscribers m) (m_idleTimer m) (m_done m).
Definition set_metrics x (m : AgentMonitor) := mkMonitor (m_events m) (m_state m) (m_subState m) (m_stateChangedAt m) (m_stateCh m) x (m_subscribers m) (m_idleTimer m) (m_done m).
Definition set_subscribers x (m : AgentMonitor) := mkMonitor (m_events m) (m_state m) (m_subState m) (m_stateChangedAt m) (m_stateCh m) (m_metrics m) x (m_idleTimer m) (m_done m).
Definition set_idleTimer x (m : AgentMonitor) := mkMonitor (m_events m) (m_state m) (m_subState m) (m_stateChangedAt m) (m_stateCh m) (m_metrics m) (m_subscribers m) x (m_done m).
Definition change_state (now : Z) (s : State) (sub : SubState) (m : AgentMonitor) :=
  mkMonitor (m_events m) s sub now (S (m_stateCh m)) (m_metrics m) (m_subscribers m) (m_idleTimer m) (m_done m).

(** Submit and whether the buffer took the event. *)
Definition Submit (evt : AgentEvent) (m : AgentMonitor) : bool * AgentMonitor :=
  if bool_decide (length (m_events m) < defaultEventBufferSize)%nat then (true, set_events (m_events m ++ [evt]) m) else (false, m).

Definition Subscribe (ch : nat) (m : AgentMonitor) : nat * AgentMonitor :=
  let id := length (m_subscribers m) in
  (id, set_subscribers (m_subscribers m ++ [mkSubscriber id ch]) m).

(** The function Subscribe returns. *)
Fixpoint removeFirst (id : nat) (l : list subscriber) : list subscriber :=
  match l with
  | [] => []
  | s :: l' => if bool_decide (sub_id s = id) then l' else s :: removeFirst id l'
  end.
Definition unsubscribe (id : nat) (m : AgentMonitor) : AgentMonitor := set_subscribers (removeFirst id (m_subscribers m)) m.

Definition Close (m : AgentMonitor) : AgentMonitor :=
  mkMonitor (m_events m) (m_state m) (m_subState m) (m_stateChangedAt m) (m_stateCh m) (m_metrics m) (m_subscribers m) (m_idleTimer m) true.

Definition resetIdleTimer : AgentMonitor -> AgentMonitor := set_idleTimer (Some true).
Definition stopIdleTimer : AgentMonitor -> AgentMonitor := set_idleTimer None.

(** The switch of updateState; its default branch is [None]. *)
Definition transitionOf (t : AgentEventType) : option TransitionEvent :=
  match t with
  | EventSessionStarted => Some TransitionSessionStarted
  | EventSessionEnded => Some TransitionSessionEnded
  | EventToolStarted => Some TransitionToolStarted
  | EventToolCompleted => Some TransitionToolCompleted
  | EventApprovalRequested => Some TransitionApprovalRequested
  | EventPermissionGranted => Some TransitionPermissionGranted
  | EventPermissionDenied => Some TransitionPermissionDenied
  | EventCompactionStarted => Some TransitionCompactionStarted
  | EventCompactionCompleted => Some TransitionCompactionCompleted
  | EventTurnCompleted | EventAgentMessage | EventStateChange | EventOther _ => None
  end.

Definition stateChange (now : Z) (s : State) (sub : SubState) : AgentEvent :=
  mkAgentEvent EventStateChange now (DStateChange (mkStateChange s sub)).

(** ** Channels and goroutines

    The channels of subscribers are buffered and belong to them.  Between two
    locks the loop is at a [pc]: an event [cur] it processes goes through
    updateState (the default branch reads the state under a lock of its own),
    the timer, the fan-out of the change, updateMetrics, the writer and the
    fan-out of the event. *)

Record chan : Type := mkChan { ch_cap : nat; ch_buf : list AgentEvent }.
Definition trySend (evt : AgentEvent) (c : chan) : chan :=
  if bool_decide (length (ch_buf c) < ch_cap c)%nat then mkChan (ch_cap c) (ch_buf c ++ [evt]) else c.

Inductive pc : Type :=
  | LSelect
  | LUpdate (cur : AgentEvent)
  | LLock (cur : AgentEvent) (te : TransitionEvent)
  | LReset (cur : AgentEvent) (change : option AgentEvent)
  | LStopTimer (cur : AgentEvent) (change : AgentEvent)
  | LAnnounce (cur : AgentEvent) (change : AgentEvent)
  | LAnnounceTo (cur : AgentEvent) (change : AgentEvent) (chs : list nat)
  | LMetrics (cur : AgentEvent)
  | LWrite (cur : AgentEvent)
  | LFanOut (cur : AgentEvent)
  | LFanOutTo (cur : AgentEvent) (chs : list nat)
  | LEnd
  | LReturned.

(** A call of the function time.AfterFunc was given. *)
Inductive callback : Type := CLock | CFanOut (change : AgentEvent) | CFanOutTo (change : AgentEvent) (chs : list nat) | CReturned.

(** Besides the program's state: the events taken by the buffer, those counted,
    the states gone through, and the changes given to a fan-out.  [w_written] is
    what the writer was called with, if there is one. *)
Record world : Type := mkWorld {
  w_mon : AgentMonitor;
  w_pc : pc;
  w_draining : bool;
  w_callbacks : list callback;
  w_chans : gmap nat chan;
  w_written : option (list AgentEvent);
  g_accepted : list AgentEvent;
  g_counted : list AgentEvent;
  g_path : list (State * SubState);
  g_announced : list (State * SubState);
}.

Definition initial (written : option (list AgentEvent)) (now : Z) : world :=
  mkWorld (NewAgentMonitor now) LSelect false [] ∅ written [] [] [] [].

Definition advance (m : AgentMonitor) (p : pc) (w : world) : world :=
  mkWorld m p (w_draining w) (w_callbacks w) (w_chans w) (w_written w) (g_accepted w) (g_counted w) (g_path w) (g_announced w).
Definition set_callbacks cbs (w : world) : world :=
  mkWorld (w_mon w) (w_pc w) (w_draining w) cbs (w_chans w) (w_written w) (g_accepted w) (g_counted w) (g_path w) (g_announced w).
Definition set_chans chs (w : world) : world :=
  mkWorld (w_mon w) (w_pc w) (w_draining w) (w_callbacks w) chs (w_written w) (g_accepted w) (g_counted w) (g_path w) (g_announced w).
Definition set_mon m (w : world) : world := advance m (w_pc w) w.
Definition drain (w : world) : world :=
  mkWorld (w_mon w) LSelect true (w_callbacks w) (w_chans w) (w_written w) (g_accepted w) (g_counted w) (g_path w) (g_announced w).
Definition log_written (evt : AgentEvent) (w : world) : world :=
  mkWorld (w_mon w) (w_pc w) (w_draining w) (w_callbacks w) (w_chans w) ((.++ [evt]) <$> w_written w) (g_accepted w) (g_counted w) (g_path w) (g_announced w).
Definition note_accepted (evt : AgentEvent) (w : world) : world :=
  mkWorld (w_mon w) (w_pc w) (w_draining w) (w_callbacks w) (w_chans w) (w_written w) (g_accepted w ++ [evt]) (g_counted w) (g_path w) (g_announced w).
Definition note_counted (evt : AgentEvent) (w : world) : world :=
  mkWorld (w_mon w) (w_pc w) (w_draining w) (w_callbacks w) (w_chans w) (w_written w) (g_accepted w) (g_counted w ++ [evt]) (g_path w) (g_announced w).
Definition note_state (p : State * SubState) (w : world) : world :=
  mkWorld (w_mon w) (w_pc w) (w_draining w) (w_callbacks w) (w_chans w) (w_written w) (g_accepted w) (g_counted w) (g_path w ++ [p]) (g_announced w).
(** What a state-change event says. *)
Definition told (evt : AgentEvent) : State * SubState :=
  match ev_Data evt with DStateChange d => (sc_State d, sc_SubState d) | _ => (StateInitialized, SubStateNone) end.
Definition note_announced (evt : AgentEvent) (w : world) : world :=
  mkWorld (w_mon w) (w_pc w) (w_draining w) (w_callbacks w) (w_chans w) (w_written w) (g_accepted w) (g_counted w) (g_path w) (g_announced w ++ [told evt]).

Definition send (evt : AgentEvent) (ch : nat) (w : world) : world := set_chans (alter (trySend evt) ch (w_chans w)) w.
Definition receivers (m : AgentMonitor) : list nat := sub_ch <$> m_subscribers m.

(** A state change under the lock: [None] when nothing changes. *)
Definition change (now : Z) (te : TransitionEvent) (w : world) : option (State * world) :=
  let m := w_mon w in
  let '(newState, newSub, valid) := transition (m_state m) (m_subState m) te in
  if valid && negb (bool_decide (newState = m_state m /\ newSub = m_subState m))
  then Some (newState, note_state (newState, newSub) (set_mon (change_state now newState newSub m) w)) else None.

(** The loop's next action at the time [now]; [None] while it waits. *)
Definition loopStep (now : Z) (w : world) : option world :=
  let m := w_mon w in
  let go p := Some (advance m p w) in
  match w_pc w with
  | LSelect =>
      match m_events m with
      | evt :: rest => Some (advance (set_events rest m) (LUpdate evt) w)
      | [] => if w_draining w then go LEnd else None
      end
  | LUpdate cur =>
      match transitionOf (ev_Type cur) with
      | Some te => go (LLock cur te)
      | None => match m_state m with
                | StateActive => go (LReset cur None)
                | StateIdle => go (LLock cur TransitionActivity)
                | _ => go (LMetrics cur)
                end
      end
  | LLock cur te =>
      match change now te w with
      | Some (newState, w') =>
          let evt := stateChange now newState (m_subState (w_mon w')) in
          Some (advance (w_mon w') (match newState with
                                    | StateActive => LReset cur (Some evt)
                                    | StateIdle | StateExited => LStopTimer cur evt
                                    | StateInitialized => LAnnounce cur evt
                                    end) w')
      | None => go (LMetrics cur)
      end
  | LReset cur chg => Some (advance (resetIdleTimer m) (match chg with Some evt => LAnnounce cur evt | None => LMetrics cur end) w)
  | LStopTimer cur evt => Some (advance (stopIdleTimer m) (LAnnounce cur evt) w)
  | LAnnounce cur evt => Some (note_announced evt (advance m (LAnnounceTo cur evt (receivers m)) w))
  | LAnnounceTo cur evt [] => go (LMetrics cur)
  | LAnnounceTo cur evt (ch :: chs) => Some (send evt ch (advance m (LAnnounceTo cur evt chs) w))
  | LMetrics cur => Some (note_counted cur (advance (set_metrics (updateMetrics cur (m_metrics m)) m) (LWrite cur) w))
  | LWrite cur => Some (log_written cur (advance m (LFanOut cur) w))
  | LFanOut cur => go (LFanOutTo cur (receivers m))
  | LFanOutTo cur [] => go LSelect
  | LFanOutTo cur (ch :: chs) => Some (send cur ch (advance m (LFanOutTo cur chs) w))
  | LEnd => Some (advance (stopIdleTimer m) LReturned w)
  | LReturned => None
  end.

(** The next action of a timer's function.  It changes the state whenever
    [transition] allows it, which is never to the same state. *)
Definition callbackStep (now : Z) (c : callback) (w : world) : option (callback * world) :=
  match c with
  | CLock =>
      match change now TransitionIdleTimeout w with
      | Some (newState, w') => Some (CFanOut (stateChange now newState (m_subState (w_mon w'))), w')
      | None => Some (CReturned, w)
      end
  | CFanOut evt => Some (CFanOutTo evt (receivers (w_mon w)), note_announced evt w)
  | CFanOutTo evt [] => Some (CReturned, w)
  | CFanOutTo evt (ch :: chs) => Some (CFanOutTo evt chs, send evt ch w)
  | CReturned => None
  end.

Inductive step : relation world :=
  | step_loop now w w' : loopStep now w = Some w' -> step w w'
  | step_writer_panics cur w : w_pc w = LWrite cur -> w_written w <> None -> step w (advance (w_mon w) LSelect w)
  | step_done w : w_pc w = LSelect -> m_done (w_mon w) = true -> step w (drain w)
  | step_timer w : m_idleTimer (w_mon w) = Some true ->
      step w (set_callbacks (w_callbacks w ++ [CLock]) (set_mon (set_idleTimer (Some false) (w_mon w)) w))
  | step_callback now i c c' w w' : w_callbacks w !! i = Some c -> callbackStep now c w = Some (c', w') ->
      step w (set_callbacks (<[i := c']> (w_callbacks w)) w')
  | step_Submit evt w : let r := Submit evt (w_mon w) in
      step w (let w' := set_mon r.2 w in if r.1 then note_accepted evt w' else w')
  | step_Subscribe ch cap w : w_chans w !! ch = None ->
      step w (set_chans (<[ch := mkChan cap []]> (w_chans w)) (set_mon (Subscribe ch (w_mon w)).2 w))
  | step_unsubscribe id w : step w (set_mon (unsubscribe id (w_mon w)) w)
  | step_receive ch c evt rest w : w_chans w !! ch = Some c -> ch_buf c = evt :: rest ->
      step w (set_chans (<[ch := mkChan (ch_cap c) rest]> (w_chans w)) w)
  | step_Close w : step w (set_mon (Close (w_mon w)) w).

Definition reachable (w : world) : Prop := exists written now, rtc step (initial written now) w.

(** ** The state machine is the one of the plan

    docs/plans/09-h2-termmux-port.md draws the transitions there are. *)
Inductive allowed : State * SubState -> TransitionEvent -> State * SubState -> Prop :=
  | al_start : allowed (StateInitialized, SubStateNone) TransitionSessionStarted (StateActive, SubStateThinking)
  | al_tool : allowed (StateActive, SubStateThinking) TransitionToolStarted (StateActive, SubStateToolUse)
  | al_tool_done : allowed (StateActive, SubStateToolUse) TransitionToolCompleted (StateActive, SubStateThinking)
  | al_ask : allowed (StateActive, SubStateThinking) TransitionApprovalRequested (StateActive, SubStateWaitingForPermission)
  | al_grant : allowed (StateActive, SubStateWaitingForPermission) TransitionPermissionGranted (StateActive, SubStateToolUse)
  | al_deny : allowed (StateActive, SubStateWaitingForPermission) TransitionPermissionDenied (StateActive, SubStateThinking)
  | al_compact : allowed (StateActive, SubStateThinking) TransitionCompactionStarted (StateActive, SubStateCompacting)
  | al_compacted : allowed (StateActive, SubStateCompacting) TransitionCompactionCompleted (StateActive, SubStateThinking)
  | al_idle sub : allowed (StateActive, sub) TransitionIdleTimeout (StateIdle, SubStateNone)
  | al_active : allowed (StateIdle, SubStateNone) TransitionActivity (StateActive, SubStateThinking)
  | al_exit s sub te : s = StateActive \/ s = StateIdle -> te = TransitionSessionEnded \/ te = TransitionProcessExit ->
      allowed (s, sub) te (StateExited, SubStateNone).

(** A sub-state is there exactly when the state is active. *)
Definition wellFormed (p : State * SubState) : Prop := p.1 = StateActive <-> p.2 <> SubStateNone.

Lemma transition_spec p te q : wellFormed p -> transition p.1 p.2 te = (q, true) <-> allowed p te q.
Proof.
  intros Hwf. destruct p as [s sub], q as [s' sub']. simpl in *. split.
  - intros H. destruct te, s, sub; simpl in H; simplify_eq;
      first [by constructor|apply al_exit; by auto|unfold wellFormed in Hwf; naive_solver].
  - inversion 1; subst; first [done|by destruct sub|naive_solver].
Qed.

Lemma allowed_wellFormed p te q : allowed p te q -> wellFormed q.
Proof. destruct 1; unfold wellFormed; naive_solver. Qed.

Lemma allowed_change p te q : allowed p te q -> wellFormed p -> p <> q.
Proof. destruct 1; try done; intros Hwf; intros [=]; unfold wellFormed in Hwf; naive_solver. Qed.

(** The moves of the diagram by what causes them: an event of some type, or
    ([None]) the idle time running out.  Types the diagram does not name are
    activity. *)
Inductive moves : option AgentEventType -> State * SubState -> State * SubState -> Prop :=
  | mv_start : moves (Some EventSessionStarted) (StateInitialized, SubStateNone) (StateActive, SubStateThinking)
  | mv_tool : moves (Some EventToolStarted) (StateActive, SubStateThinking) (StateActive, SubStateToolUse)
  | mv_tool_done : moves (Some EventToolCompleted) (StateActive, SubStateToolUse) (StateActive, SubStateThinking)
  | mv_ask : moves (Some EventApprovalRequested) (StateActive, SubStateThinking) (StateActive, SubStateWaitingForPermission)
  | mv_grant : moves (Some EventPermissionGranted) (StateActive, SubStateWaitingForPermission) (StateActive, SubStateToolUse)
  | mv_deny : moves (Some EventPermissionDenied) (StateActive, SubStateWaitingForPermission) (StateActive, SubStateThinking)
  | mv_compact : moves (Some EventCompactionStarted) (StateActive, SubStateThinking) (StateActive, SubStateCompacting)
  | mv_compacted : moves (Some EventCompactionCompleted) (StateActive, SubStateCompacting) (StateActive, SubStateThinking)
  | mv_active t : match t with EventTurnCompleted | EventAgentMessage | EventStateChange | EventOther _ => True | _ => False end ->
      moves (Some t) (StateIdle, SubStateNone) (StateActive, SubStateThinking)
  | mv_end s sub : s = StateActive \/ s = StateIdle -> moves (Some EventSessionEnded) (s, sub) (StateExited, SubStateNone)
  | mv_idle sub : moves None (StateActive, sub) (StateIdle, SubStateNone).

(** The transition the loop asks for when it handles an event. *)
Definition asked (t : AgentEventType) : TransitionEvent := default TransitionActivity (transitionOf t).

Lemma allowed_moves p t q : allowed p (asked t) q <-> moves (Some t) p q.
Proof.
  split.
  - unfold asked. intros H. destruct t; simpl in H; inversion H; subst; first [by constructor|by (constructor; auto)|naive_solver].
  - unfold asked. inversion 1; subst; simpl; first [by (constructor; auto)|by destruct t; try done; constructor].
Qed.

(** ** What a state goes through

    [way p l q]: from [p] the states [l] follow one another, the last is [q]. *)
Fixpoint way (p : State * SubState) (l : list (State * SubState)) (q : State * SubState) : Prop :=
  match l with [] => p = q | r :: l' => (exists te, allowed p te r) /\ way r l' q end.

Lemma way_snoc p l q te r : way p l q -> allowed q te r -> way p (l ++ [r]) r.
Proof.
  revert p. induction l as [|x l IH]; simpl; intros p.
  - intros -> H. split; [by exists te|done].
  - intros [Hx Hl] H. eauto.
Qed.

Definition at_ (w : world) : State * SubState := (m_state (w_mon w), m_subState (w_mon w)).

(** A change under the lock is one of the machine's. *)
Lemma change_spec now te w : wellFormed (at_ w) ->
  match change now te w with
  | Some (s, w') => exists sub, allowed (at_ w) te (s, sub) /\
      w' = note_state (s, sub) (set_mon (change_state now s sub (w_mon w)) w)
  | None => forall q, ~ allowed (at_ w) te q
  end.
Proof.
  intros Hwf. unfold change. destruct (transition _ _ te) as [[s sub] valid] eqn:Ht.
  pose proof (transition_spec (at_ w) te (s, sub) Hwf) as Hspec. unfold at_ in Hspec at 1 2. cbn [fst snd] in Hspec.
  destruct valid; cbn [andb].
  - apply Hspec in Ht as Ha. rewrite bool_decide_eq_false_2.
    + exists sub. done.
    + intros [-> ->]. by apply (allowed_change _ _ _ Ha Hwf).
  - intros q Hq. apply (transition_spec (at_ w) te q Hwf) in Hq. unfold at_ in Hq. cbn [fst snd] in Hq. congruence.
Qed.

(** The events at work on and the changes not yet given to a fan-out. *)
Definition inflight (p : pc) : list AgentEvent :=
  match p with
  | LUpdate cur | LLock cur _ | LReset cur _ | LStopTimer cur _ | LAnnounce cur _ | LAnnounceTo cur _ _ | LMetrics cur => [cur]
  | _ => []
  end.
Definition unannounced (p : pc) : list (State * SubState) :=
  match p with LReset _ (Some evt) | LStopTimer _ evt | LAnnounce _ evt => [told evt] | _ => [] end.
Definition unannouncedBy (c : callback) : list (State * SubState) := match c with CFanOut evt => [told evt] | _ => [] end.

(** The idle timer runs, or its function is about to take the lock, or the loop
    is about to set the timer. *)
Definition idleComing (w : world) : Prop :=
  m_idleTimer (w_mon w) = Some true \/ CLock ∈ w_callbacks w \/ exists cur chg, w_pc w = LReset cur chg.

(** At the lock the loop asks for what the event means, and it stops the timer
    only at the end. *)
Definition loopOk (w : world) : Prop :=
  match w_pc w with
  | LLock cur te => te = asked (ev_Type cur)
  | LStopTimer _ _ => m_state (w_mon w) = StateExited
  | _ => True
  end.

Record stateInv (w : world) : Prop := mkStateInv {
  si_wf : wellFormed (at_ w);
  si_loop : loopOk w;
  si_idle : m_state (w_mon w) = StateActive -> w_pc w <> LReturned -> idleComing w;
  si_way : way (StateInitialized, SubStateNone) (g_path w) (at_ w);
  si_told : g_announced w ++ unannounced (w_pc w) ++ (w_callbacks w ≫= unannouncedBy) ≡ₚ g_path w;
  si_signals : m_stateCh (w_mon w) = length (g_path w);
}.

Record countInv (w : world) : Prop := mkCountInv {
  ci_fifo : g_accepted w = g_counted w ++ inflight (w_pc w) ++ m_events (w_mon w);
  ci_bound : length (m_events (w_mon w)) <= defaultEventBufferSize;
  ci_metrics : m_metrics (w_mon w) = foldl (fun m evt => updateMetrics evt m) zeroMetrics (g_counted w);
}.

Lemma asked_loop t : asked t <> TransitionIdleTimeout.
Proof. by destruct t. Qed.

Lemma countInv_initial written now : countInv (initial written now).
Proof. split; simpl; [done|lia|done]. Qed.

Lemma change_frame now te w s w' : change now te w = Some (s, w') ->
  m_events (w_mon w') = m_events (w_mon w) /\ m_metrics (w_mon w') = m_metrics (w_mon w) /\
  g_accepted w' = g_accepted w /\ g_counted w' = g_counted w.
Proof. unfold change. destruct (transition _ _ te) as [[? ?] valid]. case_match; [|done]. by intros [= <- <-]. Qed.

(** Most actions touch nothing the counts depend on. *)
Lemma countInv_same w w' : countInv w ->
  g_accepted w' = g_accepted w -> g_counted w' = g_counted w -> inflight (w_pc w') = inflight (w_pc w) ->
  m_events (w_mon w') = m_events (w_mon w) -> m_metrics (w_mon w') = m_metrics (w_mon w) -> countInv w'.
Proof. intros [Hf Hb Hm] E1 E2 E3 E4 E5. split; congruence. Qed.

Lemma countInv_loop now w w' : countInv w -> loopStep now w = Some w' -> countInv w'.
Proof.
  intros Hw Hl. unfold loopStep in Hl. destruct (w_pc w) eqn:Hpc.
  - destruct (m_events (w_mon w)) as [|evt rest] eqn:He.
    + case_match; simplify_eq. apply (countInv_same w); simpl; by rewrite ?Hpc.
    + simplify_eq. destruct Hw as [Hf Hb Hm]. rewrite Hpc, He in *. split; [done| |done]. simpl in *. lia.
  - repeat case_match; simplify_eq; apply (countInv_same w); simpl; by rewrite ?Hpc.
  - destruct (change now te w) as [[s w1]|] eqn:Hc; simplify_eq; [apply change_frame in Hc as (E1 & E2 & E3 & E4)|];
      apply (countInv_same w); rewrite ?Hpc; simpl; try done. by destruct s.
  - destruct change0; simplify_eq; apply (countInv_same w); simpl; by rewrite ?Hpc.
  - simplify_eq; apply (countInv_same w); simpl; by rewrite ?Hpc.
  - simplify_eq; apply (countInv_same w); simpl; by rewrite ?Hpc.
  - case_match; simplify_eq; apply (countInv_same w); simpl; by rewrite ?Hpc.
  - simplify_eq. destruct Hw as [Hf Hb Hm]. rewrite Hpc in *. split; simpl; [by rewrite Hf, <- app_assoc|done|].
    by rewrite foldl_snoc, Hm.
  - simplify_eq; apply (countInv_same w); simpl; by rewrite ?Hpc.
  - simplify_eq; apply (countInv_same w); simpl; by rewrite ?Hpc.
  - case_match; simplify_eq; apply (countInv_same w); simpl; by rewrite ?Hpc.
  - simplify_eq; apply (countInv_same w); simpl; by rewrite ?Hpc.
  - done.
Qed.

Lemma countInv_callback now c c' w w' : countInv w -> callbackStep now c w = Some (c', w') -> w_pc w' = w_pc w -> countInv w'.
Proof.
  intros Hw Hc Hp. destruct c; simpl in Hc; try done.
  - destruct (change _ _ w) as [[s w1]|] eqn:E; simplify_eq; [|done]. apply change_frame in E as (E1 & E2 & E3 & E4).
    apply (countInv_same w); by rewrite ?Hp.
  - injection Hc as <- <-. by apply (countInv_same w).
  - destruct chs; injection Hc as <- <-; by apply (countInv_same w).
Qed.

Lemma callbackStep_pc now c c' w w' : callbackStep now c w = Some (c', w') -> w_pc w' = w_pc w.
Proof.
  destruct c; simpl; repeat case_match; intros; simplify_eq; try done.
  unfold change in *. repeat case_match; by simplify_eq.
Qed.

Lemma countInv_step w w' : countInv w -> step w w' -> countInv w'.
Proof.
  intros Hw Hs. destruct Hs as [now w w' Hl|cur w Hpc _|w Hpc _|w _|now i c c' w w' _ Hc|evt w r|ch cap w _|id w|ch c evt rest w _ _|w].
  - by eapply countInv_loop.
  - apply (countInv_same w); simpl; by rewrite ?Hpc.
  - apply (countInv_same w); simpl; by rewrite ?Hpc.
  - by apply (countInv_same w).
  - apply (countInv_same w'); try done. eapply countInv_callback; eauto using callbackStep_pc.
  - unfold r, Submit. case_bool_decide as Hlt; simpl; [|by apply (countInv_same w)].
    destruct Hw as [Hf Hb Hm]. split; simpl; [by rewrite Hf, <- !app_assoc|rewrite length_app; simpl; unfold defaultEventBufferSize in *; lia|done].
  - by apply (countInv_same w).
  - by apply (countInv_same w).
  - by apply (countInv_same w).
  - by apply (countInv_same w).
Qed.

(** *** The state, its way and what is said of it *)

(** An action that leaves the state, the timer and the callbacks alone. *)
Lemma stateInv_same w w' : stateInv w -> at_ w' = at_ w -> loopOk w' ->
  m_idleTimer (w_mon w') = m_idleTimer (w_mon w) -> w_callbacks w' = w_callbacks w ->
  (forall cur chg, w_pc w = LReset cur chg -> exists cur' chg', w_pc w' = LReset cur' chg') ->
  w_pc w <> LReturned ->
  g_path w' = g_path w -> g_announced w' ++ unannounced (w_pc w') = g_announced w ++ unannounced (w_pc w) ->
  m_stateCh (w_mon w') = m_stateCh (w_mon w) -> stateInv w'.
Proof.
  intros [Hwf Hl Hi Hw Ht Hs] Ea Hl' Et Ec Hr Hp Eg En Es.
  split; rewrite ?Eg, ?Es, ?Ea; try done.
  - injection Ea as -> _. intros Hact _. unfold idleComing. rewrite Et, Ec.
    destruct (Hi Hact Hp) as [?|[?|(cur & chg & Hpc)]]; [by left|by right; left|right; right; eauto].
  - by rewrite Ec, app_assoc, En, <- app_assoc.
Qed.

Lemma stateInv_initial written now : stateInv (initial written now).
Proof. by split. Qed.

(** A change of state that the callbacks or the loop make. *)
Lemma stateInv_change now te w s w1 w' : stateInv w -> change now te w = Some (s, w1) ->
  w_mon w' = w_mon w1 -> g_path w' = g_path w1 -> g_announced w' = g_announced w ->
  loopOk w' -> (s = StateActive -> idleComing w') ->
  unannounced (w_pc w') ++ (w_callbacks w' ≫= unannouncedBy) ≡ₚ
    (s, m_subState (w_mon w1)) :: unannounced (w_pc w) ++ (w_callbacks w ≫= unannouncedBy) ->
  stateInv w'.
Proof.
  intros [Hwf Hl Hi Hw Ht Hs] Hc Em Eg En Hl' Hi' Hp.
  pose proof (change_spec now te w Hwf) as Hspec. rewrite Hc in Hspec. destruct Hspec as (sub & Ha & ->).
  simpl in *. split; unfold at_; rewrite ?Em, ?Eg, ?En; simpl; try done.
  - by eapply allowed_wellFormed.
  - intros -> _. by apply Hi'.
  - by eapply way_snoc.
  - rewrite Hp, <- Ht. solve_Permutation.
  - rewrite length_app, Hs. simpl. lia.
Qed.

Lemma bind_insert (cbs : list callback) i c c' : cbs !! i = Some c ->
  unannouncedBy c ++ (<[i := c']> cbs ≫= unannouncedBy) ≡ₚ unannouncedBy c' ++ (cbs ≫= unannouncedBy).
Proof.
  intros Hi. rewrite insert_take_drop by (by eapply lookup_lt_Some).
  rewrite <- (take_drop_middle cbs i c Hi) at 3. rewrite !bind_app, !bind_cons. solve_Permutation.
Qed.

Lemma idle_frame w w' : idleComing w -> m_idleTimer (w_mon w') = m_idleTimer (w_mon w) -> w_callbacks w' = w_callbacks w ->
  (forall cur chg, w_pc w = LReset cur chg -> exists cur' chg', w_pc w' = LReset cur' chg') -> idleComing w'.
Proof.
  intros [?|[?|(cur & chg & Hpc)]] Et Ec Hr; unfold idleComing; rewrite Et, Ec; [by left|by right; left|right; right; eauto].
Qed.

Ltac same Hw Hpc := apply (stateInv_same _ _ Hw); unfold loopOk; simpl; rewrite ?Hpc; try done; naive_solver.

Lemma stateInv_loop now w w' : stateInv w -> loopStep now w = Some w' -> stateInv w'.
Proof.
  intros Hw Hl. unfold loopStep in Hl. destruct (w_pc w) eqn:Hpc; [..|done].
  - destruct (m_events (w_mon w)); [case_match|]; simplify_eq; same Hw Hpc.
  - destruct (transitionOf _) as [te|] eqn:Hte; [|case_match]; simplify_eq;
      (apply (stateInv_same _ _ Hw); unfold loopOk, asked; simpl; rewrite ?Hpc, ?Hte; try done; naive_solver).
  - pose proof (si_loop _ Hw) as Hloop. unfold loopOk in Hloop. rewrite Hpc in Hloop.
    destruct (change now te w) as [[s w1]|] eqn:Hc; simplify_eq; [|same Hw Hpc].
    pose proof (change_spec now (asked (ev_Type cur)) w (si_wf _ Hw)) as Hspec. rewrite Hc in Hspec. destruct Hspec as (sub & Ha & ->).
    eapply (stateInv_change _ _ w s _ _ Hw Hc); simpl; try done.
    + unfold loopOk; simpl. destruct s; try done. destruct (ev_Type cur); inversion Ha.
    + intros ->. right; right; simpl; eauto.
    + rewrite Hpc. by destruct s.
  - pose proof Hw as [Hwf _ Hi Hway Ht Hs]. rewrite Hpc in Ht.
    destruct change0; simplify_eq; split; simpl; try done; intros _ _; by left.
  - pose proof Hw as [Hwf Hlo Hi Hway Ht Hs]. unfold loopOk in Hlo. rewrite Hpc in *. simplify_eq.
    split; simpl; try done. by rewrite Hlo.
  - pose proof Hw as [Hwf _ Hi Hway Ht Hs]. rewrite Hpc in *. simplify_eq. split; simpl; try done.
    + intros Hact _. eapply idle_frame; [by apply Hi|done..|]. by rewrite Hpc.
    + rewrite <- Ht. simpl. solve_Permutation.
  - case_match; simplify_eq; same Hw Hpc.
  - simplify_eq; same Hw Hpc.
  - simplify_eq; same Hw Hpc.
  - simplify_eq; same Hw Hpc.
  - case_match; simplify_eq; same Hw Hpc.
  - pose proof Hw as [Hwf _ Hi Hway Ht Hs]. rewrite Hpc in *. simplify_eq. by split.
Qed.

Lemma change_callbacks now te w s w' : change now te w = Some (s, w') ->
  w_pc w' = w_pc w /\ w_callbacks w' = w_callbacks w /\ g_announced w' = g_announced w /\ m_idleTimer (w_mon w') = m_idleTimer (w_mon w).
Proof. unfold change. destruct (transition _ _ te) as [[? ?] valid]. case_match; [|done]. by intros [= <- <-]. Qed.

(** A callback past the lock takes nothing from the timer's obligations. *)
Lemma stateInv_callback now i c c' w w' : stateInv w -> w_callbacks w !! i = Some c -> callbackStep now c w = Some (c', w') ->
  stateInv (set_callbacks (<[i := c']> (w_callbacks w)) w').
Proof.
  intros Hw Hi Hc. pose proof (bind_insert _ _ _ c' Hi) as Hperm.
  assert (Hcs : c <> CLock -> idleComing w -> idleComing (set_callbacks (<[i := c']> (w_callbacks w)) w)).
  { intros Hne [?|[Hin|(cur & chg & Hpc)]]; [by left| |right; right; eauto]. right; left. simpl.
    apply list_elem_of_lookup in Hin as [j Hj]. apply list_elem_of_lookup. exists j.
    rewrite list_lookup_insert_ne; [done|]. by intros ->; simplify_eq. }
  pose proof Hw as [Hwf Hl Hidle Hway Ht Hs].
  destruct c as [|evt|evt [|ch chs]|]; simpl in Hc; [|injection Hc as <- <-..|done].
  - destruct (change _ _ w) as [[s w1]|] eqn:E; injection Hc as <- <-.
    + pose proof (change_spec now TransitionIdleTimeout w Hwf) as Hspec. rewrite E in Hspec. destruct Hspec as (sub & Ha & ->).
      apply (stateInv_change _ _ w s _ _ Hw E); simpl; try done.
      * unfold loopOk in *; simpl in *. by destruct (w_pc w); try done; inversion Ha; subst; congruence.
      * by inversion Ha; intros.
      * simpl in Hperm. rewrite Hperm. solve_Permutation.
    + pose proof (change_spec now TransitionIdleTimeout w Hwf) as Hspec. rewrite E in Hspec.
      simpl in Hperm. split; simpl; try done; [|by rewrite Hperm].
      intros Hact _. destruct (Hspec (StateIdle, SubStateNone)). unfold at_. rewrite Hact. constructor.
  - split; simpl; try done; [intros; by apply Hcs; [|apply Hidle]|]. simpl in Hperm. rewrite <- Ht, <- Hperm. solve_Permutation.
  - split; simpl; try done; [intros; by apply Hcs; [|apply Hidle]|]. simpl in Hperm. by rewrite Hperm.
  - split; simpl; try done; [intros; by apply Hcs; [|apply Hidle]|]. simpl in Hperm. by rewrite Hperm.
Qed.

Lemma stateInv_step w w' : stateInv w -> step w w' -> stateInv w'.
Proof.
  intros Hw Hs. destruct Hs as [now w w' Hl|cur w Hpc _|w Hpc _|w Ht|now i c c' w w' Hi Hc|evt w r|ch cap w _|id w|ch c evt rest w _ _|w].
  - by eapply stateInv_loop.
  - same Hw Hpc.
  - same Hw Hpc.
  - destruct Hw as [Hwf Hl Hidle Hway Htold Hsig]. split; simpl; try done.
    + intros _ _. right; left. simpl. set_solver.
    + rewrite bind_app, bind_singleton. simpl. by rewrite app_nil_r.
  - by eapply stateInv_callback.
  - unfold r, Submit. case_bool_decide; simpl; pose proof Hw as []; by split.
  - pose proof Hw as []; by split.
  - pose proof Hw as []; by split.
  - pose proof Hw as []; by split.
  - pose proof Hw as []; by split.
Qed.

Lemma reachable_inv w : reachable w -> stateInv w /\ countInv w.
Proof.
  intros (written & now & Hr). revert Hr. apply (rtc_invariant step (fun w => stateInv w /\ countInv w)).
  - split; [apply stateInv_initial|apply countInv_initial].
  - intros a b [Ha Hb] Hs. split; [by eapply stateInv_step|by eapply countInv_step].
Qed.

(** ** The counters are sums *)

Definition turnOf (evt : AgentEvent) : option TurnCompletedData :=
  match ev_Type evt, ev_Data evt with EventTurnCompleted, DTurnCompleted d => Some d | _, _ => None end.
Definition toolOf (evt : AgentEvent) : option string :=
  match ev_Type evt, ev_Data evt with EventToolStarted, DToolStarted d => Some (ts_ToolName d) | _, _ => None end.
Definition sum (l : list Z) : Z := foldr Z.add 0%Z l.
Definition uses (name : string) (evts : list AgentEvent) : nat := length (filter (.= name) (omap toolOf evts)).

Definition sums (evts : list AgentEvent) (m : Metrics) : Prop :=
  let turns := omap turnOf evts in
  me_InputTokens m = wrap64 (sum (tc_InputTokens <$> turns)) /\
  me_OutputTokens m = wrap64 (sum (tc_OutputTokens <$> turns)) /\
  me_TotalCostUSD m = foldl fadd (float_of 0) (tc_CostUSD <$> turns) /\
  me_TurnCount m = wrap64 (Z.of_nat (length turns)) /\
  forall name, default 0%Z (me_ToolCounts m !! name) = wrap64 (Z.of_nat (uses name evts)).

Lemma wrap64_add a b : wrap64 (wrap64 a + b) = wrap64 (a + b).
Proof.
  unfold wrap64.
  replace ((a + 2 ^ 63) mod 2 ^ 64 - 2 ^ 63 + b + 2 ^ 63)%Z with ((a + 2 ^ 63) mod 2 ^ 64 + b)%Z by lia.
  rewrite Zplus_mod_idemp_l. do 2 f_equal. lia.
Qed.

Lemma sum_snoc l x : sum (l ++ [x]) = (sum l + x)%Z.
Proof. unfold sum. induction l as [|y l IH]; simpl; lia. Qed.

Lemma updateMetrics_sums evts evt m : sums evts m -> sums (evts ++ [evt]) (updateMetrics evt m).
Proof.
  intros (Hi & Ho & Hc & Hn & Ht). unfold sums, uses. rewrite !omap_app. simpl.
  unfold updateMetrics. destruct (turnOf evt) as [d|] eqn:E1; unfold turnOf in E1.
  - destruct (ev_Type evt) eqn:Ety, (ev_Data evt) eqn:Ed; try done. simplify_eq.
    replace (toolOf evt) with (@None string) by (unfold toolOf; by rewrite Ety). simpl.
    rewrite app_nil_r, !fmap_app. simpl. rewrite !sum_snoc, foldl_snoc, length_app, Hi, Ho, Hc, Hn, !wrap64_add. simpl.
    split_and!; try done. f_equal. lia.
  - rewrite app_nil_r. destruct (toolOf evt) as [name|] eqn:E2; unfold toolOf in E2.
    + destruct (ev_Type evt) eqn:Ety, (ev_Data evt) eqn:Ed; try done. simplify_eq. simpl.
      split_and!; try done. intros name. rewrite filter_app, length_app. simpl.
      destruct (decide (ts_ToolName d = name)) as [<-|Hne].
      * rewrite lookup_insert_eq, filter_cons_True, filter_nil by done. cbn [default]. rewrite Ht, wrap64_add. simpl. f_equal. unfold uses. lia.
      * rewrite lookup_insert_ne, filter_cons_False, filter_nil by done. rewrite Ht. unfold uses. simpl. f_equal. lia.
    + rewrite app_nil_r.
      destruct (ev_Type evt) eqn:Ety, (ev_Data evt) eqn:Ed; by split_and!.
Qed.

Lemma sums_zero : sums [] zeroMetrics.
Proof. by split_and!. Qed.

Lemma counted_sums evts : sums evts (foldl (fun m evt => updateMetrics evt m) zeroMetrics evts).
Proof.
  induction evts as [|evt evts IH] using rev_ind; [apply sums_zero|]. rewrite foldl_snoc. by apply updateMetrics_sums.
Qed.

(** A change of the state has its cause: the event the loop is handling, or the
    idle timer's function waiting for the lock. *)
Definition causedBy (why : option AgentEventType) (w : world) : Prop :=
  match why with
  | Some t => exists cur, inflight (w_pc w) = [cur] /\ ev_Type cur = t
  | None => CLock ∈ w_callbacks w
  end.

Lemma loop_moves now w w' : stateInv w -> loopStep now w = Some w' -> at_ w' <> at_ w ->
  exists why, moves why (at_ w) (at_ w') /\ causedBy why w.
Proof.
  intros Hw Hl Hne. pose proof (si_loop _ Hw) as Hloop. unfold loopOk in Hloop. unfold loopStep in Hl.
  destruct (w_pc w) as [|cur|cur te|cur chg| | |cur evt chs| | | |cur chs| |] eqn:Hpc; try by (repeat case_match; simplify_eq).
  subst te. pose proof (change_spec now (asked (ev_Type cur)) w (si_wf _ Hw)) as Hspec.
  destruct (change _ _ w) as [[s w1]|]; simplify_eq.
  destruct Hspec as (sub & Ha & ->). exists (Some (ev_Type cur)). split; [|exists cur; by rewrite Hpc].
  apply allowed_moves. by destruct s.
Qed.

Lemma callback_moves now c c' w w' : stateInv w -> c ∈ w_callbacks w -> callbackStep now c w = Some (c', w') -> at_ w' <> at_ w ->
  exists why, moves why (at_ w) (at_ w') /\ causedBy why w.
Proof.
  intros Hw Hin Hc Hne. destruct c as [|evt|evt [|ch chs]|]; simpl in Hc; [|by simplify_eq..].
  pose proof (change_spec now TransitionIdleTimeout w (si_wf _ Hw)) as Hspec.
  destruct (change _ _ w) as [[s w1]|]; simplify_eq.
  destruct Hspec as (sub & Ha & ->). exists None. split; [|done].
  change (at_ (note_state _ _)) with (s, sub). revert Ha. generalize (at_ w). intros p Ha.
  inversion Ha; subst; [constructor|naive_solver].
Qed.

Lemma step_moves w w' : stateInv w -> step w w' -> at_ w' <> at_ w ->
  exists why, moves why (at_ w) (at_ w') /\ causedBy why w.
Proof.
  intros Hw Hs. destruct Hs as [now w w' Hl|cur w Hpc _|w Hpc _|w Ht|now i c c' w w' Hi Hc|evt w r|ch cap w _|id w|ch c evt rest w _ _|w];
    try done.
  - by eapply loop_moves.
  - intros Hne. apply (callback_moves now c c' w w'); try done. by eapply list_elem_of_lookup_2.
  - unfold r, Submit. by case_bool_decide.
Qed.

(** Undisturbed, the loop makes the move of the event it takes up. *)
Lemma loop_makes_move w cur q now : stateInv w -> w_pc w = LUpdate cur -> moves (Some (ev_Type cur)) (at_ w) q ->
  exists w1 w2, loopStep now w = Some w1 /\ loopStep now w1 = Some w2 /\ at_ w2 = q.
Proof.
  intros Hw Hpc Hm. pose proof (proj2 (allowed_moves _ _ _) Hm) as Ha.
  set (w1 := advance (w_mon w) (LLock cur (asked (ev_Type cur))) w).
  assert (H1 : loopStep now w = Some w1).
  { unfold loopStep, w1, asked. rewrite Hpc. destruct (transitionOf (ev_Type cur)) eqn:E; [done|].
    unfold asked in Ha. rewrite E in Ha. simpl in *. unfold at_ in Ha.
    destruct (m_state (w_mon w)); inversion Ha; naive_solver. }
  pose proof (change_spec now (asked (ev_Type cur)) w1 (si_wf _ Hw)) as Hspec. change (at_ w1) with (at_ w) in Hspec.
  destruct (change _ _ w1) as [[s w2]|] eqn:E; [|by destruct (Hspec q)].
  destruct Hspec as (sub & Ha' & ->). exists w1. eexists. split; [done|].
  unfold loopStep. simpl. rewrite E. split; [done|]. simpl.
  apply (transition_spec _ _ _ (si_wf _ Hw)) in Ha, Ha'. change (at_ (advance _ _ _)) with (s, sub). congruence.
Qed.


(** The timer's own steps. *)
Inductive quiet : relation world :=
  | quiet_timer w : m_idleTimer (w_mon w) = Some true ->
      quiet w (set_callbacks (w_callbacks w ++ [CLock]) (set_mon (set_idleTimer (Some false) (w_mon w)) w))
  | quiet_callback now i c c' w w' : w_callbacks w !! i = Some c -> callbackStep now c w = Some (c', w') ->
      quiet w (set_callbacks (<[i := c']> (w_callbacks w)) w').

Lemma lock_goes_idle w : wellFormed (at_ w) -> m_state (w_mon w) = StateActive -> CLock ∈ w_callbacks w ->
  exists w', quiet w w' /\ at_ w' = (StateIdle, SubStateNone).
Proof.
  intros Hwf Hact Hin. apply list_elem_of_lookup in Hin as [i Hi].
  pose proof (change_spec 0 TransitionIdleTimeout w Hwf) as Hspec.
  assert (Ha : allowed (at_ w) TransitionIdleTimeout (StateIdle, SubStateNone)) by (unfold at_; rewrite Hact; constructor).
  destruct (change 0 TransitionIdleTimeout w) as [[s w1]|] eqn:E; [|by destruct (Hspec _ Ha)].
  destruct Hspec as (sub & Hs & ->). eexists. split.
  - apply (quiet_callback 0 i CLock); [done|]. simpl. by rewrite E.
  - unfold at_ in *. simpl. rewrite Hact in Hs. inversion Hs; naive_solver.
Qed.

(** A monitor left alone with an active agent goes idle: the idle timer, or
    its function, takes it there with no event at all. *)
Theorem monitor_goes_idle w (Hr : reachable w) (Hact : m_state (w_mon w) = StateActive) (Hpc : w_pc w = LSelect) :
  exists w', rtc quiet w w' /\ at_ w' = (StateIdle, SubStateNone).
Proof.
  apply reachable_inv in Hr as [[Hwf _ Hi _ _ _] _].
  destruct (Hi Hact ltac:(by rewrite Hpc)) as [Ht|[Hin|(cur & chg & E)]]; [| |by rewrite Hpc in E].
  - destruct (lock_goes_idle (set_callbacks (w_callbacks w ++ [CLock]) (set_mon (set_idleTimer (Some false) (w_mon w)) w)))
      as (w' & Hq & Hw'); [done|done|simpl; set_solver|].
    exists w'. split; [|done]. eapply rtc_l; [by apply quiet_timer|by apply rtc_once].
  - destruct (lock_goes_idle w) as (w' & Hq & Hw'); try done. exists w'. split; [by apply rtc_once|done].
Qed.

(** An exited agent stays exited. *)
Theorem exited_final w w' (Hr : reachable w) (Hx : m_state (w_mon w) = StateExited) (Hs : rtc step w w') :
  m_state (w_mon w') = StateExited.
Proof.
  cut (m_state (w_mon w') = StateExited /\ stateInv w'); [tauto|].
  revert Hs. apply (rtc_invariant step (fun w => m_state (w_mon w) = StateExited /\ stateInv w)); [split; [done|]|].
  - by apply reachable_inv.
  - intros a b [Ha Hia] Hs. split; [|by eapply stateInv_step].
    assert (Hn : forall now te, change now te a = None).
    { intros n te. pose proof (change_spec n te a (si_wf _ Hia)) as H. destruct (change n te a) as [[s w1]|]; [|done].
      destruct H as (sub & H & _). unfold at_ in H. rewrite Ha in H. inversion H; naive_solver. }
    destruct Hs as [n a b Hl|cur w0 _ _|w0 _ _|w0 _|n i c c' a b _ Hc|evt w0 r|ch cap w0 _|id w0|ch c evt rest w0 _ _|w0]; try done.
    + unfold loopStep in Hl. rewrite ?Hn in Hl. repeat case_match; try (by rewrite Hn in *); by simplify_eq/=.
    + destruct c as [|evt|evt [|ch chs]|]; simpl in Hc; rewrite ?Hn in Hc; by simplify_eq/=.
    + unfold r, Submit. case_bool_decide; done.
Qed.

(** ** Runs *)

Inductive action : Type :=
  | ALoop | ADone | ATimer | ACallback (i : nat) | ASubmit (evt : AgentEvent)
  | ASubscribe (ch cap : nat) | AUnsubscribe (id : nat) | AClose.

(** One step at the time 0. *)
Definition act (a : action) (w : world) : option world :=
  match a with
  | ALoop => loopStep 0 w
  | ADone => match w_pc w with LSelect => if m_done (w_mon w) then Some (drain w) else None | _ => None end
  | ATimer => if bool_decide (m_idleTimer (w_mon w) = Some true)
              then Some (set_callbacks (w_callbacks w ++ [CLock]) (set_mon (set_idleTimer (Some false) (w_mon w)) w)) else None
  | ACallback i => c ← w_callbacks w !! i; '(c', w') ← callbackStep 0 c w; Some (set_callbacks (<[i := c']> (w_callbacks w)) w')
  | ASubmit evt => let r := Submit evt (w_mon w) in
      Some (let w' := set_mon r.2 w in if r.1 then note_accepted evt w' else w')
  | ASubscribe ch cap => if bool_decide (w_chans w !! ch = None)
                         then Some (set_chans (<[ch := mkChan cap []]> (w_chans w)) (set_mon (Subscribe ch (w_mon w)).2 w)) else None
  | AUnsubscribe id => Some (set_mon (unsubscribe id (w_mon w)) w)
  | AClose => Some (set_mon (Close (w_mon w)) w)
  end.
Definition acts (l : list action) (w : world) : option world := foldl (fun o a => o ≫= act a) (Some w) l.

Lemma act_step a w w' : act a w = Some w' -> step w w'.
Proof.
  destruct a; simpl.
  - apply step_loop.
  - destruct (w_pc w) eqn:Hpc; try done. case_match; [|done]. intros [= <-]. by apply step_done.
  - case_bool_decide; [|done]. intros [= <-]. by apply step_timer.
  - destruct (w_callbacks w !! i) as [c|] eqn:Hi; [|done]. simpl.
    destruct (callbackStep 0 c w) as [[c' w1]|] eqn:Hc; [|done]. intros [= <-]. by eapply step_callback.
  - intros [= <-]. apply step_Submit.
  - case_bool_decide; [|done]. intros [= <-]. by apply step_Subscribe.
  - intros [= <-]. apply step_unsubscribe.
  - intros [= <-]. apply step_Close.
Qed.

Lemma acts_reachable l written now w : acts l (initial written now) = Some w -> reachable w.
Proof.
  intros Ha. exists written, now. revert w Ha. unfold acts.
  induction l as [|a l IH] using rev_ind; intros w; [intros [= <-]; reflexivity|].
  rewrite foldl_snoc. intros Hw. apply bind_Some in Hw as (w1 & Hw1 & Ha). eapply rtc_r; [by apply IH|]. by eapply act_step.
Qed.

Module Runs.

Definition event (t : AgentEventType) (d : EventData) : AgentEvent := mkAgentEvent t 0 d.
Definition started : AgentEvent := event EventSessionStarted (DSessionStarted (mkSessionStarted "s" "")).
Definition tool : AgentEvent := event EventToolStarted (DToolStarted (mkToolStarted "bash" "c")).
Definition asked : AgentEvent := event EventApprovalRequested (DApprovalRequested (mkApproval "bash" "c" None)).
Definition ended : AgentEvent := event EventSessionEnded (DSessionEnded (mkSessionEnded "exited")).
Definition turn : AgentEvent := event EventTurnCompleted (DTurnCompleted (mkTurnCompleted "t" 5 7 0 (float_of 0))).

(** The loop takes an event from the select on to the next with [n] receivers. *)
Definition process (n : nat) : list action := repeat ALoop (10 + 2 * n).
Definition begin : list action := [ASubscribe 0 8; ASubmit started] ++ process 1.

Definition isChange (evt : AgentEvent) : bool := match ev_Type evt with EventStateChange => true | _ => false end.

(** The reading of a run. *)
Definition shows {A} (f : world -> A) (l : list action) : option A := f <$> acts l (initial (Some []) 0).

Example begins : shows (fun w => (at_ w, w_pc w, told <$> (ch_buf <$> w_chans w !! 0) ≫= head)) begin =
  Some ((StateActive, SubStateThinking), LSelect, Some (StateActive, SubStateThinking)).
Proof. vm_compute. reflexivity. Qed.

(** The idle timer fires between the change to tool use and the timer's reset:
    the agent is idle, and the last change its subscribers hear of says that it
    uses a tool. *)
Example stale_state_change :
  shows (fun w => (at_ w, w_pc w, told <$> filter isChange (default [] (ch_buf <$> w_chans w !! 0))))
    (begin ++ [ASubmit tool; ALoop; ALoop; ALoop; ATimer; ACallback 0; ACallback 0; ACallback 0; ACallback 0]
     ++ repeat ALoop 9) =
  Some ((StateIdle, SubStateNone), LSelect,
        [(StateActive, SubStateThinking); (StateIdle, SubStateNone); (StateActive, SubStateToolUse)]).
Proof. vm_compute. reflexivity. Qed.

(** A tool that starts while the agent is idle is counted and leaves it idle. *)
Example tool_while_idle :
  shows (fun w => (at_ w, me_ToolCounts (m_metrics (w_mon w)) !! "bash"))
    (begin ++ [ATimer; ACallback 0; ACallback 0; ACallback 0; ACallback 0; ASubmit tool] ++ repeat ALoop 7) =
  Some ((StateIdle, SubStateNone), Some 1%Z).
Proof. vm_compute. reflexivity. Qed.

(** A permission asked for a tool that has started is not waited for. *)
Example asked_during_tool :
  shows at_ (begin ++ [ASubmit tool] ++ process 1 ++ [ASubmit asked] ++ repeat ALoop 7) = Some (StateActive, SubStateToolUse).
Proof. vm_compute. reflexivity. Qed.

(** An identifier is given out twice: the third subscriber's takes the second's
    channel away. *)
Example id_given_twice :
  shows (fun w => receivers (w_mon w)) [ASubscribe 0 8; ASubscribe 1 8; AUnsubscribe 0; ASubscribe 2 8; AUnsubscribe 1] = Some [2].
Proof. vm_compute. reflexivity. Qed.

(** The end of a session submitted after Close stays in the buffer. *)
Example end_after_close :
  shows (fun w => (at_ w, w_pc w, length (m_events (w_mon w)))) (begin ++ [AClose; ADone; ALoop; ALoop; ASubmit ended]) =
  Some ((StateActive, SubStateThinking), LReturned, 1).
Proof. vm_compute. reflexivity. Qed.

Definition session : list action := begin ++ [ASubmit turn] ++ repeat ALoop 8.
Definition counted : world := default (initial None 0) (acts session (initial (Some []) 0)).

Lemma counted_reachable : reachable counted.
Proof. apply (acts_reachable session (Some []) 0). vm_compute. reflexivity. Qed.

End Runs.


Lemma monitor_goes_idle_witness : exists w', rtc quiet Runs.counted w' /\ at_ w' = (StateIdle, SubStateNone).
Proof. apply (monitor_goes_idle Runs.counted); [apply Runs.counted_reachable|vm_compute; reflexivity|vm_compute; reflexivity]. Defined.
