(* ===== verification/Termmux.v ===== *)
(** * Termmux: terminal sessions

    internal/termmux: the scrollback ring of a terminal, its subscribers and
    clients, the life of a session and of the manager's table. *)

From Stdlib Require Import Ascii String.
From S2P Require Import Prelude GoStrings GoText Monitor.

Local Open Scope string_scope.
Local Open Scope list_scope.
Local Open Scope stdpp_scope.
Local Open Scope go_scope.

(** ** terminal_subscription.go: the scrollback *)

Definition bytes_ : Type := list ascii.

Definition SubscriptionBufferSize : nat := 64.
Definition MaxScrollbackSnapshotBytes : Z := 4 * 1024 * 1024.
Definition maxScrollbackBytes : Z := 8 * 1024 * 1024.

Definition lenZ {A} (l : list A) : Z := Z.of_nat (length l).
(** copy(dst[at:], src), what is left of [dst]; it copies the smaller length. *)
Definition copyAt (dst : bytes_) (at_ : Z) (src : bytes_) : bytes_ :=
  let i := Z.to_nat at_ in
  take i dst ++ take (length dst - i) src ++ drop (i + length src) dst.
(** l[lo:hi] *)
Definition slice {A} (l : list A) (lo hi : Z) : list A := take (Z.to_nat (hi - lo)) (drop (Z.to_nat lo) l).

Record scrollbackBuffer : Type := mkScrollback { sb_buf : bytes_; sb_head : Z; sb_size : Z; sb_cap : Z }.

Definition newScrollbackBuffer (capacity : Z) : scrollbackBuffer :=
  mkScrollback (replicate (Z.to_nat capacity) zero) 0 0 capacity.

Definition scrollback_Write (data : bytes_) (sb : scrollbackBuffer) : scrollbackBuffer :=
  if bool_decide (lenZ data = 0)%Z then sb
  else if bool_decide (sb_cap sb <= lenZ data)%Z
  then mkScrollback (copyAt (sb_buf sb) 0 (drop (Z.to_nat (lenZ data - sb_cap sb)) data)) 0 (sb_cap sb) (sb_cap sb)
  else
    let n := Z.min (lenZ (sb_buf sb) - sb_head sb) (lenZ data) in
    let buf := copyAt (sb_buf sb) (sb_head sb) data in
    let buf := if bool_decide (n < lenZ data)%Z then copyAt buf 0 (drop (Z.to_nat n) data) else buf in
    let size := (sb_size sb + lenZ data)%Z in
    mkScrollback buf ((sb_head sb + lenZ data) mod sb_cap sb) (if bool_decide (sb_cap sb < size)%Z then sb_cap sb else size) (sb_cap sb).

Definition Snapshot (maxBytes : Z) (sb : scrollbackBuffer) : bytes_ :=
  if bool_decide (sb_size sb = 0)%Z then []
  else
    let take_ := if bool_decide (maxBytes < sb_size sb)%Z then maxBytes else sb_size sb in
    let start := ((sb_head sb - take_ + sb_cap sb) mod sb_cap sb)%Z in
    if bool_decide (start + take_ <= sb_cap sb)%Z then slice (sb_buf sb) start (start + take_)
    else slice (sb_buf sb) start (sb_cap sb) ++ slice (sb_buf sb) 0 (take_ - (sb_cap sb - start)).

Definition scrollback_Len (sb : scrollbackBuffer) : Z := sb_size sb.

(** ** The ring holds the end of the output *)

Definition lastn {A} (n : nat) (l : list A) : list A := drop (length l - n) l.

Lemma length_lastn {A} n (l : list A) : length (lastn n l) = min n (length l).
Proof. unfold lastn. rewrite length_drop. lia. Qed.

Lemma lastn_all {A} n (l : list A) : length l <= n -> lastn n l = l.
Proof. intros H. unfold lastn. by replace (length l - n) with 0 by lia. Qed.

Lemma lastn_app {A} n (l k : list A) : length k <= n -> lastn n (l ++ k) = lastn (n - length k) l ++ k.
Proof.
  intros H. unfold lastn. rewrite length_app, drop_app_le by lia. do 2 f_equal. lia.
Qed.

Lemma lastn_app_r {A} n (l k : list A) : n <= length k -> lastn n (l ++ k) = lastn n k.
Proof. intros H. unfold lastn. rewrite length_app, drop_app_ge by lia. f_equal. lia. Qed.

Lemma lastn_lastn {A} m n (l : list A) : m <= n -> lastn m (lastn n l) = lastn m l.
Proof. intros H. unfold lastn. rewrite drop_drop, length_drop. f_equal. lia. Qed.

Lemma lastn_lastn_app {A} n (l k : list A) : lastn n (lastn n l ++ k) = lastn n (l ++ k).
Proof.
  destruct (decide (length k <= n)).
  - rewrite !lastn_app by done. f_equal. apply lastn_lastn. lia.
  - by rewrite !lastn_app_r by lia.
Qed.

(** The bytes of the ring, oldest first, those never written included. *)
Definition ring (sb : scrollbackBuffer) : bytes_ :=
  drop (Z.to_nat (sb_head sb)) (sb_buf sb) ++ take (Z.to_nat (sb_head sb)) (sb_buf sb).

(** The ring holds the end of [out]. *)
Record holds (cap : Z) (out : bytes_) (sb : scrollbackBuffer) : Prop := mkHolds {
  h_cap : sb_cap sb = cap;
  h_len : lenZ (sb_buf sb) = cap;
  h_head : (0 <= sb_head sb < cap)%Z;
  h_size : sb_size sb = Z.min cap (lenZ out);
  h_ring : ring sb = lastn (Z.to_nat cap) (replicate (Z.to_nat cap) zero ++ out);
}.

Lemma holds_new cap : (0 < cap)%Z -> holds cap [] (newScrollbackBuffer cap).
Proof.
  intros Hc. split; simpl; try done; unfold lenZ; rewrite ?length_replicate; simpl; try lia.
  unfold ring. simpl. rewrite !app_nil_r, lastn_all; [done|]. rewrite length_replicate. lia.
Qed.

Lemma copyAt_inside (dst src : bytes_) (i : Z) : (0 <= i)%Z -> (i + lenZ src <= lenZ dst)%Z ->
  copyAt dst i src = take (Z.to_nat i) dst ++ src ++ drop (Z.to_nat i + length src) dst.
Proof. intros Hi Hl. unfold copyAt, lenZ in *. rewrite (take_ge src) by lia. done. Qed.

Lemma length_copyAt (dst src : bytes_) i : (0 <= i <= lenZ dst)%Z -> length (copyAt dst i src) = length dst.
Proof. unfold copyAt, lenZ. rewrite !length_app, !length_take, length_drop. lia. Qed.

(** A write that is shorter than the ring: the bytes before and after the write
    position, as [A] and [B]. *)
Lemma ring_short cap (A B data : bytes_) size : (lenZ A + lenZ B = cap)%Z -> (lenZ A < cap)%Z -> (0 < lenZ data < cap)%Z ->
  let sb := scrollback_Write data (mkScrollback (A ++ B) (lenZ A) size cap) in
  ring sb = drop (length data) (B ++ A) ++ data /\ lenZ (sb_buf sb) = cap /\ (0 <= sb_head sb < cap)%Z.
Proof.
  intros Hcap HA Hd. unfold scrollback_Write, lenZ in *. cbn [sb_buf sb_head sb_size sb_cap].
  rewrite !bool_decide_eq_false_2 by lia. rewrite length_app.
  destruct (decide (length data <= length B)) as [Hle|Hgt].
  - rewrite bool_decide_eq_false_2 by lia. unfold ring. cbn [sb_buf sb_head].
    rewrite copyAt_inside by (unfold lenZ; rewrite ?length_app; lia). rewrite Nat2Z.id, take_app_length, (drop_app_ge A B) by lia.
    replace (length A + length data - length A) with (length data) by lia.
    rewrite !length_app, length_drop, (drop_app_le B A) by lia. split_and!; [|lia|apply Z.mod_pos_bound; lia..].
    destruct (decide (length data = length B)) as [Heq|Hne].
    + replace (Z.of_nat (length A) + Z.of_nat (length data))%Z with (1 * cap)%Z by lia. rewrite Z.mod_mul by lia.
      rewrite (drop_ge B) by lia. simpl. by rewrite !app_nil_r.
    + rewrite Z.mod_small by lia. replace (Z.to_nat _) with (length A + length data) by lia.
      rewrite app_assoc, drop_app_length', take_app_length' by (rewrite length_app; lia). by rewrite <- app_assoc.
  - rewrite bool_decide_eq_true_2 by lia. unfold ring. cbn [sb_buf sb_head].
    assert (E : copyAt (A ++ B) (Z.of_nat (length A)) data = A ++ take (length B) data).
    { unfold copyAt. rewrite Nat2Z.id, take_app_length, length_app, drop_ge, app_nil_r by (rewrite length_app; lia).
      do 2 f_equal. lia. }
    rewrite E. replace (Z.to_nat (Z.min _ _)) with (length B) by lia.
    rewrite copyAt_inside by (unfold lenZ; rewrite ?length_app, ?length_take, ?length_drop; lia). simpl.
    rewrite !length_app, !length_drop, !length_app, length_take.
    replace ((Z.of_nat (length A) + Z.of_nat (length data)) mod cap)%Z with (Z.of_nat (length data - length B)).
    2: { symmetry. rewrite <- (Z_mod_plus_full _ (-1)). rewrite Z.mod_small; lia. }
    split_and!; [|lia..]. rewrite Nat2Z.id, drop_app_length', take_app_length' by (rewrite length_drop; lia).
    rewrite (drop_app_le A) by lia. rewrite (drop_app_ge B) by lia. by rewrite <- app_assoc, take_drop.
Qed.

Lemma holds_Write cap out data sb : (0 < cap)%Z -> holds cap out sb -> holds cap (out ++ data) (scrollback_Write data sb).
Proof.
  intros Hcap [E1 E2 Hh Es Er]. destruct sb as [buf head size cap']. simpl in *. subst cap'.
  destruct (decide (lenZ data = 0)%Z) as [H0|H0].
  { unfold scrollback_Write. rewrite bool_decide_eq_true_2 by done.
    assert (data = []) as -> by (destruct data; [done|unfold lenZ in H0; simpl in H0; lia]). rewrite app_nil_r. by split. }
  assert (Hsz : sb_size (scrollback_Write data (mkScrollback buf head size cap)) = Z.min cap (lenZ (out ++ data)) /\
                sb_cap (scrollback_Write data (mkScrollback buf head size cap)) = cap).
  { unfold scrollback_Write, lenZ in *. cbn [sb_size sb_cap]. rewrite length_app. repeat case_bool_decide; simpl; lia. }
  destruct Hsz as [Hsz Hcp].
  assert (Hrep : lastn (Z.to_nat cap) (ring (mkScrollback buf head size cap) ++ data) =
                 lastn (Z.to_nat cap) (replicate (Z.to_nat cap) zero ++ out ++ data)).
  { by rewrite Er, lastn_lastn_app, app_assoc. }
  destruct (decide (cap <= lenZ data)%Z) as [Hbig|Hsmall].
  - unfold scrollback_Write in *. rewrite bool_decide_eq_false_2, bool_decide_eq_true_2 in * by done. cbn [sb_buf sb_head sb_size sb_cap] in *.
    split; simpl; try done; unfold lenZ in *.
    + rewrite length_copyAt; unfold lenZ; lia.
    + unfold ring. simpl. rewrite app_nil_r, copyAt_inside by (unfold lenZ; rewrite ?length_drop; lia).
      change (Z.to_nat 0) with 0. rewrite drop_0, take_0, (drop_ge buf) by (rewrite length_drop; lia). simpl. rewrite app_nil_r, <- Hrep, lastn_app_r by lia.
      unfold lastn. f_equal. lia.
  - assert (Hb : buf = take (Z.to_nat head) buf ++ drop (Z.to_nat head) buf) by (by rewrite take_drop).
    assert (Hl : lenZ (take (Z.to_nat head) buf) = head) by (unfold lenZ in *; rewrite length_take; lia).
    pose proof (ring_short cap (take (Z.to_nat head) buf) (drop (Z.to_nat head) buf) data size) as Hr.
    rewrite Hl, <- Hb in Hr. destruct Hr as (Hr & Hlen & Hhd); [unfold lenZ in *; rewrite length_drop; lia|lia|unfold lenZ in *; lia|].
    split; try done. rewrite Hr, <- Hrep. unfold ring. cbn [sb_buf sb_head].
    unfold lenZ in *. rewrite lastn_app by lia. f_equal. unfold lastn. f_equal. rewrite length_app, length_drop, length_take. lia.
Qed.

Lemma holds_Snapshot cap out m sb : (0 < cap)%Z -> (0 <= m)%Z -> holds cap out sb ->
  Snapshot m sb = lastn (Z.to_nat (Z.min m cap)) out.
Proof.
  intros Hcap Hm [E1 E2 Hh Es Er]. unfold Snapshot.
  destruct (decide (sb_size sb = 0)%Z) as [H0|H0].
  { rewrite bool_decide_eq_true_2 by done. destruct out; [done|]. unfold lenZ in Es. simpl in Es. lia. }
  rewrite bool_decide_eq_false_2 by done.
  set (k := (if bool_decide (m < sb_size sb) then m else sb_size sb)%Z).
  assert (Hk : k = Z.min m (Z.min cap (lenZ out)) /\ (0 <= k <= cap)%Z).
  { unfold k, lenZ in *. case_bool_decide; lia. }
  destruct Hk as [Hk Hk2]. rewrite E1.
  assert (Hout : lastn (Z.to_nat (Z.min m cap)) out = lastn (Z.to_nat k) (ring sb)).
  { rewrite Er, lastn_lastn by lia. rewrite lastn_app_r by (unfold lenZ in *; lia). unfold lastn. f_equal. unfold lenZ in *. lia. }
  rewrite Hout. destruct sb as [buf head size cap']. simpl in *. clear Er. unfold ring, slice. cbn [sb_buf sb_head] in *. unfold lenZ in *.
  set (h := Z.to_nat head) in *.
  destruct (decide (k <= head)%Z) as [Hle|Hgt].
  - replace ((head - k + cap) mod cap)%Z with (head - k)%Z by (rewrite <- (Z_mod_plus_full _ (-1)), Z.mod_small; lia).
    rewrite bool_decide_eq_true_2 by lia. rewrite lastn_app_r by (rewrite length_take; lia).
    unfold lastn. rewrite length_take, take_drop_commute. f_equal; [lia|]. f_equal. lia.
  - rewrite Z.mod_small by lia. rewrite lastn_app by (rewrite length_take; lia). rewrite length_take.
    case_bool_decide as Hfit.
    + assert (head = 0)%Z as -> by lia. unfold h. simpl. rewrite app_nil_r. unfold lastn. rewrite drop_0.
      rewrite take_ge by (rewrite length_drop; lia). f_equal. lia.
    + unfold lastn. rewrite length_drop, drop_drop. f_equal.
      * rewrite take_ge by (rewrite length_drop; lia). f_equal. lia.
      * rewrite drop_0. f_equal. lia.
Qed.

(** After any writes the snapshot of a scrollback is the end of all that was
    written: the last bytes up to the limit asked for and the buffer's capacity. *)
Theorem scrollback_spec cap m (Hcap : (0 < cap)%Z) (Hm : (0 <= m)%Z) (writes : list bytes_) :
  Snapshot m (foldl (fun sb data => scrollback_Write data sb) (newScrollbackBuffer cap) writes) =
  lastn (Z.to_nat (Z.min m cap)) (concat writes).
Proof.
  apply holds_Snapshot; [done..|].
  induction writes as [|data writes IH] using rev_ind; [by apply holds_new|].
  rewrite foldl_snoc, concat_app. simpl. rewrite app_nil_r. by apply holds_Write.
Qed.

(** ** terminal_subscription.go: the subscribers

    Subscriptions are objects: [h] has them by reference, the map of a session
    names those that are subscribed.  [None] is the panic of closing a closed
    channel.  [su_Received] is what the subscriber has taken from Chunks. *)

Record TerminalSubscription : Type := mkSubscription {
  su_ID : string;
  su_Chunks : list bytes_;
  su_Done : bool;
  su_Scrollback : bytes_;
  su_Rows : Z;
  su_Cols : Z;
  su_Received : list bytes_;
}.
Record terminalSubscribers : Type := mkSubscribers { ts_subs : gmap string nat; ts_heap : list TerminalSubscription }.
Definition newTerminalSubscribers : terminalSubscribers := mkSubscribers ∅ [].

Definition with_Chunks q (s : TerminalSubscription) : TerminalSubscription :=
  mkSubscription (su_ID s) q (su_Done s) (su_Scrollback s) (su_Rows s) (su_Cols s) (su_Received s).
Definition with_Done (s : TerminalSubscription) : TerminalSubscription :=
  mkSubscription (su_ID s) (su_Chunks s) true (su_Scrollback s) (su_Rows s) (su_Cols s) (su_Received s).

(** close(sub.Done) *)
Definition closeDone (r : nat) (h : list TerminalSubscription) : option (list TerminalSubscription) :=
  s ← h !! r; if su_Done s then None else Some (<[r := with_Done s]> h).

Definition Subscribe_ (id : string) (scrollback : bytes_) (rows cols : Z) (ts : terminalSubscribers) : option (nat * terminalSubscribers) :=
  let r := length (ts_heap ts) in
  let h := ts_heap ts ++ [mkSubscription id [] false scrollback rows cols []] in
  h ← match ts_subs ts !! id with Some old => closeDone old h | None => Some h end;
  Some (r, mkSubscribers (<[id := r]> (ts_subs ts)) h).

Definition Unsubscribe_ (id : string) (ts : terminalSubscribers) : option terminalSubscribers :=
  match ts_subs ts !! id with
  | Some r => h ← closeDone r (ts_heap ts); Some (mkSubscribers (delete id (ts_subs ts)) h)
  | None => Some ts
  end.

(** Those that are subscribed, in one order of the map.  Go may visit it in any
    other; each has a channel of its own, so what one of them gets is the same. *)
Definition refs (ts : terminalSubscribers) : list nat := (map_to_list (ts_subs ts)).*2.

Definition CloseAll_ (ts : terminalSubscribers) : option terminalSubscribers :=
  h ← foldl (fun h r => h ≫= closeDone r) (Some (ts_heap ts)) (refs ts); Some (mkSubscribers ∅ h).

Definition Count_ (ts : terminalSubscribers) : Z := Z.of_nat (size (ts_subs ts)).

(** The selects of FanOut on one subscriber's channel. *)
Definition trySend_ (chunk : bytes_) (s : TerminalSubscription) : option TerminalSubscription :=
  if bool_decide (length (su_Chunks s) < SubscriptionBufferSize) then Some (with_Chunks (su_Chunks s ++ [chunk]) s) else None.
Definition dropOldest (s : TerminalSubscription) : TerminalSubscription := with_Chunks (tail (su_Chunks s)) s.

(** *** The map and the objects agree *)

Record subsInv (ts : terminalSubscribers) : Prop := mkSubsInv {
  sv_live : forall id r, ts_subs ts !! id = Some r -> exists s, ts_heap ts !! r = Some s /\ su_ID s = id /\ su_Done s = false;
  sv_done : forall r s, ts_heap ts !! r = Some s -> su_Done s = false -> ts_subs ts !! su_ID s = Some r;
}.

Lemma subsInv_new : subsInv newTerminalSubscribers.
Proof. split; simpl; [by intros ? ?; rewrite lookup_empty|done]. Qed.

Lemma subsInv_inj ts id id' r : subsInv ts -> ts_subs ts !! id = Some r -> ts_subs ts !! id' = Some r -> id = id'.
Proof. intros [Hl _] H1 H2. destruct (Hl _ _ H1) as (s & ? & ? & _), (Hl _ _ H2) as (s' & ? & ? & _). congruence. Qed.

Lemma lookup_with_Done (h : list TerminalSubscription) (r : nat) s r' s' : h !! r = Some s -> <[r := with_Done s]> h !! r' = Some s' ->
  (r' = r /\ s' = with_Done s) \/ (r' <> r /\ h !! r' = Some s').
Proof.
  intros Hr H. destruct (decide (r' = r)) as [->|Hne].
  - rewrite list_lookup_insert_eq in H by (by eapply lookup_lt_Some). left. by simplify_eq.
  - rewrite list_lookup_insert_ne in H by done. by right.
Qed.

Lemma subsInv_Unsubscribe id ts : subsInv ts -> exists ts', Unsubscribe_ id ts = Some ts' /\ subsInv ts' /\ ts_subs ts' = delete id (ts_subs ts).
Proof.
  intros Hi. pose proof Hi as [Hl Hd]. unfold Unsubscribe_. destruct (ts_subs ts !! id) as [r|] eqn:Hr.
  - destruct (Hl _ _ Hr) as (s & Hs & Hid & Hdn). unfold closeDone. rewrite Hs. simpl. rewrite Hdn. simpl.
    eexists. split; [done|]. split; [|done]. split; simpl.
    + intros id' r' Hr'. apply lookup_delete_Some in Hr' as [Hne Hr'].
      assert (r' <> r) by (intros ->; apply Hne; by eapply subsInv_inj).
      rewrite list_lookup_insert_ne by done. by apply Hl.
    + intros r' s' H' Hf. destruct (lookup_with_Done _ _ _ _ _ Hs H') as [[-> ->]|[Hne H'']]; [done|].
      apply lookup_delete_Some. split; [|by apply Hd]. intros E. specialize (Hd _ _ H'' Hf). congruence.
  - exists ts. split; [done|]. split; [done|]. by rewrite delete_id.
Qed.

Lemma Subscribe_eq id scr rows cols ts : subsInv ts ->
  exists ts0, Unsubscribe_ id ts = Some ts0 /\
    Subscribe_ id scr rows cols ts =
    Some (length (ts_heap ts0), mkSubscribers (<[id := length (ts_heap ts0)]> (ts_subs ts0)) (ts_heap ts0 ++ [mkSubscription id [] false scr rows cols []])).
Proof.
  intros Hi. pose proof Hi as [Hl _]. unfold Subscribe_, Unsubscribe_. destruct (ts_subs ts !! id) as [r|] eqn:Hr.
  - destruct (Hl _ _ Hr) as (s & Hs & Hid & Hdn). pose proof (lookup_lt_Some _ _ _ Hs) as Hlt.
    unfold closeDone. rewrite lookup_app_l, Hs by done. simpl. rewrite Hdn. simpl. eexists. split; [done|]. simpl.
    rewrite length_insert, insert_app_l by done. by rewrite insert_delete_eq.
  - by exists ts.
Qed.

Lemma subsInv_alloc id s ts : subsInv ts -> ts_subs ts !! id = None -> su_ID s = id -> su_Done s = false ->
  subsInv (mkSubscribers (<[id := length (ts_heap ts)]> (ts_subs ts)) (ts_heap ts ++ [s])).
Proof.
  intros [Hl Hd] Hn Hid Hf. split; simpl.
  - intros id' r' Hr'. destruct (decide (id' = id)) as [->|Hne].
    + rewrite lookup_insert_eq in Hr'. simplify_eq. exists s. split_and!; [|done..]. by rewrite lookup_app_r, Nat.sub_diag by done.
    + rewrite lookup_insert_ne in Hr' by done. destruct (Hl _ _ Hr') as (s' & Hs' & ?). exists s'. split; [|done].
      rewrite lookup_app_l; [done|]. by eapply lookup_lt_Some.
  - intros r s' Hr Hf'. apply lookup_app_Some in Hr as [Hr|[Hge Hr]].
    + specialize (Hd _ _ Hr Hf'). rewrite lookup_insert_ne; [done|]. intros E. congruence.
    + apply list_lookup_singleton_Some in Hr as [Hr ->]. rewrite Hid, lookup_insert_eq. f_equal. lia.
Qed.

Lemma subsInv_Subscribe id scr rows cols ts : subsInv ts ->
  exists r ts', Subscribe_ id scr rows cols ts = Some (r, ts') /\ subsInv ts' /\ r = length (ts_heap ts).
Proof.
  intros Hi. destruct (Subscribe_eq id scr rows cols ts Hi) as (ts0 & Hu & Heq).
  destruct (subsInv_Unsubscribe id ts Hi) as (ts1 & Hu1 & Hi1 & Hs1). rewrite Hu in Hu1. simplify_eq.
  eexists _, _. split; [done|]. split; [apply subsInv_alloc; try done; by rewrite Hs1, lookup_delete_eq|].
  unfold Unsubscribe_ in Hu. destruct (ts_subs ts !! id) as [r|]; [|by simplify_eq].
  unfold closeDone in Hu. destruct (ts_heap ts !! r) as [s|]; [|done]. simpl in Hu. destruct (su_Done s); [done|].
  simpl in Hu. simplify_eq. simpl. by rewrite length_insert.
Qed.

Lemma closeDone_live r s h : h !! r = Some s -> su_Done s = false -> closeDone r h = Some (<[r := with_Done s]> h).
Proof. intros Hs Hf. unfold closeDone. rewrite Hs. simpl. by rewrite Hf. Qed.

Lemma refs_live ts r : subsInv ts -> r ∈ refs ts <-> exists s, ts_heap ts !! r = Some s /\ su_Done s = false.
Proof.
  intros [Hl Hd]. unfold refs. rewrite list_elem_of_fmap. split.
  - intros ([id r'] & -> & H). apply elem_of_map_to_list in H. destruct (Hl _ _ H) as (s & ? & _ & ?). by exists s.
  - intros (s & Hs & Hf). exists (su_ID s, r). split; [done|]. apply elem_of_map_to_list. by apply Hd.
Qed.

Lemma NoDup_refs ts : subsInv ts -> NoDup (refs ts).
Proof.
  intros Hi. unfold refs. apply NoDup_fmap_2_strong; [|apply NoDup_map_to_list].
  intros [id r] [id' r'] H H' E. simpl in E. subst. apply elem_of_map_to_list in H, H'. by rewrite (subsInv_inj ts id id' r').
Qed.

Lemma closeAll_ok l h : NoDup l -> (forall r, r ∈ l -> exists s, h !! r = Some s /\ su_Done s = false) ->
  exists h', foldl (fun h r => h ≫= closeDone r) (Some h) l = Some h' /\ length h' = length h /\
    forall r s, h' !! r = Some s -> if decide (r ∈ l) then su_Done s = true else h !! r = Some s.
Proof.
  revert h. induction l as [|r l IH]; intros h Hnd Hl; [exists h; by split_and!|].
  apply NoDup_cons in Hnd as [Hr Hnd]. destruct (Hl r) as (s & Hs & Hf); [set_solver|].
  simpl. rewrite (closeDone_live r s) by done. destruct (IH (<[r := with_Done s]> h) Hnd) as (h' & Hh' & Hlen & Hh).
  - intros r' Hr'. rewrite list_lookup_insert_ne by set_solver. apply Hl. set_solver.
  - exists h'. split_and!; [done|by rewrite Hlen, length_insert|]. intros r' s' H'. specialize (Hh _ _ H').
    destruct (decide (r' ∈ l)); [by rewrite decide_True by set_solver|].
    destruct (lookup_with_Done _ _ _ _ _ Hs Hh) as [[-> ->]|[Hne H0]]; [by rewrite decide_True by set_solver|].
    rewrite decide_False by set_solver. done.
Qed.

Lemma subsInv_CloseAll ts : subsInv ts -> exists ts', CloseAll_ ts = Some ts' /\ subsInv ts' /\ ts_subs ts' = ∅ /\
  forall r s, ts_heap ts' !! r = Some s -> su_Done s = true.
Proof.
  intros Hi. unfold CloseAll_. destruct (closeAll_ok (refs ts) (ts_heap ts)) as (h' & -> & _ & Hh).
  - by apply NoDup_refs.
  - intros r Hr. by apply refs_live.
  - simpl. assert (Hall : forall r s, h' !! r = Some s -> su_Done s = true).
    { intros r s Hs. specialize (Hh _ _ Hs). destruct (decide (r ∈ refs ts)); [done|].
      destruct (su_Done s) eqn:Hf; [done|]. destruct n. apply refs_live; [done|]. by exists s. }
    eexists. split; [done|]. split_and!; [|done|done]. split; simpl; [intros ? ?; by rewrite lookup_empty|].
    intros r s Hs Hf. specialize (Hall _ _ Hs). congruence.
Qed.

(** ** session.go: the output and SubscribeTerminal

    The goroutine that reads the terminal appends a chunk to the scrollback and
    then fans it out; FanOut holds the subscribers' lock, and its selects come
    one after the other.  SubscribeTerminal takes the snapshot and then
    subscribes. *)

Inductive pipe : Type :=
  | PRead
  | PAppend (chunk : bytes_)
  | PFanOut (chunk : bytes_)
  | PSends (chunk : bytes_) (rs : list nat)
  | PDrop (chunk : bytes_) (r : nat) (rs : list nat)
  | PRetry (chunk : bytes_) (r : nat) (rs : list nat).

(** A call of SubscribeTerminal past its snapshot; [ca_seen] counts the chunks
    the snapshot was taken after. *)
Record call : Type := mkCall { ca_id : string; ca_scrollback : bytes_; ca_rows : Z; ca_cols : Z; ca_seen : nat }.
(** How a subscription began: the chunks in the scrollback at its snapshot, those
    fanned out before it was there, and whether none was dropped since. *)
Record origin : Type := mkOrigin { or_seen : nat; or_missed : nat; or_lossless : bool }.

Record terminal : Type := mkTerminal {
  t_scroll : scrollbackBuffer;
  t_rows : Z;
  t_cols : Z;
  t_subs : terminalSubscribers;
  t_pipe : pipe;
  t_calls : list call;
  t_out : list bytes_;
  t_origins : list origin;
}.

Definition locked (p : pipe) : bool := match p with PSends _ _ | PDrop _ _ _ | PRetry _ _ _ => true | _ => false end.
Definition appended (t : terminal) : nat := length (t_out t) - match t_pipe t with PAppend _ => 1 | _ => 0 end.
Definition fanned (t : terminal) : nat := length (t_out t) - match t_pipe t with PRead => 0 | _ => 1 end.

Definition set_pipe p (t : terminal) := mkTerminal (t_scroll t) (t_rows t) (t_cols t) (t_subs t) p (t_calls t) (t_out t) (t_origins t).
Definition set_subs ts (t : terminal) := mkTerminal (t_scroll t) (t_rows t) (t_cols t) ts (t_pipe t) (t_calls t) (t_out t) (t_origins t).
Definition set_origins os (t : terminal) := mkTerminal (t_scroll t) (t_rows t) (t_cols t) (t_subs t) (t_pipe t) (t_calls t) (t_out t) os.
Definition set_calls cs (t : terminal) := mkTerminal (t_scroll t) (t_rows t) (t_cols t) (t_subs t) (t_pipe t) cs (t_out t) (t_origins t).
Definition onHeap (f : list TerminalSubscription -> list TerminalSubscription) (t : terminal) :=
  set_subs (mkSubscribers (ts_subs (t_subs t)) (f (ts_heap (t_subs t)))) t.
Definition offer (chunk : bytes_) (r : nat) (t : terminal) : option terminal :=
  s ← ts_heap (t_subs t) !! r; s' ← trySend_ chunk s; Some (onHeap (<[r := s']>) t).

Definition readChunk (chunk : bytes_) (t : terminal) :=
  mkTerminal (t_scroll t) (t_rows t) (t_cols t) (t_subs t) (PAppend chunk) (t_calls t) (t_out t ++ [chunk]) (t_origins t).
Definition appendScrollback (chunk : bytes_) (t : terminal) :=
  mkTerminal (scrollback_Write chunk (t_scroll t)) (t_rows t) (t_cols t) (t_subs t) (PFanOut chunk) (t_calls t) (t_out t) (t_origins t).
Definition Resize_ (rows cols : Z) (t : terminal) :=
  mkTerminal (t_scroll t) rows cols (t_subs t) (t_pipe t) (t_calls t) (t_out t) (t_origins t).

(** The next action of the output goroutine past its read. *)
Definition pipeStep (t : terminal) : option terminal :=
  match t_pipe t with
  | PRead => None
  | PAppend chunk => Some (appendScrollback chunk t)
  | PFanOut chunk => Some (set_pipe (PSends chunk (refs (t_subs t))) t)
  | PSends chunk [] => Some (set_pipe PRead t)
  | PSends chunk (r :: rs) => Some (match offer chunk r t with Some t' => set_pipe (PSends chunk rs) t' | None => set_pipe (PDrop chunk r rs) t end)
  | PDrop chunk r rs =>
      Some (set_pipe (PRetry chunk r rs)
        (set_origins (alter (fun o => mkOrigin (or_seen o) (or_missed o) false) r (t_origins t)) (onHeap (alter dropOldest r) t)))
  | PRetry chunk r rs => Some (set_pipe (PSends chunk rs) (default t (offer chunk r t)))
  end.

Section Terminal.
Context (capacity maxSnapshot : Z).

Definition newTerminal (rows cols : Z) : terminal :=
  mkTerminal (newScrollbackBuffer capacity) rows cols newTerminalSubscribers PRead [] [] [].

(** The two halves of SubscribeTerminal. *)
Definition takeSnapshot (id : string) (t : terminal) : terminal :=
  set_calls (t_calls t ++ [mkCall id (Snapshot maxSnapshot (t_scroll t)) (t_rows t) (t_cols t) (appended t)]) t.
Definition finishSubscribe (k : nat) (t : terminal) : option terminal :=
  c ← t_calls t !! k;
  '(_, ts) ← Subscribe_ (ca_id c) (ca_scrollback c) (ca_rows c) (ca_cols c) (t_subs t);
  Some (set_origins (t_origins t ++ [mkOrigin (ca_seen c) (fanned t) true]) (set_calls (delete k (t_calls t)) (set_subs ts t))).

Inductive tstep : relation terminal :=
  | ts_read chunk t : t_pipe t = PRead -> chunk <> [] -> tstep t (readChunk chunk t)
  | ts_pipe t t' : pipeStep t = Some t' -> tstep t t'
  | ts_snapshot id t : tstep t (takeSnapshot id t)
  | ts_subscribe k t t' : locked (t_pipe t) = false -> finishSubscribe k t = Some t' -> tstep t t'
  | ts_unsubscribe id t ts : locked (t_pipe t) = false -> Unsubscribe_ id (t_subs t) = Some ts -> tstep t (set_subs ts t)
  | ts_closeAll t ts : locked (t_pipe t) = false -> CloseAll_ (t_subs t) = Some ts -> tstep t (set_subs ts t)
  | ts_receive r s chunk q t : ts_heap (t_subs t) !! r = Some s -> su_Chunks s = chunk :: q ->
      tstep t (onHeap (<[r := mkSubscription (su_ID s) q (su_Done s) (su_Scrollback s) (su_Rows s) (su_Cols s) (su_Received s ++ [chunk])]>) t)
  | ts_resize rows cols t : tstep t (Resize_ rows cols t).

(** *** What a subscriber sees *)

(** Whether the subscriber [r] has the chunk at work still to come. *)
Definition owed (p : pipe) (r : nat) : bool :=
  match p with
  | PRead => false
  | PAppend _ | PFanOut _ => true
  | PSends _ rs => bool_decide (r ∈ rs)
  | PDrop _ r' rs | PRetry _ r' rs => bool_decide (r ∈ r' :: rs)
  end.
Definition due (t : terminal) (r : nat) : list bytes_ := if owed (t_pipe t) r then take (fanned t) (t_out t) else t_out t.
Definition got (s : TerminalSubscription) : list bytes_ := su_Received s ++ su_Chunks s.
Definition snapshotOf (out : list bytes_) : bytes_ := lastn (Z.to_nat (Z.min maxSnapshot capacity)) (concat out).

Definition carrying (p : pipe) : option (bytes_ * list nat) :=
  match p with
  | PRead => None
  | PAppend c | PFanOut c => Some (c, [])
  | PSends c rs => Some (c, rs)
  | PDrop c r rs | PRetry c r rs => Some (c, r :: rs)
  end.

Record streamOk (t : terminal) (r : nat) (s : TerminalSubscription) (o : origin) : Prop := mkStreamOk {
  st_snapshot : su_Scrollback s = snapshotOf (take (or_seen o) (t_out t));
  st_seen : or_seen o <= S (or_missed o) /\ or_seen o <= length (t_out t);
  st_missed : or_missed o <= fanned t;
  st_bound : length (su_Chunks s) <= SubscriptionBufferSize;
  st_got : got s `sublist_of` drop (or_missed o) (due t r);
  st_all : or_lossless o = true -> su_Done s = false -> got s = drop (or_missed o) (due t r);
  st_waiting : su_Done s = false -> su_Chunks s `suffix_of` drop (or_missed o) (due t r);
}.

Record termInv (t : terminal) : Prop := mkTermInv {
  ti_subs : subsInv (t_subs t);
  ti_scroll : holds capacity (concat (take (appended t) (t_out t))) (t_scroll t);
  ti_chunk : forall c rs, carrying (t_pipe t) = Some (c, rs) -> (exists out, t_out t = out ++ [c]) /\ NoDup rs /\ forall r, r ∈ rs -> r ∈ refs (t_subs t);
  ti_calls : forall c, c ∈ t_calls t -> ca_scrollback c = snapshotOf (take (ca_seen c) (t_out t)) /\ ca_seen c <= S (fanned t) /\ ca_seen c <= length (t_out t);
  ti_origins : length (t_origins t) = length (ts_heap (t_subs t));
  ti_room : forall c r rs s, t_pipe t = PRetry c r rs -> ts_heap (t_subs t) !! r = Some s -> length (su_Chunks s) < SubscriptionBufferSize;
  ti_streams : forall r s o, ts_heap (t_subs t) !! r = Some s -> t_origins t !! r = Some o -> streamOk t r s o;
}.

Lemma termInv_new rows cols : (0 < capacity)%Z -> termInv (newTerminal rows cols).
Proof. intros Hc. split; simpl; first [done|apply subsInv_new|by apply holds_new|set_solver]. Qed.

(** A stream depends on the chunks and on what is still to come. *)
Lemma streamOk_mono t t' r s o : streamOk t r s o -> fanned t <= fanned t' -> t_out t `prefix_of` t_out t' ->
  due t' r = due t r -> streamOk t' r s o.
Proof.
  intros [Hs Hn Hm Hb Hg Ha Hw] Hf [l Hl] Hd. split; rewrite ?Hd; try done; [| |lia].
  - rewrite Hl, take_app_le by lia. done.
  - rewrite Hl, length_app. lia.
Qed.

Lemma due_carried t c rs : carrying (t_pipe t) = Some (c, rs) -> (exists out, t_out t = out ++ [c]) ->
  t_out t = take (fanned t) (t_out t) ++ [c] /\ fanned t = length (take (fanned t) (t_out t)).
Proof.
  intros Hc [out Hout]. assert (Hf : fanned t = length out).
  { unfold fanned. rewrite Hout, length_app. simpl. destruct (t_pipe t); simpl in *; try done; lia. }
  rewrite Hf, Hout, take_app_length. done.
Qed.

(** Handing the chunk over. *)
Lemma streamOk_sent t t' r s s' o c rs : streamOk t r s o -> carrying (t_pipe t) = Some (c, rs) -> (exists out, t_out t = out ++ [c]) ->
  owed (t_pipe t) r = true -> owed (t_pipe t') r = false -> fanned t' = fanned t -> t_out t' = t_out t ->
  trySend_ c s = Some s' -> streamOk t' r s' o.
Proof.
  intros [Hs Hn Hm Hb Hg Ha Hw] Hc Hout Ho Ho' Hf Ht Htry. destruct (due_carried _ _ _ Hc Hout) as [E1 E2].
  unfold trySend_ in Htry. case_bool_decide as Hlt; simplify_eq.
  assert (Hgot : got (with_Chunks (su_Chunks s ++ [c]) s) = got s ++ [c]) by (unfold got; simpl; by rewrite app_assoc).
  assert (Hdue : drop (or_missed o) (due t' r) = drop (or_missed o) (due t r) ++ [c]).
  { unfold due. rewrite Ho, Ho', Ht, E1 at 1. rewrite drop_app_le by lia. done. }
  split; simpl; rewrite ?Hdue, ?Hgot, ?Ht, ?Hf; try done.
  - rewrite length_app. simpl. lia.
  - by apply sublist_app.
  - intros Hl Hd. by rewrite Ha.
  - intros Hd. destruct (Hw Hd) as [l ->]. exists l. by rewrite app_assoc.
Qed.

(** A subscriber that is gone is passed over. *)
Lemma streamOk_passed t t' r s o : streamOk t r s o -> su_Done s = true ->
  fanned t' = fanned t -> t_out t' = t_out t -> owed (t_pipe t') r = false -> streamOk t' r s o.
Proof.
  intros [Hs Hn Hm Hb Hg Ha Hw] Hl Hf Ht Ho. split; rewrite ?Ht, ?Hf; try done; [|congruence..].
  - etrans; [done|]. unfold due. rewrite Ho, Ht. destruct (owed (t_pipe t) r); [|done].
    replace (fanned t) with (or_missed o + (fanned t - or_missed o)) by lia.
    rewrite <- take_drop_commute. apply sublist_take.
Qed.

Lemma subsInv_same r s s' ts : subsInv ts -> ts_heap ts !! r = Some s -> su_ID s' = su_ID s -> su_Done s' = su_Done s ->
  subsInv (mkSubscribers (ts_subs ts) (<[r := s']> (ts_heap ts))).
Proof.
  intros [Hl Hd] Hr Ei Ed. split; simpl.
  - intros id r' H. destruct (Hl _ _ H) as (x & Hx & Hid & Hf). destruct (decide (r' = r)) as [->|Hne].
    + simplify_eq. exists s'. rewrite list_lookup_insert_eq by (by eapply lookup_lt_Some). split_and!; congruence.
    + exists x. by rewrite list_lookup_insert_ne.
  - intros r' x H Hf. destruct (decide (r' = r)) as [->|Hne].
    + rewrite list_lookup_insert_eq in H by (by eapply lookup_lt_Some). simplify_eq. rewrite Ei. apply Hd; [done|congruence].
    + rewrite list_lookup_insert_ne in H by done. by apply Hd.
Qed.

(** An action that keeps the scrollback, the chunks and the calls, and leaves
    the work of the fan-out or takes from it. *)
Lemma termInv_work t t' : termInv t -> t_scroll t' = t_scroll t -> t_out t' = t_out t -> appended t' = appended t ->
  fanned t <= fanned t' -> t_calls t' = t_calls t -> subsInv (t_subs t') -> ts_subs (t_subs t') = ts_subs (t_subs t) ->
  length (t_origins t') = length (ts_heap (t_subs t')) ->
  (forall c rs, carrying (t_pipe t') = Some (c, rs) -> exists rs0, carrying (t_pipe t) = Some (c, rs0) /\
     NoDup rs /\ forall r, r ∈ rs -> r ∈ refs (t_subs t)) ->
  (forall c r rs s, t_pipe t' = PRetry c r rs -> ts_heap (t_subs t') !! r = Some s -> length (su_Chunks s) < SubscriptionBufferSize) ->
  (forall r s o, ts_heap (t_subs t') !! r = Some s -> t_origins t' !! r = Some o -> streamOk t' r s o) -> termInv t'.
Proof.
  intros [Hsub Hscr Hch Hca Hor Hre Hst] E1 E2 E3 Hf E4 Hsub' E5 Hor' Hch' Hre' Hst'. split; try done.
  - by rewrite E1, E2, E3.
  - intros c rs Hc. destruct (Hch' _ _ Hc) as (rs0 & Hc0 & Hnd & Hin). rewrite E2. split_and!; [by eapply Hch|done|].
    intros r Hr. unfold refs. rewrite E5. by apply Hin.
  - rewrite E4, E2. intros c Hc. destruct (Hca _ Hc) as (? & ? & ?). split_and!; [done|lia|done].
Qed.

Lemma alter_insert {A} (f : A -> A) (i : nat) (l : list A) x : l !! i = Some x -> alter f i l = <[i := f x]> l.
Proof.
  revert i. induction l as [|y l IH]; intros [|i]; simpl; intros; simplify_eq; [done|]. unfold alter, insert in IH. by rewrite IH.
Qed.

Lemma offer_spec chunk r t : match offer chunk r t with
  | Some t' => exists s s', ts_heap (t_subs t) !! r = Some s /\ trySend_ chunk s = Some s' /\ t' = onHeap (<[r := s']>) t
  | None => True end.
Proof.
  unfold offer. destruct (ts_heap (t_subs t) !! r) as [s|] eqn:Hr; simpl; [|done].
  destruct (trySend_ chunk s) as [s'|] eqn:Hs; simpl; [|done]. by exists s, s'.
Qed.

Lemma trySend_same chunk s s' : trySend_ chunk s = Some s' -> su_ID s' = su_ID s /\ su_Done s' = su_Done s.
Proof. unfold trySend_. case_bool_decide; intros; by simplify_eq. Qed.

Lemma fanned_locked t p : t_pipe t <> PRead -> p <> PRead -> fanned (set_pipe p t) = fanned t.
Proof. unfold fanned. simpl. by destruct (t_pipe t), p. Qed.

(** The chunk is handed to [r], the head of the work. *)
Lemma termInv_sent t r rs c s s' p : termInv t -> carrying (t_pipe t) = Some (c, r :: rs) -> p = PSends c rs ->
  (forall r', owed (t_pipe t) r' = bool_decide (r' ∈ r :: rs)) -> appended t = length (t_out t) ->
  ts_heap (t_subs t) !! r = Some s -> trySend_ c s = Some s' -> termInv (set_pipe p (onHeap (<[r := s']>) t)).
Proof.
  intros Ht Hc -> Ho Hap Hr Hs. pose proof Ht as [Hsub Hscr Hch Hca Hor Hre Hst].
  destruct (Hch _ _ Hc) as (Hout & Hnd & Hin). apply NoDup_cons in Hnd as [Hnr Hnd].
  destruct (trySend_same _ _ _ Hs) as [Ei Ed].
  assert (Hf : fanned (set_pipe (PSends c rs) (onHeap (<[r := s']>) t)) = fanned t).
  { unfold fanned. simpl. by destruct (t_pipe t). }
  apply (termInv_work t); simpl; try done.
  - unfold appended at 1. simpl. lia.
  - lia.
  - by apply (subsInv_same r s).
  - by rewrite length_insert.
  - intros c' rs' [= <- <-]. exists (r :: rs). split_and!; [done..|]. intros; apply Hin. set_solver.
  - intros r' x o Hx Ho'. destruct (decide (r' = r)) as [->|Hne].
    + rewrite list_lookup_insert_eq in Hx by (by eapply lookup_lt_Some). simplify_eq.
      eapply (streamOk_sent t); eauto; simpl; rewrite ?Ho; [by rewrite bool_decide_eq_true_2 by set_solver|by rewrite bool_decide_eq_false_2].
    + rewrite list_lookup_insert_ne in Hx by done. apply (streamOk_mono t); [by apply Hst|lia|done|].
      unfold due. rewrite Ho, Hf. simpl. rewrite (bool_decide_ext (r' ∈ rs) (r' ∈ r :: rs)) by set_solver. done.
Qed.

(** The chunk goes to the scrollback. *)
Lemma termInv_append t c : termInv t -> t_pipe t = PAppend c -> termInv (appendScrollback c t).
Proof.
  intros Ht E. pose proof Ht as [Hsub Hscr Hch Hca Hor Hre Hst]. rewrite E in Hch.
  destruct (Hch c [] eq_refl) as (Hout & _). destruct (due_carried t c []) as [E1 E2]; [by rewrite E|done|].
  split; try done; simpl.
  - unfold appended in *. rewrite E in Hscr. simpl in *. rewrite Nat.sub_0_r, firstn_all.
    destruct Hout as [out Hout]. rewrite Hout, length_app, Nat.add_sub, take_app_length in Hscr.
    rewrite Hout, concat_app. simpl. rewrite app_nil_r. apply holds_Write; [|done]. destruct Hscr. lia.
  - unfold fanned in *. rewrite E in Hca. done.
  - intros r s o Hs Ho. apply (streamOk_mono t); [by apply Hst| |done|]; unfold due, fanned; rewrite E; simpl; done.
Qed.

(** FanOut takes the lock. *)
Lemma termInv_begin t c : termInv t -> t_pipe t = PFanOut c -> termInv (set_pipe (PSends c (refs (t_subs t))) t).
Proof.
  intros Ht E. pose proof Ht as [Hsub Hscr Hch Hca Hor Hre Hst]. rewrite E in Hch.
  apply (termInv_work t); simpl; try done.
  - unfold appended. by rewrite E.
  - unfold fanned. by rewrite E.
  - intros c' rs [= <- <-]. exists []. rewrite E. split_and!; [done|by apply NoDup_refs|done].
  - intros r s o Hs Ho. destruct (decide (r ∈ refs (t_subs t))) as [Hin|Hnin].
    + apply (streamOk_mono t); [by apply Hst| |done|]; unfold due, fanned; rewrite E; simpl; rewrite ?bool_decide_eq_true_2 by done; done.
    + apply (streamOk_passed t); [by apply Hst| |unfold fanned; by rewrite E|done|simpl; by rewrite bool_decide_eq_false_2].
      destruct (su_Done s) eqn:Hd; [done|]. destruct Hnin. apply refs_live; [done|]. by exists s.
Qed.

(** FanOut is done. *)
Lemma termInv_end t c : termInv t -> t_pipe t = PSends c [] -> termInv (set_pipe PRead t).
Proof.
  intros Ht E. pose proof Ht as [Hsub Hscr Hch Hca Hor Hre Hst]. rewrite E in Hch.
  apply (termInv_work t); simpl; try done.
  - unfold appended. by rewrite E.
  - unfold fanned. rewrite E. simpl. lia.
  - intros r s o Hs Ho. apply (streamOk_mono t); [by apply Hst| |done|]; unfold due, fanned; rewrite E; simpl; [lia|done].
Qed.

(** The oldest chunk is dropped. *)
Lemma termInv_drop t c r rs : termInv t -> t_pipe t = PDrop c r rs -> termInv (set_pipe (PRetry c r rs)
    (set_origins (alter (fun o => mkOrigin (or_seen o) (or_missed o) false) r (t_origins t)) (onHeap (alter dropOldest r) t))).
Proof.
  intros Ht E. pose proof Ht as [Hsub Hscr Hch Hca Hor Hre Hst]. rewrite E in Hch.
  destruct (Hch _ _ eq_refl) as (Hout & Hnd & Hin).
  assert (Hlive : exists s, ts_heap (t_subs t) !! r = Some s) by (destruct (proj1 (refs_live _ r Hsub)) as (s & ? & _); [apply Hin; set_solver|eauto]).
  destruct Hlive as [s Hs].
  apply (termInv_work t); simpl; try done.
  - unfold appended. by rewrite E.
  - unfold fanned. by rewrite E.
  - rewrite (alter_insert _ _ _ s) by done. by apply (subsInv_same r s).
  - by rewrite !length_alter.
  - intros c' rs' [= <- <-]. exists (r :: rs). by rewrite E.
  - intros c' r' rs' x [= <- <- <-] Hx. rewrite list_lookup_alter_eq, Hs in Hx. injection Hx as <-.
    destruct (lookup_lt_is_Some_2 (t_origins t) r) as [o Ho]; [rewrite Hor; by eapply lookup_lt_Some|].
    pose proof (st_bound _ _ _ _ (Hst _ _ _ Hs Ho)). unfold SubscriptionBufferSize in *. simpl. destruct (su_Chunks s); simpl in *; lia.
  - intros r' x o Hx Ho. destruct (decide (r' = r)) as [->|Hne].
    + rewrite list_lookup_alter_eq in Hx. rewrite list_lookup_alter_eq in Ho. rewrite Hs in Hx. simpl in Hx. apply fmap_Some in Ho as (o' & Ho' & ->). simplify_eq.
      destruct (Hst _ _ _ Hs Ho') as [Ha1 Ha2 Ha3 Ha4 Ha5 Ha6 Ha7].
      assert (Ef : fanned (set_pipe (PRetry c r rs) (set_origins (alter (fun o => mkOrigin (or_seen o) (or_missed o) false) r (t_origins t)) (onHeap (alter dropOldest r) t))) = fanned t)
        by (unfold fanned; by rewrite E).
      set (t1 := set_pipe _ _) in *. assert (Hd : due t1 r = due t r) by (unfold due; rewrite Ef, E; done).
      split; rewrite ?Hd; simpl; try done; [by rewrite Ef|destruct (su_Chunks s); simpl in *; lia| |].
      * etrans; [|exact Ha5]. unfold got. simpl. apply sublist_app; [done|]. destruct (su_Chunks s); [done|]. by apply sublist_cons.
      * intros Hlive. destruct (Ha7 Hlive) as [l ->]. destruct (su_Chunks s) as [|x q]; simpl; [by exists l|]. exists (l ++ [x]). by rewrite <- app_assoc.
    + rewrite list_lookup_alter_ne in Hx by done. rewrite list_lookup_alter_ne in Ho by done.
      apply (streamOk_mono t); [by apply Hst| |done|]; unfold due, fanned; rewrite E; simpl; done.
Qed.

(** The channel is full. *)
Lemma termInv_full t c r rs : termInv t -> t_pipe t = PSends c (r :: rs) -> termInv (set_pipe (PDrop c r rs) t).
Proof.
  intros Ht E. pose proof Ht as [Hsub Hscr Hch Hca Hor Hre Hst]. rewrite E in Hch.
  apply (termInv_work t); simpl; try done.
  - unfold appended. by rewrite E.
  - unfold fanned. by rewrite E.
  - intros c' rs' [= <- <-]. exists (r :: rs). rewrite E. destruct (Hch _ _ eq_refl) as (? & ? & ?). done.
  - intros r' s o Hs Ho. apply (streamOk_mono t); [by apply Hst| |done|]; unfold due, fanned; rewrite E; simpl; done.
Qed.

(** After a drop there is room. *)
Lemma offer_room t c r rs : termInv t -> t_pipe t = PRetry c r rs -> exists t', offer c r t = Some t'.
Proof.
  intros Ht E. destruct (ti_chunk _ Ht c (r :: rs)) as (_ & _ & Hin); [by rewrite E|].
  destruct (proj1 (refs_live _ r (ti_subs _ Ht))) as (s & Hs & _); [apply Hin; set_solver|].
  unfold offer. rewrite Hs. simpl. unfold trySend_. rewrite bool_decide_eq_true_2 by (by eapply (ti_room _ Ht)). by eexists.
Qed.

Lemma termInv_pipe t t' : termInv t -> pipeStep t = Some t' -> termInv t'.
Proof.
  intros Ht Hp. unfold pipeStep in Hp. destruct (t_pipe t) as [|c|c|c [|r rs]|c r rs|c r rs] eqn:E; simplify_eq.
  - by apply termInv_append.
  - by apply termInv_begin.
  - by eapply termInv_end.
  - pose proof (offer_spec c r t) as Hoff. destruct (offer c r t) as [t1|]; [|by apply termInv_full].
    destruct Hoff as (s & s' & Hs & Hs' & ->). apply (termInv_sent t r rs c s s'); try done; rewrite ?E; try done. unfold appended. rewrite E. lia.
  - by apply termInv_drop.
  - pose proof (offer_spec c r t) as Hoff. destruct (offer_room t c r rs Ht E) as [t1 E1]. rewrite E1 in *. simpl.
    destruct Hoff as (s & s' & Hs & Hs' & ->). apply (termInv_sent t r rs c s s'); try done; rewrite ?E; try done. unfold appended. rewrite E. lia.
Qed.

(** Objects that some calls closed. *)
Definition shut (h h' : list TerminalSubscription) : Prop :=
  length h' = length h /\ forall r s', h' !! r = Some s' -> exists s, h !! r = Some s /\ (s' = s \/ s' = with_Done s).

Lemma shut_refl h : shut h h.
Proof. split; [done|]. intros r s Hs. exists s. by auto. Qed.

Lemma shut_trans h1 h2 h3 : shut h1 h2 -> shut h2 h3 -> shut h1 h3.
Proof.
  intros [L1 H1] [L2 H2]. split; [congruence|]. intros r s3 Hs3. destruct (H2 _ _ Hs3) as (s2 & Hs2 & H).
  destruct (H1 _ _ Hs2) as (s1 & Hs1 & H'). exists s1. split; [done|]. destruct H as [->| ->], H' as [->| ->]; auto.
Qed.

Lemma closeDone_shut r h h' : closeDone r h = Some h' -> shut h h'.
Proof.
  unfold closeDone. destruct (h !! r) as [s|] eqn:Hs; simpl; [|done]. destruct (su_Done s); [done|]. intros [= <-].
  split; [by rewrite length_insert|]. intros r' s' H'. destruct (lookup_with_Done _ _ _ _ _ Hs H') as [[-> ->]|[_ H'']]; eauto.
Qed.

Lemma closeAll_shut l h h' : foldl (fun h r => h ≫= closeDone r) (Some h) l = Some h' -> shut h h'.
Proof.
  revert h'. induction l as [|r l IH] using rev_ind; intros h'; [intros [= <-]; apply shut_refl|].
  rewrite foldl_snoc. intros H. apply bind_Some in H as (h1 & H1 & Hc). eapply shut_trans; [by apply IH|by eapply closeDone_shut].
Qed.

Lemma Unsubscribe_shut id ts ts' : Unsubscribe_ id ts = Some ts' -> shut (ts_heap ts) (ts_heap ts').
Proof.
  unfold Unsubscribe_. destruct (ts_subs ts !! id) as [r|]; [|intros [= <-]; apply shut_refl].
  intros H. apply bind_Some in H as (h & Hc & [= <-]). by eapply closeDone_shut.
Qed.

Lemma unlocked_work t c rs : locked (t_pipe t) = false -> carrying (t_pipe t) = Some (c, rs) -> rs = [].
Proof. destruct (t_pipe t); try done; by intros _ [= _ <-]. Qed.

Lemma streamOk_Done t r s o : streamOk t r s o -> streamOk t r (with_Done s) o.
Proof. by intros [Hs Hn Hm Hb Hg Ha Hw]; split. Qed.

Lemma termInv_shut t ts : termInv t -> locked (t_pipe t) = false -> subsInv ts -> shut (ts_heap (t_subs t)) (ts_heap ts) ->
  termInv (set_subs ts t).
Proof.
  intros [Hsub Hscr Hch Hca Hor Hre Hst] Hl Hi [Hlen Hsh]. split; simpl; try done.
  - intros c rs Hc. destruct (Hch _ _ Hc) as (? & _). assert (rs = []) as -> by (by eapply unlocked_work).
    split_and!; [done|constructor|by intros r ?%not_elem_of_nil].
  - congruence.
  - intros c r rs s E. by rewrite E in Hl.
  - intros r s' o Hs' Ho. destruct (Hsh _ _ Hs') as (s & Hs & [->| ->]); [|apply streamOk_Done]; by apply (streamOk_mono t); [apply Hst|..].
Qed.

(** A new subscription has missed what was fanned out before it. *)
Lemma termInv_alloc t ts c k r : termInv t -> locked (t_pipe t) = false -> t_calls t !! k = Some c -> subsInv ts ->
  ts_heap ts = ts_heap (t_subs t) ++ [mkSubscription (ca_id c) [] false (ca_scrollback c) r.1 r.2 []] ->
  termInv (set_origins (t_origins t ++ [mkOrigin (ca_seen c) (fanned t) true]) (set_calls (delete k (t_calls t)) (set_subs ts t))).
Proof.
  intros [Hsub Hscr Hch Hca Hor Hre Hst] Hl Hk Hi Hh. split; simpl; try done.
  - intros c' rs Hc. destruct (Hch _ _ Hc) as (? & _). assert (rs = []) as -> by (by eapply unlocked_work).
    split_and!; [done|constructor|by intros ? ?%not_elem_of_nil].
  - intros c' Hc'. apply Hca. by eapply list_elem_of_delete_inv.
  - rewrite Hh, !length_app. simpl. congruence.
  - intros c' r' rs s E. by rewrite E in Hl.
  - intros r' s o Hs Ho. rewrite Hh in Hs. apply lookup_app_Some in Hs as [Hs|[Hge Hs]].
    + rewrite lookup_app_l in Ho by (rewrite Hor; by eapply lookup_lt_Some). apply (streamOk_mono t); [by apply Hst|done..].
    + apply list_lookup_singleton_Some in Hs as [Hr <-]. rewrite lookup_app_r in Ho by lia. rewrite Hor, Hr in Ho. injection Ho as <-.
      destruct (Hca c) as (Hc1 & Hc2 & Hc3); [by eapply list_elem_of_lookup_2|].
      assert (Hdue : drop (fanned t) (due t r') = []).
      { apply drop_ge. unfold due, fanned. destruct (t_pipe t); simpl in *; rewrite ?length_take; try done; lia. }
      split; simpl; try done; [unfold SubscriptionBufferSize; lia|..];
        match goal with |- context [due ?x r'] => change (due x r') with (due t r') end; by rewrite Hdue.
Qed.

Lemma termInv_read t c : termInv t -> t_pipe t = PRead -> termInv (readChunk c t).
Proof.
  intros [Hsub Hscr Hch Hca Hor Hre Hst] E.
  assert (Hf : fanned (readChunk c t) = fanned t) by (unfold fanned; simpl; rewrite E, length_app; simpl; lia).
  assert (Hft : fanned t = length (t_out t)) by (unfold fanned; rewrite E; lia).
  assert (Hap : appended t = length (t_out t)) by (unfold appended; rewrite E; lia).
  split; simpl; try done.
  - replace (appended (readChunk c t)) with (length (t_out t)) by (unfold appended; simpl; rewrite length_app; simpl; lia).
    by rewrite take_app_length, <- (firstn_all (t_out t)), <- Hap.
  - intros c' rs [= <- <-]. split_and!; [by eexists|constructor|by intros r ?%not_elem_of_nil].
  - intros k Hk. destruct (Hca _ Hk) as (H1 & H2 & H3). rewrite Hf, take_app_le, length_app by lia. split_and!; [done|lia|lia].
  - intros r s o Hs Ho. apply (streamOk_mono t); [by apply Hst|lia|by eexists|].
    unfold due. rewrite Hf, E. simpl. by rewrite Hft, take_app_length.
Qed.

Lemma termInv_snapshot t id : (0 < capacity)%Z -> (0 <= maxSnapshot)%Z -> termInv t -> termInv (takeSnapshot id t).
Proof.
  intros Hcap Hmax [Hsub Hscr Hch Hca Hor Hre Hst]. split; simpl; try done.
  - intros c Hc. apply elem_of_app in Hc as [Hc|Hc]; [by apply Hca|]. apply list_elem_of_singleton in Hc as ->. simpl.
    split_and!; [by apply holds_Snapshot|unfold appended, fanned; simpl; destruct (t_pipe t); lia|unfold appended; lia].
  - intros r s o Hs Ho. by apply (streamOk_mono t); [apply Hst|..].
Qed.

Lemma termInv_receive t r s c q : termInv t -> ts_heap (t_subs t) !! r = Some s -> su_Chunks s = c :: q ->
  termInv (onHeap (<[r := mkSubscription (su_ID s) q (su_Done s) (su_Scrollback s) (su_Rows s) (su_Cols s) (su_Received s ++ [c])]>) t).
Proof.
  intros [Hsub Hscr Hch Hca Hor Hre Hst] Hr Hq. split; simpl; try done.
  - by apply (subsInv_same r s).
  - by rewrite length_insert.
  - intros c' r' rs x E Hx. destruct (decide (r' = r)) as [->|Hne].
    + rewrite list_lookup_insert_eq in Hx by (by eapply lookup_lt_Some). injection Hx as <-.
      pose proof (Hre _ _ _ _ E Hr) as Hlt. rewrite Hq in Hlt. simpl in *. lia.
    + rewrite list_lookup_insert_ne in Hx by done. by eapply Hre.
  - intros r' x o Hx Ho. apply (streamOk_mono t); [|done..]. destruct (decide (r' = r)) as [->|Hne].
    + rewrite list_lookup_insert_eq in Hx by (by eapply lookup_lt_Some). injection Hx as <-.
      destruct (Hst _ _ _ Hr Ho) as [H1 H2 H3 H4 H5 H6 H7]. unfold got in *. rewrite Hq in *.
      split; simpl in *; unfold got; simpl; rewrite <- ?app_assoc; try done; [lia|].
      intros Hd. destruct (H7 Hd) as [l ->]. exists (l ++ [c]). by rewrite <- app_assoc.
    + rewrite list_lookup_insert_ne in Hx by done. by apply Hst.
Qed.

Lemma termInv_subscribe t t' k : termInv t -> locked (t_pipe t) = false -> finishSubscribe k t = Some t' -> termInv t'.
Proof.
  intros Ht Hl Hf. unfold finishSubscribe in Hf. destruct (t_calls t !! k) as [c|] eqn:Hk; [|done]. cbn [mbind option_bind] in Hf.
  destruct (Subscribe_eq (ca_id c) (ca_scrollback c) (ca_rows c) (ca_cols c) _ (ti_subs _ Ht)) as (ts0 & Hu & Heq).
  destruct (subsInv_Unsubscribe (ca_id c) _ (ti_subs _ Ht)) as (ts1 & Hu1 & Hi1 & Hs1).
  rewrite Hu in Hu1. injection Hu1 as <-. rewrite Heq in Hf. injection Hf as <-.
  pose proof (termInv_shut t ts0 Ht Hl Hi1 (Unsubscribe_shut _ _ _ Hu)) as Ht1.
  apply (termInv_alloc (set_subs ts0 t) _ c k (ca_rows c, ca_cols c)); try done.
  apply subsInv_alloc; try done. by rewrite Hs1, lookup_delete_eq.
Qed.

Lemma termInv_step t t' : (0 < capacity)%Z -> (0 <= maxSnapshot)%Z -> termInv t -> tstep t t' -> termInv t'.
Proof.
  intros Hcap Hmax Ht Hs. pose proof (ti_subs _ Ht) as Hsub.
  destruct Hs as [c t E Hne|t t' Hp|id t|k t t' Hl Hf|id t ts Hl Hu|t ts Hl Hc|r s c q t Hr Hq|rows cols t].
  - by apply termInv_read.
  - by eapply termInv_pipe.
  - by apply termInv_snapshot.
  - by eapply termInv_subscribe.
  - destruct (subsInv_Unsubscribe id _ Hsub) as (ts' & Hu' & Hi & _). simplify_eq. apply termInv_shut; try done. by eapply Unsubscribe_shut.
  - destruct (subsInv_CloseAll _ Hsub) as (ts' & Hc' & Hi & _). simplify_eq. apply termInv_shut; try done.
    unfold CloseAll_ in Hc. apply bind_Some in Hc as (h & Hh & [= <-]). by eapply closeAll_shut.
  - by apply termInv_receive.
  - destruct Ht as [? ? ? ? ? ? Hst]. split; simpl; try done. intros. by apply (streamOk_mono t); [apply Hst|..].
Qed.

(** A send to a subscriber gives up only when its 64 places are taken, and the
    loss is noted only when it does. *)
Lemma drop_full t t' c r rs : termInv t -> tstep t t' -> t_pipe t' = PDrop c r rs -> t_pipe t <> PDrop c r rs ->
  exists s, ts_heap (t_subs t) !! r = Some s /\ length (su_Chunks s) = SubscriptionBufferSize.
Proof.
  intros Ht Hs E' E. destruct Hs as [c' t H Hne|t t' Hp|id t|k t t' Hl Hf|id t ts Hl Hu|t ts Hl Hc|r' s c' q t Hr Hq|rows cols t]; try done.
  - unfold pipeStep in Hp. destruct (t_pipe t) as [|c'|c'|c' [|r' rs']|c' r' rs'|c' r' rs'] eqn:Ep; simplify_eq; try done.
    pose proof (offer_spec c' r' t) as Hoff. destruct (offer c' r' t) as [t1|] eqn:Eo; simplify_eq/=.
    destruct (ti_chunk _ Ht c (r :: rs)) as (_ & _ & Hin); [by rewrite Ep|].
    destruct (proj1 (refs_live _ r (ti_subs _ Ht))) as (s & Hs & _); [apply Hin; set_solver|]. exists s. split; [done|].
    unfold offer in Eo. rewrite Hs in Eo. simpl in Eo. unfold trySend_ in Eo. case_bool_decide as Hlt; [done|].
    destruct (lookup_lt_is_Some_2 (t_origins t) r) as [o Ho]; [rewrite (ti_origins _ Ht); by eapply lookup_lt_Some|].
    pose proof (st_bound _ _ _ _ (ti_streams _ Ht _ _ _ Hs Ho)). lia.
  - unfold finishSubscribe in Hf. destruct (t_calls t !! k); simpl in Hf; [|done].
    destruct (Subscribe_ _ _ _ _ _) as [[? ?]|]; simplify_eq/=.
Qed.

Lemma loss_dropped t t' r o o' : tstep t t' -> t_origins t !! r = Some o -> t_origins t' !! r = Some o' ->
  o' = o \/ exists c rs, t_pipe t = PDrop c r rs.
Proof.
  intros Hs Ho Ho'. destruct Hs as [c' t H Hne|t t' Hp|id t|k t t' Hl Hf|id t ts Hl Hu|t ts Hl Hc|r' s c' q t Hr Hq|rows cols t];
    simpl in Ho'; try (left; congruence).
  - unfold pipeStep in Hp. destruct (t_pipe t) as [|c'|c'|c' [|r' rs']|c' r' rs'|c' r' rs'] eqn:Ep; simplify_eq; try (left; simpl in *; congruence).
    + pose proof (offer_spec c' r' t) as Hoff. destruct (offer c' r' t) as [t1|]; [destruct Hoff as (? & ? & _ & _ & ->)|]; left; simpl in *; congruence.
    + destruct (decide (r' = r)) as [->|Hne]; [by right; eauto|]. left. simpl in Ho'. rewrite list_lookup_alter_ne in Ho' by done. congruence.
    + pose proof (offer_spec c' r' t) as Hoff. destruct (offer c' r' t) as [t1|]; [destruct Hoff as (? & ? & _ & _ & ->)|]; left; simpl in *; congruence.
  - left. unfold finishSubscribe in Hf. destruct (t_calls t !! k); simpl in Hf; [|done].
    destruct (Subscribe_ _ _ _ _ _) as [[? ?]|]; simplify_eq/=. rewrite lookup_app_l in Ho' by (by eapply lookup_lt_Some). congruence.
Qed.

(** C38: what a terminal subscriber sees, whatever the interleaving of the output,
    the subscribers' calls and the consumers: its scrollback is the end of the
    output up to some chunk, and the chunks it took or has waiting are some of the
    later ones in their order, of which at most one was in the scrollback too.
    Between two chunks what waits for a subscriber that is still there, at most
    64 chunks, are the last ones put out, so the newest is never the one that is
    lost; and unless a chunk had to be dropped for it, which happens only after a
    send found 64 waiting, it has all of the chunks since it was there.  No
    channel is closed twice. *)
Theorem subscriber_stream rows cols t (Hcap : (0 < capacity)%Z) (Hmax : (0 <= maxSnapshot)%Z) (Hr : rtc tstep (newTerminal rows cols) t) :
  (forall r s, ts_heap (t_subs t) !! r = Some s -> exists o, t_origins t !! r = Some o /\
     su_Scrollback s = snapshotOf (take (or_seen o) (t_out t)) /\
     or_seen o <= S (or_missed o) /\
     got s `sublist_of` drop (or_missed o) (t_out t) /\
     length (su_Chunks s) <= SubscriptionBufferSize /\
     (su_Done s = false -> t_pipe t = PRead -> su_Chunks s `suffix_of` drop (or_missed o) (t_out t)) /\
     (or_lossless o = true -> su_Done s = false -> t_pipe t = PRead -> got s = drop (or_missed o) (t_out t))) /\
  (forall t' r o o', tstep t t' -> t_origins t !! r = Some o -> t_origins t' !! r = Some o' ->
     o' = o \/ exists c rs, t_pipe t = PDrop c r rs) /\
  (forall t' c r rs, tstep t t' -> t_pipe t' = PDrop c r rs -> t_pipe t <> PDrop c r rs ->
     exists s, ts_heap (t_subs t) !! r = Some s /\ length (su_Chunks s) = SubscriptionBufferSize) /\
  (forall id scr rows' cols', Subscribe_ id scr rows' cols' (t_subs t) <> None) /\
  (forall id, Unsubscribe_ id (t_subs t) <> None) /\ CloseAll_ (t_subs t) <> None.
Proof.
  assert (Ht : termInv t).
  { revert Hr. apply (rtc_invariant tstep termInv); [by apply termInv_new|]. intros a b Ha Hab. by eapply termInv_step. }
  pose proof (ti_subs _ Ht) as Hsub. split_and!.
  - intros r s Hs. destruct (lookup_lt_is_Some_2 (t_origins t) r) as [o Ho].
    { rewrite (ti_origins _ Ht). by eapply lookup_lt_Some. }
    exists o. destruct (ti_streams _ Ht _ _ _ Hs Ho) as [H1 [H2 H2'] H3 H4 H5 H6 H7]. split_and!; try done.
    + etrans; [done|]. unfold due. destruct (owed _ _); [|done].
      replace (fanned t) with (or_missed o + (fanned t - or_missed o)) by lia. rewrite <- take_drop_commute. apply sublist_take.
    + intros Hd E. specialize (H7 Hd). unfold due in H7. by rewrite E in H7.
    + intros Hl Hd E. rewrite H6 by done. unfold due. by rewrite E.
  - intros t' r o o'. apply loss_dropped.
  - intros t' c r rs. by apply drop_full.
  - intros id scr rows' cols'. destruct (subsInv_Subscribe id scr rows' cols' _ Hsub) as (? & ? & -> & _). done.
  - intros id. destruct (subsInv_Unsubscribe id _ Hsub) as (? & -> & _). done.
  - destruct (subsInv_CloseAll _ Hsub) as (? & -> & _). done.
Qed.

End Terminal.

(** ** client.go

    Clients are objects too; a closed one is sent nothing, and closing is
    idempotent.  [cl_output] is what the channel has taken so far, the first
    [cl_read] of it read. *)

Definition defaultClientOutputBuffer : nat := 4096.

Record Client : Type := mkClient { cl_ID : string; cl_output : list bytes_; cl_read : nat; cl_closed : bool }.
Record ClientManager : Type := mkClients { cm_clients : gmap string nat; cm_heap : list Client }.
Definition NewClientManager : ClientManager := mkClients ∅ [].
Definition NewClient (id : string) : Client := mkClient id [] 0 false.

Definition Client_Send (data : bytes_) (c : Client) : Client :=
  if cl_closed c then c
  else if bool_decide (length (cl_output c) - cl_read c < defaultClientOutputBuffer)
  then mkClient (cl_ID c) (cl_output c ++ [data]) (cl_read c) false else c.
Definition Client_Close (c : Client) : Client := mkClient (cl_ID c) (cl_output c) (cl_read c) true.

Definition Attach (id : string) (cm : ClientManager) : nat * ClientManager :=
  let h := match cm_clients cm !! id with Some r => alter Client_Close r (cm_heap cm) | None => cm_heap cm end in
  (length h, mkClients (<[id := length h]> (cm_clients cm)) (h ++ [NewClient id])).
Definition Detach (id : string) (cm : ClientManager) : ClientManager :=
  match cm_clients cm !! id with
  | Some r => mkClients (delete id (cm_clients cm)) (alter Client_Close r (cm_heap cm))
  | None => cm
  end.
Definition clientRefs (cm : ClientManager) : list nat := (map_to_list (cm_clients cm)).*2.
Definition Client_FanOut (data : bytes_) (cm : ClientManager) : ClientManager :=
  mkClients (cm_clients cm) (foldl (fun h r => alter (Client_Send data) r h) (cm_heap cm) (clientRefs cm)).
Definition Client_CloseAll (cm : ClientManager) : ClientManager :=
  mkClients ∅ (foldl (fun h r => alter Client_Close r h) (cm_heap cm) (clientRefs cm)).
Definition Client_Count (cm : ClientManager) : Z := Z.of_nat (size (cm_clients cm)).

(** ** session.go: the life of a session

    Start launches the goroutine that pipes the output and a watcher; the
    goroutine marks the session stopped, submits the end and closes exitNotify,
    one after the other; Stop and cleanup can come in between. *)

Record SessionConfig : Type := mkSessionConfig {
  sc_DriverType : string; sc_Command : string; sc_Args : list string; sc_CWD : string;
  sc_Env : gmap string string; sc_InitialRows : Z; sc_InitialCols : Z }.

Definition withDefaults (cfg : SessionConfig) : SessionConfig :=
  mkSessionConfig (sc_DriverType cfg) (sc_Command cfg) (sc_Args cfg) (sc_CWD cfg) (sc_Env cfg)
    (if bool_decide (sc_InitialRows cfg <= 0)%Z then 24 else sc_InitialRows cfg)%Z
    (if bool_decide (sc_InitialCols cfg <= 0)%Z then 80 else sc_InitialCols cfg)%Z.

(** The goroutine of the output. *)
Inductive outputPc : Type := ONone | OPiping | OEnded (reason : string) | OSubmitted | OClosed.

Record Session : Type := mkSession {
  se_ID : string;
  se_Config : SessionConfig;
  se_monitor : world;
  se_clients : ClientManager;
  se_termSubs : terminalSubscribers;
  se_started : bool;
  se_stopped : bool;
  se_paused : bool;
  se_output : outputPc;
  se_cleaned : bool;
  se_createdAt : Z;
}.

Definition NewSession (now : Z) (id : string) (cfg : SessionConfig) : Session :=
  mkSession id (withDefaults cfg) (initial None now) NewClientManager newTerminalSubscribers false false false ONone false now.

Definition upd started stopped paused output (s : Session) : Session :=
  mkSession (se_ID s) (se_Config s) (se_monitor s) (se_clients s) (se_termSubs s) started stopped paused output (se_cleaned s) (se_createdAt s).
Definition with_monitor m (s : Session) : Session :=
  mkSession (se_ID s) (se_Config s) m (se_clients s) (se_termSubs s) (se_started s) (se_stopped s) (se_paused s) (se_output s) (se_cleaned s) (se_createdAt s).
(** Submit on the session's monitor. *)
Definition submitTo (evt : AgentEvent) (w : world) : world :=
  let r := Submit evt (w_mon w) in let w' := set_mon r.2 w in if r.1 then note_accepted evt w' else w'.
Definition submit (t : AgentEventType) (d : EventData) (now : Z) (s : Session) : Session :=
  with_monitor (submitTo (mkAgentEvent t now d) (se_monitor s)) s.

Definition exitNotified (s : Session) : bool := match se_output s with OClosed => true | _ => false end.

Definition alreadyStarted (id : string) : string := "session " +:+ id +:+ " already started".
Definition alreadyStopped (id : string) : string := "session " +:+ id +:+ " already stopped".
Definition notRunning (id : string) : string := "session " +:+ id +:+ " not running".

(** Start, whose StartPTY ends with [pty]. *)
Definition Start (pty : res string ()) (now : Z) (s : Session) : res string () * Session :=
  if se_started s then (Err (alreadyStarted (se_ID s)), s)
  else if se_stopped s then (Err (alreadyStopped (se_ID s)), s)
  else
    let s := upd true (se_stopped s) (se_paused s) (se_output s) s in
    match pty with
    | Err e => (Err ("start pty: " +:+ e), s)
    | Ok _ => (Ok (), upd true (se_stopped s) (se_paused s) OPiping
                        (submit EventSessionStarted (DSessionStarted (mkSessionStarted (se_ID s) "")) now s))
    end.

(** The output goroutine past PipeOutput. *)
Definition outputStep (now : Z) (reason : string) (s : Session) : option Session :=
  match se_output s with
  | OPiping => Some (upd (se_started s) true (se_paused s) (OEnded reason) s)
  | OEnded reason => Some (upd (se_started s) (se_stopped s) (se_paused s) OSubmitted (submit EventSessionEnded (DSessionEnded (mkSessionEnded reason)) now s))
  | OSubmitted => Some (upd (se_started s) (se_stopped s) (se_paused s) OClosed s)
  | _ => None
  end.

(** The reason of the end: of PipeOutput's error and the child's. *)
Definition endReason (pipeErr exitErr : option string) : string :=
  match exitErr with
  | Some e => "exit: " +:+ e
  | None => match pipeErr with Some e => "error: " +:+ e | None => "exited" end
  end.

(** cleanup; [None] if a channel is closed twice. *)
Definition cleanup (s : Session) : option Session :=
  if se_cleaned s then Some s
  else ts ← CloseAll_ (se_termSubs s);
       Some (mkSession (se_ID s) (se_Config s) (set_mon (Close (w_mon (se_monitor s))) (se_monitor s)) (Client_CloseAll (se_clients s)) ts
               (se_started s) (se_stopped s) (se_paused s) (se_output s) true (se_createdAt s)).

(** Stop up to its lock: whether cleanup is all that is left. *)
Definition Stop_begin (s : Session) : bool * Session :=
  if se_stopped s then (true, s) else (false, upd (se_started s) true (se_paused s) (se_output s) s).

Definition IsRunning (s : Session) : bool := se_started s && negb (se_stopped s).
Definition Pause (s : Session) : res string () * Session :=
  if negb (se_started s) || se_stopped s then (Err (notRunning (se_ID s)), s)
  else (Ok (), upd (se_started s) (se_stopped s) true (se_output s) s).
Definition Resume (s : Session) : res string () * Session :=
  if negb (se_started s) || se_stopped s then (Err (notRunning (se_ID s)), s)
  else (Ok (), upd (se_started s) (se_stopped s) false (se_output s) s).
Definition IsPaused (s : Session) : bool := se_paused s.

(** WritePTY: what is asked of the terminal is the parameter [write]; [None] is
    a write that timed out. *)
Definition WritePTY (write : bytes_ -> option (res string Z)) (data : bytes_) (s : Session) : res string Z :=
  if se_stopped s then Err ("session " +:+ se_ID s +:+ " is stopped")
  else match write data with Some r => r | None => Err "pty write timeout, child killed" end.

Definition onClients (f : ClientManager -> ClientManager) (s : Session) : Session :=
  mkSession (se_ID s) (se_Config s) (se_monitor s) (f (se_clients s)) (se_termSubs s) (se_started s) (se_stopped s) (se_paused s) (se_output s) (se_cleaned s) (se_createdAt s).
Definition onSubs (ts : terminalSubscribers) (s : Session) : Session :=
  mkSession (se_ID s) (se_Config s) (se_monitor s) (se_clients s) ts (se_started s) (se_stopped s) (se_paused s) (se_output s) (se_cleaned s) (se_createdAt s).

(** The calls on the subscribers from outside. *)
Inductive subscriberCall : (terminalSubscribers -> option terminalSubscribers) -> Prop :=
  | sc_subscribe id scr rows cols : subscriberCall (fun ts => snd <$> Subscribe_ id scr rows cols ts)
  | sc_unsubscribe id : subscriberCall (Unsubscribe_ id).

(** The steps of a session, of its monitor and its callers, and of the calls of Stop between their lock and
    their cleanup, counted by the second component. *)
Inductive sstep : relation (Session * nat) :=
  | ss_start pty now s n : sstep (s, n) ((Start pty now s).2, n)
  | ss_output now reason s s' n : outputStep now reason s = Some s' -> sstep (s, n) (s', n)
  | ss_watch s s' n : exitNotified s = true -> cleanup s = Some s' -> sstep (s, n) (s', n)
  | ss_stop s n : sstep (s, n) ((Stop_begin s).2, S n)
  | ss_cleanup s s' n : cleanup s = Some s' -> sstep (s, S n) (s', n)
  | ss_pause s n : sstep (s, n) ((Pause s).2, n)
  | ss_resume s n : sstep (s, n) ((Resume s).2, n)
  | ss_monitor w s n : step (se_monitor s) w -> sstep (s, n) (with_monitor w s, n)
  | ss_clients f s n : sstep (s, n) (onClients f s, n)
  | ss_subscribers f ts s n : f (se_termSubs s) = Some ts -> subscriberCall f -> sstep (s, n) (onSubs ts s, n).

Definition begun (s : Session) : bool := match se_output s with ONone => false | _ => true end.
Definition ended (s : Session) : bool := match se_output s with OEnded _ | OSubmitted | OClosed => true | _ => false end.

Record sessInv (s : Session) : Prop := mkSessInv {
  se_reach : reachable (se_monitor s);
  se_subs : subsInv (se_termSubs s);
  se_begun : begun s = true -> se_started s = true;
  se_ended : ended s = true -> se_stopped s = true;
  se_closed : se_cleaned s = true -> m_done (w_mon (se_monitor s)) = true;
}.

Lemma reachable_step w w' : reachable w -> step w w' -> reachable w'.
Proof. intros (written & now & Hr) Hs. exists written, now. by eapply rtc_r. Qed.

Lemma step_done_stays w w' : step w w' -> m_done (w_mon w) = true -> m_done (w_mon w') = true.
Proof.
  intros Hs Hd. destruct Hs as [n w w' Hl| | | |n i c c' w w' _ Hc|evt w r| | | |]; try done.
  - unfold loopStep, Monitor.change in Hl. repeat (case_match; simplify_eq/=); done.
  - destruct c as [|evt|evt [|ch chs]|]; simpl in Hc; [|by injection Hc as <- <-..|done].
    destruct (Monitor.change n TransitionIdleTimeout w) as [[st w1]|] eqn:E; injection Hc as <- <-; [|done].
    unfold Monitor.change in E. destruct (transition _ _ _) as [[? ?] ?]. case_match; [|done]. by injection E as <- <-.
  - unfold r, Submit. case_bool_decide; done.
Qed.

Lemma cleanup_ok s : sessInv s -> exists s', cleanup s = Some s' /\ sessInv s' /\ se_cleaned s' = true.
Proof.
  intros Hi. pose proof Hi as [Hr Hs Hb He Hc]. unfold cleanup. destruct (se_cleaned s) eqn:E; [by exists s|].
  destruct (subsInv_CloseAll _ Hs) as (ts & -> & Hts & _ & _). simpl. eexists. split; [done|].
  split; [|done]. split; simpl; try done. eapply reachable_step; [done|apply step_Close].
Qed.

Lemma sessInv_step s n s' n' : sessInv s -> sstep (s, n) (s', n') -> sessInv s'.
Proof.
  intros Hi Hs. pose proof Hi as [Hr Hsub Hb He Hc].
  inversion Hs as [pty now ? ?|now reason ? ? ? Ho|? ? ? _ Hcl|? ?|? ? ? Hcl|? ?|? ?|w ? ? Hst|f ? ?|f ts ? ? Hf Hcall]; subst.
  - unfold Start. destruct (se_started s) eqn:E; [done|]. destruct (se_stopped s) eqn:E2; [done|].
    destruct pty; split; simpl; try done; try (intros H; by rewrite Hb in E || by rewrite He in E2).
    + eapply reachable_step; [done|apply (step_Submit _ (se_monitor s))].
    + intros H. unfold submitTo, Submit. case_bool_decide; simpl; by apply Hc.
  - unfold outputStep in Ho. unfold begun, ended in *. destruct (se_output s) eqn:E; simplify_eq; split; simpl; auto.
    + eapply reachable_step; [done|apply (step_Submit _ (se_monitor s))].
    + intros H. unfold submitTo, Submit. case_bool_decide; simpl; by apply Hc.
  - destruct (cleanup_ok s Hi) as (s1 & H1 & H2 & _). by simplify_eq.
  - unfold Stop_begin. destruct (se_stopped s); simpl; [done|]. by split.
  - destruct (cleanup_ok s Hi) as (s1 & H1 & H2 & _). by simplify_eq.
  - unfold Pause. case_match; [done|]. by split.
  - unfold Resume. case_match; [done|]. by split.
  - split; simpl; try done; [by eapply reachable_step|]. intros H. by eapply step_done_stays; [|apply Hc].
  - by split.
  - split; simpl; try done. destruct Hcall as [id scr rows cols|id].
    + destruct (subsInv_Subscribe id scr rows cols _ Hsub) as (r & ts' & E & Hts & _). rewrite E in Hf. by simplify_eq/=.
    + destruct (subsInv_Unsubscribe id _ Hsub) as (ts' & E & Hts & _). by simplify_eq.
Qed.

(** A session, its monitor, its output and its callers in any interleaving:
    the monitor is one that monitor_faithful speaks of; output has begun only in
    a started session and ended only in a stopped one; after cleanup the monitor
    is told to finish; and cleanup never closes a channel twice. *)
Theorem session_invariant now id cfg s n (Hr : rtc sstep (NewSession now id cfg, 0) (s, n)) :
  reachable (se_monitor s) /\ (begun s = true -> se_started s = true) /\ (ended s = true -> se_stopped s = true) /\
  (se_cleaned s = true -> m_done (w_mon (se_monitor s)) = true) /\ cleanup s <> None.
Proof.
  assert (Hi : sessInv s).
  { change s with (s, n).1. revert Hr. apply (rtc_invariant sstep (fun p => sessInv p.1)).
    - split; simpl; try done. by exists None, now.
    - intros [a k] [b l] Ha Hs. by eapply sessInv_step. }
  pose proof Hi as [Hm Hsub Hb He Hc]. split_and!; try done.
  destruct (cleanup_ok s Hi) as (? & -> & _). done.
Qed.

(** ** Runs of a terminal and of a session *)

Module Runs.

Inductive taction : Type := TRead (c : bytes_) | TPipe | TSnapshot (id : string) | TSubscribe (k : nat).
Definition tact (cap maxSnap : Z) (a : taction) (t : terminal) : option terminal :=
  match a with
  | TRead c => match t_pipe t, c with PRead, _ :: _ => Some (readChunk c t) | _, _ => None end
  | TPipe => pipeStep t
  | TSnapshot id => Some (takeSnapshot maxSnap id t)
  | TSubscribe k => if locked (t_pipe t) then None else finishSubscribe k t
  end.
Definition tacts (cap maxSnap : Z) (l : list taction) : option terminal := foldl (fun o a => o ≫= tact cap maxSnap a) (Some (newTerminal cap 24 80)) l.

Lemma tacts_steps cap maxSnap l t : tacts cap maxSnap l = Some t -> rtc (tstep maxSnap) (newTerminal cap 24 80) t.
Proof.
  revert t. unfold tacts. induction l as [|a l IH] using rev_ind; intros t; [intros [= <-]; reflexivity|].
  rewrite foldl_snoc. intros H. apply bind_Some in H as (t1 & H1 & Ha). eapply rtc_r; [by apply IH|]. destruct a; simpl in Ha.
  - destruct (t_pipe t1) eqn:E; try done. destruct c; simplify_eq. by apply ts_read.
  - by apply ts_pipe.
  - simplify_eq. apply ts_snapshot.
  - destruct (locked (t_pipe t1)) eqn:E; [done|]. by eapply ts_subscribe.
Qed.

Definition hello : bytes_ := list_ascii_of_string "hello".
(** What the first subscriber has, and what was put out. *)
Definition view (t : terminal) : option (bytes_ * list bytes_ * list bytes_) :=
  s ← ts_heap (t_subs t) !! 0; Some (su_Scrollback s, got s, t_out t).

(** A chunk that comes between the snapshot and the subscription is in neither. *)
Example chunk_lost : tacts 16 16 [TSnapshot "a"; TRead hello; TPipe; TPipe; TPipe; TSubscribe 0] ≫= view = Some ([], [], [hello]).
Proof. vm_compute. reflexivity. Qed.

(** A chunk that is in the scrollback and not yet fanned out comes twice. *)
Example chunk_twice : tacts 16 16 [TRead hello; TPipe; TSnapshot "a"; TSubscribe 0; TPipe; TPipe; TPipe] ≫= view = Some (hello, [hello], [hello]).
Proof. vm_compute. reflexivity. Qed.

Definition live : list taction := [TSnapshot "a"; TSubscribe 0; TRead hello; TPipe; TPipe; TPipe; TPipe].
Definition watched : terminal := default (newTerminal 16 24 80) (tacts 16 16 live).
Lemma watched_steps : rtc (tstep 16) (newTerminal 16 24 80) watched.
Proof. apply (tacts_steps _ _ live). vm_compute. reflexivity. Qed.

Example writes_ex : Snapshot 3 (foldl (fun sb data => scrollback_Write data sb) (newScrollbackBuffer 4) (list_ascii_of_string <$> ["abc"; "de"; "f"])) =
  list_ascii_of_string "def".
Proof. vm_compute. reflexivity. Qed.

Definition config : SessionConfig := mkSessionConfig "claude-code" "claude" [] "" ∅ 0 0.
Definition session : Session := NewSession 0 "s" config.

(** A start whose terminal could not be had leaves a session that counts as
    running, cannot be started again, and whose exit nobody will announce. *)
Example failed_start :
  let s := (Start (Err "no pty") 0 session).2 in
  IsRunning s = true /\ (Start (Ok ()) 0 s).1 = Err (alreadyStarted "s") /\ forall now reason, outputStep now reason s = None.
Proof. done. Qed.

(** Stop comes while the child's exit is being recorded: the monitor is closed
    before the end is submitted, and stays active. *)
Definition racing : option Session :=
  let run (l : list action) (s : Session) := w ← foldl (fun o a => o ≫= act a) (Some (se_monitor s)) l; Some (with_monitor w s) in
  s ← run (repeat ALoop 10) (Start (Ok ()) 0 session).2;
  s ← outputStep 0 "exited" s;
  s ← cleanup (Stop_begin s).2;
  s ← run [ADone; ALoop; ALoop] s;
  s ← outputStep 0 "" s;
  outputStep 0 "" s.
Example end_lost :
  (fun s => (exitNotified s, at_ (se_monitor s), w_pc (se_monitor s), ev_Type <$> m_events (w_mon (se_monitor s)))) <$> racing =
  Some (true, (StateActive, SubStateThinking), LReturned, [EventSessionEnded]).
Proof. vm_compute. reflexivity. Qed.

(** Who subscribes to a session after its cleanup is never told that it is over. *)
Example late_subscriber :
  (s ← cleanup (Stop_begin (Start (Ok ()) 0 session).2).2; '(r, ts) ← Subscribe_ "late" [] 24 80 (se_termSubs s);
   s ← cleanup (onSubs ts s); su_Done <$> ts_heap (se_termSubs s) !! r) = Some false.
Proof. vm_compute. reflexivity. Qed.

(** Pausing stops no input. *)
Example paused_writes :
  let s := (Pause (Start (Ok ()) 0 session).2).2 in
  (IsPaused s, WritePTY (fun data => Some (Ok (lenZ data))) hello s) = (true, Ok 5%Z).
Proof. vm_compute. reflexivity. Qed.

End Runs.

Lemma scrollback_spec_witness :
  Snapshot 3 (foldl (fun sb data => scrollback_Write data sb) (newScrollbackBuffer 4) [Runs.hello; Runs.hello]) =
  lastn (Z.to_nat (Z.min 3 4)) (concat [Runs.hello; Runs.hello]).
Proof. apply (scrollback_spec 4 3); vm_compute; done. Defined.

Lemma subscriber_stream_witness : exists s o, ts_heap (t_subs Runs.watched) !! 0 = Some s /\ t_origins Runs.watched !! 0 = Some o /\
  got s = drop (or_missed o) (t_out Runs.watched).
Proof.
  destruct (subscriber_stream 16 16 24 80 Runs.watched) as [H _]; [lia|lia|apply Runs.watched_steps|].
  destruct (ts_heap (t_subs Runs.watched) !! 0) as [s|] eqn:Hs; [|by vm_compute in Hs].
  destruct (H 0 s Hs) as (o & Ho & _ & _ & _ & _ & _ & Hall). exists s, o. split_and!; [done|done|].
  apply Hall; [by vm_compute in Ho; injection Ho as <-|by vm_compute in Hs; injection Hs as <-|by vm_compute].
Defined.

Lemma session_invariant_witness : cleanup (Stop_begin Runs.session).2 <> None.
Proof. apply (session_invariant 0 "s" Runs.config (Stop_begin Runs.session).2 1). apply rtc_once. apply ss_stop. Defined.
