(* ===== verification/TermServer.v ===== *)
(** * TermServer: the table of terminal sessions and their streams

    internal/termmux/session_manager.go, and internal/rpc/server/terminal_server.go:
    the pumps between a subscription and a client, with the splitting of large
    chunks and the limit on input. *)

From Stdlib Require Import Ascii String.
From S2P Require Import Prelude GoStrings GoText Monitor Termmux.

Local Open Scope string_scope.
Local Open Scope list_scope.
Local Open Scope stdpp_scope.
Local Open Scope go_scope.

(** ** session_manager.go

    Sessions are objects; the table names those that are listed. *)

Record SessionManager : Type := mkSessionManager {
  sm_sessions : gmap string nat;
  sm_heap : list Session;
  sm_maxSessions : Z;
  sm_cancelled : bool;
}.
Definition NewSessionManager (maxSessions : Z) : SessionManager := mkSessionManager ∅ [] maxSessions false.

Definition exists_ (id : string) : string := "session " +:+ id +:+ " already exists".
Definition limitReached (n : Z) : string := "session limit reached (" +:+ pretty n +:+ ")".
Definition notFound (id : string) : string := "session " +:+ id +:+ " not found".

Definition Create (now : Z) (id : string) (cfg : SessionConfig) (sm : SessionManager) : res string nat * SessionManager :=
  match sm_sessions sm !! id with
  | Some _ => (Err (exists_ id), sm)
  | None =>
      if bool_decide (sm_maxSessions sm <= Z.of_nat (size (sm_sessions sm)))%Z then (Err (limitReached (sm_maxSessions sm)), sm)
      else let r := length (sm_heap sm) in
           (Ok r, mkSessionManager (<[id := r]> (sm_sessions sm)) (sm_heap sm ++ [NewSession now id cfg]) (sm_maxSessions sm) (sm_cancelled sm))
  end.

Definition Get (id : string) (sm : SessionManager) : res string nat :=
  match sm_sessions sm !! id with Some r => Ok r | None => Err (notFound id) end.

Record SessionInfo : Type := mkInfo {
  in_ID : string; in_DriverType : string; in_Command : string; in_State : State; in_SubState : SubState;
  in_CreatedAt : Z; in_ClientCount : Z }.
Definition infoOf (s : Session) : SessionInfo :=
  mkInfo (se_ID s) (sc_DriverType (se_Config s)) (sc_Command (se_Config s)) (at_ (se_monitor s)).1 (at_ (se_monitor s)).2
    (se_createdAt s) (Client_Count (se_clients s)).
(** List; sessions created at the same time come in some order. *)
Definition createdBefore (a b : SessionInfo) : Prop := (in_CreatedAt a <= in_CreatedAt b)%Z.
#[export] Instance createdBefore_dec a b : Decision (createdBefore a b).
Proof. unfold createdBefore. apply _. Defined.
Definition listed (sm : SessionManager) : list Session := omap (fun p => sm_heap sm !! p.2) (map_to_list (sm_sessions sm)).
Definition List_ (sm : SessionManager) : list SessionInfo := merge_sort createdBefore (infoOf <$> listed sm).

Definition set_session (r : nat) (s : Session) (sm : SessionManager) : SessionManager :=
  mkSessionManager (sm_sessions sm) (<[r := s]> (sm_heap sm)) (sm_maxSessions sm) (sm_cancelled sm).

(** Kill takes the session out of the table and stops it; Shutdown does it to
    all of them.  What Stop does past its lock is the session's. *)
Definition stopAt (r : nat) (sm : SessionManager) : SessionManager :=
  match sm_heap sm !! r with Some s => set_session r (Stop_begin s).2 sm | None => sm end.
Definition Kill (id : string) (sm : SessionManager) : res string () * SessionManager :=
  match sm_sessions sm !! id with
  | None => (Err (notFound id), sm)
  | Some r => (Ok (), stopAt r (mkSessionManager (delete id (sm_sessions sm)) (sm_heap sm) (sm_maxSessions sm) (sm_cancelled sm)))
  end.
Definition sessionRefs (sm : SessionManager) : list nat := (map_to_list (sm_sessions sm)).*2.
Definition Shutdown (sm : SessionManager) : SessionManager :=
  foldl (fun sm r => stopAt r sm) (mkSessionManager ∅ (sm_heap sm) (sm_maxSessions sm) true) (sessionRefs sm).
Definition Count (sm : SessionManager) : Z := Z.of_nat (size (sm_sessions sm)).

(** The steps of the table and of its sessions. *)
Inductive mstep : relation SessionManager :=
  | ms_create now id cfg sm : mstep sm (Create now id cfg sm).2
  | ms_kill id sm : mstep sm (Kill id sm).2
  | ms_shutdown sm : mstep sm (Shutdown sm)
  | ms_session r s s' n n' sm : sm_heap sm !! r = Some s -> sstep (s, n) (s', n') -> mstep sm (set_session r s' sm).

Record tableInv (max : Z) (sm : SessionManager) : Prop := mkTableInv {
  tb_max : sm_maxSessions sm = max;
  tb_size : (Z.of_nat (size (sm_sessions sm)) <= Z.max 0 max)%Z;
  tb_ref : forall id r, sm_sessions sm !! id = Some r -> exists s, sm_heap sm !! r = Some s /\ se_ID s = id;
  tb_gone : forall r s, sm_heap sm !! r = Some s -> (forall id, sm_sessions sm !! id <> Some r) -> se_stopped s = true;
}.

Lemma sstep_ID s n s' n' : sstep (s, n) (s', n') -> se_ID s' = se_ID s.
Proof.
  inversion 1 as [pty now ? ?|now reason ? ? ? Ho|? ? ? _ Hcl|? ?|? ? ? Hcl|? ?|? ?|w ? ? Hst|f ? ?|f ts ? ? Hf Hcall]; subst; try done.
  - unfold Start. repeat case_match; done.
  - unfold outputStep in Ho. repeat case_match; by simplify_eq.
  - unfold cleanup in Hcl. case_match; [by simplify_eq|]. destruct (CloseAll_ _); simpl in Hcl; by simplify_eq.
  - unfold Stop_begin. by case_match.
  - unfold cleanup in Hcl. case_match; [by simplify_eq|]. destruct (CloseAll_ _); simpl in Hcl; by simplify_eq.
  - unfold Pause. by case_match.
  - unfold Resume. by case_match.
Qed.

Lemma sstep_stopped s n s' n' : sstep (s, n) (s', n') -> se_stopped s = true -> se_stopped s' = true.
Proof.
  inversion 1 as [pty now ? ?|now reason ? ? ? Ho|? ? ? _ Hcl|? ?|? ? ? Hcl|? ?|? ?|w ? ? Hst|f ? ?|f ts ? ? Hf Hcall]; subst; try done; intros Hs.
  - unfold Start. rewrite Hs. repeat case_match; done.
  - unfold outputStep in Ho. repeat case_match; by simplify_eq.
  - unfold cleanup in Hcl. case_match; [by simplify_eq|]. destruct (CloseAll_ _); simpl in Hcl; by simplify_eq.
  - unfold Stop_begin. by rewrite Hs.
  - unfold cleanup in Hcl. case_match; [by simplify_eq|]. destruct (CloseAll_ _); simpl in Hcl; by simplify_eq.
  - unfold Pause. by case_match.
  - unfold Resume. by case_match.
Qed.

Lemma Stop_begin_spec s : se_stopped (Stop_begin s).2 = true /\ se_ID (Stop_begin s).2 = se_ID s.
Proof. unfold Stop_begin. destruct (se_stopped s) eqn:E; done. Qed.

Lemma stopAt_same r sm : sm_sessions (stopAt r sm) = sm_sessions sm /\ sm_maxSessions (stopAt r sm) = sm_maxSessions sm.
Proof. unfold stopAt. by case_match. Qed.

(** What stopping the objects of [l] does to the heap. *)
Lemma stopAll_heap l sm :
  let sm' := foldl (fun sm r => stopAt r sm) sm l in
  sm_sessions sm' = sm_sessions sm /\ sm_maxSessions sm' = sm_maxSessions sm /\
  forall r, match sm_heap sm !! r with
            | Some s => exists s', sm_heap sm' !! r = Some s' /\ se_ID s' = se_ID s /\ (r ∈ l \/ se_stopped s = true -> se_stopped s' = true)
            | None => sm_heap sm' !! r = None
            end.
Proof.
  induction l as [|x l IH] using rev_ind.
  { split_and!; [done..|]. intros r. simpl. destruct (sm_heap sm !! r) as [s|]; [|done]. exists s. split_and!; [done..|]. set_solver. }
  simpl in *. rewrite foldl_snoc. destruct IH as (E1 & E2 & IH). destruct (stopAt_same x (foldl (fun sm r => stopAt r sm) sm l)) as [E3 E4].
  split_and!; [congruence|congruence|]. intros r. specialize (IH r). set (sm1 := foldl _ sm l) in *.
  destruct (sm_heap sm !! r) as [s|] eqn:Hs.
  - destruct IH as (s1 & Hs1 & Hid & Hst). unfold stopAt. destruct (decide (r = x)) as [->|Hne].
    + rewrite Hs1. simpl. exists (Stop_begin s1).2. destruct (Stop_begin_spec s1) as [? ?].
      rewrite list_lookup_insert_eq by (by eapply lookup_lt_Some). split_and!; [done|congruence|done].
    + exists s1. split_and!; [|done|set_solver]. destruct (sm_heap sm1 !! x); [|done]. simpl. by rewrite list_lookup_insert_ne.
  - unfold stopAt. destruct (sm_heap sm1 !! x) as [s1|] eqn:Hx; [|done]. simpl.
    rewrite list_lookup_insert_ne; [done|]. intros ->. congruence.
Qed.

Lemma tableInv_new max : tableInv max (NewSessionManager max).
Proof. split; simpl; try done. rewrite map_size_empty. lia. Qed.

Lemma tableInv_Create max now id cfg sm : tableInv max sm -> tableInv max (Create now id cfg sm).2.
Proof.
  intros [Hm Hs Hr Hg]. unfold Create. destruct (sm_sessions sm !! id) as [r|] eqn:Hid; [done|].
  case_bool_decide as Hlim; [done|]. split; simpl; try done.
  - rewrite map_size_insert_None by done. lia.
  - intros id' r' H. destruct (decide (id' = id)) as [->|Hne].
    + rewrite lookup_insert_eq in H. simplify_eq. exists (NewSession now id cfg). split; [|done]. rewrite lookup_app_r by lia. by rewrite Nat.sub_diag.
    + rewrite lookup_insert_ne in H by done. destruct (Hr _ _ H) as (s & Hs' & ?). exists s.
      rewrite lookup_app_l; [done|]. by eapply lookup_lt_Some.
  - intros r s H Hn. apply lookup_app_Some in H as [H|[Hge H]].
    + apply (Hg r s H). intros id' Hc. apply (Hn id'). rewrite lookup_insert_ne; [done|]. intros ->. congruence.
    + apply list_lookup_singleton_Some in H as [E _]. destruct (Hn id). rewrite lookup_insert_eq. f_equal. lia.
Qed.

Lemma stopAll_inv max l sm ss : tableInv max sm -> (forall id r, ss !! id = Some r -> sm_sessions sm !! id = Some r) ->
  (forall id r, sm_sessions sm !! id = Some r -> (forall id', ss !! id' <> Some r) -> r ∈ l) -> size ss <= size (sm_sessions sm) ->
  forall b, tableInv max (foldl (fun sm r => stopAt r sm) (mkSessionManager ss (sm_heap sm) (sm_maxSessions sm) b) l).
Proof.
  intros [Hm Hs Hr Hg] Hsub Hl Hsz b.
  destruct (stopAll_heap l (mkSessionManager ss (sm_heap sm) (sm_maxSessions sm) b)) as (E1 & E2 & Hh). simpl in *.
  split; rewrite ?E1, ?E2; try done; [lia| |].
  - intros id r H. destruct (Hr _ _ (Hsub _ _ H)) as (s & Hs' & Hid). specialize (Hh r). rewrite Hs' in Hh.
    destruct Hh as (s' & Hs'' & Hid' & _). exists s'. split; [done|congruence].
  - intros r s' H Hn. specialize (Hh r). destruct (sm_heap sm !! r) as [s|] eqn:Hs'; [|congruence].
    destruct Hh as (s1 & Hs1 & _ & Hst). assert (s1 = s') as -> by congruence. apply Hst.
    destruct (decide (r ∈ l)) as [|Hnin]; [by left|]. right. apply (Hg r s Hs'). intros id Hid. apply Hnin. by eapply Hl.
Qed.

Lemma tableInv_ref_inj max sm id id' r : tableInv max sm -> sm_sessions sm !! id = Some r -> sm_sessions sm !! id' = Some r -> id = id'.
Proof. intros [_ _ Hr _] H H'. destruct (Hr _ _ H) as (s & ? & <-), (Hr _ _ H') as (s' & ? & <-). congruence. Qed.

Lemma tableInv_step max sm sm' : tableInv max sm -> mstep sm sm' -> tableInv max sm'.
Proof.
  intros Hi Hs. pose proof Hi as [Hm Hsz Hr Hg]. destruct Hs as [now id cfg sm|id sm|sm|r s s' n n' sm Hs Hst].
  - by apply tableInv_Create.
  - unfold Kill. destruct (sm_sessions sm !! id) as [r|] eqn:Hid; [|done].
    apply (stopAll_inv max [r] sm (delete id (sm_sessions sm)) Hi).
    + intros id' r' H. by apply lookup_delete_Some in H as [_ H].
    + intros id' r' H Hn. apply list_elem_of_singleton. destruct (decide (id' = id)) as [->|Hne]; [congruence|].
      destruct (Hn id'). by rewrite lookup_delete_ne.
    + rewrite map_size_delete, Hid. lia.
  - apply (stopAll_inv max (sessionRefs sm) sm ∅ Hi); [done| |rewrite map_size_empty; lia].
    intros id r H _. unfold sessionRefs. apply list_elem_of_fmap. exists (id, r). split; [done|]. by apply elem_of_map_to_list.
  - pose proof (sstep_ID _ _ _ _ Hst) as Hid. pose proof (lookup_lt_Some _ _ _ Hs) as Hlt. split; simpl; try done.
    + intros id r' H. destruct (Hr _ _ H) as (x & Hx & Hxid). destruct (decide (r' = r)) as [->|Hne].
      * exists s'. rewrite list_lookup_insert_eq by done. split; [done|]. congruence.
      * exists x. by rewrite list_lookup_insert_ne.
    + intros r' x H Hn. destruct (decide (r' = r)) as [->|Hne].
      * rewrite list_lookup_insert_eq in H by done. simplify_eq. eapply sstep_stopped; [done|]. by eapply Hg.
      * rewrite list_lookup_insert_ne in H by done. by eapply Hg.
Qed.

(** However sessions are created, killed, shut down and run, the table never
    holds more than its limit, every entry is a session of that name, and every
    session that is in it no longer has been stopped. *)
Theorem table_bounded max sm (Hr : rtc mstep (NewSessionManager max) sm) : tableInv max sm.
Proof. revert Hr. apply (rtc_invariant mstep (tableInv max)); [apply tableInv_new|]. intros a b. apply tableInv_step. Qed.

(** ** terminal_server.go: the output pump

    [msgs] is what is sent to the client for a chunk. *)

Definition MaxTerminalChunkSize : nat := Z.to_nat (64 * 1024).

Inductive serverMessage : Type :=
  | Attached (rows cols : Z) (scrollback : bytes_)
  | Output (data : bytes_)
  | Detached (reason : string).

(** The loop over an oversized chunk; every round takes at least a byte. *)
Fixpoint splitChunk (size fuel : nat) (chunk : bytes_) : list bytes_ :=
  match fuel, chunk with
  | S fuel, _ :: _ => let n := min (length chunk) size in take n chunk :: splitChunk size fuel (drop n chunk)
  | _, _ => []
  end.
Definition outputs (chunk : bytes_) : list serverMessage := Output <$> splitChunk MaxTerminalChunkSize (length chunk) chunk.

Lemma splitChunk_spec size fuel chunk : 0 < size -> length chunk <= fuel ->
  concat (splitChunk size fuel chunk) = chunk /\ Forall (fun d => 0 < length d <= size) (splitChunk size fuel chunk).
Proof.
  intros Hs. revert chunk. induction fuel as [|fuel IH]; intros chunk Hl; destruct chunk as [|c chunk]; simpl in Hl; try lia; try done.
  destruct (IH (drop (min (length (c :: chunk)) size) (c :: chunk))) as [E F].
  { rewrite length_drop. cbn [length]. lia. }
  cbn [splitChunk concat]. split.
  - by rewrite E, take_drop.
  - constructor; [|done]. rewrite length_take. cbn [length]. lia.
Qed.

(** What the client of a stream is sent: the attachment, the chunks the pump
    took, and, if the pump saw the subscription's end, the detachment. *)
Definition streamed (s : TerminalSubscription) (chunks : list bytes_) (sawEnd : bool) : list serverMessage :=
  Attached (su_Rows s) (su_Cols s) (su_Scrollback s) :: (chunks ≫= outputs) ++ (if sawEnd then [Detached "session_ended"] else []).
Definition payload (m : serverMessage) : bytes_ := match m with Output d => d | _ => [] end.

Lemma outputs_spec chunk : concat (payload <$> outputs chunk) = chunk /\
  Forall (fun m => exists d, m = Output d /\ 0 < length d <= MaxTerminalChunkSize) (outputs chunk).
Proof.
  destruct (splitChunk_spec MaxTerminalChunkSize (length chunk) chunk) as [E F]; [unfold MaxTerminalChunkSize; lia|lia|].
  unfold outputs. split; [by rewrite <- list_fmap_compose, list_fmap_id|]. apply Forall_fmap. eapply Forall_impl; [done|]. simpl. eauto.
Qed.

(** *** The input pump

    A message costs its bytes in tokens; a tick gives back [refillAmount]. *)

Definition maxInputRate : Z := 10 * 1024.
Definition inputBurst : Z := 64 * 1024.
Definition refillAmount : Z := maxInputRate / 10.

Record clientMessage : Type := mkClientMessage { cm_Input : option bytes_; cm_Resize : option (Z * Z) }.
Inductive pumpEvent : Type := Message (m : option clientMessage) | Tick.
Inductive ptyAction : Type := Wrote (data : bytes_) | Resized (rows cols : Z).

(** One round of the select; [writeOk] tells whether WritePTY succeeds, and
    [None] is the pump's return. *)
Definition pump (writeOk : bytes_ -> bool) (e : pumpEvent) (tokens : Z) : option (Z * list ptyAction) :=
  match e with
  | Tick => Some (Z.min (tokens + refillAmount) inputBurst, [])
  | Message None => Some (tokens, [])
  | Message (Some m) =>
      let resize := match cm_Resize m with
                    | Some (rows, cols) => if bool_decide (0 < rows /\ 0 < cols)%Z then [Resized rows cols] else []
                    | None => [] end in
      match cm_Input m with
      | Some ((_ :: _) as data) =>
          if bool_decide (lenZ data <= tokens)%Z
          then if writeOk data then Some ((tokens - lenZ data)%Z, Wrote data :: resize) else None
          else Some (tokens, resize)
      | _ => Some (tokens, resize)
      end
  end.

(** What a run of the pump does to the terminal, and the tokens left. *)
Fixpoint pumps (writeOk : bytes_ -> bool) (es : list pumpEvent) (tokens : Z) : Z * list ptyAction :=
  match es with
  | [] => (tokens, [])
  | e :: es => match pump writeOk e tokens with
               | Some (tokens', acts) => let r := pumps writeOk es tokens' in (r.1, acts ++ r.2)
               | None => (tokens, [])
               end
  end.

Definition written (acts : list ptyAction) : Z := foldr (fun a n => match a with Wrote d => (lenZ d + n)%Z | _ => n end) 0%Z acts.
Definition ticks (es : list pumpEvent) : Z := foldr (fun e n => match e with Tick => (1 + n)%Z | _ => n end) 0%Z es.

Lemma written_app a b : written (a ++ b) = (written a + written b)%Z.
Proof. unfold written. induction a as [|[]]; simpl; lia. Qed.

Lemma pump_spec writeOk e tokens tokens' acts : (0 <= tokens <= inputBurst)%Z -> pump writeOk e tokens = Some (tokens', acts) ->
  (0 <= tokens' <= inputBurst)%Z /\ (written acts + tokens' <= tokens + refillAmount * ticks [e])%Z.
Proof.
  intros Ht. unfold pump. change refillAmount with 1024%Z. change inputBurst with 65536%Z in *. destruct e as [[m|]|]; simpl.
  - assert (Hw : forall l, written (match cm_Resize m with Some (rows, cols) => if bool_decide (0 < rows /\ 0 < cols)%Z then [Resized rows cols] else [] | None => [] end ++ l) = written l)
      by (intros l; repeat case_match; done).
    specialize (Hw []). rewrite app_nil_r in Hw.
    destruct (cm_Input m) as [[|c data]|]; [| |]; try (intros [= <- <-]; rewrite Hw; simpl; lia).
    case_bool_decide; [|intros [= <- <-]; rewrite Hw; simpl; lia]. destruct (writeOk _); [|done].
    intros [= <- <-]. cbn [written foldr]. fold written. change (foldr _ 0%Z ?l) with (written l). rewrite Hw. unfold lenZ in *. cbn [written foldr]. lia.
  - intros [= <- <-]. simpl. lia.
  - intros [= <- <-]. simpl. lia.
Qed.

(** The pumps of a terminal stream.  A chunk of any size goes out whole and
    in pieces of at most 64 KB; and whatever a client sends, what reaches the
    terminal in any stretch of its input is at most the burst of 64 KB and 1 KB
    for each tick of the clock. *)
Theorem stream_limits :
  (forall chunk, concat (payload <$> outputs chunk) = chunk /\
     Forall (fun m => exists d, m = Output d /\ 0 < length d <= MaxTerminalChunkSize) (outputs chunk)) /\
  forall writeOk es1 es2, let tokens := (pumps writeOk es1 inputBurst).1 in
    (written (pumps writeOk es2 tokens).2 <= inputBurst + refillAmount * ticks es2)%Z.
Proof.
  split; [apply outputs_spec|]. intros writeOk es1 es2.
  assert (H : forall es t, (0 <= t <= inputBurst)%Z -> let r := pumps writeOk es t in
    (0 <= r.1 <= inputBurst)%Z /\ (written r.2 + r.1 <= t + refillAmount * ticks es)%Z).
  { induction es as [|e es IH]; intros t Ht; simpl; [lia|].
    assert (Hn : (0 <= ticks es)%Z) by (clear; induction es as [|[]]; simpl; lia).
    destruct (pump writeOk e t) as [[t' acts]|] eqn:E.
    - destruct (pump_spec _ _ _ _ _ Ht E) as [Ht' Hw]. destruct (IH t' Ht') as [Hr Hw']. simpl. rewrite written_app.
      split; [done|]. change refillAmount with 1024%Z in *. destruct e; simpl in *; lia.
    - simpl. split; [done|]. change refillAmount with 1024%Z. destruct e; simpl; lia. }
  destruct (H es1 inputBurst) as [H1 _]; [unfold inputBurst; lia|]. destruct (H es2 _ H1) as [H2 H3]. simpl in *. lia.
Qed.

(** ** Runs *)

Module Tables.

Definition config : SessionConfig := mkSessionConfig "codex" "codex" [] "" ∅ 24 80.
Definition one : SessionManager := (Create 0 "a" config (NewSessionManager 1)).2.

Example table_full : (Create 1 "b" config one).1 = Err "session limit reached (1)" /\ (Create 1 "a" config one).1 = Err "session a already exists".
Proof. by vm_compute. Qed.

(** A message that is larger than the burst never reaches the terminal, however
    long the client waits. *)
Example too_large (n : nat) : (written (pumps (fun _ => true) (repeat Tick n ++ [Message (Some (mkClientMessage (Some (replicate (Z.to_nat (inputBurst + 1)) zero)) None))]) inputBurst).2 = 0)%Z.
Proof.
  assert (H : forall m, (pumps (fun _ => true) (repeat Tick m ++ [Message (Some (mkClientMessage (Some (replicate (Z.to_nat (inputBurst + 1)) zero)) None))]) inputBurst).2 = []).
  { induction m as [|m IH].
    - cbn [repeat app pumps pump cm_Input cm_Resize]. change (Z.to_nat (inputBurst + 1)) with (S (Z.to_nat inputBurst)). cbn [replicate].
      unfold lenZ. cbn [length]. rewrite length_replicate. rewrite bool_decide_eq_false_2; [done|]. lia.
    - cbn [repeat app pumps pump]. by rewrite (Z.min_r (inputBurst + refillAmount) inputBurst) by (vm_compute; congruence). }
  by rewrite H.
Qed.

End Tables.

Lemma table_bounded_witness : tableInv 1 Tables.one.
Proof. apply (table_bounded 1 Tables.one). apply rtc_once. apply ms_create. Defined.
