(* ===== verification/DriverEvents.v ===== *)
(** * DriverEvents: the sources of a terminal session's events

    internal/termmux/driver: the event handlers of Claude Code and Codex, from
    the log records of OpenTelemetry, hooks and session logs to the events of the
    monitor; internal/termmux/eventsrc/sessionlog, the tailer of a growing file;
    and the translation of internal/agent/driver_termmux.go to the agent's
    events. *)

From Stdlib Require Import Ascii String SpecFloat.
From S2P Require Import Prelude GoStrings GoText GoFloat AiTypes Sse GoJson GoJsonText GoStruct Monitor.
From S2P Require AgentTypes.

Local Open Scope string_scope.
Local Open Scope list_scope.
Local Open Scope stdpp_scope.
Local Open Scope go_scope.

(** ** fmt.Sscanf with one verb

    Leading spaces are skipped, but not a newline; what follows the number is not
    looked at.  [None] is an error, which leaves the variable as it was. *)

Definition inlineSpaces : list (list Z) := filter (fun sp => sp <> [10]%Z) spaces.
Definition skipInline (s : string) : string := of_bytes (stripAll (String.length s) inlineSpaces (bytes s)).
Definition accept (set : string) (s : string) : string * string :=
  match s with String c s' => if oneOf set c then (String c "", s') else ("", s) | "" => ("", "") end.
Fixpoint acceptAll (set : string) (s : string) : string * string :=
  match s with
  | String c s' => if oneOf set c then let r := acceptAll set s' in (String c r.1, r.2) else ("", s)
  | "" => ("", "")
  end.
Definition decimalDigits : string := "0123456789".

(** The verb %d of an int64. *)
Definition sscanD (s : string) : option Z :=
  let '(sign, s) := accept "+-" (skipInline s) in
  let '(ds, _) := acceptAll decimalDigits s in
  if bool_decide (ds = "") then None
  else match ParseInt (sign +:+ ds) with Ok n => Some n | Err _ => None end.

(** The token of a float: a sign, digits, a point, an exponent; NaN and Inf; in
    hexadecimal the exponent is of two. *)
Definition floatToken (s : string) : string :=
  let both (a : string * string) (k : string -> string) := a.1 +:+ k a.2 in
  let word (sets : list string) (s : string) :=
    foldl (fun acc set => match acc with
                          | Some (t, s) => let r := accept set s in if bool_decide (r.1 = "") then None else Some (t +:+ r.1, r.2)
                          | None => None end) (Some ("", s)) sets in
  match word ["nN"; "aA"; "nN"] s with
  | Some (t, _) => t
  | None =>
      both (accept "+-" s) (fun s =>
        match word ["iI"; "nN"; "fF"] s with
        | Some (t, _) => t
        | None =>
            let zero := accept "0" s in
            let x := if bool_decide (zero.1 = "") then ("", s) else accept "xX" zero.2 in
            let hex := negb (bool_decide (x.1 = "")) in
            let prefix := if hex then zero.1 +:+ x.1 else zero.1 in
            let rest := if hex then x.2 else zero.2 in
            let digits := if hex then "0123456789aAbBcCdDeEfF_" else decimalDigits +:+ "_" in
            let exp := if hex then "pP" else "eEpP" in
            prefix +:+ both (acceptAll digits rest) (fun s =>
              let dot := accept "." s in
              dot.1 +:+ both (if bool_decide (dot.1 = "") then ("", dot.2) else acceptAll digits dot.2) (fun s =>
                let e := accept exp s in
                e.1 +:+ (if bool_decide (e.1 = "") then ""
                         else both (accept "+-" e.2) (fun s => (acceptAll (decimalDigits +:+ "_") s).1))))
        end)
  end.
(** The verb %f of a float64; a decimal with the exponent letter p is scaled by
    a power of two. *)
Definition sscanF (s : string) : option float64 :=
  let t := floatToken (skipInline s) in
  let number (t : string) := match ParseFloat t with Ok x => Some x | Err _ => None end in
  match CutByte "p" t with
  | Some (m, e) => if ContainsByte "x" t || ContainsByte "X" t then number t
                   else x ← number m; match ParseInt e with Ok n => Some (SFldexp 53 1024 x n) | Err _ => None end
  | None => number t
  end.

Example sscan_ex : sscanD "  -42 tokens" = Some (-42)%Z /\ sscanD "x" = None /\ sscanD (String newline "1") = None /\
  sscanF "0.25USD" = Some (literal 1 4) /\ sscanF "3p2" = Some (float_of 12).
Proof. by vm_compute. Qed.

(** ** The log records of OpenTelemetry *)

Record otelValue : Type := mkOtelValue { ov_StringValue : string }.
Record otelKeyValue : Type := mkOtelKeyValue { ok_Key : string; ok_Value : otelValue }.
Record otelLogRecord : Type := mkLogRecord { lr_Body : otelValue; lr_Attributes : option (list otelKeyValue) }.
Record otelScopeLog : Type := mkScopeLog { sl_LogRecords : option (list otelLogRecord) }.
Record otelResourceLog : Type := mkResourceLog { rl_ScopeLogs : option (list otelScopeLog) }.
Record otelLogBatch : Type := mkLogBatch { lb_ResourceLogs : option (list otelResourceLog) }.

Definition dOtelValue : decoder otelValue := dStruct (fun ms x => v ← field "stringValue" dString ms (ov_StringValue x); Some (mkOtelValue v)).
Definition dOtelKeyValue : decoder otelKeyValue := dStruct (fun ms x =>
  k ← field "key" dString ms (ok_Key x); v ← field "value" dOtelValue ms (ok_Value x); Some (mkOtelKeyValue k v)).
Definition dLogRecord : decoder otelLogRecord := dStruct (fun ms x =>
  b ← field "body" dOtelValue ms (lr_Body x);
  a ← field "attributes" (dSlice (mkOtelKeyValue "" (mkOtelValue "")) dOtelKeyValue) ms (lr_Attributes x); Some (mkLogRecord b a)).
Definition dScopeLog : decoder otelScopeLog := dStruct (fun ms x =>
  l ← field "logRecords" (dSlice (mkLogRecord (mkOtelValue "") None) dLogRecord) ms (sl_LogRecords x); Some (mkScopeLog l)).
Definition dResourceLog : decoder otelResourceLog := dStruct (fun ms x =>
  l ← field "scopeLogs" (dSlice (mkScopeLog None) dScopeLog) ms (rl_ScopeLogs x); Some (mkResourceLog l)).
Definition dLogBatch : decoder otelLogBatch := dStruct (fun ms x =>
  l ← field "resourceLogs" (dSlice (mkResourceLog None) dResourceLog) ms (lb_ResourceLogs x); Some (mkLogBatch l)).

(** The records of a batch in the order of the handlers' three loops. *)
Definition recordsOf (b : otelLogBatch) : list otelLogRecord :=
  default [] (lb_ResourceLogs b) ≫= fun rl => default [] (rl_ScopeLogs rl) ≫= fun sl => default [] (sl_LogRecords sl).

(** The map of the attributes that are not empty, and a lookup in it. *)
Definition attrsOf (l : option (list otelKeyValue)) : gmap string string :=
  foldl (fun m kv => let v := ov_StringValue (ok_Value kv) in if bool_decide (v = "") then m else <[ok_Key kv := v]> m) ∅ (default [] l).
Definition attr (k : string) (attrs : gmap string string) : string := default "" (attrs !! k).
Definition eventTypeOf (attrs : gmap string string) (body : otelValue) : string :=
  let t := attr "event_type" attrs in if bool_decide (t = "") then ov_StringValue body else t.

(** ** claudecode/event_handler.go *)

Record EventHandler : Type := mkHandler { eh_sessionID : string; eh_pendingTools : gmap string Z; eh_lastTurnID : string }.
Definition NewEventHandler : EventHandler := mkHandler "" ∅ "".

Definition Milliseconds (d : Z) : Z := Z.quot d 1000000.

(** The attribute's number, or 0. *)
Definition tokensOf (k : string) (attrs : gmap string string) : Z := default 0%Z (attrs !! k ≫= sscanD).

Definition handleAPIRequest (attrs : gmap string string) (now : Z) (eh : EventHandler) : list AgentEvent * EventHandler :=
  let turnID := attr "turn_id" attrs in
  if negb (bool_decide (turnID = "")) && bool_decide (turnID = eh_lastTurnID eh) then ([], eh)
  else ([mkAgentEvent EventTurnCompleted now (DTurnCompleted
           (mkTurnCompleted turnID (tokensOf "input_tokens" attrs) (tokensOf "output_tokens" attrs) (tokensOf "cached_tokens" attrs)
              (default (float_of 0) (attrs !! "cost_usd" ≫= sscanF))))],
        mkHandler (eh_sessionID eh) (eh_pendingTools eh) turnID).

(** The end of the tool call [callID], and how long it took until [at_]. *)
Definition endTool (callID : string) (at_ : Z) (eh : EventHandler) : Z * EventHandler :=
  match eh_pendingTools eh !! callID with
  | Some start => (Milliseconds (at_ - start), mkHandler (eh_sessionID eh) (delete callID (eh_pendingTools eh)) (eh_lastTurnID eh))
  | None => (0%Z, eh)
  end.
Definition completed (now : Z) (name callID : string) (ms : Z) (ok : bool) : AgentEvent :=
  mkAgentEvent EventToolCompleted now (DToolCompleted (mkToolCompleted name callID ms ok)).

Definition handleToolResult (attrs : gmap string string) (now : Z) (eh : EventHandler) : list AgentEvent * EventHandler :=
  let callID := attr "call_id" attrs in
  let r := endTool callID now eh in
  ([completed now (attr "tool_name" attrs) callID r.1 (negb (bool_decide (attr "success" attrs = "false")))], r.2).

Definition discover (sid : string) (eh : EventHandler) : EventHandler :=
  if bool_decide (eh_sessionID eh = "") then mkHandler sid (eh_pendingTools eh) (eh_lastTurnID eh) else eh.

(** The switch on the record's type. *)
Definition dispatch_ (now : Z) (attrs : gmap string string) (eventType : string) (eh : EventHandler) : list AgentEvent * EventHandler :=
  if HasPrefix eventType "api_request" then handleAPIRequest attrs now eh
  else if bool_decide (eventType = "api_error") then ([], eh)
  else if bool_decide (eventType = "tool_result") then handleToolResult attrs now eh
  else ([], eh).

Definition processLogRecord (now : Z) (lr : otelLogRecord) (eh : EventHandler) : list AgentEvent * EventHandler :=
  let attrs := attrsOf (lr_Attributes lr) in
  let dispatch := dispatch_ now attrs (eventTypeOf attrs (lr_Body lr)) in
  match attrs !! "session_id" with
  | Some sid => let eh := discover sid eh in if bool_decide (eh_sessionID eh = sid) then dispatch eh else ([], eh)
  | None => dispatch eh
  end.

Fixpoint processAll (now : Z) (l : list otelLogRecord) (eh : EventHandler) : list AgentEvent * EventHandler :=
  match l with
  | [] => ([], eh)
  | lr :: l => let r := processLogRecord now lr eh in let r' := processAll now l r.2 in (r.1 ++ r'.1, r'.2)
  end.
Definition HandleOtelLogs (now : Z) (payload : string) (eh : EventHandler) : list AgentEvent * EventHandler :=
  match Unmarshal dLogBatch (mkLogBatch None) payload with
  | Some batch => processAll now (recordsOf batch) eh
  | None => ([], eh)
  end.

(** The payloads of hooks; a permission's has the fields of a tool's. *)
Record hookToolUse : Type := mkHook { hk_ToolName : string; hk_CallID : string }.
Definition dHook : decoder hookToolUse := dStruct (fun ms x =>
  n ← field "tool_name" dString ms (hk_ToolName x); c ← field "call_id" dString ms (hk_CallID x); Some (mkHook n c)).
Definition dDecision : decoder bool := dStruct (fun ms x => field "granted" dBool ms x).

Definition bare (t : AgentEventType) (now : Z) : AgentEvent := mkAgentEvent t now NoData.

(** [later] is the clock when the duration is taken. *)
Definition HandleHookEvent (now later : Z) (eventName payload : string) (eh : EventHandler) : list AgentEvent * EventHandler :=
  let hook := Unmarshal dHook (mkHook "" "") payload in
  if bool_decide (eventName = "PreToolUse") then
    match hook with
    | Some h => ([mkAgentEvent EventToolStarted now (DToolStarted (mkToolStarted (hk_ToolName h) (hk_CallID h)))],
                 mkHandler (eh_sessionID eh) (<[hk_CallID h := now]> (eh_pendingTools eh)) (eh_lastTurnID eh))
    | None => ([], eh) end
  else if bool_decide (eventName = "PostToolUse") then
    match hook with
    | Some h => let r := endTool (hk_CallID h) later eh in ([completed now (hk_ToolName h) (hk_CallID h) r.1 true], r.2)
    | None => ([], eh) end
  else if bool_decide (eventName = "PermissionRequest") then
    match hook with
    | Some h => ([mkAgentEvent EventApprovalRequested now (DApprovalRequested (mkApproval (hk_ToolName h) (hk_CallID h) (parse payload)))], eh)
    | None => ([], eh) end
  else if bool_decide (eventName = "permission_decision") then
    match Unmarshal dDecision false payload with
    | Some granted => ([bare (if granted then EventPermissionGranted else EventPermissionDenied) now], eh)
    | None => ([], eh) end
  else if bool_decide (eventName = "PreCompact") then ([bare EventCompactionStarted now], eh)
  else if bool_decide (eventName = "SessionStart") then ([mkAgentEvent EventSessionStarted now (DSessionStarted (mkSessionStarted "" ""))], eh)
  else if bool_decide (eventName = "SessionEnd") then ([mkAgentEvent EventSessionEnded now (DSessionEnded (mkSessionEnded "hook_session_end"))], eh)
  else ([], eh).

Record sessionLogEntry : Type := mkLogEntry { le_Role : string; le_Content : string }.
Definition dLogEntry : decoder sessionLogEntry := dStruct (fun ms x =>
  r ← field "role" dString ms (le_Role x); c ← field "content" dString ms (le_Content x); Some (mkLogEntry r c)).
Definition HandleSessionLogLine (now : Z) (line : string) : list AgentEvent :=
  match Unmarshal dLogEntry (mkLogEntry "" "") line with
  | Some e => if negb (bool_decide (le_Role e = "assistant")) || bool_decide (le_Content e = "") then []
              else [mkAgentEvent EventAgentMessage now (DAgentMessage (mkAgentMessage (le_Content e)))]
  | None => []
  end.

(** ** codex/event_handler.go

    The baselines are the counts of the last turn; [cx_idle] tells whether the
    idle timer is set. *)

Module Codex.

Definition interruptSuppression : Z := 500 * 1000000.

Record codex_EventHandler : Type := mkHandler {
  cx_interruptedAt : option Z;
  cx_idle : bool;
  cx_baselineInputTokens : Z;
  cx_baselineOutputTokens : Z;
}.
Definition codex_NewEventHandler : codex_EventHandler := mkHandler None false 0 0.

Definition HandleInterrupt (now : Z) (eh : codex_EventHandler) : codex_EventHandler :=
  mkHandler (Some now) (cx_idle eh) (cx_baselineInputTokens eh) (cx_baselineOutputTokens eh).
Definition isInInterruptSuppression (now : Z) (eh : codex_EventHandler) : bool :=
  match cx_interruptedAt eh with Some t => bool_decide (now - t < interruptSuppression)%Z | None => false end.
Definition resetIdleTimer (eh : codex_EventHandler) : codex_EventHandler :=
  mkHandler (cx_interruptedAt eh) true (cx_baselineInputTokens eh) (cx_baselineOutputTokens eh).
Definition Stop (eh : codex_EventHandler) : codex_EventHandler :=
  mkHandler (cx_interruptedAt eh) false (cx_baselineInputTokens eh) (cx_baselineOutputTokens eh).

(** The tokens since the last turn; a count that went down starts anew. *)
Definition delta (count baseline : Z) : Z :=
  let d := wrap64 (count - baseline) in if bool_decide (d < 0)%Z then count else d.

Definition count (k : string) (attrs : gmap string string) : Z := default 0%Z (sscanD (attr k attrs)).
Definition handleTurnComplete (attrs : gmap string string) (now : Z) (eh : codex_EventHandler) : list AgentEvent * codex_EventHandler :=
  let i := count "input_tokens" attrs in
  let o := count "output_tokens" attrs in
  ([mkAgentEvent EventTurnCompleted now (DTurnCompleted
      (mkTurnCompleted "" (delta i (cx_baselineInputTokens eh)) (delta o (cx_baselineOutputTokens eh)) 0 (float_of 0)))],
   mkHandler (cx_interruptedAt eh) (cx_idle eh) i o).

Definition codex_processLogRecord (now : Z) (lr : otelLogRecord) (eh : codex_EventHandler) : list AgentEvent * codex_EventHandler :=
  if isInInterruptSuppression now eh then ([], eh)
  else
    let attrs := attrsOf (lr_Attributes lr) in
    let eventType := eventTypeOf attrs (lr_Body lr) in
    if bool_decide (eventType = "turn_complete") || bool_decide (eventType = "api_request") then handleTurnComplete attrs now eh
    else if bool_decide (eventType = "tool_start")
    then ([mkAgentEvent EventToolStarted now (DToolStarted (mkToolStarted (attr "tool_name" attrs) (attr "call_id" attrs)))], eh)
    else if bool_decide (eventType = "tool_complete")
    then ([completed now (attr "tool_name" attrs) (attr "call_id" attrs) 0 (negb (bool_decide (attr "success" attrs = "false")))], eh)
    else ([], eh).

Fixpoint codex_processAll (now : Z) (l : list otelLogRecord) (eh : codex_EventHandler) : list AgentEvent * codex_EventHandler :=
  match l with
  | [] => ([], eh)
  | lr :: l => let r := codex_processLogRecord now lr eh in let r' := codex_processAll now l r.2 in (r.1 ++ r'.1, r'.2)
  end.
Definition codex_HandleOtelLogs (now : Z) (payload : string) (eh : codex_EventHandler) : list AgentEvent * codex_EventHandler :=
  match Unmarshal dLogBatch (mkLogBatch None) payload with
  | Some batch => let r := codex_processAll now (recordsOf batch) eh in (r.1, if bool_decide (r.1 = []) then r.2 else resetIdleTimer r.2)
  | None => ([], eh)
  end.

(** Spans. *)
Record otelSpan : Type := mkSpan { sp_Name : string; sp_Status : string; sp_Attributes : option (list otelKeyValue) }.
Definition dSpan : decoder otelSpan := dStruct (fun ms x =>
  n ← field "name" dString ms (sp_Name x);
  s ← field "status" (dStruct (fun ms y => field "code" dString ms y)) ms (sp_Status x);
  a ← field "attributes" (dSlice (mkOtelKeyValue "" (mkOtelValue "")) dOtelKeyValue) ms (sp_Attributes x); Some (mkSpan n s a)).
Definition dScopeSpan : decoder (option (list otelSpan)) := dStruct (fun ms x => field "spans" (dSlice (mkSpan "" "" None) dSpan) ms x).
Definition dResourceSpan : decoder (option (list (option (list otelSpan)))) := dStruct (fun ms x => field "scopeSpans" (dSlice None dScopeSpan) ms x).
Definition dTraceBatch : decoder (option (list (option (list (option (list otelSpan)))))) :=
  dStruct (fun ms x => field "resourceSpans" (dSlice None dResourceSpan) ms x).

Definition processSpan (now : Z) (sp : otelSpan) (eh : codex_EventHandler) : list AgentEvent :=
  if isInInterruptSuppression now eh then []
  else
    let attrs := attrsOf (sp_Attributes sp) in
    if bool_decide (sp_Name sp = "tool_execution") && (bool_decide (sp_Status sp = "OK") || bool_decide (sp_Status sp = ""))
    then [completed now (attr "tool_name" attrs) (attr "call_id" attrs) 0 true] else [].
Definition HandleOtelTraces (now : Z) (payload : string) (eh : codex_EventHandler) : list AgentEvent * codex_EventHandler :=
  match Unmarshal dTraceBatch None payload with
  | Some batch =>
      let spans := default [] batch ≫= fun rs => default [] rs ≫= fun ss => default [] ss in
      let events := spans ≫= fun sp => processSpan now sp eh in
      (events, if bool_decide (events = []) then eh else resetIdleTimer eh)
  | None => ([], eh)
  end.

(** *** The deltas of a run add up to its counts *)

(** A session's counts, as its turns report them. *)
Definition rising (l : list (Z * Z)) : Prop :=
  Forall (fun p => int64 p.1 /\ int64 p.2 /\ 0 <= p.1 /\ 0 <= p.2)%Z l /\ StronglySorted (fun p q => p.1 <= q.1 /\ p.2 <= q.2)%Z l.

Definition turnAttrs (p : Z * Z) (attrs : gmap string string) : Prop :=
  count "input_tokens" attrs = p.1 /\ count "output_tokens" attrs = p.2.

Fixpoint turns (now : Z) (l : list (gmap string string)) (eh : codex_EventHandler) : list AgentEvent * codex_EventHandler :=
  match l with
  | [] => ([], eh)
  | attrs :: l => let r := handleTurnComplete attrs now eh in let r' := turns now l r.2 in (r.1 ++ r'.1, r'.2)
  end.

Lemma delta_rising c b : int64 c -> (0 <= b <= c)%Z -> delta c b = (c - b)%Z.
Proof. intros Hc Hb. unfold delta. rewrite wrap64_id by (unfold int64 in *; lia). rewrite bool_decide_eq_false_2; [done|lia]. Qed.

Lemma omap_turn t d l : omap turnOf (mkAgentEvent EventTurnCompleted t (DTurnCompleted d) :: l) = d :: omap turnOf l.
Proof. done. Qed.

Lemma turns_sum now l attrs eh : Forall2 turnAttrs l attrs -> rising ((cx_baselineInputTokens eh, cx_baselineOutputTokens eh) :: l) ->
  let es := (turns now attrs eh).1 in
  let last := List.last l (cx_baselineInputTokens eh, cx_baselineOutputTokens eh) in
  sum (tc_InputTokens <$> omap turnOf es) = (last.1 - cx_baselineInputTokens eh)%Z /\
  sum (tc_OutputTokens <$> omap turnOf es) = (last.2 - cx_baselineOutputTokens eh)%Z /\ length (omap turnOf es) = length l.
Proof.
  intros Hl. revert eh. induction Hl as [|p a l attrs [Hi Ho] Hl IH]; intros eh [Hf Hs]; [simpl; split_and!; lia|].
  apply Forall_cons in Hf as [Hb Hf]. apply StronglySorted_inv in Hs as [Hs Hle]. apply Forall_cons in Hle as [[Hle1 Hle2] _].
  pose proof (Forall_inv Hf) as (H1 & H2 & H3 & H4). cbn [fst snd] in *.
  destruct (IH (mkHandler (cx_interruptedAt eh) (cx_idle eh) p.1 p.2)) as (E1 & E2 & E3).
  { cbn [cx_baselineInputTokens cx_baselineOutputTokens]. rewrite <- surjective_pairing. by split. }
  cbn [cx_baselineInputTokens cx_baselineOutputTokens] in E1, E2. rewrite <- surjective_pairing in E1, E2.
  rewrite last_cons_default. cbn [turns]. unfold handleTurnComplete. rewrite Hi, Ho, !delta_rising by (done || lia). cbn [fst snd app].
  rewrite omap_turn, !fmap_cons. unfold sum in *. cbn [foldr tc_InputTokens tc_OutputTokens length]. rewrite E1, E2, E3. lia.
Qed.

(** However a Codex session's turns report its growing counts, the token
    counts of their events add up to the last of them, a turn each. *)
Theorem codex_totals now l attrs (Ha : Forall2 turnAttrs l attrs) (Hr : rising ((0, 0)%Z :: l)) :
  let es := (turns now attrs codex_NewEventHandler).1 in
  sum (tc_InputTokens <$> omap turnOf es) = (List.last l (0, 0)%Z).1 /\
  sum (tc_OutputTokens <$> omap turnOf es) = (List.last l (0, 0)%Z).2 /\ length (omap turnOf es) = length l.
Proof. destruct (turns_sum now l attrs codex_NewEventHandler Ha Hr) as (E1 & E2 & E3). simpl in *. split_and!; [lia|lia|done]. Qed.

Definition sampleCounts : list (Z * Z) := [(5, 2); (9, 2)]%Z.
Definition sampleAttrs : list (gmap string string) :=
  (fun p => {[ "input_tokens" := pretty p.1; "output_tokens" := pretty p.2 ]}) <$> sampleCounts.

Lemma sample_counts : Forall2 turnAttrs sampleCounts sampleAttrs.
Proof. repeat constructor; vm_compute; reflexivity. Qed.
Lemma sample_rising : rising ((0, 0)%Z :: sampleCounts).
Proof. split; repeat constructor; simpl; unfold int64; lia. Qed.

Lemma codex_totals_witness :
  let es := (turns 0 sampleAttrs codex_NewEventHandler).1 in
  sum (tc_InputTokens <$> omap turnOf es) = (List.last sampleCounts (0, 0)%Z).1 /\
  sum (tc_OutputTokens <$> omap turnOf es) = (List.last sampleCounts (0, 0)%Z).2 /\ length (omap turnOf es) = length sampleCounts.
Proof. exact (codex_totals 0 sampleCounts sampleAttrs sample_counts sample_rising). Defined.

End Codex.

(** ** Events of other sessions *)

Definition sidOf (lr : otelLogRecord) : option string := attrsOf (lr_Attributes lr) !! "session_id".
Definition inScope (sid : option string) (lr : otelLogRecord) : bool :=
  match sidOf lr, sid with Some s, Some t => bool_decide (s = t) | _, _ => true end.
Definition scopeOf (eh : EventHandler) (l : list otelLogRecord) : option string :=
  if bool_decide (eh_sessionID eh = "") then head (omap sidOf l) else Some (eh_sessionID eh).

Lemma attrsOf_nonempty l k v : attrsOf l !! k = Some v -> v <> "".
Proof.
  unfold attrsOf. generalize (default [] l). clear l. intros l. revert v. induction l as [|kv l IH] using rev_ind; intros v; [done|].
  rewrite foldl_snoc. case_bool_decide; [by apply IH|]. intros Hv. apply lookup_insert_Some in Hv as [[_ <-]|[_ Hv]]; [done|by apply IH].
Qed.

Lemma endTool_sid c t eh : eh_sessionID (endTool c t eh).2 = eh_sessionID eh.
Proof. unfold endTool. by case_match. Qed.

Lemma dispatch_sid now attrs t eh : eh_sessionID (dispatch_ now attrs t eh).2 = eh_sessionID eh.
Proof. unfold dispatch_, handleAPIRequest, handleToolResult. repeat case_match; try done; apply endTool_sid. Qed.

Lemma processLogRecord_sid now lr eh : eh_sessionID (processLogRecord now lr eh).2 =
  match sidOf lr with Some s => if bool_decide (eh_sessionID eh = "") then s else eh_sessionID eh | None => eh_sessionID eh end.
Proof.
  unfold processLogRecord, sidOf. destruct (attrsOf (lr_Attributes lr) !! "session_id") as [s|]; [|apply dispatch_sid].
  unfold discover. destruct (decide (eh_sessionID eh = "")) as [Hs|Hs].
  - rewrite !(bool_decide_eq_true_2 (eh_sessionID eh = "")) by done. cbn [eh_sessionID].
    rewrite (bool_decide_eq_true_2 (s = s)) by done. apply dispatch_sid.
  - rewrite !(bool_decide_eq_false_2 (eh_sessionID eh = "")) by done. destruct (bool_decide (eh_sessionID eh = s)); [apply dispatch_sid|done].
Qed.

(** The Claude Code handler takes the first session that a log record names
    for its own: records of other sessions, whatever they say and wherever they
    come, change neither the events nor the handler. *)
Theorem other_sessions_ignored now l eh :
  processAll now l eh = processAll now (filter (fun lr => inScope (scopeOf eh l) lr = true) l) eh.
Proof.
  revert eh. induction l as [|lr l IH]; intros eh; [done|].
  destruct (inScope (scopeOf eh (lr :: l)) lr) eqn:Hin.
  - rewrite filter_cons_True by done. cbn [processAll]. rewrite IH.
    replace (scopeOf (processLogRecord now lr eh).2 l) with (scopeOf eh (lr :: l)); [done|].
    unfold scopeOf, inScope in *. rewrite processLogRecord_sid. simpl.
    destruct (sidOf lr) as [s|] eqn:Hs; [|done]. assert (s <> "") by (by eapply attrsOf_nonempty). simpl in *.
    destruct (decide (eh_sessionID eh = "")) as [E|E].
    + rewrite !bool_decide_eq_true_2 by done. by rewrite bool_decide_eq_false_2.
    + by rewrite !(bool_decide_eq_false_2 (eh_sessionID eh = "")) by done.
  - rewrite filter_cons_False by congruence. unfold inScope in Hin. destruct (sidOf lr) as [s|] eqn:Hs; [|done].
    destruct (scopeOf eh (lr :: l)) as [t|] eqn:Ht; [|done]. apply bool_decide_eq_false in Hin. unfold scopeOf in Ht.
    case_bool_decide as E; [simpl in Ht; rewrite Hs in Ht; simpl in Ht; congruence|]. injection Ht as <-.
    assert (Hp : processLogRecord now lr eh = ([], eh)).
    { unfold processLogRecord. unfold sidOf in Hs. rewrite Hs. unfold discover. rewrite (bool_decide_eq_false_2 (eh_sessionID eh = "")) by done.
      by rewrite bool_decide_eq_false_2. }
    cbn [processAll]. rewrite Hp. simpl. rewrite <- surjective_pairing, IH. unfold scopeOf. by rewrite bool_decide_eq_false_2.
Qed.

(** ** eventsrc/sessionlog/tailer.go

    A poll sees the file's size, and then reads what is there by then:
    [content], and [grown], what was written in between.  The scanner gives the
    lines, also one that is not ended yet, without a carriage return at the end,
    until one has as many bytes as its buffer. *)

Definition maxLine : Z := 1024 * 1024.

Definition rawLines (s : string) : list string := let '(ls, tail) := splitLines s in ls ++ (if bool_decide (tail = "") then [] else [tail]).
Definition dropCR (line : string) : string := default line (CutSuffix (String CR "") line).
Fixpoint scanLines (max : Z) (ls : list string) : list string * bool :=
  match ls with
  | [] => ([], true)
  | l :: ls => if bool_decide (max <= len l)%Z then ([], false) else let r := scanLines max ls in (dropCR l :: r.1, r.2)
  end.

(** What OnLine is called with. *)
Definition onLines (partial : string) (toks : list string) : list string :=
  match toks with t :: ts => (partial +:+ t) :: ts | [] => [] end.

Record pollResult : Type := mkPoll { po_offset : Z; po_partial : string; po_lines : list string; po_ok : bool }.

Definition dropString (n : Z) (s : string) : string := String.substring (Z.to_nat n) (String.length s) s.

Definition poll (max : Z) (content grown : string) (offset : Z) (partial : string) : pollResult :=
  let size := len content in
  let '(offset, partial) := if bool_decide (size < offset)%Z then (0%Z, "") else (offset, partial) in
  if bool_decide (size = offset) then mkPoll offset partial [] true
  else
    let '(toks, ok) := scanLines max (rawLines (dropString offset (content +:+ grown))) in
    let partial' := match toks with [] => partial | _ => "" end in
    let bytesRead := foldr (fun t n => (len t + 1 + n)%Z) 0%Z toks in
    if negb ok then mkPoll (offset + bytesRead) partial' (onLines partial toks) false
    else
      let newOffset := Z.min (offset + bytesRead) size in
      let remaining := (size - newOffset)%Z in
      if bool_decide (0 < remaining)%Z
      then mkPoll size (String.substring (Z.to_nat newOffset) (Z.to_nat remaining) content) (onLines partial toks) true
      else mkPoll newOffset partial' (onLines partial toks) true.

(** One tick of Start; [None] is a file that cannot be opened.  After an error
    the offset stays. *)
Definition tick (max : Z) (file : option (string * string)) (st : Z * string) : list string * (Z * string) :=
  match file with
  | None => ([], st)
  | Some (content, grown) =>
      let r := poll max content grown st.1 st.2 in (po_lines r, if po_ok r then (po_offset r, po_partial r) else st)
  end.
Fixpoint tailed (max : Z) (files : list (option (string * string))) (st : Z * string) : list string :=
  match files with [] => [] | f :: fs => let r := tick max f st in r.1 ++ tailed max fs r.2 end.

(** *** A file of whole lines *)

Definition textOf (lines : list string) : string := foldr (fun l s => l +:+ String LF s) "" lines.
Definition wholeLine (max : Z) (l : string) : Prop := ContainsByte LF l = false /\ CutSuffix (String CR "") l = None /\ (len l < max)%Z.

Lemma splitLines_cons l s : ContainsByte LF l = false -> splitLines (l +:+ String LF s) = (l :: (splitLines s).1, (splitLines s).2).
Proof.
  induction l as [|c l IH]; intros Hl.
  - change ("" +:+ String LF s) with (String LF s). cbn [splitLines]. rewrite (surjective_pairing (splitLines s)) at 1. by rewrite bool_decide_eq_true_2.
  - rewrite ContainsByte_cons in Hl. apply orb_false_iff in Hl as [Hc Hl]. rewrite append_cons. cbn [splitLines]. rewrite IH by done.
    rewrite bool_decide_eq_false_2; [done|]. intros ->. by rewrite bool_decide_eq_true_2 in Hc.
Qed.

Lemma rawLines_text max ls : Forall (wholeLine max) ls -> rawLines (textOf ls) = ls.
Proof.
  intros Hl. unfold rawLines. assert (E : splitLines (textOf ls) = (ls, "")).
  { induction Hl as [|l ls (Hl & _) _ IH]; [done|]. cbn [textOf foldr]. fold (textOf ls). rewrite splitLines_cons by done. by rewrite IH. }
  rewrite E. simpl. apply app_nil_r.
Qed.

Lemma scanLines_whole max ls : Forall (wholeLine max) ls -> scanLines max ls = (ls, true).
Proof.
  induction 1 as [|l ls (_ & Hc & Hl) _ IH]; [done|]. cbn [scanLines]. rewrite bool_decide_eq_false_2 by lia. rewrite IH. unfold dropCR. by rewrite Hc.
Qed.

Lemma len_text ls : len (textOf ls) = foldr (fun t n => (len t + 1 + n)%Z) 0%Z ls.
Proof. induction ls as [|l ls IH]; [done|]. cbn [textOf foldr]. fold (textOf ls). rewrite len_app, <- IH. unfold len. simpl. lia. Qed.

Lemma textOf_app a b : textOf (a ++ b) = textOf a +:+ textOf b.
Proof.
  induction a as [|l a IH]; [done|]. cbn [textOf foldr app]. fold (textOf (a ++ b)) (textOf a). rewrite IH.
  by rewrite <- append_assoc_l.
Qed.

Lemma substring_all s n : (String.length s <= n)%nat -> String.substring 0 n s = s.
Proof. revert n. induction s as [|c s IH]; intros [|n] Hn; simpl in *; try done; [lia|]. rewrite IH by lia. done. Qed.

Lemma dropString_app a b : dropString (len a) (a +:+ b) = b.
Proof.
  unfold dropString, len. rewrite Nat2Z.id.
  assert (H : forall n, (String.length b <= n)%nat -> String.substring (String.length a) n (a +:+ b) = b).
  { induction a as [|c a IH]; intros n Hn; [by apply substring_all|]. rewrite append_cons. simpl. by apply IH. }
  apply H. rewrite length_append. lia.
Qed.

Lemma onLines_plain ts : onLines "" ts = ts.
Proof. by destruct ts. Qed.

Lemma poll_whole max prev new : Forall (wholeLine max) new ->
  poll max (textOf (prev ++ new)) "" (len (textOf prev)) "" = mkPoll (len (textOf (prev ++ new))) "" new true.
Proof.
  intros Hn. unfold poll. rewrite textOf_app, len_app, append_nil_r.
  assert (Hp : (0 <= len (textOf new))%Z) by (unfold len; lia).
  rewrite (bool_decide_eq_false_2 (_ < _)%Z) by lia.
  destruct new as [|l new].
  - rewrite bool_decide_eq_true_2 by (simpl; unfold len; simpl; lia). f_equal. unfold len. simpl. lia.
  - assert (Hpos : (0 < len (textOf (l :: new)))%Z) by (rewrite len_text; simpl; rewrite <- len_text; unfold len; lia).
    rewrite bool_decide_eq_false_2 by lia. rewrite dropString_app, (rawLines_text max), scanLines_whole by done. simpl negb. cbv iota.
    rewrite <- len_text, Z.min_id, Z.sub_diag. by rewrite bool_decide_eq_false_2 by lia.
Qed.

(** The lines a file has from tick to tick, none where it cannot be opened. *)
Fixpoint grows (prev : list string) (files : list (option (list string))) : Prop :=
  match files with [] => True | None :: fs => grows prev fs | Some ls :: fs => prev `prefix_of` ls /\ grows ls fs end.
Definition finally (prev : list string) (files : list (option (list string))) : list string := foldl (fun p o => default p o) prev files.
Definition asFile (o : option (list string)) : option (string * string) := (fun ls => (textOf ls, "")) <$> o.

Lemma grows_finally prev files : grows prev files -> prev `prefix_of` finally prev files.
Proof.
  revert prev. induction files as [|[ls|] files IH]; intros prev Hg; [done| |by apply IH].
  destruct Hg as [Hp Hg]. etrans; [done|]. by apply IH.
Qed.

Lemma tailed_whole max files prev : Forall (wholeLine max) (finally prev files) -> grows prev files ->
  prev ++ tailed max (asFile <$> files) (len (textOf prev), "") = finally prev files.
Proof.
  revert prev. induction files as [|[ls|] files IH]; intros prev Hw Hg; [apply app_nil_r| |by apply IH].
  destruct Hg as [[new ->] Hg]. cbn [fmap list_fmap tailed tick asFile option_fmap option_map fst snd].
  rewrite poll_whole. 2: { apply grows_finally in Hg as [rest E]. change (finally prev (Some (prev ++ new) :: files)) with (finally (prev ++ new) files) in Hw.
    rewrite E in Hw. rewrite !Forall_app in Hw. tauto. }
  cbn [po_lines po_ok po_offset po_partial fst snd]. rewrite app_assoc. by apply IH.
Qed.

(** C40: a file that grows by whole lines of less than 1 MB, from one tick to the
    next in whatever portions, there or not: its lines are delivered in their
    order, once each, and none is missing. *)
Theorem tail_complete max files (Hw : Forall (wholeLine max) (finally [] files)) (Hg : grows [] files) :
  tailed max (asFile <$> files) (0%Z, "") = finally [] files.
Proof. apply (tailed_whole max files [] Hw Hg). Qed.

Module TailRuns.

Definition line (s : string) : string := s +:+ String LF "".
Definition crlf (s : string) : string := s +:+ String CR (String LF "").
Definition still (s : string) : option (string * string) := Some (s, "").

(** A line that is written in two parts is delivered in two parts. *)
Example half_line : tailed maxLine [still (line "one" +:+ "tw"); still (line "one" +:+ line "two")] (0%Z, "") = ["one"; "tw"; "o"].
Proof. vm_compute. reflexivity. Qed.

(** A carriage return is not counted; as many bytes come before the next line. *)
Example crlf_garbage : tailed maxLine [still (crlf "one"); still (crlf "one" +:+ crlf "two")] (0%Z, "") = ["one"; String LF "two"].
Proof. vm_compute. reflexivity. Qed.

(** Lines before one that is too long are delivered at every tick. *)
Example long_line : tailed 8 (repeat (still (line "one" +:+ line "a long line")) 3) (0%Z, "") = ["one"; "one"; "one"].
Proof. vm_compute. reflexivity. Qed.

(** What is written during a poll is delivered twice. *)
Example written_meanwhile : tailed maxLine [Some (line "one", line "two"); still (line "one" +:+ line "two")] (0%Z, "") = ["one"; "two"; "two"].
Proof. vm_compute. reflexivity. Qed.

End TailRuns.

Lemma tail_complete_witness : tailed 100 (asFile <$> [None; Some ["a"]; Some ["a"; "b"; "c"]]) (0%Z, "") = ["a"; "b"; "c"].
Proof.
  apply (tail_complete 100 [None; Some ["a"]; Some ["a"; "b"; "c"]]).
  - unfold finally. simpl. repeat constructor.
  - simpl. split; [by exists ["a"]|]. split; [by exists ["b"; "c"]|done].
Defined.

(** ** internal/agent/driver_termmux.go

    The events of a monitor as events of the agent; types the agent does not
    declare keep their name. *)

Module Adapter.

Definition adaptMonitorState (s : State) : AgentTypes.AgentState :=
  match s with
  | StateInitialized => AgentTypes.StateIdle
  | StateActive => AgentTypes.StateStreaming
  | StateIdle => AgentTypes.StateIdle
  | StateExited => AgentTypes.StateExited
  end.

Inductive adapted : Type := Known (e : AgentTypes.AgentEvent) | Foreign (type sessionID : string).

Definition withMetadata (m : gmap string any) (e : AgentTypes.AgentEvent) : AgentTypes.AgentEvent :=
  AgentTypes.mkAgentEvent (AgentTypes.ev_Type e) (AgentTypes.ev_SessionID e) (AgentTypes.ev_DriverSessionID e) (AgentTypes.ev_State e) (AgentTypes.ev_Turn e) (AgentTypes.ev_Message e)
    (AgentTypes.ev_Assistant e) (AgentTypes.ev_ToolName e) (AgentTypes.ev_ToolCallID e) (AgentTypes.ev_ToolResult e) (AgentTypes.ev_Delta e)
    (AgentTypes.ev_ControlMessage e) (AgentTypes.ev_Error e) (AgentTypes.ev_ErrorMessage e) m.

Definition adaptMonitorEvent (sessionID : string) (evt : AgentEvent) : adapted :=
  let make t := AgentTypes.with_ids sessionID "" (AgentTypes.event t) in
  match ev_Type evt with
  | EventSessionStarted => Known (make AgentTypes.EventSessionStarted)
  | EventSessionEnded =>
      Known (match ev_Data evt with
             | DSessionEnded d => AgentTypes.with_ControlMessage (se_Reason d) (make AgentTypes.EventSessionEnded)
             | _ => make AgentTypes.EventSessionEnded end)
  | EventTurnCompleted =>
      Known (match ev_Data evt with
             | DTurnCompleted d =>
                 withMetadata {[ "input_tokens" := AInt (tc_InputTokens d); "output_tokens" := AInt (tc_OutputTokens d);
                                 "cached_tokens" := AInt (tc_CachedTokens d); "cost_usd" := AFloat (tc_CostUSD d) ]} (make AgentTypes.EventTurnCompleted)
             | _ => make AgentTypes.EventTurnCompleted end)
  | EventToolStarted =>
      Known (match ev_Data evt with
             | DToolStarted d => AgentTypes.with_Tool (ts_ToolName d) (ts_CallID d) None (make AgentTypes.EventToolStarted)
             | _ => make AgentTypes.EventToolStarted end)
  | EventToolCompleted =>
      Known (match ev_Data evt with
             | DToolCompleted d => AgentTypes.with_Tool (td_ToolName d) (td_CallID d) None (make AgentTypes.EventToolCompleted)
             | _ => make AgentTypes.EventToolCompleted end)
  | EventApprovalRequested =>
      let e := AgentTypes.with_State AgentTypes.StateWaitingFollowUp (make AgentTypes.EventStateChange) in
      Known (match ev_Data evt with DApprovalRequested d => AgentTypes.with_Tool (ar_ToolName d) (ar_CallID d) None e | _ => e end)
  | EventAgentMessage =>
      Known (match ev_Data evt with
             | DAgentMessage d => AgentTypes.with_Delta (am_Content d) (make AgentTypes.EventAgentMessageCompleted)
             | _ => make AgentTypes.EventAgentMessageCompleted end)
  | EventStateChange =>
      Known (match ev_Data evt with
             | DStateChange d => AgentTypes.with_State (adaptMonitorState (sc_State d)) (make AgentTypes.EventStateChange)
             | _ => make AgentTypes.EventStateChange end)
  | EventPermissionGranted => Foreign "permission_granted" sessionID
  | EventPermissionDenied => Foreign "permission_denied" sessionID
  | EventCompactionStarted => Foreign "compaction_started" sessionID
  | EventCompactionCompleted => Foreign "compaction_completed" sessionID
  | EventOther name => Foreign name sessionID
  end.

(** The adapter; a subscriber that is gone leaves a hole. *)
Record TermmuxDriverAdapter : Type := mkAdapter { ad_started : bool; ad_stopped : bool; ad_subscribers : list (option nat) }.
Definition NewTermmuxDriverAdapter : TermmuxDriverAdapter := mkAdapter false false [].

(** Start up to the launch of the session. *)
Definition begin_Start (a : TermmuxDriverAdapter) : res string () * TermmuxDriverAdapter :=
  if ad_started a then (Err "termmux adapter already started", a) else (Ok (), mkAdapter true (ad_stopped a) (ad_subscribers a)).
Definition begin_Stop (a : TermmuxDriverAdapter) : bool * TermmuxDriverAdapter :=
  if ad_stopped a then (false, a) else (true, mkAdapter (ad_started a) true (ad_subscribers a)).
(** The test of Pause, Unpause and IsPaused. *)
Definition running (a : TermmuxDriverAdapter) : bool := ad_started a && negb (ad_stopped a).
Definition Pause (pauseSession : res string ()) (a : TermmuxDriverAdapter) : res string () :=
  if running a then pauseSession else Err "termmux adapter not running".
Definition IsPaused (sessionPaused : bool) (a : TermmuxDriverAdapter) : bool := running a && sessionPaused.

Definition Subscribe (fn : nat) (a : TermmuxDriverAdapter) : nat * TermmuxDriverAdapter :=
  (length (ad_subscribers a), mkAdapter (ad_started a) (ad_stopped a) (ad_subscribers a ++ [Some fn])).
Definition unsubscribe (idx : nat) (a : TermmuxDriverAdapter) : TermmuxDriverAdapter :=
  mkAdapter (ad_started a) (ad_stopped a)
    (if bool_decide (idx < length (ad_subscribers a)) then <[idx := None]> (ad_subscribers a) else ad_subscribers a).
(** Whom notifySubscribers calls, in order. *)
Definition notified (a : TermmuxDriverAdapter) : list nat := omap id (ad_subscribers a).

(** Who unsubscribes takes nobody else away. *)
Lemma unsubscribe_own fn a l :
  let r := Subscribe fn a in
  notified (unsubscribe r.1 (mkAdapter (ad_started a) (ad_stopped a) (ad_subscribers r.2 ++ l))) = notified (mkAdapter (ad_started a) (ad_stopped a) (ad_subscribers a ++ l)).
Proof.
  unfold notified, unsubscribe, Subscribe. simpl. rewrite bool_decide_eq_true_2 by (rewrite !length_app; simpl; lia).
  rewrite insert_app_l by (rewrite length_app; simpl; lia). rewrite insert_app_r_alt, Nat.sub_diag by done. simpl. by rewrite !omap_app, app_nil_r.
Qed.

(** What an event says of the tool it is about stays with it. *)
Lemma tool_events_kept sid evt e name call : adaptMonitorEvent sid evt = Known e ->
  (ev_Data evt = DToolStarted (mkToolStarted name call) /\ ev_Type evt = EventToolStarted \/
   (exists ms ok, ev_Data evt = DToolCompleted (mkToolCompleted name call ms ok)) /\ ev_Type evt = EventToolCompleted) ->
  AgentTypes.ev_ToolName e = name /\ AgentTypes.ev_ToolCallID e = call /\ AgentTypes.ev_SessionID e = sid.
Proof. intros He [[Hd Ht]|[(ms & ok & Hd) Ht]]; unfold adaptMonitorEvent in He; rewrite Ht, Hd in He; by injection He as <-. Qed.

End Adapter.

