(* ===== verification/ToolJson.v ===== *)
(** * ToolJson: tool arguments that arrive in pieces

    internal/ai/arguments.go and the [toolJSONParser] of the providers
    (tool_json_parser.go of anthropic and openai, which are the same code): the
    pieces are collected, a lexer of a third party completes what has arrived so
    far for the display of partial arguments, and at the end the whole text is
    parsed. *)

From Stdlib Require Import Ascii String.
From S2P Require Import Prelude GoStrings GoText AiTypes GoJson GoJsonText GoStruct.

Local Open Scope string_scope.
Local Open Scope list_scope.
Local Open Scope stdpp_scope.

(** ** arguments.go *)

Definition LargeArgumentThreshold : Z := 64 * 1024.

Section ToolJson.
(** The text of the error encoding/json gives for an input it refuses. *)
Context (jsonError : string -> string).

(** [None] is the nil map, of the input [null]. *)
Definition invalidArguments (data : string) : string := ("invalid tool arguments JSON: " ++ jsonError data)%string.

Definition UnmarshalArguments (data : string) : res string (option (gmap string any)) :=
  match Unmarshal dMapAny None data with Some m => Ok m | None => Err (invalidArguments data) end.

Definition UnmarshalArgumentsFromReader (data : string) : res string (option (gmap string any)) :=
  match Decode dMapAny None data with Some m => Ok m | None => Err (invalidArguments data) end.

(** ** tool_json_parser.go *)

(** The lexer of github.com/karminski/streaming-json-go. *)
Class StreamingJSON : Type := {
  Lexer : Type;
  NewLexer : Lexer;
  AppendString : Lexer -> string -> option string * Lexer;
  CompleteJSON : Lexer -> string;
}.
Context `{StreamingJSON}.

Record toolJSONParser : Type := mkToolJSONParser { tp_lexer : Lexer; tp_raw : string }.

Definition newToolJSONParser : toolJSONParser := mkToolJSONParser NewLexer "".

(** [AppendDelta]: the arguments as far as they can be read, [None] where the
    second result is false.  [cloneMap] gives an equal map of its own. *)
Definition AppendDelta (chunk : string) (p : toolJSONParser) : res string (option (option (gmap string any))) * toolJSONParser :=
  let raw := (tp_raw p ++ chunk)%string in
  match AppendString (tp_lexer p) chunk with
  | (Some err, l) => (Err ("append tool delta: " ++ err)%string, mkToolJSONParser l raw)
  | (None, l) =>
      let p := mkToolJSONParser l raw in
      let completed := CompleteJSON l in
      if bool_decide (completed = "") then (Ok None, p)
      else match UnmarshalArguments completed with
           | Err _ => (Ok None, p)
           | Ok args => (Ok (Some args), p)
           end
  end.

Definition ParseFinal (p : toolJSONParser) : res string (gmap string any) :=
  let data := tp_raw p in
  if bool_decide (TrimSpace data = "") then Ok ∅
  else
    let args := if bool_decide (Z.of_nat (String.length data) > LargeArgumentThreshold)%Z
                then UnmarshalArgumentsFromReader data else UnmarshalArguments data in
    match args with
    | Err err => Err err
    | Ok args => Ok (default ∅ args)
    end.

(** ** What the pieces come to *)

(** The lexer takes the pieces. *)
Fixpoint takes (l : Lexer) (chunks : list string) : Prop :=
  match chunks with
  | [] => True
  | c :: chunks' => fst (AppendString l c) = None /\ takes (snd (AppendString l c)) chunks'
  end.

Fixpoint feedLexer (l : Lexer) (chunks : list string) : Lexer :=
  match chunks with [] => l | c :: chunks' => feedLexer (snd (AppendString l c)) chunks' end.

Definition concatStrings (l : list string) : string := foldr String.append "" l.

Lemma concatStrings_app l1 l2 : concatStrings (l1 ++ l2) = (concatStrings l1 ++ concatStrings l2)%string.
Proof. induction l1 as [|s l1 IH]; simpl; [done|]. by rewrite IH, append_assoc_l. Qed.

Lemma AppendDelta_raw chunk p r p' : AppendDelta chunk p = (r, p') -> tp_raw p' = (tp_raw p ++ chunk)%string.
Proof. unfold AppendDelta. repeat (case_match; simplify_eq/=; try done); by intros [= <- <-]. Qed.

Lemma AppendDelta_takes chunk p : fst (AppendString (tp_lexer p) chunk) = None ->
  exists args, AppendDelta chunk p = (Ok args, mkToolJSONParser (snd (AppendString (tp_lexer p) chunk)) (tp_raw p ++ chunk)).
Proof.
  unfold AppendDelta. destruct (AppendString (tp_lexer p) chunk) as [e l]. simpl. intros ->.
  repeat case_match; by eexists.
Qed.

(** The arguments a text spells: [{}] for a blank one and for [null]. *)
Definition spells (data : string) (args : gmap string any) : Prop :=
  if bool_decide (TrimSpace data = "") then args = ∅
  else exists m, UnmarshalArguments data = Ok m /\ args = default ∅ m.

(** Whatever its size, a text that spells arguments is parsed to them. *)
Lemma ParseFinal_spells p args : spells (tp_raw p) args -> ParseFinal p = Ok args.
Proof.
  unfold ParseFinal, spells. case_bool_decide; [by intros ->|]. intros (m & Hm & ->). case_bool_decide; [|by rewrite Hm].
  revert Hm. unfold UnmarshalArguments, UnmarshalArgumentsFromReader.
  destruct (Unmarshal dMapAny None (tp_raw p)) as [x|] eqn:E; [|done]. rewrite (Decode_Unmarshal _ _ _ _ E). by intros [= ->].
Qed.

(** Up to the threshold nothing else is accepted. *)
Lemma ParseFinal_small p args :
  (Z.of_nat (String.length (tp_raw p)) <= LargeArgumentThreshold)%Z -> ParseFinal p = Ok args -> spells (tp_raw p) args.
Proof.
  unfold ParseFinal, spells. intros Hl. case_bool_decide; [by intros [= <-]|]. rewrite bool_decide_false by lia.
  destruct (UnmarshalArguments (tp_raw p)) as [m|] eqn:E; [|done]. intros [= <-]. by exists m.
Qed.

(** Above it the text only has to start with the arguments: what follows them
    is dropped without an error. *)
Lemma ParseFinal_large p v m rest : tp_raw p = (render v ++ rest)%string -> numbersOk v -> (depth v <= maxNestingDepth)%nat ->
  delimited rest -> dMapAny (validJson v) None = Some m -> TrimSpace (tp_raw p) <> "" ->
  (Z.of_nat (String.length (tp_raw p)) > LargeArgumentThreshold)%Z -> ParseFinal p = Ok (default ∅ m).
Proof.
  intros Hraw Hn Hd Hr Hm Ht Hl. unfold ParseFinal. rewrite bool_decide_false by done. rewrite bool_decide_true by done.
  unfold UnmarshalArgumentsFromReader. rewrite Hraw, Decode_render by done. by rewrite Hm.
Qed.
End ToolJson.
