(* ===== verification/Anthropic.v ===== *)
(** * Anthropic: the client of the Anthropic Messages API

    internal/ai/provider/anthropic: the request (request.go), the wire types
    (types_wire.go), errors, usage, the processor of the event stream
    (sse_parser.go) and a call of the provider (stream.go) over the scanner of
    Sse, up to the events it sends to the caller's stream.

    The content blocks of a message in progress are shared by every event that
    carries it, so they live in a store: an event refers to blocks, and what a
    reader sees of it depends on the store at that time ([seen]). *)

From Stdlib Require Import Ascii String.
From S2P Require Import Prelude GoStrings GoText GoFloat AiTypes NativeDriver Sse GoJson GoJsonText Options EventStream Providers GoStruct ToolJson.

Local Open Scope string_scope.
Local Open Scope list_scope.
Local Open Scope stdpp_scope.

Definition apiName : string := "anthropic-messages".
Definition defaultBaseURL : string := "https://api.anthropic.com".
Definition defaultVersion : string := "2023-06-01".

(** ** types_wire.go *)

Record wireThinking : Type := mkWireThinking { wt_Type : string; wt_BudgetTokens : Z }.
Record wireTool : Type := mkWireTool { wl_Name : string; wl_Description : string; wl_InputSchema : option (gmap string any) }.
Record wireImageSource : Type := mkWireImageSource { wi_Type : string; wi_MediaType : string; wi_Data : string }.

(** A content block; [C] is what [Content any] may hold, [None] is nil. *)
Record wireBlockOf (C : Type) : Type := mkWireBlock {
  wb_Type : string;
  wb_Text : string;
  wb_Thinking : string;
  wb_Signature : string;
  wb_ID : string;
  wb_Name : string;
  wb_Input : option (gmap string any);
  wb_Source : option wireImageSource;
  wb_ToolUseID : string;
  wb_IsError : bool;
  wb_Content : option C;
}.
Arguments mkWireBlock {C}.
Arguments wb_Type {C}. Arguments wb_Text {C}. Arguments wb_Thinking {C}. Arguments wb_Signature {C}. Arguments wb_ID {C}.
Arguments wb_Name {C}. Arguments wb_Input {C}. Arguments wb_Source {C}. Arguments wb_ToolUseID {C}. Arguments wb_IsError {C}.
Arguments wb_Content {C}.

(** The content of a tool result: a text, blocks without a content of their
    own, or what was decoded. *)
Inductive wireContent : Type :=
  | CText (s : string)
  | CBlocks (l : list (wireBlockOf Empty_set))
  | CAny (a : any).
Definition wireContentBlock : Type := wireBlockOf wireContent.

Record wireMessage : Type := mkWireMessage { wm_Role : string; wm_Content : list wireContentBlock }.

Record wireRequest : Type := mkWireRequest {
  wr_Model : string;
  wr_MaxTokens : Z;
  wr_TopP : option float64;
  wr_TopK : option Z;
  wr_Messages : list wireMessage;
  wr_System : string;
  wr_Tools : list wireTool;
  wr_Thinking : option wireThinking;
  wr_Stream : bool;
  wr_Metadata : gmap string any;
}.

Record wireUsage : Type := mkWireUsage {
  wu_InputTokens : Z;
  wu_OutputTokens : Z;
  wu_CacheReadInputTokens : Z;
  wu_CacheCreationInputTokens : Z;
}.
Record wireMessageData : Type := mkWireMessageData {
  md_ID : string;
  md_Role : string;
  md_Model : string;
  md_StopReason : string;
  md_Usage : wireUsage;
}.
Record wireMessageStartEvent : Type := mkMessageStart { ms_Type : string; ms_Message : wireMessageData }.
Record wireContentBlockStartEvent : Type := mkBlockStart { bs_Type : string; bs_Index : Z; bs_ContentBlock : wireContentBlock }.
Record wireDeltaPayload : Type := mkDelta {
  wd_Type : string;
  wd_Text : string;
  wd_Thinking : string;
  wd_Signature : string;
  wd_PartialJSON : string;
}.
Record wireContentBlockDeltaEvent : Type := mkBlockDelta { bd_Type : string; bd_Index : Z; bd_Delta : wireDeltaPayload }.
Record wireContentBlockStopEvent : Type := mkBlockStop { be_Type : string; be_Index : Z }.
Record wireMessageDeltaEvent : Type := mkMessageDelta { me_Type : string; me_StopReason : string; me_Usage : wireUsage }.
Record wireErrorBody : Type := mkErrorBody { eb_Type : string; eb_Message : string }.
Record wireErrorEvent : Type := mkErrorEvent { ee_Type : string; ee_Error : wireErrorBody }.

Definition zeroBlock : wireContentBlock := mkWireBlock "" "" "" "" "" "" None None "" false None.
Definition zeroWireUsage : wireUsage := mkWireUsage 0 0 0 0.
Definition zeroDelta : wireDeltaPayload := mkDelta "" "" "" "" "".

(** How encoding/json decodes them. *)
Definition dEnvelope : decoder string := dStruct (fun ms x => field "type" dString ms x).

Definition dWireUsage : decoder wireUsage := dStruct (fun ms x =>
  i ← field "input_tokens" dInt ms (wu_InputTokens x);
  o ← field "output_tokens" dInt ms (wu_OutputTokens x);
  r ← field "cache_read_input_tokens" dInt ms (wu_CacheReadInputTokens x);
  c ← field "cache_creation_input_tokens" dInt ms (wu_CacheCreationInputTokens x);
  Some (mkWireUsage i o r c)).

Definition dMessageData : decoder wireMessageData := dStruct (fun ms x =>
  i ← field "id" dString ms (md_ID x);
  r ← field "role" dString ms (md_Role x);
  m ← field "model" dString ms (md_Model x);
  s ← field "stop_reason" dString ms (md_StopReason x);
  u ← field "usage" dWireUsage ms (md_Usage x);
  Some (mkWireMessageData i r m s u)).

Definition dMessageStart : decoder wireMessageStartEvent := dStruct (fun ms x =>
  t ← field "type" dString ms (ms_Type x);
  m ← field "message" dMessageData ms (ms_Message x);
  Some (mkMessageStart t m)).

Definition dImageSource : decoder wireImageSource := dStruct (fun ms x =>
  t ← field "type" dString ms (wi_Type x);
  m ← field "media_type" dString ms (wi_MediaType x);
  d ← field "data" dString ms (wi_Data x);
  Some (mkWireImageSource t m d)).

Definition dContent : decoder (option wireContent) := fun v _ =>
  match v with JNull => Some None | _ => (fun a => Some (CAny a)) <$> toAny v end.

Definition dContentBlock : decoder wireContentBlock := dStruct (fun ms x =>
  t ← field "type" dString ms (wb_Type x);
  text ← field "text" dString ms (wb_Text x);
  th ← field "thinking" dString ms (wb_Thinking x);
  sig ← field "signature" dString ms (wb_Signature x);
  id ← field "id" dString ms (wb_ID x);
  name ← field "name" dString ms (wb_Name x);
  input ← field "input" dMapAny ms (wb_Input x);
  src ← field "source" (dPtr (mkWireImageSource "" "" "") dImageSource) ms (wb_Source x);
  use ← field "tool_use_id" dString ms (wb_ToolUseID x);
  ise ← field "is_error" dBool ms (wb_IsError x);
  c ← field "content" dContent ms (wb_Content x);
  Some (mkWireBlock t text th sig id name input src use ise c)).

Definition dBlockStart : decoder wireContentBlockStartEvent := dStruct (fun ms x =>
  t ← field "type" dString ms (bs_Type x);
  i ← field "index" dInt ms (bs_Index x);
  b ← field "content_block" dContentBlock ms (bs_ContentBlock x);
  Some (mkBlockStart t i b)).

Definition dDelta : decoder wireDeltaPayload := dStruct (fun ms x =>
  t ← field "type" dString ms (wd_Type x);
  text ← field "text" dString ms (wd_Text x);
  th ← field "thinking" dString ms (wd_Thinking x);
  sig ← field "signature" dString ms (wd_Signature x);
  pj ← field "partial_json" dString ms (wd_PartialJSON x);
  Some (mkDelta t text th sig pj)).

Definition dBlockDelta : decoder wireContentBlockDeltaEvent := dStruct (fun ms x =>
  t ← field "type" dString ms (bd_Type x);
  i ← field "index" dInt ms (bd_Index x);
  d ← field "delta" dDelta ms (bd_Delta x);
  Some (mkBlockDelta t i d)).

Definition dBlockStop : decoder wireContentBlockStopEvent := dStruct (fun ms x =>
  t ← field "type" dString ms (be_Type x);
  i ← field "index" dInt ms (be_Index x);
  Some (mkBlockStop t i)).

(** [Delta] has one field. *)
Definition dMessageDelta : decoder wireMessageDeltaEvent := dStruct (fun ms x =>
  t ← field "type" dString ms (me_Type x);
  s ← field "delta" (dStruct (fun ms s => field "stop_reason" dString ms s)) ms (me_StopReason x);
  u ← field "usage" dWireUsage ms (me_Usage x);
  Some (mkMessageDelta t s u)).

Definition dErrorBody : decoder wireErrorBody := dStruct (fun ms x =>
  t ← field "type" dString ms (eb_Type x);
  m ← field "message" dString ms (eb_Message x);
  Some (mkErrorBody t m)).

Definition dErrorEvent : decoder wireErrorEvent := dStruct (fun ms x =>
  t ← field "type" dString ms (ee_Type x);
  e ← field "error" dErrorBody ms (ee_Error x);
  Some (mkErrorEvent t e)).

(** ** How encoding/json marshals the request *)

Definition jmember (name : string) (v : json) : list (string * json) := [(name, v)].
Definition omitempty (name s : string) : list (string * json) := if bool_decide (s = "") then [] else jmember name (JString s).
Definition omitnil {A} (name : string) (f : A -> json) (x : option A) : list (string * json) :=
  match x with Some a => jmember name (f a) | None => [] end.

(** A map field with omitempty: a nil or empty map is left out. *)
Definition omitmap (name : string) (m : gmap string any) : option (list (string * json)) :=
  if bool_decide (m = ∅) then Some [] else jmember name <$> ofMap m.

Definition imageSourceJson (s : wireImageSource) : json :=
  JObject [("type", JString (wi_Type s)); ("media_type", JString (wi_MediaType s)); ("data", JString (wi_Data s))].

Definition blockJson {C} (contentJson : C -> option json) (b : wireBlockOf C) : option json :=
  input ← omitmap "input" (default ∅ (wb_Input b));
  content ← match wb_Content b with Some c => jmember "content" <$> contentJson c | None => Some [] end;
  Some (JObject (jmember "type" (JString (wb_Type b)) ++ omitempty "text" (wb_Text b) ++ omitempty "thinking" (wb_Thinking b) ++
    omitempty "signature" (wb_Signature b) ++ omitempty "id" (wb_ID b) ++ omitempty "name" (wb_Name b) ++ input ++
    omitnil "source" imageSourceJson (wb_Source b) ++ omitempty "tool_use_id" (wb_ToolUseID b) ++
    (if wb_IsError b then jmember "is_error" (JBool true) else []) ++ content)).

Definition wireContentJson (c : wireContent) : option json :=
  match c with
  | CText s => Some (JString s)
  | CBlocks l => JArray <$> mapM (blockJson (fun e : Empty_set => match e with end)) l
  | CAny a => ofAny a
  end.

Definition wireMessageJson (m : wireMessage) : option json :=
  bs ← mapM (blockJson wireContentJson) (wm_Content m);
  Some (JObject [("role", JString (wm_Role m)); ("content", JArray bs)]).

Definition wireToolJson (t : wireTool) : option json :=
  schema ← match wl_InputSchema t with Some m => ofMap m | None => Some JNull end;
  Some (JObject (jmember "name" (JString (wl_Name t)) ++ omitempty "description" (wl_Description t) ++ jmember "input_schema" schema)).

Definition wireRequestJson (r : wireRequest) : option json :=
  topP ← match wr_TopP r with Some f => (fun lit => jmember "top_p" (JNumber lit)) <$> FormatFloat f | None => Some [] end;
  messages ← mapM wireMessageJson (wr_Messages r);
  tools ← match wr_Tools r with [] => Some [] | ts => (fun l => jmember "tools" (JArray l)) <$> mapM wireToolJson ts end;
  metadata ← omitmap "metadata" (wr_Metadata r);
  Some (JObject (jmember "model" (JString (wr_Model r)) ++ jmember "max_tokens" (numLit (wr_MaxTokens r)) ++ topP ++
    omitnil "top_k" numLit (wr_TopK r) ++ jmember "messages" (JArray messages) ++ omitempty "system" (wr_System r) ++ tools ++
    omitnil "thinking" (fun t => JObject [("type", JString (wt_Type t)); ("budget_tokens", numLit (wt_BudgetTokens t))]) (wr_Thinking r) ++
    jmember "stream" (JBool (wr_Stream r)) ++ metadata)).

(** ** errors.go *)

Definition classifyHTTPError (status : Z) (msg : string) : ProviderErrorCode :=
  if bool_decide (status = 401 \/ status = 403)%Z then ErrAuth
  else if bool_decide (status = 429)%Z then ErrRateLimit
  else if bool_decide (status >= 500)%Z then ErrServerError
  else
    let probe := mkAssistantMessage [] "" "" "" zeroUsage StopReasonError msg 0 in
    if IsContextOverflow (Some probe) 0 then ErrContextOverflow else ErrUnknown.

Definition providerError (status : Z) (msg : string) : ProviderError :=
  mkProviderError (classifyHTTPError status msg) msg status "anthropic" 0.

Definition decodeErrorMessage (body : string) : string :=
  let trimmed := TrimSpace body in
  if bool_decide (trimmed = "") then "empty response body"
  else
    match Unmarshal dErrorEvent (mkErrorEvent "" (mkErrorBody "" "")) body with
    | Some resp => if bool_decide (eb_Message (ee_Error resp) <> "") then eb_Message (ee_Error resp) else ("http error: " ++ trimmed)%string
    | None => ("http error: " ++ trimmed)%string
    end.

(** ** usage.go *)

Definition mapUsage (usage : wireUsage) : Usage :=
  mkUsage (wu_InputTokens usage) (wu_OutputTokens usage) (wu_CacheReadInputTokens usage) (wu_CacheCreationInputTokens usage)
    (wrap64 (wu_InputTokens usage + wu_OutputTokens usage + wu_CacheReadInputTokens usage + wu_CacheCreationInputTokens usage)) zeroCost.

Definition pick (new old : Z) : Z := if bool_decide (new > 0)%Z then new else old.

Definition mergeUsage (dst : Usage) (usage : wireUsage) : Usage :=
  let i := pick (wu_InputTokens usage) (us_Input dst) in
  let o := pick (wu_OutputTokens usage) (us_Output dst) in
  let r := pick (wu_CacheReadInputTokens usage) (us_CacheRead dst) in
  let w := pick (wu_CacheCreationInputTokens usage) (us_CacheWrite dst) in
  mkUsage i o r w (wrap64 (i + o + r + w)) (us_Cost dst).

Definition mapStopReason (reason : string) : StopReason :=
  if bool_decide (reason = "end_turn" \/ reason = "stop_sequence") then StopReasonStop
  else if bool_decide (reason = "max_tokens") then StopReasonLength
  else if bool_decide (reason = "tool_use") then StopReasonToolUse
  else if bool_decide (reason = "pause_turn") then StopReasonStop
  else if bool_decide (reason = "") then StopReasonStop
  else StopReasonError.

(** ** request.go *)

Definition textBlock {C} (text : string) : wireBlockOf C := mkWireBlock "text" text "" "" "" "" None None "" false None.
Definition imageBlock {C} (data mime : string) : wireBlockOf C :=
  mkWireBlock "image" "" "" "" "" "" None (Some (mkWireImageSource "base64" mime data)) "" false None.

(** The blocks of a user message or of a tool result. *)
Definition mediaBlock {C} (b : ContentBlock) : option (wireBlockOf C) :=
  match b with
  | TextContent text _ => Some (textBlock text)
  | ImageContent data mime => Some (imageBlock data mime)
  | _ => None
  end.

Definition assistantBlock (b : ContentBlock) : option wireContentBlock :=
  match b with
  | TextContent text _ => Some (textBlock text)
  | ThinkingContent th sig _ => Some (mkWireBlock "thinking" "" th sig "" "" None None "" false None)
  | ToolCallBlock tc => Some (mkWireBlock "tool_use" "" "" "" (tc_ID tc) (tc_Name tc) (Some (tc_Arguments tc)) None "" false None)
  | ImageContent _ _ => None
  end.

Definition wireToolResultContent (blocks : list ContentBlock) : wireContent :=
  match blocks with
  | [] => CText ""
  | [TextContent text _] => CText text
  | _ => CBlocks (omap mediaBlock blocks)
  end.

(** [Message] is sealed: no other type of message exists. *)
Definition toWireMessage (msg : Message) : wireMessage :=
  match msg with
  | MUser m => mkWireMessage "user" (omap mediaBlock (um_Content m))
  | MAssistant m => mkWireMessage "assistant" (omap assistantBlock (am_Content m))
  | MToolResult m =>
      mkWireMessage "user"
        [mkWireBlock "tool_result" "" "" "" "" "" None None (tr_ToolCallID m) (tr_IsError m) (Some (wireToolResultContent (tr_Content m)))]
  end.

(** Where a block is in the store. *)
Notation loc := nat (only parsing).

Section Client.
(** The text of the error encoding/json gives for a text or a value it refuses. *)
Context (jsonError : string -> string) (marshalError : string).

Fixpoint toWireTools (tools : list Tool) : res string (list wireTool) :=
  match tools with
  | [] => Ok []
  | t :: ts =>
      let schema := if bool_decide (tl_Parameters t = "") then Some (Some ∅) else Unmarshal dMapAny (Some ∅) (tl_Parameters t) in
      match schema with
      | None => Err ("tool " ++ quote (tl_Name t) ++ " has invalid schema: " ++ jsonError (tl_Parameters t))%string
      | Some schema =>
          match toWireTools ts with
          | Ok out => Ok (mkWireTool (tl_Name t) (tl_Description t) schema :: out)
          | Err err => Err err
          end
      end
  end.

Definition buildRequest (model : Model) (llmCtx : NativeDriver.Context) (opts : StreamOptions) (thinking : option wireThinking) :
    res string wireRequest :=
  let maxTokens := default (mo_MaxTokens model) (so_MaxTokens opts) in
  let maxTokens := if bool_decide (maxTokens <= 0)%Z then 1024%Z else maxTokens in
  let messages := filter (fun wm => wm_Content wm <> []) (toWireMessage <$> cx_Messages llmCtx) in
  match toWireTools (cx_Tools llmCtx) with
  | Err err => Err err
  | Ok tools =>
      Ok (mkWireRequest (mo_ID model) maxTokens (so_TopP opts) (so_TopK opts) messages (cx_SystemPrompt llmCtx) tools thinking true
            (so_Metadata opts))
  end.

(** ** sse_parser.go *)

Context `{StreamingJSON}.
(** time.Now().UnixMilli(), at each of its calls. *)
Context (now : nat -> Z) (model : Model).

Record toolStreamState : Type := mkToolStreamState { ts_id : string; ts_name : string; ts_parser : toolJSONParser }.

Record streamAccumulator : Type := mkAccumulator {
  ac_api : string;
  ac_provider : string;
  ac_modelID : string;
  ac_usage : Usage;
  ac_stopReason : StopReason;
  ac_blocks : gmap Z loc;
  ac_toolStates : gmap Z toolStreamState;
}.

Definition newAccumulator : streamAccumulator :=
  mkAccumulator (mo_API model) (mo_Provider model) (mo_ID model) zeroUsage StopReasonStop ∅ ∅.

(** An event with the content of the message it carries as locations; the
    message's own content is empty. *)
Definition sentEvent : Type := AssistantMessageEvent * list loc.

(** [sp_store]: the blocks allocated so far; [sp_sent]: what was sent to [es];
    [sp_ticks]: the calls of time.Now. *)
Record sseProcessor : Type := mkProcessor {
  sp_acc : streamAccumulator;
  sp_done : bool;
  sp_store : list ContentBlock;
  sp_sent : list sentEvent;
  sp_ticks : nat;
}.

Definition newSSEProcessor (ticks : nat) : sseProcessor := mkProcessor newAccumulator false [] [] ticks.

Definition set_usage u a := mkAccumulator (ac_api a) (ac_provider a) (ac_modelID a) u (ac_stopReason a) (ac_blocks a) (ac_toolStates a).
Definition set_modelID m a := mkAccumulator (ac_api a) (ac_provider a) m (ac_usage a) (ac_stopReason a) (ac_blocks a) (ac_toolStates a).
Definition set_stopReason r a := mkAccumulator (ac_api a) (ac_provider a) (ac_modelID a) (ac_usage a) r (ac_blocks a) (ac_toolStates a).
Definition set_blocks f a :=
  mkAccumulator (ac_api a) (ac_provider a) (ac_modelID a) (ac_usage a) (ac_stopReason a) (f (ac_blocks a)) (ac_toolStates a).
Definition set_toolStates f a :=
  mkAccumulator (ac_api a) (ac_provider a) (ac_modelID a) (ac_usage a) (ac_stopReason a) (ac_blocks a) (f (ac_toolStates a)).

Notation P := (M sseProcessor).
Definition modAcc (f : streamAccumulator -> streamAccumulator) : P () :=
  modify (fun p => mkProcessor (f (sp_acc p)) (sp_done p) (sp_store p) (sp_sent p) (sp_ticks p)).
Definition acc {A} (f : streamAccumulator -> A) : P A := gets (fun p => f (sp_acc p)).
Definition send (ev : sentEvent) : P () :=
  modify (fun p => mkProcessor (sp_acc p) (sp_done p) (sp_store p) (sp_sent p ++ [ev]) (sp_ticks p)).
Definition timeNow : P Z := fun p => (now (sp_ticks p), mkProcessor (sp_acc p) (sp_done p) (sp_store p) (sp_sent p) (S (sp_ticks p))).
Definition alloc (b : ContentBlock) : P loc :=
  fun p => (length (sp_store p), mkProcessor (sp_acc p) (sp_done p) (sp_store p ++ [b]) (sp_sent p) (sp_ticks p)).
Definition load (l : loc) : P (option ContentBlock) := gets (fun p => sp_store p !! l).
Definition store (l : loc) (b : ContentBlock) : P () :=
  modify (fun p => mkProcessor (sp_acc p) (sp_done p) (<[l := b]> (sp_store p)) (sp_sent p) (sp_ticks p)).

(** [p.acc.blocks[i] = &b]. *)
Definition putBlock (i : Z) (b : ContentBlock) : P loc :=
  l ← alloc b;
  modAcc (set_blocks (insert i l));;
  mret l.

(** [p.acc.blocks[i]], with what it points to. *)
Definition blockAt (i : Z) : P (option (loc * ContentBlock)) :=
  gets (fun p => l ← ac_blocks (sp_acc p) !! i; b ← sp_store p !! l; Some (l, b)).

Definition sortInts (l : list Z) : list Z := merge_sort Z.le l.
Definition orderedContent (a : streamAccumulator) : list loc :=
  omap (fun i => ac_blocks a !! i) (sortInts (fst <$> map_to_list (ac_blocks a))).

Definition messageOf (a : streamAccumulator) (usage : Usage) (t : Z) : AssistantMessage :=
  mkAssistantMessage [] (ac_api a) (ac_provider a) (ac_modelID a) usage (ac_stopReason a) "" t.

(** The event with [Partial: p.acc.partial()]. *)
Definition sendPartial (typ : EventType) (index : Z) (delta content : string) (tc : option ToolCall) : P () :=
  t ← timeNow;
  a ← acc id;
  send (EventStream.mkEvent typ index delta content tc (Some (messageOf a (ac_usage a) t)) None None "", orderedContent a).

(** The errors of a call: a provider error, or another one with its text. *)
Inductive streamErr : Type :=
  | ProviderErr (e : ProviderError)
  | OtherErr (text : string).

Definition ok : P (res streamErr ()) := mret (Ok ()).
Definition fail (text : string) : P (res streamErr ()) := mret (Err (OtherErr text)).

Definition onBlockStart (e : wireContentBlockStartEvent) : P (res streamErr ()) :=
  let b := bs_ContentBlock e in
  let i := bs_Index e in
  if bool_decide (wb_Type b = "text") then
    putBlock i (TextContent (wb_Text b) "");; sendPartial EventTextStart i "" "" None;; ok
  else if bool_decide (wb_Type b = "thinking") then
    putBlock i (ThinkingContent (wb_Thinking b) (wb_Signature b) false);; sendPartial EventThinkingStart i "" "" None;; ok
  else if bool_decide (wb_Type b = "tool_use") then
    let input := default ∅ (wb_Input b) in
    let parser :=
      if bool_decide (input = ∅) then newToolJSONParser
      else match ofMap input with
           | Some v => snd (AppendDelta jsonError (render v) newToolJSONParser)
           | None => newToolJSONParser
           end in
    modAcc (set_toolStates (insert i (mkToolStreamState (wb_ID b) (wb_Name b) parser)));;
    putBlock i (ToolCallBlock (mkToolCall (wb_ID b) (wb_Name b) ∅ ""));;
    sendPartial EventToolCallStart i "" "" None;; ok
  else ok.

(** The block at the index, if it is of the type asked for, or a new one. *)
Definition textAt (i : Z) : P (loc * string * string) :=
  b ← blockAt i;
  match b with
  | Some (l, TextContent text sig) => mret (l, text, sig)
  | _ => l ← putBlock i (TextContent "" ""); mret (l, "", "")
  end.
Definition thinkingAt (i : Z) : P (loc * string * string * bool) :=
  b ← blockAt i;
  match b with
  | Some (l, ThinkingContent th sig red) => mret (l, th, sig, red)
  | _ => l ← putBlock i (ThinkingContent "" "" false); mret (l, "", "", false)
  end.

Definition newer (sig old : string) : string := if bool_decide (sig <> "") then sig else old.

Definition itoa (n : Z) : string := FormatInt n.

Definition onBlockDelta (e : wireContentBlockDeltaEvent) : P (res streamErr ()) :=
  let d := bd_Delta e in
  let i := bd_Index e in
  if bool_decide (wd_Type d = "text_delta") then
    '(l, text, sig) ← textAt i;
    store l (TextContent (text ++ wd_Text d) sig);;
    sendPartial EventTextDelta i (wd_Text d) "" None;; ok
  else if bool_decide (wd_Type d = "thinking_delta") then
    '(l, th, sig, red) ← thinkingAt i;
    store l (ThinkingContent (th ++ wd_Thinking d) (newer (wd_Signature d) sig) red);;
    sendPartial EventThinkingDelta i (wd_Thinking d) "" None;; ok
  else if bool_decide (wd_Type d = "signature_delta") then
    '(l, th, sig, red) ← thinkingAt i;
    store l (ThinkingContent th (newer (wd_Signature d) sig) red);; ok
  else if bool_decide (wd_Type d = "input_json_delta") then
    st ← acc (fun a => ac_toolStates a !! i);
    match st with
    | None => fail ("tool delta for unknown index " ++ itoa i)%string
    | Some st =>
        let '(r, parser) := AppendDelta jsonError (wd_PartialJSON d) (ts_parser st) in
        modAcc (set_toolStates (insert i (mkToolStreamState (ts_id st) (ts_name st) parser)));;
        match r with
        | Err err => fail err
        | Ok partial =>
            sendPartial EventToolCallDelta i (wd_PartialJSON d) ""
              ((fun args => mkToolCall (ts_id st) (ts_name st) (default ∅ args) "") <$> partial);; ok
        end
    end
  else ok.

Definition onBlockStop (e : wireContentBlockStopEvent) : P (res streamErr ()) :=
  let i := be_Index e in
  b ← blockAt i;
  match b with
  | Some (_, TextContent text _) => sendPartial EventTextEnd i "" text None;; ok
  | Some (_, ThinkingContent th _ _) => sendPartial EventThinkingEnd i "" th None;; ok
  | _ =>
      st ← acc (fun a => ac_toolStates a !! i);
      match st with
      | None => ok
      | Some st =>
          match ParseFinal jsonError (ts_parser st) with
          | Err err => mret (Err (ProviderErr (providerError 0 ("tool argument parse failure: " ++ err))))
          | Ok args =>
              let tc := mkToolCall (ts_id st) (ts_name st) args "" in
              putBlock i (ToolCallBlock tc);;
              modAcc (set_toolStates (delete i));;
              sendPartial EventToolCallEnd i "" "" (Some tc);; ok
          end
      end
  end.

(** [finish]; every caller passes a nil error. *)
Definition finish : P (res streamErr ()) :=
  d ← gets sp_done;
  if (d : bool) then ok
  else
    modify (fun p => mkProcessor (sp_acc p) true (sp_store p) (sp_sent p) (sp_ticks p));;
    a ← acc id;
    t ← timeNow;
    let u := ac_usage a in
    let usage := mkUsage (us_Input u) (us_Output u) (us_CacheRead u) (us_CacheWrite u) (us_TotalTokens u) (CalculateCost model u) in
    send (EventStream.mkEvent EventDone 0 "" "" None None (Some (messageOf a usage t)) None (ac_stopReason a), orderedContent a);;
    ok.

Definition decodeError (what data : string) : P (res streamErr ()) := fail ("decode " ++ what ++ ": " ++ jsonError data)%string.

(** [process] of an event with its [Data]. *)
Definition process (data : string) : P (res streamErr ()) :=
  if bool_decide (TrimSpace data = "") then ok
  else
    match Unmarshal dEnvelope "" data with
    | None => decodeError "event envelope" data
    | Some typ =>
        if bool_decide (typ = "ping") then ok
        else if bool_decide (typ = "message_start") then
          match Unmarshal dMessageStart (mkMessageStart "" (mkWireMessageData "" "" "" "" zeroWireUsage)) data with
          | None => decodeError "message_start" data
          | Some e =>
              (if bool_decide (md_Model (ms_Message e) <> "") then modAcc (set_modelID (md_Model (ms_Message e))) else mret ());;
              modAcc (set_usage (mapUsage (md_Usage (ms_Message e))));;
              sendPartial EventStart 0 "" "" None;; ok
          end
        else if bool_decide (typ = "content_block_start") then
          match Unmarshal dBlockStart (mkBlockStart "" 0 zeroBlock) data with
          | None => decodeError "content_block_start" data
          | Some e => onBlockStart e
          end
        else if bool_decide (typ = "content_block_delta") then
          match Unmarshal dBlockDelta (mkBlockDelta "" 0 zeroDelta) data with
          | None => decodeError "content_block_delta" data
          | Some e => onBlockDelta e
          end
        else if bool_decide (typ = "content_block_stop") then
          match Unmarshal dBlockStop (mkBlockStop "" 0) data with
          | None => decodeError "content_block_stop" data
          | Some e => onBlockStop e
          end
        else if bool_decide (typ = "message_delta") then
          match Unmarshal dMessageDelta (mkMessageDelta "" "" zeroWireUsage) data with
          | None => decodeError "message_delta" data
          | Some e =>
              modAcc (fun a => set_stopReason (mapStopReason (me_StopReason e)) (set_usage (mergeUsage (ac_usage a) (me_Usage e)) a));; ok
          end
        else if bool_decide (typ = "message_stop") then finish
        else if bool_decide (typ = "error") then
          match Unmarshal dErrorEvent (mkErrorEvent "" (mkErrorBody "" "")) data with
          | None => decodeError "error event" data
          | Some e => mret (Err (ProviderErr (providerError 0 (eb_Message (ee_Error e)))))
          end
        else ok
    end.
End Client.

(** ** stream.go *)

Section Stream.
Context (jsonError : string -> string) (marshalError : string).
Context `{StreamingJSON}.
Context (now : nat -> Z).
(** The order in which a range visits the entries of a header map. *)
Context (order : gmap string (list string) -> list (string * list string)).
(** The server, and the event before which the call's context is canceled. *)
Context (server : httpRequest -> httpOutcome) (canceledAt : option nat).

Definition applyHeaders (endpoint : ProviderEndpoint) (model : Model) (h : Header) : Header :=
  let h := header_Set "content-type" "application/json" h in
  let h := header_Set "accept" "text/event-stream" h in
  let version := match ep_ProviderSpecific endpoint !! "apiVersion" with
                 | Some v => if bool_decide (v <> "") then v else defaultVersion
                 | None => defaultVersion
                 end in
  let h := header_Set "anthropic-version" version h in
  let h := if bool_decide (ep_APIKey endpoint <> "") then header_Set "x-api-key" (ep_APIKey endpoint) h else h in
  addAll (order (mo_Headers model)) (addAll (order (ep_Headers endpoint)) h).

Definition canceledError (endpoint : ProviderEndpoint) : streamErr :=
  ProviderErr (mkProviderError ErrUnknown "request canceled" 0 (ep_ProviderName endpoint) 0).

(** scanner.Err() as text. *)
Definition scanError (err : sseError) : string :=
  match err with
  | ReadError msg => msg
  | ErrLineTooLarge got limit => "sse: line too large: " ++ FormatInt got ++ " > " ++ FormatInt limit
  | ErrEventTooLarge got limit => "sse: event too large: " ++ FormatInt got ++ " > " ++ FormatInt limit
  end.

Definition isCanceled (n : nat) : bool := match canceledAt with Some k => bool_decide (k <= n)%nat | None => false end.

(** The loop over the events; [n] of them came before, [None] when the fuel is
    too small. *)
Fixpoint processLoop (fuel : nat) (endpoint : ProviderEndpoint) (model : Model) (n : nat) (sc : Scanner) (p : sseProcessor) :
    option (res streamErr () * sseProcessor) :=
  match fuel with
  | O => None
  | S fuel' =>
      match Next sc with
      | None => None
      | Some (true, sc) =>
          if isCanceled n then Some (Err (canceledError endpoint), p)
          else
            match process jsonError now model (ev_data (UnsafeEvent sc)) p with
            | (Err err, p) => Some (Err err, p)
            | (Ok _, p) => processLoop fuel' endpoint model (S n) sc p
            end
      | Some (false, sc) =>
          match sc_err sc with
          | Some err => Some (Err (OtherErr ("sse scan: " ++ scanError err)), p)
          | None => Some (finish now model p)
          end
      end
  end.

Definition messagesRequest (endpoint : ProviderEndpoint) (model : Model) (body : json) : httpRequest :=
  mkRequest "POST" (trimSlashes (ep_BaseURL endpoint) ++ "/v1/messages") (applyHeaders endpoint model ∅) (render body).

(** io.LimitReader(resp.Body, 1<<20). *)
Definition errorBody (body : string) : string := substring 0 (Z.to_nat (Z.shiftl 1 20)) body.

Definition runStream (endpoint : ProviderEndpoint) (model : Model) (llmCtx : NativeDriver.Context) (opts : StreamOptions)
    (thinking : option wireThinking) (p : sseProcessor) : option (res streamErr () * sseProcessor) :=
  match buildRequest jsonError model llmCtx opts thinking with
  | Err err => Some (Err (OtherErr err), p)
  | Ok reqBody =>
      match wireRequestJson reqBody with
      | None => Some (Err (OtherErr ("marshal request: " ++ marshalError)), p)
      | Some body =>
          match server (messagesRequest endpoint model body) with
          | BadRequest err => Some (Err (OtherErr ("build request: " ++ err)), p)
          | DoFailed err canceled =>
              Some (Err (if canceled then canceledError endpoint else OtherErr ("request failed: " ++ err)), p)
          | Responds status respBody readErr =>
              if bool_decide (status < 200 \/ status >= 300)%Z
              then Some (Err (ProviderErr (providerError status (decodeErrorMessage (errorBody respBody)))), p)
              else processLoop (S (String.length respBody)) endpoint model 0 (NewScanner respBody readErr) p
          end
      end
  end.

Definition sendErrorEvent (endpoint : ProviderEndpoint) (model : Model) (err : streamErr) : M sseProcessor () :=
  let message := match err with ProviderErr e => pe_Message e | OtherErr text => text end in
  t ← timeNow now;
  send (EventStream.mkEvent EventError 0 "" "" None None None
          (Some (mkAssistantMessage [] (mo_API model) (ep_ProviderName endpoint) (mo_ID model) zeroUsage StopReasonError message t))
          StopReasonError, []).

(** The goroutine of [streamWithThinking], up to the close of the stream. *)
Definition streamWithThinking (endpoint : ProviderEndpoint) (model : Model) (llmCtx : NativeDriver.Context) (opts : StreamOptions)
    (thinking : option wireThinking) : option sseProcessor :=
  '(r, p) ← runStream endpoint model llmCtx opts thinking (newSSEProcessor model 0);
  match r with
  | Ok _ => Some p
  | Err err => Some (snd (sendErrorEvent endpoint model err p))
  end.

Definition Stream (endpoint : ProviderEndpoint) (model : Model) (llmCtx : NativeDriver.Context) (opts : StreamOptions) : option sseProcessor :=
  streamWithThinking endpoint model llmCtx opts None.

Definition StreamSimple (endpoint : ProviderEndpoint) (model : Model) (llmCtx : NativeDriver.Context) (opts : SimpleStreamOptions) :
    option sseProcessor :=
  let base := BuildBaseOptions model (Some opts) in
  let maxTok := default (mo_MaxTokens model) (so_MaxTokens base) in
  let withMax n := mkStreamOptions (so_Temperature base) (so_TopP base) (so_TopK base) (Some n) (so_APIKey base) (so_SessionID base)
                     (so_CacheRetention base) (so_Headers base) (so_MaxRetryDelayMs base) (so_Metadata base) (so_OnPayload base) in
  if mo_Reasoning model then
    let '(maxTokens, budget) := AdjustMaxTokensForThinking maxTok (mo_MaxTokens model) (sso_Reasoning opts) (sso_ThinkingBudgets opts) in
    streamWithThinking endpoint model llmCtx (withMax maxTokens) (Some (mkWireThinking "enabled" budget))
  else streamWithThinking endpoint model llmCtx (withMax maxTok) None.

(** What a reader sees of an event when the store holds [st]. *)
Definition withContent (st : list ContentBlock) (ls : list loc) (m : AssistantMessage) : AssistantMessage :=
  mkAssistantMessage (omap (fun l => st !! l) ls) (am_API m) (am_Provider m) (am_Model m) (am_Usage m) (am_StopReason m)
    (am_ErrorMessage m) (am_Timestamp m).
Definition seen (st : list ContentBlock) (ev : sentEvent) : AssistantMessageEvent :=
  let '(e, ls) := ev in
  EventStream.mkEvent (ae_Type e) (ae_ContentIndex e) (ae_Delta e) (ae_Content e) (ae_ToolCall e) (withContent st ls <$> ae_Partial e)
    (withContent st ls <$> ae_Message e) (ae_Error e) (ae_Reason e).

(** The events of the stream as its reader sees them once the call is over. *)
Definition events (p : sseProcessor) : list AssistantMessageEvent := seen (sp_store p) <$> sp_sent p.
End Stream.

(** ** provider.go *)

Record Config : Type := mkConfig { cf_BaseURL : string; cf_APIKey : string; cf_Version : string; cf_BetaHeaders : list string }.

Definition EndpointFromConfig (cfg : Config) : ProviderEndpoint :=
  let baseURL := TrimSpace (cf_BaseURL cfg) in
  let baseURL := trimSlashes (if bool_decide (baseURL = "") then defaultBaseURL else baseURL) in
  let version := TrimSpace (cf_Version cfg) in
  let version := if bool_decide (version = "") then defaultVersion else version in
  let betas := filter (fun b => TrimSpace b <> "") (cf_BetaHeaders cfg) in
  mkProviderEndpoint "anthropic" baseURL (cf_APIKey cfg) (if bool_decide (betas = []) then ∅ else {["anthropic-beta" := betas]})
    {["apiVersion" := version]}.
