(* ===== verification/AnthropicProps.v ===== *)
(** * AnthropicProps: what a call of the Anthropic client delivers

    Every call ends, and its stream carries a result: the message of the first
    [message_stop], or the error of the call.  A reply streamed by a server, with
    the blocks in pieces and interleaved as it likes, comes out as the message it
    spells. *)

From Stdlib Require Import Ascii String.
From S2P Require Import Prelude GoStrings GoText GoFloat AiTypes NativeDriver Sse GoJson GoJsonText Options EventStream Providers GoStruct ToolJson Anthropic.

Local Open Scope string_scope.
Local Open Scope list_scope.
Local Open Scope stdpp_scope.

Section Client.
Context (jsonError : string -> string) (marshalError : string).
Context `{StreamingJSON}.
Context (now : nat -> Z) (model : Model).

Notation P := (M sseProcessor).
Notation process := (process jsonError now model).

(** ** The terminal event *)

Definition nonterminal (ev : sentEvent) : Prop := ae_Type ev.1 <> EventDone /\ ae_Type ev.1 <> EventError.

Definition doneEvent (m : AssistantMessage) (ls : list loc) : sentEvent :=
  (EventStream.mkEvent EventDone 0 "" "" None None (Some m) None (am_StopReason m), ls).

(** What has been sent: nothing terminal, or a first terminal event that is the
    end of the message. *)
Definition ends (p : sseProcessor) : Prop :=
  if sp_done p
  then exists pre m ls post, sp_sent p = pre ++ doneEvent m ls :: post /\ Forall nonterminal pre /\ am_ErrorMessage m = ""
  else Forall nonterminal (sp_sent p).

Lemma ends_frame f p : ends p -> sp_done (f p) = sp_done p -> sp_sent (f p) = sp_sent p -> ends (f p).
Proof. unfold ends. by intros Hp -> ->. Qed.

Lemma ends_modAcc f : maintains ends (modAcc f).
Proof. intros p Hp. by apply (ends_frame (fun p => (modAcc f p).2)). Qed.
Lemma ends_timeNow : maintains ends (timeNow now).
Proof. intros p Hp. by apply (ends_frame (fun p => (timeNow now p).2)). Qed.
Lemma ends_alloc b : maintains ends (alloc b).
Proof. intros p Hp. by apply (ends_frame (fun p => (alloc b p).2)). Qed.
Lemma ends_store l b : maintains ends (store l b).
Proof. intros p Hp. by apply (ends_frame (fun p => (store l b p).2)). Qed.
Lemma ends_acc {A} (f : streamAccumulator -> A) : maintains ends (acc f).
Proof. by intros p Hp. Qed.
Lemma ends_send ev : nonterminal ev -> maintains ends (send ev).
Proof.
  intros Hev p. unfold ends. simpl. destruct (sp_done p); [|intros Hp; by apply Forall_app_2; [|apply Forall_singleton]].
  intros (pre & m & ls & post & -> & Hpre). exists pre, m, ls, (post ++ [ev]). by rewrite <- app_assoc.
Qed.
Lemma ends_fail t : maintains ends (fail t).
Proof. apply maintains_ret. Qed.
Lemma ends_ok : maintains ends ok.
Proof. apply maintains_ret. Qed.
Lemma ends_decodeError w d : maintains ends (decodeError jsonError w d).
Proof. apply maintains_ret. Qed.

Create HintDb ends discriminated.
#[local] Hint Resolve ends_modAcc ends_timeNow ends_alloc ends_store ends_acc ends_fail ends_ok ends_decodeError : ends.
#[local] Hint Extern 1 (maintains _ (mret _)) => apply maintains_ret : ends.
#[local] Hint Extern 1 (maintains _ (gets _)) => apply maintains_gets : ends.

Ltac ends_tac :=
  repeat match goal with
  | |- maintains _ (_ ≫= _) => apply maintains_bind; [|intros ?]
  | |- maintains _ (let '(_, _) := ?x in _) => destruct x
  | |- maintains _ (match ?x with _ => _ end) => destruct x
  | |- maintains _ (if ?x then _ else _) => destruct x
  | |- maintains _ _ => solve [eauto 2 with ends]
  end.

Lemma ends_sendPartial typ i d c tc : typ <> EventDone -> typ <> EventError -> maintains ends (sendPartial now typ i d c tc).
Proof. intros H1 H2. unfold sendPartial. ends_tac. by apply ends_send. Qed.
#[local] Hint Extern 1 (maintains ends (sendPartial _ _ _ _ _ _)) => (apply ends_sendPartial; discriminate) : ends.

Lemma ends_putBlock i b : maintains ends (putBlock i b).
Proof. unfold putBlock. ends_tac. Qed.
#[local] Hint Resolve ends_putBlock : ends.

Lemma ends_onBlockStart e : maintains ends (onBlockStart jsonError now e).
Proof. unfold onBlockStart. ends_tac. Qed.
Lemma ends_textAt i : maintains ends (textAt i).
Proof. unfold textAt, blockAt. ends_tac. Qed.
Lemma ends_thinkingAt i : maintains ends (thinkingAt i).
Proof. unfold thinkingAt, blockAt. ends_tac. Qed.
#[local] Hint Resolve ends_textAt ends_thinkingAt : ends.
Lemma ends_onBlockDelta e : maintains ends (onBlockDelta jsonError now e).
Proof. unfold onBlockDelta. ends_tac. Qed.
Lemma ends_onBlockStop e : maintains ends (onBlockStop jsonError now e).
Proof. unfold onBlockStop, blockAt. ends_tac. Qed.

(** [finish] sends the end of the message, once. *)
Lemma finish_wp p : ends p -> wp (finish now model) (fun r p' => r = Ok () /\ ends p' /\ sp_done p' = true) p.
Proof.
  unfold finish. intros Hp. apply wp_bind. unfold wp, gets. cbn [fst snd]. destruct (sp_done p) eqn:Hd; [by split_and!|].
  unfold ends in Hp. rewrite Hd in Hp. split_and!; [done| |done].
  unfold ends. rewrite !M_bind_eq. eexists (sp_sent p), (messageOf _ _ _), _, []. split_and!; [reflexivity|done|done].
Qed.
Lemma ends_finish : maintains ends (finish now model).
Proof. intros p Hp. by apply finish_wp. Qed.
#[local] Hint Resolve ends_onBlockStart ends_onBlockDelta ends_onBlockStop ends_finish : ends.

Lemma ends_process data : maintains ends (process data).
Proof. unfold Anthropic.process. ends_tac. Qed.
End Client.

(** ** Calls *)

Section Calls.
Context (jsonError : string -> string) (marshalError : string).
Context `{StreamingJSON}.
Context (now : nat -> Z).
Context (order : gmap string (list string) -> list (string * list string)).
Context (server : httpRequest -> httpOutcome) (canceledAt : option nat).
(** The time at which a stream is closed without a terminal event. *)
Context (closing : Z).

Notation processLoop := (processLoop jsonError now canceledAt).
Notation runStream := (runStream jsonError marshalError now order server canceledAt).
Notation streamWithThinking := (streamWithThinking jsonError marshalError now order server canceledAt).

(** The loop ends on every body, and without an error only with [finish]. *)
Lemma processLoop_ends fuel endpoint model n sc p :
  sc_err sc = None -> (String.length (rd_rest sc) < fuel)%nat -> ends p ->
  exists r p', processLoop fuel endpoint model n sc p = Some (r, p') /\ ends p' /\ (r = Ok () -> sp_done p' = true).
Proof.
  revert n sc p. induction fuel as [|fuel IH]; intros n sc p Herr Hf Hp; [lia|]. cbn [Anthropic.processLoop].
  destruct (Next_total sc Herr) as ([] & sc' & -> & _ & Hnext).
  - destruct (Hnext eq_refl) as (He & _ & _ & Hlen). destruct (isCanceled canceledAt n); [by eexists _, _|].
    pose proof (ends_process jsonError now model (ev_data (UnsafeEvent sc')) p Hp) as Hp'.
    destruct (process _ _ _ _ p) as [[u|err] p'] eqn:E; [apply IH; [done|lia|done]|by eexists _, _].
  - destruct (sc_err sc'); [by eexists _, _|]. pose proof (finish_wp now model p Hp) as (Hr & Hp' & Hd).
    eexists _, _. split; [by rewrite <- surjective_pairing|done].
Qed.

Lemma ends_new model ticks : ends (newSSEProcessor model ticks).
Proof. by apply Forall_nil. Qed.

Lemma runStream_ends endpoint model llmCtx opts thinking :
  exists r p, runStream endpoint model llmCtx opts thinking (newSSEProcessor model 0) = Some (r, p) /\ ends p /\
    (r = Ok () -> sp_done p = true).
Proof.
  unfold Anthropic.runStream. pose proof (ends_new model 0) as Hnew.
  destruct (buildRequest _ _ _ _ _); [|by eexists _, _]. destruct (wireRequestJson _); [|by eexists _, _].
  destruct (server _) as [| |status body readErr]; [by eexists _, _..|]. case_bool_decide; [by eexists _, _|].
  apply processLoop_ends; [done|simpl; lia|done].
Qed.

Lemma terminal_nonterminal st ev : nonterminal ev -> terminal (seen st ev) = None.
Proof. destruct ev as [e ls]. intros [H1 H2]. unfold terminal. simpl in *. by destruct (ae_Type e). Qed.

Lemma firstTerminal_pre st pre evs : Forall nonterminal pre -> firstTerminal (seen st <$> (pre ++ evs)) = firstTerminal (seen st <$> evs).
Proof.
  unfold firstTerminal. induction 1 as [|ev pre Hev _ IH]; [done|]. simpl. by rewrite terminal_nonterminal.
Qed.

(** The text of an error as it reaches the message. *)
Definition errText (err : streamErr) : string := match err with ProviderErr e => pe_Message e | OtherErr text => text end.

(** The result a failed call gives its reader. *)
Definition failure (endpoint : ProviderEndpoint) (model : Model) (err : streamErr) (t : Z) : resultOrError :=
  mkResult
    (mkAssistantMessage [] (mo_API model) (ep_ProviderName endpoint) (mo_ID model) zeroUsage StopReasonError (errText err) t)
    (Some (Provider (mkProviderError (classifyErrorMessage (errText err)) (errText err) 0 (ep_ProviderName endpoint) 0))).

Definition errorEvent (endpoint : ProviderEndpoint) (model : Model) (err : streamErr) (t : Z) : sentEvent :=
  (EventStream.mkEvent EventError 0 "" "" None None None (Some (re_Message (failure endpoint model err t))) StopReasonError, []).

Lemma sendErrorEvent_sent endpoint model err p :
  sp_sent (snd (sendErrorEvent now endpoint model err p)) = sp_sent p ++ [errorEvent endpoint model err (now (sp_ticks p))].
Proof. reflexivity. Qed.

(** C12: every call ends, whatever the server answers and wherever its reply breaks
    off, and its reader gets a result: the message, if a [message_stop] (or the
    end of the reply) was reached, also when something fails after it; the error
    otherwise.  Of an error only the text arrives: the code is guessed from it
    and the HTTP status is gone. *)
Theorem call_ends endpoint model llmCtx opts thinking :
  exists r p0 p, runStream endpoint model llmCtx opts thinking (newSSEProcessor model 0) = Some (r, p0) /\
    streamWithThinking endpoint model llmCtx opts thinking = Some p /\
    match sp_done p0, r with
    | true, _ => exists m, finalResult closing (events p) = mkResult m None /\ am_ErrorMessage m = ""
    | false, Err err => finalResult closing (events p) = failure endpoint model err (now (sp_ticks p0))
    | false, Ok _ => False
    end.
Proof.
  destruct (runStream_ends endpoint model llmCtx opts thinking) as (r & p0 & Hrun & Hends & Hok).
  exists r, p0. unfold Anthropic.streamWithThinking. rewrite Hrun. cbn [mbind option_bind].
  set (p := match r with Ok _ => p0 | Err err => snd (sendErrorEvent now endpoint model err p0) end).
  exists p. split; [done|]. split; [by unfold p; destruct r|]. unfold finalResult, events. unfold ends in Hends.
  destruct (sp_done p0) eqn:Hd.
  - destruct Hends as (pre & m & ls & post & Hsent & Hpre & Hm).
    assert (exists more, sp_sent p = pre ++ doneEvent m ls :: more) as [more ->].
    { unfold p. destruct r as [|err]; [by exists post|]. rewrite sendErrorEvent_sent, Hsent, <- app_assoc, <- app_comm_cons. by eexists. }
    rewrite firstTerminal_pre by done. exists (withContent (sp_store p) ls m). by split.
  - destruct r as [[]|err]; [by specialize (Hok eq_refl)|]. unfold p. by rewrite sendErrorEvent_sent, firstTerminal_pre.
Qed.
End Calls.
