(* ===== verification/AnthropicStream.v ===== *)
(** * AnthropicStream: a streamed reply is the message it spells

    A reply as the Messages API streams it: blocks of text, of thinking and of
    tool use, each in pieces of any size, the pieces of different blocks
    interleaved in any way.  [stream_roundtrip]: from the bytes of such a reply
    the client builds exactly the blocks, and passes every piece on as it comes. *)

From Stdlib Require Import Ascii String.
From S2P Require Import Prelude GoStrings GoText GoFloat AiTypes NativeDriver Sse GoJson GoJsonText Options EventStream Providers GoStruct ToolJson Anthropic AnthropicProps.

Local Open Scope string_scope.
Local Open Scope list_scope.
Local Open Scope stdpp_scope.

(** ** What a server sends *)

Inductive opening : Type :=
  | OpenText
  | OpenThinking
  | OpenTool (id name : string).

Inductive change : Type :=
  | AddText (s : string)
  | AddThinking (s : string)
  | SetSignature (s : string)
  | AddJson (s : string).

Inductive piece : Type :=
  | PStart (o : opening)
  | PDelta (d : change)
  | PStop.

Definition openingJson (o : opening) : json :=
  match o with
  | OpenText => JObject [("type", JString "text"); ("text", JString "")]
  | OpenThinking => JObject [("type", JString "thinking"); ("thinking", JString ""); ("signature", JString "")]
  | OpenTool id name => JObject [("type", JString "tool_use"); ("id", JString id); ("name", JString name); ("input", JObject [])]
  end.

Definition changeJson (d : change) : json :=
  match d with
  | AddText s => JObject [("type", JString "text_delta"); ("text", JString s)]
  | AddThinking s => JObject [("type", JString "thinking_delta"); ("thinking", JString s)]
  | SetSignature s => JObject [("type", JString "signature_delta"); ("signature", JString s)]
  | AddJson s => JObject [("type", JString "input_json_delta"); ("partial_json", JString s)]
  end.

Definition pieceType (pc : piece) : string :=
  match pc with PStart _ => "content_block_start" | PDelta _ => "content_block_delta" | PStop => "content_block_stop" end.

Definition pieceBody (pc : piece) : list (string * json) :=
  match pc with
  | PStart o => [("content_block", openingJson o)]
  | PDelta d => [("delta", changeJson d)]
  | PStop => []
  end.

Definition usageJson (u : wireUsage) : json :=
  JObject [("input_tokens", numLit (wu_InputTokens u)); ("output_tokens", numLit (wu_OutputTokens u));
           ("cache_read_input_tokens", numLit (wu_CacheReadInputTokens u));
           ("cache_creation_input_tokens", numLit (wu_CacheCreationInputTokens u))].

(** An event of the stream: a ping, the piece of the block with an index, and
    the start and the end of the message. *)
Inductive line : Type :=
  | LPing
  | LPiece (i : Z) (pc : piece)
  | LStart (id model : string) (u : wireUsage)
  | LDelta (stop : string) (u : wireUsage)
  | LStop.

Definition lineType (l : line) : string :=
  match l with
  | LPing => "ping"
  | LPiece _ pc => pieceType pc
  | LStart _ _ _ => "message_start"
  | LDelta _ _ => "message_delta"
  | LStop => "message_stop"
  end.

Definition lineBody (l : line) : list (string * json) :=
  match l with
  | LPing | LStop => []
  | LPiece i pc => ("index", numLit i) :: pieceBody pc
  | LStart id model u =>
      [("message", JObject [("id", JString id); ("type", JString "message"); ("role", JString "assistant"); ("model", JString model);
                            ("content", JArray []); ("stop_reason", JNull); ("stop_sequence", JNull); ("usage", usageJson u)])]
  | LDelta stop u => [("delta", JObject [("stop_reason", JString stop); ("stop_sequence", JNull)]); ("usage", usageJson u)]
  end.

Definition lineJson (l : line) : json := JObject (("type", JString (lineType l)) :: lineBody l).
Definition lineEvent (l : line) : Event := Sse.mkEvent (lineType l) (render (lineJson l)) "" "".

(** Texts in UTF-8, numbers of 64 bits. *)
Definition okUsage (u : wireUsage) : Prop :=
  int64 (wu_InputTokens u) /\ int64 (wu_OutputTokens u) /\ int64 (wu_CacheReadInputTokens u) /\ int64 (wu_CacheCreationInputTokens u).
Definition okPiece (pc : piece) : Prop :=
  match pc with
  | PStart (OpenTool id name) => validText id /\ validText name
  | PDelta (AddText s | AddThinking s | SetSignature s | AddJson s) => validText s
  | _ => True
  end.
Definition okLine (l : line) : Prop :=
  match l with
  | LPiece i pc => int64 i /\ okPiece pc
  | LStart id model u => validText id /\ validText model /\ okUsage u
  | LDelta stop u => validText stop /\ okUsage u
  | _ => True
  end.

(** ** How it is decoded *)

#[local] Arguments ToValidUTF8 : simpl never.
#[local] Arguments numLit : simpl never.

Ltac text_tac :=
  unfold validText in *;
  repeat match goal with E : ToValidUTF8 ?s = ?s |- _ => rewrite !E; clear E end;
  repeat match goal with |- context [ToValidUTF8 ?s] => change (ToValidUTF8 s) with s end.

Lemma numLit_valid n : validJson (numLit n) = numLit n.
Proof. done. Qed.

Lemma lineJson_valid l : okLine l -> validJson (lineJson l) = lineJson l.
Proof.
  unfold lineJson. destruct l as [|i [[]|[]|]|id m u|stop u|]; cbn; intros Hok;
    repeat match goal with E : _ /\ _ |- _ => destruct E end; rewrite ?numLit_valid; text_tac; reflexivity.
Qed.

Lemma depth_numLit n : depth (numLit n) = O.
Proof. done. Qed.

Lemma lineJson_ok l : numbersOk (lineJson l) /\ numbersPrint (lineJson l) /\ (depth (lineJson l) <= maxNestingDepth)%nat.
Proof.
  assert (depth (lineJson l) <= 4)%nat as Hd by (destruct l as [|i [[]|[]|]|id m u|stop u|]; cbn; rewrite ?depth_numLit; lia).
  split_and!; [| |etrans; [exact Hd|apply Nat.leb_le; by vm_compute]];
    destruct l as [|i [[]|[]|]|id m u|stop u|]; cbn; repeat constructor; first [apply numLit_ok|apply printable_int].
Qed.

Lemma lineEvent_data l : ev_data (lineEvent l) <> "" /\ TrimSpace (ev_data (lineEvent l)) = ev_data (lineEvent l).
Proof. split; [done|]. apply TrimSpace_solid, render_object_solid. Qed.

Lemma Unmarshal_line {A} (d : decoder A) zero l : okLine l -> Unmarshal d zero (ev_data (lineEvent l)) = d (lineJson l) zero.
Proof.
  intros Hok. destruct (lineJson_ok l) as (Hn & _ & Hd). change (ev_data (lineEvent l)) with (render (lineJson l)). rewrite Unmarshal_render by done. by rewrite lineJson_valid.
Qed.

(** Evaluates a decoder on a line. *)
Ltac match_fields :=
  repeat match goal with
  | |- context [matchesField ?a ?b] => let v := eval vm_compute in (matchesField a b) in change (matchesField a b) with v
  end.
Ltac decode :=
  unfold lineJson, lineBody, pieceBody, openingJson, changeJson, usageJson;
  repeat progress (cbn [dStruct field dString mbind option_bind ms_Type ms_Message md_ID md_Role md_Model md_StopReason md_Usage
                        me_Type me_StopReason me_Usage]; match_fields).

Lemma dEnvelope_line l : dEnvelope (lineJson l) "" = Some (lineType l).
Proof. unfold dEnvelope. destruct l as [|i []|id m u|stop u|]; decode; reflexivity. Qed.

Lemma dWireUsage_line u : okUsage u -> dWireUsage (usageJson u) zeroWireUsage = Some u.
Proof.
  intros (H1 & H2 & H3 & H4). destruct u. unfold dWireUsage. cbn in H1, H2, H3, H4. decode. by repeat (rewrite dInt_lit by done; cbn [mbind option_bind]).
Qed.

(** ** The steps of the processor *)

Definition openingBlock (o : opening) : wireContentBlock :=
  match o with
  | OpenText => mkWireBlock "text" "" "" "" "" "" None None "" false None
  | OpenThinking => mkWireBlock "thinking" "" "" "" "" "" None None "" false None
  | OpenTool id name => mkWireBlock "tool_use" "" "" "" id name (Some ∅) None "" false None
  end.

Definition changeDelta (d : change) : wireDeltaPayload :=
  match d with
  | AddText s => mkDelta "text_delta" s "" "" ""
  | AddThinking s => mkDelta "thinking_delta" "" s "" ""
  | SetSignature s => mkDelta "signature_delta" "" "" s ""
  | AddJson s => mkDelta "input_json_delta" "" "" "" s
  end.

Lemma dBlockStart_line i o : int64 i ->
  dBlockStart (lineJson (LPiece i (PStart o))) (mkBlockStart "" 0 zeroBlock) = Some (mkBlockStart "content_block_start" i (openingBlock o)).
Proof.
  intros Hi. unfold dBlockStart, dContentBlock. destruct o; decode; rewrite dInt_lit by done; reflexivity.
Qed.

Lemma dBlockDelta_line i d : int64 i ->
  dBlockDelta (lineJson (LPiece i (PDelta d))) (mkBlockDelta "" 0 zeroDelta) = Some (mkBlockDelta "content_block_delta" i (changeDelta d)).
Proof. intros Hi. unfold dBlockDelta, dDelta. destruct d; decode; rewrite dInt_lit by done; reflexivity. Qed.

Lemma dBlockStop_line i : int64 i -> dBlockStop (lineJson (LPiece i PStop)) (mkBlockStop "" 0) = Some (mkBlockStop "content_block_stop" i).
Proof. intros Hi. unfold dBlockStop. decode. by rewrite dInt_lit. Qed.

Lemma dMessageStart_line id m u : okUsage u ->
  dMessageStart (lineJson (LStart id m u)) (mkMessageStart "" (mkWireMessageData "" "" "" "" zeroWireUsage)) =
  Some (mkMessageStart "message_start" (mkWireMessageData id "assistant" m "" u)).
Proof.
  intros Hu. unfold dMessageStart, dMessageData. decode. fold (usageJson u). rewrite (dWireUsage_line u Hu). reflexivity.
Qed.

Lemma dMessageDelta_line stop u : okUsage u ->
  dMessageDelta (lineJson (LDelta stop u)) (mkMessageDelta "" "" zeroWireUsage) = Some (mkMessageDelta "message_delta" stop u).
Proof. intros Hu. unfold dMessageDelta. decode. fold (usageJson u). rewrite (dWireUsage_line u Hu). reflexivity. Qed.

Section Steps.
Context (jsonError : string -> string).
Context `{StreamingJSON}.
Context (now : nat -> Z) (model : Model).

Notation P := (M sseProcessor).
Notation process := (process jsonError now model).

Definition stepPiece (i : Z) (pc : piece) : P (res streamErr ()) :=
  match pc with
  | PStart o => onBlockStart jsonError now (mkBlockStart "content_block_start" i (openingBlock o))
  | PDelta d => onBlockDelta jsonError now (mkBlockDelta "content_block_delta" i (changeDelta d))
  | PStop => onBlockStop jsonError now (mkBlockStop "content_block_stop" i)
  end.

Definition stepStart (m : string) (u : wireUsage) : P (res streamErr ()) :=
  (if bool_decide (m <> "") then modAcc (set_modelID m) else mret ());;
  modAcc (set_usage (mapUsage u));;
  sendPartial now EventStart 0 "" "" None;; ok.

Definition stepDelta (stop : string) (u : wireUsage) : P (res streamErr ()) :=
  modAcc (fun a => set_stopReason (mapStopReason stop) (set_usage (mergeUsage (ac_usage a) u) a));; ok.

Definition stepLine (l : line) : P (res streamErr ()) :=
  match l with
  | LPing => ok
  | LPiece i pc => stepPiece i pc
  | LStart _ m u => stepStart m u
  | LDelta stop u => stepDelta stop u
  | LStop => finish now model
  end.

(** A line is decoded to the step it stands for. *)
Lemma process_line l : okLine l -> process (ev_data (lineEvent l)) = stepLine l.
Proof.
  intros Hok. unfold Anthropic.process. destruct (lineEvent_data l) as [Hne ->]. rewrite bool_decide_false by done.
  rewrite !(Unmarshal_line _ _ _ Hok), dEnvelope_line.
  destruct l as [|i pc|id m u|stop u|]; [reflexivity| | | |reflexivity].
  - destruct Hok as [Hi _]. destruct pc as [o|d|]; cbn [lineType pieceType].
    + rewrite (dBlockStart_line i o Hi). reflexivity.
    + rewrite (dBlockDelta_line i d Hi). reflexivity.
    + rewrite (dBlockStop_line i Hi). reflexivity.
  - destruct Hok as (_ & _ & Hu). rewrite (dMessageStart_line id m u Hu). reflexivity.
  - destruct Hok as (_ & Hu). rewrite (dMessageDelta_line stop u Hu). reflexivity.
Qed.

(** ** One block at a time

    What the processor keeps for an index: the block, and the tool call in
    progress.  The blocks of two indices are never the same one of the store. *)
Record slot : Type := mkSlot { sl_block : option ContentBlock; sl_tool : option toolStreamState }.

Definition view (p : sseProcessor) (i : Z) : slot :=
  mkSlot (l ← ac_blocks (sp_acc p) !! i; sp_store p !! l) (ac_toolStates (sp_acc p) !! i).

Record separate (p : sseProcessor) : Prop := {
  sep_bound : forall i l, ac_blocks (sp_acc p) !! i = Some l -> (l < length (sp_store p))%nat;
  sep_inj : forall i j l, ac_blocks (sp_acc p) !! i = Some l -> ac_blocks (sp_acc p) !! j = Some l -> i = j;
}.

Definition header (p : sseProcessor) :=
  (sp_done p, (ac_api (sp_acc p), ac_provider (sp_acc p), ac_modelID (sp_acc p)), ac_usage (sp_acc p), ac_stopReason (sp_acc p)).

(** An event without the message it carries. *)
Definition brief (ev : sentEvent) : EventType * Z * string := (ae_Type ev.1, ae_ContentIndex ev.1, ae_Delta ev.1).

(** [p'] is [p] with the slot [s] at [i], after the events [bs]. *)
Record touches (i : Z) (s : slot) (bs : list (EventType * Z * string)) (p p' : sseProcessor) : Prop := {
  to_separate : separate p';
  to_view : view p' i = s;
  to_others : forall j, j <> i -> view p' j = view p j;
  to_header : header p' = header p;
  to_brief : brief <$> sp_sent p' = (brief <$> sp_sent p) ++ bs;
}.

Lemma touches_refl i p : separate p -> touches i (view p i) [] p p.
Proof. intros Hp. split; [done..|]. by rewrite app_nil_r. Qed.

Lemma touches_trans i s1 s2 b1 b2 p p1 p2 : touches i s1 b1 p p1 -> touches i s2 b2 p1 p2 -> touches i s2 (b1 ++ b2) p p2.
Proof.
  intros [] []. split; [done|done| |congruence|].
  - intros j Hj. by rewrite to_others1, to_others0.
  - by rewrite to_brief1, to_brief0, app_assoc.
Qed.

Lemma touches_putBlock i b p : separate p ->
  ac_blocks (sp_acc (putBlock i b p).2) !! i = Some (putBlock i b p).1 /\
  touches i (mkSlot (Some b) (sl_tool (view p i))) [] p (putBlock i b p).2.
Proof.
  intros [Hb Hi]. unfold putBlock. rewrite !M_bind_eq. cbn. split; [by rewrite lookup_insert_eq|]. split.
  - split; cbn.
    + intros j l. rewrite lookup_insert_Some, length_app. simpl. intros [[_ <-]|[_ Hl]]; [lia|apply Hb in Hl; lia].
    + intros j k l. rewrite !lookup_insert_Some. intros [[<- <-]|[Hj Hl]] [[<- Hk]|[Hk Hl']]; [done| | |by apply (Hi j k l)].
      * apply Hb in Hl'. lia.
      * subst. apply Hb in Hl. lia.
  - unfold view. cbn. rewrite lookup_insert_eq. cbn. by rewrite lookup_app_r, Nat.sub_diag by done.
  - intros j Hj. unfold view. cbn. rewrite lookup_insert_ne by done. f_equal.
    specialize (Hb j). destruct (ac_blocks (sp_acc p) !! j) as [l|]; cbn; [|done]. by apply lookup_app_l, Hb.
  - done.
  - by rewrite app_nil_r.
Qed.

Lemma touches_store i l b p : separate p -> ac_blocks (sp_acc p) !! i = Some l ->
  touches i (mkSlot (Some b) (sl_tool (view p i))) [] p (store l b p).2.
Proof.
  intros [Hb Hi] Hl. unfold store, modify. cbn [snd]. split.
  - split; cbn; [|exact Hi]. intros j l'. rewrite length_insert. apply Hb.
  - unfold view. cbn. rewrite Hl. cbn. rewrite list_lookup_insert_eq; [done|]. by apply Hb in Hl.
  - intros j Hj. unfold view. cbn. f_equal. specialize (Hi j i). destruct (ac_blocks (sp_acc p) !! j) as [l'|]; cbn; [|done].
    apply list_lookup_insert_ne. intros ->. by apply Hj, (Hi l').
  - done.
  - by rewrite app_nil_r.
Qed.

Lemma touches_setTool i st p : separate p ->
  touches i (mkSlot (sl_block (view p i)) (Some st)) [] p (modAcc (set_toolStates (insert i st)) p).2.
Proof.
  intros [Hb Hi]. split; [by split| | |done|by rewrite app_nil_r].
  - unfold view. cbn. by rewrite lookup_insert_eq.
  - intros j Hj. unfold view. cbn. by rewrite lookup_insert_ne.
Qed.

Lemma touches_deleteTool i p : separate p ->
  touches i (mkSlot (sl_block (view p i)) None) [] p (modAcc (set_toolStates (delete i)) p).2.
Proof.
  intros [Hb Hi]. split; [by split| | |done|by rewrite app_nil_r].
  - unfold view. cbn. by rewrite lookup_delete_eq.
  - intros j Hj. unfold view. cbn. by rewrite lookup_delete_ne.
Qed.

Lemma touches_sendPartial i typ d c tc p : separate p -> touches i (view p i) [(typ, i, d)] p (sendPartial now typ i d c tc p).2.
Proof. intros [Hb Hi]. split; [by split|done|done|done|]. unfold sendPartial. rewrite !M_bind_eq. cbn. by rewrite fmap_app. Qed.

(** ** The step of a slot *)

Definition addText (s : string) (b : option ContentBlock) : ContentBlock :=
  match b with Some (TextContent t sig) => TextContent (t ++ s) sig | _ => TextContent s "" end.
Definition addThinking (s : string) (b : option ContentBlock) : ContentBlock :=
  match b with Some (ThinkingContent t sig red) => ThinkingContent (t ++ s) sig red | _ => ThinkingContent s "" false end.
Definition setSignature (s : string) (b : option ContentBlock) : ContentBlock :=
  match b with
  | Some (ThinkingContent t sig red) => ThinkingContent t (newer s sig) red
  | _ => ThinkingContent "" (newer s "") false
  end.

(** What a piece does to the slot of its index; [None] is an error. *)
Definition slotStep (pc : piece) (s : slot) : option slot :=
  match pc with
  | PStart OpenText => Some (mkSlot (Some (TextContent "" "")) (sl_tool s))
  | PStart OpenThinking => Some (mkSlot (Some (ThinkingContent "" "" false)) (sl_tool s))
  | PStart (OpenTool id name) =>
      Some (mkSlot (Some (ToolCallBlock (mkToolCall id name ∅ ""))) (Some (mkToolStreamState id name newToolJSONParser)))
  | PDelta (AddText x) => Some (mkSlot (Some (addText x (sl_block s))) (sl_tool s))
  | PDelta (AddThinking x) => Some (mkSlot (Some (addThinking x (sl_block s))) (sl_tool s))
  | PDelta (SetSignature x) => Some (mkSlot (Some (setSignature x (sl_block s))) (sl_tool s))
  | PDelta (AddJson x) =>
      st ← sl_tool s;
      match AppendDelta jsonError x (ts_parser st) with
      | (Ok _, parser) => Some (mkSlot (sl_block s) (Some (mkToolStreamState (ts_id st) (ts_name st) parser)))
      | (Err _, _) => None
      end
  | PStop =>
      match sl_block s, sl_tool s with
      | Some (TextContent _ _ | ThinkingContent _ _ _), _ | _, None => Some s
      | _, Some st =>
          match ParseFinal jsonError (ts_parser st) with
          | Ok args => Some (mkSlot (Some (ToolCallBlock (mkToolCall (ts_id st) (ts_name st) args ""))) None)
          | Err _ => None
          end
      end
  end.

(** The events a piece is passed on with. *)
Definition pieceBrief (i : Z) (pc : piece) (s : slot) : list (EventType * Z * string) :=
  match pc with
  | PStart OpenText => [(EventTextStart, i, "")]
  | PStart OpenThinking => [(EventThinkingStart, i, "")]
  | PStart (OpenTool _ _) => [(EventToolCallStart, i, "")]
  | PDelta (AddText x) => [(EventTextDelta, i, x)]
  | PDelta (AddThinking x) => [(EventThinkingDelta, i, x)]
  | PDelta (SetSignature x) => []
  | PDelta (AddJson x) => [(EventToolCallDelta, i, x)]
  | PStop =>
      match sl_block s, sl_tool s with
      | Some (TextContent _ _), _ => [(EventTextEnd, i, "")]
      | Some (ThinkingContent _ _ _), _ => [(EventThinkingEnd, i, "")]
      | _, None => []
      | _, Some _ => [(EventToolCallEnd, i, "")]
      end
  end.

Lemma blockAt_view i p : match fst (blockAt i p) with
  | Some (l, b) => ac_blocks (sp_acc p) !! i = Some l /\ sl_block (view p i) = Some b
  | None => sl_block (view p i) = None
  end.
Proof.
  unfold blockAt, view, gets. cbn. destruct (ac_blocks (sp_acc p) !! i) as [l|]; cbn; [|done]. by destruct (sp_store p !! l).
Qed.

Lemma blockAt_state i p : snd (blockAt i p) = p.
Proof. done. Qed.

(** The block at the index, of the type asked for, or a fresh one. *)
Lemma textAt_touches i p : separate p ->
  exists l t sig p1, textAt i p = ((l, t, sig), p1) /\ ac_blocks (sp_acc p1) !! i = Some l /\
    touches i (mkSlot (Some (TextContent t sig)) (sl_tool (view p i))) [] p p1 /\
    forall s, TextContent (t ++ s) sig = addText s (sl_block (view p i)).
Proof.
  intros Hp. pose proof (blockAt_view i p) as Hv. unfold textAt. rewrite M_bind_eq, blockAt_state.
  assert (forall b, b = sl_block (view p i) -> (forall t sig, b <> Some (TextContent t sig)) ->
    exists l t sig p1, (l ← putBlock i (TextContent "" ""); mret (l, "", "")) p = ((l, t, sig), p1) /\ ac_blocks (sp_acc p1) !! i = Some l /\
    touches i (mkSlot (Some (TextContent t sig)) (sl_tool (view p i))) [] p p1 /\
    forall s, TextContent (t ++ s) sig = addText s (sl_block (view p i))) as Hnew.
  { intros b <- Hb. destruct (touches_putBlock i (TextContent "" "") p Hp) as [Hl Ht]. eexists _, _, _, _. split_and!; [reflexivity|done|done|].
    intros s. destruct b as [[]|]; try done. by destruct (Hb Text TextSignature). }
  destruct (fst (blockAt i p)) as [[l [t sig| | |]]|]; try (by eapply Hnew; [symmetry; apply Hv|]).
  destruct Hv as [Hl Hv]. exists l, t, sig, p. split_and!; [done|done| |by rewrite Hv]. rewrite <- Hv. by apply touches_refl.
Qed.

Lemma thinkingAt_touches i p : separate p ->
  exists l t sig red p1, thinkingAt i p = ((l, t, sig, red), p1) /\ ac_blocks (sp_acc p1) !! i = Some l /\
    touches i (mkSlot (Some (ThinkingContent t sig red)) (sl_tool (view p i))) [] p p1 /\
    (forall s, ThinkingContent (t ++ s) sig red = addThinking s (sl_block (view p i))) /\
    forall s, ThinkingContent t (newer s sig) red = setSignature s (sl_block (view p i)).
Proof.
  intros Hp. pose proof (blockAt_view i p) as Hv. unfold thinkingAt. rewrite M_bind_eq, blockAt_state.
  assert (forall b, b = sl_block (view p i) -> (forall t sig red, b <> Some (ThinkingContent t sig red)) ->
    exists l t sig red p1, (l ← putBlock i (ThinkingContent "" "" false); mret (l, "", "", false)) p = ((l, t, sig, red), p1) /\
    ac_blocks (sp_acc p1) !! i = Some l /\
    touches i (mkSlot (Some (ThinkingContent t sig red)) (sl_tool (view p i))) [] p p1 /\
    (forall s, ThinkingContent (t ++ s) sig red = addThinking s (sl_block (view p i))) /\
    forall s, ThinkingContent t (newer s sig) red = setSignature s (sl_block (view p i))) as Hnew.
  { intros b <- Hb. destruct (touches_putBlock i (ThinkingContent "" "" false) p Hp) as [Hl Ht].
    eexists _, _, _, _, _. split_and!; [reflexivity|done|done|intros s..]; destruct b as [[]|]; try done; by destruct (Hb Thinking ThinkingSignature Redacted). }
  destruct (fst (blockAt i p)) as [[l [|t sig red| |]]|]; try (by eapply Hnew; [symmetry; apply Hv|]).
  destruct Hv as [Hl Hv]. exists l, t, sig, red, p. split_and!; [done|done| |by rewrite Hv..]. rewrite <- Hv. by apply touches_refl.
Qed.

Lemma touches_send i s bs p p1 typ d c tc : touches i s bs p p1 -> touches i s (bs ++ [(typ, i, d)]) p (sendPartial now typ i d c tc p1).2.
Proof.
  intros Ht. eapply touches_trans; [exact Ht|]. rewrite <- (to_view _ _ _ _ _ Ht). apply touches_sendPartial, Ht.
Qed.

Lemma touches_then_store i l b s bs p p1 : touches i s bs p p1 -> ac_blocks (sp_acc p1) !! i = Some l ->
  touches i (mkSlot (Some b) (sl_tool s)) bs p (store l b p1).2.
Proof.
  intros Ht Hl. rewrite <- (app_nil_r bs). eapply touches_trans; [exact Ht|]. rewrite <- (to_view _ _ _ _ _ Ht).
  by apply touches_store; [apply Ht|].
Qed.

Lemma touches_then_put i b s bs p p1 : touches i s bs p p1 -> touches i (mkSlot (Some b) (sl_tool s)) bs p (putBlock i b p1).2.
Proof.
  intros Ht. rewrite <- (app_nil_r bs). eapply touches_trans; [exact Ht|]. rewrite <- (to_view _ _ _ _ _ Ht). apply touches_putBlock, Ht.
Qed.

Lemma touches_then_tool i st s bs p p1 : touches i s bs p p1 ->
  touches i (mkSlot (sl_block s) (Some st)) bs p (modAcc (set_toolStates (insert i st)) p1).2.
Proof.
  intros Ht. rewrite <- (app_nil_r bs). eapply touches_trans; [exact Ht|]. rewrite <- (to_view _ _ _ _ _ Ht). apply touches_setTool, Ht.
Qed.

Lemma touches_then_delete i s bs p p1 : touches i s bs p p1 ->
  touches i (mkSlot (sl_block s) None) bs p (modAcc (set_toolStates (delete i)) p1).2.
Proof.
  intros Ht. rewrite <- (app_nil_r bs). eapply touches_trans; [exact Ht|]. rewrite <- (to_view _ _ _ _ _ Ht). apply touches_deleteTool, Ht.
Qed.

Notation did m i s bs p := (exists p', m p = (Ok (), p') /\ touches i s bs p p').

Lemma onBlockStart_slot i o p s' : separate p -> slotStep (PStart o) (view p i) = Some s' ->
  did (stepPiece i (PStart o)) i s' (pieceBrief i (PStart o) (view p i)) p.
Proof.
  intros Hp Hs. pose proof (touches_refl i p Hp) as H0. destruct o as [| |id name]; injection Hs as <-.
  - eexists. split; [reflexivity|]. apply (touches_send _ _ []), (touches_then_put i _ (view p i)), H0.
  - eexists. split; [reflexivity|]. apply (touches_send _ _ []), (touches_then_put i _ (view p i)), H0.
  - unfold stepPiece, onBlockStart. cbn [bs_ContentBlock bs_Index openingBlock wb_Type wb_Input wb_ID wb_Name default].
    do 2 rewrite bool_decide_false by done. do 2 rewrite bool_decide_true by done.
    eexists. split; [reflexivity|]. apply (touches_send _ _ []). eapply (touches_then_put i _ (mkSlot _ (Some _))).
    apply (touches_then_tool i _ (view p i)), H0.
Qed.

Lemma onBlockDelta_slot i d p s' : separate p -> slotStep (PDelta d) (view p i) = Some s' ->
  did (stepPiece i (PDelta d)) i s' (pieceBrief i (PDelta d) (view p i)) p.
Proof.
  intros Hp Hs. destruct d as [x|x|x|x]; cbn [slotStep] in Hs; unfold stepPiece, onBlockDelta; cbn [bd_Delta bd_Index changeDelta wd_Type].
  - injection Hs as <-. destruct (textAt_touches i p Hp) as (l & t & sig & p1 & E & Hl & Ht & Ha).
    rewrite bool_decide_true by done. rewrite M_bind_eq, E. cbn [fst snd]. eexists. split; [reflexivity|]. apply (touches_send _ _ []).
    cbn [wd_Text]. rewrite Ha. by apply (touches_then_store i _ _ _ _ _ _ Ht).
  - injection Hs as <-. destruct (thinkingAt_touches i p Hp) as (l & t & sig & red & p1 & E & Hl & Ht & Ha & _).
    rewrite bool_decide_false, bool_decide_true by done. rewrite M_bind_eq, E. cbn [fst snd]. eexists. split; [reflexivity|].
    apply (touches_send _ _ []). cbn [wd_Thinking wd_Signature newer]. change (newer "" sig) with sig. rewrite Ha.
    by apply (touches_then_store i _ _ _ _ _ _ Ht).
  - injection Hs as <-. destruct (thinkingAt_touches i p Hp) as (l & t & sig & red & p1 & E & Hl & Ht & _ & Ha).
    do 2 rewrite bool_decide_false by done. rewrite bool_decide_true by done. rewrite M_bind_eq, E. cbn [fst snd]. eexists.
    split; [reflexivity|]. cbn [wd_Signature]. rewrite Ha. by apply (touches_then_store i _ _ _ _ _ _ Ht).
  - do 3 rewrite bool_decide_false by done. rewrite bool_decide_true by done. rewrite M_bind_eq. unfold acc, gets. cbn [fst snd].
    change (ac_toolStates (sp_acc p) !! i) with (sl_tool (view p i)) in *. destruct (sl_tool (view p i)) as [st|] eqn:Et; [|done].
    cbn in Hs. cbn [wd_PartialJSON]. destruct (AppendDelta jsonError x (ts_parser st)) as [[args|] parser]; [|done]. injection Hs as <-.
    eexists. split; [reflexivity|]. apply (touches_send _ _ []). apply (touches_then_tool i _ (view p i)), touches_refl, Hp.
Qed.

Lemma onBlockStop_slot i p s' : separate p -> slotStep PStop (view p i) = Some s' ->
  did (stepPiece i PStop) i s' (pieceBrief i PStop (view p i)) p.
Proof.
  intros Hp Hs. pose proof (touches_refl i p Hp) as H0. pose proof (blockAt_view i p) as Hv. cbn [slotStep pieceBrief] in *.
  unfold stepPiece, onBlockStop. cbn [be_Index]. rewrite M_bind_eq, blockAt_state.
  assert (forall (b : option ContentBlock), sl_block (view p i) = b ->
    match b with Some (TextContent _ _ | ThinkingContent _ _ _) => False | _ => True end ->
    exists p', (st ← acc (fun a => ac_toolStates a !! i);
      match st with
      | None => ok
      | Some st =>
          match ParseFinal jsonError (ts_parser st) with
          | Err err => mret (Err (ProviderErr (providerError 0 ("tool argument parse failure: " ++ err))))
          | Ok args =>
              let tc := mkToolCall (ts_id st) (ts_name st) args "" in
              putBlock i (ToolCallBlock tc);; modAcc (set_toolStates (delete i));; sendPartial now EventToolCallEnd i "" "" (Some tc);; ok
          end
      end) p = (Ok (), p') /\ touches i s' match sl_tool (view p i) with Some _ => [(EventToolCallEnd, i, "")] | None => [] end p p') as Htool.
  { intros b Hb Hn. rewrite M_bind_eq. unfold acc, gets. cbn [fst snd]. change (ac_toolStates (sp_acc p) !! i) with (sl_tool (view p i)).
    rewrite Hb in Hs. destruct (sl_tool (view p i)) as [st|].
    - destruct (ParseFinal jsonError (ts_parser st)) as [args|].
      + assert (s' = mkSlot (Some (ToolCallBlock (mkToolCall (ts_id st) (ts_name st) args ""))) None) as -> by (destruct b as [[]|]; by simplify_eq).
        eexists. split; [reflexivity|]. apply (touches_send _ _ []). eapply (touches_then_delete i (mkSlot _ _)).
        apply (touches_then_put i _ (view p i)), H0.
      + by destruct b as [[]|].
    - assert (s' = view p i) as -> by (destruct b as [[]|]; by simplify_eq). by eexists. }
  destruct (fst (blockAt i p)) as [[l b]|].
  - destruct Hv as [_ Hv]. specialize (Htool _ Hv). rewrite Hv in *. destruct b; try exact (Htool I).
    + injection Hs as <-. eexists. split; [reflexivity|]. apply (touches_send _ _ []), H0.
    + injection Hs as <-. eexists. split; [reflexivity|]. apply (touches_send _ _ []), H0.
  - specialize (Htool _ Hv I). rewrite Hv. exact Htool.
Qed.

Lemma stepPiece_slot i pc p s' : separate p -> slotStep pc (view p i) = Some s' -> did (stepPiece i pc) i s' (pieceBrief i pc (view p i)) p.
Proof. destruct pc; [apply onBlockStart_slot|apply onBlockDelta_slot|apply onBlockStop_slot]. Qed.

(** ** Sequences of lines *)

Fixpoint stepAll (ls : list line) : P (res streamErr ()) :=
  match ls with
  | [] => ok
  | l :: ls' => r ← stepLine l; match r with Ok _ => stepAll ls' | Err err => mret (Err err) end
  end.

Lemma stepAll_ok l ls p p1 : stepLine l p = (Ok (), p1) -> stepAll (l :: ls) p = stepAll ls p1.
Proof. intros E. cbn [stepAll]. by rewrite M_bind_eq, E. Qed.

Lemma stepAll_app ls1 ls2 p p1 : stepAll ls1 p = (Ok (), p1) -> stepAll (ls1 ++ ls2) p = stepAll ls2 p1.
Proof.
  revert p. induction ls1 as [|l ls1 IH]; intros p; cbn [stepAll app]; [by intros [= ->]|]. rewrite !M_bind_eq.
  destruct (stepLine l p) as [[[]|err] p2]; cbn [fst snd]; [apply IH|done].
Qed.

(** Lines between the start and the end of the message. *)
Definition content (l : line) : Prop := match l with LPing | LPiece _ _ => True | _ => False end.

(** The pieces of one index. *)
Definition proj (i : Z) (ls : list line) : list piece :=
  omap (fun l => match l with LPiece j pc => if bool_decide (j = i) then Some pc else None | _ => None end) ls.

Fixpoint slotRun (pcs : list piece) (s : slot) : option slot :=
  match pcs with [] => Some s | pc :: pcs' => s' ← slotStep pc s; slotRun pcs' s' end.

Lemma slotRun_app pcs1 pcs2 s : slotRun (pcs1 ++ pcs2) s = s' ← slotRun pcs1 s; slotRun pcs2 s'.
Proof. revert s. induction pcs1 as [|pc pcs1 IH]; intros s; simpl; [done|]. destruct (slotStep pc s); simpl; [apply IH|done]. Qed.

(** The deltas among the events, and those the lines stand for. *)
Definition isDelta (b : EventType * Z * string) : bool :=
  match b.1.1 with EventTextDelta | EventThinkingDelta | EventToolCallDelta => true | _ => false end.
Definition deltas (bs : list (EventType * Z * string)) : list (EventType * Z * string) := filter (fun b => isDelta b = true) bs.
Definition lineDelta (l : line) : option (EventType * Z * string) :=
  match l with
  | LPiece i (PDelta (AddText x)) => Some (EventTextDelta, i, x)
  | LPiece i (PDelta (AddThinking x)) => Some (EventThinkingDelta, i, x)
  | LPiece i (PDelta (AddJson x)) => Some (EventToolCallDelta, i, x)
  | _ => None
  end.

Lemma pieceBrief_deltas i pc s : deltas (pieceBrief i pc s) = option_list (lineDelta (LPiece i pc)).
Proof. destruct pc as [[]|[]|]; try done. simpl. by destruct (sl_block s) as [[]|], (sl_tool s). Qed.

(** Pieces of other indices do not matter: after any interleaving each slot is
    what the pieces of its own index make of it. *)
Lemma stepAll_slots ls p f : separate p -> Forall content ls -> (forall i, slotRun (proj i ls) (view p i) = Some (f i)) ->
  exists p', stepAll ls p = (Ok (), p') /\ separate p' /\ (forall i, view p' i = f i) /\ header p' = header p /\
    deltas (brief <$> sp_sent p') = deltas (brief <$> sp_sent p) ++ omap lineDelta ls.
Proof.
  intros Hp Hls. revert p Hp. induction Hls as [|l ls Hl _ IH]; intros p Hp Hf.
  - exists p. split_and!; [done|done|intros i; by specialize (Hf i) as [= ?]|done|by rewrite app_nil_r].
  - destruct l as [|i pc| | |]; try done.
    + destruct (IH p Hp Hf) as (p' & E & H1 & H2 & H3 & H4). by exists p'.
    + assert (proj i (LPiece i pc :: ls) = pc :: proj i ls) as Hi by (cbn; by rewrite bool_decide_true).
      pose proof (Hf i) as Hfi. rewrite Hi in Hfi. cbn in Hfi. destruct (slotStep pc (view p i)) as [s1|] eqn:Es; [|done]. cbn in Hfi.
      destruct (stepPiece_slot i pc p s1 Hp Es) as (p1 & E1 & Ht). destruct (IH p1 (to_separate _ _ _ _ _ Ht)) as (p' & E & H1 & H2 & H3 & H4).
      { intros j. destruct (decide (j = i)) as [->|Hj]; [by rewrite (to_view _ _ _ _ _ Ht)|]. rewrite (to_others _ _ _ _ _ Ht) by done.
        rewrite <- (Hf j). unfold proj. cbn. by rewrite bool_decide_false. }
      exists p'. split_and!; [|done|done|by rewrite H3, (to_header _ _ _ _ _ Ht)|].
      * by rewrite (stepAll_ok (LPiece i pc) ls p p1).
      * rewrite H4, (to_brief _ _ _ _ _ Ht). unfold deltas at 1. rewrite filter_app. fold (deltas (brief <$> sp_sent p)).
        fold (deltas (pieceBrief i pc (view p i))). rewrite pieceBrief_deltas, <- app_assoc. f_equal.
        cbn [omap list_omap]. by destruct (lineDelta (LPiece i pc)).
Qed.

(** ** Parts of a message *)

(** A block as it is streamed: its pieces, and what signs a thought. *)
Inductive part : Type :=
  | PartText (chunks : list string)
  | PartThinking (chunks : list string) (signature : string)
  | PartTool (id name : string) (chunks : list string).

Definition partPieces (q : part) : list piece :=
  match q with
  | PartText chunks => PStart OpenText :: map (fun s => PDelta (AddText s)) chunks ++ [PStop]
  | PartThinking chunks sig => PStart OpenThinking :: map (fun s => PDelta (AddThinking s)) chunks ++ [PDelta (SetSignature sig); PStop]
  | PartTool id name chunks => PStart (OpenTool id name) :: map (fun s => PDelta (AddJson s)) chunks ++ [PStop]
  end.

(** The block a part spells.  The lexer for the partial arguments has to take
    the pieces; the arguments are those of the whole text. *)
Definition spellsBlock (q : part) (b : ContentBlock) : Prop :=
  match q with
  | PartText chunks => b = TextContent (concatStrings chunks) ""
  | PartThinking chunks sig => b = ThinkingContent (concatStrings chunks) sig false
  | PartTool id name chunks =>
      takes NewLexer chunks /\ exists args, spells jsonError (concatStrings chunks) args /\ b = ToolCallBlock (mkToolCall id name args "")
  end.

Lemma slotRun_text chunks t sig tool : slotRun (map (fun s => PDelta (AddText s)) chunks) (mkSlot (Some (TextContent t sig)) tool) =
  Some (mkSlot (Some (TextContent (t ++ concatStrings chunks) sig)) tool).
Proof.
  revert t. induction chunks as [|c chunks IH]; intros t; simpl; [by rewrite append_nil_r|]. by rewrite IH, append_assoc_l.
Qed.

Lemma slotRun_thinking chunks t sig red tool :
  slotRun (map (fun s => PDelta (AddThinking s)) chunks) (mkSlot (Some (ThinkingContent t sig red)) tool) =
  Some (mkSlot (Some (ThinkingContent (t ++ concatStrings chunks) sig red)) tool).
Proof.
  revert t. induction chunks as [|c chunks IH]; intros t; simpl; [by rewrite append_nil_r|]. by rewrite IH, append_assoc_l.
Qed.

Lemma slotRun_json chunks b id name parser : takes (tp_lexer parser) chunks ->
  exists parser', slotRun (map (fun s => PDelta (AddJson s)) chunks) (mkSlot b (Some (mkToolStreamState id name parser))) =
    Some (mkSlot b (Some (mkToolStreamState id name parser'))) /\ tp_raw parser' = (tp_raw parser ++ concatStrings chunks)%string.
Proof.
  revert parser. induction chunks as [|c chunks IH]; intros parser Ht.
  - exists parser. split; [done|]. by rewrite append_nil_r.
  - destruct Ht as [Hc Ht]. destruct (AppendDelta_takes jsonError c parser Hc) as [args Ha].
    destruct (IH (mkToolJSONParser (snd (AppendString (tp_lexer parser) c)) (tp_raw parser ++ c)) Ht) as (parser' & E & Hr). exists parser'. split; [|by rewrite Hr; cbn; rewrite append_assoc_l].
    cbn [map slotRun slotStep sl_tool mbind option_bind ts_parser ts_id ts_name sl_block]. rewrite Ha. exact E.
Qed.

Lemma slotRun_part q b : spellsBlock q b -> slotRun (partPieces q) (mkSlot None None) = Some (mkSlot (Some b) None).
Proof.
  destruct q as [chunks|chunks sig|id name chunks]; cbn [spellsBlock partPieces slotRun slotStep mbind option_bind sl_tool].
  - intros ->. rewrite slotRun_app, slotRun_text. done.
  - intros ->. rewrite slotRun_app, slotRun_thinking. cbn. unfold newer.
    destruct sig; [done|]. by rewrite bool_decide_true.
  - intros (Ht & args & Hargs & ->). destruct (slotRun_json chunks (Some (ToolCallBlock (mkToolCall id name ∅ ""))) id name newToolJSONParser Ht)
      as (parser & E & Hr). rewrite slotRun_app, E. cbn. rewrite (ParseFinal_spells jsonError parser args); [done|]. by rewrite Hr.
Qed.
End Steps.

(** ** The message and the scanner *)

Lemma seq_sorted k n : StronglySorted Z.le (Z.of_nat <$> seq k n).
Proof.
  revert k. induction n as [|n IH]; intros k; simpl; constructor; [apply IH|]. apply Forall_fmap, Forall_seq. intros j Hj. simpl. lia.
Qed.

(** A map with the keys 0 to n-1, in the order of its keys. *)
Lemma sortInts_keys {A} (m : gmap Z A) n : (forall i, is_Some (m !! i) <-> (0 <= i < Z.of_nat n)%Z) ->
  sortInts (fst <$> map_to_list m) = Z.of_nat <$> seq 0 n.
Proof.
  intros Hm. unfold sortInts. apply (StronglySorted_unique Z.le); [apply StronglySorted_merge_sort; apply _|apply seq_sorted|].
  rewrite merge_sort_Permutation. apply NoDup_Permutation; [apply NoDup_fst_map_to_list|apply NoDup_fmap_2, NoDup_seq; apply _|].
  intros i. rewrite !list_elem_of_fmap. split.
  - intros ([j x] & -> & Hx%elem_of_map_to_list). cbn. assert (is_Some (m !! j)) as Hj by by eexists. apply Hm in Hj.
    exists (Z.to_nat j). rewrite elem_of_seq. lia.
  - intros (j & -> & Hj%elem_of_seq). destruct (proj2 (Hm (Z.of_nat j))) as [x Hx]; [lia|]. exists (Z.of_nat j, x). by rewrite elem_of_map_to_list.
Qed.

Lemma omap_seq {A} (f : Z -> option A) (l : list A) k : (forall j, (j < length l)%nat -> f (Z.of_nat (k + j)) = l !! j) ->
  omap f (Z.of_nat <$> seq k (length l)) = l.
Proof.
  revert k. induction l as [|x l IH]; intros k Hf; [done|]. cbn. rewrite <- (Nat.add_0_r k) at 1. rewrite (Hf O) by (simpl; lia). cbn. f_equal.
  apply IH. intros j Hj. replace (S k + j)%nat with (k + S j)%nat by lia. rewrite Hf by (simpl; lia). done.
Qed.

Lemma omap_omap {A B C} (f : A -> option B) (g : B -> option C) (l : list A) : omap g (omap f l) = omap (fun x => y ← f x; g y) l.
Proof.
  induction l as [|x l IH]; [done|]. cbn. destruct (f x) as [y|]; cbn; [|exact IH]. destruct (g y); [f_equal; exact IH|exact IH].
Qed.

Section Reply.
Context `{StreamingJSON}.

Definition at_index {A} (l : list A) (i : Z) : option A := if bool_decide (0 <= i)%Z then l !! Z.to_nat i else None.

(** The content of the message, when the slots hold these blocks. *)
Lemma orderedContent_blocks p blocks : separate p -> (forall i, sl_block (view p i) = at_index blocks i) ->
  omap (fun l => sp_store p !! l) (orderedContent (sp_acc p)) = blocks.
Proof.
  intros Hp Hv. unfold orderedContent. rewrite (sortInts_keys _ (length blocks)).
  - rewrite omap_omap. apply omap_seq. intros j Hj. specialize (Hv (Z.of_nat j)). unfold view, at_index in Hv. cbn in Hv.
    rewrite bool_decide_true, Nat2Z.id in Hv by lia. exact Hv.
  - intros i. specialize (Hv i). unfold view, at_index in Hv. cbn in Hv. split.
    + intros [l Hl]. rewrite Hl in Hv. cbn in Hv. pose proof (sep_bound p Hp i l Hl) as Hb. apply lookup_lt_is_Some_2 in Hb as [b Hb].
      rewrite Hb in Hv. case_bool_decide; [|done]. symmetry in Hv. apply lookup_lt_Some in Hv. lia.
    + intros Hi. rewrite bool_decide_true in Hv by lia. destruct (ac_blocks (sp_acc p) !! i); [done|]. cbn in Hv.
      symmetry in Hv. apply lookup_ge_None in Hv. lia.
Qed.
End Reply.

Lemma printable_line s : printable s -> hasLF s = false /\ endsCR s = false.
Proof.
  unfold printable. induction s as [|c s IH]; [done|]. cbn [allBytes]. intros [Hc Hs]%andb_true_iff. destruct (IH Hs) as [H1 H2].
  apply inRange_spec in Hc. rewrite hasLF_cons, H1, orb_false_r. split.
  - apply bool_decide_false. intros ->. change (byteOf LF) with 10%Z in Hc. lia.
  - cbn [endsCR]. destruct s; [|done]. apply bool_decide_false. intros ->. change (byteOf CR) with 13%Z in Hc. lia.
Qed.

Lemma splitLines_line s : hasLF s = false -> splitLines s = ([], s).
Proof.
  induction s as [|c s IH]; [done|]. rewrite hasLF_cons. intros [Hc Hs]%orb_false_iff. cbn [splitLines]. rewrite IH by done. by rewrite Hc.
Qed.

Lemma lineEvent_writable l : writable (lineEvent l).
Proof.
  destruct (lineJson_ok l) as (_ & Hp & _). apply printable_render, printable_line in Hp as [H1 H2].
  unfold writable. assert (plain (ev_type (lineEvent l))) as Ht by (destruct l as [|i []|id m u|stop u|]; by vm_compute).
  split_and!; [|done|by vm_compute|by vm_compute|].
  - unfold lineEvent, zeroEvent. intros [= E].
  - unfold dataLines. change (ev_data (lineEvent l)) with (render (lineJson l)). rewrite splitLines_line by done. by constructor.
Qed.

(** ** The call *)

Section Call.
Context (jsonError : string -> string) (marshalError : string).
Context `{StreamingJSON}.
Context (now : nat -> Z).
Context (order : gmap string (list string) -> list (string * list string)).
Context (server : httpRequest -> httpOutcome) (closing : Z).

Notation processLoop := (processLoop jsonError now None).
Notation stepAll := (stepAll jsonError now).
Notation streamWithThinking := (streamWithThinking jsonError marshalError now order server None).

Fixpoint processAll (model : Model) (ds : list string) (p : sseProcessor) : res streamErr () * sseProcessor :=
  match ds with
  | [] => Anthropic.finish now model p
  | d :: ds' =>
      match process jsonError now model d p with
      | (Ok _, p) => processAll model ds' p
      | (Err err, p) => (Err err, p)
      end
  end.

Lemma processAll_lines model ls p p1 : Forall okLine ls -> stepAll model ls p = (Ok (), p1) ->
  processAll model (ev_data <$> (lineEvent <$> ls)) p = Anthropic.finish now model p1.
Proof.
  intros Hok. revert p. induction Hok as [|l ls Hl _ IH]; intros p; cbn [stepAll fmap list_fmap processAll]; [by intros [= ->]|].
  rewrite M_bind_eq, process_line by done. destruct (stepLine _ _ _ l p) as [[[]|err] p2]; cbn [fst snd]; [apply IH|done].
Qed.

(** The loop over the scanner is the loop over the events of the body. *)
Lemma processLoop_all fuel endpoint model n sc p :
  rd_end sc = None -> sc_err sc = None -> (len (rd_rest sc) <= sc_maxLineBytes sc)%Z -> (len (rd_rest sc) <= sc_maxEventBytes sc)%Z ->
  (String.length (rd_rest sc) < fuel)%nat ->
  processLoop fuel endpoint model n sc p = Some (processAll model (ev_data <$> remaining sc emptyAcc) p).
Proof.
  revert n sc p. induction fuel as [|fuel IH]; intros n sc p Hend Herr Hl He Hf; [lia|]. cbn [Anthropic.processLoop].
  destruct (Next_spec sc Hend Herr) as (b & s1 & Hn & H1 & H2 & H3 & H4).
  destruct (Next_total sc Herr) as (b' & s1' & Hn' & _ & Htrue). rewrite Hn in Hn'. injection Hn' as <- <-.
  pose proof Hn as Hsmall. unfold Next in Hsmall. rewrite Herr in Hsmall. apply nextLoop_small in Hsmall as [Herr1 Hlen]; [|done..].
  rewrite Hn, Herr1 in *. destruct b; [|by rewrite H4].
  destruct H4 as [Hrem _]. destruct (Htrue eq_refl) as (_ & Hconv & Hdata & Hshort). rewrite Hrem. cbn [fmap list_fmap processAll].
  assert (ev_data (UnsafeEvent s1) = ev_data (scannerEvent s1).1) as ->.
  { unfold UnsafeEvent, scannerEvent. rewrite Hconv. cbn. case_bool_decide as Hd; [done|]. rewrite Hdata. unfold len in Hd.
    destruct (sc_dataBuf s1); [done|]. simpl in Hd. lia. }
  destruct (process jsonError now model _ p) as [[[]|err] p1]; [|done]. apply IH; try congruence; try lia.
Qed.

Record reply : Type := mkReply {
  rp_id : string;
  rp_model : string;
  rp_usage : wireUsage;
  rp_lines : list line;
  rp_stop : string;
  rp_final : wireUsage;
}.
Definition replyLines (r : reply) : list line := LStart (rp_id r) (rp_model r) (rp_usage r) :: rp_lines r ++ [LDelta (rp_stop r) (rp_final r); LStop].
Definition replyBody (r : reply) : string := renderEvents (lineEvent <$> replyLines r).

(** The reply interleaves the pieces of the parts, in their order for each. *)
Definition streams (r : reply) (parts : list part) : Prop :=
  Forall okLine (replyLines r) /\ Forall content (rp_lines r) /\
  forall i, proj i (rp_lines r) = match at_index parts i with Some q => partPieces q | None => [] end.

Definition finalUsage (model : Model) (r : reply) : Usage :=
  let u := mergeUsage (mapUsage (rp_usage r)) (rp_final r) in
  mkUsage (us_Input u) (us_Output u) (us_CacheRead u) (us_CacheWrite u) (us_TotalTokens u) (CalculateCost model u).

Definition finalMessage (model : Model) (r : reply) (blocks : list ContentBlock) (t : Z) : AssistantMessage :=
  mkAssistantMessage blocks (mo_API model) (mo_Provider model) (if bool_decide (rp_model r <> "") then rp_model r else mo_ID model)
    (finalUsage model r) (mapStopReason (rp_stop r)) "" t.

Lemma ends_stepAll model ls : maintains ends (stepAll model ls).
Proof.
  induction ls as [|l ls IH]; [apply maintains_ret|]. apply maintains_bind; [|intros [[]|]; [apply IH|apply maintains_ret]].
  destruct l as [|i []|id m u|stop u|]; [apply maintains_ret|apply ends_onBlockStart|apply ends_onBlockDelta|apply ends_onBlockStop| | |apply ends_finish].
  - unfold stepLine, stepStart. destruct (bool_decide (m <> "")); (apply maintains_bind; [first [apply ends_modAcc|apply maintains_ret]|intros _]);
      (apply maintains_bind; [apply ends_modAcc|intros _]); (apply maintains_bind; [by apply ends_sendPartial|intros _]); apply maintains_ret.
  - apply maintains_bind; [apply ends_modAcc|intros _]. apply maintains_ret.
Qed.

(** [finish] with all that it writes. *)
Lemma finish_eq model p : sp_done p = false ->
  let a := sp_acc p in let u := ac_usage a in
  let usage := mkUsage (us_Input u) (us_Output u) (us_CacheRead u) (us_CacheWrite u) (us_TotalTokens u) (CalculateCost model u) in
  Anthropic.finish now model p =
  (Ok (), mkProcessor a true (sp_store p) (sp_sent p ++ [doneEvent (messageOf a usage (now (sp_ticks p))) (orderedContent a)]) (S (sp_ticks p))).
Proof. intros Hd. unfold Anthropic.finish. rewrite M_bind_eq. unfold gets. cbn [fst snd]. rewrite Hd. reflexivity. Qed.

Lemma finish_done model p : sp_done p = true -> Anthropic.finish now model p = (Ok (), p).
Proof. intros Hd. unfold Anthropic.finish. rewrite M_bind_eq. unfold gets. cbn [fst snd]. by rewrite Hd. Qed.

(** The lines of the whole reply. *)
Lemma reply_steps model r parts blocks : streams r parts -> Forall2 (spellsBlock jsonError) parts blocks ->
  exists p ls t pre, stepAll model (replyLines r) (newSSEProcessor model 0) = (Ok (), p) /\
    sp_done p = true /\ sp_sent p = pre ++ [doneEvent (finalMessage model r [] t) ls] /\ Forall nonterminal pre /\
    omap (fun l => sp_store p !! l) ls = blocks /\ deltas (brief <$> sp_sent p) = omap lineDelta (rp_lines r).
Proof.
  intros (Hok & Hcontent & Hproj) Hparts. set (p0 := newSSEProcessor model 0).
  set (p1 := (stepLine jsonError now model (LStart (rp_id r) (rp_model r) (rp_usage r)) p0).2).
  assert (stepLine jsonError now model (LStart (rp_id r) (rp_model r) (rp_usage r)) p0 = (Ok (), p1)) as E1.
  { unfold p1, stepLine, stepStart. destruct (bool_decide (rp_model r <> "")); reflexivity. }
  assert (header p1 = (false, (mo_API model, mo_Provider model, if bool_decide (rp_model r <> "") then rp_model r else mo_ID model),
            mapUsage (rp_usage r), StopReasonStop) /\ ac_blocks (sp_acc p1) = ∅ /\ ac_toolStates (sp_acc p1) = ∅ /\
          Forall nonterminal (sp_sent p1) /\ deltas (brief <$> sp_sent p1) = []) as (Hh1 & Hb1 & Ht1 & Hn1 & Hd1).
  { unfold p1, stepLine, stepStart. destruct (bool_decide (rp_model r <> "")); (split_and!; [reflexivity..|by repeat constructor|reflexivity]). }
  assert (separate p1) as Hsep by (split; intros *; rewrite Hb1; by rewrite lookup_empty).
  assert (ends p1) as Hends by (unfold ends; injection Hh1 as -> _; done).
  destruct (stepAll_slots jsonError now model (rp_lines r) p1 (fun i => mkSlot (at_index blocks i) None) Hsep Hcontent)
    as (p2 & E2 & Hsep2 & Hview & Hh2 & Hd2).
  { intros i. rewrite Hproj. unfold view. rewrite Hb1, Ht1, !lookup_empty. unfold at_index.
    destruct (bool_decide (0 <= i)%Z); [|reflexivity].
    destruct (parts !! Z.to_nat i) as [q|] eqn:Eq.
    - destruct (Forall2_lookup_l _ _ _ _ _ Hparts Eq) as (b & -> & Hq). by apply slotRun_part.
    - rewrite (proj2 (lookup_ge_None blocks (Z.to_nat i))); [done|]. apply lookup_ge_None in Eq. by rewrite <- (Forall2_length _ _ _ Hparts). }
  assert (Forall nonterminal (sp_sent p2)) as Hn2.
  { pose proof (ends_stepAll model (rp_lines r) p1 Hends) as He. rewrite E2 in He. unfold ends in He. cbn [snd] in He.
    rewrite Hh1 in Hh2. injection Hh2 as Hdone _ _ _ _ _. by rewrite Hdone in He. }
  rewrite Hh1 in Hh2. injection Hh2 as Hdone Hapi Hprov Hmodel Husage Hstop.
  set (p3 := (stepDelta (rp_stop r) (rp_final r) p2).2).
  pose proof (finish_eq model p3 Hdone) as Efin. cbv zeta in Efin.
  eexists _, _, (now (sp_ticks p3)), (sp_sent p2). split_and!.
  - unfold replyLines. rewrite (stepAll_ok _ _ _ _ _ _ _ E1). rewrite (stepAll_app _ _ _ _ _ _ _ E2).
    rewrite (stepAll_ok _ _ _ _ _ p2 p3) by reflexivity. by rewrite (stepAll_ok jsonError now model LStop [] p3 _ Efin).
  - done.
  - cbn [sp_sent]. change (sp_sent p3) with (sp_sent p2). f_equal. f_equal. f_equal.
    unfold messageOf, finalMessage, finalUsage, p3, stepDelta. rewrite M_bind_eq. cbn. by rewrite Hapi, Hprov, Hmodel, Husage.
  - done.
  - cbn [sp_store]. apply (orderedContent_blocks p3); [by destruct Hsep2; split|]. intros i. specialize (Hview i).
    change (view p3 i) with (view p2 i). by rewrite Hview.
  - cbn [sp_sent]. rewrite fmap_app. unfold deltas at 1. rewrite filter_app. fold (deltas (brief <$> sp_sent p3)).
    change (sp_sent p3) with (sp_sent p2). rewrite Hd2, Hd1. cbn. by rewrite app_nil_r.
Qed.

(** C2: a reply arrives as it was meant.  However a server cuts the blocks of a
    message into pieces, and however it interleaves the pieces of different
    blocks and pings, from the bytes of its event stream the client delivers the
    message with exactly these blocks in the order of their indices, the tool
    arguments parsed from their whole text, the model, the stop reason and the
    token counts of the reply; and it passes on every piece of text, thinking and
    arguments, in the order in which they come. *)
Theorem stream_roundtrip endpoint model llmCtx opts thinking reqBody body status (r : reply) (parts : list part) (blocks : list ContentBlock)
    (Hbuild : buildRequest jsonError model llmCtx opts thinking = Ok reqBody) (Hjson : wireRequestJson reqBody = Some body)
    (Hserver : server (messagesRequest order endpoint model body) = Responds status (replyBody r) None) (Hstatus : (200 <= status < 300)%Z)
    (Hreply : streams r parts) (Hparts : Forall2 (spellsBlock jsonError) parts blocks)
    (Hsize : (len (replyBody r) <= defaultMaxLineBytes)%Z) :
  exists p t, streamWithThinking endpoint model llmCtx opts thinking = Some p /\
    finalResult closing (events p) = mkResult (finalMessage model r blocks t) None /\
    deltas (brief <$> sp_sent p) = omap lineDelta (rp_lines r).
Proof.
  destruct (reply_steps model r parts blocks Hreply Hparts) as (p & ls & t & pre & Hsteps & Hdone & Hsent & Hpre & Hblocks & Hdeltas).
  exists p, t. split_and!; [|unfold finalResult, events; rewrite Hsent, firstTerminal_pre by done;
    change (mkResult (withContent (sp_store p) ls (finalMessage model r [] t)) None = mkResult (finalMessage model r blocks t) None);
    unfold withContent; by rewrite Hblocks|done].
  unfold Anthropic.streamWithThinking, Anthropic.runStream. rewrite Hbuild, Hjson, Hserver, bool_decide_false by lia.
  rewrite processLoop_all; [|done|done|exact Hsize| |simpl; lia].
  - change (remaining (NewScanner (replyBody r) None) emptyAcc) with (eventsOf (replyBody r)). unfold replyBody at 1.
    rewrite eventsOf_render by (apply Forall_fmap, Forall_true; intros l; apply lineEvent_writable).
    rewrite (processAll_lines model _ _ p (proj1 Hreply) Hsteps). by rewrite finish_done.
  - etrans; [exact Hsize|]. by vm_compute.
Qed.
End Call.

(** ** A reply with three interleaved blocks *)

Module Sample.

(** A lexer that takes everything and completes nothing. *)
#[export] Instance silent : StreamingJSON := {|
  Lexer := ();
  NewLexer := ();
  AppendString := fun l _ => (None, l);
  CompleteJSON := fun _ => "";
|}.

Definition jsonError (data : string) : string := "invalid JSON".
Definition clock (n : nat) : Z := (1700000000000 + Z.of_nat n)%Z.
Definition model : Model :=
  mkModel "claude-x" "Claude" "anthropic-messages" "anthropic" true ["text"]
    (mkModelCost (float_of 3) (float_of 15) (float_of 0) (float_of 0)) true 200000 8192 ∅ None.
Definition endpoint : ProviderEndpoint := EndpointFromConfig (mkConfig " https://api.anthropic.com/ " "key" "" ["b1"; " "]).
Definition llmCtx : NativeDriver.Context := mkContext "be brief" [MUser (mkUserMessage [TextContent "hi" ""] 0)] [mkTool "read" "reads" ""].

Definition parts : list part :=
  [PartThinking ["let me"; " see"] "sig"; PartText ["I "; quoted "will 'look'"]; PartTool "t1" "read" [quoted "{'path': 'a"; quoted ".txt'}"]].
Definition blocks : list ContentBlock :=
  [ThinkingContent "let me see" "sig" false; TextContent (quoted "I will 'look'") "";
   ToolCallBlock (mkToolCall "t1" "read" {["path" := AString "a.txt"]} "")].

Definition lines : list line :=
  [LPiece 0 (PStart OpenThinking); LPiece 0 (PDelta (AddThinking "let me")); LPiece 1 (PStart OpenText); LPing;
   LPiece 1 (PDelta (AddText "I ")); LPiece 0 (PDelta (AddThinking " see")); LPiece 2 (PStart (OpenTool "t1" "read"));
   LPiece 0 (PDelta (SetSignature "sig")); LPiece 2 (PDelta (AddJson (quoted "{'path': 'a"))); LPiece 0 PStop;
   LPiece 1 (PDelta (AddText (quoted "will 'look'"))); LPiece 1 PStop; LPiece 2 (PDelta (AddJson (quoted ".txt'}"))); LPiece 2 PStop].

Definition reply : reply := mkReply "msg_1" "claude-x-2" (mkWireUsage 10 1 0 0) lines "tool_use" (mkWireUsage 0 25 0 0).
Definition server (req : httpRequest) : httpOutcome := Responds 200 (replyBody reply) None.

Lemma sample_streams : streams reply parts.
Proof.
  split; [|split; [repeat constructor|]].
  { unfold replyLines. cbn [app]. repeat first [apply Forall_nil_2|apply Forall_cons_2];
      cbn; unfold okUsage, int64, validText; split_and?; cbn; first [reflexivity|lia|exact I]. }
  intros i. unfold at_index.
  destruct (decide (i = 0)%Z) as [->|H0]; [reflexivity|]. destruct (decide (i = 1)%Z) as [->|H1]; [reflexivity|].
  destruct (decide (i = 2)%Z) as [->|H2]; [reflexivity|]. cbn. rewrite !(bool_decide_false (0 = i)%Z), !(bool_decide_false (1 = i)%Z),
    !(bool_decide_false (2 = i)%Z) by congruence. case_bool_decide as Hi; [|done].
  destruct (Z.to_nat i) as [|[|[|n]]] eqn:E; [lia..|done].
Qed.

Lemma stream_roundtrip_witness :
  exists p t, streamWithThinking jsonError "" clock map_to_list server None endpoint model llmCtx zeroStreamOptions None = Some p /\
    finalResult 0 (events p) = mkResult (finalMessage model reply blocks t) None /\
    deltas (brief <$> sp_sent p) = omap lineDelta lines.
Proof.
  eapply (stream_roundtrip jsonError "" clock map_to_list server 0 endpoint model llmCtx zeroStreamOptions None _ _ 200 reply parts blocks).
  - reflexivity.
  - vm_compute. reflexivity.
  - reflexivity.
  - lia.
  - exact sample_streams.
  - repeat constructor. exists {["path" := AString "a.txt"]}. split; [|reflexivity]. exists (Some {["path" := AString "a.txt"]}).
    split; [vm_compute|]; reflexivity.
  - vm_compute. discriminate.
Defined.
(** A tool call without arguments is sent back to the API without the member
    [input], which the API requires. *)
Example empty_arguments :
  let m := mkAssistantMessage [ToolCallBlock (mkToolCall "t1" "list" ∅ "")] "" "" "" zeroUsage StopReasonToolUse "" 0 in
  render <$> wireMessageJson (toWireMessage (MAssistant m)) =
  Some (quoted "{'role':'assistant','content':[{'type':'tool_use','id':'t1','name':'list'}]}").
Proof. vm_compute. reflexivity. Qed.

(** The content of the message in an event is not a copy: the event of the start
    of a text shows an empty block when it is sent and the whole text later. *)
Example shared_partial :
  let p := snd (stepAll jsonError clock model (take 3 lines) (newSSEProcessor model 0)) in
  let q := snd (stepAll jsonError clock model (drop 3 lines) p) in
  let content st := (fun ev => am_Content <$> ae_Partial (seen st ev)) <$> sp_sent p !! 2%nat in
  content (sp_store p) = Some (Some [ThinkingContent "let me" "" false; TextContent "" ""]) /\
  content (sp_store q) = Some (Some [ThinkingContent "let me see" "sig" false; TextContent (quoted "I will 'look'") ""]).
Proof. vm_compute. done. Qed.

(** A rate limit reaches the reader as an unknown error without a status. *)
Example rate_limit :
  (fun p => re_Err (finalResult 0 (events p))) <$>
  streamWithThinking jsonError "" clock map_to_list (fun _ => Responds 429 (quoted "{'error':{'message':'slow down'}}") None) None
    endpoint model llmCtx zeroStreamOptions None =
  Some (Some (Provider (mkProviderError ErrUnknown "slow down" 0 "anthropic" 0))).
Proof. vm_compute. reflexivity. Qed.

(** An error after the end of the message comes too late to be the result. *)
Example late_error :
  let body := (replyBody reply ++ renderEvent (Sse.mkEvent "error" (quoted "{'type':'error','error':{'message':'overloaded'}}") "" ""))%string in
  (fun p => re_Err (finalResult 0 (events p))) <$>
  streamWithThinking jsonError "" clock map_to_list (fun _ => Responds 200 body None) None endpoint model llmCtx zeroStreamOptions None =
  Some None.
Proof. vm_compute. reflexivity. Qed.

(** A reply that breaks off before any [message_stop] is taken for a whole one. *)
Example cut_off :
  let body := renderEvents (lineEvent <$> take 6 (replyLines reply)) in
  (fun p => let r := finalResult 0 (events p) in (re_Err r, am_StopReason (re_Message r), am_Content (re_Message r))) <$>
  streamWithThinking jsonError "" clock map_to_list (fun _ => Responds 200 body None) None endpoint model llmCtx zeroStreamOptions None =
  Some (None, StopReasonStop, [ThinkingContent "let me" "" false; TextContent "I " ""]).
Proof. vm_compute. reflexivity. Qed.
End Sample.
