(* ===== verification/Rpc.v ===== *)
(** * Rpc: errors across the wire, retries and versions (internal/rpc)

    - errors.go: [RPCError], [MapError], [WrapRPCError].  An error here may come
      from any package, so [rerror] has the errors of the agent
      ([AgentTypes.error]), of the sandbox service ([SandboxTypes.serror]) and of
      the storage layer ([Zfs.zerror]) as constructors.
    - transport/errors.go, client/agent_client.go: the codes of the connect
      library and back.  That library is not part of the repository: what is used
      of it is that an error it is given arrives at the other end with its code
      and its text ([wire]).
    - retry.go, transport/interceptor.go: which calls may be repeated and after
      what delay, and which API versions are served. *)

From Stdlib Require Import Ascii String SpecFloat.
From S2P Require Import Prelude GoStrings GoText GoFloat AgentTypes Zfs SandboxTypes.

Local Open Scope string_scope.
Local Open Scope list_scope.

(** ** The texts of the errors of the lower packages *)

Definition zfsSentinelText (s : zfsSentinel) : string :=
  match s with
  | InvalidName => "zfs: invalid dataset or snapshot name"
  | DatasetNotFound => "zfs: dataset does not exist"
  | DatasetExists => "zfs: dataset already exists"
  | SnapshotNotFound => "zfs: snapshot does not exist"
  | SnapshotExists => "zfs: snapshot already exists"
  | SnapshotHeld => "zfs: snapshot has holds and cannot be destroyed"
  | HasClones => "zfs: dataset has dependent clones"
  | PoolNotFound => "zfs: pool does not exist"
  | PoolFaultedErr => "zfs: pool is in faulted state"
  | Permission => "zfs: permission denied"
  | Busy => "zfs: dataset is busy"
  | PoolFull => "zfs: pool is full"
  | NoSpace => "zfs: no space left on device"
  | CommandNotFound => "zfs: zfs/zpool command not found"
  | NotFound => "zfs: object does not exist"
  | AlreadyExists => "zfs: object already exists"
  end.

Definition numErrorText (e : numError) : string :=
  match e with ErrSyntax => "invalid syntax" | ErrRange => "value out of range" end.

(** What the failed call of strconv was given, from the argument of the
    message: the callers trim it first. *)
Definition parsedInput (what input : string) : string :=
  if bool_decide (what = "ratio") then TrimSpace (TrimSuffix input "%")
  else if bool_decide (what = "estimate") then default "" (Fields input !! 1%nat)
  else TrimSpace input.

Fixpoint zfsErrorText (e : zerror) : string :=
  match e with
  | ZSentinel s => zfsSentinelText s
  | ZInvalid reason None => zfsSentinelText InvalidName +:+ ": " +:+ reason
  | ZInvalid reason (Some arg) => zfsSentinelText InvalidName +:+ ": " +:+ reason +:+ " " +:+ quote arg
  | ZJoin e1 e2 => zfsErrorText e1 +:+ String newline (zfsErrorText e2)
  | ZParse what input cause =>
      "parse " +:+ what +:+ " " +:+ quote input +:+ ": strconv." +:+
      (if bool_decide (what = "ratio") then "ParseFloat" else "ParseInt") +:+
      ": parsing " +:+ quote (parsedInput what input) +:+ ": " +:+ numErrorText cause
  | ZErrorf m | ZContext m => m
  | ZFSError op _ exitCode stderr _ =>
      if bool_decide (stderr = "") then "zfs " +:+ op +:+ " failed (exit=" +:+ pretty exitCode +:+ ")"
      else "zfs " +:+ op +:+ " failed (exit=" +:+ pretty exitCode +:+ "): " +:+ TrimSpace stderr
  end.

Definition sandboxSentinelText (s : sandboxSentinel) : string :=
  match s with
  | SessionNotFound => "sandbox: session not found"
  | SandboxTypes.SessionExists => "sandbox: session already exists"
  | SessionPausedErr => "sandbox: session is paused"
  | SessionDestroyingErr => "sandbox: session is destroying"
  | ProcessNotFound => "sandbox: process not found"
  | RollbackInProgress => "sandbox: rollback in progress"
  | InvalidState => "sandbox: invalid session state"
  | MaxSessionsReached => "sandbox: max sessions reached"
  | ToolsInFlight => "sandbox: tools in flight"
  | SnapshotsNotAvailable => "sandbox: snapshots not available (requires ZFS storage backend)"
  end.

Definition sandboxErrorText (e : serror) : string :=
  match e with
  | SSentinel s => sandboxSentinelText s
  | SWrap s detail => sandboxSentinelText s +:+ detail
  | SZfs what e => what +:+ zfsErrorText e
  | SCtx m | SMsg m => m
  end.

(** ** Errors (errors.go) *)

(** A Go string with eleven named constants; [COther] is any other string. *)
Inductive Code : Type :=
  | COther (text : string) | COK | CInvalidArgument | CNotFound | CAlreadyExists | CFailedPrecondition | CPermissionDenied
  | CResourceExhausted | CUnavailable | CDeadlineExceeded | CCanceled | CInternal.
#[export] Instance Code_eq_dec : EqDecision Code.
Proof. solve_decision. Defined.

Definition Code_string (c : Code) : string :=
  match c with
  | COther text => text
  | COK => "ok" | CInvalidArgument => "invalid_argument" | CNotFound => "not_found"
  | CAlreadyExists => "already_exists" | CFailedPrecondition => "failed_precondition"
  | CPermissionDenied => "permission_denied" | CResourceExhausted => "resource_exhausted"
  | CUnavailable => "unavailable" | CDeadlineExceeded => "deadline_exceeded" | CCanceled => "canceled"
  | CInternal => "internal"
  end.

(** The codes of the connect library that the transport uses. *)
Inductive ConnectCode : Type :=
  | ConnectCanceled | ConnectUnknown | ConnectInvalidArgument | ConnectDeadlineExceeded | ConnectNotFound
  | ConnectAlreadyExists | ConnectPermissionDenied | ConnectResourceExhausted | ConnectFailedPrecondition
  | ConnectAborted | ConnectOutOfRange | ConnectUnimplemented | ConnectInternal | ConnectUnavailable
  | ConnectDataLoss | ConnectUnauthenticated.
#[export] Instance ConnectCode_eq_dec : EqDecision ConnectCode.
Proof. solve_decision. Defined.

Definition ConnectCode_string (c : ConnectCode) : string :=
  match c with
  | ConnectCanceled => "canceled" | ConnectUnknown => "unknown" | ConnectInvalidArgument => "invalid_argument"
  | ConnectDeadlineExceeded => "deadline_exceeded" | ConnectNotFound => "not_found"
  | ConnectAlreadyExists => "already_exists" | ConnectPermissionDenied => "permission_denied"
  | ConnectResourceExhausted => "resource_exhausted" | ConnectFailedPrecondition => "failed_precondition"
  | ConnectAborted => "aborted" | ConnectOutOfRange => "out_of_range" | ConnectUnimplemented => "unimplemented"
  | ConnectInternal => "internal" | ConnectUnavailable => "unavailable" | ConnectDataLoss => "data_loss"
  | ConnectUnauthenticated => "unauthenticated"
  end.

(** [rEOF] is io.EOF; [rWrap text cause] an [Errorf] with one %w, with its full
    text; [rJoin] an errors.Join; [rText] any error of another package. *)
Inductive rerror : Type :=
  | RPCError (code : Code) (msg : string) (details : gmap string string) (cause : option rerror)
  | rAgent (e : AgentTypes.error)
  | rSandbox (e : serror)
  | rZfs (e : zerror)
  | rConnect (code : ConnectCode) (cause : rerror)
  | rWrap (text : string) (cause : rerror)
  | rJoin (errs : list rerror)
  | rEOF
  | rText (text : string).

Definition NewRPCError (code : Code) (msg : string) (cause : option rerror) : rerror := RPCError code msg ∅ cause.

(** [Error] of [RPCError]. *)
Definition RPCError_Error (code : Code) (msg : string) : string :=
  if bool_decide (msg = "") then "rpc error: " +:+ Code_string code
  else "rpc error: " +:+ Code_string code +:+ ": " +:+ msg.

Fixpoint errText (e : rerror) : string :=
  match e with
  | RPCError code msg _ _ => RPCError_Error code msg
  | rAgent e => AgentTypes.Error e
  | rSandbox e => sandboxErrorText e
  | rZfs e => zfsErrorText e
  | rConnect code cause =>
      let m := errText cause in
      if bool_decide (m = "") then ConnectCode_string code else ConnectCode_string code +:+ ": " +:+ m
  | rWrap text _ => text
  | rJoin errs => JoinByte newline (errText <$> errs)
  | rEOF => "EOF"
  | rText text => text
  end.

(** The walk of errors.Is and errors.As: the error, then what it wraps, depth
    first, to the first one [f] takes. *)
Fixpoint findErr {A} (f : rerror -> option A) (e : rerror) : option A :=
  match f e with
  | Some a => Some a
  | None =>
      match e with
      | RPCError _ _ _ (Some cause) | rConnect _ cause | rWrap _ cause => findErr f cause
      | rJoin errs => foldr (fun e r => match findErr f e with Some a => Some a | None => r end) None errs
      | _ => None
      end
  end.

(** errors.As with a [*RPCError]: what the pointer has. *)
Definition asRPC (e : rerror) : option (Code * string * gmap string string * option rerror) :=
  findErr (fun e => match e with RPCError c m d cause => Some (c, m, d, cause) | _ => None end) e.
(** errors.As with a [*connect.Error]. *)
Definition asConnect (e : rerror) : option (ConnectCode * rerror) :=
  findErr (fun e => match e with rConnect c cause => Some (c, cause) | _ => None end) e.
(** errors.As with a [*agent.ServiceError]. *)
Definition asService (e : rerror) : option (ServiceCode * string) :=
  findErr (fun e => match e with
                    | rAgent a => match errors_As_ServiceError a with
                                  | Some (ServiceError c m _) => Some (c, m)
                                  | _ => None
                                  end
                    | _ => None
                    end) e.

(** errors.Is: the sentinels of each package, and those of package context. *)
Definition isWhere (p : rerror -> bool) (e : rerror) : bool :=
  match findErr (fun e => if p e then Some () else None) e with Some _ => true | None => false end.

Definition isQueueFull : rerror -> bool :=
  isWhere (fun e => match e with
    | rAgent a => (fix go (a : AgentTypes.error) : bool := match a with
        | ErrQueueFull => true
        | ServiceError _ _ (Some c) | ErrWrap _ c => go c
        | _ => false end) a
    | _ => false end).
Definition isAgentErr (t : sentinel) : rerror -> bool :=
  isWhere (fun e => match e with rAgent a => errors_Is t a | _ => false end).
Definition isSandboxErr (s : sandboxSentinel) : rerror -> bool :=
  isWhere (fun e => match e with rSandbox x => sIs s x | _ => false end).
Definition isZfsErr (s : zfsSentinel) : rerror -> bool :=
  isWhere (fun e => match e with rZfs z | rSandbox (SZfs _ z) => zIs s z | _ => false end).

(** The context error an error of the storage layer has. *)
Fixpoint zfsContext (text : string) (e : zerror) : bool :=
  match e with
  | ZContext m => bool_decide (m = text)
  | ZJoin e1 e2 => zfsContext text e1 || zfsContext text e2
  | ZFSError _ _ _ _ e => zfsContext text e
  | _ => false
  end.
Definition isContextErr (t : sentinel) (text : string) : rerror -> bool :=
  isWhere (fun e => match e with
    | rAgent a => errors_Is t a
    | rSandbox (SCtx m) => bool_decide (m = text)
    | rSandbox (SZfs _ z) | rZfs z => zfsContext text z
    | _ => false end).
Definition isCanceled : rerror -> bool := isContextErr IsCanceled "context canceled".
Definition isDeadlineExceeded : rerror -> bool := isContextErr IsDeadlineExceeded "context deadline exceeded".
Definition isEOF : rerror -> bool := isWhere (fun e => match e with rEOF => true | _ => false end).

Definition mapServiceCode (c : ServiceCode) : Code :=
  match c with
  | CodeInvalidArgument => CInvalidArgument
  | CodeNotFound => CNotFound
  | CodeAlreadyExists => CAlreadyExists
  | CodeFailedPrecondition => CFailedPrecondition
  | CodeResourceExhausted => CResourceExhausted
  | CodeUnavailable => CUnavailable
  | CodeDeadlineExceeded => CDeadlineExceeded
  | CodeCanceled => CCanceled
  | CodeInternal => CInternal
  end.

(** The switch of [MapError]. *)
Definition sentinelCode (e : rerror) : Code :=
  if isQueueFull e then CResourceExhausted
  else if isAgentErr IsBusy e || isAgentErr IsStopped e || isAgentErr IsInvalidState e then CFailedPrecondition
  else if isSandboxErr SessionNotFound e then CNotFound
  else if isSandboxErr ProcessNotFound e then CNotFound
  else if isSandboxErr SandboxTypes.SessionExists e then CAlreadyExists
  else if isSandboxErr SessionPausedErr e || isSandboxErr SessionDestroyingErr e || isSandboxErr InvalidState e ||
          isSandboxErr RollbackInProgress e || isSandboxErr ToolsInFlight e || isSandboxErr MaxSessionsReached e
  then CFailedPrecondition
  else if isZfsErr PoolFull e then CResourceExhausted
  else if isCanceled e then CCanceled
  else if isDeadlineExceeded e then CDeadlineExceeded
  else CInternal.

Definition MapError (err : option rerror) : option rerror :=
  match err with
  | None => None
  | Some e =>
      match asRPC e with
      | Some (c, m, d, cause) => Some (RPCError c m d cause)
      | None =>
          match asService e with
          | Some (c, m) =>
              Some (NewRPCError (mapServiceCode c) (if bool_decide (m = "") then errText e else m) (Some e))
          | None => Some (NewRPCError (sentinelCode e) (errText e) (Some e))
          end
      end
  end.

(** The details are set in the object [As] found. *)
Definition WrapRPCError (err : option rerror) (sessionID toolName : string) : option rerror :=
  match err with
  | None => None
  | Some e =>
      match asRPC e with
      | Some (c, m, d, cause) =>
          let d1 := if bool_decide (sessionID = "") then d else <["session_id" := sessionID]> d in
          let d2 := if bool_decide (toolName = "") then d1 else <["tool_name" := toolName]> d1 in
          Some (RPCError c m d2 cause)
      | None =>
          Some (RPCError CInternal (errText e) (<["session_id" := sessionID]> (<["tool_name" := toolName]> ∅)) (Some e))
      end
  end.

(** ** The transport *)

Definition mapCode (c : Code) : ConnectCode :=
  match c with
  | CInvalidArgument => ConnectInvalidArgument
  | CNotFound => ConnectNotFound
  | CAlreadyExists => ConnectAlreadyExists
  | CFailedPrecondition => ConnectFailedPrecondition
  | CPermissionDenied => ConnectPermissionDenied
  | CResourceExhausted => ConnectResourceExhausted
  | CUnavailable => ConnectUnavailable
  | CDeadlineExceeded => ConnectDeadlineExceeded
  | CCanceled => ConnectCanceled
  | COther _ | COK | CInternal => ConnectInternal
  end.

Definition toConnectError (err : option rerror) : option rerror :=
  match err with
  | None => None
  | Some e =>
      match asRPC e with
      | None => Some (rConnect ConnectInternal e)
      | Some (c, _, _, _) => Some (rConnect (mapCode c) e)
      end
  end.

(** What reaches the client of an error the server returned: its code and the
    text of what it wraps. *)
Definition wire (err : option rerror) : option rerror :=
  match err with
  | Some (rConnect c cause) => Some (rConnect c (rText (errText cause)))
  | Some e => Some (rConnect ConnectUnknown (rText (errText e)))
  | None => None
  end.

Definition connectCodeToRPCCode (c : ConnectCode) : Code :=
  match c with
  | ConnectInvalidArgument => CInvalidArgument
  | ConnectNotFound => CNotFound
  | ConnectAlreadyExists => CAlreadyExists
  | ConnectFailedPrecondition => CFailedPrecondition
  | ConnectPermissionDenied => CPermissionDenied
  | ConnectResourceExhausted => CResourceExhausted
  | ConnectUnavailable => CUnavailable
  | ConnectDeadlineExceeded => CDeadlineExceeded
  | ConnectCanceled => CCanceled
  | _ => CInternal
  end.

Definition fromConnectError (err : option rerror) : option rerror :=
  match err with
  | None => None
  | Some e =>
      match asConnect e with
      | None => Some (NewRPCError CInternal (errText e) (Some e))
      | Some (c, cause) => Some (NewRPCError (connectCodeToRPCCode c) (errText cause) (Some e))
      end
  end.

(** One hop: a service's error as the client of its RPC server gets it. *)
Definition hop (err : option rerror) : option rerror := fromConnectError (wire (toConnectError (MapError err))).

(** ** Retries (retry.go) *)

Record RetryPolicy : Type := mkRetryPolicy { MaxAttempts : Z; BaseDelayMs : Z; MaxDelayMs : Z }.
Definition DefaultRetryPolicy : RetryPolicy := mkRetryPolicy 3 100 2000.

Definition IsRetryableMethod (method : string) : bool :=
  bool_decide (method ∈ ["GetSession"; "ListSnapshots"; "RollbackSession"; "DestroySession"; "ExecuteTool"]).

(** A type assertion on the error itself, not errors.As. *)
Definition IsRetryableError (err : option rerror) : bool :=
  match err with
  | Some (RPCError CUnavailable _ _ _) | Some (RPCError CDeadlineExceeded _ _ _) => true
  | _ => false
  end.

Section Backoff.
(** int(x) of a float outside the range of int: the language leaves it open. *)
Context (outOfRange : float64 -> Z).

(** math.Pow(2, float64(k)) for k >= 0. *)
Definition pow2 (k : Z) : float64 :=
  if bool_decide (1024 <= k)%Z then S754_infinity false else binary_normalize 53 1024 1 k false.

Definition float_int (x : float64) : Z :=
  match x with
  | S754_zero _ => 0
  | S754_finite s m e =>
      let a := (if bool_decide (0 <= e) then Zpos m * 2 ^ e else Zpos m / 2 ^ (- e))%Z in
      let n := if s then (- a)%Z else a in
      if bool_decide (int64 n) then n else outOfRange x
  | _ => outOfRange x
  end.

Definition BackoffDelayMs (policy : RetryPolicy) (attempt : Z) : Z :=
  let attempt := if bool_decide (attempt <= 0)%Z then 1%Z else attempt in
  let base := if bool_decide (BaseDelayMs policy <= 0)%Z then 100%Z else BaseDelayMs policy in
  let max := if bool_decide (MaxDelayMs policy <= 0)%Z then 2000%Z else MaxDelayMs policy in
  let delay := float_int (fmul (float_of base) (pow2 (attempt - 1))) in
  if bool_decide (delay > max)%Z then max else delay.
End Backoff.

(** ** API versions (observability.go, transport/interceptor.go) *)

Definition apiVersionHeader : string := "x-api-version".
Definition minSupportedAPIVersion : string := "v1".

(** The number strconv.Atoi returns, whatever the error. *)
Definition Atoi (s : string) : Z :=
  match ParseInt s with
  | Ok n => n
  | Err ErrSyntax => 0
  | Err ErrRange => if HasPrefix s "-" then - 2 ^ 63 else 2 ^ 63 - 1
  end.

Definition versionNumber (v : string) : Z := Atoi (TrimPrefix (TrimSpace v) "v").
Definition versionLessThan (a b : string) : bool := bool_decide (versionNumber a < versionNumber b)%Z.

(** [InterceptorConfig]; headers are what [Get] answers for a name. *)
Record InterceptorConfig : Type := mkInterceptorConfig {
  AuthHook : option (string -> (string -> string) -> option rerror);
  APIVersion : string; MinAPIVersion : string; APIVersionName : string;
}.
Definition NewPolicyInterceptor (cfg : InterceptorConfig) : InterceptorConfig :=
  mkInterceptorConfig (AuthHook cfg)
    (if bool_decide (APIVersion cfg = "") then "v1" else APIVersion cfg)
    (if bool_decide (MinAPIVersion cfg = "") then minSupportedAPIVersion else MinAPIVersion cfg)
    (if bool_decide (APIVersionName cfg = "") then apiVersionHeader else APIVersionName cfg).

Definition validate (i : InterceptorConfig) (procedure : string) (headers : string -> string) : option rerror :=
  match (match AuthHook i with Some hook => hook procedure headers | None => None end) with
  | Some err => Some (rConnect ConnectUnauthenticated err)
  | None =>
      let got := TrimSpace (headers (APIVersionName i)) in
      let got := if bool_decide (got = "") then "v1" else got in
      if versionLessThan got (MinAPIVersion i)
      then Some (rConnect ConnectFailedPrecondition
             (rText ("unsupported API version: got " +:+ got +:+ ", minimum " +:+ MinAPIVersion i)))
      else None
  end.

(** [WrapUnary]: what the handler is asked, and the response's headers; the
    refused request does not reach it. *)
Definition WrapUnary {A} (i : InterceptorConfig) (next : () -> res rerror A) (procedure : string)
    (headers : string -> string) : res rerror (A * (string * string)) :=
  match validate i procedure headers with
  | Some err => Err err
  | None => match next () with
            | Err e => Err e
            | Ok r => Ok (r, (APIVersionName i, APIVersion i))
            end
  end.

(** ** Properties of errors *)

(** The code of an error for the wire. *)
Definition errCode (e : rerror) : Code :=
  match asRPC e with
  | Some (c, _, _, _) => c
  | None => match asService e with Some (c, _) => mapServiceCode c | None => sentinelCode e end
  end.

Lemma MapError_code e : exists m d cause, MapError (Some e) = Some (RPCError (errCode e) m d cause).
Proof.
  unfold MapError, errCode. destruct (asRPC e) as [[[[c m] d] cause]|]; [by eexists _, _, _|].
  destruct (asService e) as [[c m]|]; by eexists _, _, _.
Qed.

Lemma asRPC_RPCError c m d cause : asRPC (RPCError c m d cause) = Some (c, m, d, cause).
Proof. done. Qed.

Lemma MapError_idem e : MapError (MapError e) = MapError e.
Proof. destruct e as [e|]; [|done]. by destruct (MapError_code e) as (m & d & cause & ->). Qed.

(** What a code becomes on its way. *)
Definition wireCode (c : Code) : Code := match c with COther _ | COK => CInternal | _ => c end.

Lemma connect_roundtrip c : connectCodeToRPCCode (mapCode c) = wireCode c.
Proof. by destruct c. Qed.

Lemma hop_eq e : exists m d cause, MapError (Some e) = Some (RPCError (errCode e) m d cause) /\
  hop (Some e) = Some (NewRPCError (wireCode (errCode e)) (RPCError_Error (errCode e) m)
                   (Some (rConnect (mapCode (errCode e)) (rText (RPCError_Error (errCode e) m))))).
Proof.
  destruct (MapError_code e) as (m & d & cause & He). exists m, d, cause. split; [done|].
  unfold hop. rewrite He. simpl. by rewrite connect_roundtrip.
Qed.

(** The text after [n] hops: each puts the code before it. *)
Fixpoint hopMessage (n : nat) (c : Code) (m : string) : string :=
  match n with O => m | S n => hopMessage n (wireCode c) (RPCError_Error c m) end.

Lemma hops_law (n : nat) c m d cause : n <> 0%nat ->
  exists cause', Nat.iter n hop (Some (RPCError c m d cause)) =
    Some (NewRPCError (wireCode c) (hopMessage n c m) (Some cause')).
Proof.
  revert c m d cause. induction n as [|n IH]; [done|]. intros c m d cause _.
  rewrite Nat.iter_succ_r.
  assert (hop (Some (RPCError c m d cause)) = Some (NewRPCError (wireCode c) (RPCError_Error c m)
            (Some (rConnect (mapCode c) (rText (RPCError_Error c m)))))) as ->.
  { unfold hop. simpl. by rewrite connect_roundtrip. }
  destruct n as [|n]; [by eexists|].
  destruct (IH (wireCode c) (RPCError_Error c m) ∅
             (Some (rConnect (mapCode c) (rText (RPCError_Error c m))))) as (cause' & H); [done|].
  exists cause'. etransitivity; [exact H|]. assert (wireCode (wireCode c) = wireCode c) as -> by (by destruct c). done.
Qed.

(** C37: an error keeps its code over any number of RPC hops (an agent process
    behind an orchestrator is two).  The code is the one [MapError] gives, a
    service error's is its own, whatever wraps it, and only "ok" and
    strings that are none of the named codes are not preserved; so the client may retry exactly when the service's error was
    [unavailable] or [deadline_exceeded]. *)
Theorem hops_code (n : nat) (e : rerror) (Hn : n <> 0%nat) :
  (exists m cause, Nat.iter n hop (Some e) = Some (NewRPCError (wireCode (errCode e)) m cause)) /\
  (forall c m, asRPC e = None -> asService e = Some (c, m) ->
     Code_string (wireCode (errCode e)) = ServiceCode_string c) /\
  IsRetryableError (Nat.iter n hop (Some e)) = bool_decide (errCode e ∈ [CUnavailable; CDeadlineExceeded]).
Proof.
  assert (exists m cause, Nat.iter n hop (Some e) = Some (NewRPCError (wireCode (errCode e)) m cause)) as H.
  { destruct n as [|n]; [done|]. rewrite Nat.iter_succ_r.
    destruct (hop_eq e) as (m & d & cause & _ & ->).
    destruct n as [|n]; [by eexists _, _|].
    destruct (hops_law (S n) (wireCode (errCode e)) (RPCError_Error (errCode e) m) ∅
      (Some (rConnect (mapCode (errCode e)) (rText (RPCError_Error (errCode e) m))))) as (cause' & H); [done|].
    assert (wireCode (wireCode (errCode e)) = wireCode (errCode e)) as Hw by (by destruct (errCode e)).
    rewrite Hw in H. eexists _, _. exact H. }
  split_and!.
  - done.
  - intros c m H1 H2. unfold errCode. rewrite H1, H2. by destruct c.
  - destruct H as (m & cause & ->). by destruct (errCode e).
Qed.

Lemma hops_code_witness :
  2%nat <> 0%nat /\
  IsRetryableError (Nat.iter 2 hop (Some (rAgent (ServiceError CodeUnavailable "service is closing" None)))) = true.
Proof.
  split; [done|].
  rewrite (proj2 (proj2 (hops_code 2 (rAgent (ServiceError CodeUnavailable "service is closing" None)) ltac:(done)))).
  vm_compute. reflexivity.
Defined.

Example hops_text :
  errText <$> Nat.iter 2 hop (Some (rSandbox (SWrap SessionNotFound ": s1"))) =
  Some "rpc error: not_found: rpc error: not_found: rpc error: not_found: sandbox: session not found: s1".
Proof. vm_compute. reflexivity. Qed.

(** What the sandbox service's errors become. *)
Definition sandboxCode (s : sandboxSentinel) : Code :=
  match s with
  | SessionNotFound | ProcessNotFound => CNotFound
  | SandboxTypes.SessionExists => CAlreadyExists
  | SnapshotsNotAvailable => CInternal
  | _ => CFailedPrecondition
  end.

Lemma sandbox_errCode s d :
  errCode (rSandbox (SSentinel s)) = sandboxCode s /\ errCode (rSandbox (SWrap s d)) = sandboxCode s.
Proof. by destruct s. Qed.

(** ** Retries and versions *)

Lemma default_backoff_small (f : float64 -> Z) (attempt : Z) : (1 <= attempt <= 57)%Z ->
  BackoffDelayMs f DefaultRetryPolicy attempt = Z.min (100 * 2 ^ (attempt - 1)) 2000.
Proof.
  intros H.
  assert (Forall (fun a => BackoffDelayMs f DefaultRetryPolicy a = Z.min (100 * 2 ^ (a - 1)) 2000) (seqZ 1 57)) as HF.
  { simpl. repeat constructor; vm_compute; reflexivity. }
  rewrite Forall_forall in HF. apply HF, elem_of_seqZ. lia.
Qed.

(** The delay before a retry doubles from 100 ms up to 2 s and stays
    there, for every attempt up to the 57th; from the 58th on the product no
    longer fits an [int] and the delay is what the platform makes of the
    conversion: where that is a negative number, so is the delay. *)
Theorem default_backoff (f : float64 -> Z) :
  (forall attempt, (attempt <= 57)%Z ->
     BackoffDelayMs f DefaultRetryPolicy attempt = Z.min (100 * 2 ^ (Z.max attempt 1 - 1)) 2000) /\
  (f (fmul (float_of 100) (pow2 57)) < 0 -> BackoffDelayMs f DefaultRetryPolicy 58 < 0)%Z.
Proof.
  split.
  - intros attempt H. destruct (decide (attempt <= 0)%Z) as [Hn|Hn].
    + transitivity (BackoffDelayMs f DefaultRetryPolicy 1).
      { unfold BackoffDelayMs. by rewrite (bool_decide_true (attempt <= 0)%Z), (bool_decide_false (1 <= 0)%Z) by lia. }
      rewrite default_backoff_small by lia. by replace (Z.max attempt 1) with 1%Z by lia.
    + rewrite default_backoff_small by lia. by replace (Z.max attempt 1) with attempt by lia.
  - intros H. unfold BackoffDelayMs.
    rewrite (bool_decide_false (58 <= 0)%Z) by lia. simpl BaseDelayMs. simpl MaxDelayMs.
    rewrite (bool_decide_false (100 <= 0)%Z), (bool_decide_false (2000 <= 0)%Z) by lia.
    assert (float_int f (fmul (float_of 100) (pow2 (58 - 1))) = f (fmul (float_of 100) (pow2 57))) as ->
      by (vm_compute; reflexivity).
    rewrite bool_decide_false by lia. done.
Qed.

Lemma validate_version cfg procedure headers : AuthHook cfg = None ->
  validate (NewPolicyInterceptor cfg) procedure headers = None <->
  let got := TrimSpace (headers (APIVersionName (NewPolicyInterceptor cfg))) in
  (versionNumber (MinAPIVersion (NewPolicyInterceptor cfg)) <=
   versionNumber (if bool_decide (got = "") then "v1" else got))%Z.
Proof.
  intros Hn. unfold validate. replace (AuthHook (NewPolicyInterceptor cfg)) with (AuthHook cfg) by done.
  rewrite Hn. unfold versionLessThan. cbv zeta. case_bool_decide as H; split; try done; try lia; intros; lia.
Qed.

Example versions :
  let i := NewPolicyInterceptor (mkInterceptorConfig None "" "" "") in
  (fun v => match validate i "/p" (fun _ => v) with None => true | Some _ => false end) <$>
    [""; "v1"; " v2 "; "3"; "v0"; "beta"; "v-1"; "v99999999999999999999"] =
  [true; true; true; true; false; false; false; true].
Proof. vm_compute. reflexivity. Qed.
