(* ===== verification/Orchestrator.v ===== *)
(** * Orchestrator: sessions placed on sandboxes (internal/orchestrator)

    The orchestrator is an [AgentService] whose sessions live elsewhere: it
    creates a sandbox, starts or finds an agent service for it, and forwards the
    requests with the session's id there.

    Sandbox controls and agent services are reached through interfaces; what
    they answer is [Env]: a function, for each of their methods, of all the
    calls made so far and of the arguments, so every behaviour of theirs is one
    [Env].  The calls made are kept, with their answers, in [history].  Entries
    are shared by pointer between requests and the health loop: [entries] is
    their store and [sessions] the table.  An entry is private to its creator
    until [addSession] publishes it, and enters the store then. *)

From Stdlib Require Import Ascii String.
From S2P Require Import Prelude GoStrings GoText AiTypes AgentTypes AgentService FleetTypes Rpc.

Local Open Scope string_scope.
Local Open Scope list_scope.
Local Open Scope stdpp_scope.

(** ** Configuration (config.go) *)

Definition defaultCreateTimeout : Z := 3 * Minute.
Definition defaultShutdownTimeout : Z := 30 * Second.
Definition defaultHealthInterval : Z := 15 * Second.
Definition defaultAgentBinary : string := "flexagent".
Definition defaultAgentPort : Z := 8081.

(** A [PlacementMode] is a Go string. *)
Definition PlacementMode : Type := string.
Definition PlacementAgentDirect : PlacementMode := "agent-direct".
Definition PlacementAgentSandbox : PlacementMode := "agent-sandbox".
Definition PlacementToolsSandbox : PlacementMode := "tools-sandbox".

(** The two sandbox controls of the configuration, and an agent service: the
    configured one, or one the factory made. *)
Inductive backend : Type := Direct | Node.
#[export] Instance backend_eq_dec : EqDecision backend.
Proof. solve_decision. Defined.
Inductive service_ref : Type := LoopService | RemoteService (client : Z).
#[export] Instance service_ref_eq_dec : EqDecision service_ref.
Proof. solve_decision. Defined.

(** [OrchestratorConfig]: a backend is configured or not, and may have a
    [Close] method. *)
Record OrchestratorConfig : Type := mkOrchestratorConfig {
  hasDirectControl : bool; hasNodeControl : bool; hasAgentLoopService : bool;
  closesDirect : bool; closesNode : bool;
  SandboxHostAddrs : list string;
  MaxSessions : Z; HealthInterval : Z; CreateTimeout : Z; ShutdownTimeout : Z;
  AgentBinary : string; AgentPort : Z; AgentArgs : list string; AgentEnv : gmap string string;
}.

Definition normalize (c : OrchestratorConfig) : res rerror OrchestratorConfig :=
  if bool_decide (MaxSessions c < 0)%Z then Err (rText "max sessions must be >= 0")
  else if bool_decide (HealthInterval c < 0)%Z then Err (rText "health interval must be >= 0")
  else if negb (hasDirectControl c || hasNodeControl c || hasAgentLoopService c)
  then Err (rText "at least one placement backend must be configured")
  else Ok (mkOrchestratorConfig (hasDirectControl c) (hasNodeControl c) (hasAgentLoopService c)
    (closesDirect c) (closesNode c) (SandboxHostAddrs c) (MaxSessions c)
    (if bool_decide (HealthInterval c = 0)%Z then defaultHealthInterval else HealthInterval c)
    (if bool_decide (CreateTimeout c <= 0)%Z then defaultCreateTimeout else CreateTimeout c)
    (if bool_decide (ShutdownTimeout c <= 0)%Z then defaultShutdownTimeout else ShutdownTimeout c)
    (if bool_decide (TrimSpace (AgentBinary c) = "") then defaultAgentBinary else AgentBinary c)
    (if bool_decide (AgentPort c <= 0)%Z then defaultAgentPort else AgentPort c)
    (AgentArgs c) (AgentEnv c)).

Definition rpcErr (c : Code) (msg : string) : rerror := NewRPCError c msg None.

Definition placementFromMetadata (metadata : gmap string any) : res rerror PlacementMode :=
  if bool_decide (metadata = ∅) then Ok PlacementToolsSandbox
  else match metadata !! "placement_mode" with
  | None | Some ANil => Ok PlacementToolsSandbox
  | Some (AString mode) =>
      let placement := TrimSpace mode in
      if bool_decide (placement ∈ [PlacementAgentDirect; PlacementAgentSandbox; PlacementToolsSandbox])
      then Ok placement
      else Err (rpcErr CInvalidArgument ("unsupported placement_mode " +:+ quote mode))
  | Some _ => Err (rpcErr CInvalidArgument "session metadata placement_mode must be a string")
  end.

Definition cloneStringMap (m : gmap string string) : gmap string string := m.

Definition metadataStringLabels (metadata : gmap string any) : gmap string string :=
  omap (fun v => match v with AString s => Some s | _ => None end) metadata.

(** errors.Join of the errors that are not nil. *)
Definition joinErrs (errs : list (option rerror)) : option rerror :=
  match omap id errs with [] => None | l => Some (rJoin l) end.

(** ** Entries (session.go) *)

Inductive sessionState : Type := sessionCreating | sessionActive | sessionPaused | sessionUnhealthy | sessionDestroyed.
#[export] Instance sessionState_eq_dec : EqDecision sessionState.
Proof. solve_decision. Defined.
Definition sessionState_string (s : sessionState) : string :=
  match s with
  | sessionCreating => "creating" | sessionActive => "active" | sessionPaused => "paused"
  | sessionUnhealthy => "unhealthy" | sessionDestroyed => "destroyed"
  end.

Record sessionEntry : Type := mkSessionEntry {
  e_sessionID : string;
  e_remoteSessionID : string;
  e_placement : PlacementMode;
  e_sandboxID : string;
  e_toolSessionID : string;
  e_agentAddress : string;
  e_processID : string;
  e_sandboxControl : option backend;
  e_sandboxHostAddr : string;
  e_agentService : option service_ref;
  e_state : sessionState;
  e_createdAt : Z;
  e_lastHealth : Z;
  e_healthFailures : Z;
  e_healthErr : option rerror;
}.

(** Assignments to some of an entry's fields. *)
Definition set_state (st : sessionState) (e : sessionEntry) : sessionEntry :=
  mkSessionEntry (e_sessionID e) (e_remoteSessionID e) (e_placement e) (e_sandboxID e) (e_toolSessionID e)
    (e_agentAddress e) (e_processID e) (e_sandboxControl e) (e_sandboxHostAddr e) (e_agentService e) st
    (e_createdAt e) (e_lastHealth e) (e_healthFailures e) (e_healthErr e).
Definition set_health (st : sessionState) (lastHealth failures : Z) (err : option rerror) (e : sessionEntry) : sessionEntry :=
  mkSessionEntry (e_sessionID e) (e_remoteSessionID e) (e_placement e) (e_sandboxID e) (e_toolSessionID e)
    (e_agentAddress e) (e_processID e) (e_sandboxControl e) (e_sandboxHostAddr e) (e_agentService e) st
    (e_createdAt e) lastHealth failures err.
Definition set_agent (address processID : string) (s : service_ref) (e : sessionEntry) : sessionEntry :=
  mkSessionEntry (e_sessionID e) (e_remoteSessionID e) (e_placement e) (e_sandboxID e) (e_toolSessionID e)
    address processID (e_sandboxControl e) (e_sandboxHostAddr e) (Some s) (e_state e)
    (e_createdAt e) (e_lastHealth e) (e_healthFailures e) (e_healthErr e).

(** ** Calls of the backends *)

(** The context of a call: the creation's, which ends after [CreateTimeout] or
    with the orchestrator; a client's request's; one of its own. *)
Inductive ctx : Type := CreateCtx | RequestCtx | StepCtx.

Record CreateAgentSessionResponse : Type := mkCreateAgentSessionResponse { cs_SessionID : string; cs_State : string }.
Record ResumeSessionResponse : Type := mkResumeSessionResponse {
  rq_SessionID : string; rq_State : string; rq_ConversationLen : Z; rq_Warnings : list string;
}.

(** The methods that are forwarded: those that open a stream and those that
    answer nothing. *)
Inductive streamRequest : Type := SendMessageReq (message : string) | ContinueReq | SubscribeReq.
Inductive controlRequest : Type := SteerReq (message : string) | FollowUpReq (message : string) | AbortReq (reason : string).

Inductive call : Type :=
  | CCreateSandbox (c : ctx) (b : backend) (req : CreateSandboxRequest) (r : res rerror CreateSandboxResponse)
  | CDestroySandbox (c : ctx) (b : backend) (sandboxID : string) (r : option rerror)
  | CLaunchProcess (c : ctx) (b : backend) (req : LaunchProcessRequest) (r : res rerror LaunchProcessResponse)
  | CKillProcess (c : ctx) (b : backend) (req : KillProcessRequest) (r : option rerror)
  | CGetProcessStatus (b : backend) (req : GetProcessStatusRequest) (r : res rerror (option GetProcessStatusResponse))
  | CPauseSandbox (b : backend) (sandboxID : string) (r : option rerror)
  | CResumeSandbox (b : backend) (sandboxID : string) (r : option rerror)
  | CCloseControl (b : backend) (r : option rerror)
  | CFactory (address : string) (r : res rerror service_ref)
  | CCreateSession (c : ctx) (s : service_ref) (cfg : SessionConfig) (r : res rerror CreateAgentSessionResponse)
  | CGetSession (s : service_ref) (id : string) (r : res rerror (option GetSessionResponse))
  | CStream (s : service_ref) (q : streamRequest) (id : string) (r : res rerror Z)
  | CControl (s : service_ref) (q : controlRequest) (id : string) (r : option rerror)
  | CResumeSession (s : service_ref) (req : ResumeSessionRequest) (r : res rerror (option ResumeSessionResponse))
  | CDestroySession (c : ctx) (s : service_ref) (id : string) (r : option rerror)
  | CCloseService (s : service_ref) (r : option rerror)
  | CRecv (receiver : Z) (r : res rerror (option AgentEvent))
  | CHealth (address : string) (r : option rerror).
Notation history_of := (list call).

Record Env : Type := mkEnv {
  env_Now : history_of -> Z;
  env_CreateSandbox : history_of -> backend -> CreateSandboxRequest -> res rerror CreateSandboxResponse;
  env_DestroySandbox : history_of -> backend -> string -> option rerror;
  env_LaunchProcess : history_of -> backend -> LaunchProcessRequest -> res rerror LaunchProcessResponse;
  env_KillProcess : history_of -> backend -> KillProcessRequest -> option rerror;
  env_GetProcessStatus : history_of -> backend -> GetProcessStatusRequest -> res rerror (option GetProcessStatusResponse);
  env_PauseSandbox : history_of -> backend -> string -> option rerror;
  env_ResumeSandbox : history_of -> backend -> string -> option rerror;
  env_Capabilities : history_of -> backend -> SandboxCapabilities;
  env_CloseControl : history_of -> backend -> option rerror;
  env_Factory : history_of -> string -> res rerror service_ref;
  env_CreateSession : history_of -> service_ref -> SessionConfig -> res rerror CreateAgentSessionResponse;
  env_GetSession : history_of -> service_ref -> string -> res rerror (option GetSessionResponse);
  env_Stream : history_of -> service_ref -> streamRequest -> string -> res rerror Z;
  env_Control : history_of -> service_ref -> controlRequest -> string -> option rerror;
  env_ResumeSession : history_of -> service_ref -> ResumeSessionRequest -> res rerror (option ResumeSessionResponse);
  env_DestroySession : history_of -> service_ref -> string -> option rerror;
  env_CloseService : history_of -> service_ref -> option rerror;
  env_Recv : history_of -> Z -> res rerror (option AgentEvent);
  (** The probe of [checkHTTPHealth] (health.go). *)
  env_Health : history_of -> string -> option rerror;
}.

(** ** State (orchestrator.go) *)

Record Orchestrator : Type := mkOrchestrator {
  o_sessions : gmap string nat;
  o_entries : gmap nat sessionEntry;
  o_closing : bool;
  o_counter : Z;
  o_history : history_of;
}.
Notation OM := (M Orchestrator).

Definition set_sessions (m : gmap string nat) (o : Orchestrator) : Orchestrator :=
  mkOrchestrator m (o_entries o) (o_closing o) (o_counter o) (o_history o).
Definition set_entries (m : gmap nat sessionEntry) (o : Orchestrator) : Orchestrator :=
  mkOrchestrator (o_sessions o) m (o_closing o) (o_counter o) (o_history o).
Definition set_closing (b : bool) (o : Orchestrator) : Orchestrator :=
  mkOrchestrator (o_sessions o) (o_entries o) b (o_counter o) (o_history o).
Definition set_counter (n : Z) (o : Orchestrator) : Orchestrator :=
  mkOrchestrator (o_sessions o) (o_entries o) (o_closing o) n (o_history o).
Definition record (c : call) (o : Orchestrator) : Orchestrator :=
  mkOrchestrator (o_sessions o) (o_entries o) (o_closing o) (o_counter o) (o_history o ++ [c]).

Definition empty_orchestrator : Orchestrator := mkOrchestrator ∅ ∅ false 0 [].

(** The session's time, then its id. *)
Definition entryBefore (a b : nat * sessionEntry) : Prop :=
  (e_createdAt a.2 < e_createdAt b.2)%Z \/
  (e_createdAt a.2 = e_createdAt b.2 /\ String.le (e_sessionID a.2) (e_sessionID b.2)).
#[export] Instance entryBefore_dec a b : Decision (entryBefore a b).
Proof. unfold entryBefore. apply _. Defined.

Definition isFleetSandboxID (sandboxID : string) : bool := HasPrefix sandboxID sandboxIDPrefix.

Definition extractHostLocalSessionID (sandboxID : string) : string :=
  if negb (isFleetSandboxID sandboxID) then sandboxID
  else match ParseSandboxID sandboxID with
       | Err _ => sandboxID
       | Ok (_, sessionID) => sessionID
       end.

Definition sessionUnavailableError (sessionID : string) (healthErr : option rerror) : rerror :=
  let message := "session " +:+ quote sessionID +:+ " is unhealthy" in
  rpcErr CUnavailable (match healthErr with Some e => message +:+ ": " +:+ errText e | None => message end).

Definition set_ToolEnvironment (te : ToolEnvironmentConfig) (c : SessionConfig) : SessionConfig :=
  mkSessionConfig (sc_SessionID c) (sc_Driver c) (sc_Model c) (sc_Provider c) (sc_SystemPrompt c) (sc_Tools c)
    (sc_Metadata c) te.

(** [newSessionIDRewritingReceiver]: the backend's receiver and the id its
    events get. *)
Record sessionIDRewritingReceiver : Type := mkRewritingReceiver { inner : Z; clientSessionID : string }.

Section Operations.
Context (env : Env).
Context (unicodeToLower : string -> string).
Context (config : OrchestratorConfig).

(** A call: its answer, which is kept. *)
Definition ask {A} (answer : history_of -> A) (event : A -> call) : OM A :=
  fun o => let a := answer (o_history o) in (a, record (event a) o).

Definition now : OM Z := gets (fun o => env_Now env (o_history o)).
Definition createSandbox (c : ctx) (b : backend) (req : CreateSandboxRequest) : OM (res rerror CreateSandboxResponse) :=
  ask (fun h => env_CreateSandbox env h b req) (CCreateSandbox c b req).
Definition destroySandbox (c : ctx) (b : backend) (id : string) : OM (option rerror) :=
  ask (fun h => env_DestroySandbox env h b id) (CDestroySandbox c b id).
Definition launchProcess (c : ctx) (b : backend) (req : LaunchProcessRequest) : OM (res rerror LaunchProcessResponse) :=
  ask (fun h => env_LaunchProcess env h b req) (CLaunchProcess c b req).
Definition killProcess (c : ctx) (b : backend) (sandboxID processID : string) : OM (option rerror) :=
  let req := mkKillProcessRequest sandboxID processID 0 in
  ask (fun h => env_KillProcess env h b req) (CKillProcess c b req).
Definition factory (address : string) : OM (res rerror service_ref) :=
  ask (fun h => env_Factory env h address) (CFactory address).
Definition svcCreateSession (c : ctx) (s : service_ref) (cfg : SessionConfig) : OM (res rerror CreateAgentSessionResponse) :=
  ask (fun h => env_CreateSession env h s cfg) (CCreateSession c s cfg).
Definition svcDestroySession (c : ctx) (s : service_ref) (id : string) : OM (option rerror) :=
  ask (fun h => env_DestroySession env h s id) (CDestroySession c s id).
Definition svcClose (s : service_ref) : OM (option rerror) :=
  ask (fun h => env_CloseService env h s) (CCloseService s).
Definition svcControl (s : service_ref) (q : controlRequest) (id : string) : OM (option rerror) :=
  ask (fun h => env_Control env h s q id) (CControl s q id).

(** ** The table (session.go) *)

Definition generateSessionID : OM string := fun o =>
  let n := u64 (o_counter o + 1) in ("orch-" +:+ hex08 n, set_counter n o).

Definition shuttingDown : rerror := rpcErr CUnavailable "orchestrator is shutting down".

Definition addSession (entry : sessionEntry) : OM (option rerror) := fun o =>
  if o_closing o then (Some shuttingDown, o)
  else if bool_decide (MaxSessions config > 0)%Z && bool_decide (Z.of_nat (size (o_sessions o)) >= MaxSessions config)%Z
  then (Some (rpcErr CResourceExhausted "max sessions reached"), o)
  else match o_sessions o !! e_sessionID entry with
  | Some _ => (Some (rpcErr CAlreadyExists ("session " +:+ quote (e_sessionID entry) +:+ " already exists")), o)
  | None =>
      let i := fresh (dom (o_entries o)) in
      (None, set_sessions (<[e_sessionID entry := i]> (o_sessions o)) (set_entries (<[i := entry]> (o_entries o)) o))
  end.

(** An entry with its identity; every id of the table has one. *)
Definition getSessionEntry (sessionID : string) : OM (res rerror (nat * sessionEntry)) :=
  gets (fun o =>
    match o_sessions o !! sessionID ≫= (fun i => pair i <$> o_entries o !! i) with
    | Some p => Ok p
    | None => Err (rpcErr CNotFound ("session " +:+ quote sessionID +:+ " not found"))
    end).

Definition removeSessionEntry (sessionID : string) : OM () :=
  modify (fun o => set_sessions (delete sessionID (o_sessions o)) o).

Definition listSessionEntries : OM (list (nat * sessionEntry)) :=
  gets (fun o => merge_sort entryBefore
    (omap (fun '(_, i) => pair i <$> o_entries o !! i) (map_to_list (o_sessions o)))).

Definition updateEntry (i : nat) (f : sessionEntry -> sessionEntry) : OM () :=
  modify (fun o => set_entries (alter f i (o_entries o)) o).

(** ** Creation (proxy.go) *)

Definition beginOperation : OM (option rerror) :=
  gets (fun o => if o_closing o then Some shuttingDown else None).

Definition validatePlacement (placement : PlacementMode) : option rerror :=
  if bool_decide (placement = PlacementAgentDirect) then
    if hasDirectControl config then None
    else Some (rpcErr CUnavailable "placement mode agent-direct is not configured")
  else if bool_decide (placement = PlacementAgentSandbox) then
    if hasNodeControl config then None
    else Some (rpcErr CUnavailable "placement mode agent-sandbox is not configured")
  else if bool_decide (placement = PlacementToolsSandbox) then
    if hasAgentLoopService config && hasNodeControl config then None
    else Some (rpcErr CUnavailable "placement mode tools-sandbox is not configured")
  else Some (rpcErr CInvalidArgument ("unsupported placement mode " +:+ quote placement)).

Definition agentLaunchArgs : list string :=
  match AgentArgs config with
  | [] => ["serve"; "agent"; "--listen"; ":" +:+ pretty (AgentPort config)]
  | args => args
  end.

Definition launchRequest (sandboxID : string) : LaunchProcessRequest :=
  mkLaunchProcessRequest sandboxID (AgentBinary config) agentLaunchArgs (cloneStringMap (AgentEnv config)) (AgentPort config).

Definition createRequest (cfg : SessionConfig) : CreateSandboxRequest :=
  mkCreateSandboxRequest (metadataStringLabels (sc_Metadata cfg)) "" (mkResourceSpec (SpecFloat.S754_zero false) 0).

(** The id the backend gave the session, or the one it was asked for. *)
Definition remoteID (resp : CreateAgentSessionResponse) (cfg : SessionConfig) : string :=
  if bool_decide (TrimSpace (cs_SessionID resp) = "") then sc_SessionID cfg else cs_SessionID resp.

(** What a creation has made once its backend session exists: the entry to
    publish and the answer of the backend. *)
Notation provisioned := (sessionEntry * CreateAgentSessionResponse)%type.

(** [createRemoteAgentSession] up to [addSession]. *)
Definition provisionRemote (entry : sessionEntry) (cfg : SessionConfig) (sc : backend) : OM (res rerror provisioned) :=
  sandbox ← createSandbox CreateCtx sc (createRequest cfg);
  match sandbox with
  | Err err => mret (Err err)
  | Ok sandboxResp =>
      let sandboxID := rs_SandboxID sandboxResp in
      launch ← launchProcess CreateCtx sc (launchRequest sandboxID);
      match launch with
      | Err err =>
          cleanup ← destroySandbox CreateCtx sc sandboxID;
          mret (Err (rJoin (err :: option_list cleanup)))
      | Ok launchResp =>
          agent ← factory (lr_Address launchResp);
          match agent with
          | Err err =>
              killed ← killProcess CreateCtx sc sandboxID (lr_ProcessID launchResp);
              destroyed ← destroySandbox CreateCtx sc sandboxID;
              mret (Err (rJoin (err :: option_list (joinErrs [killed; destroyed]))))
          | Ok agentService =>
              create ← svcCreateSession CreateCtx agentService cfg;
              match create with
              | Err err =>
                  d ← svcDestroySession CreateCtx agentService (sc_SessionID cfg);
                  c ← svcClose agentService;
                  killed ← killProcess CreateCtx sc sandboxID (lr_ProcessID launchResp);
                  destroyed ← destroySandbox CreateCtx sc sandboxID;
                  mret (Err (rJoin (err :: option_list (joinErrs [d; c; killed; destroyed]))))
              | Ok createResp =>
                  t ← now;
                  mret (Ok (mkSessionEntry (e_sessionID entry) (remoteID createResp cfg) (e_placement entry) sandboxID
                              (e_toolSessionID entry) (lr_Address launchResp) (lr_ProcessID launchResp) (Some sc)
                              (rs_Address sandboxResp) (Some agentService) sessionActive (e_createdAt entry) t 0 None,
                            createResp))
              end
          end
      end
  end.

(** The clean-up of [createRemoteAgentSession] when the entry is refused. *)
Definition unprovisionRemote (e : sessionEntry) (agentService : service_ref) (sc : backend) : OM (option rerror) :=
  d ← svcDestroySession CreateCtx agentService (e_remoteSessionID e);
  c ← svcClose agentService;
  killed ← killProcess CreateCtx sc (e_sandboxID e) (e_processID e);
  destroyed ← destroySandbox CreateCtx sc (e_sandboxID e);
  mret (joinErrs [d; c; killed; destroyed]).

Definition resolveToolsSandboxHostAddr (sandbox : CreateSandboxResponse) : string :=
  if isFleetSandboxID (rs_SandboxID sandbox) then rs_Address sandbox
  else match SandboxHostAddrs config with
       | addr :: _ => addr
       | [] => rs_Address sandbox
       end.

(** [createToolsSandboxSession] up to [addSession]. *)
Definition provisionTools (entry : sessionEntry) (cfg : SessionConfig) : OM (res rerror provisioned) :=
  sandbox ← createSandbox CreateCtx Node (createRequest cfg);
  match sandbox with
  | Err err => mret (Err err)
  | Ok sandboxResp =>
      let sandboxID := rs_SandboxID sandboxResp in
      let hostAddr := resolveToolsSandboxHostAddr sandboxResp in
      let toolSessionID := extractHostLocalSessionID sandboxID in
      let toolsCfg := set_ToolEnvironment (mkToolEnvironmentConfig ToolEnvSandbox hostAddr toolSessionID "") cfg in
      create ← svcCreateSession CreateCtx LoopService toolsCfg;
      match create with
      | Err err =>
          cleanup ← destroySandbox CreateCtx Node sandboxID;
          mret (Err (rJoin (err :: option_list cleanup)))
      | Ok createResp =>
          t ← now;
          mret (Ok (mkSessionEntry (e_sessionID entry) (remoteID createResp cfg) (e_placement entry) sandboxID
                      toolSessionID (e_agentAddress entry) (e_processID entry) (Some Node) hostAddr (Some LoopService)
                      sessionActive (e_createdAt entry) t 0 None,
                    createResp))
      end
  end.

Definition unprovisionTools (e : sessionEntry) : OM (option rerror) :=
  d ← svcDestroySession CreateCtx LoopService (e_remoteSessionID e);
  destroyed ← destroySandbox CreateCtx Node (e_sandboxID e);
  mret (joinErrs [d; destroyed]).

(** The end of both: publish the entry, or undo what was made. *)
Definition publish (p : provisioned) : OM (res rerror CreateAgentSessionResponse) :=
  let '(e, createResp) := p in
  refused ← addSession e;
  match refused with
  | None => mret (Ok (mkCreateAgentSessionResponse (e_sessionID e) (cs_State createResp)))
  | Some err =>
      cleanup ← match e_agentService e, e_sandboxControl e with
                | Some s, Some sc =>
                    if bool_decide (e_placement e = PlacementToolsSandbox) then unprovisionTools e
                    else unprovisionRemote e s sc
                | _, _ => mret None
                end;
      mret (Err (rJoin (err :: option_list cleanup)))
  end.

Definition newEntry (id : string) (placement : PlacementMode) (t : Z) : sessionEntry :=
  mkSessionEntry id "" placement "" "" "" "" None "" None sessionCreating t 0 0 None.

(** [CreateSession] up to [addSession]; [None] is the nil request. *)
Definition provision (req : option SessionConfig) : OM (res rerror provisioned) :=
  match req with
  | None => mret (Err (rpcErr CInvalidArgument "nil request"))
  | Some cfg0 =>
      closing ← beginOperation;
      match closing with
      | Some err => mret (Err err)
      | None =>
          match placementFromMetadata (sc_Metadata cfg0) with
          | Err err => mret (Err err)
          | Ok placement =>
              match validatePlacement placement with
              | Some err => mret (Err err)
              | None =>
                  id ← generateSessionID;
                  t ← now;
                  let entry := newEntry id placement t in
                  let cfg := set_SessionID id cfg0 in
                  if bool_decide (placement = PlacementAgentDirect) then provisionRemote entry cfg Direct
                  else if bool_decide (placement = PlacementAgentSandbox) then provisionRemote entry cfg Node
                  else if bool_decide (placement = PlacementToolsSandbox) then provisionTools entry cfg
                  else mret (Err (rpcErr CInvalidArgument ("unsupported placement " +:+ quote placement)))
              end
          end
      end
  end.

Definition CreateSession (req : option SessionConfig) : OM (res rerror CreateAgentSessionResponse) :=
  p ← provision req;
  match p with
  | Err err => mret (Err err)
  | Ok p => publish p
  end.

(** ** Forwarded requests (proxy.go) *)

Definition snapshotProxyTarget (e : sessionEntry) : res rerror (string * service_ref) :=
  if bool_decide (e_state e = sessionUnhealthy) then Err (sessionUnavailableError (e_sessionID e) (e_healthErr e))
  else match e_agentService e with
  | None => Err (rpcErr CInternal "session has no agent service")
  | Some s =>
      Ok (if bool_decide (TrimSpace (e_remoteSessionID e) = "") then e_sessionID e else e_remoteSessionID e, s)
  end.

(** The beginning the forwarded methods share; [None] is the nil request. *)
Definition withTarget {A} (id : option string) (k : sessionEntry -> string -> service_ref -> OM (res rerror A)) :
    OM (res rerror A) :=
  match id with
  | None => mret (Err (rpcErr CInvalidArgument "nil request"))
  | Some sessionID =>
      found ← getSessionEntry sessionID;
      match found with
      | Err err => mret (Err err)
      | Ok (_, entry) =>
          match snapshotProxyTarget entry with
          | Err err => mret (Err err)
          | Ok (remoteSessionID, agentService) => k entry remoteSessionID agentService
          end
      end
  end.

Definition with_SessionID (id : string) (r : GetSessionResponse) : GetSessionResponse :=
  mkGetSessionResponse id (gs_State r) (gs_Metrics r) (gs_ConversationLen r).

Definition GetSession (id : option string) : OM (res rerror (option GetSessionResponse)) :=
  withTarget id (fun entry remote s =>
    r ← ask (fun h => env_GetSession env h s remote) (CGetSession s remote);
    mret match r with
         | Err err => Err err
         | Ok resp => Ok (with_SessionID (e_sessionID entry) <$> resp)
         end).

Record AgentSessionSummary : Type := mkAgentSessionSummary { as_SessionID : string; as_State : string; as_CreatedAt : Z }.

Definition ListSessions : OM (list AgentSessionSummary) :=
  l ← listSessionEntries;
  mret ((fun p => mkAgentSessionSummary (e_sessionID p.2) (sessionState_string (e_state p.2)) (e_createdAt p.2)) <$> l).

Definition proxyStream (q : streamRequest) (id : option string) : OM (res rerror sessionIDRewritingReceiver) :=
  withTarget id (fun entry remote s =>
    r ← ask (fun h => env_Stream env h s q remote) (CStream s q remote);
    mret match r with
         | Err err => Err err
         | Ok recv => Ok (mkRewritingReceiver recv (e_sessionID entry))
         end).
Definition SendMessage (id : option string) (message : string) := proxyStream (SendMessageReq message) id.
Definition Continue (id : option string) := proxyStream ContinueReq id.
Definition SubscribeEvents (id : option string) := proxyStream SubscribeReq id.

Definition proxyControl (q : controlRequest) (id : option string) : OM (res rerror ()) :=
  withTarget id (fun _ remote s =>
    r ← svcControl s q remote;
    mret match r with Some err => Err err | None => Ok () end).
Definition Steer (id : option string) (message : string) := proxyControl (SteerReq message) id.
Definition FollowUp (id : option string) (message : string) := proxyControl (FollowUpReq message) id.
Definition Abort (id : option string) (reason : string) := proxyControl (AbortReq reason) id.

(** [Recv] of the rewriting receiver. *)
Definition Recv (r : sessionIDRewritingReceiver) : OM (res rerror (option AgentEvent)) :=
  evt ← ask (fun h => env_Recv env h (inner r)) (CRecv (inner r));
  mret match evt with
       | Err err => Err err
       | Ok None => Ok None
       | Ok (Some e) => Ok (Some (with_ids (clientSessionID r) (ev_DriverSessionID e) e))
       end.

Definition ResumeSession (req : option ResumeSessionRequest) : OM (res rerror (option ResumeSessionResponse)) :=
  match req with
  | None => mret (Err (rpcErr CInvalidArgument "nil request"))
  | Some rq =>
      closing ← beginOperation;
      match closing with
      | Some err => mret (Err err)
      | None =>
          if bool_decide (TrimSpace (sc_SessionID (rr_Config rq)) = "")
          then mret (Err (rpcErr CInvalidArgument "resume session requires session_config.session_id"))
          else withTarget (Some (sc_SessionID (rr_Config rq))) (fun entry remote s =>
            let backendReq := mkResumeSessionRequest (set_SessionID remote (rr_Config rq)) (rr_SchemaVersion rq)
                                (rr_ConversationLog rq) in
            r ← ask (fun h => env_ResumeSession env h s backendReq) (CResumeSession s backendReq);
            mret match r with
                 | Err err => Err err
                 | Ok resp => Ok ((fun x => mkResumeSessionResponse (e_sessionID entry) (rq_State x)
                                              (rq_ConversationLen x) (rq_Warnings x)) <$> resp)
                 end)
      end
  end.

(** ** Pause and resume *)

Definition notInState (e : sessionEntry) (wanted : string) : rerror :=
  rpcErr CFailedPrecondition ("session " +:+ quote (e_sessionID e) +:+ " is " +:+ sessionState_string (e_state e) +:+
                              ", not " +:+ wanted).

Definition PauseSession (sessionID : string) : OM (option rerror) :=
  found ← getSessionEntry sessionID;
  match found with
  | Err err => mret (Some err)
  | Ok (i, e) =>
      if negb (bool_decide (e_state e = sessionActive)) then mret (Some (notInState e "active"))
      else match e_sandboxControl e with
      | None => mret (Some (rpcErr CInternal "session has no sandbox control"))
      | Some sc =>
          caps ← gets (fun o => env_Capabilities env (o_history o) sc);
          let lossy := cap_Pause caps && bool_decide (e_placement e = PlacementAgentDirect) in
          let pause :=
            err ← ask (fun h => env_PauseSandbox env h sc (e_sandboxID e)) (CPauseSandbox sc (e_sandboxID e));
            match err with
            | Some err => mret (Some err)
            | None => updateEntry i (set_state sessionPaused);; mret None
            end in
          if lossy then
            match e_agentService e with
            | None => mret (Some (rpcErr CInternal "session has no agent service"))
            | Some s =>
                svcControl s (AbortReq "pause: lossy sandbox pause requires agent stop") (e_remoteSessionID e);; pause
            end
          else pause
      end
  end.

Definition ResumeSessionSandbox (sessionID : string) : OM (option rerror) :=
  found ← getSessionEntry sessionID;
  match found with
  | Err err => mret (Some err)
  | Ok (i, e) =>
      if negb (bool_decide (e_state e = sessionPaused)) then mret (Some (notInState e "paused"))
      else match e_sandboxControl e with
      | None => mret (Some (rpcErr CInternal "session has no sandbox control"))
      | Some sc =>
          err ← ask (fun h => env_ResumeSandbox env h sc (e_sandboxID e)) (CResumeSandbox sc (e_sandboxID e));
          match err with
          | Some err => mret (Some err)
          | None =>
              relaunched ←
                (if negb (bool_decide (e_placement e = PlacementAgentDirect)) then mret (Ok id)
                 else
                   launch ← launchProcess RequestCtx sc (launchRequest (e_sandboxID e));
                   match launch with
                   | Err err => mret (Err (rWrap ("re-launch agent after resume: " +:+ errText err) err))
                   | Ok launchResp =>
                       agent ← factory (lr_Address launchResp);
                       match agent with
                       | Err err =>
                           killProcess RequestCtx sc (e_sandboxID e) (lr_ProcessID launchResp);;
                           mret (Err (rWrap ("reconnect agent after resume: " +:+ errText err) err))
                       | Ok agentService =>
                           match e_agentService e with Some s => svcClose s;; mret () | None => mret () end;;
                           mret (Ok (set_agent (lr_Address launchResp) (lr_ProcessID launchResp) agentService))
                       end
                   end : OM (res rerror (sessionEntry -> sessionEntry)));
              match relaunched return OM (option rerror) with
              | Err err => mret (Some err)
              | Ok f =>
                  t ← now;
                  updateEntry i (fun e => set_health sessionActive t 0 None (f e));;
                  mret None
              end
          end
      end
  end.

(** ** Destruction *)

Definition isIgnorableTeardownErr (err : option rerror) : bool :=
  match err with
  | None => true
  | Some e =>
      isEOF e ||
      match asRPC e with Some (CNotFound, _, _, _) | Some (CFailedPrecondition, _, _, _) => true | _ => false end ||
      (let msg := ToLower unicodeToLower (errText e) in Contains msg "not found" || Contains msg "already")
  end.

Definition notIgnorable (err : option rerror) : option rerror := if isIgnorableTeardownErr err then None else err.

(** A step whose object may be missing. *)
Definition whenSome {A B} (x : option A) (f : A -> OM (option B)) : OM (option B) :=
  match x with Some a => f a | None => mret None end.

(** On the entry as it is when its lock is taken: it may have been destroyed
    since it was looked up. *)
Definition destroySessionEntry (i : nat) : OM (option rerror) :=
  found ← gets (fun o => o_entries o !! i);
  whenSome found (fun e =>
    let remote := if bool_decide (TrimSpace (e_remoteSessionID e) = "") then e_sessionID e else e_remoteSessionID e in
    d ← whenSome (e_agentService e) (fun s => svcDestroySession StepCtx s remote);
    killed ← (if bool_decide (e_processID e = "") then mret None
              else whenSome (e_sandboxControl e) (fun sc => killProcess StepCtx sc (e_sandboxID e) (e_processID e)));
    destroyed ← (if bool_decide (e_sandboxID e = "") then mret None
                 else whenSome (e_sandboxControl e) (fun sc => destroySandbox StepCtx sc (e_sandboxID e)));
    closed ← whenSome (e_agentService e) svcClose;
    updateEntry i (set_state sessionDestroyed);;
    removeSessionEntry (e_sessionID e);;
    mret (joinErrs [notIgnorable d; notIgnorable killed; notIgnorable destroyed; closed])).

Definition DestroySession (id : option string) : OM (option rerror) :=
  match id with
  | None => mret (Some (rpcErr CInvalidArgument "nil request"))
  | Some sessionID =>
      closing ← beginOperation;
      match closing with
      | Some err => mret (Some err)
      | None =>
          found ← getSessionEntry sessionID;
          match found with
          | Err err => mret (Some err)
          | Ok (i, _) => destroySessionEntry i
          end
      end
  end.

(** A loop that collects errors. *)
Fixpoint collect {A} (l : list A) (f : A -> OM (option rerror)) : OM (list (option rerror)) :=
  match l with
  | [] => mret []
  | x :: l' => e ← f x; es ← collect l' f; mret (e :: es)
  end.

Definition closeControl (closes : bool) (b : backend) : OM (option rerror) :=
  if closes then ask (fun h => env_CloseControl env h b) (CCloseControl b) else mret None.

(** [Close] once the operations it waits for have ended. *)
Definition shutdown : OM (option rerror) :=
  entries ← listSessionEntries;
  errs ← collect entries (fun p => destroySessionEntry p.1);
  loop ← (if hasAgentLoopService config then svcClose LoopService else mret None);
  dc ← closeControl (hasDirectControl config && closesDirect config) Direct;
  nc ← closeControl (hasNodeControl config && closesNode config) Node;
  mret (joinErrs (errs ++ [loop; dc; nc])).

(** [Close]; between the two it waits for the operations that have begun. *)
Definition Close : OM (option rerror) :=
  closing ← gets o_closing;
  if (closing : bool) then mret None
  else modify (set_closing true);; shutdown.

(** ** Health (health.go) *)

Definition healthFailureThreshold : Z := 3.

Definition checkHTTPHealth (addr : string) : OM (option rerror) :=
  ask (fun h => env_Health env h addr) (CHealth addr).

Definition checkProcessHealth (sc : backend) (sandboxID processID : string) : OM (option rerror) :=
  let req := mkGetProcessStatusRequest sandboxID processID in
  status ← ask (fun h => env_GetProcessStatus env h sc req) (CGetProcessStatus sc req);
  mret match status with
       | Err err => Some (rWrap ("process status check failed: " +:+ errText err) err)
       | Ok None => Some (rText "process status check returned nil response")
       | Ok (Some resp) =>
           match pr_Status resp with
           | ProcessExited =>
               Some (match pr_ExitCode resp with
                     | Some code => rText ("agent process exited with code " +:+ pretty code)
                     | None => rText "agent process exited"
                     end)
           | _ => None
           end
       end.

Definition isAgentPlacement (p : PlacementMode) : bool :=
  bool_decide (p = PlacementAgentDirect) || bool_decide (p = PlacementAgentSandbox).

Definition checkPlacementHealth (placement : PlacementMode) (agentAddress sandboxHostAddr : string) : OM (option rerror) :=
  if isAgentPlacement placement then checkHTTPHealth agentAddress
  else if bool_decide (placement = PlacementToolsSandbox) then checkHTTPHealth sandboxHostAddr
  else mret None.

(** States whose health is not looked at. *)
Definition unchecked (st : sessionState) : bool :=
  bool_decide (st ∈ [sessionCreating; sessionPaused; sessionDestroyed]).

(** The first half of [checkSessionHealth], on a copy of the entry, without
    its lock: [None] for an entry that is not checked, else the outcome. *)
Definition probe (e : sessionEntry) : OM (option (option rerror)) :=
  if unchecked (e_state e) then mret None
  else
    checkErr ← checkPlacementHealth (e_placement e) (e_agentAddress e) (e_sandboxHostAddr e);
    match checkErr, e_sandboxControl e with
    | Some err, Some sc =>
        if isAgentPlacement (e_placement e) && negb (bool_decide (e_sandboxID e = "")) &&
           negb (bool_decide (e_processID e = "")) && bool_decide (e_healthFailures e + 1 >= healthFailureThreshold)%Z
        then
          procErr ← checkProcessHealth sc (e_sandboxID e) (e_processID e);
          mret (Some (Some (rJoin (err :: option_list procErr))))
        else mret (Some checkErr)
    | _, _ => mret (Some checkErr)
    end.

(** The second half, under the lock again. *)
Definition applyHealth (checkErr : option rerror) (t : Z) (e : sessionEntry) : sessionEntry :=
  if unchecked (e_state e) then e
  else match checkErr with
  | Some err => set_health sessionUnhealthy (e_lastHealth e) (e_healthFailures e + 1) (Some err) e
  | None => set_health sessionActive t 0 None e
  end.

Definition settle (i : nat) (outcome : option (option rerror)) : OM () :=
  match outcome with
  | None => mret ()
  | Some checkErr => t ← now; updateEntry i (applyHealth checkErr t)
  end.

Definition checkSessionHealth (i : nat) : OM () :=
  e ← gets (fun o => o_entries o !! i);
  match e with
  | None => mret ()
  | Some e => outcome ← probe e; settle i outcome
  end.

Definition checkAllSessions : OM () :=
  entries ← listSessionEntries;
  for_range entries (fun p => checkSessionHealth p.1).
End Operations.
