(* ===== verification/OrchestratorProps.v ===== *)
(** * OrchestratorProps: sandboxes are accounted for

    Requests, the health loop and the shutdown as steps that interleave: a
    creation is published some time after its sandbox was made, an entry may be
    destroyed some time after it was looked up, and a health probe takes effect
    some time after it started ([pending]).  The invariant says what the table
    holds and that no sandbox is lost. *)

From Stdlib Require Import Ascii String.
From S2P Require Import Prelude GoStrings GoText AiTypes AgentTypes AgentService FleetTypes Rpc Orchestrator.

Local Open Scope string_scope.
Local Open Scope list_scope.
Local Open Scope stdpp_scope.

(** ** Generated ids *)

Fixpoint hexValue (n : Z) (s : string) : Z :=
  match s with
  | EmptyString => n
  | String c s => hexValue (n * 16 + (if isDigit c then byteOf c - 48 else byteOf c - 87)) s
  end.

Lemma hexValue_digit d n s : (0 <= d < 16)%Z -> hexValue n (String.append (hexDigit d) s) = hexValue (n * 16 + d) s.
Proof.
  intros H. unfold hexDigit.
  assert (Forall (fun d => hexValue n (String.append
    (String (ascii_of_nat (Z.to_nat (if bool_decide (d < 10)%Z then 48 + d else 87 + d))) "") s) =
    hexValue (n * 16 + d) s) (seqZ 0 16)) as HF.
  { simpl. repeat constructor. }
  rewrite Forall_forall in HF. apply HF, elem_of_seqZ. lia.
Qed.

Lemma hexValue_loop fuel n acc : (0 <= n < 16 ^ Z.of_nat fuel)%Z -> hexValue 0 (hexLoop fuel n acc) = hexValue n acc.
Proof.
  revert n acc. induction fuel as [|fuel IH]; intros n acc H; [by replace n with 0%Z by (change (Z.of_nat 0) with 0%Z in H; lia)|].
  cbn [hexLoop]. pose proof (Z.mod_pos_bound n 16 ltac:(lia)). case_bool_decide.
  - rewrite hexValue_digit by lia. f_equal. rewrite Z.mod_small by lia. lia.
  - rewrite Nat2Z.inj_succ, Z.pow_succ_r in H by lia.
    rewrite IH by (split; [apply Z.div_pos; lia|apply Z.div_lt_upper_bound; lia]).
    rewrite hexValue_digit by lia. f_equal. pose proof (Z.div_mod n 16). lia.
Qed.

Lemma hexValue_zeros k s : hexValue 0 (String.append (repeatString k "0") s) = hexValue 0 s.
Proof. induction k as [|k IH]; [done|]. simpl. exact IH. Qed.

Lemma hex08_value n : (0 <= n < 2 ^ 64)%Z -> hexValue 0 (hex08 n) = n.
Proof. intros H. unfold hex08, hex. rewrite hexValue_zeros, hexValue_loop; [done|]. exact H. Qed.

(** The id of the [n]th session. *)
Definition orchID (n : Z) : string := "orch-" +:+ hex08 n.
Lemma orchID_inj n m : (0 <= n < 2 ^ 64)%Z -> (0 <= m < 2 ^ 64)%Z -> orchID n = orchID m -> n = m.
Proof. intros Hn Hm [= H]. rewrite <- (hex08_value n), <- (hex08_value m) by done. by f_equal. Qed.

(** ** Sandboxes made and unmade *)

(** A call that made a sandbox counts 1, one to destroy it -1. *)
Definition weight (b : backend) (id : string) (c : call) : Z :=
  match c with
  | CCreateSandbox _ b' _ (Ok r) => if bool_decide (b' = b /\ rs_SandboxID r = id) then 1 else 0
  | CDestroySandbox _ b' id' _ => if bool_decide (b' = b /\ id' = id) then -1 else 0
  | _ => 0
  end.
Definition balance (b : backend) (id : string) (h : list call) : Z := foldr (fun c n => weight b id c + n)%Z 0%Z h.

Lemma balance_snoc b id h c : balance b id (h ++ [c]) = (balance b id h + weight b id c)%Z.
Proof. induction h as [|c' h IH]; simpl; [lia|]. rewrite IH. lia. Qed.

Definition own (b : backend) (id : string) (e : sessionEntry) : Z :=
  if bool_decide (e_sandboxControl e = Some b /\ e_sandboxID e = id) then 1 else 0.

Lemma own_range b id e : (0 <= own b id e <= 1)%Z.
Proof. unfold own. case_bool_decide; lia. Qed.

(** The sum of a measure over a table. *)
Definition msum (g : nat -> Z) (m : gmap string nat) : Z := map_fold (fun _ i n => g i + n)%Z 0%Z m.

Lemma msum_insert g m k i : m !! k = None -> msum g (<[k := i]> m) = (g i + msum g m)%Z.
Proof. intros H. unfold msum. apply (map_fold_insert_L (fun _ i n => g i + n)%Z 0%Z k i m); [intros; lia|done]. Qed.
Lemma msum_delete g m k i : m !! k = Some i -> msum g (delete k m) = (msum g m - g i)%Z.
Proof.
  intros H. rewrite <- (insert_delete_id m k i H) at 2. rewrite msum_insert by apply lookup_delete_eq. lia.
Qed.
Lemma msum_ext g g' m : (forall k i, m !! k = Some i -> g i = g' i) -> msum g m = msum g' m.
Proof.
  induction m as [|k i m Hk IH] using map_ind; intros H; [done|].
  rewrite !msum_insert by done. f_equal; [by apply (H k); rewrite lookup_insert_eq|].
  apply IH. intros k' i' Hk'. apply (H k'). rewrite lookup_insert_ne; [done|]. intros ->. congruence.
Qed.

(** The entries of the table that own a sandbox. *)
Definition ownedAt (b : backend) (id : string) (entries : gmap nat sessionEntry) (i : nat) : Z :=
  default 0%Z (own b id <$> entries !! i).
Definition owned (b : backend) (id : string) (o : Orchestrator) : Z := msum (ownedAt b id (o_entries o)) (o_sessions o).

(** The tables and the flags; the calls are left out. *)
Definition same_tables (o o' : Orchestrator) : Prop :=
  o_sessions o' = o_sessions o /\ o_entries o' = o_entries o /\ o_closing o' = o_closing o.

(** What calls alone do, when none makes or destroys a sandbox. *)
Definition quiet (o o' : Orchestrator) : Prop :=
  same_tables o o' /\ o_counter o' = o_counter o /\ forall b id, balance b id (o_history o') = balance b id (o_history o).

#[export] Instance quiet_preorder : PreOrder quiet.
Proof.
  split; [by intros o; split_and!|].
  intros o1 o2 o3 ((E1 & E2 & E3) & E4 & E5) ((F1 & F2 & F3) & F4 & F5).
  unfold quiet, same_tables. split_and!; [by rewrite F1|by rewrite F2|by rewrite F3|by rewrite F4|]. intros b id. by rewrite F5.
Qed.

(** Computations whose every run is in a relation. *)
Definition runs {A} (R : relation Orchestrator) (m : M Orchestrator A) : Prop := forall o, R o (m o).2.

Lemma runs_bind {A B} (R : relation Orchestrator) `{!PreOrder R} (m : M Orchestrator A) (k : A -> M Orchestrator B) :
  runs R m -> (forall a, runs R (k a)) -> runs R (a ← m; k a).
Proof. intros Hm Hk o. rewrite M_bind_eq. etransitivity; [apply Hm|apply Hk]. Qed.
Lemma runs_ret {A} (R : relation Orchestrator) `{!PreOrder R} (a : A) : runs R (mret a).
Proof. by intros o. Qed.
Lemma runs_gets {A} (R : relation Orchestrator) `{!PreOrder R} (f : Orchestrator -> A) : runs R (gets f).
Proof. by intros o. Qed.
Lemma runs_for_range {A} (R : relation Orchestrator) `{!PreOrder R} (l : list A) (body : A -> M Orchestrator ()) :
  (forall x, runs R (body x)) -> runs R (for_range l body).
Proof.
  intros H. induction l as [|x l IH]; [by intros o|]. simpl. apply runs_bind; [done|apply H|]. by intros [].
Qed.

Lemma ask_quiet {A} (answer : list call -> A) event :
  (forall a b id, weight b id (event a) = 0%Z) -> runs quiet (ask answer event).
Proof.
  intros H o. unfold ask. cbn. split_and!; [done..|]. intros b id.
  unfold record. cbn [o_history]. rewrite balance_snoc, H. lia.
Qed.

Ltac quiet :=
  repeat first
    [ apply ask_quiet; done
    | apply runs_ret; apply _ | apply runs_gets; apply _
    | apply runs_bind; [apply _| |intros ?]
    | match goal with
      | |- runs _ (match ?x with _ => _ end) => destruct x
      | |- runs _ (if ?x then _ else _) => destruct x
      end ].

Lemma wp_ask {A} (answer : list call -> A) event (Q : A -> Orchestrator -> Prop) o :
  (forall a, Q a (record (event a) o)) -> wp (ask answer event) Q o.
Proof. intros H. apply H. Qed.
Lemma wp_gets {A} (f : Orchestrator -> A) (Q : A -> Orchestrator -> Prop) o : Q (f o) o -> wp (gets f) Q o.
Proof. done. Qed.

(** Run a computation to its calls, branching on their answers. *)
Ltac calls :=
  repeat match goal with
  | |- wp (_ ≫= _) _ _ => apply wp_bind
  | |- wp (ask _ _) _ _ => apply wp_ask; intros ?
  | |- wp (mret _) _ _ => apply wp_ret
  | |- wp (gets _) _ _ => apply wp_gets
  | |- wp (match ?x with _ => _ end) _ _ => destruct x
  end.

(** Weigh the calls made. *)
Ltac weigh :=
  intros b0 id0; unfold record; cbn [o_history]; rewrite !balance_snoc; cbn; unfold own; cbn;
  repeat case_bool_decide; destruct_and?; simplify_eq; try lia; naive_solver.

Section Props.
Context (env : Env) (unicodeToLower : string -> string) (config : OrchestratorConfig).

Lemma withTarget_quiet {A} id (k : sessionEntry -> string -> service_ref -> M Orchestrator (res rerror A)) :
  (forall e r s, runs quiet (k e r s)) -> runs quiet (withTarget id k).
Proof. intros H. unfold withTarget, getSessionEntry. quiet. apply H. Qed.

Lemma probe_quiet e : runs quiet (probe env e).
Proof. unfold probe, checkPlacementHealth, checkHTTPHealth, checkProcessHealth. quiet. Qed.

(** ** Creation *)

(** What a provisioning that ended well has: a complete entry, which owns the
    sandbox made for it. *)
Record provisioned_for (o : Orchestrator) (entry : sessionEntry) (e : sessionEntry) (o' : Orchestrator) : Prop := {
  pv_id : e_sessionID e = e_sessionID entry;
  pv_placement : e_placement e = e_placement entry;
  pv_state : e_state e = sessionActive;
  pv_service : is_Some (e_agentService e);
  pv_control : is_Some (e_sandboxControl e);
  pv_tools : e_placement e = PlacementToolsSandbox -> e_sandboxControl e = Some Node;
  pv_balance : forall b id, balance b id (o_history o') = (balance b id (o_history o) + own b id e)%Z;
}.

Definition balanced (o o' : Orchestrator) : Prop :=
  forall b id, balance b id (o_history o') = balance b id (o_history o).

Definition provisioning (o : Orchestrator) (entry : sessionEntry) (r : res rerror (sessionEntry * CreateAgentSessionResponse))
    (o' : Orchestrator) : Prop :=
  same_tables o o' /\ o_counter o' = o_counter o /\ match r with
  | Ok (e, _) => provisioned_for o entry e o'
  | Err _ => balanced o o'
  end.

Lemma provisionRemote_wp entry cfg sc o : e_placement entry <> PlacementToolsSandbox ->
  wp (provisionRemote env config entry cfg sc) (provisioning o entry) o.
Proof.
  intros Hp. unfold provisionRemote, createSandbox, launchProcess, factory, svcCreateSession, svcDestroySession, svcClose,
    killProcess, destroySandbox, now.
  calls; (split; [done|split; [done|]]); [|weigh..].
  split; [done..|by eexists|by eexists|done|weigh].
Qed.

Lemma provisionTools_wp entry cfg o : wp (provisionTools env config entry cfg) (provisioning o entry) o.
Proof.
  unfold provisionTools, createSandbox, svcCreateSession, destroySandbox, now.
  calls; (split; [done|split; [done|]]); [|weigh..].
  split; [done..|by eexists|by eexists|done|weigh].
Qed.

Lemma provision_wp req o :
  wp (provision env config req) (fun r o' =>
    same_tables o o' /\
    match r with
    | Ok (e, _) => o_closing o = false /\ o_counter o' = u64 (o_counter o + 1) /\
        exists placement, provisioned_for o (newEntry (orchID (o_counter o')) placement (e_createdAt e)) e o'
    | Err _ => (o_counter o' = o_counter o \/ o_counter o' = u64 (o_counter o + 1)) /\ balanced o o'
    end) o.
Proof.
  unfold provision. destruct req as [cfg|]; [|by apply wp_ret; split_and!; [..|by left|]].
  apply wp_bind, wp_gets. destruct (o_closing o) eqn:Hc; [by apply wp_ret; split_and!; [..|by left|]|].
  destruct (placementFromMetadata (sc_Metadata cfg)) as [pl|err]; [|by apply wp_ret; split_and!; [..|by left|]].
  destruct (validatePlacement config pl); [by apply wp_ret; split_and!; [..|by left|]|].
  apply wp_bind. unfold wp at 1. cbn [generateSessionID fst snd].
  set (id := "orch-" +:+ _). set (o1 := set_counter _ _). apply wp_bind, wp_gets.
  assert (forall m, wp m (provisioning o1 (newEntry id pl (env_Now env (o_history o1)))) o1 ->
    wp m (fun r o' => same_tables o o' /\
      match r with
      | Ok (e, _) => false = false /\ o_counter o' = u64 (o_counter o + 1) /\
          exists placement, provisioned_for o (newEntry (orchID (o_counter o')) placement (e_createdAt e)) e o'
      | Err _ => (o_counter o' = o_counter o \/ o_counter o' = u64 (o_counter o + 1)) /\ balanced o o'
      end) o1) as K.
  { intros m H. eapply wp_mono; [exact H|]. intros [[e resp]|err] o2 (Hs & Hn & Hr).
    - split; [done|]. split; [done|]. split; [done|]. exists pl. destruct Hr as [H1 H2 H3 H4 H5 H6 H7].
      split; try done. by rewrite Hn.
    - split; [done|]. split; [by right|]. exact Hr. }
  apply K. repeat case_bool_decide; subst.
  - by apply provisionRemote_wp.
  - by apply provisionRemote_wp.
  - apply provisionTools_wp.
  - apply wp_ret. by split_and!.
Qed.

(** ** Publication *)

(** An entry that may be published. *)
Record ready (e : sessionEntry) : Prop := {
  rd_state : e_state e = sessionActive;
  rd_service : is_Some (e_agentService e);
  rd_control : is_Some (e_sandboxControl e);
  rd_tools : e_placement e = PlacementToolsSandbox -> e_sandboxControl e = Some Node;
}.

Lemma publish_wp e resp o : ready e ->
  wp (publish env config (e, resp)) (fun r o' =>
    o_counter o' = o_counter o /\ o_closing o' = o_closing o /\
    match r with
    | Ok a => cs_SessionID a = e_sessionID e /\ o_closing o = false /\ o_sessions o !! e_sessionID e = None /\
        ((MaxSessions config > 0)%Z -> (Z.of_nat (size (o_sessions o)) < MaxSessions config)%Z) /\
        o_history o' = o_history o /\
        (exists i, o_entries o !! i = None /\ o_sessions o' = <[e_sessionID e := i]> (o_sessions o) /\
                   o_entries o' = <[i := e]> (o_entries o))
    | Err _ => same_tables o o' /\ forall b id, balance b id (o_history o') = (balance b id (o_history o) - own b id e)%Z
    end) o.
Proof.
  intros [Hst [s Hs] [sc Hc] Ht]. unfold publish. apply wp_bind. unfold wp at 1. unfold addSession.
  assert (forall err, wp (cleanup ← match e_agentService e, e_sandboxControl e with
      | Some s, Some sc => if bool_decide (e_placement e = PlacementToolsSandbox)
                           then unprovisionTools env e else unprovisionRemote env e s sc
      | _, _ => mret None end; mret (Err (rJoin (err :: option_list cleanup)) : res rerror CreateAgentSessionResponse))
    (fun r o' => o_counter o' = o_counter o /\ o_closing o' = o_closing o /\
    match r with
    | Ok a => cs_SessionID a = e_sessionID e /\ o_closing o = false /\ o_sessions o !! e_sessionID e = None /\
        ((MaxSessions config > 0)%Z -> (Z.of_nat (size (o_sessions o)) < MaxSessions config)%Z) /\
        o_history o' = o_history o /\
        (exists i, o_entries o !! i = None /\ o_sessions o' = <[e_sessionID e := i]> (o_sessions o) /\
                   o_entries o' = <[i := e]> (o_entries o))
    | Err _ => same_tables o o' /\ forall b id, balance b id (o_history o') = (balance b id (o_history o) - own b id e)%Z
    end) o) as Kerr.
  { intros err. rewrite Hs, Hc. unfold unprovisionTools, unprovisionRemote, svcDestroySession, svcClose, killProcess, destroySandbox.
    case_bool_decide as Hp; calls; (split; [done|split; [done|split; [done|]]]).
    - specialize (Ht Hp). simplify_eq. unfold record; cbn [o_history]. intros b0 id0. rewrite !balance_snoc. cbn.
      unfold own. rewrite Hc. repeat case_bool_decide; naive_solver lia.
    - unfold record; cbn [o_history]. intros b0 id0. rewrite !balance_snoc. cbn.
      unfold own. rewrite Hc. repeat case_bool_decide; naive_solver lia. }
  destruct (o_closing o) eqn:Hcl; [apply Kerr|].
  destruct (bool_decide (MaxSessions config > 0)%Z && _) eqn:Hmax; [apply Kerr|].
  destruct (o_sessions o !! e_sessionID e) eqn:Hl; [apply Kerr|].
  cbn. unfold wp. cbn. split_and!; try done.
  - intros Hgt. apply andb_false_iff in Hmax. rewrite !bool_decide_eq_false in Hmax. lia.
  - exists (fresh (dom (o_entries o))). split_and!; try done. apply not_elem_of_dom, is_fresh.
Qed.

(** ** Destruction *)

Lemma wp_quiet {A B} (m : M Orchestrator A) (k : A -> M Orchestrator B) Q o o1 :
  runs quiet m -> quiet o o1 -> (forall a o2, quiet o o2 -> wp (k a) Q o2) -> wp (m ≫= k) Q o1.
Proof. intros Hm H1 Hk. apply wp_bind, Hk. etransitivity; [exact H1|apply Hm]. Qed.

Lemma svcDestroySession_quiet c s id : runs quiet (svcDestroySession env c s id).
Proof. unfold svcDestroySession. quiet. Qed.
Lemma svcClose_quiet s : runs quiet (svcClose env s).
Proof. unfold svcClose. quiet. Qed.
Lemma killProcess_quiet c b s p : runs quiet (killProcess env c b s p).
Proof. unfold killProcess. quiet. Qed.
Lemma whenSome_quiet {A B} (x : option A) (f : A -> M Orchestrator (option B)) :
  (forall a, runs quiet (f a)) -> runs quiet (whenSome x f).
Proof. intros H. destruct x; [apply H|]. cbn. quiet. Qed.
Lemma if_quiet {A} (b : bool) (m m' : M Orchestrator A) : runs quiet m -> runs quiet m' -> runs quiet (if b then m else m').
Proof. by destruct b. Qed.

Lemma destroySandbox_wp (e : sessionEntry) o o1 (Q : option rerror -> Orchestrator -> Prop) : quiet o o1 ->
  (forall d o2, same_tables o o2 -> o_counter o2 = o_counter o ->
     (forall b id, id <> "" -> balance b id (o_history o2) = (balance b id (o_history o) - own b id e)%Z) -> Q d o2) ->
  wp (if bool_decide (e_sandboxID e = "") then mret None
      else whenSome (e_sandboxControl e) (fun sc => destroySandbox env StepCtx sc (e_sandboxID e))) Q o1.
Proof.
  intros (H1 & H2 & H3) HQ. case_bool_decide as Hid; [|destruct (e_sandboxControl e) as [sc|] eqn:Hc; cbn [whenSome]].
  - apply wp_ret, HQ; [done..|]. intros b id Hn. rewrite H3. unfold own. rewrite bool_decide_false by naive_solver. lia.
  - unfold destroySandbox. apply wp_ask. intros d. apply HQ; [done..|]. intros b id Hn. unfold record. cbn [o_history].
    rewrite balance_snoc, H3. cbn. unfold own. rewrite Hc. repeat case_bool_decide; naive_solver lia.
  - apply wp_ret, HQ; [done..|]. intros b id Hn. rewrite H3. unfold own. rewrite bool_decide_false by naive_solver. lia.
Qed.

Lemma destroySessionEntry_wp i e o : o_entries o !! i = Some e ->
  wp (destroySessionEntry env unicodeToLower i) (fun _ o' =>
    o_sessions o' = delete (e_sessionID e) (o_sessions o) /\
    o_entries o' = <[i := set_state sessionDestroyed e]> (o_entries o) /\
    o_closing o' = o_closing o /\ o_counter o' = o_counter o /\
    forall b id, id <> "" -> balance b id (o_history o') = (balance b id (o_history o) - own b id e)%Z) o.
Proof.
  intros He. unfold destroySessionEntry. apply wp_bind, wp_gets. rewrite He. cbn [whenSome].
  eapply wp_quiet; [apply whenSome_quiet; intros; apply svcDestroySession_quiet|reflexivity|]. intros d o1 H1.
  eapply wp_quiet; [apply if_quiet; [quiet|apply whenSome_quiet; intros; apply killProcess_quiet]|exact H1|]. intros kd o2 H2.
  apply wp_bind. eapply destroySandbox_wp; [exact H2|]. intros ds o3 (S1 & S2 & S3) Hn Hb.
  eapply wp_quiet; [apply whenSome_quiet; intros; apply svcClose_quiet|reflexivity|]. intros cl o4 ((T1 & T2 & T3) & Tn & Tb).
  unfold updateEntry, removeSessionEntry. apply wp_bind. unfold wp at 1. cbn. apply wp_bind. unfold wp at 1. cbn.
  apply wp_ret. cbn. split_and!; try congruence.
  - rewrite T2, S2. apply map_eq. intros j. destruct (decide (i = j)) as [->|Hij].
    + by rewrite lookup_alter_eq, lookup_insert_eq, He.
    + by rewrite lookup_alter_ne, lookup_insert_ne by done.
  - intros b id Hid. etransitivity; [exact (Tb b id)|by apply Hb].
Qed.
End Props.
