(* ===== verification/OrchestratorSteps.v ===== *)
(** * OrchestratorSteps: the orchestrator's invariant under interleaving

    The steps of requests, of the health loop and of the shutdown; what the
    table, the entries and the calls made satisfy after any of them; and the
    life of an entry. *)

From Stdlib Require Import Ascii String.
From S2P Require Import Prelude GoStrings GoText AiTypes AgentTypes AgentService FleetTypes Rpc Orchestrator OrchestratorProps.

Local Open Scope string_scope.
Local Open Scope list_scope.
Local Open Scope stdpp_scope.

(** ** Entries that change *)

(** The changes of state. *)
Inductive allowed : sessionState -> sessionState -> Prop :=
  | allowed_same st : allowed st st
  | allowed_pause : allowed sessionActive sessionPaused
  | allowed_resume : allowed sessionPaused sessionActive
  | allowed_fail : allowed sessionActive sessionUnhealthy
  | allowed_recover : allowed sessionUnhealthy sessionActive
  | allowed_destroy st : allowed st sessionDestroyed.

(** What an entry keeps for its life. *)
Record same_identity (e e' : sessionEntry) : Prop := {
  si_id : e_sessionID e' = e_sessionID e;
  si_remote : e_remoteSessionID e' = e_remoteSessionID e;
  si_placement : e_placement e' = e_placement e;
  si_sandbox : e_sandboxID e' = e_sandboxID e;
  si_control : e_sandboxControl e' = e_sandboxControl e;
  si_created : e_createdAt e' = e_createdAt e;
  si_service : is_Some (e_agentService e) -> is_Some (e_agentService e');
}.

Lemma same_identity_refl e : same_identity e e.
Proof. by split. Qed.
Lemma same_identity_own b id e e' : same_identity e e' -> own b id e' = own b id e.
Proof. intros []. unfold own. by rewrite si_sandbox0, si_control0. Qed.

(** Calls alone, or calls and one entry of the store. *)
Inductive touch (o o' : Orchestrator) : Prop :=
  | touch_none : quiet o o' -> touch o o'
  | touch_entry i e e' : o_entries o !! i = Some e -> same_identity e e' -> allowed (e_state e) (e_state e') ->
      e_state e <> sessionDestroyed -> e_state e' <> sessionDestroyed ->
      o_sessions o' = o_sessions o -> o_entries o' = <[i := e']> (o_entries o) -> o_closing o' = o_closing o ->
      o_counter o' = o_counter o -> (forall b id, balance b id (o_history o') = balance b id (o_history o)) ->
      touch o o'.

(** An entry the table points to is in use. *)
Definition live (e : sessionEntry) : Prop :=
  e_state e ∈ [sessionActive; sessionPaused; sessionUnhealthy] /\ is_Some (e_agentService e) /\ is_Some (e_sandboxControl e).

Inductive pending : Type :=
  | PPublish (e : sessionEntry) (resp : CreateAgentSessionResponse)
  | PDestroy (i : nat)
  | PHealth (i : nat) (outcome : option (option rerror)).

Definition pendingEntry (p : pending) : option sessionEntry := match p with PPublish e _ => Some e | _ => None end.
Definition pendingOwn (b : backend) (id : string) (ps : list pending) : Z :=
  foldr (fun p n => default 0 (own b id <$> pendingEntry p) + n)%Z 0%Z ps.

Lemma pendingOwn_app b id l1 l2 : pendingOwn b id (l1 ++ l2) = (pendingOwn b id l1 + pendingOwn b id l2)%Z.
Proof. induction l1 as [|p l1 IH]; simpl; [lia|]. rewrite IH. lia. Qed.

Arguments pendingOwn _ _ _ : simpl never.

Inductive request : Type :=
  | RqGet (id : option string)
  | RqStream (q : streamRequest) (id : option string)
  | RqControl (q : controlRequest) (id : option string)
  | RqResume (req : option ResumeSessionRequest)
  | RqPause (id : string)
  | RqResumeSandbox (id : string)
  | RqRecv (r : sessionIDRewritingReceiver).

Section Steps.
Context (env : Env) (unicodeToLower : string -> string) (config : OrchestratorConfig).

Definition serve (q : request) : M Orchestrator () :=
  match q with
  | RqGet id => GetSession env id;; mret ()
  | RqStream q id => proxyStream env q id;; mret ()
  | RqControl q id => proxyControl env q id;; mret ()
  | RqResume req => ResumeSession env req;; mret ()
  | RqPause id => PauseSession env id;; mret ()
  | RqResumeSandbox id => ResumeSessionSandbox env config id;; mret ()
  | RqRecv r => Recv env r;; mret ()
  end.

Definition state : Type := Orchestrator * list pending.

(** [st_begin] is the start of [CreateSession], bounded by the range of the
    counter; [st_shutdown] is the rest of [Close], which waits for the
    operations that have begun and for the health loop. *)
Inductive step : state -> state -> Prop :=
  | st_begin o ps req e resp o' : (o_counter o + 1 < 2 ^ 64)%Z -> provision env config req o = (Ok (e, resp), o') ->
      step (o, ps) (o', PPublish e resp :: ps)
  | st_begin_fails o ps req err o' : (o_counter o + 1 < 2 ^ 64)%Z -> provision env config req o = (Err err, o') ->
      step (o, ps) (o', ps)
  | st_publish o l1 l2 e resp r o' : publish env config (e, resp) o = (r, o') ->
      step (o, l1 ++ PPublish e resp :: l2) (o', l1 ++ l2)
  | st_lookup o ps id i e : o_closing o = false -> (getSessionEntry id o).1 = Ok (i, e) ->
      step (o, ps) (o, PDestroy i :: ps)
  | st_destroy o l1 l2 i r o' : destroySessionEntry env unicodeToLower i o = (r, o') ->
      step (o, l1 ++ PDestroy i :: l2) (o', l1 ++ l2)
  | st_probe o ps i e outcome o' : o_entries o !! i = Some e -> probe env e o = (outcome, o') ->
      step (o, ps) (o', PHealth i outcome :: ps)
  | st_settle o l1 l2 i outcome o' : settle env i outcome o = ((), o') ->
      step (o, l1 ++ PHealth i outcome :: l2) (o', l1 ++ l2)
  | st_request o ps q o' : serve q o = ((), o') -> step (o, ps) (o', ps)
  | st_close o ps : step (o, ps) (set_closing true o, ps)
  | st_shutdown o r o' : o_closing o = true -> shutdown env unicodeToLower config o = (r, o') -> step (o, []) (o', []).

(** ** Requests touch one entry *)

Lemma runs_touch {A} (m : M Orchestrator A) : runs quiet m -> runs touch m.
Proof. intros H o. apply touch_none, H. Qed.

Lemma getSessionEntry_Ok id o i e : (getSessionEntry id o).1 = Ok (i, e) ->
  o_sessions o !! id = Some i /\ o_entries o !! i = Some e.
Proof.
  cbn. destruct (o_sessions o !! id) as [j|]; [|done]. cbn. destruct (o_entries o !! j) as [e'|] eqn:He; [|done].
  cbn. intros [= <- <-]. done.
Qed.

Lemma wp_getSessionEntry {B} id (k : res rerror (nat * sessionEntry) -> M Orchestrator B) Q o :
  (forall err, wp (k (Err err)) Q o) ->
  (forall i e, o_sessions o !! id = Some i -> o_entries o !! i = Some e -> wp (k (Ok (i, e))) Q o) ->
  wp (found ← getSessionEntry id; k found) Q o.
Proof.
  intros H1 H2. apply wp_bind. unfold wp at 1. cbn [snd].
  destruct (getSessionEntry id o).1 as [[i e]|err] eqn:He; [|apply H1].
  apply getSessionEntry_Ok in He as [? ?]. by apply H2.
Qed.

Lemma updateEntry_touch o o1 i e f : o_entries o !! i = Some e -> quiet o o1 ->
  same_identity e (f e) -> allowed (e_state e) (e_state (f e)) ->
  e_state e <> sessionDestroyed -> e_state (f e) <> sessionDestroyed ->
  touch o (updateEntry i f o1).2.
Proof.
  intros He ((H1 & H2 & H3) & H4 & H5) Hi Ha Hd Hd'. apply (touch_entry _ _ i e (f e)); try done. cbn.
  rewrite H2. apply map_eq. intros j. destruct (decide (i = j)) as [->|].
  - by rewrite lookup_alter_eq, lookup_insert_eq, He.
  - by rewrite lookup_alter_ne, lookup_insert_ne.
Qed.

Lemma PauseSession_touch id : runs touch (PauseSession env id).
Proof.
  intros o. change (wp (PauseSession env id) (fun _ o' => touch o o') o). unfold PauseSession.
  apply wp_getSessionEntry; [intros; apply wp_ret; by apply touch_none|]. intros i e Hs He.
  destruct (bool_decide_reflect (e_state e = sessionActive)) as [Hst|]; cbn [negb]; [|apply wp_ret; by apply touch_none].
  destruct (e_sandboxControl e) as [sc|]; [|apply wp_ret; by apply touch_none].
  apply wp_bind, wp_gets.
  assert (forall o1, quiet o o1 -> wp (
    err ← ask (fun h => env_PauseSandbox env h sc (e_sandboxID e)) (CPauseSandbox sc (e_sandboxID e));
    match err with
    | Some err => mret (Some err)
    | None => updateEntry i (set_state sessionPaused);; mret None
    end) (fun _ o' => touch o o') o1) as Hpause.
  { intros o1 H1. eapply wp_quiet; [apply ask_quiet; done|exact H1|]. intros [err|] o2 H2; [apply wp_ret; by apply touch_none|].
    apply wp_bind, wp_ret, (updateEntry_touch o o2 i e (set_state sessionPaused)); try done; cbn; rewrite Hst; [constructor|done]. }
  destruct (_ && _).
  - destruct (e_agentService e) as [s|]; [|apply wp_ret; by apply touch_none].
    eapply wp_quiet; [unfold svcControl; quiet|reflexivity|]. intros ? o1 H1. by apply Hpause.
  - by apply Hpause.
Qed.

Lemma ResumeSessionSandbox_touch id : runs touch (ResumeSessionSandbox env config id).
Proof.
  intros o. change (wp (ResumeSessionSandbox env config id) (fun _ o' => touch o o') o). unfold ResumeSessionSandbox.
  apply wp_getSessionEntry; [intros; apply wp_ret; by apply touch_none|]. intros i e Hs He.
  destruct (bool_decide_reflect (e_state e = sessionPaused)) as [Hst|]; cbn [negb]; [|apply wp_ret; by apply touch_none].
  destruct (e_sandboxControl e) as [sc|]; [|apply wp_ret; by apply touch_none].
  eapply wp_quiet; [apply ask_quiet; done|reflexivity|]. intros [err|] o1 H1; [apply wp_ret; by apply touch_none|].
  assert (forall (f : sessionEntry -> sessionEntry) o2, quiet o o2 ->
    (forall t, same_identity e (set_health sessionActive t 0 None (f e))) ->
    wp (t ← now env; updateEntry i (fun e => set_health sessionActive t 0 None (f e));; mret (None : option rerror))
       (fun _ o' => touch o o') o2) as Hdone.
  { intros f o2 H2 Hf. apply wp_bind, wp_gets, wp_bind, wp_ret.
    apply (updateEntry_touch o o2 i e (fun e => set_health sessionActive _ 0 None (f e))); try done; cbn; rewrite Hst; [constructor|done]. }
  apply wp_bind. destruct (negb _).
  { apply wp_ret. by apply (Hdone (fun e => e)). }
  unfold launchProcess, factory, killProcess, svcClose.
  eapply wp_quiet; [apply ask_quiet; done|exact H1|]. intros [lr|err] o2 H2; [|apply wp_ret, wp_ret; by apply touch_none].
  eapply wp_quiet; [apply ask_quiet; done|exact H2|]. intros [s|err] o3 H3.
  - eapply wp_quiet; [|exact H3|].
    { destruct (e_agentService e); quiet. }
    intros _ o4 H4. apply wp_ret. apply Hdone; [done|]. by split.
  - eapply wp_quiet; [apply ask_quiet; done|exact H3|]. intros ? o4 H4. apply wp_ret, wp_ret. by apply touch_none.
Qed.

Lemma serve_touch q : runs touch (serve q).
Proof.
  assert (forall A (m : M Orchestrator A), runs touch m -> runs touch (m;; mret ())) as Hend.
  { intros A m H o. rewrite M_bind_eq. apply H. }
  destruct q; cbn [serve]; apply Hend; [apply runs_touch..|apply PauseSession_touch|apply ResumeSessionSandbox_touch|apply runs_touch].
  - apply withTarget_quiet. intros. quiet.
  - apply withTarget_quiet. intros. quiet.
  - apply withTarget_quiet. intros. unfold svcControl. quiet.
  - unfold ResumeSession, beginOperation. destruct req; [|quiet].
    apply runs_bind; [apply _|quiet|]. intros [err|]; [quiet|]. destruct (bool_decide _); [quiet|].
    apply withTarget_quiet. intros. quiet.
  - unfold Recv. quiet.
Qed.

Lemma quiet_entries m o : m = o_entries o -> quiet o (set_entries m o).
Proof. intros ->. by destruct o. Qed.

Lemma settle_touch i outcome o : touch o (settle env i outcome o).2.
Proof.
  destruct outcome as [checkErr|]; [|by apply touch_none]. cbn [settle].
  rewrite M_bind_eq. cbn [snd fst gets now]. set (t := env_Now env _).
  destruct (o_entries o !! i) as [e|] eqn:He.
  - destruct (decide (unchecked (e_state e) = true)) as [Hu|Hu].
    + apply touch_none. apply quiet_entries. cbn. apply map_eq. intros j. destruct (decide (i = j)) as [->|].
      * rewrite lookup_alter_eq, He. cbn. unfold applyHealth. by rewrite Hu.
      * by rewrite lookup_alter_ne.
    + apply not_true_is_false in Hu. unfold unchecked in Hu. apply bool_decide_eq_false in Hu.
      apply (updateEntry_touch o o i e (applyHealth checkErr t)); unfold applyHealth, unchecked;
        rewrite ?(bool_decide_false (e_state e ∈ _)) by done; try done.
      * by destruct checkErr.
      * destruct (e_state e), checkErr; cbn; try constructor; exfalso; apply Hu; set_solver.
      * intros Hd. rewrite Hd in Hu. apply Hu. set_solver.
      * by destruct checkErr.
  - apply touch_none. apply quiet_entries. cbn. apply map_eq. intros j. destruct (decide (i = j)) as [->|].
    + by rewrite lookup_alter_eq, He.
    + by rewrite lookup_alter_ne.
Qed.

(** ** The life of an entry *)

(** Every entry stays, as itself, and its state changes as allowed. *)
Definition evolves (o o' : Orchestrator) : Prop :=
  forall i e, o_entries o !! i = Some e ->
    exists e', o_entries o' !! i = Some e' /\ same_identity e e' /\ allowed (e_state e) (e_state e').

Lemma evolves_same o o' : o_entries o' = o_entries o -> evolves o o'.
Proof. intros H i e He. exists e. rewrite H. split_and!; [done|apply same_identity_refl|constructor]. Qed.

Lemma evolves_insert o o' i e e' : o_entries o !! i = Some e -> o_entries o' = <[i := e']> (o_entries o) ->
  same_identity e e' -> allowed (e_state e) (e_state e') -> evolves o o'.
Proof.
  intros He H Hi Ha j ej Hj. rewrite H. destruct (decide (i = j)) as [<-|].
  - exists e'. rewrite lookup_insert_eq. by simplify_eq.
  - exists ej. rewrite lookup_insert_ne by done. split_and!; [done|apply same_identity_refl|constructor].
Qed.

Lemma evolves_new o o' i e' : o_entries o !! i = None -> o_entries o' = <[i := e']> (o_entries o) -> evolves o o'.
Proof.
  intros Hn H j ej Hj. exists ej. rewrite H, lookup_insert_ne by congruence.
  split_and!; [done|apply same_identity_refl|constructor].
Qed.

Lemma touch_evolves o o' : touch o o' -> evolves o o'.
Proof.
  intros [((_ & H & _) & _)|i e e' He Hi Ha _ _ _ H]; [by apply evolves_same|by eapply evolves_insert].
Qed.

(** A destroyed entry is an absorbing one, for the relation of several steps. *)
Definition destroyed_stays (e e' : sessionEntry) : Prop := e_state e = sessionDestroyed -> e_state e' = sessionDestroyed.

(** ** The invariant *)

(** The entry of a new session, and what it is like against the others. *)
Definition numbered (o : Orchestrator) (id : string) : Prop := exists n, (0 < n <= o_counter o)%Z /\ id = orchID n.

Definition pendingIDs (ps : list pending) : list string := omap (fun p => e_sessionID <$> pendingEntry p) ps.

Arguments pendingIDs _ : simpl never.

Record Inv (s : state) : Prop := {
  inv_table : forall id i, o_sessions s.1 !! id = Some i ->
    exists e, o_entries s.1 !! i = Some e /\ e_sessionID e = id /\ live e;
  inv_entries : forall i e, o_entries s.1 !! i = Some e ->
    o_sessions s.1 !! e_sessionID e = if bool_decide (e_state e = sessionDestroyed) then None else Some i;
  inv_numbered : forall i e, o_entries s.1 !! i = Some e -> numbered s.1 (e_sessionID e);
  inv_ready : forall p e, p ∈ s.2 -> pendingEntry p = Some e -> ready e /\ numbered s.1 (e_sessionID e) /\
    (forall i e', o_entries s.1 !! i = Some e' -> e_sessionID e' <> e_sessionID e);
  inv_distinct : NoDup (pendingIDs s.2);
  inv_found : forall i, PDestroy i ∈ s.2 -> is_Some (o_entries s.1 !! i);
  inv_counter : (0 <= o_counter s.1 < 2 ^ 64)%Z;
  inv_cap : (MaxSessions config > 0)%Z -> (Z.of_nat (size (o_sessions s.1)) <= MaxSessions config)%Z;
  inv_accounts : forall b id, id <> "" ->
    (balance b id (o_history s.1) <= owned b id s.1 + pendingOwn b id s.2)%Z;
}.

Lemma Inv_init : Inv (empty_orchestrator, []).
Proof.
  split; cbn; try (intros; set_solver); try done.
  - constructor.
  - intros ?. rewrite (map_size_empty (M := gmap string)). lia.
Qed.

(** Only the calls, the counter up and the pending operations change. *)
Lemma Inv_frame o ps o' ps' :
  same_tables o o' -> (o_counter o <= o_counter o' < 2 ^ 64)%Z ->
  (forall p e, p ∈ ps' -> pendingEntry p = Some e -> p ∈ ps) -> NoDup (pendingIDs ps') ->
  (forall i, PDestroy i ∈ ps' -> is_Some (o_entries o !! i)) ->
  (forall b id, id <> "" -> (balance b id (o_history o') - balance b id (o_history o) <=
     pendingOwn b id ps' - pendingOwn b id ps)%Z) ->
  Inv (o, ps) -> Inv (o', ps').
Proof.
  intros (H1 & H2 & H3) Hn Hp Hd Hf Hb []. cbn in *.
  assert (forall id, numbered o id -> numbered o' id) as Hnum by (intros id (n & ? & ?); exists n; split; [lia|done]).
  split; cbn; rewrite ?H1, ?H2; try done; try lia.
  - eauto.
  - intros p e Hpe Hpe'. destruct (inv_ready0 p e) as (? & ? & ?); eauto.
  - intros b id Hid. specialize (inv_accounts0 b id Hid). specialize (Hb b id Hid).
    assert (owned b id o' = owned b id o) as -> by (unfold owned; by rewrite H1, H2). lia.
Qed.

Lemma owned_entries b id o o' : o_sessions o' = o_sessions o ->
  (forall i, own b id <$> o_entries o' !! i = own b id <$> o_entries o !! i) -> owned b id o' = owned b id o.
Proof. intros H1 H2. unfold owned. rewrite H1. apply msum_ext. intros k i _. unfold ownedAt. by rewrite H2. Qed.

Lemma allowed_live e e' : allowed (e_state e) (e_state e') -> e_state e' <> sessionDestroyed ->
  same_identity e e' -> live e -> live e'.
Proof.
  intros Ha Hd [] (Hs & Hsv & Hc). split_and!; [|auto|by rewrite si_control0].
  destruct Ha; set_solver.
Qed.

Lemma Inv_touch o o' ps : touch o o' -> Inv (o, ps) -> Inv (o', ps).
Proof.
  intros [(Ht & Hn & Hb)|i e e' He Hi Ha Hd Hd' Hs Hes Hc Hn Hb] H.
  - pose proof H as []. eapply Inv_frame; try done; cbn in *; try lia.
    intros b id _. rewrite Hb. lia.
  - pose proof H as []. cbn in *. split; cbn; try done.
    + intros id j Hj. rewrite Hs in Hj. destruct (inv_table0 id j Hj) as (ej & Hej & Hid & Hl).
      rewrite Hes. destruct (decide (i = j)) as [<-|].
      * simplify_eq. exists e'. rewrite lookup_insert_eq. split_and!; [done|apply Hi|by eapply allowed_live].
      * exists ej. by rewrite lookup_insert_ne.
    + intros j ej. rewrite Hes, Hs. destruct (decide (i = j)) as [<-|].
      * rewrite lookup_insert_eq. intros [= <-]. rewrite (si_id _ _ Hi), (inv_entries0 i e He).
        by rewrite !bool_decide_false.
      * rewrite lookup_insert_ne by done. by apply inv_entries0.
    + intros j ej. rewrite Hes. unfold numbered. rewrite Hn. destruct (decide (i = j)) as [<-|].
      * rewrite lookup_insert_eq. intros [= <-]. rewrite (si_id _ _ Hi). by apply (inv_numbered0 i).
      * rewrite lookup_insert_ne by done. by apply inv_numbered0.
    + intros p ep Hp Hep. destruct (inv_ready0 p ep Hp Hep) as (Hr & Hnum & Hne). split_and!; [done| |].
      * unfold numbered. by rewrite Hn.
      * intros j ej. rewrite Hes. destruct (decide (i = j)) as [<-|].
        -- rewrite lookup_insert_eq. intros [= <-]. rewrite (si_id _ _ Hi). by apply (Hne i).
        -- rewrite lookup_insert_ne by done. by apply Hne.
    + intros j Hj. rewrite Hes. destruct (decide (i = j)) as [<-|]; [rewrite lookup_insert_eq; by eexists|].
      rewrite lookup_insert_ne by done. by apply inv_found0.
    + by rewrite Hn.
    + by rewrite Hs.
    + intros b id Hid. rewrite Hb. specialize (inv_accounts0 b id Hid).
      rewrite (owned_entries b id o o'); [done|done|]. intros j. rewrite Hes. destruct (decide (i = j)) as [<-|].
      * rewrite lookup_insert_eq, He. cbn. f_equal. by apply same_identity_own.
      * by rewrite lookup_insert_ne.
Qed.

Lemma map_size_le_delete (m : gmap string nat) k : (size (delete k m) <= size m)%nat.
Proof. rewrite map_size_delete. destruct (m !! k); [apply Nat.le_pred_l|done]. Qed.

(** Destroying an entry, looked up earlier. *)
Lemma Inv_destroy o o' ps i e : o_entries o !! i = Some e ->
  o_sessions o' = delete (e_sessionID e) (o_sessions o) ->
  o_entries o' = <[i := set_state sessionDestroyed e]> (o_entries o) -> o_counter o' = o_counter o ->
  (forall b id, id <> "" -> balance b id (o_history o') = (balance b id (o_history o) - own b id e)%Z) ->
  Inv (o, ps) -> Inv (o', ps).
Proof.
  intros He Hs Hes Hn Hb H. pose proof H as []. cbn in *.
  assert (forall j ej, o_entries o' !! j = Some ej -> exists ej0, o_entries o !! j = Some ej0 /\ e_sessionID ej = e_sessionID ej0 /\
    (forall b id, own b id ej = own b id ej0) /\
    ((i = j /\ e_state ej = sessionDestroyed) \/ (i <> j /\ ej = ej0))) as Hback.
  { intros j ej. rewrite Hes. destruct (decide (i = j)) as [<-|].
    - rewrite lookup_insert_eq. intros [= <-]. exists e. split_and!; try done. by left.
    - rewrite lookup_insert_ne by done. intros Hj. exists ej. split_and!; try done. by right. }
  split; cbn; try done.
  - intros id j Hj. rewrite Hs in Hj. apply lookup_delete_Some in Hj as [Hne Hj].
    destruct (inv_table0 id j Hj) as (ej & Hej & Hid & Hl). exists ej.
    rewrite Hes, lookup_insert_ne; [done|]. intros <-. congruence.
  - intros j ej Hj. apply Hback in Hj as (ej0 & Hj0 & Hid & _ & [[<- Hst]|[Hij ->]]).
    + rewrite Hid, Hst, bool_decide_true by done. assert (ej0 = e) as -> by congruence. by rewrite Hs, lookup_delete_eq.
    + rewrite Hs. pose proof (inv_entries0 j ej0 Hj0) as Hj1. destruct (bool_decide_reflect (e_state ej0 = sessionDestroyed)).
      * destruct (decide (e_sessionID e = e_sessionID ej0)) as [->|]; [by rewrite lookup_delete_eq|].
        by rewrite lookup_delete_ne.
      * rewrite lookup_delete_ne; [done|]. intros Heq. pose proof (inv_entries0 i e He) as Hi.
        rewrite Heq, Hj1 in Hi. case_bool_decide; congruence.
  - intros j ej Hj. apply Hback in Hj as (ej0 & Hj0 & Hid & _). unfold numbered. rewrite Hn, Hid. by apply (inv_numbered0 j).
  - intros p ep Hp Hep. destruct (inv_ready0 p ep Hp Hep) as (Hr & Hnum & Hne). split_and!; [done| |].
    + unfold numbered. by rewrite Hn.
    + intros j ej Hj. apply Hback in Hj as (ej0 & Hj0 & Hid & _). rewrite Hid. by apply (Hne j).
  - intros j Hj. rewrite Hes. destruct (decide (i = j)) as [<-|]; [rewrite lookup_insert_eq; by eexists|].
    rewrite lookup_insert_ne by done. by apply inv_found0.
  - by rewrite Hn.
  - intros Hm. specialize (inv_cap0 Hm). rewrite Hs.
    enough (size (delete (e_sessionID e) (o_sessions o)) <= size (o_sessions o))%nat by lia.
    apply (map_size_le_delete (o_sessions o)).
  - intros b id Hid. rewrite Hb by done. specialize (inv_accounts0 b id Hid).
    assert (owned b id o - own b id e <= owned b id o')%Z as Ho; [|lia].
    unfold owned. rewrite Hs, Hes.
    assert (forall m, msum (ownedAt b id (<[i := set_state sessionDestroyed e]> (o_entries o))) m =
                      msum (ownedAt b id (o_entries o)) m) as Hext.
    { intros m. apply msum_ext. intros k j _. unfold ownedAt. destruct (decide (i = j)) as [<-|].
      - by rewrite lookup_insert_eq, He.
      - by rewrite lookup_insert_ne. }
    rewrite Hext. pose proof (own_range b id e).
    destruct (o_sessions o !! e_sessionID e) as [j|] eqn:Hj.
    + rewrite (msum_delete _ _ _ j) by done. pose proof (inv_entries0 i e He) as Hi. rewrite Hi in Hj.
      case_bool_decide; [done|]. injection Hj as <-. unfold ownedAt at 3. rewrite He. cbn. lia.
    + rewrite delete_id by done. lia.
Qed.

(** Publishing takes the entry out of the pending ones. *)
Lemma pendingIDs_app l1 l2 : pendingIDs (l1 ++ l2) = pendingIDs l1 ++ pendingIDs l2.
Proof. unfold pendingIDs. apply omap_app. Qed.

Lemma pendingIDs_publish e resp ps : pendingIDs (PPublish e resp :: ps) = e_sessionID e :: pendingIDs ps.
Proof. done. Qed.

Lemma elem_of_pendingIDs p e ps : p ∈ ps -> pendingEntry p = Some e -> e_sessionID e ∈ pendingIDs ps.
Proof. intros Hp He. apply list_elem_of_omap. exists p. by rewrite He. Qed.

Lemma Inv_publish o o' l1 l2 e resp i : Inv (o, l1 ++ PPublish e resp :: l2) ->
  o_sessions o !! e_sessionID e = None -> o_entries o !! i = None ->
  o_sessions o' = <[e_sessionID e := i]> (o_sessions o) -> o_entries o' = <[i := e]> (o_entries o) ->
  o_counter o' = o_counter o -> o_history o' = o_history o ->
  ((MaxSessions config > 0)%Z -> (Z.of_nat (size (o_sessions o)) < MaxSessions config)%Z) ->
  Inv (o', l1 ++ l2).
Proof.
  intros [] Hnone Hi Hs Hes Hn Hh Hcap. cbn in *.
  assert (PPublish e resp ∈ l1 ++ PPublish e resp :: l2) as Hin by set_solver.
  destruct (inv_ready0 _ e Hin eq_refl) as (Hr & Hnum & Hne).
  assert (e_sessionID e ∉ pendingIDs (l1 ++ l2)) as Hnotin.
  { rewrite pendingIDs_app, pendingIDs_publish in inv_distinct0. rewrite pendingIDs_app.
    apply NoDup_app in inv_distinct0 as (_ & H1 & [H2 _]%NoDup_cons). set_solver. }
  assert (forall j ej, o_entries o' !! j = Some ej -> (j = i /\ ej = e) \/ (j <> i /\ o_entries o !! j = Some ej)) as Hback.
  { intros j ej. rewrite Hes. destruct (decide (i = j)) as [<-|].
    - rewrite lookup_insert_eq. intros [= <-]. by left.
    - rewrite lookup_insert_ne by done. right. split; [congruence|done]. }
  split; cbn.
  - intros id j. rewrite Hs. destruct (decide (e_sessionID e = id)) as [<-|Hid].
    + rewrite lookup_insert_eq. intros [= <-]. exists e. rewrite Hes, lookup_insert_eq. split_and!; [done..|].
      destruct Hr as [Hst Hsv Hct _]. split_and!; [rewrite Hst; set_solver|done|done].
    + rewrite lookup_insert_ne by done. intros Hj. destruct (inv_table0 id j Hj) as (ej & Hej & ?).
      exists ej. rewrite Hes, lookup_insert_ne; [done|congruence].
  - intros j ej [[-> ->]|[Hj Hej]]%Hback.
    + rewrite Hs, lookup_insert_eq, bool_decide_false; [done|]. by rewrite (rd_state e).
    + rewrite Hs, lookup_insert_ne; [by apply inv_entries0|]. apply not_eq_sym. by apply (Hne j).
  - intros j ej [[-> ->]|[Hj Hej]]%Hback; unfold numbered; rewrite Hn; [done|]. by apply (inv_numbered0 j).
  - intros p ep Hp Hep. assert (p ∈ l1 ++ PPublish e resp :: l2) as Hp' by set_solver.
    destruct (inv_ready0 p ep Hp' Hep) as (Hr' & Hnum' & Hne'). split_and!; [done|unfold numbered; by rewrite Hn|].
    intros j ej [[-> ->]|[Hj Hej]]%Hback; [|by apply (Hne' j)].
    intros Heq. apply Hnotin. rewrite Heq. by eapply elem_of_pendingIDs.
  - rewrite pendingIDs_app, pendingIDs_publish in inv_distinct0. rewrite pendingIDs_app.
    apply NoDup_app in inv_distinct0 as (N1 & N2 & [_ N3]%NoDup_cons). apply NoDup_app. set_solver.
  - intros j Hj. rewrite Hes. destruct (decide (i = j)) as [<-|]; [rewrite lookup_insert_eq; by eexists|].
    rewrite lookup_insert_ne by done. apply inv_found0. set_solver.
  - by rewrite Hn.
  - intros Hm. specialize (Hcap Hm). rewrite Hs, map_size_insert_None by done. lia.
  - intros b id Hid. specialize (inv_accounts0 b id Hid). rewrite Hh, pendingOwn_app.
    rewrite pendingOwn_app in inv_accounts0. change (pendingOwn b id (PPublish e resp :: l2)) with
      (own b id e + pendingOwn b id l2)%Z in inv_accounts0.
    assert (owned b id o' = (own b id e + owned b id o)%Z) as ->; [|lia].
    unfold owned. rewrite Hs, msum_insert by done. f_equal.
    + unfold ownedAt. by rewrite Hes, lookup_insert_eq.
    + apply msum_ext. intros k j Hk. unfold ownedAt. rewrite Hes, lookup_insert_ne; [done|].
      intros <-. destruct (inv_table0 k i Hk) as (? & ? & _). congruence.
Qed.

(** ** The shutdown *)

(** Entries that stay or are destroyed. *)
Definition retires (o o' : Orchestrator) : Prop :=
  forall i e, o_entries o !! i = Some e -> exists e', o_entries o' !! i = Some e' /\ same_identity e e' /\
    (e_state e' = e_state e \/ e_state e' = sessionDestroyed).

Lemma same_identity_trans e1 e2 e3 : same_identity e1 e2 -> same_identity e2 e3 -> same_identity e1 e3.
Proof. intros [] []. split; try congruence. auto. Qed.

#[export] Instance retires_preorder : PreOrder retires.
Proof.
  split.
  - intros o i e He. exists e. split_and!; [done|apply same_identity_refl|by left].
  - intros o1 o2 o3 H1 H2 i e He. destruct (H1 i e He) as (e' & He' & Hi & Hs). destruct (H2 i e' He') as (e'' & He'' & Hi' & Hs').
    exists e''. split_and!; [done|by eapply same_identity_trans|]. destruct Hs' as [->|]; auto.
Qed.

Lemma retires_evolves o o' : retires o o' -> evolves o o'.
Proof.
  intros H i e He. destruct (H i e He) as (e' & He' & Hi & Hs). exists e'. split_and!; [done..|].
  destruct Hs as [-> | ->]; constructor.
Qed.

Lemma retires_destroy o o' i e : o_entries o !! i = Some e ->
  o_entries o' = <[i := set_state sessionDestroyed e]> (o_entries o) -> retires o o'.
Proof.
  intros He Hes j ej Hj. rewrite Hes. destruct (decide (i = j)) as [<-|].
  - exists (set_state sessionDestroyed e). rewrite lookup_insert_eq. simplify_eq. split_and!; [done|by split|by right].
  - exists ej. rewrite lookup_insert_ne by done. split_and!; [done|apply same_identity_refl|by left].
Qed.

Lemma collect_destroy_wp (l : list (nat * sessionEntry)) o ps : Inv (o, ps) ->
  (forall p, p ∈ l -> is_Some (o_entries o !! p.1)) ->
  wp (collect l (fun p => destroySessionEntry env unicodeToLower p.1)) (fun _ o' =>
    Inv (o', ps) /\ retires o o' /\
    forall id i, o_sessions o' !! id = Some i -> o_sessions o !! id = Some i /\ i ∉ l.*1) o.
Proof.
  revert o. induction l as [|[j e0] l IH]; intros o Hinv Hin.
  { apply wp_ret. split_and!; [done|reflexivity|]. intros id i Hi. split; [done|apply not_elem_of_nil]. }
  cbn [collect]. destruct (Hin (j, e0)) as [e He]; [set_solver|]. cbn in He.
  apply wp_bind. eapply wp_mono; [by apply destroySessionEntry_wp|]. intros r o1 (H1 & H2 & H3 & H4 & H5).
  assert (Inv (o1, ps)) as Hinv1 by by eapply Inv_destroy.
  apply wp_bind. eapply wp_mono; [apply IH; [done|]|].
  { intros p Hp. destruct (Hin p) as [ep Hep]; [set_solver|]. rewrite H2.
    destruct (decide (j = p.1)) as [->|]; [rewrite lookup_insert_eq; by eexists|].
    rewrite lookup_insert_ne by done. by eexists. }
  intros errs o2 (Hinv2 & Hret & Hall). apply wp_ret. split_and!; [done| |].
  - etransitivity; [|exact Hret]. by eapply retires_destroy.
  - intros id i Hi. destruct (Hall id i Hi) as [Hi1 Hnot]. rewrite H1 in Hi1. apply lookup_delete_Some in Hi1 as [Hne Hi1].
    split; [done|]. cbn. rewrite not_elem_of_cons. split; [|done]. intros ->. apply Hne.
    destruct (inv_table _ Hinv id j Hi1) as (ej & Hej & Hid & _). cbn in Hej. congruence.
Qed.

Lemma listed o : Inv (o, []) -> forall id i, o_sessions o !! id = Some i ->
  i ∈ (listSessionEntries o).1.*1.
Proof.
  intros Hinv id i Hi. cbn. destruct (inv_table _ Hinv id i Hi) as (e & He & _). cbn in He.
  apply list_elem_of_fmap. exists (i, e). split; [done|]. rewrite merge_sort_Permutation.
  apply list_elem_of_omap. exists (id, i). split; [by apply elem_of_map_to_list|]. by rewrite He.
Qed.

Lemma listed_entries o : forall p, p ∈ (listSessionEntries o).1 -> o_entries o !! p.1 = Some p.2.
Proof.
  intros [i e]. cbn. rewrite merge_sort_Permutation. intros H. apply list_elem_of_omap in H as ([id j] & _ & H).
  destruct (o_entries o !! j) eqn:He; [|done]. cbn in H. by simplify_eq.
Qed.

Lemma shutdown_retires_wp o : Inv (o, []) ->
  wp (shutdown env unicodeToLower config) (fun _ o' => Inv (o', []) /\ retires o o' /\ o_sessions o' = ∅) o.
Proof.
  intros Hinv. unfold shutdown. apply wp_bind. unfold wp at 1.
  replace (listSessionEntries o).2 with o by done.
  apply wp_bind. eapply wp_mono.
  { apply collect_destroy_wp; [exact Hinv|]. intros p Hp. rewrite (listed_entries o p Hp). by eexists. }
  intros errs o1 (H1 & H2 & H3).
  assert (o_sessions o1 = ∅) as Hempty.
  { apply map_eq. intros id. rewrite lookup_empty. destruct (o_sessions o1 !! id) as [i|] eqn:Hi; [|done].
    destruct (H3 id i Hi) as [Hi0 []]. by eapply listed. }
  eapply wp_quiet; [apply if_quiet; [apply svcClose_quiet|quiet]|reflexivity|]. intros l o2 Q2.
  eapply wp_quiet; [unfold closeControl; quiet|exact Q2|]. intros d o3 Q3.
  eapply wp_quiet; [unfold closeControl; quiet|exact Q3|]. intros n o4 Q4. apply wp_ret. split_and!.
  - eapply Inv_touch; [by apply touch_none|done].
  - intros i e He. destruct (H2 i e He) as (e' & He' & ?). exists e'.
    destruct Q4 as ((_ & -> & _) & _). done.
  - destruct Q4 as ((-> & _) & _). done.
Qed.

Lemma shutdown_retires o : Inv (o, []) -> wp (shutdown env unicodeToLower config) (fun _ o' => retires o o') o.
Proof. intros H. eapply wp_mono; [by apply shutdown_retires_wp|]. by intros r o' (_ & ? & _). Qed.

Lemma shutdown_wp o : Inv (o, []) ->
  wp (shutdown env unicodeToLower config) (fun _ o' => Inv (o', []) /\ evolves o o' /\ o_sessions o' = ∅) o.
Proof. intros H. eapply wp_mono; [by apply shutdown_retires_wp|]. intros r o' (? & ?%retires_evolves & ?). done. Qed.

(** ** Every step *)

Lemma u64_incr n : (0 <= n)%Z -> (n + 1 < 2 ^ 64)%Z -> u64 (n + 1) = (n + 1)%Z.
Proof. intros. unfold u64. apply Z.mod_small. lia. Qed.

Lemma numbered_fresh o n : Inv o -> (o_counter o.1 < n < 2 ^ 64)%Z -> ~ numbered o.1 (orchID n).
Proof.
  intros [] Hn (m & Hm & Heq). apply orchID_inj in Heq; lia.
Qed.

Lemma pending_drop l1 l2 p : pendingEntry p = None -> pendingIDs (l1 ++ p :: l2) = pendingIDs (l1 ++ l2) /\
  forall b id, pendingOwn b id (l1 ++ p :: l2) = pendingOwn b id (l1 ++ l2).
Proof.
  intros Hp. split.
  - rewrite !pendingIDs_app. f_equal. unfold pendingIDs. cbn. by rewrite Hp.
  - intros b id. rewrite !pendingOwn_app. f_equal. unfold pendingOwn at 1. cbn. rewrite Hp. cbn. fold (pendingOwn b id l2). lia.
Qed.

Lemma Inv_drop o l1 l2 p : pendingEntry p = None -> Inv (o, l1 ++ p :: l2) -> Inv (o, l1 ++ l2).
Proof.
  intros Hp Hinv. destruct (pending_drop l1 l2 p Hp) as [Hids Hown].
  eapply Inv_frame; [..|exact Hinv]; pose proof Hinv as []; cbn in *; try done; try lia.
  - intros q e Hq. set_solver.
  - by rewrite <- Hids.
  - intros i Hi. apply inv_found0. set_solver.
  - intros b id _. rewrite Hown. lia.
Qed.

Lemma Inv_add o p ps : pendingEntry p = None -> (forall i, p = PDestroy i -> is_Some (o_entries o !! i)) ->
  Inv (o, ps) -> Inv (o, p :: ps).
Proof.
  intros Hp Hi Hinv. destruct (pending_drop [] ps p Hp) as [Hids Hown]. cbn [app] in *.
  eapply Inv_frame; [..|exact Hinv]; pose proof Hinv as []; cbn in *; try done; try lia.
  - intros q e Hq Hqe. apply elem_of_cons in Hq as [->|]; [congruence|done].
  - by rewrite Hids.
  - intros i [Heq|Hin]%elem_of_cons; [by apply Hi|by apply inv_found0].
  - intros b id _. rewrite Hown. lia.
Qed.

Lemma Inv_begin o ps e resp o' placement : (o_counter o + 1 < 2 ^ 64)%Z -> same_tables o o' ->
  o_counter o' = u64 (o_counter o + 1) -> provisioned_for o (newEntry (orchID (o_counter o')) placement (e_createdAt e)) e o' ->
  Inv (o, ps) -> Inv (o', PPublish e resp :: ps).
Proof.
  intros Hlt (H1 & H2 & H3) Hn [] Hinv. pose proof Hinv as []. cbn in *. rewrite u64_incr in Hn by lia.
  assert (forall id, numbered o id -> numbered o' id) as Hnum by (intros id (n & ? & ?); exists n; split; [lia|done]).
  pose proof (numbered_fresh (o, ps) (o_counter o') Hinv ltac:(cbn; lia)) as Hfresh. cbn in Hfresh.
  split; cbn; rewrite ?H1, ?H2; try done; try lia.
  - eauto.
  - intros p ep [->|Hp]%elem_of_cons Hep.
    + cbn in Hep. injection Hep as <-. split_and!; [by split| |].
      * rewrite pv_id. exists (o_counter o'). split; [lia|done].
      * intros i ei Hi Heq. apply Hfresh. rewrite <- pv_id, <- Heq. by apply (inv_numbered0 i).
    + destruct (inv_ready0 p ep Hp Hep) as (? & ? & ?). split_and!; auto.
  - rewrite pendingIDs_publish. constructor; [|done]. rewrite pv_id. intros Hin.
    unfold pendingIDs in Hin. apply list_elem_of_omap in Hin as (p & Hp & Hpe).
    destruct (pendingEntry p) as [ep|] eqn:Hep; [|done]. cbn in Hpe. injection Hpe as Hpe.
    apply Hfresh. rewrite <- Hpe. by apply (inv_ready0 p ep Hp Hep).
  - intros i [Heq|Hi]%elem_of_cons; [done|by apply inv_found0].
  - intros b id Hid. specialize (inv_accounts0 b id Hid). rewrite pv_balance.
    assert (owned b id o' = owned b id o) as -> by (unfold owned; by rewrite H1, H2).
    change (pendingOwn b id (PPublish e resp :: ps)) with (own b id e + pendingOwn b id ps)%Z. lia.
Qed.

Lemma wp_eq {A} (m : M Orchestrator A) Q o a o' : wp m Q o -> m o = (a, o') -> Q a o'.
Proof. unfold wp. intros H E. by rewrite E in H. Qed.

Lemma step_law s s' : step s s' -> Inv s -> Inv s' /\ evolves s.1 s'.1.
Proof.
  destruct 1 as [o ps req e resp o' Hlt H|o ps req err o' Hlt H|o l1 l2 e resp r o' H|o ps id i e Hcl H|o l1 l2 i r o' H
    |o ps i e outcome o' He H|o l1 l2 i outcome o' H|o ps q o' H|o ps|o r o' Hcl H]; intros Hinv; cbn [fst snd].
  - destruct (wp_eq _ _ _ _ _ (provision_wp env config req o) H) as (Ht & Hcl & Hn & pl & Hpv).
    split; [by eapply Inv_begin|]. apply evolves_same, Ht.
  - destruct (wp_eq _ _ _ _ _ (provision_wp env config req o) H) as (Ht & Hn & Hb).
    split; [|apply evolves_same, Ht]. pose proof Hinv as []. cbn in *.
    eapply Inv_frame; [exact Ht| |..|exact Hinv]; try done.
    + destruct Hn as [->| ->]; [lia|]. rewrite u64_incr by lia. lia.
    + intros b id _. rewrite Hb. lia.
  - pose proof (inv_ready _ Hinv (PPublish e resp) e) as (Hr & _); [set_solver|done|].
    pose proof (wp_eq _ _ _ _ _ (publish_wp env unicodeToLower config e resp o Hr) H) as (Hn & Hc & Hres).
    destruct r as [a|err].
    + destruct Hres as (_ & _ & Hnone & Hcap & Hh & i & Hi & Hs & Hes). split; [by eapply Inv_publish|by eapply evolves_new].
    + destruct Hres as (Ht & Hb). split; [|apply evolves_same, Ht]. pose proof Hinv as []. cbn in *.
      eapply Inv_frame; [exact Ht| |..|exact Hinv]; try lia.
      * intros p ep Hp _. set_solver.
      * rewrite pendingIDs_app, pendingIDs_publish in inv_distinct0. rewrite pendingIDs_app.
        apply NoDup_app in inv_distinct0 as (N1 & N2 & [_ N3]%NoDup_cons). apply NoDup_app. set_solver.
      * intros i Hi. apply inv_found0. set_solver.
      * intros b id _. rewrite Hb, !pendingOwn_app.
        change (pendingOwn b id (PPublish e resp :: l2)) with (own b id e + pendingOwn b id l2)%Z. lia.
  - apply getSessionEntry_Ok in H as [_ He]. split; [|by apply evolves_same].
    apply Inv_add; [done| |done]. intros j [= <-]. by eexists.
  - destruct (inv_found _ Hinv i) as [e He]; [set_solver|]. cbn in He.
    pose proof (wp_eq _ _ _ _ _ (destroySessionEntry_wp env unicodeToLower i e o He) H) as (H1 & H2 & H3 & H4 & H5).
    split; [|by apply retires_evolves; eapply retires_destroy].
    eapply Inv_destroy; [exact He|exact H1|exact H2|exact H4|exact H5|]. by apply (Inv_drop o l1 l2 (PDestroy i)).
  - assert (touch o o') as Ht by (apply touch_none; pose proof (probe_quiet env e o) as Hq; by rewrite H in Hq).
    split; [|by apply touch_evolves]. apply Inv_add; [done..|]. by eapply Inv_touch.
  - assert (touch o o') as Ht by (pose proof (settle_touch i outcome o) as Hq; by rewrite H in Hq).
    split; [|by apply touch_evolves]. eapply Inv_touch; [done|]. by apply (Inv_drop o l1 l2 (PHealth i outcome)).
  - assert (touch o o') as Ht by (pose proof (serve_touch q o) as Hq; by rewrite H in Hq).
    split; [|by apply touch_evolves]. by eapply Inv_touch.
  - split; [|by apply evolves_same]. destruct Hinv. by split.
  - destruct (wp_eq _ _ _ _ _ (shutdown_wp o Hinv) H) as (? & ? & _). done.
Qed.
End Steps.
