(* ===== verification/OrchestratorMain.v ===== *)
(** * OrchestratorMain: what the orchestrator guarantees

    The accounts of its sandboxes, the life of a session's entry, what a failed
    creation undoes, how requests are forwarded, the health of a session; and
    the orchestrator on top of the in-process agent service. *)

From Stdlib Require Import Ascii String.
From S2P Require Import Prelude GoStrings GoText AiTypes AgentTypes AgentService AgentServiceProps FleetTypes Rpc Orchestrator OrchestratorProps OrchestratorSteps.

Local Open Scope string_scope.
Local Open Scope list_scope.
Local Open Scope stdpp_scope.

(** ** Accounts *)

(** How often a sandbox was made, and asked to be destroyed. *)
Definition made (b : backend) (id : string) (h : list call) : nat :=
  length (filter (fun c => weight b id c = 1%Z) h).
Definition unmade (b : backend) (id : string) (h : list call) : nat :=
  length (filter (fun c => weight b id c = (-1)%Z) h).

Lemma weight_range b id c : weight b id c = 1%Z \/ weight b id c = 0%Z \/ weight b id c = (-1)%Z.
Proof.
  destruct c as [? ? ? [r|]| | | | | | | | | | | | | | | | |]; cbn; try case_bool_decide; auto.
Qed.

Lemma balance_made b id h : balance b id h = (Z.of_nat (made b id h) - Z.of_nat (unmade b id h))%Z.
Proof.
  unfold made, unmade. induction h as [|c h IH]; [done|]. cbn [balance foldr]. fold (balance b id h). rewrite IH, !filter_cons.
  destruct (weight_range b id c) as [-> | [-> | ->]]; repeat destruct (decide _); simpl; lia.
Qed.

Section Main.
Context (env : Env) (unicodeToLower : string -> string) (config : OrchestratorConfig).
Notation step := (step env unicodeToLower config).
Notation reachable := (rtc step (empty_orchestrator, [])).

Lemma reachable_Inv s : reachable s -> Inv config s.
Proof.
  intros H. remember (empty_orchestrator, []) as s0 eqn:Hs0.
  assert (Inv config s0) as H0 by (subst; apply Inv_init). clear Hs0. induction H as [|s1 s2 s3 Hs _ IH]; [done|].
  apply IH. by apply (step_law _ _ _ _ _ Hs).
Qed.

(** C6: no sandbox is lost.  Whatever the sandbox controls, the agent services
    and the clients do, and however creations, destructions and health checks
    interleave: the table names entries in use, under their own id, and never
    more than [MaxSessions]; every sandbox that was made, and not yet asked to
    be destroyed, belongs to an entry of the table or to a creation that is
    about to publish one; and once the shutdown is done the table is empty and
    every sandbox ever made was asked to be destroyed. *)
Theorem sandboxes_accounted o ps (Hr : reachable (o, ps)) :
  (forall id i, o_sessions o !! id = Some i ->
     exists e, o_entries o !! i = Some e /\ e_sessionID e = id /\
       e_state e ∈ [sessionActive; sessionPaused; sessionUnhealthy]) /\
  ((MaxSessions config > 0)%Z -> (Z.of_nat (size (o_sessions o)) <= MaxSessions config)%Z) /\
  (forall b id, id <> "" ->
     (Z.of_nat (made b id (o_history o)) <=
      Z.of_nat (unmade b id (o_history o)) + owned b id o + pendingOwn b id ps)%Z) /\
  (ps = [] -> forall o', (shutdown env unicodeToLower config o).2 = o' ->
     o_sessions o' = ∅ /\ forall b id, id <> "" -> made b id (o_history o') <= unmade b id (o_history o')).
Proof.
  pose proof (reachable_Inv _ Hr) as Hinv. split_and!.
  - intros id i Hi. destruct (inv_table _ _ Hinv id i Hi) as (e & He & Hid & Hl & _). by exists e.
  - apply Hinv.
  - intros b id Hid. pose proof (inv_accounts _ _ Hinv b id Hid) as H. cbn in H. rewrite balance_made in H. lia.
  - intros -> o' <-. destruct (shutdown_wp env unicodeToLower config o Hinv) as (Hinv' & _ & Hempty).
    split; [done|]. intros b id Hid. pose proof (inv_accounts _ _ Hinv' b id Hid) as H. cbn [fst snd] in H.
    rewrite balance_made in H. unfold owned in H. rewrite Hempty in H.
    change (msum _ ∅) with 0%Z in H. change (pendingOwn b id []) with 0%Z in H. lia.
Qed.

(** The one-step requests are made of the steps. *)
Lemma CreateSession_steps req o r o' ps : (o_counter o + 1 < 2 ^ 64)%Z -> CreateSession env config req o = (r, o') ->
  rtc step (o, ps) (o', ps).
Proof.
  intros Hlt. unfold CreateSession. rewrite (surjective_pairing ((_ : M Orchestrator _) o)), M_bind_eq. intros [= H1 H2].
  destruct (provision env config req o) as [[[e resp]|err] o1] eqn:Hp; cbn [fst snd] in *.
  - eapply rtc_l; [by apply (st_begin _ _ _ o ps req e resp o1)|]. apply rtc_once.
    apply (st_publish _ _ _ o1 [] ps e resp r o'). by rewrite (surjective_pairing (publish _ _ _ _)), H1, H2.
  - cbn in H1, H2. subst. apply rtc_once. by eapply st_begin_fails.
Qed.

Lemma DestroySession_steps id o r o' ps : DestroySession env unicodeToLower id o = (r, o') -> rtc step (o, ps) (o', ps).
Proof.
  unfold DestroySession. destruct id as [id|]; [|intros [= <- <-]; reflexivity].
  rewrite (surjective_pairing ((_ : M Orchestrator _) o)), M_bind_eq. cbn [beginOperation gets fst snd].
  destruct (o_closing o) eqn:Hcl; [intros [= <- <-]; reflexivity|].
  rewrite M_bind_eq. destruct (getSessionEntry id o).1 as [[i e]|err] eqn:He; [|intros [= <- <-]; reflexivity].
  change (getSessionEntry id o).2 with o. intros [= H1 H2].
  eapply rtc_l; [by eapply (st_lookup _ _ _ o ps id i e)|]. apply rtc_once.
  apply (st_destroy _ _ _ o [] ps i r o'). by rewrite (surjective_pairing (destroySessionEntry _ _ _ _)), H1, H2.
Qed.

(** ** Failed creations *)

(** Each thing a creation makes is undone later in the calls. *)
Fixpoint undone (l : list call) : Prop :=
  match l with
  | [] => True
  | c :: l' =>
      match c with
      | CCreateSandbox _ b _ (Ok sb) => exists r, CDestroySandbox CreateCtx b (rs_SandboxID sb) r ∈ l'
      | CLaunchProcess _ b req (Ok p) =>
          exists r, CKillProcess CreateCtx b (mkKillProcessRequest (lp_SandboxID req) (lr_ProcessID p) 0) r ∈ l'
      | CFactory _ (Ok s) => exists r, CCloseService s r ∈ l'
      | CCreateSession _ s cfg (Ok a) => exists r, CDestroySession CreateCtx s (remoteID a cfg) r ∈ l'
      | _ => True
      end /\ undone l'
  end.

(** The calls since a state. *)
Definition extends (P : list call -> Prop) (o o' : Orchestrator) : Prop := exists l, o_history o' = o_history o ++ l /\ P l.

Lemma addSession_wp e (Q : option rerror -> Orchestrator -> Prop) o :
  (forall err, Q (Some err) o) -> (forall o', o_history o' = o_history o -> Q None o') -> wp (addSession config e) Q o.
Proof.
  intros H1 H2. unfold wp, addSession. destruct (o_closing o); [apply H1|]. destruct (_ && _); [apply H1|].
  destruct (o_sessions o !! e_sessionID e); [apply H1|]. by apply H2.
Qed.

Definition created_or_undone (o : Orchestrator) (r : res rerror CreateAgentSessionResponse) (o' : Orchestrator) : Prop :=
  extends (fun l => match r with Ok _ => True | Err _ => undone l end) o o'.

Ltac listed := eexists; split; [unfold record; cbn [o_history]; rewrite <- ?app_assoc; reflexivity|].
Ltac undo := cbn; split_and?; try done; eexists; repeat first [apply list_elem_of_here | apply list_elem_of_further].

Lemma createRemote_undone entry cfg sc o : e_placement entry <> PlacementToolsSandbox ->
  wp (provisionRemote env config entry cfg sc)
     (fun p => wp match p with Err err => mret (Err err) | Ok p => publish env config p end (created_or_undone o)) o.
Proof.
  intros Hp. unfold provisionRemote, createSandbox, launchProcess, factory, svcCreateSession, svcDestroySession,
    svcClose, killProcess, destroySandbox, now.
  calls; try (listed; undo).
  unfold publish. apply wp_bind, addSession_wp; [|intros o' Ho'; apply wp_ret; unfold created_or_undone, extends; rewrite Ho'; by listed].
  intros err. cbn [e_agentService e_sandboxControl e_placement]. rewrite bool_decide_false by done.
  unfold unprovisionRemote, svcDestroySession, svcClose, killProcess, destroySandbox. calls. listed. undo.
Qed.

Lemma createTools_undone entry cfg o : e_placement entry = PlacementToolsSandbox ->
  wp (provisionTools env config entry cfg)
     (fun p => wp match p with Err err => mret (Err err) | Ok p => publish env config p end (created_or_undone o)) o.
Proof.
  intros Hp. unfold provisionTools, createSandbox, svcCreateSession, destroySandbox, now.
  calls; try (listed; undo).
  unfold publish. apply wp_bind, addSession_wp; [|intros o' Ho'; apply wp_ret; unfold created_or_undone, extends; rewrite Ho'; by listed].
  intros err. cbn [e_agentService e_sandboxControl e_placement]. rewrite bool_decide_true by done.
  unfold unprovisionTools, svcDestroySession, destroySandbox. calls. listed. undo.
Qed.

Lemma CreateSession_undone req o : wp (CreateSession env config req) (created_or_undone o) o.
Proof.
  assert (forall err o1, o_history o1 = o_history o -> created_or_undone o (Err err) o1) as Hfail.
  { intros err o1 Ho1. exists []. split; [by rewrite Ho1, app_nil_r|done]. }
  unfold CreateSession, provision. destruct req as [cfg|]; [|by apply wp_bind, wp_ret, wp_ret, Hfail].
  apply wp_bind, wp_bind, wp_gets. destruct (o_closing o); [by apply wp_ret, wp_ret, Hfail|].
  destruct (placementFromMetadata _) as [pl|err]; [|by apply wp_ret, wp_ret, Hfail].
  destruct (validatePlacement config pl); [by apply wp_ret, wp_ret, Hfail|].
  apply wp_bind. unfold wp at 1. cbn [generateSessionID fst snd]. set (id := "orch-" +:+ _). set (o1 := set_counter _ _).
  apply wp_bind, wp_gets. change (created_or_undone o) with (created_or_undone o1).
  repeat case_bool_decide; subst.
  - by apply createRemote_undone.
  - by apply createRemote_undone.
  - by apply createTools_undone.
  - by apply wp_ret, wp_ret, Hfail.
Qed.

(** C8: creating a session is all or nothing.  When it succeeds the table gains
    exactly the id that is returned, which was not in use, with an active entry;
    when it fails, at whatever step and whatever the clean-up answers, the table
    is as before and everything this creation had made was undone after it was
    made: its sandbox destroyed, its process killed, its agent client closed and
    its backend session destroyed. *)
Theorem CreateSession_atomic req o :
  let '(r, o') := CreateSession env config req o in
  match r with
  | Ok a => o_sessions o !! cs_SessionID a = None /\
      exists i e, o_entries o !! i = None /\ o_sessions o' = <[cs_SessionID a := i]> (o_sessions o) /\
        o_entries o' = <[i := e]> (o_entries o) /\ e_sessionID e = cs_SessionID a /\ e_state e = sessionActive
  | Err _ => same_tables o o' /\ extends undone o o'
  end.
Proof.
  pose proof (CreateSession_undone req o) as Hu. revert Hu. unfold wp.
  destruct (CreateSession env config req o) as [r o'] eqn:Hc. cbn [fst snd]. intros Hu.
  assert (match r with
  | Ok a => o_sessions o !! cs_SessionID a = None /\
      exists i e, o_entries o !! i = None /\ o_sessions o' = <[cs_SessionID a := i]> (o_sessions o) /\
        o_entries o' = <[i := e]> (o_entries o) /\ e_sessionID e = cs_SessionID a /\ e_state e = sessionActive
  | Err _ => same_tables o o' end) as H.
  { revert Hc. apply (wp_eq _ (fun r o' => match r with
      | Ok a => o_sessions o !! cs_SessionID a = None /\
          exists i e, o_entries o !! i = None /\ o_sessions o' = <[cs_SessionID a := i]> (o_sessions o) /\
            o_entries o' = <[i := e]> (o_entries o) /\ e_sessionID e = cs_SessionID a /\ e_state e = sessionActive
      | Err _ => same_tables o o' end)).
    unfold CreateSession. apply wp_bind. eapply wp_mono; [apply (provision_wp env config)|].
    intros [[e resp]|err] o1; [|intros (Ht & _); by apply wp_ret].
    intros ((Hs & Hes & Hcl) & _ & _ & pl & Hpv). destruct Hpv.
    eapply wp_mono; [apply (publish_wp env unicodeToLower config); by split|].
    intros [a|err] o2 (_ & Hcl2 & Hr).
    - destruct Hr as (Ha & _ & Hnone & _ & _ & i & Hi & Hs2 & Hes2). rewrite Ha, <- Hs. split; [done|].
      exists i, e. by rewrite <- Hes.
    - destruct Hr as ((Hs2 & Hes2 & _) & _). split_and!; congruence. }
  destruct r as [a|err]; [done|]. split; [done|]. exact Hu.
Qed.

(** ** Forwarding *)

Lemma withTarget_found {A} id (k : sessionEntry -> string -> service_ref -> M Orchestrator (res rerror A)) o i e :
  o_sessions o !! id = Some i -> o_entries o !! i = Some e ->
  withTarget (Some id) k o =
    match snapshotProxyTarget e with
    | Err err => (Err err, o)
    | Ok (remote, s) => k e remote s o
    end.
Proof.
  intros Hs He. unfold withTarget. rewrite M_bind_eq.
  assert ((getSessionEntry id o).1 = Ok (i, e)) as Hg by (cbn; by rewrite Hs; cbn; rewrite He).
  rewrite Hg. change (getSessionEntry id o).2 with o. by destruct (snapshotProxyTarget e) as [[]|].
Qed.

(** The id the backend knows the session by. *)
Definition backendID (e : sessionEntry) : string :=
  if bool_decide (TrimSpace (e_remoteSessionID e) = "") then e_sessionID e else e_remoteSessionID e.

(** What a client sees through the orchestrator.  For a session in the
    table that is not unhealthy, each request is passed on once, to the
    session's own agent service and under the id that service knows; its error
    comes back as it is, its answer under the client's id, and so does every
    event of its streams.  A session that is unhealthy is refused, and nothing
    is called. *)
Theorem forwarding o ps id i (Hr : reachable (o, ps)) (Hi : o_sessions o !! id = Some i) :
  exists e s, o_entries o !! i = Some e /\ e_agentService e = Some s /\
  if bool_decide (e_state e = sessionUnhealthy) then
    forall q m, proxyStream env q (Some id) o = (Err (sessionUnavailableError id (e_healthErr e)), o) /\
      proxyControl env m (Some id) o = (Err (sessionUnavailableError id (e_healthErr e)), o) /\
      GetSession env (Some id) o = (Err (sessionUnavailableError id (e_healthErr e)), o)
  else
    (forall q, let a := env_Stream env (o_history o) s q (backendID e) in
       proxyStream env q (Some id) o =
         (match a with Ok recv => Ok (mkRewritingReceiver recv id) | Err err => Err err end,
          record (CStream s q (backendID e) a) o)) /\
    (forall m, let a := env_Control env (o_history o) s m (backendID e) in
       proxyControl env m (Some id) o =
         (match a with None => Ok () | Some err => Err err end, record (CControl s m (backendID e) a) o)) /\
    (let a := env_GetSession env (o_history o) s (backendID e) in
       GetSession env (Some id) o =
         (match a with Ok resp => Ok (with_SessionID id <$> resp) | Err err => Err err end,
          record (CGetSession s (backendID e) a) o)) /\
    (forall recv evt o1, (Recv env (mkRewritingReceiver recv id) o1).1 = Ok (Some evt) -> ev_SessionID evt = id).
Proof.
  destruct (inv_table _ _ (reachable_Inv _ Hr) id i Hi) as (e & He & Hid & _ & [s Hsv] & _). cbn in He.
  exists e, s. split_and!; [done..|].
  assert (forall A (k : sessionEntry -> string -> service_ref -> M Orchestrator (res rerror A)),
    withTarget (Some id) k o = match snapshotProxyTarget e with
                               | Err err => (Err err, o) | Ok (remote, s) => k e remote s o end) as Hw.
  { intros A k. by eapply withTarget_found. }
  unfold proxyStream, proxyControl, GetSession. case_bool_decide as Hst.
  - intros q m. rewrite !Hw. unfold snapshotProxyTarget. rewrite bool_decide_true by done. by rewrite Hid.
  - unfold snapshotProxyTarget in Hw. rewrite bool_decide_false, Hsv in Hw by done.
    change (if bool_decide (TrimSpace (e_remoteSessionID e) = "") then e_sessionID e else e_remoteSessionID e)
      with (backendID e) in Hw.
    cbv zeta. split_and!.
    + intros q. rewrite Hw, M_bind_eq. unfold ask. cbn [fst snd]. rewrite Hid. done.
    + intros m. rewrite Hw, M_bind_eq. unfold svcControl, ask. cbn [fst snd]. by destruct (env_Control _ _ _ _ _).
    + rewrite Hw, M_bind_eq. unfold ask. cbn [fst snd]. rewrite Hid. done.
    + intros recv evt o1. unfold Recv. rewrite M_bind_eq. unfold ask. cbn [fst snd inner clientSessionID].
      destruct (env_Recv _ _ _) as [[e1|]|]; cbn; [|done..]. by intros [= <-].
Qed.

(** ** Pause and resume *)

Lemma updateEntry_entries i f (o : Orchestrator) e : o_entries o !! i = Some e ->
  o_entries (updateEntry i f o).2 = <[i := f e]> (o_entries o).
Proof.
  intros He. cbn. apply map_eq. intros j. destruct (decide (i = j)) as [->|].
  - by rewrite lookup_alter_eq, lookup_insert_eq, He.
  - by rewrite lookup_alter_ne, lookup_insert_ne.
Qed.

Lemma quiet_entries_eq o o' : quiet o o' -> o_entries o' = o_entries o.
Proof. by intros ((_ & H & _) & _). Qed.

Lemma PauseSession_wp id o :
  wp (PauseSession env id) (fun r o' =>
    match r with
    | Some _ => o_entries o' = o_entries o
    | None => exists i e, o_sessions o !! id = Some i /\ o_entries o !! i = Some e /\ e_state e = sessionActive /\
        o_entries o' = <[i := set_state sessionPaused e]> (o_entries o)
    end) o.
Proof.
  unfold PauseSession. apply wp_getSessionEntry; [intros; by apply wp_ret|]. intros i e Hs He.
  destruct (bool_decide_reflect (e_state e = sessionActive)) as [Hst|]; cbn [negb]; [|by apply wp_ret].
  destruct (e_sandboxControl e) as [sc|]; [|by apply wp_ret]. apply wp_bind, wp_gets.
  assert (forall o1, quiet o o1 -> wp (
    err ← ask (fun h => env_PauseSandbox env h sc (e_sandboxID e)) (CPauseSandbox sc (e_sandboxID e));
    match err with
    | Some err => mret (Some err)
    | None => updateEntry i (set_state sessionPaused);; mret None
    end) (fun r o' => match r with
    | Some _ => o_entries o' = o_entries o
    | None => exists i e, o_sessions o !! id = Some i /\ o_entries o !! i = Some e /\ e_state e = sessionActive /\
        o_entries o' = <[i := set_state sessionPaused e]> (o_entries o)
    end) o1) as Hpause.
  { intros o1 H1. eapply wp_quiet; [apply ask_quiet; done|exact H1|].
    intros [err|] o2 H2%quiet_entries_eq; [by apply wp_ret|].
    apply wp_bind, wp_ret. exists i, e. split_and!; [done..|].
    rewrite (updateEntry_entries i _ o2 e); [by rewrite H2|by rewrite H2]. }
  destruct (_ && _); [|by apply Hpause].
  destruct (e_agentService e) as [s|]; [|by apply wp_ret].
  eapply wp_quiet; [unfold svcControl; quiet|reflexivity|]. intros ? o1 H1. by apply Hpause.
Qed.

(** A resumed entry: the same session on the same sandbox; where the pause
    stopped the sandbox's processes, with another process and agent. *)
Record resumed (e e' : sessionEntry) : Prop := {
  rs_identity : same_identity e e';
  rs_active : e_state e' = sessionActive;
  rs_failures : e_healthFailures e' = 0%Z;
  rs_agent : e_placement e <> PlacementAgentDirect ->
    e_agentService e' = e_agentService e /\ e_processID e' = e_processID e /\ e_agentAddress e' = e_agentAddress e;
}.

Lemma ResumeSessionSandbox_wp id o :
  wp (ResumeSessionSandbox env config id) (fun r o' =>
    match r with
    | Some _ => o_entries o' = o_entries o
    | None => exists i e e', o_sessions o !! id = Some i /\ o_entries o !! i = Some e /\ e_state e = sessionPaused /\
        o_entries o' = <[i := e']> (o_entries o) /\ resumed e e'
    end) o.
Proof.
  unfold ResumeSessionSandbox. apply wp_getSessionEntry; [intros; by apply wp_ret|]. intros i e Hs He.
  destruct (bool_decide_reflect (e_state e = sessionPaused)) as [Hst|]; cbn [negb]; [|by apply wp_ret].
  destruct (e_sandboxControl e) as [sc|]; [|by apply wp_ret].
  eapply wp_quiet; [apply ask_quiet; done|reflexivity|]. intros [err|] o1 H1; [apply wp_ret; by apply quiet_entries_eq|].
  assert (forall (f : sessionEntry -> sessionEntry) o2, quiet o o2 ->
    (forall t, resumed e (set_health sessionActive t 0 None (f e))) ->
    wp (t ← now env; updateEntry i (fun e => set_health sessionActive t 0 None (f e));; mret (None : option rerror))
       (fun r o' => match r with
    | Some _ => o_entries o' = o_entries o
    | None => exists i e e', o_sessions o !! id = Some i /\ o_entries o !! i = Some e /\ e_state e = sessionPaused /\
        o_entries o' = <[i := e']> (o_entries o) /\ resumed e e'
    end) o2) as Hdone.
  { intros f o2 H2%quiet_entries_eq Hf. apply wp_bind, wp_gets, wp_bind, wp_ret. eexists i, e, _. split_and!; [done..| |apply Hf].
    rewrite (updateEntry_entries i _ o2 e); [by rewrite H2|by rewrite H2]. }
  apply wp_bind. destruct (bool_decide_reflect (e_placement e = PlacementAgentDirect)) as [Hp|Hp]; cbn [negb].
  2: { apply wp_ret. apply (Hdone (fun e => e)); [done|]. by split. }
  unfold launchProcess, factory, killProcess, svcClose.
  eapply wp_quiet; [apply ask_quiet; done|exact H1|].
  intros [lr|err] o2 H2; [|apply wp_ret, wp_ret; by apply quiet_entries_eq].
  eapply wp_quiet; [apply ask_quiet; done|exact H2|]. intros [s|err] o3 H3.
  - eapply wp_quiet; [|exact H3|].
    { destruct (e_agentService e); quiet. }
    intros _ o4 H4. apply wp_ret. apply Hdone; [done|]. by split.
  - eapply wp_quiet; [apply ask_quiet; done|exact H3|]. intros ? o4 H4. apply wp_ret, wp_ret. by apply quiet_entries_eq.
Qed.

(** Pausing and resuming.  A pause or a resume that fails, at whatever
    step, leaves every entry as it was; a pause that succeeds was of an active
    session and does no more than mark it; resuming it brings back the same
    session on the same sandbox, active and with its failures forgotten, and
    with the same agent and process unless it runs directly on an instance. *)
Theorem pause_resume id o :
  let '(r1, o1) := PauseSession env id o in
  let '(r2, o2) := ResumeSessionSandbox env config id o in
  (r1 <> None -> o_entries o1 = o_entries o) /\ (r2 <> None -> o_entries o2 = o_entries o) /\
  (r1 = None ->
     let '(r3, o3) := ResumeSessionSandbox env config id o1 in
     r3 = None -> exists i e e', o_sessions o !! id = Some i /\ o_entries o !! i = Some e /\ e_state e = sessionActive /\
       o_entries o3 = <[i := e']> (o_entries o) /\ resumed e e').
Proof.
  pose proof (PauseSession_wp id o) as H1. pose proof (ResumeSessionSandbox_wp id o) as H2.
  pose proof (PauseSession_touch env id o) as Ht. unfold wp in H1, H2.
  destruct (PauseSession env id o) as [r1 o1]. destruct (ResumeSessionSandbox env config id o) as [r2 o2]. cbn [fst snd] in *.
  split_and!; [by destruct r1|by destruct r2|]. intros ->.
  destruct H1 as (i & e & Hi & He & Hst & He1).
  pose proof (ResumeSessionSandbox_wp id o1) as H3. unfold wp in H3.
  destruct (ResumeSessionSandbox env config id o1) as [r3 o3]. cbn [fst snd] in H3. intros ->.
  destruct H3 as (i' & e1 & e' & Hi' & He1' & Hst' & He3 & [[] ? ? ?]).
  assert (o_sessions o1 = o_sessions o) as Hs1 by (destruct Ht as [((? & _) & _)|]; done).
  rewrite Hs1, Hi in Hi'. injection Hi' as <-. rewrite He1, lookup_insert_eq in He1'. injection He1' as <-.
  exists i, e, e'. split_and!; [done..|by rewrite He3, He1, insert_insert_eq|]. by split; [split|..].
Qed.

(** ** The life of an entry *)

(** What may change the state of entry [i] in a step, with the states before and
    after it. *)
Inductive cause (s s' : state) (i : nat) : sessionState -> sessionState -> Prop :=
  | by_pause id : o_sessions s.1 !! id = Some i -> PauseSession env id s.1 = (None, s'.1) -> cause s s' i sessionActive sessionPaused
  | by_resume id : o_sessions s.1 !! id = Some i -> ResumeSessionSandbox env config id s.1 = (None, s'.1) ->
      cause s s' i sessionPaused sessionActive
  | by_failed_probe l1 l2 err : s.2 = l1 ++ PHealth i (Some (Some err)) :: l2 -> s'.2 = l1 ++ l2 ->
      cause s s' i sessionActive sessionUnhealthy
  | by_answered_probe l1 l2 : s.2 = l1 ++ PHealth i (Some None) :: l2 -> s'.2 = l1 ++ l2 ->
      cause s s' i sessionUnhealthy sessionActive
  | by_destroy st l1 l2 r : s.2 = l1 ++ PDestroy i :: l2 -> s'.2 = l1 ++ l2 ->
      destroySessionEntry env unicodeToLower i s.1 = (r, s'.1) -> cause s s' i st sessionDestroyed
  | by_shutdown st r : s.2 = [] -> o_closing s.1 = true -> shutdown env unicodeToLower config s.1 = (r, s'.1) ->
      cause s s' i st sessionDestroyed.

(** The entry [i] is as it was in the other state, or its state has a cause. *)
Definition caused (s s' : state) : Prop :=
  forall i e e', o_entries s.1 !! i = Some e -> o_entries s'.1 !! i = Some e' ->
    e_state e' = e_state e \/ cause s s' i (e_state e) (e_state e').

Lemma caused_same s s' : o_entries s'.1 = o_entries s.1 -> caused s s'.
Proof. intros H i e e' He He'. rewrite H in He'. left. congruence. Qed.

Lemma caused_insert s s' j e1 e1' : o_entries s.1 !! j = Some e1 -> o_entries s'.1 = <[j := e1']> (o_entries s.1) ->
  e_state e1' = e_state e1 \/ cause s s' j (e_state e1) (e_state e1') -> caused s s'.
Proof.
  intros Hj H Hc i e e' He He'. rewrite H in He'. destruct (decide (j = i)) as [<-|].
  - rewrite lookup_insert_eq in He'. injection He' as <-. rewrite Hj in He. by injection He as <-.
  - rewrite lookup_insert_ne in He' by done. left. congruence.
Qed.

Lemma serve_caused q o o' ps : serve env config q o = ((), o') -> caused (o, ps) (o', ps).
Proof.
  assert (forall A (m : M Orchestrator A), runs quiet m -> (m;; mret ()) o = ((), o') -> caused (o, ps) (o', ps)) as Hq.
  { intros A m Hm. rewrite M_bind_eq. intros [= <-]. by apply caused_same, quiet_entries_eq. }
  destruct q as [id|q id|q id|req|id|id|r]; cbn [serve]; [apply Hq..| | |apply Hq].
  - apply withTarget_quiet. intros. quiet.
  - apply withTarget_quiet. intros. quiet.
  - apply withTarget_quiet. intros. unfold svcControl. quiet.
  - unfold ResumeSession, beginOperation. destruct req; [|quiet].
    apply runs_bind; [apply _|quiet|]. intros [err|]; [quiet|]. destruct (bool_decide _); [quiet|].
    apply withTarget_quiet. intros. quiet.
  - rewrite M_bind_eq. intros [= <-]. pose proof (PauseSession_wp id o) as H. unfold wp in H.
    destruct (PauseSession env id o) as [r1 o1] eqn:E. cbn [fst snd] in *. destruct r1 as [err|]; [by apply caused_same|].
    destruct H as (i & e & Hi & He & Hst & H). eapply caused_insert; [exact He|exact H|]. right. cbn. rewrite Hst. by eapply by_pause.
  - rewrite M_bind_eq. intros [= <-]. pose proof (ResumeSessionSandbox_wp id o) as H. unfold wp in H.
    destruct (ResumeSessionSandbox env config id o) as [r1 o1] eqn:E. cbn [fst snd] in *. destruct r1 as [err|]; [by apply caused_same|].
    destruct H as (i & e & e' & Hi & He & Hst & H & [_ Ha _ _]). eapply caused_insert; [exact He|exact H|]. right. rewrite Hst, Ha. by eapply by_resume.
  - unfold Recv. quiet.
Qed.

Lemma settle_caused i outcome o o' l1 l2 : settle env i outcome o = ((), o') ->
  caused (o, l1 ++ PHealth i outcome :: l2) (o', l1 ++ l2).
Proof.
  destruct outcome as [checkErr|]; [|intros [= <-]; by apply caused_same]. cbn [settle]. rewrite M_bind_eq. intros [= <-].
  destruct (o_entries o !! i) as [e|] eqn:He.
  - eapply caused_insert; [exact He|apply (updateEntry_entries i _ o e He)|]. cbn [fst snd gets now].
    unfold applyHealth. destruct (unchecked (e_state e)) eqn:Hu; [by left|]. unfold unchecked in Hu. apply bool_decide_eq_false in Hu.
    destruct (e_state e) eqn:Hst; try (exfalso; apply Hu; set_solver); destruct checkErr as [err|]; cbn; try (by left); right.
    + by eapply by_failed_probe.
    + by eapply by_answered_probe.
  - apply caused_same. cbn. apply map_eq. intros j. destruct (decide (i = j)) as [->|]; [by rewrite lookup_alter_eq, He|by rewrite lookup_alter_ne].
Qed.

Lemma step_caused s s' : step s s' -> Inv config s -> caused s s'.
Proof.
  destruct 1 as [o ps req e resp o' Hlt H|o ps req err o' Hlt H|o l1 l2 e resp r o' H|o ps id i e Hcl H|o l1 l2 i r o' H
    |o ps i e outcome o' He H|o l1 l2 i outcome o' H|o ps q o' H|o ps|o r o' Hcl H]; intros Hinv.
  - apply caused_same. by destruct (wp_eq _ _ _ _ _ (provision_wp env config req o) H) as ((_ & ? & _) & _).
  - apply caused_same. by destruct (wp_eq _ _ _ _ _ (provision_wp env config req o) H) as ((_ & ? & _) & _).
  - pose proof (inv_ready _ _ Hinv (PPublish e resp) e) as (Hr & _); [set_solver|done|].
    destruct (wp_eq _ _ _ _ _ (publish_wp env unicodeToLower config e resp o Hr) H) as (_ & _ & Hres).
    destruct r as [a|err]; [|apply caused_same; by destruct Hres as ((_ & ? & _) & _)].
    destruct Hres as (_ & _ & _ & _ & _ & i & Hi & _ & Hes). intros j ej ej' Hj Hj'. cbn in *. rewrite Hes, lookup_insert_ne in Hj' by congruence.
    left. congruence.
  - by apply caused_same.
  - destruct (inv_found _ _ Hinv i) as [e He]; [set_solver|]. cbn in He.
    destruct (wp_eq _ _ _ _ _ (destroySessionEntry_wp env unicodeToLower i e o He) H) as (_ & H2 & _).
    eapply caused_insert; [exact He|exact H2|]. right. by eapply by_destroy.
  - apply caused_same. pose proof (probe_quiet env e o) as Hq. rewrite H in Hq. by apply quiet_entries_eq.
  - by apply settle_caused.
  - by eapply serve_caused.
  - by apply caused_same.
  - intros i e e' He He'. destruct (decide (e_state e' = e_state e)) as [|Hne]; [by left|right].
    destruct (wp_eq _ _ _ _ _ (shutdown_retires env unicodeToLower config o Hinv) H i e He) as (e2 & He2 & _ & [Hs|Hs]); cbn in *; [congruence|].
    rewrite He2 in He'. injection He' as <-. rewrite Hs. by eapply by_shutdown.
Qed.

(** C18: the life of an entry.  No step gives an entry another session, sandbox
    or backend session, and the state of an entry changes only for a cause that
    is its own: from active to paused by a pause of that session that succeeded,
    back by a resume of it that succeeded, from active to unhealthy when a failed
    probe of it is settled and back when an answered one is, and to destroyed by
    the destruction of it or by the shutdown.  So a health probe that ends late
    never wakes a paused or destroyed session, and a destroyed one stays
    destroyed. *)
Theorem entry_lifecycle s s' (Hr : reachable s) (Hs : step s s') :
  forall i e, o_entries s.1 !! i = Some e -> exists e', o_entries s'.1 !! i = Some e' /\ same_identity e e' /\
    (e_state e' = e_state e \/ cause s s' i (e_state e) (e_state e')) /\
    (e_state e = sessionDestroyed -> e_state e' = sessionDestroyed).
Proof.
  intros i e He. destruct (step_law _ _ _ _ _ Hs (reachable_Inv _ Hr)) as [_ H].
  destruct (H i e He) as (e' & He' & Hi & Ha). exists e'. split_and!; [done..| |].
  - by eapply (step_caused _ _ Hs (reachable_Inv _ Hr)).
  - intros Hd. rewrite Hd in Ha. by inversion Ha.
Qed.

(** ** Health *)

Notation verdict := (option rerror * Z)%type.
Definition probes (l : list verdict) (e : sessionEntry) : sessionEntry :=
  foldl (fun e v => applyHealth v.1 v.2 e) e l.

Definition isCall (p : call -> bool) (o o' : Orchestrator) : nat :=
  length (filter (fun c => p c = true) (drop (length (o_history o)) (o_history o'))).
Definition isStatus (c : call) : bool := match c with CGetProcessStatus _ _ _ => true | _ => false end.

Lemma same_identity_health e e' st t n err : same_identity e e' -> same_identity e (set_health st t n err e').
Proof. intros []. constructor; done. Qed.

(** A session's health is that of its last probe.  After a probe that
    answered, followed by any number of failed ones, the session is active if
    there were none and unhealthy otherwise, its failures are their number, its
    error the last one's and its last healthy time that of the answer; one
    answer makes it active again.  A session that is being created, is paused
    or destroyed is left alone.  The agent's process is looked at only by a
    failed probe of an agent placement that would be the third in a row. *)
Theorem health_last_probe (e : sessionEntry) :
  (unchecked (e_state e) = true -> forall l, probes l e = e) /\
  (unchecked (e_state e) = false -> forall l t (errs : list (rerror * Z)),
     let e' := probes (l ++ (None, t) :: ((fun p => (Some p.1, p.2)) <$> errs)) e in
     e_state e' = (if bool_decide (errs = []) then sessionActive else sessionUnhealthy) /\
     e_healthFailures e' = Z.of_nat (length errs) /\ e_healthErr e' = fst <$> last errs /\ e_lastHealth e' = t /\
     same_identity e e') /\
  (forall o, let '(outcome, o') := probe env e o in
     (isCall isStatus o o' <= 1)%nat /\
     (isCall isStatus o o' = 1%nat ->
        isAgentPlacement (e_placement e) = true /\ (healthFailureThreshold <= e_healthFailures e + 1)%Z /\
        exists err, outcome = Some (Some err))).
Proof.
  split_and!.
  - intros Hu l. induction l as [|v l IH]; [done|]. cbn. unfold applyHealth at 2. rewrite Hu. exact IH.
  - intros Hu l t errs.
    assert (forall l, unchecked (e_state (probes l e)) = false /\ same_identity e (probes l e)) as Hl.
    { intros l'. induction l' as [|v l' IH] using rev_ind; [done|]. unfold probes. rewrite foldl_snoc.
      fold (probes l' e). destruct IH as [IH1 IH2]. unfold applyHealth. rewrite IH1.
      by destruct v as [[err|] t']; (split; [|apply same_identity_health]). }
    unfold probes. rewrite foldl_app. fold (probes l e). destruct (Hl l) as [H1 H2]. cbn [foldl fst snd].
    set (e1 := set_health sessionActive t 0 None (probes l e)).
    assert (applyHealth None t (probes l e) = e1) as -> by (unfold applyHealth; by rewrite H1).
    assert (same_identity e e1) as Hid1 by by apply same_identity_health.
    induction errs as [|[err t'] errs IH] using rev_ind.
    + rewrite bool_decide_true by done. by split_and!.
    + rewrite fmap_app, foldl_app. cbn [fmap list_fmap foldl fst snd]. cbv zeta in IH.
      set (e2 := foldl _ e1 _) in *. destruct IH as (I1 & I2 & I3 & I4 & I5). cbn in *.
      assert (unchecked (e_state e2) = false) as Hu2 by (rewrite I1; by case_bool_decide).
      unfold applyHealth. rewrite Hu2. rewrite bool_decide_false by by destruct errs.
      rewrite length_app, last_snoc. cbn. split_and!; [done|lia|done|done|by apply same_identity_health].
  - intros o. assert (wp (probe env e) (fun outcome o' =>
      (isCall isStatus o o' <= 1)%nat /\
      (isCall isStatus o o' = 1%nat ->
        isAgentPlacement (e_placement e) = true /\ (healthFailureThreshold <= e_healthFailures e + 1)%Z /\
        exists err, outcome = Some (Some err))) o) as H.
    { assert (isCall isStatus o o = 0%nat) as H0 by (unfold isCall; by rewrite drop_all).
      unfold probe. destruct (unchecked (e_state e)); [apply wp_ret; rewrite H0; split; [lia|done]|].
      assert (forall a r, isCall isStatus o (record (CHealth a r) o) = 0%nat) as Hh.
      { intros a r. unfold isCall, record. cbn [o_history]. by rewrite drop_app_length. }
      assert (forall a r b q st, isCall isStatus o (record (CGetProcessStatus b q st) (record (CHealth a r) o)) = 1%nat) as Hp.
      { intros a r b q st. unfold isCall, record. cbn [o_history]. by rewrite <- app_assoc, drop_app_length. }
      unfold checkPlacementHealth, checkHTTPHealth, checkProcessHealth. destruct (isAgentPlacement (e_placement e)) eqn:Hag.
      - apply wp_bind, wp_ask. intros [err|]; [|apply wp_ret; rewrite Hh; split; [lia|done]].
        destruct (e_sandboxControl e); [|apply wp_ret; rewrite Hh; split; [lia|done]].
        rewrite andb_true_l. destruct (_ && _) eqn:Hg; [|apply wp_ret; rewrite Hh; split; [lia|done]].
        apply wp_bind, wp_bind, wp_ask. intros st. apply wp_ret, wp_ret. rewrite Hp. split; [lia|]. intros _.
        apply andb_true_iff in Hg as [_ Hg]. apply bool_decide_eq_true in Hg.
        split_and!; [done|lia|by eexists].
      - apply wp_bind. case_bool_decide; [apply wp_ask; intros [err|]|apply wp_ret].
        + destruct (e_sandboxControl e); cbn [andb]; apply wp_ret; rewrite Hh; (split; [lia|done]).
        + apply wp_ret. rewrite Hh. split; [lia|done].
        + apply wp_ret. rewrite H0. split; [lia|done]. }
    revert H. unfold wp. by destruct (probe env e o).
Qed.
End Main.
