(* ===== verification/OrchestratorLoop.v ===== *)
(** * OrchestratorLoop: the orchestrator on the in-process agent service

    Sessions placed as "tools-sandbox" share one agent service, the
    [AgentLoopService] of internal/agent/service.go ([AgentService]).  Here it
    answers the orchestrator's calls to it; the other backends stay arbitrary.
    Runs of the whole, with a concrete environment. *)

From Stdlib Require Import Ascii String.
From S2P Require Import Prelude GoStrings GoText AiTypes AgentTypes AgentService AgentServiceProps FleetTypes Rpc Orchestrator OrchestratorProps OrchestratorSteps OrchestratorMain.

Local Open Scope string_scope.
Local Open Scope list_scope.
Local Open Scope stdpp_scope.

Section Loop.
Context (iter : list (Z * subscriber) -> list (Z * subscriber)).
Context (order_sessions : list (string * nat) -> list (string * nat)).
Context (order_streams : list nat -> list nat).
Context {Tools : Type}.
Context (GetModel : string -> string -> res error Model).
Context (toolFactory : SessionConfig -> res error Tools).
Context (driverFactory : string -> Model -> Tools -> SessionConfig -> res error driver_spec).
Context (RecordToAgentMessage : AgentMessageRecord -> res error AgentMessage).
(** What the sessions' drivers do after each call. *)
Context (acts : list call -> list (nat * driver_act)).
Context (service0 : service).

Notation serve := (AgentService.serve iter order_sessions order_streams GetModel toolFactory driverFactory RecordToAgentMessage).

(** The request a call to the shared service is. *)
Definition loopRequest (c : call) : option AgentService.request :=
match c with
| CCreateSession _ LoopService cfg _ => Some (ReqCreate (Some cfg))
| CGetSession LoopService id _ => Some (ReqGet (Some id))
| CStream LoopService (SendMessageReq m) id _ => Some (ReqSend (Some id) m)
| CStream LoopService ContinueReq id _ => Some (ReqContinue (Some id))
| CStream LoopService SubscribeReq id _ => Some (ReqSubscribe (Some id))
| CControl LoopService (SteerReq m) id _ => Some (ReqSteer (Some id) m)
| CControl LoopService (FollowUpReq m) id _ => Some (ReqFollowUp (Some id) m)
| CControl LoopService (AbortReq m) id _ => Some (ReqAbort (Some id) m)
| CResumeSession LoopService req _ => Some (ReqResume (Some req))
| CDestroySession _ LoopService id _ => Some (ReqDestroy (Some id))
| CCloseService LoopService _ => Some (ReqClose [] [])
| _ => None
end.

Definition serveAll (qs : list AgentService.request) (s : service) : service := (for_range qs serve s).2.

(** The requests of a history, with the drivers' activity between them. *)
Fixpoint requests (before h : list call) : list AgentService.request :=
match h with
| [] => []
| c :: h' =>
    let before' := before ++ [c] in
    option_list (loopRequest c) ++ ((fun p => ReqDriver p.1 p.2) <$> acts before') ++ requests before' h'
end.

(** The state of the shared service after a history. *)
Definition loopState (h : list call) : service := serveAll (requests [] h) service0.

Definition agentErr {A} (r : outcome error A) : option rerror :=
match r with Return (Ok _) => None | Return (Err e) => Some (rAgent e) | Panic v => Some (rText v) end.

(** The environment whose shared service is that one. *)
Definition with_loop (env : Env) : Env :=
mkEnv (env_Now env) (env_CreateSandbox env) (env_DestroySandbox env) (env_LaunchProcess env) (env_KillProcess env)
  (env_GetProcessStatus env) (env_PauseSandbox env) (env_ResumeSandbox env) (env_Capabilities env) (env_CloseControl env)
  (env_Factory env)
  (fun h s cfg => match s with
     | RemoteService _ => env_CreateSession env h s cfg
     | LoopService =>
         match (AgentService.CreateSession GetModel toolFactory driverFactory (Some cfg) (loopState h)).1 with
         | Return (Ok su) => Ok (mkCreateAgentSessionResponse (su_SessionID su) (AgentState_string (su_State su)))
         | Return (Err e) => Err (rAgent e)
         | Panic v => Err (rText v)
         end
     end)
  (fun h s id => match s with
     | RemoteService _ => env_GetSession env h s id
     | LoopService =>
         match (AgentService.GetSession (Some id) (loopState h)).1 with
         | Return (Ok g) => Ok (Some g)
         | Return (Err e) => Err (rAgent e)
         | Panic v => Err (rText v)
         end
     end)
  (env_Stream env)
  (fun h s q id => match s with
     | RemoteService _ => env_Control env h s q id
     | LoopService =>
         agentErr match q with
         | SteerReq m => (SteerSession iter (Some id) m (loopState h)).1
         | FollowUpReq m => (FollowUpSession iter (Some id) m (loopState h)).1
         | AbortReq m => (AbortSession iter (Some id) m (loopState h)).1
         end
     end)
  (env_ResumeSession env)
  (fun h s id => match s with
     | RemoteService _ => env_DestroySession env h s id
     | LoopService => agentErr (AgentService.DestroySession iter order_streams (Some id) (loopState h)).1
     end)
  (fun h s => match s with
     | RemoteService _ => env_CloseService env h s
     | LoopService => agentErr (CloseService iter order_sessions order_streams [] [] (loopState h)).1
     end)
  (env_Recv env) (env_Health env).

Lemma serveAll_closed qs s : svc_closed (wd s) = true -> svc_closed (wd (serveAll qs s)) = true.
Proof.
unfold serveAll. intros H. apply (for_range_inv (fun s => svc_closed (wd s) = true)); [|done].
intros q s' _. apply serve_closed.
Qed.

Lemma serveAll_app qs1 qs2 s : serveAll (qs1 ++ qs2) s = serveAll qs2 (serveAll qs1 s).
Proof. unfold serveAll. by rewrite for_range_app. Qed.

Lemma requests_closed before h s : (exists r, CCloseService LoopService r ∈ h) ->
svc_closed (wd (serveAll (requests before h) s)) = true.
Proof.
revert before s. induction h as [|c h IH]; intros before s [r Hr]; [by apply not_elem_of_nil in Hr|].
cbn [requests]. rewrite serveAll_app, serveAll_app. apply elem_of_cons in Hr as [<-|Hr]; [|by apply IH; exists r].
apply serveAll_closed, serveAll_closed. cbn [loopRequest].
change (option_list (Some (ReqClose [] []))) with [ReqClose [] []]. unfold serveAll. cbn [for_range].
rewrite M_bind_eq. change (svc_closed (wd (serve (ReqClose [] []) s).2) = true).
unfold AgentService.serve. rewrite M_bind_eq. apply CloseService_closed.
Qed.

Section Environment.
Context (env0 : Env) (unicodeToLower : string -> string) (config : OrchestratorConfig).
Notation env := (with_loop env0).

Lemma svcCreateSession_closed c cfg (Q : res rerror CreateAgentSessionResponse -> Orchestrator -> Prop) o :
  (exists r, CCloseService LoopService r ∈ o_history o) -> (forall err o', Q (Err err) o') ->
  wp (svcCreateSession env c LoopService cfg) Q o.
Proof.
  intros Hclosed HQ. unfold svcCreateSession, wp, ask. cbn [fst snd env_CreateSession with_loop].
  rewrite CreateSession_closed by by apply requests_closed. apply HQ.
Qed.

(** Once the shared service was closed, no tools-sandbox session is made. *)
Lemma tools_refused cfg o : placementFromMetadata (sc_Metadata cfg) = Ok PlacementToolsSandbox ->
  (exists r, CCloseService LoopService r ∈ o_history o) ->
  exists err, (CreateSession env config (Some cfg) o).1 = Err err.
Proof.
  intros Hpl Hclosed.
  change (wp (CreateSession env config (Some cfg)) (fun r _ => exists err, r = Err err) o).
  unfold CreateSession, provision. apply wp_bind, wp_bind, wp_gets. destruct (o_closing o); [apply wp_ret, wp_ret; by eexists|].
  rewrite Hpl. destruct (validatePlacement config PlacementToolsSandbox); [apply wp_ret, wp_ret; by eexists|].
  apply wp_bind. unfold wp at 1. cbn [generateSessionID fst snd]. set (id := "orch-" +:+ _). set (o1 := set_counter _ _).
  apply wp_bind, wp_gets.
  rewrite (bool_decide_false (PlacementToolsSandbox = PlacementAgentDirect)),
(bool_decide_false (PlacementToolsSandbox = PlacementAgentSandbox)), bool_decide_true by done.
  unfold provisionTools, createSandbox, destroySandbox.
  apply wp_bind, wp_ask. intros [sb|err]; [|apply wp_ret, wp_ret; by eexists].
  apply wp_bind, svcCreateSession_closed.
  { destruct Hclosed as [r Hr]. exists r. unfold record. cbn [o_history]. apply elem_of_app. by left. }
  intros err o'. apply wp_bind, wp_ask. intros d. apply wp_ret, wp_ret. by eexists.
Qed.

(** C7: destroying one tools-sandbox session closes the agent service all of
them share: [DestroySession] answers, the entry is gone, and from then on
every creation of such a session fails, whatever happens in between. *)
Theorem destroy_closes_shared_service (o : Orchestrator) id i e cfg (o2 : Orchestrator)
(Hid : o_sessions o !! id = Some i) (He : o_entries o !! i = Some e) (Hopen : o_closing o = false)
(Hloop : e_agentService e = Some LoopService)
(Hlater : exists l, o_history o2 = o_history (DestroySession env unicodeToLower (Some id) o).2 ++ l)
(Htools : placementFromMetadata (sc_Metadata cfg) = Ok PlacementToolsSandbox) :
  exists err, (CreateSession env config (Some cfg) o2).1 = Err err.
Proof.
  apply tools_refused; [done|]. destruct Hlater as [l ->].
  assert (wp (DestroySession env unicodeToLower (Some id)) (fun _ o' => exists r, CCloseService LoopService r ∈ o_history o') o) as [r Hr].
  2: { exists r. apply elem_of_app. by left. }
  unfold DestroySession. apply wp_bind, wp_gets. rewrite Hopen. apply wp_bind. unfold wp at 1.
  assert ((getSessionEntry id o).1 = Ok (i, e)) as -> by (cbn; rewrite Hid; cbn; by rewrite He).
  change (getSessionEntry id o).2 with o. unfold destroySessionEntry. apply wp_bind, wp_gets. rewrite He. cbn [whenSome].
  rewrite Hloop. cbn [whenSome]. apply wp_bind, wp_ask. intros d. apply wp_bind.
  apply (wp_mono _ (fun _ _ => True)); [done|]. intros k ok _. apply wp_bind.
  apply (wp_mono _ (fun _ _ => True)); [done|]. intros k' ok' _. apply wp_bind, wp_ask. intros c.
  unfold updateEntry, removeSessionEntry. apply wp_bind. unfold wp at 1. cbn. apply wp_bind. unfold wp at 1. cbn. apply wp_ret.
  exists c. cbn. apply elem_of_app. right. by apply list_elem_of_singleton.
Qed.
End Environment.
End Loop.

(** ** Runs *)

Module Demo.
Definition caps : SandboxCapabilities := mkSandboxCapabilities false false true true false 0 0.

(** Backends that work; [refuse] is what destroying a sandbox answers. *)
Definition env (refuse : list call -> option rerror) (create : list call -> res rerror CreateAgentSessionResponse) : Env :=
  mkEnv (fun h => Z.of_nat (length h))
    (fun h b _ => Ok (mkCreateSandboxResponse ("sb" +:+ pretty (Z.of_nat (length h))) "10.0.0.1:9100" caps))
    (fun h _ _ => refuse h)
    (fun h b req => Ok (mkLaunchProcessResponse ("p" +:+ pretty (Z.of_nat (length h))) "10.0.0.1:8081" ProcessRunning))
    (fun _ _ _ => None)
    (fun _ _ _ => Ok (Some (mkGetProcessStatusResponse ProcessRunning None)))
    (fun _ _ _ => None) (fun _ _ _ => None) (fun _ _ => caps) (fun _ _ => None)
    (fun h _ => Ok (RemoteService (Z.of_nat (length h))))
    (fun h _ _ => create h)
    (fun _ _ _ => Ok None) (fun h _ _ _ => Ok (Z.of_nat (length h))) (fun _ _ _ _ => None)
    (fun _ _ _ => Ok None) (fun _ _ _ => None) (fun _ _ => None) (fun _ _ => Err rEOF) (fun _ _ => None).

Definition good : Env := env (fun _ => None) (fun _ => Ok (mkCreateAgentSessionResponse "" "idle")).
Definition config : OrchestratorConfig :=
  mkOrchestratorConfig true true true false false [] 2 0 0 0 "flexagent" 8081 [] ∅.
Definition cfgOf (placement : string) : SessionConfig :=
  mkSessionConfig "" "native" "m" "p" "" [] {["placement_mode" := AString placement]}
    (mkToolEnvironmentConfig ToolEnvUnset "" "" "").
Definition lower (s : string) : string := s.

Definition created (e : Env) (placement : string) : Orchestrator :=
  (CreateSession e config (Some (cfgOf placement)) empty_orchestrator).2.
Definition one : Orchestrator := created good "agent-direct".

Lemma one_reachable : rtc (step good lower config) (empty_orchestrator, []) (one, []).
Proof.
  apply (CreateSession_steps good lower config (Some (cfgOf "agent-direct")) empty_orchestrator
           (CreateSession good config (Some (cfgOf "agent-direct")) empty_orchestrator).1).
  - vm_compute. reflexivity.
  - apply surjective_pairing.
Qed.

Lemma one_entry : exists i, o_sessions one !! "orch-00000001" = Some i.
Proof. eexists. vm_compute. reflexivity. Qed.

(** A session's life: created, paused, resumed with another process, destroyed. *)
Definition lifeOf (e : Env) (placement : string) : list (option (sessionState * string)) :=
  let see (o : Orchestrator) := (fun x => (e_state x, e_processID x)) <$> (o_entries o !! 0%nat) in
  let o1 := created e placement in
  let o2 := (PauseSession e "orch-00000001" o1).2 in
  let o3 := (ResumeSessionSandbox e config "orch-00000001" o2).2 in
  let o4 := (Orchestrator.DestroySession e lower (Some "orch-00000001") o3).2 in
  see <$> [o1; o2; o3; o4].

Example lives :
  lifeOf good "agent-direct" =
    [Some (sessionActive, "p1"); Some (sessionPaused, "p1"); Some (sessionActive, "p7"); Some (sessionDestroyed, "p7")] /\
  lifeOf good "agent-sandbox" =
    [Some (sessionActive, "p1"); Some (sessionPaused, "p1"); Some (sessionActive, "p1"); Some (sessionDestroyed, "p1")].
Proof. split; vm_compute; reflexivity. Qed.

(** Creation runs out of time: the clean-up is made under the same context,
    and where that makes it fail the sandbox is never asked for again. *)
Definition expired (h : list call) : option rerror :=
  if existsb (fun c => match c with CCreateSession _ _ _ (Err _) => true | _ => false end) h
  then Some (rAgent ContextDeadlineExceeded) else None.
Definition slow : Env := env expired (fun _ => Err (rAgent ContextDeadlineExceeded)).

Example expired_creation_leaks :
  let o := (Close slow lower config (created slow "agent-direct")).2 in
  o_sessions o = ∅ /\
  omap (fun c => match c with CDestroySandbox c b id r => Some (c, b, id, r) | _ => None end) (o_history o) =
    [(CreateCtx, Direct, "sb0", Some (rAgent ContextDeadlineExceeded))].
Proof. split; vm_compute; reflexivity. Qed.
End Demo.

Lemma sandboxes_accounted_witness :
  (Z.of_nat (size (o_sessions Demo.one)) <= 2)%Z /\ made Direct "sb0" (o_history Demo.one) = 1%nat.
Proof.
  split; [|vm_compute; reflexivity].
  exact (proj1 (proj2 (sandboxes_accounted Demo.good Demo.lower Demo.config Demo.one [] Demo.one_reachable)) ltac:(done)).
Defined.

(** A probe begins, the session is paused, and the probe ends with a success. *)
Module Late.
Definition entry : sessionEntry := default (newEntry "" "" 0) (o_entries Demo.one !! 0%nat).
Definition outcome : option (option rerror) := (probe Demo.good entry Demo.one).1.
Definition probing : Orchestrator := (probe Demo.good entry Demo.one).2.
Definition paused : Orchestrator := (serve Demo.good Demo.config (RqPause "orch-00000001") probing).2.
Definition settled : Orchestrator := (settle Demo.good 0 outcome paused).2.
Definition pausedEntry : sessionEntry := default (newEntry "" "" 0) (o_entries paused !! 0%nat).

Lemma unit_pair {A} (x : () * A) : x = ((), x.2).
Proof. by destruct x as [[]]. Qed.

Lemma paused_reachable : rtc (step Demo.good Demo.lower Demo.config) (empty_orchestrator, []) (paused, [PHealth 0 outcome]).
Proof.
  eapply rtc_r; [eapply rtc_r; [exact Demo.one_reachable|]|].
  - apply (st_probe _ _ _ Demo.one [] 0 entry outcome probing); [vm_compute; reflexivity|apply surjective_pairing].
  - apply (st_request _ _ _ probing _ (RqPause "orch-00000001")), unit_pair.
Qed.

Lemma settled_step : step Demo.good Demo.lower Demo.config (paused, [PHealth 0 outcome]) (settled, []).
Proof. apply (st_settle _ _ _ paused [] [] 0 outcome settled), unit_pair. Qed.
End Late.

Lemma entry_lifecycle_witness :
  (Late.outcome = Some None /\ e_state Late.pausedEntry = sessionPaused) /\
  exists e', o_entries Late.settled !! 0%nat = Some e' /\ same_identity Late.pausedEntry e' /\ e_state e' = sessionPaused.
Proof.
  split; [split; vm_compute; reflexivity|].
  destruct (entry_lifecycle Demo.good Demo.lower Demo.config (Late.paused, [PHealth 0 Late.outcome]) (Late.settled, [])
    Late.paused_reachable Late.settled_step 0%nat Late.pausedEntry) as (e' & He' & Hi & Hc & _); [vm_compute; reflexivity|].
  exists e'. split; [exact He'|]. split; [exact Hi|].
  assert (e_state Late.pausedEntry = sessionPaused) as Hp by (vm_compute; reflexivity). rewrite Hp in Hc. destruct Hc as [Hc|Hc]; [exact Hc|].
  vm_compute in He'. injection He' as <-. reflexivity.
Defined.

Lemma forwarding_witness :
  exists e s, o_entries Demo.one !! 0%nat = Some e /\ e_agentService e = Some s.
Proof.
  destruct (forwarding Demo.good Demo.lower Demo.config Demo.one [] "orch-00000001" 0%nat Demo.one_reachable)
    as (e & s & He & Hs & _); [vm_compute; reflexivity|]. exists e, s. split; [exact He|exact Hs].
Defined.

(** Two tools-sandbox sessions on a shared service. *)
Module Shared.
Definition toolFactory (c : SessionConfig) : res error (list noopTool) := Ok (buildNoopTools (sc_Tools c)).
Definition with_service (e : Env) : Env :=
  with_loop AgentServiceProps.Demo.iter_id AgentServiceProps.Demo.sessions_id AgentServiceProps.Demo.streams_id
    AgentServiceProps.Demo.GetModel toolFactory AgentServiceProps.Demo.newDriver AgentServiceProps.Demo.decode
    (fun _ => []) (NewAgentLoopService false 4) e.
Definition env : Env := with_service Demo.good.
Definition tools : SessionConfig := Demo.cfgOf "tools-sandbox".
Definition create (o : Orchestrator) : Orchestrator := (CreateSession env Demo.config (Some tools) o).2.
Definition two : Orchestrator := create (create empty_orchestrator).
Definition afterDestroy : Orchestrator :=
  (Orchestrator.DestroySession env Demo.lower (Some "orch-00000001") two).2.

(** The other session is left in the table, but its service forgot it. *)
Example other_session_lost :
  elements (dom (o_sessions two)) = ["orch-00000001"; "orch-00000002"] /\
  elements (dom (o_sessions afterDestroy)) = ["orch-00000002"] /\
  (GetSession env (Some "orch-00000002") two).1 =
    Ok (Some (mkGetSessionResponse "orch-00000002" StateIdle zeroMetrics 0)) /\
  (GetSession env (Some "orch-00000002") afterDestroy).1 =
    Err (rAgent (ServiceError CodeNotFound ("session " +:+ quote "orch-00000002" +:+ " not found") None)) /\
  (CreateSession env Demo.config (Some tools) afterDestroy).1 =
    Err (rJoin [rAgent (ServiceError CodeUnavailable "service is closing" None)]).
Proof. split_and!; vm_compute; reflexivity. Qed.
End Shared.

Lemma destroy_closes_shared_service_witness :
  exists err, (CreateSession Shared.env Demo.config (Some Shared.tools) Shared.afterDestroy).1 = Err err.
Proof.
  apply (destroy_closes_shared_service AgentServiceProps.Demo.iter_id AgentServiceProps.Demo.sessions_id
    AgentServiceProps.Demo.streams_id AgentServiceProps.Demo.GetModel Shared.toolFactory AgentServiceProps.Demo.newDriver
    AgentServiceProps.Demo.decode (fun _ => []) (NewAgentLoopService false 4) Demo.good Demo.lower Demo.config
    Shared.two "orch-00000001" 0%nat (default (newEntry "" "" 0) (o_entries Shared.two !! 0%nat)) Shared.tools
    Shared.afterDestroy).
  - vm_compute. reflexivity.
  - vm_compute. reflexivity.
  - vm_compute. reflexivity.
  - vm_compute. reflexivity.
  - exists []. symmetry. apply app_nil_r.
  - vm_compute. reflexivity.
Defined.
