(* ===== verification/Direct.v ===== *)
(** * Direct: sandboxes that are cloud instances

    internal/sandbox/control/direct: the adapter that runs agents on raw EC2
    instances.  The cloud ([InstanceProvisioner]), the SSM service that runs shell
    commands on an instance, the clock, the caller's context, crypto/rand,
    math/rand and text/template are an environment that answers each call as a
    function of the calls made before it; all calls are kept.  Logs are left out.

    The state is the table of instances, [None] once [Close] has dropped it, and
    the closing flag. *)

From Stdlib Require Import Ascii SpecFloat.
From S2P Require Import Prelude GoStrings GoText GoFloat FleetTypes.

Local Open Scope Z_scope.
Local Open Scope string_scope.
Local Open Scope list_scope.
Local Open Scope stdpp_scope.
Local Open Scope go_scope.

(** ** errors.go *)

Inductive directSentinel : Type :=
  | InstanceNotFound | ProcessNotFound | InstanceNotReady | InstanceReadyTimeout | ProcessReadyTimeout
  | SSMUnavailable | SSMTimeout | ProcessLaunchFailed | ResourcesExceedMaximum | DirectClosed.
#[export] Instance directSentinel_eq_dec : EqDecision directSentinel.
Proof. solve_decision. Defined.

Inductive ctxError : Type := Canceled | DeadlineExceeded.
#[export] Instance ctxError_eq_dec : EqDecision ctxError.
Proof. solve_decision. Defined.

(** A sentinel, the context's error, another error with its text, an [Errorf]
    that wraps an error with %w, and [errors.Join]; [OutOfFuel] is a polling
    loop that the bound on its rounds stopped: with enough rounds no call
    returns it. *)
Inductive derror : Type :=
  | Sentinel (s : directSentinel)
  | CtxErr (e : ctxError)
  | Text (msg : string)
  | Wrap (before : string) (cause : derror) (after : string)
  | Joined (l : list derror)
  | OutOfFuel.

Definition ErrInstanceNotFound : derror := Sentinel InstanceNotFound.
Definition ErrProcessNotFound : derror := Sentinel ProcessNotFound.
Definition ErrInstanceNotReady : derror := Sentinel InstanceNotReady.
Definition ErrInstanceReadyTimeout : derror := Sentinel InstanceReadyTimeout.
Definition ErrProcessReadyTimeout : derror := Sentinel ProcessReadyTimeout.
Definition ErrSSMUnavailable : derror := Sentinel SSMUnavailable.
Definition ErrSSMTimeout : derror := Sentinel SSMTimeout.
Definition ErrProcessLaunchFailed : derror := Sentinel ProcessLaunchFailed.
Definition ErrResourcesExceedMaximum : derror := Sentinel ResourcesExceedMaximum.
Definition ErrDirectClosed : derror := Sentinel DirectClosed.

(** errors.Is for the sentinels the code asks about. *)
Definition isReadyTimeout (e : derror) : bool := match e with Sentinel InstanceReadyTimeout => true | _ => false end.
Definition isCtx (e : derror) : bool := match e with CtxErr _ => true | _ => false end.

(** ** sandbox_id.go *)

Definition sandboxIDPrefix : string := "direct:".
Definition encodeSandboxID (instanceID : string) : string := sandboxIDPrefix +:+ instanceID.
Definition parseSandboxID (sandboxID : string) : res derror string :=
  match CutPrefix sandboxIDPrefix sandboxID with
  | None => Err (Text ("direct: invalid sandbox ID prefix: expected " +:+ quote sandboxIDPrefix +:+ " prefix, got " +:+ quote sandboxID))
  | Some instanceID =>
      if bool_decide (instanceID = "") then Err (Text ("direct: empty instance ID in sandbox ID " +:+ quote sandboxID))
      else Ok instanceID
  end.

(** ** instance_type.go *)

Record instanceTypeMapping : Type := mkInstanceTypeMapping {
  im_maxCPUs : float64;
  im_maxMemMB : Z;
  im_instType : string;
  im_actualCPUs : float64;
  im_actualMem : Z;
}.
Definition instanceTypeMappings : list instanceTypeMapping :=
  [mkInstanceTypeMapping (float_of 2) 4096 "t3.medium" (float_of 2) 4096;
   mkInstanceTypeMapping (float_of 4) 8192 "t3.large" (float_of 2) 8192;
   mkInstanceTypeMapping (float_of 8) 16384 "t3.xlarge" (float_of 4) 16384;
   mkInstanceTypeMapping (float_of 16) 32768 "m5.2xlarge" (float_of 8) 32768;
   mkInstanceTypeMapping (float_of 32) 65536 "m5.4xlarge" (float_of 16) 65536].

Definition isZeroFloat (x : float64) : bool := match x with S754_zero _ => true | _ => false end.

Definition fits (r : ResourceSpec) (m : instanceTypeMapping) : bool :=
  (fleb (CPUs r) (im_maxCPUs m) || isZeroFloat (CPUs r)) && (bool_decide (MemMB r <= im_maxMemMB m) || bool_decide (MemMB r = 0)).

Definition selectInstanceType (resources : ResourceSpec) (defaultType : string) : res derror string :=
  if isZeroFloat (CPUs resources) && bool_decide (MemMB resources = 0) then Ok defaultType
  else match List.find (fits resources) instanceTypeMappings with
       | Some m => Ok (im_instType m)
       | None => Err ErrResourcesExceedMaximum
       end.

(** ** ssm_command.go *)

Definition squote : ascii := ascii_of_nat 39.

(** strings.ReplaceAll(s, "'", "'\''"). *)
Fixpoint escapeQuotes (s : string) : string :=
  match s with
  | EmptyString => ""
  | String c s' => if bool_decide (c = squote) then "'\''" +:+ escapeQuotes s' else String c (escapeQuotes s')
  end.
Definition shellQuote (s : string) : string := "'" +:+ escapeQuotes s +:+ "'".

(** The insertion sort of [sortedKeys] on the keys of the map. *)
Definition sortedKeys {A} (m : gmap string A) : list string := merge_sort String.le (fst <$> map_to_list m).

Definition nl : string := String newline "".
Definition logFilePath (processID : string) : string := "/var/log/flex-agent-" +:+ processID +:+ ".log".
Definition pidFilePath (processID : string) : string := "/var/run/flex-agent-" +:+ processID +:+ ".pid".
Definition statusFilePath (processID : string) : string := "/var/run/flex-agent-" +:+ processID +:+ ".status".

Definition exportLine (env : gmap string string) (k : string) : string :=
  "export " +:+ k +:+ "=" +:+ shellQuote (default "" (env !! k)) +:+ nl.

Definition commandLine (binary : string) (args : list string) : string :=
  "nohup " +:+ shellQuote binary +:+ foldr (fun arg rest => " " +:+ shellQuote arg +:+ rest) "" args.

(** The quote character of a Go string literal. *)
Definition dq : string := dquote.

Definition buildSSMCommand (processID binary : string) (args : list string) (env : gmap string string) : string :=
  foldr (fun k rest => exportLine env k +:+ rest) "" (sortedKeys env) +:+
  commandLine binary args +:+
  " > " +:+ shellQuote (logFilePath processID) +:+ " 2>&1 &" +:+ nl +:+
  "PID=$!" +:+ nl +:+
  "echo " +:+ dq +:+ "$PID" +:+ dq +:+ " > " +:+ shellQuote (pidFilePath processID) +:+ nl +:+
  "START_TIME=$(cat /proc/$PID/stat 2>/dev/null | awk '{print $22}')" +:+ nl +:+
  "echo " +:+ dq +:+ "$START_TIME" +:+ dq +:+ " >> " +:+ shellQuote (pidFilePath processID) +:+ nl +:+
  "echo " +:+ dq +:+ "launched" +:+ dq +:+ " > " +:+ shellQuote (statusFilePath processID) +:+ nl.

(** ** direct.go: configuration and state *)

Definition defaultInstanceReadyTimeout : Z := 3 * Minute.
Definition defaultProcessReadyTimeout : Z := 30 * Second.

Record Config : Type := mkConfig {
  c_AMIID : string;
  c_DefaultInstanceType : string;
  c_SubnetID : string;
  c_SecurityGroupIDs : list string;
  c_InstanceProfileARN : string;
  c_KeyPairName : string;
  c_RootVolumeSizeGB : Z;
  c_RootVolumeType : string;
  c_UserDataTemplate : string;
  c_Tags : gmap string string;
  c_IPSelectionMode : string;
  c_TerminateOnClose : bool;
  c_InstanceReadyTimeout : Z;
  c_ProcessReadyTimeout : Z;
}.

(** The defaults of [NewDirectSandboxControl]. *)
Definition withDefaults (c : Config) : Config :=
  mkConfig (c_AMIID c) (c_DefaultInstanceType c) (c_SubnetID c) (c_SecurityGroupIDs c) (c_InstanceProfileARN c) (c_KeyPairName c)
    (c_RootVolumeSizeGB c) (if bool_decide (c_RootVolumeType c = "") then "gp3" else c_RootVolumeType c) (c_UserDataTemplate c) (c_Tags c)
    (if bool_decide (c_IPSelectionMode c = "") then "public" else c_IPSelectionMode c) (c_TerminateOnClose c)
    (if bool_decide (c_InstanceReadyTimeout c = 0) then defaultInstanceReadyTimeout else c_InstanceReadyTimeout c)
    (if bool_decide (c_ProcessReadyTimeout c = 0) then defaultProcessReadyTimeout else c_ProcessReadyTimeout c).

Inductive instanceStatus : Type := statusProvisioning | statusRunning | statusStopped.
#[export] Instance instanceStatus_eq_dec : EqDecision instanceStatus.
Proof. solve_decision. Defined.

Record processState : Type := mkProcessState {
  pr_processID : string;
  pr_pid : Z;
  pr_startTime : Z;
  pr_binary : string;
  pr_args : list string;
  pr_port : Z;
  pr_status : ProcessStatus;
}.

Record instanceState : Type := mkInstanceState {
  is_instanceID : string;
  is_publicIP : string;
  is_privateIP : string;
  is_status : instanceStatus;
  is_processes : gmap string processState;
}.

Record UserDataTemplateData : Type := mkUserDataTemplateData {
  ud_SandboxID : string;
  ud_Labels : gmap string string;
  ud_WorkspaceDir : string;
}.

Definition Capabilities : SandboxCapabilities := mkSandboxCapabilities false false true true false 0 0.

(** ** The environment *)

(** instance/provisioner.go: [InstanceStatus]. *)
Record InstanceStatus : Type := mkInstanceStatus {
  st_InstanceID : string;
  st_State : CloudInstanceState;
  st_StateReason : string;
  st_PrivateIP : string;
  st_PublicIP : string;
}.

(** What SSM says of a command: the statuses the code knows, or another. *)
Inductive invocationStatus : Type := Success | Cancelled | TimedOut | Failed | OtherStatus (s : string).
Record invocation : Type := mkInvocation { inv_Status : invocationStatus; inv_Output : string }.

Inductive call : Type :=
  | CLaunch (cfg : InstanceConfig) (r : res string (option InstanceInfo))
  | CTerminate (id : string) (r : option string)
  | CStop (id : string) (r : option string)
  | CStart (id : string) (r : option string)
  | CDescribe (id : string) (r : res string (option InstanceStatus))
  | CList (f : InstanceFilter) (r : res string (list InstanceInfo))
  | CRegistered (id : string) (r : res string Z)
  | CSend (id command : string) (r : res string (option string))
  | CInvocation (id command : string) (r : res string (option invocation))
  | CNow (t : Z)
  | CSleep (d : Z) (r : option ctxError)
  | CContext (r : option ctxError)
  | CInt63n (n r : Z)
  | CRandom (r : option (list Z)).
Notation history_of := (list call).

Record Env : Type := mkEnv {
  env_Launch : history_of -> InstanceConfig -> res string (option InstanceInfo);
  env_Terminate : history_of -> string -> option string;
  env_Stop : history_of -> string -> option string;
  env_Start : history_of -> string -> option string;
  env_Describe : history_of -> string -> res string (option InstanceStatus);
  env_List : history_of -> InstanceFilter -> res string (list InstanceInfo);
  (** How many entries DescribeInstanceInformation has for the instance. *)
  env_Registered : history_of -> string -> res string Z;
  (** The id of the command, [None] where SSM gives none. *)
  env_Send : history_of -> string -> string -> res string (option string);
  env_Invocation : history_of -> string -> string -> res string (option invocation);
  env_Now : history_of -> Z;
  (** A timer against the end of the context. *)
  env_Sleep : history_of -> Z -> option ctxError;
  env_Context : history_of -> option ctxError;
  env_Int63n : history_of -> Z -> Z;
  env_Random : history_of -> option (list Z);
  (** text/template: [Parse] and [Execute]. *)
  env_Render : string -> UserDataTemplateData -> res string string;
}.

Record Direct : Type := mkDirect {
  d_instances : option (gmap string instanceState);
  d_closing : bool;
  d_history : history_of;
}.
Notation DM := (M Direct).

Definition instancesOf (d : Direct) : gmap string instanceState := default ∅ (d_instances d).
Definition set_instances (m : option (gmap string instanceState)) (d : Direct) : Direct := mkDirect m (d_closing d) (d_history d).
Definition set_closing (d : Direct) : Direct := mkDirect (d_instances d) true (d_history d).
Definition record (c : call) (d : Direct) : Direct := mkDirect (d_instances d) (d_closing d) (d_history d ++ [c]).
(** A write to the table; to a nil map Go panics, which no operation does. *)
Definition modInstances (f : gmap string instanceState -> gmap string instanceState) (d : Direct) : Direct :=
  set_instances (f <$> d_instances d) d.

(** [x, err := m; if err != nil { return ..., err }]. *)
Definition rbind {A B} (m : DM (res derror A)) (k : A -> DM (res derror B)) : DM (res derror B) :=
  r ← m; match r with Ok x => k x | Err e => mret (Err e) end.
Notation "x ←? m ; k" := (rbind m (fun x => k)) (at level 20, m at level 100, k at level 200, only parsing) : stdpp_scope.

(** ** Helpers of create.go, recover.go and process.go *)

Definition Millisecond : Z := 1000000.
Definition createPollInitialDelay : Z := 2 * Second.
Definition createPollMaxDelay : Z := 10 * Second.
Definition defaultRootVolumeSize : Z := 50.
Definition processLaunchCommandTimeout : Z := 30 * Second.
Definition ssmPollInitialDelay : Z := 250 * Millisecond.
Definition ssmPollMaxDelay : Z := 2 * Second.
Definition healthPollInitialDelay : Z := 500 * Millisecond.
Definition healthPollMaxDelay : Z := 5 * Second.
Definition defaultSIGTERM : Z := 15.

Definition nextBackoffDelay (current max : Z) : Z :=
  if bool_decide (current >= max) then max
  else let next := wrap64 (current * 2) in if bool_decide (next > max) then max else next.

(** nil and the empty map read alike. *)
Definition cloneStringMap (src : gmap string string) : gmap string string := src.

Definition mergeCreateTags (base labels : gmap string string) : gmap string string :=
  <["adapter" := "direct"]> (<["ManagedBy" := "flex-agent-runtime"]> (labels ∪ base)).

Definition selectAddressIP (publicIP privateIP mode : string) : string :=
  if bool_decide (mode = "private") then (if bool_decide (privateIP <> "") then privateIP else publicIP)
  else if bool_decide (publicIP <> "") then publicIP else privateIP.

Definition recoverSandboxID (info : InstanceInfo) : string :=
  let id := default "" (if_Tags info !! "flex-sandbox-id") in
  if bool_decide (id <> "") then (if HasPrefix id sandboxIDPrefix then id else encodeSandboxID id)
  else encodeSandboxID (if_InstanceID info).

Definition recoverInstanceStatus (state : CloudInstanceState) : instanceStatus :=
  match state with CloudInstanceRunning => statusRunning | CloudInstancePending => statusProvisioning | _ => statusStopped end.

Definition isInvocationTerminal (s : invocationStatus) : bool := match s with OtherStatus _ => false | _ => true end.
Definition succeeded (inv : invocation) : bool := match inv_Status inv with Success => true | _ => false end.

(** strings.EqualFold with a word of ASCII letters other than k and s, which
    alone fold to runes beyond ASCII. *)
Definition EqualFold (s word : string) : bool := bool_decide (mapBytes lowerByte s = word).

Definition hex2 (b : Z) : string := (if bool_decide (b < 16) then "0" else "") +:+ hex b.
Definition hexBytes (l : list Z) : string := foldr (fun b rest => hex2 b +:+ rest) "" l.

Definition startTimeCommand (pid : Z) : string :=
  "if [ -f /proc/" +:+ pretty pid +:+ "/stat ]; then awk '{print $22}' /proc/" +:+ pretty pid +:+ "/stat; else echo exited; fi".
Definition statusCommand (pid : Z) : string :=
  "if [ -f /proc/" +:+ pretty pid +:+ "/stat ]; then echo " +:+ dq +:+ "running $(awk '{print $22}' /proc/" +:+ pretty pid +:+
  "/stat)" +:+ dq +:+ "; else echo exited; fi".
Definition healthCommand (port : Z) : string :=
  "curl -s -o /dev/null -w '%{http_code}' http://localhost:" +:+ pretty port +:+ "/health || true".
Definition killCommand (sig pid : Z) : string := "kill -" +:+ pretty sig +:+ " " +:+ pretty pid.
Definition cleanupCommand (processID : string) : string :=
  "rm -f " +:+ shellQuote (pidFilePath processID) +:+ " " +:+ shellQuote (statusFilePath processID).
Definition readCommand (processID : string) : string := "cat " +:+ shellQuote (pidFilePath processID).

Definition line (s : string) : string := s +:+ nl.
Definition processRecoverCommand : string :=
  line "" +:+ line "for f in /var/run/flex-agent-*.pid; do" +:+
  String tab (line ("[ -f " +:+ dq +:+ "$f" +:+ dq +:+ " ] || continue")) +:+
  String tab (line ("PROC_ID=" +:+ dq +:+ "${f##*/flex-agent-}" +:+ dq)) +:+
  String tab (line ("PROC_ID=" +:+ dq +:+ "${PROC_ID%.pid}" +:+ dq)) +:+
  String tab (line ("PID=" +:+ dq +:+ "$(sed -n '1p' " +:+ dq +:+ "$f" +:+ dq +:+ " 2>/dev/null)" +:+ dq)) +:+
  String tab (line ("START=" +:+ dq +:+ "$(sed -n '2p' " +:+ dq +:+ "$f" +:+ dq +:+ " 2>/dev/null)" +:+ dq)) +:+
  String tab (line ("[ -n " +:+ dq +:+ "$PID" +:+ dq +:+ " ] && [ -n " +:+ dq +:+ "$START" +:+ dq +:+ " ] || continue")) +:+
  String tab (line ("if [ -f " +:+ dq +:+ "/proc/$PID/stat" +:+ dq +:+ " ]; then")) +:+
  String tab (String tab (line ("CUR=" +:+ dq +:+ "$(awk '{print $22}' " +:+ dq +:+ "/proc/$PID/stat" +:+ dq +:+ " 2>/dev/null || true)" +:+ dq))) +:+
  String tab (String tab (line ("if [ " +:+ dq +:+ "$CUR" +:+ dq +:+ " = " +:+ dq +:+ "$START" +:+ dq +:+ " ]; then"))) +:+
  String tab (String tab (String tab (line ("echo " +:+ dq +:+ "$PROC_ID $PID $START" +:+ dq)))) +:+
  String tab (String tab (line "fi")) +:+ String tab (line "fi") +:+ line "done".

Definition set_status (s : instanceStatus) (st : instanceState) : instanceState :=
  mkInstanceState (is_instanceID st) (is_publicIP st) (is_privateIP st) s (is_processes st).
Definition set_processes (p : gmap string processState) (st : instanceState) : instanceState :=
  mkInstanceState (is_instanceID st) (is_publicIP st) (is_privateIP st) (is_status st) p.
Definition set_prStatus (s : ProcessStatus) (p : processState) : processState :=
  mkProcessState (pr_processID p) (pr_pid p) (pr_startTime p) (pr_binary p) (pr_args p) (pr_port p) s.

Definition markProcessExited (sandboxID processID : string) : DM () :=
  modify (modInstances (alter (fun st => set_processes (alter (set_prStatus ProcessExited) processID (is_processes st)) st) sandboxID)).

(** The id a whole-instance operation uses: the table's where it has one. *)
Definition targetID (parsed : string) (st : instanceState) : string :=
  if bool_decide (is_instanceID st <> "") then is_instanceID st else parsed.

(** The entries of the output of the recovery command, in the order of its
    lines; a later line replaces an earlier one. *)
Definition recoverLine (line : string) : option (string * processState) :=
  match Fields (TrimSpace line) with
  | [processID; pid; startTime] =>
      match ParseInt pid, ParseInt startTime with
      | Ok p, Ok t => Some (processID, mkProcessState processID p t "" [] 0 ProcessRunning)
      | _, _ => None
      end
  | _ => None
  end.
Definition recoveredProcesses (output : string) : gmap string processState :=
  foldl (fun m l => match recoverLine l with Some (k, p) => <[k := p]> m | None => m end) ∅ (SplitByte newline (TrimSpace output)).

Section Control.
Context (env : Env) (config : Config) (order : list (string * instanceState) -> list (string * instanceState)) (fuel : nat).

(** ** Calls to the environment *)

Definition ask {A} (answer : history_of -> A) (c : A -> call) : DM A :=
  r ← gets (fun d => answer (d_history d)); modify (record (c r));; mret r.

Definition LaunchInstance (cfg : InstanceConfig) : DM (res string (option InstanceInfo)) := ask (fun h => env_Launch env h cfg) (CLaunch cfg).
Definition TerminateInstance (id : string) : DM (option string) := ask (fun h => env_Terminate env h id) (CTerminate id).
Definition StopInstance (id : string) : DM (option string) := ask (fun h => env_Stop env h id) (CStop id).
Definition StartInstance (id : string) : DM (option string) := ask (fun h => env_Start env h id) (CStart id).
Definition DescribeInstance (id : string) : DM (res string (option InstanceStatus)) := ask (fun h => env_Describe env h id) (CDescribe id).
Definition ListInstances (f : InstanceFilter) : DM (res string (list InstanceInfo)) := ask (fun h => env_List env h f) (CList f).
Definition DescribeInstanceInformation (id : string) : DM (res string Z) := ask (fun h => env_Registered env h id) (CRegistered id).
Definition SendCommand (id command : string) : DM (res string (option string)) := ask (fun h => env_Send env h id command) (CSend id command).
Definition GetCommandInvocation (id command : string) : DM (res string (option invocation)) :=
  ask (fun h => env_Invocation env h id command) (CInvocation id command).
Definition Now : DM Z := ask (env_Now env) CNow.
Definition ctxErr : DM (option ctxError) := ask (env_Context env) CContext.
Definition sleepFor (t : Z) : DM (option ctxError) := ask (fun h => env_Sleep env h t) (CSleep t).

(** ** Polling *)

Definition jitterDelay (base : Z) : DM Z :=
  if bool_decide (base <= 0) then mret 0
  else let jitter := Z.quot base 5 in
       if bool_decide (jitter <= 0) then mret base
       else r ← ask (fun h => env_Int63n env h (2 * jitter + 1)) (CInt63n (2 * jitter + 1)); mret (base + (r - jitter)).

Definition pollPreflight : DM (res derror ()) :=
  e ← ctxErr;
  match e with
  | Some e => mret (Err (CtxErr e))
  | None => closing ← gets d_closing; mret (if closing : bool then Err ErrDirectClosed else Ok ())
  end.

(** [pollSleep] and [processPollSleep] differ in the error once the time is up. *)
Definition sleepUntil (late : derror) (baseDelay deadline : Z) : DM (res derror ()) :=
  now ← Now;
  let remaining := time_Sub deadline now in
  if bool_decide (remaining <= 0) then mret (Err late)
  else
    jittered ← jitterDelay baseDelay;
    let t := if bool_decide (jittered > remaining) then remaining else jittered in
    if bool_decide (t <= 0) then mret (Ok ())
    else r ← sleepFor t; mret (match r with Some e => Err (CtxErr e) | None => Ok () end).
Definition pollSleep : Z -> Z -> DM (res derror ()) := sleepUntil ErrInstanceReadyTimeout.
Definition processPollSleep : Z -> Z -> DM (res derror ()) := sleepUntil ErrProcessReadyTimeout.

Definition after (deadline : Z) : DM bool := now ← Now; mret (bool_decide (now > deadline)).

(** The shape of the four polling loops: [attempt] returns from the function
    or goes on, [late] is the error after the deadline, [onSleep] what becomes
    of the error of a sleep. *)
Fixpoint poll {A} (n : nat) (attempt : DM (option (res derror A))) (sleep : Z -> Z -> DM (res derror ()))
    (late : derror) (onSleep : derror -> derror) (maxDelay deadline delay : Z) : DM (res derror A) :=
  match n with
  | O => mret (Err OutOfFuel)
  | S n' =>
      r ← attempt;
      match r with
      | Some r => mret r
      | None =>
          expired ← after deadline;
          if expired : bool then mret (Err late)
          else
            s ← sleep delay deadline;
            match s with
            | Err e => mret (Err (onSleep e))
            | Ok () => poll n' attempt sleep late onSleep maxDelay deadline (nextBackoffDelay delay maxDelay)
            end
      end
  end.
(** [waitForInstanceReady]. *)
Definition ready (status : InstanceStatus) : bool :=
  bool_decide (st_State status = CloudInstanceRunning) &&
  bool_decide (selectAddressIP (st_PublicIP status) (st_PrivateIP status) (c_IPSelectionMode config) <> "").
Definition waitForInstanceReady (instanceID : string) (deadline : Z) : DM (res derror InstanceStatus) :=
  poll fuel
    (e ← pollPreflight;
     match e with
     | Err e => mret (Some (Err e))
     | Ok () =>
         r ← DescribeInstance instanceID;
         mret (match r with Ok (Some status) => if ready status then Some (Ok status) else None | _ => None end)
     end)
    pollSleep ErrInstanceReadyTimeout id createPollMaxDelay deadline createPollInitialDelay.

Definition waitForSSMRegistration (instanceID : string) (deadline : Z) : DM (res derror ()) :=
  poll fuel
    (e ← pollPreflight;
     match e with
     | Err e => mret (Some (Err e))
     | Ok () =>
         r ← DescribeInstanceInformation instanceID;
         mret (match r with Ok n => if bool_decide (n > 0) then Some (Ok ()) else None | Err _ => None end)
     end)
    pollSleep ErrSSMUnavailable (fun e => if isReadyTimeout e then ErrSSMUnavailable else e)
    createPollMaxDelay deadline createPollInitialDelay.

Definition waitForCommandInvocation (instanceID commandID : string) (timeout : Z) : DM (res derror invocation) :=
  now ← Now;
  poll fuel
    (r ← GetCommandInvocation instanceID commandID;
     match r with
     | Ok (Some inv) =>
         if isInvocationTerminal (inv_Status inv) then mret (Some (Ok inv))
         else e ← ctxErr; mret ((fun e => Err (CtxErr e)) <$> e)
     | _ => e ← ctxErr; mret ((fun e => Err (CtxErr e)) <$> e)
     end)
    pollSleep ErrSSMTimeout (fun e => if isReadyTimeout e then ErrSSMTimeout else e)
    ssmPollMaxDelay (now + timeout) ssmPollInitialDelay.

(** The timeout of the document, in seconds, is not kept. *)
Definition runShellCommand (instanceID command : string) (timeout : Z) : DM (res derror invocation) :=
  r ← SendCommand instanceID command;
  match r with
  | Err msg => mret (Err (Wrap "" ErrSSMUnavailable (": send command: " +:+ msg)))
  | Ok None => mret (Err (Wrap "" ErrSSMUnavailable ": missing command id"))
  | Ok (Some commandID) =>
      if bool_decide (commandID = "") then mret (Err (Wrap "" ErrSSMUnavailable ": missing command id"))
      else waitForCommandInvocation instanceID commandID timeout
  end.

Definition waitForProcessHealth (instanceID : string) (port : Z) : DM (res derror ()) :=
  now ← Now;
  poll fuel
    (r ← runShellCommand instanceID (healthCommand port) processLaunchCommandTimeout;
     mret (match r with
           | Ok inv => if succeeded inv && bool_decide (TrimSpace (inv_Output inv) = "200") then Some (Ok ()) else None
           | Err _ => None
           end))
    processPollSleep ErrProcessReadyTimeout (fun e => if isCtx e then e else ErrProcessReadyTimeout)
    healthPollMaxDelay (now + c_ProcessReadyTimeout config) healthPollInitialDelay.

(** ** create.go *)

Definition terminateOrphanInstance (instanceID : string) : DM () := TerminateInstance instanceID;; mret ().

Definition renderUserData (tpl : string) (data : UserDataTemplateData) : res derror string :=
  if bool_decide (tpl = "") then Ok ""
  else match env_Render env tpl data with Ok s => Ok s | Err msg => Err (Text msg) end.

Definition launchConfig (req : CreateSandboxRequest) : res derror InstanceConfig :=
  instanceType <-? selectInstanceType (cr_Resources req) (c_DefaultInstanceType config);
  match renderUserData (c_UserDataTemplate config)
          (mkUserDataTemplateData (encodeSandboxID "pending") (cloneStringMap (cr_Labels req)) "/workspace") with
  | Err e => Err (Wrap "direct: render user-data template: " e "")
  | Ok userData =>
      let image := if bool_decide (cr_Template req <> "") then cr_Template req else c_AMIID config in
      let disk := if bool_decide (c_RootVolumeSizeGB config <= 0) then defaultRootVolumeSize else c_RootVolumeSizeGB config in
      Ok (mkInstanceConfig image instanceType userData (mergeCreateTags (c_Tags config) (cr_Labels req)) disk)
  end.

(** [CreateSandbox] in three parts: until the instance is launched, the waits,
    and the rest.  [Close] waits for calls that are past the first check. *)
Definition createBegin : DM (res derror ()) :=
  closing ← gets d_closing; mret (if closing : bool then Err ErrDirectClosed else Ok ()).

Definition createLaunch (req : CreateSandboxRequest) : DM (res derror string) :=
  cfg ←? mret (launchConfig req);
  r ← LaunchInstance cfg;
  mret (match r with
        | Err msg => Err (Text msg)
        | Ok None => Err (Text "direct: launch returned empty instance ID")
        | Ok (Some info) =>
            if bool_decide (if_InstanceID info = "") then Err (Text "direct: launch returned empty instance ID")
            else Ok (if_InstanceID info)
        end).

Definition createWait (instanceID : string) : DM (res derror InstanceStatus) :=
  now ← Now;
  let deadline := now + c_InstanceReadyTimeout config in
  status ←? waitForInstanceReady instanceID deadline;
  _ ←? waitForSSMRegistration instanceID deadline;
  mret (Ok status).

Definition publish (instanceID : string) (status : InstanceStatus) : Direct -> Direct :=
  modInstances <[encodeSandboxID instanceID := mkInstanceState instanceID (st_PublicIP status) (st_PrivateIP status) statusRunning ∅]>.

Definition createFinish (instanceID : string) (r : res derror InstanceStatus) : DM (res derror CreateSandboxResponse) :=
  match r with
  | Err e => terminateOrphanInstance instanceID;; mret (Err e)
  | Ok status =>
      closing ← gets d_closing;
      if closing : bool then terminateOrphanInstance instanceID;; mret (Err ErrDirectClosed)
      else
        modify (publish instanceID status);;
        let addressIP := selectAddressIP (st_PublicIP status) (st_PrivateIP status) (c_IPSelectionMode config) in
        mret (Ok (mkCreateSandboxResponse (encodeSandboxID instanceID) (addressIP +:+ ":0") Capabilities))
  end.

Definition CreateSandbox (req : CreateSandboxRequest) : DM (res derror CreateSandboxResponse) :=
  _ ←? createBegin;
  instanceID ←? createLaunch req;
  r ← createWait instanceID;
  createFinish instanceID r.

(** ** destroy.go and pause.go *)

Definition lookupTarget (sandboxID : string) : DM (res derror string) :=
  parsed ←? mret (parseSandboxID sandboxID);
  m ← gets instancesOf;
  mret (match m !! sandboxID with None => Err ErrInstanceNotFound | Some st => Ok (targetID parsed st) end).

Definition forget (sandboxID : string) : Direct -> Direct := modInstances (delete sandboxID).

Definition DestroySandbox (sandboxID : string) : DM (res derror ()) :=
  instanceID ←? lookupTarget sandboxID;
  e ← TerminateInstance instanceID;
  match e with
  | Some msg => mret (Err (Text msg))
  | None => modify (forget sandboxID);; mret (Ok ())
  end.

(** The last section of a pause and of a resume: the entry may be gone. *)
Definition update (sandboxID : string) (f : instanceState -> instanceState) : DM (res derror ()) :=
  m ← gets instancesOf;
  match m !! sandboxID with
  | None => mret (Err ErrInstanceNotFound)
  | Some st => modify (modInstances <[sandboxID := f st]>);; mret (Ok ())
  end.

Definition paused (st : instanceState) : instanceState := set_status statusStopped (set_processes (set_prStatus ProcessExited <$> is_processes st) st).
Definition resumed (status : InstanceStatus) (st : instanceState) : instanceState :=
  mkInstanceState (is_instanceID st) (st_PublicIP status) (st_PrivateIP status) statusRunning ∅.

Definition PauseSandbox (sandboxID : string) : DM (res derror ()) :=
  instanceID ←? lookupTarget sandboxID;
  e ← StopInstance instanceID;
  match e with
  | Some msg => mret (Err (Text msg))
  | None => update sandboxID paused
  end.

Definition ResumeSandbox (sandboxID : string) : DM (res derror ()) :=
  instanceID ←? lookupTarget sandboxID;
  e ← StartInstance instanceID;
  match e with
  | Some msg => mret (Err (Text msg))
  | None => status ←? createWait instanceID; update sandboxID (resumed status)
  end.

(** ** close.go *)

Definition snapshotInstanceIDs (d : Direct) : list string :=
  filter (fun id => id <> "") (is_instanceID ∘ snd <$> order (map_to_list (instancesOf d))).

Fixpoint terminateAll (ids : list string) : DM (list derror) :=
  match ids with
  | [] => mret []
  | id :: ids' =>
      e ← TerminateInstance id;
      errs ← terminateAll ids';
      mret (match e with Some msg => Wrap ("terminate " +:+ id +:+ ": ") (Text msg) "" :: errs | None => errs end)
  end.

(** After the creations in flight have ended. *)
Definition closeFinish : DM (res derror ()) :=
  ids ← gets snapshotInstanceIDs;
  errs ← (if c_TerminateOnClose config then terminateAll ids else mret []);
  modify (set_instances None);;
  mret (match errs with [] => Ok () | _ => Err (Joined errs) end).

Definition Close : DM (res derror ()) := modify set_closing;; closeFinish.

(** ** process.go *)

(** The id is formatted from the time where crypto/rand fails. *)
Definition newProcessID : DM string :=
  r ← ask (env_Random env) CRandom;
  match r with
  | Some buf => mret ("proc-" +:+ hexBytes buf)
  | None => now ← Now; mret ("proc-" +:+ pretty now)
  end.

Definition readPIDFile (instanceID processID : string) : DM (res derror (Z * Z)) :=
  inv ←? runShellCommand instanceID (readCommand processID) processLaunchCommandTimeout;
  mret (if negb (succeeded inv) then Err ErrProcessLaunchFailed
        else match Fields (TrimSpace (inv_Output inv)) with
             | pid :: startTime :: _ =>
                 match ParseInt pid, ParseInt startTime with
                 | Ok p, Ok t => Ok (p, t)
                 | _, _ => Err ErrProcessLaunchFailed
                 end
             | _ => Err ErrProcessLaunchFailed
             end).

(** [Some] start time where the process exists. *)
Definition readProcStartTime (instanceID : string) (pid : Z) : DM (res derror (option Z)) :=
  inv ←? runShellCommand instanceID (startTimeCommand pid) processLaunchCommandTimeout;
  mret (if negb (succeeded inv) then Err (Wrap "" ErrSSMUnavailable ": start-time check failed")
        else let out := TrimSpace (inv_Output inv) in
             if bool_decide (out = "") || EqualFold out "exited" then Ok None
             else match ParseInt out with Ok t => Ok (Some t) | Err _ => Ok None end).

Definition LaunchProcess (req : LaunchProcessRequest) : DM (res derror LaunchProcessResponse) :=
  instanceID ←? mret (parseSandboxID (lp_SandboxID req));
  m ← gets instancesOf;
  match m !! lp_SandboxID req with
  | None => mret (Err ErrInstanceNotFound)
  | Some st =>
      if negb (bool_decide (is_status st = statusRunning)) then mret (Err ErrInstanceNotReady)
      else
        processID ← newProcessID;
        inv ←? runShellCommand instanceID (buildSSMCommand processID (lp_Binary req) (lp_Args req) (lp_Env req)) processLaunchCommandTimeout;
        if negb (succeeded inv) then mret (Err ErrProcessLaunchFailed)
        else
          ids ←? readPIDFile instanceID processID;
          _ ←? waitForProcessHealth instanceID (lp_ExposePort req);
          m ← gets instancesOf;
          match m !! lp_SandboxID req with
          | None => mret (Err ErrInstanceNotFound)
          | Some st =>
              let p := mkProcessState processID ids.1 ids.2 (lp_Binary req) (lp_Args req) (lp_ExposePort req) ProcessRunning in
              modify (modInstances <[lp_SandboxID req := set_processes (<[processID := p]> (is_processes st)) st]>);;
              let addressIP := selectAddressIP (is_publicIP st) (is_privateIP st) (c_IPSelectionMode config) in
              mret (Ok (mkLaunchProcessResponse processID (addressIP +:+ ":" +:+ pretty (lp_ExposePort req)) ProcessRunning))
          end
  end.

Definition findProcess (sandboxID processID : string) : DM (res derror processState) :=
  m ← gets instancesOf;
  mret (match m !! sandboxID with
        | None => Err ErrInstanceNotFound
        | Some st => match is_processes st !! processID with None => Err ErrProcessNotFound | Some p => Ok p end
        end).

Definition KillProcess (req : KillProcessRequest) : DM (res derror ()) :=
  instanceID ←? mret (parseSandboxID (kp_SandboxID req));
  proc ←? findProcess (kp_SandboxID req) (kp_ProcessID req);
  current ←? readProcStartTime instanceID (pr_pid proc);
  if negb (bool_decide (current = Some (pr_startTime proc))) then
    markProcessExited (kp_SandboxID req) (kp_ProcessID req);; mret (Err ErrProcessNotFound)
  else
    let sig := if bool_decide (kp_Signal req = 0) then defaultSIGTERM else kp_Signal req in
    inv ←? runShellCommand instanceID (killCommand sig (pr_pid proc)) processLaunchCommandTimeout;
    if negb (succeeded inv) then mret (Err (Wrap "" ErrSSMUnavailable ": kill command failed"))
    else
      runShellCommand instanceID (cleanupCommand (kp_ProcessID req)) processLaunchCommandTimeout;;
      markProcessExited (kp_SandboxID req) (kp_ProcessID req);;
      mret (Ok ()).

(** What the status query says of the process with that start time. *)
Definition reportsRunning (output : string) (startTime : Z) : bool :=
  match Fields (TrimSpace output) with
  | word :: t :: _ => EqualFold word "running" && bool_decide (ParseInt t = Ok startTime)
  | _ => false
  end.

Definition GetProcessStatus (req : GetProcessStatusRequest) : DM (res derror GetProcessStatusResponse) :=
  instanceID ←? mret (parseSandboxID (ps_SandboxID req));
  proc ←? findProcess (ps_SandboxID req) (ps_ProcessID req);
  match pr_status proc with
  | ProcessExited => mret (Ok (mkGetProcessStatusResponse ProcessExited None))
  | _ =>
      inv ←? runShellCommand instanceID (statusCommand (pr_pid proc)) processLaunchCommandTimeout;
      if negb (succeeded inv) then mret (Err (Wrap "" ErrSSMUnavailable ": status query failed"))
      else if reportsRunning (inv_Output inv) (pr_startTime proc) then mret (Ok (mkGetProcessStatusResponse ProcessRunning None))
      else
        markProcessExited (ps_SandboxID req) (ps_ProcessID req);;
        mret (Ok (mkGetProcessStatusResponse ProcessExited None))
  end.

(** ** recover.go *)

Definition recoverProcesses (instanceID : string) : DM (res derror (gmap string processState)) :=
  inv ←? runShellCommand instanceID processRecoverCommand processLaunchCommandTimeout;
  mret (if negb (succeeded inv) then Err (Wrap "" ErrSSMUnavailable ": process recovery command failed")
        else Ok (recoveredProcesses (inv_Output inv))).

Fixpoint recoverInstances (infos : list InstanceInfo) (recovered : gmap string instanceState) : DM (gmap string instanceState) :=
  match infos with
  | [] => mret recovered
  | info :: infos' =>
      if bool_decide (if_InstanceID info = "") then recoverInstances infos' recovered
      else
        procs ← (if bool_decide (if_State info = CloudInstanceRunning) then
                   r ← recoverProcesses (if_InstanceID info);
                   mret (match r with Ok procs => procs | Err _ => ∅ end)
                 else mret ∅);
        let st := mkInstanceState (if_InstanceID info) (if_PublicIP info) (if_PrivateIP info) (recoverInstanceStatus (if_State info)) procs in
        recoverInstances infos' (<[recoverSandboxID info := st]> recovered)
  end.

Definition recoverFilter : InstanceFilter :=
  mkInstanceFilter (<["ManagedBy" := "flex-agent-runtime"]> {["adapter" := "direct"]}) [CloudInstanceRunning; CloudInstanceStopped].

(** With an SSM client. *)
Definition Recover : DM (res derror ()) :=
  r ← ListInstances recoverFilter;
  match r with
  | Err msg => mret (Err (Wrap "direct: recover list instances: " (Text msg) ""))
  | Ok infos =>
      recovered ← recoverInstances infos ∅;
      modify (set_instances (Some recovered));;
      mret (Ok ())
  end.
End Control.

(** [NewDirectSandboxControl] with a provisioner. *)
Definition NewDirectSandboxControl (env : Env) (cfg : Config) (fuel : nat) : res derror Direct :=
  match Recover env fuel (mkDirect (Some ∅) false []) with
  | (Err e, _) => Err e
  | (Ok (), d) => Ok d
  end.
