(* ===== verification/DirectProps.v ===== *)
(** * DirectProps: what the operations on cloud instances guarantee

    The commands keep their words through the shell's quoting; a process is
    killed only after its start time was checked; a launch reports success only
    on evidence; every wait ends.  [CallLogic] is the logic of the parts that
    only make calls. *)

From Stdlib Require Import Ascii.
From S2P Require Import Prelude GoStrings GoText GoFloat FleetTypes Direct.

Local Open Scope Z_scope.
Local Open Scope string_scope.
Local Open Scope list_scope.
Local Open Scope stdpp_scope.
Local Open Scope go_scope.

(** ** Programs that only make calls *)

Definition extend (cs : list call) (d : Direct) : Direct := mkDirect (d_instances d) (d_closing d) (d_history d ++ cs).

Lemma rbind_eq {A B} (m : DM (res derror A)) (k : A -> DM (res derror B)) d :
  rbind m k d = match m d with (Ok x, d') => k x d' | (Err e, d') => (Err e, d') end.
Proof. unfold rbind. rewrite M_bind_eq. by destruct (m d) as [[x|e] d']. Qed.

Lemma extend_nil d : extend [] d = d.
Proof. destruct d. unfold extend. simpl. by rewrite app_nil_r. Qed.
Lemma extend_app cs cs' d : extend cs' (extend cs d) = extend (cs ++ cs') d.
Proof. unfold extend. simpl. by rewrite app_assoc. Qed.

(** [only m Q]: [m] changes nothing but the history, to which it adds calls of
    which, with its result, [Q] holds. *)
Definition only {A} (m : DM A) (Q : A -> list call -> Prop) : Prop :=
  forall d, exists cs, (m d).2 = extend cs d /\ Q (m d).1 cs.

Section CallLogic.
Context (env : Env) (config : Config) (fuel : nat).

Lemma only_mono {A} (m : DM A) (Q Q' : A -> list call -> Prop) : only m Q -> (forall a cs, Q a cs -> Q' a cs) -> only m Q'.
Proof. intros H HQ d. destruct (H d) as (cs & E & Hq). exists cs. eauto. Qed.

Lemma only_ret {A} (a : A) (Q : A -> list call -> Prop) : Q a [] -> only (mret a) Q.
Proof. intros H d. exists []. by rewrite extend_nil. Qed.

Lemma only_gets {A} (f : Direct -> A) (Q : A -> list call -> Prop) : (forall v, Q v []) -> only (gets f) Q.
Proof. intros H d. exists []. by rewrite extend_nil. Qed.

Lemma only_ask {A} (answer : list call -> A) (c : A -> call) (Q : A -> list call -> Prop) :
  (forall r, Q r [c r]) -> only (ask answer c) Q.
Proof. intros H d. exists [c (answer (d_history d))]. split; [done|apply H]. Qed.

Lemma only_bind {A B} (m : DM A) (k : A -> DM B) Q :
  only m (fun a cs => only (k a) (fun b cs' => Q b (cs ++ cs'))) -> only (m ≫= k) Q.
Proof.
  intros H d. destruct (H d) as (cs & E & Hk). destruct (Hk (m d).2) as (cs' & E' & HQ).
  exists (cs ++ cs'). rewrite M_bind_eq. split; [|done]. by rewrite E', E, extend_app.
Qed.

Lemma only_rbind {A B} (m : DM (res derror A)) (k : A -> DM (res derror B)) (Q : res derror B -> list call -> Prop) :
  only m (fun r cs => match r with Ok x => only (k x) (fun b cs' => Q b (cs ++ cs')) | Err e => Q (Err e) cs end) ->
  only (rbind m k) Q.
Proof.
  intros H. apply only_bind. eapply only_mono; [exact H|]. intros [x|e] cs Hx; [done|].
  apply only_ret. by rewrite app_nil_r.
Qed.

(** What a call of a waiting loop may be, besides those of its attempts. *)
Definition pacing (c : call) : bool :=
  match c with CNow _ | CSleep _ _ | CInt63n _ _ | CContext _ => true | _ => false end.

Definition pollError (e : derror) : bool :=
  match e with CtxErr _ | OutOfFuel => true | _ => false end.

Lemma only_Now Q : (forall t, Q t [CNow t]) -> only (Now env) Q.
Proof. apply only_ask. Qed.

Lemma only_jitter base : only (jitterDelay env base) (fun _ cs => Forall pacing cs).
Proof.
  unfold jitterDelay. destruct (bool_decide _); [by apply only_ret; constructor|].
  cbv zeta. destruct (bool_decide _); [by apply only_ret; constructor|].
  apply only_bind, only_ask. intros r. apply only_ret. by repeat constructor.
Qed.

Lemma only_sleep late t deadline :
  only (sleepUntil env late t deadline) (fun r cs =>
    Forall pacing cs /\ match r with Ok _ => True | Err e => e = late \/ isCtx e = true end).
Proof.
  unfold sleepUntil. apply only_bind, only_Now. intros now. cbv zeta.
  destruct (bool_decide _); [apply only_ret; split; [by repeat constructor|by left]|].
  apply only_bind. eapply only_mono; [apply only_jitter|]. intros jittered cs Hcs. simpl.
  destruct (bool_decide (_ <= 0)).
  { apply only_ret. split; [|done]. rewrite app_nil_r. by constructor. }
  apply only_bind, only_ask. intros r. apply only_ret.
  split; [constructor; [done|]; apply Forall_app; split; [done|by repeat constructor]|].
  destruct r; [by right|done].
Qed.

(** A waiting loop: all its calls are those of its attempts or keep its pace;
    a value is an attempt's, and so is an error other than its own. *)
Lemma only_poll {A} (P : call -> Prop) (R : A -> list call -> Prop) (E : derror -> Prop)
    n attempt lateSleep late onSleep maxDelay deadline delay :
  (forall c, pacing c -> P c) ->
  only attempt (fun r cs => Forall P cs /\ match r with Some (Ok a) => R a cs | Some (Err e) => E e | None => True end) ->
  E late -> E OutOfFuel -> (forall e, e = lateSleep \/ isCtx e = true -> E (onSleep e)) ->
  only (poll env n attempt (sleepUntil env lateSleep) late onSleep maxDelay deadline delay) (fun r cs =>
    Forall P cs /\ match r with Ok a => exists l cs', cs = l ++ cs' /\ R a cs' | Err e => E e end).
Proof.
  intros HP Hattempt Hlate Hfuel Hsleep. revert delay. induction n as [|n IH]; intros delay; simpl.
  { apply only_ret. by split; [constructor|]. }
  apply only_bind. eapply only_mono; [exact Hattempt|]. intros [[a|e]|] cs [Hcs Hr].
  - apply only_ret. rewrite app_nil_r. split; [done|]. by exists [], cs.
  - apply only_ret. by rewrite app_nil_r.
  - apply only_bind. unfold after. apply only_bind, only_Now. intros now. apply only_ret. simpl.
    assert (HPnow : P (CNow now)) by by apply HP.
    destruct (bool_decide _).
    { apply only_ret. split; [|done]. apply Forall_app. by repeat constructor. }
    apply only_bind. eapply only_mono; [apply only_sleep|]. intros r cs1 [Hcs1 Hr1].
    assert (HP1 : Forall P cs1) by (eapply Forall_impl; eauto).
    destruct r as [[]|e].
    + eapply only_mono; [apply IH|]. intros r cs2 [Hcs2 Hr2].
      split; [apply Forall_app; split; [done|]; constructor; [done|]; by apply Forall_app|].
      destruct r as [a|e]; [|done]. destruct Hr2 as (l & cs' & -> & Ha).
      exists (cs ++ CNow now :: cs1 ++ l), cs'. split; [|done].
      by rewrite <- app_assoc; simpl; rewrite <- app_assoc.
    + apply only_ret. rewrite app_nil_r. split; [|by apply Hsleep].
      apply Forall_app. split; [done|]. by constructor.
Qed.

(** ** Commands *)

(** What [runShellCommand] calls. *)
Definition running (id command : string) (c : call) : Prop :=
  pacing c \/ (exists r, c = CSend id command r) \/ (exists cid r, c = CInvocation id cid r).

(** A part of a history in which [command] is sent, once, and its end awaited, or
    in which nothing is called. *)
Definition waiting (id : string) (c : call) : Prop := pacing c \/ exists cid r, c = CInvocation id cid r.
Definition phase (id command : string) (cs : list call) : Prop :=
  cs = [] \/ exists r rest, cs = CSend id command r :: rest /\ Forall (waiting id) rest.

Lemma phase_running id command cs : phase id command cs -> Forall (running id command) cs.
Proof.
  intros [->|(r & rest & -> & Hrest)]; [constructor|]. constructor; [right; left; by eexists|].
  eapply Forall_impl; [exact Hrest|]. intros c [H|H]; [by left|by right; right].
Qed.

(** The evidence of a finished command. *)
Definition ran (id command : string) (inv : invocation) (cs : list call) : Prop :=
  exists cid, CSend id command (Ok (Some cid)) ∈ cs /\ CInvocation id cid (Ok (Some inv)) ∈ cs.

Definition shellError (e : derror) : Prop :=
  match e with Wrap "" (Sentinel SSMUnavailable) _ | Sentinel SSMTimeout | CtxErr _ | OutOfFuel => True | _ => False end.

Lemma only_invocation id cid timeout :
  only (waitForCommandInvocation env fuel id cid timeout) (fun r cs =>
    Forall (fun c => pacing c \/ exists r, c = CInvocation id cid r) cs /\
    match r with Ok inv => CInvocation id cid (Ok (Some inv)) ∈ cs | Err e => shellError e end).
Proof.
  unfold waitForCommandInvocation. apply only_bind, only_Now. intros now.
  eapply only_mono; [apply (only_poll (fun c => pacing c \/ exists r, c = CInvocation id cid r)
    (fun inv cs => CInvocation id cid (Ok (Some inv)) ∈ cs) shellError)|]; [by left| | done | done | |].
  - apply only_bind, only_ask. intros r.
    assert (Hctx : forall cs0, only (e ← ctxErr env; mret ((fun e => Err (CtxErr e)) <$> e)) (fun (x : option (res derror invocation)) cs' =>
              cs0 = [CInvocation id cid r] -> Forall (fun c => pacing c \/ exists r, c = CInvocation id cid r) (cs0 ++ cs') /\
              match x with Some (Ok a) => CInvocation id cid (Ok (Some a)) ∈ (cs0 ++ cs') | Some (Err e) => shellError e | None => True end)).
    { intros cs0. apply only_bind, only_ask. intros e. apply only_ret. intros ->.
      split; [constructor; [right; by eexists|]; constructor; [by left|constructor]|]. by destruct e. }
    destruct r as [[inv|]|msg]; [|eapply only_mono; [apply Hctx|]; intros a cs H; by apply H..].
    destruct (isInvocationTerminal _).
    + apply only_ret. split; [constructor; [right; by eexists|constructor]|]. by apply list_elem_of_singleton.
    + eapply only_mono; [apply Hctx|]. intros a cs H. by apply H.
  - intros e [->|He]; [done|]. by destruct e.
  - intros r cs [Hcs Hr]. split; [by constructor; [left|]|].
    destruct r as [inv|e]; [|done]. destruct Hr as (l & cs' & -> & Hin). right. apply elem_of_app. by right.
Qed.

Lemma only_shell id command timeout :
  only (runShellCommand env fuel id command timeout) (fun r cs =>
    phase id command cs /\ match r with Ok inv => ran id command inv cs | Err e => shellError e end).
Proof.
  unfold runShellCommand. apply only_bind, only_ask. intros r.
  assert (Hs : phase id command [CSend id command r]) by (right; by exists r, []).
  destruct r as [[cid|]|msg]; [|by apply only_ret..].
  destruct (bool_decide _); [by apply only_ret|].
  eapply only_mono; [apply only_invocation|]. intros r cs [Hcs Hr]. split.
  - right. exists (Ok (Some cid)), cs. split; [done|]. eapply Forall_impl; [exact Hcs|]. intros c [H|[r' ->]]; [by left|]. right. by exists cid, r'.
  - destruct r as [inv|e]; [|done]. exists cid. split; [left|by right].
Qed.

(** ** Processes *)

Lemma only_readProcStartTime id pid :
  only (readProcStartTime env fuel id pid) (fun r cs =>
    phase id (startTimeCommand pid) cs /\
    match r with
    | Ok (Some t) => exists inv, ran id (startTimeCommand pid) inv cs /\ succeeded inv /\ ParseInt (TrimSpace (inv_Output inv)) = Ok t
    | Ok None => True
    | Err e => shellError e
    end).
Proof.
  unfold readProcStartTime. apply only_rbind. eapply only_mono; [apply only_shell|].
  intros [inv|e] cs [Hcs Hr]; [|done]. apply only_ret. rewrite app_nil_r. split; [done|].
  destruct (succeeded inv) eqn:Hs; simpl; [|done]. destruct (_ || _); [done|].
  destruct (ParseInt _) as [t|] eqn:Ht; [|done]. exists inv. by rewrite Hs.
Qed.

Lemma only_readPIDFile id pid :
  only (readPIDFile env fuel id pid) (fun r cs =>
    Forall (running id (readCommand pid)) cs /\
    match r with
    | Ok ids => exists inv f1 f2 rest, ran id (readCommand pid) inv cs /\ succeeded inv /\
        Fields (TrimSpace (inv_Output inv)) = f1 :: f2 :: rest /\ ParseInt f1 = Ok ids.1 /\ ParseInt f2 = Ok ids.2
    | Err e => shellError e \/ e = ErrProcessLaunchFailed
    end).
Proof.
  unfold readPIDFile. apply only_rbind. eapply only_mono; [apply only_shell|].
  intros [inv|e] cs [Hcs%phase_running Hr]; [|by split; [|left]]. apply only_ret. rewrite app_nil_r. split; [done|].
  destruct (succeeded inv) eqn:Hs; simpl; [|by right].
  destruct (Fields _) as [|f1 [|f2 rest]] eqn:HF; [by right..|].
  destruct (ParseInt f1) as [n1|] eqn:H1; [|by right]. destruct (ParseInt f2) as [n2|] eqn:H2; [|by right].
  exists inv, f1, f2, rest. by rewrite Hs.
Qed.

Lemma only_health id port :
  only (waitForProcessHealth env config fuel id port) (fun r cs =>
    Forall (running id (healthCommand port)) cs /\
    match r with
    | Ok _ => exists inv, ran id (healthCommand port) inv cs /\ succeeded inv /\ TrimSpace (inv_Output inv) = "200"
    | Err e => isCtx e = true \/ e = ErrProcessReadyTimeout \/ e = OutOfFuel
    end).
Proof.
  unfold waitForProcessHealth. apply only_bind, only_Now. intros now.
  eapply only_mono; [apply (only_poll (running id (healthCommand port))
    (fun _ cs => exists inv, ran id (healthCommand port) inv cs /\ succeeded inv /\ TrimSpace (inv_Output inv) = "200")
    (fun e => isCtx e = true \/ e = ErrProcessReadyTimeout \/ e = OutOfFuel))|].
  - by left.
  - apply only_bind. eapply only_mono; [apply only_shell|]. intros r cs [Hcs%phase_running Hr]. apply only_ret.
    rewrite app_nil_r. split; [done|]. destruct r as [inv|]; [|done].
    destruct (succeeded inv) eqn:Hs; [|done]. destruct (bool_decide _) eqn:E; [|done].
    apply bool_decide_eq_true in E. exists inv. by rewrite Hs.
  - right; by left.
  - by right; right.
  - intros e [->|He]; [right; by left|]. rewrite He. by left.
  - intros r cs [Hcs Hr]. split; [by constructor; [left|]|].
    destruct r as [[]|e]; [|done]. destruct Hr as (l & cs' & -> & inv & (cid & H1 & H2) & Hrest).
    exists inv. split; [|done]. exists cid. split; right; apply elem_of_app; by right.
Qed.

Lemma only_newProcessID : only (newProcessID env) (fun _ cs => Forall (fun c => match c with CRandom _ | CNow _ => True | _ => False end) cs).
Proof.
  unfold newProcessID. apply only_bind, only_ask. intros [buf|].
  - apply only_ret. by repeat constructor.
  - apply only_bind, only_Now. intros now. apply only_ret. by repeat constructor.
Qed.
End CallLogic.

(** The run of a part that only makes calls. *)
Lemma only_run {A} (m : DM A) Q d : only m Q -> exists r cs, m d = (r, extend cs d) /\ Q r cs.
Proof. intros H. destruct (H d) as (cs & E & HQ). exists (m d).1, cs. rewrite <- E. by destruct (m d). Qed.

Lemma ran_app_l id command inv cs cs' : ran id command inv cs -> ran id command inv (cs ++ cs').
Proof. intros (cid & H1 & H2). exists cid. by rewrite !elem_of_app; split; left. Qed.
Lemma ran_app_r id command inv cs cs' : ran id command inv cs' -> ran id command inv (cs ++ cs').
Proof. intros (cid & H1 & H2). exists cid. by rewrite !elem_of_app; split; right. Qed.

Section Processes.
Context (env : Env) (config : Config) (fuel : nat).

Definition isNotFound (e : derror) : bool := match e with Sentinel ProcessNotFound => true | _ => false end.
Lemma shellError_found e : shellError e -> isNotFound e = false.
Proof. destruct e as [[]| | | | |]; done. Qed.
Arguments isNotFound : simpl never.

(** The table with the process marked exited. *)
Definition exited (sandboxID processID : string) (t : option (gmap string instanceState)) : option (gmap string instanceState) :=
  alter (fun st => set_processes (alter (set_prStatus ProcessExited) processID (is_processes st)) st) sandboxID <$> t.

Definition signalOf (req : KillProcessRequest) : Z := if bool_decide (kp_Signal req = 0) then defaultSIGTERM else kp_Signal req.

Lemma findProcess_eq sb pid st p d :
  instancesOf d !! sb = Some st -> is_processes st !! pid = Some p -> findProcess sb pid d = (Ok p, d).
Proof. intros H1 H2. unfold findProcess. rewrite M_bind_eq. simpl. by rewrite H1, H2. Qed.

(** The pid was seen to have the start time recorded at launch. *)
Definition checked (id : string) (p : processState) (cs : list call) : Prop :=
  exists inv, ran id (startTimeCommand (pr_pid p)) inv cs /\ succeeded inv /\ ParseInt (TrimSpace (inv_Output inv)) = Ok (pr_startTime p).

(** The kill of that pid succeeded. *)
Definition killed (id : string) (req : KillProcessRequest) (p : processState) (cs : list call) : Prop :=
  exists inv, ran id (killCommand (signalOf req) (pr_pid p)) inv cs /\ succeeded inv.

(** What a kill asks of the instance: the start time of the recorded pid; then,
    once, and only when the answer is the recorded one, the signal for that pid
    and no other; then, when the signal was delivered, the removal of the marker
    files. *)
Definition killPhases (id : string) (req : KillProcessRequest) (p : processState) (c1 c2 c3 : list call) : Prop :=
  phase id (startTimeCommand (pr_pid p)) c1 /\ phase id (killCommand (signalOf req) (pr_pid p)) c2 /\ phase id (cleanupCommand (kp_ProcessID req)) c3 /\
  (c2 <> [] -> checked id p c1) /\ (c3 <> [] -> killed id req p c2).

(** [KillProcess] once the check has passed. *)
Lemma kill_sent id req p cs d :
  phase id (startTimeCommand (pr_pid p)) cs -> checked id p cs ->
  let m :=
    inv ←? runShellCommand env fuel id (killCommand (signalOf req) (pr_pid p)) processLaunchCommandTimeout;
    if negb (succeeded inv) then mret (Err (Wrap "" ErrSSMUnavailable ": kill command failed"))
    else
      runShellCommand env fuel id (cleanupCommand (kp_ProcessID req)) processLaunchCommandTimeout;;
      markProcessExited (kp_SandboxID req) (kp_ProcessID req);;
      mret (Ok ()) in
  exists c2 c3, d_history (m (extend cs d)).2 = d_history d ++ cs ++ c2 ++ c3 /\ killPhases id req p cs c2 c3 /\
    match (m (extend cs d)).1 with
    | Ok _ => d_instances (m (extend cs d)).2 = exited (kp_SandboxID req) (kp_ProcessID req) (d_instances d) /\ killed id req p c2
    | Err e => isNotFound e = false /\ d_instances (m (extend cs d)).2 = d_instances d
    end.
Proof.
  intros Hcs Hchk m. unfold m, rbind. rewrite M_bind_eq.
  destruct (only_run _ _ (extend cs d) (only_shell env fuel id (killCommand (signalOf req) (pr_pid p)) processLaunchCommandTimeout))
    as (r & c2 & -> & Hc2 & Hr2). rewrite extend_app. simpl.
  destruct r as [inv|e]; [destruct (succeeded inv) eqn:Hok; simpl|].
  - rewrite M_bind_eq.
    destruct (only_run _ _ (extend (cs ++ c2) d) (only_shell env fuel id (cleanupCommand (kp_ProcessID req)) processLaunchCommandTimeout))
      as (r & c3 & -> & Hc3 & _). rewrite extend_app. simpl.
    assert (killed id req p c2) as Hk by (exists inv; by rewrite Hok).
    exists c2, c3. rewrite <- !app_assoc. split; [done|]. by split.
  - exists c2, []. rewrite app_nil_r. split; [done|]. split; [|done]. split_and!; [done..|by left|done|done].
  - exists c2, []. rewrite app_nil_r. split; [done|]. split; [split_and!; [done..|by left|done|done]|]. simpl. by split; [apply shellError_found|].
Qed.

(** C14: killing a process checks first that the pid is still the process that was
    launched.  Whatever the provider answers, the calls of the operation are three
    phases, all to the instance that the sandbox id names: the start time of the
    recorded pid is asked for; then, at most once and only when the answer is the
    recorded start time, [kill -signal pid] is sent for that same pid; then, when
    that succeeded, the two marker files are removed; nothing else is sent.  The
    call succeeds only when the kill succeeded, and the process is then marked
    exited; it is marked exited without a kill when it answers not found; any
    other error leaves the table as it was. *)
Theorem kill_verified req id st p d :
  parseSandboxID (kp_SandboxID req) = Ok id ->
  instancesOf d !! kp_SandboxID req = Some st ->
  is_processes st !! kp_ProcessID req = Some p ->
  exists c1 c2 c3, d_history (KillProcess env fuel req d).2 = d_history d ++ c1 ++ c2 ++ c3 /\
    killPhases id req p c1 c2 c3 /\
    match (KillProcess env fuel req d).1 with
    | Ok _ => d_instances (KillProcess env fuel req d).2 = exited (kp_SandboxID req) (kp_ProcessID req) (d_instances d) /\ killed id req p c2
    | Err e =>
        if isNotFound e then
          d_instances (KillProcess env fuel req d).2 = exited (kp_SandboxID req) (kp_ProcessID req) (d_instances d) /\ c2 = []
        else d_instances (KillProcess env fuel req d).2 = d_instances d
    end.
Proof.
  intros Hid Hst Hp. unfold KillProcess. rewrite rbind_eq, Hid. simpl. rewrite rbind_eq, (findProcess_eq _ _ _ _ _ Hst Hp), rbind_eq.
  destruct (only_run _ _ d (only_readProcStartTime env fuel id (pr_pid p))) as (r & cs & -> & Hcs & Hr).
  assert (killPhases id req p cs [] []) as Hnone by (split_and!; [done|by left|by left|done|done]).
  destruct r as [current|e]; [destruct (bool_decide (current = Some (pr_startTime p))) eqn:Ecur; simpl|].
  - apply bool_decide_eq_true in Ecur as ->.
    destruct (kill_sent id req p cs d Hcs Hr) as (c2 & c3 & E & Hk & Hr').
    exists cs, c2, c3. split; [done|]. split; [done|]. unfold signalOf in *. cbv zeta in E, Hr'.
    match type of E with d_history (snd ?x) = _ => destruct x as [[u|e] d'] end; [done|].
    simpl in *. by destruct Hr' as [-> Hd].
  - exists cs, [], []. rewrite app_nil_r. by split.
  - exists cs, [], []. rewrite app_nil_r. split; [done|]. split; [done|]. simpl. by rewrite shellError_found.
Qed.

(** The parts of a launch between its two looks at the table. *)
Definition launched (id binary : string) (args : list string) (vars : gmap string string) (port : Z)
    (processID : string) (ids : Z * Z) (cs : list call) : Prop :=
  (exists inv, ran id (buildSSMCommand processID binary args vars) inv cs /\ succeeded inv) /\
  (exists inv f1 f2 rest, ran id (readCommand processID) inv cs /\ succeeded inv /\
     Fields (TrimSpace (inv_Output inv)) = f1 :: f2 :: rest /\ ParseInt f1 = Ok ids.1 /\ ParseInt f2 = Ok ids.2) /\
  exists inv, ran id (healthCommand port) inv cs /\ succeeded inv /\ TrimSpace (inv_Output inv) = "200".

(** A launch succeeds only on evidence: the sandbox is tracked and running,
    the launch command with the quoted program, arguments and environment ended
    with success, the pid file named the pid and the start time that are now
    recorded, and the health check answered 200; the process is then recorded as
    running under its new id.  A launch that fails leaves the table as it was. *)
Theorem launch_on_evidence req d :
  exists cs, d_history (LaunchProcess env config fuel req d).2 = d_history d ++ cs /\
    match (LaunchProcess env config fuel req d).1 with
    | Err _ => d_instances (LaunchProcess env config fuel req d).2 = d_instances d
    | Ok resp => exists id st ids,
        parseSandboxID (lp_SandboxID req) = Ok id /\
        instancesOf d !! lp_SandboxID req = Some st /\ is_status st = statusRunning /\
        launched id (lp_Binary req) (lp_Args req) (lp_Env req) (lp_ExposePort req) (lr_ProcessID resp) ids cs /\
        d_instances (LaunchProcess env config fuel req d).2 =
          <[lp_SandboxID req := set_processes (<[lr_ProcessID resp :=
              mkProcessState (lr_ProcessID resp) ids.1 ids.2 (lp_Binary req) (lp_Args req) (lp_ExposePort req) ProcessRunning]> (is_processes st)) st]>
            <$> d_instances d /\
        lr_Status resp = ProcessRunning /\
        lr_Address resp = selectAddressIP (is_publicIP st) (is_privateIP st) (c_IPSelectionMode config) +:+ ":" +:+ pretty (lp_ExposePort req)
    end.
Proof.
  assert (Hnil : d_history d = d_history d ++ []) by by rewrite app_nil_r.
  unfold LaunchProcess. rewrite rbind_eq. simpl.
  destruct (parseSandboxID _) as [id|e] eqn:Hid; [|by exists []]. rewrite M_bind_eq. simpl.
  destruct (instancesOf d !! _) as [st|] eqn:Hst; [|by exists []].
  destruct (bool_decide (is_status st = statusRunning)) eqn:Hrun; [simpl|by exists []]. apply bool_decide_eq_true in Hrun.
  rewrite M_bind_eq. destruct (only_run _ _ d (only_newProcessID env)) as (processID & cs0 & -> & _). simpl.
  rewrite rbind_eq. destruct (only_run _ _ (extend cs0 d) (only_shell env fuel id (buildSSMCommand processID (lp_Binary req) (lp_Args req) (lp_Env req)) processLaunchCommandTimeout))
    as (r1 & cs1 & -> & _ & Hr1). rewrite extend_app.
  destruct r1 as [inv1|e]; [|by eexists]. destruct (succeeded inv1) eqn:Hok1; simpl; [|by eexists].
  rewrite rbind_eq. destruct (only_run _ _ (extend (cs0 ++ cs1) d) (only_readPIDFile env fuel id processID)) as (r2 & cs2 & -> & _ & Hr2). rewrite extend_app.
  destruct r2 as [ids|e]; [|by eexists].
  rewrite rbind_eq. destruct (only_run _ _ (extend ((cs0 ++ cs1) ++ cs2) d) (only_health env config fuel id (lp_ExposePort req))) as (r3 & cs3 & -> & _ & Hr3). rewrite extend_app.
  destruct r3 as [[]|e]; [|by eexists].
  rewrite M_bind_eq. simpl. unfold instancesOf in *. simpl in *. rewrite Hst.
  exists (((cs0 ++ cs1) ++ cs2) ++ cs3). split; [done|]. exists id, st, ids. split_and!; try done.
  destruct Hr2 as (inv2 & f1 & f2 & rest & Hran2 & H2). destruct Hr3 as (inv3 & Hran3 & H3).
  split_and!; [exists inv1; rewrite Hok1; split; [by apply ran_app_l, ran_app_l, ran_app_r|done]
    |exists inv2, f1, f2, rest; split; [by apply ran_app_l, ran_app_r|done]|exists inv3; split; [by apply ran_app_r|done]].
Qed.
End Processes.

(** ** The words the shell reads

    A reference for the part of the POSIX shell language the commands use: words
    are separated by blanks; between single quotes every character stands for
    itself; a backslash outside quotes makes the next character stand for itself;
    any other character with a meaning for the shell gives no words here. *)
Module Shell.
Definition special : ascii -> bool := oneOf ("|&;<>()$`*?[]{}!#~" +:+ dq +:+ nl).
Definition blank (c : ascii) : bool := bool_decide (c = " "%char) || bool_decide (c = tab).

Definition push (cur : option string) (c : ascii) : option string := Some (default "" cur +:+ String c "").
Definition flush (cur : option string) (l : list string) : list string := match cur with Some w => w :: l | None => l end.

Fixpoint lex (quoted : bool) (cur : option string) (s : string) : option (list string) :=
  match s with
  | EmptyString => if quoted then None else Some (flush cur [])
  | String c s' =>
      if quoted then
        if bool_decide (c = squote) then lex false cur s' else lex true (push cur c) s'
      else if bool_decide (c = squote) then lex true (Some (default "" cur)) s'
      else if bool_decide (c = "\"%char) then
        match s' with String c' s'' => lex false (push cur c') s'' | EmptyString => None end
      else if blank c then flush cur <$> lex false None s'
      else if special c then None
      else lex false (push cur c) s'
  end.
Definition words : string -> option (list string) := lex false None.

Lemma lex_escape w s rest : lex true (Some w) (escapeQuotes s +:+ "'" +:+ rest) = lex false (Some (w +:+ s)) rest.
Proof.
  revert w. induction s as [|c s IH]; intros w; [by simpl; rewrite append_nil_r|]. simpl.
  destruct (bool_decide (c = squote)) eqn:E.
  - apply bool_decide_eq_true in E as ->.
    change (lex true (Some (w +:+ "'")) (escapeQuotes s +:+ "'" +:+ rest) = lex false (Some (w +:+ "'" +:+ s)) rest).
    by rewrite IH, <- append_assoc_l.
  - simpl. rewrite E. unfold push. simpl. by rewrite IH, <- append_assoc_l.
Qed.

(** A quoted string is read as itself, glued to what stands before it. *)
Lemma lex_shellQuote cur s rest : lex false cur (shellQuote s +:+ rest) = lex false (Some (default "" cur +:+ s)) rest.
Proof.
  change (lex true (Some (default "" cur)) ((escapeQuotes s +:+ "'") +:+ rest) = lex false (Some (default "" cur +:+ s)) rest).
  rewrite <- append_assoc_l. apply lex_escape.
Qed.

Lemma lex_args w args : lex false (Some w) (foldr (fun arg rest => " " +:+ shellQuote arg +:+ rest) "" args) = Some (w :: args).
Proof.
  revert w. induction args as [|a args IH]; intros w; [done|].
  change (flush (Some w) <$> lex false None (shellQuote a +:+ foldr (fun arg rest => " " +:+ shellQuote arg +:+ rest) "" args) = Some (w :: a :: args)).
  by rewrite lex_shellQuote, IH.
Qed.

Definition plain (c : ascii) : bool := negb (special c) && negb (blank c) && negb (bool_decide (c = squote)) && negb (bool_decide (c = "\"%char)).

Lemma lex_plain cur k rest : allBytes plain k = true -> k <> "" -> lex false cur (k +:+ rest) = lex false (Some (default "" cur +:+ k)) rest.
Proof.
  revert cur. induction k as [|c k IH]; intros cur Hk Hne; [done|]. simpl in Hk. apply andb_true_iff in Hk as [Hc Hk].
  unfold plain in Hc. simpl. destruct (special c), (blank c), (bool_decide (c = squote)), (bool_decide (c = "\"%char)); try done.
  destruct k as [|c' k]; [done|]. rewrite IH by done. unfold push. simpl. by rewrite <- append_assoc_l.
Qed.

(** A variable whose name is plain is exported with its value, whatever the value is. *)
Lemma words_export (env : gmap string string) k : allBytes plain k = true -> k <> "" ->
  words ("export " +:+ k +:+ "=" +:+ shellQuote (default "" (env !! k))) = Some ["export"; k +:+ "=" +:+ default "" (env !! k)].
Proof.
  intros Hk Hne. unfold words.
  change (flush (Some "export") <$> lex false None (k +:+ "=" +:+ shellQuote (default "" (env !! k))) = Some ["export"; k +:+ "=" +:+ default "" (env !! k)]).
  rewrite lex_plain by done.
  change (flush (Some "export") <$> lex false (Some (k +:+ "=")) (shellQuote (default "" (env !! k))) = Some ["export"; k +:+ "=" +:+ default "" (env !! k)]).
  rewrite <- (append_nil_r (shellQuote _)), lex_shellQuote. simpl. by rewrite <- append_assoc_l.
Qed.

(** The name itself is not quoted: this one runs a command. *)
Example export_name_unquoted :
  exportLine {["X=1; rm -rf /; Y" := "v"]} "X=1; rm -rf /; Y" = "export X=1; rm -rf /; Y='v'" +:+ nl.
Proof. vm_compute. reflexivity. Qed.

(** C30: quoting keeps the words: whatever bytes the program's name, its
    arguments and the process id hold, the shell reads from the launch line
    exactly nohup, the program and its arguments, and from the commands that read
    and remove the marker files exactly their own words and the file names. *)
Theorem commands_keep_words binary args processID :
  words (commandLine binary args) = Some ("nohup" :: binary :: args) /\
  words (readCommand processID) = Some ["cat"; pidFilePath processID] /\
  words (cleanupCommand processID) = Some ["rm"; "-f"; pidFilePath processID; statusFilePath processID].
Proof.
  unfold words. split_and!.
  - change (flush (Some "nohup") <$> lex false None (shellQuote binary +:+ foldr (fun arg rest => " " +:+ shellQuote arg +:+ rest) "" args)
      = Some ("nohup" :: binary :: args)). by rewrite lex_shellQuote, lex_args.
  - change (flush (Some "cat") <$> lex false None (shellQuote (pidFilePath processID)) = Some ["cat"; pidFilePath processID]).
    by rewrite <- (append_nil_r (shellQuote _)), lex_shellQuote.
  - change (flush (Some "rm") <$> (flush (Some "-f") <$> lex false None (shellQuote (pidFilePath processID) +:+ " " +:+ shellQuote (statusFilePath processID)))
      = Some ["rm"; "-f"; pidFilePath processID; statusFilePath processID]).
    rewrite lex_shellQuote. simpl default.
    change (flush (Some "rm") <$> (flush (Some "-f") <$> (flush (Some (pidFilePath processID)) <$> lex false None (shellQuote (statusFilePath processID))))
      = Some ["rm"; "-f"; pidFilePath processID; statusFilePath processID]).
    by rewrite <- (append_nil_r (shellQuote _)), lex_shellQuote.
Qed.
End Shell.
