(* ===== verification/DirectWaits.v ===== *)
(** * DirectWaits: every operation on cloud instances returns

    With a clock that a timer moves on by its duration, and random numbers in
    the range asked for, every polling loop ends after a number of rounds that
    its deadline and its first delay bound; so every operation returns. *)

From Stdlib Require Import Ascii Psatz.
From S2P Require Import Prelude GoStrings GoText GoFloat FleetTypes Direct DirectProps.

Local Open Scope Z_scope.
Local Open Scope string_scope.
Local Open Scope list_scope.
Local Open Scope stdpp_scope.
Local Open Scope go_scope.

(** The documented behaviour of package time and of math/rand. *)
Class GoodClock (env : Env) : Prop := {
  now_mono h c : env_Now env h <= env_Now env (h ++ [c]);
  now_sleep h t : env_Now env h + t <= env_Now env (h ++ [CSleep t None]);
  int63n_range h n : 0 < n -> 0 <= env_Int63n env h n < n;
}.

Section Waits.
Context (env : Env) `{!GoodClock env} (config : Config) (fuel : nat).

Definition clock (d : Direct) : Z := env_Now env (d_history d).

(** [tame ok m]: time does not go back over [m] and its result is [ok]. *)
Definition tame {A} (ok : A -> Prop) (m : DM A) : Prop := forall d, ok (m d).1 /\ clock d <= clock (m d).2.
Notation anything := (fun _ => True).
Definition ended {A} (r : res derror A) : Prop := r <> Err OutOfFuel.

Lemma tame_ret {A} (ok : A -> Prop) a : ok a -> tame ok (mret a).
Proof. by intros H d. Qed.
Lemma tame_gets {A} (ok : A -> Prop) (f : Direct -> A) : (forall d, ok (f d)) -> tame ok (gets f).
Proof. intros H d. split; [apply H|done]. Qed.
Lemma tame_modify f : (forall d, d_history (f d) = d_history d) -> tame anything (modify f).
Proof. intros H d. split; [done|]. unfold clock. simpl. by rewrite H. Qed.
Lemma tame_ask {A} (answer : list call -> A) (c : A -> call) : tame anything (ask answer c).
Proof. intros d. split; [done|]. unfold clock. apply now_mono. Qed.
Lemma tame_bind {A B} (ok : A -> Prop) (ok' : B -> Prop) (m : DM A) (k : A -> DM B) :
  tame ok m -> (forall a, ok a -> tame ok' (k a)) -> tame ok' (m ≫= k).
Proof.
  intros Hm Hk d. rewrite M_bind_eq. destruct (Hm d) as [Ha Ht]. destruct (Hk _ Ha (m d).2) as [Hb Ht'].
  split; [done|]. lia.
Qed.
Lemma tame_weaken {A} (ok ok' : A -> Prop) m : tame ok m -> (forall a, ok a -> ok' a) -> tame ok' m.
Proof. intros H Hi d. destruct (H d). eauto. Qed.
Lemma tame_rbind {A B} (m : DM (res derror A)) (k : A -> DM (res derror B)) :
  tame ended m -> (forall a, tame ended (k a)) -> tame ended (rbind m k).
Proof.
  intros Hm Hk. eapply tame_bind; [exact Hm|]. intros [a|e] Ha; [apply Hk|]. apply tame_ret.
  intros [= ->]. by apply Ha.
Qed.

(** ** Sleeping *)

Definition lowest (base : Z) : Z := base - Z.quot base 5.

Lemma jitter_range base d : 5 <= base -> wp (jitterDelay env base) (fun t d' => lowest base <= t /\ clock d <= clock d') d.
Proof.
  intros Hb. unfold jitterDelay, lowest. rewrite bool_decide_eq_false_2 by lia.
  assert (Hq : 1 <= Z.quot base 5) by (apply Z.quot_le_lower_bound; lia).
  cbv zeta. rewrite bool_decide_eq_false_2 by lia. apply wp_bind. unfold wp. simpl.
  pose proof (int63n_range (d_history d) (2 * Z.quot base 5 + 1) ltac:(lia)). split; [lia|].
  apply now_mono.
Qed.

Lemma lowest_mono b b' : 0 <= b <= b' -> lowest b <= lowest b'.
Proof. intros H. unfold lowest. rewrite !Z.quot_div_nonneg by lia. Z.div_mod_to_equations. lia. Qed.

Lemma sleep_progress late b0 base deadline d :
  5 <= b0 <= base -> base <= 2 ^ 62 -> late <> OutOfFuel ->
  wp (sleepUntil env late base deadline) (fun r d' => clock d <= clock d' /\
    match r with
    | Ok _ => clock d < deadline /\ Z.min (clock d + lowest b0) deadline <= clock d'
    | Err e => e <> OutOfFuel
    end) d.
Proof.
  intros Hb Hmax Hlate. unfold sleepUntil. apply wp_bind. unfold wp at 1. simpl. fold (clock d).
  set (d1 := record _ d). assert (H1 : clock d <= clock d1) by apply now_mono.
  assert (Hlow : 0 < lowest b0 <= lowest base) by (split; [unfold lowest; rewrite Z.quot_div_nonneg by lia; Z.div_mod_to_equations; lia|apply lowest_mono; lia]).
  assert (Hbound : lowest b0 <= 2 ^ 62) by (unfold lowest; rewrite Z.quot_div_nonneg by lia; Z.div_mod_to_equations; lia).
  destruct (bool_decide (_ <= 0)) eqn:Hrem; [by split|]. apply bool_decide_eq_false in Hrem.
  assert (Hsub : time_Sub deadline (clock d) = Z.min (2 ^ 63 - 1) (deadline - clock d)) by (unfold time_Sub in *; lia).
  rewrite Hsub in *. apply wp_bind. eapply wp_mono; [by apply jitter_range; lia|]. intros t d2 [Ht H2].
  set (t' := if bool_decide (_ > _) then _ else _).
  assert (Ht' : 0 < t' /\ Z.min (lowest b0) (deadline - clock d) <= t') by (unfold t'; case_bool_decide; lia).
  rewrite bool_decide_eq_false_2 by lia. apply wp_bind. unfold wp. simpl.
  set (answer := env_Sleep env _ _). set (d3 := record _ d2). assert (H3 : clock d2 <= clock d3) by apply now_mono.
  split; [lia|]. destruct answer as [e|] eqn:Ea; [done|]. split; [lia|].
  pose proof (now_sleep (d_history d2) t') as Hs. change (clock d2 + t' <= clock d3) in Hs. lia.
Qed.

(** ** Polling loops *)

Lemma nextBackoff_range b0 delay maxDelay :
  5 <= b0 <= delay -> delay <= maxDelay <= 2 ^ 62 -> b0 <= nextBackoffDelay delay maxDelay <= maxDelay.
Proof.
  intros H1 H2. unfold nextBackoffDelay. case_bool_decide; [lia|].
  assert (Hw : wrap64 (delay * 2) = delay * 2) by (unfold wrap64; rewrite Z.mod_small; lia).
  rewrite Hw. cbv zeta. case_bool_decide; lia.
Qed.

Definition returns {A} (r : option (res derror A)) : Prop := r <> Some (Err OutOfFuel).

(** A loop whose deadline is at most [n - 1] shortest sleeps away ends within
    [n] rounds. *)
Lemma poll_ends {A} n b0 (attempt : DM (option (res derror A))) lateSleep late onSleep maxDelay deadline delay d :
  tame returns attempt -> lateSleep <> OutOfFuel -> late <> OutOfFuel ->
  (forall e, e <> OutOfFuel -> onSleep e <> OutOfFuel) ->
  5 <= b0 <= delay -> delay <= maxDelay <= 2 ^ 62 ->
  (1 <= n)%nat -> deadline - clock d <= (Z.of_nat n - 1) * lowest b0 ->
  wp (poll env n attempt (sleepUntil env lateSleep) late onSleep maxDelay deadline delay)
    (fun r d' => ended r /\ clock d <= clock d') d.
Proof.
  intros Hattempt Hl1 Hl2 Hon Hb Hmax. revert delay d Hb Hmax. induction n as [|n IH]; intros delay d Hb Hmax Hn Hd; [lia|].
  simpl. apply wp_bind. destruct (Hattempt d) as [Hr Ht]. unfold wp at 1.
  destruct (attempt d) as [[[a|e]|] d1]; simpl in *; [by split|split; [|done]; intros [= ->]; by apply Hr|].
  apply wp_bind. unfold after. apply wp_bind. unfold wp at 1. simpl.
  set (d2 := record _ d1). assert (H2 : clock d1 <= clock d2) by apply now_mono.
  unfold wp at 1. simpl. fold (clock d1). case_bool_decide; [split; [intros [= ->]; by apply Hl2|simpl; lia]|].
  apply wp_bind. eapply wp_mono; [apply (sleep_progress _ b0); [lia..|done]|]. intros r d3 [H3 Hr3].
  destruct r as [[]|e]; [|split; [intros [= E]; by eapply Hon|simpl; lia]].
  assert (Hlow : 0 < lowest b0) by (unfold lowest; rewrite Z.quot_div_nonneg by lia; Z.div_mod_to_equations; lia).
  assert (Hn0 : (1 <= n)%nat) by (destruct n; [exfalso; change (Z.of_nat 1 - 1) with 0 in Hd; lia|lia]).
  pose proof (nextBackoff_range b0 delay maxDelay Hb Hmax).
  eapply wp_mono; [apply IH; [lia..|done|nia]|].
  simpl. intros r' d4 [He H4]. split; [done|]. lia.
Qed.

Lemma tame_wp {A} (m : DM (res derror A)) : (forall d, wp m (fun r d' => ended r /\ clock d <= clock d') d) -> tame ended m.
Proof. done. Qed.
Lemma wp_tame {A} (ok : A -> Prop) (m : DM A) d : tame ok m -> wp m (fun r d' => ok r /\ clock d <= clock d') d.
Proof. intros H. apply H. Qed.

(** Reading the clock for a deadline. *)
Lemma wp_deadline {A} (k : Z -> DM (res derror A)) d :
  (forall d1, clock d <= clock d1 -> wp (k (clock d)) (fun r d' => ended r /\ clock d1 <= clock d') d1) ->
  wp (now ← Now env; k now) (fun r d' => ended r /\ clock d <= clock d') d.
Proof.
  intros H. apply wp_bind. unfold wp at 1. simpl. fold (clock d).
  assert (H1 : clock d <= clock (record (CNow (clock d)) d)) by apply now_mono.
  eapply wp_mono; [by apply H|]. simpl. intros r d' [Hr Hc]. split; [done|]. lia.
Qed.

Ltac tame_step :=
  match goal with
  | |- tame _ (rbind _ _) => apply tame_rbind; [|intros ?]
  | |- tame _ (_ ≫= _) => eapply tame_bind; [|intros ? ?]
  | |- tame _ (mret _) => apply tame_ret
  | |- tame _ (ask _ _) => apply tame_ask
  | |- tame _ (gets _) => by apply tame_gets
  | |- tame _ (modify _) => by apply tame_modify
  | |- tame _ (match ?x with _ => _ end) => destruct x eqn:?
  | |- tame _ _ => solve [eauto 2]
  end.

(** The bound on the rounds: 150 shortest sleeps cover the 30 seconds of a
    command, and those of the readiness loops must cover their timeouts. *)
Definition enough : Prop :=
  (151 <= fuel)%nat /\
  c_InstanceReadyTimeout config <= (Z.of_nat fuel - 1) * 1600000000 /\
  c_ProcessReadyTimeout config <= (Z.of_nat fuel - 1) * 400000000.
Context (Hfuel : enough).

Lemma preflight_tame : tame ended (pollPreflight env).
Proof.
  unfold pollPreflight. eapply tame_bind; [apply tame_ask|]. intros [e|] _; [by apply tame_ret|].
  eapply (tame_bind anything); [by apply tame_gets|]. intros [] _; by apply tame_ret.
Qed.

Lemma preflight_then {A B} (m : DM B) (f : B -> option (res derror A)) :
  tame anything m -> (forall b, returns (f b)) ->
  tame returns (e ← pollPreflight env; match e with Err e => mret (Some (Err e)) | Ok () => r ← m; mret (f r) end).
Proof.
  intros Hm Hf. eapply tame_bind; [apply preflight_tame|]. intros [[]|e] He.
  - eapply tame_bind; [exact Hm|]. intros b _. by apply tame_ret.
  - apply tame_ret. intros [= ->]. by apply He.
Qed.

Lemma ready_ends id deadline d :
  deadline - clock d <= c_InstanceReadyTimeout config ->
  wp (waitForInstanceReady env config fuel id deadline) (fun r d' => ended r /\ clock d <= clock d') d.
Proof.
  intros Hd. destruct Hfuel as (H1 & H2 & _). apply (poll_ends _ (2 * Second)); try done; [|lia|].
  - apply (preflight_then (DescribeInstance env id)
      (fun r => match r with Ok (Some status) => if ready config status then Some (Ok status) else None | _ => None end)); [apply tame_ask|].
    intros [[status|]|]; try done. by destruct (ready config status).
  - change (lowest (2 * Second)) with 1600000000. lia.
Qed.

Lemma registration_ends id deadline d :
  deadline - clock d <= c_InstanceReadyTimeout config ->
  wp (waitForSSMRegistration env fuel id deadline) (fun r d' => ended r /\ clock d <= clock d') d.
Proof.
  intros Hd. destruct Hfuel as (H1 & H2 & _). apply (poll_ends _ (2 * Second)); try done; [| |lia|].
  - apply (preflight_then (DescribeInstanceInformation env id)
      (fun r => match r with Ok n => if bool_decide (n > 0) then Some (Ok ()) else None | Err _ => None end)); [apply tame_ask|].
    intros [n|]; [|done]. by destruct (bool_decide _).
  - intros e He. by destruct (isReadyTimeout e).
  - change (lowest (2 * Second)) with 1600000000. lia.
Qed.

Lemma createWait_tame id : tame ended (createWait env config fuel id).
Proof.
  apply tame_wp. intros d. apply wp_deadline. intros d1 H1. unfold rbind. apply wp_bind.
  eapply wp_mono; [apply ready_ends; lia|]. intros [status|e] d2 [He H2]; [|by split; [intros [= ->]; by apply He|]].
  apply wp_bind. eapply wp_mono; [apply registration_ends; lia|]. intros [u|e] d3 [He' H3].
  - split; [done|]. simpl. lia.
  - split; [intros [= ->]; by apply He'|simpl; lia].
Qed.

Lemma invocation_tame id cid : tame ended (waitForCommandInvocation env fuel id cid processLaunchCommandTimeout).
Proof.
  apply tame_wp. intros d. apply wp_deadline. intros d1 H1. destruct Hfuel as (Hf & _).
  apply (poll_ends _ (250 * Millisecond)); try done; [| |lia|].
  - eapply tame_bind; [apply tame_ask|]. intros r _.
    assert (Hctx : tame (@returns invocation) (e ← ctxErr env; mret ((fun e => Err (CtxErr e)) <$> e))).
    { eapply tame_bind; [apply tame_ask|]. intros [e|] _; by apply tame_ret. }
    destruct r as [[inv|]|]; try done. destruct (isInvocationTerminal _); [by apply tame_ret|done].
  - intros e He. by destruct (isReadyTimeout e).
  - change (lowest (250 * Millisecond)) with 200000000. unfold processLaunchCommandTimeout, Second. lia.
Qed.

Lemma shell_tame id command : tame ended (runShellCommand env fuel id command processLaunchCommandTimeout).
Proof.
  unfold runShellCommand. eapply tame_bind; [apply tame_ask|]. intros [[cid|]|msg] _; [|by apply tame_ret..].
  destruct (bool_decide _); [by apply tame_ret|apply invocation_tame].
Qed.

Lemma health_tame id port : tame ended (waitForProcessHealth env config fuel id port).
Proof.
  apply tame_wp. intros d. apply wp_deadline. intros d1 H1. destruct Hfuel as (Hf & _ & H2).
  apply (poll_ends _ (500 * Millisecond)); try done; [| |lia|].
  - eapply tame_bind; [apply shell_tame|]. intros [inv|] _; apply tame_ret; [|done]. by destruct (_ && _).
  - intros e He. by destruct (isCtx e).
  - change (lowest (500 * Millisecond)) with 400000000. lia.
Qed.

(** ** The operations *)

Lemma launch_tame req : tame ended (createLaunch env config req).
Proof.
  unfold createLaunch. apply tame_rbind.
  - apply tame_ret. unfold launchConfig, selectInstanceType, renderUserData.
    destruct (_ && _); [|destruct (List.find _ _)]; simpl; try done; destruct (bool_decide _); try done; by destruct (env_Render _ _ _).
  - intros cfg. eapply tame_bind; [apply tame_ask|]. intros [[info|]|msg] _; apply tame_ret; try done. by destruct (bool_decide _).
Qed.

Lemma create_tame req : tame ended (CreateSandbox env config fuel req).
Proof.
  unfold CreateSandbox. apply tame_rbind.
  { unfold createBegin. eapply tame_bind; [by apply (tame_gets anything)|]. intros [] _; by apply tame_ret. }
  intros _. apply tame_rbind; [apply launch_tame|]. intros id.
  eapply tame_bind; [apply createWait_tame|]. intros r Hr. unfold createFinish, terminateOrphanInstance.
  assert (Hend : forall e, e <> OutOfFuel -> tame (@ended CreateSandboxResponse) ((TerminateInstance env id;; mret ());; mret (Err e))).
  { intros e He. eapply (tame_bind anything); [|intros _ _; apply tame_ret; by intros [= ->]].
    eapply tame_bind; [apply tame_ask|]. intros _ _. by apply tame_ret. }
  destruct r as [status|e]; [|apply Hend; intros ->; by apply Hr].
  eapply (tame_bind anything); [by apply tame_gets|]. intros [] _; [by apply Hend|].
  eapply tame_bind; [by apply tame_modify|]. intros _ _. by apply tame_ret.
Qed.

Lemma lookup_tame sandboxID : tame ended (lookupTarget sandboxID).
Proof.
  unfold lookupTarget. apply tame_rbind.
  - apply tame_ret. unfold parseSandboxID. destruct (CutPrefix _ _); [by destruct (bool_decide _)|done].
  - intros p. eapply (tame_bind anything); [by apply tame_gets|]. intros m _. apply tame_ret. by destruct (m !! _).
Qed.

Lemma update_tame sandboxID f : tame ended (update sandboxID f).
Proof.
  unfold update. eapply (tame_bind anything); [by apply tame_gets|]. intros m _. destruct (m !! _); [|by apply tame_ret].
  eapply tame_bind; [by apply tame_modify|]. intros _ _. by apply tame_ret.
Qed.

Lemma destroy_tame sandboxID : tame ended (DestroySandbox env sandboxID).
Proof.
  apply tame_rbind; [apply lookup_tame|]. intros id. eapply tame_bind; [apply tame_ask|].
  intros [msg|] _; [by apply tame_ret|]. eapply tame_bind; [by apply tame_modify|]. intros _ _. by apply tame_ret.
Qed.

Lemma pause_tame sandboxID : tame ended (PauseSandbox env sandboxID).
Proof.
  apply tame_rbind; [apply lookup_tame|]. intros id. eapply tame_bind; [apply tame_ask|].
  intros [msg|] _; [by apply tame_ret|apply update_tame].
Qed.

Lemma resume_tame sandboxID : tame ended (ResumeSandbox env config fuel sandboxID).
Proof.
  apply tame_rbind; [apply lookup_tame|]. intros id. eapply tame_bind; [apply tame_ask|].
  intros [msg|] _; [by apply tame_ret|]. apply tame_rbind; [apply createWait_tame|]. intros status. apply update_tame.
Qed.

Lemma parse_tame sandboxID : tame ended (mret (parseSandboxID sandboxID)).
Proof. apply tame_ret. unfold parseSandboxID. destruct (CutPrefix _ _); [by destruct (bool_decide _)|done]. Qed.

Lemma find_tame sandboxID processID : tame ended (findProcess sandboxID processID).
Proof.
  unfold findProcess. eapply (tame_bind anything); [by apply tame_gets|]. intros m _. apply tame_ret.
  destruct (m !! _) as [st|]; [|done]. by destruct (_ !! _).
Qed.

(** A command, then pure code that reads its output. *)
Lemma shell_then {A} id command (f : invocation -> res derror A) :
  (forall inv, ended (f inv)) ->
  tame ended (inv ←? runShellCommand env fuel id command processLaunchCommandTimeout; mret (f inv)).
Proof. intros Hf. apply tame_rbind; [apply shell_tame|]. intros inv. by apply tame_ret. Qed.

Lemma readProc_tame id pid : tame ended (readProcStartTime env fuel id pid).
Proof.
  apply shell_then. intros inv. destruct (negb _); [done|]. cbv zeta. destruct (_ || _); [done|]. by destruct (ParseInt _).
Qed.

Lemma readPIDFile_tame id pid : tame ended (readPIDFile env fuel id pid).
Proof.
  apply shell_then. intros inv. destruct (negb _); [done|]. destruct (Fields _) as [|f1 [|f2 l]]; [done..|].
  destruct (ParseInt f1); [|done]. by destruct (ParseInt f2).
Qed.

Lemma launchProcess_tame req : tame ended (LaunchProcess env config fuel req).
Proof.
  apply tame_rbind; [apply parse_tame|]. intros id. eapply (tame_bind anything); [by apply tame_gets|]. intros m _.
  destruct (m !! _); [|by apply tame_ret]. destruct (negb _); [by apply tame_ret|].
  eapply (tame_bind anything).
  { unfold newProcessID. eapply tame_bind; [apply tame_ask|]. intros [buf|] _; [by apply tame_ret|].
    eapply tame_bind; [apply tame_ask|]. intros now _. by apply tame_ret. }
  intros processID _. apply tame_rbind; [apply shell_tame|]. intros inv. destruct (negb _); [by apply tame_ret|].
  apply tame_rbind; [apply readPIDFile_tame|]. intros ids. apply tame_rbind; [apply health_tame|]. intros _.
  eapply (tame_bind anything); [by apply tame_gets|]. intros m' _. destruct (m' !! _); [|by apply tame_ret].
  eapply tame_bind; [by apply tame_modify|]. intros _ _. by apply tame_ret.
Qed.

Lemma mark_then {A} sandboxID processID (r : res derror A) : ended r -> tame ended (markProcessExited sandboxID processID;; mret r).
Proof. intros Hr. eapply (tame_bind anything); [by apply tame_modify|]. intros _ _. by apply tame_ret. Qed.

Lemma kill_tame req : tame ended (KillProcess env fuel req).
Proof.
  apply tame_rbind; [apply parse_tame|]. intros id. apply tame_rbind; [apply find_tame|]. intros p.
  apply tame_rbind; [apply readProc_tame|]. intros current. destruct (negb _); [by apply mark_then|].
  apply tame_rbind; [apply shell_tame|]. intros inv. destruct (negb _); [by apply tame_ret|].
  eapply tame_bind; [apply shell_tame|]. intros _ _. by apply mark_then.
Qed.

Lemma getStatus_tame req : tame ended (GetProcessStatus env fuel req).
Proof.
  apply tame_rbind; [apply parse_tame|]. intros id. apply tame_rbind; [apply find_tame|]. intros p.
  destruct (pr_status p); [| |by apply tame_ret];
    (apply tame_rbind; [apply shell_tame|]; intros inv; destruct (negb _); [by apply tame_ret|];
     destruct (reportsRunning _ _); [by apply tame_ret|by apply mark_then]).
Qed.

Lemma recover_tame : tame ended (Recover env fuel).
Proof.
  eapply tame_bind; [apply tame_ask|]. intros [infos|msg] _; [|by apply tame_ret].
  eapply (tame_bind anything).
  - generalize (∅ : gmap string instanceState). induction infos as [|info infos IH]; intros m; [by apply tame_ret|].
    simpl. destruct (bool_decide _); [apply IH|]. eapply (tame_bind anything); [|intros procs _; apply IH].
    destruct (bool_decide _); [|by apply tame_ret]. eapply tame_bind; [|intros r _; by apply tame_ret].
    apply shell_then. intros inv. by destruct (negb _).
  - intros m _. eapply tame_bind; [by apply tame_modify|]. intros _ _. by apply tame_ret.
Qed.
End Waits.

(** C31: every operation returns: with a clock that a timer moves on by its
    duration and random delays in their range, once the bound on the rounds of a
    loop covers the timeouts, no operation is cut short by that bound; its result
    is one the code gives.  (151 rounds are enough for the default timeouts.) *)
Theorem operations_return (env : Env) (config : Config) (fuel : nat) :
  GoodClock env -> enough config fuel ->
  forall d,
    (forall req, (CreateSandbox env config fuel req d).1 <> Err OutOfFuel) /\
    (forall id, (DestroySandbox env id d).1 <> Err OutOfFuel /\ (PauseSandbox env id d).1 <> Err OutOfFuel /\
                (ResumeSandbox env config fuel id d).1 <> Err OutOfFuel) /\
    (forall req, (LaunchProcess env config fuel req d).1 <> Err OutOfFuel) /\
    (forall req, (KillProcess env fuel req d).1 <> Err OutOfFuel) /\
    (forall req, (GetProcessStatus env fuel req d).1 <> Err OutOfFuel) /\
    (Recover env fuel d).1 <> Err OutOfFuel.
Proof.
  intros Hclock Hfuel d. split_and!; intros; [|split_and!|..].
  - by apply create_tame.
  - by apply destroy_tame.
  - by apply pause_tame.
  - by apply resume_tame.
  - by apply launchProcess_tame.
  - by apply (kill_tame env config fuel Hfuel).
  - by apply (getStatus_tame env config fuel Hfuel).
  - by apply (recover_tame env config fuel Hfuel).
Qed.
