(* ===== verification/DirectSteps.v ===== *)
(** * DirectSteps: no instance is lost

    CreateSandbox, DestroySandbox, PauseSandbox, ResumeSandbox, LaunchProcess,
    KillProcess and Close may run at the same time, each a sequence of critical
    sections and calls.  [step] interleaves them; Close waits for the creations
    in flight as it does through its WaitGroup. *)

From Stdlib Require Import Ascii.
From S2P Require Import Prelude GoStrings GoText GoFloat FleetTypes Direct DirectProps.

Local Open Scope string_scope.
Local Open Scope list_scope.
Local Open Scope stdpp_scope.
Local Open Scope go_scope.

(** A creation before and after its launch. *)
Inductive creation : Type := Begun (req : CreateSandboxRequest) | Launched (instanceID : string).
(** A destruction that has looked its sandbox up, and one whose instance is gone. *)
Inductive destruction : Type := Asked (sandboxID instanceID : string) | Terminated (sandboxID : string).
(** A Close that waits, and one that terminates the instances left. *)
Inductive closing : Type := Waiting | Terminating (ids : list string).

Record Sys : Type := mkSys {
  y_direct : Direct;
  y_creates : list creation;
  y_destroys : list destruction;
  y_closes : list closing;
}.

(** The calls of the operations other than launches and terminations. *)
Definition neutral (c : call) : bool := match c with CLaunch _ _ | CTerminate _ _ => false | _ => true end.

Section Steps.
Context (env : Env) (config : Config) (order : list (string * instanceState) -> list (string * instanceState)).

Inductive step : Sys -> Sys -> Prop :=
  (** CreateSandbox: the first check; the launch; the end, whatever the waits
      in between gave. *)
  | s_begin d cs ds ks req d' :
      createBegin d = (Ok (), d') -> step (mkSys d cs ds ks) (mkSys d' (Begun req :: cs) ds ks)
  | s_launch d cs1 req cs2 ds ks id d' :
      createLaunch env config req d = (Ok id, d') ->
      step (mkSys d (cs1 ++ Begun req :: cs2) ds ks) (mkSys d' (cs1 ++ Launched id :: cs2) ds ks)
  | s_launch_failed d cs1 req cs2 ds ks e d' :
      createLaunch env config req d = (Err e, d') ->
      step (mkSys d (cs1 ++ Begun req :: cs2) ds ks) (mkSys d' (cs1 ++ cs2) ds ks)
  | s_finish d cs1 id cs2 ds ks waited :
      step (mkSys d (cs1 ++ Launched id :: cs2) ds ks) (mkSys (createFinish env config id waited d).2 (cs1 ++ cs2) ds ks)
  (** DestroySandbox: the look at the table; the termination; the removal. *)
  | s_lookup d cs ds ks sandboxID id d' :
      lookupTarget sandboxID d = (Ok id, d') -> step (mkSys d cs ds ks) (mkSys d' cs (Asked sandboxID id :: ds) ks)
  | s_terminate d cs ds1 sandboxID id ds2 ks d' :
      TerminateInstance env id d = (None, d') ->
      step (mkSys d cs (ds1 ++ Asked sandboxID id :: ds2) ks) (mkSys d' cs (ds1 ++ Terminated sandboxID :: ds2) ks)
  | s_terminate_failed d cs ds1 sandboxID id ds2 ks msg d' :
      TerminateInstance env id d = (Some msg, d') ->
      step (mkSys d cs (ds1 ++ Asked sandboxID id :: ds2) ks) (mkSys d' cs (ds1 ++ ds2) ks)
  | s_forget d cs ds1 sandboxID ds2 ks :
      step (mkSys d cs (ds1 ++ Terminated sandboxID :: ds2) ks) (mkSys (forget sandboxID d) cs (ds1 ++ ds2) ks)
  (** A call of a wait or of a process operation; the writes to an entry. *)
  | s_call d cs ds ks c :
      neutral c -> step (mkSys d cs ds ks) (mkSys (record c d) cs ds ks)
  | s_update d cs ds ks sandboxID f :
      (forall st, is_instanceID (f st) = is_instanceID st) ->
      step (mkSys d cs ds ks) (mkSys (update sandboxID f d).2 cs ds ks)
  (** Close: the flag; the snapshot, once no creation is in flight; a
      termination, failed or not; the end. *)
  | s_close d cs ds ks :
      step (mkSys d cs ds ks) (mkSys (set_closing d) cs ds (Waiting :: ks))
  | s_snapshot d ds ks1 ks2 :
      step (mkSys d [] ds (ks1 ++ Waiting :: ks2))
           (mkSys d [] ds (ks1 ++ Terminating (if c_TerminateOnClose config then snapshotInstanceIDs order d else []) :: ks2))
  | s_close_terminate d cs ds ks1 id ids ks2 :
      step (mkSys d cs ds (ks1 ++ Terminating (id :: ids) :: ks2))
           (mkSys (TerminateInstance env id d).2 cs ds (ks1 ++ Terminating ids :: ks2))
  | s_close_end d cs ds ks1 ks2 :
      step (mkSys d cs ds (ks1 ++ Terminating [] :: ks2)) (mkSys (set_instances None d) cs ds (ks1 ++ ks2)).

(** ** What may happen to an instance *)

Definition launchedID (id : string) (d : Direct) : Prop :=
  id <> "" /\ exists cfg info, CLaunch cfg (Ok (Some info)) ∈ d_history d /\ if_InstanceID info = id.
Definition tracked (id : string) (d : Direct) : Prop :=
  exists st, instancesOf d !! encodeSandboxID id = Some st /\ is_instanceID st = id.
Definition asked (id : string) (d : Direct) : Prop := exists r, CTerminate id r ∈ d_history d.

(** Without instances tagged with another sandbox id, which this code never
    makes, a sandbox id is the one of its instance. *)
Definition keyed (d : Direct) : Prop :=
  forall sandboxID st, instancesOf d !! sandboxID = Some st -> sandboxID = encodeSandboxID (is_instanceID st) /\ is_instanceID st <> "".

Definition accounted (y : Sys) (id : string) : Prop :=
  tracked id (y_direct y) \/ Launched id ∈ y_creates y \/ asked id (y_direct y) \/
  (d_instances (y_direct y) = None /\ c_TerminateOnClose config = false).

Definition destruction_ok (d : Direct) (x : destruction) : Prop :=
  match x with
  | Asked sandboxID id => sandboxID = encodeSandboxID id
  | Terminated sandboxID => exists id, sandboxID = encodeSandboxID id /\ asked id d
  end.
Definition terminating_ok (d : Direct) (cs : list creation) (ids : list string) : Prop :=
  cs = [] /\ (c_TerminateOnClose config = true -> forall id, tracked id d -> asked id d \/ id ∈ ids).

Record inv (y : Sys) : Prop := mkInv {
  inv_keyed : keyed (y_direct y);
  inv_creates : forall id, Launched id ∈ y_creates y -> id <> "";
  inv_accounted : forall id, launchedID id (y_direct y) -> accounted y id;
  inv_destroys : Forall (destruction_ok (y_direct y)) (y_destroys y);
  inv_closing : y_closes y <> [] -> d_closing (y_direct y) = true;
  inv_terminating : forall ids, Terminating ids ∈ y_closes y -> terminating_ok (y_direct y) (y_creates y) ids;
  inv_closed : d_instances (y_direct y) = None -> d_closing (y_direct y) = true /\ y_creates y = [];
}.

(** ** Each step keeps the invariant *)

Lemma encode_inj id id' : encodeSandboxID id = encodeSandboxID id' -> id = id'.
Proof. intros E. by injection E. Qed.

(** [d'] comes from [d] by calls that launch nothing. *)
Record calls_from (d d' : Direct) : Prop := mkCalls {
  cf_instances : d_instances d' = d_instances d;
  cf_closing : d_closing d' = d_closing d;
  cf_history : exists cs, d_history d' = d_history d ++ cs /\ Forall (fun c => match c with CLaunch _ (Ok (Some i)) => if_InstanceID i = "" | _ => True end) cs;
}.

Lemma calls_refl d : calls_from d d.
Proof. split; [done..|]. exists []. by rewrite app_nil_r. Qed.
Lemma calls_record c d : match c with CLaunch _ (Ok (Some i)) => if_InstanceID i = "" | _ => True end -> calls_from d (record c d).
Proof. intros Hc. split; [done..|]. exists [c]. split; [done|]. by apply Forall_singleton. Qed.

Lemma calls_launched d d' id : calls_from d d' -> launchedID id d' -> launchedID id d.
Proof.
  intros [_ _ (cs & E & Hcs)] (Hid & cfg & info & Hin & Hinfo). split; [done|]. exists cfg, info. split; [|done].
  rewrite E, elem_of_app in Hin. destruct Hin as [Hin|Hin]; [done|].
  rewrite Forall_forall in Hcs. apply Hcs in Hin. simpl in Hin. congruence.
Qed.
Lemma calls_asked d d' id : calls_from d d' -> asked id d -> asked id d'.
Proof. intros [_ _ (cs & E & _)] [r Hr]. exists r. rewrite E. apply elem_of_app. by left. Qed.
Lemma calls_tracked d d' id : calls_from d d' -> tracked id d <-> tracked id d'.
Proof. intros [E _ _]. unfold tracked, instancesOf. by rewrite E. Qed.
Lemma calls_keyed d d' : calls_from d d' -> keyed d -> keyed d'.
Proof. intros [E _ _]. unfold keyed, instancesOf. by rewrite E. Qed.

(** A step that makes such calls and keeps or drops work in hand. *)
Lemma inv_calls d d' cs cs' ds ds' ks ks' :
  calls_from d d' -> inv (mkSys d cs ds ks) ->
  (forall id, Launched id ∈ cs' -> Launched id ∈ cs) ->
  (forall id, Launched id ∈ cs -> Launched id ∈ cs' \/ asked id d') ->
  Forall (destruction_ok d') ds' ->
  (ks' <> [] -> ks <> []) ->
  (forall ids, Terminating ids ∈ ks' -> terminating_ok d' cs' ids) ->
  (cs = [] -> cs' = []) ->
  inv (mkSys d' cs' ds' ks').
Proof.
  intros Hd [H1 Hc H2 H3 H4 H5 H6] Hsub Hkeep Hds Hks Hterm Hnil. simpl in *.
  assert (Hasked : forall id, asked id d -> asked id d') by (intros id; by apply calls_asked).
  split; simpl.
  - by eapply calls_keyed.
  - eauto.
  - intros id Hid. pose proof (calls_launched _ _ _ Hd Hid) as Hid'. apply H2 in Hid'.
    unfold accounted in *. simpl in *. rewrite <- (calls_tracked _ _ _ Hd), (cf_instances _ _ Hd).
    destruct Hid' as [?|[HL|[?|?]]]; [by left| |by right; right; left; auto|by right; right; right].
    destruct (Hkeep _ HL); [by right; left|by right; right; left].
  - done.
  - intros Hne. rewrite (cf_closing _ _ Hd). auto.
  - done.
  - rewrite (cf_instances _ _ Hd), (cf_closing _ _ Hd). intros Hn. destruct (H6 Hn). auto.
Qed.

Lemma destroys_mono d d' (ds : list destruction) :
  (forall id, asked id d -> asked id d') ->
  Forall (destruction_ok d) ds ->
  Forall (destruction_ok d') ds.
Proof. intros H Hds. eapply Forall_impl; [exact Hds|]. intros [sb id|sb]; [done|]. intros (id & E & Ha). exists id. auto. Qed.

Lemma terminating_mono d d' cs (ks : list closing) :
  calls_from d d' ->
  (forall ids, Terminating ids ∈ ks -> terminating_ok d cs ids) ->
  forall ids, Terminating ids ∈ ks -> terminating_ok d' cs ids.
Proof.
  intros Hd H ids Hin. destruct (H ids Hin) as [E Ht]. split; [done|]. intros Hon id Hid.
  rewrite <- (calls_tracked _ _ _ Hd) in Hid. destruct (Ht Hon id Hid); [left; by eapply calls_asked|by right].
Qed.

Lemma calls_terminate id d r d' : TerminateInstance env id d = (r, d') -> calls_from d d' /\ asked id d'.
Proof.
  intros [= <- <-]. split; [by apply (calls_record (CTerminate _ _))|]. eexists. simpl. apply elem_of_app. right. by left.
Qed.

Lemma createLaunch_calls req d r d' :
  createLaunch env config req d = (r, d') ->
  match r with
  | Err _ => calls_from d d'
  | Ok id => id <> "" /\ d_instances d' = d_instances d /\ d_closing d' = d_closing d /\
      exists cfg info, d_history d' = d_history d ++ [CLaunch cfg (Ok (Some info))] /\ if_InstanceID info = id
  end.
Proof.
  unfold createLaunch, rbind. rewrite M_bind_eq. simpl. destruct (launchConfig env config req) as [cfg|e]; [|intros [= <- <-]; apply calls_refl].
  rewrite M_bind_eq. simpl. destruct (env_Launch env (d_history d) cfg) as [[info|]|msg] eqn:E; [|intros [= <- <-]; by apply calls_record..].
  destruct (bool_decide (if_InstanceID info = "")) eqn:Hi; intros [= <- <-].
  - apply bool_decide_eq_true in Hi. by apply calls_record.
  - apply bool_decide_eq_false in Hi. split_and!; try done. by exists cfg, info.
Qed.

Lemma inv_launch d cs1 req cs2 ds ks id d' :
  createLaunch env config req d = (Ok id, d') ->
  inv (mkSys d (cs1 ++ Begun req :: cs2) ds ks) -> inv (mkSys d' (cs1 ++ Launched id :: cs2) ds ks).
Proof.
  intros (Hid & Ei & Ec & cfg & info & Eh & Einfo)%createLaunch_calls [H1 Hc H2 H3 H4 H5 H6]. simpl in *.
  assert (Hasked : forall x, asked x d -> asked x d').
  { intros x [r Hr]. exists r. rewrite Eh. apply elem_of_app. by left. }
  assert (Hin : forall x, Launched x ∈ cs1 ++ Launched id :: cs2 <-> x = id \/ Launched x ∈ cs1 ++ Begun req :: cs2).
  { intros x. rewrite !elem_of_app, !elem_of_cons. naive_solver. }
  split; simpl.
  - unfold keyed, instancesOf. by rewrite Ei.
  - intros x [->|Hx]%Hin; [done|eauto].
  - intros x (Hx & cfg' & info' & Hl & <-). unfold accounted, tracked, instancesOf. simpl. rewrite Ei, Hin.
    rewrite Eh, elem_of_app, list_elem_of_singleton in Hl. destruct Hl as [Hl|[= -> ->]]; [|by right; left; left].
    destruct (H2 (if_InstanceID info')) as [?|[?|[?|?]]]; [by split; [|exists cfg', info']|by left|by right; left; right|by right; right; left; auto|by right; right; right].
  - by eapply destroys_mono.
  - rewrite Ec. done.
  - intros ids Hin'. destruct (H5 ids Hin') as [E _]. by destruct cs1.
  - rewrite Ei, Ec. intros Hn. destruct (H6 Hn) as [_ E]. by destruct cs1.
Qed.

(** The publication of an instance that was launched. *)
Lemma inv_publish d cs1 id cs2 ds ks status :
  d_closing d = false ->
  inv (mkSys d (cs1 ++ Launched id :: cs2) ds ks) -> inv (mkSys (publish id status d) (cs1 ++ cs2) ds ks).
Proof.
  intros Hopen [H1 Hc H2 H3 H4 H5 H6]. simpl in *.
  assert (Hne : id <> "") by (apply Hc, elem_of_app; right; by left).
  destruct (d_instances d) as [m|] eqn:Em; [|by destruct (H6 eq_refl); congruence].
  assert (Em' : instancesOf (publish id status d) =
    <[encodeSandboxID id := mkInstanceState id (st_PublicIP status) (st_PrivateIP status) statusRunning ∅]> m).
  { unfold publish, modInstances, instancesOf. simpl. by rewrite Em. }
  assert (Ed : instancesOf d = m) by by unfold instancesOf; rewrite Em.
  assert (Hin : forall x, Launched x ∈ cs1 ++ Launched id :: cs2 <-> x = id \/ Launched x ∈ cs1 ++ cs2).
  { intros x. rewrite !elem_of_app, !elem_of_cons. naive_solver. }
  assert (Hks : ks = []) by (destruct ks; [done|]; rewrite H4 in Hopen; done).
  split; simpl.
  - intros sb st. rewrite Em'. destruct (decide (sb = encodeSandboxID id)) as [->|Hsb].
    + rewrite lookup_insert_eq. by intros [= <-].
    + rewrite lookup_insert_ne by done. intros Hst. apply H1. by rewrite Ed.
  - intros x Hx. apply Hc, Hin. by right.
  - intros x Hx. unfold accounted, tracked. simpl. rewrite Em'. destruct (decide (x = id)) as [->|Hxid].
    { left. eexists. by rewrite lookup_insert_eq. }
    rewrite lookup_insert_ne by by intros ?%encode_inj.
    destruct (H2 x Hx) as [?|[[?|?]%Hin|[?|[? _]]]]; simpl in *; [left; by rewrite <- Ed|done|by right; left|by right; right; left|congruence].
  - exact H3.
  - rewrite Hks. done.
  - rewrite Hks. intros ids Hin'. by apply elem_of_nil in Hin'.
  - by rewrite Em.
Qed.

(** A step that changes the entries of the table but not their instances. *)
Lemma inv_table d d' cs ds ds' ks :
  d_history d' = d_history d -> d_closing d' = d_closing d -> (d_instances d' = None -> d_instances d = None) ->
  (d_instances d = None -> d_instances d' = None) ->
  keyed d' -> (forall id, tracked id d' -> tracked id d) -> (forall id, tracked id d -> tracked id d' \/ asked id d) ->
  (forall x, x ∈ ds' -> x ∈ ds) ->
  inv (mkSys d cs ds ks) -> inv (mkSys d' cs ds' ks).
Proof.
  intros Eh Ec Hn1 Hn2 Hk Ht1 Ht2 Hds [H1 Hc H2 H3 H4 H5 H6]. simpl in *.
  assert (Ha : forall id, asked id d' <-> asked id d) by (intros id; unfold asked; by rewrite Eh).
  split; simpl; [done|done| | | |..].
  - intros id Hid. assert (Hid' : launchedID id d) by (by unfold launchedID in *; rewrite <- Eh).
    unfold accounted. simpl. rewrite Ha. destruct (H2 id Hid') as [Ht|[?|[?|[? ?]]]]; simpl in *;
      [destruct (Ht2 id Ht); [by left|by right; right; left]|by right; left|by right; right; left|right; right; right; auto].
  - apply Forall_forall. intros x Hx%Hds. rewrite Forall_forall in H3. apply H3 in Hx. destruct x as [sb id|sb]; [done|].
    destruct Hx as (id & E & Hx). exists id. by rewrite Ha.
  - by rewrite Ec.
  - intros ids Hin. destruct (H5 ids Hin) as [E Ht]. split; [done|]. intros Hon id Hid%Ht1. rewrite Ha. auto.
  - rewrite Ec. intros Hn. auto.
Qed.

Lemma modInstances_of f d : instancesOf (modInstances f d) = match d_instances d with Some m => f m | None => ∅ end.
Proof. unfold modInstances, instancesOf. simpl. by destruct (d_instances d). Qed.

Lemma inv_forget d cs ds1 sb ds2 ks :
  inv (mkSys d cs (ds1 ++ Terminated sb :: ds2) ks) -> inv (mkSys (forget sb d) cs (ds1 ++ ds2) ks).
Proof.
  intros H. pose proof (inv_destroys _ H) as Hds. pose proof (inv_keyed _ H) as Hk. simpl in *.
  apply Forall_app in Hds as [_ [(id0 & -> & Ha) _]%Forall_cons].
  assert (Hsub : forall k st, instancesOf (forget (encodeSandboxID id0) d) !! k = Some st -> instancesOf d !! k = Some st /\ k <> encodeSandboxID id0).
  { intros k st. unfold forget. rewrite modInstances_of. unfold instancesOf. destruct (d_instances d) as [m|]; [|done].
    rewrite lookup_delete_Some. naive_solver. }
  eapply (inv_table d); [..|exact H]; simpl.
  - done.
  - done.
  - by destruct (d_instances d).
  - by destruct (d_instances d).
  - intros k st [Hst _]%Hsub. by apply Hk.
  - intros id (st & [Hst _]%Hsub & E). by exists st.
  - intros id (st & Hst & E). destruct (decide (id = id0)) as [->|Hne]; [by right|]. left. exists st. split; [|done].
    unfold forget. rewrite modInstances_of. unfold instancesOf in Hst. destruct (d_instances d) as [m|]; [|done].
    rewrite lookup_delete_ne; [done|]. by intros ?%encode_inj.
  - intros x. rewrite !elem_of_app, elem_of_cons. naive_solver.
Qed.

Lemma inv_update d cs ds ks sb f :
  (forall st, is_instanceID (f st) = is_instanceID st) ->
  inv (mkSys d cs ds ks) -> inv (mkSys (update sb f d).2 cs ds ks).
Proof.
  intros Hf H. unfold update. rewrite M_bind_eq. simpl. destruct (instancesOf d !! sb) as [st0|] eqn:Hst0; [|done].
  rewrite M_bind_eq. simpl. pose proof (inv_keyed _ H) as Hk. simpl in Hk.
  destruct (d_instances d) as [m|] eqn:Em; [|unfold instancesOf in Hst0; by rewrite Em in Hst0].
  assert (E : instancesOf (modInstances <[sb:=f st0]> d) = <[sb:=f st0]> (instancesOf d)).
  { rewrite modInstances_of. unfold instancesOf. by rewrite Em. }
  eapply (inv_table d); [..|exact H]; simpl; rewrite ?Em; try done.
  - intros k st. rewrite E, lookup_insert_Some. intros [[<- <-]|[_ Hst]]; [rewrite Hf|]; by apply Hk.
  - intros id (st & Hst & Hid). rewrite E, lookup_insert_Some in Hst. destruct Hst as [[Hsb <-]|[_ Hst]]; [|by exists st].
    exists st0. by rewrite <- Hsb, <- Hf.
  - intros id (st & Hst & Hid). left. unfold tracked. rewrite E. destruct (decide (sb = encodeSandboxID id)) as [->|Hne].
    + exists (f st0). rewrite lookup_insert_eq. split; [done|]. rewrite Hf. congruence.
    + exists st. by rewrite lookup_insert_ne.
Qed.

Lemma snapshot_tracked (Horder : forall l, order l ≡ₚ l) id d : keyed d -> tracked id d -> id ∈ snapshotInstanceIDs order d.
Proof.
  intros Hk (st & Hst & <-). apply list_elem_of_filter. split; [by eapply Hk|].
  apply list_elem_of_fmap. exists (encodeSandboxID (is_instanceID st), st). split; [done|].
  rewrite Horder. by apply elem_of_map_to_list.
Qed.

Lemma inv_close_end d cs ds ks1 ks2 :
  inv (mkSys d cs ds (ks1 ++ Terminating [] :: ks2)) -> inv (mkSys (set_instances None d) cs ds (ks1 ++ ks2)).
Proof.
  intros [H1 Hc H2 H3 H4 H5 H6]. simpl in *.
  destruct (H5 []) as [-> Ht]; [by apply elem_of_app; right; left|].
  assert (Hclosing : d_closing d = true) by (apply H4; by destruct ks1).
  split; simpl; try done.
  - intros id Hid. unfold accounted. simpl. destruct (H2 id Hid) as [Htr|[?|[?|[? ?]]]]; simpl in *;
      [|by right; left|by right; right; left|by right; right; right].
    destruct (c_TerminateOnClose config) eqn:Hon; [|by right; right; right].
    destruct (Ht eq_refl id Htr) as [?|Hin]; [by right; right; left|by apply elem_of_nil in Hin].
  - intros ids Hin. split; [done|]. intros _ id (st & Hst & _). done.
Qed.

Lemma inv_finish d cs1 id cs2 ds ks waited :
  inv (mkSys d (cs1 ++ Launched id :: cs2) ds ks) ->
  inv (mkSys (createFinish env config id waited d).2 (cs1 ++ cs2) ds ks).
Proof.
  intros H. unfold createFinish.
  assert (Hdrop : forall (e : derror), inv (mkSys ((terminateOrphanInstance env id;; mret (Err e)) d : res derror CreateSandboxResponse * Direct).2 (cs1 ++ cs2) ds ks)).
  { intros e. unfold terminateOrphanInstance. rewrite !M_bind_eq. simpl.
    destruct (calls_terminate id d _ _ (surjective_pairing _)) as [Hd Ha].
    eapply inv_calls; [exact Hd|exact H|..].
    - intros x. rewrite !elem_of_app, elem_of_cons. naive_solver.
    - intros x. rewrite !elem_of_app, elem_of_cons. intros [?|[[= ->]|?]]; [by left; left|by right|by left; right].
    - eapply destroys_mono; [intros x; by apply calls_asked|apply (inv_destroys _ H)].
    - done.
    - intros ids Hin. destruct (inv_terminating _ H ids Hin) as [E _]. by destruct cs1.
    - by destruct cs1. }
  destruct waited as [status|e]; [|apply Hdrop]. rewrite M_bind_eq. simpl. destruct (d_closing d) eqn:Hcl; [apply Hdrop|].
  rewrite M_bind_eq. simpl. by apply inv_publish.
Qed.

(** A termination of a destruction that goes on as [after], or ends. *)
Lemma inv_terminated d cs ds1 sb id ds2 ks r d' rest :
  TerminateInstance env id d = (r, d') ->
  rest = (match r with None => ds1 ++ Terminated sb :: ds2 | Some _ => ds1 ++ ds2 end) ->
  inv (mkSys d cs (ds1 ++ Asked sb id :: ds2) ks) -> inv (mkSys d' cs rest ks).
Proof.
  intros [Hd Ha]%calls_terminate -> H. pose proof (inv_destroys _ H) as Hds. simpl in Hds.
  eapply (destroys_mono _ d') in Hds; [|intros x; by apply calls_asked].
  apply Forall_app in Hds as [Hds1 [Hsb Hds2]%Forall_cons]. simpl in Hsb.
  eapply inv_calls; [exact Hd|exact H|done|by left| |done| |done].
  - destruct r; [by apply Forall_app|]. apply Forall_app. split; [done|]. constructor; [|done]. by exists id.
  - eapply terminating_mono; [exact Hd|]. apply (inv_terminating _ H).
Qed.

Lemma elem_of_replace (ks1 ks2 : list closing) k k' ids :
  Terminating ids ∈ ks1 ++ k' :: ks2 -> k' = Terminating ids \/ Terminating ids ∈ ks1 ++ k :: ks2.
Proof. rewrite !elem_of_app, !elem_of_cons. naive_solver. Qed.

Lemma inv_begin d cs ds ks req d' :
  createBegin d = (Ok (), d') -> inv (mkSys d cs ds ks) -> inv (mkSys d' (Begun req :: cs) ds ks).
Proof.
  intros E H.
  unfold createBegin in E. rewrite M_bind_eq in E. simpl in E. destruct (d_closing d) eqn:Hcl; [done|]. injection E as [= <-].
  destruct H as [H1 Hc H2 H3 H4 H5 H6]. simpl in *.
  assert (Hks : ks = []) by (destruct ks; [done|]; rewrite H4 in Hcl; done). subst ks.
  assert (Hin : forall id, Launched id ∈ Begun req :: cs <-> Launched id ∈ cs) by (intros id; rewrite elem_of_cons; naive_solver).
  split; simpl; try done.
  - intros id Hid%Hin. eauto.
  - intros id Hid. unfold accounted. simpl. rewrite Hin. by apply H2.
  - intros ids Hid. by apply elem_of_nil in Hid.
  - intros Hn. destruct (H6 Hn). congruence.
Qed.

Lemma inv_lookup d cs ds ks sb id d' :
  lookupTarget sb d = (Ok id, d') -> inv (mkSys d cs ds ks) -> inv (mkSys d' cs (Asked sb id :: ds) ks).
Proof.
  intros E H. pose proof (inv_destroys _ H) as Hds. pose proof (inv_terminating _ H) as Ht. simpl in Hds, Ht.
  unfold lookupTarget, rbind in E. rewrite M_bind_eq in E. simpl in E. destruct (parseSandboxID sb) as [p|]; [|done].
  rewrite M_bind_eq in E. simpl in E. destruct (instancesOf d !! sb) as [st|] eqn:Hst; [|done]. injection E as [= <- <-].
  destruct (inv_keyed _ H _ _ Hst) as [-> Hne].
  eapply inv_calls; [apply calls_refl|exact H|done|by left| |done|done|done].
  constructor; [|done]. simpl. unfold targetID. by rewrite bool_decide_eq_true_2.
Qed.

Lemma inv_close_terminate d cs ds ks1 id ids ks2 :
  inv (mkSys d cs ds (ks1 ++ Terminating (id :: ids) :: ks2)) ->
  inv (mkSys (TerminateInstance env id d).2 cs ds (ks1 ++ Terminating ids :: ks2)).
Proof.
  intros H. pose proof (inv_destroys _ H) as Hds. pose proof (inv_terminating _ H) as Ht. simpl in Hds, Ht.
  destruct (calls_terminate id d _ _ (surjective_pairing _)) as [Hd Ha].
  eapply inv_calls; [exact Hd|exact H|done|by left| |by destruct ks1| |done].
  - eapply destroys_mono; [|exact Hds]. intros x. by apply calls_asked.
  - intros ids' Hin. apply (elem_of_replace _ _ (Terminating (id :: ids))) in Hin as [[= <-]|Hin]; [|by eapply terminating_mono].
    destruct (Ht (id :: ids)) as [-> Hids]; [by apply elem_of_app; right; left|]. split; [done|].
    intros Hon x Hx. rewrite <- (calls_tracked _ _ _ Hd) in Hx.
    destruct (Hids Hon x Hx) as [?|[->|?]%elem_of_cons]; [left; by eapply calls_asked|by left|by right].
Qed.

Lemma inv_step (Horder : forall l, order l ≡ₚ l) y y' : step y y' -> inv y -> inv y'.
Proof.
  intros Hstep H. pose proof (inv_destroys _ H) as Hds. pose proof (inv_terminating _ H) as Ht.
  destruct Hstep as [d cs ds ks req d' E|d cs1 req cs2 ds ks id d' E|d cs1 req cs2 ds ks e d' E|d cs1 id cs2 ds ks waited
    |d cs ds ks sb id d' E|d cs ds1 sb id ds2 ks d' E|d cs ds1 sb id ds2 ks msg d' E|d cs ds1 sb ds2 ks|d cs ds ks c Hc
    |d cs ds ks sb f Hf|d cs ds ks|d ds ks1 ks2|d cs ds ks1 id ids ks2|d cs ds ks1 ks2]; simpl in *.
  - by eapply inv_begin.
  - by eapply inv_launch.
  - eapply inv_calls; [apply (createLaunch_calls _ _ _ _ E)|exact H|..].
    + intros id. rewrite !elem_of_app, elem_of_cons. naive_solver.
    + intros id. rewrite !elem_of_app, elem_of_cons. naive_solver.
    + eapply destroys_mono; [|exact Hds]. intros id. eapply calls_asked, (createLaunch_calls _ _ _ _ E).
    + done.
    + intros ids Hin. destruct (Ht ids Hin) as [En _]. by destruct cs1.
    + by destruct cs1.
  - by apply inv_finish.
  - by eapply inv_lookup.
  - by eapply inv_terminated; [exact E| |exact H].
  - by eapply inv_terminated; [exact E| |exact H].
  - by apply inv_forget.
  - assert (Hd : calls_from d (record c d)) by (apply calls_record; by destruct c).
    eapply inv_calls; [exact Hd|exact H|done|by left| |done| |done].
    + eapply destroys_mono; [|exact Hds]. intros id. by apply calls_asked.
    + by eapply terminating_mono.
  - by apply inv_update.
  - destruct H as [H1 Hc H2 H3 H4 H5 H6]. split; try done; simpl in *.
    + intros ids Hin%elem_of_cons. destruct Hin as [?|Hin]; [done|]. by apply H5.
    + intros Hn. split; [done|]. by apply H6.
  - eapply inv_calls; [apply calls_refl|exact H|done|by left|done|by destruct ks1| |done].
    intros ids Hin. apply (elem_of_replace _ _ Waiting) in Hin as [[= <-]|Hin]; [|by apply Ht].
    split; [done|]. intros Hon id Hid. rewrite Hon. right. apply (snapshot_tracked Horder); [apply (inv_keyed _ H)|done].
  - by apply inv_close_terminate.
  - by apply inv_close_end.
Qed.

(** ** An operation that runs alone is a sequence of steps *)

Lemma only_createWait fuel id : only (createWait env config fuel id) (fun _ cs => Forall neutral cs).
Proof.
  assert (Hpace : forall c, pacing c -> neutral c) by by intros [].
  assert (Hattempt : forall {A B} (m : DM B) (f : B -> option (res derror A)),
    only m (fun _ cs => Forall neutral cs) ->
    only (e ← pollPreflight env; match e with Err e => mret (Some (Err e)) | Ok () => r ← m; mret (f r) end)
      (fun r cs => Forall neutral cs /\ match r with Some (Ok _) => True | Some (Err _) => True | None => True end)).
  { intros A B m f Hm. apply only_bind. unfold pollPreflight. apply only_bind, only_ask. intros [e|].
    - apply only_ret, only_ret. split; [by repeat constructor|done].
    - apply only_bind, only_gets. intros closing. apply only_ret. simpl. destruct closing.
      + apply only_ret. split; [by repeat constructor|done].
      + apply only_bind. eapply only_mono; [exact Hm|]. intros b cs Hcs. apply only_ret. rewrite app_nil_r.
        split; [by constructor|]. by destruct (f b) as [[]|]. }
  unfold createWait. apply only_bind, only_Now. intros now. cbv zeta. apply only_rbind.
  eapply only_mono; [apply (only_poll env neutral (fun _ _ => True) (fun _ => True)); try done|].
  { apply (Hattempt _ _ (DescribeInstance env id)
      (fun r => match r with Ok (Some status) => if ready config status then Some (Ok status) else None | _ => None end)).
    apply only_ask. intros r. by repeat constructor. }
  intros [status|e] cs [Hcs _]; [|by constructor]. apply only_rbind.
  eapply only_mono; [apply (only_poll env neutral (fun _ _ => True) (fun _ => True)); try done|].
  { apply (Hattempt _ _ (DescribeInstanceInformation env id)
      (fun r => match r with Ok n => if bool_decide (n > 0)%Z then Some (Ok ()) else None | Err _ => None end)).
    apply only_ask. intros r. by repeat constructor. }
  intros [[]|e] cs' [Hcs' _]; [apply only_ret; rewrite app_nil_r|]; constructor; try done; by apply Forall_app.
Qed.

Lemma steps_calls cs0 ds ks calls d : Forall neutral calls -> rtc step (mkSys d cs0 ds ks) (mkSys (extend calls d) cs0 ds ks).
Proof.
  revert d. induction calls as [|c calls IH]; intros d Hcs; [by rewrite extend_nil|].
  apply Forall_cons in Hcs as [Hc Hcs]. eapply rtc_l; [by apply s_call|].
  change (c :: calls) with ([c] ++ calls). rewrite <- extend_app. by apply IH.
Qed.

Lemma create_steps fuel req d : rtc step (mkSys d [] [] []) (mkSys (CreateSandbox env config fuel req d).2 [] [] []).
Proof.
  unfold CreateSandbox. rewrite rbind_eq. destruct (createBegin d) as [[[]|e] d1] eqn:E1.
  2: { unfold createBegin in E1. rewrite M_bind_eq in E1. injection E1 as [= _ <-]. done. }
  eapply rtc_l; [by apply (s_begin _ _ _ _ req)|]. rewrite rbind_eq.
  destruct (createLaunch env config req d1) as [[id|e] d2] eqn:E2; [|by eapply rtc_once, (s_launch_failed _ [] req [])].
  eapply rtc_l; [by apply (s_launch _ [] req [])|]. rewrite M_bind_eq.
  destruct (only_run _ _ d2 (only_createWait fuel id)) as (r & cs & -> & Hcs).
  etrans; [by apply steps_calls|]. apply rtc_once. apply (s_finish _ [] id []).
Qed.

Lemma destroy_steps sb d : rtc step (mkSys d [] [] []) (mkSys (DestroySandbox env sb d).2 [] [] []).
Proof.
  unfold DestroySandbox. rewrite rbind_eq. destruct (lookupTarget sb d) as [[id|e] d1] eqn:E1.
  2: { unfold lookupTarget in E1. rewrite rbind_eq in E1. simpl in E1. destruct (parseSandboxID sb); [|by injection E1 as [= _ <-]].
       rewrite M_bind_eq in E1. injection E1 as [= _ <-]. done. }
  eapply rtc_l; [by apply (s_lookup _ _ _ _ sb id)|]. rewrite M_bind_eq.
  destruct (TerminateInstance env id d1) as [[msg|] d2] eqn:E2; [by eapply rtc_once, (s_terminate_failed _ _ [] sb id [])|].
  eapply rtc_l; [by apply (s_terminate _ _ [] sb id [])|]. apply rtc_once. apply (s_forget _ _ [] sb []).
Qed.

Lemma close_steps d : rtc step (mkSys d [] [] []) (mkSys (Close env config order d).2 [] [] []).
Proof.
  unfold Close, closeFinish. rewrite !M_bind_eq. simpl. eapply rtc_l; [apply s_close|].
  eapply rtc_l; [apply (s_snapshot _ _ [] [])|].
  assert (Hall : forall ids d0, rtc step (mkSys d0 [] [] [Terminating ids]) (mkSys (set_instances None (terminateAll env ids d0).2) [] [] [])).
  { induction ids as [|id ids IH]; intros d0; [by apply rtc_once, (s_close_end _ _ _ [] [])|].
    eapply rtc_l; [apply (s_close_terminate _ _ _ [] id ids [])|]. cbn [terminateAll]. rewrite !M_bind_eq. apply IH. }
  destruct (c_TerminateOnClose config); [apply Hall|apply (Hall [])].
Qed.

(** C13: no instance is lost: from a fresh control, whatever runs at the same
    time and in whatever order, every instance that was launched is in the table
    under its sandbox id, or a creation in progress holds it, or its termination
    was asked of the cloud, or the control was closed without TerminateOnClose;
    and once closed, nothing is being created and nothing new is.  The operations
    that create, destroy and close are sequences of these steps. *)
Theorem no_instance_lost y0 y :
  (forall l, order l ≡ₚ l) ->
  keyed (y_direct y0) -> (forall cfg r, CLaunch cfg r ∉ d_history (y_direct y0)) ->
  is_Some (d_instances (y_direct y0)) -> y_creates y0 = [] -> y_destroys y0 = [] -> y_closes y0 = [] ->
  rtc step y0 y ->
  (forall id, launchedID id (y_direct y) -> accounted y id) /\
  (d_instances (y_direct y) = None -> d_closing (y_direct y) = true /\ y_creates y = []) /\
  (forall fuel d req sb,
     rtc step (mkSys d [] [] []) (mkSys (CreateSandbox env config fuel req d).2 [] [] []) /\
     rtc step (mkSys d [] [] []) (mkSys (DestroySandbox env sb d).2 [] [] []) /\
     rtc step (mkSys d [] [] []) (mkSys (Close env config order d).2 [] [] [])).
Proof.
  intros Horder Hk Hno Hopen Hc Hd Hks Hr. assert (H : inv y).
  { eapply (rtc_invariant step inv y0); [|intros a b Ha Hab; by eapply inv_step|done]. destruct y0 as [d cs ds ks]. simpl in *. subst.
    split; simpl; try done.
    - intros id Hin. by apply elem_of_nil in Hin.
    - intros id (_ & cfg & info & Hin & _). by apply Hno in Hin.
    - intros ids Hin. by apply elem_of_nil in Hin.
    - intros Hn. rewrite Hn in Hopen. by destruct Hopen. }
  split_and!; [apply (inv_accounted _ H)|apply (inv_closed _ H)|].
  intros. split_and!; [apply create_steps|apply destroy_steps|apply close_steps].
Qed.
End Steps.
