(* ===== verification/DirectDemo.v ===== *)
(** * DirectDemo: a cloud that runs, and sandboxes on it

    A concrete environment, the operations evaluated on it, and the theorems of
    DirectProps, DirectWaits and DirectSteps applied to it. *)

From Stdlib Require Import Ascii SpecFloat.
From S2P Require Import Prelude GoStrings GoText GoFloat FleetTypes Direct DirectProps DirectWaits DirectSteps.

Local Open Scope Z_scope.
Local Open Scope string_scope.
Local Open Scope list_scope.
Local Open Scope stdpp_scope.
Local Open Scope go_scope.

Module Cloud.
(** Time is the sum of the sleeps. *)
Definition elapsed (c : call) : Z := match c with CSleep t None => Z.max 0 t | _ => 0 end.
Definition now (h : list call) : Z := foldr (fun c t => elapsed c + t) 0 h.
Definition describes (h : list call) : nat := foldr (fun c n => match c with CDescribe _ _ => S n | _ => n end) 0%nat h.

(** What the instance prints: process 42 started at tick 1000. *)
Definition output (command : string) : string :=
  if HasPrefix command "cat " then "42" +:+ nl +:+ "1000" +:+ nl
  else if HasPrefix command "curl" then "200"
  else if HasPrefix command "if [ -f /proc/42/stat ]; then awk" then "1000" +:+ nl
  else if HasPrefix command "if [ -f /proc/42/stat ]; then echo" then "running 1000" +:+ nl
  else "".
Fixpoint sent (h : list call) (id : string) : string :=
  match h with CSend _ command _ :: h' => sent h' command | _ :: h' => sent h' id | [] => id end.

Definition env : Env := {|
  env_Launch h cfg := Ok (Some (mkInstanceInfo "i-1" "" "" CloudInstancePending 0 ∅));
  env_Terminate h id := None;
  env_Stop h id := None;
  env_Start h id := None;
  env_Describe h id :=
    Ok (Some (mkInstanceStatus id (if (2 <=? describes h)%nat then CloudInstanceRunning else CloudInstancePending) "" "10.0.0.1" "1.2.3.4"));
  env_List h f := Ok [];
  env_Registered h id := Ok 1;
  env_Send h id command := Ok (Some "c-1");
  env_Invocation h id cid := Ok (Some (mkInvocation Success (output (sent h ""))));
  env_Now := now;
  env_Sleep h t := None;
  env_Context h := None;
  env_Int63n h n := 0;
  env_Random h := Some [1; 255];
  env_Render t d := Ok t;
|}.

Definition config : Config := withDefaults (mkConfig "ami-1" "t3.medium" "" [] "" "" 0 "" "" ∅ "" true 0 0).
Definition rounds : nat := 151.
Definition fresh : Direct := mkDirect (Some ∅) false [].

Lemma now_app h h' : now (h ++ h') = now h + now h'.
Proof. unfold now. induction h as [|c h IH]; [done|]. simpl. rewrite IH. lia. Qed.

#[export] Instance env_clock : GoodClock env.
Proof.
  split; simpl; intros.
  - rewrite now_app. unfold now at 3. simpl. destruct c; simpl; try lia. destruct r; lia.
  - rewrite now_app. unfold now at 3. simpl. lia.
  - lia.
Qed.

Lemma rounds_enough : enough config rounds.
Proof. split_and!; [reflexivity|vm_compute; discriminate|vm_compute; discriminate]. Qed.

Definition request : CreateSandboxRequest := mkCreateSandboxRequest {["team" := "a"]} "" (mkResourceSpec (float_of 2) 2048).
Definition created : res derror CreateSandboxResponse * Direct := CreateSandbox env config rounds request fresh.
Definition launch : LaunchProcessRequest := mkLaunchProcessRequest "direct:i-1" "/usr/bin/agent" ["--name"; "it's"] {["HOME" := "/w"]} 8080.
Definition launchedProc : res derror LaunchProcessResponse * Direct := LaunchProcess env config rounds launch created.2.
Definition kill : KillProcessRequest := mkKillProcessRequest "direct:i-1" "proc-01ff" 9.

Example create_ex : created.1 = Ok (mkCreateSandboxResponse "direct:i-1" "1.2.3.4:0" Capabilities) /\ now (d_history created.2) = 4800000000.
Proof. vm_compute. done. Qed.
Example launch_ex : launchedProc.1 = Ok (mkLaunchProcessResponse "proc-01ff" "1.2.3.4:8080" ProcessRunning).
Proof. vm_compute. reflexivity. Qed.
Example kill_ex :
  (KillProcess env rounds kill launchedProc.2).1 = Ok () /\
  (GetProcessStatus env rounds (mkGetProcessStatusRequest "direct:i-1" "proc-01ff") launchedProc.2).1
    = Ok (mkGetProcessStatusResponse ProcessRunning None) /\
  (GetProcessStatus env rounds (mkGetProcessStatusRequest "direct:i-1" "proc-01ff") (KillProcess env rounds kill launchedProc.2).2).1
    = Ok (mkGetProcessStatusResponse ProcessExited None).
Proof. vm_compute. done. Qed.
Example close_ex : (Close env config id created.2).1 = Ok () /\ (CreateSandbox env config rounds request (Close env config id created.2).2).1 = Err ErrDirectClosed.
Proof. vm_compute. done. Qed.

(** An instance of 4 CPUs is asked for and one of 2 is chosen. *)
Example cpus_below_request : selectInstanceType (mkResourceSpec (float_of 4) 8192) "" = Ok "t3.large" /\ fltb (float_of 2) (float_of 4) = true.
Proof. vm_compute. done. Qed.

(** The health check never answers: the launch fails, and the process that it
    started is in no table. *)
Definition sick : Env := {|
  env_Launch := env_Launch env; env_Terminate := env_Terminate env; env_Stop := env_Stop env; env_Start := env_Start env;
  env_Describe := env_Describe env; env_List := env_List env; env_Registered := env_Registered env; env_Send := env_Send env;
  env_Invocation h id cid := Ok (Some (mkInvocation Success (if HasPrefix (sent h "") "curl" then "000" else output (sent h ""))));
  env_Now := now; env_Sleep := env_Sleep env; env_Context := env_Context env; env_Int63n := env_Int63n env;
  env_Random := env_Random env; env_Render := env_Render env;
|}.
Example unhealthy_untracked :
  let r := LaunchProcess sick config rounds launch created.2 in
  r.1 = Err ErrProcessReadyTimeout /\ d_instances r.2 = d_instances created.2 /\
  existsb (fun c => match c with CSend _ command (Ok _) => HasPrefix command "export HOME='/w'" | _ => false end) (d_history r.2) = true /\
  existsb (fun c => match c with CSend _ command (Ok _) => HasPrefix command "kill" | _ => false end) (d_history r.2) = false.
Proof. vm_compute. done. Qed.

(** ** The theorems at these runs *)

Definition theInstance : instanceState := default (mkInstanceState "" "" "" statusStopped ∅) (instancesOf launchedProc.2 !! "direct:i-1").
Definition theProcess : processState := default (mkProcessState "" 0 0 "" [] 0 ProcessExited) (is_processes theInstance !! "proc-01ff").

Lemma kill_verified_witness :
  parseSandboxID (kp_SandboxID kill) = Ok "i-1" /\
  exists c1 c2 c3, d_history (KillProcess env rounds kill launchedProc.2).2 = d_history launchedProc.2 ++ c1 ++ c2 ++ c3 /\ killPhases "i-1" kill theProcess c1 c2 c3.
Proof.
  split; [reflexivity|].
  destruct (kill_verified env rounds kill "i-1" theInstance theProcess launchedProc.2) as (c1 & c2 & c3 & E & H & _);
    [vm_compute; reflexivity..|]. exists c1, c2, c3. by split.
Defined.

Lemma operations_return_witness :
  enough config rounds /\ (CreateSandbox env config rounds request fresh).1 <> Err OutOfFuel.
Proof.
  split; [exact rounds_enough|].
  exact (proj1 (operations_return env config rounds env_clock rounds_enough fresh) request).
Defined.

(** A creation, then a close that terminates what was created. *)
Definition closed : Sys := mkSys (Close env config id created.2).2 [] [] [].

Lemma fresh_keyed : keyed (y_direct (mkSys fresh [] [] [])).
Proof. intros sb st H. done. Qed.

Lemma closed_reached : rtc (step env config id) (mkSys fresh [] [] []) closed.
Proof. etrans; [apply (create_steps env config id rounds request)|apply close_steps]. Qed.

Lemma no_instance_lost_witness :
  rtc (step env config id) (mkSys fresh [] [] []) closed /\
  launchedID "i-1" (y_direct closed) /\ accounted config closed "i-1".
Proof.
  split; [exact closed_reached|].
  assert (H : launchedID "i-1" (y_direct closed)).
  { split; [done|]. eexists _, (mkInstanceInfo "i-1" "" "" CloudInstancePending 0 ∅). split; [|reflexivity]. vm_compute. left. }
  split; [exact H|].
  refine (proj1 (no_instance_lost env config id (mkSys fresh [] [] []) closed _ fresh_keyed _ _ _ _ _ closed_reached) "i-1" H).
  - intros l. reflexivity.
  - intros cfg r Hin. by apply elem_of_nil in Hin.
  - by exists ∅.
  - reflexivity.
  - reflexivity.
  - reflexivity.
Defined.
End Cloud.
