(* ===== verification/AgentCodec.v ===== *)
(** * AgentCodec: conversation records (internal/agent/api/codec.go)

    Messages of a conversation as the JSON records that are persisted and
    resumed from.  A payload struct is marshalled to a JSON value whose text is
    the record's content; the times of creation are left out, as in AgentTypes.
    The wording of encoding/json's errors is an argument. *)

From Stdlib Require Import Ascii String.
From S2P Require Import Prelude GoStrings GoText GoFloat AiTypes AgentTypes AgentService GoJson GoJsonText GoStruct.

Local Open Scope string_scope.
Local Open Scope list_scope.
Local Open Scope stdpp_scope.
Local Open Scope go_scope.

(** ** The payload structs *)

Record userRecordContent : Type := mkUserRecord { ur_Text : string; ur_HasTextBlock : bool; ur_Timestamp : Z }.

Record assistantUsageCostRecord : Type := mkCostRecord {
  ac_Input : float64; ac_Output : float64; ac_CacheRead : float64; ac_CacheWrite : float64; ac_Total : float64;
}.
Record assistantUsageRecord : Type := mkUsageRecord {
  au_InputTokens : Z; au_OutputTokens : Z; au_CacheReadTokens : Z; au_CacheWriteTokens : Z; au_TotalTokens : Z;
  au_Cost : assistantUsageCostRecord;
}.

(** A raw message is its JSON value; [None] is the empty one. *)
Record recordContentBlock : Type := mkRecordBlock {
  rb_Type : string; rb_Text : string; rb_Thinking : string; rb_Signature : string; rb_Redacted : bool;
  rb_ID : string; rb_Name : string; rb_Input : option json; rb_ThoughtSignature : string;
  rb_Data : string; rb_MimeType : string;
}.

(** A slice is [None] where it is nil. *)
Record assistantRecordContent : Type := mkAssistantRecord {
  ar_ContentBlocks : option (list recordContentBlock); ar_Model : string; ar_StopReason : string; ar_ErrorMessage : string;
  ar_Usage : assistantUsageRecord; ar_Timestamp : Z;
}.
Record toolResultRecordContent : Type := mkToolResultRecord {
  tt_ToolCallID : string; tt_ToolName : string; tt_Content : option (list recordContentBlock); tt_IsError : bool; tt_Timestamp : Z;
}.

(** ** Marshalling *)

Definition userJson (p : userRecordContent) : json :=
  JObject ([("text", JString (ur_Text p))] ++ omitfalse "has_text_block" (ur_HasTextBlock p) ++ omitzero "timestamp" (ur_Timestamp p)).

Definition recordBlockJson (b : recordContentBlock) : json :=
  JObject ([("type", JString (rb_Type b))] ++ omitempty "text" (rb_Text b) ++ omitempty "thinking" (rb_Thinking b) ++
    omitempty "signature" (rb_Signature b) ++ omitfalse "redacted" (rb_Redacted b) ++ omitempty "id" (rb_ID b) ++
    omitempty "name" (rb_Name b) ++ omitnil "input" (rb_Input b) ++ omitempty "thought_signature" (rb_ThoughtSignature b) ++
    omitempty "data" (rb_Data b) ++ omitempty "mime_type" (rb_MimeType b)).

Definition costJson (c : assistantUsageCostRecord) : option json :=
  i ← floatLit (ac_Input c); o ← floatLit (ac_Output c); r ← floatLit (ac_CacheRead c); w ← floatLit (ac_CacheWrite c); t ← floatLit (ac_Total c);
  Some (JObject [("input", i); ("output", o); ("cache_read", r); ("cache_write", w); ("total", t)]).

Definition usageJson (u : assistantUsageRecord) : option json :=
  c ← costJson (au_Cost u);
  Some (JObject ([("input_tokens", numLit (au_InputTokens u)); ("output_tokens", numLit (au_OutputTokens u))] ++
    omitzero "cache_read_tokens" (au_CacheReadTokens u) ++ omitzero "cache_write_tokens" (au_CacheWriteTokens u) ++
    omitzero "total_tokens" (au_TotalTokens u) ++ [("cost", c)])).

Definition assistantJson (p : assistantRecordContent) : option json :=
  u ← usageJson (ar_Usage p);
  Some (JObject ([("content_blocks", sliceJson recordBlockJson (ar_ContentBlocks p))] ++ omitempty "model" (ar_Model p) ++
    omitempty "stop_reason" (ar_StopReason p) ++ omitempty "error_message" (ar_ErrorMessage p) ++ [("usage", u)] ++
    omitzero "timestamp" (ar_Timestamp p))).

Definition toolResultJson (p : toolResultRecordContent) : json :=
  JObject ([("tool_call_id", JString (tt_ToolCallID p)); ("tool_name", JString (tt_ToolName p));
    ("content", sliceJson recordBlockJson (tt_Content p)); ("is_error", JBool (tt_IsError p))] ++ omitzero "timestamp" (tt_Timestamp p)).

(** ** Unmarshalling *)

Definition zeroFloat : float64 := float_of 0.
Definition zeroCost : assistantUsageCostRecord := mkCostRecord zeroFloat zeroFloat zeroFloat zeroFloat zeroFloat.
Definition zeroUsage : assistantUsageRecord := mkUsageRecord 0 0 0 0 0 zeroCost.
Definition zeroRecordBlock : recordContentBlock := mkRecordBlock "" "" "" "" false "" "" None "" "" "".

Definition dUserRecord : decoder userRecordContent := dStruct (fun ms x =>
  t ← field "text" dString ms (ur_Text x);
  h ← field "has_text_block" dBool ms (ur_HasTextBlock x);
  s ← field "timestamp" dInt ms (ur_Timestamp x);
  Some (mkUserRecord t h s)).

Definition dRecordBlock : decoder recordContentBlock := dStruct (fun ms x =>
  t ← field "type" dString ms (rb_Type x);
  text ← field "text" dString ms (rb_Text x);
  th ← field "thinking" dString ms (rb_Thinking x);
  sig ← field "signature" dString ms (rb_Signature x);
  red ← field "redacted" dBool ms (rb_Redacted x);
  id ← field "id" dString ms (rb_ID x);
  name ← field "name" dString ms (rb_Name x);
  input ← field "input" dRaw ms (rb_Input x);
  ts ← field "thought_signature" dString ms (rb_ThoughtSignature x);
  data ← field "data" dString ms (rb_Data x);
  mime ← field "mime_type" dString ms (rb_MimeType x);
  Some (mkRecordBlock t text th sig red id name input ts data mime)).

Definition dCostRecord : decoder assistantUsageCostRecord := dStruct (fun ms x =>
  i ← field "input" dFloat ms (ac_Input x);
  o ← field "output" dFloat ms (ac_Output x);
  r ← field "cache_read" dFloat ms (ac_CacheRead x);
  w ← field "cache_write" dFloat ms (ac_CacheWrite x);
  t ← field "total" dFloat ms (ac_Total x);
  Some (mkCostRecord i o r w t)).

Definition dUsageRecord : decoder assistantUsageRecord := dStruct (fun ms x =>
  i ← field "input_tokens" dInt ms (au_InputTokens x);
  o ← field "output_tokens" dInt ms (au_OutputTokens x);
  r ← field "cache_read_tokens" dInt ms (au_CacheReadTokens x);
  w ← field "cache_write_tokens" dInt ms (au_CacheWriteTokens x);
  t ← field "total_tokens" dInt ms (au_TotalTokens x);
  c ← field "cost" dCostRecord ms (au_Cost x);
  Some (mkUsageRecord i o r w t c)).

Definition dAssistantRecord : decoder assistantRecordContent := dStruct (fun ms x =>
  b ← field "content_blocks" (dSlice zeroRecordBlock dRecordBlock) ms (ar_ContentBlocks x);
  m ← field "model" dString ms (ar_Model x);
  s ← field "stop_reason" dString ms (ar_StopReason x);
  e ← field "error_message" dString ms (ar_ErrorMessage x);
  u ← field "usage" dUsageRecord ms (ar_Usage x);
  t ← field "timestamp" dInt ms (ar_Timestamp x);
  Some (mkAssistantRecord b m s e u t)).

Definition dToolResultRecord : decoder toolResultRecordContent := dStruct (fun ms x =>
  i ← field "tool_call_id" dString ms (tt_ToolCallID x);
  n ← field "tool_name" dString ms (tt_ToolName x);
  c ← field "content" (dSlice zeroRecordBlock dRecordBlock) ms (tt_Content x);
  e ← field "is_error" dBool ms (tt_IsError x);
  t ← field "timestamp" dInt ms (tt_Timestamp x);
  Some (mkToolResultRecord i n c e t)).

(** ** Content blocks *)

(** The %T of a block. *)
Definition blockType (b : ContentBlock) : string :=
  match b with
  | TextContent _ _ => "*ai.TextContent"
  | ThinkingContent _ _ _ => "*ai.ThinkingContent"
  | ImageContent _ _ => "*ai.ImageContent"
  | ToolCallBlock _ => "*ai.ToolCall"
  end.

Definition toAssistantUsageRecord (u : Usage) : assistantUsageRecord :=
  mkUsageRecord (us_Input u) (us_Output u) (us_CacheRead u) (us_CacheWrite u) (us_TotalTokens u)
    (mkCostRecord (cost_Input (us_Cost u)) (cost_Output (us_Cost u)) (cost_CacheRead (us_Cost u)) (cost_CacheWrite (us_Cost u)) (cost_Total (us_Cost u))).

Definition fromAssistantUsageRecord (u : assistantUsageRecord) : Usage :=
  mkUsage (au_InputTokens u) (au_OutputTokens u) (au_CacheReadTokens u) (au_CacheWriteTokens u) (au_TotalTokens u)
    (mkUsageCost (ac_Input (au_Cost u)) (ac_Output (au_Cost u)) (ac_CacheRead (au_Cost u)) (ac_CacheWrite (au_Cost u)) (ac_Total (au_Cost u))).

(** A loop that converts the elements and stops at the first error; nil for none. *)
Fixpoint convertAll {A B} (f : A -> res error B) (l : list A) : res error (list B) :=
  match l with
  | [] => Ok []
  | x :: l' => y <-? f x; ys <-? convertAll f l'; Ok (y :: ys)
  end.

Section Codec.
(** The error of json.Marshal for a float that is no number, and the one of
    json.Unmarshal for a text. *)
Context (marshalError : error) (jsonError : string -> error).

(** fmt.Errorf of what was done, a colon and %w. *)
Definition wrapError (what : string) (e : error) : error := ErrWrap (what +:+ ": " +:+ Error e) e.

Definition marshal (what : string) (v : option json) : res error string :=
  match v with Some j => Ok (render j) | None => Err (wrapError ("marshal " +:+ what) marshalError) end.
Definition unmarshal {A} (what : string) (d : decoder A) (zero : A) (data : string) : res error A :=
  match Unmarshal d zero data with Some x => Ok x | None => Err (wrapError ("parse " +:+ what) (jsonError data)) end.

Fixpoint textParts (blocks : list ContentBlock) : res error (list string) :=
  match blocks with
  | [] => Ok []
  | TextContent text _ :: rest => parts <-? textParts rest; Ok (text :: parts)
  | block :: _ => Err (ErrText ("unsupported user content block type " +:+ blockType block))
  end.
Definition flattenUserText (blocks : list ContentBlock) : res error string :=
  parts <-? textParts blocks; Ok (Join parts (String newline "")).

Definition toRecordBlock (allowThinkingAndToolUse : bool) (block : ContentBlock) : res error recordContentBlock :=
  match block with
  | TextContent text sig => Ok (mkRecordBlock "text" text "" sig false "" "" None "" "" "")
  | ImageContent data mime => Ok (mkRecordBlock "image" "" "" "" false "" "" None "" data mime)
  | ThinkingContent th sig red =>
      if negb allowThinkingAndToolUse then Err (ErrText ("unsupported tool_result content block type " +:+ blockType block))
      else Ok (mkRecordBlock "thinking" "" th sig red "" "" None "" "" "")
  | ToolCallBlock tc =>
      if negb allowThinkingAndToolUse then Err (ErrText ("unsupported tool_result content block type " +:+ blockType block))
      else match ofMap (tc_Arguments tc) with
           | None => Err (wrapError "marshal tool_use arguments" marshalError)
           | Some rawArgs => Ok (mkRecordBlock "tool_use" "" "" "" false (tc_ID tc) (tc_Name tc) (Some rawArgs) (tc_ThoughtSignature tc) "" "")
           end
  end.

Definition toRecordBlocks (allow : bool) (blocks : list ContentBlock) : res error (option (list recordContentBlock)) :=
  match blocks with [] => Ok None | _ => l <-? convertAll (toRecordBlock allow) blocks; Ok (Some l) end.
Definition toAssistantRecordBlocks : list ContentBlock -> res error (option (list recordContentBlock)) := toRecordBlocks true.
Definition toToolResultRecordBlocks : list ContentBlock -> res error (option (list recordContentBlock)) := toRecordBlocks false.

(** nil arguments and empty ones read alike. *)
Definition fromRecordBlock (allowThinkingAndToolUse : bool) (block : recordContentBlock) : res error ContentBlock :=
  let refused := Err (ErrText ("unsupported tool_result content block type " +:+ quote (rb_Type block))) in
  if bool_decide (rb_Type block = "text") then Ok (TextContent (rb_Text block) (rb_Signature block))
  else if bool_decide (rb_Type block = "image") then Ok (ImageContent (rb_Data block) (rb_MimeType block))
  else if bool_decide (rb_Type block = "thinking") then
    if negb allowThinkingAndToolUse then refused
    else Ok (ThinkingContent (rb_Thinking block) (rb_Signature block) (rb_Redacted block))
  else if bool_decide (rb_Type block = "tool_use") then
    if negb allowThinkingAndToolUse then refused
    else match rb_Input block with
         | None => Ok (ToolCallBlock (mkToolCall (rb_ID block) (rb_Name block) ∅ (rb_ThoughtSignature block)))
         | Some raw =>
             match dMapAny raw None with
             | None => Err (wrapError "parse tool_use input" (jsonError (render raw)))
             | Some args => Ok (ToolCallBlock (mkToolCall (rb_ID block) (rb_Name block) (default ∅ args) (rb_ThoughtSignature block)))
             end
         end
  else Err (ErrText ("unknown content block type " +:+ quote (rb_Type block))).

Definition fromRecordBlocks (allow : bool) (blocks : option (list recordContentBlock)) : res error (list ContentBlock) :=
  convertAll (fromRecordBlock allow) (default [] blocks).
Definition fromAssistantRecordBlocks : option (list recordContentBlock) -> res error (list ContentBlock) := fromRecordBlocks true.
Definition fromToolResultRecordBlocks : option (list recordContentBlock) -> res error (list ContentBlock) := fromRecordBlocks false.

(** ** Records *)

(** [AgentMessageToRecord]. *)
Definition AgentMessageToRecord (msg : AgentMessage) : res error AgentMessageRecord :=
  match ag_Message msg with
  | MUser m =>
      text <-? flattenUserText (um_Content m);
      let payload := mkUserRecord text (negb (bool_decide (um_Content m = []))) (um_Timestamp m) in
      raw <-? marshal "user record" (Some (userJson payload));
      Ok (mkAgentMessageRecord (ag_Turn msg) AgentMessageRoleUser raw)
  | MAssistant m =>
      blocks <-? toAssistantRecordBlocks (am_Content m);
      let payload := mkAssistantRecord blocks (am_Model m) (am_StopReason m) (am_ErrorMessage m) (toAssistantUsageRecord (am_Usage m)) (am_Timestamp m) in
      raw <-? marshal "assistant record" (assistantJson payload);
      Ok (mkAgentMessageRecord (ag_Turn msg) AgentMessageRoleAssistant raw)
  | MToolResult m =>
      blocks <-? toToolResultRecordBlocks (tr_Content m);
      let payload := mkToolResultRecord (tr_ToolCallID m) (tr_ToolName m) blocks (tr_IsError m) (tr_Timestamp m) in
      raw <-? marshal "tool_result record" (Some (toolResultJson payload));
      Ok (mkAgentMessageRecord (ag_Turn msg) AgentMessageRoleToolResult raw)
  end.

(** [RecordToAgentMessage]. *)
Definition RecordToAgentMessage (rec : AgentMessageRecord) : res error AgentMessage :=
  if bool_decide (re_Role rec = AgentMessageRoleUser) then
    payload <-? unmarshal "user content" dUserRecord (mkUserRecord "" false 0) (re_Content rec);
    let content := if ur_HasTextBlock payload then [TextContent (ur_Text payload) ""] else [] in
    Ok (mkAgentMessage (re_Turn rec) (MUser (mkUserMessage content (ur_Timestamp payload))))
  else if bool_decide (re_Role rec = AgentMessageRoleAssistant) then
    payload <-? unmarshal "assistant content" dAssistantRecord (mkAssistantRecord None "" "" "" zeroUsage 0) (re_Content rec);
    content <-? fromAssistantRecordBlocks (ar_ContentBlocks payload);
    Ok (mkAgentMessage (re_Turn rec) (MAssistant (mkAssistantMessage content "" "" (ar_Model payload)
      (fromAssistantUsageRecord (ar_Usage payload)) (ar_StopReason payload) (ar_ErrorMessage payload) (ar_Timestamp payload))))
  else if bool_decide (re_Role rec = AgentMessageRoleToolResult) then
    payload <-? unmarshal "tool_result content" dToolResultRecord (mkToolResultRecord "" "" None false 0) (re_Content rec);
    content <-? fromToolResultRecordBlocks (tt_Content payload);
    Ok (mkAgentMessage (re_Turn rec) (MToolResult (mkToolResultMessage (tt_ToolCallID payload) (tt_ToolName payload) content
      (tt_IsError payload) (tt_Timestamp payload))))
  else Err (ErrText ("unknown record role " +:+ quote (re_Role rec))).
End Codec.
