(* ===== verification/AgentCodecProps.v ===== *)
(** * AgentCodecProps: records keep the conversation

    Recording a message and reading the record back gives the message again, but
    for what a record does not hold: [recorded]. *)

From Stdlib Require Import Ascii String.
From S2P Require Import Prelude GoStrings GoText GoFloat AiTypes Transform AgentTypes AgentService AgentServiceProps GoJson GoJsonText GoStruct AgentCodec.

Local Open Scope string_scope.
Local Open Scope list_scope.
Local Open Scope stdpp_scope.
Local Open Scope go_scope.

(** ** Values of type [any] *)

(** A float whose text reads back. *)
Definition stable (f : float64) : Prop := exists lit, FormatFloat f = Some lit /\ numberText lit /\ ParseFloat lit = Ok f.

(** What encoding/json itself builds in a variable of type any: float64
    numbers, valid text. *)
Inductive plain : any -> Prop :=
  | plain_nil : plain ANil
  | plain_bool b : plain (ABool b)
  | plain_float f : stable f -> plain (AFloat f)
  | plain_string s : validText s -> plain (AString s)
  | plain_array l : (forall x, x ∈ l -> plain x) -> plain (AArray l)
  | plain_map (m : gmap string any) : (forall k x, m !! k = Some x -> validText k) -> (forall k x, m !! k = Some x -> plain x) -> plain (AMap m).

(** [j] is the text of [v]: it is written, and reads back. *)
Definition spells (v : any) (j : json) : Prop := ofAny v = Some j /\ numbersOk j /\ validJson j = j /\ toAny j = Some v.

Fixpoint elements (l : list json) : option (list any) :=
  match l with [] => Some [] | x :: l' => a ← toAny x; r ← elements l'; Some (a :: r) end.
Fixpoint members (ms : list (string * json)) (m : gmap string any) : option (gmap string any) :=
  match ms with [] => Some m | (k, x) :: ms' => a ← toAny x; members ms' (<[k := a]> m) end.

Lemma toAny_array l : toAny (JArray l) = AArray <$> elements l.
Proof. reflexivity. Qed.
Lemma toAny_object ms : toAny (JObject ms) = AMap <$> members ms ∅.
Proof. reflexivity. Qed.

Lemma spells_array l : (forall x, x ∈ l -> exists j, spells x j) -> exists j, spells (AArray l) j.
Proof.
  intros H. enough (exists js, ofAny (AArray l) = Some (JArray js) /\ Forall (fun p => p) (map numbersOk js) /\ map validJson js = js /\ elements js = Some l) as (js & E & Hn & Hv & He).
  { exists (JArray js). split_and!; [done|done|by simpl; rewrite Hv|by rewrite toAny_array, He]. }
  induction l as [|x l IH]; [by exists []|].
  destruct (H x) as (j & E & Hn & Hv & Ha); [by left|]. destruct IH as (js & E' & Hn' & Hv' & He'); [by intros y Hy; apply H; right|].
  exists (j :: js). simpl in *. rewrite E, Hv, Hv', Ha, He'. simpl.
  destruct ((fix go (l : list any) : option (list json) := match l with [] => Some [] | x :: l' => j ← ofAny x; r ← go l'; Some (j :: r) end) l) as [r|]; [|done].
  simpl in *. injection E' as [= ->]. by repeat constructor.
Qed.

(** The members of a map, in any order without a key twice. *)
Lemma members_keys (ms : list (string * json)) (kvs : list (string * any)) m :
  Forall2 (fun a b => a.1 = b.1 /\ toAny a.2 = Some b.2) ms kvs -> members ms m = Some (foldl (fun m kv => <[kv.1 := kv.2]> m) m kvs).
Proof.
  intros H. revert m. induction H as [|[k j] [k' x] ms kvs [Hk Hj] H IH]; intros m; [done|]. simpl in *. subst. rewrite Hj. apply IH.
Qed.

Lemma foldl_insert (kvs : list (string * any)) (m : gmap string any) :
  NoDup kvs.*1 -> foldl (fun m kv => <[kv.1 := kv.2]> m) m kvs = list_to_map kvs ∪ m.
Proof.
  revert m. induction kvs as [|[k x] kvs IH]; intros m Hnd; [by simpl; rewrite (left_id_L ∅ (∪))|].
  apply NoDup_cons in Hnd as [Hk Hnd]. simpl. rewrite IH by done.
  rewrite <- insert_union_r by (by apply not_elem_of_list_to_map). by rewrite insert_union_l.
Qed.

Lemma insertMember_perm kv ms : insertMember kv ms ≡ₚ kv :: ms.
Proof.
  induction ms as [|kv' ms IH]; [done|]. simpl. case_bool_decide; [done|]. rewrite IH. apply Permutation_swap.
Qed.

Lemma spells_map (m : gmap string any) :
  (forall k x, m !! k = Some x -> validText k) -> (forall k x, m !! k = Some x -> exists j, spells x j) -> exists j, spells (AMap m) j.
Proof.
  intros Hk Hx.
  assert (H : exists ms ms', map_fold (fun k x acc => ms ← acc; j ← ofAny x; Some (insertMember (k, j) ms)) (Some []) m = Some ms /\ ms ≡ₚ ms' /\
    Forall2 (fun (a : string * json) (b : string * any) => a.1 = b.1 /\ spells b.2 a.2 /\ validText b.1) ms' (map_to_list m)).
  { rewrite map_fold_foldr. assert (Hl : forall k x, (k, x) ∈ map_to_list m -> validText k /\ exists j, spells x j).
    { intros k x Hin%elem_of_map_to_list. split; [by eapply Hk|by eapply Hx]. }
    induction (map_to_list m) as [|[k x] l IH]; [by exists [], []|].
    destruct IH as (ms & ms' & E & Hp & H2); [by intros k' x' Hin; apply Hl; right|].
    destruct (Hl k x) as (Hvk & j & Hj); [by left|]. simpl. rewrite E. simpl. rewrite (proj1 Hj). simpl.
    exists (insertMember (k, j) ms), ((k, j) :: ms'). split; [done|]. split; [by rewrite insertMember_perm, Hp|].
    by constructor. }
  destruct H as (ms & ms' & E & Hp & H2).
  destruct (Permutation_Forall2 (symmetry Hp) H2) as (kvs & Hpk & H2'). exists (JObject ms).
  unfold spells. simpl. rewrite E. split; [done|]. split_and!.
  - clear -H2'. induction H2' as [|[k j] [k' x] ms kvs (Hk & (_ & Hn & _) & _) _ IH]; [constructor|]. by constructor.
  - f_equal. clear -H2'. induction H2' as [|[k j] [k' x] ms kvs (Hk & (_ & _ & Hv & _) & Hvk) _ IH]; [done|]. simpl in *. subst.
    by rewrite IH, Hv, Hvk.
  - change (toAny (JObject ms) = Some (AMap m)). rewrite toAny_object, (members_keys _ kvs).
    + rewrite foldl_insert; [|rewrite <- Hpk; apply NoDup_fst_map_to_list]. simpl. do 2 f_equal. rewrite (right_id_L ∅ (∪)).
      rewrite <- (list_to_map_to_list m). symmetry. apply list_to_map_proper; [apply NoDup_fst_map_to_list|done].
    + eapply Forall2_impl; [exact H2'|]. intros [k j] [k' x] (? & (_ & _ & _ & ?) & _). done.
Qed.

Lemma plain_spells v : plain v -> exists j, spells v j.
Proof.
  induction 1 as [|b|f (lit & E & Hn & Hp)|s Hs|l _ IH|m Hk _ IH].
  - by exists JNull.
  - by exists (JBool b).
  - exists (JNumber lit). unfold spells. simpl. by rewrite E, Hp.
  - exists (JString s). unfold spells. simpl. by rewrite Hs.
  - by apply spells_array.
  - by apply spells_map.
Qed.

Lemma dUserRecord_json p :
  int64 (ur_Timestamp p) ->
  dUserRecord (validJson (userJson p)) (mkUserRecord "" false 0) = Some (mkUserRecord (ToValidUTF8 (ur_Text p)) (ur_HasTextBlock p) (ur_Timestamp p)).
Proof.
  intros Ht. unfold userJson. rewrite validJson_object, !map_app. unfold dUserRecord, dStruct. cbn [ur_Text ur_HasTextBlock ur_Timestamp].
  rewrite <- (app_nil_r (map valid1 (omitzero _ _))). struct_tac. reflexivity.
Qed.

(** A block as it comes back. *)
Definition validBlock (b : recordContentBlock) : recordContentBlock :=
  mkRecordBlock (ToValidUTF8 (rb_Type b)) (ToValidUTF8 (rb_Text b)) (ToValidUTF8 (rb_Thinking b)) (ToValidUTF8 (rb_Signature b)) (rb_Redacted b)
    (ToValidUTF8 (rb_ID b)) (ToValidUTF8 (rb_Name b)) (validJson <$> rb_Input b) (ToValidUTF8 (rb_ThoughtSignature b))
    (ToValidUTF8 (rb_Data b)) (ToValidUTF8 (rb_MimeType b)).

Lemma dRecordBlock_json b : dRecordBlock (validJson (recordBlockJson b)) zeroRecordBlock = Some (validBlock b).
Proof.
  unfold recordBlockJson. rewrite validJson_object, !map_app. unfold dRecordBlock, dStruct, zeroRecordBlock.
  cbn [rb_Type rb_Text rb_Thinking rb_Signature rb_Redacted rb_ID rb_Name rb_Input rb_ThoughtSignature rb_Data rb_MimeType].
  rewrite <- (app_nil_r (map valid1 (omitempty "mime_type" _))). struct_tac. reflexivity.
Qed.

Lemma stable_lit f : stable f -> exists lit, floatLit f = Some (JNumber lit) /\ numberText lit /\ forall x, dFloat (JNumber lit) x = Some f.
Proof. intros (lit & E & Hn & Hp). exists lit. unfold floatLit. rewrite E. split_and!; [done|done|]. intros x. simpl. by rewrite Hp. Qed.

Definition stableCost (c : assistantUsageCostRecord) : Prop :=
  stable (ac_Input c) /\ stable (ac_Output c) /\ stable (ac_CacheRead c) /\ stable (ac_CacheWrite c) /\ stable (ac_Total c).

(** [j] is the text of [x]: a value that reads back as [x']. *)
Definition writes {A} (d : decoder A) (zero : A) (j : json) (x : A) : Prop := numbersOk j /\ d (validJson j) zero = Some x.

Lemma costJson_writes c : stableCost c -> exists j, costJson c = Some j /\ writes dCostRecord zeroCost j c /\ depth j = 1%nat.
Proof.
  intros (Hi & Ho & Hr & Hw & Ht). destruct c as [i o r w t]. simpl in *.
  apply stable_lit in Hi as (li & Ei & Ni & Di), Ho as (lo & Eo & No & Do), Hr as (lr & Er & Nr & Dr), Hw as (lw & Ew & Nw & Dw), Ht as (lt & Et & Nt & Dt).
  unfold costJson. simpl. rewrite Ei, Eo, Er, Ew, Et. simpl. eexists. split; [reflexivity|]. split; [|reflexivity]. split; [by repeat constructor|].
  rewrite validJson_object. unfold dCostRecord, dStruct, zeroCost. cbn [ac_Input ac_Output ac_CacheRead ac_CacheWrite ac_Total].
  change (map valid1 [("input", JNumber li); ("output", JNumber lo); ("cache_read", JNumber lr); ("cache_write", JNumber lw); ("total", JNumber lt)])
    with (map valid1 [("input", JNumber li)] ++ map valid1 [("output", JNumber lo)] ++ map valid1 [("cache_read", JNumber lr)] ++
          map valid1 [("cache_write", JNumber lw)] ++ map valid1 [("total", JNumber lt)] ++ []).
  repeat (struct_step; rewrite ?Di, ?Do, ?Dr, ?Dw, ?Dt; cbn [field mbind option_bind]). reflexivity.
Qed.

Definition usageOk (u : assistantUsageRecord) : Prop :=
  int64 (au_InputTokens u) /\ int64 (au_OutputTokens u) /\ int64 (au_CacheReadTokens u) /\ int64 (au_CacheWriteTokens u) /\
  int64 (au_TotalTokens u) /\ stableCost (au_Cost u).

Lemma numbersOk_object ms : numbersOk (JObject ms) <-> Forall (fun kv => numbersOk kv.2) ms.
Proof. simpl. rewrite Forall_map. apply Forall_iff. by intros []. Qed.
Lemma numbersOk_app ms ms' : numbersOk (JObject (ms ++ ms')) <-> numbersOk (JObject ms) /\ numbersOk (JObject ms').
Proof. rewrite !numbersOk_object. apply Forall_app. Qed.
Lemma numbersOk_zero k n : numbersOk (JObject (omitzero k n)).
Proof. unfold omitzero. case_bool_decide; repeat constructor. apply numLit_ok. Qed.
Lemma numbersOk_empty k s : numbersOk (JObject (omitempty k s)).
Proof. unfold omitempty. case_bool_decide; by repeat constructor. Qed.
Lemma numbersOk_false k b : numbersOk (JObject (omitfalse k b)).
Proof. destruct b; by repeat constructor. Qed.
Lemma numbersOk_nil k o : (forall j, o = Some j -> numbersOk j) -> numbersOk (JObject (omitnil k o)).
Proof. destruct o; [|by repeat constructor]. intros H. constructor; [by apply H|constructor]. Qed.
Lemma numbersOk_one k j : numbersOk j -> numbersOk (JObject [(k, j)]).
Proof. intros H. constructor; [done|constructor]. Qed.
#[export] Hint Resolve numbersOk_zero numbersOk_empty numbersOk_false numbersOk_one numLit_ok : struct.
Ltac numbers_tac := rewrite ?numbersOk_app; split_and!; try (solve [eauto 3 with struct]); try (by repeat constructor).

(** The nesting of a struct's members. *)
Lemma depth_object_app ms ms' : depth (JObject (ms ++ ms')) = Nat.max (depth (JObject ms)) (depth (JObject ms')).
Proof. simpl. f_equal. induction ms as [|kv ms IH]; simpl; [done|]. lia. Qed.
Lemma depth_zero k n : depth (JObject (omitzero k n)) = 1%nat.
Proof. unfold omitzero. by case_bool_decide. Qed.
Lemma depth_empty k s : depth (JObject (omitempty k s)) = 1%nat.
Proof. unfold omitempty. by case_bool_decide. Qed.
Lemma depth_false k b : depth (JObject (omitfalse k b)) = 1%nat.
Proof. by destruct b. Qed.
Lemma depth_one k j : depth (JObject [(k, j)]) = S (depth j).
Proof. simpl. lia. Qed.

Lemma usageJson_writes u : usageOk u -> exists j, usageJson u = Some j /\ writes dUsageRecord zeroUsage j u /\ depth j = 2%nat.
Proof.
  intros (Hi & Ho & Hr & Hw & Ht & Hc). destruct u as [i o r w t c]. simpl in *.
  apply costJson_writes in Hc as (jc & Ec & [Nc Dc] & Hd). unfold usageJson. simpl. rewrite Ec. simpl. eexists. split; [reflexivity|].
  change (("input_tokens", numLit i) :: ("output_tokens", numLit o) :: ?l) with ([("input_tokens", numLit i)] ++ [("output_tokens", numLit o)] ++ l).
  split; [split|].
  - numbers_tac.
  - rewrite validJson_object, !map_app. unfold dUsageRecord, dStruct, zeroUsage. cbn [au_InputTokens au_OutputTokens au_CacheReadTokens au_CacheWriteTokens au_TotalTokens au_Cost].
    rewrite <- (app_nil_r (map valid1 [("cost", jc)])). repeat (struct_step; rewrite ?Dc; cbn [field mbind option_bind]). reflexivity.
  - rewrite !depth_object_app, !depth_one, !depth_zero, Hd. done.
Qed.

(** ** Blocks *)

Definition shallow (n : nat) (m : gmap string any) : Prop := forall j, ofMap m = Some j -> (depth j <= n)%nat.

(** Blocks that a record can hold: tool arguments as the JSON decoder builds
    them, and not nested to the limit. *)
Definition recordable (allow : bool) (b : ContentBlock) : Prop :=
  match b with
  | TextContent _ _ | ImageContent _ _ => True
  | ThinkingContent _ _ _ => allow = true
  | ToolCallBlock tc => allow = true /\ plain (AMap (tc_Arguments tc)) /\ shallow (maxNestingDepth - 3) (tc_Arguments tc)
  end.

Definition recordedBlock (b : ContentBlock) : ContentBlock :=
  match b with
  | TextContent t s => TextContent (ToValidUTF8 t) (ToValidUTF8 s)
  | ImageContent d m => ImageContent (ToValidUTF8 d) (ToValidUTF8 m)
  | ThinkingContent t s r => ThinkingContent (ToValidUTF8 t) (ToValidUTF8 s) r
  | ToolCallBlock tc => ToolCallBlock (mkToolCall (ToValidUTF8 (tc_ID tc)) (ToValidUTF8 (tc_Name tc)) (tc_Arguments tc) (ToValidUTF8 (tc_ThoughtSignature tc)))
  end.

Lemma dMapAny_members ms m : dMapAny (JObject ms) m = Some <$> members ms (default ∅ m).
Proof.
  unfold dMapAny. f_equal. generalize (default ∅ m). induction ms as [|[k j] ms IH]; intros m0; [done|].
  simpl. destruct (toAny j) as [a|]; simpl; [apply IH|]. clear IH. by induction ms.
Qed.

Lemma spells_dMapAny m j : spells (AMap m) j -> dMapAny j None = Some (Some m).
Proof.
  intros (E & _ & _ & Ha). unfold ofAny in E. fold ofAny in E.
  destruct (map_fold _ _ m) as [ms|]; [|done]. injection E as [= <-]. rewrite toAny_object in Ha. rewrite dMapAny_members. simpl.
  destruct (members ms ∅) as [m'|]; [|done]. by injection Ha as [= ->].
Qed.

Lemma depth_nil k o : (depth (JObject (omitnil k o)) <= S (match o with Some j => depth j | None => 0 end))%nat.
Proof. destruct o; simpl; lia. Qed.

Lemma recordBlockJson_depth b n :
  (forall j, rb_Input b = Some j -> (depth j <= n)%nat) -> (depth (recordBlockJson b) <= S n)%nat.
Proof.
  intros H. unfold recordBlockJson. rewrite !depth_object_app, !depth_one, !depth_empty, !depth_false.
  pose proof (depth_nil "input" (rb_Input b)) as Hi. destruct (rb_Input b) as [j|]; [specialize (H j eq_refl)|]; change (depth (JString (rb_Type b))) with 0%nat; lia.
Qed.

Lemma recordBlockJson_numbers b : (forall j, rb_Input b = Some j -> numbersOk j) -> numbersOk (recordBlockJson b).
Proof. intros H. unfold recordBlockJson. numbers_tac. by apply numbersOk_nil. Qed.

Section Trip.
Context (marshalError : error) (jsonError : string -> error).
Notation toBlock := (toRecordBlock marshalError).
Notation fromBlock := (fromRecordBlock jsonError).

Definition tripped (allow : bool) (b : ContentBlock) (r : recordContentBlock) : Prop :=
  toBlock allow b = Ok r /\ numbersOk (recordBlockJson r) /\ (depth (recordBlockJson r) <= maxNestingDepth - 2)%nat /\
  fromBlock allow (validBlock r) = Ok (recordedBlock b).

Lemma block_trip allow b : recordable allow b -> exists r, tripped allow b r.
Proof.
  assert (Hno : forall r, rb_Input r = None -> numbersOk (recordBlockJson r) /\ (depth (recordBlockJson r) <= maxNestingDepth - 2)%nat).
  { intros r Hr. split; [apply recordBlockJson_numbers; by rewrite Hr|]. etrans; [apply (recordBlockJson_depth _ 0); by rewrite Hr|].
    apply leb_complete. vm_compute. reflexivity. }
  destruct b as [t s|t s rd|d m|tc]; simpl; intros H.
  - eexists. split; [reflexivity|]. split; [by apply Hno|]. split; [by apply Hno|reflexivity].
  - subst. eexists. split; [reflexivity|]. split; [by apply Hno|]. split; [by apply Hno|reflexivity].
  - eexists. split; [reflexivity|]. split; [by apply Hno|]. split; [by apply Hno|reflexivity].
  - destruct H as (-> & Hp & Hd). destruct (plain_spells _ Hp) as (j & Hj). pose proof (spells_dMapAny _ _ Hj) as Ha.
    destruct Hj as (Ej & Hn & Hv & _). change (ofMap (tc_Arguments tc) = Some j) in Ej.
    eexists. split; [simpl; rewrite Ej; reflexivity|]. split_and!.
    + apply recordBlockJson_numbers. by intros j' [= <-].
    + etrans; [apply (recordBlockJson_depth _ (maxNestingDepth - 3)); intros j' [= <-]; by apply Hd|]. apply leb_complete. vm_compute. reflexivity.
    + unfold fromRecordBlock, validBlock. cbn [rb_Type rb_Input]. change (ToValidUTF8 "tool_use") with "tool_use".
      simpl. by rewrite Hv, Ha.
Qed.

Lemma convert_trip allow l : Forall (recordable allow) l -> exists rs, convertAll (toBlock allow) l = Ok rs /\
  Forall (fun r => numbersOk (recordBlockJson r) /\ (depth (recordBlockJson r) <= maxNestingDepth - 2)%nat) rs /\
  convertAll (fromBlock allow) (map validBlock rs) = Ok (map recordedBlock l).
Proof.
  induction 1 as [|b l Hb _ IH]; [by exists []|]. destruct (block_trip _ _ Hb) as (r & E & Hn & Hd & E').
  destruct IH as (rs & Es & Hrs & Es'). exists (r :: rs). simpl. rewrite E, E', Es, Es'. split; [done|]. split; [by constructor|done].
Qed.

Lemma slice_trip allow l : Forall (recordable allow) l -> exists rs, toRecordBlocks marshalError allow l = Ok rs /\
  numbersOk (sliceJson recordBlockJson rs) /\ (depth (sliceJson recordBlockJson rs) <= maxNestingDepth - 1)%nat /\
  dSlice zeroRecordBlock dRecordBlock (validJson (sliceJson recordBlockJson rs)) None = Some (map validBlock <$> rs) /\
  fromRecordBlocks jsonError allow (map validBlock <$> rs) = Ok (map recordedBlock l).
Proof.
  intros Hl. destruct (convert_trip _ _ Hl) as (rs & E & Hrs & E').
  destruct l as [|b l].
  { exists None. split_and!; try done. simpl. lia. }
  exists (Some rs). unfold toRecordBlocks. rewrite E. split_and!; try done.
  - simpl. rewrite Forall_map, Forall_map. eapply Forall_impl; [exact Hrs|]. by intros r [? _].
  - assert (Hm : (foldr (fun x n => Nat.max (depth x) n) 0 (map recordBlockJson rs) <= maxNestingDepth - 2)%nat).
    { clear -Hrs. induction Hrs as [|r rs [_ Hr] _ IH]; [simpl; lia|]. cbn [map foldr]. lia. }
    assert (2 <= maxNestingDepth)%nat by (apply leb_complete; vm_compute; reflexivity). cbn [sliceJson depth]. lia.
  - clear. cbn [sliceJson validJson dSlice default]. enough (H : dElems zeroRecordBlock dRecordBlock (map validJson (map recordBlockJson rs)) [] = Some (map validBlock rs)) by by rewrite H.
    induction rs as [|r rs IH]; [done|]. cbn [map dElems head tail default]. rewrite dRecordBlock_json. simpl. by rewrite IH.
Qed.
End Trip.

(** ** Messages *)

Definition isText (b : ContentBlock) : Prop := match b with TextContent _ _ => True | _ => False end.
Definition textOf (b : ContentBlock) : string := match b with TextContent t _ => t | _ => "" end.

(** What a record can hold. *)
Definition recordableMessage (m : Message) : Prop :=
  match m with
  | MUser u => Forall isText (um_Content u) /\ int64 (um_Timestamp u)
  | MAssistant a => Forall (recordable true) (am_Content a) /\ usageOk (toAssistantUsageRecord (am_Usage a)) /\ int64 (am_Timestamp a)
  | MToolResult r => Forall (recordable false) (tr_Content r) /\ int64 (tr_Timestamp r)
  end.

(** What comes back: the texts of a user message in one block, joined by line
    breaks and without signatures; an assistant message without its API and
    provider; and text with the bytes that are no UTF-8 replaced. *)
Definition recordedMessage (m : Message) : Message :=
  match m with
  | MUser u => MUser (mkUserMessage
      (if bool_decide (um_Content u = []) then [] else [TextContent (ToValidUTF8 (Join (map textOf (um_Content u)) (String newline ""))) ""])
      (um_Timestamp u))
  | MAssistant a => MAssistant (mkAssistantMessage (map recordedBlock (am_Content a)) "" "" (ToValidUTF8 (am_Model a)) (am_Usage a)
      (ToValidUTF8 (am_StopReason a)) (ToValidUTF8 (am_ErrorMessage a)) (am_Timestamp a))
  | MToolResult r => MToolResult (mkToolResultMessage (ToValidUTF8 (tr_ToolCallID r)) (ToValidUTF8 (tr_ToolName r))
      (map recordedBlock (tr_Content r)) (tr_IsError r) (tr_Timestamp r))
  end.
Definition recorded (m : AgentMessage) : AgentMessage := mkAgentMessage (ag_Turn m) (recordedMessage (ag_Message m)).

Lemma textParts_texts l : Forall isText l -> textParts l = Ok (map textOf l).
Proof. induction 1 as [|b l Hb _ IH]; [done|]. destruct b; try done. simpl. by rewrite IH. Qed.

Lemma usage_trip u : fromAssistantUsageRecord (toAssistantUsageRecord u) = u.
Proof. by destruct u as [i o r w t []]. Qed.

#[local] Arguments render : simpl never.
#[local] Arguments userJson : simpl never.
#[local] Arguments toolResultJson : simpl never.
#[local] Arguments unmarshal : simpl never.
#[local] Arguments assistantJson : simpl never.

Section Messages.
Context (marshalError : error) (jsonError : string -> error).

Lemma unmarshal_json {A} what (d : decoder A) zero j x :
  numbersOk j -> (depth j <= maxNestingDepth)%nat -> d (validJson j) zero = Some x -> unmarshal jsonError what d zero (render j) = Ok x.
Proof. intros Hn Hd Hx. unfold unmarshal. by rewrite Unmarshal_render, Hx. Qed.

Lemma big k : (k <=? maxNestingDepth)%nat = true -> (k <= maxNestingDepth)%nat.
Proof. apply leb_complete. Qed.

Lemma user_trip u turn : recordableMessage (MUser u) -> exists raw,
  AgentMessageToRecord marshalError (mkAgentMessage turn (MUser u)) = Ok (mkAgentMessageRecord turn AgentMessageRoleUser raw) /\
  RecordToAgentMessage jsonError (mkAgentMessageRecord turn AgentMessageRoleUser raw) = Ok (mkAgentMessage turn (recordedMessage (MUser u))).
Proof.
  intros [Ht Hs]. unfold AgentMessageToRecord, flattenUserText. simpl. rewrite textParts_texts by done. simpl. eexists. split; [reflexivity|].
  unfold RecordToAgentMessage. simpl. erewrite unmarshal_json; [|..|by apply dUserRecord_json].
  - simpl. by case_bool_decide.
  - unfold userJson. numbers_tac.
  - unfold userJson. rewrite !depth_object_app, depth_one, depth_false, depth_zero. by apply big.
Qed.

Lemma assistantJson_writes p bs :
  numbersOk (sliceJson recordBlockJson (ar_ContentBlocks p)) -> (depth (sliceJson recordBlockJson (ar_ContentBlocks p)) <= maxNestingDepth - 1)%nat ->
  dSlice zeroRecordBlock dRecordBlock (validJson (sliceJson recordBlockJson (ar_ContentBlocks p))) None = Some bs ->
  usageOk (ar_Usage p) -> int64 (ar_Timestamp p) ->
  exists j, assistantJson p = Some j /\ (depth j <= maxNestingDepth)%nat /\
    writes dAssistantRecord (mkAssistantRecord None "" "" "" zeroUsage 0) j
      (mkAssistantRecord bs (ToValidUTF8 (ar_Model p)) (ToValidUTF8 (ar_StopReason p)) (ToValidUTF8 (ar_ErrorMessage p)) (ar_Usage p) (ar_Timestamp p)).
Proof.
  intros Hn Hd Hb Hu Ht. destruct p as [b m s e u t]. cbn [ar_ContentBlocks ar_Usage ar_Timestamp] in *. destruct (usageJson_writes _ Hu) as (uj & Eu & [Nu Du] & Hud).
  unfold assistantJson. cbn [ar_Usage ar_ContentBlocks ar_Model ar_StopReason ar_ErrorMessage ar_Timestamp]. rewrite Eu. cbn [mbind option_bind].
  eexists. split; [reflexivity|]. split; [|split].
  - rewrite !depth_object_app, !depth_one, !depth_empty, depth_zero, Hud.
    assert (3 <= maxNestingDepth)%nat by by apply big. revert Hd. generalize (depth (sliceJson recordBlockJson b)). lia.
  - numbers_tac.
  - rewrite validJson_object, !map_app. unfold dAssistantRecord, dStruct.
    cbn [ar_ContentBlocks ar_Model ar_StopReason ar_ErrorMessage ar_Usage ar_Timestamp].
    rewrite <- (app_nil_r (map valid1 (omitzero _ _))).
    repeat (struct_step; rewrite ?Hb, ?Du; cbn [field mbind option_bind]). reflexivity.
Qed.

Lemma assistant_trip a turn : recordableMessage (MAssistant a) -> exists raw,
  AgentMessageToRecord marshalError (mkAgentMessage turn (MAssistant a)) = Ok (mkAgentMessageRecord turn AgentMessageRoleAssistant raw) /\
  RecordToAgentMessage jsonError (mkAgentMessageRecord turn AgentMessageRoleAssistant raw) = Ok (mkAgentMessage turn (recordedMessage (MAssistant a))).
Proof.
  intros (Hb & Hu & Ht). destruct (slice_trip marshalError jsonError _ _ Hb) as (rs & E & Hn & Hd & Hdec & Hfrom).
  destruct (assistantJson_writes (mkAssistantRecord rs (am_Model a) (am_StopReason a) (am_ErrorMessage a) (toAssistantUsageRecord (am_Usage a)) (am_Timestamp a))
    _ Hn Hd Hdec Hu Ht) as (j & Ej & Hdj & Hnj & Hj).
  unfold AgentMessageToRecord, toAssistantRecordBlocks. simpl. rewrite E. simpl. rewrite Ej. simpl.
  eexists. split; [reflexivity|]. unfold RecordToAgentMessage. simpl. rewrite (unmarshal_json _ _ _ _ _ Hnj Hdj Hj).
  simpl. unfold fromAssistantRecordBlocks. rewrite Hfrom. simpl. by rewrite usage_trip.
Qed.

Lemma dToolResultRecord_json i n rs e t bs :
  int64 t -> dSlice zeroRecordBlock dRecordBlock (validJson (sliceJson recordBlockJson rs)) None = Some bs ->
  dToolResultRecord (validJson (toolResultJson (mkToolResultRecord i n rs e t))) (mkToolResultRecord "" "" None false 0) =
  Some (mkToolResultRecord (ToValidUTF8 i) (ToValidUTF8 n) bs e t).
Proof.
  intros Ht Hb. unfold toolResultJson. cbn [tt_ToolCallID tt_ToolName tt_Content tt_IsError tt_Timestamp].
  change ([("tool_call_id", JString i); ("tool_name", JString n); ("content", sliceJson recordBlockJson rs); ("is_error", JBool e)])
    with ([("tool_call_id", JString i)] ++ [("tool_name", JString n)] ++ [("content", sliceJson recordBlockJson rs)] ++ [("is_error", JBool e)]).
  rewrite validJson_object, !map_app, <- !app_assoc. unfold dToolResultRecord, dStruct.
  cbn [tt_ToolCallID tt_ToolName tt_Content tt_IsError tt_Timestamp].
  rewrite <- (app_nil_r (map valid1 (omitzero _ _))).
  repeat (struct_step; rewrite ?Hb; cbn [field mbind option_bind]). reflexivity.
Qed.

Lemma toolResultJson_ok p :
  numbersOk (sliceJson recordBlockJson (tt_Content p)) -> (depth (sliceJson recordBlockJson (tt_Content p)) <= maxNestingDepth - 1)%nat ->
  numbersOk (toolResultJson p) /\ (depth (toolResultJson p) <= maxNestingDepth)%nat.
Proof.
  intros Hn Hd. unfold toolResultJson. split; [numbers_tac|].
  rewrite depth_object_app, depth_zero. cbn [depth foldr snd]. assert (3 <= maxNestingDepth)%nat by by apply leb_complete. lia.
Qed.

Lemma toolResult_trip r turn : recordableMessage (MToolResult r) -> exists raw,
  AgentMessageToRecord marshalError (mkAgentMessage turn (MToolResult r)) = Ok (mkAgentMessageRecord turn AgentMessageRoleToolResult raw) /\
  RecordToAgentMessage jsonError (mkAgentMessageRecord turn AgentMessageRoleToolResult raw) = Ok (mkAgentMessage turn (recordedMessage (MToolResult r))).
Proof.
  intros (Hb & Ht). destruct (slice_trip marshalError jsonError _ _ Hb) as (rs & E & Hn & Hd & Hdec & Hfrom).
  unfold AgentMessageToRecord, toToolResultRecordBlocks. simpl. rewrite E. simpl.
  eexists. split; [reflexivity|]. unfold RecordToAgentMessage. simpl.
  erewrite unmarshal_json; [|by apply toolResultJson_ok..|by apply dToolResultRecord_json].
  simpl. unfold fromToolResultRecordBlocks. by rewrite Hfrom.
Qed.

Lemma message_trip m : recordableMessage (ag_Message m) -> exists rec,
  AgentMessageToRecord marshalError m = Ok rec /\ re_Turn rec = ag_Turn m /\ knownRole (re_Role rec) = true /\
  RecordToAgentMessage jsonError rec = Ok (recorded m).
Proof.
  destruct m as [turn [u|a|r]]; intros H; [destruct (user_trip u turn H) as (raw & E & E')|destruct (assistant_trip a turn H) as (raw & E & E')
    |destruct (toolResult_trip r turn H) as (raw & E & E')]; eexists; (split; [exact E|]); by split.
Qed.

Lemma recordedBlock_again allow b : recordable allow b -> recordable allow (recordedBlock b).
Proof. by destruct b as [| | |[]]. Qed.

(** C35: a record keeps its message: every message of texts, images, thinking
    and tool calls is recorded, whatever text it holds, and its record reads back
    as the message but for what [recordedMessage] names: the blocks of a user
    message become one, and API, provider and the bytes that are no UTF-8 are
    lost.  What was read back can be recorded again. *)
Theorem record_roundtrip m :
  recordableMessage (ag_Message m) ->
  exists rec, AgentMessageToRecord marshalError m = Ok rec /\
    RecordToAgentMessage jsonError rec = Ok (recorded m) /\ recordableMessage (recordedMessage (ag_Message m)).
Proof.
  intros H. destruct (message_trip m H) as (rec & E & _ & _ & E'). exists rec. split_and!; [done|done|].
  destruct (ag_Message m) as [u|a|r]; simpl in *.
  - split; [|by apply H]. case_bool_decide; by repeat constructor.
  - destruct H as (Hb & Hu & Ht). split_and!; try done. apply Forall_map. eapply Forall_impl; [exact Hb|]. apply recordedBlock_again.
  - destruct H as (Hb & Ht). split; [|done]. apply Forall_map. eapply Forall_impl; [exact Hb|]. apply recordedBlock_again.
Qed.

(** The records of a conversation. *)
Definition recordsOf (msgs : list AgentMessage) : res error (list AgentMessageRecord) := convertAll (AgentMessageToRecord marshalError) msgs.

Fixpoint ascend (prev : Z) (msgs : list AgentMessage) : Prop :=
  match msgs with [] => True | m :: rest => (prev <= ag_Turn m)%Z /\ ascend (ag_Turn m) rest end.

Lemma recordsOf_ok msgs : Forall (fun m => recordableMessage (ag_Message m)) msgs -> exists records,
  recordsOf msgs = Ok records /\ Forall2 (fun rec m => re_Turn rec = ag_Turn m /\ knownRole (re_Role rec) = true /\ RecordToAgentMessage jsonError rec = Ok (recorded m)) records msgs.
Proof.
  induction 1 as [|m msgs Hm _ (records & E & H)]; [by exists []; split; [|constructor]|].
  destruct (message_trip m Hm) as (rec & Er & Hrec). exists (rec :: records). unfold recordsOf in *. simpl. rewrite Er. simpl. rewrite E. split; [done|]. by constructor.
Qed.

(** A conversation that was saved can be resumed: the service accepts the
    records of any recordable messages whose turn numbers do not go down, and
    decodes them to those messages, one for one and in order. *)
Theorem saved_log_resumes toolSet msgs :
  Forall (fun m => recordableMessage (ag_Message m)) msgs ->
  ascend (match msgs with m :: _ => ag_Turn m | [] => 0%Z end) msgs ->
  exists records warns, recordsOf msgs = Ok records /\
    validateAndDecodeResumeLog (RecordToAgentMessage jsonError) toolSet records = Ok (map recorded msgs, warns).
Proof.
  intros Hm Hasc. destruct (recordsOf_ok msgs Hm) as (records & E & H2). exists records.
  assert (Hdec : Forall2 (fun rec m => knownRole (re_Role rec) = true /\ RecordToAgentMessage jsonError rec = Ok m) records (map recorded msgs)).
  { clear -H2. induction H2 as [|rec m records msgs (_ & Hk & Hd) _ IH]; [constructor|]. by constructor. }
  assert (Hturns : forall prev, ascend prev msgs -> turnsAscend prev records).
  { clear -H2. induction H2 as [|rec m records msgs (Ht & _) _ IH]; [done|]. simpl. intros prev [H1 H3]. rewrite Ht. eauto. }
  destruct records as [|rec records].
  { apply Forall2_nil_inv_l in H2 as ->. exists []. by split. }
  apply Forall2_cons_inv_l in H2 as (m & msgs' & (Ht & _) & _ & ->).
  destruct (resumeLoop_complete (RecordToAgentMessage jsonError) toolSet 0 (rec :: records) (re_Turn rec) "" (map recorded (m :: msgs'))) as [warns Ew].
  - rewrite Ht. by apply Hturns.
  - exact Hdec.
  - exists warns. by split.
Qed.
End Messages.

(** ** A conversation *)

Module Sample.
Definition jsonErr (s : string) : error := ErrText "invalid JSON".
Definition marshalErr : error := ErrText "unsupported value".
Definition args : gmap string any := {["path" := AString "a.txt"; "limit" := AFloat (float_of 10)]}.
Definition usage : Usage := mkUsage 12 7 0 0 19 (mkUsageCost (literal 3 1000) (float_of 0) (float_of 0) (float_of 0) (literal 3 1000)).
Definition conversation : list AgentMessage :=
  [mkAgentMessage 1 (MUser (mkUserMessage [TextContent "read" "s"; TextContent "a.txt" ""] 5));
   mkAgentMessage 1 (MAssistant (mkAssistantMessage [ThinkingContent "hm" "sig" false; ToolCallBlock (mkToolCall "t1" "read" args "")]
     "anthropic-messages" "anthropic" "m-1" usage "toolUse" "" 6));
   mkAgentMessage 1 (MToolResult (mkToolResultMessage "t1" "read" [TextContent "x<y" ""] false 7))].

Lemma stable_ex f lit : FormatFloat f = Some lit -> scanNumber lit = Some (lit, "") -> ParseFloat lit = Ok f -> stable f.
Proof. intros. by exists lit. Qed.
Ltac stable_tac := eapply stable_ex; [vm_compute; reflexivity|vm_compute; reflexivity|vm_compute; reflexivity].

Lemma args_plain : plain (AMap args).
Proof.
  apply plain_map; intros k x Hx; unfold args in Hx.
  - apply lookup_insert_Some in Hx as [[<- <-]|[_ Hx]]; [reflexivity|]. apply lookup_singleton_Some in Hx as [<- <-]. reflexivity.
  - apply lookup_insert_Some in Hx as [[<- <-]|[_ Hx]]; [constructor; reflexivity|]. apply lookup_singleton_Some in Hx as [<- <-]. constructor. stable_tac.
Qed.

Lemma args_shallow : shallow (maxNestingDepth - 3) args.
Proof. intros j Hj. vm_compute in Hj. injection Hj as [= <-]. apply leb_complete. vm_compute. reflexivity. Qed.

Lemma usage_ok : usageOk (toAssistantUsageRecord usage).
Proof.
  assert (H : forall n, (0 <= n < 100)%Z -> int64 n) by (unfold int64; lia).
  unfold usageOk, stableCost. cbn [usage toAssistantUsageRecord us_Input us_Output us_CacheRead us_CacheWrite us_TotalTokens us_Cost
    au_InputTokens au_OutputTokens au_CacheReadTokens au_CacheWriteTokens au_TotalTokens au_Cost ac_Input ac_Output ac_CacheRead ac_CacheWrite ac_Total
    cost_Input cost_Output cost_CacheRead cost_CacheWrite cost_Total].
  split_and!; first [apply H; lia|stable_tac].
Qed.

Definition called : Message := MAssistant (mkAssistantMessage [ThinkingContent "hm" "sig" false; ToolCallBlock (mkToolCall "t1" "read" args "")]
  "anthropic-messages" "anthropic" "m-1" usage "toolUse" "" 6).

Lemma called_recordable : recordableMessage called.
Proof.
  split; [|split; [exact usage_ok|unfold int64; cbn [am_Timestamp]; lia]].
  apply Forall_cons. split; [done|]. apply Forall_singleton. split; [done|]. split; [exact args_plain|exact args_shallow].
Qed.

Lemma conversation_recordable : Forall (fun m => recordableMessage (ag_Message m)) conversation.
Proof.
  apply Forall_cons. split; [split; [by repeat constructor|unfold int64; cbn [um_Timestamp]; lia]|].
  apply Forall_cons. split; [exact called_recordable|]. apply Forall_singleton.
  split; [by apply Forall_singleton|unfold int64; cbn [tr_Timestamp]; lia].
Qed.

Lemma record_roundtrip_witness :
  recordableMessage called /\ exists rec, AgentMessageToRecord marshalErr (mkAgentMessage 1 called) = Ok rec.
Proof.
  split; [exact called_recordable|].
  destruct (record_roundtrip marshalErr jsonErr (mkAgentMessage 1 called) called_recordable) as (rec & E & _). by exists rec.
Defined.

Lemma saved_log_resumes_witness :
  ascend 1 conversation /\ exists records warns, recordsOf marshalErr conversation = Ok records /\
    validateAndDecodeResumeLog (RecordToAgentMessage jsonErr) {["read"]} records = Ok (map recorded conversation, warns).
Proof.
  split; [by repeat split|]. apply (saved_log_resumes marshalErr jsonErr {["read"]} conversation); [exact conversation_recordable|by repeat split].
Defined.

(** The text of the records. *)
Example user_record :
  AgentMessageToRecord marshalErr (mkAgentMessage 1 (MUser (mkUserMessage [TextContent "read" "s"; TextContent "a<b" ""] 5))) =
  Ok (mkAgentMessageRecord 1 "user" (quoted "{'text':'read\na\u003cb','has_text_block':true,'timestamp':5}")).
Proof. vm_compute. reflexivity. Qed.

(** A message with an image cannot be recorded as a user's. *)
Example user_image :
  AgentMessageToRecord marshalErr (mkAgentMessage 1 (MUser (mkUserMessage [ImageContent "d" "image/png"] 5))) =
  Err (ErrText "unsupported user content block type *ai.ImageContent").
Proof. vm_compute. reflexivity. Qed.

(** What was said by a provider is no longer known to be its own: its thinking
    is sent back to the same model as plain text, without the signature. *)
Example provider_lost :
  let model := mkModel "m-1" "M" "anthropic-messages" "anthropic" true [] (mkModelCost (float_of 0) (float_of 0) (float_of 0) (float_of 0)) true 1 1 ∅ None in
  let said := mkAssistantMessage [ThinkingContent "hm" "sig" false] "anthropic-messages" "anthropic" "m-1" usage "stop" "" 6 in
  let sent m := match m with MAssistant m => am_Content <$> (transformAssistantMessage model None m ∅).1 | _ => None end in
  let back := rec <-? AgentMessageToRecord marshalErr (mkAgentMessage 1 (MAssistant said)); RecordToAgentMessage jsonErr rec in
  sent (MAssistant said) = Some [ThinkingContent "hm" "sig" false] /\
  match back with Ok m => sent (ag_Message m) | Err _ => None end = Some [TextContent "hm" ""].
Proof. vm_compute. done. Qed.
End Sample.
