(* ===== verification/OpenAI.v ===== *)
(** * OpenAI: the client of the Chat Completions protocol

    internal/ai/provider/openai: the differences between the models (compat.go),
    the request (request.go), the wire types, errors, usage, the accumulator of
    the event stream (sse_parser.go) and a call of the provider (stream.go) over
    the scanner of Sse, up to the events it sends to the caller's stream. *)

From Stdlib Require Import Ascii String.
From S2P Require Import Prelude GoStrings GoText GoFloat AiTypes NativeDriver Sse GoJson GoJsonText Options EventStream Providers GoStruct ToolJson Anthropic.

Local Open Scope string_scope.
Local Open Scope list_scope.
Local Open Scope stdpp_scope.
Local Open Scope go_scope.

Definition apiName : string := "openai-completions".

(** ** compat.go *)

Definition boolVal (b : option bool) : bool := default false b.
Definition compat (f : ModelCompat -> option bool) (model : Model) : bool :=
  match mo_Compat model with Some c => boolVal (f c) | None => false end.

Definition systemRole (model : Model) : string := if compat SupportsDeveloperRole model then "developer" else "system".
Definition shouldIncludeStore : Model -> bool := compat SupportsStore.
Definition shouldRequestStreamUsage (model : Model) : bool :=
  match mo_Compat model with Some c => default true (SupportsUsageInStreaming c) | None => true end.
Definition useMaxCompletionTokens (model : Model) : bool :=
  match mo_Compat model with
  | Some c => if bool_decide (MaxTokensField c <> "") then bool_decide (MaxTokensField c = "max_completion_tokens") else true
  | None => true
  end.
Definition supportsStrictMode : Model -> bool := compat SupportsStrictMode.
Definition requiresToolResultName : Model -> bool := compat RequiresToolResultName.
Definition requiresAssistantAfterToolResult : Model -> bool := compat RequiresAssistantAfterToolResult.
Definition requiresThinkingAsText : Model -> bool := compat RequiresThinkingAsText.
Definition requiresMistralToolIDs : Model -> bool := compat RequiresMistralToolIDs.

(** The first 9 of the 10 hexadecimal digits of the 5 random bytes; [None]: crypto/rand fails. *)
Definition hex2 (b : Z) : string := ((if bool_decide (b < 16)%Z then "0" else "") +:+ hex b)%string.
Definition generateMistralToolID (bytes : option (list Z)) : string :=
  match bytes with
  | None => "a00000000"
  | Some l => substring 0 9 (foldr (fun b rest => hex2 b +:+ rest) "" l)
  end.

(** ** types_wire.go: requests *)

Record imageURL : Type := mkImageURL { iu_URL : string; iu_Detail : string }.
Record contentPart : Type := mkContentPart { cp_Type : string; cp_Text : string; cp_ImageURL : option imageURL }.

(** What [Content any] may hold. *)
Inductive chatContent : Type := CNil | CString (s : string) | CParts (l : list contentPart).

Record functionCall : Type := mkFunctionCall { fc_Name : string; fc_Arguments : string }.
Record toolCall : Type := mkToolCallWire { wc_ID : string; wc_Type : string; wc_Function : functionCall; wc_Index : option Z }.

Record chatMessage : Type := mkChatMessage {
  cm_Role : string; cm_Content : chatContent; cm_Name : string; cm_ToolCalls : list toolCall; cm_ToolCallID : string;
}.

(** [Parameters] is the text of a raw message. *)
Record chatFunction : Type := mkChatFunction { cf_Name : string; cf_Description : string; cf_Parameters : string; cf_Strict : option bool }.
Record chatTool : Type := mkChatTool { ct_Type : string; ct_Function : chatFunction }.
Record streamOptions : Type := mkStreamOpts { sp_IncludeUsage : bool }.

Record chatRequest : Type := mkChatRequest {
  cq_Model : string; cq_Messages : list chatMessage; cq_Tools : list chatTool; cq_Stream : bool;
  cq_StreamOptions : option streamOptions; cq_MaxTokens : option Z; cq_MaxCompletionTokens : option Z;
  cq_ReasoningEffort : string; cq_Store : option bool; cq_Temperature : option float64; cq_TopP : option float64;
  cq_Metadata : gmap string any;
}.

(** How encoding/json marshals them; [None] is its error.  A raw message is
    written as the value it spells. *)
Definition imageURLJson (u : imageURL) : json := JObject ([("url", JString (iu_URL u))] ++ GoStruct.omitempty "detail" (iu_Detail u)).
Definition contentPartJson (p : contentPart) : json :=
  JObject ([("type", JString (cp_Type p))] ++ GoStruct.omitempty "text" (cp_Text p) ++ GoStruct.omitnil "image_url" (imageURLJson <$> cp_ImageURL p)).
Definition contentJson (c : chatContent) : json :=
  match c with CNil => JNull | CString s => JString s | CParts l => JArray (contentPartJson <$> l) end.
Definition functionCallJson (f : functionCall) : json :=
  JObject (GoStruct.omitempty "name" (fc_Name f) ++ GoStruct.omitempty "arguments" (fc_Arguments f)).
Definition toolCallJson (c : toolCall) : json :=
  JObject (GoStruct.omitempty "id" (wc_ID c) ++ GoStruct.omitempty "type" (wc_Type c) ++ [("function", functionCallJson (wc_Function c))] ++
    GoStruct.omitnil "index" (numLit <$> wc_Index c)).
(** A slice with omitempty. *)
Definition omitslice {A} (name : string) (f : A -> json) (l : list A) : list (string * json) :=
  match l with [] => [] | _ => [(name, JArray (f <$> l))] end.
Definition chatMessageJson (m : chatMessage) : json :=
  JObject ([("role", JString (cm_Role m)); ("content", contentJson (cm_Content m))] ++ GoStruct.omitempty "name" (cm_Name m) ++
    omitslice "tool_calls" toolCallJson (cm_ToolCalls m) ++ GoStruct.omitempty "tool_call_id" (cm_ToolCallID m)).
Definition chatToolJson (t : chatTool) : option json :=
  let f := ct_Function t in
  params ← (if bool_decide (cf_Parameters f = "") then Some [] else (fun j => [("parameters", j)]) <$> parse (cf_Parameters f));
  Some (JObject [("type", JString (ct_Type t)); ("function", JObject ([("name", JString (cf_Name f))] ++
    GoStruct.omitempty "description" (cf_Description f) ++ params ++ GoStruct.omitnil "strict" (JBool <$> cf_Strict f)))]).
Definition omitfloat (name : string) (f : option float64) : option (list (string * json)) :=
  match f with Some f => (fun j => [(name, j)]) <$> floatLit f | None => Some [] end.
Definition chatRequestJson (r : chatRequest) : option json :=
  tools ← mapM chatToolJson (cq_Tools r);
  temperature ← omitfloat "temperature" (cq_Temperature r);
  topP ← omitfloat "top_p" (cq_TopP r);
  metadata ← (if bool_decide (cq_Metadata r = ∅) then Some [] else (fun j => [("metadata", j)]) <$> ofMap (cq_Metadata r));
  Some (JObject ([("model", JString (cq_Model r)); ("messages", match cq_Messages r with [] => JNull | l => JArray (chatMessageJson <$> l) end)] ++
    omitslice "tools" id tools ++ [("stream", JBool (cq_Stream r))] ++
    GoStruct.omitnil "stream_options" ((fun s => JObject [("include_usage", JBool (sp_IncludeUsage s))]) <$> cq_StreamOptions r) ++
    GoStruct.omitnil "max_tokens" (numLit <$> cq_MaxTokens r) ++ GoStruct.omitnil "max_completion_tokens" (numLit <$> cq_MaxCompletionTokens r) ++
    GoStruct.omitempty "reasoning_effort" (cq_ReasoningEffort r) ++ GoStruct.omitnil "store" (JBool <$> cq_Store r) ++
    temperature ++ topP ++ metadata)).

(** ** types_wire.go: chunks *)

Record promptTokensDetails : Type := mkPromptDetails { pd_CachedTokens : Z }.
Record chunkUsage : Type := mkChunkUsage {
  cu_PromptTokens : Z; cu_CompletionTokens : Z; cu_TotalTokens : Z; cu_PromptTokensDetails : option promptTokensDetails;
}.
Record chunkDelta : Type := mkChunkDelta {
  cd_Role : string; cd_Content : option string; cd_ToolCalls : option (list toolCall); cd_Reasoning : option string;
}.
Record chunkChoice : Type := mkChunkChoice { cc_Index : Z; cc_Delta : chunkDelta; cc_FinishReason : option string }.
Record chatChunk : Type := mkChatChunk {
  ck_ID : string; ck_Object : string; ck_Choices : option (list chunkChoice); ck_Usage : option chunkUsage;
}.

Definition zeroFunction : functionCall := mkFunctionCall "" "".
Definition zeroCall : toolCall := mkToolCallWire "" "" zeroFunction None.
Definition zeroDelta : chunkDelta := mkChunkDelta "" None None None.
Definition zeroChoice : chunkChoice := mkChunkChoice 0 zeroDelta None.
Definition zeroChunk : chatChunk := mkChatChunk "" "" None None.

Definition dFunctionCall : decoder functionCall := dStruct (fun ms x =>
  n ← field "name" dString ms (fc_Name x);
  a ← field "arguments" dString ms (fc_Arguments x);
  Some (mkFunctionCall n a)).
Definition dToolCall : decoder toolCall := dStruct (fun ms x =>
  i ← field "id" dString ms (wc_ID x);
  t ← field "type" dString ms (wc_Type x);
  f ← field "function" dFunctionCall ms (wc_Function x);
  n ← field "index" (dPtr 0%Z dInt) ms (wc_Index x);
  Some (mkToolCallWire i t f n)).
Definition dChunkDelta : decoder chunkDelta := dStruct (fun ms x =>
  r ← field "role" dString ms (cd_Role x);
  c ← field "content" (dPtr "" dString) ms (cd_Content x);
  t ← field "tool_calls" (dSlice zeroCall dToolCall) ms (cd_ToolCalls x);
  s ← field "reasoning" (dPtr "" dString) ms (cd_Reasoning x);
  Some (mkChunkDelta r c t s)).
Definition dChunkChoice : decoder chunkChoice := dStruct (fun ms x =>
  i ← field "index" dInt ms (cc_Index x);
  d ← field "delta" dChunkDelta ms (cc_Delta x);
  f ← field "finish_reason" (dPtr "" dString) ms (cc_FinishReason x);
  Some (mkChunkChoice i d f)).
Definition dPromptDetails : decoder promptTokensDetails := dStruct (fun ms x =>
  c ← field "cached_tokens" dInt ms (pd_CachedTokens x);
  Some (mkPromptDetails c)).
Definition dChunkUsage : decoder chunkUsage := dStruct (fun ms x =>
  p ← field "prompt_tokens" dInt ms (cu_PromptTokens x);
  c ← field "completion_tokens" dInt ms (cu_CompletionTokens x);
  t ← field "total_tokens" dInt ms (cu_TotalTokens x);
  d ← field "prompt_tokens_details" (dPtr (mkPromptDetails 0) dPromptDetails) ms (cu_PromptTokensDetails x);
  Some (mkChunkUsage p c t d)).
Definition dChatChunk : decoder chatChunk := dStruct (fun ms x =>
  i ← field "id" dString ms (ck_ID x);
  o ← field "object" dString ms (ck_Object x);
  c ← field "choices" (dSlice zeroChoice dChunkChoice) ms (ck_Choices x);
  u ← field "usage" (dPtr (mkChunkUsage 0 0 0 None) dChunkUsage) ms (ck_Usage x);
  Some (mkChatChunk i o c u)).

Record apiErrorBody : Type := mkAPIErrorBody { ab_Message : string; ab_Type : string; ab_Code : string }.
Definition dAPIErrorBody : decoder apiErrorBody := dStruct (fun ms x =>
  m ← field "message" dString ms (ab_Message x);
  t ← field "type" dString ms (ab_Type x);
  c ← field "code" dString ms (ab_Code x);
  Some (mkAPIErrorBody m t c)).
(** [apiErrorResponse] has this field only. *)
Definition dAPIErrorResponse : decoder apiErrorBody := dStruct (fun ms x => field "error" dAPIErrorBody ms x).

(** ** errors.go and usage.go *)

(** [classifyHTTPError] is Anthropic's. *)
Definition classifyHTTPError : Z -> string -> ProviderErrorCode := Anthropic.classifyHTTPError.
Definition providerError (status : Z) (msg : string) : ProviderError :=
  mkProviderError (classifyHTTPError status msg) msg status "openai" 0.

Definition decodeErrorMessage (body : string) : string :=
  let trimmed := TrimSpace body in
  if bool_decide (trimmed = "") then "empty response body"
  else
    match Unmarshal dAPIErrorResponse (mkAPIErrorBody "" "" "") body with
    | Some e => if bool_decide (ab_Message e <> "") then ab_Message e else ("http error: " +:+ trimmed)%string
    | None => ("http error: " +:+ trimmed)%string
    end.

Definition mapUsage (u : chunkUsage) : Usage :=
  mkUsage (cu_PromptTokens u) (cu_CompletionTokens u)
    (match cu_PromptTokensDetails u with Some d => pd_CachedTokens d | None => 0%Z end) 0 (cu_TotalTokens u) zeroCost.

Definition mapStopReason (reason : string) : StopReason :=
  if bool_decide (reason = "tool_calls") then StopReasonToolUse
  else if bool_decide (reason = "length") then StopReasonLength
  else StopReasonStop.

(** ** request.go *)

Section Request.
(** The bytes of crypto/rand at each of its calls, and what encoding/json
    writes for arguments it refuses: the client ignores that error and sends
    the empty text. *)
Context (random : nat -> option (list Z)).

Definition textPart (s : string) : contentPart := mkContentPart "text" s None.

Definition userPart (b : ContentBlock) : option contentPart :=
  match b with
  | TextContent text _ => Some (textPart text)
  | ImageContent data mime => Some (mkContentPart "image_url" "" (Some (mkImageURL ("data:" +:+ mime +:+ ";base64," +:+ data)%string "")))
  | _ => None
  end.
Definition convertUserMessage (m : UserMessage) : chatMessage :=
  match um_Content m with
  | [TextContent text _] => mkChatMessage "user" (CString text) "" [] ""
  | blocks => mkChatMessage "user" (CParts (omap userPart blocks)) "" [] ""
  end.

(** The variables of the loop of [convertAssistantMessage], the map of tool
    ids, and the calls of crypto/rand so far. *)
Record assistantLoop : Type := mkAssistantLoop {
  al_text : string; al_parts : list contentPart; al_multiple : bool; al_calls : list toolCall;
  al_ids : gmap string string; al_rand : nat;
}.

Definition normalizeToolCallID (id : string) (model : Model) (n : nat) : string * nat :=
  if requiresMistralToolIDs model then (generateMistralToolID (random n), S n) else (id, n).

Definition argumentsText (args : gmap string any) : string := match ofMap args with Some j => render j | None => "" end.

Definition assistantStep (model : Model) (s : assistantLoop) (b : ContentBlock) : assistantLoop :=
  match b with
  | TextContent text _ =>
      if bool_decide (al_text s = "") && negb (al_multiple s) then
        mkAssistantLoop text (al_parts s) (al_multiple s) (al_calls s) (al_ids s) (al_rand s)
      else
        let first := if al_multiple s then [] else [textPart (al_text s)] in
        mkAssistantLoop (al_text s) (al_parts s ++ first ++ [textPart text]) true (al_calls s) (al_ids s) (al_rand s)
  | ThinkingContent th _ _ =>
      if requiresThinkingAsText model then
        let first := if negb (al_multiple s) && bool_decide (al_text s <> "") then [textPart (al_text s)] else [] in
        mkAssistantLoop (al_text s) (al_parts s ++ first ++ [textPart th]) true (al_calls s) (al_ids s) (al_rand s)
      else s
  | ToolCallBlock tc =>
      let '(tcID, n) := normalizeToolCallID (tc_ID tc) model (al_rand s) in
      let ids := if bool_decide (tcID <> tc_ID tc) then <[tc_ID tc := tcID]> (al_ids s) else al_ids s in
      mkAssistantLoop (al_text s) (al_parts s) (al_multiple s)
        (al_calls s ++ [mkToolCallWire tcID "function" (mkFunctionCall (tc_Name tc) (argumentsText (tc_Arguments tc))) None]) ids n
  | ImageContent _ _ => s
  end.

Definition convertAssistantMessage (m : AssistantMessage) (model : Model) (ids : gmap string string) (n : nat) :
    chatMessage * gmap string string * nat :=
  let s := foldl (assistantStep model) (mkAssistantLoop "" [] false [] ids n) (am_Content m) in
  let content := if al_multiple s then CParts (al_parts s) else if bool_decide (al_text s <> "") then CString (al_text s) else CNil in
  (mkChatMessage "assistant" content "" (al_calls s) "", al_ids s, al_rand s).

Definition toolResultContent (blocks : list ContentBlock) : string :=
  match blocks with
  | [TextContent text _] => text
  | _ => foldl (fun result b =>
           match b with
           | TextContent text _ => if bool_decide (result <> "") then (result +:+ String newline "" +:+ text)%string else text
           | _ => result
           end) "" blocks
  end.

Definition convertToolResult (m : ToolResultMessage) (model : Model) (ids : gmap string string) : list chatMessage :=
  let tcID := default (tr_ToolCallID m) (ids !! tr_ToolCallID m) in
  mkChatMessage "tool" (CString (toolResultContent (tr_Content m))) (if requiresToolResultName model then tr_ToolName m else "") [] tcID ::
  (if requiresAssistantAfterToolResult model then [mkChatMessage "assistant" (CString "Acknowledged.") "" [] ""] else []).

Fixpoint convertLoop (model : Model) (messages : list Message) (ids : gmap string string) (n : nat) : list chatMessage :=
  match messages with
  | [] => []
  | MUser m :: rest => convertUserMessage m :: convertLoop model rest ids n
  | MAssistant m :: rest =>
      let '(cm, ids, n) := convertAssistantMessage m model ids n in cm :: convertLoop model rest ids n
  | MToolResult m :: rest => convertToolResult m model ids ++ convertLoop model rest ids n
  end.
Definition convertMessages (messages : list Message) (model : Model) (system : string) : list chatMessage :=
  (if bool_decide (system <> "") then [mkChatMessage (systemRole model) (CString system) "" [] ""] else []) ++
  convertLoop model messages ∅ 0.

Definition convertTools (tools : list Tool) (model : Model) : list chatTool :=
  (fun t => mkChatTool "function" (mkChatFunction (tl_Name t) (tl_Description t) (tl_Parameters t)
              (if supportsStrictMode model then Some true else None))) <$> tools.

(** [requestParams] has this field only. *)
Definition buildRequest (model : Model) (llmCtx : NativeDriver.Context) (opts : StreamOptions) (reasoningEffort : string) : chatRequest :=
  let maxTokens := default (mo_MaxTokens model) (so_MaxTokens opts) in
  let maxTokens := if bool_decide (maxTokens <= 0)%Z then 1024%Z else maxTokens in
  let completion := useMaxCompletionTokens model in
  mkChatRequest (mo_ID model) (convertMessages (cx_Messages llmCtx) model (cx_SystemPrompt llmCtx)) (convertTools (cx_Tools llmCtx) model) true
    (if shouldRequestStreamUsage model then Some (mkStreamOpts true) else None)
    (if completion then None else Some maxTokens) (if completion then Some maxTokens else None)
    reasoningEffort (if shouldIncludeStore model then Some true else None) (so_Temperature opts) (so_TopP opts) (so_Metadata opts).
End Request.

(** ** sse_parser.go *)

Section Parser.
Context (jsonError : string -> string).
Context `{StreamingJSON}.
Context (now : nat -> Z) (model : Model).

Record toolStreamState : Type := mkToolStreamState { ts_id : string; ts_name : string; ts_parser : toolJSONParser }.

(** The accumulator, with the events sent to [es] and the calls of time.Now. *)
Record streamAccumulator : Type := mkAccumulator {
  sa_usage : Usage;
  sa_stopReason : StopReason;
  sa_contentBuf : string;
  sa_reasoningBuf : string;
  sa_toolStates : gmap Z toolStreamState;
  sa_finalToolCalls : list ToolCall;
  sa_started : bool;
  sa_sent : list AssistantMessageEvent;
  sa_ticks : nat;
}.

(** [api], [provider] and [modelID] are the model's throughout. *)
Definition newAccumulator (ticks : nat) : streamAccumulator :=
  mkAccumulator zeroUsage StopReasonStop "" "" ∅ [] false [] ticks.

Notation S_ := (M streamAccumulator).
Definition send (ev : AssistantMessageEvent) : S_ () := modify (fun a =>
  mkAccumulator (sa_usage a) (sa_stopReason a) (sa_contentBuf a) (sa_reasoningBuf a) (sa_toolStates a) (sa_finalToolCalls a) (sa_started a)
    (sa_sent a ++ [ev]) (sa_ticks a)).
Definition timeNow : S_ Z := fun a => (now (sa_ticks a),
  mkAccumulator (sa_usage a) (sa_stopReason a) (sa_contentBuf a) (sa_reasoningBuf a) (sa_toolStates a) (sa_finalToolCalls a) (sa_started a)
    (sa_sent a) (S (sa_ticks a))).
Definition set_started a :=
  mkAccumulator (sa_usage a) (sa_stopReason a) (sa_contentBuf a) (sa_reasoningBuf a) (sa_toolStates a) (sa_finalToolCalls a) true (sa_sent a) (sa_ticks a).
Definition set_usage u a :=
  mkAccumulator u (sa_stopReason a) (sa_contentBuf a) (sa_reasoningBuf a) (sa_toolStates a) (sa_finalToolCalls a) (sa_started a) (sa_sent a) (sa_ticks a).
Definition set_stopReason r a :=
  mkAccumulator (sa_usage a) r (sa_contentBuf a) (sa_reasoningBuf a) (sa_toolStates a) (sa_finalToolCalls a) (sa_started a) (sa_sent a) (sa_ticks a).
Definition add_content s a :=
  mkAccumulator (sa_usage a) (sa_stopReason a) (sa_contentBuf a +:+ s)%string (sa_reasoningBuf a) (sa_toolStates a) (sa_finalToolCalls a) (sa_started a) (sa_sent a) (sa_ticks a).
Definition add_reasoning s a :=
  mkAccumulator (sa_usage a) (sa_stopReason a) (sa_contentBuf a) (sa_reasoningBuf a +:+ s)%string (sa_toolStates a) (sa_finalToolCalls a) (sa_started a) (sa_sent a) (sa_ticks a).
Definition put_tool i t a :=
  mkAccumulator (sa_usage a) (sa_stopReason a) (sa_contentBuf a) (sa_reasoningBuf a) (<[i := t]> (sa_toolStates a)) (sa_finalToolCalls a) (sa_started a) (sa_sent a) (sa_ticks a).
Definition add_final tc a :=
  mkAccumulator (sa_usage a) (sa_stopReason a) (sa_contentBuf a) (sa_reasoningBuf a) (sa_toolStates a) (sa_finalToolCalls a ++ [tc]) (sa_started a) (sa_sent a) (sa_ticks a).

(** The message of [partial], without content. *)
Definition partial (a : streamAccumulator) (t : Z) : AssistantMessage :=
  mkAssistantMessage [] (mo_API model) (mo_Provider model) (mo_ID model) (sa_usage a) (sa_stopReason a) "" t.

Definition deltaEvent (typ : EventType) (index : Z) (delta : string) (tc : option ToolCall) : AssistantMessageEvent :=
  EventStream.mkEvent typ index delta "" tc None None None "".

Definition processToolCallDelta (tc : toolCall) : S_ (res streamErr ()) :=
  let idx := default 0%Z (wc_Index tc) in
  known ← gets (fun a => sa_toolStates a !! idx);
  state ← match known with
          | Some state => mret state
          | None =>
              let state := mkToolStreamState (wc_ID tc) (fc_Name (wc_Function tc)) newToolJSONParser in
              modify (put_tool idx state);;
              send (deltaEvent EventToolCallStart idx "" (Some (mkToolCall (wc_ID tc) (fc_Name (wc_Function tc)) ∅ "")));;
              mret state
          end;
  let chunk := fc_Arguments (wc_Function tc) in
  if bool_decide (chunk = "") then mret (Ok ())
  else
    let '(r, parser) := AppendDelta jsonError chunk (ts_parser state) in
    modify (put_tool idx (mkToolStreamState (ts_id state) (ts_name state) parser));;
    match r with
    | Err err => mret (Err (OtherErr err))
    | Ok partialArgs =>
        send (deltaEvent EventToolCallDelta idx chunk ((fun args => mkToolCall (ts_id state) (ts_name state) (default ∅ args) "") <$> partialArgs));;
        mret (Ok ())
    end.

Fixpoint processToolCalls (l : list toolCall) : S_ (res streamErr ()) :=
  match l with
  | [] => mret (Ok ())
  | tc :: l' => r ← processToolCallDelta tc; match r with Err e => mret (Err e) | Ok _ => processToolCalls l' end
  end.

Definition processChoice (choice : chunkChoice) : S_ (res streamErr ()) :=
  let d := cc_Delta choice in
  (match cd_Content d with
   | Some s => if bool_decide (s <> "") then modify (add_content s);; send (deltaEvent EventTextDelta 0 s None) else mret ()
   | None => mret ()
   end);;
  (match cd_Reasoning d with
   | Some s => if bool_decide (s <> "") then modify (add_reasoning s);; send (deltaEvent EventThinkingDelta 0 s None) else mret ()
   | None => mret ()
   end);;
  r ← processToolCalls (default [] (cd_ToolCalls d));
  match r with
  | Err e => mret (Err e)
  | Ok _ =>
      (match cc_FinishReason choice with Some reason => modify (set_stopReason (mapStopReason reason)) | None => mret () end);;
      mret (Ok ())
  end.

Fixpoint processChoices (l : list chunkChoice) : S_ (res streamErr ()) :=
  match l with
  | [] => mret (Ok ())
  | c :: l' => r ← processChoice c; match r with Err e => mret (Err e) | Ok _ => processChoices l' end
  end.

(** The body of the loop of [processStream] for a chunk. *)
Definition processChunk (chunk : chatChunk) : S_ (res streamErr ()) :=
  started ← gets sa_started;
  (if (started : bool) then mret ()
   else
     modify set_started;;
     t ← timeNow;
     a ← get;
     send (EventStream.mkEvent EventStart 0 "" "" None (Some (partial a t)) None None ""));;
  (match ck_Usage chunk with Some u => modify (set_usage (mapUsage u)) | None => mret () end);;
  processChoices (default [] (ck_Choices chunk)).

Definition finalizeOne (idx : Z) (state : toolStreamState) : S_ (res streamErr ()) :=
  match ParseFinal jsonError (ts_parser state) with
  | Err err =>
      mret (Err (ProviderErr (providerError 0 ("tool " +:+ quote (ts_name state) +:+ " (index " +:+ FormatInt idx +:+
                                                "): final argument JSON parse failed: " +:+ err)%string)))
  | Ok args =>
      let tc := mkToolCall (ts_id state) (ts_name state) args "" in
      modify (add_final tc);;
      send (deltaEvent EventToolCallEnd idx "" (Some tc));;
      mret (Ok ())
  end.
Fixpoint finalizeLoop (l : list (Z * toolStreamState)) : S_ (res streamErr ()) :=
  match l with
  | [] => mret (Ok ())
  | (idx, state) :: l' => r ← finalizeOne idx state; match r with Err e => mret (Err e) | Ok _ => finalizeLoop l' end
  end.
(** The states in the order of their indices. *)
Definition sortedStates (a : streamAccumulator) : list (Z * toolStreamState) :=
  omap (fun i => (fun s => (i, s)) <$> sa_toolStates a !! i) (sortInts (map_to_list (sa_toolStates a)).*1).
Definition finalizeToolCalls : S_ (res streamErr ()) := l ← gets sortedStates; finalizeLoop l.

Definition finalContent (a : streamAccumulator) : list ContentBlock :=
  (if bool_decide (sa_reasoningBuf a <> "") then [ThinkingContent (sa_reasoningBuf a) "" false] else []) ++
  (if bool_decide (sa_contentBuf a <> "") then [TextContent (sa_contentBuf a) ""] else []) ++
  (ToolCallBlock <$> sa_finalToolCalls a).

Definition finishStream : S_ (res streamErr ()) :=
  r ← finalizeToolCalls;
  match r with
  | Err e => mret (Err e)
  | Ok _ =>
      a ← get;
      t ← timeNow;
      let u := sa_usage a in
      let usage := mkUsage (us_Input u) (us_Output u) (us_CacheRead u) (us_CacheWrite u) (us_TotalTokens u) (CalculateCost model u) in
      let msg := mkAssistantMessage (finalContent a) (mo_API model) (mo_Provider model) (mo_ID model) usage (sa_stopReason a) "" t in
      send (EventStream.mkEvent EventDone 0 "" "" None None (Some msg) None (sa_stopReason a));;
      mret (Ok ())
  end.
End Parser.

(** ** stream.go *)

Section Stream.
Context (jsonError : string -> string) (marshalError : string).
Context `{StreamingJSON}.
Context (now : nat -> Z) (random : nat -> option (list Z)).
(** The order in which a range visits the entries of a header map. *)
Context (order : gmap string (list string) -> list (string * list string)).
(** The server, and the event before which the call's context is canceled. *)
Context (server : httpRequest -> httpOutcome) (canceledAt : option nat).

Definition applyHeaders (endpoint : ProviderEndpoint) (model : Model) (h : Header) : Header :=
  let h := header_Set "Content-Type" "application/json" h in
  let h := header_Set "Accept" "text/event-stream" h in
  let h := if bool_decide (ep_APIKey endpoint <> "") then header_Set "Authorization" ("Bearer " +:+ ep_APIKey endpoint)%string h else h in
  addAll (order (mo_Headers model)) (addAll (order (ep_Headers endpoint)) h).

(** The loop of [processStream] over the events; [n] of them came before,
    [None] when the fuel is too small. *)
Fixpoint processLoop (fuel : nat) (model : Model) (n : nat) (sc : Scanner) (a : streamAccumulator) :
    option (res streamErr () * streamAccumulator) :=
  match fuel with
  | O => None
  | S fuel' =>
      match Next sc with
      | None => None
      | Some (true, sc) =>
          if Anthropic.isCanceled canceledAt n
          then Some (Err (ProviderErr (mkProviderError ErrUnknown "request canceled" 0 "openai" 0)), a)
          else
            let data := TrimSpace (ev_data (UnsafeEvent sc)) in
            if bool_decide (data = "") then processLoop fuel' model (S n) sc a
            else if bool_decide (data = "[DONE]") then Some (finishStream jsonError now model a)
            else
              match Unmarshal dChatChunk zeroChunk data with
              | None => Some (Err (ProviderErr (providerError 0 ("parse chunk: " +:+ jsonError data)%string)), a)
              | Some chunk =>
                  match processChunk jsonError now model chunk a with
                  | (Err err, a) => Some (Err err, a)
                  | (Ok _, a) => processLoop fuel' model (S n) sc a
                  end
              end
      | Some (false, sc) =>
          match sc_err sc with
          | Some err => Some (Err (OtherErr ("sse scan: " +:+ Anthropic.scanError err)%string), a)
          | None => Some (finishStream jsonError now model a)
          end
      end
  end.

(** One round per byte of the body, and one for its end. *)
Definition processStream (body : string) (readErr : option string) (model : Model) (a : streamAccumulator) :
    option (res streamErr () * streamAccumulator) :=
  processLoop (S (String.length body)) model 0 (NewScanner body readErr) a.

Definition completionsRequest (endpoint : ProviderEndpoint) (model : Model) (body : json) : httpRequest :=
  mkRequest "POST" (trimSlashes (ep_BaseURL endpoint) +:+ "/chat/completions")%string (applyHeaders endpoint model ∅) (render body).

Definition runStream (endpoint : ProviderEndpoint) (model : Model) (llmCtx : NativeDriver.Context) (opts : StreamOptions)
    (reasoningEffort : string) (a : streamAccumulator) : option (res streamErr () * streamAccumulator) :=
  match chatRequestJson (buildRequest random model llmCtx opts reasoningEffort) with
  | None => Some (Err (OtherErr ("marshal request: " +:+ marshalError)%string), a)
  | Some body =>
      match server (completionsRequest endpoint model body) with
      | BadRequest err => Some (Err (OtherErr ("build request: " +:+ err)%string), a)
      | DoFailed err canceled =>
          Some (Err (if canceled then Anthropic.canceledError endpoint else OtherErr ("request failed: " +:+ err)%string), a)
      | Responds status respBody readErr =>
          if bool_decide (status < 200 \/ status >= 300)%Z
          then Some (Err (ProviderErr (providerError status (decodeErrorMessage (Anthropic.errorBody respBody)))), a)
          else processStream respBody readErr model a
      end
  end.

Definition sendErrorEvent (endpoint : ProviderEndpoint) (model : Model) (err : streamErr) : M streamAccumulator () :=
  let message := match err with ProviderErr e => pe_Message e | OtherErr text => text end in
  t ← timeNow now;
  send (EventStream.mkEvent EventError 0 "" "" None None None
          (Some (mkAssistantMessage [] (mo_API model) (ep_ProviderName endpoint) (mo_ID model) zeroUsage StopReasonError message t))
          StopReasonError).

(** The goroutine of [streamInternal], up to the close of the stream. *)
Definition streamInternal (endpoint : ProviderEndpoint) (model : Model) (llmCtx : NativeDriver.Context) (opts : StreamOptions)
    (reasoningEffort : string) : option streamAccumulator :=
  '(r, a) ← runStream endpoint model llmCtx opts reasoningEffort (newAccumulator 0);
  match r with
  | Ok _ => Some a
  | Err err => Some (snd (sendErrorEvent endpoint model err a))
  end.

Definition Stream (endpoint : ProviderEndpoint) (model : Model) (llmCtx : NativeDriver.Context) (opts : StreamOptions) :
    option streamAccumulator :=
  streamInternal endpoint model llmCtx opts "".

Definition withMaxTokens (n : Z) (base : StreamOptions) : StreamOptions :=
  mkStreamOptions (so_Temperature base) (so_TopP base) (so_TopK base) (Some n) (so_APIKey base) (so_SessionID base)
    (so_CacheRetention base) (so_Headers base) (so_MaxRetryDelayMs base) (so_Metadata base) (so_OnPayload base).

Definition StreamSimple (endpoint : ProviderEndpoint) (model : Model) (llmCtx : NativeDriver.Context) (opts : SimpleStreamOptions) :
    option streamAccumulator :=
  let base := BuildBaseOptions model (Some opts) in
  let maxTok := default (mo_MaxTokens model) (so_MaxTokens base) in
  if compat SupportsReasoningEffort model then
    let effort := default "" (mo_Compat model ≫= (fun c => ReasoningEffortMap c !! sso_Reasoning opts)) in
    streamInternal endpoint model llmCtx (withMaxTokens maxTok base) effort
  else if mo_Reasoning model then
    let maxTokens := (AdjustMaxTokensForThinking maxTok (mo_MaxTokens model) (sso_Reasoning opts) (sso_ThinkingBudgets opts)).1 in
    streamInternal endpoint model llmCtx (withMaxTokens maxTokens base) ""
  else streamInternal endpoint model llmCtx (withMaxTokens maxTok base) "".
End Stream.

(** ** provider.go *)

Definition EndpointFromConfig (baseURL apiKey : string) : ProviderEndpoint :=
  mkProviderEndpoint "openai" (if bool_decide (baseURL = "") then "https://api.openai.com/v1" else baseURL) apiKey ∅ ∅.
