(* ===== verification/OpenAIStream.v ===== *)
(** * OpenAIStream: the accumulator and the calls

    What the accumulator holds after any sequence of chunks, and with the
    scanner of Sse what a call delivers. *)

From Stdlib Require Import Ascii String.
From S2P Require Import Prelude GoStrings GoText GoFloat AiTypes NativeDriver Sse GoJson GoJsonText Options EventStream Providers GoStruct ToolJson Anthropic AnthropicProps AnthropicStream OpenAI.

Local Open Scope string_scope.
Local Open Scope list_scope.
Local Open Scope stdpp_scope.
Local Open Scope go_scope.

#[local] Arguments ToValidUTF8 : simpl never.
#[local] Arguments numLit : simpl never.
#[local] Arguments matchesField : simpl never.

(** ** The text of a chunk

    Tool calls are written as in requests; absent members are left out, but for
    the reason to stop, which is null. *)

Definition strOrNull (s : option string) : json := match s with Some s => JString s | None => JNull end.
Definition callsJson (l : list toolCall) : json := JArray (map toolCallJson l).
Definition deltaJson (d : chunkDelta) : json :=
  JObject (GoStruct.omitempty "role" (cd_Role d) ++ GoStruct.omitnil "content" (JString <$> cd_Content d) ++
    GoStruct.omitnil "tool_calls" (callsJson <$> cd_ToolCalls d) ++ GoStruct.omitnil "reasoning" (JString <$> cd_Reasoning d)).
Definition choiceJson (c : chunkChoice) : json :=
  JObject [("index", numLit (cc_Index c)); ("delta", deltaJson (cc_Delta c)); ("finish_reason", strOrNull (cc_FinishReason c))].
Definition choicesJson (l : list chunkChoice) : json := JArray (map choiceJson l).
Definition detailsJson (d : promptTokensDetails) : json := JObject [("cached_tokens", numLit (pd_CachedTokens d))].
Definition chunkUsageJson (u : chunkUsage) : json :=
  JObject ([("prompt_tokens", numLit (cu_PromptTokens u))] ++ [("completion_tokens", numLit (cu_CompletionTokens u))] ++
    [("total_tokens", numLit (cu_TotalTokens u))] ++
    GoStruct.omitnil "prompt_tokens_details" (detailsJson <$> cu_PromptTokensDetails u)).
Definition chunkJson (c : chatChunk) : json :=
  JObject ([("id", JString (ck_ID c))] ++ [("object", JString (ck_Object c))] ++ GoStruct.omitnil "choices" (choicesJson <$> ck_Choices c) ++
    GoStruct.omitnil "usage" (chunkUsageJson <$> ck_Usage c)).

(** Texts in UTF-8, numbers of 64 bits. *)
Definition onSome {A} (P : A -> Prop) (o : option A) : Prop := forall a, o = Some a -> P a.
Definition okCall (c : toolCall) : Prop :=
  validText (wc_ID c) /\ validText (wc_Type c) /\ validText (fc_Name (wc_Function c)) /\ validText (fc_Arguments (wc_Function c)) /\
  onSome int64 (wc_Index c).
Definition okDelta (d : chunkDelta) : Prop :=
  validText (cd_Role d) /\ onSome validText (cd_Content d) /\ onSome (Forall okCall) (cd_ToolCalls d) /\ onSome validText (cd_Reasoning d).
Definition okChoice (c : chunkChoice) : Prop := int64 (cc_Index c) /\ okDelta (cc_Delta c) /\ onSome validText (cc_FinishReason c).
Definition okChunkUsage (u : chunkUsage) : Prop :=
  int64 (cu_PromptTokens u) /\ int64 (cu_CompletionTokens u) /\ int64 (cu_TotalTokens u) /\
  onSome (fun d => int64 (pd_CachedTokens d)) (cu_PromptTokensDetails u).
Definition okChunk (c : chatChunk) : Prop :=
  validText (ck_ID c) /\ validText (ck_Object c) /\ onSome (Forall okChoice) (ck_Choices c) /\ onSome okChunkUsage (ck_Usage c).

(** ** How it is decoded *)

(** [d] reads from [j] the value [x]. *)
Definition readsAs {A} (d : decoder A) (zero : A) (j : json) (x : A) : Prop := d (validJson j) zero = Some x.

Lemma dPtr_reads {A} (d : decoder A) zero j a : readsAs d zero j a -> validJson j <> JNull -> dPtr zero d (validJson j) None = Some (Some a).
Proof. unfold readsAs, dPtr. change (default zero None) with zero. intros ->. by destruct (validJson j). Qed.

Lemma field_omitnil {A} name (d : decoder A) zero k (f : A -> json) (o : option A) ms :
  matchesField name (ToValidUTF8 k) = true -> (forall a, validJson (f a) <> JNull) -> onSome (fun a => readsAs d zero (f a) a) o ->
  field name (dPtr zero d) (map valid1 (GoStruct.omitnil k (f <$> o)) ++ ms) None = field name (dPtr zero d) ms o.
Proof. intros Hk Hv Ho. destruct o as [a|]; [|done]. simpl. rewrite Hk. by rewrite (dPtr_reads d zero (f a) a (Ho a eq_refl) (Hv a)). Qed.

Lemma dElems_map {A} zero (d : decoder A) f l :
  Forall (fun a => readsAs d zero (f a) a) l -> dElems zero d (map validJson (map f l)) [] = Some l.
Proof.
  induction 1 as [|a l Ha _ IH]; [done|]. simpl. unfold readsAs in Ha. rewrite Ha. simpl. by rewrite IH.
Qed.

Lemma field_slice {A} name (d : decoder A) zero k f (o : option (list A)) ms :
  matchesField name (ToValidUTF8 k) = true -> onSome (Forall (fun a => readsAs d zero (f a) a)) o ->
  field name (dSlice zero d) (map valid1 (GoStruct.omitnil k ((fun l => JArray (map f l)) <$> o)) ++ ms) None = field name (dSlice zero d) ms o.
Proof.
  intros Hk Ho. destruct o as [l|]; [|done]. simpl. rewrite Hk. simpl. by rewrite dElems_map by by apply Ho.
Qed.

Lemma readsAs_string s : validText s -> readsAs dString "" (JString s) s.
Proof. intros Hs. unfold readsAs. simpl. by rewrite Hs. Qed.
Lemma readsAs_int n : int64 n -> readsAs dInt 0%Z (numLit n) n.
Proof. intros Hn. unfold readsAs. by apply dInt_lit. Qed.

Ltac reading := unfold readsAs; rewrite validJson_object, ?map_app; unfold dStruct.
Ltac valid_tac := unfold validText in *; repeat match goal with E : ToValidUTF8 ?s = ?s |- _ => rewrite !E; clear E end.

Lemma functionCallJson_reads f : validText (fc_Name f) -> validText (fc_Arguments f) -> readsAs dFunctionCall zeroFunction (functionCallJson f) f.
Proof.
  intros H1 H2. unfold functionCallJson, dFunctionCall. reading. cbn [fc_Name fc_Arguments zeroFunction].
  rewrite <- (app_nil_r (map valid1 (GoStruct.omitempty "arguments" _))). struct_tac. valid_tac. by destruct f.
Qed.

Lemma toolCallJson_reads c : okCall c -> readsAs dToolCall zeroCall (toolCallJson c) c.
Proof.
  intros (H1 & H2 & H3 & H4 & H5). unfold toolCallJson, dToolCall. reading. cbn [wc_ID wc_Type wc_Function wc_Index zeroCall].
  rewrite <- (app_nil_r (map valid1 (GoStruct.omitnil "index" _))). struct_tac.
  rewrite (field_omitnil "index" dInt 0%Z "index" numLit); [|by vm_compute|done|intros i Hi; by apply readsAs_int, H5]. struct_tac.
  rewrite (functionCallJson_reads _ H3 H4). cbn [mbind option_bind]. struct_tac. valid_tac. by destruct c.
Qed.

Lemma strOrNull_reads o : onSome validText o -> dPtr "" dString (validJson (strOrNull o)) None = Some o.
Proof. intros Ho. destruct o as [s|]; [|done]. simpl. by rewrite (Ho s eq_refl). Qed.

Lemma deltaJson_reads d : okDelta d -> readsAs dChunkDelta zeroDelta (deltaJson d) d.
Proof.
  intros (H1 & H2 & H3 & H4). unfold deltaJson, dChunkDelta. reading. cbn [cd_Role cd_Content cd_ToolCalls cd_Reasoning zeroDelta].
  rewrite <- (app_nil_r (map valid1 (GoStruct.omitnil "reasoning" _))). struct_tac.
  rewrite (field_omitnil "reasoning" dString "" "reasoning" JString); [|by vm_compute|done|intros s Hs; by apply readsAs_string, H4]. struct_tac.
  rewrite (field_slice "tool_calls" dToolCall zeroCall "tool_calls" toolCallJson);
    [|by vm_compute|intros l Hl; eapply Forall_impl; [by apply H3|apply toolCallJson_reads]]. struct_tac.
  rewrite (field_omitnil "content" dString "" "content" JString); [|by vm_compute|done|intros s Hs; by apply readsAs_string, H2]. struct_tac.
  valid_tac. by destruct d.
Qed.

Lemma choiceJson_reads c : okChoice c -> readsAs dChunkChoice zeroChoice (choiceJson c) c.
Proof.
  intros (H1 & H2 & H3). unfold choiceJson, dChunkChoice. unfold readsAs. rewrite validJson_object. unfold dStruct.
  cbn [cc_Index cc_Delta cc_FinishReason zeroChoice map valid1 field]. match_fields. cbn iota.
  change (validJson (numLit (cc_Index c))) with (numLit (cc_Index c)). rewrite dInt_lit by done. cbn [mbind option_bind].
  rewrite (deltaJson_reads _ H2). cbn [mbind option_bind]. rewrite strOrNull_reads by done. cbn [mbind option_bind]. by destruct c.
Qed.

Lemma detailsJson_reads d : int64 (pd_CachedTokens d) -> readsAs dPromptDetails (mkPromptDetails 0) (detailsJson d) d.
Proof.
  intros Hd. unfold detailsJson, dPromptDetails. reading. cbn [pd_CachedTokens map valid1 field]. match_fields. cbn iota.
  change (validJson (numLit (pd_CachedTokens d))) with (numLit (pd_CachedTokens d)). rewrite dInt_lit by done. by destruct d.
Qed.

Lemma chunkUsageJson_reads u : okChunkUsage u -> readsAs dChunkUsage (mkChunkUsage 0 0 0 None) (chunkUsageJson u) u.
Proof.
  intros (H1 & H2 & H3 & H4). unfold chunkUsageJson, dChunkUsage. reading.
  cbn [cu_PromptTokens cu_CompletionTokens cu_TotalTokens cu_PromptTokensDetails].
  rewrite <- (app_nil_r (map valid1 (GoStruct.omitnil "prompt_tokens_details" _))). struct_tac.
  rewrite (field_omitnil "prompt_tokens_details" dPromptDetails (mkPromptDetails 0) "prompt_tokens_details" detailsJson);
    [|by vm_compute|done|intros d Hd; by apply detailsJson_reads, H4].
  struct_tac. by destruct u.
Qed.

Lemma chunkJson_reads c : okChunk c -> readsAs dChatChunk zeroChunk (chunkJson c) c.
Proof.
  intros (H1 & H2 & H3 & H4). unfold chunkJson, dChatChunk. reading. cbn [ck_ID ck_Object ck_Choices ck_Usage zeroChunk].
  rewrite <- (app_nil_r (map valid1 (GoStruct.omitnil "usage" _))). struct_tac.
  rewrite (field_omitnil "usage" dChunkUsage (mkChunkUsage 0 0 0 None) "usage" chunkUsageJson);
    [|by vm_compute|done|intros u Hu; by apply chunkUsageJson_reads, H4]. struct_tac.
  rewrite (field_slice "choices" dChunkChoice zeroChoice "choices" choiceJson);
    [|by vm_compute|intros l Hl; eapply Forall_impl; [by apply H3|apply choiceJson_reads]]. struct_tac.
  valid_tac. by destruct c.
Qed.

(** The numbers are literals, and seven arrays and objects are the most inside each other. *)
Definition wellFormed (n : nat) (j : json) : Prop := numbersOk j /\ numbersPrint j /\ (depth j <= n)%nat.

Definition membersOk (n : nat) (ms : list (string * json)) : Prop := Forall (fun kv => wellFormed n kv.2) ms.

Lemma wellFormed_object n ms : membersOk n ms -> wellFormed (S n) (JObject ms).
Proof.
  intros H. unfold wellFormed. cbn [numbersOk numbersPrint depth]. rewrite !Forall_map. split_and!.
  - eapply Forall_impl; [exact H|]. by intros [k v] (? & _).
  - eapply Forall_impl; [exact H|]. by intros [k v] (_ & ? & _).
  - apply le_n_S. induction H as [|[k v] ms (_ & _ & Hd) _ IH]; simpl in *; lia.
Qed.
Lemma wellFormed_array n l : Forall (wellFormed n) l -> wellFormed (S n) (JArray l).
Proof.
  intros H. unfold wellFormed. cbn [numbersOk numbersPrint depth]. rewrite !Forall_map. split_and!.
  - eapply Forall_impl; [exact H|]. by intros v (? & _).
  - eapply Forall_impl; [exact H|]. by intros v (_ & ? & _).
  - apply le_n_S. induction H as [|v l (_ & _ & Hd) _ IH]; simpl in *; lia.
Qed.
Lemma wellFormed_map {A} n (f : A -> json) l : (forall a, wellFormed n (f a)) -> wellFormed (S n) (JArray (map f l)).
Proof. intros H. apply wellFormed_array, Forall_map, Forall_true, H. Qed.
Lemma wellFormed_string n s : wellFormed n (JString s).
Proof. split_and!; simpl; [done|done|lia]. Qed.
Lemma wellFormed_lit n z : wellFormed n (numLit z).
Proof. split_and!; [apply numLit_ok|apply printable_int|rewrite depth_numLit; lia]. Qed.
Lemma membersOk_empty n k s : membersOk n (GoStruct.omitempty k s).
Proof. unfold GoStruct.omitempty. case_bool_decide; [constructor|]. apply Forall_singleton, wellFormed_string. Qed.
Lemma membersOk_omitnil {A} n k (f : A -> json) o : (forall a, wellFormed n (f a)) -> membersOk n (GoStruct.omitnil k (f <$> o)).
Proof. intros H. destruct o; [apply Forall_singleton, H|constructor]. Qed.
Lemma membersOk_cons n k j ms : wellFormed n j -> membersOk n ms -> membersOk n ((k, j) :: ms).
Proof. by constructor. Qed.
Lemma membersOk_nil n : membersOk n [].
Proof. constructor. Qed.
Lemma membersOk_app n ms ms' : membersOk n ms -> membersOk n ms' -> membersOk n (ms ++ ms').
Proof. apply Forall_app_2. Qed.
Lemma wellFormed_null n s : wellFormed n (strOrNull s).
Proof. destruct s; split_and!; first [done|simpl; lia]. Qed.

Create HintDb wf discriminated.
#[local] Hint Resolve wellFormed_object wellFormed_map wellFormed_string wellFormed_lit membersOk_empty membersOk_omitnil wellFormed_null
  membersOk_cons membersOk_nil membersOk_app : wf.

Lemma toolCallJson_wf c n : wellFormed (S (S n)) (toolCallJson c).
Proof. unfold toolCallJson, functionCallJson. eauto 10 with wf. Qed.
#[local] Hint Resolve toolCallJson_wf : wf.
Lemma callsJson_wf l n : wellFormed (S (S (S n))) (callsJson l).
Proof. unfold callsJson. auto with wf. Qed.
#[local] Hint Resolve callsJson_wf : wf.
Lemma choiceJson_wf c n : wellFormed (S (S (S (S (S n))))) (choiceJson c).
Proof. unfold choiceJson, deltaJson. auto 12 with wf. Qed.
#[local] Hint Resolve choiceJson_wf : wf.
Lemma choicesJson_wf l n : wellFormed (S (S (S (S (S (S n)))))) (choicesJson l).
Proof. unfold choicesJson. auto with wf. Qed.
Lemma detailsJson_wf d n : wellFormed (S n) (detailsJson d).
Proof. unfold detailsJson. auto with wf. Qed.
#[local] Hint Resolve choicesJson_wf detailsJson_wf : wf.
Lemma chunkUsageJson_wf u n : wellFormed (S (S n)) (chunkUsageJson u).
Proof. unfold chunkUsageJson. auto 12 with wf. Qed.
#[local] Hint Resolve chunkUsageJson_wf : wf.
Lemma chunkJson_wf c : wellFormed 7 (chunkJson c).
Proof. unfold chunkJson. auto 12 with wf. Qed.

(** ** What a chunk says, bit by bit *)

Inductive atom : Type :=
  | AChunk
  | AUsage (u : chunkUsage)
  | AText (s : string)
  | AReason (s : string)
  | ATool (t : toolCall)
  | AStop (reason : string).

Definition deltaAtoms (d : chunkDelta) : list atom :=
  option_list (AText <$> cd_Content d) ++ option_list (AReason <$> cd_Reasoning d) ++ (ATool <$> default [] (cd_ToolCalls d)).
Definition choiceAtoms (c : chunkChoice) : list atom := deltaAtoms (cc_Delta c) ++ option_list (AStop <$> cc_FinishReason c).
Definition chunkAtoms (c : chatChunk) : list atom :=
  AChunk :: option_list (AUsage <$> ck_Usage c) ++ flat_map choiceAtoms (default [] (ck_Choices c)).

(** The calls at an index, and their pieces of arguments. *)
Definition callIndex (t : toolCall) : Z := default 0%Z (wc_Index t).
Definition callsAt (i : Z) (l : list atom) : list toolCall :=
  omap (fun x => match x with ATool t => if bool_decide (callIndex t = i) then Some t else None | _ => None end) l.
Definition argPieces (ds : list toolCall) : list string := filter (.≠ "") ((fun d => fc_Arguments (wc_Function d)) <$> ds).

Definition textOf (x : atom) : option string := match x with AText s => Some s | _ => None end.
Definition reasonOf (x : atom) : option string := match x with AReason s => Some s | _ => None end.
Definition usageOf (x : atom) : option chunkUsage := match x with AUsage u => Some u | _ => None end.
Definition stopOf (x : atom) : option string := match x with AStop s => Some s | _ => None end.
Definition atomDelta (x : atom) : option (EventType * Z * string) :=
  match x with
  | AText s => if bool_decide (s = "") then None else Some (EventTextDelta, 0%Z, s)
  | AReason s => if bool_decide (s = "") then None else Some (EventThinkingDelta, 0%Z, s)
  | ATool t => if bool_decide (fc_Arguments (wc_Function t) = "") then None else Some (EventToolCallDelta, callIndex t, fc_Arguments (wc_Function t))
  | _ => None
  end.

(** The last one given. *)
Definition lastOr {A} (d : A) (l : list A) : A := List.last l d.

(** What the fields of the final message come to. *)
Definition saidText (l : list atom) : string := concatStrings (omap textOf l).
Definition saidReasoning (l : list atom) : string := concatStrings (omap reasonOf l).
Definition saidUsage (l : list atom) : Usage := lastOr zeroUsage (mapUsage <$> omap usageOf l).
Definition saidStop (l : list atom) : StopReason := lastOr StopReasonStop (mapStopReason <$> omap stopOf l).

Definition briefOf (ev : AssistantMessageEvent) : EventType * Z * string := (ae_Type ev, ae_ContentIndex ev, ae_Delta ev).

Section Parser.
Context (jsonError : string -> string).
Context `{StreamingJSON}.
Context (now : nat -> Z) (model : Model).

Notation S_ := (M streamAccumulator).

Definition stepAtom (x : atom) : S_ (res streamErr ()) :=
  match x with
  | AChunk =>
      started ← gets sa_started;
      (if (started : bool) then mret ()
       else
         modify set_started;;
         t ← timeNow now;
         a ← get;
         send (EventStream.mkEvent EventStart 0 "" "" None (Some (partial model a t)) None None ""));;
      mret (Ok ())
  | AUsage u => modify (set_usage (mapUsage u));; mret (Ok ())
  | AText s => (if bool_decide (s <> "") then modify (add_content s);; send (deltaEvent EventTextDelta 0 s None) else mret ());; mret (Ok ())
  | AReason s => (if bool_decide (s <> "") then modify (add_reasoning s);; send (deltaEvent EventThinkingDelta 0 s None) else mret ());; mret (Ok ())
  | ATool t => processToolCallDelta jsonError t
  | AStop r => modify (set_stopReason (mapStopReason r));; mret (Ok ())
  end.
Fixpoint runAtoms (l : list atom) : S_ (res streamErr ()) :=
  match l with
  | [] => mret (Ok ())
  | x :: l' => r ← stepAtom x; match r with Err e => mret (Err e) | Ok _ => runAtoms l' end
  end.

Lemma runAtoms_app l1 l2 a :
  runAtoms (l1 ++ l2) a = match runAtoms l1 a with (Err e, a) => (Err e, a) | (Ok _, a) => runAtoms l2 a end.
Proof.
  revert a. induction l1 as [|x l1 IH]; intros a; [done|]. cbn [app runAtoms]. rewrite !M_bind_eq.
  destruct (stepAtom x a) as [[u|e] a']; cbn [fst snd]; [apply IH|done].
Qed.

Lemma processToolCalls_atoms l a : processToolCalls jsonError l a = runAtoms (ATool <$> l) a.
Proof.
  revert a. induction l as [|t l IH]; intros a; [done|]. cbn [processToolCalls fmap list_fmap runAtoms stepAtom]. rewrite !M_bind_eq.
  destruct (processToolCallDelta _ t a) as [[u|e] a']; cbn [fst snd]; [apply IH|done].
Qed.

(** A step that is never an error. *)
Lemma runAtoms_one x a a' : stepAtom x a = (Ok (), a') -> runAtoms [x] a = (Ok (), a').
Proof. intros E. cbn [runAtoms]. by rewrite M_bind_eq, E. Qed.

Definition optionally {A} (f : A -> atom) (o : option A) (a : streamAccumulator) : streamAccumulator :=
  (runAtoms (option_list (f <$> o)) a).2.

Lemma optionally_some {A} (f : A -> atom) y a : optionally f (Some y) a = (stepAtom (f y) a).2.
Proof. unfold optionally. change (option_list (f <$> Some y)) with [f y]. cbn [runAtoms]. rewrite M_bind_eq. by destruct (stepAtom (f y) a) as [[]]. Qed.
Lemma optionally_none {A} (f : A -> atom) a : optionally f None a = a.
Proof. done. Qed.

Lemma stepAtom_ok x a : (forall t, x <> ATool t) -> exists a', stepAtom x a = (Ok (), a').
Proof. destruct x as [| | | |t|]; intros Ht; [..|by destruct (Ht t)|]; cbn [stepAtom]; rewrite !M_bind_eq; by eexists. Qed.

Lemma runAtoms_optionally {A} (f : A -> atom) o a :
  (forall y t, f y <> ATool t) -> runAtoms (option_list (f <$> o)) a = (Ok (), optionally f o a).
Proof.
  intros Hf. unfold optionally. destruct o as [y|]; [|done]. destruct (stepAtom_ok (f y) a (Hf y)) as [a' E]. 
  change (option_list (f <$> Some y)) with [f y]. by rewrite (runAtoms_one _ _ _ E).
Qed.

Lemma processChoice_atoms c a : processChoice jsonError c a = runAtoms (choiceAtoms c) a.
Proof.
  unfold choiceAtoms, deltaAtoms. rewrite <- !app_assoc, runAtoms_app, runAtoms_optionally by done.
  rewrite runAtoms_app, runAtoms_optionally by done. rewrite runAtoms_app, <- processToolCalls_atoms.
  unfold processChoice. rewrite !M_bind_eq. destruct c as [i [r t calls s] f]. cbn [cc_Delta cd_Content cd_Reasoning cd_ToolCalls cc_FinishReason].
  match goal with |- context [processToolCalls _ _ ?x] => set (a1 := x) end.
  assert (a1 = optionally AReason s (optionally AText t a)) as <-.
  { unfold a1. destruct t as [t|], s as [s|]; rewrite ?optionally_some, ?optionally_none; cbn [stepAtom]; rewrite ?M_bind_eq;
      repeat case_bool_decide; reflexivity. }
  destruct (processToolCalls _ _ a1) as [[u|e] a2]; cbn [fst snd]; [|done]. rewrite runAtoms_optionally by done. by destruct f.
Qed.

Lemma processChoices_atoms l a : processChoices jsonError l a = runAtoms (flat_map choiceAtoms l) a.
Proof.
  revert a. induction l as [|c l IH]; intros a; [done|]. cbn [processChoices flat_map]. rewrite M_bind_eq, processChoice_atoms, runAtoms_app.
  destruct (runAtoms (choiceAtoms c) a) as [[u|e] a']; cbn [fst snd]; [apply IH|done].
Qed.

Lemma processChunk_atoms c a : processChunk jsonError now model c a = runAtoms (chunkAtoms c) a.
Proof.
  unfold processChunk, chunkAtoms. change (AChunk :: ?l) with ([AChunk] ++ l). rewrite runAtoms_app.
  destruct (stepAtom_ok AChunk a ltac:(done)) as [a1 E]. rewrite (runAtoms_one _ _ _ E).
  rewrite runAtoms_app, runAtoms_optionally by done. rewrite <- processChoices_atoms, !M_bind_eq. f_equal.
  cbn [stepAtom] in E. rewrite !M_bind_eq in E. injection E as <-. by destruct (ck_Usage c).
Qed.
(** ** What the accumulator holds *)

(** The state of the calls of one index. *)
Definition stateOf (ds : list toolCall) : option toolStreamState :=
  match ds with
  | [] => None
  | d :: _ => Some (mkToolStreamState (wc_ID d) (fc_Name (wc_Function d))
                     (mkToolJSONParser (feedLexer NewLexer (argPieces ds)) (concatStrings (argPieces ds))))
  end.

Record after (l : list atom) (a : streamAccumulator) : Prop := {
  af_text : sa_contentBuf a = saidText l;
  af_reason : sa_reasoningBuf a = saidReasoning l;
  af_usage : sa_usage a = saidUsage l;
  af_stop : sa_stopReason a = saidStop l;
  af_tools : forall i, sa_toolStates a !! i = stateOf (callsAt i l);
  af_final : sa_finalToolCalls a = [];
  af_sent : Forall (fun ev => terminal ev = None) (sa_sent a);
  af_deltas : deltas (briefOf <$> sa_sent a) = omap atomDelta l;
}.

Lemma feedLexer_app l c1 c2 : feedLexer l (c1 ++ c2) = feedLexer (feedLexer l c1) c2.
Proof. revert l. induction c1 as [|c c1 IH]; intros l; [done|]. apply IH. Qed.
Lemma takes_app l c1 c2 : takes l (c1 ++ c2) <-> takes l c1 /\ takes (feedLexer l c1) c2.
Proof. revert l. induction c1 as [|c c1 IH]; intros l; simpl; [tauto|]. rewrite IH. tauto. Qed.

Lemma callsAt_app i l1 l2 : callsAt i (l1 ++ l2) = callsAt i l1 ++ callsAt i l2.
Proof. apply omap_app. Qed.
Lemma argPieces_app ds1 ds2 : argPieces (ds1 ++ ds2) = argPieces ds1 ++ argPieces ds2.
Proof. unfold argPieces. by rewrite fmap_app, filter_app. Qed.
Lemma callsAt_other i x : (forall t, x = ATool t -> callIndex t <> i) -> callsAt i [x] = [].
Proof. intros Hx. destruct x as [| | | |t|]; try done. unfold callsAt. cbn. by rewrite bool_decide_false by by apply Hx. Qed.
Lemma callsAt_tool t : callsAt (callIndex t) [ATool t] = [t].
Proof. unfold callsAt. cbn. by rewrite bool_decide_true. Qed.

Lemma lastOr_snoc {A} (d x : A) l : lastOr d (l ++ [x]) = x.
Proof. apply last_last. Qed.

Lemma deltas_snoc evs ev : deltas (briefOf <$> (evs ++ [ev])) = deltas (briefOf <$> evs) ++ (if isDelta (briefOf ev) then [briefOf ev] else []).
Proof. rewrite fmap_app. unfold deltas. rewrite filter_app. f_equal. cbn. unfold filter, list_filter. destruct (isDelta (briefOf ev)); by case_decide. Qed.

Lemma after_new ticks : after [] (newAccumulator ticks).
Proof. by split. Qed.

(** A step that touches no tool call. *)
Lemma after_plain l x a : (forall t, x <> ATool t) -> after l a -> exists a', stepAtom x a = (Ok (), a') /\ after (l ++ [x]) a'.
Proof.
  intros Hx Ha. destruct (stepAtom_ok x a Hx) as [a' E]. exists a'. split; [done|].
  assert (Hc : forall i, callsAt i (l ++ [x]) = callsAt i l).
  { intros i. rewrite callsAt_app, callsAt_other, app_nil_r; [done|]. intros t ->. by destruct (Hx t). }
  destruct Ha as [H1 H2 H3 H4 H5 H6 H7 H8].
  destruct x as [|u|s|s|t|r]; [| | | |by destruct (Hx t)|]; cbn [stepAtom] in E; rewrite !M_bind_eq in E;
    injection E as <-; try (destruct (decide (s = "")) as [->|Hs]); try destruct (sa_started a);
    repeat first [rewrite (bool_decide_true (s <> "")) by done|rewrite bool_decide_false by congruence];
    (split; unfold saidText, saidReasoning, saidUsage, saidStop in *; rewrite ?omap_app, ?fmap_app;
     cbn [omap list_omap fmap list_fmap textOf reasonOf usageOf stopOf atomDelta];
     rewrite ?app_nil_r, ?lastOr_snoc, ?concatStrings_app, ?bool_decide_true, ?bool_decide_false by done; cbn [concatStrings foldr]; rewrite ?append_nil_r).
  all: try done.
  all: try (intros i; rewrite Hc; apply H5).
  all: rewrite ?M_bind_eq; cbn -[deltas].
  all: rewrite ?H1, ?H2; try done.
  all: try (apply Forall_app_2; [done|by apply Forall_singleton]).
  all: rewrite deltas_snoc, H8; cbn; rewrite ?bool_decide_false, ?app_nil_r by done; done.
Qed.

(** The fields a tool call leaves alone. *)
Definition rest (a : streamAccumulator) := (sa_contentBuf a, sa_reasoningBuf a, sa_usage a, sa_stopReason a, sa_finalToolCalls a).

Lemma after_calls l t a a' evs : after l a -> rest a' = rest a -> sa_sent a' = sa_sent a ++ evs ->
  Forall (fun ev => terminal ev = None) evs -> deltas (briefOf <$> evs) = option_list (atomDelta (ATool t)) ->
  (forall i, sa_toolStates a' !! i = stateOf (callsAt i (l ++ [ATool t]))) -> after (l ++ [ATool t]) a'.
Proof.
  intros [H1 H2 H3 H4 H5 H6 H7 H8] Hr Hs Ht Hd Htools. injection Hr as E1 E2 E3 E4 E5.
  unfold saidText, saidReasoning, saidUsage, saidStop in *.
  split; unfold saidText, saidReasoning, saidUsage, saidStop; rewrite ?omap_app; cbn [omap list_omap textOf reasonOf usageOf stopOf]; rewrite ?app_nil_r; try congruence.
  - rewrite Hs. by apply Forall_app_2.
  - rewrite Hs, fmap_app. unfold deltas in *. rewrite filter_app, H8, Hd. cbn [omap list_omap]. by destruct (atomDelta (ATool t)).
Qed.

Lemma argPieces_one t : argPieces [t] = if bool_decide (fc_Arguments (wc_Function t) = "") then [] else [fc_Arguments (wc_Function t)].
Proof. unfold argPieces. cbn. unfold filter, list_filter. case_bool_decide; by case_decide. Qed.

Lemma stateOf_snoc ds t : stateOf (ds ++ [t]) =
  Some (mkToolStreamState (wc_ID (hd t ds)) (fc_Name (wc_Function (hd t ds)))
         (mkToolJSONParser (feedLexer NewLexer (argPieces (ds ++ [t]))) (concatStrings (argPieces (ds ++ [t]))))).
Proof. by destruct ds. Qed.

(** The state that takes the piece of a call. *)
Definition current (ds : list toolCall) (t : toolCall) : toolStreamState :=
  mkToolStreamState (wc_ID (hd t ds)) (fc_Name (wc_Function (hd t ds)))
    (mkToolJSONParser (feedLexer NewLexer (argPieces ds)) (concatStrings (argPieces ds))).

Lemma stateOf_current ds t : default (current [] t) (stateOf ds) = current ds t.
Proof. by destruct ds. Qed.

Lemma tools_put l t a a' s : after l a -> sa_toolStates a' = <[callIndex t := s]> (sa_toolStates a) ->
  Some s = stateOf (callsAt (callIndex t) l ++ [t]) -> forall i, sa_toolStates a' !! i = stateOf (callsAt i (l ++ [ATool t])).
Proof.
  intros Ha -> Hs i. rewrite callsAt_app. destruct (decide (i = callIndex t)) as [->|Hi].
  - by rewrite callsAt_tool, lookup_insert_eq.
  - rewrite callsAt_other, app_nil_r by by intros ? [= <-]. rewrite lookup_insert_ne by done. apply (af_tools _ _ Ha).
Qed.

Lemma after_tool l t a : after l a -> takes NewLexer (argPieces (callsAt (callIndex t) (l ++ [ATool t]))) ->
  exists a', stepAtom (ATool t) a = (Ok (), a') /\ after (l ++ [ATool t]) a'.
Proof.
  intros Ha. rewrite callsAt_app, callsAt_tool, argPieces_app, takes_app. set (ds := callsAt (callIndex t) l). intros [_ Ht].
  cbn [stepAtom]. unfold processToolCallDelta. fold (callIndex t). rewrite M_bind_eq. unfold gets at 1. cbn [fst snd].
  rewrite (af_tools _ _ Ha). fold ds. rewrite M_bind_eq.
  set (open := match stateOf ds with Some _ => _ | None => _ end).
  assert (exists a1 evs, open a = (current ds t, a1) /\ rest a1 = rest a /\ sa_sent a1 = sa_sent a ++ evs /\ Forall (fun ev => terminal ev = None) evs /\
    deltas (briefOf <$> evs) = [] /\ sa_toolStates a1 = <[callIndex t := current ds t]> (sa_toolStates a)) as (a1 & evs & E & H1 & H2 & H3 & H4 & H5).
  { unfold open. destruct (stateOf ds) as [s|] eqn:Es.
    - exists a, []. pose proof (stateOf_current ds t) as Ec. rewrite Es in Ec. change (s = current ds t) in Ec. subst s. split_and!; [done|done|by rewrite app_nil_r|done|done|].
      symmetry. apply insert_id. by rewrite (af_tools _ _ Ha).
    - assert (ds = []) as -> by (by destruct ds). eexists _, [_]. split_and!; [reflexivity|done|reflexivity|by apply Forall_singleton|done|done]. }
  change (snd (gets (fun a => sa_toolStates a !! callIndex t) a)) with a. rewrite E. cbn [fst snd]. case_bool_decide as Hc.
  - exists a1. split; [done|]. apply (after_calls l t a a1 evs); [done..| |].
    + rewrite H4. cbn [atomDelta]. by rewrite bool_decide_true.
    + eapply tools_put; [done|exact H5|]. fold ds. rewrite stateOf_snoc, argPieces_app, argPieces_one, bool_decide_true, app_nil_r by done. done.
  - rewrite argPieces_one, bool_decide_false in Ht by done. destruct Ht as [Ht _].
    destruct (AppendDelta_takes jsonError (fc_Arguments (wc_Function t)) (ts_parser (current ds t)) Ht) as [args Ea]. rewrite Ea. cbn [fst snd].
    eexists. split; [reflexivity|]. apply (after_calls l t a _ (evs ++ [deltaEvent EventToolCallDelta (callIndex t) (fc_Arguments (wc_Function t))
      ((fun args => mkToolCall (ts_id (current ds t)) (ts_name (current ds t)) (default ∅ args) "") <$> args)])); [done|exact H1| | | |].
    + cbn. by rewrite H2, <- app_assoc.
    + apply Forall_app_2; [done|by apply Forall_singleton].
    + rewrite deltas_snoc, H4. cbn. by rewrite bool_decide_false.
    + eapply tools_put; [done|cbn; by rewrite H5, insert_insert_eq|]. fold ds.
      rewrite stateOf_snoc, argPieces_app, argPieces_one, bool_decide_false, feedLexer_app, concatStrings_app by done. cbn. by rewrite append_nil_r.
Qed.

Lemma runAtoms_after l' l a : after l a -> (forall i, takes NewLexer (argPieces (callsAt i (l ++ l')))) ->
  exists a', runAtoms l' a = (Ok (), a') /\ after (l ++ l') a'.
Proof.
  revert l a. induction l' as [|x l' IH]; intros l a Ha Ht; [exists a; by rewrite app_nil_r|].
  assert (exists a1, stepAtom x a = (Ok (), a1) /\ after (l ++ [x]) a1) as (a1 & E & Ha1).
  { destruct x as [| | | |t|]; try (by apply after_plain). apply after_tool; [done|].
    specialize (Ht (callIndex t)). change (ATool t :: l') with ([ATool t] ++ l') in Ht. rewrite app_assoc, callsAt_app, argPieces_app, takes_app in Ht. apply Ht. }
  destruct (IH (l ++ [x]) a1 Ha1) as (a' & E' & Ha'); [by rewrite <- app_assoc|]. exists a'. rewrite <- app_assoc in Ha'. split; [|done].
  cbn [runAtoms]. by rewrite M_bind_eq, E.
Qed.
(** ** The end of the stream *)

(** The calls of an index spell a tool call: the identity of the first, the
    arguments of all. *)
Definition spellsCall (ds : list toolCall) (tc : ToolCall) : Prop :=
  exists d args, head ds = Some d /\ takes NewLexer (argPieces ds) /\
    spells jsonError (concatStrings ((fun d => fc_Arguments (wc_Function d)) <$> ds)) args /\
    tc = mkToolCall (wc_ID d) (fc_Name (wc_Function d)) args "".

(** All tool calls of the chunks, by their indices. *)
Definition saysCalls (l : list atom) (calls : list (Z * ToolCall)) : Prop :=
  StronglySorted Z.lt calls.*1 /\ (forall i, i ∈ calls.*1 <-> callsAt i l <> []) /\
  Forall (fun c => spellsCall (callsAt c.1 l) c.2) calls.

Lemma concat_argPieces ds : concatStrings (argPieces ds) = concatStrings ((fun d => fc_Arguments (wc_Function d)) <$> ds).
Proof.
  induction ds as [|d ds IH]; [done|]. change (d :: ds) with ([d] ++ ds). rewrite argPieces_app, fmap_app, !concatStrings_app, IH, argPieces_one.
  f_equal. case_bool_decide as E; cbn; by rewrite ?E, ?append_nil_r.
Qed.

Lemma saysCalls_takes l calls i : saysCalls l calls -> takes NewLexer (argPieces (callsAt i l)).
Proof.
  intros (_ & Hi & Hc). destruct (callsAt i l) as [|d ds] eqn:E; [done|]. rewrite <- E.
  assert (i ∈ calls.*1) as ((j & tc) & -> & Hj)%list_elem_of_fmap by (apply Hi; by rewrite E).
  rewrite Forall_forall in Hc. destruct (Hc _ Hj) as (? & ? & _ & Ht & _). exact Ht.
Qed.

Definition finalized (i : Z) (tc : ToolCall) (a : streamAccumulator) : streamAccumulator :=
  (send (deltaEvent EventToolCallEnd i "" (Some tc)) (add_final tc a)).2.
Lemma finalizeOne_ok i id name parser args a : spells jsonError (tp_raw parser) args ->
  finalizeOne jsonError i (mkToolStreamState id name parser) a = (Ok (), finalized i (mkToolCall id name args "") a).
Proof. intros Hargs. unfold finalizeOne. cbn [ts_parser ts_id ts_name]. by rewrite (ParseFinal_spells jsonError parser args Hargs). Qed.

Lemma finalizeLoop_calls l calls (sts : gmap Z toolStreamState) a :
  (forall i, sts !! i = stateOf (callsAt i l)) -> Forall (fun c => spellsCall (callsAt c.1 l) c.2) calls ->
  exists a' evs, finalizeLoop jsonError (omap (fun i => (fun s => (i, s)) <$> sts !! i) calls.*1) a = (Ok (), a') /\
    sa_finalToolCalls a' = sa_finalToolCalls a ++ calls.*2 /\ sa_sent a' = sa_sent a ++ evs /\ Forall (fun ev => terminal ev = None) evs /\
    deltas (briefOf <$> evs) = [] /\
    (sa_contentBuf a', sa_reasoningBuf a', sa_usage a', sa_stopReason a') = (sa_contentBuf a, sa_reasoningBuf a, sa_usage a, sa_stopReason a).
Proof.
  intros Hs Hc. revert a. induction Hc as [|[i tc] calls (d & args & Hd & _ & Hargs & Etc) _ IH]; intros a.
  - exists a, []. by rewrite !app_nil_r.
  - cbn [fmap list_fmap omap list_omap fst snd] in *. rewrite Hs. destruct (callsAt i l) as [|d' ds]; [done|]. injection Hd as ->.
    cbn [stateOf fmap option_fmap option_map finalizeLoop]. rewrite M_bind_eq. rewrite <- concat_argPieces in Hargs.
    rewrite (finalizeOne_ok i (wc_ID d) (fc_Name (wc_Function d)) (mkToolJSONParser _ (concatStrings (argPieces (d :: ds)))) args a Hargs).
    rewrite <- Etc. cbn [fst snd].
    destruct (IH (finalized i tc a)) as (a' & evs & E & H1 & H2 & H3 & H4 & H5).
    exists a', (deltaEvent EventToolCallEnd i "" (Some tc) :: evs). split_and!.
    + exact E.
    + rewrite H1. cbn. by rewrite <- app_assoc.
    + rewrite H2. cbn. by rewrite <- app_assoc.
    + by constructor.
    + exact H4.
    + exact H5.
Qed.

Lemma sorted_lt_le (l : list Z) : StronglySorted Z.lt l -> StronglySorted Z.le l.
Proof. induction 1 as [|x l _ IH Hx]; constructor; [done|]. eapply Forall_impl; [exact Hx|]. intros; lia. Qed.

Lemma sortInts_unique {A} (m : gmap Z A) l : StronglySorted Z.lt l -> (forall i, i ∈ l <-> is_Some (m !! i)) ->
  sortInts (map_to_list m).*1 = l.
Proof.
  intros Hl Hm. unfold sortInts. apply (StronglySorted_unique Z.le); [apply StronglySorted_merge_sort; apply _|by apply sorted_lt_le|].
  rewrite merge_sort_Permutation. apply NoDup_Permutation; [apply NoDup_fst_map_to_list|apply (StronglySorted_NoDup Z.lt); [intros ? ?; lia|done]|].
  intros i. rewrite Hm, list_elem_of_fmap. split.
  - intros ([j x] & -> & Hx%elem_of_map_to_list). by eexists.
  - intros [x Hx]. exists (i, x). by rewrite elem_of_map_to_list.
Qed.

(** The message of a whole answer. *)
Definition answer (l : list atom) (calls : list (Z * ToolCall)) (t : Z) : AssistantMessage :=
  let u := saidUsage l in
  mkAssistantMessage
    ((if bool_decide (saidReasoning l <> "") then [ThinkingContent (saidReasoning l) "" false] else []) ++
     (if bool_decide (saidText l <> "") then [TextContent (saidText l) ""] else []) ++ (ToolCallBlock <$> calls.*2))
    (mo_API model) (mo_Provider model) (mo_ID model)
    (mkUsage (us_Input u) (us_Output u) (us_CacheRead u) (us_CacheWrite u) (us_TotalTokens u) (CalculateCost model u)) (saidStop l) "" t.

Lemma finish_answer l calls a : after l a -> saysCalls l calls ->
  exists a' pre t, finishStream jsonError now model a = (Ok (), a') /\
    sa_sent a' = pre ++ [EventStream.mkEvent EventDone 0 "" "" None None (Some (answer l calls t)) None (saidStop l)] /\
    Forall (fun ev => terminal ev = None) pre /\ deltas (briefOf <$> pre) = omap atomDelta l.
Proof.
  intros [H1 H2 H3 H4 H5 H6 H7 H8] (Hs & Hi & Hc). unfold finishStream, finalizeToolCalls. rewrite !M_bind_eq. unfold gets. cbn [fst snd].
  unfold sortedStates. rewrite (sortInts_unique _ calls.*1); [|done|intros i; rewrite Hi, H5; destruct (callsAt i l) as [|d ds];
    split; [done|by intros [? [=]]|by eexists|done]].
  destruct (finalizeLoop_calls l calls (sa_toolStates a) a H5 Hc) as (a' & evs & E & E1 & E2 & E3 & E4 & E5). rewrite E.
  injection E5 as F1 F2 F3 F4. cbn [fst snd]. rewrite !M_bind_eq.
  eexists _, (sa_sent a ++ evs), (now (sa_ticks a')). split; [reflexivity|]. split_and!.
  - cbn. rewrite E2. unfold answer, finalContent. rewrite F1, F2, F3, F4, E1, H1, H2, H3, H4, H6. done.
  - by apply Forall_app_2.
  - rewrite fmap_app. unfold deltas in *. by rewrite filter_app, H8, E4, app_nil_r.
Qed.
End Parser.

(** ** The call *)

(** Nothing that ends the stream has been sent. *)
Definition unfinished `{StreamingJSON} (a : streamAccumulator) : Prop := Forall (fun ev => terminal ev = None) (sa_sent a).

Section Unfinished.
Context (jsonError : string -> string).
Context `{StreamingJSON}.
Context (now : nat -> Z) (model : Model).

Lemma unfinished_frame f : (forall a, sa_sent (f a) = sa_sent a) -> maintains unfinished (modify f).
Proof. intros Hf a Ha. unfold unfinished. cbn. by rewrite Hf. Qed.
Lemma unfinished_send ev : terminal ev = None -> maintains unfinished (send ev).
Proof. intros Hev a Ha. apply Forall_app_2; [done|by apply Forall_singleton]. Qed.
Lemma unfinished_now : maintains unfinished (timeNow now).
Proof. by intros a Ha. Qed.
Lemma unfinished_get : maintains unfinished get.
Proof. by intros a Ha. Qed.

Ltac unfinished_tac :=
  repeat match goal with
  | |- maintains _ (_ ≫= _) => apply maintains_bind; [|intros ?]
  | |- maintains _ (mret _) => apply maintains_ret
  | |- maintains _ (gets _) => apply maintains_gets
  | |- maintains _ get => apply unfinished_get
  | |- maintains _ (timeNow _) => apply unfinished_now
  | |- maintains _ (modify _) => by apply unfinished_frame
  | |- maintains _ (send _) => by apply unfinished_send
  | |- maintains _ (let '(_, _) := ?x in _) => destruct x
  | |- maintains _ (match ?x with _ => _ end) => destruct x
  | |- maintains _ (if ?x then _ else _) => destruct x
  end.

Lemma unfinished_atom x : maintains unfinished (stepAtom jsonError now model x).
Proof. destruct x; unfold stepAtom, processToolCallDelta; unfinished_tac. Qed.
Lemma unfinished_atoms l : maintains unfinished (runAtoms jsonError now model l).
Proof. induction l as [|x l IH]; cbn [runAtoms]; unfinished_tac; [apply unfinished_atom|apply IH]. Qed.
Lemma unfinished_chunk c : maintains unfinished (processChunk jsonError now model c).
Proof. intros a. rewrite processChunk_atoms. apply unfinished_atoms. Qed.
Lemma unfinished_finalize l : maintains unfinished (finalizeLoop jsonError l).
Proof. induction l as [|[i s] l IH]; cbn [finalizeLoop]; unfinished_tac; unfold finalizeOne; unfinished_tac. apply IH. Qed.

(** [finishStream] ends with the message, or fails before it. *)
Definition ended (r : res streamErr ()) (a : streamAccumulator) : Prop :=
  match r with
  | Ok _ => exists pre m reason, sa_sent a = pre ++ [EventStream.mkEvent EventDone 0 "" "" None None (Some m) None reason] /\
              Forall (fun ev => terminal ev = None) pre /\ am_ErrorMessage m = ""
  | Err _ => unfinished a
  end.

Lemma finishStream_ended a : unfinished a -> wp (finishStream jsonError now model) ended a.
Proof.
  intros Ha. unfold finishStream, finalizeToolCalls, wp. rewrite !M_bind_eq. cbn [fst snd gets].
  pose proof (unfinished_finalize (sortedStates a) a Ha) as Hf.
  destruct (finalizeLoop _ (sortedStates a) a) as [[u|e] a']; cbn [fst snd] in *; [|done].
  rewrite !M_bind_eq. by eexists (sa_sent a'), _, _.
Qed.
End Unfinished.

Lemma UnsafeEvent_data s : sc_dataConverted s = false -> ev_data (sc_event s) = "" -> ev_data (UnsafeEvent s) = ev_data (scannerEvent s).1.
Proof.
  intros Hconv Hdata. unfold UnsafeEvent, scannerEvent. rewrite Hconv. cbn. case_bool_decide as Hd; [done|]. rewrite Hdata. unfold len in Hd.
  destruct (sc_dataBuf s); [done|]. simpl in Hd. lia.
Qed.

Section Call.
Context (jsonError : string -> string) (marshalError : string).
Context `{StreamingJSON}.
Context (now : nat -> Z) (random : nat -> option (list Z)).
Context (order : gmap string (list string) -> list (string * list string)).
Context (server : httpRequest -> httpOutcome).
(** The time at which a stream is closed without a terminal event. *)
Context (closing : Z).

Lemma completionLoop_ends canceledAt fuel model n sc a :
  sc_err sc = None -> (String.length (rd_rest sc) < fuel)%nat -> unfinished a ->
  exists r a', OpenAI.processLoop jsonError now canceledAt fuel model n sc a = Some (r, a') /\ ended r a'.
Proof.
  revert n sc a. induction fuel as [|fuel IH]; intros n sc a Herr Hf Ha; [lia|]. cbn [OpenAI.processLoop].
  assert (forall x : res streamErr () * streamAccumulator, ended x.1 x.2 -> exists r a', Some x = Some (r, a') /\ ended r a') as Hsome.
  { intros [r a'] Hx. by eexists _, _. }
  destruct (Next_total sc Herr) as ([] & sc' & -> & _ & Hnext); [|destruct (sc_err sc'); apply Hsome; [done|by apply finishStream_ended]].
  destruct (Hnext eq_refl) as (He & _ & _ & Hlen). destruct (Anthropic.isCanceled canceledAt n); [by apply Hsome|]. cbv zeta.
  set (data := TrimSpace _). case_bool_decide; [apply IH; [done|lia|done]|]. case_bool_decide; [by apply Hsome, finishStream_ended|].
  destruct (Unmarshal dChatChunk zeroChunk data) as [chunk|]; [|by apply Hsome].
  pose proof (unfinished_chunk jsonError now model chunk a Ha) as Hc.
  destruct (processChunk _ _ _ chunk a) as [[u|e] a']; [apply IH; [done|lia|done]|by apply Hsome].
Qed.

Lemma runCompletion_ends canceledAt endpoint model llmCtx opts effort :
  exists r a, OpenAI.runStream jsonError marshalError now random order server canceledAt endpoint model llmCtx opts effort (newAccumulator 0) = Some (r, a) /\
    ended r a.
Proof.
  unfold OpenAI.runStream. assert (unfinished (newAccumulator 0)) as Hnew by apply Forall_nil_2.
  destruct (chatRequestJson _); [|by eexists _, _]. destruct (server _) as [| |status body readErr]; [by eexists _, _..|].
  case_bool_decide; [by eexists _, _|]. apply completionLoop_ends; [done|simpl; lia|done].
Qed.

Lemma firstTerminal_open pre evs : Forall (fun ev => terminal ev = None) pre -> firstTerminal (pre ++ evs) = firstTerminal evs.
Proof. unfold firstTerminal. induction 1 as [|ev pre Hev _ IH]; [done|]. simpl. by rewrite Hev. Qed.

(** Every call of the Chat Completions client ends, whatever the server
    answers, wherever its reply breaks off and whenever the context is canceled;
    its reader gets one result, the message of a reply that was read to its end,
    or the text of the error. *)
Theorem completion_ends canceledAt endpoint model llmCtx opts effort :
  exists r a0 a, OpenAI.runStream jsonError marshalError now random order server canceledAt endpoint model llmCtx opts effort (newAccumulator 0) = Some (r, a0) /\
    OpenAI.streamInternal jsonError marshalError now random order server canceledAt endpoint model llmCtx opts effort = Some a /\
    length (omap terminal (sa_sent a)) = 1%nat /\
    match r with
    | Ok _ => exists m, finalResult closing (sa_sent a) = mkResult m None /\ am_ErrorMessage m = ""
    | Err err => finalResult closing (sa_sent a) = failure endpoint model err (now (sa_ticks a0))
    end.
Proof.
  destruct (runCompletion_ends canceledAt endpoint model llmCtx opts effort) as (r & a0 & E & Hr). exists r, a0.
  unfold OpenAI.streamInternal. rewrite E. cbn [mbind option_bind].
  assert (forall pre, Forall (fun ev => terminal ev = None) pre -> omap terminal pre = []) as Hnone.
  { intros pre Hp. induction Hp as [|ev pre Hev _ IH]; [done|]. simpl. by rewrite Hev. }
  destruct r as [u|err]; eexists; (split; [done|]; split; [done|]).
  - destruct Hr as (pre & m & reason & Hs & Hpre & Hm). unfold finalResult. rewrite Hs, firstTerminal_open, omap_app, Hnone by done. split; [done|]. by exists m.
  - unfold unfinished in Hr. unfold OpenAI.sendErrorEvent. rewrite !M_bind_eq. cbn [snd fst send modify OpenAI.timeNow sa_sent].
    unfold finalResult. rewrite firstTerminal_open, omap_app, Hnone by done. done.
Qed.

(** The loop over the scanner is the loop over the events of the body. *)
Fixpoint processAll (model : Model) (ds : list string) (a : streamAccumulator) : res streamErr () * streamAccumulator :=
  match ds with
  | [] => finishStream jsonError now model a
  | d :: ds' =>
      let data := TrimSpace d in
      if bool_decide (data = "") then processAll model ds' a
      else if bool_decide (data = "[DONE]") then finishStream jsonError now model a
      else
        match Unmarshal dChatChunk zeroChunk data with
        | None => (Err (ProviderErr (OpenAI.providerError 0 ("parse chunk: " +:+ jsonError data)%string)), a)
        | Some chunk =>
            match processChunk jsonError now model chunk a with
            | (Err err, a) => (Err err, a)
            | (Ok _, a) => processAll model ds' a
            end
        end
  end.

Lemma completionLoop_all fuel model n sc a :
  rd_end sc = None -> sc_err sc = None -> (len (rd_rest sc) <= sc_maxLineBytes sc)%Z -> (len (rd_rest sc) <= sc_maxEventBytes sc)%Z ->
  (String.length (rd_rest sc) < fuel)%nat ->
  OpenAI.processLoop jsonError now None fuel model n sc a = Some (processAll model (ev_data <$> remaining sc emptyAcc) a).
Proof.
  revert n sc a. induction fuel as [|fuel IH]; intros n sc a Hend Herr Hl He Hf; [lia|]. cbn [OpenAI.processLoop].
  destruct (Next_spec sc Hend Herr) as (b & s1 & Hn & H1 & H2 & H3 & H4).
  destruct (Next_total sc Herr) as (b' & s1' & Hn' & _ & Htrue). rewrite Hn in Hn'. injection Hn' as <- <-.
  pose proof Hn as Hsmall. unfold Next in Hsmall. rewrite Herr in Hsmall. apply nextLoop_small in Hsmall as [Herr1 Hlen]; [|done..].
  rewrite Hn, Herr1 in *. destruct b; [|by rewrite H4].
  destruct H4 as [Hrem _]. destruct (Htrue eq_refl) as (_ & Hconv & Hdata & Hshort). rewrite Hrem. cbn [fmap list_fmap processAll].
  rewrite (UnsafeEvent_data s1 Hconv Hdata). cbv zeta.
  assert (forall a', OpenAI.processLoop jsonError now None fuel model (S n) s1 a' = Some (processAll model (ev_data <$> remaining s1 emptyAcc) a')) as Hnext.
  { intros a'. apply IH; try congruence; try lia. }
  cbn [Anthropic.isCanceled]. case_bool_decide; [apply Hnext|]. case_bool_decide; [done|].
  destruct (Unmarshal _ _ _) as [chunk|]; [|done]. destruct (processChunk _ _ _ chunk a) as [[u|e] a1]; [apply Hnext|done].
Qed.

(** The lines of a reply: its chunks, [DONE], and whatever comes after it. *)
Definition chunkEvent (c : chatChunk) : Event := Sse.mkEvent "" (render (chunkJson c)) "" "".
Definition doneLine : Event := Sse.mkEvent "" "[DONE]" "" "".
Definition replyBody (cs : list chatChunk) (more : list Event) : string := renderEvents ((chunkEvent <$> cs) ++ doneLine :: more).

Lemma chunkEvent_writable c : writable (chunkEvent c).
Proof.
  destruct (chunkJson_wf c) as (_ & Hp & _). apply printable_render, printable_line in Hp as [H1 H2].
  unfold writable. split_and!; [|by vm_compute|by vm_compute|by vm_compute|].
  - unfold chunkEvent, zeroEvent. intros [= E].
  - unfold dataLines. change (ev_data (chunkEvent c)) with (render (chunkJson c)). rewrite splitLines_line by done. by constructor.
Qed.

Lemma doneLine_writable : writable doneLine.
Proof. unfold writable. split_and!; [by intros [=]|by vm_compute..|]. vm_compute. by repeat constructor. Qed.

Lemma Unmarshal_chunk c : okChunk c ->
  let data := TrimSpace (ev_data (chunkEvent c)) in data <> "" /\ data <> "[DONE]" /\ Unmarshal dChatChunk zeroChunk data = Some c.
Proof.
  intros Hok. destruct (chunkJson_wf c) as (Hn & _ & Hd). cbn [chunkEvent ev_data]. rewrite TrimSpace_solid by apply render_object_solid.
  cbv zeta. split_and!; [done|done|]. rewrite Unmarshal_render; [by apply chunkJson_reads|done|]. etrans; [exact Hd|]. apply leb_complete. by vm_compute.
Qed.

Lemma processAll_chunks model cs more a a1 : Forall okChunk cs -> runAtoms jsonError now model (flat_map chunkAtoms cs) a = (Ok (), a1) ->
  processAll model (ev_data <$> ((chunkEvent <$> cs) ++ doneLine :: more)) a = finishStream jsonError now model a1.
Proof.
  intros Hok. revert a. induction Hok as [|c cs Hc _ IH]; intros a; cbn [flat_map fmap list_fmap app processAll].
  - intros [= ->]. cbn [ev_data doneLine]. by rewrite bool_decide_false, bool_decide_true by by vm_compute.
  - destruct (Unmarshal_chunk c Hc) as (H1 & H2 & H3). cbv zeta. rewrite !bool_decide_false, H3, processChunk_atoms, runAtoms_app by done.
    destruct (runAtoms _ _ _ (chunkAtoms c) a) as [[u|e] a2]; [apply IH|done].
Qed.

(** C3: a streamed answer is delivered as it was meant.  However a server of the
    Chat Completions protocol spreads the text, the reasoning and the arguments
    of the tool calls over chunks, mixed as it likes, from the bytes of its event
    stream the client delivers one message: the reasoning, the text, and the tool
    calls by their index, each with the identity of its first piece and the
    arguments all its pieces spell together, with the last usage and reason to
    stop of the chunks; it passes on every piece in order, and does not look at
    what follows [DONE]. *)
Theorem completion_roundtrip endpoint model llmCtx opts effort body status (cs : list chatChunk) (more : list Event) (calls : list (Z * ToolCall))
    (Hjson : chatRequestJson (OpenAI.buildRequest random model llmCtx opts effort) = Some body)
    (Hserver : server (completionsRequest order endpoint model body) = Responds status (replyBody cs more) None)
    (Hstatus : (200 <= status < 300)%Z) (Hchunks : Forall okChunk cs) (Hmore : Forall writable more)
    (Hcalls : saysCalls jsonError (flat_map chunkAtoms cs) calls) (Hsize : (len (replyBody cs more) <= defaultMaxLineBytes)%Z) :
  exists a t, OpenAI.streamInternal jsonError marshalError now random order server None endpoint model llmCtx opts effort = Some a /\
    finalResult closing (sa_sent a) = mkResult (answer model (flat_map chunkAtoms cs) calls t) None /\
    deltas (briefOf <$> sa_sent a) = omap atomDelta (flat_map chunkAtoms cs).
Proof.
  destruct (runAtoms_after jsonError now model (flat_map chunkAtoms cs) [] (newAccumulator 0) (after_new 0)) as (a1 & E & Ha);
    [intros i; by eapply saysCalls_takes|].
  destruct (finish_answer jsonError now model _ calls a1 Ha Hcalls) as (a & pre & t & Ef & Hs & Hpre & Hd). exists a, t. split_and!.
  - unfold OpenAI.streamInternal, OpenAI.runStream. rewrite Hjson, Hserver, bool_decide_false by lia. unfold OpenAI.processStream.
    rewrite completionLoop_all; [|done|done|exact Hsize| |simpl; lia].
    + change (remaining (NewScanner ?b None) emptyAcc) with (eventsOf b). unfold replyBody at 1. rewrite eventsOf_render.
      * by rewrite (processAll_chunks model cs more _ a1 Hchunks E), Ef.
      * apply Forall_app_2; [apply Forall_fmap, Forall_true, chunkEvent_writable|constructor; [apply doneLine_writable|done]].
    + etrans; [exact Hsize|]. by vm_compute.
  - unfold finalResult. by rewrite Hs, firstTerminal_open.
  - by rewrite Hs, deltas_snoc, Hd, app_nil_r.
Qed.
End Call.

(** ** An answer in five chunks *)

Module Sample.

#[export] Instance silent : StreamingJSON := AnthropicStream.Sample.silent.
Definition jsonError (data : string) : string := "invalid JSON".
Definition clock (n : nat) : Z := (1700000000000 + Z.of_nat n)%Z.
Definition model : Model :=
  mkModel "gpt-x" "GPT" "openai-completions" "openai" true ["text"]
    (mkModelCost (float_of 2) (float_of 8) (float_of 1) (float_of 0)) true 128000 16384 ∅ None.
Definition endpoint : ProviderEndpoint := EndpointFromConfig "" "key".
Definition llmCtx : NativeDriver.Context := mkContext "be brief" [MUser (mkUserMessage [TextContent "hi" ""] 0)] [mkTool "read" "reads" ""].

Definition chunk (d : chunkDelta) (stop : option string) : chatChunk := mkChatChunk "c1" "chat.completion.chunk" (Some [mkChunkChoice 0 d stop]) None.
Definition call (i : Z) (id name args : string) : toolCall := mkToolCallWire id (if bool_decide (id = "") then "" else "function") (mkFunctionCall name args) (Some i).
Definition chunks : list chatChunk :=
  [chunk (mkChunkDelta "assistant" (Some "") None (Some "hm")) None;
   chunk (mkChunkDelta "" (Some "I ") (Some [call 2 "t2" "list" ""]) None) None;
   chunk (mkChunkDelta "" None (Some [call 0 "t0" "read" (quoted "{'path': 'a"); call 2 "" "" "{"]) None) None;
   chunk (mkChunkDelta "" (Some (quoted "'look'")) (Some [call 2 "" "" "}"; call 0 "" "" (quoted ".txt'}")]) None) (Some "tool_calls");
   mkChatChunk "c1" "chat.completion.chunk" (Some []) (Some (mkChunkUsage 10 5 15 (Some (mkPromptDetails 4))))].
Definition calls : list (Z * ToolCall) :=
  [(0%Z, mkToolCall "t0" "read" {["path" := AString "a.txt"]} ""); (2%Z, mkToolCall "t2" "list" ∅ "")].
Definition atoms : list atom := flat_map chunkAtoms chunks.
Definition server (body : string) (req : httpRequest) : httpOutcome := Responds 200 body None.

Lemma sample_calls : saysCalls jsonError atoms calls.
Proof.
  split_and!; [repeat constructor| |].
  - intros i. destruct (decide (i = 0)%Z) as [->|H0]; [by split; [|left]|]. destruct (decide (i = 2)%Z) as [->|H2]; [by split; [|right; left]|].
    split; [change (i ∈ [0%Z; 2%Z] -> callsAt i atoms <> []); set_solver|]. intros Hne. destruct Hne. unfold callsAt, atoms. cbn.
    by rewrite !(bool_decide_false (0 = i)%Z), !(bool_decide_false (2 = i)%Z) by congruence.
  - apply Forall_cons_2; [|apply Forall_singleton].
    + eexists _, {["path" := AString "a.txt"]}. split_and!; [reflexivity|by repeat split| |reflexivity].
      exists (Some {["path" := AString "a.txt"]}). split; [vm_compute|]; reflexivity.
    + eexists _, ∅. split_and!; [reflexivity|by repeat split| |reflexivity]. exists (Some ∅). split; [vm_compute|]; reflexivity.
Qed.

Lemma chunks_ok : Forall okChunk chunks.
Proof.
  unfold okChunk, okChoice, okDelta, okCall, okChunkUsage, onSome, int64, validText.
  repeat first [apply Forall_nil_2|apply Forall_cons_2|apply conj|intros ? [= <-]]; cbn; try done; try lia; by vm_compute.
Qed.

Lemma completion_roundtrip_witness :
  exists a t, OpenAI.streamInternal jsonError "" clock (fun _ => None) map_to_list (server (replyBody chunks [Sse.mkEvent "" "late" "" ""])) None
      endpoint model llmCtx zeroStreamOptions "" = Some a /\
    finalResult 0 (sa_sent a) = mkResult (answer model atoms calls t) None /\ deltas (briefOf <$> sa_sent a) = omap atomDelta atoms.
Proof.
  eapply (completion_roundtrip jsonError "" clock (fun _ => None) map_to_list (server (replyBody chunks [Sse.mkEvent "" "late" "" ""])) 0
    endpoint model llmCtx zeroStreamOptions "" _ 200 chunks [Sse.mkEvent "" "late" "" ""] calls).
  - vm_compute. reflexivity.
  - reflexivity.
  - lia.
  - exact chunks_ok.
  - apply Forall_singleton. unfold writable. split_and!; [by intros [=]|by vm_compute..|]. vm_compute. by repeat constructor.
  - exact sample_calls.
  - vm_compute. discriminate.
Defined.

Example sample_answer : let m := answer model atoms calls 0 in
  (am_Content m, am_StopReason m, us_Input (am_Usage m), us_CacheRead (am_Usage m)) =
  ([ThinkingContent "hm" "" false; TextContent (quoted "I 'look'") ""; ToolCallBlock (mkToolCall "t0" "read" {["path" := AString "a.txt"]} "");
    ToolCallBlock (mkToolCall "t2" "list" ∅ "")], StopReasonToolUse, 10%Z, 4%Z).
Proof. vm_compute. reflexivity. Qed.

(** A reply that breaks off after its first words is taken for a whole one. *)
Example openai_cut_off :
  (fun a => let r := finalResult 0 (sa_sent a) in (re_Err r, am_StopReason (re_Message r), am_Content (re_Message r))) <$>
  OpenAI.streamInternal jsonError "" clock (fun _ => None) map_to_list (server (renderEvents (chunkEvent <$> take 1 chunks))) None
    endpoint model llmCtx zeroStreamOptions "" =
  Some (None, StopReasonStop, [ThinkingContent "hm" "" false]).
Proof. vm_compute. reflexivity. Qed.

(** The 4 cached tokens among 10 are charged at the rate of the input and at
    that of the cache, of 2 and 1 per million. *)
Example cached_twice : let u := am_Usage (answer model atoms calls 0) in
  us_Input u = 10%Z /\ us_CacheRead u = 4%Z /\ FormatFloat (cost_Input (us_Cost u)) = Some "0.000019999999999999998" /\ FormatFloat (cost_CacheRead (us_Cost u)) = Some "0.000004".
Proof. vm_compute. done. Qed.
End Sample.
