(* ===== verification/GoFiles.v ===== *)
(** * GoFiles: packages os and path/filepath on a file system

    The file system as a kernel keeps it, by the physical paths of its nodes:
    directories, files and symbolic links; the system calls the tools make, each
    of which can also fail for reasons of its own; filepath.EvalSymlinks as it is
    written, over lstat and readlink; os.MkdirAll and os.CreateTemp. *)

From Stdlib Require Import Ascii String.
From S2P Require Import Prelude GoStrings GoText GoPath.

Local Open Scope string_scope.
Local Open Scope list_scope.
Local Open Scope stdpp_scope.
Local Open Scope go_scope.

(** ** The rest of path/filepath *)

(** What is left of the last slash of a path, the slash included. *)
Definition upToSlash (path : string) : string :=
  match removelast (SplitByte slash path) with [] => "" | l => (JoinByte slash l +:+ "/")%string end.
Definition Dir (path : string) : string := Clean (upToSlash path).
Definition Base (path : string) : string :=
  match path with
  | "" => "."
  | _ => match reverse (filter (.≠ "") (SplitByte slash path)) with [] => "/" | e :: _ => e end
  end.

Example Dir_ex : Dir <$> ["/a/b"; "/a"; "/"; "a"; "a/b/"; ""] = ["/a"; "/"; "/"; "."; "a/b"; "."].
Proof. vm_compute. reflexivity. Qed.
Example Base_ex : Base <$> ["/a/b"; "/a/"; "/"; "a"; ""; "//"] = ["b"; "a"; "/"; "a"; "."; "/"].
Proof. vm_compute. reflexivity. Qed.

(** ** The tree *)

Inductive node : Type :=
  | Directory
  | File (data : string) (perm : Z)
  | Symlink (target : string).

#[export] Instance node_eq_dec : EqDecision node.
Proof. solve_decision. Defined.

Definition isDir (n : node) : bool := match n with Directory => true | _ => false end.

(** The nodes below the root, by the elements of their paths. *)
Definition tree : Type := gmap (list string) node.
Definition nodeAt (t : tree) (p : list string) : option node := match p with [] => Some Directory | _ => t !! p end.

Inductive errno : Type := ENOENT | ENOTDIR | EISDIR | EEXIST | ELOOP | EINVAL | Fault (text : string).

Definition errnoText (e : errno) : string :=
  match e with
  | ENOENT => "no such file or directory"
  | ENOTDIR => "not a directory"
  | EISDIR => "is a directory"
  | EEXIST => "file exists"
  | ELOOP => "too many levels of symbolic links"
  | EINVAL => "invalid argument"
  | Fault text => text
  end.

(** An error of package os: its text, and the error of the system it wraps. *)
Record fileError : Type := mkFileError { fe_Text : string; fe_Errno : option errno }.
Definition PathError (op path : string) (e : errno) : fileError :=
  mkFileError (op +:+ " " +:+ path +:+ ": " +:+ errnoText e)%string (Some e).
Definition LinkError (op old new : string) (e : errno) : fileError :=
  mkFileError (op +:+ " " +:+ old +:+ " " +:+ new +:+ ": " +:+ errnoText e)%string (Some e).
Definition IsNotExist (e : fileError) : bool := match fe_Errno e with Some ENOENT => true | _ => false end.
Definition IsExist (e : fileError) : bool := match fe_Errno e with Some EEXIST => true | _ => false end.

(** How the kernel looks a path up: it follows the links on the way, and the
    last one if asked to, [links] at most. *)
Inductive lookupResult : Type :=
  | At (p : list string) (n : node)
  | Absent (dir : list string) (name : string)
  | Refused (e : errno).

Fixpoint kwalk (links : nat) (t : tree) (follow : bool) {struct links} : list string -> list string -> lookupResult :=
  fix go (dest todo : list string) {struct todo} : lookupResult :=
    match todo with
    | [] => match nodeAt t dest with Some n => At dest n | None => Refused ENOENT end
    | c :: todo' =>
        match nodeAt t dest with
        | Some Directory =>
            if bool_decide (c = "") || bool_decide (c = ".") then go dest todo'
            else if bool_decide (c = "..") then go (removelast dest) todo'
            else
              match nodeAt t (dest ++ [c]) with
              | None => match todo' with [] => Absent dest c | _ => Refused ENOENT end
              | Some (Symlink l) =>
                  if follow || negb (bool_decide (todo' = [])) then
                    match links with
                    | O => Refused ELOOP
                    | S links' => kwalk links' t follow (if isAbs l then [] else dest) (SplitByte slash l ++ todo')
                    end
                  else At (dest ++ [c]) (Symlink l)
              | Some _ => go (dest ++ [c]) todo'
              end
        | Some _ => Refused ENOTDIR
        | None => Refused ENOENT
        end
    end.

(** ** System calls *)

Record World : Type := mkWorld { w_tree : tree; w_calls : nat }.

Section Calls.
(** The failure of the nth call, if it fails for a reason of its own (a
    permission, a full disk, a broken device); the working directory; the random
    numbers in the names of temporary files. *)
Context (fault : nat -> option string) (cwd : list string) (random : nat -> Z).

Notation FS := (M World).

Definition lookupPath (t : tree) (follow : bool) (path : string) : lookupResult :=
  kwalk 40 t follow (if isAbs path then [] else cwd) (SplitByte slash path).

(** A call: it fails by itself, and changes nothing, or does its work. *)
Definition syscall {A} (err : errno -> fileError) (work : tree -> res errno (A * tree)) : FS (res fileError A) := fun w =>
  let done t := mkWorld t (S (w_calls w)) in
  match fault (w_calls w) with
  | Some text => (Err (err (Fault text)), done (w_tree w))
  | None =>
      match work (w_tree w) with
      | Ok (a, t) => (Ok a, done t)
      | Err e => (Err (err e), done (w_tree w))
      end
  end.

(** A call that only reads. *)
Definition query {A} (err : errno -> fileError) (q : tree -> res errno A) : FS (res fileError A) :=
  syscall err (fun t => match q t with Ok a => Ok (a, t) | Err e => Err e end).

(** A call that finds a node. *)
Definition found (r : lookupResult) : res errno (list string * node) :=
  match r with At p n => Ok (p, n) | Absent _ _ => Err ENOENT | Refused e => Err e end.
Definition onNode {A} (op : string) (follow : bool) (path : string) (f : list string -> node -> res errno A) : FS (res fileError A) :=
  query (PathError op path) (fun t => pn <-? found (lookupPath t follow path); f pn.1 pn.2).

Definition Lstat (path : string) : FS (res fileError node) := onNode "lstat" false path (fun _ n => Ok n).
Definition Stat (path : string) : FS (res fileError node) := onNode "stat" true path (fun _ n => Ok n).
Definition Readlink (path : string) : FS (res fileError string) :=
  onNode "readlink" false path (fun _ n => match n with Symlink l => Ok l | _ => Err EINVAL end).

(** os.ReadFile: the file is opened, then read. *)
Definition ReadFile (path : string) : FS (res fileError string) :=
  r ← onNode "open" true path (fun p _ => Ok p);
  match r with
  | Err e => mret (Err e)
  | Ok p => query (PathError "read" path) (fun t => match nodeAt t p with Some (File data _) => Ok data | _ => Err EISDIR end)
  end.

(** The elements up to trailing slashes. *)
Fixpoint dropTrailing (l : list string) : list string :=
  match l with
  | [] => []
  | c :: l' => match dropTrailing l' with [] => if bool_decide (c = "") then [] else [c] | r => c :: r end
  end.

(** A call that makes a node where there is none: a link in the last place is
    not followed, with a slash after it or not. *)
Definition lookupNew (t : tree) (path : string) : lookupResult :=
  kwalk 40 t false (if isAbs path then [] else cwd) (dropTrailing (SplitByte slash path)).
Definition create (op path : string) (n : node) : FS (res fileError (list string)) :=
  syscall (PathError op path) (fun t =>
    match lookupNew t path with
    | Absent dir name => Ok (dir ++ [name], <[dir ++ [name] := n]> t)
    | At _ _ => Err EEXIST
    | Refused e => Err e
    end).

Definition Mkdir (path : string) : FS (res fileError ()) :=
  r ← create "mkdir" path Directory; mret (_ <-? r; Ok ()).

(** os.MkdirAll: [relems] are the elements of [path], the last first; the paths
    of the parents keep their slash. *)
Fixpoint mkdirAll (rooted : bool) (relems : list string) (path : string) : FS (res fileError ()) :=
  r ← Stat path;
  match r with
  | Ok n => mret (if isDir n then Ok () else Err (PathError "mkdir" path ENOTDIR))
  | Err _ =>
      let make : FS (res fileError ()) :=
        r ← Mkdir path;
        match r with
        | Ok _ => mret (Ok ())
        | Err e => r ← Lstat path; mret (match r with Ok Directory => Ok () | _ => Err e end)
        end in
      match relems with
      | [] => make
      | _ :: parent =>
          if bool_decide (parent = []) && negb rooted then make
          else
            r ← mkdirAll rooted parent (renderPath rooted (reverse parent) +:+ (if bool_decide (parent = []) then "" else "/"))%string;
            match r with Err e => mret (Err e) | Ok _ => make end
      end
  end.
Definition MkdirAll (path : string) : FS (res fileError ()) := mkdirAll (isAbs path) (reverse (elemsOf path)) path.

(** os.CreateTemp(dir, prefix + "*"): the path of a new file, and the file. *)
Fixpoint createTemp (tries : nat) (prefix : string) : FS (res fileError (string * list string)) :=
  match tries with
  | O => mret (Err (PathError "createtemp" (prefix +:+ "*")%string EEXIST))
  | S tries' =>
      n ← gets w_calls;
      let name := (prefix +:+ pretty (random n mod 2 ^ 32)%Z)%string in
      r ← create "open" name (File "" (6 * 64));
      match r with
      | Ok p => mret (Ok (name, p))
      | Err e => if IsExist e then createTemp tries' prefix else mret (Err e)
      end
  end.
Definition CreateTemp (dir prefix : string) : FS (res fileError (string * list string)) :=
  createTemp (Z.to_nat 10000) (dir +:+ (if HasSuffix dir "/" then "" else "/") +:+ prefix)%string.

(** Calls on an open file: [p] is where its node is. *)
Definition onFile (op name : string) (p : list string) (f : node -> node) : FS (res fileError ()) :=
  syscall (PathError op name) (fun t => Ok ((), alter f p t)).
Definition fileWrite (name : string) (p : list string) (data : string) : FS (res fileError ()) :=
  onFile "write" name p (fun n => match n with File old perm => File (old +:+ data) perm | n => n end).
Definition fileSync (name : string) (p : list string) : FS (res fileError ()) := onFile "sync" name p id.
Definition fileClose (name : string) (p : list string) : FS (res fileError ()) := onFile "close" name p id.

Definition Chmod (path : string) (perm : Z) : FS (res fileError ()) :=
  syscall (PathError "chmod" path) (fun t =>
    pn <-? found (lookupPath t true path);
    Ok ((), match pn.2 with File data _ => <[pn.1 := File data perm]> t | _ => t end)).

(** os.Rename onto a directory is refused. *)
Definition Rename (old new : string) : FS (res fileError ()) :=
  syscall (LinkError "rename" old new) (fun t =>
    on <-? found (lookupPath t false old);
    match lookupPath t false new with
    | At _ Directory => Err EEXIST
    | At q _ => Ok ((), <[q := on.2]> (delete on.1 t))
    | Absent dir name => Ok ((), <[dir ++ [name] := on.2]> (delete on.1 t))
    | Refused e => Err e
    end).

(** os.Remove of what is no directory. *)
Definition Remove (path : string) : FS (res fileError ()) :=
  syscall (PathError "remove" path) (fun t =>
    pn <-? found (lookupPath t false path);
    if isDir pn.2 then Err EISDIR else Ok ((), delete pn.1 t)).

(** The names in a directory, in order. *)
Definition childName (p q : list string) : option string :=
  if bool_decide (take (length p) q = p) then match drop (length p) q with [c] => Some c | _ => None end else None.
Definition names (t : tree) (p : list string) : list string := sort_Strings (omap (fun kv => childName p kv.1) (map_to_list t)).
Definition entries (t : tree) (p : list string) : list (string * node) :=
  omap (fun c => (fun n => (c, n)) <$> nodeAt t (p ++ [c])) (names t p).
Definition ReadDir (path : string) : FS (res fileError (list (string * node))) :=
  query (PathError "open" path) (fun t =>
    pn <-? found (lookupPath t true path);
    match pn.2 with Directory => Ok (entries t pn.1) | _ => Err ENOTDIR end).

(** ** filepath.EvalSymlinks

    [dest] holds the elements of the result so far; [links] more links may be
    walked. *)
Definition backUp (rooted : bool) (dest : list string) : list string :=
  if rooted then removelast dest
  else match last dest with None | Some ".." => dest ++ [".."] | _ => removelast dest end.

Fixpoint evalSym (links : nat) {struct links} : bool -> list string -> list string -> FS (res fileError (bool * list string)) :=
  fix go (rooted : bool) (dest todo : list string) {struct todo} : FS (res fileError (bool * list string)) :=
    match todo with
    | [] => mret (Ok (rooted, dest))
    | c :: todo' =>
        if bool_decide (c = "") || bool_decide (c = ".") then go rooted dest todo'
        else if bool_decide (c = "..") then go rooted (backUp rooted dest) todo'
        else
          let path := renderPath rooted (dest ++ [c]) in
          r ← Lstat path;
          match r with
          | Err e => mret (Err e)
          | Ok (Symlink _) =>
              match links with
              | O => mret (Err (mkFileError "EvalSymlinks: too many links" None))
              | S links' =>
                  r ← Readlink path;
                  match r with
                  | Err e => mret (Err e)
                  | Ok l =>
                      let rooted' := isAbs l || rooted in
                      evalSym links' rooted' (if isAbs l then [] else dest) (SplitByte slash l ++ todo')
                  end
              end
          | Ok Directory => go rooted (dest ++ [c]) todo'
          | Ok (File _ _) =>
              if bool_decide (todo' = []) then go rooted (dest ++ [c]) todo'
              else mret (Err (mkFileError (errnoText ENOTDIR) (Some ENOTDIR)))
          end
    end.
Definition EvalSymlinks (path : string) : FS (res fileError string) :=
  r ← evalSym 255 (isAbs path) [] (SplitByte slash path);
  mret (rd <-? r; Ok (renderPath rd.1 rd.2)).
End Calls.

(** ** A file system with links *)

Module Sample.
Definition t0 : tree := list_to_map
  [(["w"], Directory); (["w"; "a.txt"], File "x" 420); (["w"; "d"], Directory); (["w"; "d"; "up"], Symlink "../.."); (["w"; "out"], Symlink "/etc/passwd");
   (["etc"], Directory); (["etc"; "passwd"], File "root" 420); (["w"; "dead"], Symlink "gone/x"); (["w"; "self"], Symlink "self"); (["cur"], Symlink "w")].
Definition none (n : nat) : option string := None.
Definition run {A} (m : M World A) : A := (m (mkWorld t0 0)).1.

Example EvalSymlinks_ex :
  (fun p => match run (EvalSymlinks none ["w"] p) with Ok s => s | Err e => fe_Text e end) <$>
  ["/cur/d/up/w/a.txt"; "/w/out"; "/w/dead"; "/w/self"; "a.txt/x"; "."; "d/up"; "/w/a.txt/y"; "/w/zz"] =
  ["/w/a.txt"; "/etc/passwd"; "lstat /w/gone: no such file or directory"; "EvalSymlinks: too many links"; "not a directory"; "."; "..";
   "not a directory"; "lstat /w/zz: no such file or directory"].
Proof. vm_compute. reflexivity. Qed.

Example MkdirAll_ex :
  let '(r, w) := MkdirAll none [] "/w/n/m" (mkWorld t0 0) in
  (r, w_tree w !! ["w"; "n"; "m"], is_Ok (MkdirAll none [] "/w/a.txt/m" w).1, is_Ok (MkdirAll none [] "/w/dead/m" w).1) =
  (Ok (), Some Directory, false, false).
Proof. vm_compute. reflexivity. Qed.

Example names_ex : names t0 ["w"] = ["a.txt"; "d"; "dead"; "out"; "self"].
Proof. vm_compute. reflexivity. Qed.
End Sample.

(** ** Physical paths *)

(** Every place above [p] is a directory. *)
Definition phys (t : tree) (p : list string) : Prop := forall q c rest, p = q ++ c :: rest -> nodeAt t q = Some Directory.

Lemma phys_nil t : phys t [].
Proof. intros q c rest H. by destruct q. Qed.

Lemma phys_snoc t p c : phys t p -> nodeAt t p = Some Directory -> phys t (p ++ [c]).
Proof.
  intros Hp Hd q c' rest Heq. destruct rest as [|x rest _] using rev_ind.
  - apply app_inj_tail in Heq as [<- _]. done.
  - rewrite app_comm_cons, app_assoc in Heq. apply app_inj_tail in Heq as [Heq _]. by eapply Hp.
Qed.

Lemma phys_prefix t p rest : phys t (p ++ rest) -> phys t p.
Proof. intros H q c r ->. apply (H q c (r ++ rest)). by rewrite <- app_assoc. Qed.

Lemma phys_above t p c rest : phys t (p ++ c :: rest) -> nodeAt t p = Some Directory.
Proof. intros H. by eapply H. Qed.

Lemma phys_removelast t p : phys t p -> phys t (removelast p).
Proof. destruct p as [|x p _] using rev_ind; [done|]. rewrite removelast_last. apply phys_prefix. Qed.

Lemma removelast_dir t p : phys t p -> nodeAt t p = Some Directory -> nodeAt t (removelast p) = Some Directory.
Proof. intros H Hd. destruct p as [|x p _] using rev_ind; [done|]. rewrite removelast_last. by eapply phys_above. Qed.

Lemma plain_removelast p : Forall plain p -> Forall plain (removelast p).
Proof. destruct p as [|x p _] using rev_ind; [done|]. rewrite removelast_last. by intros [? _]%Forall_app. Qed.

Definition noSlash (c : string) : Prop := ContainsByte slash c = false.
Lemma plain_noSlash c : noSlash c -> c <> "" -> c <> "." -> c <> ".." -> plain c.
Proof. unfold plain. by intros; split_and!. Qed.

(** ** The kernel *)

(** How an element other than "", "." and ".." is looked up. *)
Definition kstep (links : nat) (t : tree) (follow : bool) (dest : list string) (c : string) (todo : list string) : lookupResult :=
  match nodeAt t (dest ++ [c]) with
  | None => match todo with [] => Absent dest c | _ => Refused ENOENT end
  | Some (Symlink l) =>
      if follow || negb (bool_decide (todo = [])) then
        match links with
        | O => Refused ELOOP
        | S links' => kwalk links' t follow (if isAbs l then [] else dest) (SplitByte slash l ++ todo)
        end
      else At (dest ++ [c]) (Symlink l)
  | Some _ => kwalk links t follow (dest ++ [c]) todo
  end.

Lemma kwalk_nil links t follow dest : kwalk links t follow dest [] = match nodeAt t dest with Some n => At dest n | None => Refused ENOENT end.
Proof. by destruct links. Qed.

Lemma kwalk_cons links t follow dest c todo : nodeAt t dest = Some Directory ->
  kwalk links t follow dest (c :: todo) =
  if bool_decide (c = "") || bool_decide (c = ".") then kwalk links t follow dest todo
  else if bool_decide (c = "..") then kwalk links t follow (removelast dest) todo
  else kstep links t follow dest c todo.
Proof. intros Hd. destruct links; cbn [kwalk]; rewrite Hd; reflexivity. Qed.

Lemma kwalk_plain links t follow dest c todo : nodeAt t dest = Some Directory -> plain c ->
  kwalk links t follow dest (c :: todo) = kstep links t follow dest c todo.
Proof. intros Hd (H1 & H2 & H3 & _). rewrite kwalk_cons by done. by rewrite !bool_decide_false. Qed.

(** Nothing but a directory in the way: the node is where its path says. *)
Lemma kwalk_phys links t follow dest es : Forall plain es -> phys t (dest ++ es) -> phys t dest ->
  match nodeAt t (dest ++ es) with
  | Some (Symlink _) => follow = false
  | _ => True
  end ->
  kwalk links t follow dest es =
  match nodeAt t (dest ++ es) with
  | Some n => At (dest ++ es) n
  | None => match last es with Some c => Absent (dest ++ removelast es) c | None => Refused ENOENT end
  end.
Proof.
  intros He. revert dest. induction He as [|c es Hc He IH]; intros dest Hp Hd Hl.
  - rewrite app_nil_r in *. apply kwalk_nil.
  - rewrite kwalk_plain; [|by eapply phys_above|done]. unfold kstep.
    change (c :: es) with ([c] ++ es) in Hp, Hl |- *. rewrite app_assoc in Hp, Hl |- *. destruct es as [|c' es'].
    + rewrite app_nil_r in *. destruct (nodeAt t (dest ++ [c])) as [[| |l]|] eqn:E; [by rewrite kwalk_nil, E..| |cbn; by rewrite app_nil_r].
      by rewrite Hl.
    + assert (nodeAt t (dest ++ [c]) = Some Directory) as Hdir by by eapply phys_above. rewrite Hdir.
      rewrite IH; [|done|by eapply phys_prefix|done]. destruct (nodeAt t ((dest ++ [c]) ++ c' :: es')); [done|].
      cbn [app]. change (last (c :: c' :: es')) with (last (c' :: es')). destruct (last (c' :: es')); [|done].
      change (removelast (c :: c' :: es')) with (c :: removelast (c' :: es')). by rewrite <- app_assoc.
Qed.

(** The elements of an absolute path as the kernel reads them. *)
Lemma kwalk_skip links t follow dest todo : nodeAt t dest = Some Directory -> kwalk links t follow dest ("" :: todo) = kwalk links t follow dest todo.
Proof. intros Hd. by rewrite kwalk_cons. Qed.

Lemma lookup_render cwd t follow es : Forall plain es -> lookupPath cwd t follow (renderPath true es) = kwalk 40 t follow [] es.
Proof.
  intros He. unfold lookupPath, renderPath. rewrite isAbs_render, SplitByte_cons_slash, kwalk_skip by done.
  rewrite SplitByte_elems by done. destruct es; [by rewrite kwalk_skip|done].
Qed.

Section Calls.
Context (fault : nat -> option string) (cwd : list string).

(** ** Calls that only read *)

(** A read leaves the tree, and gives what it is of the tree or a failure of its
    own. *)
Definition reads {A} (err : errno -> fileError) (x : res errno A) (m : M World (res fileError A)) (w : World) : Prop :=
  w_tree (m w).2 = w_tree w /\
  ((exists text, (m w).1 = Err (err (Fault text))) \/ (m w).1 = match x with Ok a => Ok a | Err e => Err (err e) end).

Lemma query_reads {A} err (q : tree -> res errno A) w : reads err (q (w_tree w)) (query fault err q) w.
Proof.
  unfold reads, query, syscall. destruct (fault (w_calls w)) as [text|]; [split; [done|left; by eexists]|].
  destruct (q (w_tree w)); (split; [done|by right]).
Qed.

Definition atPath (t : tree) (es : list string) : res errno node :=
  match nodeAt t es with Some n => Ok n | None => Err ENOENT end.

Lemma onNode_phys {A} op follow es (f : list string -> node -> res errno A) w :
  Forall plain es -> phys (w_tree w) es -> match nodeAt (w_tree w) es with Some (Symlink _) => follow = false | _ => True end ->
  reads (PathError op (renderPath true es)) (n <-? atPath (w_tree w) es; f es n) (onNode fault cwd op follow (renderPath true es) f) w.
Proof.
  intros He Hp Hl. unfold onNode. pose proof (query_reads (PathError op (renderPath true es))
    (fun t => pn <-? found (lookupPath cwd t follow (renderPath true es)); f pn.1 pn.2) w) as H. revert H.
  unfold reads. rewrite lookup_render by done. rewrite (kwalk_phys 40 (w_tree w) follow [] es); [|done|done|apply phys_nil|done]. cbn [app].
  unfold atPath. destruct (nodeAt (w_tree w) es) as [n|] eqn:E; [done|]. destruct (last es) eqn:El; [done|].
  apply last_None in El. by subst.
Qed.

Lemma Lstat_phys es w : Forall plain es -> phys (w_tree w) es ->
  reads (PathError "lstat" (renderPath true es)) (atPath (w_tree w) es) (Lstat fault cwd (renderPath true es)) w.
Proof.
  intros He Hp. unfold Lstat. pose proof (onNode_phys "lstat" false es (fun _ n => Ok n) w He Hp) as H.
  destruct (atPath (w_tree w) es) eqn:E; apply H; by destruct (nodeAt _ _) as [[]|].
Qed.

Lemma Readlink_phys es w l : Forall plain es -> phys (w_tree w) es -> nodeAt (w_tree w) es = Some (Symlink l) ->
  reads (PathError "readlink" (renderPath true es)) (Ok l) (Readlink fault cwd (renderPath true es)) w.
Proof.
  intros He Hp Hl. unfold Readlink. pose proof (onNode_phys "readlink" false es (fun _ n => match n with Symlink l => Ok l | _ => Err EINVAL end) w He Hp) as H.
  unfold atPath in H. rewrite Hl in H. by apply H.
Qed.
(** ** EvalSymlinks *)

Notation evalSym := (evalSym fault cwd).

Definition estep (links : nat) (rooted : bool) (dest : list string) (c : string) (todo : list string) : M World (res fileError (bool * list string)) :=
  let path := renderPath rooted (dest ++ [c]) in
  r ← Lstat fault cwd path;
  match r with
  | Err e => mret (Err e)
  | Ok (Symlink _) =>
      match links with
      | O => mret (Err (mkFileError "EvalSymlinks: too many links" None))
      | S links' =>
          r ← Readlink fault cwd path;
          match r with
          | Err e => mret (Err e)
          | Ok l => evalSym links' (isAbs l || rooted) (if isAbs l then [] else dest) (SplitByte slash l ++ todo)
          end
      end
  | Ok Directory => evalSym links rooted (dest ++ [c]) todo
  | Ok (File _ _) =>
      if bool_decide (todo = []) then evalSym links rooted (dest ++ [c]) todo
      else mret (Err (mkFileError (errnoText ENOTDIR) (Some ENOTDIR)))
  end.

Lemma evalSym_nil links rooted dest w : evalSym links rooted dest [] w = (Ok (rooted, dest), w).
Proof. by destruct links. Qed.

Lemma evalSym_cons links dest c todo w :
  evalSym links true dest (c :: todo) w =
  (if bool_decide (c = "") || bool_decide (c = ".") then evalSym links true dest todo
   else if bool_decide (c = "..") then evalSym links true (removelast dest) todo
   else estep links true dest c todo) w.
Proof. destruct links; reflexivity. Qed.

(** What EvalSymlinks finds. *)
Definition resolved (t : tree) (p : list string) : Prop :=
  Forall plain p /\ phys t p /\ match nodeAt t p with Some (Symlink _) | None => False | _ => True end.

Lemma resolved_nil t : resolved t [].
Proof. split_and!; [done|apply phys_nil|done]. Qed.

Lemma isAbs_todo l : Forall noSlash (SplitByte slash l).
Proof. apply SplitByte_no_byte. Qed.

(** A directory to go on from. *)
Definition dirAt (t : tree) (p : list string) : Prop := Forall plain p /\ phys t p /\ nodeAt t p = Some Directory.

Lemma dirAt_nil t : dirAt t [].
Proof. split_and!; [done|apply phys_nil|done]. Qed.
Lemma dirAt_up t p : dirAt t p -> dirAt t (removelast p).
Proof. intros (H1 & H2 & H3). split_and!; [by apply plain_removelast|by apply phys_removelast|by apply removelast_dir]. Qed.
Lemma dirAt_resolved t p : dirAt t p -> resolved t p.
Proof. intros (H1 & H2 & H3). split_and!; [done|done|by rewrite H3]. Qed.
Lemma dirAt_snoc t p c : dirAt t p -> plain c -> Forall plain (p ++ [c]) /\ phys t (p ++ [c]).
Proof. intros (H1 & H2 & H3) Hc. split; [apply Forall_app_2; [done|by apply Forall_singleton]|by apply phys_snoc]. Qed.

Definition evalOk (t : tree) (r : res fileError (bool * list string)) : Prop :=
  match r with Ok (rooted, p) => rooted = true /\ resolved t p | Err _ => True end.

Definition isFault (e : fileError) : Prop := exists text, fe_Errno e = Some (Fault text).

(** What a step comes to: a call of it fails by itself, or it does what the node
    asks for. *)
Definition stepsTo (links : nat) (dest : list string) (c : string) (todo : list string) (w : World) (r : res fileError (bool * list string) * World) : Prop :=
  match nodeAt (w_tree w) (dest ++ [c]) with
  | None => exists e, r.1 = Err e /\ fe_Errno e = Some ENOENT /\ w_tree r.2 = w_tree w
  | Some Directory => exists w', w_tree w' = w_tree w /\ r = evalSym links true (dest ++ [c]) todo w'
  | Some (File _ _) =>
      exists w', w_tree w' = w_tree w /\
        r = if bool_decide (todo = []) then (Ok (true, dest ++ [c]), w') else (Err (mkFileError (errnoText ENOTDIR) (Some ENOTDIR)), w')
  | Some (Symlink l) =>
      exists w', w_tree w' = w_tree w /\
        match links with
        | O => r = (Err (mkFileError "EvalSymlinks: too many links" None), w')
        | S links' => r = evalSym links' true (if isAbs l then [] else dest) (SplitByte slash l ++ todo) w'
        end
  end.

Lemma estep_cases links dest c todo w : dirAt (w_tree w) dest -> plain c ->
  (exists e w', estep links true dest c todo w = (Err e, w') /\ isFault e /\ w_tree w' = w_tree w) \/
  stepsTo links dest c todo w (estep links true dest c todo w).
Proof.
  intros Hd Hc. destruct (dirAt_snoc _ _ _ Hd Hc) as [He Hp]. unfold estep. rewrite M_bind_eq.
  destruct (Lstat_phys (dest ++ [c]) w He Hp) as [Ht Hr].
  destruct (Lstat fault cwd (renderPath true (dest ++ [c])) w) as [r w1]. cbn [fst snd] in *.
  destruct Hr as [[text ->] | ->]; [left; eexists _, _; split; [reflexivity|]; split; [by eexists|done]|].
  unfold stepsTo, atPath. destruct (nodeAt (w_tree w) (dest ++ [c])) as [[|data perm|l]|] eqn:En;
    [right; by exists w1| right; exists w1; split; [done|]; case_bool_decide as Hn; [by rewrite Hn, evalSym_nil|done]| |right; by eexists].
  destruct links as [|links']; [right; by exists w1|]. rewrite M_bind_eq.
  destruct (Readlink_phys (dest ++ [c]) w1 l) as [Ht2 Hr2]; [done|by rewrite Ht|by rewrite Ht|].
  destruct (Readlink fault cwd _ w1) as [r2 w2]. cbn [fst snd] in *. rewrite Ht in Ht2.
  destruct Hr2 as [[text ->] | ->]; [left; eexists _, _; split; [reflexivity|]; split; [by eexists|done]|].
  right. exists w2. by rewrite orb_true_r.
Qed.

Lemma evalSym_resolved links dest todo w : Forall noSlash todo -> resolved (w_tree w) dest -> (todo <> [] -> dirAt (w_tree w) dest) ->
  w_tree (evalSym links true dest todo w).2 = w_tree w /\ evalOk (w_tree w) (evalSym links true dest todo w).1.
Proof.
  revert dest todo w. induction links as [links IHl] using lt_wf_ind. intros dest todo. revert dest.
  induction todo as [|c todo IH]; intros dest w Hs Hr Hd; [rewrite evalSym_nil; by split|].
  apply Forall_cons in Hs as [Hc Hs]. specialize (Hd ltac:(done)). rewrite evalSym_cons.
  case_bool_decide as H1; [by apply IH|]. case_bool_decide as H2; [by apply IH|]. cbn [orb].
  case_bool_decide as H3; [apply IH; [done|by apply dirAt_resolved, dirAt_up|by intros; apply dirAt_up]|].
  destruct (estep_cases links dest c todo w Hd (plain_noSlash _ Hc H1 H2 H3)) as [(e & w' & -> & _ & Ht)|Hstep]; [by split|].
  destruct (dirAt_snoc _ _ _ Hd (plain_noSlash _ Hc H1 H2 H3)) as [He Hp]. unfold stepsTo in Hstep.
  destruct (nodeAt (w_tree w) (dest ++ [c])) as [[|data perm|l]|] eqn:En.
  - destruct Hstep as (w' & Ht & ->). rewrite <- Ht in *. assert (dirAt (w_tree w') (dest ++ [c])) by by split_and!. apply IH; [done|by apply dirAt_resolved|done].
  - destruct Hstep as (w' & Ht & ->). case_bool_decide; (split; [done|]); [|done]. split; [done|]. split_and!; [done|done|by rewrite En].
  - destruct Hstep as (w' & Ht & Hr'). destruct links as [|links']; rewrite Hr'; [by split|]. rewrite <- Ht in *.
    assert (dirAt (w_tree w') (if isAbs l then [] else dest)) by (destruct (isAbs l); [apply dirAt_nil|done]).
    apply IHl; [lia|apply Forall_app_2; [apply isAbs_todo|done]|by apply dirAt_resolved|done].
  - destruct Hstep as (e & E & _ & Ht). by rewrite E.
Qed.

(** Where the kernel comes to an end, EvalSymlinks comes to the same one, unless a
    call fails by itself or there are too many links. *)
Definition agrees (x : lookupResult) (r : res fileError (bool * list string)) : Prop :=
  (exists e, r = Err e /\ (isFault e \/ fe_Errno e = None)) \/
  match x with
  | At p _ => r = Ok (true, p)
  | Refused ENOTDIR => exists e, r = Err e /\ fe_Errno e = Some ENOTDIR
  | _ => True
  end.

Lemma kwalk_eval k links dest todo w : Forall noSlash todo -> (todo <> [] -> dirAt (w_tree w) dest) ->
  agrees (kwalk k (w_tree w) true dest todo) (evalSym links true dest todo w).1.
Proof.
  revert links dest todo w. induction k as [k IHk] using lt_wf_ind. intros links dest todo. revert dest.
  induction todo as [|c todo IH]; intros dest w Hs Hd.
  { rewrite kwalk_nil, evalSym_nil. right. by destruct (nodeAt (w_tree w) dest). }
  apply Forall_cons in Hs as [Hc Hs]. specialize (Hd ltac:(done)). rewrite evalSym_cons, kwalk_cons by apply Hd.
  case_bool_decide as H1; [by apply IH|]. case_bool_decide as H2; [by apply IH|]. cbn [orb].
  case_bool_decide as H3; [apply IH; [done|by intros; apply dirAt_up]|].
  destruct (estep_cases links dest c todo w Hd (plain_noSlash _ Hc H1 H2 H3)) as [(e & w' & -> & Hf & Ht)|Hstep]; [left; exists e; eauto|].
  destruct (dirAt_snoc _ _ _ Hd (plain_noSlash _ Hc H1 H2 H3)) as [He Hp]. unfold stepsTo in Hstep. unfold kstep.
  destruct (nodeAt (w_tree w) (dest ++ [c])) as [[|data perm|l]|] eqn:En.
  - destruct Hstep as (w' & Ht & ->). rewrite <- Ht in *. apply IH; [done|by intros; split_and!].
  - destruct Hstep as (w' & Ht & ->). destruct todo as [|c' todo].
    + rewrite kwalk_nil, En. rewrite bool_decide_true by done. by right.
    + rewrite bool_decide_false by done. right. destruct k; cbn [kwalk]; rewrite En; by eexists.
  - cbn [orb]. destruct k as [|k]; [by right|]. destruct Hstep as (w' & Ht & Hr).
    destruct links as [|links]; rewrite Hr; [left; eexists; split; [reflexivity|by right]|]. rewrite <- Ht in *.
    apply (IHk k); [lia|apply Forall_app_2; [apply isAbs_todo|done]|intros _; destruct (isAbs l); [apply dirAt_nil|done]].
  - right. by destruct todo.
Qed.

(** And what EvalSymlinks finds the kernel finds, with as many links. *)
Lemma eval_kwalk links dest todo w p : Forall noSlash todo -> (todo <> [] -> dirAt (w_tree w) dest) -> nodeAt (w_tree w) dest <> None ->
  (evalSym links true dest todo w).1 = Ok (true, p) -> exists n, kwalk links (w_tree w) true dest todo = At p n.
Proof.
  revert dest todo w. induction links as [links IHl] using lt_wf_ind. intros dest todo. revert dest.
  induction todo as [|c todo IH]; intros dest w Hs Hd Hn.
  { rewrite kwalk_nil, evalSym_nil. intros [= ->]. destruct (nodeAt (w_tree w) p); [by eexists|done]. }
  apply Forall_cons in Hs as [Hc Hs]. specialize (Hd ltac:(done)). rewrite evalSym_cons, kwalk_cons by apply Hd.
  case_bool_decide as H1; [by apply IH|]. case_bool_decide as H2; [by apply IH|]. cbn [orb].
  case_bool_decide as H3; [apply IH; [done|by intros; apply dirAt_up|by rewrite (proj2 (proj2 (dirAt_up _ _ Hd)))]|].
  destruct (estep_cases links dest c todo w Hd (plain_noSlash _ Hc H1 H2 H3)) as [(e & w' & -> & Hf & Ht)|Hstep]; [done|].
  destruct (dirAt_snoc _ _ _ Hd (plain_noSlash _ Hc H1 H2 H3)) as [He Hp]. unfold stepsTo in Hstep. unfold kstep.
  destruct (nodeAt (w_tree w) (dest ++ [c])) as [[|data perm|l]|] eqn:En.
  - destruct Hstep as (w' & Ht & ->). rewrite <- Ht in *. apply IH; [done|by intros; split_and!|by rewrite En].
  - destruct Hstep as (w' & Ht & ->). case_bool_decide as Htodo; [|done]. intros [= <-]. rewrite Htodo, kwalk_nil, En. by eexists.
  - cbn [orb]. destruct Hstep as (w' & Ht & Hr). destruct links as [|links]; rewrite Hr; [done|]. rewrite <- Ht in *.
    assert (dirAt (w_tree w') (if isAbs l then [] else dest)) as Hdir by (destruct (isAbs l); [apply dirAt_nil|done]).
    apply (IHl links); [lia|apply Forall_app_2; [apply isAbs_todo|done]|done|by rewrite (proj2 (proj2 Hdir))].
  - destruct Hstep as (e & E & _). by rewrite E.
Qed.
End Calls.

(** More links, and a path in two parts. *)
Definition settled (x : lookupResult) : Prop := match x with At _ _ | Refused ENOTDIR => True | _ => False end.

Lemma kwalk_blocked k t follow dest c todo : nodeAt t dest <> Some Directory ->
  kwalk k t follow dest (c :: todo) = match nodeAt t dest with Some _ => Refused ENOTDIR | None => Refused ENOENT end.
Proof. intros Hd. destruct k; cbn [kwalk]; by destruct (nodeAt t dest) as [[]|]. Qed.

Lemma kwalk_more k m t follow dest todo : settled (kwalk k t follow dest todo) ->
  kwalk (k + m) t follow dest todo = kwalk k t follow dest todo.
Proof.
  revert dest todo. induction k as [k IHk] using lt_wf_ind. intros dest todo. revert dest.
  induction todo as [|c todo IH]; intros dest Hs; [by rewrite !kwalk_nil|].
  destruct (decide (nodeAt t dest = Some Directory)) as [Hd|Hd]; [|by rewrite !kwalk_blocked].
  rewrite !kwalk_cons in * by done. case_bool_decide; [by apply IH|]. case_bool_decide; [by apply IH|]. cbn [orb] in *.
  case_bool_decide; [by apply IH|]. unfold kstep in *. destruct (nodeAt t (dest ++ [c])) as [[|data perm|l]|]; [by apply IH..| |done].
  destruct (follow || negb (bool_decide (todo = []))); [|done]. destruct k as [|k]; [done|]. cbn [plus]. apply IHk; [lia|done].
Qed.

Lemma kwalk_app k1 k2 t dest xs ys p n : kwalk k1 t true dest xs = At p n -> settled (kwalk k2 t true p ys) ->
  kwalk (k1 + k2) t true dest (xs ++ ys) = kwalk k2 t true p ys.
Proof.
  revert dest xs. induction k1 as [k1 IHk] using lt_wf_ind. intros dest xs. revert dest.
  induction xs as [|c xs IH]; intros dest Hx Hs.
  { rewrite kwalk_nil in Hx. destruct (nodeAt t dest) as [m|]; [|done]. injection Hx as -> ->. rewrite Nat.add_comm. by apply kwalk_more. }
  destruct (decide (nodeAt t dest = Some Directory)) as [Hd|Hd]; [|rewrite kwalk_blocked in Hx by done; by destruct (nodeAt t dest)].
  cbn [app]. rewrite kwalk_cons in Hx |- * by done. case_bool_decide; [by apply IH|]. case_bool_decide; [by apply IH|]. cbn [orb] in *.
  case_bool_decide; [by apply IH|]. unfold kstep in *. destruct (nodeAt t (dest ++ [c])) as [[|data perm|l]|]; [by apply IH..| |by destruct xs].
  cbn [orb] in *. destruct k1 as [|k1]; [done|]. cbn [plus]. rewrite app_assoc. by apply IHk; [lia|..].
Qed.

(** A path that leads somewhere leads somewhere on the way. *)
Lemma kwalk_way k t dest xs ys p n : kwalk k t true dest (xs ++ ys) = At p n -> exists q m, kwalk k t true dest xs = At q m.
Proof.
  revert dest xs. induction k as [k IHk] using lt_wf_ind. intros dest xs. revert dest.
  induction xs as [|c xs IH]; intros dest Hx.
  { rewrite kwalk_nil. cbn [app] in Hx. destruct (nodeAt t dest) as [m|] eqn:E; [by eexists _, _|].
    destruct ys; [by rewrite kwalk_nil, E in Hx|]. by rewrite kwalk_blocked, E in Hx by by rewrite E. }
  cbn [app] in Hx. destruct (decide (nodeAt t dest = Some Directory)) as [Hd|Hd]; [|rewrite kwalk_blocked in Hx by done; by destruct (nodeAt t dest)].
  rewrite kwalk_cons in Hx |- * by done. case_bool_decide; [by apply IH|]. case_bool_decide; [by apply IH|]. cbn [orb] in *.
  case_bool_decide; [by apply IH|]. unfold kstep in *. destruct (nodeAt t (dest ++ [c])) as [[|data perm|l]|]; [by apply IH..| |by destruct (xs ++ ys)].
  cbn [orb] in *. destruct k as [|k]; [done|]. rewrite app_assoc in Hx. by eapply IHk; [lia|].
Qed.
