(* ===== verification/Tools.v ===== *)
(** * Tools: the built-in file tools

    internal/tools: path.go, read.go, write.go and edit.go over the file system
    of GoFiles, and the parameters of a call.  A tool answers with text, also
    where it fails.  At the end, what an edit does to a text. *)

From Stdlib Require Import Ascii String.
From Stdlib Require Import Floats.SpecFloat.
From S2P Require Import Prelude GoStrings GoText GoJsonText GoFloat GoPath AiTypes SandboxExecute GoFiles.

Local Open Scope string_scope.
Local Open Scope list_scope.
Local Open Scope stdpp_scope.
Local Open Scope go_scope.

Definition itoa (n : Z) : string := pretty n.

(** ** Texts *)

(** strings.Cut at the first [sub]. *)
Fixpoint CutSub (sub s : string) : option (string * string) :=
  match CutPrefix sub s with
  | Some rest => Some ("", rest)
  | None => match s with "" => None | String c s' => (fun ba => (String c ba.1, ba.2)) <$> CutSub sub s' end
  end.
(** strings.Split at a non-empty [sub]; the parts are one more than strings.Count. *)
Fixpoint splitSub (fuel : nat) (sub s : string) : list string :=
  match fuel, CutSub sub s with
  | S fuel', Some (before, after) => before :: splitSub fuel' sub after
  | _, _ => [s]
  end.
Definition SplitSub (sub s : string) : list string := splitSub (String.length s) sub s.
Definition Count (s sub : string) : Z := Z.of_nat (length (SplitSub sub s)) - 1.
(** strings.Replace(s, old, new, 1) and strings.ReplaceAll. *)
Definition Replace1 (s old new : string) : string :=
  match CutSub old s with Some (before, after) => (before +:+ new +:+ after)%string | None => s end.
Definition ReplaceAll (s old new : string) : string := Join (SplitSub old s) new.

(** "%6d". *)
Definition pad6 (n : Z) : string := let d := itoa n in (repeatString (6 - String.length d) " " +:+ d)%string.
(** "%6d\t%s\n". *)
Definition numbered (n : Z) (line : string) : string := (pad6 n +:+ String tab line +:+ String newline "")%string.

Definition concatAll (l : list string) : string := foldr String.append "" l.

(** ** Parameters and responses *)

Definition boolParam (params : gmap string any) (key : string) : bool :=
  match params !! key with Some (ABool b) => b | _ => false end.

(** int(f): towards zero; [overflow] is what the machine makes of a value that is
    not an int, which Go leaves open. *)
Definition truncateF (overflow : float64 -> Z) (f : float64) : Z :=
  match f with
  | S754_zero _ => 0
  | S754_finite s m e =>
      let n := if bool_decide (0 <= e)%Z then (Z.pos m * 2 ^ e)%Z else (Z.pos m / 2 ^ (- e))%Z in
      let n := if s then (- n)%Z else n in
      if bool_decide (- 2 ^ 63 <= n < 2 ^ 63)%Z then n else overflow f
  | _ => overflow f
  end.

Definition textResponse (text : string) : ToolResponse := mkToolResponse [TextContent text ""] "" None.
(** The same as [textResponse]. *)
Definition errorResponse (msg : string) : ToolResponse := mkToolResponse [TextContent msg ""] "" None.

Section Tools.
Context (fault : nat -> option string) (cwd : list string) (random : nat -> Z) (overflow : float64 -> Z).

Notation FS := (M World).
Notation EvalSymlinks := (EvalSymlinks fault cwd).
Notation Stat := (Stat fault cwd).

Definition intParam (params : gmap string any) (key : string) (defaultVal : Z) : Z :=
  match params !! key with
  | Some (AFloat f) => truncateF overflow f
  | Some (AInt n) => n
  | _ => defaultVal
  end.

(** ** path.go *)

(** [isUnderRoot]. *)
Definition isUnderRoot (path root : string) : bool := bool_decide (path = root) || HasPrefix path (root +:+ "/")%string.

(** The loop of [resolveWithAncestors]; [abs] where it falls through. *)
Fixpoint ancestorLoop (fuel : nat) (abs current : string) (tail : list string) : FS (res fileError string) :=
  match fuel with
  | O => mret (Ok abs)
  | S fuel' =>
      let parent := Dir current in
      let tail := Base current :: tail in
      if bool_decide (parent = current) then mret (Ok abs)
      else
        r ← EvalSymlinks parent;
        match r with
        | Ok resolved => mret (Ok (foldl (fun resolved part => JoinPath [resolved; part]) resolved tail))
        | Err e => if IsNotExist e then ancestorLoop fuel' abs parent tail else mret (Err e)
        end
  end.

(** Every round goes up, so there are no more than the path has bytes. *)
Definition resolveWithAncestors (abs : string) : FS (res fileError string) :=
  r ← EvalSymlinks abs;
  match r with
  | Ok resolved => mret (Ok resolved)
  | Err e => if IsNotExist e then ancestorLoop (S (String.length abs)) abs abs [] else mret (Err e)
  end.

Definition absPath (rootDir path : string) : string := if isAbs path then Clean path else Clean (JoinPath [rootDir; path]).

Definition resolveSafePath (rootDir path : string) : FS (res string string) :=
  if bool_decide (path = "") then mret (Err "empty path")
  else
    r ← resolveWithAncestors (absPath rootDir path);
    match r with
    | Err e => mret (Err ("path resolution failed: " +:+ fe_Text e)%string)
    | Ok resolved =>
        r ← EvalSymlinks rootDir;
        mret match r with
             | Err e => Err ("root dir not accessible: " +:+ fe_Text e)%string
             | Ok resolvedRoot =>
                 if isUnderRoot resolved resolvedRoot then Ok resolved
                 else Err ("path " +:+ quote path +:+ " escapes workspace root")%string
             end
    end.

(** ** read.go *)

Definition defaultReadLimit : Z := 2000.
Definition maxReadFileSize : Z := 10 * 1024 * 1024.
Definition maxLineLength : Z := 2000.

Definition clip (limit : Z) (suffix line : string) : string :=
  if bool_decide (Z.of_nat (String.length line) > limit)%Z then (substring 0 (Z.to_nat limit) line +:+ suffix)%string else line.

(** The lines from [offset] up to [end_], with their numbers. *)
Definition showLines (lines : list string) (offset end_ : Z) : string :=
  concatAll (imap (fun k line => numbered (offset + Z.of_nat k + 1) (clip maxLineLength "... (truncated)" line))
    (take (Z.to_nat (end_ - offset)) (drop (Z.to_nat offset) lines))).

(** What [executeReadFile] answers for the data. *)
Definition window (data : string) (offset limit : Z) : string :=
  let limit := if bool_decide (limit <= 0)%Z then defaultReadLimit else limit in
  let lines := SplitByte newline data in
  let totalLines := Z.of_nat (length lines) in
  let offset := if bool_decide (offset < 0)%Z then 0%Z else offset in
  if bool_decide (offset >= totalLines)%Z then ("offset " +:+ itoa offset +:+ " beyond end of file (" +:+ itoa totalLines +:+ " lines)")%string
  else
    let end0 := wrap64 (offset + limit) in
    let truncated := bool_decide (end0 < totalLines)%Z in
    let end_ := if bool_decide (end0 > totalLines)%Z then totalLines else end0 in
    (showLines lines offset end_ +:+
     (if truncated then String newline "(showing lines " +:+ itoa (offset + 1) +:+ "-" +:+ itoa end_ +:+ " of " +:+ itoa totalLines +:+ " total)" else ""))%string.

Definition fileSize (n : node) : Z := match n with File data _ => Z.of_nat (String.length data) | _ => 0 end.

Definition executeReadFile (rootDir : string) (params : gmap string any) : FS ToolResponse :=
  let path := stringParam params "path" in
  if bool_decide (path = "") then mret (errorResponse "missing required parameter: path")
  else
    r ← resolveSafePath rootDir path;
    match r with
    | Err msg => mret (errorResponse msg)
    | Ok resolved =>
        r ← Stat resolved;
        match r with
        | Err e => mret (errorResponse (if IsNotExist e then "file not found: " +:+ path else "cannot access file: " +:+ fe_Text e)%string)
        | Ok info =>
            if isDir info then mret (errorResponse (path +:+ " is a directory, not a file")%string)
            else if bool_decide (fileSize info > maxReadFileSize)%Z then
              mret (errorResponse ("file too large: " +:+ itoa (fileSize info) +:+ " bytes (max " +:+ itoa maxReadFileSize +:+ ")")%string)
            else
              r ← ReadFile fault cwd resolved;
              mret match r with
                   | Err e => errorResponse ("read error: " +:+ fe_Text e)%string
                   | Ok data => textResponse (window data (intParam params "offset" 0) (intParam params "limit" defaultReadLimit))
                   end
        end
    end.

(** ** write.go *)

(** The steps of [atomicWriteFile] once there is a temporary file; any failure
    ends them. *)
Definition fillAndRename (path tmpName : string) (tmp : list string) (data : string) (perm : Z) : FS (res string ()) :=
  let step (what : string) (m : FS (res fileError ())) (k : FS (res string ())) : FS (res string ()) :=
    r ← m; match r with Err e => mret (Err (what +:+ ": " +:+ fe_Text e)%string) | Ok _ => k end in
  step "write" (fileWrite fault tmpName tmp data)
    (step "fsync" (fileSync fault tmpName tmp)
      (step "close" (fileClose fault tmpName tmp)
        (step "chmod" (Chmod fault cwd tmpName perm)
          (step "rename" (Rename fault cwd tmpName path) (mret (Ok ())))))).

(** [atomicWriteFile], with the deferred clean-up of a failure. *)
Definition atomicWriteFile (path data : string) (perm : Z) : FS (res string ()) :=
  r ← CreateTemp fault cwd random (Dir path) ".tmp-write-";
  match r with
  | Err e => mret (Err ("create temp file: " +:+ fe_Text e)%string)
  | Ok (tmpName, tmp) =>
      r ← fillAndRename path tmpName tmp data perm;
      match r with
      | Ok _ => mret (Ok ())
      | Err msg => fileClose fault tmpName tmp;; Remove fault cwd tmpName;; mret (Err msg)
      end
  end.

Definition perm644 : Z := 6 * 64 + 4 * 8 + 4.

Definition executeWriteFile (rootDir : string) (params : gmap string any) : FS ToolResponse :=
  let path := stringParam params "path" in
  if bool_decide (path = "") then mret (errorResponse "missing required parameter: path")
  else
    let content := stringParam params "content" in
    r ← resolveSafePath rootDir path;
    match r with
    | Err msg => mret (errorResponse msg)
    | Ok resolved =>
        let dir := Dir resolved in
        ready ← (if boolParam params "create_dirs" then
                   r ← MkdirAll fault cwd dir;
                   mret match r with Err e => Err ("cannot create directories: " +:+ fe_Text e)%string | Ok _ => Ok () end
                 else
                   r ← Stat dir;
                   mret match r with
                        | Err _ => Err ("directory does not exist: " +:+ Dir path +:+ " (set create_dirs=true to create)")%string
                        | Ok _ => Ok ()
                        end : FS (res string ()));
        match ready with
        | Err msg => mret (errorResponse msg)
        | Ok _ =>
            r ← atomicWriteFile resolved content perm644;
            mret match r with
                 | Err msg => errorResponse ("write error: " +:+ msg)%string
                 | Ok _ => textResponse ("wrote " +:+ itoa (Z.of_nat (String.length content)) +:+ " bytes to " +:+ path)%string
                 end
        end
    end.

(** ** edit.go *)

(** [mismatchResponse]: the whole of a short file, or the neighbourhood of a line
    that holds the first line looked for. *)
Fixpoint firstLine (i : nat) (part : string) (lines : list string) : option nat :=
  match lines with [] => None | l :: rest => if Contains l part then Some i else firstLine (S i) part rest end.
Definition mismatchResponse (path oldStr content : string) : ToolResponse :=
  let msg := ("old_string not found in " +:+ path)%string in
  let lines := SplitByte newline content in
  let nl := String newline "" in
  errorResponse
    (if bool_decide (length lines <= 20)%nat then
       (msg +:+ nl +:+ nl +:+ "File has " +:+ itoa (Z.of_nat (length lines)) +:+ " lines. Full content:" +:+ nl +:+ content)%string
     else
       let first := default "" (head (SplitByte newline oldStr)) in
       if bool_decide (first = "") then msg
       else
         match firstLine 0 (TrimSpace first) lines with
         | None => msg
         | Some i =>
             let start := if bool_decide (2 < i)%nat then (i - 2)%nat else i in
             let end_ := Nat.min (i + 5) (length lines) in
             (msg +:+ nl +:+ nl +:+ "Nearest partial match around line " +:+ itoa (Z.of_nat i + 1) +:+ ":" +:+ nl +:+
              concatAll (imap (fun k line => numbered (Z.of_nat (start + k) + 1) line) (take (end_ - start) (drop start lines))))%string
         end).

(** What [executeEditFile] makes of the content: an answer, or the new content
    and the number of replacements. *)
Definition editContent (path content oldStr newStr : string) (replaceAll : bool) : ToolResponse + (string * Z) :=
  let count := Count content oldStr in
  if bool_decide (count = 0)%Z then inl (mismatchResponse path oldStr content)
  else if negb replaceAll && bool_decide (count > 1)%Z then
    inl (errorResponse ("old_string found " +:+ itoa count +:+ " times in " +:+ path +:+
      " " +:+ of_bytes [226; 128; 148]%Z +:+ " provide more context to uniquely identify the target, or set replace_all=true")%string)
  else if replaceAll then inr (ReplaceAll content oldStr newStr, count) else inr (Replace1 content oldStr newStr, 1%Z).

Definition executeEditFile (rootDir : string) (params : gmap string any) : FS ToolResponse :=
  let path := stringParam params "path" in
  if bool_decide (path = "") then mret (errorResponse "missing required parameter: path")
  else
    let oldStr := stringParam params "old_string" in
    if bool_decide (oldStr = "") then mret (errorResponse "missing required parameter: old_string")
    else
      let newStr := stringParam params "new_string" in
      r ← resolveSafePath rootDir path;
      match r with
      | Err msg => mret (errorResponse msg)
      | Ok resolved =>
          r ← ReadFile fault cwd resolved;
          match r with
          | Err e => mret (errorResponse (if IsNotExist e then "file not found: " +:+ path else "read error: " +:+ fe_Text e)%string)
          | Ok content =>
              match editContent path content oldStr newStr (boolParam params "replace_all") with
              | inl resp => mret resp
              | inr (result, replacements) =>
                  r ← atomicWriteFile resolved result perm644;
                  mret match r with
                       | Err msg => errorResponse ("write error: " +:+ msg)%string
                       | Ok _ => textResponse ("edited " +:+ path +:+ ": " +:+ itoa replacements +:+ " replacement(s) made")%string
                       end
              end
          end
      end.
End Tools.

(** ** What goes wrong *)

Module Demo.
Definition t0 : tree := list_to_map
  [(["w"], Directory); (["w"; "run.sh"], File "aaa" 493); (["w"; "out"], Symlink "/etc/passwd"); (["etc"], Directory); (["etc"; "passwd"], File "root" 420)].
Definition none (n : nat) : option string := None.
Definition world : World := mkWorld t0 0.
Definition zero (f : float64) : Z := 0.
Definition clock (n : nat) : Z := 7.
Definition text (r : ToolResponse) : string := match tp_Content r with [TextContent s _] => s | _ => "" end.
Definition read (cwd : list string) (rootDir path : string) : string :=
  text (executeReadFile none cwd zero rootDir {["path" := AString path]} world).1.
Definition edit (params : list (string * any)) : string * option node :=
  let '(r, w) := executeEditFile none [] clock "/w" (list_to_map params) world in (text r, w_tree w !! ["w"; "run.sh"]).

(** The default root of the local environment is ".", below which no path is
    found to lie; nor below "/". *)
Example default_root : read ["w"] "." "run.sh" = "path " +:+ quote "run.sh" +:+ " escapes workspace root" /\
  read [] "/" "/w/run.sh" = "path " +:+ quote "/w/run.sh" +:+ " escapes workspace root" /\
  read [] "/w" "run.sh" = numbered 1 "aaa" /\ read [] "/w" "out" = "path " +:+ quote "out" +:+ " escapes workspace root".
Proof. vm_compute. done. Qed.

(** Two occurrences that overlap count as one, so the text to replace need not
    be the only one; and an edited script can no longer be executed. *)
Example edit_overlapping :
  edit [("path", AString "run.sh"); ("old_string", AString "aa"); ("new_string", AString "b")] =
  ("edited run.sh: 1 replacement(s) made", Some (File "ba" 420)).
Proof. vm_compute. reflexivity. Qed.

(** A write to the root itself goes through a temporary file next to the root,
    outside of it, which stays there when it cannot be removed. *)
Example write_beside_root :
  let fault n := if bool_decide (n = 10)%nat then Some "input/output error" else None in
  let '(r, w) := executeWriteFile fault [] clock "/w" {["path" := AString "."]} world in
  (text r, w_tree w !! [".tmp-write-7"]) = ("write error: rename: rename /.tmp-write-7 /w: file exists", Some (File "" 420)).
Proof. vm_compute. reflexivity. Qed.

(** A limit near the end of the 64-bit range wraps and shows no line. *)
Example window_wraps :
  window ("a" +:+ String newline "b") 1 (2 ^ 63 - 1) = String newline "(showing lines 2--9223372036854775808 of 2 total)".
Proof. vm_compute. reflexivity. Qed.
End Demo.

(** The first occurrence. *)
Lemma CutSub_spec sub s : sub <> "" ->
  match CutSub sub s with
  | Some (before, after) => s = (before +:+ sub +:+ after)%string /\ Contains before sub = false
  | None => Contains s sub = false
  end.
Proof.
  intros Hne. induction s as [|c s IH]; cbn [CutSub].
  - destruct (CutPrefix sub "") as [rest|] eqn:E; [apply CutPrefix_Some in E; by destruct sub|].
    cbn [Contains]. unfold HasPrefix. by rewrite E.
  - destruct (CutPrefix sub (String c s)) as [rest|] eqn:E.
    + apply CutPrefix_Some in E. split; [done|]. cbn. unfold HasPrefix. destruct sub; [done|]. cbn. done.
    + destruct (CutSub sub s) as [[before after]|]; cbn.
      * destruct IH as [-> Hb]. split; [done|]. rewrite Hb, orb_false_r. apply not_true_iff_false. intros [u Hu]%HasPrefix_spec.
        assert (CutPrefix sub (String c (before +:+ sub +:+ after)) = Some (u +:+ sub +:+ after)%string); [|congruence].
        apply CutPrefix_Some. rewrite <- append_cons, Hu. symmetry. apply append_assoc_l.
      * unfold HasPrefix. by rewrite E.
Qed.

Lemma Join_cons x l sep : l <> [] -> Join (x :: l) sep = (x +:+ sep +:+ Join l sep)%string.
Proof. by destruct l. Qed.

Lemma splitSub_parts fuel sub s : sub <> "" -> String.length s <= fuel ->
  let parts := splitSub fuel sub s in
  s = Join parts sub /\ Forall (fun part => Contains part sub = false) parts /\ parts <> [].
Proof.
  intros Hne. revert s. induction fuel as [|fuel IH]; intros s Hf; cbn [splitSub].
  - destruct s; [|cbn in Hf; lia]. split_and!; [done| |done]. apply Forall_singleton. by destruct sub.
  - pose proof (CutSub_spec sub s Hne) as H. destruct (CutSub sub s) as [[before after]|]; [|split_and!; [done|by apply Forall_singleton|done]].
    destruct H as [-> Hb]. destruct (IH after) as (E & Hp & Hn).
    { rewrite !length_append in Hf. destruct sub; [done|]. cbn in Hf. lia. }
    split_and!; [|by constructor|done]. rewrite Join_cons by done. by rewrite <- E.
Qed.

Lemma SplitSub_spec sub s : sub <> "" ->
  s = Join (SplitSub sub s) sub /\ Forall (fun part => Contains part sub = false) (SplitSub sub s) /\ SplitSub sub s <> [].
Proof. intros H. by apply splitSub_parts. Qed.

(** Counting is splitting: nothing found, or a first occurrence and more. *)
Lemma SplitSub_cut sub s : sub <> "" ->
  match CutSub sub s with
  | Some (before, after) => SplitSub sub s = before :: splitSub (pred (String.length s)) sub after
  | None => SplitSub sub s = [s]
  end.
Proof.
  intros Hne. unfold SplitSub. destruct s as [|c s].
  - cbn [String.length splitSub]. pose proof (CutSub_spec sub "" Hne) as H. destruct (CutSub sub "") as [[b a]|]; [|done].
    destruct H as [H _]. destruct b; [|done]. by destruct sub.
  - cbn [String.length splitSub pred]. by destruct (CutSub sub (String c s)) as [[b a]|].
Qed.

Lemma Count_zero sub s : sub <> "" -> Count s sub = 0%Z <-> Contains s sub = false.
Proof.
  intros Hne. unfold Count. pose proof (SplitSub_cut sub s Hne) as H. pose proof (CutSub_spec sub s Hne) as Hc.
  pose proof (SplitSub_spec sub s Hne) as (_ & _ & Hn).
  destruct (CutSub sub s) as [[before after]|]; rewrite H; cbn [length]; [|split; [done|lia]]. destruct Hc as [-> Hb].
  assert (splitSub (pred (String.length (before +:+ sub +:+ after))) sub after <> []) as Hl.
  { destruct (pred _); cbn [splitSub]; [done|]. by destruct (CutSub sub after) as [[]|]. }
  destruct (splitSub _ _ _); [done|]. cbn [length]. split; [lia|]. intros Hf. exfalso.
  assert (Contains (before +:+ sub +:+ after) sub = true) as Ht; [|congruence]. apply Contains_spec. by exists before, after.
Qed.

(** Two occurrences that do not overlap. *)
Definition ambiguous (s sub : string) : Prop := exists a b c, s = (a +:+ sub +:+ b +:+ sub +:+ c)%string.

Lemma parts_ambiguous parts sub : (2 < length parts)%nat -> ambiguous (Join parts sub) sub.
Proof.
  intros H. destruct parts as [|a [|b [|c l]]]; try (cbn in H; lia). exists a, b, (Join (c :: l) sub). done.
Qed.

(** [content] cut at every occurrence of [sub] that is found when it is read
    from the left and each search goes on after the text found: no part has an
    occurrence, and none begins before the end of a part that the text follows. *)
Definition cutAt (content sub : string) (parts : list string) : Prop :=
  content = Join parts sub /\ Forall (fun part => Contains part sub = false) parts /\
  Forall (fun part => forall a b, (part +:+ sub = a +:+ sub +:+ b)%string -> b = "") (removelast parts).

Lemma CutSub_first sub s before after a b : CutSub sub s = Some (before, after) -> s = (a +:+ sub +:+ b)%string ->
  String.length before <= String.length a.
Proof.
  revert before a. induction s as [|c s IH]; intros before a Hc Hs; cbn [CutSub] in Hc.
  - destruct (CutPrefix sub ""); [injection Hc as <- <-; cbn; lia|done].
  - destruct (CutPrefix sub (String c s)) as [rest|] eqn:E; [injection Hc as <- <-; cbn; lia|].
    destruct (CutSub sub s) as [[before' after']|]; [|done]. injection Hc as <- <-. destruct a as [|c' a].
    + exfalso. assert (CutPrefix sub (String c s) = Some b); [by apply CutPrefix_Some|congruence].
    + injection Hs as <- Hs. pose proof (IH before' a eq_refl Hs). cbn [String.length]. lia.
Qed.

Lemma CutSub_leftmost sub s part after : sub <> "" -> CutSub sub s = Some (part, after) ->
  forall a b, (part +:+ sub = a +:+ sub +:+ b)%string -> b = "".
Proof.
  intros Hne Hc a b E. pose proof (CutSub_spec sub s Hne) as Hs. rewrite Hc in Hs. destruct Hs as [Hs _].
  assert (s = a +:+ sub +:+ (b +:+ after))%string as Hs'.
  { rewrite Hs, (append_assoc_l part), E, !append_assoc_l. done. }
  pose proof (CutSub_first _ _ _ _ _ _ Hc Hs') as Hl. apply (f_equal String.length) in E. rewrite !length_append in E.
  destruct b; [done|cbn in E; lia].
Qed.

Lemma removelast_cons_ne {A} (x : A) l : l <> [] -> removelast (x :: l) = x :: removelast l.
Proof. by destruct l. Qed.

Lemma splitSub_leftmost fuel sub s : sub <> "" ->
  Forall (fun part => forall a b, (part +:+ sub = a +:+ sub +:+ b)%string -> b = "") (removelast (splitSub fuel sub s)).
Proof.
  intros Hne. revert s. induction fuel as [|fuel IH]; intros s; cbn [splitSub]; [constructor|].
  destruct (CutSub sub s) as [[before after]|] eqn:E; [|constructor]. rewrite removelast_cons_ne.
  - constructor; [by eapply CutSub_leftmost|apply IH].
  - destruct fuel; cbn [splitSub]; [done|]. by destruct (CutSub sub after) as [[]|].
Qed.

Lemma SplitSub_cutAt sub s : sub <> "" -> cutAt s sub (SplitSub sub s).
Proof. intros Hne. destruct (SplitSub_spec sub s Hne) as (E & Hp & _). split_and!; [done..|by apply splitSub_leftmost]. Qed.

(** The content an edit makes. *)
Lemma editContent_cut (path content oldStr newStr : string) (replaceAll : bool) result n : oldStr <> "" ->
  editContent path content oldStr newStr replaceAll = inr (result, n) ->
  exists parts, cutAt content oldStr parts /\ result = Join parts newStr /\
    n = (Z.of_nat (length parts) - 1)%Z /\ (0 < n)%Z /\ (replaceAll = false -> n = 1%Z).
Proof.
  intros Hold. unfold editContent. pose proof (SplitSub_cutAt oldStr content Hold) as Hcut. destruct (SplitSub_spec oldStr content Hold) as (E & _ & Hn).
  case_bool_decide as H0; [done|].
  assert (0 < Count content oldStr)%Z as Hpos by (unfold Count in *; destruct (SplitSub oldStr content); [done|cbn [length] in *; lia]).
  destruct replaceAll; cbn [negb andb]; [intros [= <- <-]; by exists (SplitSub oldStr content)|].
  case_bool_decide as H1; [done|]. intros [= <- <-].
  exists (SplitSub oldStr content). assert (Count content oldStr = 1%Z) as Hc by lia. split_and!; [done| |unfold Count in Hc; lia|lia|done].
  unfold Replace1. pose proof (SplitSub_cut oldStr content Hold) as Hs. unfold Count in Hc.
  destruct (CutSub oldStr content) as [[before after]|] eqn:Ec; [|rewrite Hs in Hc; cbn [length] in Hc; lia].
  rewrite Hs in Hc |- *. pose proof (CutSub_spec oldStr content Hold) as Hcut'. rewrite Ec in Hcut'. destruct Hcut' as [Hcon _].
  rewrite Hs in E. destruct (splitSub _ oldStr after) as [|x [|y l]]; cbn [length] in Hc; try lia.
  cbn [Join] in E |- *. rewrite Hcon in E. by apply append_inj_l, append_inj_l in E as ->.
Qed.

(** C33: what edit_file makes of a file.  A text that does not occur is an error,
    and so is one with several occurrences that do not overlap unless all are to
    be replaced.  Otherwise the content is cut at the text into parts that do not
    contain it, the new text takes its place everywhere between them, and the
    number reported is that of the places: exactly one when not all are to be
    replaced. *)
Theorem editContent_spec (path content oldStr newStr : string) (replaceAll : bool) (Hold : oldStr <> "") :
  match editContent path content oldStr newStr replaceAll with
  | inl resp =>
      Contains content oldStr = false /\ resp = mismatchResponse path oldStr content \/
      replaceAll = false /\ ambiguous content oldStr
  | inr (result, n) =>
      exists parts, content = Join parts oldStr /\ result = Join parts newStr /\
        Forall (fun part => Contains part oldStr = false) parts /\ n = (Z.of_nat (length parts) - 1)%Z /\ (0 < n)%Z /\ (replaceAll = false -> n = 1%Z)
  end.
Proof.
  destruct (editContent path content oldStr newStr replaceAll) as [resp|[result n]] eqn:Ee.
  2: { destruct (editContent_cut _ _ _ _ _ _ _ Hold Ee) as (parts & (E & Hp & _) & H). exists parts. split_and!; [done|apply H|done|apply H..]. }
  unfold editContent in Ee. case_bool_decide as H0; [injection Ee as <-; left; split; [by apply Count_zero|done]|].
  destruct replaceAll; [done|]. cbn [negb andb] in Ee. case_bool_decide as H1; [|done]. right. split; [done|].
  destruct (SplitSub_spec oldStr content Hold) as (-> & _ & _). apply parts_ambiguous. unfold Count in H1. lia.
Qed.

(** The hypothesis holds, and a text whose occurrences overlap counts once. *)
Lemma editContent_spec_witness : "aa" <> "" /\
  exists parts, "aaa" = Join parts "aa" /\ "ba" = Join parts "b" /\ Forall (fun part => Contains part "aa" = false) parts /\
    1%Z = (Z.of_nat (length parts) - 1)%Z /\ (0 < 1)%Z /\ (false = false -> 1%Z = 1%Z).
Proof. split; [discriminate|]. exact (editContent_spec "f" "aaa" "aa" "b" false ltac:(discriminate)). Defined.
