(* ===== verification/ToolsSearch.v ===== *)
(** * ToolsSearch: glob and grep

    internal/tools/glob.go and grep.go over the file system of GoFiles, with
    filepath.Match and filepath.WalkDir as they are written.  The compiler of
    regular expressions is an argument, and so is when a call is cancelled. *)

From Stdlib Require Import Ascii String.
From Stdlib Require Import Floats.SpecFloat.
From S2P Require Import Prelude GoStrings GoText GoFloat GoJson GoPath GoFiles AiTypes SandboxExecute Tools.

Local Open Scope string_scope.
Local Open Scope list_scope.
Local Open Scope stdpp_scope.
Local Open Scope go_scope.

(** ** filepath.Match

    [None] stands for ErrBadPattern. *)

Definition isByte (c : ascii) (n : Z) : bool := bool_decide (byteOf c = n).
Definition tailByte (s : string) : string := match s with "" => "" | String _ s' => s' end.

(** A rune of a class, with a backslash before it or not, and what follows. *)
Definition getEsc (chunk : string) : option (Z * string) :=
  match chunk with
  | "" => None
  | String c _ =>
      if isByte c 45 || isByte c 93 then None
      else
        match (if isByte c 92 then tailByte chunk else chunk) with
        | "" => None
        | String c s =>
            let '(r, rest) := decodeRune c s in
            if (bool_decide (r = runeError) && bool_decide (rest = s)) || bool_decide (rest = "") then None else Some (r, rest)
        end
  end.

(** The ranges of a class up to its bracket: whether [r] is in one of them. *)
Fixpoint ranges (fuel : nat) (r : Z) (found : bool) (nrange : nat) (chunk : string) : option (bool * string) :=
  match fuel with
  | O => None
  | S fuel' =>
      match chunk with
      | String "]" rest' => if bool_decide (0 < nrange)%nat then Some (found, rest') else None
      | _ =>
          '(lo, chunk1) ← getEsc chunk;
          '(hi, chunk2) ← match chunk1 with String "-" s => getEsc s | _ => Some (lo, chunk1) end;
          ranges fuel' r (found || (bool_decide (lo <= r) && bool_decide (r <= hi))%Z) (S nrange) chunk2
      end
  end.

(** Whether a chunk without stars matches the start of [s], and what is left of
    it; [failed] once it does not, while the pattern is still checked. *)
Fixpoint matchChunk (fuel : nat) (failed : bool) (chunk s : string) : option (option string) :=
  match fuel, chunk with
  | O, _ | _, "" => Some (if failed then None else Some s)
  | S fuel', String c chunk' =>
      let failed := failed || bool_decide (s = "") in
      let exact (c : ascii) (chunk : string) : option (option string) :=
        match s with
        | String d s' => matchChunk fuel' (failed || negb (bool_decide (c = d))) chunk (if failed then s else s')
        | "" => matchChunk fuel' failed chunk s
        end in
      if isByte c 91 then
        let '(r, s1) := match s with String d s' => if failed then (0%Z, s) else decodeRune d s' | "" => (0%Z, s) end in
        let '(negated, chunk1) := match chunk' with String "^" rest => (true, rest) | _ => (false, chunk') end in
        '(found, chunk2) ← ranges (S (String.length chunk1)) r false 0 chunk1;
        matchChunk fuel' (failed || Bool.eqb found negated) chunk2 s1
      else if isByte c 63 then
        match s with
        | String d s' => if failed then matchChunk fuel' failed chunk' s
                         else matchChunk fuel' (isByte d 47) chunk' (decodeRune d s').2
        | "" => matchChunk fuel' failed chunk' s
        end
      else if isByte c 92 then match chunk' with "" => None | String c' chunk'' => exact c' chunk'' end
      else exact c chunk'
  end.

(** The next chunk: the stars before it, and up to a star outside a class. *)
Fixpoint skipStars (pattern : string) : bool * string :=
  match pattern with String "*" rest => (true, (skipStars rest).2) | _ => (false, pattern) end.
Fixpoint scanTo (inrange : bool) (pattern : string) : string * string :=
  let keep (c : ascii) (r : string * string) : string * string := (String c r.1, r.2) in
  match pattern with
  | "" => ("", "")
  | String c rest =>
      if isByte c 92 then
        match rest with "" => (pattern, "") | String d rest' => keep c (keep d (scanTo inrange rest')) end
      else if isByte c 91 then keep c (scanTo true rest)
      else if isByte c 93 then keep c (scanTo false rest)
      else if isByte c 42 && negb inrange then ("", pattern)
      else keep c (scanTo inrange rest)
  end.
Definition scanChunk (pattern : string) : bool * string * string :=
  let '(star, pattern) := skipStars pattern in
  let '(chunk, rest) := scanTo false pattern in (star, chunk, rest).

Definition chunkAt (chunk name : string) : option (option string) := matchChunk (String.length chunk) false chunk name.

(** The first place after the star at which the chunk matches. *)
Fixpoint skipTo (last : bool) (chunk name : string) : option (option string) :=
  match name with
  | "" => Some None
  | String c name' =>
      if isByte c 47 then Some None
      else
        r ← chunkAt chunk name';
        match r with
        | Some t => if last && negb (bool_decide (t = "")) then skipTo last chunk name' else Some (Some t)
        | None => skipTo last chunk name'
        end
  end.

Fixpoint matchLoop (fuel : nat) (pattern name : string) : option bool :=
  match fuel, pattern with
  | O, _ | _, "" => Some (bool_decide (name = ""))
  | S fuel', _ =>
      let '(star, chunk, rest) := scanChunk pattern in
      if star && bool_decide (chunk = "") then Some (negb (ContainsByte slash name))
      else
        r ← chunkAt chunk name;
        match r with
        | Some t =>
            if bool_decide (t = "") || negb (bool_decide (rest = "")) then matchLoop fuel' rest t
            else if star then r ← skipTo (bool_decide (rest = "")) chunk name; match r with Some t => matchLoop fuel' rest t | None => Some false end
            else Some false
        | None =>
            if star then r ← skipTo (bool_decide (rest = "")) chunk name; match r with Some t => matchLoop fuel' rest t | None => Some false end
            else Some false
        end
  end.
(** Every round takes a chunk off the pattern. *)
Definition Match (pattern name : string) : option bool := matchLoop (S (String.length pattern)) pattern name.
(** [matched, _ := filepath.Match(pattern, name)]. *)
Definition matches (pattern name : string) : bool := default false (Match pattern name).

Example Match_ex :
  (fun pn => Match pn.1 pn.2) <$>
  [("*.go", "a.go"); ("a?c", "abc"); ("[a-c]x", "bx"); ("[^a-c]x", "bx"); ("a*b*c", "axxbyyc"); ("\*", "*"); ("*", "a/b"); ("a[", "a"); ("[]a]", "]");
   ("*x", "axbx"); ("a*", "a"); ("", ""); ("[-]", "-"); ("x*y", "xzy/"); ("*.g*", ".go")] =
  [Some true; Some true; Some true; Some false; Some true; Some true; Some false; None; None; Some true; Some true; Some true; None; Some false; Some true].
Proof. vm_compute. reflexivity. Qed.

(** ** Patterns with [**] *)

Definition splitPath (p : string) : list string := filter (.≠ "") (SplitByte slash p).

Fixpoint someTail (f : list string -> bool) (path : list string) : bool :=
  f path || match path with [] => false | _ :: path' => someTail f path' end.
Fixpoint matchParts (pattern path : list string) : bool :=
  match pattern with
  | [] => bool_decide (path = [])
  | p :: pattern' =>
      if bool_decide (p = "**") then if bool_decide (pattern' = []) then true else someTail (matchParts pattern') path
      else match path with [] => false | c :: path' => matches p c && matchParts pattern' path' end
  end.
Definition globMatch (pattern path : string) : bool := matchParts (splitPath pattern) (splitPath path).

(** ** filepath.WalkDir *)

Inductive walkErr : Type := SkipDir | SkipAll | WalkFailed (text : string).
#[export] Instance walkErr_eq_dec : EqDecision walkErr.
Proof. solve_decision. Defined.

Section Search.
Context (fault : nat -> option string) (cwd : list string) (overflow : float64 -> Z).
(** ctx.Err() after so many calls, and regexp.Compile with the start of what
    FindStringIndex finds. *)
Context (cancelled : nat -> option string) (Compile : string -> res string (string -> option Z)).

Notation FS := (M World).

Section Walk.
Context {Acc : Type}.
(** What the function does with a path, the name and the node of its entry, or an
    error, and with the variables it keeps. *)
Context (fn : string -> option (string * node) -> option fileError -> Acc -> FS (Acc * option walkErr)).

Fixpoint walkEntries (walk : string -> string -> node -> Acc -> FS (Acc * option walkErr)) (path : string) (dirs : list (string * node)) (acc : Acc) : FS (Acc * option walkErr) :=
  match dirs with
  | [] => mret (acc, None)
  | (name, d) :: rest =>
      r ← walk (JoinPath [path; name]) name d acc;
      match r with
      | (acc, None) => walkEntries walk path rest acc
      | (acc, Some SkipDir) => mret (acc, None)
      | (acc, Some e) => mret (acc, Some e)
      end
  end.

(** SkipDir from a directory skips it. *)
Definition skipped (d : node) (r : Acc * option walkErr) : Acc * option walkErr :=
  (r.1, if bool_decide (r.2 = Some SkipDir) && isDir d then None else r.2).

Fixpoint walkDir (fuel : nat) (path name : string) (d : node) (acc : Acc) : FS (Acc * option walkErr) :=
  match fuel with
  | O => mret (acc, None)
  | S fuel' =>
      r ← fn path (Some (name, d)) None acc;
      if negb (bool_decide (r.2 = None)) || negb (isDir d) then mret (skipped d r)
      else
        dirs ← ReadDir fault cwd path;
        match dirs with
        | Ok dirs => walkEntries (walkDir fuel') path dirs r.1
        | Err e =>
            r ← fn path (Some (name, d)) (Some e) r.1;
            mret (skipped d r)
        end
  end.

(** No path in a tree is longer than the tree has nodes. *)
Definition WalkDir (root : string) (acc : Acc) : FS (Acc * option walkErr) :=
  depth ← gets (fun w => S (size (w_tree w)));
  info ← Lstat fault cwd root;
  r ← match info with
      | Err e => fn root None (Some e) acc
      | Ok d => walkDir depth root (Base root) d acc
      end;
  mret (r.1, match r.2 with Some SkipDir | Some SkipAll => None | e => e end).
End Walk.

(** A directory whose name starts with a dot is skipped. *)
Definition hidden (name : string) : bool := HasPrefix name "." && negb (bool_decide (name = ".")).

(** What the functions of both tools do before they look at a file. *)
Definition onEntry {Acc} (onFile : string -> node -> Acc -> FS (Acc * option walkErr))
    (path : string) (d : option (string * node)) (err : option fileError) (acc : Acc) : FS (Acc * option walkErr) :=
  match d, err with
  | Some (name, d), None =>
      done ← gets (fun w => cancelled (w_calls w));
      match done with
      | Some text => mret (acc, Some (WalkFailed text))
      | None => if isDir d then mret (acc, if hidden name then Some SkipDir else None) else onFile path d acc
      end
  | _, _ => mret (acc, None)
  end.

Definition relPath (root path : string) : string := match Rel root path with Ok rel => rel | Err _ => "" end.

(** ** glob.go *)

Definition defaultGlobMaxResults : Z := 200.

Definition globFile (pattern resolvedRoot : string) (maxResults : Z) (path : string) (_ : node) (acc : list string * bool) : FS ((list string * bool) * option walkErr) :=
  let rel := relPath resolvedRoot path in
  mret (if globMatch pattern rel then
          if bool_decide (Z.of_nat (length acc.1) >= maxResults)%Z then ((acc.1, true), Some SkipAll)
          else ((acc.1 ++ [rel], acc.2), None)
        else (acc, None)).

Definition nl : string := String newline "".
Definition globReport (found : list string) (truncated : bool) (maxResults : Z) : string :=
  ("Found " +:+ itoa (Z.of_nat (length found)) +:+ " file(s)" +:+ (if truncated then " (truncated at " +:+ itoa maxResults +:+ ")" else "") +:+ nl +:+
   concatAll ((fun m => m +:+ nl) <$> sort_Strings found))%string.

Definition executeGlob (rootDir : string) (params : gmap string any) : FS ToolResponse :=
  let pattern := stringParam params "pattern" in
  if bool_decide (pattern = "") then mret (errorResponse "missing required parameter: pattern")
  else
    let maxResults := intParam overflow params "max_results" defaultGlobMaxResults in
    let maxResults := if bool_decide (maxResults <= 0)%Z then defaultGlobMaxResults else maxResults in
    r ← EvalSymlinks fault cwd rootDir;
    match r with
    | Err e => mret (errorResponse ("root dir not accessible: " +:+ fe_Text e)%string)
    | Ok resolvedRoot =>
        r ← WalkDir (onEntry (globFile pattern resolvedRoot maxResults)) resolvedRoot ([], false);
        let '((found, truncated), err) := r in
        done ← gets (fun w => cancelled (w_calls w));
        mret match err, done with
             | Some (WalkFailed text), None => errorResponse ("glob error: " +:+ text)%string
             | _, _ => textResponse (match found with [] => "no files matched" | _ => globReport found truncated maxResults end)
             end
    end.

(** ** grep.go *)

Definition defaultGrepMaxResults : Z := 100.
Definition maxGrepMatchLength : Z := 500.

Record matchRecord : Type := mkMatch { mr_file : string; mr_line : Z; mr_col : Z; mr_content : string; mr_context : list string }.

(** strings.Index. *)
Definition IndexOf (sub line : string) : option Z := (fun ba => Z.of_nat (String.length ba.1)) <$> CutSub sub line.

(** A zero byte among the first 8192. *)
Definition isBinary (data : string) : bool := ContainsByte (ascii_of_nat 0) (substring 0 8192 data).

Definition clipMatch (line : string) : string := clip maxGrepMatchLength "..." line.

(** The lines around line [i], itself apart. *)
Definition contextOf (lines : list string) (i contextLines : Z) : list string :=
  if bool_decide (0 < contextLines)%Z then
    let start := Z.max 0 (i - contextLines) in
    let end_ := Z.min (wrap64 (i + contextLines + 1)) (Z.of_nat (length lines)) in
    omap (fun j => line ← lines !! Z.to_nat j; if bool_decide (j = i) then None else Some (itoa (j + 1) +:+ ": " +:+ clipMatch line)%string)
      (seqZ start (end_ - start))
  else [].

Fixpoint grepLines (maxResults contextLines : Z) (find : string -> option Z) (rel : string) (lines : list string)
    (i : nat) (rest : list string) (found : list matchRecord) : list matchRecord * bool :=
  match rest with
  | [] => (found, false)
  | line :: rest' =>
      if bool_decide (Z.of_nat (length found) >= maxResults)%Z then (found, true)
      else
        grepLines maxResults contextLines find rel lines (S i) rest'
          match find line with
          | Some col => found ++ [mkMatch rel (Z.of_nat i + 1) (col + 1) (clipMatch line) (contextOf lines (Z.of_nat i) contextLines)]
          | None => found
          end
  end.

Definition grepFile (include exclude resolvedRoot : string) (maxResults contextLines : Z) (find : string -> option Z)
    (path : string) (d : node) (acc : list matchRecord * bool) : FS ((list matchRecord * bool) * option walkErr) :=
  let rel := relPath resolvedRoot path in
  match d with
  | File _ _ =>
      if negb (bool_decide (include = "")) && negb (matches include (Base path)) then mret (acc, None)
      else if negb (bool_decide (exclude = "")) && matches exclude (Base path) then mret (acc, None)
      else
        r ← ReadFile fault cwd path;
        mret match r with
             | Err _ => (acc, None)
             | Ok data =>
                 if isBinary data then (acc, None)
                 else
                   let lines := SplitByte newline data in
                   let '(found, truncated) := grepLines maxResults contextLines find rel lines 0 lines acc.1 in
                   if truncated then ((found, true), Some SkipAll) else ((found, acc.2), None)
             end
  | _ => mret (acc, None)
  end.

Definition matchText (m : matchRecord) : string :=
  (mr_file m +:+ ":" +:+ itoa (mr_line m) +:+ ":" +:+ itoa (mr_col m) +:+ ": " +:+ mr_content m +:+ nl +:+
   concatAll ((fun cl => "  " +:+ cl +:+ nl) <$> mr_context m))%string.
Definition grepReport (found : list matchRecord) (truncated : bool) (maxResults : Z) : string :=
  ("Found " +:+ itoa (Z.of_nat (length found)) +:+ " match(es)" +:+ (if truncated then " (truncated at " +:+ itoa maxResults +:+ ")" else "") +:+ nl +:+ nl +:+
   concatAll (matchText <$> found))%string.

Definition executeGrep (rootDir : string) (params : gmap string any) : FS ToolResponse :=
  let pattern := stringParam params "pattern" in
  if bool_decide (pattern = "") then mret (errorResponse "missing required parameter: pattern")
  else
    let maxResults := intParam overflow params "max_results" defaultGrepMaxResults in
    let contextLines := Z.max 0 (intParam overflow params "context_lines" 0) in
    let maxResults := if bool_decide (maxResults <= 0)%Z then defaultGrepMaxResults else maxResults in
    match (if boolParam params "literal" then Ok (IndexOf pattern) else Compile pattern) with
    | Err e => mret (errorResponse ("invalid regex pattern: " +:+ e)%string)
    | Ok find =>
        r ← EvalSymlinks fault cwd rootDir;
        match r with
        | Err e => mret (errorResponse ("root dir not accessible: " +:+ fe_Text e)%string)
        | Ok resolvedRoot =>
            r ← WalkDir (onEntry (grepFile (stringParam params "include") (stringParam params "exclude") resolvedRoot maxResults contextLines find))
                  resolvedRoot ([], false);
            let '((found, truncated), err) := r in
            done ← gets (fun w => cancelled (w_calls w));
            mret match err, done with
                 | Some (WalkFailed text), None => errorResponse ("search error: " +:+ text)%string
                 | _, _ => textResponse (match found with [] => "no matches found" | _ => grepReport found truncated maxResults end)
                 end
        end
    end.
End Search.
