(* ===== verification/ToolsExec.v ===== *)
(** * ToolsExec: shell and git, and the tools as a whole

    internal/tools: bash.go and git.go over a command runner, the tool table of
    factory.go and local_backend.go, and the agent tools made of it.  Running a
    command is an argument of the definitions, and so is the script tool, which
    embeds an interpreter of a third party. *)

From Stdlib Require Import Ascii String.
From Stdlib Require Import Floats.SpecFloat.
From S2P Require Import Prelude GoStrings GoText GoFloat GoJson GoPath GoFiles AiTypes AgentTypes SandboxExecute Tools ToolsSearch.

Local Open Scope string_scope.
Local Open Scope list_scope.
Local Open Scope stdpp_scope.
Local Open Scope go_scope.

(** ** time.Duration as text *)

Definition Millisecond : Z := 1000000.
Definition Second : Z := 1000000000.

Fixpoint dropZeros (l : list ascii) : list ascii :=
  match l with c :: l' => if isByte c 48 then dropZeros l' else l | [] => [] end.
(** The last [prec] digits of a number as a fraction without trailing zeros. *)
Definition fmtFrac (v : Z) (prec : nat) : string :=
  let d := itoa (v mod 10 ^ Z.of_nat prec) in
  let d := (repeatString (prec - String.length d) "0" +:+ d)%string in
  match reverse (dropZeros (reverse (list_ascii_of_string d))) with
  | [] => ""
  | l => ("." +:+ string_of_list_ascii l)%string
  end.
Definition DurationString (d : Z) : string :=
  let u := Z.abs d in
  let sign := if bool_decide (d < 0)%Z then "-" else "" in
  if bool_decide (u = 0)%Z then "0s"
  else if bool_decide (u < 1000)%Z then (sign +:+ itoa u +:+ "ns")%string
  else if bool_decide (u < Millisecond)%Z then (sign +:+ itoa (u / 1000) +:+ fmtFrac u 3 +:+ of_bytes [194; 181]%Z +:+ "s")%string
  else if bool_decide (u < Second)%Z then (sign +:+ itoa (u / Millisecond) +:+ fmtFrac u 6 +:+ "ms")%string
  else
    let s := (u / Second)%Z in
    let m := (s / 60)%Z in
    let h := (m / 60)%Z in
    (sign +:+ (if bool_decide (h = 0)%Z then "" else itoa h +:+ "h") +:+ (if bool_decide (m = 0)%Z then "" else itoa (m mod 60) +:+ "m") +:+
     itoa (s mod 60) +:+ fmtFrac u 9 +:+ "s")%string.

Definition Round (d m : Z) : Z :=
  if bool_decide (m <= 0)%Z then d
  else
    let r := Z.rem d m in
    if bool_decide (d < 0)%Z then
      let r := (- r)%Z in
      if bool_decide (r + r < m)%Z then (d + r)%Z
      else let d1 := wrap64 (d - m + r) in if bool_decide (d1 < d)%Z then d1 else (- 2 ^ 63)%Z
    else if bool_decide (r + r < m)%Z then (d - r)%Z
    else let d1 := wrap64 (d + m - r) in if bool_decide (d1 > d)%Z then d1 else (2 ^ 63 - 1)%Z.

Example DurationString_ex :
  DurationString <$> [120 * Second; 1500 * Millisecond; 0; 1; 1500; 2500000; 3661 * Second; - Second; 100 * Millisecond]%Z =
  ["2m0s"; "1.5s"; "0s"; "1ns"; "1.5" +:+ of_bytes [194; 181]%Z +:+ "s"; "2.5ms"; "1h1m1s"; "-1s"; "100ms"].
Proof. vm_compute. reflexivity. Qed.

(** ** Commands *)

(** What running a command comes to: its outputs, how it ended, whether the
    deadline has passed by then, and how long it took. *)
Inductive runError : Type := ExitError (code : Z) | RunFailed (text : string).
Record commandResult : Type := mkCommandResult {
  cm_Stdout : string; cm_Stderr : string; cm_Err : option runError; cm_DeadlineExceeded : bool; cm_Duration : Z;
}.

Section Tools.
Context (fault : nat -> option string) (cwd : list string) (random : nat -> Z) (overflow : float64 -> Z).
Context (cancelled : nat -> option string) (Compile : string -> res string (string -> option Z)).
(** exec.CommandContext with a timeout, a name, arguments and a directory. *)
Context (Run : Z -> string -> list string -> string -> M World commandResult).

Notation FS := (M World).

Definition commandResponse (text : string) (exitCode : Z) : ToolResponse := mkToolResponse [TextContent text ""] "" (Some exitCode).
Definition ifSome (s text : string) : string := if bool_decide (s = "") then "" else text.

(** *** bash.go *)

Definition defaultBashTimeout : Z := 120 * Second.
Definition maxBashOutput : Z := 256 * 1024.

Definition bashText (r : commandResult) (timeout exitCode : Z) : string :=
  let over (s : string) : bool := bool_decide (Z.of_nat (String.length s) > maxBashOutput)%Z in
  let cut (s : string) : string := if over s then substring 0 (Z.to_nat maxBashOutput) s else s in
  let out := ifSome (cm_Stdout r) (cut (cm_Stdout r) +:+ (if over (cm_Stdout r) then nl +:+ "... (stdout truncated)" else ""))%string in
  let out := (out +:+ ifSome (cm_Stderr r)
                (ifSome out nl +:+ "STDERR:" +:+ nl +:+ cut (cm_Stderr r) +:+ (if over (cm_Stderr r) then nl +:+ "... (stderr truncated)" else "")))%string in
  let out := if cm_DeadlineExceeded r then (out +:+ ifSome out nl +:+ "(timed out after " +:+ DurationString timeout +:+ ")")%string else out in
  ((if bool_decide (out = "") then "(no output)" else out) +:+ nl +:+ nl +:+ "Exit code: " +:+ itoa exitCode +:+ nl +:+
   "Duration: " +:+ DurationString (Round (cm_Duration r) Millisecond))%string.

Definition executeBash (rootDir : string) (params : gmap string any) : FS ToolResponse :=
  let cmdStr := stringParam params "cmd" in
  if bool_decide (cmdStr = "") then mret (errorResponse "missing required parameter: cmd")
  else
    let timeoutMs := intParam overflow params "timeout_ms" 0 in
    let timeout := if bool_decide (timeoutMs > 0)%Z then wrap64 (timeoutMs * Millisecond) else defaultBashTimeout in
    r ← Run timeout "sh" ["-c"; cmdStr] rootDir;
    mret match cm_Err r with
         | Some (RunFailed text) =>
             if cm_DeadlineExceeded r then commandResponse (bashText r timeout 124) 124
             else errorResponse ("command execution failed: " +:+ text)%string
         | Some (ExitError code) => commandResponse (bashText r timeout code) code
         | None => commandResponse (bashText r timeout 0) 0
         end.

(** *** git.go *)

Definition defaultGitTimeout : Z := 30 * Second.
Definition maxGitOutput : Z := 256 * 1024.

Definition gitText (r : commandResult) : string :=
  let out := cm_Stdout r in
  let out := if bool_decide (Z.of_nat (String.length out) > maxGitOutput)%Z
             then (substring 0 (Z.to_nat maxGitOutput) out +:+ nl +:+ "... (output truncated)")%string else out in
  let out := (out +:+ ifSome (cm_Stderr r) (ifSome out nl +:+ cm_Stderr r))%string in
  if bool_decide (out = "") then "(no output)" else out.

Definition runGitCommand (rootDir : string) (args : list string) : FS ToolResponse :=
  r ← Run defaultGitTimeout "git" args rootDir;
  mret match cm_Err r with
       | Some (RunFailed text) =>
           errorResponse (if cm_DeadlineExceeded r then "git command timed out" else "git command failed: " +:+ text)%string
       | Some (ExitError code) => commandResponse (gitText r) code
       | None => commandResponse (gitText r) 0
       end.

(** An argument that is there when the parameter is. *)
Definition optArg (s : string) (args : list string) : list string := if bool_decide (s = "") then [] else args.

Definition gitDiff (rootDir : string) (params : gmap string any) : FS ToolResponse :=
  let ref := stringParam params "ref" in
  let path := stringParam params "path" in
  runGitCommand rootDir (["diff"] ++ optArg ref [ref] ++ (if boolParam params "staged" then ["--cached"] else []) ++ optArg path ["--"; path]).

Definition gitLog (rootDir : string) (params : gmap string any) : FS ToolResponse :=
  let n := intParam overflow params "n" 10 in
  let n := if bool_decide (n <= 0)%Z then 10%Z else n in
  let n := if bool_decide (n > 100)%Z then 100%Z else n in
  let ref := stringParam params "ref" in
  let path := stringParam params "path" in
  runGitCommand rootDir (["log"; ("-n" +:+ itoa n)%string; "--format=%H %an %ai %s"] ++ optArg ref [ref] ++ optArg path ["--"; path]).

Definition gitShow (rootDir : string) (params : gmap string any) : FS ToolResponse :=
  let ref := stringParam params "ref" in
  runGitCommand rootDir ["show"; if bool_decide (ref = "") then "HEAD" else ref].

(** The loop over the paths of git_add. *)
Fixpoint gitAddArgs (rootDir : string) (paths : list any) (args : list string) : FS (res string (list string)) :=
  match paths with
  | [] => mret (Ok args)
  | AString s :: rest =>
      if bool_decide (s = "") then gitAddArgs rootDir rest args
      else
        r ← resolveSafePath fault cwd rootDir s;
        match r with
        | Err e => mret (Err ("path " +:+ quote s +:+ ": " +:+ e)%string)
        | Ok _ => gitAddArgs rootDir rest (args ++ [s])
        end
  | _ :: rest => gitAddArgs rootDir rest args
  end.
Definition listParam (params : gmap string any) (key : string) : list any := match params !! key with Some (AArray l) => l | _ => [] end.
Definition gitAdd (rootDir : string) (params : gmap string any) : FS ToolResponse :=
  let paths := listParam params "paths" in
  if bool_decide (paths = []) then mret (errorResponse "missing required parameter: paths")
  else
    r ← gitAddArgs rootDir paths ["add"];
    match r with
    | Err msg => mret (errorResponse msg)
    | Ok args => if bool_decide (length args = 1)%nat then mret (errorResponse "no valid paths provided") else runGitCommand rootDir args
    end.

Definition gitCommit (rootDir : string) (params : gmap string any) : FS ToolResponse :=
  let message := stringParam params "message" in
  if bool_decide (message = "") then mret (errorResponse "missing required parameter: message")
  else runGitCommand rootDir ["commit"; "-m"; message].

(** ** The table of tools *)

(** A back quote stands for a double quote. *)
Definition spell (s : string) : string :=
  string_of_list_ascii ((fun c => if isByte c 96 then ascii_of_nat 34 else c) <$> list_ascii_of_string s).

(** [mustSchema]: the program does not start where it panics. *)
Definition mustSchema (s : string) : outcome Empty_set string :=
  match parse s with Some _ => Return (Ok s) | None => Panic "invalid schema" end.
Definition schemaText (o : outcome Empty_set string) : string := match o with Return (Ok s) => s | _ => "" end.

Record toolImpl : Type := mkToolImpl {
  ti_name : string; ti_description : string; ti_schema : outcome Empty_set string; ti_execute : gmap string any -> FS ToolResponse;
}.

Definition readFileSchema : outcome Empty_set string := mustSchema (spell "{
	`type`: `object`,
	`properties`: {
		`path`: {
			`type`: `string`,
			`description`: `The path to the file to read`
		},
		`offset`: {
			`type`: `integer`,
			`description`: `Line number to start reading from (0-based)`
		},
		`limit`: {
			`type`: `integer`,
			`description`: `Maximum number of lines to read`
		}
	},
	`required`: [`path`]
}").
Definition readFileTool (rootDir : string) : toolImpl :=
  mkToolImpl "read_file"
    "Read a file from the filesystem. Returns file content with line numbers."
    readFileSchema (executeReadFile fault cwd overflow rootDir).

Definition writeFileSchema : outcome Empty_set string := mustSchema (spell "{
	`type`: `object`,
	`properties`: {
		`path`: {
			`type`: `string`,
			`description`: `The path to the file to write`
		},
		`content`: {
			`type`: `string`,
			`description`: `The content to write to the file`
		},
		`create_dirs`: {
			`type`: `boolean`,
			`description`: `Create parent directories if they don't exist`
		}
	},
	`required`: [`path`, `content`]
}").
Definition writeFileTool (rootDir : string) : toolImpl :=
  mkToolImpl "write_file"
    "Write content to a file. Creates the file if it doesn't exist, overwrites if it does. Uses atomic write (temp file + rename) to prevent partial writes."
    writeFileSchema (executeWriteFile fault cwd random rootDir).

Definition editFileSchema : outcome Empty_set string := mustSchema (spell "{
	`type`: `object`,
	`properties`: {
		`path`: {
			`type`: `string`,
			`description`: `The path to the file to edit`
		},
		`old_string`: {
			`type`: `string`,
			`description`: `The exact text to find and replace`
		},
		`new_string`: {
			`type`: `string`,
			`description`: `The replacement text`
		},
		`replace_all`: {
			`type`: `boolean`,
			`description`: `Replace all occurrences instead of just the first`
		}
	},
	`required`: [`path`, `old_string`, `new_string`]
}").
Definition editFileTool (rootDir : string) : toolImpl :=
  mkToolImpl "edit_file"
    "Edit a file by replacing an exact string match. Requires old_string (text to find) and new_string (replacement). By default replaces only the first occurrence; set replace_all=true to replace all."
    editFileSchema (executeEditFile fault cwd random rootDir).

Definition grepSchema : outcome Empty_set string := mustSchema (spell "{
	`type`: `object`,
	`properties`: {
		`pattern`: {
			`type`: `string`,
			`description`: `The regex pattern (or literal string) to search for`
		},
		`include`: {
			`type`: `string`,
			`description`: `Glob pattern to include only matching filenames (e.g. '*.go')`
		},
		`exclude`: {
			`type`: `string`,
			`description`: `Glob pattern to exclude matching filenames`
		},
		`literal`: {
			`type`: `boolean`,
			`description`: `If true, treat pattern as literal string instead of regex`
		},
		`max_results`: {
			`type`: `integer`,
			`description`: `Maximum number of matching lines to return (default 100)`
		},
		`context_lines`: {
			`type`: `integer`,
			`description`: `Number of context lines to show before and after each match`
		}
	},
	`required`: [`pattern`]
}").
Definition grepTool (rootDir : string) : toolImpl :=
  mkToolImpl "grep"
    "Search file contents using regex or literal patterns. Returns matching lines with file paths and line numbers."
    grepSchema (executeGrep fault cwd overflow cancelled Compile rootDir).

Definition globSchema : outcome Empty_set string := mustSchema (spell "{
	`type`: `object`,
	`properties`: {
		`pattern`: {
			`type`: `string`,
			`description`: `Glob pattern to match files. Use ** for recursive directory matching (e.g. 'src/**/*.go')`
		},
		`max_results`: {
			`type`: `integer`,
			`description`: `Maximum number of files to return (default 200)`
		}
	},
	`required`: [`pattern`]
}").
Definition globTool (rootDir : string) : toolImpl :=
  mkToolImpl "glob"
    "Find files matching a glob pattern. Supports ** for recursive directory matching."
    globSchema (executeGlob fault cwd overflow cancelled rootDir).

Definition bashSchema : outcome Empty_set string := mustSchema (spell "{
	`type`: `object`,
	`properties`: {
		`cmd`: {
			`type`: `string`,
			`description`: `The shell command to execute`
		},
		`timeout_ms`: {
			`type`: `integer`,
			`description`: `Timeout in milliseconds (default 120000)`
		}
	},
	`required`: [`cmd`]
}").
Definition bashTool (rootDir : string) : toolImpl :=
  mkToolImpl "bash"
    "Execute a shell command in the workspace directory. Returns stdout, stderr, and exit code."
    bashSchema (executeBash rootDir).

Definition gitStatusSchema : outcome Empty_set string := mustSchema (spell "{
	`type`: `object`,
	`properties`: {},
	`required`: []
}").
Definition gitStatusTool (rootDir : string) : toolImpl :=
  mkToolImpl "git_status"
    "Show the working tree status. Returns modified, staged, and untracked files."
    gitStatusSchema (fun _ => runGitCommand rootDir ["status"; "--porcelain=v1"]).

Definition gitDiffSchema : outcome Empty_set string := mustSchema (spell "{
	`type`: `object`,
	`properties`: {
		`ref`: {
			`type`: `string`,
			`description`: `Git ref to diff against (e.g. 'HEAD~1', 'main')`
		},
		`staged`: {
			`type`: `boolean`,
			`description`: `If true, show staged changes (--cached)`
		},
		`path`: {
			`type`: `string`,
			`description`: `Limit diff to a specific file path`
		}
	},
	`required`: []
}").
Definition gitDiffTool (rootDir : string) : toolImpl :=
  mkToolImpl "git_diff"
    "Show changes between commits, working tree, etc."
    gitDiffSchema (gitDiff rootDir).

Definition gitLogSchema : outcome Empty_set string := mustSchema (spell "{
	`type`: `object`,
	`properties`: {
		`n`: {
			`type`: `integer`,
			`description`: `Number of commits to show (default 10, max 100)`
		},
		`ref`: {
			`type`: `string`,
			`description`: `Starting ref (default HEAD)`
		},
		`path`: {
			`type`: `string`,
			`description`: `Limit log to a specific file path`
		}
	},
	`required`: []
}").
Definition gitLogTool (rootDir : string) : toolImpl :=
  mkToolImpl "git_log"
    "Show commit log. Returns recent commits with hash, author, date, and message."
    gitLogSchema (gitLog rootDir).

Definition gitShowSchema : outcome Empty_set string := mustSchema (spell "{
	`type`: `object`,
	`properties`: {
		`ref`: {
			`type`: `string`,
			`description`: `Git ref to show (default HEAD)`
		}
	},
	`required`: []
}").
Definition gitShowTool (rootDir : string) : toolImpl :=
  mkToolImpl "git_show"
    "Show a commit, tag, or other git object."
    gitShowSchema (gitShow rootDir).

Definition gitAddSchema : outcome Empty_set string := mustSchema (spell "{
	`type`: `object`,
	`properties`: {
		`paths`: {
			`type`: `array`,
			`items`: {`type`: `string`},
			`description`: `File paths to stage`
		}
	},
	`required`: [`paths`]
}").
Definition gitAddTool (rootDir : string) : toolImpl :=
  mkToolImpl "git_add"
    "Add file contents to the staging area."
    gitAddSchema (gitAdd rootDir).

Definition gitCommitSchema : outcome Empty_set string := mustSchema (spell "{
	`type`: `object`,
	`properties`: {
		`message`: {
			`type`: `string`,
			`description`: `Commit message`
		}
	},
	`required`: [`message`]
}").
Definition gitCommitTool (rootDir : string) : toolImpl :=
  mkToolImpl "git_commit"
    "Record changes to the repository."
    gitCommitSchema (gitCommit rootDir).

(** toolSchemas and NewLocalBackend list the same tools. *)
Definition builtinTools (rootDir : string) : list toolImpl :=
  [readFileTool rootDir; writeFileTool rootDir; editFileTool rootDir; grepTool rootDir; globTool rootDir; bashTool rootDir;
   gitStatusTool rootDir; gitDiffTool rootDir; gitLogTool rootDir; gitShowTool rootDir; gitAddTool rootDir; gitCommitTool rootDir].
Definition toolSchemas : list toolImpl := builtinTools "/".

(** *** local_backend.go *)

Record LocalBackend : Type := mkLocalBackend { lb_rootDir : string; lb_tools : gmap string toolImpl }.
(** The later of two tools of one name would stay. *)
Definition NewLocalBackend (rootDir : string) : LocalBackend :=
  mkLocalBackend rootDir (foldl (fun m t => <[ti_name t := t]> m) empty (builtinTools rootDir)).
Definition ExecuteTool (b : LocalBackend) (req : ToolRequest) : FS (res string ToolResponse) :=
  match lb_tools b !! tq_ToolName req with
  | None => mret (Err ("unknown tool: " +:+ tq_ToolName req)%string)
  | Some impl => r ← ti_execute impl (tq_Params req); mret (Ok r)
  end.
End Tools.

(** ** Agent tools (factory.go) *)

Section Environment.
Context {W : Type}.

(** types.go: an agent tool. *)
Record AgentTool : Type := mkAgentTool {
  at_Tool : Tool; at_Label : string;
  at_Execute : string -> gmap string any -> option (AgentToolResult -> M W ()) -> M W (AgentToolResult * option string);
}.

(** What executes a request, with progress, and the script tool over a catalogue. *)
Context (executeFn : ToolRequest -> (string -> bool -> M W ()) -> M W (res string ToolResponse)).
Context (codeinterp_NewTool : list AgentTool -> AgentTool).

Definition textResult (text : string) (isError : bool) : AgentToolResult := mkAgentToolResult [TextContent text ""] "" None isError empty.

(** One tool of [NewEnvironmentTools]. *)
Definition environmentTool (name description schema : string) : AgentTool :=
  mkAgentTool (mkTool name description schema) name (fun toolCallID params onUpdate =>
    resp ← executeFn (mkToolRequest name toolCallID params)
             (fun content isError => match onUpdate with Some f => f (textResult content isError) | None => mret () end);
    mret match resp with
         | Err e => (textResult e true, Some e)
         | Ok resp => (mkAgentToolResult (tp_Content resp) (tp_SnapshotID resp) (tp_ExitCode resp) false empty, None)
         end).

Definition NewEnvironmentTools (schemas : list (string * string * string)) : list AgentTool :=
  let result := (fun nds => environmentTool nds.1.1 nds.1.2 nds.2) <$> schemas in
  result ++ [codeinterp_NewTool result].
End Environment.
