(* ===== verification/ToolsEffects.v ===== *)
(** * ToolsEffects: what the calls of the tools do to the tree

    Where resolveSafePath leads; a weakest precondition over trees for computations whose calls may fail by
    themselves, rules for the calls at physical paths, and what atomicWriteFile
    and os.MkdirAll leave. *)

From Stdlib Require Import Ascii String.
From S2P Require Import Prelude GoStrings GoText GoJsonText GoPath GoFiles SandboxExecute SandboxPaths Tools.

Local Open Scope string_scope.
Local Open Scope list_scope.
Local Open Scope stdpp_scope.
Local Open Scope go_scope.

(** ** Absolute paths as strings *)

Notation render := (renderPath true).

Lemma render_inj p q : Forall plain p -> Forall plain q -> render p = render q -> p = q.
Proof. intros Hp Hq E. unfold renderPath in E. by rewrite <- (elemsOf_render p Hp), <- (elemsOf_render q Hq), E. Qed.

Lemma SplitByte_render p : Forall plain p -> SplitByte slash (render p) = "" :: (if p is [] then [""] else p).
Proof. intros Hp. unfold renderPath. by rewrite SplitByte_cons_slash, SplitByte_elems. Qed.

Lemma Clean_render p : Forall plain p -> Clean (render p) = render p.
Proof. intros Hp. unfold renderPath. rewrite Clean_abs by apply isAbs_render. by rewrite elemsOf_render. Qed.

Lemma elemsOf_split path elems : isAbs path = true -> SplitByte slash path = elems -> elemsOf path = cleanElems true elems.
Proof. intros H E. unfold elemsOf. by rewrite H, E. Qed.

Lemma cleanElems_skip l : cleanElems true ("" :: l) = cleanElems true l.
Proof. reflexivity. Qed.

Lemma Dir_render p : Forall plain p -> Dir (render p) = render (removelast p).
Proof.
  intros Hp. unfold Dir, upToSlash. rewrite SplitByte_render by done. destruct p as [|c p _] using rev_ind; [by vm_compute|].
  rewrite removelast_last. apply Forall_app in Hp as [Hp _].
  assert (("" :: (if p ++ [c] is [] then [""] else p ++ [c])) = ("" :: p) ++ [c]) as -> by by destruct p.
  rewrite removelast_last. destruct p as [|x p]; [by vm_compute|].
  change (JoinByte slash ("" :: x :: p)) with (String slash (JoinByte slash (x :: p))).
  change (match "" :: x :: p with [] => "" | l => (JoinByte slash l +:+ "/")%string end) with (String slash (JoinByte slash (x :: p)) +:+ "/")%string.
  set (l := x :: p) in *. assert (isAbs (String slash (JoinByte slash l) +:+ "/")%string = true) as Ha by exact (HasPrefix_app "/" (JoinByte slash l +:+ "/")%string).
  rewrite Clean_abs by done. unfold renderPath. f_equal. f_equal. unfold elemsOf. rewrite Ha.
  change (String slash (JoinByte slash l) +:+ "/")%string with ("/" +:+ (JoinByte slash l +:+ String slash ""))%string.
  rewrite SplitByte_cons_slash, SplitByte_app_slash, SplitByte_elems by done. rewrite cleanElems_skip.
  unfold cleanElems. rewrite foldl_app. change (foldl (cleanStep true) ?s (SplitByte slash "")) with s.
  by apply cleanElems_plain.
Qed.

Lemma Base_render p c : Forall plain (p ++ [c]) -> Base (render (p ++ [c])) = c.
Proof.
  intros Hp. pose proof (SplitByte_render (p ++ [c]) Hp) as Hs. unfold Base. change (render (p ++ [c])) with (String slash (JoinByte slash (p ++ [c]))) in *.
  cbv iota beta. rewrite Hs.
  assert (("" :: (if p ++ [c] is [] then [""] else p ++ [c])) = ("" :: p) ++ [c]) as -> by by destruct p.
  rewrite filter_app. apply Forall_app in Hp as [_ Hc]. rewrite Forall_singleton in Hc. rewrite (filter_cons_True _ c) by apply Hc. rewrite filter_nil.
  by rewrite reverse_app.
Qed.

Lemma elemsOf_renderPath p : Forall plain p -> elemsOf (render p) = p.
Proof. exact (elemsOf_render p). Qed.
Lemma abs_render path : isAbs path = true -> Clean path = render (elemsOf path).
Proof. exact (Clean_abs path). Qed.

Lemma Join_render p c : Forall plain p -> plain c -> JoinPath [render p; c] = render (p ++ [c]).
Proof.
  intros Hp Hc. assert (isAbs (render p) = true) as Ha by apply isAbs_render.
  pose proof (elemsOf_child (render p) c Ha Hc) as He. rewrite Clean_render, (elemsOf_renderPath p) in He by done.
  rewrite <- He, <- abs_render by by apply isAbs_join. simpl. destruct (bool_decide (render p = "")) eqn:E; [by rewrite bool_decide_eq_true in E|].
  symmetry. apply Clean_Clean. unfold isAbs in *. by apply HasPrefix_app_l.
Qed.

Lemma foldl_Join_render tail p : Forall plain p -> Forall plain tail ->
  foldl (fun resolved part => JoinPath [resolved; part]) (render p) tail = render (p ++ tail).
Proof.
  intros Hp Ht. revert p Hp. induction Ht as [|c tail Hc Ht IH]; intros p Hp; [by rewrite app_nil_r|]. cbn [foldl].
  rewrite Join_render by done. rewrite IH; [by rewrite <- app_assoc|]. apply Forall_app_2; [done|by apply Forall_singleton].
Qed.

(** Below a root, or the root itself. *)
Lemma isUnderRoot_render p root : Forall plain p -> Forall plain root ->
  isUnderRoot (render p) (render root) = true -> exists rest, p = root ++ rest.
Proof.
  intros Hp Hr. unfold isUnderRoot. intros [H%bool_decide_eq_true|H]%orb_true_iff; [apply render_inj in H as ->; [by exists []; rewrite app_nil_r|done..]|].
  apply HasPrefix_spec in H as [u Hu]. assert (render p = render root +:+ String slash u)%string as E by (rewrite Hu; by rewrite <- append_assoc_l).
  pose proof (SplitByte_app_slash (render root) u) as Hs. rewrite <- E, !SplitByte_render in Hs by done.
  destruct root as [|r root]; [by exists p|]. destruct p as [|c p]; [injection Hs as <- Hs; apply Forall_inv in Hr as (? & _); done|].
  injection Hs as -> Hs. rewrite Hs. by eexists.
Qed.

Lemma length_render p : Forall plain p -> length p <= String.length (render p).
Proof.
  intros Hp. unfold renderPath. induction Hp as [|c p (Hc & _) Hp IH]; [cbn; lia|]. change (String.length ("/" +:+ ?s)) with (S (String.length s)) in *.
  destruct c as [|a c]; [done|]. destruct p as [|d p]; [cbn; lia|].
  change (JoinByte slash (String a c :: d :: p)) with (String a c +:+ String slash (JoinByte slash (d :: p)))%string.
  rewrite length_append. cbn [String.length length] in *. lia.
Qed.

(** ** EvalSymlinks *)

Section Paths.
Context (fault : nat -> option string) (cwd : list string).

Notation EvalSymlinks := (EvalSymlinks fault cwd).

(** What a path leads to: with [k] links at most. *)
Definition leads (k : nat) (t : tree) (path : string) : lookupResult := kwalk k t true [] (SplitByte slash path).

Lemma leads_render k t p : Forall plain p -> leads k t (render p) = kwalk k t true [] p.
Proof. intros Hp. unfold leads. rewrite SplitByte_render, kwalk_skip by done. destruct p; [by rewrite kwalk_skip|done]. Qed.

(** EvalSymlinks gives the physical path of what an absolute path leads to; where
    it tells that there is nothing, the path leads nowhere. *)
Lemma EvalSymlinks_abs path w : isAbs path = true ->
  w_tree (EvalSymlinks path w).2 = w_tree w /\
  match (EvalSymlinks path w).1 with
  | Ok s => exists p n, s = render p /\ resolved (w_tree w) p /\ leads 255 (w_tree w) path = At p n
  | Err e => IsNotExist e = true -> forall k, ~ settled (leads k (w_tree w) path)
  end.
Proof.
  intros Ha. unfold GoFiles.EvalSymlinks. generalize 255 as links. intros links. rewrite M_bind_eq, Ha.
  pose proof (SplitByte_no_byte slash path) as Hs.
  destruct (evalSym_resolved fault cwd links [] (SplitByte slash path) w) as [Ht Hok]; [done|apply resolved_nil|intros; apply dirAt_nil|].
  pose proof (fun k => kwalk_eval fault cwd k links [] (SplitByte slash path) w Hs (fun _ => dirAt_nil _)) as Hag.
  pose proof (fun p => eval_kwalk fault cwd links [] (SplitByte slash path) w p Hs (fun _ => dirAt_nil _) ltac:(done)) as Hek.
  destruct (evalSym fault cwd links true [] (SplitByte slash path) w) as [[[rooted p]|e] w']; cbn [fst snd] in *; (split; [done|]); cbn.
  - destruct Hok as [-> Hr]. destruct (Hek p eq_refl) as [n Hn]. by exists p, n.
  - intros He k. specialize (Hag k). unfold IsNotExist in He. destruct Hag as [(e' & [= <-] & [[text Hf]|Hf])|Hag]; [by rewrite Hf in He..|].
    unfold leads. destruct (kwalk k (w_tree w) true [] (SplitByte slash path)) as [| |[]]; cbn; try tauto; [done|].
    destruct Hag as (e' & [= <-] & Hf). by rewrite Hf in He.
Qed.

(** ** resolveWithAncestors *)

(** Where a resolved path ends: at a node, or at a name below a directory that
    leads nowhere, or beyond such a name. *)
Definition landing (t : tree) (p : list string) : Prop :=
  resolved t p \/
  exists base c rest, p = base ++ c :: rest /\ dirAt t base /\ Forall plain (c :: rest) /\ forall k, ~ settled (kwalk k t true base [c]).

Lemma landing_plain t p : landing t p -> Forall plain p.
Proof. intros [[Hp _]|(base & c & rest & -> & [Hb _] & Hr & _)]; [done|by apply Forall_app_2]. Qed.

Lemma landing_ancestor t cur tail q n : Forall plain (cur ++ tail) -> resolved t q -> leads 255 t (render (removelast cur)) = At q n ->
  (forall k, ~ settled (leads k t (render cur))) -> cur <> [] ->
  exists c, cur = removelast cur ++ [c] /\ landing t (q ++ c :: tail).
Proof.
  intros Hp Hq Hl Hno Hne. destruct cur as [|c cur _] using rev_ind; [done|]. rewrite removelast_last in *. exists c. split; [done|].
  apply Forall_app in Hp as [Hp Ht]. pose proof Hp as Hpc. apply Forall_app in Hp as [Hcur Hc]. rewrite leads_render in Hl by done.
  assert (forall k, ~ settled (kwalk k t true q [c])) as Hk.
  { intros k Hs. apply (Hno (255 + k)%nat). rewrite leads_render by done. by rewrite (kwalk_app _ _ _ _ _ _ _ _ Hl Hs). }
  right. exists q, c, tail. split; [done|]. destruct Hq as (Hq1 & Hq2 & Hq3). split_and!; [|by apply (Forall_app_2 _ [c])|done].
  split_and!; [done|done|]. destruct (decide (nodeAt t q = Some Directory)) as [?|Hd]; [done|]. exfalso. apply (Hk 0). rewrite kwalk_blocked by done.
  by destruct (nodeAt t q).
Qed.

Lemma ancestorLoop_lands fuel cur tail abs w :
  Forall plain (cur ++ tail) -> length cur < fuel -> (forall k, ~ settled (leads k (w_tree w) (render cur))) ->
  let '(r, w') := ancestorLoop fault cwd fuel abs (render cur) tail w in
  w_tree w' = w_tree w /\ match r with Ok s => exists p, s = render p /\ landing (w_tree w) p | Err _ => True end.
Proof.
  revert cur tail w. induction fuel as [|fuel IH]; intros cur tail w Hp Hf Hno; [lia|].
  assert (cur <> []) as Hne by (intros ->; apply (Hno 0); by rewrite leads_render).
  pose proof Hp as [Hcur _]%Forall_app. pose proof (plain_removelast _ Hcur) as Hup. cbn [ancestorLoop]. rewrite Dir_render by done.
  rewrite bool_decide_false by (intros E%render_inj; [|done..]; destruct cur as [|c cur _] using rev_ind; [done|];
    rewrite removelast_last in E; apply (f_equal length) in E; rewrite length_app in E; cbn in E; lia).
  rewrite M_bind_eq. destruct (EvalSymlinks_abs (render (removelast cur)) w) as [Ht Hr]; [apply isAbs_render|].
  destruct (EvalSymlinks (render (removelast cur)) w) as [[s|e] w1]; cbn [fst snd] in *.
  - destruct Hr as (q & n & -> & Hq & Hl). destruct (landing_ancestor _ _ _ _ _ Hp Hq Hl Hno Hne) as (c & Hc & Hland).
    assert (Base (render cur) = c) as -> by (rewrite Hc; apply Base_render; by rewrite <- Hc).
    split; [done|]. exists (q ++ c :: tail). split; [|done]. apply foldl_Join_render; [apply Hq|].
    rewrite Hc, <- app_assoc in Hp. by apply Forall_app in Hp as [_ ?].
  - destruct (IsNotExist e) eqn:He; [|by split]. rewrite <- Ht in Hno |- *. destruct cur as [|c cur _] using rev_ind; [done|].
    rewrite removelast_last, Base_render in * by done. apply IH; [by rewrite <- app_assoc in Hp|rewrite length_app in Hf; cbn in Hf; lia|by rewrite Ht; apply Hr].
Qed.

Lemma resolveWithAncestors_lands abs w : isAbs abs = true ->
  let '(r, w') := resolveWithAncestors fault cwd (Clean abs) w in
  w_tree w' = w_tree w /\ match r with Ok s => exists p, s = render p /\ landing (w_tree w) p | Err _ => True end.
Proof.
  intros Ha. rewrite (abs_render _ Ha). pose proof (elemsOf_plain _ Ha) as Hp. set (p := elemsOf abs) in *. clearbody p.
  unfold resolveWithAncestors. rewrite M_bind_eq. destruct (EvalSymlinks_abs (render p) w) as [Ht Hr]; [apply isAbs_render|].
  destruct (EvalSymlinks (render p) w) as [[s|e] w1]; cbn [fst snd] in *.
  - split; [done|]. destruct Hr as (q & n & -> & Hq & _). exists q. split; [done|by left].
  - destruct (IsNotExist e) eqn:He; [|by split]. rewrite <- Ht in Hr |- *. apply ancestorLoop_lands; [by rewrite app_nil_r|pose proof (length_render p Hp); lia|by apply Hr].
Qed.

(** ** resolveSafePath *)

(** Where the root is. *)
Definition rootAt (t : tree) (rootDir : string) (root : list string) : Prop := exists n, leads 255 t rootDir = At root n.

Lemma absPath_clean rootDir path : isAbs rootDir = true -> exists a, absPath rootDir path = Clean a /\ isAbs a = true.
Proof. intros Hr. unfold absPath. destruct (isAbs path) eqn:E; [by exists path|]. eexists. split; [reflexivity|]. by apply isAbs_join. Qed.

(** What it says where it refuses. *)
Definition refusal (msg : string) : Prop := msg = "empty path" \/ HasPrefix msg "path " = true \/ HasPrefix msg "root dir " = true.

Lemma resolveSafePath_spec rootDir path root w : isAbs rootDir = true -> rootAt (w_tree w) rootDir root ->
  let '(r, w') := resolveSafePath fault cwd rootDir path w in
  w_tree w' = w_tree w /\
  match r with
  | Ok s => exists rest, s = render (root ++ rest) /\ landing (w_tree w) (root ++ rest) /\ resolved (w_tree w) root
  | Err msg => refusal msg
  end.
Proof.
  intros Hr Hroot. unfold resolveSafePath. case_bool_decide; [split; [done|by left]|]. rewrite M_bind_eq.
  destruct (absPath_clean rootDir path Hr) as (a & -> & Ha). pose proof (resolveWithAncestors_lands a w Ha) as Hl.
  destruct (resolveWithAncestors fault cwd (Clean a) w) as [[s|e] w1]; destruct Hl as [Ht Hl]; cbn [fst snd]; [|split; [done|right; by left]].
  rewrite M_bind_eq. destruct (EvalSymlinks_abs rootDir w1 Hr) as [Ht2 Hr2].
  destruct (EvalSymlinks rootDir w1) as [[s2|e] w2]; cbn [fst snd] in *; rewrite Ht in *; [|split; [done|right; by right]].
  destruct Hl as (p & -> & Hp). destruct Hr2 as (q & n & -> & Hq & Hn). destruct Hroot as [n' Hn']. rewrite Hn in Hn'. injection Hn' as <- <-.
  cbn [fst snd]. destruct (isUnderRoot (render p) (render q)) eqn:E; [|split; [done|right; by left]]. split; [done|].
  destruct (isUnderRoot_render _ _ (landing_plain _ _ Hp) (proj1 Hq) E) as [rest ->]. by exists rest.
Qed.
End Paths.

(** [sends m t Q]: from the tree [t], whatever calls came before, [m] ends with a
    result and a tree in [Q]. *)
Definition sends {A} (m : M World A) (t : tree) (Q : A -> tree -> Prop) : Prop :=
  forall k, Q (m (mkWorld t k)).1 (w_tree (m (mkWorld t k)).2).

Section Sends.
Context {A B : Type}.

Lemma sends_ret (a : A) t (Q : A -> tree -> Prop) : Q a t -> sends (mret a) t Q.
Proof. by intros H k. Qed.

Lemma sends_mono (m : M World A) t (Q Q' : A -> tree -> Prop) : sends m t Q -> (forall a t', Q a t' -> Q' a t') -> sends m t Q'.
Proof. intros H HQ k. apply HQ, H. Qed.

Lemma sends_bind (m : M World A) (f : A -> M World B) t Q : sends m t (fun a t' => sends (f a) t' Q) -> sends (m ≫= f) t Q.
Proof. intros H k. rewrite M_bind_eq. specialize (H k). destruct (m (mkWorld t k)) as [a [t' k']]. exact (H k'). Qed.

Lemma sends_ext (m m' : M World A) t Q : (forall w, m w = m' w) -> sends m' t Q -> sends m t Q.
Proof. intros E H k. rewrite E. apply H. Qed.

Lemma sends_gets (f : World -> A) t (Q : A -> tree -> Prop) : (forall a, Q a t) -> sends (gets f) t Q.
Proof. intros H k. apply H. Qed.

Lemma sends_at (m : M World A) w (Q : A -> tree -> Prop) : sends m (w_tree w) Q -> Q (m w).1 (w_tree (m w).2).
Proof. destruct w as [t k]. intros H. apply H. Qed.

(** From a run that is known for every world. *)
Lemma sends_run (m : M World A) t (Q : A -> tree -> Prop) :
  (forall w, w_tree w = t -> let '(r, w') := m w in Q r (w_tree w')) -> sends m t Q.
Proof. intros H k. specialize (H (mkWorld t k) eq_refl). by destruct (m (mkWorld t k)). Qed.
End Sends.

Section Calls.
Context (fault : nat -> option string) (cwd : list string) (random : nat -> Z).

Lemma sends_syscall {A} err (work : tree -> res errno (A * tree)) t Q :
  (forall e, Q (Err (err e)) t) -> (forall a t', work t = Ok (a, t') -> Q (Ok a) t') -> sends (syscall fault err work) t Q.
Proof.
  intros He Hok k. unfold syscall. cbn [w_calls w_tree]. destruct (fault k); [apply He|].
  destruct (work t) as [[a t']|e] eqn:E; [by apply Hok|apply He].
Qed.

Lemma sends_query {A} err (q : tree -> res errno A) t Q :
  (forall e, Q (Err (err e)) t) -> (forall a, q t = Ok a -> Q (Ok a) t) -> sends (query fault err q) t Q.
Proof. intros He Hok. apply sends_syscall; [done|]. intros a t'. destruct (q t) eqn:E; [intros [= <- <-]; by apply Hok|done]. Qed.

Lemma sends_onNode {A} op follow path (f : list string -> node -> res errno A) t Q :
  (forall e, Q (Err e) t) -> (forall p n a, lookupPath cwd t follow path = At p n -> f p n = Ok a -> Q (Ok a) t) ->
  sends (onNode fault cwd op follow path f) t Q.
Proof.
  intros He Hok. apply sends_query; [intros; apply He|]. intros a. destruct (lookupPath cwd t follow path) eqn:E; cbn; [|done..]. by apply Hok.
Qed.

(** ** Calls on a physical path *)

(** A name below a directory. *)
Definition below (t : tree) (p : list string) : Prop := Forall plain p /\ dirAt t (removelast p).

Lemma below_snoc t q c : dirAt t q -> plain c -> below t (q ++ [c]).
Proof. intros Hq Hc. split; [apply Forall_app_2; [apply Hq|by apply Forall_singleton]|by rewrite removelast_last]. Qed.

Lemma below_phys t p : below t p -> Forall plain p /\ phys t p.
Proof.
  intros [Hp Hd]. split; [done|]. destruct p as [|c p _] using rev_ind; [apply phys_nil|]. rewrite removelast_last in Hd.
  by apply phys_snoc; apply Hd.
Qed.

Lemma lookup_below t p follow : below t p -> (follow = true -> forall l, nodeAt t p <> Some (Symlink l)) ->
  lookupPath cwd t follow (render p) =
  match nodeAt t p with Some n => At p n | None => match last p with Some c => Absent (removelast p) c | None => Refused ENOENT end end.
Proof.
  intros Hb Hl. destruct (below_phys _ _ Hb) as [Hp Hph]. rewrite lookup_render by done.
  rewrite kwalk_phys; [done..|apply phys_nil|]. cbn [app]. destruct (nodeAt t p) as [[| |l]|] eqn:E; [done..| |done]. destruct follow; [by destruct (Hl eq_refl l)|done].
Qed.

(** The spellings of a path: with a slash at the end or without. *)
Definition spelled (path : string) (p : list string) : Prop := path = render p \/ p <> [] /\ path = (render p +:+ "/")%string.

Lemma SplitByte_spelled path p : Forall plain p -> spelled path p ->
  isAbs path = true /\ (SplitByte slash path = "" :: p \/ SplitByte slash path = "" :: p ++ [""]).
Proof.
  intros Hp [-> | [Hne ->]]; (split; [apply isAbs_render || exact (HasPrefix_app_l _ _ _ (isAbs_render p))|]).
  - rewrite SplitByte_render by done. destruct p; [by right|by left].
  - right. rewrite (SplitByte_app_slash _ ""), SplitByte_render by done. by destruct p.
Qed.

Lemma dropTrailing_plain p e : Forall plain p -> e = [] \/ e = [""] -> dropTrailing (p ++ e) = p.
Proof.
  intros Hp He. induction Hp as [|c p Hc Hp IH]; [by destruct He as [-> | ->]|]. cbn [app dropTrailing]. rewrite IH.
  destruct p; [|done]. by rewrite bool_decide_false by apply Hc.
Qed.

Lemma lookupNew_spelled t path p : Forall plain p -> spelled path p -> lookupNew cwd t path = lookupPath cwd t false (render p).
Proof.
  intros Hp Hs. rewrite lookup_render by done. unfold lookupNew. destruct (SplitByte_spelled _ _ Hp Hs) as [-> E].
  assert (dropTrailing (SplitByte slash path) = if p is [] then [] else "" :: p) as ->.
  { destruct E as [-> | ->]; cbn [dropTrailing]; [rewrite <- (app_nil_r p) at 1|]; rewrite dropTrailing_plain by auto; by destruct p. }
  destruct p; [done|]. by rewrite kwalk_skip.
Qed.

Lemma sends_create op path p n t Q : below t p -> spelled path p ->
  (forall e, Q (Err e) t) -> (nodeAt t p = None -> Q (Ok p) (<[p := n]> t)) -> sends (create fault cwd op path n) t Q.
Proof.
  intros Hb Hs He Hok. apply sends_syscall; [intros; apply He|]. intros a t'. rewrite (lookupNew_spelled t path p) by (done || apply Hb).
  rewrite (lookup_below t p) by done. destruct (nodeAt t p) eqn:E; [done|]. destruct p as [|c p _] using rev_ind; [done|].
  rewrite last_snoc, removelast_last. intros [= <- <-]. by apply Hok.
Qed.

Definition tmpPrefix : string := ".tmp-write-".

Lemma pretty_no_slash (n : Z) : (0 <= n)%Z -> ContainsByte slash (pretty n) = false.
Proof.
  intros Hn. assert (pretty n = pretty (Z.to_N n)) as -> by (by destruct n).
  destruct (pretty_N_digits (Z.to_N n)) as [Hd _]. by apply (allBytes_no_byte isDigit).
Qed.

Lemma plain_tmp (n : Z) : (0 <= n)%Z -> plain (tmpPrefix +:+ pretty n).
Proof. intros Hn. split_and!; [done..|]. rewrite ContainsByte_app. by rewrite pretty_no_slash. Qed.

Lemma HasSuffix_spec s suf : HasSuffix s suf = true -> exists u, s = (u +:+ suf)%string.
Proof.
  unfold HasSuffix. induction s as [|c s IH]; cbn [CutSuffix]; case_bool_decide as H; [by exists ""|done|by exists ""; rewrite H|].
  destruct (CutSuffix suf s); [|done]. intros _. destruct IH as [u ->]; [done|]. by exists (String c u).
Qed.

Lemma join_render q c : Forall plain q ->
  (render q +:+ (if HasSuffix (render q) "/" then "" else "/") +:+ c)%string = render (q ++ [c]).
Proof.
  intros Hq. destruct (decide (q = [])) as [->|Hne]; [done|].
  assert (HasSuffix (render q) "/" = false) as ->.
  { apply not_true_iff_false. intros [u Hu]%HasSuffix_spec. pose proof (SplitByte_app_slash u "") as Hs.
    change (String slash "") with "/" in Hs. rewrite <- Hu, SplitByte_render in Hs by done. destruct q as [|x q _] using rev_ind; [done|].
    assert (("" :: (if q ++ [x] is [] then [""] else q ++ [x])) = ("" :: q) ++ [x]) as E by by destruct q.
    rewrite E in Hs. apply app_inj_tail in Hs as [_ ->]. apply Forall_app in Hq as [_ Hx]. rewrite Forall_singleton in Hx. by destruct Hx. }
  unfold renderPath. rewrite JoinByte_app by done. by rewrite <- append_assoc_l.
Qed.

Lemma sends_CreateTemp q t Q : dirAt t q ->
  (forall e, Q (Err e) t) ->
  (forall name, plain name -> HasPrefix name tmpPrefix = true -> nodeAt t (q ++ [name]) = None ->
     Q (Ok (render (q ++ [name]), q ++ [name])) (<[q ++ [name] := File "" (6 * 64)]> t)) ->
  sends (CreateTemp fault cwd random (render q) tmpPrefix) t Q.
Proof.
  intros Hq He Hok. unfold CreateTemp. generalize (Z.to_nat 10000) as tries. intros tries.
  induction tries as [|tries IH]; cbn [createTemp]; [by apply sends_ret|].
  apply sends_bind, sends_gets. intros n. set (m := (random n mod 2 ^ 32)%Z).
  assert (0 <= m)%Z as Hm by by apply Z.mod_pos_bound. pose proof (plain_tmp m Hm) as Hp.
  rewrite <- !append_assoc_l, (join_render q (tmpPrefix +:+ pretty m)) by apply Hq.
  apply sends_bind. apply (sends_create _ _ (q ++ [tmpPrefix +:+ pretty m])); [by apply below_snoc|by left| |].
  - intros e. destruct (IsExist e); [done|]. by apply sends_ret.
  - intros Hn. apply sends_ret, Hok; [done|apply HasPrefix_app|done].
Qed.

(** ** atomicWriteFile *)

Lemma tree_insert_eq (t : tree) p n : <[p := n]> t !! p = Some n.
Proof. apply (lookup_insert_eq (M := gmap (list string))). Qed.
Lemma tree_insert_ne (t : tree) p q n : p <> q -> <[p := n]> t !! q = t !! q.
Proof. apply (lookup_insert_ne (M := gmap (list string))). Qed.

Lemma nodeAt_snoc t q c : nodeAt t (q ++ [c]) = t !! (q ++ [c]).
Proof. by destruct q. Qed.

Lemma nodeAt_insert_ne t p q n : p <> q -> nodeAt (<[p := n]> t) q = nodeAt t q.
Proof. intros Hne. destruct q; [done|]. by apply lookup_insert_ne. Qed.

(** A new node is in no way. *)
Lemma dirAt_insert t p n q : nodeAt t p = None -> dirAt t q -> dirAt (<[p := n]> t) q.
Proof.
  intros Hp (H1 & H2 & H3). split_and!; [done| |rewrite nodeAt_insert_ne; [done|congruence]].
  intros r c rest E. specialize (H2 _ _ _ E). rewrite nodeAt_insert_ne; [done|congruence].
Qed.

Lemma below_insert t p n q : nodeAt t p = None -> below t q -> below (<[p := n]> t) q.
Proof. intros Hp [H1 H2]. split; [done|by apply dirAt_insert]. Qed.

Lemma sends_onFile op name p f t Q : (forall e, Q (Err e) t) -> Q (Ok ()) (alter f p t) -> sends (onFile fault op name p f) t Q.
Proof. intros He Hok. apply sends_syscall; [done|]. by intros a t' [= <- <-]. Qed.

Lemma sends_Chmod p perm t d m Q : below t p -> nodeAt t p = Some (File d m) ->
  (forall e, Q (Err e) t) -> Q (Ok ()) (<[p := File d perm]> t) -> sends (Chmod fault cwd (render p) perm) t Q.
Proof.
  intros Hb Hn He Hok. apply sends_syscall; [done|]. intros a t'. rewrite (lookup_below t p) by (done || by rewrite Hn). rewrite Hn. cbn.
  by intros [= <- <-].
Qed.

Lemma sends_Rename old new t n Q : below t old -> nodeAt t old = Some n -> below t new ->
  (forall e, Q (Err e) t) -> (nodeAt t new <> Some Directory -> Q (Ok ()) (<[new := n]> (delete old t))) ->
  sends (Rename fault cwd (render old) (render new)) t Q.
Proof.
  intros Hb Hn Hb' He Hok. apply sends_syscall; [done|]. intros a t'. rewrite !lookup_below by done. rewrite Hn. cbn.
  destruct (nodeAt t new) as [[]|] eqn:E; [done|intros [= <- <-]; by apply Hok..|].
  destruct new as [|c new _] using rev_ind; [done|]. rewrite last_snoc, removelast_last. intros [= <- <-]. by apply Hok.
Qed.

Lemma sends_Remove p t d m Q : below t p -> nodeAt t p = Some (File d m) ->
  (forall e, Q (Err e) t) -> Q (Ok ()) (delete p t) -> sends (Remove fault cwd (render p)) t Q.
Proof.
  intros Hb Hn He Hok. apply sends_syscall; [done|]. intros a t'. rewrite lookup_below by done. rewrite Hn. cbn. by intros [= <- <-].
Qed.

(** While the temporary file is there. *)
Section Pending.
Context (t : tree) (q : list string) (name : string) (p : list string).
Context (Hq : dirAt t q) (Hname : plain name) (Hnew : nodeAt t (q ++ [name]) = None) (Hp : below t p).

Notation tmp := (q ++ [name]).
Notation pending d m := (<[tmp := File d m]> t).

Lemma pending_below d m : below (pending d m) tmp.
Proof. apply below_insert; [done|by apply below_snoc]. Qed.
Lemma pending_at d m : nodeAt (pending d m) tmp = Some (File d m).
Proof. rewrite nodeAt_snoc. apply lookup_insert_eq. Qed.
Lemma pending_target d m : below (pending d m) p.
Proof. by apply below_insert. Qed.
Lemma pending_delete d m : delete tmp (pending d m) = t.
Proof. apply (delete_insert_id (M := gmap (list string))). by rewrite <- nodeAt_snoc. Qed.
Lemma pending_alter f d m d' m' : f (File d m) = File d' m' -> alter f tmp (pending d m) = pending d' m'.
Proof. intros <-. apply (alter_insert_eq (M := gmap (list string))). Qed.
Lemma pending_insert d m d' m' : <[tmp := File d' m']> (pending d m) = pending d' m'.
Proof. apply (insert_insert_eq (M := gmap (list string))). Qed.
Lemma pending_no_dir d m : nodeAt (pending d m) p <> Some Directory -> nodeAt t p <> Some Directory.
Proof. intros H Hd. apply H. rewrite nodeAt_insert_ne; [done|]. intros <-. by rewrite Hd in Hnew. Qed.

Lemma sends_fillAndRename data perm :
  sends (fillAndRename fault cwd (render p) (render tmp) tmp data perm) (pending "" (6 * 64)) (fun r t' =>
    match r with
    | Ok _ => nodeAt t p <> Some Directory /\ t' = <[p := File data perm]> t
    | Err _ => exists d m, t' = pending d m
    end).
Proof.
  unfold fillAndRename. apply sends_bind, sends_onFile; [intros; apply sends_ret; eauto|].
  erewrite pending_alter by reflexivity. apply sends_bind, sends_onFile; [intros; apply sends_ret; eauto|].
  erewrite pending_alter by reflexivity. apply sends_bind, sends_onFile; [intros; apply sends_ret; eauto|].
  erewrite pending_alter by reflexivity. apply sends_bind. eapply sends_Chmod; [apply pending_below|apply pending_at|intros; apply sends_ret; eauto|].
  rewrite pending_insert. apply sends_bind. eapply sends_Rename; [apply pending_below|apply pending_at|apply pending_target|intros; apply sends_ret; eauto|].
  intros Hd. apply sends_ret. rewrite pending_delete. split; [by eapply pending_no_dir|done].
Qed.
End Pending.

(** The target is as it was or new as a whole; a failure leaves the temporary
    file beside it at most. *)
Definition written (t : tree) (p : list string) (data : string) (perm : Z) (r : res string ()) (t' : tree) : Prop :=
  match r with
  | Ok _ => nodeAt t p <> Some Directory /\ t' = <[p := File data perm]> t
  | Err _ => t' = t \/
      exists name n, HasPrefix name tmpPrefix = true /\ nodeAt t (removelast p ++ [name]) = None /\ t' = <[removelast p ++ [name] := n]> t
  end.

Lemma sends_atomicWriteFile p data perm t : below t p ->
  sends (atomicWriteFile fault cwd random (render p) data perm) t (written t p data perm).
Proof.
  intros Hp. unfold atomicWriteFile. rewrite Dir_render by apply Hp. apply sends_bind.
  apply sends_CreateTemp; [apply Hp|intros e; apply sends_ret; by left|]. intros name Hn Hpre Hnew. cbn beta iota.
  apply sends_bind. eapply sends_mono; [apply sends_fillAndRename; [apply Hp|done..]|]. intros [[]|msg] t'; [intros [Hd ->]; by apply sends_ret|].
  intros (d & m & ->). apply sends_bind, sends_onFile; [intros e|erewrite pending_alter by reflexivity].
  all: apply sends_bind; eapply sends_Remove; [apply pending_below; [apply Hp|done..]|apply pending_at|intros; apply sends_ret; right; eauto|].
  all: apply sends_ret; left; by apply pending_delete.
Qed.

(** ** os.MkdirAll *)

Notation mkdirAll := (mkdirAll fault cwd true).

(** What follows the attempt on the parent. *)
Definition make (path : string) : M World (res fileError ()) :=
  r ← Mkdir fault cwd path;
  match r with
  | Ok _ => mret (Ok ())
  | Err e => r ← Lstat fault cwd path; mret (match r with Ok Directory => Ok () | _ => Err e end)
  end.

Definition parentPath (d : list string) : string := (render d +:+ (if bool_decide (d = []) then "" else "/"))%string.
Lemma parentPath_spelled d : spelled (parentPath d) d.
Proof. unfold parentPath. case_bool_decide as E; [left; by rewrite E|by right]. Qed.

Lemma mkdirAll_snoc d c path w :
  mkdirAll (reverse (d ++ [c])) path w =
  (r ← Stat fault cwd path;
   match r with
   | Ok n => mret (if isDir n then Ok () else Err (PathError "mkdir" path ENOTDIR))
   | Err _ => r ← mkdirAll (reverse d) (parentPath d); match r with Err e => mret (Err e) | Ok _ => make path end
   end) w.
Proof.
  rewrite reverse_snoc. cbn [GoFiles.mkdirAll]. rewrite andb_false_r, reverse_involutive. unfold parentPath.
  assert (bool_decide (reverse d = []) = bool_decide (d = [])) as ->; [|done].
  apply bool_decide_ext. split; [|by intros ->]. intros H%(f_equal reverse). by rewrite reverse_involutive in H.
Qed.

Lemma sends_make path d t Q : below t d -> spelled path d ->
  (forall e, Q (Err e) t) -> (nodeAt t d = None -> Q (Ok ()) (<[d := Directory]> t)) ->
  (forall p, lookupPath cwd t false path = At p Directory -> Q (Ok ()) t) ->
  sends (make path) t Q.
Proof.
  intros Hb Hs He Hnew Hdir. unfold make, Mkdir. apply sends_bind, sends_bind.
  eapply sends_create; [done..| |intros; by apply sends_ret, sends_ret, Hnew].
  intros e. apply sends_ret, sends_bind, sends_onNode; [intros; by apply sends_ret|]. intros p n a Hl [= <-]. apply sends_ret.
  destruct n; [by eapply Hdir|done..].
Qed.

(** Nothing is made where there is a directory already. *)
Lemma mkdirAll_there d path t : dirAt t d -> spelled path d -> sends (mkdirAll (reverse d) path) t (fun _ t' => t' = t).
Proof.
  revert path. induction d as [|c d IH] using rev_ind; intros path Hd Hs.
  - cbn [reverse rev_append]. apply sends_bind, sends_onNode; [intros _|intros; by apply sends_ret].
    apply sends_make with (d := []); [by split|done..].
  - apply (sends_ext _ _ _ _ (mkdirAll_snoc _ _ _)), sends_bind, sends_onNode; [intros _|intros; by apply sends_ret].
    pose proof (dirAt_up _ _ Hd) as Hup. rewrite removelast_last in Hup.
    apply sends_bind. eapply sends_mono; [apply IH; [done|apply parentPath_spelled]|]. intros [[]|e] t' ->; [|by apply sends_ret].
    eapply sends_make; [split; [apply Hd|by rewrite removelast_last]|done|done| |done]. intros Hn. destruct Hd as (_ & _ & Hd). by rewrite Hd in Hn.
Qed.

(** Below a name that leads nowhere, of a tree in which every node is below
    directories: new directories, nothing else. *)
Definition rooted (t : tree) : Prop := forall p n, t !! p = Some n -> phys t p.

Lemma kwalk_dirs k t follow dest es xs : Forall plain es -> phys t (dest ++ es) -> nodeAt t (dest ++ es) = Some Directory ->
  kwalk k t follow dest (es ++ xs) = kwalk k t follow (dest ++ es) xs.
Proof.
  intros He. revert dest. induction He as [|c es Hc He IH]; intros dest Hp Hd; [by rewrite app_nil_r|].
  cbn [app]. rewrite kwalk_plain; [|by eapply phys_above|done]. unfold kstep.
  change (c :: es) with ([c] ++ es) in Hp, Hd |- *. rewrite app_assoc in Hp, Hd |- *.
  assert (nodeAt t (dest ++ [c]) = Some Directory) as ->; [|by apply IH]. destruct es; [by rewrite app_nil_r in Hd|by eapply phys_above].
Qed.

Lemma kwalk_base k t follow base xs : dirAt t base -> kwalk k t follow [] (base ++ xs) = kwalk k t follow base xs.
Proof. intros (H1 & H2 & H3). by apply kwalk_dirs. Qed.

(** With a slash after it the last link is followed too. *)
Lemma kwalk_slash k t dest xs p n : kwalk k t false dest (xs ++ [""]) = At p n -> kwalk k t true dest xs = At p n.
Proof.
  revert dest xs. induction k as [k IHk] using lt_wf_ind. intros dest xs. revert dest.
  induction xs as [|c xs IH]; intros dest; destruct (decide (nodeAt t dest = Some Directory)) as [Hd|Hd].
  - cbn [app]. rewrite kwalk_cons, !kwalk_nil by done. done.
  - cbn [app]. rewrite kwalk_blocked by done. by destruct (nodeAt t dest).
  - cbn [app]. rewrite !kwalk_cons by done. case_bool_decide; [by apply IH|]. case_bool_decide; [by apply IH|]. cbn [orb].
    case_bool_decide; [by apply IH|]. unfold kstep. destruct (nodeAt t (dest ++ [c])) as [[|data perm|l]|]; [by apply IH..| |by destruct xs].
    rewrite (bool_decide_false (xs ++ [""] = [])) by by destruct xs. cbn [orb negb]. destruct k as [|k]; [done|]. rewrite app_assoc. apply IHk; lia.
  - cbn [app]. rewrite kwalk_blocked by done. by destruct (nodeAt t dest).
Qed.

(** And where no link comes last it does not matter. *)
Lemma kwalk_follow k t dest xs p : kwalk k t false dest xs = At p Directory -> kwalk k t true dest xs = At p Directory.
Proof.
  revert dest xs. induction k as [k IHk] using lt_wf_ind. intros dest xs. revert dest.
  induction xs as [|c xs IH]; intros dest; [by rewrite !kwalk_nil|]. destruct (decide (nodeAt t dest = Some Directory)) as [Hd|Hd].
  - rewrite !kwalk_cons by done. case_bool_decide; [by apply IH|]. case_bool_decide; [by apply IH|]. cbn [orb].
    case_bool_decide; [by apply IH|]. unfold kstep. destruct (nodeAt t (dest ++ [c])) as [[|data perm|l]|]; [by apply IH..| |by destruct xs].
    cbn [orb]. destruct (negb (bool_decide (xs = []))); [|done]. destruct k as [|k]; [done|]. apply IHk; lia.
  - rewrite !kwalk_blocked by done. done.
Qed.

Section Astray.
Context (t : tree) (base : list string) (c : string).
Context (Hbase : dirAt t base) (Hc : plain c) (Hno : forall k, ~ settled (kwalk k t true base [c])).

Lemma astray_walk k rest p n : kwalk k t true [] (base ++ c :: rest) <> At p n.
Proof.
  intros H. change (c :: rest) with ([c] ++ rest) in H. rewrite app_assoc in H. apply kwalk_way in H as (q & m & H).
  rewrite kwalk_base in H by done. apply (Hno k). by rewrite H.
Qed.

Lemma astray_lookup path rest follow p : Forall plain rest -> spelled path (base ++ c :: rest) -> lookupPath cwd t follow path <> At p Directory.
Proof.
  intros Hr Hs. assert (Forall plain (base ++ c :: rest)) as Hp by (apply Forall_app_2; [apply Hbase|by constructor]).
  unfold lookupPath. destruct (SplitByte_spelled _ _ Hp Hs) as [-> [-> | ->]]; rewrite kwalk_skip by done.
  - destruct follow; [|intros H%kwalk_follow; revert H]; apply astray_walk.
  - destruct follow; [|intros H%kwalk_slash; revert H; apply astray_walk]. rewrite <- app_assoc. apply astray_walk.
Qed.

Lemma astray_stat path rest p n : Forall plain rest -> spelled path (base ++ c :: rest) -> lookupPath cwd t true path <> At p n.
Proof.
  intros Hr Hs. assert (Forall plain (base ++ c :: rest)) as Hp by (apply Forall_app_2; [apply Hbase|by constructor]).
  unfold lookupPath. destruct (SplitByte_spelled _ _ Hp Hs) as [-> [-> | ->]]; rewrite kwalk_skip by done; [apply astray_walk|].
  rewrite <- app_assoc. apply astray_walk.
Qed.

Lemma astray_at n : nodeAt t (base ++ [c]) = Some n -> exists l, n = Symlink l.
Proof.
  intros Hn. destruct n as [| |l]; [..|by eexists]; destruct (Hno 0); destruct Hbase as (_ & _ & Hd);
    rewrite kwalk_plain by done; unfold kstep; rewrite Hn, kwalk_nil, Hn; done.
Qed.

(** Only directories are made, below [base] and at [c] or beyond. *)
Definition grown (t' : tree) : Prop :=
  forall p, t' !! p <> t !! p -> t !! p = None /\ t' !! p = Some Directory /\ (base ++ [c]) `prefix_of` p.

Lemma grown_insert t' p : grown t' -> (base ++ [c]) `prefix_of` p -> t' !! p = None -> grown (<[p := Directory]> t').
Proof.
  intros H Hp Hn q Hq. destruct (decide (p = q)) as [<-|Hne].
  - rewrite tree_insert_eq. split_and!; [|done..]. destruct (decide (t' !! p = t !! p)) as [<-|Hd]; [done|]. by apply H.
  - rewrite tree_insert_ne in Hq |- * by done. by apply H.
Qed.

Lemma lookup_missing t' path q e follow p n : dirAt t' q -> plain e -> nodeAt t' (q ++ [e]) = None -> spelled path (q ++ [e]) ->
  lookupPath cwd t' follow path <> At p n.
Proof.
  intros Hq He Hn Hs. destruct (dirAt_snoc _ _ _ Hq He) as [Hp _]. unfold lookupPath.
  destruct (SplitByte_spelled _ _ Hp Hs) as [-> [-> | ->]]; rewrite kwalk_skip, <- ?app_assoc, kwalk_base by done; cbn [app];
    (rewrite kwalk_plain by (done || apply Hq)); unfold kstep; by rewrite Hn.
Qed.

Lemma dirAt_made t' q e : dirAt t' q -> plain e -> nodeAt t' (q ++ [e]) = None -> dirAt (<[q ++ [e] := Directory]> t') (q ++ [e]).
Proof.
  intros Hq He Hn. destruct (dirAt_snoc _ _ _ (dirAt_insert _ _ Directory _ Hn Hq) He) as [H1 H2]. split_and!; [done..|].
  rewrite nodeAt_snoc. apply tree_insert_eq.
Qed.

Lemma astray_below rest : rooted t -> t !! (base ++ c :: rest) = None \/ rest = [].
Proof.
  intros Hr. destruct rest as [|e rest]; [by right|left]. destruct (t !! (base ++ c :: e :: rest)) eqn:E; [exfalso|done].
  apply Hr in E. specialize (E (base ++ [c]) e rest). rewrite <- app_assoc in E. specialize (E eq_refl).
  apply astray_at in E as [l ?]; done.
Qed.

Lemma mkdirAll_astray rest path : rooted t -> Forall plain rest -> spelled path (base ++ c :: rest) ->
  sends (mkdirAll (reverse (base ++ c :: rest)) path) t (fun r t' => grown t' /\ (is_Ok r = true -> dirAt t' (base ++ c :: rest))).
Proof.
  intros Hroot. assert (grown t) as Hrefl by by intros p H. revert path. induction rest as [|e rest IH] using rev_ind; intros path Hrest Hs.
  - apply (sends_ext _ _ _ _ (mkdirAll_snoc _ _ _)), sends_bind, sends_onNode; [intros _|intros p n a Hl; by destruct (astray_stat path [] p n)].
    apply sends_bind. eapply sends_mono; [apply mkdirAll_there; [done|apply parentPath_spelled]|]. intros [[]|e] t' ->; [|by apply sends_ret].
    eapply sends_make; [by apply below_snoc|done|done|intros Hn|intros p Hl; by destruct (astray_lookup path [] false p)].
    split; [|intros _; by apply dirAt_made]. apply grown_insert; [done|done|by rewrite <- nodeAt_snoc].
  - apply Forall_app in Hrest as [Hrest He]. apply Forall_inv in He. rewrite app_comm_cons, app_assoc in Hs |- *.
    apply (sends_ext _ _ _ _ (mkdirAll_snoc _ _ _)), sends_bind, sends_onNode;
      [intros _|intros p n a Hl; rewrite <- app_assoc in Hs; destruct (astray_stat path (rest ++ [e]) p n); [apply Forall_app_2; [done|by apply Forall_singleton]|done..]].
    apply sends_bind. eapply sends_mono; [apply IH; [done|apply parentPath_spelled]|]. intros [[]|er] t' [Hg Hd]; [|by apply sends_ret].
    specialize (Hd eq_refl). set (q := base ++ c :: rest) in *.
    assert ((base ++ [c]) `prefix_of` (q ++ [e])) as Hpre by (exists (rest ++ [e]); unfold q; by rewrite <- !app_assoc).
    assert (nodeAt t' (q ++ [e]) = None \/ nodeAt t' (q ++ [e]) = Some Directory) as Hnode.
    { rewrite nodeAt_snoc. destruct (decide (t' !! (q ++ [e]) = t !! (q ++ [e]))) as [->|H]; [left|right; by apply Hg].
      unfold q. rewrite <- app_assoc. cbn [app]. destruct (astray_below (rest ++ [e]) Hroot) as [H|H]; [done|by destruct rest]. }
    eapply sends_make; [by apply below_snoc|done|done|intros Hn|intros p Hl].
    + split; [|intros _; by apply dirAt_made]. apply grown_insert; [done|done|by rewrite <- nodeAt_snoc].
    + split; [done|]. intros _. destruct Hnode as [Hn|Hn]; [by destruct (lookup_missing t' path q e false p Directory)|].
      destruct (dirAt_snoc _ _ _ Hd He) as [H1 H2]. by split_and!.
Qed.
End Astray.
End Calls.
