(* ===== verification/ToolsProps.v ===== *)
(** * ToolsProps: what write_file, edit_file and read_file may touch

    Whatever symbolic links there are below the root and whichever calls fail, a
    tool changes nothing outside the root and sees no contents from there; a file
    is replaced as a whole or stays as it was.  What read_file shows depends only
    on what is below the root. *)

From Stdlib Require Import Ascii String.
From S2P Require Import Prelude GoStrings GoText GoFloat GoPath GoFiles AiTypes SandboxExecute SandboxPaths Tools ToolsEffects.

Local Open Scope string_scope.
Local Open Scope list_scope.
Local Open Scope stdpp_scope.
Local Open Scope go_scope.

(** A temporary file next to the root. *)
Definition beside (t : tree) (root p : list string) : Prop :=
  exists name, p = removelast root ++ [name] /\ HasPrefix name tmpPrefix = true /\ t !! p = None.

(** What changes is in the root, a temporary file next to it apart. *)
Definition contained (root : list string) (t t' : tree) : Prop :=
  forall p, t' !! p <> t !! p -> root `prefix_of` p \/ beside t root p.

Lemma contained_refl root t : contained root t t.
Proof. by intros p H. Qed.

Lemma contained_insert root t p n : root `prefix_of` p -> contained root t (<[p := n]> t).
Proof. intros Hp q Hq. destruct (decide (p = q)) as [<-|Hne]; [by left|]. by rewrite tree_insert_ne in Hq. Qed.

Lemma landing_root t root base c rest : resolved t root -> (forall k, ~ settled (kwalk k t true base [c])) -> dirAt t base -> plain c ->
  root `prefix_of` (base ++ c :: rest) -> root `prefix_of` base.
Proof.
  intros Hr Hno Hb Hc [u Hu]. apply app_eq_inv in Hu as [(k & -> & Hk)|(k & -> & Hk)].
  { destruct k as [|x k]; [by rewrite app_nil_r|by eexists]. }
  destruct k as [|x k]; [by rewrite app_nil_r|]. injection Hk as <- ->. exfalso.
  destruct Hr as (_ & Hph & Hn). destruct (nodeAt t (base ++ [c])) as [n|] eqn:E.
  - pose proof E as E'. apply astray_at in E' as [l ->]; [|done..]. destruct k as [|y k]; [by rewrite E in Hn|].
    specialize (Hph (base ++ [c]) y k). rewrite <- app_assoc in Hph. specialize (Hph eq_refl). congruence.
  - destruct k as [|y k]; [by rewrite E in Hn|]. specialize (Hph (base ++ [c]) y k). rewrite <- app_assoc in Hph. specialize (Hph eq_refl). congruence.
Qed.

Section Effects.
Context (fault : nat -> option string) (cwd : list string) (random : nat -> Z).

Lemma removelast_cons_app (l1 l2 : list string) x : removelast (l1 ++ x :: l2) = l1 ++ removelast (x :: l2).
Proof. apply removelast_app. done. Qed.

(** The target's directory, made ready: where it is, nothing outside the root has
    changed. *)
Lemma landing_below t root rest : landing t (root ++ rest) -> resolved t root ->
  below t (root ++ rest) \/
  exists base c l, root ++ rest = base ++ c :: l /\ l <> [] /\ dirAt t base /\ plain c /\ Forall plain l /\
    (forall k, ~ settled (kwalk k t true base [c])) /\ root `prefix_of` base.
Proof.
  intros [(Hp & Hph & Hn)|(base & c & l & E & Hb & Hl & Hno)] Hr.
  - left. split; [done|]. destruct (root ++ rest) as [|x p _] using rev_ind; [apply dirAt_nil|]. rewrite removelast_last.
    apply Forall_app in Hp as [Hp _]. split_and!; [done|by eapply phys_prefix|by eapply phys_above].
  - apply Forall_cons in Hl as [Hc Hl]. destruct l as [|x l].
    + left. rewrite E. by apply below_snoc.
    + right. exists base, c, (x :: l). split_and!; [done..|]. eapply landing_root; [done..|]. exists rest. by rewrite E.
Qed.

Definition ready (root p : list string) (t : tree) (ok : bool) (t' : tree) : Prop :=
  (forall q, t' !! q <> t !! q -> root `prefix_of` q /\ t !! q = None) /\ (ok = true -> below t' p).

Lemma ready_refl root p t ok : (ok = true -> below t p) -> ready root p t ok t.
Proof. intros H. split; [|done]. by intros q Hq. Qed.

Lemma sends_MkdirAll t root rest : rooted t -> landing t (root ++ rest) -> resolved t root ->
  sends (MkdirAll fault cwd (render (removelast (root ++ rest)))) t (fun r => ready root (root ++ rest) t (is_Ok r)).
Proof.
  intros Hroot Hl Hr. pose proof (landing_plain _ _ Hl) as Hp. pose proof (plain_removelast _ Hp) as Hup. unfold MkdirAll.
  rewrite (isAbs_render _ : isAbs (render _) = true), elemsOf_renderPath by done.
  destruct (landing_below _ _ _ Hl Hr) as [Hb|(base & c & l & E & Hne & Hbase & Hc & Hpl & Hno & [u Hu])].
  - eapply sends_mono; [apply mkdirAll_there; [apply Hb|by left]|]. intros r t' ->. by apply ready_refl.
  - rewrite E, removelast_cons_app. assert (removelast (c :: l) = c :: removelast l) as -> by by destruct l.
    eapply sends_mono; [apply mkdirAll_astray; [done..|by apply plain_removelast|by left]|].
    intros r t' [Hg Hd]. split.
    + intros q Hq. destruct (Hg q Hq) as (H1 & _ & [v ->]). split; [|done]. exists (u ++ [c] ++ v). by rewrite Hu, <- !app_assoc.
    + intros Hok. specialize (Hd Hok). destruct l as [|x l _] using rev_ind; [done|]. rewrite app_comm_cons, app_assoc.
      rewrite removelast_last in Hd. apply below_snoc; [done|]. by apply Forall_app in Hpl as [_ ?%Forall_inv].
Qed.

Lemma sends_resolveSafePath rootDir path root t Q : isAbs rootDir = true -> rootAt t rootDir root ->
  (forall msg, refusal msg -> Q (Err msg) t) ->
  (forall rest, landing t (root ++ rest) -> resolved t root -> Q (Ok (render (root ++ rest))) t) ->
  sends (resolveSafePath fault cwd rootDir path) t Q.
Proof.
  intros Ha Hroot He Hok. apply sends_run. intros w <-. pose proof (resolveSafePath_spec fault cwd rootDir path root w Ha Hroot) as H.
  destruct (resolveSafePath fault cwd rootDir path w) as [[s|msg] w']; destruct H as [-> H]; [|by apply He].
  destruct H as (rest & -> & Hl & Hr). by apply Hok.
Qed.

(** What a failed write may leave: nodes where there were none. *)
Definition untouched (t t' : tree) : Prop := forall p n, t !! p = Some n -> t' !! p = Some n.

Lemma untouched_changes t t' : (forall q, t' !! q <> t !! q -> t !! q = None) -> untouched t t'.
Proof. intros H p n Hn. destruct (decide (t' !! p = t !! p)) as [->|Hd]; [done|]. apply H in Hd. congruence. Qed.

Lemma removelast_prefix root rest name t : t !! (removelast (root ++ rest) ++ [name]) = None -> HasPrefix name tmpPrefix = true ->
  root `prefix_of` (removelast (root ++ rest) ++ [name]) \/ beside t root (removelast (root ++ rest) ++ [name]).
Proof.
  intros Hn Hp. destruct rest as [|x rest].
  - right. rewrite app_nil_r in *. by exists name.
  - left. rewrite removelast_cons_app, <- app_assoc. by eexists.
Qed.

(** A write after the directory was made ready. *)
Lemma sends_write root rest t t0 data perm : ready root (root ++ rest) t true t0 ->
  sends (atomicWriteFile fault cwd random (render (root ++ rest)) data perm) t0 (fun r t' =>
    contained root t t' /\
    if is_Ok r then t' !! (root ++ rest) = Some (File data perm) /\ t' = <[root ++ rest := File data perm]> t0 else untouched t t').
Proof.
  intros [Hg Hb]. specialize (Hb eq_refl). eapply sends_mono; [by apply sends_atomicWriteFile|]. intros [[]|msg] t'; cbn [written is_Ok].
  - intros [Hd ->]. split; [|by rewrite tree_insert_eq]. intros q Hq. destruct (decide (root ++ rest = q)) as [<-|Hne]; [left; by eexists|].
    rewrite tree_insert_ne in Hq by done. left. by apply Hg.
  - intros [->|(name & n & Hpre & Hn & ->)]; [split; [intros q Hq; left; by apply Hg|apply untouched_changes; intros q Hq; by apply Hg]|].
    rewrite nodeAt_snoc in Hn. set (tmp := removelast (root ++ rest) ++ [name]) in *.
    assert (t !! tmp = None) as Htmp by (destruct (decide (t0 !! tmp = t !! tmp)) as [<-|Hd]; [done|by apply Hg]).
    assert (forall q, <[tmp := n]> t0 !! q <> t !! q -> q = tmp \/ root `prefix_of` q /\ t !! q = None) as Hq.
    { intros q Hq. destruct (decide (tmp = q)) as [<-|Hne]; [by left|]. rewrite tree_insert_ne in Hq by done. right. by apply Hg. }
    split; [intros q [->|[H _]]%Hq; [by apply removelast_prefix|by left]|]. apply untouched_changes. intros q [->|[_ H]]%Hq; done.
Qed.
End Effects.

(** The text of a response. *)
Definition answer (r : ToolResponse) : string := match tp_Content r with [TextContent s _] => s | _ => "" end.

Section Tools.
Context (fault : nat -> option string) (cwd : list string) (random : nat -> Z) (overflow : float64 -> Z).

(** What a call of write_file or edit_file leaves, and what it means that it
    answers [done]. *)
Definition outcome (root : list string) (t : tree) (prefix : string) (Done : string -> list string -> tree -> Prop) (resp : ToolResponse) (t' : tree) : Prop :=
  contained root t t' /\
  if HasPrefix (answer resp) prefix then exists rest, Done (answer resp) (root ++ rest) t' else untouched t t'.

Lemma outcome_refused root t prefix Done msg : HasPrefix msg prefix = false -> outcome root t prefix Done (errorResponse msg) t.
Proof. intros H. split; [apply contained_refl|]. unfold answer. cbn. rewrite H. by intros p n. Qed.

Lemma refusal_prefix msg : refusal msg -> HasPrefix msg "wrote " = false /\ HasPrefix msg "edited " = false.
Proof. intros [->|[[u ->]%HasPrefix_spec|[u ->]%HasPrefix_spec]]; done. Qed.

Lemma sends_executeWriteFile rootDir params root t : isAbs rootDir = true -> rooted t -> rootAt t rootDir root ->
  sends (executeWriteFile fault cwd random rootDir params) t
    (outcome root t "wrote " (fun _ p t' => t' !! p = Some (File (stringParam params "content") perm644))).
Proof.
  intros Ha Hroot Hat. unfold executeWriteFile. case_bool_decide; [by apply sends_ret, outcome_refused|]. cbv zeta.
  apply sends_bind, (sends_resolveSafePath _ _ _ _ root); [done..|intros msg Hm; by apply sends_ret, outcome_refused, refusal_prefix|].
  intros rest Hl Hr. pose proof (landing_plain _ _ Hl) as Hp. rewrite Dir_render by done.
  apply sends_bind. apply (sends_mono _ _ (fun r t' => ready root (root ++ rest) t (is_Ok r) t' /\
    match r with Err msg => HasPrefix msg "wrote " = false | Ok _ => True end)).
  - destruct (boolParam params "create_dirs"); apply sends_bind.
    + eapply sends_mono; [by apply sends_MkdirAll|]. intros [[]|e] t' Hready; by apply sends_ret.
    + apply sends_onNode; [intros e; apply sends_ret; split; [by apply ready_refl|done]|]. intros q n a Hq _. apply sends_ret.
      split; [|done]. apply ready_refl. intros _. destruct (landing_below _ _ _ Hl Hr) as [Hb|(base & c & l & E & Hne & Hbase & Hc & Hpl & Hno & _)]; [done|].
      exfalso. rewrite E, removelast_cons_app in Hq. assert (removelast (c :: l) = c :: removelast l) as El by by destruct l.
      rewrite El in Hq. eapply astray_stat; [done|done|done|by apply plain_removelast|by left|exact Hq].
  - intros [[]|msg] t0 [Hready Hm]; [|apply sends_ret; split; [|unfold answer; cbn; rewrite Hm]].
    + apply sends_bind. eapply sends_mono; [by apply sends_write|]. intros r t' [Hc Hd]. apply sends_ret. split; [done|].
      destruct r as [[]|msg]; cbn [is_Ok] in Hd; [exists rest; apply Hd|done].
    + intros q Hq. left. by apply Hready.
    + apply untouched_changes. intros q Hq. by apply Hready.
Qed.

Lemma landing_at t p q n : landing t p -> lookupPath cwd t true (render p) = At q n -> q = p.
Proof.
  intros Hl Hq. destruct Hl as [(Hp & Hph & Hn)|(base & c & l & -> & Hb & Hpl & Hno)].
  - rewrite lookup_render in Hq by done.
    rewrite kwalk_phys in Hq; [|done|exact Hph|apply phys_nil|cbn; by destruct (nodeAt t p) as [[]|]].
    cbn [app] in Hq. destruct (nodeAt t p); [by injection Hq as ->|by destruct (last p)].
  - exfalso. apply Forall_cons in Hpl as [Hc Hpl]. eapply astray_stat; [done|done|done|exact Hpl|by left|exact Hq].
Qed.

Lemma sends_ReadFile p t Q : landing t p ->
  (forall e, Q (Err e) t) -> (forall data m, t !! p = Some (File data m) -> Q (Ok data) t) -> sends (ReadFile fault cwd (render p)) t Q.
Proof.
  intros Hl He Hok. apply sends_bind, sends_onNode; [intros e; by apply sends_ret|]. intros q n a Hq%landing_at [= <-]; [|done]. subst q.
  apply sends_query; [intros; apply He|]. intros data. destruct (nodeAt t p) as [[|d m|l]|] eqn:E; try done. intros [= ->].
  eapply Hok. by destruct p.
Qed.

(** What edit_file answers [done] for: the content is cut at the text to replace
    and put together with the new text in its place, and the answer counts the
    places. *)
Definition edited (t : tree) (params : gmap string any) (text : string) (p : list string) (t' : tree) : Prop :=
  exists old m parts, t !! p = Some (File old m) /\ cutAt old (stringParam params "old_string") parts /\ (1 < length parts)%nat /\
    (boolParam params "replace_all" = false -> length parts = 2%nat) /\
    text = ("edited " +:+ stringParam params "path" +:+ ": " +:+ itoa (Z.of_nat (length parts) - 1) +:+ " replacement(s) made")%string /\
    t' = <[p := File (Join parts (stringParam params "new_string")) perm644]> t.

Lemma file_ready root rest t data m : rooted t -> landing t (root ++ rest) -> resolved t root -> t !! (root ++ rest) = Some (File data m) ->
  ready root (root ++ rest) t true t.
Proof.
  intros Hroot Hl Hr Hn. apply ready_refl. intros _. destruct (landing_below _ _ _ Hl Hr) as [Hb|(base & c & l & E & Hne & Hbase & Hc & Hpl & Hno & _)]; [done|].
  rewrite E in Hn. destruct (astray_below t base c Hbase Hc Hno l Hroot) as [H|H]; [congruence|done].
Qed.

Lemma sends_executeEditFile rootDir params root t : isAbs rootDir = true -> rooted t -> rootAt t rootDir root ->
  sends (executeEditFile fault cwd random rootDir params) t (outcome root t "edited " (edited t params)).
Proof.
  intros Ha Hroot Hat. unfold executeEditFile. case_bool_decide; [by apply sends_ret, outcome_refused|]. cbv zeta.
  case_bool_decide as Hne; [by apply sends_ret, outcome_refused|].
  apply sends_bind, (sends_resolveSafePath _ _ _ _ root); [done..|intros msg Hm; by apply sends_ret, outcome_refused, refusal_prefix|].
  intros rest Hl Hr. apply sends_bind, sends_ReadFile; [done|intros e; apply sends_ret, outcome_refused; by destruct (IsNotExist e)|].
  intros old m Hold. destruct (editContent _ old _ _ _) as [resp|[new n]] eqn:E; [apply sends_ret|].
  - assert (exists msg, resp = errorResponse msg /\ HasPrefix msg "edited " = false) as (msg & -> & Hm); [|by apply outcome_refused].
    revert E. unfold editContent. repeat case_bool_decide; cbn [andb negb]; repeat (destruct (boolParam _ _); cbn [andb negb]); intros [= <-]; unfold mismatchResponse;
      repeat case_bool_decide; try destruct (firstLine _ _ _); eexists; (split; [reflexivity|done]).
  - apply sends_bind. eapply sends_mono; [apply sends_write; by eapply file_ready|]. intros r t' [Hc Hd]. apply sends_ret. split; [done|].
    destruct r as [[]|msg]; cbn [is_Ok] in Hd; [|done].
    apply editContent_cut in E as (parts & Hcut & -> & -> & Hpos & Hone); [|done].
    exists rest, old, m, parts. split_and!; [done..|lia|intros Hall; specialize (Hone Hall); lia|done|apply Hd].
Qed.

(** Write_file under any symbolic links and any failures.  Where the root
    directory is found at [root], every change a call makes is below it, but for a
    temporary file beside the root itself; when the call reports success the file
    named holds exactly the given content, and when it reports an error every
    node that was there is as it was. *)
Theorem write_file_contained rootDir params root w
    (Habs : isAbs rootDir = true) (Hrooted : rooted (w_tree w)) (Hat : rootAt (w_tree w) rootDir root) :
  let '(resp, w') := executeWriteFile fault cwd random rootDir params w in
  (forall p, w_tree w' !! p <> w_tree w !! p -> root `prefix_of` p \/ beside (w_tree w) root p) /\
  if HasPrefix (answer resp) "wrote "
  then exists rest, w_tree w' !! (root ++ rest) = Some (File (stringParam params "content") perm644)
  else forall p n, w_tree w !! p = Some n -> w_tree w' !! p = Some n.
Proof.
  pose proof (sends_at _ w _ (sends_executeWriteFile rootDir params root _ Habs Hrooted Hat)) as H.
  by destruct (executeWriteFile fault cwd random rootDir params w).
Qed.

(** C16: edit_file under any symbolic links and any failures, where the root
    directory is given by an absolute path.  Every change is below the root, but
    for a temporary file beside it; when the call reports success exactly one file
    below the root has changed: its old content, cut at the occurrences of
    old_string found from the left, has become the same parts with new_string
    between them, there is one such occurrence unless replace_all is set, and the
    answer gives their number; when it reports an error every node that was there
    is as it was. *)
Theorem edit_file_contained rootDir params root w
    (Habs : isAbs rootDir = true) (Hrooted : rooted (w_tree w)) (Hat : rootAt (w_tree w) rootDir root) :
  let '(resp, w') := executeEditFile fault cwd random rootDir params w in
  (forall p, w_tree w' !! p <> w_tree w !! p -> root `prefix_of` p \/ beside (w_tree w) root p) /\
  if HasPrefix (answer resp) "edited "
  then exists rest, edited (w_tree w) params (answer resp) (root ++ rest) (w_tree w')
  else forall p n, w_tree w !! p = Some n -> w_tree w' !! p = Some n.
Proof.
  pose proof (sends_at _ w _ (sends_executeEditFile rootDir params root _ Habs Hrooted Hat)) as H.
  by destruct (executeEditFile fault cwd random rootDir params w).
Qed.
End Tools.

(** ** A root with links out of it *)

Module Linked.
Definition none (n : nat) : option string := None.
Definition broken (n : nat) : option string := if bool_decide (13 <= n)%nat then Some "input/output error" else None.
Definition clock (n : nat) : Z := 7.
Definition t0 : tree := list_to_map
  [(["w"], Directory); (["w"; "run.sh"], File "echo a" 493); (["w"; "out"], Symlink "/etc/passwd"); (["w"; "up"], Symlink "../etc");
   (["etc"], Directory); (["etc"; "passwd"], File "root" 420)].
Definition world : World := mkWorld t0 0.

Definition places (p : list string) : list (list string) := (fun k => take k p) <$> seq 0 (length p).
Lemma rooted_places (t : tree) : map_Forall (fun p _ => Forall (fun q => nodeAt t q = Some Directory) (places p)) t -> rooted t.
Proof.
  intros H p n Hp q c rest ->. specialize (H _ _ Hp). cbn beta in H. rewrite Forall_forall in H. apply H. unfold places.
  apply list_elem_of_fmap. exists (length q). split; [by rewrite take_app_length|]. apply elem_of_seq. rewrite length_app. cbn. lia.
Qed.
Lemma rooted_t0 : rooted t0.
Proof. apply rooted_places. apply (bool_decide_unpack _). vm_compute. exact I. Qed.
Lemma at_w : rootAt t0 "/w" ["w"].
Proof. exists Directory. vm_compute. reflexivity. Qed.

Definition writeParams : gmap string any := {["path" := AString "d/f"; "content" := AString "new"; "create_dirs" := ABool true]}.
Definition editParams : gmap string any := {["path" := AString "run.sh"; "old_string" := AString "a"; "new_string" := AString "b"]}.
Definition write (fault : nat -> option string) (path : string) : string * option node * option node :=
  let '(resp, w) := executeWriteFile fault [] clock "/w" {["path" := AString path; "content" := AString "new"; "create_dirs" := ABool true]} world in
  (answer resp, w_tree w !! ["w"; "d"; "f"], w_tree w !! ["etc"; "passwd"]).

(** Below the root a file and its directory are made; through the links nothing. *)
Example write_runs :
  write none "d/f" = ("wrote 3 bytes to d/f", Some (File "new" 420), Some (File "root" 420)) /\
  write none "out" = ("path " +:+ quote "out" +:+ " escapes workspace root", None, Some (File "root" 420)) /\
  write none "up/passwd" = ("path " +:+ quote "up/passwd" +:+ " escapes workspace root", None, Some (File "root" 420)) /\
  write broken "d/f" = ("write error: chmod: chmod /w/d/.tmp-write-7: input/output error", None, Some (File "root" 420)).
Proof. vm_compute. repeat split. Qed.
End Linked.

Lemma write_file_contained_witness :
  let '(resp, w') := executeWriteFile Linked.none [] Linked.clock "/w" Linked.writeParams Linked.world in
  (forall p, w_tree w' !! p <> w_tree Linked.world !! p -> ["w"] `prefix_of` p \/ beside (w_tree Linked.world) ["w"] p) /\
  if HasPrefix (answer resp) "wrote " then exists rest, w_tree w' !! (["w"] ++ rest) = Some (File (stringParam Linked.writeParams "content") perm644)
  else forall p n, w_tree Linked.world !! p = Some n -> w_tree w' !! p = Some n.
Proof.
  apply (write_file_contained Linked.none [] Linked.clock "/w" Linked.writeParams ["w"] Linked.world);
    [reflexivity|exact Linked.rooted_t0|exact Linked.at_w].
Defined.

Lemma edit_file_contained_witness :
  let '(resp, w') := executeEditFile Linked.none [] Linked.clock "/w" Linked.editParams Linked.world in
  (forall p, w_tree w' !! p <> w_tree Linked.world !! p -> ["w"] `prefix_of` p \/ beside (w_tree Linked.world) ["w"] p) /\
  if HasPrefix (answer resp) "edited "
  then exists rest, edited (w_tree Linked.world) Linked.editParams (answer resp) (["w"] ++ rest) (w_tree w')
  else forall p n, w_tree Linked.world !! p = Some n -> w_tree w' !! p = Some n.
Proof.
  apply (edit_file_contained Linked.none [] Linked.clock "/w" Linked.editParams ["w"] Linked.world);
    [reflexivity|exact Linked.rooted_t0|exact Linked.at_w].
Defined.

Section Blind.
Context (root : list string).

(** The tree as seen without the contents of the files outside the root. *)
Definition hideNode (p : list string) (n : node) : node :=
  match n with File _ perm => if bool_decide (root `prefix_of` p) then n else File "" perm | _ => n end.
Definition hide (t : tree) : tree := map_imap (fun p n => Some (hideNode p n)) t.
Definition hideWorld (w : World) : World := mkWorld (hide (w_tree w)) (w_calls w).

Lemma nodeAt_hide t p : nodeAt (hide t) p = hideNode p <$> nodeAt t p.
Proof.
  destruct p as [|c p]; [done|]. pose proof (map_lookup_imap (M := gmap (list string)) (fun p n => Some (hideNode p n)) t (c :: p)) as H.
  etrans; [exact H|]. assert (forall o : option node, (o ≫= fun n => Some (hideNode (c :: p) n)) = hideNode (c :: p) <$> o) as Ho by by intros []. apply Ho.
Qed.

Lemma hideNode_in p n : root `prefix_of` p -> hideNode p n = n.
Proof. intros H. unfold hideNode. rewrite bool_decide_true by done. by destruct n. Qed.

Definition hideResult (r : lookupResult) : lookupResult := match r with At p n => At p (hideNode p n) | r => r end.

Lemma kwalk_hide k t follow dest todo : kwalk k (hide t) follow dest todo = hideResult (kwalk k t follow dest todo).
Proof.
  revert dest todo. induction k as [k IHk] using lt_wf_ind. intros dest todo. revert dest.
  induction todo as [|c todo IH]; intros dest; [rewrite !kwalk_nil, nodeAt_hide; by destruct (nodeAt t dest)|].
  destruct (decide (nodeAt t dest = Some Directory)) as [Hd|Hd].
  - assert (nodeAt (hide t) dest = Some Directory) as Hd' by by rewrite nodeAt_hide, Hd. rewrite !kwalk_cons by done.
    case_bool_decide; [by apply IH|]. case_bool_decide; [by apply IH|]. cbn [orb]. case_bool_decide; [by apply IH|].
    unfold kstep. rewrite nodeAt_hide. destruct (nodeAt t (dest ++ [c])) as [[|data perm|l]|]; cbn [fmap option_fmap option_map hideNode].
    + apply IH.
    + destruct (bool_decide _); apply IH.
    + destruct (follow || _); [|done]. destruct k as [|k]; [done|]. apply IHk; lia.
    + by destruct todo.
  - assert (nodeAt (hide t) dest <> Some Directory) as Hd'.
    { rewrite nodeAt_hide. destruct (nodeAt t dest) as [[]|]; cbn; try done. by destruct (bool_decide _). }
    rewrite !kwalk_blocked, nodeAt_hide by done. by destruct (nodeAt t dest) as [[]|].
Qed.

Section Calls.
Context (fault : nat -> option string) (cwd : list string).

Lemma lookup_hide t follow path : lookupPath cwd (hide t) follow path = hideResult (lookupPath cwd t follow path).
Proof. apply kwalk_hide. Qed.

(** [m] tells the same and does the same. *)
Definition blind {A} (m : M World A) : Prop := forall w, m (hideWorld w) = ((m w).1, hideWorld (m w).2).

Lemma blind_ret {A} (a : A) : blind (mret a).
Proof. by intros w. Qed.
Lemma blind_bind {A B} (m : M World A) (f : A -> M World B) : blind m -> (forall a, blind (f a)) -> blind (m ≫= f).
Proof. intros Hm Hf w. rewrite !M_bind_eq, Hm. destruct (m w) as [a w']. cbn. apply Hf. Qed.

Lemma blind_query {A} err (q : tree -> res errno A) : (forall t, q (hide t) = q t) -> blind (query fault err q).
Proof. intros H w. unfold query, syscall. cbn. destruct (fault (w_calls w)); [done|]. rewrite H. by destruct (q (w_tree w)). Qed.

Lemma blind_onNode {A} op follow path (f : list string -> node -> res errno A) : (forall p n, f p (hideNode p n) = f p n) -> blind (onNode fault cwd op follow path f).
Proof. intros H. apply blind_query. intros t. rewrite lookup_hide. destruct (lookupPath cwd t follow path); cbn; [apply H|done..]. Qed.

Lemma Lstat_hide path w : exists p, Lstat fault cwd path (hideWorld w) =
  (match (Lstat fault cwd path w).1 with Ok n => Ok (hideNode p n) | Err e => Err e end, hideWorld (Lstat fault cwd path w).2).
Proof.
  unfold Lstat, onNode, query, syscall. cbn [w_calls w_tree hideWorld]. destruct (fault (w_calls w)); [by exists []|].
  rewrite lookup_hide. destruct (lookupPath cwd (w_tree w) false path) as [p n| |]; [by exists p|by exists []..].
Qed.

Lemma blind_evalSym links dest todo : blind (evalSym fault cwd links true dest todo).
Proof.
  revert dest todo. induction links as [links IHl] using lt_wf_ind. intros dest todo. revert dest.
  induction todo as [|c todo IH]; intros dest w; [by rewrite !evalSym_nil|]. rewrite !evalSym_cons.
  case_bool_decide; [by apply IH|]. case_bool_decide; [by apply IH|]. cbn [orb]. case_bool_decide; [by apply IH|].
  unfold estep. rewrite !M_bind_eq. destruct (Lstat_hide (renderPath true (dest ++ [c])) w) as [p ->].
  destruct (Lstat fault cwd (renderPath true (dest ++ [c])) w) as [[[|data perm|l]|e] w1]; cbn [fst snd hideNode]; [apply IH| | |done].
  - destruct (bool_decide (root `prefix_of` p)); (case_bool_decide; [apply IH|done]).
  - destruct links as [|links]; [done|]. apply blind_bind; [apply blind_onNode; intros q [| |]; cbn; try done; by case_bool_decide|].
    intros [l'|e]; [|apply blind_ret]. rewrite orb_true_r. apply IHl. lia.
Qed.

Lemma blind_EvalSymlinks path : isAbs path = true -> blind (EvalSymlinks fault cwd path).
Proof. intros Ha. unfold EvalSymlinks. rewrite Ha. apply blind_bind; [apply blind_evalSym|intros r; apply blind_ret]. Qed.

Lemma blind_ancestorLoop fuel abs cur tail : Forall plain cur -> blind (ancestorLoop fault cwd fuel abs (render cur) tail).
Proof.
  revert cur tail. induction fuel as [|fuel IH]; intros cur tail Hp; cbn [ancestorLoop]; [apply blind_ret|].
  case_bool_decide; [apply blind_ret|]. rewrite Dir_render by done. apply blind_bind; [apply blind_EvalSymlinks, isAbs_render|].
  intros [s|e]; [apply blind_ret|]. destruct (IsNotExist e); [|apply blind_ret]. by apply IH, plain_removelast.
Qed.

Lemma blind_resolveSafePath rootDir path : isAbs rootDir = true -> blind (resolveSafePath fault cwd rootDir path).
Proof.
  intros Ha. unfold resolveSafePath. case_bool_decide; [apply blind_ret|]. destruct (absPath_clean rootDir path Ha) as (a & -> & Haa).
  rewrite (abs_render _ Haa). apply blind_bind.
  - unfold resolveWithAncestors. apply blind_bind; [apply blind_EvalSymlinks, isAbs_render|]. intros [s|e]; [apply blind_ret|].
    destruct (IsNotExist e); [|apply blind_ret]. by apply blind_ancestorLoop, elemsOf_plain.
  - intros [s|e]; [|apply blind_ret]. apply blind_bind; [by apply blind_EvalSymlinks|]. intros r. apply blind_ret.
Qed.

(** At a path that ends in the root even the contents are the same. *)
Lemma onNode_in {A} op rest (f : list string -> node -> res errno A) w : landing (w_tree w) (root ++ rest) ->
  onNode fault cwd op true (render (root ++ rest)) f (hideWorld w) =
  ((onNode fault cwd op true (render (root ++ rest)) f w).1, hideWorld (onNode fault cwd op true (render (root ++ rest)) f w).2).
Proof.
  intros Hl. unfold onNode, query, syscall. cbn [w_calls w_tree hideWorld]. destruct (fault (w_calls w)); [done|]. rewrite lookup_hide.
  destruct (lookupPath cwd (w_tree w) true (render (root ++ rest))) as [q n| |] eqn:E; cbn; [|done..].
  apply landing_at in E as ->; [|done]. rewrite hideNode_in by by eexists. by destruct (f _ n).
Qed.

Lemma ReadFile_in rest w : landing (w_tree w) (root ++ rest) ->
  ReadFile fault cwd (render (root ++ rest)) (hideWorld w) =
  ((ReadFile fault cwd (render (root ++ rest)) w).1, hideWorld (ReadFile fault cwd (render (root ++ rest)) w).2).
Proof.
  intros Hl. unfold ReadFile. rewrite !M_bind_eq, onNode_in by done.
  pose proof (sends_at (onNode fault cwd "open" true (render (root ++ rest)) (fun p _ => Ok p)) w (fun r t' => match r with Ok p => p = root ++ rest | Err _ => True end)) as Ho.
  specialize (Ho ltac:(apply sends_onNode; [done|]; intros p n a Hq%landing_at [= <-]; done)).
  destruct (onNode fault cwd "open" true (render (root ++ rest)) (fun p _ => Ok p) w) as [[p|e] w1]; cbn [fst snd] in *; [subst p|done].
  unfold query, syscall. cbn [w_calls w_tree hideWorld]. destruct (fault (w_calls w1)); [done|]. rewrite nodeAt_hide.
  destruct (nodeAt (w_tree w1) (root ++ rest)) as [[|data m|l]|]; cbn [fmap option_fmap option_map hideNode]; [done| |done..].
  by rewrite bool_decide_true by by eexists.
Qed.
End Calls.
End Blind.

Section Read.
Context (fault : nat -> option string) (cwd : list string) (overflow : float64 -> Z).

Lemma executeReadFile_hide rootDir params root w : isAbs rootDir = true -> rootAt (w_tree w) rootDir root ->
  (executeReadFile fault cwd overflow rootDir params (hideWorld root w)).1 = (executeReadFile fault cwd overflow rootDir params w).1.
Proof.
  intros Ha Hat. unfold executeReadFile. case_bool_decide; [done|]. rewrite !M_bind_eq, blind_resolveSafePath by done.
  pose proof (resolveSafePath_spec fault cwd rootDir (stringParam params "path") root w Ha Hat) as Hs. clear Hat.
  destruct (resolveSafePath fault cwd rootDir (stringParam params "path") w) as [[s|msg] w1]; cbn [fst snd]; [|done].
  destruct Hs as (Ht & rest & -> & Hl & _). rewrite <- Ht in Hl. unfold Stat. rewrite !M_bind_eq, onNode_in by done.
  pose proof (sends_at (onNode fault cwd "stat" true (render (root ++ rest)) (fun _ n => Ok n)) w1 (fun r t' => t' = w_tree w1)) as Ho.
  specialize (Ho ltac:(by apply sends_onNode)).
  destruct (onNode fault cwd "stat" true (render (root ++ rest)) (fun _ n => Ok n) w1) as [[info|e] w2]; cbn [fst snd] in *; [|done].
  destruct (isDir info); [done|]. case_bool_decide; [done|]. rewrite !M_bind_eq, ReadFile_in by by rewrite Ho.
  by destruct (ReadFile fault cwd (render (root ++ rest)) w2).
Qed.

(** C15: read_file tells nothing of what lies outside the root, where the root
    directory is given by an absolute path.  Two file systems
    that differ only in the contents of files outside the place where the root
    directory is found give the same answer to every call of read_file, whatever
    path it names, whatever symbolic links lead there and whichever calls fail. *)
Theorem read_file_blind rootDir params root w1 w2
    (Habs : isAbs rootDir = true) (Hat1 : rootAt (w_tree w1) rootDir root) (Hat2 : rootAt (w_tree w2) rootDir root)
    (Hseen : hideWorld root w1 = hideWorld root w2) :
  (executeReadFile fault cwd overflow rootDir params w1).1 = (executeReadFile fault cwd overflow rootDir params w2).1.
Proof.
  pose proof (executeReadFile_hide rootDir params root w1 Habs Hat1) as H1. pose proof (executeReadFile_hide rootDir params root w2 Habs Hat2) as H2.
  rewrite Hseen in H1. congruence.
Qed.
End Read.

(** Two passwords behind the same link. *)
Definition secretWorld : World := mkWorld (<[["etc"; "passwd"] := File "secret" 420]> Linked.t0) 0.
Definition outParams : gmap string any := {["path" := AString "out"]}.

Lemma secret_hidden : hideWorld ["w"] Linked.world = hideWorld ["w"] secretWorld.
Proof. vm_compute. reflexivity. Qed.
Lemma secret_at : rootAt (w_tree secretWorld) "/w" ["w"].
Proof. exists Directory. vm_compute. reflexivity. Qed.

Lemma read_file_blind_witness :
  hideWorld ["w"] Linked.world = hideWorld ["w"] secretWorld /\
  (executeReadFile Linked.none [] (fun _ => 0%Z) "/w" outParams Linked.world).1 = (executeReadFile Linked.none [] (fun _ => 0%Z) "/w" outParams secretWorld).1.
Proof.
  split; [exact secret_hidden|]. apply (read_file_blind Linked.none [] (fun _ => 0%Z) "/w" outParams ["w"]);
    [reflexivity|exact Linked.at_w|exact secret_at|exact secret_hidden].
Defined.
