(* ===== verification/ToolsGlob.v ===== *)
(** * ToolsGlob: glob finds what there is

    Without failures a walk visits every file below the root that is not in a
    hidden directory, once; glob reports those that match, up to its limit. *)

From Stdlib Require Import Ascii String.
From S2P Require Import Prelude GoStrings GoText GoFloat GoPath GoFiles AiTypes SandboxExecute SandboxPaths Tools ToolsSearch ToolsEffects ToolsProps.

Local Open Scope string_scope.
Local Open Scope list_scope.
Local Open Scope stdpp_scope.
Local Open Scope go_scope.

(** ** The entries of a directory *)

Definition plainTree (t : tree) : Prop := forall p n, t !! p = Some n -> Forall plain p.

Lemma childName_spec p q c : childName p q = Some c <-> q = p ++ [c].
Proof.
  unfold childName. case_bool_decide as H.
  - rewrite <- (take_drop (length p) q) at 2. rewrite H. destruct (drop (length p) q) as [|x [|y l]]; split; intros E; try done.
    + rewrite app_nil_r in E. apply (f_equal length) in E. rewrite length_app in E. cbn in E. lia.
    + by injection E as ->.
    + by apply app_inv_head in E as [= ->].
    + apply app_inv_head in E. done.
  - split; [done|]. intros ->. by rewrite take_app_length in H.
Qed.

Lemma elem_of_names t p c : c ∈ names t p <-> exists n, t !! (p ++ [c]) = Some n.
Proof.
  unfold names. rewrite elem_of_sort_Strings, list_elem_of_omap. split.
  - intros ([q n] & Hin & Hc%childName_spec). cbn in Hc. subst q. exists n. by apply (elem_of_map_to_list (M := gmap (list string))).
  - intros [n Hn]. exists (p ++ [c], n). split; [by apply (elem_of_map_to_list (M := gmap (list string)))|by apply childName_spec].
Qed.

Lemma NoDup_names t p : NoDup (names t p).
Proof.
  apply sort_Strings_NoDup. pose proof (NoDup_fst_map_to_list (M := gmap (list string)) t) as H.
  change (map_to_list t) with (@map_to_list _ _ (gmap (list string) node) _ t).
  induction (@map_to_list _ _ (gmap (list string) node) _ t) as [|[q n] l IH]; [constructor|]. cbn [fmap list_fmap] in H. apply NoDup_cons in H as [Hq H].
  cbn [omap list_omap fst]. destruct (childName p q) as [c|] eqn:E; [|by apply IH]. constructor; [|by apply IH].
  rewrite list_elem_of_omap. intros ([q' n'] & Hin & Hc). apply Hq. apply childName_spec in E, Hc. cbn in Hc. subst.
  apply list_elem_of_fmap. by exists (p ++ [c], n').
Qed.

Lemma elem_of_entries t p c n : (c, n) ∈ entries t p <-> t !! (p ++ [c]) = Some n.
Proof.
  unfold entries. rewrite list_elem_of_omap. split.
  - intros (c' & _ & H). rewrite nodeAt_snoc in H. destruct (t !! (p ++ [c'])) eqn:E; [|done]. by injection H as -> ->.
  - intros H. exists c. split; [apply elem_of_names; eauto|]. rewrite nodeAt_snoc, H. done.
Qed.

Lemma NoDup_entries t p : NoDup (entries t p).*1.
Proof.
  unfold entries. pose proof (NoDup_names t p) as H. induction H as [|c l Hc Hl IH]; [constructor|]. cbn [omap list_omap].
  destruct (nodeAt t (p ++ [c])) as [n|]; [|done]. cbn. constructor; [|done]. intros Hin. apply Hc.
  apply list_elem_of_fmap in Hin as ([c' n'] & -> & Hin). apply list_elem_of_omap in Hin as (c'' & Hin & E).
  destruct (nodeAt t (p ++ [c''])); [|done]. by injection E as -> _.
Qed.

(** A path in a tree is no longer than the tree is large. *)
Lemma length_size t p n : rooted t -> t !! p = Some n -> length p <= size t.
Proof.
  intros Hr Hp. transitivity (size (@dom (gmap (list string) node) (gset (list string)) _ t));
    [|apply Nat.eq_le_incl, (size_dom (M := gmap (list string)))].
  pose (l := (fun k => take (S k) p) <$> seq 0 (length p)).
  assert (NoDup l) as Hl.
  { unfold l. apply NoDup_fmap_2_strong; [|apply NoDup_seq]. intros i j Hi%elem_of_seq Hj%elem_of_seq E.
    apply (f_equal length) in E. rewrite !length_take in E. lia. }
  assert (length l = length p) as <- by (unfold l; by rewrite length_fmap, length_seq).
  rewrite <- (size_list_to_set (C := gset (list string)) l Hl). apply subseteq_size. intros q.
  rewrite elem_of_list_to_set. unfold l. intros (k & -> & Hk%elem_of_seq)%list_elem_of_fmap.
  apply (elem_of_dom (M := gmap (list string))).
  destruct (decide (S k = length p)) as [->|Hne]; [rewrite take_ge by lia; by exists n|].
  destruct (drop (S k) p) as [|c rest] eqn:Ed; [apply (f_equal length) in Ed; rewrite length_drop in Ed; cbn in Ed; lia|].
  specialize (Hr p n Hp (take (S k) p) c rest). rewrite <- Ed, take_drop in Hr. specialize (Hr eq_refl).
  exists Directory. by destruct p.
Qed.

(** ** What a walk visits *)

(** The files below [p] in the order of a walk, [h] levels down. *)
Fixpoint files (t : tree) (h : nat) (p : list string) : list (list string) :=
  match h with
  | O => []
  | S h' => entries t p ≫= fun cd => if isDir cd.2 then if hidden cd.1 then [] else files t h' (p ++ [cd.1]) else [p ++ [cd.1]]
  end.

Section Walk.
Context (fault : nat -> option string) (cwd : list string) (cancelled : nat -> option string).
Context (Hfault : forall n, fault n = None) (Hgo : forall n, cancelled n = None).
Context (t : tree) (Hplain : plainTree t).
Context {Acc : Type} (onFile : string -> node -> Acc -> M World (Acc * option walkErr)) (step : list string -> Acc -> Acc * option walkErr).

(** [m] gives [a] and leaves the tree. *)
Definition gives {A} (m : M World A) (a : A) : Prop := sends m t (fun r t' => r = a /\ t' = t).

Context (Hstep : forall p d acc, t !! p = Some d -> isDir d = false -> gives (onFile (render p) d acc) (step p acc)).
Context (Hskip : forall p acc, (step p acc).2 <> Some SkipDir).

Lemma gives_ret {A} (a : A) : gives (mret a) a.
Proof. by apply sends_ret. Qed.
Lemma gives_bind {A B} (m : M World A) (f : A -> M World B) a b : gives m a -> gives (f a) b -> gives (m ≫= f) b.
Proof. intros Hm Hf. apply sends_bind. eapply sends_mono; [exact Hm|]. by intros r t' [-> ->]. Qed.
Lemma gives_query {A} err (q : tree -> res errno A) a : q t = Ok a -> gives (query fault err q) (Ok a).
Proof. intros H k. unfold query, syscall. cbn [w_calls w_tree]. by rewrite Hfault, H. Qed.

Lemma gives_ReadDir p : dirAt t p -> gives (ReadDir fault cwd (render p)) (Ok (entries t p)).
Proof.
  intros Hd. apply gives_query. rewrite lookup_render by apply Hd.
  pose proof (kwalk_base 40 t true p [] Hd) as H. rewrite app_nil_r, kwalk_nil in H. destruct Hd as (_ & _ & Hn). rewrite Hn in H.
  rewrite H. done.
Qed.

(** Each file in turn, until one ends the walk. *)
Fixpoint visit (l : list (list string)) (acc : Acc) : Acc * option walkErr :=
  match l with
  | [] => (acc, None)
  | p :: l' => match step p acc with (acc, None) => visit l' acc | r => r end
  end.

Lemma visit_app l1 l2 acc : visit (l1 ++ l2) acc = match visit l1 acc with (acc, None) => visit l2 acc | r => r end.
Proof. revert acc. induction l1 as [|p l1 IH]; intros acc; [done|]. cbn. destruct (step p acc) as [acc' [e|]]; [done|apply IH]. Qed.
Lemma visit_skip l acc : (visit l acc).2 <> Some SkipDir.
Proof.
  revert acc. induction l as [|p l IH]; intros acc; [done|]. cbn. pose proof (Hskip p acc) as H.
  destruct (step p acc) as [acc' [e|]]; [done|apply IH].
Qed.

Notation walk := (walkDir fault cwd (onEntry cancelled onFile)).

Lemma gives_onEntry path name d acc r : (isDir d = true -> r = (acc, if hidden name then Some SkipDir else None)) ->
  (isDir d = false -> gives (onFile path d acc) r) -> gives (onEntry cancelled onFile path (Some (name, d)) None acc) r.
Proof.
  intros Hdir Hfile k. unfold onEntry. rewrite M_bind_eq. cbn [gets fst snd w_calls]. rewrite Hgo.
  destruct (isDir d); [by rewrite Hdir|by apply Hfile].
Qed.

Lemma walk_file f p c d acc : t !! (p ++ [c]) = Some d -> isDir d = false ->
  gives (walk (S f) (render (p ++ [c])) c d acc) (step (p ++ [c]) acc).
Proof.
  intros Hd Hf. cbn [walkDir]. eapply gives_bind; [apply gives_onEntry; [congruence|intros _; by apply Hstep]|].
  rewrite Hf, orb_true_r. unfold skipped. rewrite Hf, andb_false_r. destruct (step (p ++ [c]) acc). by apply sends_ret.
Qed.

Lemma walk_hidden f path c acc : hidden c = true -> gives (walk (S f) path c Directory acc) (acc, None).
Proof.
  intros Hh. cbn [walkDir]. eapply gives_bind; [apply (gives_onEntry _ _ _ _ (acc, Some SkipDir)); [by rewrite Hh|done]|]. cbn. by apply sends_ret.
Qed.

Lemma walk_entries f p ds (below : string * node -> list (list string)) acc : Forall plain p ->
  (forall c d acc, (c, d) ∈ ds -> plain c /\ gives (walk f (render (p ++ [c])) c d acc) (visit (below (c, d)) acc)) ->
  gives (walkEntries (walk f) (render p) ds acc) (visit (ds ≫= below) acc).
Proof.
  intros Hp. revert acc. induction ds as [|[c d] ds IH]; intros acc Hds; [by apply sends_ret|].
  cbn [walkEntries]. change (((c, d) :: ds) ≫= below) with (below (c, d) ++ (ds ≫= below)). rewrite visit_app.
  destruct (Hds c d acc) as [Hc Hw]; [left|]. rewrite Join_render by done. eapply gives_bind; [exact Hw|].
  pose proof (visit_skip (below (c, d)) acc) as Hs. destruct (visit (below (c, d)) acc) as [acc' [[]|]]; cbn in *; try by apply sends_ret.
  apply IH. intros c' d' acc'' Hin. apply Hds. by right.
Qed.

Lemma walk_files h f p name acc : dirAt t p -> hidden name = false -> h < f -> (forall q n, t !! q = Some n -> p `prefix_of` q -> length q <= length p + h) ->
  gives (walk f (render p) name Directory acc) (visit (files t h p) acc).
Proof.
  revert f p name acc. induction h as [|h IH]; intros f p name acc Hd Hn Hf Hh; (destruct f as [|f]; [lia|]); cbn [walkDir];
    (eapply gives_bind; [apply (gives_onEntry _ _ _ _ (acc, None)); [by rewrite Hn|done]|]); cbn [fst snd isDir negb orb];
    rewrite bool_decide_true by done; cbn [negb orb]; (eapply gives_bind; [by apply gives_ReadDir|]).
  - destruct (entries t p) as [|[c d] ds] eqn:E; [by apply sends_ret|]. exfalso.
    assert (t !! (p ++ [c]) = Some d) as Hc by (apply elem_of_entries; rewrite E; left).
    specialize (Hh _ _ Hc ltac:(by eexists)). rewrite length_app in Hh. cbn in Hh. lia.
  - cbn [files]. apply walk_entries; [apply Hd|]. intros c d acc' Hc%elem_of_entries.
    assert (plain c) as Hpc by (pose proof (Hplain _ _ Hc) as H; by apply Forall_app in H as [_ H%Forall_inv]). split; [done|]. cbn [fst snd].
    destruct f as [|f]; [lia|]. destruct (isDir d) eqn:Ed; [destruct d; try done|].
    + destruct (hidden c) eqn:Hhid; [by apply walk_hidden|]. apply IH; [|done|lia|].
      * destruct (dirAt_snoc _ _ _ Hd Hpc) as [H1 H2]. split_and!; [done..|]. by rewrite nodeAt_snoc.
      * intros q n Hq Hpre. rewrite length_app. cbn. enough (length q <= length p + S h) by lia. eapply Hh; [done|].
        destruct Hpre as [k ->]. exists (c :: k). by rewrite <- app_assoc.
    + cbn [visit]. pose proof (walk_file f p c d acc' Hc Ed) as Hw. destruct (step (p ++ [c]) acc') as [acc'' [e|]]; exact Hw.
Qed.

Lemma gives_gets {A} (f : tree -> A) : gives (gets (fun w => f (w_tree w))) (f t).
Proof. by intros k. Qed.
Lemma gives_cancelled : gives (gets (fun w => cancelled (w_calls w))) None.
Proof. intros k. by cbn; rewrite Hgo. Qed.

Lemma gives_WalkDir root acc : dirAt t root -> hidden (Base (render root)) = false -> rooted t ->
  gives (WalkDir fault cwd (onEntry cancelled onFile) (render root) acc)
    (let r := visit (files t (size t) root) acc in (r.1, match r.2 with Some SkipDir | Some SkipAll => None | e => e end)).
Proof.
  intros Hd Hh Hr. unfold WalkDir. eapply gives_bind; [apply (gives_gets (fun t => S (size t)))|]. eapply gives_bind.
  - apply (gives_query _ _ Directory). rewrite lookup_render by apply Hd.
    pose proof (kwalk_base 40 t false root [] Hd) as H. rewrite app_nil_r, kwalk_nil in H. destruct Hd as (_ & _ & Hn). rewrite Hn in H. by rewrite H.
  - cbn beta iota. eapply gives_bind; [apply (walk_files (size t)); [done|done|lia|]|apply gives_ret].
    intros q n Hq _. pose proof (length_size _ _ _ Hr Hq). lia.
Qed.
End Walk.

(** ** The files of a tree *)

(** What is below [p] at [rest], if it is no directory and no directory on the
    way from [p] is hidden. *)
Definition shown (t : tree) (p rest : list string) : Prop :=
  exists n, t !! (p ++ rest) = Some n /\ isDir n = false /\ rest <> [] /\ Forall (fun c => hidden c = false) (removelast rest).

Definition height (t : tree) (p : list string) (h : nat) : Prop := forall q n, t !! q = Some n -> p `prefix_of` q -> length q <= length p + h.

Lemma height_child t p h c : height t p (S h) -> height t (p ++ [c]) h.
Proof.
  intros H q n Hq Hpre. rewrite length_app. cbn. enough (length q <= length p + S h) by lia. eapply H; [done|].
  destruct Hpre as [k ->]. exists (c :: k). by rewrite <- app_assoc.
Qed.

Lemma elem_of_files t h p q : rooted t -> height t p h -> q ∈ files t h p <-> exists rest, q = p ++ rest /\ shown t p rest.
Proof.
  intros Hr. revert p. induction h as [|h IH]; intros p Hh.
  - split; [by intros ?%not_elem_of_nil|]. intros (rest & -> & n & Hn & _ & Hne & _). specialize (Hh _ _ Hn ltac:(by eexists)).
    rewrite length_app in Hh. destruct rest; [done|]. cbn in Hh. lia.
  - cbn [files]. rewrite list_elem_of_bind. split.
    + intros ([c d] & Hq & Hc%elem_of_entries). cbn [fst snd] in Hq. destruct (isDir d) eqn:Ed.
      * destruct (hidden c) eqn:Hhid; [by apply not_elem_of_nil in Hq|]. apply IH in Hq as (rest & -> & n & Hn & Hd & Hne & Hf); [|by apply height_child].
        exists (c :: rest). rewrite <- app_assoc in *. split; [done|]. exists n. split_and!; [done..|]. destruct rest; [done|]. by constructor.
      * apply list_elem_of_singleton in Hq as ->. exists [c]. split; [done|]. exists d. by split_and!.
    + intros (rest & -> & n & Hn & Hd & Hne & Hf). destruct rest as [|c rest]; [done|]. destruct rest as [|x rest].
      * exists (c, n). cbn [fst snd]. rewrite Hd. split; [by left|by apply elem_of_entries].
      * exists (c, Directory). cbn [fst snd isDir]. cbn [removelast] in Hf. apply Forall_cons in Hf as [Hc Hf]. rewrite Hc.
        split; [apply IH; [by apply height_child|]; exists (x :: rest); rewrite <- app_assoc; split; [done|]; exists n; by rewrite <- app_assoc|].
        apply elem_of_entries. specialize (Hr _ _ Hn (p ++ [c]) x rest). rewrite <- app_assoc, nodeAt_snoc in Hr. by apply Hr.
Qed.

Lemma files_prefix t h p q : q ∈ files t h p -> p `prefix_of` q.
Proof.
  revert p. induction h as [|h IH]; intros p; cbn [files]; [by intros ?%not_elem_of_nil|]. intros ([c d] & Hq & _)%list_elem_of_bind. cbn [fst snd] in Hq.
  destruct (isDir d); [destruct (hidden c); [by apply not_elem_of_nil in Hq|]; apply IH in Hq as [k ->]; rewrite <- app_assoc; by eexists|].
  apply list_elem_of_singleton in Hq as ->. by eexists.
Qed.

Lemma NoDup_files t h p : NoDup (files t h p).
Proof.
  revert p. induction h as [|h IH]; intros p; cbn [files]; [constructor|]. apply NoDup_bind.
  - intros [c d] [c' d'] q Hc%elem_of_entries Hc'%elem_of_entries Hq Hq'. assert (c = c') as <-; [|congruence].
    assert (forall c d, q ∈ (if isDir d then if hidden c then [] else files t h (p ++ [c]) else [p ++ [c]]) -> (p ++ [c]) `prefix_of` q) as Hpre.
    { intros x n. destruct (isDir n); [destruct (hidden x); [by intros ?%not_elem_of_nil|apply files_prefix]|by intros ->%list_elem_of_singleton]. }
    apply Hpre in Hq as [k ->], Hq' as [k' E]. rewrite <- !app_assoc in E. by apply app_inv_head in E as [= ->].
  - intros [c d] _. cbn [fst snd]. destruct (isDir d); [destruct (hidden c); [constructor|apply IH]|apply NoDup_singleton].
  - eapply NoDup_fmap_1, NoDup_entries.
Qed.

(** ** glob *)

Lemma JoinByte_inj l1 l2 : Forall plain l1 -> Forall plain l2 -> l1 <> [] -> l2 <> [] -> JoinByte slash l1 = JoinByte slash l2 -> l1 = l2.
Proof. intros H1 H2 Hn1 Hn2 E%(f_equal (SplitByte slash)). rewrite !SplitByte_elems in E by done. by destruct l1, l2. Qed.

Lemma relPath_render root rest : Forall plain (root ++ rest) -> rest <> [] -> relPath (render root) (render (root ++ rest)) = JoinByte slash rest.
Proof.
  intros Hp Hne. pose proof Hp as [Hr _]%Forall_app. unfold relPath. rewrite Rel_abs by apply isAbs_render.
  rewrite !elemsOf_renderPath by done. rewrite dropCommon_prefix. cbn [fmap list_fmap app]. rewrite !Clean_render by done.
  rewrite bool_decide_false; [done|]. intros E%render_inj; [|done..]. rewrite <- (app_nil_r root) in E at 2. by apply app_inv_head in E.
Qed.

Definition globStep (pattern : string) (root : list string) (maxResults : Z) (p : list string) (acc : list string * bool) : (list string * bool) * option walkErr :=
  let rel := relPath (render root) (render p) in
  if globMatch pattern rel then
    if bool_decide (Z.of_nat (length acc.1) >= maxResults)%Z then ((acc.1, true), Some SkipAll) else ((acc.1 ++ [rel], acc.2), None)
  else (acc, None).

Lemma visit_glob pattern root maxResults l found : (Z.of_nat (length found) <= maxResults)%Z ->
  let ms := filter (fun m => globMatch pattern m = true) ((fun p => relPath (render root) (render p)) <$> l) in
  (visit (globStep pattern root maxResults) l (found, false)).1 =
  (take (Z.to_nat maxResults) (found ++ ms), bool_decide (maxResults < Z.of_nat (length (found ++ ms)))%Z).
Proof.
  revert found. induction l as [|p l IH]; intros found Hf; cbn [fmap list_fmap visit].
  - rewrite filter_nil, app_nil_r. rewrite take_ge by lia. by rewrite bool_decide_false by lia.
  - unfold globStep at 1. cbn [fst snd]. destruct (globMatch pattern (relPath (render root) (render p))) eqn:E.
    + rewrite filter_cons_True by done. case_bool_decide as Hge; cbn [fst].
      * assert (maxResults = Z.of_nat (length found)) as -> by lia. rewrite Nat2Z.id, take_app_length. f_equal.
        rewrite length_app. cbn [length]. by rewrite bool_decide_true by lia.
      * rewrite IH by (rewrite length_app; cbn; lia). by rewrite <- app_assoc.
    + rewrite filter_cons_False by congruence. by apply IH.
Qed.

Lemma visit_glob_err pattern root maxResults l acc : match (visit (globStep pattern root maxResults) l acc).2 with Some SkipDir | Some SkipAll => None | e => e end = None.
Proof.
  revert acc. induction l as [|p l IH]; intros acc; [done|]. cbn [visit]. unfold globStep at 1.
  destruct (globMatch pattern (relPath (render root) (render p))); [|apply IH]. case_bool_decide; [done|apply IH].
Qed.

(** The relative paths of the files a walk visits. *)
Section Found.
Context (t : tree) (root : list string) (pattern : string) (Hrooted : rooted t) (Hplain : plainTree t).

Definition found : list string :=
  filter (fun m => globMatch pattern m = true) ((fun p => relPath (render root) (render p)) <$> files t (size t) root).

Lemma height_size p : height t p (size t).
Proof. intros q n Hq _. pose proof (length_size _ _ _ Hrooted Hq). lia. Qed.

Lemma elem_of_visited q : q ∈ files t (size t) root ->
  exists rest, q = root ++ rest /\ shown t root rest /\ Forall plain rest /\ rest <> [] /\ relPath (render root) (render q) = JoinByte slash rest.
Proof.
  intros (rest & -> & Hs)%elem_of_files; [|done|apply height_size]. exists rest. pose proof Hs as (n & Hn & _ & Hne & _). apply Hplain in Hn.
  split_and!; [done..|by apply Forall_app in Hn as [_ ?]|done|by apply relPath_render].
Qed.

Lemma NoDup_found : NoDup found.
Proof.
  apply NoDup_filter, NoDup_fmap_2_strong; [|apply NoDup_files]. intros p q Hp Hq E.
  apply elem_of_visited in Hp as (r1 & -> & _ & P1 & N1 & E1), Hq as (r2 & -> & _ & P2 & N2 & E2).
  f_equal. apply JoinByte_inj; [done..|]. congruence.
Qed.

Lemma elem_of_found m : m ∈ found <-> exists rest, m = JoinByte slash rest /\ shown t root rest /\ globMatch pattern m = true.
Proof.
  unfold found. rewrite list_elem_of_filter, list_elem_of_fmap. split.
  - intros (Hm & q & -> & Hq). apply elem_of_visited in Hq as (rest & -> & Hs & _ & _ & E). rewrite E in *. eauto.
  - intros (rest & -> & Hs & Hm). split; [done|]. assert (root ++ rest ∈ files t (size t) root) as Hin.
    { apply elem_of_files; [done|apply height_size|eauto]. }
    exists (root ++ rest). split; [|done]. destruct Hs as (n & Hn & _ & Hne & _). symmetry. apply relPath_render; [by eapply Hplain|done].
Qed.
End Found.

(** What a pattern means, by its parts between slashes: [**] stands for any
    number of names, every other part for one name that filepath.Match accepts. *)
Inductive fits : list string -> list string -> Prop :=
  | fits_nil : fits [] []
  | fits_name part name parts names : part <> "**" -> Match part name = Some true -> fits parts names -> fits (part :: parts) (name :: names)
  | fits_any skipped parts names : fits parts names -> fits ("**" :: parts) (skipped ++ names).

Definition parts (pattern : string) : list string := filter (fun part => part <> "") (SplitByte slash pattern).

(** The text of an answer that lists [ms], in their order. *)
Definition listing (ms : list string) (more : option Z) : string :=
  ("Found " +:+ itoa (Z.of_nat (length ms)) +:+ " file(s)" +:+
   match more with Some limit => " (truncated at " +:+ itoa limit +:+ ")" | None => "" end +:+ String newline "" +:+
   concatAll ((fun m => m +:+ String newline "") <$> ms))%string.

Lemma someTail_spec f path : someTail f path = true <-> exists skipped names, path = skipped ++ names /\ f names = true.
Proof.
  induction path as [|c path IH]; cbn [someTail].
  - rewrite orb_false_r. split; [intros H; by exists [], []|]. intros ([|] & [|] & [=] & H); done.
  - rewrite orb_true_iff, IH. split.
    + intros [H|(sk & names & -> & H)]; [by exists [], (c :: path)|by exists (c :: sk), names].
    + intros ([|x sk] & names & E & H); [left; cbn in E; by subst|right]. injection E as <- ->. by exists sk, names.
Qed.

Lemma matches_Match part name : matches part name = true <-> Match part name = Some true.
Proof. unfold matches. destruct (Match part name) as [[]|]; done. Qed.

Lemma fits_stars names : fits ["**"] names.
Proof. rewrite <- (app_nil_r names). by apply fits_any, fits_nil. Qed.

Lemma matchParts_fits ps names : matchParts ps names = true <-> fits ps names.
Proof.
  revert names. induction ps as [|p ps IH]; intros names; cbn [matchParts].
  - rewrite bool_decide_eq_true. split; [intros ->; constructor|by inversion 1].
  - case_bool_decide as Hp; [subst p; case_bool_decide as Hps|].
    + subst ps. split; [intros _; apply fits_stars|done].
    + rewrite someTail_spec. split.
      * intros (sk & rest & -> & H%IH). by apply fits_any.
      * inversion 1; subst; [done|]. eexists _, _. split; [done|by apply IH].
    + destruct names as [|c names]; [split; [done|]; inversion 1; subst; [by destruct (app_eq_nil skipped names)|..]; congruence|].
      rewrite andb_true_iff, matches_Match, IH. split; [intros []; by constructor|]. inversion 1; subst; [done|congruence].
Qed.

Lemma splitPath_plain rest : Forall plain rest -> rest <> [] -> splitPath (JoinByte slash rest) = rest.
Proof.
  intros Hp Hne. unfold splitPath. rewrite SplitByte_elems by done. destruct rest as [|c rest]; [done|].
  induction Hp as [|x l Hx Hl IH]; [done|]. rewrite filter_cons_True by by destruct Hx as [? _]. f_equal.
  destruct l as [|y l]; [done|]. by apply IH.
Qed.

Lemma globMatch_fits pattern rest : Forall plain rest -> rest <> [] -> globMatch pattern (JoinByte slash rest) = true <-> fits (parts pattern) rest.
Proof. intros Hp Hne. unfold globMatch. rewrite splitPath_plain by done. apply matchParts_fits. Qed.

Lemma globReport_listing ms truncated limit :
  globReport ms truncated limit = listing (sort_Strings ms) (if truncated then Some limit else None).
Proof. unfold globReport, listing. assert (length (sort_Strings ms) = length ms) as -> by apply Permutation_length, merge_sort_Permutation. by destruct truncated. Qed.

Section Glob.
Context (fault : nat -> option string) (cwd : list string) (overflow : float64 -> Z) (cancelled : nat -> option string).

Lemma glob_found rootDir params root w pattern limit
    (Hfault : forall n, fault n = None) (Hgo : forall n, cancelled n = None) (Hrooted : rooted (w_tree w)) (Hplain : plainTree (w_tree w))
    (Hroot : sends (EvalSymlinks fault cwd rootDir) (w_tree w) (fun r t' => r = Ok (render root) /\ t' = w_tree w))
    (Hdir : dirAt (w_tree w) root) (Hhid : hidden (Base (render root)) = false)
    (Hpattern : pattern = stringParam params "pattern") (Hne : pattern <> "")
    (Hlimit : limit = let m := intParam overflow params "max_results" defaultGlobMaxResults in if bool_decide (m <= 0)%Z then defaultGlobMaxResults else m) :
  exists ms, NoDup ms /\
    (forall m, m ∈ ms <-> exists rest, m = JoinByte slash rest /\ shown (w_tree w) root rest /\ globMatch pattern m = true) /\
    (executeGlob fault cwd overflow cancelled rootDir params w).1 =
      textResponse (match take (Z.to_nat limit) ms with [] => "no files matched" | found => globReport found (bool_decide (limit < Z.of_nat (length ms))%Z) limit end).
Proof.
  set (t := w_tree w) in *. exists (found t root pattern). split_and!; [by apply NoDup_found|intros m; by apply elem_of_found|].
  enough (gives t (executeGlob fault cwd overflow cancelled rootDir params)
    (textResponse (match take (Z.to_nat limit) (found t root pattern) with [] => "no files matched" | l => globReport l (bool_decide (limit < Z.of_nat (length (found t root pattern)))%Z) limit end))) as H.
  { destruct w as [t' k]. apply H. }
  unfold executeGlob. rewrite <- Hpattern, bool_decide_false by done. cbv zeta. cbv zeta in Hlimit. rewrite <- Hlimit.
  eapply gives_bind; [exact Hroot|]. cbn beta iota. eapply gives_bind.
  { apply (gives_WalkDir fault cwd cancelled Hfault Hgo t Hplain _ (globStep pattern root limit)); [|intros p acc; unfold globStep|done..].
    - intros p d acc _ _. apply gives_ret.
    - by repeat case_match. }
  cbn [fst snd].
  pose proof (visit_glob pattern root limit (files t (size t) root) []) as Hv. cbn [length app] in Hv. rewrite Hv; [|subst limit; case_bool_decide; unfold defaultGlobMaxResults in *; lia].
  rewrite visit_glob_err. fold (found t root pattern). cbn beta iota. eapply gives_bind; [by apply gives_cancelled|]. cbn beta iota.
  destruct (take (Z.to_nat limit) (found t root pattern)); apply gives_ret.
Qed.

(** C32: glob is complete.  Where no call fails and nothing is cancelled, and the
    root directory is found at [root], whose own name is not that of a hidden
    directory (nothing is found below one that is), [ms] lists without repetition
    the relative paths, of what is no directory and in no hidden directory below
    the root, that the pattern's parts fit: a part [**] any number of names, any
    other part one name.  Glob answers that there are none, or with a sorted list
    of them, all of them or as many as the limit allows, under a heading with
    their number, which says that the list is truncated exactly if there are more
    of them than the limit. *)
Theorem glob_complete rootDir params root w pattern limit
    (Hfault : forall n, fault n = None) (Hgo : forall n, cancelled n = None) (Hrooted : rooted (w_tree w)) (Hplain : plainTree (w_tree w))
    (Hroot : sends (EvalSymlinks fault cwd rootDir) (w_tree w) (fun r t' => r = Ok (render root) /\ t' = w_tree w))
    (Hdir : dirAt (w_tree w) root) (Hhid : hidden (Base (render root)) = false)
    (Hpattern : pattern = stringParam params "pattern") (Hne : pattern <> "")
    (Hlimit : limit = let m := intParam overflow params "max_results" 200 in if bool_decide (m <= 0)%Z then 200%Z else m) :
  exists ms listed, NoDup ms /\
    (forall m, m ∈ ms <-> exists rest, m = JoinByte slash rest /\ shown (w_tree w) root rest /\ fits (parts pattern) rest) /\
    listed ≡ₚ take (Z.to_nat limit) ms /\ Sorted String.le listed /\
    answer (executeGlob fault cwd overflow cancelled rootDir params w).1 =
      (if bool_decide (ms = []) then "no files matched" else listing listed (if bool_decide (limit < Z.of_nat (length ms))%Z then Some limit else None)).
Proof.
  destruct (glob_found rootDir params root w pattern limit Hfault Hgo Hrooted Hplain Hroot Hdir Hhid Hpattern Hne Hlimit) as (ms & Hnd & Hin & E).
  assert (0 < limit)%Z as Hpos by (rewrite Hlimit; clear; cbv zeta; destruct (bool_decide_reflect (intParam overflow params "max_results" 200 <= 0)%Z); lia).
  exists ms, (sort_Strings (take (Z.to_nat limit) ms)). split_and!; [done| |apply merge_sort_Permutation|apply sort_Strings_Sorted|].
  - intros m. rewrite Hin. split; intros (rest & -> & Hs & Hm); exists rest; (split; [done|]; split; [done|]);
      pose proof Hs as (n & Hn & _ & Hr & _); apply Hplain, Forall_app in Hn as [_ Hn]; by apply globMatch_fits.
  - rewrite E. unfold answer, textResponse. cbn [tp_Content]. destruct (bool_decide_reflect (ms = [])) as [Hms|Hms]; [by rewrite Hms, take_nil|]. destruct ms as [|m ms]; [done|].
    rewrite <- globReport_listing. destruct (Z.to_nat limit) as [|k] eqn:Ek; [lia|]. done.
Qed.
End Glob.

(** ** Runs *)

Definition globParams : gmap string any := {["pattern" := AString "**/*u*"]}.
Definition never (n : nat) : option string := None.
Definition zeroF (f : float64) : Z := 0.

#[export] Instance plain_dec e : Decision (plain e).
Proof. unfold plain. apply _. Defined.
Lemma plain_t0 : plainTree Linked.t0.
Proof.
  assert (map_Forall (fun p _ => Forall plain p) (Linked.t0 : gmap (list string) node)) as H by (apply (bool_decide_unpack _); vm_compute; exact I).
  intros p n Hp. exact (H p n Hp).
Qed.
Lemma dirAt_w : dirAt Linked.t0 ["w"].
Proof.
  split; [by repeat constructor|]. split; [|reflexivity]. intros q c rest E. destruct q as [|x q]; [done|]. injection E as _ E. by destruct q.
Qed.
Lemma resolves_w : sends (EvalSymlinks never [] "/w") Linked.t0 (fun r t' => r = Ok (renderPath true ["w"]) /\ t' = Linked.t0).
Proof. intros k. split; reflexivity. Qed.

Lemma glob_complete_witness :
  exists ms listed, NoDup ms /\
    (forall m, m ∈ ms <-> exists rest, m = JoinByte slash rest /\ shown (w_tree Linked.world) ["w"] rest /\ fits (parts "**/*u*") rest) /\
    listed ≡ₚ take (Z.to_nat 200) ms /\ Sorted String.le listed /\
    answer (executeGlob never [] zeroF never "/w" globParams Linked.world).1 =
      (if bool_decide (ms = []) then "no files matched" else listing listed (if bool_decide (200 < Z.of_nat (length ms))%Z then Some 200%Z else None)).
Proof.
  apply (glob_complete never [] zeroF never "/w" globParams ["w"] Linked.world "**/*u*" 200);
    [reflexivity|reflexivity|exact Linked.rooted_t0|exact plain_t0|exact resolves_w|exact dirAt_w|reflexivity|vm_compute; reflexivity|discriminate|vm_compute; reflexivity].
Defined.

Definition globAnswer (rootDir : string) (t : tree) (params : list (string * any)) : string :=
  answer (executeGlob never [] zeroF never rootDir (list_to_map params) (mkWorld t 0)).1.
Definition grepAnswer (t : tree) (params : list (string * any)) : string :=
  answer (executeGrep never [] zeroF never (fun _ => Err "no regular expressions here") "/w" (list_to_map (("literal", ABool true) :: params)) (mkWorld t 0)).1.

(** Symbolic links are found, and not followed; a hidden root hides everything. *)
Example glob_runs :
  globAnswer "/w" Linked.t0 [("pattern", AString "**/*u*")] = ("Found 3 file(s)" +:+ nl +:+ "out" +:+ nl +:+ "run.sh" +:+ nl +:+ "up" +:+ nl)%string /\
  globAnswer "/w" Linked.t0 [("pattern", AString "*"); ("max_results", AInt 2)] = ("Found 2 file(s) (truncated at 2)" +:+ nl +:+ "out" +:+ nl +:+ "run.sh" +:+ nl)%string /\
  globAnswer "/.w" (list_to_map [([".w"], Directory); ([".w"; "a"], File "" 420)]) [("pattern", AString "*")] = "no files matched".
Proof. vm_compute. repeat split. Qed.

(** A search that has found as many lines as it may says that it is truncated
    when any line is left, whether that line matches or not. *)
Example grep_truncated :
  grepAnswer (list_to_map [(["w"], Directory); (["w"; "a"], File ("x" +:+ nl +:+ "y") 420)]) [("pattern", AString "x"); ("max_results", AInt 1)] =
  ("Found 1 match(es) (truncated at 1)" +:+ nl +:+ nl +:+ "a:1:1: x" +:+ nl)%string.
Proof. vm_compute. reflexivity. Qed.
