(* ===== verification/ToolsBackend.v ===== *)
(** * ToolsBackend: the local backend as a whole

    The table of the tools, which calls leave the file system alone, and what any
    call of a file tool through the backend may change. *)

From Stdlib Require Import Ascii String.
From S2P Require Import Prelude GoStrings GoText GoJsonText GoFloat GoJson GoPath GoFiles AiTypes AgentTypes SandboxExecute Tools ToolsSearch ToolsExec ToolsEffects ToolsProps.

Local Open Scope string_scope.
Local Open Scope list_scope.
Local Open Scope stdpp_scope.
Local Open Scope go_scope.

Section Reads.
Context (fault : nat -> option string) (cwd : list string) (random : nat -> Z) (overflow : float64 -> Z).
Context (cancelled : nat -> option string) (Compile : string -> res string (string -> option Z)).

(** ** Calls that leave the tree *)

Lemma keeps_query {A} err (q : tree -> res errno A) : keeps w_tree (query fault err q).
Proof. intros w. unfold query, syscall. destruct (fault (w_calls w)); [done|]. by destruct (q (w_tree w)). Qed.
Lemma keeps_onNode {A} op follow path (f : list string -> node -> res errno A) : keeps w_tree (onNode fault cwd op follow path f).
Proof. apply keeps_query. Qed.

Lemma evalSym_unfold links rooted dest todo w :
  evalSym fault cwd links rooted dest todo w =
  match todo with
  | [] => (Ok (rooted, dest), w)
  | c :: todo' =>
      (if bool_decide (c = "") || bool_decide (c = ".") then evalSym fault cwd links rooted dest todo'
       else if bool_decide (c = "..") then evalSym fault cwd links rooted (backUp rooted dest) todo'
       else estep fault cwd links rooted dest c todo') w
  end.
Proof. destruct links, todo; reflexivity. Qed.

Lemma keeps_evalSym links rooted dest todo : keeps w_tree (evalSym fault cwd links rooted dest todo).
Proof.
  revert rooted dest todo. induction links as [links IHl] using lt_wf_ind. intros rooted dest todo. revert rooted dest.
  induction todo as [|c todo IH]; intros rooted dest w; rewrite evalSym_unfold; [done|].
  destruct (bool_decide (c = "") || bool_decide (c = ".")); [apply IH|]. destruct (bool_decide (c = "..")); [apply IH|]. revert w.
  change (keeps w_tree (estep fault cwd links rooted dest c todo)). unfold estep. apply keeps_bind; [apply keeps_onNode|].
  intros [[|data perm|l]|e]; [apply IH|destruct (bool_decide (todo = [])); [apply IH|apply keeps_ret]| |apply keeps_ret].
  destruct links as [|links]; [apply keeps_ret|]. apply keeps_bind; [apply keeps_onNode|]. intros [l'|e]; [apply IHl; lia|apply keeps_ret].
Qed.

Lemma keeps_EvalSymlinks path : keeps w_tree (EvalSymlinks fault cwd path).
Proof. apply keeps_bind; [apply keeps_evalSym|intros; apply keeps_ret]. Qed.
Lemma keeps_ReadFile path : keeps w_tree (ReadFile fault cwd path).
Proof. apply keeps_bind; [apply keeps_onNode|]. intros [p|e]; [apply keeps_query|apply keeps_ret]. Qed.
Lemma keeps_ReadDir path : keeps w_tree (ReadDir fault cwd path).
Proof. apply keeps_query. Qed.

Lemma keeps_resolveSafePath rootDir path : keeps w_tree (resolveSafePath fault cwd rootDir path).
Proof.
  unfold resolveSafePath. destruct (bool_decide _); [apply keeps_ret|]. apply keeps_bind; [|intros [s|e]; [|apply keeps_ret]].
  - unfold resolveWithAncestors. apply keeps_bind; [apply keeps_EvalSymlinks|]. intros [s|e]; [apply keeps_ret|]. destruct (IsNotExist e); [|apply keeps_ret].
    generalize (absPath rootDir path) at 3 as cur. generalize (@nil string) as tail.
    induction (S (String.length (absPath rootDir path))) as [|fuel IH]; intros tail cur; cbn [ancestorLoop]; [apply keeps_ret|].
    destruct (bool_decide _); [apply keeps_ret|]. apply keeps_bind; [apply keeps_EvalSymlinks|]. intros [s|e']; [apply keeps_ret|].
    destruct (IsNotExist e'); [apply IH|apply keeps_ret].
  - apply keeps_bind; [apply keeps_EvalSymlinks|intros; apply keeps_ret].
Qed.

(** A walk with a function that leaves the tree. *)
Section Walk.
Context {Acc : Type} (fn : string -> option (string * node) -> option fileError -> Acc -> M World (Acc * option walkErr)).
Context (Hfn : forall path d err acc, keeps w_tree (fn path d err acc)).

Lemma keeps_walkDir fuel path name d acc : keeps w_tree (walkDir fault cwd fn fuel path name d acc).
Proof.
  revert path name d acc. induction fuel as [|fuel IH]; intros path name d acc; cbn [walkDir]; [apply keeps_ret|].
  apply keeps_bind; [apply Hfn|]. intros r. destruct (negb _ || _); [apply keeps_ret|]. apply keeps_bind; [apply keeps_ReadDir|].
  intros [dirs|e]; [|apply keeps_bind; [apply Hfn|intros; apply keeps_ret]]. revert r. intros [acc' err]. cbn [fst]. clear err. revert acc'.
  induction dirs as [|[c n] dirs IHd]; intros acc'; cbn [walkEntries]; [apply keeps_ret|]. apply keeps_bind; [apply IH|].
  intros [acc'' [[]|]]; [apply keeps_ret..|apply IHd].
Qed.

Lemma keeps_WalkDir root acc : keeps w_tree (WalkDir fault cwd fn root acc).
Proof.
  apply keeps_bind; [apply keeps_gets|]. intros depth. apply keeps_bind; [apply keeps_onNode|]. intros info.
  apply keeps_bind; [destruct info; [apply keeps_walkDir|apply Hfn]|intros; apply keeps_ret].
Qed.
End Walk.

Lemma keeps_onEntry {Acc} (onFile : string -> node -> Acc -> M World (Acc * option walkErr)) path d err acc :
  (forall path d acc, keeps w_tree (onFile path d acc)) -> keeps w_tree (onEntry cancelled onFile path d err acc).
Proof.
  intros H. unfold onEntry. destruct d as [[name d]|], err; try apply keeps_ret. apply keeps_bind; [apply keeps_gets|].
  intros [text|]; [apply keeps_ret|]. destruct (isDir d); [apply keeps_ret|apply H].
Qed.

Lemma keeps_executeReadFile rootDir params : keeps w_tree (executeReadFile fault cwd overflow rootDir params).
Proof.
  unfold executeReadFile. destruct (bool_decide _); [apply keeps_ret|]. apply keeps_bind; [apply keeps_resolveSafePath|].
  intros [s|e]; [|apply keeps_ret]. apply keeps_bind; [apply keeps_onNode|]. intros [n|e]; [|apply keeps_ret].
  destruct (isDir n); [apply keeps_ret|]. destruct (bool_decide _); [apply keeps_ret|]. apply keeps_bind; [apply keeps_ReadFile|intros; apply keeps_ret].
Qed.

Lemma keeps_executeGlob rootDir params : keeps w_tree (executeGlob fault cwd overflow cancelled rootDir params).
Proof.
  unfold executeGlob. destruct (bool_decide _); [apply keeps_ret|]. apply keeps_bind; [apply keeps_EvalSymlinks|]. intros [s|e]; [|apply keeps_ret].
  apply keeps_bind; [|intros [[found truncated] err]; apply keeps_bind; [apply keeps_gets|intros; apply keeps_ret]].
  apply keeps_WalkDir. intros path d err acc. apply keeps_onEntry. intros; apply keeps_ret.
Qed.

Lemma keeps_executeGrep rootDir params : keeps w_tree (executeGrep fault cwd overflow cancelled Compile rootDir params).
Proof.
  unfold executeGrep. destruct (bool_decide _); [apply keeps_ret|]. cbv zeta. destruct (if boolParam params "literal" then _ else _) as [find|e]; [|apply keeps_ret].
  apply keeps_bind; [apply keeps_EvalSymlinks|]. intros [s|e]; [|apply keeps_ret].
  apply keeps_bind; [|intros [[found truncated] err]; apply keeps_bind; [apply keeps_gets|intros; apply keeps_ret]].
  apply keeps_WalkDir. intros path d err acc. apply keeps_onEntry. intros path' [| |] acc'; cbn [grepFile]; try apply keeps_ret.
  destruct (_ && _); [apply keeps_ret|]. destruct (_ && _); [apply keeps_ret|]. apply keeps_bind; [apply keeps_ReadFile|intros; apply keeps_ret].
Qed.
End Reads.

(** ** The table *)

Section Backend.
Context (fault : nat -> option string) (cwd : list string) (random : nat -> Z) (overflow : float64 -> Z).
Context (cancelled : nat -> option string) (Compile : string -> res string (string -> option Z)).
Context (Run : Z -> string -> list string -> string -> M World commandResult).

Notation builtinTools := (builtinTools fault cwd random overflow cancelled Compile Run).
Notation NewLocalBackend := (NewLocalBackend fault cwd random overflow cancelled Compile Run).

Definition toolNames : list string :=
  ["read_file"; "write_file"; "edit_file"; "grep"; "glob"; "bash"; "git_status"; "git_diff"; "git_log"; "git_show"; "git_add"; "git_commit"].
Lemma toolNames_eq rootDir : ti_name <$> builtinTools rootDir = toolNames.
Proof. reflexivity. Qed.

Lemma lookup_table (l : list toolImpl) (m : gmap string toolImpl) name : NoDup (ti_name <$> l) ->
  foldl (fun m t => <[ti_name t := t]> m) m l !! name = match list_find (fun t => ti_name t = name) l with Some (_, t) => Some t | None => m !! name end.
Proof.
  revert m. induction l as [|t l IH]; intros m Hd; [done|]. cbn [fmap list_fmap] in Hd. apply NoDup_cons in Hd as [Hn Hd]. cbn [foldl list_find]. rewrite IH by done.
  destruct (decide (ti_name t = name)) as [<-|Hne].
  - destruct (list_find (fun t' => ti_name t' = ti_name t) l) as [[i t']|] eqn:E; [|by rewrite lookup_insert_eq].
    exfalso. apply list_find_Some in E as (Hi & E & _). apply Hn. rewrite <- E. apply list_elem_of_fmap. exists t'. split; [done|by eapply list_elem_of_lookup_2].
  - destruct (list_find (fun t' => ti_name t' = name) l) as [[i t']|]; cbn; [done|by rewrite lookup_insert_ne].
Qed.

Lemma NoDup_toolNames : NoDup toolNames.
Proof. apply (bool_decide_unpack _). vm_compute. exact I. Qed.

Lemma lookup_backend rootDir name :
  lb_tools (NewLocalBackend rootDir) !! name = match list_find (fun t => ti_name t = name) (builtinTools rootDir) with Some (_, t) => Some t | None => None end.
Proof.
  unfold ToolsExec.NewLocalBackend. cbn [lb_tools]. rewrite lookup_table by (rewrite toolNames_eq; apply NoDup_toolNames). by rewrite lookup_empty.
Qed.

(** Every tool of the table is reached under its name, and nothing else is. *)
Lemma ExecuteTool_spec rootDir req :
  ExecuteTool (NewLocalBackend rootDir) req =
  match list_find (fun t => ti_name t = tq_ToolName req) (builtinTools rootDir) with
  | Some (_, t) => r ← ti_execute t (tq_Params req); mret (Ok r)
  | None => mret (Err ("unknown tool: " +:+ tq_ToolName req)%string)
  end.
Proof. unfold ExecuteTool. rewrite lookup_backend. by destruct (list_find _ _) as [[i t]|]. Qed.

Definition commandTools : list string := ["bash"; "git_status"; "git_diff"; "git_log"; "git_show"; "git_add"; "git_commit"].

Lemma file_tool_contained rootDir params root w t (Habs : isAbs rootDir = true) (Hrooted : rooted (w_tree w)) (Hat : rootAt (w_tree w) rootDir root) :
  t ∈ builtinTools rootDir -> ti_name t ∉ commandTools -> forall p, w_tree (ti_execute t params w).2 !! p <> w_tree w !! p ->
  ti_name t ∈ ["write_file"; "edit_file"] /\ (root `prefix_of` p \/ beside (w_tree w) root p).
Proof.
  intros Hi Hname. unfold ToolsExec.builtinTools in Hi.
  repeat (apply elem_of_cons in Hi as [->|Hi]; [cbn [ti_name ti_execute readFileTool writeFileTool editFileTool grepTool globTool bashTool
    gitStatusTool gitDiffTool gitLogTool gitShowTool gitAddTool gitCommitTool] in Hname |- *; try (exfalso; apply Hname, (bool_decide_unpack _); vm_compute; exact I)|]);
    try by apply not_elem_of_nil in Hi.
  - intros p. by rewrite keeps_executeReadFile.
  - pose proof (sends_at _ w _ (sends_executeWriteFile fault cwd random rootDir params root _ Habs Hrooted Hat)) as [H _].
    intros p Hp. split; [left|by apply H].
  - pose proof (sends_at _ w _ (sends_executeEditFile fault cwd random rootDir params root _ Habs Hrooted Hat)) as [H _].
    intros p Hp. split; [right; left|by apply H].
  - intros p. by rewrite keeps_executeGrep.
  - intros p. by rewrite keeps_executeGlob.
Qed.

(** C4: the local backend stays in its root, where the root directory is given by
    an absolute path (see [relative_root_escapes] for one that is not).  A request for any tool that runs no
    command is answered when the tool is one of the five file tools, and refused
    as unknown otherwise; under any symbolic links and failures what it changes
    is below the place where the root directory is found, a temporary file beside
    it apart, and only write_file and edit_file change anything. *)
Theorem local_backend_contained rootDir req root w
    (Habs : isAbs rootDir = true) (Hrooted : rooted (w_tree w)) (Hat : rootAt (w_tree w) rootDir root) (Hname : tq_ToolName req ∉ commandTools) :
  let '(r, w') := ExecuteTool (NewLocalBackend rootDir) req w in
  is_Ok r = bool_decide (tq_ToolName req ∈ toolNames) /\
  (forall p, w_tree w' !! p <> w_tree w !! p ->
     tq_ToolName req ∈ ["write_file"; "edit_file"] /\ (root `prefix_of` p \/ beside (w_tree w) root p)).
Proof.
  rewrite ExecuteTool_spec. destruct (list_find _ (builtinTools rootDir)) as [[i t]|] eqn:E.
  - apply list_find_Some in E as (Hi & Ht & _). apply list_elem_of_lookup_2 in Hi. rewrite M_bind_eq. cbn. rewrite <- Ht in Hname |- *.
    assert (ti_name t ∈ toolNames) as Hin by (rewrite <- (toolNames_eq rootDir); by apply list_elem_of_fmap_2). rewrite bool_decide_true by done. split; [done|].
    by apply (file_tool_contained rootDir).
  - cbn. split; [|done]. symmetry. apply bool_decide_false. rewrite <- (toolNames_eq rootDir). intros (t & Hn & Ht)%list_elem_of_fmap.
    apply list_find_None in E. rewrite Forall_forall in E. by apply (E t).
Qed.
End Backend.

Lemma local_backend_contained_witness :
  let b := NewLocalBackend Linked.none [] Linked.clock (fun _ => 0%Z) Linked.none (fun _ => Err "") (fun _ _ _ _ => mret (mkCommandResult "" "" None false 0)) "/w" in
  "write_file" ∉ commandTools /\
  let '(r, w') := ExecuteTool b (mkToolRequest "write_file" "call" Linked.writeParams) Linked.world in
  is_Ok r = bool_decide ("write_file" ∈ toolNames) /\
  (forall p, w_tree w' !! p <> w_tree Linked.world !! p ->
     "write_file" ∈ ["write_file"; "edit_file"] /\ (["w"] `prefix_of` p \/ beside (w_tree Linked.world) ["w"] p)).
Proof.
  cbv zeta. assert ("write_file" ∉ commandTools) as Hn by (apply (bool_decide_unpack _); vm_compute; exact I). split; [exact Hn|].
  apply (local_backend_contained Linked.none [] Linked.clock (fun _ => 0%Z) Linked.none (fun _ => Err "") _ "/w" (mkToolRequest "write_file" "call" Linked.writeParams) ["w"] Linked.world);
    [reflexivity|exact Linked.rooted_t0|exact Linked.at_w|exact Hn].
Defined.

(** ** Runs *)

Module Runs.
Definition zero (f : float64) : Z := 0.
Definition noRegexp (s : string) : res string (string -> option Z) := Err "no regular expressions here".

(** A runner that answers with its arguments, one that was stopped at the
    deadline, and one that fails with a long message. *)
Definition echo (timeout : Z) (name : string) (args : list string) (dir : string) : M World commandResult :=
  mret (mkCommandResult (Join (name :: args) " ") "" None false 0).
Definition killed (timeout : Z) (name : string) (args : list string) (dir : string) : M World commandResult :=
  mret (mkCommandResult "" "" (Some (ExitError (-1))) true timeout).

Definition backend (run : Z -> string -> list string -> string -> M World commandResult) : LocalBackend :=
  NewLocalBackend Linked.none [] Linked.clock zero Linked.none noRegexp run "/w".
Definition call (run : Z -> string -> list string -> string -> M World commandResult) (name : string) (params : list (string * any)) : string * option Z :=
  match (ExecuteTool (backend run) (mkToolRequest name "call" (list_to_map params)) Linked.world).1 with
  | Ok r => (answer r, tp_ExitCode r)
  | Err e => (e, None)
  end.

(** With a relative root that begins with ".." the check compares spellings that
    begin alike, and a path that climbs once more is taken for one below the root:
    the file written is outside of it. *)
Definition home : World := mkWorld (list_to_map [(["a"], Directory); (["a"; "b"], Directory); (["a"; "b"; "c"], Directory)]) 0.
Definition climb : gmap string any := {["path" := AString "../secret"; "content" := AString "x"]}.
Example relative_root_escapes :
  let '(resp, w) := executeWriteFile Linked.none ["a"; "b"; "c"] Linked.clock ".." climb home in
  answer resp = "wrote 1 bytes to ../secret" /\ lookupPath ["a"; "b"; "c"] (w_tree home) true ".." = At ["a"; "b"] Directory /\
  w_tree home !! ["a"; "secret"] = None /\ w_tree w !! ["a"; "secret"] = Some (File "x" perm644).
Proof. vm_compute. repeat split. Qed.

(** A ref that looks like an option is one for git, and so is a path of git_add;
    paths of git_diff come after "--". *)
Example git_options :
  call echo "git_show" [("ref", AString "--output=/etc/cron.d/x")] = ("git show --output=/etc/cron.d/x", Some 0%Z) /\
  call echo "git_add" [("paths", AArray [AString "-A"])] = ("git add -A", Some 0%Z) /\
  call echo "git_diff" [("path", AString "-x")] = ("git diff -- -x", Some 0%Z) /\
  call echo "git_log" [("n", AInt 1000)] = ("git log -n100 --format=%H %an %ai %s", Some 0%Z) /\
  call echo "rm" [] = ("unknown tool: rm", None).
Proof. vm_compute. repeat split. Qed.

(** A command stopped at its deadline has the exit code of a killed process, and
    git's answer does not mention the deadline. *)
Example stopped_at_deadline :
  call killed "bash" [("cmd", AString "sleep 9"); ("timeout_ms", AInt 1500)] =
    ("(timed out after 1.5s)" +:+ nl +:+ nl +:+ "Exit code: -1" +:+ nl +:+ "Duration: 1.5s", Some (-1)%Z)%string /\
  call killed "git_status" [] = ("(no output)", Some (-1)%Z).
Proof. vm_compute. repeat split. Qed.

(** The standard error of git is not cut. *)
Lemma git_stderr_whole (s : string) : s <> "" -> gitText (mkCommandResult "" s (Some (ExitError 128)) false 0) = s.
Proof. by destruct s. Qed.

(** The schemas are JSON objects whose required members are among their
    properties. *)
Definition member (name : string) (v : json) : option json :=
  match v with JObject ms => snd <$> find (fun m => bool_decide (m.1 = name)) ms | _ => None end.
Definition schemaOk (t : toolImpl) : bool :=
  match parse (schemaText (ti_schema t)) with
  | Some v =>
      match member "type" v, member "properties" v, member "required" v with
      | Some (JString ty), Some (JObject props), Some (JArray req) =>
          bool_decide (ty = "object") && forallb (fun r => match r with JString s => bool_decide (s ∈ props.*1) | _ => false end) req
      | _, _, _ => false
      end
  | None => false
  end.
Example schemas_ok : forallb schemaOk (toolSchemas Linked.none [] Linked.clock zero Linked.none noRegexp echo) = true.
Proof. vm_compute. reflexivity. Qed.
End Runs.
